(* ===== verification/_CoqProject ===== *)
-Q . S2P
Prelude.v
RustStd.v
Json.v
Types.v
Errors.v
Grants.v
Manifest.v
Platform.v
Ledger.v
Registry.v
Broker.v
BrokerFacts.v
Artifacts.v
Surfaces.v
Router.v
Invocation.v
Durable.v
KernelState.v
KernelGrants.v
KernelInstall.v
KernelInvoke.v
KernelBoot.v
Durability.v
Operations.v
Session.v
Scenario.v
SessionFacts.v
InvokeFacts.v
FinalizeFacts.v
LifecycleFacts.v
AuthorityFacts.v
Findings.v
Witnesses.v
RustText.v
AtomicJson.v
FileStore.v
JsonOps.v
ToolMapping.v
RemoteAuth.v
RemoteAuthFacts.v
Packages.v
PublisherTrust.v
AppData.v
UpdateJournal.v
AppManager.v
UpdateDriver.v
AppManagerFacts.v
UpdateFacts.v
SurfaceUi.v
PermissionsApp.v
ArtifactsApp.v
ManagedData.v
ManagedDataFacts.v
ManagedV2.v
ManagedV2Store.v
ManagedV2Requests.v
ManagedV2Facts.v
ManagedV2BlobFacts.v
ManagedExports.v
PackageChecks.v
InvocationScopes.v
Drive.v
FileResources.v
FileResourcesFacts.v
ChatModelProfiles.v
ChatStore.v
ChatStoreFacts.v
HostDemo.v
ManagedDemo.v
HostWitnesses.v
ManagedWitnesses.v
PackageInspect.v
PackageStaging.v
AppInstall.v
PackageWitnesses.v
TransitionPlans.v
InstallWitnesses.v
ChatSend.v
ChatApp.v
ChatWitnesses.v
