(* ===== verification/Prelude.v ===== *)
(** * Kestral: a verification development of the kernel and the host

    Kestral is a desktop host for apps that offer capabilities to agents, users and
    each other. Its core is the crate [src/crates/kernel]: a synchronous state
    machine, driven by the host, that owns every decision about authority. Apps are
    installed from sealed manifests; authority is held as grants; work happens in
    runs; every run, grant, invocation and artifact leaves a record in an
    append-only ledger; and every change is committed to a durable store before the
    kernel acts on it. Around it, [src/host/src-tauri/src] keeps the files: the
    kernel's state, the installed packages and their revisions, the update journal,
    the data of the apps, trusted publishers, remote sign-in, the conversations of
    its chat, the files the owner opens to apps, and it turns capabilities into tools and surfaces into documents. This library models the
    whole crate and the host's own state machines, and proves what the rest of the
    system relies on.

    ** The kernel and its model

    The kernel composes five services, which never call each other; [kernel.rs]
    orchestrates them.

    - [Prelude]: outcomes ([Ok], [Err] and an unwinding [Panic]), the state-and-error
      monad [st] the stateful code is written in, the invariants-through-the-monad
      vocabulary ([preserves], [frames]) with its tactics, the hint database
      [kestral], and lemmas on lists and options.
    - [RustStd], [RustText]: what the code uses of Rust's library: [BTreeMap] and
      [BTreeSet] with their iteration order, byte strings and character boundaries,
      wrapping 64-bit counters, [checked_add] on dates, decimal printing and parsing.
    - [Json], [JsonOps], [Types], [Errors]: [serde_json::Value], the identifiers
      ([ids.rs]), the primitives ([primitives/*.rs]) and the error enum ([errors.rs]).
    - [Grants]: [primitives/grant.rs], coverage and validity of scopes, expiry.
    - [Manifest]: [manifest.rs], the app manifest, its consistency check and the
      upgrade contract. [Registry]: [services/registry.rs] and the sealing of
      manifests.
    - [Platform]: the surroundings as type classes: [Libraries] (JSON schema
      validation, serialisation, hashing, range of dates), [Environment] (wall
      clock, monotonic clock, UUIDs), [TrustedChrome] ([services/chrome.rs], the
      prompts). Their effects are threaded through an abstract world [W].
    - [Ledger]: [services/ledger.rs], records, run index, batches,
      read model, replay and recovery.
    - [Broker], [BrokerFacts]: [services/broker.rs], issuing, checking, revoking,
      secrets.
    - [Artifacts]: [services/artifacts.rs]. [Surfaces]: [services/surfaces.rs].
      [Router]: [services/router.rs], inboxes and leases.
    - [Invocation]: [invocation.rs], the handler contract, cancellation flags (a heap
      of shared atomics) and paced progress reports. [Durable]: [durable.rs], the
      store as a class [KernelStateStore] with its laws and the in-memory instance.
    - [KernelState], [KernelGrants], [KernelInstall], [KernelInvoke], [KernelBoot]:
      [kernel.rs], split by concern: state, tokens and the commit discipline;
      authority; installation, upgrade and removal; runs, the three-phase action
      path and surfaces; recovery.
    - [Durability], [Operations], [Session]: the durable invariants as a class, the
      proof that every operation keeps any of them, and the public interface as a
      step relation with its reachable states.
    - [Scenario]: a concrete host ([Host]) in which whole sessions evaluate.
    - [SessionFacts], [InvokeFacts], [FinalizeFacts], [LifecycleFacts],
      [AuthorityFacts], [Findings], [Witnesses]: the theorems on the kernel, three
      sessions its own recovery rejects, and concrete instances.

    A method taking [&mut self] is a computation of [st (Kernel W S) KernelError]; a
    method taking [&self] and not reading a clock is a function; an early return is
    the error of the monad; the panics of [expect], indexing and date arithmetic are
    [Panic]. Mutexes and [Arc]s disappear, except for the cancellation flags, which
    are shared between a pending invocation, its tokens and a running handler and
    live in [k_flags]. Phase tokens are linear values in Rust; here nothing prevents
    a host from presenting a token twice, and the theorems hold all the same.

    ** The host and its model

    - [AtomicJson]: [atomic_json.rs] over a directory with pending entries, scheduled
      device failures and power loss ([crash]).
    - [FileStore]: [kernel_state.rs], an instance of the kernel's persistence port with
      its laws, so that the kernel's theorems hold over files.
    - [ToolMapping], [InvocationScopes]: [tool_mapping.rs] and the data scope a call of a
      generated capability is given.
    - [Packages], [PackageChecks], [PackageInspect], [PackageStaging]: [package.rs]: the
      package document, paths, source tree and digest; the structural check with the
      schemas of generated capabilities; inspection and translation to a manifest;
      staging from a directory that may change, and copying. [PublisherTrust]:
      [publisher_trust.rs].
    - [AppData]: [app_data.rs], revision directories, staging, commit, rollback.
      [UpdateJournal], [AppManager], [UpdateDriver], [AppManagerFacts], [UpdateFacts]:
      [app_manager/update_journal.rs], [app_manager.rs] and the journaled update of
      [lib.rs]. [AppInstall]: installing an inspected package. [TransitionPlans]: the
      review of an update and its plan.
    - [RemoteAuth], [RemoteAuthFacts]: [remote_auth.rs]. [SurfaceUi]: [surface_ui.rs].
      [PermissionsApp]: [permissions_app.rs]. [ArtifactsApp]: [artifacts_app.rs].
    - [ManagedData], [ManagedDataFacts]: the managed-data store of contract version 1
      in [managed_data.rs]. [ManagedV2], [ManagedV2Store], [ManagedV2Requests]:
      contract version 2 (data and checks; files and content blobs; requests, batches
      and the commit of a batch), with [ManagedV2Facts] and [ManagedV2BlobFacts].
      [ManagedExports]: the export and proposal handlers that are generated from a
      contract.
    - [Drive]: a tree with symbolic links that is not the host's own; before every call
      other processes may change it. [FileResources]: [file_resources.rs] over it, the
      registry of user-chosen files, the File Broker's handlers and manifest, and the
      removal of a resource with the grants that name it; [FileResourcesFacts].
    - [ChatModelProfiles]: [chat_model_profiles.rs], the profiles apps offer and the
      receipts that pin them. [ChatStore]: [chat_store.rs], a [ChatStore] record of the
      document in memory and the file it is kept in; its operations are computations of
      [st ChatStore string], built on [edit_thread] and [commit_chat].
      [ChatStoreFacts]: the invariant [chat_wf] (memory and file agree) and the order
      [later] of injected context. [ChatSend]: [chat_runtime.rs] as a step relation over
      the store and [active_chat_sends]. [ChatApp]: the handlers of [chat_app.rs], the
      check of the consent to injected context against the kernel's registry, ledger and
      broker, and the replayed history.
    - [HostDemo], [ManagedDemo], [HostWitnesses], [ManagedWitnesses], [PackageWitnesses],
      [InstallWitnesses], [ChatWitnesses]: a concrete world with executable codecs, the theorems applied
      in it, and sessions the host does not survive.

    Serialised documents go through codec classes ([StateCodec], [AuthCodec],
    [ManagedCodec], ...) whose law is that reading gives back what was written; the
    demonstration instances satisfy them. A file operation may fail whenever the
    device says so: theorems that need more say it, [honest] (a failing call reports
    its failure), [sparse] (failures do not follow each other immediately) or
    [stat_truthful] (the existence check sees the file; the code swallows its errors).

    ** What the theorems show

    - Sessions ([SessionFacts], [FileStore]): in every state reachable by any
      sequence of public calls and host actions, the durable store holds exactly what
      memory holds; restarting loses nothing and ends what was active, also after a
      power loss; the log only grows and revocations stay; after an unresolved commit
      nothing durable changes.
    - The action path ([InvokeFacts], [FinalizeFacts]): what a prepared, an authorised
      and a finalised invocation rest on, at the clock reading taken there
      ([may_run]), that consent is sought from and given by the
      user, that late results never commit and that tokens are used once.
    - Authority ([AuthorityFacts], [LifecycleFacts], [BrokerFacts]): only approved
      authority enters the broker, for no longer than was approved, uninstalling and ending a run leave nothing open,
      upgrades keep authority unchanged, the grant check meets its specification.
    - Updates ([UpdateFacts], [AppData], [TransitionPlans]): an update happens wholly or
      not at all, for the app and its data together: whatever call fails, the app runs one
      revision on the data of that revision or the journal says that the update is in
      progress, also over the starts that follow ([update_all_or_nothing]; a start may
      refuse the journal, and a process killed between two writes is not modelled); data
      migrations can be undone; a plan stands on the installed state, its approvals and
      readable data.
    - Packages and publishers ([PackageChecks], [PackageInspect], [PackageStaging],
      [AppInstall], [PublisherTrust]): what an accepted document and its manifest
      contain, the digest pins the contents, the bytes that were approved are those
      installed, a trusted signature is one, revocation is final. Remote sign-in: sessions come from ceremonies, within
      bounds. Tools: names are found, host inputs are the host's.
    - Managed data: requests of both versions refine an abstract store
      ([managed_request_refines], [request_v2_refines]); a mutation happens exactly
      once however often it is sent, as long as the host sees its own state file
      ([mutation_exactly_once]; without that it may happen twice,
      [unseen_state_is_replaced]); published documents keep
      their contents ([documents_keep_contents]); accepted documents are well formed;
      following cursors enumerates every match and ends; exports and proposals stay
      within their exact scope and publish nothing.
    - Chat ([ChatStoreFacts], [ChatSend], [ChatApp]): the store opens again after any
      history and any failed write, with what memory held ([chat_store_reopens]);
      following cursors reads a transcript once and whole; injected context only moves
      forward ([injected_context_moves_forward]); no request is executed twice, across
      interleaved sends, restarts and power loss ([no_request_executed_twice]); other
      apps change only their own material in the thread their scope names
      ([chat_calls_stay_in_scope]); their context is shown to a model only while the app,
      the run and the grant behind it stand ([injected_context_needs_standing_consent]);
      the replayed history is a bounded end of the transcript.
    - User-chosen files ([FileResourcesFacts]), as long as no other process changes the
      drive during the call ([alone]; [read_follows_a_swapped_file] needs it): a call to the File Broker stays inside the
      resource it was authorised for, whatever links and paths it meets
      ([broker_stays_in_resources]); a write happens wholly or not at all
      ([write_is_all_or_nothing]); removed resources leave no grant behind, also when the
      removal was interrupted ([reconcile_leaves_no_orphans], [removal_revokes_access]).
    - [Findings], [UpdateFacts], [InstallWitnesses], [ManagedWitnesses], [HostWitnesses]: sessions of successful calls after
      which the next start fails, or after which contents are lost.

    ** Bounds

    Counters of type [u64] wrap ([wrap64]) where the code adds to them unchecked and
    are checked where it checks; dates are nanoseconds with the range of the calendar
    ([max_utc]) as a bound, and instants have [instant_max]. Fuel appears only in
    client loops ([all_pages], [follow], [read_transcript]), in the search for a free tool
    name and in [split_whitespace], whose every round drops a byte; in the loops and the
    search enough of it is proved to give the result. Resolving a path follows at
    most [MAX_LINKS] links and then fails, as the system does. A message may be deleted under a
    running send ([step_command] allows it), as the code's two critical sections do.

    ** Not modelled

    Derived serialisation (codecs with a round-trip law), the wording of library
    errors, system clocks and UUID sources (parameters), thread scheduling (a lock is
    held for a whole modelled operation), sockets, processes and windows: the remote
    API, the language model clients, the transports of the adapter, the shell of
    [lib.rs] and the user interface. In the chat, the manifest,
    prompt composition, skills and the loop of model and tool calls between the record of
    a message and its end are any behaviour that ends in a result or an error.
    The File Broker's drive does not lose power, and its file names are UTF-8.
    Configuration and secrets ([config.rs]), profiles, the portable export, the protocol of
    the MCP adapter and the gateway are left out; they are settings, archives and network
    services around the calls modelled here. *)

From stdpp Require Export base tactics gmap strings list sorting pretty.

(** ** Outcomes

    A Rust function returning [Result<A, E>] that may also panic: [Ok] and [Err]
    are the two variants of [Result]; [Panic] is an unwinding [expect], index or
    arithmetic overflow. *)
Inductive outcome (E A : Type) : Type :=
  | Ok (a : A)
  | Err (e : E)
  | Panic (msg : string).
Arguments Ok {E A} a.
Arguments Err {E A} e.
Arguments Panic {E A} msg.

#[export] Instance outcome_ret {E} : MRet (outcome E) := fun A a => Ok a.
#[export] Instance outcome_bind {E} : MBind (outcome E) := fun A B f m =>
  match m with
  | Ok a => f a
  | Err e => Err e
  | Panic msg => Panic msg
  end.
#[export] Instance outcome_fmap {E} : FMap (outcome E) := fun A B f m =>
  match m with
  | Ok a => Ok (f a)
  | Err e => Err e
  | Panic msg => Panic msg
  end.

Definition is_ok {E A} (m : outcome E A) : bool :=
  match m with Ok _ => true | _ => false end.

(** [Option::ok_or]. *)
Definition ok_or {E A} (o : option A) (e : E) : outcome E A :=
  match o with Some a => Ok a | None => Err e end.

Lemma ok_or_Ok {E A} (o : option A) (e : E) a : ok_or o e = Ok a -> o = Some a.
Proof. destruct o; simpl; naive_solver. Qed.

(** [Result::map_err]. *)
Definition map_err {E F A} (f : E -> F) (m : outcome E A) : outcome F A :=
  match m with
  | Ok a => Ok a
  | Err e => Err (f e)
  | Panic msg => Panic msg
  end.

(** A [for] loop whose body may return early with an error. *)
Fixpoint for_each {E A} (f : A -> outcome E unit) (l : list A) : outcome E unit :=
  match l with
  | [] => Ok tt
  | x :: l' => _ ← f x; for_each f l'
  end.

(** [iter().map(f).collect::<Result<Vec<_>, _>>()]. *)
Fixpoint map_ok {E A B} (f : A -> outcome E B) (l : list A) : outcome E (list B) :=
  match l with
  | [] => Ok []
  | x :: l' => y ← f x; ys ← map_ok f l'; Ok (y :: ys)
  end.

(** ** Stateful outcomes

    A [&mut self] method: the state is returned in every case, since a Rust
    method that returns an error keeps the mutations made before the error. *)
Definition st (S E A : Type) : Type := S -> outcome E A * S.

#[export] Instance st_ret {S E} : MRet (st S E) := fun A a s => (Ok a, s).
#[export] Instance st_bind {S E} : MBind (st S E) := fun A B f m s =>
  match m s with
  | (Ok a, s') => f a s'
  | (Err e, s') => (Err e, s')
  | (Panic msg, s') => (Panic msg, s')
  end.

Definition st_lift {S E A} (m : outcome E A) : st S E A := fun s => (m, s).
Definition st_fail {S E A} (e : E) : st S E A := fun s => (Err e, s).
Definition st_get {S E A} (f : S -> A) : st S E A := fun s => (Ok (f s), s).
Definition st_modify {S E} (f : S -> S) : st S E unit := fun s => (Ok tt, f s).

(** Run a method and hand its whole outcome to the caller ([match] on the
    [Result] instead of [?]); a panic still unwinds. *)
Definition st_catch {S E A} (m : st S E A) : st S E (outcome E A) := fun s =>
  match m s with
  | (Ok a, s') => (Ok (Ok a), s')
  | (Err e, s') => (Ok (Err e), s')
  | (Panic msg, s') => (Panic msg, s')
  end.

Fixpoint st_map {S E A B} (f : A -> st S E B) (l : list A) : st S E (list B) :=
  match l with
  | [] => mret []
  | x :: l' => y ← f x; ys ← st_map f l'; mret (y :: ys)
  end.

(** ** Invariants of stateful methods *)

(** [I] survives [m] whatever its outcome. *)
Definition preserves {S E A} (I : S -> Prop) (m : st S E A) : Prop :=
  ∀ s, I s -> I (m s).2.

(** The part [f] of the state is left alone by [m], whatever its outcome. *)
Definition frames {S E A B} (f : S -> B) (m : st S E A) : Prop :=
  ∀ s, f (m s).2 = f s.

Create HintDb kestral discriminated.
#[export] Hint Constants Opaque : kestral.
#[export] Hint Variables Opaque : kestral.

Section outcome_lemmas.
Context {E : Type}.

Lemma bind_Ok_inv {A B} (m : outcome E A) (f : A -> outcome E B) b :
  m ≫= f = Ok b -> ∃ a, m = Ok a /\ f a = Ok b.
Proof. destruct m; simpl; naive_solver. Qed.

Lemma fmap_Ok_inv {A B} (f : A -> B) (m : outcome E A) b : f <$> m = Ok b -> ∃ a, m = Ok a /\ f a = b.
Proof. destruct m; naive_solver. Qed.

Lemma bind_unit_Ok {B} (m : outcome E unit) (k : outcome E B) b :
  (_ ← m; k) = Ok b <-> m = Ok tt /\ k = Ok b.
Proof. destruct m as [[]| |]; simpl; split; intuition congruence. Qed.

Lemma for_each_cons {A} (f : A -> outcome E unit) x l :
  for_each f (x :: l) = Ok tt <-> f x = Ok tt /\ for_each f l = Ok tt.
Proof. apply bind_unit_Ok. Qed.

Lemma for_each_Ok {A} (f : A -> outcome E unit) l :
  for_each f l = Ok tt <-> ∀ x, x ∈ l -> f x = Ok tt.
Proof.
  induction l as [|x l IH]; simpl.
  - split; [intros _ y Hy; inversion Hy | done].
  - split.
    + intros (u & Hx & Hl)%bind_Ok_inv y [->|Hy]%elem_of_cons; [by destruct u|].
      by apply IH.
    + intros H. rewrite (H x) by apply list_elem_of_here. simpl.
      apply IH. intros y Hy. apply H. by right.
Qed.

Lemma map_ok_Ok {A B} (f : A -> outcome E B) l ys :
  map_ok f l = Ok ys <-> Forall2 (fun x y => f x = Ok y) l ys.
Proof.
  revert ys. induction l as [|x l IH]; intros ys; simpl.
  - split; [intros [= <-]; constructor | by inversion 1].
  - split.
    + intros (y & Hy & (zs & Hzs & [= <-])%bind_Ok_inv)%bind_Ok_inv.
      constructor; [done|]. by apply IH.
    + inversion 1 as [|? y ? zs Hy Hzs]; subst.
      rewrite Hy. simpl. apply IH in Hzs. by rewrite Hzs.
Qed.

End outcome_lemmas.

Section st_lemmas.
Context {S E : Type}.
Implicit Types (I : S -> Prop).

Lemma st_bind_Ok_inv {A B} (m : st S E A) (f : A -> st S E B) s b s' :
  (m ≫= f) s = (Ok b, s') -> ∃ a s1, m s = (Ok a, s1) /\ f a s1 = (Ok b, s').
Proof.
  unfold mbind, st_bind. destruct (m s) as [[a|e|msg] s1]; naive_solver.
Qed.

Lemma st_bind_Ok {A B} (m : st S E A) (f : A -> st S E B) s a s1 :
  m s = (Ok a, s1) -> (m ≫= f) s = f a s1.
Proof. unfold mbind, st_bind. by intros ->. Qed.

(** What holds after [m], and after [f] on its result, holds after both. *)
Lemma snd_bind {A B} (I : S -> Prop) (m : st S E A) (f : A -> st S E B) s :
  I (m s).2 -> (∀ a s1, m s = (Ok a, s1) -> I (f a s1).2) -> I ((m ≫= f) s).2.
Proof.
  intros Hm Hf. unfold mbind, st_bind. destruct (m s) as [[a|e|msg] s1]; simpl in *; eauto.
Qed.

Lemma preserves_ret {A} I (a : A) : preserves I (mret a : st S E A).
Proof. intros s Hs. done. Qed.

Lemma preserves_bind {A B} I (m : st S E A) (f : A -> st S E B) :
  preserves I m -> (∀ a, preserves I (f a)) -> preserves I (m ≫= f).
Proof.
  intros Hm Hf s Hs. specialize (Hm s Hs). unfold mbind, st_bind.
  destruct (m s) as [[a|e|msg] s1]; simpl in *; [by apply Hf | done | done].
Qed.

Lemma preserves_lift {A} I (m : outcome E A) : preserves I (st_lift m).
Proof. intros s Hs. done. Qed.

Lemma preserves_fail {A} I (e : E) : preserves I (st_fail e : st S E A).
Proof. intros s Hs. done. Qed.

Lemma preserves_get {A} I (f : S -> A) : preserves I (st_get f : st S E A).
Proof. intros s Hs. done. Qed.

Lemma preserves_modify I (f : S -> S) :
  (∀ s, I s -> I (f s)) -> preserves I (st_modify f : st S E unit).
Proof. intros Hf s Hs. by apply Hf. Qed.

Lemma preserves_catch {A} I (m : st S E A) : preserves I m -> preserves I (st_catch m).
Proof.
  intros Hm s Hs. specialize (Hm s Hs). unfold st_catch.
  by destruct (m s) as [[a|e|msg] s1].
Qed.

Lemma preserves_map {A B} I (f : A -> st S E B) l :
  (∀ x, preserves I (f x)) -> preserves I (st_map f l).
Proof.
  intros Hf. induction l as [|x l IH]; simpl; [apply preserves_ret|].
  apply preserves_bind; [done|]. intros y.
  apply preserves_bind; [done|]. intros ys. apply preserves_ret.
Qed.

Lemma frames_preserves {A B} (f : S -> B) (m : st S E A) (P : B -> Prop) :
  frames f m -> preserves (fun s => P (f s)) m.
Proof. intros Hf s Hs. by rewrite Hf. Qed.

Lemma frames_ret {A B} (f : S -> B) (a : A) : frames f (mret a : st S E A).
Proof. intros s. done. Qed.

Lemma frames_bind {A B C} (f : S -> C) (m : st S E A) (k : A -> st S E B) :
  frames f m -> (∀ a, frames f (k a)) -> frames f (m ≫= k).
Proof.
  intros Hm Hk s. specialize (Hm s). unfold mbind, st_bind.
  destruct (m s) as [[a|e|msg] s1]; simpl in *; [by rewrite Hk | done | done].
Qed.

Lemma frames_lift {A B} (f : S -> B) (m : outcome E A) : frames f (st_lift m).
Proof. intros s. done. Qed.

Lemma frames_fail {A B} (f : S -> B) (e : E) : frames f (st_fail e : st S E A).
Proof. intros s. done. Qed.

Lemma frames_get {A B} (f : S -> B) (g : S -> A) : frames f (st_get g : st S E A).
Proof. intros s. done. Qed.

Lemma frames_modify {B} (f : S -> B) (g : S -> S) :
  (∀ s, f (g s) = f s) -> frames f (st_modify g : st S E unit).
Proof. intros Hg s. apply Hg. Qed.

Lemma frames_catch {A B} (f : S -> B) (m : st S E A) : frames f m -> frames f (st_catch m).
Proof.
  intros Hm s. specialize (Hm s). unfold st_catch.
  by destruct (m s) as [[a|e|msg] s1].
Qed.

End st_lemmas.

#[export] Hint Resolve preserves_ret preserves_lift preserves_fail preserves_get
  frames_ret frames_lift frames_fail frames_get : kestral.

(** ** Tactics *)

Lemma st_lift_inv {S E A} (m : outcome E A) (s s' : S) o :
  st_lift m s = (o, s') -> m = o /\ s = s'.
Proof. unfold st_lift. naive_solver. Qed.

Lemma st_ret_inv {S E A} (a : A) (s s' : S) (o : outcome E A) :
  (mret a : st S E A) s = (o, s') -> o = Ok a /\ s = s'.
Proof. unfold mret, st_ret. naive_solver. Qed.

(** Evaluate the primitive methods in [H]. *)
Ltac inv_prim H :=
  cbv beta iota in H;
  lazymatch type of H with
  | st_lift _ _ = (_, _) =>
      first [apply st_lift_inv in H as [H ->] | apply st_lift_inv in H as [H <-]]
  | mret _ _ = (_, _) =>
      first [apply st_ret_inv in H as [H ->] | apply st_ret_inv in H as [H <-]]; simplify_eq
  | st_get _ _ = (_, _) => unfold st_get in H; simplify_eq
  | st_modify _ _ = (_, _) => unfold st_modify in H; simplify_eq
  | st_fail _ _ = (Ok _, _) => discriminate H
  end.

(** Split the successful chain of binds in [H]: the heads become [Hok], [Hok0],
    ..., the last call stays in [H]. *)
Ltac inv_ok H :=
  repeat lazymatch type of H with
  | (_ ≫= _) ?s = (Ok _, _) =>
      let a := fresh "a" in let s1 := fresh "s" in let H1 := fresh "Hok" in
      apply st_bind_Ok_inv in H as (a & s1 & H1 & H); try inv_prim H1;
      try (match type of a with
           | (_ * _)%type => destruct a as [? ?]
           | unit => destruct a
           end)
  | _ ≫= _ = Ok _ =>
      let a := fresh "a" in let H1 := fresh "Hok" in
      apply bind_Ok_inv in H as (a & H1 & H);
      try (match type of a with unit => destruct a end)
  end; try inv_prim H.

(** Walk over the structure of a method for [preserves] and [frames] goals. *)
Ltac st_walk :=
  repeat first
    [ progress eauto with kestral nocore
    | apply preserves_bind; [|intros ?]
    | apply frames_bind; [|intros ?]
    | apply preserves_catch
    | apply frames_catch
    | apply preserves_map; intros ?
    | match goal with
      | |- preserves _ (match ?x with _ => _ end) => destruct x eqn:?
      | |- frames _ (match ?x with _ => _ end) => destruct x eqn:?
      end ].

(** ** Lists *)

(** [iter().position(p)] followed by [Vec::remove]: drop the first match. *)
Fixpoint remove_first {A} (p : A -> bool) (l : list A) : option (list A) :=
  match l with
  | [] => None
  | x :: l' => if p x then Some l' else cons x <$> remove_first p l'
  end.

Section list_lemmas.
Context {A : Type}.

Lemma find_Some_elem (p : A -> bool) l x :
  List.find p l = Some x -> x ∈ l /\ p x = true.
Proof. intros H%List.find_some. by rewrite <- list_elem_of_In in H. Qed.

Lemma find_None_elem (p : A -> bool) l :
  List.find p l = None <-> ∀ x, x ∈ l -> p x = false.
Proof.
  split.
  - intros H x Hx%list_elem_of_In. by eapply List.find_none.
  - intros H. destruct (List.find p l) as [x|] eqn:E; [|done].
    apply find_Some_elem in E as [Hx Hp]. rewrite H in Hp; done.
Qed.

Lemma find_ext_elem (p q : A -> bool) l :
  (∀ x, x ∈ l -> p x = q x) -> List.find p l = List.find q l.
Proof.
  intros H. induction l as [|x l IH]; [done|]; simpl.
  rewrite (H x) by apply list_elem_of_here.
  destruct (q x); [done|]. apply IH. intros y Hy. apply H. by right.
Qed.

Lemma remove_first_Some (p : A -> bool) l l' :
  remove_first p l = Some l' ->
  ∃ l1 x l2, l = l1 ++ x :: l2 /\ l' = l1 ++ l2 /\ p x = true /\ Forall (fun y => p y = false) l1.
Proof.
  revert l'. induction l as [|x l IH]; intros l'; simpl; [done|].
  destruct (p x) eqn:Hp.
  - intros [= <-]. by exists [], x, l.
  - intros H. destruct (remove_first p l) as [l0|] eqn:E; simplify_eq/=.
    destruct (IH l0 eq_refl) as (l1 & y & l2 & -> & -> & ? & ?).
    exists (x :: l1), y, l2. repeat split; auto.
Qed.

Lemma remove_first_None (p : A -> bool) l :
  remove_first p l = None <-> Forall (fun y => p y = false) l.
Proof.
  induction l as [|x l IH]; simpl; [by split|].
  rewrite Forall_cons, <- IH.
  destruct (p x), (remove_first p l); simpl; intuition congruence.
Qed.

End list_lemmas.
