(* ===== verification/RustStd.v ===== *)
(** * What the kernel uses of Rust's standard library

    Ordered maps and sets ([BTreeMap], [BTreeSet]) as finite maps with an
    iteration in key order, [str::trim], [str::parse::<usize>],
    [str::is_char_boundary], [usize::to_string] and the wrap-around of [u64]. *)

From S2P Require Import Prelude.
From Stdlib Require Import OrderedTypeEx.

(** ** Key order of [BTreeMap] *)

(** What [Ord] promises for a key type: a total order compatible with [=]. *)
Class KeyOrder (K : Type) := {
  key_leb : K -> K -> bool;
  key_leb_total : ∀ a b, key_leb a b = true \/ key_leb b a = true;
  key_leb_trans : ∀ a b c, key_leb a b = true -> key_leb b c = true -> key_leb a c = true;
  key_leb_antisym : ∀ a b, key_leb a b = true -> key_leb b a = true -> a = b;
}.

Lemma string_leb_trans (a b c : string) :
  String.leb a b = true -> String.leb b c = true -> String.leb a c = true.
Proof.
  unfold String.leb. intros Hab Hbc.
  destruct (String.compare a b) eqn:E1; [|clear Hab|done];
  destruct (String.compare b c) eqn:E2; try done.
  - apply String.compare_eq_iff in E1 as ->. by rewrite E2.
  - apply String.compare_eq_iff in E1 as ->. by rewrite E2.
  - apply String.compare_eq_iff in E2 as ->. by rewrite E1.
  - rewrite String_as_OT.cmp_lt in E1, E2.
    pose proof (String_as_OT.lt_trans _ _ _ E1 E2) as E3.
    apply String_as_OT.cmp_lt in E3. change (String.compare a c = Lt) in E3. by rewrite E3.
Qed.

#[export] Instance string_key_order : KeyOrder string := {
  key_leb := String.leb;
  key_leb_total := String.leb_total;
  key_leb_trans := string_leb_trans;
  key_leb_antisym := String.leb_antisym;
}.

#[export, refine] Instance N_key_order : KeyOrder N := { key_leb := N.leb }.
Proof.
  - intros a b. rewrite !N.leb_le. lia.
  - intros a b c. rewrite !N.leb_le. lia.
  - intros a b. rewrite !N.leb_le. lia.
Defined.

(** ** Iteration over a [BTreeMap] *)

Section btree.
Context {K : Type} `{EqDecision K, Countable K, KeyOrder K} {A : Type}.
Implicit Types (m : gmap K A).

Definition entry_le (p q : K * A) : Prop := key_leb p.1 q.1 = true.

#[global] Instance entry_le_dec p q : Decision (entry_le p q) := decide (_ = true).

(** [map.iter()]: the entries in ascending key order. *)
Definition btree_list m : list (K * A) := merge_sort entry_le (map_to_list m).

(** [map.values()]. *)
Definition btree_values m : list A := (btree_list m).*2.

(** [map.keys()]. *)
Definition btree_keys m : list K := (btree_list m).*1.

#[global] Instance entry_le_total : Total entry_le.
Proof. intros p q. apply key_leb_total. Qed.

#[global] Instance entry_le_trans : Transitive entry_le.
Proof. intros p q r. apply key_leb_trans. Qed.

Lemma btree_list_perm m : btree_list m ≡ₚ map_to_list m.
Proof. apply merge_sort_Permutation. Qed.

Lemma elem_of_btree_list m k v : (k, v) ∈ btree_list m <-> m !! k = Some v.
Proof. by rewrite btree_list_perm, elem_of_map_to_list. Qed.

Lemma elem_of_btree_values m v : v ∈ btree_values m <-> ∃ k, m !! k = Some v.
Proof.
  unfold btree_values. rewrite list_elem_of_fmap. split.
  - intros ([k v'] & -> & Hk). exists k. by apply elem_of_btree_list.
  - intros (k & Hk). exists (k, v). by rewrite elem_of_btree_list.
Qed.

Lemma elem_of_btree_keys m k : k ∈ btree_keys m <-> is_Some (m !! k).
Proof.
  unfold btree_keys. rewrite list_elem_of_fmap. split.
  - intros ([k' v] & -> & Hk%elem_of_btree_list). by exists v.
  - intros [v Hk]. exists (k, v). by rewrite elem_of_btree_list.
Qed.

Lemma btree_keys_nodup m : NoDup (btree_keys m).
Proof.
  unfold btree_keys. rewrite btree_list_perm. apply NoDup_fst_map_to_list.
Qed.

Lemma btree_list_nodup m : NoDup (btree_list m).
Proof. rewrite btree_list_perm. apply NoDup_map_to_list. Qed.

Lemma btree_list_sorted m : StronglySorted entry_le (btree_list m).
Proof. apply StronglySorted_merge_sort; apply _. Qed.

Lemma btree_list_empty : btree_list ∅ = [].
Proof.
  apply Permutation_nil_r. rewrite btree_list_perm. by rewrite map_to_list_empty.
Qed.

Lemma btree_values_empty : btree_values ∅ = [].
Proof. unfold btree_values. by rewrite btree_list_empty. Qed.

Lemma length_btree_list m : length (btree_list m) = size m.
Proof. rewrite btree_list_perm. by rewrite length_map_to_list. Qed.

Lemma btree_values_nil_iff m : btree_values m = [] <-> m = ∅.
Proof.
  split; [|intros ->; apply btree_values_empty].
  intros Hnil%fmap_nil_inv. apply map_empty. intros k.
  destruct (m !! k) as [v|] eqn:E; [|done].
  apply elem_of_btree_list in E. rewrite Hnil in E. inversion E.
Qed.

(** Rebuilding a map from its own entries: [iter().collect()]. *)
Lemma btree_list_to_map m : list_to_map (btree_list m) = m.
Proof.
  transitivity (list_to_map (map_to_list m) : gmap K A).
  - apply list_to_map_proper; [|apply btree_list_perm].
    apply btree_keys_nodup.
  - apply list_to_map_to_list.
Qed.

(** Rebuilding a map from its values when every value carries its key. *)
Lemma btree_values_to_map (key : A -> K) m :
  (∀ k v, m !! k = Some v -> key v = k) ->
  list_to_map ((fun v => (key v, v)) <$> btree_values m) = m.
Proof.
  intros Hkey. rewrite <- (btree_list_to_map m) at 2. f_equal.
  unfold btree_values. rewrite <- list_fmap_compose.
  rewrite <- (list_fmap_id (btree_list m)) at 2.
  apply list_fmap_ext. intros i [k v] Hi. simpl.
  apply list_elem_of_lookup_2, elem_of_btree_list in Hi. by rewrite (Hkey k v).
Qed.

End btree.

(** [BTreeMap::retain], with a predicate on key and value. *)
Definition btree_retain {K A} `{Countable K} (p : K -> A -> bool) (m : gmap K A) : gmap K A :=
  filter (fun kv => p kv.1 kv.2 = true) m.

Lemma lookup_btree_retain {K A} `{Countable K} (p : K -> A -> bool) (m : gmap K A) k :
  btree_retain p m !! k = (v ← m !! k; if p k v then Some v else None).
Proof.
  unfold btree_retain. destruct (m !! k) as [v|] eqn:E; simpl.
  - destruct (p k v) eqn:Hp.
    + by apply map_lookup_filter_Some.
    + apply map_lookup_filter_None. right. intros v' Hv' Hp'. simpl in *. congruence.
  - apply map_lookup_filter_None. by left.
Qed.

Definition string_le (a b : string) : Prop := String.leb a b = true.

#[export] Instance string_le_dec a b : Decision (string_le a b) := decide (_ = true).

(** [BTreeSet::iter()] over strings: ascending order. *)
Definition btree_elements (s : gset string) : list string := merge_sort string_le (elements s).

Lemma elem_of_btree_elements s x : x ∈ btree_elements s <-> x ∈ s.
Proof. unfold btree_elements. by rewrite merge_sort_Permutation, elem_of_elements. Qed.

Lemma btree_elements_to_set s : list_to_set (btree_elements s) = s.
Proof.
  apply set_eq. intros x. by rewrite elem_of_list_to_set, elem_of_btree_elements.
Qed.

(** ** Unsigned 64-bit integers *)

Definition u64_modulus : N := 2 ^ 64.
Definition wrap64 (n : N) : N := n mod u64_modulus.
Definition usize_max : N := u64_modulus - 1.

(** ** Strings as UTF-8 bytes *)

Definition byte (c : Ascii.ascii) : N := Ascii.N_of_ascii c.

(** The text is empty or consists only of characters with the Unicode
    [White_Space] property, i.e. [s.trim().is_empty()]. *)
Fixpoint is_blank (s : string) : bool :=
  match s with
  | EmptyString => true
  | String c s1 =>
      let b := byte c in
      if ((9 <=? b) && (b <=? 13) || (b =? 32))%N then is_blank s1
      else match s1 with
      | EmptyString => false
      | String c1 s2 =>
          let b1 := byte c1 in
          if ((b =? 194) && ((b1 =? 133) || (b1 =? 160)))%N then is_blank s2
          else match s2 with
          | EmptyString => false
          | String c2 s3 =>
              let b2 := byte c2 in
              if ((b =? 225) && (b1 =? 154) && (b2 =? 128)
                 || (b =? 226) && (b1 =? 128)
                    && ((128 <=? b2) && (b2 <=? 138) || (b2 =? 168) || (b2 =? 169) || (b2 =? 175))
                 || (b =? 226) && (b1 =? 129) && (b2 =? 159)
                 || (b =? 227) && (b1 =? 128) && (b2 =? 128))%N
              then is_blank s3 else false
          end
      end
  end.

(** [str::is_char_boundary(i)]: the start, the end, or a byte that does not
    continue a character. *)
Definition is_char_boundary (s : string) (i : nat) : bool :=
  if (i =? 0)%nat then true
  else match String.get i s with
  | None => (i =? String.length s)%nat
  | Some c => negb ((128 <=? byte c) && (byte c <? 192))%N
  end.

Definition digit_value (c : Ascii.ascii) : option N :=
  if ((48 <=? byte c) && (byte c <=? 57))%N then Some (byte c - 48)%N else None.

(** The digit loop of [str::parse::<usize>]: [None] on a non-digit or when the
    accumulator leaves 64 bits. *)
Fixpoint parse_digits (acc : N) (s : string) : option N :=
  match s with
  | EmptyString => Some acc
  | String c s' =>
      match digit_value c with
      | None => None
      | Some d =>
          let acc' := (acc * 10 + d)%N in
          if (acc' <=? usize_max)%N then parse_digits acc' s' else None
      end
  end.

(** [str::parse::<usize>]: an optional plus sign and at least one digit. *)
Definition parse_usize (s : string) : option N :=
  match s with
  | EmptyString => None
  | String c s' =>
      if (byte c =? 43)%N
      then match s' with EmptyString => None | _ => parse_digits 0 s' end
      else parse_digits 0 s
  end.

(** [usize::to_string]. *)
Definition usize_to_string (n : N) : string := pretty n.

Lemma digit_value_pretty d : (d < 10)%N -> digit_value (pretty_N_char d) = Some d.
Proof.
  intros Hd.
  assert (d = 0 \/ d = 1 \/ d = 2 \/ d = 3 \/ d = 4 \/ d = 5 \/ d = 6 \/ d = 7 \/ d = 8 \/ d = 9)%N
    as Hc by lia.
  by repeat destruct Hc as [->|Hc]; [..|subst d].
Qed.

Lemma parse_digits_step acc d s :
  (d < 10)%N -> (acc * 10 + d <= usize_max)%N ->
  parse_digits acc (String (pretty_N_char d) s) = parse_digits (acc * 10 + d) s.
Proof.
  intros Hd Hacc. simpl. rewrite digit_value_pretty by done.
  by rewrite (proj2 (N.leb_le _ _) Hacc).
Qed.

(** The digits printed for [n] are read back into the accumulator. *)
Lemma parse_digits_pretty n s :
  (n <= usize_max)%N -> parse_digits 0 (pretty_N_go n s) = parse_digits n s.
Proof.
  revert s. induction (N.lt_wf_0 n) as [n _ IH]; intros s Hn.
  destruct (decide (n = 0)%N) as [->|Hnz]; [by rewrite pretty_N_go_0|].
  rewrite pretty_N_go_step by lia.
  assert (n / 10 < n)%N by (apply N.div_lt; lia).
  pose proof (N.div_mod n 10 ltac:(lia)) as Hdm.
  pose proof (N.mod_lt n 10 ltac:(lia)) as Hmod.
  rewrite IH by lia. rewrite parse_digits_step by lia.
  f_equal. lia.
Qed.

Lemma pretty_N_go_head n s : (0 < n)%N ->
  ∃ d s', (d < 10)%N /\ pretty_N_go n s = String (pretty_N_char d) s'.
Proof.
  revert s. induction (N.lt_wf_0 n) as [n _ IH]; intros s Hn.
  rewrite pretty_N_go_step by done.
  pose proof (N.mod_lt n 10 ltac:(lia)) as Hmod.
  destruct (decide (n / 10 = 0)%N) as [->|Hnz].
  - rewrite pretty_N_go_0. eauto.
  - apply IH; [by apply N.div_lt | by apply N.neq_0_lt_0].
Qed.

(** Printing a 64-bit size and parsing it gives it back. *)
Lemma parse_usize_to_string n :
  (n <= usize_max)%N -> parse_usize (usize_to_string n) = Some n.
Proof.
  intros Hn. unfold usize_to_string, pretty, pretty_N.
  case_decide as H0; [by subst|].
  destruct (pretty_N_go_head n "" ltac:(lia)) as (d & s' & Hd & Hgo).
  unfold parse_usize. rewrite Hgo.
  assert ((byte (pretty_N_char d) =? 43)%N = false) as ->.
  { pose proof (digit_value_pretty d Hd) as Hv. unfold digit_value in Hv.
    apply N.eqb_neq. intros E. rewrite E in Hv. simpl in Hv. done. }
  by rewrite <- Hgo, parse_digits_pretty.
Qed.
