(* ===== verification/Json.v ===== *)
(** * JSON values as they cross the kernel boundary

    [serde_json::Value] and [JsonObject] ([crates/kernel/src/lib.rs]), with
    decidable equality. Object members are kept as the key-ordered entry list of
    the underlying [BTreeMap]; a number is kept as its JSON text, which the
    kernel never looks into. *)

From S2P Require Import Prelude.

Unset Elimination Schemes.
Inductive Value : Type :=
  | VNull
  | VBool (b : bool)
  | VNumber (text : string)
  | VString (s : string)
  | VArray (items : list Value)
  | VObject (members : list (string * Value)).
Set Elimination Schemes.

(** [pub type JsonObject = serde_json::Map<String, Value>]. *)
Abbreviation JsonObject := (list (string * Value)).

Section Value_ind.
Context (P : Value -> Prop).
Context (Hnull : P VNull) (Hbool : ∀ b, P (VBool b)) (Hnum : ∀ t, P (VNumber t)).
Context (Hstr : ∀ s, P (VString s)).
Context (Harr : ∀ items, Forall P items -> P (VArray items)).
Context (Hobj : ∀ members, Forall (fun kv => P kv.2) members -> P (VObject members)).

Fixpoint Value_ind (v : Value) : P v :=
  match v with
  | VNull => Hnull
  | VBool b => Hbool b
  | VNumber t => Hnum t
  | VString s => Hstr s
  | VArray items =>
      Harr items ((fix go l : Forall P l :=
        match l with
        | [] => Forall_nil_2 _
        | x :: l' => Forall_cons_2 _ _ _ (Value_ind x) (go l')
        end) items)
  | VObject members =>
      Hobj members ((fix go l : Forall (fun kv => P kv.2) l :=
        match l with
        | [] => Forall_nil_2 _
        | x :: l' => Forall_cons_2 _ _ _ (Value_ind x.2) (go l')
        end) members)
  end.
End Value_ind.

(** Structural comparison, the derived [PartialEq] of [Value]. *)
Fixpoint Value_eqb (a b : Value) : bool :=
  match a, b with
  | VNull, VNull => true
  | VBool x, VBool y => bool_decide (x = y)
  | VNumber x, VNumber y => bool_decide (x = y)
  | VString x, VString y => bool_decide (x = y)
  | VArray xs, VArray ys =>
      (fix go xs ys := match xs, ys with
        | [], [] => true
        | x :: xs', y :: ys' => Value_eqb x y && go xs' ys'
        | _, _ => false
        end) xs ys
  | VObject xs, VObject ys =>
      (fix go xs ys := match xs, ys with
        | [], [] => true
        | x :: xs', y :: ys' => bool_decide (x.1 = y.1) && Value_eqb x.2 y.2 && go xs' ys'
        | _, _ => false
        end) xs ys
  | _, _ => false
  end.

Lemma Value_eqb_eq a b : Value_eqb a b = true <-> a = b.
Proof.
  revert b. induction a as [|x|x|x|xs IH|xs IH] using Value_ind; intros [|y|y|y|ys|ys];
    simpl; rewrite ?bool_decide_eq_true; try (split; congruence).
  - revert ys. induction IH as [|x xs Hx _ IHl]; intros [|y ys]; try (split; congruence).
    rewrite andb_true_iff, Hx, IHl. split; [intros [-> [= ->]]; done | by intros [= -> ->]].
  - revert ys. induction IH as [|[k x] xs Hx _ IHl]; intros [|[k' y] ys];
      try (split; congruence).
    rewrite !andb_true_iff, bool_decide_eq_true. simpl in *. rewrite Hx, IHl.
    split; [intros [[-> ->] [= ->]]; done | by intros [= -> -> ->]].
Qed.

#[export] Instance Value_eq_dec : EqDecision Value.
Proof.
  refine (fun a b => cast_if (decide (Value_eqb a b = true)));
    abstract (rewrite Value_eqb_eq in *; done).
Defined.

(** [Value::get(key)]: the member of an object, [None] for any other value. *)
Definition Value_get (v : Value) (key : string) : option Value :=
  match v with
  | VObject members => snd <$> List.find (fun kv => bool_decide (kv.1 = key)) members
  | _ => None
  end.

(** [Value::as_str]. *)
Definition Value_as_str (v : Value) : option string :=
  match v with VString s => Some s | _ => None end.

(** [Value::is_object]. *)
Definition Value_is_object (v : Value) : bool :=
  match v with VObject _ => true | _ => false end.
