(* ===== verification/Types.v ===== *)
(** * Identifiers and the five primitives

    The data of [ids.rs], [primitives/capability.rs], [primitives/grant.rs],
    [primitives/run.rs], [primitives/artifact.rs] and [primitives/surface.rs]:
    structs as records (field names carry a short prefix), enums as inductive
    types with the source's variants, derived [PartialEq] as [EqDecision]. *)

From S2P Require Import Prelude RustStd Json.

(** ** Identifiers ([id_type!])

    Every identifier is a newtype over [String] and orders as its text. *)
Abbreviation AppId := string (only parsing).
Abbreviation RunId := string (only parsing).
Abbreviation ArtifactId := string (only parsing).
Abbreviation GrantId := string (only parsing).
Abbreviation LeaseId := string (only parsing).
Abbreviation CapabilityName := string (only parsing).
Abbreviation SurfaceName := string (only parsing).
Abbreviation ExtensionPointName := string (only parsing).
Abbreviation ArtifactTypeName := string (only parsing).
Abbreviation ConfigName := string (only parsing).
Abbreviation SecretName := string (only parsing).
Abbreviation EventTopic := string (only parsing).
Abbreviation SurfaceInstanceId := string (only parsing).
Abbreviation ResourceId := string (only parsing).

(** [DateTime<Utc>] and [Duration] in nanoseconds. *)
Abbreviation DateTime := Z (only parsing).
Abbreviation Duration := Z (only parsing).

Definition seconds (n : N) : Duration := (Z.of_N n * 1000000000)%Z.

Record SecretRef := { sr_owner : AppId; sr_name : SecretName }.

#[export] Instance SecretRef_eq_dec : EqDecision SecretRef.
Proof. solve_decision. Defined.

#[export] Instance SecretRef_countable : Countable SecretRef.
Proof.
  refine (inj_countable' (fun r => (sr_owner r, sr_name r))
    (fun p => {| sr_owner := p.1; sr_name := p.2 |}) _).
  by intros [].
Defined.

Definition new_run_id (uuid : string) : RunId := "run-" ++ uuid.
Definition new_artifact_id (uuid : string) : ArtifactId := "artifact-" ++ uuid.
Definition new_grant_id (uuid : string) : GrantId := "grant-" ++ uuid.
Definition new_lease_id (uuid : string) : LeaseId := "lease-" ++ uuid.
Definition new_surface_instance_id (uuid : string) : SurfaceInstanceId := "si-" ++ uuid.

(** ** Capability *)

Record CapabilityRef := { cr_provider : AppId; cr_capability : CapabilityName }.

#[export] Instance CapabilityRef_eq_dec : EqDecision CapabilityRef.
Proof. solve_decision. Defined.

Definition CapabilityRef_qualified_name (c : CapabilityRef) : string :=
  cr_provider c ++ "/" ++ cr_capability c.

Inductive CapabilityEffect :=
  | EffectUnspecified
  | EffectReadOnly
  | EffectLocalWrite
  | EffectExternalWrite
  | EffectDestructive.

#[export] Instance CapabilityEffect_eq_dec : EqDecision CapabilityEffect.
Proof. solve_decision. Defined.

Record CapabilityDeclaration := {
  cd_name : CapabilityName;
  cd_description : string;
  cd_input_schema : JsonObject;
  cd_effect : CapabilityEffect;
  cd_output_schema : option JsonObject;
}.

#[export] Instance CapabilityDeclaration_eq_dec : EqDecision CapabilityDeclaration.
Proof. solve_decision. Defined.

(** ** Grant *)

Inductive GrantCondition := Silent | Notify | RequiresApproval.
Inductive DenialReason := DenialNoGrant | DenialExpired | DenialRevoked.
Inductive GrantStatus := StatusActive | StatusRevoked | StatusExpired.
Inductive GrantOrigin := ManifestRequested | UserAdded | McpExport | SystemBundled.

#[export] Instance GrantCondition_eq_dec : EqDecision GrantCondition.
Proof. solve_decision. Defined.
#[export] Instance DenialReason_eq_dec : EqDecision DenialReason.
Proof. solve_decision. Defined.
#[export] Instance GrantStatus_eq_dec : EqDecision GrantStatus.
Proof. solve_decision. Defined.
#[export] Instance GrantOrigin_eq_dec : EqDecision GrantOrigin.
Proof. solve_decision. Defined.

(** [ExpiresAfter] carries a [NonZeroU32]; [GrantDuration_wf] states its range. *)
Inductive GrantDuration :=
  | NonExpiring
  | ExpiresAfter (secs : N).

#[export] Instance GrantDuration_eq_dec : EqDecision GrantDuration.
Proof. solve_decision. Defined.

Definition GrantDuration_wf (d : GrantDuration) : Prop :=
  match d with
  | NonExpiring => True
  | ExpiresAfter secs => (0 < secs < 2 ^ 32)%N
  end.

Inductive GrantScope :=
  | ExactCapability (provider : AppId) (capability : CapabilityName)
  | AllProviderCapabilities (provider : AppId).

#[export] Instance GrantScope_eq_dec : EqDecision GrantScope.
Proof. solve_decision. Defined.

Inductive DataScope :=
  | NoData
  | AllResources
  | Resources (resource_ids : list ResourceId).

#[export] Instance DataScope_eq_dec : EqDecision DataScope.
Proof. solve_decision. Defined.

Record Grant := {
  g_grant_id : GrantId;
  g_holder : AppId;
  g_scope : GrantScope;
  g_data_scope : DataScope;
  g_condition : GrantCondition;
  g_origin : GrantOrigin;
  g_issued_at : DateTime;
  g_expires_at : option DateTime;
}.

#[export] Instance Grant_eq_dec : EqDecision Grant.
Proof. solve_decision. Defined.

Record GrantStatusView := { gsv_grant : Grant; gsv_status : GrantStatus }.

(** ** Run *)

Inductive Initiator :=
  | InitSurfaceAction (app_id : AppId) (surface : SurfaceName)
  | InitApp (app_id : AppId) (reason : string)
  | InitRun (app_id : AppId) (parent_run_id : RunId).

#[export] Instance Initiator_eq_dec : EqDecision Initiator.
Proof. solve_decision. Defined.

Definition Initiator_app_id (i : Initiator) : AppId :=
  match i with
  | InitSurfaceAction app_id _ => app_id
  | InitApp app_id _ => app_id
  | InitRun app_id _ => app_id
  end.

Inductive RunTerminalState := RunCompleted | RunFailed | RunCancelled | RunInterrupted.

#[export] Instance RunTerminalState_eq_dec : EqDecision RunTerminalState.
Proof. solve_decision. Defined.

Record ApprovalRecord := {
  ar_capability : CapabilityRef;
  ar_grant_id : GrantId;
  ar_approved : bool;
  ar_data_scope : DataScope;
}.

Inductive InvocationRecord :=
  | RecCompleted (capability : CapabilityRef) (grant_id : GrantId) (data_scope : DataScope)
  | RecFailed (capability : CapabilityRef) (grant_id : GrantId) (data_scope : DataScope)
  | RecRefused (capability : CapabilityRef) (reason : DenialReason) (data_scope : DataScope)
  | RecCancelled (capability : CapabilityRef) (data_scope : DataScope).

Record RunView := {
  rv_run_id : RunId;
  rv_initiator : Initiator;
  rv_goal : string;
  rv_grants_exercised : list GrantId;
  rv_invocations : list InvocationRecord;
  rv_approvals : list ApprovalRecord;
  rv_artifacts_produced : list ArtifactId;
  rv_terminal_state : option RunTerminalState;
}.

Definition RunView_initiating_app (v : RunView) : AppId := Initiator_app_id (rv_initiator v).

Definition RunView_is_active (v : RunView) : bool :=
  match rv_terminal_state v with None => true | Some _ => false end.

(** ** Artifact *)

Record Provenance := {
  pv_run_id : RunId;
  pv_capability : CapabilityRef;
  pv_grant_id : GrantId;
  pv_produced_by : AppId;
  pv_recorded_at : DateTime;
}.

Record ArtifactDraft := {
  ad_artifact_type : ArtifactTypeName;
  ad_title : string;
  ad_content : Value;
}.

Record Artifact := {
  a_artifact_id : ArtifactId;
  a_artifact_type : ArtifactTypeName;
  a_title : string;
  a_content : Value;
  a_provenance : Provenance;
}.

#[export] Instance Provenance_eq_dec : EqDecision Provenance.
Proof. solve_decision. Defined.
#[export] Instance Artifact_eq_dec : EqDecision Artifact.
Proof. solve_decision. Defined.

(** ** Surface *)

Inductive SurfaceKind := Panel | Card | Form | Picker | Dashboard.

#[export] Instance SurfaceKind_eq_dec : EqDecision SurfaceKind.
Proof. solve_decision. Defined.

Record SurfaceDeclaration := {
  sd_name : SurfaceName;
  sd_kind : SurfaceKind;
  sd_title : string;
  sd_description : string;
  sd_intents : list CapabilityRef;
}.

#[export] Instance SurfaceDeclaration_eq_dec : EqDecision SurfaceDeclaration.
Proof. solve_decision. Defined.

Record ActionIntent := {
  ai_capability : CapabilityRef;
  ai_input : JsonObject;
  ai_data_scope : DataScope;
  ai_goal : string;
}.
