(* ===== verification/Errors.v ===== *)
(** * Kernel errors

    [errors.rs]: the closed set of kernel errors, [KernelResult] and the
    [Display] text of every variant, which reaches the ledger through
    [CapabilityFailed]. *)

From S2P Require Import Prelude RustStd Json Types.

Inductive KernelError :=
  | UnknownApp (app : AppId)
  | AppAlreadyInstalled (app : AppId)
  | ManifestContentHashMismatch (app : AppId)
  | ManifestIdentityInvalid (field : string)
  | ManifestContributionInvalid (app : AppId) (contribution : string) (names : list string)
  | ManifestSurfaceIntentInvalid (app : AppId) (surface : SurfaceName) (message : string)
  | ManifestExtensionContributionInvalid (app : AppId) (surface : SurfaceName) (message : string)
  | PreparedGrantGroupMismatch
  | UnknownEventTopic (app : AppId) (topic : EventTopic)
  | EventSubscriptionDenied (app : AppId)
  | HandlerBindingMismatch (app : AppId) (declared offered : list string)
  | UndeclaredCapability (app : AppId) (capability : CapabilityName)
  | HandlerNotBound (app : AppId) (capability : CapabilityName)
  | UndeclaredSurface (app : AppId) (surface : SurfaceName)
  | SurfaceNotOpen (app : AppId) (surface : SurfaceName)
  | UndeclaredSurfaceIntent (app : AppId) (surface : SurfaceName) (capability : CapabilityRef)
  | UndeclaredArtifactType (app : AppId) (artifact_type : ArtifactTypeName)
  | UndeclaredSecret (name : SecretName)
  | UnknownSecret (name : SecretName)
  | InvalidSchema (described_as message : string)
  | InvalidCapabilityInput (described_as message : string)
  | InvalidCapabilityOutput (described_as message : string)
  | InvalidArtifactContent (described_as message : string)
  | UnknownRun (run_id : RunId)
  | RunAlreadyStarted (run_id : RunId)
  | RunAlreadyEnded (run_id : RunId)
  | ChildRunAttributionMismatch (expected got : AppId)
  | UnknownArtifact (artifact_id : ArtifactId)
  | UnknownLease (lease_id : LeaseId)
  | UnknownGrant (grant_id : GrantId)
  | GrantReasonRequired
  | InvalidGrantDataScope (message : string)
  | InvalidGrantDuration
  | InvalidLeaseDuration
  | InvalidInvocationTimeout
  | PreparedInvocationStale
  | PreparedInvocationCancelled
  | PreparedInvocationConsumed
  | PreparedInvocationDenied (reason : DenialReason)
  | PreparedInstallStale
  | AppUpgradeContractChanged (app : AppId)
  | Durability (message : string).

(** [pub type KernelResult<T> = Result<T, KernelError>]. *)
Abbreviation KernelResult := (outcome KernelError).

Definition hex_digit (n : N) : string :=
  match String.get (N.to_nat n) "0123456789abcdef" with
  | Some c => String c EmptyString
  | None => ""
  end.

(** One byte of the [Debug] rendering of a [str]. *)
Definition debug_byte (c : Ascii.ascii) : string :=
  let b := byte c in
  if (b =? 0)%N then "\0"
  else if (b =? 9)%N then "\t"
  else if (b =? 10)%N then "\n"
  else if (b =? 13)%N then "\r"
  else if (b =? 34)%N then String (Ascii.ascii_of_N 92) (String (Ascii.ascii_of_N 34) EmptyString)
  else if (b =? 92)%N then "\\"
  else if (b <? 16)%N then "\u{" ++ hex_digit b ++ "}"
  else if ((b <? 32) || (b =? 127))%N
  then "\u{" ++ hex_digit (b / 16) ++ hex_digit (b mod 16) ++ "}"
  else String c EmptyString.

Fixpoint debug_body (s : string) : string :=
  match s with
  | EmptyString => ""
  | String c s' => debug_byte c ++ debug_body s'
  end.

(** [format!("{s:?}")]; printable characters outside ASCII are kept. *)
Definition debug_str (s : string) : string :=
  let quote := String (Ascii.ascii_of_N 34) EmptyString in quote ++ debug_body s ++ quote.

(** [format!("{names:?}")] for a [Vec<String>]. *)
Definition debug_strings (names : list string) : string :=
  "[" ++ String.concat ", " (debug_str <$> names) ++ "]".

Definition debug_capability (c : CapabilityRef) : string :=
  "CapabilityRef { provider: AppId(" ++ debug_str (cr_provider c)
  ++ "), capability: CapabilityName(" ++ debug_str (cr_capability c) ++ ") }".

Definition debug_denial (r : DenialReason) : string :=
  match r with
  | DenialNoGrant => "NoGrant"
  | DenialExpired => "Expired"
  | DenialRevoked => "Revoked"
  end.

(** The [Display] text of every variant ([#[error(..)]]). *)
Definition KernelError_display (e : KernelError) : string :=
  match e with
  | UnknownApp app => "app '" ++ app ++ "' is not installed"
  | AppAlreadyInstalled app => "app '" ++ app ++ "' is already installed"
  | ManifestContentHashMismatch app =>
      "content hash does not match manifest content of '" ++ app ++ "'"
  | ManifestIdentityInvalid field =>
      "manifest identity field '" ++ field ++ "' must be non-empty"
  | ManifestContributionInvalid app contribution names =>
      "manifest of '" ++ app ++ "' declares duplicate " ++ contribution ++ " names: "
      ++ debug_strings names
  | ManifestSurfaceIntentInvalid app surface message =>
      "surface '" ++ surface ++ "' of app '" ++ app ++ "' declares invalid intents: " ++ message
  | ManifestExtensionContributionInvalid app surface message =>
      "extension contribution surface '" ++ surface ++ "' of app '" ++ app ++ "' is invalid: "
      ++ message
  | PreparedGrantGroupMismatch =>
      "grouped grant approval contains grants from different holders or trusted-chrome contexts"
  | UnknownEventTopic app topic =>
      "app '" ++ app ++ "' subscribes to unknown event topic '" ++ topic ++ "'"
  | EventSubscriptionDenied app => "event-feed subscription was denied for app '" ++ app ++ "'"
  | HandlerBindingMismatch app declared offered =>
      "app '" ++ app ++ "': declared capabilities " ++ debug_strings declared
      ++ " but handlers were offered for " ++ debug_strings offered
  | UndeclaredCapability app capability =>
      "app '" ++ app ++ "' does not declare capability '" ++ capability ++ "'"
  | HandlerNotBound app capability =>
      "app '" ++ app ++ "' has no bound handler for capability '" ++ capability ++ "'"
  | UndeclaredSurface app surface =>
      "app '" ++ app ++ "' does not declare surface '" ++ surface ++ "'"
  | SurfaceNotOpen app surface => "surface '" ++ surface ++ "' of app '" ++ app ++ "' is not open"
  | UndeclaredSurfaceIntent app surface capability =>
      "surface '" ++ surface ++ "' of app '" ++ app ++ "' does not declare intent for capability '"
      ++ debug_capability capability ++ "'"
  | UndeclaredArtifactType app artifact_type =>
      "app '" ++ app ++ "' does not declare artifact type '" ++ artifact_type ++ "'"
  | UndeclaredSecret name => "secret '" ++ name ++ "' is not declared by this app"
  | UnknownSecret name => "secret '" ++ name ++ "' has not been stored"
  | InvalidSchema described_as message =>
      described_as ++ " is not a valid JSON Schema: " ++ message
  | InvalidCapabilityInput described_as message =>
      "input to '" ++ described_as ++ "' rejected by declared schema: " ++ message
  | InvalidCapabilityOutput described_as message =>
      "output of '" ++ described_as ++ "' rejected by declared schema: " ++ message
  | InvalidArtifactContent described_as message =>
      "artifact '" ++ described_as ++ "' rejected by declared schema: " ++ message
  | UnknownRun run_id => "no run '" ++ run_id ++ "' in the ledger"
  | RunAlreadyStarted run_id => "run '" ++ run_id ++ "' was already started"
  | RunAlreadyEnded run_id => "run '" ++ run_id ++ "' has already ended"
  | ChildRunAttributionMismatch expected got =>
      "child run must run on behalf of '" ++ expected ++ "', the app of its parent run — got '"
      ++ got ++ "'"
  | UnknownArtifact artifact_id => "no artifact '" ++ artifact_id ++ "'"
  | UnknownLease lease_id => "no active lease '" ++ lease_id ++ "'"
  | UnknownGrant grant_id => "no grant '" ++ grant_id ++ "' was ever issued"
  | GrantReasonRequired => "grant reason must not be empty"
  | InvalidGrantDataScope message => "grant data scope is invalid: " ++ message
  | InvalidGrantDuration => "grant expiry must be later than issuance"
  | InvalidLeaseDuration => "lease duration must be positive"
  | InvalidInvocationTimeout => "invocation timeout is too large for the system clock"
  | PreparedInvocationStale => "prepared invocation became stale before finalization"
  | PreparedInvocationCancelled => "prepared invocation was cancelled or timed out"
  | PreparedInvocationConsumed => "prepared invocation was already consumed"
  | PreparedInvocationDenied reason => "prepared invocation was denied: " ++ debug_denial reason
  | PreparedInstallStale => "prepared install became stale before commit"
  | AppUpgradeContractChanged app =>
      "upgrade of app '" ++ app ++ "' changes its authority or behavioral contract"
  | Durability message => "durable kernel state failed: " ++ message
  end.
