(* ===== verification/Grants.v ===== *)
(** * Grants: scopes, coverage and expiry

    The operations of [primitives/grant.rs]: validation and coverage of data
    scopes, coverage of capability scopes, validity and expiry of grants. The
    abstract meaning of a data scope is the set of accesses it stands for
    ([scope_allows]); coverage is inclusion of those sets. *)

From S2P Require Import Prelude RustStd Json Types Errors.

(** ** Operations *)

(** [DataScope::validate]. *)
Definition DataScope_validate (s : DataScope) : KernelResult unit :=
  match s with
  | NoData | AllResources => Ok tt
  | Resources resource_ids =>
      match resource_ids with
      | [] => Err (InvalidGrantDataScope "resource scope must name at least one resource")
      | _ =>
          let unique : gset ResourceId := list_to_set resource_ids in
          if bool_decide (size unique ≠ length resource_ids)
          then Err (InvalidGrantDataScope "resource scope must not repeat resource ids")
          else Ok tt
      end
  end.

(** [DataScope::resources]. *)
Definition DataScope_resources (resource_ids : list ResourceId) : KernelResult DataScope :=
  let data_scope := Resources resource_ids in
  _ ← DataScope_validate data_scope; Ok data_scope.

(** [DataScope::covers]. *)
Definition DataScope_covers (self requested : DataScope) : bool :=
  match self, requested with
  | NoData, NoData => true
  | AllResources, (AllResources | Resources _) => true
  | Resources granted, Resources requested =>
      forallb (fun resource_id => bool_decide (resource_id ∈ granted)) requested
  | _, _ => false
  end.

(** [DataScope::validate_invocation]. *)
Definition DataScope_validate_invocation (s : DataScope) : KernelResult unit :=
  _ ← DataScope_validate s;
  if bool_decide (s = AllResources)
  then Err (InvalidGrantDataScope
    "invocations must name exact resources; all-resources is grant-only")
  else Ok tt.

(** [GrantScope::provider]. *)
Definition GrantScope_provider (s : GrantScope) : AppId :=
  match s with
  | ExactCapability provider _ => provider
  | AllProviderCapabilities provider => provider
  end.

(** [GrantScope::covers]. *)
Definition GrantScope_covers (s : GrantScope) (capability_ref : CapabilityRef) : bool :=
  match s with
  | ExactCapability provider capability =>
      bool_decide (cr_provider capability_ref = provider)
      && bool_decide (cr_capability capability_ref = capability)
  | AllProviderCapabilities provider => bool_decide (cr_provider capability_ref = provider)
  end.

(** [Grant::validate]. *)
Definition Grant_validate (g : Grant) : KernelResult unit :=
  _ ← DataScope_validate (g_data_scope g);
  match g_expires_at g with
  | Some expires_at => if (expires_at <=? g_issued_at g)%Z then Err InvalidGrantDuration else Ok tt
  | None => Ok tt
  end.

(** [Grant::is_expired]. *)
Definition Grant_is_expired (g : Grant) (now : DateTime) : bool :=
  match g_expires_at g with
  | Some expires_at => (expires_at <=? now)%Z
  | None => false
  end.

(** ** Meaning of a data scope *)

(** An access either touches no data ([None]) or one resource. *)
Definition scope_allows (s : DataScope) (access : option ResourceId) : Prop :=
  match s, access with
  | NoData, None => True
  | AllResources, Some _ => True
  | Resources ids, Some r => r ∈ ids
  | _, _ => False
  end.

(** ** Lemmas *)

Lemma size_list_to_set_NoDup (l : list string) :
  size (list_to_set l : gset string) = length l <-> NoDup l.
Proof.
  induction l as [|x l IH]; simpl; [split; [constructor | done]|].
  destruct (decide (x ∈ l)) as [Hx|Hx].
  - split.
    + rewrite subseteq_union_1_L by set_solver. intros H.
      exfalso. assert (size (list_to_set l : gset string) <= length l)%nat; [|lia].
      clear. induction l as [|y l IH]; simpl; [done|].
      rewrite size_union_alt, size_singleton.
      enough (size (list_to_set l ∖ {[y]} : gset string) <= size (list_to_set l : gset string))%nat
        by lia. apply subseteq_size. set_solver.
    + by intros [??]%NoDup_cons.
  - rewrite size_union by set_solver. rewrite size_singleton, NoDup_cons, <- IH.
    split; [intros H; split; [done | lia] | intros [_ H]; lia].
Qed.

(** A validated resource scope names at least one resource and repeats none. *)
Lemma DataScope_validate_Resources ids :
  DataScope_validate (Resources ids) = Ok tt <-> ids ≠ [] /\ NoDup ids.
Proof.
  unfold DataScope_validate. destruct ids as [|x ids]; [naive_solver|].
  rewrite <- size_list_to_set_NoDup.
  case_bool_decide; naive_solver.
Qed.

Lemma DataScope_covers_Resources granted requested :
  DataScope_covers (Resources granted) (Resources requested) = true <-> requested ⊆ granted.
Proof.
  simpl. rewrite forallb_forall. split.
  - intros H x Hx. apply list_elem_of_In, H in Hx. by apply bool_decide_eq_true in Hx.
  - intros H x Hx. apply bool_decide_eq_true, H, list_elem_of_In, Hx.
Qed.

Lemma DataScope_covers_refl s : DataScope_covers s s = true.
Proof. destruct s as [| |ids]; [done..|]. by apply DataScope_covers_Resources. Qed.

Lemma DataScope_covers_trans a b c :
  DataScope_covers a b = true -> DataScope_covers b c = true -> DataScope_covers a c = true.
Proof.
  destruct a as [| |xs], b as [| |ys], c as [| |zs]; try done.
  rewrite !DataScope_covers_Resources. set_solver.
Qed.

Lemma GrantScope_covers_provider s c :
  GrantScope_covers s c = true -> GrantScope_provider s = cr_provider c.
Proof.
  destruct s; simpl; rewrite ?andb_true_iff, ?bool_decide_eq_true; naive_solver.
Qed.

Lemma DataScope_validate_invocation_Ok s :
  DataScope_validate_invocation s = Ok tt ->
  DataScope_validate s = Ok tt /\ s ≠ AllResources.
Proof.
  unfold DataScope_validate_invocation. intros H. inv_ok H.
  by case_bool_decide.
Qed.

(** ** Properties *)

(** Coverage is inclusion of accesses: a granted data scope covers a validated
    requested scope exactly when every access the request stands for is one the grant
    stands for. A finite resource list never covers all resources, and a no-data grant
    never covers a resource. *)
Theorem DataScope_covers_is_inclusion granted requested :
  DataScope_validate requested = Ok tt ->
  DataScope_covers granted requested = true <->
  ∀ access, scope_allows requested access -> scope_allows granted access.
Proof.
  intros Hv. destruct granted as [| |gs], requested as [| |rs]; simpl; split; try done.
  - intros H. by specialize (H (Some "") I).
  - intros H. apply DataScope_validate_Resources in Hv as [Hne _].
    destruct rs as [|r rs]; [done|]. by destruct (H (Some r) (list_elem_of_here _ _)).
  - intros H. by specialize (H None I).
  - by intros _ [].
  - intros H. by specialize (H None I).
  - intros H. exfalso. specialize (H (Some (fresh gs)) I).
    by apply infinite_is_fresh in H.
  - rewrite (DataScope_covers_Resources gs rs). intros H [r|]; [apply H | done].
  - intros H. apply DataScope_covers_Resources. intros r Hr. by apply (H (Some r)).
Qed.

Lemma DataScope_covers_is_inclusion_witness :
  DataScope_validate (Resources ["a"; "b"]) = Ok tt /\
  (DataScope_covers (Resources ["b"; "c"; "a"]) (Resources ["a"; "b"]) = true <->
   ∀ access, scope_allows (Resources ["a"; "b"]) access ->
             scope_allows (Resources ["b"; "c"; "a"]) access).
Proof.
  split; [vm_compute; reflexivity|].
  apply (DataScope_covers_is_inclusion (Resources ["b"; "c"; "a"]) (Resources ["a"; "b"])).
  vm_compute; reflexivity.
Defined.
