(* ===== verification/Manifest.v ===== *)
(** * App manifests

    [manifest.rs]: the declarations an app makes, the consistency check every
    manifest crosses at install ([AppManifest::require_consistent]) and the
    comparison that bounds in-place upgrades
    ([AppManifest::has_same_upgrade_contract]). *)

From S2P Require Import Prelude RustStd Json Types Errors Grants.

(** ** Declarations *)

Record GrantRequest := {
  gq_scope : GrantScope;
  gq_data_scope : DataScope;
  gq_condition : GrantCondition;
  gq_reason : string;
  gq_duration : GrantDuration;
}.

Record AgentDeclaration := {
  ag_name : string;
  ag_description : string;
  ag_instructions : string;
  ag_capability_bindings : list CapabilityRef;
}.

Record SkillDeclaration := {
  sk_name : string;
  sk_description : string;
  sk_instructions : string;
}.

Record AssistantProfileDeclaration := {
  ap_profile_name : string;
  ap_title : string;
  ap_description : string;
  ap_instruction_skill_refs : list string;
  ap_suggested_capability_refs : list CapabilityRef;
  ap_suggested_agent_engine_contract : option string;
  ap_starter_prompts : list string;
}.

Record AutomationDeclaration := {
  au_name : string;
  au_description : string;
  au_trigger : string;
}.

Record ConfigDeclaration := {
  cf_name : ConfigName;
  cf_title : string;
  cf_description : string;
  cf_json_schema : JsonObject;
  cf_default : option Value;
}.

Record ConnectorDeclaration := {
  cn_name : string;
  cn_description : string;
  cn_secret_names : list SecretName;
  cn_config_schema : option JsonObject;
}.

Record ArtifactTypeDeclaration := {
  at_name : ArtifactTypeName;
  at_description : string;
  at_json_schema : JsonObject;
}.

Record ExtensionPointDeclaration := {
  ep_name : ExtensionPointName;
  ep_contract_version : N;
  ep_context_schema : JsonObject;
}.

Record ExtensionContribution := {
  ec_target_app : AppId;
  ec_extension_point : ExtensionPointName;
  ec_contract_version : N;
  ec_surface : SurfaceName;
}.

Record AppManifest := {
  m_app_id : AppId;
  m_version : string;
  m_display_name : string;
  m_description : string;
  m_capabilities : list CapabilityDeclaration;
  m_surfaces : list SurfaceDeclaration;
  m_agents : list AgentDeclaration;
  m_skills : list SkillDeclaration;
  m_assistant_profiles : list AssistantProfileDeclaration;
  m_automations : list AutomationDeclaration;
  m_connectors : list ConnectorDeclaration;
  m_config_declarations : list ConfigDeclaration;
  m_artifact_types : list ArtifactTypeDeclaration;
  m_extension_points : list ExtensionPointDeclaration;
  m_extension_contributions : list ExtensionContribution;
  m_grant_requests : list GrantRequest;
  m_event_subscriptions : list EventTopic;
}.

#[export] Instance GrantRequest_eq_dec : EqDecision GrantRequest.
Proof. solve_decision. Defined.
#[export] Instance AgentDeclaration_eq_dec : EqDecision AgentDeclaration.
Proof. solve_decision. Defined.
#[export] Instance SkillDeclaration_eq_dec : EqDecision SkillDeclaration.
Proof. solve_decision. Defined.
#[export] Instance AssistantProfileDeclaration_eq_dec : EqDecision AssistantProfileDeclaration.
Proof. solve_decision. Defined.
#[export] Instance AutomationDeclaration_eq_dec : EqDecision AutomationDeclaration.
Proof. solve_decision. Defined.
#[export] Instance ConfigDeclaration_eq_dec : EqDecision ConfigDeclaration.
Proof. solve_decision. Defined.
#[export] Instance ConnectorDeclaration_eq_dec : EqDecision ConnectorDeclaration.
Proof. solve_decision. Defined.
#[export] Instance ArtifactTypeDeclaration_eq_dec : EqDecision ArtifactTypeDeclaration.
Proof. solve_decision. Defined.
#[export] Instance ExtensionPointDeclaration_eq_dec : EqDecision ExtensionPointDeclaration.
Proof. solve_decision. Defined.
#[export] Instance ExtensionContribution_eq_dec : EqDecision ExtensionContribution.
Proof. solve_decision. Defined.
#[export] Instance AppManifest_eq_dec : EqDecision AppManifest.
Proof. solve_decision. Defined.

(** ** Operations *)

(** [GrantRequest::validate]. *)
Definition GrantRequest_validate (r : GrantRequest) : KernelResult unit :=
  DataScope_validate (gq_data_scope r).

(** The three fields [has_same_upgrade_contract] clears before comparing. *)
Definition clear_presentation (m : AppManifest) : AppManifest := {|
  m_app_id := m_app_id m;
  m_version := "";
  m_display_name := "";
  m_description := "";
  m_capabilities := m_capabilities m;
  m_surfaces := m_surfaces m;
  m_agents := m_agents m;
  m_skills := m_skills m;
  m_assistant_profiles := m_assistant_profiles m;
  m_automations := m_automations m;
  m_connectors := m_connectors m;
  m_config_declarations := m_config_declarations m;
  m_artifact_types := m_artifact_types m;
  m_extension_points := m_extension_points m;
  m_extension_contributions := m_extension_contributions m;
  m_grant_requests := m_grant_requests m;
  m_event_subscriptions := m_event_subscriptions m;
|}.

(** [AppManifest::has_same_upgrade_contract]. *)
Definition has_same_upgrade_contract (self candidate : AppManifest) : bool :=
  bool_decide (clear_presentation self = clear_presentation candidate).

(** The loop of [require_unique]: the names seen more than once. *)
Fixpoint duplicate_names (seen duplicates : gset string) (names : list string) : gset string :=
  match names with
  | [] => duplicates
  | name :: names' =>
      if bool_decide (name ∈ seen)
      then duplicate_names seen ({[name]} ∪ duplicates) names'
      else duplicate_names ({[name]} ∪ seen) duplicates names'
  end.

(** [require_unique]. *)
Definition require_unique (app : AppId) (contribution : string) (names : list string)
    : KernelResult unit :=
  let duplicates := duplicate_names ∅ ∅ names in
  if bool_decide (duplicates = ∅) then Ok tt
  else Err (ManifestContributionInvalid app contribution (btree_elements duplicates)).

Definition require_nonempty (field_value : string * string) : KernelResult unit :=
  let '(field, value) := field_value in
  if bool_decide (value = "") then Err (ManifestIdentityInvalid field) else Ok tt.

Definition check_surface (m : AppManifest) (declared_capabilities : gset string)
    (surface : SurfaceDeclaration) : KernelResult unit :=
  _ ← (if bool_decide (sd_kind surface = Form) && negb (bool_decide (length (sd_intents surface) = 1%nat))
       then Err (ManifestSurfaceIntentInvalid (m_app_id m) (sd_name surface)
         ("form surfaces must declare exactly one intent, found "
          ++ usize_to_string (N.of_nat (length (sd_intents surface)))))
       else Ok tt);
  for_each (fun intent =>
    if bool_decide (cr_provider intent = m_app_id m)
       && negb (bool_decide (cr_capability intent ∈ declared_capabilities))
    then Err (ManifestSurfaceIntentInvalid (m_app_id m) (sd_name surface)
      ("intent references undeclared capability '" ++ cr_capability intent ++ "'"))
    else Ok tt) (sd_intents surface).

Definition check_profile (m : AppManifest) (declared_skills : gset string)
    (profile : AssistantProfileDeclaration) : KernelResult unit :=
  _ ← for_each require_nonempty
        [("profile_name", ap_profile_name profile);
         ("title", ap_title profile);
         ("description", ap_description profile)];
  for_each (fun skill_ref =>
    if negb (bool_decide (skill_ref ∈ declared_skills))
    then Err (ManifestContributionInvalid (m_app_id m)
      "assistant profile instruction skill" [skill_ref])
    else Ok tt) (ap_instruction_skill_refs profile).

Definition check_contribution (m : AppManifest) (contribution : ExtensionContribution)
    : KernelResult unit :=
  if negb (existsb (fun surface => bool_decide (sd_name surface = ec_surface contribution))
            (m_surfaces m))
  then Err (ManifestExtensionContributionInvalid (m_app_id m) (ec_surface contribution)
    "contribution surface is not declared by this app")
  else if bool_decide (ec_target_app contribution = m_app_id m)
  then Err (ManifestExtensionContributionInvalid (m_app_id m) (ec_surface contribution)
    "an app cannot contribute to its own extension point")
  else Ok tt.

(** [AppManifest::require_consistent]. *)
Definition require_consistent (m : AppManifest) : KernelResult unit :=
  _ ← for_each require_nonempty
        [("app_id", m_app_id m); ("version", m_version m); ("display_name", m_display_name m)];
  _ ← require_unique (m_app_id m) "capability" (cd_name <$> m_capabilities m);
  _ ← require_unique (m_app_id m) "surface" (sd_name <$> m_surfaces m);
  let declared_capabilities : gset string := list_to_set (cd_name <$> m_capabilities m) in
  _ ← for_each (check_surface m declared_capabilities) (m_surfaces m);
  _ ← require_unique (m_app_id m) "agent" (ag_name <$> m_agents m);
  _ ← require_unique (m_app_id m) "skill" (sk_name <$> m_skills m);
  let declared_skills : gset string := list_to_set (sk_name <$> m_skills m) in
  _ ← require_unique (m_app_id m) "assistant profile"
        (ap_profile_name <$> m_assistant_profiles m);
  _ ← for_each (check_profile m declared_skills) (m_assistant_profiles m);
  _ ← require_unique (m_app_id m) "automation" (au_name <$> m_automations m);
  _ ← require_unique (m_app_id m) "connector" (cn_name <$> m_connectors m);
  _ ← require_unique (m_app_id m) "config declaration" (cf_name <$> m_config_declarations m);
  _ ← for_each GrantRequest_validate (m_grant_requests m);
  _ ← require_unique (m_app_id m) "artifact type" (at_name <$> m_artifact_types m);
  _ ← require_unique (m_app_id m) "extension point" (ep_name <$> m_extension_points m);
  _ ← for_each (check_contribution m) (m_extension_contributions m);
  _ ← require_unique (m_app_id m) "event subscription" (m_event_subscriptions m);
  Ok tt.

(** [AppManifest::declared_secret_names]. *)
Definition declared_secret_names (m : AppManifest) : list SecretName :=
  m_connectors m ≫= cn_secret_names.

(** ** What a consistent manifest guarantees *)

Record manifest_consistent (m : AppManifest) : Prop := {
  mc_identity : m_app_id m ≠ "" /\ m_version m ≠ "" /\ m_display_name m ≠ "";
  mc_capabilities : NoDup (cd_name <$> m_capabilities m);
  mc_surfaces : NoDup (sd_name <$> m_surfaces m);
  mc_forms : ∀ s, s ∈ m_surfaces m -> sd_kind s = Form -> length (sd_intents s) = 1%nat;
  mc_intents : ∀ s i, s ∈ m_surfaces m -> i ∈ sd_intents s -> cr_provider i = m_app_id m ->
    cr_capability i ∈ cd_name <$> m_capabilities m;
  mc_agents : NoDup (ag_name <$> m_agents m);
  mc_skills : NoDup (sk_name <$> m_skills m);
  mc_profiles : NoDup (ap_profile_name <$> m_assistant_profiles m);
  mc_profile_fields : ∀ p, p ∈ m_assistant_profiles m ->
    ap_profile_name p ≠ "" /\ ap_title p ≠ "" /\ ap_description p ≠ "";
  mc_profile_skills : ∀ p k, p ∈ m_assistant_profiles m -> k ∈ ap_instruction_skill_refs p ->
    k ∈ sk_name <$> m_skills m;
  mc_automations : NoDup (au_name <$> m_automations m);
  mc_connectors : NoDup (cn_name <$> m_connectors m);
  mc_configs : NoDup (cf_name <$> m_config_declarations m);
  mc_grants : ∀ r, r ∈ m_grant_requests m -> GrantRequest_validate r = Ok tt;
  mc_artifact_types : NoDup (at_name <$> m_artifact_types m);
  mc_points : NoDup (ep_name <$> m_extension_points m);
  mc_contributions : ∀ c, c ∈ m_extension_contributions m ->
    ec_surface c ∈ sd_name <$> m_surfaces m /\ ec_target_app c ≠ m_app_id m;
  mc_topics : NoDup (m_event_subscriptions m);
}.

(** ** Lemmas *)

Lemma duplicate_names_empty seen dups names :
  duplicate_names seen dups names = ∅ <->
  dups = ∅ /\ NoDup names /\ (∀ x, x ∈ names -> x ∉ seen).
Proof.
  revert seen dups. induction names as [|n names IH]; intros seen dups; simpl.
  - split; [intros ->; repeat split; [constructor | by intros x Hx%not_elem_of_nil] | by intros [-> _]].
  - rewrite NoDup_cons. case_bool_decide as Hn; rewrite IH; split.
    + intros (Hd & _ & _). exfalso. set_solver.
    + intros (_ & _ & H). exfalso. apply (H n); [apply list_elem_of_here | done].
    + intros (-> & Hnd & H). repeat split; [set_solver | done | set_solver].
    + intros (-> & [Hn' Hnd] & H). repeat split; [done|]. intros x Hx.
      apply not_elem_of_union. split; [|set_solver].
      intros ->%elem_of_singleton. done.
Qed.

Lemma require_unique_Ok app contribution names :
  require_unique app contribution names = Ok tt <-> NoDup names.
Proof.
  unfold require_unique. case_bool_decide as H; rewrite duplicate_names_empty in H.
  - split; [by destruct H as (_ & ? & _) | done].
  - split; [done|]. intros Hnd. destruct H. repeat split; [done|]. set_solver.
Qed.

Lemma require_nonempty_Ok f v : require_nonempty (f, v) = Ok tt <-> v ≠ "".
Proof. unfold require_nonempty. case_bool_decide; naive_solver. Qed.

Lemma require_nonempty_three f1 v1 f2 v2 f3 v3 :
  for_each require_nonempty [(f1, v1); (f2, v2); (f3, v3)] = Ok tt <->
  v1 ≠ "" /\ v2 ≠ "" /\ v3 ≠ "".
Proof.
  rewrite !for_each_cons, !require_nonempty_Ok. simpl. intuition congruence.
Qed.

Lemma check_surface_Ok m caps s :
  check_surface m caps s = Ok tt <->
  (sd_kind s = Form -> length (sd_intents s) = 1%nat) /\
  (∀ i, i ∈ sd_intents s -> cr_provider i = m_app_id m -> cr_capability i ∈ caps).
Proof.
  unfold check_surface. rewrite bind_unit_Ok, for_each_Ok.
  split; intros [H1 H2]; split.
  - intros Hf. by repeat case_bool_decide.
  - intros i Hi Hp. specialize (H2 i Hi). by repeat case_bool_decide.
  - repeat case_bool_decide; naive_solver.
  - intros i Hi. specialize (H2 i Hi). repeat case_bool_decide; naive_solver.
Qed.

Lemma check_profile_Ok m skills p :
  check_profile m skills p = Ok tt <->
  (ap_profile_name p ≠ "" /\ ap_title p ≠ "" /\ ap_description p ≠ "") /\
  (∀ k, k ∈ ap_instruction_skill_refs p -> k ∈ skills).
Proof.
  unfold check_profile. rewrite bind_unit_Ok, require_nonempty_three, for_each_Ok.
  split; intros [H1 H2]; (split; [done|]); intros k Hk; specialize (H2 k Hk); simpl in *;
    by case_bool_decide.
Qed.

Lemma check_contribution_Ok m c :
  check_contribution m c = Ok tt <->
  ec_surface c ∈ sd_name <$> m_surfaces m /\ ec_target_app c ≠ m_app_id m.
Proof.
  unfold check_contribution.
  assert (existsb (fun s => bool_decide (sd_name s = ec_surface c)) (m_surfaces m) = true <->
          ec_surface c ∈ sd_name <$> m_surfaces m) as Hex.
  { rewrite existsb_exists, list_elem_of_fmap. split.
    - intros (s & Hs & E%bool_decide_eq_true). exists s. by rewrite list_elem_of_In.
    - intros (s & E & Hs). exists s. rewrite <- list_elem_of_In, bool_decide_eq_true. done. }
  destruct (existsb _ _); simpl; [|split; [done | intros [? _]; naive_solver]].
  case_bool_decide; naive_solver.
Qed.

(** ** Properties *)

(** The consistency check accepts a manifest exactly when its identity fields are
    non-empty, every contribution kind has unique names, forms declare one intent, own
    intents and profile skills are declared, grant requests are valid and extension
    contributions use a declared surface of another app's target. *)
Theorem require_consistent_spec m :
  require_consistent m = Ok tt <-> manifest_consistent m.
Proof.
  unfold require_consistent.
  rewrite !bind_unit_Ok, require_nonempty_three, !require_unique_Ok, !for_each_Ok.
  setoid_rewrite check_surface_Ok. setoid_rewrite check_profile_Ok.
  setoid_rewrite check_contribution_Ok. setoid_rewrite elem_of_list_to_set.
  split.
  - intros (? & ? & ? & Hsurf & ? & ? & ? & Hprof & ? & ? & ? & ? & ? & ? & ? & ? & _).
    constructor; try done.
    + intros s Hs. by apply Hsurf.
    + intros s i Hs. by apply Hsurf.
    + intros p Hp. by apply Hprof.
    + intros p k Hp. by apply Hprof.
  - intros []. repeat split; naive_solver.
Qed.

(** Two manifests have the same upgrade contract exactly when they agree on
    everything but version, display name and description. In particular the app
    identity, capabilities, grant requests and subscriptions are equal, so an upgrade
    cannot change the authority an app asks for. *)
Theorem has_same_upgrade_contract_spec a b :
  has_same_upgrade_contract a b = true <->
  m_app_id a = m_app_id b /\ m_capabilities a = m_capabilities b /\
  m_surfaces a = m_surfaces b /\ m_agents a = m_agents b /\ m_skills a = m_skills b /\
  m_assistant_profiles a = m_assistant_profiles b /\ m_automations a = m_automations b /\
  m_connectors a = m_connectors b /\ m_config_declarations a = m_config_declarations b /\
  m_artifact_types a = m_artifact_types b /\ m_extension_points a = m_extension_points b /\
  m_extension_contributions a = m_extension_contributions b /\
  m_grant_requests a = m_grant_requests b /\ m_event_subscriptions a = m_event_subscriptions b.
Proof.
  unfold has_same_upgrade_contract. rewrite bool_decide_eq_true.
  unfold clear_presentation. split.
  - intros H. injection H as. repeat split; assumption.
  - intros H. destruct_and!. f_equal; assumption.
Qed.
