(* ===== verification/Platform.v ===== *)
(** * The kernel's surroundings

    What the kernel calls but does not contain, as type classes the rest of the
    development is parametrised by:

    - [Libraries]: pure third-party code ([jsonschema], [serde_json], [sha2], the
      range of [chrono] and of [std::time::Instant]);
    - [Environment]: the effects of a host session, the [Clock] port
      ([clock.rs]), [Instant::now] and [Uuid::new_v4];
    - [TrustedChrome]: the rendering port of [services/chrome.rs].

    [schema.rs] is modelled here on top of [Libraries]. *)

From S2P Require Import Prelude RustStd Json Types Errors Grants Manifest.

(** ** Third-party functions *)

Class Libraries := {
  (** [jsonschema::validator_for]: an error text, or the validator, whose
      [iter_errors] yields the texts ["{instance_path}: {error}"]. *)
  schema_validator_for : JsonObject -> outcome string (Value -> list string);
  (** [serde_json::to_vec]. *)
  json_to_vec : Value -> outcome string string;
  (** [serde_json::to_string_pretty] of an object. *)
  json_to_string_pretty : JsonObject -> string;
  (** [serde_json::to_string] of a manifest. *)
  manifest_to_string : AppManifest -> string;
  (** The lower-case hexadecimal SHA-256 digest. *)
  sha256_hex : string -> string;
  (** [DateTime::<Utc>::MAX_UTC]. *)
  max_utc : DateTime;
  (** The largest [Instant]. *)
  instant_max : Z;
}.

Section libraries.
Context `{Libraries}.

(** [DateTime + Duration]: panics past [MAX_UTC] (all durations used are positive). *)
Definition datetime_add {E} (t : DateTime) (d : Duration) : outcome E DateTime :=
  if (t + d <=? max_utc)%Z then Ok (t + d)%Z else Panic "`DateTime + TimeDelta` overflowed".

(** [Instant::checked_add]. *)
Definition instant_checked_add (t d : Z) : option Z :=
  if (t + d <=? instant_max)%Z then Some (t + d)%Z else None.

(** [require_valid_schema]. *)
Definition require_valid_schema (schema : JsonObject) (described_as : string) : KernelResult unit :=
  _ ← map_err (InvalidSchema described_as) (schema_validator_for schema);
  Ok tt.

Inductive SchemaViolation := CapabilityInput | CapabilityOutput | ArtifactContent.

(** [validate_against_schema]. *)
Definition validate_against_schema (instance : Value) (schema : JsonObject)
    (violation : SchemaViolation) (described_as : string) : KernelResult unit :=
  validator ← map_err (InvalidSchema described_as) (schema_validator_for schema);
  let messages := validator instance in
  match messages with
  | [] => Ok tt
  | _ =>
      let message := String.concat "; " (merge_sort string_le messages) in
      Err (match violation with
           | CapabilityInput => InvalidCapabilityInput described_as message
           | CapabilityOutput => InvalidCapabilityOutput described_as message
           | ArtifactContent => InvalidArtifactContent described_as message
           end)
  end.

(** The instance is accepted by the compiled schema. *)
Definition schema_accepts (schema : JsonObject) (instance : Value) : Prop :=
  ∃ validator, schema_validator_for schema = Ok validator /\ validator instance = [].

Lemma validate_against_schema_Ok instance schema violation described_as :
  validate_against_schema instance schema violation described_as = Ok tt <->
  schema_accepts schema instance.
Proof.
  unfold validate_against_schema, schema_accepts.
  destruct (schema_validator_for schema) as [v|e|msg]; simpl.
  - destruct (v instance) eqn:E; split; [eauto | done | done |]. intros (? & [= <-] & ?). congruence.
  - split; [done | by intros (? & ? & _)].
  - split; [done | by intros (? & ? & _)].
Qed.

End libraries.

(** ** Session effects *)

Class Environment (W : Type) := {
  (** [Clock::now]. *)
  env_now : W -> DateTime * W;
  (** [Instant::now]. *)
  env_instant : W -> Z * W;
  (** [Uuid::new_v4]. *)
  env_uuid : W -> string * W;
}.

Section environment.
Context {W E : Type} `{Environment W}.

Definition clock_now : st W E DateTime := fun w => let '(t, w') := env_now w in (Ok t, w').
Definition instant_now : st W E Z := fun w => let '(t, w') := env_instant w in (Ok t, w').
Definition new_uuid : st W E string := fun w => let '(u, w') := env_uuid w in (Ok u, w').

End environment.

(** [FixedClock::advance_to]: the test clock refuses to move backwards. *)
Definition FixedClock_advance_to (now moment : DateTime) : outcome KernelError DateTime :=
  if (now <=? moment)%Z then Ok moment else Panic "FixedClock cannot move backwards".

(** ** Trusted chrome *)

Inductive ApprovalDecision := Approved | Denied.

#[export] Instance ApprovalDecision_eq_dec : EqDecision ApprovalDecision.
Proof. solve_decision. Defined.

Record GrantIssuancePrompt := {
  gip_app_id : AppId;
  gip_app_display_name : string;
  gip_scope : GrantScope;
  gip_data_scope : DataScope;
  gip_condition : GrantCondition;
  gip_duration : GrantDuration;
  gip_reason : string;
}.

Definition MAX_CAPABILITY_APPROVAL_INPUT_BYTES : nat := 4096.

Record CapabilityApprovalPrompt := {
  cap_app_id : AppId;
  cap_app_display_name : string;
  cap_capability : CapabilityRef;
  cap_capability_description : string;
  cap_effect : CapabilityEffect;
  cap_input_summary : string;
  cap_input_summary_truncated : bool;
  cap_data_scope : DataScope;
  cap_grant_id : GrantId;
  cap_run_id : RunId;
  cap_goal : string;
}.

Record EventSubscriptionPrompt := {
  esp_app_id : AppId;
  esp_app_display_name : string;
  esp_topics : list EventTopic;
}.

Record InstallApprovalPrompt := {
  iap_app_id : AppId;
  iap_app_display_name : string;
  iap_event : option EventSubscriptionPrompt;
  iap_grants : list GrantIssuancePrompt;
}.

Record InstallApprovalDecision := {
  iad_event_decision : option ApprovalDecision;
  iad_grant_decisions : list ApprovalDecision;
}.

Inductive ChromeNotice :=
  | GrantUse (app_id : AppId) (capability : CapabilityRef) (grant_id : GrantId) (run_id : RunId)
  | LeaseConflict (resource : string) (holding_run requesting_run : RunId).

Inductive ChromeNoticeError :=
  | NoticePersistence (message : string)
  | NoticeDelivery (message : string).

Definition ChromeNoticeError_display (e : ChromeNoticeError) : string :=
  match e with
  | NoticePersistence message => "trusted notice persistence failed: " ++ message
  | NoticeDelivery message => "trusted notice delivery failed: " ++ message
  end.

(** The trait [TrustedChrome]; [confirm_install] is overridable, with
    [default_confirm_install] as its provided body. *)
Class TrustedChrome (W : Type) := {
  confirm_grant : GrantIssuancePrompt -> W -> ApprovalDecision * W;
  approve_capability : CapabilityApprovalPrompt -> W -> ApprovalDecision * W;
  confirm_event_subscriptions : EventSubscriptionPrompt -> W -> ApprovalDecision * W;
  confirm_install : InstallApprovalPrompt -> W -> InstallApprovalDecision * W;
  show_notice : ChromeNotice -> W -> outcome ChromeNoticeError unit * W;
}.

Section chrome.
Context {W : Type}.
Context (confirm_grant' : GrantIssuancePrompt -> W -> ApprovalDecision * W).
Context (confirm_event' : EventSubscriptionPrompt -> W -> ApprovalDecision * W).

Fixpoint confirm_each (prompts : list GrantIssuancePrompt) (w : W) : list ApprovalDecision * W :=
  match prompts with
  | [] => ([], w)
  | p :: prompts' =>
      let '(d, w1) := confirm_grant' p w in
      let '(ds, w2) := confirm_each prompts' w1 in (d :: ds, w2)
  end.

(** The provided body of [TrustedChrome::confirm_install]. *)
Definition default_confirm_install (prompt : InstallApprovalPrompt) (w : W)
    : InstallApprovalDecision * W :=
  let '(event_decision, w1) :=
    match iap_event prompt with
    | Some event => let '(d, w1) := confirm_event' event w in (Some d, w1)
    | None => (None, w)
    end in
  let '(grant_decisions, w2) :=
    if bool_decide (event_decision = Some Denied) then ([], w1)
    else confirm_each (iap_grants prompt) w1 in
  ({| iad_event_decision := event_decision; iad_grant_decisions := grant_decisions |}, w2).

Lemma confirm_each_length prompts w : length (confirm_each prompts w).1 = length prompts.
Proof.
  revert w. induction prompts as [|p ps IH]; intros w; [done|]; simpl.
  destruct (confirm_grant' p w) as [d w1]. specialize (IH w1).
  destruct (confirm_each ps w1) as [ds w2]. simpl in *. congruence.
Qed.

(** Denying the event feed denies every grant of the same install request, and
    otherwise each grant prompt gets exactly one answer, in order. *)
Theorem default_confirm_install_answers prompt w :
  let decision := (default_confirm_install prompt w).1 in
  (iad_event_decision decision = Some Denied -> iad_grant_decisions decision = []) /\
  (iad_event_decision decision ≠ Some Denied ->
   length (iad_grant_decisions decision) = length (iap_grants prompt)) /\
  (iad_event_decision decision = None <-> iap_event prompt = None).
Proof.
  unfold default_confirm_install.
  destruct (iap_event prompt) as [ev|]; [destruct (confirm_event' ev w) as [[] w1]|]; simpl.
  - pose proof (confirm_each_length (iap_grants prompt) w1) as Hl.
    destruct (confirm_each (iap_grants prompt) w1). simpl in *. repeat split; congruence.
  - repeat split; congruence.
  - pose proof (confirm_each_length (iap_grants prompt) w) as Hl.
    destruct (confirm_each (iap_grants prompt) w). simpl in *. repeat split; congruence.
Qed.

End chrome.
