(* ===== verification/Ledger.v ===== *)
(** * Run ledger

    [services/ledger.rs]: the append-only event log, its run index, the run read
    model, the replay of outstanding work and the restoration from durable
    records. *)

From S2P Require Import Prelude RustStd Json Types Errors Grants Manifest Platform.

(** ** Events and records *)

Inductive LedgerEvent :=
  | RunStarted (run_id : RunId) (initiator : Initiator) (goal : string)
  | CapabilityInvoked (run_id : RunId) (capability : CapabilityRef) (grant_id : GrantId)
      (input_sha256 : string) (data_scope : DataScope)
  | CapabilityCompleted (run_id : RunId) (capability : CapabilityRef) (grant_id : GrantId)
      (result_sha256 : string) (data_scope : DataScope)
  | CapabilityFailed (run_id : RunId) (capability : CapabilityRef) (grant_id : GrantId)
      (error : string) (data_scope : DataScope)
  | InvocationRefused (run_id : RunId) (capability : CapabilityRef) (reason : DenialReason)
      (data_scope : DataScope)
  | InvocationCancelled (run_id : RunId) (capability : CapabilityRef) (data_scope : DataScope)
  | ApprovalRequested (run_id : RunId) (capability : CapabilityRef) (grant_id : GrantId)
      (data_scope : DataScope)
  | ApprovalGranted (run_id : RunId) (capability : CapabilityRef) (grant_id : GrantId)
      (data_scope : DataScope)
  | ApprovalDenied (run_id : RunId) (capability : CapabilityRef) (grant_id : GrantId)
      (data_scope : DataScope)
  | ArtifactProduced (run_id : RunId) (artifact_id : ArtifactId) (artifact_type : ArtifactTypeName)
  | RunEnded (run_id : RunId) (terminal_state : RunTerminalState).

#[export] Instance LedgerEvent_eq_dec : EqDecision LedgerEvent.
Proof. solve_decision. Defined.

(** [LedgerEvent::run_id]. *)
Definition event_run_id (e : LedgerEvent) : RunId :=
  match e with
  | RunStarted run_id _ _ => run_id
  | CapabilityInvoked run_id _ _ _ _ => run_id
  | CapabilityCompleted run_id _ _ _ _ => run_id
  | CapabilityFailed run_id _ _ _ _ => run_id
  | InvocationRefused run_id _ _ _ => run_id
  | InvocationCancelled run_id _ _ => run_id
  | ApprovalRequested run_id _ _ _ => run_id
  | ApprovalGranted run_id _ _ _ => run_id
  | ApprovalDenied run_id _ _ _ => run_id
  | ArtifactProduced run_id _ _ => run_id
  | RunEnded run_id _ => run_id
  end.

(** [LedgerEvent::kind], with the constants of [mod kinds]. *)
Definition event_kind (e : LedgerEvent) : string :=
  match e with
  | RunStarted _ _ _ => "run-started"
  | CapabilityInvoked _ _ _ _ _ => "capability-invoked"
  | CapabilityCompleted _ _ _ _ _ => "capability-completed"
  | CapabilityFailed _ _ _ _ _ => "capability-failed"
  | InvocationRefused _ _ _ _ => "invocation-refused"
  | InvocationCancelled _ _ _ => "invocation-cancelled"
  | ApprovalRequested _ _ _ _ => "approval-requested"
  | ApprovalGranted _ _ _ _ => "approval-granted"
  | ApprovalDenied _ _ _ _ => "approval-denied"
  | ArtifactProduced _ _ _ => "artifact-produced"
  | RunEnded _ _ => "run-ended"
  end.

(** [LedgerEvent::ALL_KINDS]. *)
Definition ALL_KINDS : list string :=
  ["run-started"; "capability-invoked"; "capability-completed"; "capability-failed";
   "invocation-refused"; "invocation-cancelled"; "approval-requested"; "approval-granted";
   "approval-denied"; "artifact-produced"; "run-ended"].

(** [LedgerEvent::topic]. *)
Definition event_topic (e : LedgerEvent) : EventTopic := event_kind e.

Record LedgerRecord := {
  lr_sequence : N;
  lr_recorded_at : DateTime;
  lr_event : LedgerEvent;
}.

#[export] Instance LedgerRecord_eq_dec : EqDecision LedgerRecord.
Proof. solve_decision. Defined.

Record RunIndexEntry := { ri_initiating_app : AppId; ri_active : bool }.

Record RunLedger := {
  l_records : list LedgerRecord;
  l_runs : gmap RunId RunIndexEntry;
}.

(** [ApprovalKey] and [InvocationKey]: the same three fields. *)
Record ActionKey := {
  ak_capability : CapabilityRef;
  ak_grant_id : GrantId;
  ak_data_scope : DataScope;
}.

#[export] Instance ActionKey_eq_dec : EqDecision ActionKey.
Proof. solve_decision. Defined.

Record OutstandingActions := {
  oa_requested_approvals : list ActionKey;
  oa_granted_approvals : list ActionKey;
  oa_invocations : list ActionKey;
}.

Definition OutstandingActions_default : OutstandingActions :=
  {| oa_requested_approvals := []; oa_granted_approvals := []; oa_invocations := [] |}.

(** [RunLedger::new]. *)
Definition RunLedger_new : RunLedger := {| l_records := []; l_runs := ∅ |}.

(** ** Appending *)

(** [RunLedger::validate_append]. *)
Definition validate_append (runs : gmap RunId RunIndexEntry) (event : LedgerEvent)
    : KernelResult unit :=
  match event with
  | RunStarted run_id _ _ =>
      match runs !! run_id with
      | Some _ => Err (RunAlreadyStarted run_id)
      | None => Ok tt
      end
  | _ =>
      match runs !! event_run_id event with
      | None => Err (UnknownRun (event_run_id event))
      | Some state =>
          if negb (ri_active state) then Err (RunAlreadyEnded (event_run_id event)) else Ok tt
      end
  end.

(** [RunLedger::validate_batch_append]. *)
Definition validate_batch_append (runs staged_runs : gmap RunId RunIndexEntry)
    (event : LedgerEvent) : KernelResult unit :=
  match staged_runs !! event_run_id event with
  | Some _ => validate_append staged_runs event
  | None => validate_append runs event
  end.

(** [RunLedger::index_event]. *)
Definition index_event (runs : gmap RunId RunIndexEntry) (event : LedgerEvent)
    : KernelResult (gmap RunId RunIndexEntry) :=
  match event with
  | RunStarted run_id initiator _ =>
      Ok (<[run_id := {| ri_initiating_app := Initiator_app_id initiator; ri_active := true |}]> runs)
  | RunEnded run_id _ =>
      match runs !! run_id with
      | Some state =>
          Ok (<[run_id := {| ri_initiating_app := ri_initiating_app state; ri_active := false |}]> runs)
      | None => Panic "validated run must be indexed"
      end
  | _ => Ok runs
  end.

(** Copy the state of a run into the staged states, once per batch. *)
Definition stage_run (runs staged_runs : gmap RunId RunIndexEntry) (run_id : RunId)
    : gmap RunId RunIndexEntry :=
  match staged_runs !! run_id with
  | Some _ => staged_runs
  | None =>
      match runs !! run_id with
      | Some state => <[run_id := state]> staged_runs
      | None => staged_runs
      end
  end.

Section append.
Context {W : Type} `{Environment W}.

(** [RunLedger::append]. *)
Definition RunLedger_append (l : RunLedger) (event : LedgerEvent)
    : st W KernelError (LedgerRecord * RunLedger) :=
  _ ← st_lift (validate_append (l_runs l) event);
  now ← clock_now;
  let record := {| lr_sequence := N.of_nat (length (l_records l));
                   lr_recorded_at := now; lr_event := event |} in
  runs ← st_lift (index_event (l_runs l) event);
  mret (record, {| l_records := l_records l ++ [record]; l_runs := runs |}).

(** The loop of [append_batch]: the staged run states and the new records. *)
Fixpoint batch_loop (l : RunLedger) (staged_runs : gmap RunId RunIndexEntry)
    (records : list LedgerRecord) (events : list LedgerEvent)
    : st W KernelError (gmap RunId RunIndexEntry * list LedgerRecord) :=
  match events with
  | [] => mret (staged_runs, records)
  | event :: events' =>
      _ ← st_lift (validate_batch_append (l_runs l) staged_runs event);
      let staged_runs := stage_run (l_runs l) staged_runs (event_run_id event) in
      now ← clock_now;
      let record := {| lr_sequence := N.of_nat (length (l_records l) + length records);
                       lr_recorded_at := now; lr_event := event |} in
      staged_runs ← st_lift (index_event staged_runs event);
      batch_loop l staged_runs (records ++ [record]) events'
  end.

(** [RunLedger::append_batch]. *)
Definition RunLedger_append_batch (l : RunLedger) (events : list LedgerEvent)
    : st W KernelError (list LedgerRecord * RunLedger) :=
  '(staged_runs, records) ← batch_loop l ∅ [] events;
  mret (records, {| l_records := l_records l ++ records; l_runs := staged_runs ∪ l_runs l |}).

End append.

(** ** Read model *)

(** [RunLedger::records_for_run]. *)
Definition records_for_run (l : RunLedger) (run_id : RunId) : list LedgerRecord :=
  List.filter (fun record => bool_decide (event_run_id (lr_event record) = run_id)) (l_records l).

(** [RunLedger::active_runs_for_app]. *)
Definition active_runs_for_app (l : RunLedger) (app_id : AppId) : list RunId :=
  (List.filter (fun kv => ri_active kv.2 && bool_decide (ri_initiating_app kv.2 = app_id))
    (btree_list (l_runs l))).*1.

(** [RunLedger::active_run_ids]. *)
Definition active_run_ids (l : RunLedger) : list RunId :=
  (List.filter (fun kv => ri_active kv.2) (btree_list (l_runs l))).*1.

(** [RunLedger::find_start]. *)
Fixpoint find_start (records : list LedgerRecord) (run_id : RunId) : option (Initiator * string) :=
  match records with
  | [] => None
  | record :: records' =>
      match lr_event record with
      | RunStarted started initiator goal =>
          if bool_decide (started = run_id) then Some (initiator, goal)
          else find_start records' run_id
      | _ => find_start records' run_id
      end
  end.

Definition view_push_grant (v : RunView) (grant_id : GrantId) : RunView := {|
  rv_run_id := rv_run_id v; rv_initiator := rv_initiator v; rv_goal := rv_goal v;
  rv_grants_exercised := rv_grants_exercised v ++ [grant_id];
  rv_invocations := rv_invocations v; rv_approvals := rv_approvals v;
  rv_artifacts_produced := rv_artifacts_produced v; rv_terminal_state := rv_terminal_state v |}.

Definition view_push_invocation (v : RunView) (i : InvocationRecord) : RunView := {|
  rv_run_id := rv_run_id v; rv_initiator := rv_initiator v; rv_goal := rv_goal v;
  rv_grants_exercised := rv_grants_exercised v;
  rv_invocations := rv_invocations v ++ [i]; rv_approvals := rv_approvals v;
  rv_artifacts_produced := rv_artifacts_produced v; rv_terminal_state := rv_terminal_state v |}.

Definition view_push_approval (v : RunView) (a : ApprovalRecord) : RunView := {|
  rv_run_id := rv_run_id v; rv_initiator := rv_initiator v; rv_goal := rv_goal v;
  rv_grants_exercised := rv_grants_exercised v;
  rv_invocations := rv_invocations v; rv_approvals := rv_approvals v ++ [a];
  rv_artifacts_produced := rv_artifacts_produced v; rv_terminal_state := rv_terminal_state v |}.

Definition view_push_artifact (v : RunView) (a : ArtifactId) : RunView := {|
  rv_run_id := rv_run_id v; rv_initiator := rv_initiator v; rv_goal := rv_goal v;
  rv_grants_exercised := rv_grants_exercised v;
  rv_invocations := rv_invocations v; rv_approvals := rv_approvals v;
  rv_artifacts_produced := rv_artifacts_produced v ++ [a];
  rv_terminal_state := rv_terminal_state v |}.

Definition view_set_terminal (v : RunView) (t : RunTerminalState) : RunView := {|
  rv_run_id := rv_run_id v; rv_initiator := rv_initiator v; rv_goal := rv_goal v;
  rv_grants_exercised := rv_grants_exercised v;
  rv_invocations := rv_invocations v; rv_approvals := rv_approvals v;
  rv_artifacts_produced := rv_artifacts_produced v; rv_terminal_state := Some t |}.

(** One record of the aggregation loop of [run_view]. *)
Definition view_step (v : RunView) (record : LedgerRecord) : RunView :=
  match lr_event record with
  | CapabilityInvoked _ _ grant_id _ _ => view_push_grant v grant_id
  | CapabilityCompleted _ capability grant_id _ data_scope =>
      view_push_invocation v (RecCompleted capability grant_id data_scope)
  | CapabilityFailed _ capability grant_id _ data_scope =>
      view_push_invocation v (RecFailed capability grant_id data_scope)
  | InvocationRefused _ capability reason data_scope =>
      view_push_invocation v (RecRefused capability reason data_scope)
  | InvocationCancelled _ capability data_scope =>
      view_push_invocation v (RecCancelled capability data_scope)
  | ApprovalGranted _ capability grant_id data_scope =>
      view_push_approval v {| ar_capability := capability; ar_grant_id := grant_id;
        ar_approved := true; ar_data_scope := data_scope |}
  | ApprovalDenied _ capability grant_id data_scope =>
      view_push_approval v {| ar_capability := capability; ar_grant_id := grant_id;
        ar_approved := false; ar_data_scope := data_scope |}
  | ArtifactProduced _ artifact_id _ => view_push_artifact v artifact_id
  | RunEnded _ terminal_state => view_set_terminal v terminal_state
  | RunStarted _ _ _ | ApprovalRequested _ _ _ _ => v
  end.

(** [RunLedger::run_view]. *)
Definition run_view (l : RunLedger) (run_id : RunId) : KernelResult RunView :=
  match find_start (l_records l) run_id with
  | None => Err (UnknownRun run_id)
  | Some (initiator, goal) =>
      Ok (foldl view_step
        {| rv_run_id := run_id; rv_initiator := initiator; rv_goal := goal;
           rv_grants_exercised := []; rv_invocations := []; rv_approvals := [];
           rv_artifacts_produced := []; rv_terminal_state := None |}
        (records_for_run l run_id))
  end.

(** ** Outstanding work *)

(** [RunLedger::remove_exact]. *)
Definition remove_exact (values : list ActionKey) (expected : ActionKey) (message : string)
    : KernelResult (list ActionKey) :=
  ok_or (remove_first (fun candidate => bool_decide (candidate = expected)) values)
    (Durability message).

(** [RunLedger::remove_by_capability_scope] and
    [remove_approval_by_capability_scope]. *)
Definition remove_by_capability_scope (values : list ActionKey) (capability : CapabilityRef)
    (data_scope : DataScope) : option (list ActionKey) :=
  remove_first (fun candidate => bool_decide (ak_capability candidate = capability)
    && bool_decide (ak_data_scope candidate = data_scope)) values.

Definition with_requested (a : OutstandingActions) (ks : list ActionKey) : OutstandingActions :=
  {| oa_requested_approvals := ks; oa_granted_approvals := oa_granted_approvals a;
     oa_invocations := oa_invocations a |}.
Definition with_granted (a : OutstandingActions) (ks : list ActionKey) : OutstandingActions :=
  {| oa_requested_approvals := oa_requested_approvals a; oa_granted_approvals := ks;
     oa_invocations := oa_invocations a |}.
Definition with_invocations (a : OutstandingActions) (ks : list ActionKey) : OutstandingActions :=
  {| oa_requested_approvals := oa_requested_approvals a;
     oa_granted_approvals := oa_granted_approvals a; oa_invocations := ks |}.

(** Close one action of a capability and scope: an invocation first, then a
    granted approval, then a requested one. *)
Definition close_action (actions : OutstandingActions) (capability : CapabilityRef)
    (data_scope : DataScope) : option OutstandingActions :=
  match remove_by_capability_scope (oa_invocations actions) capability data_scope with
  | Some ks => Some (with_invocations actions ks)
  | None =>
      match remove_by_capability_scope (oa_granted_approvals actions) capability data_scope with
      | Some ks => Some (with_granted actions ks)
      | None =>
          match remove_by_capability_scope (oa_requested_approvals actions)
                  capability data_scope with
          | Some ks => Some (with_requested actions ks)
          | None => None
          end
      end
  end.

(** One record of [replay_action_state], on the actions of its run. *)
Definition replay_event (actions : OutstandingActions) (event : LedgerEvent)
    : KernelResult OutstandingActions :=
  match event with
  | RunStarted _ _ _ | ArtifactProduced _ _ _ => Ok actions
  | ApprovalRequested _ capability grant_id data_scope =>
      Ok (with_requested actions (oa_requested_approvals actions ++
        [{| ak_capability := capability; ak_grant_id := grant_id; ak_data_scope := data_scope |}]))
  | ApprovalGranted _ capability grant_id data_scope =>
      let key :=
        {| ak_capability := capability; ak_grant_id := grant_id; ak_data_scope := data_scope |} in
      requested ← remove_exact (oa_requested_approvals actions) key
                    "approval grant has no matching request";
      Ok (with_granted (with_requested actions requested) (oa_granted_approvals actions ++ [key]))
  | ApprovalDenied _ capability grant_id data_scope =>
      requested ← remove_exact (oa_requested_approvals actions)
        {| ak_capability := capability; ak_grant_id := grant_id; ak_data_scope := data_scope |}
        "approval denial has no matching request";
      Ok (with_requested actions requested)
  | CapabilityInvoked _ capability grant_id _ data_scope =>
      let key :=
        {| ak_capability := capability; ak_grant_id := grant_id; ak_data_scope := data_scope |} in
      let granted :=
        match remove_first (fun candidate => bool_decide (candidate = key))
                (oa_granted_approvals actions) with
        | Some ks => ks
        | None => oa_granted_approvals actions
        end in
      Ok (with_invocations (with_granted actions granted) (oa_invocations actions ++ [key]))
  | CapabilityCompleted _ capability grant_id _ data_scope
  | CapabilityFailed _ capability grant_id _ data_scope =>
      invocations ← remove_exact (oa_invocations actions)
        {| ak_capability := capability; ak_grant_id := grant_id; ak_data_scope := data_scope |}
        "invocation outcome has no matching invocation";
      Ok (with_invocations actions invocations)
  | InvocationCancelled run_id capability data_scope =>
      ok_or (close_action actions capability data_scope)
        (Durability ("invocation cancellation in run '" ++ run_id ++ "' has no pending action"))
  | InvocationRefused _ capability _ data_scope =>
      Ok (default actions (close_action actions capability data_scope))
  | RunEnded run_id _ =>
      match oa_requested_approvals actions, oa_granted_approvals actions, oa_invocations actions with
      | [], [], [] => Ok actions
      | _, _, _ => Err (Durability ("run '" ++ run_id ++ "' ended with pending capability work"))
      end
  end.

Definition replay_step (by_run : gmap RunId OutstandingActions) (event : LedgerEvent)
    : KernelResult (gmap RunId OutstandingActions) :=
  let run_id := event_run_id event in
  actions ← replay_event (default OutstandingActions_default (by_run !! run_id)) event;
  Ok (<[run_id := actions]> by_run).

Fixpoint replay_events (by_run : gmap RunId OutstandingActions) (events : list LedgerEvent)
    : KernelResult (gmap RunId OutstandingActions) :=
  match events with
  | [] => Ok by_run
  | event :: events' => by_run' ← replay_step by_run event; replay_events by_run' events'
  end.

(** [RunLedger::replay_action_state]. *)
Definition replay_action_state (records : list LedgerRecord)
    : KernelResult (gmap RunId OutstandingActions) :=
  replay_events ∅ (lr_event <$> records).

Definition cancel_of (run_id : RunId) (key : ActionKey) : LedgerEvent :=
  InvocationCancelled run_id (ak_capability key) (ak_data_scope key).

(** [RunLedger::incomplete_invocation_cancellations]. *)
Definition incomplete_invocation_cancellations (l : RunLedger) : KernelResult (list LedgerEvent) :=
  outstanding ← replay_action_state (l_records l);
  Ok (btree_list outstanding ≫= fun '(run_id, actions) =>
    (cancel_of run_id <$> oa_requested_approvals actions ++ oa_granted_approvals actions)
    ++ (cancel_of run_id <$> oa_invocations actions)).

(** ** Restoring *)

Section restore.
Context {W : Type} `{Environment W}.

(** The parent checks [restore] makes on a child run. *)
Definition check_parent (runs : gmap RunId RunIndexEntry) (event : LedgerEvent) : KernelResult unit :=
  match event with
  | RunStarted _ (InitRun app_id parent_run_id) _ =>
      match runs !! parent_run_id with
      | None => Err (Durability ("child run references unknown parent '" ++ parent_run_id ++ "'"))
      | Some parent =>
          if negb (ri_active parent)
          then Err (Durability ("child run references ended parent '" ++ parent_run_id ++ "'"))
          else if negb (bool_decide (ri_initiating_app parent = app_id))
          then Err (Durability ("child run attribution '" ++ app_id
                      ++ "' disagrees with parent '" ++ parent_run_id ++ "'"))
          else Ok tt
      end
  | _ => Ok tt
  end.

Fixpoint restore_loop (validator : RunLedger) (expected : N) (records : list LedgerRecord)
    : st W KernelError RunLedger :=
  match records with
  | [] => mret validator
  | record :: records' =>
      _ ← (if bool_decide (lr_sequence record ≠ expected)
           then st_fail (Durability ("ledger sequence " ++ pretty (lr_sequence record)
                  ++ " is not contiguous at " ++ pretty expected))
           else mret tt);
      _ ← st_lift (check_parent (l_runs validator) (lr_event record));
      '(_, validator) ← RunLedger_append validator (lr_event record);
      restore_loop validator (expected + 1) records'
  end.

(** [RunLedger::restore]. *)
Definition RunLedger_restore (records : list LedgerRecord) : st W KernelError RunLedger :=
  validator ← restore_loop RunLedger_new 0 records;
  _ ← st_lift (replay_action_state records);
  mret {| l_records := records; l_runs := l_runs validator |}.

End restore.

(** [payload_sha256]. *)
Definition payload_sha256 `{Libraries} (value : Value) : KernelResult string :=
  bytes ← map_err (fun error => Durability ("serialize ledger payload failed: " ++ error))
            (json_to_vec value);
  Ok (sha256_hex bytes).

(** ** Properties of the run ledger

    The well-formedness invariant of a ledger ([ledger_wf]) and its preservation,
    the agreement of the run index with the read model, the equivalence of the
    batched append with repeated single appends, the life cycle of a run, the
    restoration of a well-formed ledger, and the recovery that closes every
    outstanding action. *)

(** ** Well-formed ledgers *)

Inductive ledger_ok : list LedgerRecord -> gmap RunId RunIndexEntry -> Prop :=
  | ledger_ok_nil : ledger_ok [] ∅
  | ledger_ok_snoc rs runs r runs' :
      ledger_ok rs runs ->
      lr_sequence r = N.of_nat (length rs) ->
      validate_append runs (lr_event r) = Ok tt ->
      index_event runs (lr_event r) = Ok runs' ->
      ledger_ok (rs ++ [r]) runs'.

Definition ledger_wf (l : RunLedger) : Prop := ledger_ok (l_records l) (l_runs l).

(** The part of the ledger that belongs to one run. *)
Definition events_of (run_id : RunId) (rs : list LedgerRecord) : list LedgerEvent :=
  List.filter (fun e => bool_decide (event_run_id e = run_id)) (lr_event <$> rs).

Definition is_start (e : LedgerEvent) : bool :=
  match e with RunStarted _ _ _ => true | _ => false end.
Definition is_end (e : LedgerEvent) : bool :=
  match e with RunEnded _ _ => true | _ => false end.

(** ** Indexing *)

Lemma validate_append_cases runs e :
  validate_append runs e = Ok tt ->
  if is_start e then runs !! event_run_id e = None
  else ∃ state, runs !! event_run_id e = Some state /\ ri_active state = true.
Proof.
  unfold validate_append. destruct e; simpl; destruct (runs !! _) as [[? []]|]; simpl; naive_solver.
Qed.

Lemma index_event_total runs e :
  validate_append runs e = Ok tt -> ∃ runs', index_event runs e = Ok runs'.
Proof.
  intros H%validate_append_cases. destruct e; simpl in *; eauto.
  destruct H as (state & -> & _). eauto.
Qed.

Lemma index_event_lookup runs e runs' rid :
  index_event runs e = Ok runs' -> validate_append runs e = Ok tt ->
  runs' !! rid =
    if bool_decide (event_run_id e = rid) then
      match e with
      | RunStarted _ i _ => Some {| ri_initiating_app := Initiator_app_id i; ri_active := true |}
      | RunEnded _ _ => (fun state =>
          {| ri_initiating_app := ri_initiating_app state; ri_active := false |}) <$> runs !! rid
      | _ => runs !! rid
      end
    else runs !! rid.
Proof.
  intros Hi Hv%validate_append_cases.
  destruct e; simpl in *; simplify_eq/=; case_bool_decide as Hrid; subst;
    rewrite ?lookup_insert_eq, ?lookup_insert_ne by done; try done.
  - destruct (runs !! rid) as [s|] eqn:E; simplify_eq. by rewrite lookup_insert_eq.
  - destruct (runs !! run_id) as [s|] eqn:E; simplify_eq. by rewrite lookup_insert_ne.
Qed.

(** ** Appending preserves well-formedness *)

Section append_facts.
Context {W : Type} `{Environment W}.

Lemma RunLedger_append_Ok l e w r l' w' :
  RunLedger_append l e w = (Ok (r, l'), w') ->
  validate_append (l_runs l) e = Ok tt /\ index_event (l_runs l) e = Ok (l_runs l') /\
  lr_sequence r = N.of_nat (length (l_records l)) /\ lr_event r = e /\
  l_records l' = l_records l ++ [r].
Proof.
  unfold RunLedger_append. intros Ha. inv_ok Ha. done.
Qed.

Lemma RunLedger_append_wf l e w r l' w' :
  ledger_wf l -> RunLedger_append l e w = (Ok (r, l'), w') -> ledger_wf l'.
Proof.
  intros Hwf (? & ? & Hseq & He & Hrs)%RunLedger_append_Ok.
  unfold ledger_wf. rewrite Hrs. subst e. by eapply ledger_ok_snoc.
Qed.

(** Appending succeeds exactly when the event passes the state guards, and
    reports the guard's error otherwise; it never panics. *)
Lemma RunLedger_append_result l e w :
  match validate_append (l_runs l) e with
  | Ok _ => ∃ r l' w', RunLedger_append l e w = (Ok (r, l'), w')
  | Err err => RunLedger_append l e w = (Err err, w)
  | Panic _ => False
  end.
Proof.
  destruct (validate_append (l_runs l) e) as [[]|err|msg] eqn:E.
  - destruct (index_event_total _ _ E) as [runs' Hi].
    unfold RunLedger_append, mbind, st_bind, st_lift, clock_now. rewrite E.
    destruct (env_now w) as [t w']. rewrite Hi. by repeat eexists.
  - unfold RunLedger_append, mbind, st_bind, st_lift. by rewrite E.
  - unfold validate_append in E. destruct e; simpl in E; repeat case_match; done.
Qed.

(** ** Batched append *)

(** The reference: append the events one after the other. *)
Fixpoint append_all (l : RunLedger) (events : list LedgerEvent)
    : st W KernelError (list LedgerRecord * RunLedger) :=
  match events with
  | [] => mret ([], l)
  | e :: events' =>
      '(r, l1) ← RunLedger_append l e;
      '(rs, l2) ← append_all l1 events';
      mret (r :: rs, l2)
  end.

Lemma validate_batch_append_union runs staged e :
  validate_batch_append runs staged e = validate_append (staged ∪ runs) e.
Proof.
  unfold validate_batch_append, validate_append.
  destruct (staged !! event_run_id e) as [s|] eqn:E.
  - destruct e; simpl in *; by rewrite (lookup_union_Some_l _ _ _ _ E), ?E.
  - destruct e; simpl in *; by rewrite lookup_union_r.
Qed.

Lemma stage_run_union (runs staged : gmap RunId RunIndexEntry) rid :
  stage_run runs staged rid ∪ runs = staged ∪ runs /\
  stage_run runs staged rid !! rid = (staged ∪ runs) !! rid.
Proof.
  unfold stage_run.
  destruct (staged !! rid) as [s|] eqn:Es; simpl.
  - split; [done|]. by rewrite (lookup_union_Some_l _ _ _ _ Es).
  - destruct (runs !! rid) as [s|] eqn:Er; simpl.
    + rewrite lookup_insert_eq, lookup_union_r, Er by done. split; [|done].
      rewrite <- insert_union_l. apply insert_id. by rewrite lookup_union_r.
    + split; [done|]. by rewrite lookup_union_r, Es, Er.
Qed.

Lemma index_event_union runs staged e :
  staged !! event_run_id e = (staged ∪ runs) !! event_run_id e ->
  index_event (staged ∪ runs) e = (fun s => s ∪ runs) <$> index_event staged e.
Proof.
  intros Hl. destruct e; simpl in *; rewrite ?insert_union_l; try done.
  rewrite <- Hl. destruct (staged !! run_id) as [s|]; simpl; [|done].
  by rewrite insert_union_l.
Qed.

Lemma batch_loop_append_all l staged acc events w :
  match batch_loop l staged acc events w with
  | (Ok (staged', acc'), w') =>
      ∃ rs, acc' = acc ++ rs /\
        append_all {| l_records := l_records l ++ acc; l_runs := staged ∪ l_runs l |} events w
        = (Ok (rs, {| l_records := l_records l ++ acc'; l_runs := staged' ∪ l_runs l |}), w')
  | (Err e, w') =>
      append_all {| l_records := l_records l ++ acc; l_runs := staged ∪ l_runs l |} events w
      = (Err e, w')
  | (Panic m, w') =>
      append_all {| l_records := l_records l ++ acc; l_runs := staged ∪ l_runs l |} events w
      = (Panic m, w')
  end.
Proof.
  revert staged acc w. induction events as [|e events IH]; intros staged acc w; simpl.
  { exists []. by rewrite app_nil_r. }
  unfold RunLedger_append. unfold mbind, st_bind, st_lift, clock_now at 1; simpl.
  rewrite validate_batch_append_union.
  destruct (validate_append (staged ∪ l_runs l) e) as [u|err|msg]; simpl; [|done..].
  unfold clock_now. destruct (env_now w) as [t w1].
  destruct (stage_run_union (l_runs l) staged (event_run_id e)) as [Hu Hl].
  set (staged1 := stage_run (l_runs l) staged (event_run_id e)) in *.
  rewrite <- Hu. rewrite index_event_union by (by rewrite Hu).
  destruct (index_event staged1 e) as [staged2|err|msg]; simpl; [|done..].
  set (r := {| lr_sequence := _ |}).
  specialize (IH staged2 (acc ++ [r]) w1). rewrite (assoc_L (++)) in IH.
  rewrite length_app. fold r.
  destruct (batch_loop l staged2 (acc ++ [r]) events w1) as [[[s' a']|err|msg] w2].
  - destruct IH as (rs & -> & ->). exists (r :: rs). rewrite <- (assoc_L (++)). done.
  - by rewrite IH.
  - by rewrite IH.
Qed.

(** Committing a batch is observably the same as appending its events
    one by one: same records, same index, same error, same clock readings. *)
Lemma append_batch_append_all l events w :
  RunLedger_append_batch l events w = append_all l events w.
Proof.
  pose proof (batch_loop_append_all l ∅ [] events w) as Hb.
  rewrite app_nil_r, (left_id_L ∅ (∪)) in Hb. destruct l as [recs runs]; simpl in *.
  unfold RunLedger_append_batch, mbind, st_bind.
  destruct (batch_loop _ ∅ [] events w) as [[[s' a']|err|msg] w']; [|done..].
  destruct Hb as (rs & -> & Hb). by rewrite Hb.
Qed.

(** Committing a batch of events is observably the same as appending them one
    by one: same records, same run index, same error, same clock readings. *)
Theorem append_batch_is_repeated_append l events w :
  RunLedger_append_batch l events w = append_all l events w.
Proof. apply append_batch_append_all. Qed.

Lemma append_all_wf l events w rs l' w' :
  ledger_wf l -> append_all l events w = (Ok (rs, l'), w') ->
  ledger_wf l' /\ l_records l' = l_records l ++ rs /\ lr_event <$> rs = events.
Proof.
  revert l w rs. induction events as [|e events IH]; intros l w rs Hwf; simpl.
  { unfold mret, st_ret. intros [= <- <- <-]. by rewrite app_nil_r. }
  intros Ha. inv_ok Ha.
  pose proof (RunLedger_append_Ok _ _ _ _ _ _ Hok) as (_ & _ & _ & He & Hr).
  destruct (IH _ _ _ ltac:(by eapply RunLedger_append_wf) Hok0) as (Hwf' & Hrs & Hevs).
  split; [done|]. rewrite Hrs, Hr, <- (assoc_L (++)). split; [done|].
  rewrite fmap_cons. by rewrite He, Hevs.
Qed.

Lemma append_batch_wf l events w rs l' w' :
  ledger_wf l -> RunLedger_append_batch l events w = (Ok (rs, l'), w') ->
  ledger_wf l' /\ l_records l' = l_records l ++ rs /\ lr_event <$> rs = events.
Proof. rewrite append_batch_append_all. apply append_all_wf. Qed.

Lemma append_all_no_panic l events w msg w' :
  append_all l events w ≠ (Panic msg, w').
Proof.
  revert l w. induction events as [|e events IH]; intros l w; simpl; [done|].
  pose proof (RunLedger_append_result l e w) as Ha.
  unfold mbind, st_bind. destruct (validate_append (l_runs l) e); [|by rewrite Ha|done].
  destruct Ha as (r & l1 & w1 & ->).
  specialize (IH l1 w1). destruct (append_all l1 events w1) as [[[]| |] ?]; naive_solver.
Qed.

End append_facts.

(** ** The index describes the records *)

Lemma find_start_app rs r rid :
  find_start (rs ++ [r]) rid =
  match find_start rs rid with
  | Some x => Some x
  | None =>
      match lr_event r with
      | RunStarted started i g => if bool_decide (started = rid) then Some (i, g) else None
      | _ => None
      end
  end.
Proof.
  induction rs as [|r' rs IH]; simpl; [destruct (lr_event r); done|].
  destruct (lr_event r'); rewrite ?IH; [|done..]. by case_bool_decide.
Qed.

Lemma events_of_app rid rs rs' : events_of rid (rs ++ rs') = events_of rid rs ++ events_of rid rs'.
Proof. unfold events_of. by rewrite fmap_app, List.filter_app. Qed.

Lemma events_of_one rid r :
  events_of rid [r] = if bool_decide (event_run_id (lr_event r) = rid) then [lr_event r] else [].
Proof. done. Qed.

(** A run of a well-formed ledger is unknown and has no record, or it has the
    shape start, work, optional end, and the index says which. *)
Lemma ledger_ok_run rs runs rid :
  ledger_ok rs runs ->
  match runs !! rid with
  | None => events_of rid rs = [] /\ find_start rs rid = None
  | Some state =>
      ∃ i g mid tail,
        events_of rid rs = RunStarted rid i g :: mid ++ tail /\
        find_start rs rid = Some (i, g) /\ Initiator_app_id i = ri_initiating_app state /\
        Forall (fun e => is_start e = false /\ is_end e = false) mid /\
        (if ri_active state then tail = [] else ∃ t, tail = [RunEnded rid t])
  end.
Proof.
  induction 1 as [|rs runs r runs' Hok IH Hseq Hv Hi]; [done|].
  rewrite (index_event_lookup _ _ _ rid Hi Hv), events_of_app, find_start_app, events_of_one.
  apply validate_append_cases in Hv.
  case_bool_decide as Hrid; cycle 1.
  { rewrite app_nil_r. destruct (runs !! rid) as [state|]; simpl.
    - destruct IH as (i & g & mid & tail & -> & -> & ? & ? & ?). by exists i, g, mid, tail.
    - destruct IH as [-> ->]. split; [done|].
      destruct (lr_event r); simpl in *; [|done..]. by rewrite bool_decide_eq_false_2. }
  destruct (lr_event r) as [? i g| | | | | | | | | |? t] eqn:E; simpl in *; subst.
  1: { rewrite Hv in IH. destruct IH as [-> ->]. exists i, g, [], [].
       rewrite bool_decide_eq_true_2 by done. repeat split; constructor. }
  10: { destruct Hv as (state & Hs & Ha). rewrite Hs in *. simpl. rewrite Ha in IH.
        destruct IH as (i & g & mid & tail & -> & -> & ? & ? & ->).
        exists i, g, mid, [RunEnded rid t]. rewrite app_nil_r. repeat split; eauto. }
  all: destruct Hv as (state & Hs & Ha); rewrite Hs in *; rewrite Ha in IH |- *;
    destruct IH as (i & g & mid & tail & -> & -> & ? & ? & ->);
    eexists i, g, (mid ++ [_]), []; rewrite !app_nil_r; simpl;
    (repeat split; [done|]); apply Forall_app; split; [done|]; by repeat constructor.
Qed.

Lemma view_fold_initiator v rs : rv_initiator (foldl view_step v rs) = rv_initiator v.
Proof.
  revert v. induction rs as [|r rs IH]; intros v; simpl; [done|].
  rewrite IH. unfold view_step. by destruct (lr_event r).
Qed.

Lemma view_fold_active v rs :
  RunView_is_active (foldl view_step v rs) =
  RunView_is_active v && forallb (fun r => negb (is_end (lr_event r))) rs.
Proof.
  revert v. induction rs as [|r rs IH]; intros v; simpl; [by rewrite andb_true_r|].
  rewrite IH. unfold view_step. destruct (lr_event r); simpl; try done.
  by rewrite andb_false_r.
Qed.

Lemma records_for_run_active l rid :
  forallb (fun r => negb (is_end (lr_event r))) (records_for_run l rid) =
  forallb (fun e => negb (is_end e)) (events_of rid (l_records l)).
Proof.
  unfold records_for_run, events_of. induction (l_records l) as [|r rs IH]; [done|].
  rewrite fmap_cons. simpl. case_bool_decide; simpl; by rewrite IH.
Qed.

(** The read model and the run index agree: a run has a view exactly when it is
    indexed, with the same initiating app and the same activity. *)
Lemma run_view_index l rid :
  ledger_wf l ->
  match l_runs l !! rid with
  | None => run_view l rid = Err (UnknownRun rid)
  | Some state => ∃ v, run_view l rid = Ok v /\
      RunView_initiating_app v = ri_initiating_app state /\ RunView_is_active v = ri_active state
  end.
Proof.
  intros Hwf. pose proof (ledger_ok_run _ _ rid Hwf) as Hr. unfold run_view.
  destruct (l_runs l !! rid) as [state|]; [|by destruct Hr as [_ ->]].
  destruct Hr as (i & g & mid & tail & Hev & -> & Hi & Hmid & Htail).
  eexists. split; [done|]. unfold RunView_initiating_app.
  rewrite view_fold_initiator, view_fold_active, records_for_run_active, Hev. split; [done|].
  simpl. rewrite forallb_app.
  assert (forallb (fun e => negb (is_end e)) mid = true) as ->.
  { apply forallb_forall. intros e He%list_elem_of_In.
    rewrite Forall_forall in Hmid. by destruct (Hmid e He) as [_ ->]. }
  destruct (ri_active state); [by subst|]. by destruct Htail as [t ->].
Qed.

Lemma run_view_Ok l rid v :
  ledger_wf l -> run_view l rid = Ok v ->
  ∃ state, l_runs l !! rid = Some state /\
    RunView_initiating_app v = ri_initiating_app state /\ RunView_is_active v = ri_active state.
Proof.
  intros Hwf Hv. pose proof (run_view_index l rid Hwf) as H.
  destruct (l_runs l !! rid) as [state|]; [|congruence].
  destruct H as (v' & Hv' & ? & ?). exists state. rewrite Hv in Hv'. by injection Hv' as <-.
Qed.

Lemma ledger_ok_sequence rs runs i r :
  ledger_ok rs runs -> rs !! i = Some r -> lr_sequence r = N.of_nat i.
Proof.
  intros Hok. revert i r. induction Hok as [|rs runs r' runs' Hok IH Hseq]; intros i r; [done|].
  intros [Hi|[Hle Hi]]%lookup_app_Some; [by apply IH|].
  apply list_lookup_singleton_Some in Hi as [Hi <-]. rewrite Hseq. f_equal. lia.
Qed.

(** ** Restoring a well-formed ledger *)

(** Every child run names a parent that was active and of the same app when it
    started: what [restore] checks record by record. *)
Inductive parents_ok : list LedgerRecord -> gmap RunId RunIndexEntry -> Prop :=
  | parents_ok_nil : parents_ok [] ∅
  | parents_ok_snoc rs runs r runs' :
      parents_ok rs runs ->
      check_parent runs (lr_event r) = Ok tt ->
      index_event runs (lr_event r) = Ok runs' ->
      parents_ok (rs ++ [r]) runs'.

Section restore_facts.
Context {W : Type} `{Environment W}.

(** What [restore_loop] needs of the rest of the records. *)
Fixpoint restorable_from (runs : gmap RunId RunIndexEntry) (n : N) (rs : list LedgerRecord) : Prop :=
  match rs with
  | [] => True
  | r :: rs' =>
      lr_sequence r = n /\ check_parent runs (lr_event r) = Ok tt /\
      validate_append runs (lr_event r) = Ok tt /\
      ∃ runs', index_event runs (lr_event r) = Ok runs' /\ restorable_from runs' (n + 1) rs'
  end.

Lemma restore_loop_complete l n rs w :
  restorable_from (l_runs l) n rs ->
  ∃ l' w', restore_loop l n rs w = (Ok l', w') /\
    foldl (fun o r => runs ← o; index_event runs (lr_event r)) (Ok (l_runs l)) rs = Ok (l_runs l').
Proof.
  revert l n w. induction rs as [|r rs IH]; intros l n w; simpl; [intros _; by exists l, w|].
  intros (Hseq & Hp & Hv & runs' & Hi & Hrest).
  rewrite bool_decide_eq_false_2 by (by rewrite Hseq; intros []).
  pose proof (RunLedger_append_result l (lr_event r) w) as Ha. rewrite Hv in Ha.
  destruct Ha as (r' & l1 & w1 & Ha).
  pose proof (RunLedger_append_Ok _ _ _ _ _ _ Ha) as (_ & Hi' & _).
  assert (l_runs l1 = runs') as <- by congruence.
  destruct (IH l1 (n + 1)%N w1 Hrest) as (l' & w' & Hl' & Hf).
  exists l', w'. split; [|by rewrite Hi].
  unfold mbind, st_bind, st_lift, mret, st_ret. by rewrite Hp, Ha.
Qed.

Lemma restorable_from_snoc runs n rs r runs1 :
  restorable_from runs n rs ->
  foldl (fun o r => runs ← o; index_event runs (lr_event r)) (Ok runs) rs = Ok runs1 ->
  lr_sequence r = (n + N.of_nat (length rs))%N ->
  check_parent runs1 (lr_event r) = Ok tt ->
  validate_append runs1 (lr_event r) = Ok tt ->
  restorable_from runs n (rs ++ [r]).
Proof.
  revert runs n. induction rs as [|r' rs IH]; intros runs n; simpl.
  - intros _ [= ->] Hseq Hp Hv. destruct (index_event_total _ _ Hv) as [runs' Hi].
    repeat split; [by rewrite Hseq, N.add_0_r|done|done|]. by exists runs'.
  - intros (Hs & Hp' & Hv' & runs' & Hi & Hrest) Hf Hseq Hp Hv.
    rewrite Hi in Hf. repeat split; [done..|]. exists runs'. split; [done|].
    apply IH; [done|done| |done|done]. rewrite Hseq. lia.
Qed.

Lemma ledger_parents_index rs runs runs0 :
  ledger_ok rs runs -> parents_ok rs runs0 -> runs0 = runs.
Proof.
  intros Hok. revert runs0. induction Hok as [|rs runs r runs' Hok IH Hseq Hv Hi];
    intros runs0 Hp; inversion Hp as [Hnil|rs0 runs1 r0 ? Hp1 Hc Hi0 Happ]; subst; try done.
  - by destruct rs0.
  - by destruct rs.
  - apply app_inj_tail in Happ as [-> ->]. rewrite (IH _ Hp1) in Hi0. congruence.
Qed.

Lemma ledger_ok_restorable rs runs :
  ledger_ok rs runs -> parents_ok rs runs ->
  restorable_from ∅ 0 rs /\
  foldl (fun o r => runs ← o; index_event runs (lr_event r)) (Ok ∅) rs = Ok runs.
Proof.
  intros Hok. induction Hok as [|rs runs r runs' Hok IH Hseq Hv Hi]; intros Hp; [done|].
  inversion Hp as [Hnil|rs0 runs0 r0 ? Hp0 Hc Hi0 Happ]; subst; [by destruct rs|].
  apply app_inj_tail in Happ as [-> ->].
  pose proof (ledger_parents_index _ _ _ Hok Hp0) as ->.
  destruct (IH Hp0) as [Hr Hf]. split.
  - eapply restorable_from_snoc; [done|done| |done|done]. by rewrite N.add_0_l.
  - rewrite foldl_app, Hf. done.
Qed.

(** Restoring the records of a well-formed ledger whose child runs name active
    parents and whose actions replay gives back the same ledger: records and run
    index. *)
Lemma restore_own_records l actions w :
  ledger_wf l -> parents_ok (l_records l) (l_runs l) ->
  replay_action_state (l_records l) = Ok actions ->
  ∃ w', RunLedger_restore (l_records l) w = (Ok l, w').
Proof.
  intros Hwf Hp Hr. destruct (ledger_ok_restorable _ _ Hwf Hp) as [Hres Hf].
  destruct (restore_loop_complete RunLedger_new 0 (l_records l) w Hres) as (l' & w' & Hl & Hf').
  exists w'. unfold RunLedger_restore. rewrite (st_bind_Ok _ _ _ _ _ Hl).
  unfold mbind, st_bind, st_lift. rewrite Hr. unfold mret, st_ret.
  simpl in Hf'. rewrite Hf in Hf'. simplify_eq. by destruct l as [? ?]; simpl in *; subst.
Qed.

(** The ledger round-trips through its records. Restoring the records of a
    well-formed ledger whose child runs name active parents and whose actions
    replay succeeds and gives back the same records and the same run index. *)
Theorem RunLedger_restore_roundtrip l actions w :
  ledger_wf l -> parents_ok (l_records l) (l_runs l) ->
  replay_action_state (l_records l) = Ok actions ->
  ∃ w', RunLedger_restore (l_records l) w = (Ok l, w').
Proof. apply restore_own_records. Qed.

Lemma restore_loop_sound l n rs w l' w' :
  ledger_wf l -> parents_ok (l_records l) (l_runs l) -> n = N.of_nat (length (l_records l)) ->
  restore_loop l n rs w = (Ok l', w') ->
  ∃ rs', l_records l' = l_records l ++ rs' /\ lr_event <$> rs' = lr_event <$> rs /\
    lr_sequence <$> rs' = lr_sequence <$> rs /\
    ledger_wf l' /\ parents_ok (l_records l') (l_runs l').
Proof.
  revert l n w. induction rs as [|r rs IH]; intros l n w Hwf Hp Hn; simpl; intros Hl.
  { inv_ok Hl. exists []. by rewrite app_nil_r. }
  inv_ok Hl. case_bool_decide as Hseq; [discriminate|].
  inv_prim Hok.
  pose proof (RunLedger_append_Ok _ _ _ _ _ _ Hok1) as (Hv & Hi & Hs & He & Hrs).
  apply IH in Hl as (rs' & Hrs' & Hev & Hsq & ? & ?).
  - exists (l0 :: rs'). rewrite !fmap_cons.
    split; [by rewrite Hrs', Hrs, <- (assoc_L (++))|].
    split; [by rewrite He, Hev|]. split; [|done]. rewrite Hsq. f_equal. congruence.
  - by eapply RunLedger_append_wf.
  - rewrite Hrs. rewrite <- He in *. by eapply parents_ok_snoc.
  - rewrite Hrs, length_app. simpl. lia.
Qed.

Lemma ledger_ok_ext rs rs' runs :
  ledger_ok rs runs -> lr_event <$> rs = lr_event <$> rs' ->
  lr_sequence <$> rs = lr_sequence <$> rs' -> ledger_ok rs' runs.
Proof.
  intros Hok. revert rs'. induction Hok as [|rs runs r runs' Hok IH Hseq Hv Hi]; intros rs' He Hs.
  - destruct rs'; [constructor | done].
  - destruct rs' as [|r0 rs0 _] using rev_ind; [by destruct rs|].
    rewrite !fmap_app in He. rewrite !fmap_app in Hs. apply app_inj_tail in He as [He Her].
    apply app_inj_tail in Hs as [Hs Hsr]. rewrite Her in *.
    eapply ledger_ok_snoc; [by apply IH| |done|done].
    rewrite <- Hsr, Hseq. f_equal.
    by rewrite <- (length_fmap lr_event rs), He, length_fmap.
Qed.

Lemma parents_ok_ext rs rs' runs :
  parents_ok rs runs -> lr_event <$> rs = lr_event <$> rs' -> parents_ok rs' runs.
Proof.
  intros Hok. revert rs'. induction Hok as [|rs runs r runs' Hok IH Hc Hi]; intros rs' He.
  - destruct rs'; [constructor | done].
  - destruct rs' as [|r0 rs0 _] using rev_ind; [by destruct rs|].
    rewrite !fmap_app in He. apply app_inj_tail in He as [He Her]. rewrite Her in *.
    eapply parents_ok_snoc; [by apply IH|done|done].
Qed.

(** A restored ledger holds the given records, is well-formed and replays. *)
Lemma RunLedger_restore_sound rs w l w' :
  RunLedger_restore rs w = (Ok l, w') ->
  l_records l = rs /\ ledger_wf l /\ parents_ok (l_records l) (l_runs l) /\
  ∃ actions, replay_action_state (l_records l) = Ok actions.
Proof.
  unfold RunLedger_restore. intros Hl. inv_ok Hl.
  apply restore_loop_sound in Hok as (rs' & Hrs & He & Hs & Hwf & Hp);
    [|constructor|constructor|done].
  simpl in Hrs. subst rs'. split; [done|]. unfold ledger_wf; simpl.
  split; [by eapply ledger_ok_ext|]. split; [by eapply parents_ok_ext|]. by eexists.
Qed.

End restore_facts.

(** ** Recovery closes outstanding work *)

Definition key_of (k : ActionKey) : CapabilityRef * DataScope := (ak_capability k, ak_data_scope k).

Definition pending_keys (a : OutstandingActions) : list (CapabilityRef * DataScope) :=
  (key_of <$> oa_requested_approvals a) ++ (key_of <$> oa_granted_approvals a)
  ++ (key_of <$> oa_invocations a).

Lemma remove_by_capability_scope_spec ks c s :
  match remove_by_capability_scope ks c s with
  | Some ks' => key_of <$> ks ≡ₚ (c, s) :: (key_of <$> ks')
  | None => (c, s) ∉ key_of <$> ks
  end.
Proof.
  unfold remove_by_capability_scope. destruct (remove_first _ ks) as [ks'|] eqn:E.
  - apply remove_first_Some in E as (l1 & k & l2 & -> & -> & Hk & _).
    rewrite andb_true_iff, !bool_decide_eq_true in Hk. destruct Hk as [<- <-].
    rewrite !fmap_app, fmap_cons. by rewrite <- Permutation_middle.
  - apply remove_first_None in E. rewrite Forall_forall in E.
    intros (k & Hk & Hin)%list_elem_of_fmap. specialize (E k Hin).
    unfold key_of in Hk. simplify_eq. rewrite !bool_decide_eq_true_2 in E by done. done.
Qed.

(** Closing an action removes one pending key, and fails only when none is left. *)
Lemma close_action_spec a c s :
  match close_action a c s with
  | Some a' => pending_keys a ≡ₚ (c, s) :: pending_keys a'
  | None => (c, s) ∉ pending_keys a
  end.
Proof.
  unfold close_action, pending_keys.
  pose proof (remove_by_capability_scope_spec (oa_invocations a) c s) as H1.
  destruct (remove_by_capability_scope (oa_invocations a) c s) as [ks|]; simpl.
  { rewrite H1. by rewrite !Permutation_middle. }
  pose proof (remove_by_capability_scope_spec (oa_granted_approvals a) c s) as H2.
  destruct (remove_by_capability_scope (oa_granted_approvals a) c s) as [ks|]; simpl.
  { rewrite H2. simpl. by rewrite <- Permutation_middle. }
  pose proof (remove_by_capability_scope_spec (oa_requested_approvals a) c s) as H3.
  destruct (remove_by_capability_scope (oa_requested_approvals a) c s) as [ks|]; simpl.
  { by rewrite H3. }
  rewrite !elem_of_app. tauto.
Qed.

Lemma pending_keys_nil a : pending_keys a = [] <-> a = OutstandingActions_default.
Proof.
  split; [|intros ->; done]. destruct a as [r g i]. unfold pending_keys; simpl.
  intros [Hr [Hg Hi]%app_nil]%app_nil. apply fmap_nil_inv in Hr, Hg, Hi. by subst.
Qed.

(** The cancellation events of a list of keys. *)
Definition cancel_keys (rid : RunId) (ks : list (CapabilityRef * DataScope)) : list LedgerEvent :=
  (fun k => InvocationCancelled rid k.1 k.2) <$> ks.

Lemma replay_cancel_keys rid ks a (m : gmap RunId OutstandingActions) :
  m !! rid = Some a -> pending_keys a ≡ₚ ks ->
  replay_events m (cancel_keys rid ks) = Ok (<[rid := OutstandingActions_default]> m).
Proof.
  revert a m. induction ks as [|[c s] ks IH]; intros a m Hm Hks; simpl.
  - apply Permutation_nil_r, pending_keys_nil in Hks as ->. by rewrite insert_id.
  - unfold replay_step; simpl. rewrite Hm. simpl.
    pose proof (close_action_spec a c s) as Hc.
    destruct (close_action a c s) as [a'|]; simpl.
    + rewrite (IH a'); [by rewrite insert_insert_eq|by rewrite lookup_insert_eq|].
      rewrite Hks in Hc. by apply Permutation_cons_inv in Hc.
    + destruct Hc. rewrite Hks. apply list_elem_of_here.
Qed.

Lemma cancel_of_keys rid ks : cancel_of rid <$> ks = cancel_keys rid (key_of <$> ks).
Proof. unfold cancel_keys. by rewrite <- list_fmap_compose. Qed.

Lemma replay_events_app m es es' :
  replay_events m (es ++ es') = (m' ← replay_events m es; replay_events m' es').
Proof.
  revert m. induction es as [|e es IH]; intros m; simpl; [done|].
  destruct (replay_step m e) as [m'| |]; simpl; [apply IH|done|done].
Qed.

Definition cancellations (kv : RunId * OutstandingActions) : list LedgerEvent :=
  (cancel_of kv.1 <$> oa_requested_approvals kv.2 ++ oa_granted_approvals kv.2)
  ++ (cancel_of kv.1 <$> oa_invocations kv.2).

Lemma replay_cancellations kvs (m : gmap RunId OutstandingActions) :
  NoDup kvs.*1 -> (∀ rid a, (rid, a) ∈ kvs -> m !! rid = Some a) ->
  ∃ m', replay_events m (kvs ≫= cancellations) = Ok m' /\
    ∀ rid, m' !! rid =
      if bool_decide (rid ∈ kvs.*1) then Some OutstandingActions_default else m !! rid.
Proof.
  revert m. induction kvs as [|[rid a] kvs IH]; intros m Hnd Hm.
  { exists m. split; [done|]. intros rid. by rewrite bool_decide_eq_false_2 by apply not_elem_of_nil. }
  rewrite bind_cons, fmap_cons. simpl. rewrite fmap_cons in Hnd. simpl in Hnd.
  apply NoDup_cons in Hnd as [Hrid Hnd].
  rewrite replay_events_app.
  assert (cancellations (rid, a) = cancel_keys rid (pending_keys a)) as ->.
  { unfold cancellations, pending_keys; simpl. rewrite !cancel_of_keys, fmap_app.
    unfold cancel_keys. rewrite <- !fmap_app. by rewrite (assoc_L (++)). }
  rewrite (replay_cancel_keys rid _ a) by (apply Hm, list_elem_of_here || done). simpl.
  destruct (IH (<[rid:=OutstandingActions_default]> m) Hnd) as (m' & Hr & Hl).
  { intros rid' a' Hin. rewrite lookup_insert_ne; [apply Hm; by right|].
    intros ->. apply Hrid, list_elem_of_fmap. by exists (rid', a'). }
  exists m'. split; [done|]. intros rid'. rewrite Hl.
  destruct (decide (rid' = rid)) as [->|Hne].
  - rewrite (bool_decide_eq_false_2 (rid ∈ kvs.*1)) by done.
    rewrite bool_decide_eq_true_2 by apply list_elem_of_here. by rewrite lookup_insert_eq.
  - rewrite lookup_insert_ne by done.
    destruct (decide (rid' ∈ kvs.*1)) as [Hin|Hnin].
    + rewrite !bool_decide_eq_true_2; [done| |done]. by right.
    + rewrite !bool_decide_eq_false_2; [done| |done].
      by intros [->|?]%elem_of_cons.
Qed.

(** Recovery is complete. Whatever work a replayable ledger left open, the
    cancellations computed for it extend the history to one that replays again and
    leaves nothing outstanding, so every run can then be ended. *)
Theorem recovery_closes_outstanding l events :
  incomplete_invocation_cancellations l = Ok events ->
  ∃ actions, replay_events ∅ ((lr_event <$> l_records l) ++ events) = Ok actions /\
    ∀ rid a, actions !! rid = Some a -> a = OutstandingActions_default.
Proof.
  unfold incomplete_invocation_cancellations, replay_action_state. intros He. inv_ok He.
  destruct (replay_cancellations (btree_list a) a) as (m' & Hr & Hl).
  { apply btree_keys_nodup. }
  { intros rid x. by rewrite elem_of_btree_list. }
  exists m'. rewrite replay_events_app, Hok. simpl. injection He as <-. split.
  - erewrite list_bind_ext; [exact Hr | by intros [] | done].
  - intros rid x. rewrite Hl. case_bool_decide as Hin; [by intros [= <-]|].
    intros Hx. exfalso. apply Hin. apply elem_of_btree_keys. by exists x.
Qed.
