(* ===== verification/Registry.v ===== *)
(** * Registry and identity

    [services/registry.rs] and the sealing functions of [manifest.rs]: the
    catalog of installed apps, its install, upgrade, uninstall and restore
    operations and the declaration lookups every other service consults. *)

From S2P Require Import Prelude RustStd Json Types Errors Grants Manifest Platform Ledger.

Definition APP_DATA_CHANGED_TOPIC : string := "app-data-changed".

Record SealedManifest := { sm_manifest : AppManifest; sm_content_hash : string }.

Record InstalledApp := {
  ia_manifest : AppManifest;
  ia_content_hash : string;
  ia_installed_at : DateTime;
}.

#[export] Instance InstalledApp_eq_dec : EqDecision InstalledApp.
Proof. solve_decision. Defined.

Record Registry := { r_apps : gmap AppId InstalledApp }.

(** [Registry::new]. *)
Definition Registry_new : Registry := {| r_apps := ∅ |}.

(** [Registry::app]. *)
Definition Registry_app (r : Registry) (app_id : AppId) : KernelResult InstalledApp :=
  ok_or (r_apps r !! app_id) (UnknownApp app_id).

(** [Registry::installed_apps]. *)
Definition Registry_installed_apps (r : Registry) : list InstalledApp := btree_values (r_apps r).

(** [Registry::capability]. *)
Definition Registry_capability (r : Registry) (capability_ref : CapabilityRef)
    : KernelResult CapabilityDeclaration :=
  app ← Registry_app r (cr_provider capability_ref);
  ok_or (List.find (fun declaration => bool_decide (cd_name declaration = cr_capability capability_ref))
          (m_capabilities (ia_manifest app)))
    (UndeclaredCapability (cr_provider capability_ref) (cr_capability capability_ref)).

(** [Registry::surface]. *)
Definition Registry_surface (r : Registry) (app_id : AppId) (name : SurfaceName)
    : KernelResult SurfaceDeclaration :=
  app ← Registry_app r app_id;
  ok_or (List.find (fun declaration => bool_decide (sd_name declaration = name))
          (m_surfaces (ia_manifest app)))
    (UndeclaredSurface app_id name).

(** [Registry::artifact_type]. *)
Definition Registry_artifact_type (r : Registry) (app_id : AppId) (name : ArtifactTypeName)
    : KernelResult ArtifactTypeDeclaration :=
  app ← Registry_app r app_id;
  ok_or (List.find (fun declaration => bool_decide (at_name declaration = name))
          (m_artifact_types (ia_manifest app)))
    (UndeclaredArtifactType app_id name).

(** [Registry::is_subscribed]. *)
Definition Registry_is_subscribed (r : Registry) (app_id : AppId) (topic : EventTopic) : bool :=
  match r_apps r !! app_id with
  | Some app => bool_decide (topic ∈ m_event_subscriptions (ia_manifest app))
  | None => false
  end.

(** [Registry::uninstall]. *)
Definition Registry_uninstall (r : Registry) (app_id : AppId) : KernelResult Registry :=
  match r_apps r !! app_id with
  | Some _ => Ok {| r_apps := delete app_id (r_apps r) |}
  | None => Err (UnknownApp app_id)
  end.

Section registry.
Context `{Libraries}.

(** [manifest_content_hash]. *)
Definition manifest_content_hash (manifest : AppManifest) : string :=
  sha256_hex (manifest_to_string manifest).

(** [seal]. *)
Definition seal (manifest : AppManifest) : SealedManifest :=
  {| sm_manifest := manifest; sm_content_hash := manifest_content_hash manifest |}.

Definition check_topic (manifest : AppManifest) (topic : EventTopic) : KernelResult unit :=
  if negb (bool_decide (topic ∈ ALL_KINDS)) && negb (bool_decide (topic = APP_DATA_CHANGED_TOPIC))
  then Err (UnknownEventTopic (m_app_id manifest) topic)
  else Ok tt.

(** [Registry::validate_local]. *)
Definition validate_local (sealed_manifest : SealedManifest) : KernelResult unit :=
  let manifest := sm_manifest sealed_manifest in
  _ ← (if negb (bool_decide (sm_content_hash sealed_manifest = manifest_content_hash manifest))
       then Err (ManifestContentHashMismatch (m_app_id manifest)) else Ok tt);
  _ ← require_consistent manifest;
  _ ← for_each (fun capability =>
        _ ← require_valid_schema (cd_input_schema capability)
              ("input schema of capability '" ++ cd_name capability ++ "'");
        match cd_output_schema capability with
        | Some output_schema => require_valid_schema output_schema
            ("output schema of capability '" ++ cd_name capability ++ "'")
        | None => Ok tt
        end) (m_capabilities manifest);
  _ ← for_each (fun artifact_type => require_valid_schema (at_json_schema artifact_type)
        ("schema of artifact type '" ++ at_name artifact_type ++ "'")) (m_artifact_types manifest);
  _ ← for_each (fun declaration => require_valid_schema (cf_json_schema declaration)
        ("config schema of declaration '" ++ cf_name declaration ++ "'"))
        (m_config_declarations manifest);
  _ ← for_each (fun connector =>
        match cn_config_schema connector with
        | Some schema => require_valid_schema schema
            ("config schema of connector '" ++ cn_name connector ++ "'")
        | None => Ok tt
        end) (m_connectors manifest);
  _ ← for_each (fun point => require_valid_schema (ep_context_schema point)
        ("context schema of extension point '" ++ ep_name point ++ "'"))
        (m_extension_points manifest);
  for_each (check_topic manifest) (m_event_subscriptions manifest).

(** [Registry::validate_install]. *)
Definition validate_install (r : Registry) (sealed_manifest : SealedManifest) : KernelResult unit :=
  let manifest := sm_manifest sealed_manifest in
  _ ← validate_local sealed_manifest;
  match r_apps r !! m_app_id manifest with
  | Some _ => Err (AppAlreadyInstalled (m_app_id manifest))
  | None => Ok tt
  end.

(** [Registry::upgrade]. *)
Definition Registry_upgrade (r : Registry) (sealed_manifest : SealedManifest)
    : KernelResult Registry :=
  let app_id := m_app_id (sm_manifest sealed_manifest) in
  installed ← Registry_app r app_id;
  _ ← validate_local sealed_manifest;
  if negb (has_same_upgrade_contract (ia_manifest installed) (sm_manifest sealed_manifest))
  then Err (AppUpgradeContractChanged app_id)
  else Ok {| r_apps := <[app_id := {| ia_manifest := sm_manifest sealed_manifest;
                                      ia_content_hash := sm_content_hash sealed_manifest;
                                      ia_installed_at := ia_installed_at installed |}]> (r_apps r) |}.

(** [Registry::install]. *)
Definition Registry_install {W} `{Environment W} (r : Registry) (sealed_manifest : SealedManifest)
    : st W KernelError Registry :=
  _ ← st_lift (validate_install r sealed_manifest);
  installed_at ← clock_now;
  mret {| r_apps := <[m_app_id (sm_manifest sealed_manifest) :=
            {| ia_manifest := sm_manifest sealed_manifest;
               ia_content_hash := sm_content_hash sealed_manifest;
               ia_installed_at := installed_at |}]> (r_apps r) |}.

Definition sealed_of (app : InstalledApp) : SealedManifest :=
  {| sm_manifest := ia_manifest app; sm_content_hash := ia_content_hash app |}.

Fixpoint restore_apps (registry : Registry) (apps : list InstalledApp) : KernelResult Registry :=
  match apps with
  | [] => Ok registry
  | app :: apps' =>
      _ ← validate_local (sealed_of app);
      let app_id := m_app_id (ia_manifest app) in
      match r_apps registry !! app_id with
      | Some _ => Err (Durability ("duplicate installed app '" ++ app_id ++ "'"))
      | None => restore_apps {| r_apps := <[app_id := app]> (r_apps registry) |} apps'
      end
  end.

(** [Registry::restore]. *)
Definition Registry_restore (apps : list InstalledApp) : KernelResult Registry :=
  restore_apps Registry_new apps.

(** ** Invariant *)

(** Every entry is filed under its own app id and passes the local checks. *)
Definition registry_wf (r : Registry) : Prop :=
  ∀ app_id app, r_apps r !! app_id = Some app ->
    m_app_id (ia_manifest app) = app_id /\ validate_local (sealed_of app) = Ok tt.

Lemma registry_wf_new : registry_wf Registry_new.
Proof. intros k app Hk. simpl in Hk. by rewrite lookup_empty in Hk. Qed.

Lemma registry_wf_insert r app :
  registry_wf r -> validate_local (sealed_of app) = Ok tt ->
  registry_wf {| r_apps := <[m_app_id (ia_manifest app) := app]> (r_apps r) |}.
Proof.
  intros Hwf Hv app_id app'; simpl. intros [[<- <-]|[? Hl]]%lookup_insert_Some; [done|].
  by apply Hwf.
Qed.

Lemma Registry_install_Ok {W} `{Environment W} r sealed w r' w' :
  Registry_install r sealed w = (Ok r', w') ->
  ∃ t, validate_local sealed = Ok tt /\ r_apps r !! m_app_id (sm_manifest sealed) = None /\
    r_apps r' = <[m_app_id (sm_manifest sealed) :=
      {| ia_manifest := sm_manifest sealed; ia_content_hash := sm_content_hash sealed;
         ia_installed_at := t |}]> (r_apps r).
Proof.
  unfold Registry_install, validate_install. intros Hi. inv_ok Hi. simplify_eq.
  inv_ok Hok. eexists. split; [done|]. split; [|done]. by case_match.
Qed.

Lemma Registry_install_wf {W} `{Environment W} r sealed w r' w' :
  registry_wf r -> Registry_install r sealed w = (Ok r', w') -> registry_wf r'.
Proof.
  intros Hwf (t & Hv & _ & Hr)%Registry_install_Ok.
  destruct r'; simpl in *. subst. destruct sealed as [m h].
  apply (registry_wf_insert r {| ia_manifest := m; ia_content_hash := h; ia_installed_at := t |});
    done.
Qed.

Lemma Registry_uninstall_wf r app_id r' :
  registry_wf r -> Registry_uninstall r app_id = Ok r' -> registry_wf r'.
Proof.
  intros Hwf Hu. unfold Registry_uninstall in Hu. case_match; simplify_eq.
  intros k app; simpl. intros [_ Hl]%lookup_delete_Some. by apply Hwf.
Qed.

Lemma Registry_upgrade_wf r sealed r' :
  registry_wf r -> Registry_upgrade r sealed = Ok r' -> registry_wf r'.
Proof.
  unfold Registry_upgrade. intros Hwf Hu. inv_ok Hu. destruct (negb _); simplify_eq.
  destruct sealed as [m h].
  apply (registry_wf_insert r {| ia_manifest := m; ia_content_hash := h;
    ia_installed_at := ia_installed_at a |}); done.
Qed.

Lemma restore_apps_Ok r apps r' :
  registry_wf r -> restore_apps r apps = Ok r' -> registry_wf r'.
Proof.
  revert r. induction apps as [|app apps IH]; intros r Hwf Hr; simpl in Hr; [by simplify_eq|].
  inv_ok Hr. case_match; [done|]. eapply IH; [|done]. by apply registry_wf_insert.
Qed.

Lemma Registry_restore_wf apps r : Registry_restore apps = Ok r -> registry_wf r.
Proof. apply restore_apps_Ok, registry_wf_new. Qed.

Lemma restore_apps_complete r apps :
  Forall (fun app => validate_local (sealed_of app) = Ok tt) apps ->
  NoDup ((fun app => m_app_id (ia_manifest app)) <$> apps) ->
  (∀ app, app ∈ apps -> r_apps r !! m_app_id (ia_manifest app) = None) ->
  restore_apps r apps = Ok {| r_apps :=
    list_to_map ((fun app => (m_app_id (ia_manifest app), app)) <$> apps) ∪ r_apps r |}.
Proof.
  revert r. induction apps as [|app apps IH]; intros r Hv Hnd Hfresh; simpl.
  { rewrite (left_id_L ∅ (∪)). by destruct r. }
  apply Forall_cons in Hv as [-> Hv]. rewrite fmap_cons in Hnd.
  apply NoDup_cons in Hnd as [Hn Hnd]. simpl.
  rewrite (Hfresh app) by apply list_elem_of_here. rewrite IH; [|done|done|].
  - simpl. rewrite <- insert_union_r; [by rewrite insert_union_l|].
    apply not_elem_of_list_to_map_1. by rewrite <- list_fmap_compose.
  - intros app' Hin. simpl. rewrite lookup_insert_ne; [apply Hfresh; by right|].
    intros Heq. apply Hn, list_elem_of_fmap. by exists app'.
Qed.

(** Restoring the catalog a registry projects into durable state gives the same
    catalog, so a restart never loses, reorders or rejects an installed app. *)
Lemma restore_installed_apps r :
  registry_wf r -> Registry_restore (Registry_installed_apps r) = Ok r.
Proof.
  intros Hwf. unfold Registry_restore, Registry_installed_apps.
  rewrite restore_apps_complete.
  - simpl. rewrite (right_id_L ∅ (∪)), btree_values_to_map; [by destruct r|].
    intros k app Hk. by apply Hwf in Hk as [? _].
  - apply Forall_forall. intros app [k Hk]%elem_of_btree_values. by apply Hwf in Hk as [_ ?].
  - unfold btree_values. rewrite <- list_fmap_compose.
    erewrite list_fmap_ext; [apply (btree_keys_nodup (r_apps r))|].
    intros i [k app] Hi%list_elem_of_lookup_2. simpl.
    apply elem_of_btree_list in Hi. by apply Hwf in Hi as [? _].
  - intros app _. apply lookup_empty.
Qed.

(** A manifest is accepted in place of an installed one only if nothing but its
    version and presentation text differs, and the registration time is kept. *)
Theorem Registry_upgrade_contract r sealed r' :
  Registry_upgrade r sealed = Ok r' ->
  ∃ old new, r_apps r !! m_app_id (sm_manifest sealed) = Some old /\
    r_apps r' = <[m_app_id (sm_manifest sealed) := new]> (r_apps r) /\
    sealed_of new = sealed /\ ia_installed_at new = ia_installed_at old /\
    clear_presentation (ia_manifest old) = clear_presentation (ia_manifest new).
Proof.
  unfold Registry_upgrade. intros Hu. inv_ok Hu. unfold Registry_app in Hok.
  destruct (r_apps r !! _) as [old|] eqn:E; simplify_eq/=.
  destruct (negb _) eqn:Hc; simplify_eq. apply negb_false_iff in Hc.
  unfold has_same_upgrade_contract in Hc. apply bool_decide_eq_true in Hc.
  eexists a, _. split; [done|]. split; [done|]. by destruct sealed.
Qed.

Lemma Registry_app_Ok r app_id app :
  Registry_app r app_id = Ok app <-> r_apps r !! app_id = Some app.
Proof. unfold Registry_app. destruct (r_apps r !! app_id); simpl; naive_solver. Qed.

Lemma Registry_app_Err r app_id e :
  Registry_app r app_id = Err e -> r_apps r !! app_id = None /\ e = UnknownApp app_id.
Proof. unfold Registry_app. destruct (r_apps r !! app_id); simpl; naive_solver. Qed.

Lemma Registry_capability_Ok r c d :
  Registry_capability r c = Ok d ->
  ∃ app, r_apps r !! cr_provider c = Some app /\ d ∈ m_capabilities (ia_manifest app) /\
    cd_name d = cr_capability c.
Proof.
  unfold Registry_capability. intros Hc. inv_ok Hc. apply Registry_app_Ok in Hok.
  exists a. split; [done|]. destruct (List.find _ _) eqn:E; simplify_eq/=.
  apply find_Some_elem in E as [? E%bool_decide_eq_true]. done.
Qed.

End registry.
