(* ===== verification/Broker.v ===== *)
(** * Permission broker

    [services/broker.rs]: the single authority for issuing, checking and revoking
    grants, and the holder of owner-scoped secrets. *)

From S2P Require Import Prelude RustStd Json Types Errors Grants Manifest Platform.

Inductive IssueResult := Issued (grant : Grant) | Refused.

Inductive GrantCheck :=
  | Allowed (grant : Grant)
  | ApprovalRequired (grant : Grant)
  | CheckDenied (reason : DenialReason).

Record SecretResolver := {
  res_declared : gset SecretName;
  res_secrets : gmap SecretName string;
}.

Record PermissionBroker := {
  b_grants : gmap GrantId Grant;
  b_revoked : gset GrantId;
  b_secrets : gmap SecretRef string;
}.

(** [PermissionBroker::new]. *)
Definition PermissionBroker_new : PermissionBroker :=
  {| b_grants := ∅; b_revoked := ∅; b_secrets := ∅ |}.

(** [SecretResolver::resolve]. *)
Definition SecretResolver_resolve (r : SecretResolver) (name : SecretName) : KernelResult string :=
  if negb (bool_decide (name ∈ res_declared r)) then Err (UndeclaredSecret name)
  else ok_or (res_secrets r !! name) (UnknownSecret name).

(** ** Grant checks *)

(** The order [(issued_at, grant_id)] covering grants are sorted by. *)
Definition grant_leb (a b : Grant) : bool :=
  (g_issued_at a <? g_issued_at b)%Z
  || ((g_issued_at a =? g_issued_at b)%Z && String.leb (g_grant_id a) (g_grant_id b)).
Definition grant_le (a b : Grant) : Prop := grant_leb a b = true.

#[export] Instance grant_le_dec a b : Decision (grant_le a b) := decide (_ = true).

(** [condition_rank] ([kernel.rs]): how interactive a condition is. *)
Definition condition_rank (condition : GrantCondition) : N :=
  match condition with Silent => 0 | Notify => 1 | RequiresApproval => 2 end.

Definition grant_covers (holder : AppId) (capability : CapabilityRef)
    (requested_data_scope : DataScope) (grant : Grant) : bool :=
  bool_decide (g_holder grant = holder)
  && GrantScope_covers (g_scope grant) capability
  && DataScope_covers (g_data_scope grant) requested_data_scope.

Definition is_revoked (b : PermissionBroker) (grant : Grant) : bool :=
  bool_decide (g_grant_id grant ∈ b_revoked b).

(** The choice among the current grants, sorted by issuance: the least
    interactive condition first. *)
Definition choose_grant (current : list Grant) : GrantCheck :=
  match current with
  | [] => CheckDenied DenialExpired
  | first :: _ =>
      match List.find (fun g => bool_decide (g_condition g = Silent)) current with
      | Some grant => Allowed grant
      | None =>
          match List.find (fun g => bool_decide (g_condition g = Notify)) current with
          | Some grant => Allowed grant
          | None => ApprovalRequired first
          end
      end
  end.

Section broker.
Context {W : Type} `{Libraries, Environment W, TrustedChrome W}.

(** [PermissionBroker::check]. *)
Definition broker_check (b : PermissionBroker) (holder : AppId) (capability : CapabilityRef)
    (requested_data_scope : DataScope) : st W KernelError GrantCheck :=
  let covering := List.filter (grant_covers holder capability requested_data_scope)
                    (btree_values (b_grants b)) in
  match covering with
  | [] => mret (CheckDenied DenialNoGrant)
  | _ =>
      let live := List.filter (fun g => negb (is_revoked b g)) covering in
      match live with
      | [] => mret (CheckDenied DenialRevoked)
      | _ =>
          now ← clock_now;
          let current :=
            merge_sort grant_le (List.filter (fun g => negb (Grant_is_expired g now)) live) in
          mret (choose_grant current)
      end
  end.

(** ** Issuing *)

(** [PermissionBroker::issue_with_decision]. *)
Definition issue_with_decision (b : PermissionBroker) (holder : AppId) (request : GrantRequest)
    (origin : GrantOrigin) (decision : ApprovalDecision)
    : st W KernelError (IssueResult * PermissionBroker) :=
  match decision with
  | Denied => mret (Refused, b)
  | Approved =>
      issued_at ← clock_now;
      expires_at ← st_lift
        match gq_duration request with
        | NonExpiring => Ok None
        | ExpiresAfter secs => Some <$> datetime_add issued_at (seconds secs)
        end;
      uuid ← new_uuid;
      let grant := {|
        g_grant_id := new_grant_id uuid;
        g_holder := holder;
        g_scope := gq_scope request;
        g_data_scope := gq_data_scope request;
        g_condition := gq_condition request;
        g_origin := origin;
        g_issued_at := issued_at;
        g_expires_at := expires_at;
      |} in
      _ ← st_lift match Grant_validate grant with
                  | Ok _ => Ok tt
                  | _ => Panic "validated grant request produced invalid grant"
                  end;
      mret (Issued grant,
        {| b_grants := <[g_grant_id grant := grant]> (b_grants b);
           b_revoked := b_revoked b; b_secrets := b_secrets b |})
  end.

(** [PermissionBroker::issue]. *)
Definition broker_issue (b : PermissionBroker) (holder : AppId) (holder_display_name : string)
    (request : GrantRequest) (origin : GrantOrigin)
    : st W KernelError (IssueResult * PermissionBroker) := fun w =>
  let '(decision, w1) := confirm_grant {|
    gip_app_id := holder;
    gip_app_display_name := holder_display_name;
    gip_scope := gq_scope request;
    gip_data_scope := gq_data_scope request;
    gip_condition := gq_condition request;
    gip_duration := gq_duration request;
    gip_reason := gq_reason request |} w in
  issue_with_decision b holder request origin decision w1.

(** [PermissionBroker::grants_for]. *)
Definition grants_for (b : PermissionBroker) (holder : AppId) : st W KernelError (list Grant) :=
  now ← clock_now;
  mret (List.filter (fun grant =>
    bool_decide (g_holder grant = holder) && negb (is_revoked b grant)
    && negb (Grant_is_expired grant now)) (btree_values (b_grants b))).

(** [PermissionBroker::grant_statuses_for]. *)
Definition grant_statuses_for (b : PermissionBroker) (holder : AppId)
    : st W KernelError (list GrantStatusView) :=
  now ← clock_now;
  mret ((fun grant =>
    {| gsv_grant := grant;
       gsv_status := if is_revoked b grant then StatusRevoked
                     else if Grant_is_expired grant now then StatusExpired
                     else StatusActive |})
    <$> List.filter (fun grant => bool_decide (g_holder grant = holder))
          (btree_values (b_grants b))).

End broker.

(** ** Revoking *)

Definition add_revoked (b : PermissionBroker) (ids : gset GrantId) : PermissionBroker :=
  {| b_grants := b_grants b; b_revoked := ids ∪ b_revoked b; b_secrets := b_secrets b |}.

(** [PermissionBroker::revoke]. *)
Definition broker_revoke (b : PermissionBroker) (grant_id : GrantId) : KernelResult PermissionBroker :=
  match b_grants b !! grant_id with
  | None => Err (UnknownGrant grant_id)
  | Some _ => Ok (add_revoked b {[grant_id]})
  end.

(** The grant ids whose entry satisfies [p]. *)
Definition matching_ids (b : PermissionBroker) (p : Grant -> bool) : gset GrantId :=
  list_to_set (List.filter (fun kv => p kv.2) (btree_list (b_grants b))).*1.

(** [PermissionBroker::revoke_all_for]. *)
Definition revoke_all_for (b : PermissionBroker) (holder : AppId) : PermissionBroker :=
  add_revoked b (matching_ids b (fun grant => bool_decide (g_holder grant = holder))).

(** [PermissionBroker::revoke_all_over]. *)
Definition revoke_all_over (b : PermissionBroker) (provider : AppId) : PermissionBroker :=
  add_revoked b (matching_ids b (fun grant =>
    bool_decide (GrantScope_provider (g_scope grant) = provider))).

(** [PermissionBroker::grant_ids_over_resource]. *)
Definition grant_ids_over_resource (b : PermissionBroker) (resource_id : ResourceId) : list GrantId :=
  g_grant_id <$> List.filter (fun grant =>
    match g_data_scope grant with
    | Resources resource_ids => bool_decide (resource_id ∈ resource_ids)
    | NoData | AllResources => false
    end) (btree_values (b_grants b)).

(** ** Durable projection *)

(** [PermissionBroker::durable_grants]. *)
Definition durable_grants (b : PermissionBroker) : list Grant := btree_values (b_grants b).

(** [PermissionBroker::durable_revocations]. *)
Definition durable_revocations (b : PermissionBroker) : list GrantId := btree_elements (b_revoked b).

Fixpoint restore_grants (by_id : gmap GrantId Grant) (grants : list Grant)
    : KernelResult (gmap GrantId Grant) :=
  match grants with
  | [] => Ok by_id
  | grant :: grants' =>
      _ ← Grant_validate grant;
      match by_id !! g_grant_id grant with
      | Some _ => Err (Durability "duplicate grant id")
      | None => restore_grants (<[g_grant_id grant := grant]> by_id) grants'
      end
  end.

(** [PermissionBroker::restore]. *)
Definition PermissionBroker_restore (grants : list Grant) (revoked : list GrantId)
    : KernelResult PermissionBroker :=
  by_id ← restore_grants ∅ grants;
  if existsb (fun id => bool_decide (by_id !! id = None)) revoked
  then Err (Durability "revocation references an unknown grant")
  else Ok {| b_grants := by_id; b_revoked := list_to_set revoked; b_secrets := ∅ |}.

(** ** Secrets *)

Definition with_secrets (b : PermissionBroker) (s : gmap SecretRef string) : PermissionBroker :=
  {| b_grants := b_grants b; b_revoked := b_revoked b; b_secrets := s |}.

(** [PermissionBroker::put_secret]. *)
Definition put_secret (b : PermissionBroker) (secret_ref : SecretRef) (value : string) : PermissionBroker :=
  with_secrets b (<[secret_ref := value]> (b_secrets b)).

(** [PermissionBroker::clear_secret]. *)
Definition clear_secret (b : PermissionBroker) (secret_ref : SecretRef) : PermissionBroker :=
  with_secrets b (delete secret_ref (b_secrets b)).

(** [PermissionBroker::clear_all_for]. *)
Definition clear_all_for (b : PermissionBroker) (owner : AppId) : PermissionBroker :=
  with_secrets b (btree_retain (fun r _ => negb (bool_decide (sr_owner r = owner))) (b_secrets b)).

(** [PermissionBroker::secret_resolver_for]. *)
Definition secret_resolver_for (b : PermissionBroker) (owner : AppId) (declared : list SecretName)
    : SecretResolver :=
  let declared : gset SecretName := list_to_set declared in
  {| res_declared := declared;
     res_secrets := list_to_map
       ((fun kv => (sr_name kv.1, kv.2))
         <$> List.filter (fun kv => bool_decide (sr_owner kv.1 = owner)
                                    && bool_decide (sr_name kv.1 ∈ declared))
               (map_to_list (b_secrets b))) |}.

(** ** Invariant *)

(** Every grant is filed under its own id and is valid, and only issued grants
    are revoked. *)
Record broker_wf (b : PermissionBroker) : Prop := {
  bw_key : ∀ id g, b_grants b !! id = Some g -> g_grant_id g = id;
  bw_valid : ∀ id g, b_grants b !! id = Some g -> Grant_validate g = Ok tt;
  bw_revoked : ∀ id, id ∈ b_revoked b -> is_Some (b_grants b !! id);
}.
