(* ===== verification/BrokerFacts.v ===== *)
(** * Properties of the permission broker

    The grant check is characterised completely: which denial is reported when,
    and which of several usable grants is chosen. Issuing, revoking and restoring
    preserve the broker's invariant; revocation is final; secrets are resolved
    only within their owner's partition. *)

From S2P Require Import Prelude RustStd Json Types Errors Grants Manifest Platform Broker.

(** ** Order of grants *)

#[export] Instance grant_le_total : Total grant_le.
Proof.
  intros a b. unfold grant_le, grant_leb.
  rewrite !orb_true_iff, !andb_true_iff, !Z.ltb_lt, !Z.eqb_eq.
  destruct (Z.lt_trichotomy (g_issued_at a) (g_issued_at b)) as [?|[?|?]]; auto.
  destruct (String.leb_total (g_grant_id a) (g_grant_id b)); auto.
Qed.

#[export] Instance grant_le_trans : Transitive grant_le.
Proof.
  intros a b c. unfold grant_le, grant_leb.
  rewrite !orb_true_iff, !andb_true_iff, !Z.ltb_lt, !Z.eqb_eq.
  pose proof (string_leb_trans (g_grant_id a) (g_grant_id b) (g_grant_id c)).
  intros [?|[? ?]] [?|[? ?]]; [left; lia..|right]. split; [lia|auto].
Qed.

Lemma grant_le_refl a : grant_le a a.
Proof. by destruct (total grant_le a a). Qed.

Lemma sorted_find_least (R : relation Grant) (p : Grant -> bool) l g :
  (∀ x, R x x) -> StronglySorted R l -> List.find p l = Some g ->
  ∀ g', g' ∈ l -> p g' = true -> R g g'.
Proof.
  intros Hrefl. induction 1 as [|x l Hs IH Hx]; simpl; [done|].
  destruct (p x) eqn:Hp.
  - intros [= <-] g' [->|Hin]%elem_of_cons _; [done|].
    rewrite Forall_forall in Hx. by apply Hx.
  - intros Hf g' [->|Hin]%elem_of_cons Hp'; [congruence|]. by apply IH.
Qed.

(** ** What the check decides *)

Section check_spec.
Context (b : PermissionBroker) (holder : AppId) (capability : CapabilityRef) (scope : DataScope).
Context (now : DateTime).

Definition covering_grant (g : Grant) : Prop :=
  (∃ id, b_grants b !! id = Some g) /\ grant_covers holder capability scope g = true.

Definition live_grant (g : Grant) : Prop := covering_grant g /\ is_revoked b g = false.

Definition current_grant (g : Grant) : Prop := live_grant g /\ Grant_is_expired g now = false.

(** Less interactive first, then earlier issuance, then smaller id. *)
Definition preferred (g g' : Grant) : Prop :=
  (condition_rank (g_condition g) < condition_rank (g_condition g'))%N \/
  g_condition g = g_condition g' /\ grant_le g g'.

Definition check_spec (r : GrantCheck) : Prop :=
  match r with
  | CheckDenied DenialNoGrant => ∀ g, ~ covering_grant g
  | CheckDenied DenialRevoked =>
      (∃ g, covering_grant g) /\ ∀ g, covering_grant g -> is_revoked b g = true
  | CheckDenied DenialExpired =>
      (∃ g, live_grant g) /\ ∀ g, live_grant g -> Grant_is_expired g now = true
  | Allowed g =>
      current_grant g /\ g_condition g ≠ RequiresApproval /\ ∀ g', current_grant g' -> preferred g g'
  | ApprovalRequired g =>
      current_grant g /\ g_condition g = RequiresApproval /\ ∀ g', current_grant g' -> preferred g g'
  end.

Lemma elem_of_covering g :
  g ∈ List.filter (grant_covers holder capability scope) (btree_values (b_grants b)) <->
  covering_grant g.
Proof.
  unfold covering_grant. rewrite list_elem_of_In, filter_In, <- list_elem_of_In.
  by rewrite elem_of_btree_values.
Qed.

Lemma choose_grant_spec (current : list Grant) :
  (∀ g, g ∈ current <-> current_grant g) -> StronglySorted grant_le current ->
  (∃ g, live_grant g) -> check_spec (choose_grant current).
Proof.
  intros Hcur Hsort Hlive. unfold choose_grant. destruct current as [|first rest].
  { split; [done|]. intros g Hg. destruct (Grant_is_expired g now) eqn:E; [done|].
    exfalso. apply (not_elem_of_nil g), Hcur. done. }
  set (l := first :: rest) in *.
  assert (∀ g', g' ∈ l -> grant_le first g') as Hfirst.
  { intros g' [->|Hin]%elem_of_cons; [apply grant_le_refl|].
    inversion Hsort as [|? ? _ Hall]. rewrite Forall_forall in Hall. by apply Hall. }
  destruct (List.find (fun g => bool_decide (g_condition g = Silent)) l) as [g|] eqn:Es.
  { pose proof (find_Some_elem _ _ _ Es) as [Hin Hc%bool_decide_eq_true].
    split; [by apply Hcur|]. split; [by rewrite Hc|]. intros g' Hg'%Hcur.
    destruct (g_condition g') eqn:Ec'; unfold preferred; rewrite Hc, Ec'; simpl;
      [right; split; [done|]|left; lia|left; lia].
    eapply sorted_find_least; [apply grant_le_refl|done|done|done|]. by apply bool_decide_eq_true. }
  rewrite find_None_elem in Es.
  destruct (List.find (fun g => bool_decide (g_condition g = Notify)) l) as [g|] eqn:En.
  { pose proof (find_Some_elem _ _ _ En) as [Hin Hc%bool_decide_eq_true].
    split; [by apply Hcur|]. split; [by rewrite Hc|]. intros g' Hg'%Hcur.
    specialize (Es g' Hg'). apply bool_decide_eq_false in Es.
    destruct (g_condition g') eqn:Ec'; unfold preferred; rewrite Hc, Ec'; simpl;
      [done|right; split; [done|]|left; lia].
    eapply sorted_find_least; [apply grant_le_refl|done|done|done|]. by apply bool_decide_eq_true. }
  rewrite find_None_elem in En.
  assert (∀ g', g' ∈ l -> g_condition g' = RequiresApproval) as Hall.
  { intros g' Hg'. specialize (Es g' Hg'). specialize (En g' Hg').
    apply bool_decide_eq_false in Es, En. by destruct (g_condition g'). }
  assert (first ∈ l) as Hf by apply list_elem_of_here.
  split; [by apply Hcur|]. split; [by apply Hall|]. intros g' Hg'%Hcur.
  right. split; [by rewrite !Hall|]. by apply Hfirst.
Qed.

End check_spec.

Section check_facts.
Context {W : Type} `{Environment W}.

(** The grant check always answers, and its answer is the one the specification
    singles out at the clock reading it takes: no covering grant, all covering
    grants revoked, all live grants expired, or the least interactive, earliest
    current grant. *)
Lemma broker_check_spec_holds b holder capability scope w :
  ∃ r w', broker_check b holder capability scope w = (Ok r, w') /\
    check_spec b holder capability scope (env_now w).1 r.
Proof.
  unfold broker_check.
  pose proof (elem_of_covering b holder capability scope) as Hcov.
  set (covering := List.filter (grant_covers holder capability scope) _) in *.
  destruct covering as [|c0 cs] eqn:Ec.
  { eexists _, w. split; [done|]. intros g Hg%Hcov. by apply not_elem_of_nil in Hg. }
  rewrite <- Ec in *.
  assert (∀ g, g ∈ List.filter (fun g => negb (is_revoked b g)) covering <->
               live_grant b holder capability scope g) as Hlive.
  { intros g. unfold live_grant. rewrite list_elem_of_In, filter_In, <- list_elem_of_In, Hcov.
    by rewrite negb_true_iff. }
  destruct (List.filter (fun g => negb (is_revoked b g)) covering) as [|l0 ls] eqn:El.
  { eexists _, w. split; [done|]. split.
    - exists c0. apply Hcov. rewrite Ec. apply list_elem_of_here.
    - intros g Hg. destruct (is_revoked b g) eqn:E; [done|].
      exfalso. apply (not_elem_of_nil g), Hlive. done. }
  rewrite <- El in *. unfold mbind, st_bind, clock_now.
  destruct (env_now w) as [now w']. eexists _, w'. split; [done|].
  apply choose_grant_spec.
  - intros g. rewrite merge_sort_Permutation, list_elem_of_In, filter_In, <- list_elem_of_In.
    unfold current_grant. rewrite Hlive. by rewrite negb_true_iff.
  - apply StronglySorted_merge_sort; apply _.
  - exists l0. apply Hlive. rewrite El. apply list_elem_of_here.
Qed.

(** C32: The grant check is total and correct. It always answers, and its answer is
    the one the specification singles out at the clock reading it takes: no
    covering grant, all covering grants revoked, all live grants expired, or the
    least interactive, earliest issued of the current grants. *)
Theorem broker_check_correct b holder capability scope w :
  ∃ r w', broker_check b holder capability scope w = (Ok r, w') /\
    check_spec b holder capability scope (env_now w).1 r.
Proof. apply broker_check_spec_holds. Qed.

(** A grant the check hands out is held by the caller, covers the capability and
    the requested data, and is neither revoked nor expired at the reading. *)
Lemma broker_check_sound b holder capability scope w r w' g :
  broker_check b holder capability scope w = (Ok r, w') ->
  r = Allowed g \/ r = ApprovalRequired g ->
  current_grant b holder capability scope (env_now w).1 g.
Proof.
  intros Hc Hr. destruct (broker_check_spec_holds b holder capability scope w) as (r' & w1 & Hc' & Hs).
  rewrite Hc in Hc'. simplify_eq. destruct Hr as [-> | ->]; by destruct Hs.
Qed.

(** Such an answer takes exactly one reading of the clock. *)
Lemma broker_check_reads b holder capability scope w r w' g :
  broker_check b holder capability scope w = (Ok r, w') ->
  r = Allowed g \/ r = ApprovalRequired g -> w' = (env_now w).2.
Proof.
  unfold broker_check, mbind, st_bind, mret, st_ret, clock_now. intros Hc Hr.
  repeat case_match; destruct Hr; by simplify_eq/=.
Qed.

Lemma broker_check_total b holder capability scope w :
  ∃ r w', broker_check b holder capability scope w = (Ok r, w').
Proof. destruct (broker_check_spec_holds b holder capability scope w) as (r & w' & ? & _). eauto. Qed.

End check_facts.

(** ** Revocation is final *)

Section steps.
Context {W : Type} `{Libraries, Environment W, TrustedChrome W}.

(** The broker transitions the kernel performs. *)
Inductive broker_step : PermissionBroker -> PermissionBroker -> Prop :=
  | step_issue b holder request origin decision w r b' w' :
      issue_with_decision b holder request origin decision w = (Ok (r, b'), w') ->
      broker_step b b'
  | step_revoke b id b' : broker_revoke b id = Ok b' -> broker_step b b'
  | step_revoke_for b holder : broker_step b (revoke_all_for b holder)
  | step_revoke_over b provider : broker_step b (revoke_all_over b provider)
  | step_put_secret b r v : broker_step b (put_secret b r v)
  | step_clear_secret b r : broker_step b (clear_secret b r)
  | step_clear_all b owner : broker_step b (clear_all_for b owner).

Lemma issue_with_decision_Ok b holder request origin decision w r b' w' :
  issue_with_decision b holder request origin decision w = (Ok (r, b'), w') ->
  match r with
  | Refused => decision = Denied /\ b' = b
  | Issued g => decision = Approved /\ g_holder g = holder /\ g_scope g = gq_scope request /\
      g_data_scope g = gq_data_scope request /\ g_condition g = gq_condition request /\
      g_origin g = origin /\ g_issued_at g = (env_now w).1 /\
      g_expires_at g = match gq_duration request with
                       | NonExpiring => None
                       | ExpiresAfter secs => Some (g_issued_at g + seconds secs)%Z
                       end /\
      Grant_validate g = Ok tt /\
      b' = {| b_grants := <[g_grant_id g := g]> (b_grants b);
              b_revoked := b_revoked b; b_secrets := b_secrets b |}
  end.
Proof.
  unfold issue_with_decision. destruct decision; intros Hi; inv_ok Hi; [|done].
  simplify_eq. simpl. destruct (Grant_validate _) as [[]| |] eqn:Hv in Hok2; try done.
  unfold clock_now in Hok. destruct (env_now w) as [t w1]; simpl in *. simplify_eq.
  repeat split; try done.
  destruct (gq_duration request); simplify_eq/=; [done|].
  unfold datetime_add in Hok0. case_match; by simplify_eq/=.
Qed.

Lemma broker_step_revoked b b' : broker_step b b' -> b_revoked b ⊆ b_revoked b'.
Proof.
  destruct 1 as [b holder request origin decision w r b' w' Hi|b id b' Hr|? ?|? ?|? ? ?|? ?|? ?];
    simpl; try set_solver.
  - apply issue_with_decision_Ok in Hi. destruct r; [|by destruct Hi as [_ ->]].
    destruct_and! Hi. by subst.
  - unfold broker_revoke in Hr. case_match; simplify_eq. simpl. set_solver.
Qed.

(** Once revoked, a grant is never again the answer of a check, whatever the
    broker does in between: issuing other grants, further revocations, secrets. *)
Theorem revoked_forever b b' id holder capability scope w r w' :
  id ∈ b_revoked b -> rtc broker_step b b' ->
  broker_check b' holder capability scope w = (Ok r, w') ->
  match r with
  | Allowed g | ApprovalRequired g => g_grant_id g ≠ id
  | CheckDenied _ => True
  end.
Proof.
  intros Hid Hsteps Hc.
  assert (id ∈ b_revoked b') as Hid'.
  { clear Hc. induction Hsteps as [|x y z Hxy _ IH]; [done|]. apply IH.
    by apply (broker_step_revoked x y). }
  assert (∀ g, current_grant b' holder capability scope (env_now w).1 g -> g_grant_id g ≠ id).
  { intros g ((_ & Hr) & _) <-. unfold is_revoked in Hr. by apply bool_decide_eq_false in Hr. }
  destruct r as [g|g|]; [..|done]; eauto using broker_check_sound.
Qed.

(** ** Preservation of the invariant *)

Lemma broker_wf_new : broker_wf PermissionBroker_new.
Proof. split; intros id; simpl; [intros g; by rewrite lookup_empty..|]. set_solver. Qed.

Lemma matching_ids_subset b p id : id ∈ matching_ids b p -> is_Some (b_grants b !! id).
Proof.
  unfold matching_ids. rewrite elem_of_list_to_set, list_elem_of_fmap.
  intros ([k g] & -> & Hin). apply list_elem_of_In, filter_In in Hin as [Hin _].
  apply list_elem_of_In, elem_of_btree_list in Hin. by exists g.
Qed.

Lemma elem_of_matching_ids b p id :
  id ∈ matching_ids b p <-> ∃ g, b_grants b !! id = Some g /\ p g = true.
Proof.
  unfold matching_ids. rewrite elem_of_list_to_set, list_elem_of_fmap. split.
  - intros ([k g] & -> & Hin). apply list_elem_of_In, filter_In in Hin as [Hin Hp].
    apply list_elem_of_In, elem_of_btree_list in Hin. by exists g.
  - intros (g & Hg & Hp). exists (id, g). split; [done|].
    apply list_elem_of_In, filter_In. rewrite <- list_elem_of_In, elem_of_btree_list. done.
Qed.

Lemma broker_wf_add_revoked b ids :
  broker_wf b -> (∀ id, id ∈ ids -> is_Some (b_grants b !! id)) -> broker_wf (add_revoked b ids).
Proof.
  intros [Hk Hv Hr] Hids. split; simpl; [done..|].
  intros id [?|?]%elem_of_union; auto.
Qed.

Lemma broker_wf_step b b' : broker_wf b -> broker_step b b' -> broker_wf b'.
Proof.
  intros Hwf. destruct 1 as [b holder request origin decision w r b' w' Hi|b id b' Hr|? ?|? ?|? ? ?|? ?|? ?].
  - apply issue_with_decision_Ok in Hi. destruct r as [g|]; [|by destruct Hi as [_ ->]].
    destruct Hi as (_ & _ & _ & _ & _ & _ & _ & _ & Hv & ->). destruct Hwf as [Hk Hva Hr].
    split; simpl.
    + by intros id g' [[<- <-]|[_ Hl]]%lookup_insert_Some; [|apply Hk].
    + intros id g' [[<- <-]|[_ Hl]]%lookup_insert_Some; [done|by eapply Hva].
    + intros id [x Hx]%Hr. rewrite lookup_insert. case_decide; eauto.
  - unfold broker_revoke in Hr. destruct (b_grants b !! id) eqn:E; simplify_eq.
    apply broker_wf_add_revoked; [done|]. by intros id' ->%elem_of_singleton.
  - by apply broker_wf_add_revoked; [|apply matching_ids_subset].
  - by apply broker_wf_add_revoked; [|apply matching_ids_subset].
  - by destruct Hwf.
  - by destruct Hwf.
  - by destruct Hwf.
Qed.

(** Issuing a valid request never trips the expectation on the new grant, as long
    as the lifetime fits the calendar: the operation always answers. *)
Theorem issue_with_decision_no_panic b holder request origin decision w :
  GrantRequest_validate request = Ok tt -> GrantDuration_wf (gq_duration request) ->
  ((env_now w).1 + seconds (2 ^ 32) <= max_utc)%Z ->
  ∃ r b' w', issue_with_decision b holder request origin decision w = (Ok (r, b'), w').
Proof.
  intros Hreq Hdur Hmax. unfold issue_with_decision. destruct decision; [|by eexists _, _, _].
  unfold mbind, st_bind, clock_now, st_lift, new_uuid. destruct (env_now w) as [t w1]; simpl in *.
  destruct (gq_duration request) as [|secs]; simpl.
  - destruct (env_uuid w1) as [u w2]. unfold Grant_validate; simpl.
    unfold GrantRequest_validate in Hreq. rewrite Hreq. simpl. by eexists _, _, _.
  - simpl in Hdur. unfold seconds in *.
    unfold datetime_add. rewrite (proj2 (Z.leb_le _ _)) by lia. simpl.
    destruct (env_uuid w1) as [u w2]. unfold Grant_validate; simpl.
    unfold GrantRequest_validate in Hreq. rewrite Hreq. simpl.
    rewrite (proj2 (Z.leb_gt _ _)) by lia. by eexists _, _, _.
Qed.

End steps.

(** ** Restoring *)

Lemma restore_grants_complete by_id grants :
  Forall (fun g => Grant_validate g = Ok tt) grants -> NoDup (g_grant_id <$> grants) ->
  (∀ g, g ∈ grants -> by_id !! g_grant_id g = None) ->
  restore_grants by_id grants = Ok (list_to_map ((fun g => (g_grant_id g, g)) <$> grants) ∪ by_id).
Proof.
  revert by_id. induction grants as [|g gs IH]; intros by_id Hv Hnd Hfresh; simpl.
  { by rewrite (left_id_L ∅ (∪)). }
  apply Forall_cons in Hv as [-> Hv]. rewrite fmap_cons in Hnd.
  apply NoDup_cons in Hnd as [Hn Hnd]. simpl.
  rewrite (Hfresh g) by apply list_elem_of_here. rewrite IH; [|done|done|].
  - rewrite <- insert_union_r; [by rewrite insert_union_l|].
    apply not_elem_of_list_to_map_1. by rewrite <- list_fmap_compose.
  - intros g' Hin. rewrite lookup_insert_ne; [apply Hfresh; by right|].
    intros Heq. apply Hn, list_elem_of_fmap. by exists g'.
Qed.

(** Restoring the durable grants and revocations gives back the same authority;
    only the session-held secrets are gone. *)
Lemma restore_durable_grants b :
  broker_wf b ->
  PermissionBroker_restore (durable_grants b) (durable_revocations b)
  = Ok {| b_grants := b_grants b; b_revoked := b_revoked b; b_secrets := ∅ |}.
Proof.
  intros [Hk Hv Hr]. unfold PermissionBroker_restore, durable_grants, durable_revocations.
  rewrite restore_grants_complete; simpl.
  - rewrite (right_id_L ∅ (∪)), btree_values_to_map by done.
    rewrite btree_elements_to_set.
    destruct (existsb _ _) eqn:E; [|done]. exfalso.
    apply existsb_exists in E as (id & Hin & E%bool_decide_eq_true).
    apply list_elem_of_In, elem_of_btree_elements, Hr in Hin as [g Hg]. congruence.
  - apply Forall_forall. intros g [id Hid]%elem_of_btree_values. by eapply Hv.
  - unfold btree_values. rewrite <- list_fmap_compose.
    erewrite list_fmap_ext; [apply (btree_keys_nodup (b_grants b))|].
    intros i [k g] Hi%list_elem_of_lookup_2. simpl. by apply elem_of_btree_list, Hk in Hi.
  - intros g _. apply lookup_empty.
Qed.

(** The broker round-trips through its durable state. Restoring the durable
    grants and revocations of a well-formed broker gives back the same authority;
    only the session-held secrets are gone. *)
Theorem PermissionBroker_restore_roundtrip b :
  broker_wf b ->
  PermissionBroker_restore (durable_grants b) (durable_revocations b)
  = Ok {| b_grants := b_grants b; b_revoked := b_revoked b; b_secrets := ∅ |}.
Proof. apply restore_durable_grants. Qed.

(** ** Secrets *)

Lemma lookup_owner_secrets (m : gmap SecretRef string) owner (p : SecretName -> bool) name :
  (list_to_map ((fun kv => (sr_name kv.1, kv.2))
    <$> List.filter (fun kv => bool_decide (sr_owner kv.1 = owner) && p (sr_name kv.1))
          (map_to_list m)) : gmap SecretName string) !! name
  = if p name then m !! {| sr_owner := owner; sr_name := name |} else None.
Proof.
  set (l := List.filter _ (map_to_list m)).
  assert (∀ k v, (k, v) ∈ ((fun kv : SecretRef * string => (sr_name kv.1, kv.2)) <$> l) <->
    p k = true /\ m !! {| sr_owner := owner; sr_name := k |} = Some v) as Hl.
  { intros k v. rewrite list_elem_of_fmap. split.
    - intros ([[o n] v'] & [= -> ->] & Hin). apply list_elem_of_In, filter_In in Hin as [Hin Hf].
      apply list_elem_of_In, elem_of_map_to_list in Hin. simpl in *.
      apply andb_true_iff in Hf as [->%bool_decide_eq_true Hp]. done.
    - intros [Hp Hm]. exists ({| sr_owner := owner; sr_name := k |}, v). split; [done|].
      apply list_elem_of_In, filter_In. rewrite <- list_elem_of_In, elem_of_map_to_list.
      split; [done|]. simpl. by rewrite bool_decide_eq_true_2. }
  destruct (_ !! name) as [v|] eqn:E.
  - apply elem_of_list_to_map_2, Hl in E as [-> ->]. done.
  - apply not_elem_of_list_to_map_2 in E. destruct (p name) eqn:Hp; [|done].
    destruct (m !! _) as [v|] eqn:Em; [|done]. exfalso. apply E.
    apply list_elem_of_fmap. exists (name, v). split; [done|]. by apply Hl.
Qed.

(** Secrets are partitioned by app. A resolver yields a secret exactly when its
    owner declared the name and stored a value under its own partition: another app's
    secret of the same name is never visible. *)
Theorem secret_resolver_isolation b owner declared name value :
  SecretResolver_resolve (secret_resolver_for b owner declared) name = Ok value <->
  name ∈ declared /\ b_secrets b !! {| sr_owner := owner; sr_name := name |} = Some value.
Proof.
  unfold SecretResolver_resolve, secret_resolver_for. cbn [res_declared res_secrets].
  pose proof (lookup_owner_secrets (b_secrets b) owner
    (fun n => bool_decide (n ∈ (list_to_set declared : gset SecretName))) name) as Hl.
  cbv beta in Hl. rewrite Hl.
  case_bool_decide as Hn; rewrite elem_of_list_to_set in Hn; simpl.
  - destruct (b_secrets b !! _) eqn:E; simpl; naive_solver.
  - naive_solver.
Qed.
