(* ===== verification/Artifacts.v ===== *)
(** * Artifact store and snapshots

    [services/artifacts.rs]: the durable-object store, the data-scoped snapshot
    handed to handlers and its bounded pages. *)

From S2P Require Import Prelude RustStd Json Types Errors Grants Manifest Platform.

Definition MAX_ARTIFACT_SNAPSHOT_ITEMS : N := 50.
Definition MAX_ARTIFACT_CONTENT_BYTES : nat := 64 * 1024.

Record ArtifactStore := { as_artifacts : gmap ArtifactId Artifact }.

Record ArtifactSnapshotResolver := { sn_artifacts : gmap ArtifactId Artifact }.

Record ArtifactSnapshotSummary := {
  ss_artifact_id : ArtifactId;
  ss_artifact_type : ArtifactTypeName;
  ss_title : string;
  ss_provenance : Provenance;
}.

Record ArtifactSnapshotPage := {
  sp_items : list ArtifactSnapshotSummary;
  sp_next_cursor : option string;
}.

Record ArtifactSnapshot := {
  as_artifact_id : ArtifactId;
  as_artifact_type : ArtifactTypeName;
  as_title : string;
  as_content : Value;
  as_provenance : Provenance;
}.

(** [ArtifactStore::new]. *)
Definition ArtifactStore_new : ArtifactStore := {| as_artifacts := ∅ |}.

(** [ArtifactStore::put_all]. *)
Definition ArtifactStore_put_all (s : ArtifactStore) (artifacts : list Artifact) : ArtifactStore :=
  {| as_artifacts := foldl (fun m a => <[a_artifact_id a := a]> m) (as_artifacts s) artifacts |}.

(** [ArtifactStore::get]. *)
Definition ArtifactStore_get (s : ArtifactStore) (artifact_id : ArtifactId) : KernelResult Artifact :=
  ok_or (as_artifacts s !! artifact_id) (UnknownArtifact artifact_id).

(** [ArtifactStore::all]. *)
Definition ArtifactStore_all (s : ArtifactStore) : list Artifact := btree_values (as_artifacts s).

(** [ArtifactStore::snapshot_resolver_for]. *)
Definition snapshot_resolver_for (s : ArtifactStore) (data_scope : DataScope)
    : ArtifactSnapshotResolver :=
  {| sn_artifacts :=
       match data_scope with
       | NoData | AllResources => ∅
       | Resources resource_ids =>
           list_to_map (omap (fun id => (fun artifact => (id, artifact)) <$> as_artifacts s !! id)
                          resource_ids)
       end |}.

Fixpoint restore_artifacts (store : ArtifactStore) (artifacts : list Artifact)
    : KernelResult ArtifactStore :=
  match artifacts with
  | [] => Ok store
  | artifact :: artifacts' =>
      match as_artifacts store !! a_artifact_id artifact with
      | Some _ => Err (Durability ("duplicate artifact id '" ++ a_artifact_id artifact ++ "'"))
      | None => restore_artifacts
          {| as_artifacts := <[a_artifact_id artifact := artifact]> (as_artifacts store) |} artifacts'
      end
  end.

(** [ArtifactStore::restore]. *)
Definition ArtifactStore_restore (artifacts : list Artifact) : KernelResult ArtifactStore :=
  restore_artifacts ArtifactStore_new artifacts.

Definition summary_of (artifact : Artifact) : ArtifactSnapshotSummary := {|
  ss_artifact_id := a_artifact_id artifact;
  ss_artifact_type := a_artifact_type artifact;
  ss_title := a_title artifact;
  ss_provenance := a_provenance artifact |}.

Definition summary_le (a b : ArtifactSnapshotSummary) : Prop :=
  String.leb (ss_artifact_id a) (ss_artifact_id b) = true.

#[export] Instance summary_le_dec a b : Decision (summary_le a b) := decide (_ = true).

(** The summaries of a snapshot in artifact-id order. *)
Definition snapshot_items (r : ArtifactSnapshotResolver) : list ArtifactSnapshotSummary :=
  merge_sort summary_le (summary_of <$> btree_values (sn_artifacts r)).

(** [ArtifactSnapshotResolver::query]. *)
Definition snapshot_query (r : ArtifactSnapshotResolver) (cursor : option string) (limit : N)
    : KernelResult ArtifactSnapshotPage :=
  if ((limit =? 0) || (MAX_ARTIFACT_SNAPSHOT_ITEMS <? limit))%N
  then Err (Durability "invalid artifact page size")
  else
    let items := snapshot_items r in
    let len := N.of_nat (length items) in
    start ← match cursor with
            | None => Ok 0%N
            | Some value =>
                match parse_usize value with
                | None => Err (Durability "invalid artifact page cursor")
                | Some parsed =>
                    if (len <? parsed)%N then Err (Durability "invalid artifact page cursor")
                    else Ok parsed
                end
            end;
    let end_ := N.min (start + limit) len in
    Ok {| sp_items := take (N.to_nat (end_ - start)) (drop (N.to_nat start) items);
          sp_next_cursor := if (end_ <? len)%N then Some (usize_to_string end_) else None |}.

(** [ArtifactSnapshotResolver::read]. *)
Definition snapshot_read `{Libraries} (r : ArtifactSnapshotResolver) (artifact_id : ArtifactId)
    : KernelResult ArtifactSnapshot :=
  artifact ← ok_or (sn_artifacts r !! artifact_id) (UnknownArtifact artifact_id);
  content_bytes ← map_err Durability (json_to_vec (a_content artifact));
  if (MAX_ARTIFACT_CONTENT_BYTES <? String.length content_bytes)%nat
  then Err (Durability "artifact content exceeds snapshot bound")
  else Ok {| as_artifact_id := a_artifact_id artifact;
             as_artifact_type := a_artifact_type artifact;
             as_title := a_title artifact;
             as_content := a_content artifact;
             as_provenance := a_provenance artifact |}.

(** Follow the cursors from a start, [limit] items at a time, with [fuel] pages. *)
Fixpoint all_pages (fuel : nat) (r : ArtifactSnapshotResolver) (cursor : option string) (limit : N)
    : KernelResult (list ArtifactSnapshotSummary) :=
  match fuel with
  | O => Err (Durability "more pages")
  | S fuel =>
      page ← snapshot_query r cursor limit;
      match sp_next_cursor page with
      | None => Ok (sp_items page)
      | Some next => rest ← all_pages fuel r (Some next) limit; Ok (sp_items page ++ rest)
      end
  end.

(** ** Invariant and lemmas *)

(** Every artifact is filed under its own id. *)
Definition artifacts_wf (s : ArtifactStore) : Prop :=
  ∀ id a, as_artifacts s !! id = Some a -> a_artifact_id a = id.

Lemma artifacts_wf_put_all s artifacts :
  artifacts_wf s -> artifacts_wf (ArtifactStore_put_all s artifacts).
Proof.
  unfold artifacts_wf, ArtifactStore_put_all; simpl. generalize (as_artifacts s) as m.
  induction artifacts as [|a l IH]; intros m Hm; simpl; [done|].
  apply IH. intros id a' [[<- <-]|[_ ?]]%lookup_insert_Some; [done|by apply Hm].
Qed.

Lemma put_all_lookup s artifacts a :
  NoDup (a_artifact_id <$> artifacts) -> a ∈ artifacts ->
  as_artifacts (ArtifactStore_put_all s artifacts) !! a_artifact_id a = Some a.
Proof.
  unfold ArtifactStore_put_all; simpl. generalize (as_artifacts s) as m.
  induction artifacts as [|x l IH]; intros m Hnd Hin; [by apply not_elem_of_nil in Hin|].
  rewrite fmap_cons in Hnd. apply NoDup_cons in Hnd as [Hx Hnd]. simpl.
  apply elem_of_cons in Hin as [->|Hin]; [|by apply IH].
  clear IH Hnd. revert m. induction l as [|y l IH] using rev_ind; intros m; simpl.
  - by rewrite lookup_insert_eq.
  - rewrite fmap_app, not_elem_of_app in Hx. destruct Hx as [Hx Hy].
    rewrite foldl_app. simpl. rewrite lookup_insert_ne by set_solver. by apply IH.
Qed.

Lemma put_all_lookup_old s artifacts id :
  id ∉ a_artifact_id <$> artifacts ->
  as_artifacts (ArtifactStore_put_all s artifacts) !! id = as_artifacts s !! id.
Proof.
  unfold ArtifactStore_put_all; simpl. generalize (as_artifacts s) as m.
  induction artifacts as [|x l IH]; intros m Hid; [done|]. simpl.
  rewrite fmap_cons, not_elem_of_cons in Hid. destruct Hid as [Hx Hid].
  rewrite IH by done. by rewrite lookup_insert_ne.
Qed.

Lemma restore_artifacts_complete s artifacts :
  NoDup (a_artifact_id <$> artifacts) ->
  (∀ a, a ∈ artifacts -> as_artifacts s !! a_artifact_id a = None) ->
  restore_artifacts s artifacts = Ok {| as_artifacts :=
    list_to_map ((fun a => (a_artifact_id a, a)) <$> artifacts) ∪ as_artifacts s |}.
Proof.
  revert s. induction artifacts as [|a l IH]; intros s Hnd Hfresh; simpl.
  { rewrite (left_id_L ∅ (∪)). by destruct s. }
  rewrite fmap_cons in Hnd. apply NoDup_cons in Hnd as [Hn Hnd].
  rewrite (Hfresh a) by apply list_elem_of_here. rewrite IH; [|done|].
  - simpl. rewrite <- insert_union_r; [by rewrite insert_union_l|].
    apply not_elem_of_list_to_map_1. by rewrite <- list_fmap_compose.
  - intros a' Hin. simpl. rewrite lookup_insert_ne; [apply Hfresh; by right|].
    intros Heq. apply Hn, list_elem_of_fmap. by exists a'.
Qed.

(** Restoring the artifacts of a store gives back the store. *)
Lemma ArtifactStore_restore_roundtrip s :
  artifacts_wf s -> ArtifactStore_restore (ArtifactStore_all s) = Ok s.
Proof.
  intros Hwf. unfold ArtifactStore_restore, ArtifactStore_all.
  rewrite restore_artifacts_complete; simpl.
  - rewrite (right_id_L ∅ (∪)), btree_values_to_map by done. by destruct s.
  - unfold btree_values. rewrite <- list_fmap_compose.
    erewrite list_fmap_ext; [apply (btree_keys_nodup (as_artifacts s))|].
    intros i [k a] Hi%list_elem_of_lookup_2. simpl. by apply elem_of_btree_list, Hwf in Hi.
  - intros a _. apply lookup_empty.
Qed.

Lemma restore_artifacts_wf s artifacts s' :
  artifacts_wf s -> restore_artifacts s artifacts = Ok s' -> artifacts_wf s'.
Proof.
  revert s. induction artifacts as [|a l IH]; intros s Hwf; simpl; [by intros [= <-]|].
  destruct (as_artifacts s !! _) eqn:E; [done|]. apply IH.
  intros id x; simpl. intros [[<- <-]|[_ ?]]%lookup_insert_Some; [done|by apply Hwf].
Qed.

(** ** Properties *)

(** A handler's snapshot holds exactly the stored artifacts its data scope names:
    nothing for a no-data invocation, and never an artifact outside the list. *)
Theorem snapshot_is_scoped s data_scope id a :
  sn_artifacts (snapshot_resolver_for s data_scope) !! id = Some a <->
  (∃ ids, data_scope = Resources ids /\ id ∈ ids) /\ as_artifacts s !! id = Some a.
Proof.
  destruct data_scope as [| |ids]; simpl; [rewrite lookup_empty; naive_solver..|].
  set (l := omap _ ids).
  assert (∀ k x, (k, x) ∈ l <-> k ∈ ids /\ as_artifacts s !! k = Some x) as Hl.
  { intros k x. unfold l. rewrite list_elem_of_omap. split.
    - intros (k' & Hin & Hk). destruct (as_artifacts s !! k') eqn:E; naive_solver.
    - intros [Hin Hk]. exists k. by rewrite Hk. }
  destruct (list_to_map l !! id) as [x|] eqn:E.
  - apply elem_of_list_to_map_2, Hl in E as [Hin Hx]. rewrite Hx. naive_solver.
  - apply not_elem_of_list_to_map_2 in E. split; [done|].
    intros [(ids' & [= <-] & Hin) Ha]. exfalso. apply E.
    apply list_elem_of_fmap. exists (id, a). split; [done|]. by apply Hl.
Qed.

(** ** Pages *)

Definition valid_limit (limit : N) : Prop := (0 < limit <= MAX_ARTIFACT_SNAPSHOT_ITEMS)%N.

Lemma snapshot_query_at r cursor start limit :
  valid_limit limit -> (N.of_nat start <= N.of_nat (length (snapshot_items r)) <= usize_max)%N ->
  cursor = Some (usize_to_string (N.of_nat start)) \/ (cursor = None /\ start = 0) ->
  snapshot_query r cursor limit = Ok
    {| sp_items := take (N.to_nat limit) (drop start (snapshot_items r));
       sp_next_cursor :=
         if decide (start + N.to_nat limit < length (snapshot_items r))%nat
         then Some (usize_to_string (N.of_nat (start + N.to_nat limit))) else None |}.
Proof.
  intros Hl Hs Hc. unfold snapshot_query, valid_limit in *.
  replace ((limit =? 0) || (MAX_ARTIFACT_SNAPSHOT_ITEMS <? limit))%N with false
    by (symmetry; apply orb_false_iff; rewrite N.eqb_neq, N.ltb_ge; lia).
  set (items := snapshot_items r) in *.
  assert (match cursor with
          | None => Ok 0%N
          | Some value =>
              match parse_usize value with
              | None => Err (Durability "invalid artifact page cursor")
              | Some parsed =>
                  if (N.of_nat (length items) <? parsed)%N
                  then Err (Durability "invalid artifact page cursor") else Ok parsed
              end
          end = Ok (N.of_nat start)) as ->.
  { destruct Hc as [->|[-> ->]]; [|done]. rewrite parse_usize_to_string by lia.
    by replace (N.of_nat (length items) <? N.of_nat start)%N with false
      by (symmetry; apply N.ltb_ge; lia). }
  simpl. f_equal. f_equal.
  - rewrite Nat2N.id. destruct (decide (start + N.to_nat limit < length items)%nat).
    + by replace (N.to_nat (N.min (N.of_nat start + limit) (N.of_nat (length items)) - N.of_nat start))
        with (N.to_nat limit) by lia.
    + rewrite !take_ge; [done|rewrite length_drop; lia..].
  - destruct (decide _).
    + replace (N.min _ _) with (N.of_nat (start + N.to_nat limit)) by lia.
      by replace (_ <? _)%N with true by (symmetry; apply N.ltb_lt; lia).
    + by replace (_ <? _)%N with false by (symmetry; apply N.ltb_ge; lia).
Qed.

Lemma all_pages_from r limit fuel start cursor :
  valid_limit limit -> (N.of_nat start <= N.of_nat (length (snapshot_items r)) <= usize_max)%N ->
  cursor = Some (usize_to_string (N.of_nat start)) \/ (cursor = None /\ start = 0) ->
  (length (snapshot_items r) - start < fuel)%nat ->
  all_pages fuel r cursor limit = Ok (drop start (snapshot_items r)).
Proof.
  intros Hl. revert start cursor. induction fuel as [|fuel IH]; intros start cursor Hs Hc Hf; [lia|].
  cbn [all_pages]. rewrite (snapshot_query_at r cursor start) by done. simpl.
  unfold valid_limit in Hl. destruct (decide _).
  - rewrite (IH (start + N.to_nat limit)); [simpl|lia|by left|lia].
    f_equal. by rewrite <- drop_drop, take_drop.
  - f_equal. apply take_ge. rewrite length_drop. lia.
Qed.

(** Paging is complete and terminates: starting without a cursor and following
    every returned one reads the whole scoped snapshot, in order and without a
    repetition, within one page more than there are items, for every admissible page
    size. *)
Theorem all_pages_complete r limit :
  valid_limit limit -> (N.of_nat (length (snapshot_items r)) <= usize_max)%N ->
  all_pages (S (length (snapshot_items r))) r None limit = Ok (snapshot_items r).
Proof. intros Hl Hm. rewrite (all_pages_from r limit _ 0); [done|done|lia|by right|lia]. Qed.

(** No page holds more than the requested number of items, hence never more than
    [MAX_ARTIFACT_SNAPSHOT_ITEMS]. *)
Lemma snapshot_query_bounded r cursor limit page :
  snapshot_query r cursor limit = Ok page ->
  (N.of_nat (length (sp_items page)) <= limit <= MAX_ARTIFACT_SNAPSHOT_ITEMS)%N.
Proof.
  unfold snapshot_query. destruct (_ || _) eqn:E; [done|].
  apply orb_false_iff in E as [_ E%N.ltb_ge]. intros Hq. inv_ok Hq. simplify_eq/=.
  rewrite length_take. lia.
Qed.
