(* ===== verification/Surfaces.v ===== *)
(** * Surface manager

    [services/surfaces.rs]: which app surfaces are open. A binding names an app,
    one of its declared surfaces and a fresh instance. *)

From S2P Require Import Prelude RustStd Json Types Errors Grants Manifest Platform Ledger Registry.

Record SurfaceBinding := {
  sb_app_id : AppId;
  sb_surface : SurfaceName;
  sb_instance_id : SurfaceInstanceId;
}.

#[export] Instance SurfaceBinding_eq_dec : EqDecision SurfaceBinding.
Proof. solve_decision. Defined.

#[export] Instance SurfaceBinding_countable : Countable SurfaceBinding.
Proof.
  refine (inj_countable' (fun b => (sb_app_id b, sb_surface b, sb_instance_id b))
    (fun p => {| sb_app_id := p.1.1; sb_surface := p.1.2; sb_instance_id := p.2 |}) _).
  by intros [].
Defined.

Record SurfaceManager := { s_open : gset SurfaceBinding }.

(** [SurfaceManager::new]. *)
Definition SurfaceManager_new : SurfaceManager := {| s_open := ∅ |}.

(** [SurfaceManager::open]. *)
Definition SurfaceManager_open {W} `{Environment W} (m : SurfaceManager) (registry : Registry)
    (app_id : AppId) (surface : SurfaceName)
    : st W KernelError (SurfaceBinding * SurfaceManager) :=
  _ ← st_lift (Registry_surface registry app_id surface);
  uuid ← new_uuid;
  let binding := {| sb_app_id := app_id; sb_surface := surface;
                    sb_instance_id := new_surface_instance_id uuid |} in
  mret (binding, {| s_open := {[binding]} ∪ s_open m |}).

(** [SurfaceManager::close]. *)
Definition SurfaceManager_close (m : SurfaceManager) (binding : SurfaceBinding) : SurfaceManager :=
  {| s_open := s_open m ∖ {[binding]} |}.

(** [SurfaceManager::close_all_for]. *)
Definition SurfaceManager_close_all_for (m : SurfaceManager) (app_id : AppId) : SurfaceManager :=
  {| s_open := filter (fun binding => sb_app_id binding ≠ app_id) (s_open m) |}.

(** [SurfaceManager::require_open]. *)
Definition SurfaceManager_require_open (m : SurfaceManager) (binding : SurfaceBinding)
    : KernelResult unit :=
  if bool_decide (binding ∈ s_open m) then Ok tt
  else Err (SurfaceNotOpen (sb_app_id binding) (sb_surface binding)).

(** ** Invariant *)

(** Every open binding names a surface its app declares. *)
Definition surfaces_wf (registry : Registry) (m : SurfaceManager) : Prop :=
  ∀ b, b ∈ s_open m -> is_ok (Registry_surface registry (sb_app_id b) (sb_surface b)) = true.

Lemma surfaces_wf_new registry : surfaces_wf registry SurfaceManager_new.
Proof. intros b. set_solver. Qed.

Lemma SurfaceManager_open_wf {W} `{Environment W} registry m app_id surface w b m' w' :
  surfaces_wf registry m -> SurfaceManager_open m registry app_id surface w = (Ok (b, m'), w') ->
  surfaces_wf registry m' /\ SurfaceManager_require_open m' b = Ok tt /\ sb_app_id b = app_id.
Proof.
  unfold SurfaceManager_open. intros Hwf Ho. inv_ok Ho. split_and!; [| |done].
  - intros b'; simpl. intros [->%elem_of_singleton|Hb]%elem_of_union; [|by apply Hwf].
    simpl. by rewrite Hok.
  - unfold SurfaceManager_require_open. rewrite bool_decide_eq_true_2; [done|]. simpl. set_solver.
Qed.
