(* ===== verification/Router.v ===== *)
(** * Message router and lease manager

    [services/router.rs]: bounded event inboxes fed by manifest subscriptions,
    and advisory time-bounded leases. *)

From S2P Require Import Prelude RustStd Json Types Errors Grants Manifest Platform Ledger Registry.

(** ** Event envelopes *)

Inductive AppDataChangeKind :=
  | ChangeCreated | ChangeUpdated | ChangeDeleted | ChangeCompleted | AvailabilityChanged.

Inductive AppEventEnvelope :=
  | RunEvent (topic : EventTopic) (run_id : RunId) (actor : AppId)
      (capability : option CapabilityRef) (artifact_id : option ArtifactId)
      (terminal_state : option RunTerminalState)
  | AppDataChanged (provider_app_id : AppId) (resource_ref : string) (revision : N)
      (change_kind : AppDataChangeKind).

#[export] Instance AppDataChangeKind_eq_dec : EqDecision AppDataChangeKind.
Proof. solve_decision. Defined.
#[export] Instance AppEventEnvelope_eq_dec : EqDecision AppEventEnvelope.
Proof. solve_decision. Defined.

(** [AppEventEnvelope::from_event]. *)
Definition AppEventEnvelope_from_event (event : LedgerEvent) (actor : AppId) : AppEventEnvelope :=
  let '(capability, artifact_id, terminal_state) :=
    match event with
    | RunStarted _ _ _ => (None, None, None)
    | CapabilityInvoked _ capability _ _ _
    | CapabilityCompleted _ capability _ _ _
    | CapabilityFailed _ capability _ _ _
    | InvocationRefused _ capability _ _
    | InvocationCancelled _ capability _
    | ApprovalRequested _ capability _ _
    | ApprovalGranted _ capability _ _
    | ApprovalDenied _ capability _ _ => (Some capability, None, None)
    | ArtifactProduced _ artifact_id _ => (None, Some artifact_id, None)
    | RunEnded _ terminal_state => (None, None, Some terminal_state)
    end in
  RunEvent (event_topic event) (event_run_id event) actor capability artifact_id terminal_state.

(** The topic [publish] routes an envelope by. *)
Definition envelope_topic (view : AppEventEnvelope) : EventTopic :=
  match view with
  | RunEvent topic _ _ _ _ _ => topic
  | AppDataChanged _ _ _ _ => "app-data-changed"
  end.

(** ** Inboxes *)

Record EventInboxStatus := { is_queued_events : nat; is_dropped_events : N }.

Record EventInbox := { in_events : list AppEventEnvelope; in_dropped_events : N }.

Record MessageRouter := { mr_inboxes : gmap AppId EventInbox }.

Definition MAX_INBOX_EVENTS : nat := 256.

(** [MessageRouter::new]. *)
Definition MessageRouter_new : MessageRouter := {| mr_inboxes := ∅ |}.

Definition EventInbox_empty : EventInbox := {| in_events := []; in_dropped_events := 0 |}.

(** Queue one envelope, dropping the oldest when the inbox is full. The counter
    is a [u64]. *)
Definition inbox_push (inbox : EventInbox) (view : AppEventEnvelope) : EventInbox :=
  let inbox :=
    if bool_decide (length (in_events inbox) = MAX_INBOX_EVENTS)
    then {| in_events := tail (in_events inbox);
            in_dropped_events := wrap64 (in_dropped_events inbox + 1) |}
    else inbox in
  {| in_events := in_events inbox ++ [view]; in_dropped_events := in_dropped_events inbox |}.

Definition deliver (view : AppEventEnvelope) (inboxes : gmap AppId EventInbox) (app_id : AppId)
    : gmap AppId EventInbox :=
  <[app_id := inbox_push (default EventInbox_empty (inboxes !! app_id)) view]> inboxes.

Definition subscribers (registry : Registry) (topic : EventTopic) : list AppId :=
  List.filter (fun app_id => Registry_is_subscribed registry app_id topic)
    ((fun installed => m_app_id (ia_manifest installed)) <$> Registry_installed_apps registry).

(** [MessageRouter::publish]. *)
Definition MessageRouter_publish (r : MessageRouter) (view : AppEventEnvelope) (registry : Registry)
    : MessageRouter :=
  {| mr_inboxes := foldl (deliver view) (mr_inboxes r) (subscribers registry (envelope_topic view)) |}.

(** [MessageRouter::publish_data_change]. *)
Definition MessageRouter_publish_data_change (r : MessageRouter) (provider_app_id : AppId)
    (resource_ref : string) (revision : N) (change_kind : AppDataChangeKind) (registry : Registry)
    : MessageRouter :=
  let envelope := AppDataChanged provider_app_id resource_ref revision change_kind in
  {| mr_inboxes := foldl (deliver envelope) (mr_inboxes r) (subscribers registry "app-data-changed") |}.

(** [MessageRouter::publish_batch]. *)
Definition MessageRouter_publish_batch (r : MessageRouter) (views : list AppEventEnvelope)
    (registry : Registry) : MessageRouter :=
  foldl (fun r view => MessageRouter_publish r view registry) r views.

(** [MessageRouter::drain_inbox]. *)
Definition MessageRouter_drain_inbox (r : MessageRouter) (app_id : AppId) (registry : Registry)
    : KernelResult (list AppEventEnvelope * MessageRouter) :=
  _ ← Registry_app registry app_id;
  Ok match mr_inboxes r !! app_id with
     | Some inbox =>
         (in_events inbox,
          {| mr_inboxes := <[app_id := {| in_events := [];
               in_dropped_events := in_dropped_events inbox |}]> (mr_inboxes r) |})
     | None => ([], r)
     end.

(** [MessageRouter::inbox_status]. *)
Definition MessageRouter_inbox_status (r : MessageRouter) (app_id : AppId) (registry : Registry)
    : KernelResult EventInboxStatus :=
  _ ← Registry_app registry app_id;
  Ok match mr_inboxes r !! app_id with
     | Some inbox => {| is_queued_events := length (in_events inbox);
                        is_dropped_events := in_dropped_events inbox |}
     | None => {| is_queued_events := 0; is_dropped_events := 0 |}
     end.

(** [MessageRouter::discard_inbox]. *)
Definition MessageRouter_discard_inbox (r : MessageRouter) (app_id : AppId) : MessageRouter :=
  {| mr_inboxes := delete app_id (mr_inboxes r) |}.

(** ** Leases *)

Inductive LeaseTarget :=
  | LeaseArtifact (artifact_id : ArtifactId)
  | LeaseWorkspacePath (path : string).

#[export] Instance LeaseTarget_eq_dec : EqDecision LeaseTarget.
Proof. solve_decision. Defined.

(** [LeaseTarget::resource_name]. *)
Definition LeaseTarget_resource_name (t : LeaseTarget) : string :=
  match t with
  | LeaseArtifact artifact_id => "artifact:" ++ artifact_id
  | LeaseWorkspacePath path => "workspace:" ++ path
  end.

Record Lease := {
  le_lease_id : LeaseId;
  le_run_id : RunId;
  le_target : LeaseTarget;
  le_acquired_at : DateTime;
  le_expires_at : DateTime;
}.

#[export] Instance Lease_eq_dec : EqDecision Lease.
Proof. solve_decision. Defined.

(** [Lease::is_expired]. *)
Definition Lease_is_expired (l : Lease) (now : DateTime) : bool := (le_expires_at l <=? now)%Z.

Inductive LeaseOutcome := Acquired (lease : Lease) | Conflict (holder : Lease).

Record LeaseManager := { lm_leases : gmap LeaseId Lease }.

(** [LeaseManager::new]. *)
Definition LeaseManager_new : LeaseManager := {| lm_leases := ∅ |}.

(** [LeaseManager::evict_expired]. *)
Definition LeaseManager_evict_expired (m : LeaseManager) (now : DateTime) : LeaseManager :=
  {| lm_leases := btree_retain (fun _ lease => negb (Lease_is_expired lease now)) (lm_leases m) |}.

(** [LeaseManager::release]. *)
Definition LeaseManager_release (m : LeaseManager) (lease_id : LeaseId) : KernelResult LeaseManager :=
  match lm_leases m !! lease_id with
  | Some _ => Ok {| lm_leases := delete lease_id (lm_leases m) |}
  | None => Err (UnknownLease lease_id)
  end.

(** [LeaseManager::release_all_for_run]. *)
Definition LeaseManager_release_all_for_run (m : LeaseManager) (run_id : RunId) : LeaseManager :=
  {| lm_leases := btree_retain (fun _ lease => negb (bool_decide (le_run_id lease = run_id)))
                    (lm_leases m) |}.

Definition live_holder (m : LeaseManager) (target : LeaseTarget) (now : DateTime) : option Lease :=
  List.find (fun lease => bool_decide (le_target lease = target) && negb (Lease_is_expired lease now))
    (btree_values (lm_leases m)).

Section leases.
Context {W : Type} `{Libraries, Environment W}.

(** [LeaseManager::holder]. *)
Definition LeaseManager_holder {E} (m : LeaseManager) (target : LeaseTarget) : st W E (option Lease) :=
  now ← clock_now; mret (live_holder m target now).

(** [LeaseManager::acquire]: expired leases are evicted even when the call ends
    in a conflict, so the manager is part of the state. The clock is read once
    for the eviction and once by [holder]. *)
Definition LeaseManager_acquire (run_id : RunId) (target : LeaseTarget) (duration : Duration)
    : st (LeaseManager * W) KernelError LeaseOutcome := fun '(m, w) =>
  if (duration <=? 0)%Z then (Err InvalidLeaseDuration, (m, w))
  else
    let '(now, w) := env_now w in
    let m := LeaseManager_evict_expired m now in
    let '(later, w) := env_now w in
    match live_holder m target later with
    | Some holder =>
        if negb (bool_decide (le_run_id holder = run_id)) then (Ok (Conflict holder), (m, w))
        else
          match datetime_add now duration with
          | Ok expires_at =>
              let renewed := {| le_lease_id := le_lease_id holder; le_run_id := run_id;
                le_target := target; le_acquired_at := le_acquired_at holder;
                le_expires_at := expires_at |} in
              (Ok (Acquired renewed),
               ({| lm_leases := <[le_lease_id renewed := renewed]> (lm_leases m) |}, w))
          | Err e => (Err e, (m, w))
          | Panic msg => (Panic msg, (m, w))
          end
    | None =>
        let '(uuid, w) := env_uuid w in
        match datetime_add now duration with
        | Ok expires_at =>
            let lease := {| le_lease_id := new_lease_id uuid; le_run_id := run_id;
              le_target := target; le_acquired_at := now; le_expires_at := expires_at |} in
            (Ok (Acquired lease),
             ({| lm_leases := <[le_lease_id lease := lease]> (lm_leases m) |}, w))
        | Err e => (Err e, (m, w))
        | Panic msg => (Panic msg, (m, w))
        end
    end.

End leases.

(** ** Properties of inboxes and leases

    An inbox is the tail of the history of envelopes its app subscribes to, with the
    dropped ones counted; leases are exclusive among the live ones. *)

(** ** Inboxes *)

(** The abstract inbox: the last [MAX_INBOX_EVENTS] of the envelopes delivered
    since the inbox was created, and how many older ones are lost. *)
Definition inbox_of_history (history : list AppEventEnvelope) : EventInbox :=
  let excess := (length history - MAX_INBOX_EVENTS)%nat in
  {| in_events := drop excess history; in_dropped_events := wrap64 (N.of_nat excess) |}.

Lemma wrap64_succ n : wrap64 (wrap64 n + 1) = wrap64 (n + 1).
Proof. unfold wrap64. by rewrite N.Div0.add_mod_idemp_l. Qed.

Lemma tail_drop {A} n (l : list A) : tail (drop n l) = drop (S n) l.
Proof. revert l. induction n as [|n IH]; intros [|x l]; simpl; [done..|apply IH]. Qed.

Lemma inbox_push_history history view :
  inbox_push (inbox_of_history history) view = inbox_of_history (history ++ [view]).
Proof.
  unfold inbox_push, inbox_of_history. cbn [in_events in_dropped_events].
  rewrite length_drop, length_app. cbn [length].
  destruct (decide (MAX_INBOX_EVENTS <= length history)) as [Hle|Hle].
  - rewrite bool_decide_eq_true_2 by lia. cbn [in_events in_dropped_events].
    replace (length history + 1 - MAX_INBOX_EVENTS)
      with (S (length history - MAX_INBOX_EVENTS)) by lia.
    rewrite wrap64_succ, tail_drop, drop_app_le by (unfold MAX_INBOX_EVENTS in *; lia).
    f_equal. f_equal. lia.
  - rewrite bool_decide_eq_false_2 by lia. cbn [in_events in_dropped_events].
    replace (length history - MAX_INBOX_EVENTS) with 0 by lia.
    by replace (length history + 1 - MAX_INBOX_EVENTS) with 0 by lia.
Qed.

(** Every inbox holds at most [MAX_INBOX_EVENTS] envelopes. *)
Definition router_wf (r : MessageRouter) : Prop :=
  ∀ app_id inbox, mr_inboxes r !! app_id = Some inbox ->
    (length (in_events inbox) <= MAX_INBOX_EVENTS)%nat.

Lemma inbox_push_bounded inbox view :
  (length (in_events inbox) <= MAX_INBOX_EVENTS)%nat ->
  (length (in_events (inbox_push inbox view)) <= MAX_INBOX_EVENTS)%nat.
Proof.
  intros Hle. unfold inbox_push. case_bool_decide as Hfull; cbn [in_events]; rewrite length_app.
  - destruct (in_events inbox); cbn [length tail] in *; unfold MAX_INBOX_EVENTS in *; lia.
  - cbn [length]. lia.
Qed.

Lemma lookup_deliver_all view inboxes apps app_id :
  NoDup apps ->
  foldl (deliver view) inboxes apps !! app_id =
  if bool_decide (app_id ∈ apps)
  then Some (inbox_push (default EventInbox_empty (inboxes !! app_id)) view)
  else inboxes !! app_id.
Proof.
  revert inboxes. induction apps as [|a apps IH]; intros inboxes Hnd; simpl; [done|].
  apply NoDup_cons in Hnd as [Hn Hnd]. rewrite IH by done. unfold deliver.
  destruct (decide (app_id = a)) as [->|Hne].
  - rewrite (bool_decide_eq_false_2 (a ∈ apps)) by done.
    rewrite bool_decide_eq_true_2 by apply list_elem_of_here. by rewrite lookup_insert_eq.
  - rewrite lookup_insert_ne by done.
    by rewrite (bool_decide_ext (app_id ∈ a :: apps) (app_id ∈ apps))
      by (rewrite elem_of_cons; intuition).
Qed.

Section publish.
Context `{Libraries}.

Lemma installed_ids registry :
  registry_wf registry ->
  (fun installed => m_app_id (ia_manifest installed)) <$> Registry_installed_apps registry
  = btree_keys (r_apps registry).
Proof.
  intros Hwf. unfold Registry_installed_apps, btree_values, btree_keys. rewrite <- list_fmap_compose.
  apply list_fmap_ext. intros i [k app] Hi%list_elem_of_lookup_2. simpl.
  apply elem_of_btree_list in Hi. by destruct (Hwf k app Hi).
Qed.

Lemma subscribers_nodup registry topic : registry_wf registry -> NoDup (subscribers registry topic).
Proof.
  intros Hwf. unfold subscribers. rewrite installed_ids by done.
  apply NoDup_ListNoDup, List.NoDup_filter, NoDup_ListNoDup, btree_keys_nodup.
Qed.

Lemma elem_of_subscribers registry topic app_id :
  registry_wf registry ->
  app_id ∈ subscribers registry topic <-> Registry_is_subscribed registry app_id topic = true.
Proof.
  intros Hwf. unfold subscribers.
  rewrite list_elem_of_In, filter_In, <- list_elem_of_In, installed_ids by done.
  split; [by intros [_ ?]|]. intros Hs. split; [|done]. unfold Registry_is_subscribed in Hs.
  destruct (r_apps registry !! app_id) as [app|] eqn:E; [|done].
  unfold btree_keys. apply list_elem_of_fmap. exists (app_id, app). split; [done|].
  by apply elem_of_btree_list.
Qed.

(** An envelope reaches exactly the apps whose manifest subscribes to its topic:
    their inbox gains it at the end, every other inbox is left as it was. *)
Lemma publish_lookup r view registry app_id :
  registry_wf registry ->
  mr_inboxes (MessageRouter_publish r view registry) !! app_id =
  if Registry_is_subscribed registry app_id (envelope_topic view)
  then Some (inbox_push (default EventInbox_empty (mr_inboxes r !! app_id)) view)
  else mr_inboxes r !! app_id.
Proof.
  intros Hwf. unfold MessageRouter_publish; cbn [mr_inboxes].
  rewrite lookup_deliver_all by by apply subscribers_nodup.
  pose proof (elem_of_subscribers registry (envelope_topic view) app_id Hwf) as Hs.
  destruct (Registry_is_subscribed _ _ _).
  - by rewrite bool_decide_eq_true_2 by by apply Hs.
  - rewrite bool_decide_eq_false_2; [done|]. intros Hin%Hs. done.
Qed.

Lemma publish_data_change_publish r provider resource revision kind registry :
  MessageRouter_publish_data_change r provider resource revision kind registry
  = MessageRouter_publish r (AppDataChanged provider resource revision kind) registry.
Proof. done. Qed.

Lemma foldl_inbox_push_history views history :
  foldl inbox_push (inbox_of_history history) views = inbox_of_history (history ++ views).
Proof.
  revert history. induction views as [|v views IH]; intros history; simpl.
  - by rewrite app_nil_r.
  - rewrite inbox_push_history, IH. by rewrite <- app_assoc.
Qed.

Lemma publish_batch_lookup r views registry app_id inbox :
  registry_wf registry -> mr_inboxes r !! app_id = Some inbox ->
  mr_inboxes (MessageRouter_publish_batch r views registry) !! app_id =
  Some (foldl inbox_push inbox (List.filter (fun view =>
    Registry_is_subscribed registry app_id (envelope_topic view)) views)).
Proof.
  intros Hwf. revert r inbox. induction views as [|v views IH]; intros r inbox Hr; simpl; [done|].
  pose proof (publish_lookup r v registry app_id Hwf) as Hp. rewrite Hr in Hp. simpl in Hp.
  destruct (Registry_is_subscribed _ _ _); simpl; by apply IH.
Qed.

(** Publishing a batch refines the abstract inbox: an inbox that holds the tail
    of a history afterwards holds the tail of that history extended by exactly the
    envelopes of the batch its app subscribes to, in order, and counts the rest as
    dropped. *)
Theorem publish_batch_refines_history r views registry app_id history :
  registry_wf registry ->
  mr_inboxes r !! app_id = Some (inbox_of_history history) ->
  mr_inboxes (MessageRouter_publish_batch r views registry) !! app_id =
  Some (inbox_of_history (history ++ List.filter (fun view =>
    Registry_is_subscribed registry app_id (envelope_topic view)) views)).
Proof.
  intros Hwf Hr. rewrite (publish_batch_lookup r views registry app_id _ Hwf Hr).
  by rewrite foldl_inbox_push_history.
Qed.

Lemma router_wf_publish r view registry :
  registry_wf registry -> router_wf r -> router_wf (MessageRouter_publish r view registry).
Proof.
  intros Hwf Hr app_id inbox. rewrite publish_lookup by done.
  destruct (Registry_is_subscribed _ _ _); [|by apply Hr]. intros [= <-].
  apply inbox_push_bounded. destruct (mr_inboxes r !! app_id) eqn:E; simpl; [by eapply Hr|lia].
Qed.

Lemma router_wf_publish_batch r views registry :
  registry_wf registry -> router_wf r -> router_wf (MessageRouter_publish_batch r views registry).
Proof.
  intros Hwf. revert r. induction views as [|v views IH]; intros r Hr; simpl; [done|].
  by apply IH, router_wf_publish.
Qed.

End publish.

Lemma router_wf_new : router_wf MessageRouter_new.
Proof. intros k i. simpl. by rewrite lookup_empty. Qed.

Lemma router_wf_drain r app_id registry events r' :
  router_wf r -> MessageRouter_drain_inbox r app_id registry = Ok (events, r') -> router_wf r'.
Proof.
  unfold MessageRouter_drain_inbox. intros Hr Hd. inv_ok Hd. destruct (mr_inboxes r !! app_id) eqn:E.
  - simplify_eq. intros k i; simpl. intros [[<- <-]|[_ ?]]%lookup_insert_Some; simpl; [lia|by eapply Hr].
  - by simplify_eq.
Qed.

Lemma router_wf_discard r app_id : router_wf r -> router_wf (MessageRouter_discard_inbox r app_id).
Proof. intros Hr k i; simpl. intros [_ ?]%lookup_delete_Some. by eapply Hr. Qed.

(** ** Leases *)

(** Leases are filed under their id, and at time [t] no two live leases cover the
    same target. *)
Record leases_exclusive (t : DateTime) (m : LeaseManager) : Prop := {
  lx_key : ∀ id l, lm_leases m !! id = Some l -> le_lease_id l = id;
  lx_excl : ∀ i j li lj, lm_leases m !! i = Some li -> lm_leases m !! j = Some lj ->
    le_target li = le_target lj -> Lease_is_expired li t = false ->
    Lease_is_expired lj t = false -> i = j;
}.

Lemma leases_exclusive_later t t' m :
  (t <= t')%Z -> leases_exclusive t m -> leases_exclusive t' m.
Proof.
  intros Ht [Hk He]. split; [done|]. unfold Lease_is_expired in *.
  intros i j li lj Hi Hj Hl Hli Hlj. apply Z.leb_gt in Hli, Hlj.
  apply (He i j li lj Hi Hj Hl); apply Z.leb_gt; lia.
Qed.

Lemma leases_exclusive_sub t (m m' : LeaseManager) :
  lm_leases m' ⊆ lm_leases m -> leases_exclusive t m -> leases_exclusive t m'.
Proof.
  intros Hs [Hk He]. split.
  - intros id l Hl. by eapply Hk, lookup_weaken.
  - intros i j li lj Hi Hj. apply He; by eapply lookup_weaken.
Qed.

Lemma leases_exclusive_insert t m l :
  leases_exclusive t m ->
  (∀ j lj, lm_leases m !! j = Some lj -> le_target lj = le_target l ->
    Lease_is_expired lj t = false -> j = le_lease_id l) ->
  leases_exclusive t {| lm_leases := <[le_lease_id l := l]> (lm_leases m) |}.
Proof.
  intros [Hk He] Hl. split; simpl.
  - intros id l'. intros [[<- <-]|[_ ?]]%lookup_insert_Some; [done|by apply Hk].
  - intros i j li lj [[<- <-]|[Hi' Hi]]%lookup_insert_Some [[<- <-]|[Hj' Hj]]%lookup_insert_Some
      Ht Hli Hlj; try done.
    + symmetry. by apply (Hl j lj).
    + by apply (Hl i li).
    + by apply (He i j li lj).
Qed.

Lemma retain_sub {A} (p : string -> A -> bool) (m : gmap string A) : btree_retain p m ⊆ m.
Proof.
  apply map_subseteq_spec. intros k v. rewrite lookup_btree_retain.
  destruct (m !! k); simpl; [|done]. by destruct (p k a).
Qed.

Ltac insert_lease Hx :=
  match goal with
  | |- leases_exclusive _ {| lm_leases := <[_ := ?l]> _ |} =>
      apply (leases_exclusive_insert _ _ l Hx); simpl
  end.

Section lease_facts.
Context {W : Type} `{Libraries, Environment W}.

Lemma live_holder_Some m target t l :
  live_holder m target t = Some l ->
  ∃ id, lm_leases m !! id = Some l /\ le_target l = target /\ Lease_is_expired l t = false.
Proof.
  unfold live_holder. intros [Hin Hp]%find_Some_elem. apply elem_of_btree_values in Hin as [id Hid].
  apply andb_true_iff in Hp as [Ht%bool_decide_eq_true Hx%negb_true_iff]. eauto.
Qed.

Lemma live_holder_None m target t id l :
  live_holder m target t = None -> lm_leases m !! id = Some l -> le_target l = target ->
  Lease_is_expired l t = true.
Proof.
  unfold live_holder. rewrite find_None_elem. intros Hn Hl Ht.
  specialize (Hn l). rewrite elem_of_btree_values in Hn. specialize (Hn (ex_intro _ id Hl)).
  apply andb_false_iff in Hn as [Hn|Hn]; [by apply bool_decide_eq_false in Hn|].
  by apply negb_false_iff.
Qed.

(** Advisory locking: acquiring keeps the leases exclusive at the moment the
    holder is looked up, a live lease of another run is reported as the conflict and
    left in place, and a returned lease belongs to the caller and ends [duration]
    after the call's first clock reading. *)
Theorem LeaseManager_acquire_exclusive run_id target duration m w r m' w' :
  let now := (env_now w).1 in
  let later := (env_now (env_now w).2).1 in
  leases_exclusive later m ->
  LeaseManager_acquire run_id target duration (m, w) = (Ok r, (m', w')) ->
  leases_exclusive later m' /\
  match r with
  | Conflict holder =>
      le_run_id holder ≠ run_id /\ le_target holder = target /\
      Lease_is_expired holder later = false /\ lm_leases m' !! le_lease_id holder = Some holder
  | Acquired l =>
      le_run_id l = run_id /\ le_target l = target /\ le_expires_at l = (now + duration)%Z /\
      lm_leases m' !! le_lease_id l = Some l
  end.
Proof.
  intros now later Hx Ha. unfold LeaseManager_acquire in Ha.
  destruct (duration <=? 0)%Z; [done|]. subst now later.
  destruct (env_now w) as [now w1]; simpl in *. destruct (env_now w1) as [later w2]; simpl in *.
  set (m1 := LeaseManager_evict_expired m now) in Ha.
  assert (leases_exclusive later m1) as Hx1 by (eapply leases_exclusive_sub; [apply retain_sub|done]).
  destruct (live_holder m1 target later) as [h|] eqn:Hh.
  - apply live_holder_Some in Hh as (id & Hid & Ht & He). pose proof (lx_key _ _ Hx1 _ _ Hid) as Hk.
    case_bool_decide as Hr; simpl in Ha.
    + unfold datetime_add in Ha. destruct (now + duration <=? max_utc)%Z; simplify_eq. simpl.
      split; [|by rewrite lookup_insert_eq].
      insert_lease Hx1. intros j lj Hj Htj Hej.
      by apply (lx_excl _ _ Hx1 j _ lj h).
    + simplify_eq. done.
  - destruct (env_uuid w2) as [u w3]. unfold datetime_add in Ha.
    destruct (now + duration <=? max_utc)%Z; simplify_eq. simpl. split; [|by rewrite lookup_insert_eq].
    insert_lease Hx1. intros j lj Hj Htj Hej.
    by rewrite (live_holder_None _ _ _ _ _ Hh Hj Htj) in Hej.
Qed.

Lemma LeaseManager_release_exclusive t m id m' :
  leases_exclusive t m -> LeaseManager_release m id = Ok m' -> leases_exclusive t m'.
Proof.
  intros Hx Hr. unfold LeaseManager_release in Hr. case_match; simplify_eq.
  eapply leases_exclusive_sub; [|done]. apply delete_subseteq.
Qed.

Lemma LeaseManager_release_all_exclusive t m run_id :
  leases_exclusive t m -> leases_exclusive t (LeaseManager_release_all_for_run m run_id).
Proof. apply leases_exclusive_sub, retain_sub. Qed.

End lease_facts.
