(* ===== verification/Invocation.v ===== *)
(** * Invocation contract

    [invocation.rs]: what a capability handler receives and returns, cooperative
    cancellation and rate-limited progress reports.

    An [Arc<AtomicBool>] shared by several owners is a location in a heap of
    flags: every clone of a handle names the same location. *)

From S2P Require Import Prelude RustStd Json Types Errors Grants Manifest Platform Broker Artifacts.

(** ** Shared flags *)

Abbreviation Flag := nat (only parsing).
Abbreviation Flags := (list bool) (only parsing).

(** [Arc::new(AtomicBool::new(false))]. *)
Definition flag_new (flags : Flags) : Flag * Flags := (length flags, flags ++ [false]).

(** [flag.load(Acquire)]. *)
Definition flag_load (flags : Flags) (flag : Flag) : bool := default false (flags !! flag).

(** [flag.store(true, Release)]. *)
Definition flag_raise (flags : Flags) (flag : Flag) : Flags := <[flag := true]> flags.

(** ** Cancellation *)

Record CancellationHandle := { ch_cancelled : Flag; ch_deadline : Z }.

(** [CancellationHandle::cancel]. *)
Definition CancellationHandle_cancel (h : CancellationHandle) (flags : Flags) : Flags :=
  flag_raise flags (ch_cancelled h).

(** [CancellationHandle::is_cancelled]. *)
Definition CancellationHandle_is_cancelled {W} `{Environment W} (h : CancellationHandle)
    (flags : Flags) (w : W) : bool * Flags * W :=
  let '(now, w) := env_instant w in
  let flags := if (ch_deadline h <=? now)%Z then CancellationHandle_cancel h flags else flags in
  (flag_load flags (ch_cancelled h), flags, w).

(** ** Handlers *)

(** What a handler may know; [progress] is handed over separately, as it carries
    nothing back into the kernel. *)
Record InvocationContext := {
  ic_run_id : RunId;
  ic_invoked_by : AppId;
  ic_invoked_by_version : string;
  ic_invoked_by_content_hash : string;
  ic_authorized_data_scope : DataScope;
  ic_secrets : SecretResolver;
  ic_artifacts : ArtifactSnapshotResolver;
  ic_cancellation : CancellationHandle;
}.

Record CapabilityOutcome := { co_result : Value; co_artifacts : list ArtifactDraft }.

Record InvocationRequest := { ir_input : JsonObject; ir_data_scope : DataScope }.

Record HandlerFailure := { hf_error : string }.

(** The payload of an unwinding panic. *)
Inductive PanicPayload := PanicStr (message : string) | PanicString (message : string) | PanicOther.

Inductive HandlerReturn :=
  | HandlerOk (outcome : CapabilityOutcome)
  | HandlerErr (failure : HandlerFailure)
  | HandlerPanic (payload : PanicPayload).

(** A handler runs in the host's world. Besides its return it may have raised its
    own cancellation flag, the only kernel-visible object it can write. *)
Definition CapabilityHandler (W : Type) : Type :=
  JsonObject -> InvocationContext -> W -> HandlerReturn * bool * W.

Inductive RefusalReason :=
  | RefNoGrant | RefGrantExpired | RefGrantRevoked | RefApprovalDenied | RefCancelled.

#[export] Instance RefusalReason_eq_dec : EqDecision RefusalReason.
Proof. solve_decision. Defined.

Inductive InvocationResult :=
  | ResCompleted (result : Value) (artifacts : list Artifact)
  | ResRefused (reason : RefusalReason)
  | ResFailed (error : string).

(** ** Progress *)

Definition MAX_PROGRESS_EVENT_BYTES : nat := 64 * 1024.
Definition MAX_PROGRESS_KIND_BYTES : nat := 64.

(** 8,333 microseconds. *)
Definition MIN_PROGRESS_INTERVAL : Z := 8333000.

Inductive ProgressReportStatus := Emitted | Invalid | Oversized | ConsumerGone.

#[export] Instance ProgressReportStatus_eq_dec : EqDecision ProgressReportStatus.
Proof. solve_decision. Defined.

(** The sink of a reporter; [false] is [Err(())]. *)
Record ProgressReporter (W : Type) := {
  pr_report : Value -> W -> bool * W;
  pr_last_emitted : option Z;
  pr_cancellation : option CancellationHandle;
}.
Arguments pr_report {W} _.
Arguments pr_last_emitted {W} _.
Arguments pr_cancellation {W} _.

(** [ProgressReporter::new_checked]. *)
Definition ProgressReporter_new_checked {W} (report : Value -> W -> bool * W) : ProgressReporter W :=
  {| pr_report := report; pr_last_emitted := None; pr_cancellation := None |}.

(** [ProgressReporter::default]. *)
Definition ProgressReporter_default {W} : ProgressReporter W :=
  ProgressReporter_new_checked (fun _ w => (true, w)).

(** [ProgressReporter::with_cancellation]. *)
Definition ProgressReporter_with_cancellation {W} (p : ProgressReporter W) (h : CancellationHandle)
    : ProgressReporter W :=
  {| pr_report := pr_report p; pr_last_emitted := pr_last_emitted p; pr_cancellation := Some h |}.

Section progress.
Context {W : Type} `{Libraries, Environment W}.
(** [std::thread::sleep]. *)
Context (thread_sleep : Z -> W -> W).

Definition valid_kind (value : Value) : bool :=
  match Value_get value "kind" ≫= Value_as_str with
  | Some kind => negb (bool_decide (kind = EmptyString))
                 && (String.length kind <=? MAX_PROGRESS_KIND_BYTES)%nat
  | None => false
  end.

Definition oversized (value : Value) : bool :=
  match json_to_vec value with
  | Ok bytes => (MAX_PROGRESS_EVENT_BYTES <? String.length bytes)%nat
  | _ => true
  end.

(** How long [report] sleeps: [MIN_PROGRESS_INTERVAL.checked_sub(elapsed)]. *)
Definition remaining_pause (last now : Z) : option Z :=
  let elapsed := Z.max 0 (now - last) in
  if (elapsed <=? MIN_PROGRESS_INTERVAL)%Z then Some (MIN_PROGRESS_INTERVAL - elapsed)%Z else None.

(** [ProgressReporter::report]. *)
Definition ProgressReporter_report (p : ProgressReporter W) (value : Value) (flags : Flags) (w : W)
    : ProgressReportStatus * ProgressReporter W * Flags * W :=
  if negb (Value_is_object value) || negb (valid_kind value) then (Invalid, p, flags, w)
  else if oversized value then (Oversized, p, flags, w)
  else
    let w :=
      match pr_last_emitted p with
      | Some last =>
          let '(now, w) := env_instant w in
          match remaining_pause last now with
          | Some remaining => thread_sleep remaining w
          | None => w
          end
      | None => w
      end in
    let '(now, w) := env_instant w in
    let p := {| pr_report := pr_report p; pr_last_emitted := Some now;
                pr_cancellation := pr_cancellation p |} in
    let '(delivered, w) := pr_report p value w in
    if delivered then (Emitted, p, flags, w)
    else
      let flags := match pr_cancellation p with
                   | Some h => CancellationHandle_cancel h flags
                   | None => flags
                   end in
      (ConsumerGone, p, flags, w).

(** ** Pacing *)

(** The monotonic clock never goes back, and sleeping takes at least as long as
    asked. *)
Context (instant_monotone : ∀ w, ((env_instant w).1 <= (env_instant (env_instant w).2).1)%Z).
Context (sleep_sleeps : ∀ d w, (0 <= d)%Z ->
  ((env_instant w).1 + d <= (env_instant (thread_sleep d (env_instant w).2)).1)%Z).

(** Progress is rate limited: a report either leaves the reporter untouched
    (rejected as invalid or oversized) or is emitted at least [MIN_PROGRESS_INTERVAL]
    after the previous one, and a lost consumer raises the cancellation flag of the
    invocation. *)
Theorem ProgressReporter_report_paced p value flags w last :
  pr_last_emitted p = Some last -> (last <= (env_instant w).1)%Z ->
  let '(status, p', flags', _) := ProgressReporter_report p value flags w in
  match status with
  | Invalid | Oversized => p' = p /\ flags' = flags
  | Emitted | ConsumerGone =>
      (∃ now, pr_last_emitted p' = Some now /\ last + MIN_PROGRESS_INTERVAL <= now)%Z /\
      (status = ConsumerGone -> ∀ h, pr_cancellation p = Some h -> (ch_cancelled h < length flags)%nat ->
        flag_load flags' (ch_cancelled h) = true)
  end.
Proof.
  intros Hlast Hle. unfold ProgressReporter_report.
  destruct (_ || _); [done|]. destruct (oversized value); [done|]. rewrite Hlast.
  pose proof (instant_monotone w) as Hmono.
  assert (∀ d, (0 <= d)%Z -> ((env_instant w).1 + d <=
    (env_instant (thread_sleep d (env_instant w).2)).1)%Z) as Hsleep by (intros; by apply sleep_sleeps).
  destruct (env_instant w) as [now w1]; cbn [fst snd] in *.
  set (w2 := match remaining_pause last now with Some _ => _ | None => _ end).
  assert (last + MIN_PROGRESS_INTERVAL <= (env_instant w2).1)%Z as Hpace.
  { subst w2. unfold remaining_pause. destruct (_ <=? _)%Z eqn:E.
    - apply Z.leb_le in E. specialize (Hsleep (MIN_PROGRESS_INTERVAL - Z.max 0 (now - last))%Z).
      lia.
    - apply Z.leb_gt in E. lia. }
  destruct (env_instant w2) as [t w3]; cbn [fst] in *. cbn [pr_report].
  destruct (pr_report p value w3) as [[] w4]; cbn.
  - split; [by eexists|done].
  - split; [by eexists|]. intros _ h -> Hh. unfold flag_load, CancellationHandle_cancel, flag_raise.
    by rewrite list_lookup_insert_eq.
Qed.

End progress.
