(* ===== verification/Durable.v ===== *)
(** * Persistence port

    [durable.rs]: the durable projection of the kernel, the outcome of a commit,
    the store the host implements and the in-memory store of the tests. *)

From S2P Require Import Prelude RustStd Json Types Errors Grants Manifest Platform Ledger Registry.

Record DurableKernelState := {
  dk_installed_apps : list InstalledApp;
  dk_grants : list Grant;
  dk_revoked_grant_ids : list GrantId;
  dk_ledger_records : list LedgerRecord;
  dk_artifacts : list Artifact;
}.

#[export] Instance DurableKernelState_eq_dec : EqDecision DurableKernelState.
Proof. solve_decision. Defined.

(** [DurableKernelState::empty]. *)
Definition DurableKernelState_empty : DurableKernelState :=
  {| dk_installed_apps := []; dk_grants := []; dk_revoked_grant_ids := [];
     dk_ledger_records := []; dk_artifacts := [] |}.

Inductive CommitOutcome :=
  | Committed
  | NotCommitted (error : string)
  | Indeterminate (error : string).

(** The trait [KernelStateStore]. *)
Class KernelStateStore (S : Type) := {
  store_load : S -> outcome string (option DurableKernelState);
  store_commit : DurableKernelState -> S -> CommitOutcome * S;
}.

(** What the variants of [CommitOutcome] promise of the next [load]. *)
Class KernelStateStoreLaws (S : Type) `{KernelStateStore S} : Prop := {
  commit_committed : ∀ d s s',
    store_commit d s = (Committed, s') -> store_load s' = Ok (Some d);
  commit_not_committed : ∀ d s s' e,
    store_commit d s = (NotCommitted e, s') -> store_load s' = store_load s;
  commit_indeterminate : ∀ d s s' e,
    store_commit d s = (Indeterminate e, s') ->
    store_load s' = store_load s \/ store_load s' = Ok (Some d);
}.

(** [MemoryKernelStateStore]. *)
Record MemoryKernelStateStore := { ms_state : option DurableKernelState }.

#[export] Instance MemoryKernelStateStore_store : KernelStateStore MemoryKernelStateStore := {
  store_load s := Ok (ms_state s);
  store_commit state _ := (Committed, {| ms_state := Some state |});
}.

#[export] Instance MemoryKernelStateStore_laws : KernelStateStoreLaws MemoryKernelStateStore.
Proof. split; simpl; intros; by simplify_eq. Qed.
