(* ===== verification/KernelState.v ===== *)
(** * Kernel state and its commit discipline

    [kernel.rs]: the struct [Kernel], the phase tokens, and the internal functions
    every operation goes through to change durable state: [event_view],
    [commit_parts], [record], [record_batch], [commit_completion] and the
    bookkeeping of pending invocations. *)

From S2P Require Import Prelude RustStd Json Types Errors Grants Manifest Platform Ledger Registry.
From S2P Require Import Broker Artifacts Surfaces Router Invocation Durable.

(** ** Pending invocations and tokens *)

Inductive PendingInvocationState := PreparedForApproval | AuthorizedForExecution.

#[export] Instance PendingInvocationState_eq_dec : EqDecision PendingInvocationState.
Proof. solve_decision. Defined.

Record PendingInvocation := {
  pi_run_id : RunId;
  pi_acting_app : AppId;
  pi_capability : CapabilityRef;
  pi_grant : Grant;
  pi_requested_data_scope : DataScope;
  pi_provider_content_hash : string;
  pi_output_schema : option JsonObject;
  pi_input : JsonObject;
  pi_cancelled : Flag;
  pi_deadline : Z;
  pi_state : PendingInvocationState;
}.

(** Tokens are affine in Rust: each phase consumes the previous token, and a token
    that is dropped while [cancel_on_drop] is set raises the flag. The operations
    below apply that drop at the end of the calls that do not hand on a token. *)
Record PreparedInvocation := {
  ppi_id : N;
  ppi_approval : option CapabilityApprovalPrompt;
  ppi_cancelled : Flag;
}.

Record ApprovalResult := {
  apr_id : N;
  apr_decision : option ApprovalDecision;
  apr_cancelled : Flag;
}.

Record AuthorizedInvocation (W : Type) := {
  aui_id : N;
  aui_handler : CapabilityHandler W;
  aui_input : JsonObject;
  aui_context : InvocationContext;
  aui_cancelled : Flag;
}.
Arguments aui_id {W} _.
Arguments aui_handler {W} _.
Arguments aui_input {W} _.
Arguments aui_context {W} _.
Arguments aui_cancelled {W} _.

Record ExecutedInvocation := {
  exi_id : N;
  exi_outcome : option (CapabilityOutcome + HandlerFailure);
  exi_panic : option string;
  exi_cancelled_before_dispatch : bool;
  exi_cancelled : Flag;
}.

Inductive PrepareInvocation :=
  | Prepared (token : PreparedInvocation)
  | PrepareRefused (result : InvocationResult).

Inductive AuthorizeInvocation (W : Type) :=
  | Authorized (token : AuthorizedInvocation W)
  | AuthorizeRefused (result : InvocationResult).
Arguments Authorized {W} token.
Arguments AuthorizeRefused {W} result.

(** ** The kernel *)

Abbreviation Handlers W := (gmap CapabilityName (CapabilityHandler W)) (only parsing).

(** Besides the fields of the struct: [k_world], the host's world the clock, the
    chrome and the random source live in; [k_chrome], the identity of the chrome
    object ([Arc::ptr_eq]); [k_next_invocation_id], the process-wide counter
    [NEXT_INVOCATION_ID]; and [k_flags], the heap of cancellation flags. *)
Record Kernel (W S : Type) := {
  k_registry : Registry;
  k_ledger : RunLedger;
  k_broker : PermissionBroker;
  k_surfaces : SurfaceManager;
  k_router : MessageRouter;
  k_leases : LeaseManager;
  k_artifacts : ArtifactStore;
  k_handlers : gmap AppId (Handlers W);
  k_pending_invocations : gmap N PendingInvocation;
  k_state_store : option S;
  k_recovery_required : bool;
  k_chrome : N;
  k_next_invocation_id : N;
  k_flags : Flags;
  k_world : W;
}.
Arguments k_registry {W S} _.
Arguments k_ledger {W S} _.
Arguments k_broker {W S} _.
Arguments k_surfaces {W S} _.
Arguments k_router {W S} _.
Arguments k_leases {W S} _.
Arguments k_artifacts {W S} _.
Arguments k_handlers {W S} _.
Arguments k_pending_invocations {W S} _.
Arguments k_state_store {W S} _.
Arguments k_recovery_required {W S} _.
Arguments k_chrome {W S} _.
Arguments k_next_invocation_id {W S} _.
Arguments k_flags {W S} _.
Arguments k_world {W S} _.

Section setters.
Context {W S : Type}.
Implicit Types (k : Kernel W S).

Definition set_registry (x : Registry) k : Kernel W S :=
  Build_Kernel W S x (k_ledger k) (k_broker k) (k_surfaces k) (k_router k) (k_leases k)
    (k_artifacts k) (k_handlers k) (k_pending_invocations k) (k_state_store k)
    (k_recovery_required k) (k_chrome k) (k_next_invocation_id k) (k_flags k) (k_world k).
Definition set_ledger (x : RunLedger) k : Kernel W S :=
  Build_Kernel W S (k_registry k) x (k_broker k) (k_surfaces k) (k_router k) (k_leases k)
    (k_artifacts k) (k_handlers k) (k_pending_invocations k) (k_state_store k)
    (k_recovery_required k) (k_chrome k) (k_next_invocation_id k) (k_flags k) (k_world k).
Definition set_broker (x : PermissionBroker) k : Kernel W S :=
  Build_Kernel W S (k_registry k) (k_ledger k) x (k_surfaces k) (k_router k) (k_leases k)
    (k_artifacts k) (k_handlers k) (k_pending_invocations k) (k_state_store k)
    (k_recovery_required k) (k_chrome k) (k_next_invocation_id k) (k_flags k) (k_world k).
Definition set_surfaces (x : SurfaceManager) k : Kernel W S :=
  Build_Kernel W S (k_registry k) (k_ledger k) (k_broker k) x (k_router k) (k_leases k)
    (k_artifacts k) (k_handlers k) (k_pending_invocations k) (k_state_store k)
    (k_recovery_required k) (k_chrome k) (k_next_invocation_id k) (k_flags k) (k_world k).
Definition set_router (x : MessageRouter) k : Kernel W S :=
  Build_Kernel W S (k_registry k) (k_ledger k) (k_broker k) (k_surfaces k) x (k_leases k)
    (k_artifacts k) (k_handlers k) (k_pending_invocations k) (k_state_store k)
    (k_recovery_required k) (k_chrome k) (k_next_invocation_id k) (k_flags k) (k_world k).
Definition set_leases (x : LeaseManager) k : Kernel W S :=
  Build_Kernel W S (k_registry k) (k_ledger k) (k_broker k) (k_surfaces k) (k_router k) x
    (k_artifacts k) (k_handlers k) (k_pending_invocations k) (k_state_store k)
    (k_recovery_required k) (k_chrome k) (k_next_invocation_id k) (k_flags k) (k_world k).
Definition set_artifacts (x : ArtifactStore) k : Kernel W S :=
  Build_Kernel W S (k_registry k) (k_ledger k) (k_broker k) (k_surfaces k) (k_router k)
    (k_leases k) x (k_handlers k) (k_pending_invocations k) (k_state_store k)
    (k_recovery_required k) (k_chrome k) (k_next_invocation_id k) (k_flags k) (k_world k).
Definition set_handlers (x : gmap AppId (Handlers W)) k : Kernel W S :=
  Build_Kernel W S (k_registry k) (k_ledger k) (k_broker k) (k_surfaces k) (k_router k)
    (k_leases k) (k_artifacts k) x (k_pending_invocations k) (k_state_store k)
    (k_recovery_required k) (k_chrome k) (k_next_invocation_id k) (k_flags k) (k_world k).
Definition set_pending_invocations (x : gmap N PendingInvocation) k : Kernel W S :=
  Build_Kernel W S (k_registry k) (k_ledger k) (k_broker k) (k_surfaces k) (k_router k)
    (k_leases k) (k_artifacts k) (k_handlers k) x (k_state_store k) (k_recovery_required k)
    (k_chrome k) (k_next_invocation_id k) (k_flags k) (k_world k).
Definition set_state_store (x : option S) k : Kernel W S :=
  Build_Kernel W S (k_registry k) (k_ledger k) (k_broker k) (k_surfaces k) (k_router k)
    (k_leases k) (k_artifacts k) (k_handlers k) (k_pending_invocations k) x
    (k_recovery_required k) (k_chrome k) (k_next_invocation_id k) (k_flags k) (k_world k).
Definition set_recovery_required (x : bool) k : Kernel W S :=
  Build_Kernel W S (k_registry k) (k_ledger k) (k_broker k) (k_surfaces k) (k_router k)
    (k_leases k) (k_artifacts k) (k_handlers k) (k_pending_invocations k) (k_state_store k) x
    (k_chrome k) (k_next_invocation_id k) (k_flags k) (k_world k).
Definition set_next_invocation_id (x : N) k : Kernel W S :=
  Build_Kernel W S (k_registry k) (k_ledger k) (k_broker k) (k_surfaces k) (k_router k)
    (k_leases k) (k_artifacts k) (k_handlers k) (k_pending_invocations k) (k_state_store k)
    (k_recovery_required k) (k_chrome k) x (k_flags k) (k_world k).
Definition set_flags (x : Flags) k : Kernel W S :=
  Build_Kernel W S (k_registry k) (k_ledger k) (k_broker k) (k_surfaces k) (k_router k)
    (k_leases k) (k_artifacts k) (k_handlers k) (k_pending_invocations k) (k_state_store k)
    (k_recovery_required k) (k_chrome k) (k_next_invocation_id k) x (k_world k).
Definition set_world (x : W) k : Kernel W S :=
  Build_Kernel W S (k_registry k) (k_ledger k) (k_broker k) (k_surfaces k) (k_router k)
    (k_leases k) (k_artifacts k) (k_handlers k) (k_pending_invocations k) (k_state_store k)
    (k_recovery_required k) (k_chrome k) (k_next_invocation_id k) (k_flags k) x.

End setters.

(** A kernel method: [&mut self] (or [&self], when only atomics, the store or the
    world change). *)
Abbreviation kernel_m W S := (st (Kernel W S) KernelError) (only parsing).

Section kernel.
Context {W S : Type} `{Libraries, Environment W, TrustedChrome W, KernelStateStore S}.
Implicit Types (k : Kernel W S).

(** A call into the clock, the random source or a service that uses them. *)
Definition on_world {A} (m : st W KernelError A) : st (Kernel W S) KernelError A := fun k =>
  let '(r, w) := m (k_world k) in (r, set_world w k).

(** [Kernel::with_clock]. *)
Definition Kernel_with_clock (chrome : N) (next_invocation_id : N) (w : W) : Kernel W S := {|
  k_registry := Registry_new;
  k_ledger := RunLedger_new;
  k_broker := PermissionBroker_new;
  k_surfaces := SurfaceManager_new;
  k_router := MessageRouter_new;
  k_leases := LeaseManager_new;
  k_artifacts := ArtifactStore_new;
  k_handlers := ∅;
  k_pending_invocations := ∅;
  k_state_store := None;
  k_recovery_required := false;
  k_chrome := chrome;
  k_next_invocation_id := next_invocation_id;
  k_flags := [];
  k_world := w;
|}.

(** [Kernel::event_view]. *)
Definition event_view (event : LedgerEvent) k : KernelResult AppEventEnvelope :=
  actor ← match event with
          | RunStarted _ initiator _ => Ok (Initiator_app_id initiator)
          | _ => view ← run_view (k_ledger k) (event_run_id event); Ok (RunView_initiating_app view)
          end;
  Ok (AppEventEnvelope_from_event event actor).

(** The durable projection [commit_parts] hands to the store. *)
Definition durable_state (registry : Registry) (ledger : RunLedger) (broker : PermissionBroker)
    (artifacts : ArtifactStore) : DurableKernelState := {|
  dk_installed_apps := Registry_installed_apps registry;
  dk_grants := durable_grants broker;
  dk_revoked_grant_ids := durable_revocations broker;
  dk_ledger_records := l_records ledger;
  dk_artifacts := ArtifactStore_all artifacts;
|}.

(** [Kernel::commit_parts]. *)
Definition commit_parts (registry : Registry) (ledger : RunLedger) (broker : PermissionBroker)
    (artifacts : ArtifactStore) : st (Kernel W S) KernelError unit := fun k =>
  if k_recovery_required k
  then (Err (Durability "kernel recovery required after an unresolved durable transition; restart the host"), k)
  else
    match k_state_store k with
    | None => (Ok tt, k)
    | Some store =>
        let '(committed, store') := store_commit (durable_state registry ledger broker artifacts) store in
        let k := set_state_store (Some store') k in
        match committed with
        | Committed => (Ok tt, k)
        | NotCommitted error => (Err (Durability error), k)
        | Indeterminate error =>
            (Err (Durability (error
               ++ "; durable commit outcome is indeterminate and kernel recovery is required")),
             set_recovery_required true k)
        end
    end.

(** [Kernel::record]. *)
Definition record (event : LedgerEvent) : st (Kernel W S) KernelError LedgerRecord := fun k =>
  (view ← st_lift (event_view event k);
   '(rec, ledger) ← on_world (RunLedger_append (k_ledger k) event);
   _ ← commit_parts (k_registry k) ledger (k_broker k) (k_artifacts k);
   _ ← st_modify (set_ledger ledger);
   _ ← st_modify (fun k => set_router (MessageRouter_publish (k_router k) view (k_registry k)) k);
   mret rec) k.

(** [Kernel::record_batch]. *)
Definition record_batch (events : list LedgerEvent) : st (Kernel W S) KernelError unit := fun k =>
  (views ← st_lift (map_ok (fun event => event_view event k) events);
   '(_, ledger) ← on_world (RunLedger_append_batch (k_ledger k) events);
   _ ← commit_parts (k_registry k) ledger (k_broker k) (k_artifacts k);
   _ ← st_modify (set_ledger ledger);
   st_modify (fun k => set_router (MessageRouter_publish_batch (k_router k) views (k_registry k)) k)) k.

(** [Kernel::commit_completion]. *)
Definition commit_completion (events : list LedgerEvent) (produced : list Artifact)
    : st (Kernel W S) KernelError unit := fun k =>
  (views ← st_lift (map_ok (fun event => event_view event k) events);
   '(_, ledger) ← on_world (RunLedger_append_batch (k_ledger k) events);
   let artifacts := ArtifactStore_put_all (k_artifacts k) produced in
   _ ← commit_parts (k_registry k) ledger (k_broker k) artifacts;
   _ ← st_modify (set_ledger ledger);
   _ ← st_modify (set_artifacts artifacts);
   st_modify (fun k => set_router (MessageRouter_publish_batch (k_router k) views (k_registry k)) k)) k.

(** [Kernel::require_recovery_after_consumed_transition]. *)
Definition require_recovery_after_consumed_transition : st (Kernel W S) KernelError unit :=
  st_modify (fun k => match k_state_store k with
                      | Some _ => set_recovery_required true k
                      | None => k
                      end).

(** ** Pending invocations *)

Definition raise_flag (flag : Flag) k : Kernel W S := set_flags (flag_raise (k_flags k) flag) k.

Definition raise_all (flags : Flags) (pendings : list PendingInvocation) : Flags :=
  foldl (fun flags pending => flag_raise flags (pi_cancelled pending)) flags pendings.

Definition raise_matching (p : PendingInvocation -> bool) k : Kernel W S :=
  set_flags (raise_all (k_flags k) (List.filter p (btree_values (k_pending_invocations k)))) k.

Definition remove_pending (id : N) k : Kernel W S :=
  set_pending_invocations (delete id (k_pending_invocations k)) k.

Definition remove_pending_matching (p : PendingInvocation -> bool) k : Kernel W S :=
  let k := raise_matching p k in
  set_pending_invocations
    (btree_retain (fun _ pending => negb (p pending)) (k_pending_invocations k)) k.

Definition pending_in_run (run_id : RunId) (pending : PendingInvocation) : bool :=
  bool_decide (pi_run_id pending = run_id).

Definition pending_of_app (app_id : AppId) (pending : PendingInvocation) : bool :=
  bool_decide (pi_acting_app pending = app_id)
  || bool_decide (cr_provider (pi_capability pending) = app_id).

Definition cancellation_event (pending : PendingInvocation) : LedgerEvent :=
  InvocationCancelled (pi_run_id pending) (pi_capability pending) (pi_requested_data_scope pending).

(** [Kernel::cancel_pending_for_run]. *)
Definition cancel_pending_for_run (run_id : RunId) k : Kernel W S :=
  raise_matching (pending_in_run run_id) k.

(** [Kernel::cancel_pending_invocations_for_run]. *)
Definition cancel_pending_invocations_for_run (run_id : RunId) : st (Kernel W S) KernelError unit :=
  st_modify (cancel_pending_for_run run_id).

(** [Kernel::pending_cancellation_events_for_run]. *)
Definition pending_cancellation_events_for_run (run_id : RunId) k : list LedgerEvent :=
  cancellation_event <$> List.filter (pending_in_run run_id) (btree_values (k_pending_invocations k)).

(** [Kernel::pending_cancellation_events_for_app]. *)
Definition pending_cancellation_events_for_app (app_id : AppId) k : list LedgerEvent :=
  cancellation_event <$> List.filter (pending_of_app app_id) (btree_values (k_pending_invocations k)).

(** [Kernel::remove_pending_for_run]. *)
Definition remove_pending_for_run (run_id : RunId) k : Kernel W S :=
  remove_pending_matching (pending_in_run run_id) k.

(** [Kernel::remove_pending_for_app]. *)
Definition remove_pending_for_app (app_id : AppId) k : Kernel W S :=
  remove_pending_matching (pending_of_app app_id) k.

(** The filter of [reap_cancelled_pending]: a raised flag, or a deadline that has
    passed; the monotonic clock is read once per entry whose flag is down. *)
Fixpoint collect_cancelled (flags : Flags) (pendings : list (N * PendingInvocation))
    : st W KernelError (list (N * LedgerEvent)) :=
  match pendings with
  | [] => mret []
  | (id, pending) :: pendings' =>
      cancelled ← (if flag_load flags (pi_cancelled pending) then mret true
                   else now ← instant_now; mret (pi_deadline pending <=? now)%Z);
      rest ← collect_cancelled flags pendings';
      mret (if (cancelled : bool) then (id, cancellation_event pending) :: rest else rest)
  end.

(** [Kernel::reap_cancelled_pending]. *)
Definition reap_cancelled_pending : st (Kernel W S) KernelError unit := fun k =>
  (cancelled ← on_world (collect_cancelled (k_flags k) (btree_list (k_pending_invocations k)));
   match cancelled with
   | [] => mret tt
   | _ =>
       _ ← record_batch cancelled.*2;
       st_modify (fun k => foldl (fun k id => remove_pending id k) k cancelled.*1)
   end) k.

(** [Kernel::revalidate_pending]. *)
Definition revalidate_pending (pending : PendingInvocation) : st (Kernel W S) KernelError unit := fun k =>
  (view ← st_lift (run_view (k_ledger k) (pi_run_id pending));
   _ ← st_lift (if negb (RunView_is_active view) then Err (RunAlreadyEnded (pi_run_id pending)) else Ok tt);
   _ ← st_lift (Registry_app (k_registry k) (pi_acting_app pending));
   provider ← st_lift (Registry_app (k_registry k) (cr_provider (pi_capability pending)));
   _ ← st_lift (if negb (bool_decide (ia_content_hash provider = pi_provider_content_hash pending))
                then Err PreparedInvocationStale else Ok tt);
   check ← on_world (broker_check (k_broker k) (pi_acting_app pending) (pi_capability pending)
                       (pi_requested_data_scope pending));
   _ ← st_lift
     match check with
     | Allowed grant | ApprovalRequired grant =>
         if bool_decide (g_grant_id grant = g_grant_id (pi_grant pending)) then Ok tt
         else Err PreparedInvocationStale
     | CheckDenied reason => Err (PreparedInvocationDenied reason)
     end;
   now ← on_world instant_now;
   _ ← st_modify (fun k => if (pi_deadline pending <=? now)%Z then raise_flag (pi_cancelled pending) k else k);
   cancelled ← st_get (fun k => flag_load (k_flags k) (pi_cancelled pending));
   st_lift (if (cancelled : bool) then Err PreparedInvocationCancelled else Ok tt)) k.

End kernel.
