(* ===== verification/KernelGrants.v ===== *)
(** * Authority: grant requests, issuance and revocation

    The part of [kernel.rs] that validates requested authority, reconciles a
    manifest with the issued grants, issues user-added grants through trusted
    chrome, revokes them and reports the capabilities an app may use. *)

From S2P Require Import Prelude RustStd Json Types Errors Grants Manifest Platform Ledger Registry.
From S2P Require Import Broker Artifacts Surfaces Router Invocation Durable KernelState.

(** ** Helpers *)

(** [refusal_for]. *)
Definition refusal_for (denial : DenialReason) : RefusalReason :=
  match denial with
  | DenialNoGrant => RefNoGrant
  | DenialExpired => RefGrantExpired
  | DenialRevoked => RefGrantRevoked
  end.

(** [panic_message]. *)
Definition panic_message (panic : PanicPayload) : string :=
  match panic with
  | PanicStr message => message
  | PanicString message => message
  | PanicOther => "non-string panic payload"
  end.

(** The loop of [approval_input_summary]: step back to a character boundary.
    Position 0 is one, so the subtraction never underflows. *)
Fixpoint boundary_at_or_before (rendered : string) (end_ : nat) : outcome KernelError nat :=
  if is_char_boundary rendered end_ then Ok end_
  else match end_ with
       | S end' => boundary_at_or_before rendered end'
       | O => Panic "attempt to subtract with overflow"
       end.

(** [approval_input_summary]. *)
Definition approval_input_summary `{Libraries} (input : JsonObject) : KernelResult (string * bool) :=
  let rendered := json_to_string_pretty input in
  if (String.length rendered <=? MAX_CAPABILITY_APPROVAL_INPUT_BYTES)%nat then Ok (rendered, false)
  else
    end_ ← boundary_at_or_before rendered MAX_CAPABILITY_APPROVAL_INPUT_BYTES;
    Ok (String.substring 0 end_ rendered, true).

(** [grant_duration_matches]. *)
Definition grant_duration_matches `{Libraries} (grant : Grant) (duration : GrantDuration)
    : KernelResult bool :=
  match duration, g_expires_at grant with
  | NonExpiring, None => Ok true
  | ExpiresAfter secs, Some expires_at =>
      t ← datetime_add (g_issued_at grant) (seconds secs); Ok (bool_decide (expires_at = t))
  | _, _ => Ok false
  end.

(** [iter().find(p)] with a predicate that may panic. *)
Fixpoint find_ok {E A} (p : A -> outcome E bool) (l : list A) : outcome E (option A) :=
  match l with
  | [] => Ok None
  | x :: l' => b ← p x; if (b : bool) then Ok (Some x) else find_ok p l'
  end.

Inductive AbsentProvider := Reject | Tolerate.

(** [AbsentProvider::tolerate]. *)
Definition AbsentProvider_tolerate (a : AbsentProvider) (lookup : KernelResult unit) : KernelResult unit :=
  match a, lookup with
  | Tolerate, Err (UnknownApp _) => Ok tt
  | _, result => result
  end.

(** ** Validation of requested authority *)

Section validation.
Context (registry : Registry).

(** [Kernel::validate_grant_request]. *)
Definition validate_grant_request (holder : AppId) (request : GrantRequest) : KernelResult unit :=
  _ ← GrantRequest_validate request;
  _ ← Registry_app registry holder;
  _ ← match gq_scope request with
      | ExactCapability provider capability =>
          _ ← Registry_capability registry {| cr_provider := provider; cr_capability := capability |};
          Ok tt
      | AllProviderCapabilities provider => _ ← Registry_app registry provider; Ok tt
      end;
  if is_blank (gq_reason request) then Err GrantReasonRequired else Ok tt.

Definition validate_manifest_request (manifest : AppManifest) (absent_provider : AbsentProvider)
    (request : GrantRequest) : KernelResult unit :=
  if is_blank (gq_reason request) then Err GrantReasonRequired
  else
    match gq_scope request with
    | ExactCapability provider capability =>
        if bool_decide (provider = m_app_id manifest)
        then
          if negb (existsb (fun declaration => bool_decide (cd_name declaration = capability))
                     (m_capabilities manifest))
          then Err (UndeclaredCapability provider capability) else Ok tt
        else
          AbsentProvider_tolerate absent_provider
            ((fun _ => tt) <$>
              Registry_capability registry {| cr_provider := provider; cr_capability := capability |})
    | AllProviderCapabilities provider =>
        if bool_decide (provider = m_app_id manifest) then Ok tt
        else AbsentProvider_tolerate absent_provider ((fun _ => tt) <$> Registry_app registry provider)
    end.

(** [Kernel::validate_grant_requests]. *)
Definition validate_grant_requests (manifest : AppManifest) (absent_provider : AbsentProvider)
    : KernelResult unit :=
  for_each (validate_manifest_request manifest absent_provider) (m_grant_requests manifest).

(** [Kernel::validate_install_grant_requests]. *)
Definition validate_install_grant_requests (manifest : AppManifest) : KernelResult unit :=
  validate_grant_requests manifest Reject.

(** [Kernel::provider_content_hashes_for]. *)
Definition provider_content_hashes_for (manifest : AppManifest) (absent_provider : AbsentProvider)
    : KernelResult (gmap AppId (option string)) :=
  pairs ← map_ok (fun request =>
      let provider := GrantScope_provider (gq_scope request) in
      match Registry_app registry provider, absent_provider with
      | Ok installed, _ => Ok (provider, Some (ia_content_hash installed))
      | Err (UnknownApp _), Tolerate => Ok (provider, None)
      | Err error, _ => Err error
      | Panic msg, _ => Panic msg
      end)
    (List.filter (fun request =>
       negb (bool_decide (GrantScope_provider (gq_scope request) = m_app_id manifest)))
       (m_grant_requests manifest));
  Ok (list_to_map (reverse pairs)).

(** [Kernel::require_provider_content_hashes]. *)
Definition require_provider_content_hashes (expected : gmap AppId (option string)) : KernelResult unit :=
  for_each (fun '(provider, content_hash) =>
    current ← match Registry_app registry provider with
              | Ok installed => Ok (Some (ia_content_hash installed))
              | Err (UnknownApp _) => Ok None
              | Err error => Err error
              | Panic msg => Panic msg
              end;
    if negb (bool_decide (current = content_hash)) then Err PreparedInstallStale else Ok tt)
    (btree_list expected).

End validation.

Section authority.
Context {W S : Type} `{Libraries, Environment W, TrustedChrome W, KernelStateStore S}.
Implicit Types (k : Kernel W S).

(** ** Manifest grants *)

(** A grant is the one a manifest request asks for: same scopes, condition,
    origin and lifetime. *)
Definition satisfies_request (request : GrantRequest) (origin : GrantOrigin) (grant : Grant)
    : KernelResult bool :=
  if bool_decide (g_scope grant = gq_scope request)
     && bool_decide (g_data_scope grant = gq_data_scope request)
     && bool_decide (g_condition grant = gq_condition request)
     && bool_decide (g_origin grant = origin)
  then grant_duration_matches grant (gq_duration request) else Ok false.

(** The search [manifest_grant_for] and [reconcile_manifest_grants] share. *)
Definition existing_grant (b : PermissionBroker) (app_id : AppId) (request : GrantRequest)
    (origin : GrantOrigin) : st W KernelError (option Grant) :=
  live ← grants_for b app_id;
  st_lift (find_ok (satisfies_request request origin) live).

(** [Kernel::manifest_grant_for]. *)
Definition manifest_grant_for (app_id : AppId) (request : GrantRequest) (origin : GrantOrigin)
    : st (Kernel W S) KernelError (option Grant) := fun k =>
  on_world (existing_grant (k_broker k) app_id request origin) k.

Definition prompt_answers (request : GrantRequest) (p : GrantIssuancePrompt * ApprovalDecision) : bool :=
  bool_decide (gip_scope p.1 = gq_scope request)
  && bool_decide (gip_data_scope p.1 = gq_data_scope request)
  && bool_decide (gip_condition p.1 = gq_condition request)
  && bool_decide (gip_duration p.1 = gq_duration request).

(** The decision collected for a request: the answer to the prompt that names the
    same authority. *)
Definition decision_for (prompts : list GrantIssuancePrompt) (decisions : list ApprovalDecision)
    (request : GrantRequest) : option ApprovalDecision :=
  snd <$> List.find (prompt_answers request) (combine prompts decisions).

Definition is_issued (r : IssueResult) : bool := match r with Issued _ => true | Refused => false end.

(** [Kernel::reconcile_manifest_grants]: the results, whether a grant was issued,
    and the broker. *)
Fixpoint reconcile_manifest_grants (b : PermissionBroker) (app_id : AppId)
    (requests : list GrantRequest) (origin : GrantOrigin) (prompts : list GrantIssuancePrompt)
    (decisions : list ApprovalDecision)
    : st W KernelError (list IssueResult * bool * PermissionBroker) :=
  match requests with
  | [] => mret ([], false, b)
  | request :: requests' =>
      existing ← existing_grant b app_id request origin;
      '(result, issued, b) ←
        match existing with
        | Some grant => mret (Issued grant, false, b)
        | None =>
            '(result, b) ← match decision_for prompts decisions request with
                           | None => mret (Refused, b)
                           | Some decision => issue_with_decision b app_id request origin decision
                           end;
            mret (result, is_issued result, b)
        end;
      '(results, issued_any, b) ← reconcile_manifest_grants b app_id requests' origin prompts decisions;
      mret (result :: results, issued || issued_any, b)
  end.

(** ** User-added grants *)

Record PreparedGrant := {
  pg_holder : AppId;
  pg_holder_display_name : string;
  pg_holder_content_hash : string;
  pg_provider_content_hash : string;
  pg_request : GrantRequest;
  pg_chrome : N;
}.

Record GrantApproval := { ga_prepared : PreparedGrant; ga_decision : ApprovalDecision }.

Definition grant_prompt (p : PreparedGrant) : GrantIssuancePrompt := {|
  gip_app_id := pg_holder p;
  gip_app_display_name := pg_holder_display_name p;
  gip_scope := gq_scope (pg_request p);
  gip_data_scope := gq_data_scope (pg_request p);
  gip_condition := gq_condition (pg_request p);
  gip_duration := gq_duration (pg_request p);
  gip_reason := gq_reason (pg_request p);
|}.

(** [PreparedGrant::await_approval]. *)
Definition PreparedGrant_await_approval (p : PreparedGrant) (w : W) : GrantApproval * W :=
  let '(decision, w) := confirm_grant (grant_prompt p) w in
  ({| ga_prepared := p; ga_decision := decision |}, w).

(** [PreparedGrant::await_grouped_approvals]: an answer the chrome leaves out
    counts as a denial. *)
Definition await_grouped_approvals (prepared : list PreparedGrant)
    : st W KernelError (list GrantApproval) :=
  match prepared with
  | [] => mret []
  | first :: _ =>
      if existsb (fun grant =>
           negb (bool_decide (pg_holder grant = pg_holder first))
           || negb (bool_decide (pg_holder_content_hash grant = pg_holder_content_hash first))
           || negb (bool_decide (pg_chrome grant = pg_chrome first))) prepared
      then st_fail PreparedGrantGroupMismatch
      else fun w =>
        let '(decision, w) := confirm_install
          {| iap_app_id := pg_holder first; iap_app_display_name := pg_holder_display_name first;
             iap_event := None; iap_grants := grant_prompt <$> prepared |} w in
        (Ok (imap (fun index p =>
           {| ga_prepared := p;
              ga_decision := default Denied (iad_grant_decisions decision !! index) |}) prepared), w)
  end.

(** [Kernel::prepare_grant]. *)
Definition prepare_grant (holder : AppId) (request : GrantRequest) k : KernelResult PreparedGrant :=
  _ ← validate_grant_request (k_registry k) holder request;
  app ← Registry_app (k_registry k) holder;
  provider ← Registry_app (k_registry k) (GrantScope_provider (gq_scope request));
  Ok {| pg_holder := holder;
        pg_holder_display_name := m_display_name (ia_manifest app);
        pg_holder_content_hash := ia_content_hash app;
        pg_provider_content_hash := ia_content_hash provider;
        pg_request := request;
        pg_chrome := k_chrome k |}.

(** Commit a broker that gained a grant, and only then install it. *)
Definition commit_issued (result : IssueResult) (broker : PermissionBroker)
    : st (Kernel W S) KernelError IssueResult := fun k =>
  match result with
  | Issued _ =>
      (_ ← commit_parts (k_registry k) (k_ledger k) broker (k_artifacts k);
       _ ← st_modify (set_broker broker);
       mret result) k
  | Refused => (Ok result, k)
  end.

(** [Kernel::commit_grant]. *)
Definition commit_grant (approval : GrantApproval) : st (Kernel W S) KernelError IssueResult := fun k =>
  let p := ga_prepared approval in
  (holder ← st_lift (Registry_app (k_registry k) (pg_holder p));
   _ ← st_lift (if negb (bool_decide (ia_content_hash holder = pg_holder_content_hash p))
                then Err PreparedInstallStale else Ok tt);
   provider ← st_lift (Registry_app (k_registry k) (GrantScope_provider (gq_scope (pg_request p))));
   _ ← st_lift (if negb (bool_decide (ia_content_hash provider = pg_provider_content_hash p))
                then Err PreparedInstallStale else Ok tt);
   _ ← st_lift (validate_grant_request (k_registry k) (pg_holder p) (pg_request p));
   '(result, broker) ← on_world (issue_with_decision (k_broker k) (pg_holder p) (pg_request p)
                                   UserAdded (ga_decision approval));
   commit_issued result broker) k.

(** [Kernel::issue_grant]. *)
Definition issue_grant (holder : AppId) (request : GrantRequest)
    : st (Kernel W S) KernelError IssueResult := fun k =>
  (_ ← st_lift (validate_grant_request (k_registry k) holder request);
   app ← st_lift (Registry_app (k_registry k) holder);
   '(result, broker) ← on_world (broker_issue (k_broker k) holder (m_display_name (ia_manifest app))
                                   request UserAdded);
   commit_issued result broker) k.

(** [Kernel::revoke_grant]. *)
Definition revoke_grant (grant_id : GrantId) : st (Kernel W S) KernelError unit := fun k =>
  (broker ← st_lift (broker_revoke (k_broker k) grant_id);
   _ ← commit_parts (k_registry k) (k_ledger k) broker (k_artifacts k);
   _ ← st_modify (set_broker broker);
   st_modify (raise_matching (fun pending => bool_decide (g_grant_id (pi_grant pending) = grant_id)))) k.

Fixpoint revoke_each (b : PermissionBroker) (grant_ids : list GrantId) : KernelResult PermissionBroker :=
  match grant_ids with
  | [] => Ok b
  | grant_id :: grant_ids' => b ← broker_revoke b grant_id; revoke_each b grant_ids'
  end.

(** [Kernel::revoke_grants_for_resource]. *)
Definition revoke_grants_for_resource (resource_id : ResourceId)
    : st (Kernel W S) KernelError unit := fun k =>
  match grant_ids_over_resource (k_broker k) resource_id with
  | [] => (Ok tt, k)
  | grant_ids =>
      (broker ← st_lift (revoke_each (k_broker k) grant_ids);
       _ ← commit_parts (k_registry k) (k_ledger k) broker (k_artifacts k);
       _ ← st_modify (set_broker broker);
       st_modify (raise_matching (fun pending => bool_decide (g_grant_id (pi_grant pending) ∈ grant_ids)))) k
  end.

(** ** Grant-aware introspection *)

Record CapabilityAuthorizationView := { cav_data_scope : DataScope; cav_condition : GrantCondition }.

#[export] Instance CapabilityAuthorizationView_eq_dec : EqDecision CapabilityAuthorizationView.
Proof. solve_decision. Defined.

Record CapabilityUseView := {
  cuv_provider_app_id : AppId;
  cuv_provider_display_name : string;
  cuv_capability : CapabilityName;
  cuv_description : string;
  cuv_input_schema : JsonObject;
  cuv_authorizations : list CapabilityAuthorizationView;
}.

(** [Vec<ResourceId>::cmp]. *)
Fixpoint ids_leb (xs ys : list ResourceId) : bool :=
  match xs, ys with
  | [], _ => true
  | _ :: _, [] => false
  | x :: xs', y :: ys' => if bool_decide (x = y) then ids_leb xs' ys' else String.leb x y
  end.

(** The derived [Ord] of [DataScope]. *)
Definition DataScope_leb (a b : DataScope) : bool :=
  match a, b with
  | NoData, _ => true
  | AllResources, NoData => false
  | AllResources, _ => true
  | Resources xs, Resources ys => ids_leb xs ys
  | Resources _, _ => false
  end.

Definition authorization_le (a b : CapabilityAuthorizationView) : Prop :=
  (if bool_decide (cav_data_scope a = cav_data_scope b)
   then (condition_rank (cav_condition a) <=? condition_rank (cav_condition b))%N
   else DataScope_leb (cav_data_scope a) (cav_data_scope b)) = true.

#[export] Instance authorization_le_dec a b : Decision (authorization_le a b) := decide (_ = true).

(** [Vec::dedup]: drop the elements equal to their predecessor. *)
Fixpoint dedup {A} `{EqDecision A} (l : list A) : list A :=
  match l with
  | [] => []
  | x :: l' =>
      match l' with
      | y :: _ => if bool_decide (x = y) then dedup l' else x :: dedup l'
      | [] => [x]
      end
  end.

Definition use_view_le (a b : CapabilityUseView) : Prop :=
  (if bool_decide (cuv_provider_app_id a = cuv_provider_app_id b)
   then String.leb (cuv_capability a) (cuv_capability b)
   else String.leb (cuv_provider_app_id a) (cuv_provider_app_id b)) = true.

#[export] Instance use_view_le_dec a b : Decision (use_view_le a b) := decide (_ = true).

(** The view of one capability of one provider, if the consumer has a live grant
    covering it. *)
Definition capability_use_view (b : PermissionBroker) (consumer : AppId) (provider : InstalledApp)
    (cap : CapabilityDeclaration) : st W KernelError (list CapabilityUseView) :=
  let cap_ref := {| cr_provider := m_app_id (ia_manifest provider); cr_capability := cd_name cap |} in
  live ← grants_for b consumer;
  match List.filter (fun g => GrantScope_covers (g_scope g) cap_ref) live with
  | [] => mret []
  | cap_grants =>
      mret [{| cuv_provider_app_id := m_app_id (ia_manifest provider);
               cuv_provider_display_name := m_display_name (ia_manifest provider);
               cuv_capability := cd_name cap;
               cuv_description := cd_description cap;
               cuv_input_schema := cd_input_schema cap;
               cuv_authorizations := dedup (merge_sort authorization_le
                 ((fun grant => {| cav_data_scope := g_data_scope grant;
                                   cav_condition := g_condition grant |}) <$> cap_grants)) |}]
  end.

(** [Kernel::available_capabilities_for]. *)
Definition available_capabilities_for (consumer : AppId)
    : st (Kernel W S) KernelError (list CapabilityUseView) := fun k =>
  (_ ← st_lift (Registry_app (k_registry k) consumer);
   views ← on_world (st_map (fun '(provider, cap) => capability_use_view (k_broker k) consumer provider cap)
     (Registry_installed_apps (k_registry k) ≫= fun provider =>
       pair provider <$> m_capabilities (ia_manifest provider)));
   mret (merge_sort use_view_le (concat views))) k.

End authority.
