(* ===== verification/KernelInstall.v ===== *)
(** * App lifecycle

    The part of [kernel.rs] that installs, rebinds, replaces, upgrades and
    uninstalls apps. Prompts are collected between [prepare_install] and
    [commit_install] without the kernel, so the commit checks everything again. *)

From S2P Require Import Prelude RustStd Json Types Errors Grants Manifest Platform Ledger Registry.
From S2P Require Import Broker Artifacts Surfaces Router Invocation Durable KernelState KernelGrants.

Inductive InstallMode :=
  | Fresh
  | Rebind
  | Replace (previous_content_hash : string).

Record PreparedInstall (W : Type) := {
  pin_sealed_manifest : SealedManifest;
  pin_handlers : Handlers W;
  pin_grant_origin : GrantOrigin;
  pin_mode : InstallMode;
  pin_event_prompt : option EventSubscriptionPrompt;
  pin_grant_prompts : list GrantIssuancePrompt;
  pin_provider_content_hashes : gmap AppId (option string);
}.
Arguments pin_sealed_manifest {W} _.
Arguments pin_handlers {W} _.
Arguments pin_grant_origin {W} _.
Arguments pin_mode {W} _.
Arguments pin_event_prompt {W} _.
Arguments pin_grant_prompts {W} _.
Arguments pin_provider_content_hashes {W} _.

Record InstallApproval (W : Type) := {
  ina_prepared : PreparedInstall W;
  ina_event_decision : option ApprovalDecision;
  ina_grant_decisions : list ApprovalDecision;
}.
Arguments ina_prepared {W} _.
Arguments ina_event_decision {W} _.
Arguments ina_grant_decisions {W} _.

(** The prompt of one manifest request. *)
Definition prompt_for (manifest : AppManifest) (request : GrantRequest) : GrantIssuancePrompt := {|
  gip_app_id := m_app_id manifest;
  gip_app_display_name := m_display_name manifest;
  gip_scope := gq_scope request;
  gip_data_scope := gq_data_scope request;
  gip_condition := gq_condition request;
  gip_duration := gq_duration request;
  gip_reason := gq_reason request;
|}.

(** Two prompts ask for the same authority. *)
Definition same_authority (seen prompt : GrantIssuancePrompt) : bool :=
  bool_decide (gip_scope seen = gip_scope prompt)
  && bool_decide (gip_data_scope seen = gip_data_scope prompt)
  && bool_decide (gip_condition seen = gip_condition prompt)
  && bool_decide (gip_duration seen = gip_duration prompt).

(** The closure [dedup_prompts]. *)
Definition dedup_prompts (prompts : list GrantIssuancePrompt) : list GrantIssuancePrompt :=
  foldl (fun unique prompt =>
    if existsb (fun seen => same_authority seen prompt) unique then unique else unique ++ [prompt])
    [] prompts.

Section install.
Context {W S : Type} `{Libraries, Environment W, TrustedChrome W, KernelStateStore S}.
Implicit Types (k : Kernel W S).

(** Every declared capability has a handler and no other is offered. *)
Definition require_handler_binding (manifest : AppManifest) (handlers : Handlers W) : KernelResult unit :=
  let declared := cd_name <$> m_capabilities manifest in
  let offered := btree_keys handlers in
  if negb (bool_decide (list_to_set declared = (list_to_set offered : gset string)))
  then Err (HandlerBindingMismatch (m_app_id manifest) declared offered) else Ok tt.

Definition install_mode (sealed_manifest : SealedManifest) k : KernelResult InstallMode :=
  let manifest := sm_manifest sealed_manifest in
  match Registry_app (k_registry k) (m_app_id manifest) with
  | Ok installed =>
      if bool_decide (is_Some (k_handlers k !! m_app_id manifest))
      then Err (AppAlreadyInstalled (m_app_id manifest))
      else if bool_decide (ia_content_hash installed = sm_content_hash sealed_manifest)
              && bool_decide (ia_manifest installed = sm_manifest sealed_manifest)
      then Ok Rebind
      else
        registry ← Registry_uninstall (k_registry k) (m_app_id manifest);
        _ ← validate_install registry sealed_manifest;
        _ ← validate_install_grant_requests (k_registry k) manifest;
        Ok (Replace (ia_content_hash installed))
  | Err (UnknownApp _) =>
      _ ← validate_install (k_registry k) sealed_manifest;
      _ ← validate_install_grant_requests (k_registry k) manifest;
      Ok Fresh
  | Err error => Err error
  | Panic msg => Panic msg
  end.

(** The requests of a rebound app that no active grant satisfies. *)
Fixpoint missing_requests (app_id : AppId) (origin : GrantOrigin) (requests : list GrantRequest)
    : st (Kernel W S) KernelError (list GrantRequest) :=
  match requests with
  | [] => mret []
  | request :: requests' =>
      existing ← manifest_grant_for app_id request origin;
      rest ← missing_requests app_id origin requests';
      mret match existing with Some _ => rest | None => request :: rest end
  end.

(** [Kernel::prepare_install_with_grant_origin]. *)
Definition prepare_install_with_grant_origin (sealed_manifest : SealedManifest)
    (handlers : Handlers W) (grant_origin : GrantOrigin)
    : st (Kernel W S) KernelError (PreparedInstall W) := fun k =>
  let manifest := sm_manifest sealed_manifest in
  (_ ← st_lift (require_handler_binding manifest handlers);
   mode ← st_lift (install_mode sealed_manifest k);
   '(event_prompt, grant_prompts) ←
     match mode with
     | Fresh | Replace _ =>
         mret (match m_event_subscriptions manifest with
               | [] => None
               | topics => Some {| esp_app_id := m_app_id manifest;
                                   esp_app_display_name := m_display_name manifest;
                                   esp_topics := topics |}
               end,
               dedup_prompts (prompt_for manifest <$> m_grant_requests manifest))
     | Rebind =>
         let present := List.filter (fun request =>
           bool_decide (GrantScope_provider (gq_scope request) = m_app_id manifest)
           || is_ok (Registry_app (k_registry k) (GrantScope_provider (gq_scope request))))
           (m_grant_requests manifest) in
         missing ← missing_requests (m_app_id manifest) grant_origin present;
         mret (None, dedup_prompts (prompt_for manifest <$> missing))
     end;
   hashes ← st_lift (provider_content_hashes_for (k_registry k) manifest
                       match mode with Rebind => Tolerate | _ => Reject end);
   mret {| pin_sealed_manifest := sealed_manifest;
           pin_handlers := handlers;
           pin_grant_origin := grant_origin;
           pin_mode := mode;
           pin_event_prompt := event_prompt;
           pin_grant_prompts := grant_prompts;
           pin_provider_content_hashes := hashes |}) k.

(** [Kernel::prepare_install]. *)
Definition prepare_install (sealed_manifest : SealedManifest) (handlers : Handlers W)
    : st (Kernel W S) KernelError (PreparedInstall W) :=
  prepare_install_with_grant_origin sealed_manifest handlers ManifestRequested.

(** [PreparedInstall::await_approval]. *)
Definition PreparedInstall_await_approval (p : PreparedInstall W) (w : W) : InstallApproval W * W :=
  let manifest := sm_manifest (pin_sealed_manifest p) in
  let '(decision, w) := confirm_install
    {| iap_app_id := m_app_id manifest; iap_app_display_name := m_display_name manifest;
       iap_event := pin_event_prompt p; iap_grants := pin_grant_prompts p |} w in
  ({| ina_prepared := p; ina_event_decision := iad_event_decision decision;
      ina_grant_decisions := iad_grant_decisions decision |}, w).

(** ** Consent checks of the commit *)

Definition require_event_consent (app_id : AppId) (event_prompt : option EventSubscriptionPrompt)
    (event_decision : option ApprovalDecision) : KernelResult unit :=
  match event_prompt with
  | Some _ => if negb (bool_decide (event_decision = Some Approved))
              then Err (EventSubscriptionDenied app_id) else Ok tt
  | None => Ok tt
  end.

Definition require_all_answered (prompts : list GrantIssuancePrompt) (decisions : list ApprovalDecision)
    : KernelResult unit :=
  if negb (bool_decide (length decisions = length prompts)) then Err PreparedInstallStale else Ok tt.

Definition bind_handlers (app_id : AppId) (handlers : Handlers W) k : Kernel W S :=
  set_handlers (<[app_id := handlers]> (k_handlers k)) k.

Definition release_leases_of (run_ids : list RunId) k : Kernel W S :=
  set_leases (foldl LeaseManager_release_all_for_run (k_leases k) run_ids) k.

(** The authority an app leaves behind: grants it holds, grants over it, its
    secrets. *)
Definition strip_authority (b : PermissionBroker) (app_id : AppId) : PermissionBroker :=
  clear_all_for (revoke_all_over (revoke_all_for b app_id) app_id) app_id.

(** The events that stop an app: its pending invocations and its active runs. *)
Definition teardown_events (app_id : AppId) k : list LedgerEvent :=
  pending_cancellation_events_for_app app_id k
  ++ ((fun run_id => RunEnded run_id RunCancelled) <$> active_runs_for_app (k_ledger k) app_id).

(** [Kernel::replace_installed_app]. *)
Definition replace_installed_app (sealed_manifest : SealedManifest) (handlers : Handlers W)
    (grant_origin : GrantOrigin) (previous_content_hash : string)
    (event_prompt : option EventSubscriptionPrompt) (event_decision : option ApprovalDecision)
    (grant_prompts : list GrantIssuancePrompt) (grant_decisions : list ApprovalDecision)
    : st (Kernel W S) KernelError (list IssueResult) := fun k =>
  let app_id := m_app_id (sm_manifest sealed_manifest) in
  let grant_requests := m_grant_requests (sm_manifest sealed_manifest) in
  (installed ← st_lift (Registry_app (k_registry k) app_id);
   _ ← st_lift (if negb (bool_decide (ia_content_hash installed = previous_content_hash))
                   || bool_decide (is_Some (k_handlers k !! app_id))
                then Err PreparedInstallStale else Ok tt);
   staged_registry ← st_lift (Registry_uninstall (k_registry k) app_id);
   _ ← st_lift (validate_install staged_registry sealed_manifest);
   _ ← st_lift (validate_install_grant_requests (k_registry k) (sm_manifest sealed_manifest));
   _ ← st_lift (require_event_consent app_id event_prompt event_decision);
   _ ← st_lift (require_all_answered grant_prompts grant_decisions);
   staged_registry ← on_world (Registry_install staged_registry sealed_manifest);
   let active_runs := active_runs_for_app (k_ledger k) app_id in
   let end_events := teardown_events app_id k in
   views ← st_lift (map_ok (fun event => event_view event k) end_events);
   '(_, staged_ledger) ← on_world (RunLedger_append_batch (k_ledger k) end_events);
   '(results, _, staged_broker) ← on_world (reconcile_manifest_grants (strip_authority (k_broker k) app_id)
       app_id grant_requests grant_origin grant_prompts grant_decisions);
   _ ← commit_parts staged_registry staged_ledger staged_broker (k_artifacts k);
   _ ← st_modify (set_ledger staged_ledger);
   _ ← st_modify (set_broker staged_broker);
   _ ← st_modify (set_registry staged_registry);
   _ ← st_modify (remove_pending_for_app app_id);
   _ ← st_modify (release_leases_of active_runs);
   _ ← st_modify (fun k => set_router (MessageRouter_publish_batch (k_router k) views (k_registry k)) k);
   _ ← st_modify (fun k => set_surfaces (SurfaceManager_close_all_for (k_surfaces k) app_id) k);
   _ ← st_modify (fun k => set_router (MessageRouter_discard_inbox (k_router k) app_id) k);
   _ ← st_modify (bind_handlers app_id handlers);
   mret results) k.

Definition commit_rebind (p : PreparedInstall W) (grant_decisions : list ApprovalDecision)
    : st (Kernel W S) KernelError (list IssueResult) := fun k =>
  let sealed_manifest := pin_sealed_manifest p in
  let manifest := sm_manifest sealed_manifest in
  let app_id := m_app_id manifest in
  (installed ← st_lift (Registry_app (k_registry k) app_id);
   _ ← st_lift (if negb (bool_decide (ia_content_hash installed = sm_content_hash sealed_manifest))
                   || negb (bool_decide (ia_manifest installed = sm_manifest sealed_manifest))
                   || bool_decide (is_Some (k_handlers k !! app_id))
                then Err PreparedInstallStale else Ok tt);
   _ ← st_lift (validate_grant_requests (k_registry k) manifest Tolerate);
   _ ← st_lift (require_all_answered (pin_grant_prompts p) grant_decisions);
   '(results, issued_any, broker) ← on_world (reconcile_manifest_grants (k_broker k) app_id
       (m_grant_requests manifest) (pin_grant_origin p) (pin_grant_prompts p) grant_decisions);
   _ ← (if (issued_any : bool)
        then _ ← commit_parts (k_registry k) (k_ledger k) broker (k_artifacts k);
             st_modify (set_broker broker)
        else mret tt);
   _ ← st_modify (bind_handlers app_id (pin_handlers p));
   mret results) k.

Definition commit_fresh (p : PreparedInstall W) (event_decision : option ApprovalDecision)
    (grant_decisions : list ApprovalDecision)
    : st (Kernel W S) KernelError (list IssueResult) := fun k =>
  let sealed_manifest := pin_sealed_manifest p in
  let manifest := sm_manifest sealed_manifest in
  let app_id := m_app_id manifest in
  (_ ← st_lift (if is_ok (Registry_app (k_registry k) app_id) then Err PreparedInstallStale else Ok tt);
   _ ← st_lift (validate_install (k_registry k) sealed_manifest);
   _ ← st_lift (validate_install_grant_requests (k_registry k) manifest);
   _ ← st_lift (require_event_consent app_id (pin_event_prompt p) event_decision);
   _ ← st_lift (require_all_answered (pin_grant_prompts p) grant_decisions);
   registry ← on_world (Registry_install (k_registry k) sealed_manifest);
   '(results, _, broker) ← on_world (reconcile_manifest_grants (k_broker k) app_id
       (m_grant_requests manifest) (pin_grant_origin p) (pin_grant_prompts p) grant_decisions);
   _ ← commit_parts registry (k_ledger k) broker (k_artifacts k);
   _ ← st_modify (set_registry registry);
   _ ← st_modify (set_broker broker);
   _ ← st_modify (bind_handlers app_id (pin_handlers p));
   mret results) k.

(** [Kernel::commit_install]. *)
Definition commit_install (approval : InstallApproval W)
    : st (Kernel W S) KernelError (list IssueResult) := fun k =>
  let p := ina_prepared approval in
  (_ ← st_lift (require_provider_content_hashes (k_registry k) (pin_provider_content_hashes p));
   _ ← st_lift (require_handler_binding (sm_manifest (pin_sealed_manifest p)) (pin_handlers p));
   match pin_mode p with
   | Rebind => commit_rebind p (ina_grant_decisions approval)
   | Fresh => commit_fresh p (ina_event_decision approval) (ina_grant_decisions approval)
   | Replace previous_content_hash =>
       replace_installed_app (pin_sealed_manifest p) (pin_handlers p) (pin_grant_origin p)
         previous_content_hash (pin_event_prompt p) (ina_event_decision approval)
         (pin_grant_prompts p) (ina_grant_decisions approval)
   end) k.

(** [Kernel::upgrade_app]. *)
Definition upgrade_app (sealed_manifest : SealedManifest) (handlers : Handlers W)
    : st (Kernel W S) KernelError unit := fun k =>
  let manifest := sm_manifest sealed_manifest in
  (_ ← st_lift (require_handler_binding manifest handlers);
   _ ← st_lift (validate_grant_requests (k_registry k) manifest Tolerate);
   registry ← st_lift (Registry_upgrade (k_registry k) sealed_manifest);
   _ ← commit_parts registry (k_ledger k) (k_broker k) (k_artifacts k);
   _ ← st_modify (set_registry registry);
   st_modify (bind_handlers (m_app_id manifest) handlers)) k.

(** [Kernel::uninstall]. *)
Definition uninstall (app_id : AppId) : st (Kernel W S) KernelError unit := fun k =>
  (_ ← st_lift (Registry_app (k_registry k) app_id);
   let active_runs := active_runs_for_app (k_ledger k) app_id in
   let events := teardown_events app_id k in
   views ← st_lift (map_ok (fun event => event_view event k) events);
   '(_, ledger) ← on_world (RunLedger_append_batch (k_ledger k) events);
   let broker := strip_authority (k_broker k) app_id in
   registry ← st_lift (Registry_uninstall (k_registry k) app_id);
   _ ← commit_parts registry ledger broker (k_artifacts k);
   _ ← st_modify (remove_pending_for_app app_id);
   _ ← st_modify (release_leases_of active_runs);
   _ ← st_modify (set_ledger ledger);
   _ ← st_modify (set_broker broker);
   _ ← st_modify (set_registry registry);
   _ ← st_modify (fun k => set_router (MessageRouter_publish_batch (k_router k) views (k_registry k)) k);
   _ ← st_modify (fun k => set_surfaces (SurfaceManager_close_all_for (k_surfaces k) app_id) k);
   _ ← st_modify (fun k => set_router (MessageRouter_discard_inbox (k_router k) app_id) k);
   st_modify (fun k => set_handlers (delete app_id (k_handlers k)) k)) k.

End install.
