(* ===== verification/KernelInvoke.v ===== *)
(** * The action path

    The part of [kernel.rs] that starts and ends runs and drives an invocation
    through its phases: prepare, await approval, authorize, execute, finalize or
    abort. Surfaces, leases, secrets and inboxes follow, as thin methods over
    their services. *)

From S2P Require Import Prelude RustStd Json Types Errors Grants Manifest Platform Ledger Registry.
From S2P Require Import Broker Artifacts Surfaces Router Invocation Durable KernelState KernelGrants.

(** 60 seconds. *)
Definition DEFAULT_INVOCATION_TIMEOUT : Z := 60000000000.

Section invoke.
Context {W S : Type} `{Libraries, Environment W, TrustedChrome W, KernelStateStore S}.
Implicit Types (k : Kernel W S).

(** ** Runs *)

(** The parent checks of [start_run]. *)
Definition require_parent (initiator : Initiator) k : KernelResult unit :=
  match initiator with
  | InitRun app_id parent_run_id =>
      parent ← run_view (k_ledger k) parent_run_id;
      if negb (RunView_is_active parent) then Err (RunAlreadyEnded parent_run_id)
      else if negb (bool_decide (RunView_initiating_app parent = app_id))
      then Err (ChildRunAttributionMismatch (RunView_initiating_app parent) app_id)
      else Ok tt
  | _ => Ok tt
  end.

(** [Kernel::start_run]. *)
Definition start_run (initiator : Initiator) (goal : string) : st (Kernel W S) KernelError RunId := fun k =>
  (_ ← st_lift (Registry_app (k_registry k) (Initiator_app_id initiator));
   _ ← st_lift (require_parent initiator k);
   uuid ← on_world new_uuid;
   let run_id := new_run_id uuid in
   _ ← record (RunStarted run_id initiator goal);
   mret run_id) k.

(** [Kernel::end_run]. *)
Definition end_run (run_id : RunId) (terminal_state : RunTerminalState)
    : st (Kernel W S) KernelError unit := fun k =>
  (_ ← record_batch (pending_cancellation_events_for_run run_id k ++ [RunEnded run_id terminal_state]);
   _ ← st_modify (remove_pending_for_run run_id);
   st_modify (fun k => set_leases (LeaseManager_release_all_for_run (k_leases k) run_id) k)) k.

(** ** Prepare *)

Definition bound_handler (capability : CapabilityRef) k : option (CapabilityHandler W) :=
  k_handlers k !! cr_provider capability ≫= fun bound => bound !! cr_capability capability.

Definition handler_not_bound (capability : CapabilityRef) : KernelError :=
  HandlerNotBound (cr_provider capability) (cr_capability capability).

(** A call of [TrustedChrome::show_notice] whose failure is a durability error. *)
Definition show_notice_or_fail (notice : ChromeNotice) : st (Kernel W S) KernelError unit :=
  on_world (fun w => let '(r, w) := show_notice notice w in
    (map_err (fun error => Durability (ChromeNoticeError_display error)) r, w)).

(** The effects a click in the provider's own surface consents to. *)
Definition bounded_effect (effect : CapabilityEffect) : bool :=
  match effect with
  | EffectReadOnly | EffectLocalWrite => true
  | EffectUnspecified | EffectExternalWrite | EffectDestructive => false
  end.

(** Record that consent is sought, with the prompt to show, or that work began. *)
Definition record_dispatch (run : RunView) (acting_app : AppId) (capability : CapabilityRef)
    (declaration : CapabilityDeclaration) (grant : Grant) (request : InvocationRequest)
    (needs_prompt : bool) : st (Kernel W S) KernelError (option CapabilityApprovalPrompt) := fun k =>
  let run_id := rv_run_id run in
  (if needs_prompt
   then
     app ← st_lift (Registry_app (k_registry k) acting_app);
     '(input_summary, input_summary_truncated) ← st_lift (approval_input_summary (ir_input request));
     let prompt := {|
       cap_app_id := acting_app;
       cap_app_display_name := m_display_name (ia_manifest app);
       cap_capability := capability;
       cap_capability_description := cd_description declaration;
       cap_effect := cd_effect declaration;
       cap_input_summary := input_summary;
       cap_input_summary_truncated := input_summary_truncated;
       cap_data_scope := ir_data_scope request;
       cap_grant_id := g_grant_id grant;
       cap_run_id := run_id;
       cap_goal := rv_goal run |} in
     _ ← record (ApprovalRequested run_id capability (g_grant_id grant) (ir_data_scope request));
     mret (Some prompt)
   else
     input_sha256 ← st_lift (payload_sha256 (VObject (ir_input request)));
     _ ← record (CapabilityInvoked run_id capability (g_grant_id grant) input_sha256 (ir_data_scope request));
     mret None) k.

(** Allocate the flag and the id, and file the pending invocation. *)
Definition register_pending (run_id : RunId) (acting_app : AppId) (capability : CapabilityRef)
    (declaration : CapabilityDeclaration) (grant : Grant) (request : InvocationRequest)
    (timeout : Z) (approval : option CapabilityApprovalPrompt)
    : st (Kernel W S) KernelError PreparedInvocation := fun k =>
  (now ← on_world instant_now;
   deadline ← st_lift (ok_or (instant_checked_add now timeout) InvalidInvocationTimeout);
   flags ← st_get k_flags;
   let '(cancelled, flags) := flag_new flags in
   _ ← st_modify (set_flags flags);
   id ← st_get k_next_invocation_id;
   _ ← st_modify (set_next_invocation_id (wrap64 (id + 1)));
   provider ← st_lift (Registry_app (k_registry k) (cr_provider capability));
   let pending := {|
     pi_run_id := run_id;
     pi_acting_app := acting_app;
     pi_capability := capability;
     pi_grant := grant;
     pi_requested_data_scope := ir_data_scope request;
     pi_provider_content_hash := ia_content_hash provider;
     pi_output_schema := cd_output_schema declaration;
     pi_input := ir_input request;
     pi_cancelled := cancelled;
     pi_deadline := deadline;
     pi_state := PreparedForApproval |} in
   _ ← st_modify (fun k => set_pending_invocations (<[id := pending]> (k_pending_invocations k)) k);
   mret {| ppi_id := id; ppi_approval := approval; ppi_cancelled := cancelled |}) k.

(** What [prepare_invocation_with_context] does once the grant is known. *)
Definition prepare_granted (run : RunView) (acting_app : AppId) (capability : CapabilityRef)
    (declaration : CapabilityDeclaration) (request : InvocationRequest) (timeout : Z)
    (direct_provider_surface_action : bool) (grant : Grant)
    : st (Kernel W S) KernelError PrepareInvocation := fun k =>
  (_ ← st_lift (ok_or (bound_handler capability k) (handler_not_bound capability));
   _ ← (if bool_decide (g_condition grant = Notify) && negb direct_provider_surface_action
        then show_notice_or_fail (GrantUse acting_app capability (g_grant_id grant) (rv_run_id run))
        else mret tt);
   approval ← record_dispatch run acting_app capability declaration grant request
     (bool_decide (g_condition grant = RequiresApproval)
      && negb (direct_provider_surface_action && bounded_effect (cd_effect declaration)));
   token ← register_pending (rv_run_id run) acting_app capability declaration grant request timeout approval;
   mret (Prepared token)) k.

(** [Kernel::prepare_invocation_with_context]. *)
Definition prepare_invocation_with_context (run_id : RunId) (capability : CapabilityRef)
    (request : InvocationRequest) (timeout : Z) (direct_provider_surface_action : bool)
    : st (Kernel W S) KernelError PrepareInvocation :=
  _ ← reap_cancelled_pending;
  _ ← st_lift (DataScope_validate_invocation (ir_data_scope request));
  ledger ← st_get k_ledger;
  registry ← st_get k_registry;
  broker ← st_get k_broker;
  run ← st_lift (run_view ledger run_id);
  _ ← st_lift (if negb (RunView_is_active run) then Err (RunAlreadyEnded run_id) else Ok tt);
  let acting_app := RunView_initiating_app run in
  _ ← st_lift (Registry_app registry acting_app);
  declaration ← st_lift (Registry_capability registry capability);
  _ ← st_lift (validate_against_schema (VObject (ir_input request)) (cd_input_schema declaration)
                 CapabilityInput (CapabilityRef_qualified_name capability));
  check ← on_world (broker_check broker acting_app capability (ir_data_scope request));
  match check with
  | CheckDenied reason =>
      _ ← record (InvocationRefused run_id capability reason (ir_data_scope request));
      mret (PrepareRefused (ResRefused (refusal_for reason)))
  | ApprovalRequired grant | Allowed grant =>
      prepare_granted run acting_app capability declaration request timeout
        direct_provider_surface_action grant
  end.

(** [Kernel::prepare_invocation_with_timeout]. *)
Definition prepare_invocation_with_timeout (run_id : RunId) (capability : CapabilityRef)
    (request : InvocationRequest) (timeout : Z) : st (Kernel W S) KernelError PrepareInvocation :=
  prepare_invocation_with_context run_id capability request timeout false.

(** [Kernel::prepare_invocation]. *)
Definition prepare_invocation (run_id : RunId) (capability : CapabilityRef)
    (request : InvocationRequest) : st (Kernel W S) KernelError PrepareInvocation :=
  prepare_invocation_with_timeout run_id capability request DEFAULT_INVOCATION_TIMEOUT.

(** [PreparedInvocation::await_approval]. *)
Definition PreparedInvocation_await_approval (token : PreparedInvocation) (w : W) : ApprovalResult * W :=
  let '(decision, w) :=
    match ppi_approval token with
    | Some prompt => let '(d, w) := approve_capability prompt w in (Some d, w)
    | None => (None, w)
    end in
  ({| apr_id := ppi_id token; apr_decision := decision; apr_cancelled := ppi_cancelled token |}, w).

(** ** Refusals after preparation *)

(** [Kernel::finalize_cancelled]. *)
Definition finalize_cancelled (run_id : RunId) (capability : CapabilityRef) (data_scope : DataScope)
    (error : KernelError) : st (Kernel W S) KernelError InvocationResult :=
  match error with
  | PreparedInvocationDenied reason =>
      _ ← record (InvocationRefused run_id capability reason data_scope);
      mret (ResRefused (refusal_for reason))
  | PreparedInvocationCancelled | PreparedInvocationStale | UnknownApp _ | HandlerNotBound _ _ =>
      _ ← record (InvocationCancelled run_id capability data_scope);
      mret (ResRefused RefCancelled)
  | error => st_fail error
  end.

(** Resolve a consumed phase: on an error recovery is required, and in any case
    the pending entry goes. *)
Definition consume_pending {A} (id : N) (m : st (Kernel W S) KernelError A)
    : st (Kernel W S) KernelError A :=
  result ← st_catch m;
  _ ← match result with
      | Err _ => require_recovery_after_consumed_transition
      | _ => mret tt
      end;
  _ ← st_modify (remove_pending id);
  st_lift result.

(** ** Authorize *)

(** The context handed to the handler. *)
Definition context_for (pending : PendingInvocation) k : KernelResult InvocationContext :=
  installed ← Registry_app (k_registry k) (pi_acting_app pending);
  provider ← Registry_app (k_registry k) (cr_provider (pi_capability pending));
  Ok {| ic_run_id := pi_run_id pending;
        ic_invoked_by := pi_acting_app pending;
        ic_invoked_by_version := m_version (ia_manifest installed);
        ic_invoked_by_content_hash := ia_content_hash installed;
        ic_authorized_data_scope := pi_requested_data_scope pending;
        ic_secrets := secret_resolver_for (k_broker k) (cr_provider (pi_capability pending))
                        (declared_secret_names (ia_manifest provider));
        ic_artifacts := snapshot_resolver_for (k_artifacts k) (pi_requested_data_scope pending);
        ic_cancellation := {| ch_cancelled := pi_cancelled pending; ch_deadline := pi_deadline pending |} |}.

Definition mark_authorized (pending : PendingInvocation) : PendingInvocation := {|
  pi_run_id := pi_run_id pending;
  pi_acting_app := pi_acting_app pending;
  pi_capability := pi_capability pending;
  pi_grant := pi_grant pending;
  pi_requested_data_scope := pi_requested_data_scope pending;
  pi_provider_content_hash := pi_provider_content_hash pending;
  pi_output_schema := pi_output_schema pending;
  pi_input := pi_input pending;
  pi_cancelled := pi_cancelled pending;
  pi_deadline := pi_deadline pending;
  pi_state := AuthorizedForExecution |}.

(** The entry a phase expects, in the state it expects. *)
Definition require_phase (id : N) (state : PendingInvocationState) k : KernelResult PendingInvocation :=
  match k_pending_invocations k !! id with
  | Some pending => if bool_decide (pi_state pending = state) then Ok pending
                    else Err PreparedInvocationConsumed
  | None => Err PreparedInvocationConsumed
  end.

(** A record whose failure loses the phase: recovery is required and the entry
    goes; on success the entry stays. *)
Definition record_consuming (id : N) (event : LedgerEvent) : st (Kernel W S) KernelError unit :=
  result ← st_catch (record event);
  match result with
  | Err error =>
      _ ← require_recovery_after_consumed_transition;
      _ ← st_modify (remove_pending id);
      st_fail error
  | _ => mret tt
  end.

(** Hand out the handler and the context, and mark the entry authorized. *)
Definition dispatch (approval : ApprovalResult) (pending : PendingInvocation)
    : st (Kernel W S) KernelError (AuthorizeInvocation W) := fun k =>
  (handler ← st_lift (ok_or (bound_handler (pi_capability pending) k)
                        (handler_not_bound (pi_capability pending)));
   context ← st_lift (context_for pending k);
   _ ← st_modify (fun k => set_pending_invocations
         (<[apr_id approval := mark_authorized pending]> (k_pending_invocations k)) k);
   mret (Authorized {| aui_id := apr_id approval; aui_handler := handler;
                       aui_input := pi_input pending; aui_context := context;
                       aui_cancelled := apr_cancelled approval |})) k.

(** From revalidation on. *)
Definition authorize_revalidated (approval : ApprovalResult) (pending : PendingInvocation)
    : st (Kernel W S) KernelError (AuthorizeInvocation W) :=
  revalidation ← st_catch (revalidate_pending pending);
  match revalidation with
  | Err error =>
      result ← consume_pending (apr_id approval)
        (finalize_cancelled (pi_run_id pending) (pi_capability pending)
           (pi_requested_data_scope pending) error);
      mret (AuthorizeRefused result)
  | _ =>
      _ ← (if bool_decide (g_condition (pi_grant pending) = RequiresApproval)
           then
             input_sha256 ← st_lift (payload_sha256 (VObject (pi_input pending)));
             record_consuming (apr_id approval)
               (CapabilityInvoked (pi_run_id pending) (pi_capability pending)
                  (g_grant_id (pi_grant pending)) input_sha256 (pi_requested_data_scope pending))
           else mret tt);
      dispatch approval pending
  end.

(** The body of [authorize_invocation]. *)
Definition authorize_body (approval : ApprovalResult)
    : st (Kernel W S) KernelError (AuthorizeInvocation W) := fun k =>
  (pending ← st_lift (require_phase (apr_id approval) PreparedForApproval k);
   match apr_decision approval with
   | Some decision =>
       _ ← record_consuming (apr_id approval)
             match decision with
             | Approved => ApprovalGranted (pi_run_id pending) (pi_capability pending)
                 (g_grant_id (pi_grant pending)) (pi_requested_data_scope pending)
             | Denied => ApprovalDenied (pi_run_id pending) (pi_capability pending)
                 (g_grant_id (pi_grant pending)) (pi_requested_data_scope pending)
             end;
       match decision with
       | Denied =>
           _ ← st_modify (remove_pending (apr_id approval));
           mret (AuthorizeRefused (ResRefused RefApprovalDenied))
       | Approved => authorize_revalidated approval pending
       end
   | None => authorize_revalidated approval pending
   end) k.

(** [Kernel::authorize_invocation]: the consumed approval raises its flag when it
    is dropped, unless the flag went on with an execution token. *)
Definition authorize_invocation (approval : ApprovalResult)
    : st (Kernel W S) KernelError (AuthorizeInvocation W) := fun k =>
  match authorize_body approval k with
  | (Ok (Authorized token), k') => (Ok (Authorized token), k')
  | (r, k') => (r, raise_flag (apr_cancelled approval) k')
  end.

(** ** Execute *)

(** [AuthorizedInvocation::execute_with_progress]: runs in the host's world, with
    the shared flags but without the kernel. *)
Definition execute (token : AuthorizedInvocation W) (flags : Flags) (w : W)
    : ExecutedInvocation * Flags * W :=
  let executed outcome panic before :=
    {| exi_id := aui_id token; exi_outcome := outcome; exi_panic := panic;
       exi_cancelled_before_dispatch := before; exi_cancelled := aui_cancelled token |} in
  let '(cancelled, flags, w) :=
    CancellationHandle_is_cancelled (ic_cancellation (aui_context token)) flags w in
  if (cancelled : bool) then (executed None None true, flags, w)
  else
    let '(returned, raised, w) := aui_handler token (aui_input token) (aui_context token) w in
    let flags := if (raised : bool)
                 then CancellationHandle_cancel (ic_cancellation (aui_context token)) flags
                 else flags in
    match returned with
    | HandlerOk outcome => (executed (Some (inl outcome)) None false, flags, w)
    | HandlerErr failure => (executed (Some (inr failure)) None false, flags, w)
    | HandlerPanic payload =>
        (executed None (Some ("handler panicked: " ++ panic_message payload)%string) false, flags, w)
    end.

(** [execute] as a step of the whole session. *)
Definition execute_step (token : AuthorizedInvocation W) k : ExecutedInvocation * Kernel W S :=
  let '(executed, flags, w) := execute token (k_flags k) (k_world k) in
  (executed, set_world w (set_flags flags k)).

(** ** Finalize *)

(** [Kernel::fail_invocation]. *)
Definition fail_invocation (run_id : RunId) (capability : CapabilityRef) (grant : Grant)
    (data_scope : DataScope) (error : string) : st (Kernel W S) KernelError InvocationResult :=
  _ ← record (CapabilityFailed run_id capability (g_grant_id grant) error data_scope);
  mret (ResFailed error).

(** [Kernel::validate_draft]. *)
Definition validate_draft (provider : AppId) (draft : ArtifactDraft) k : KernelResult unit :=
  declared_type ← Registry_artifact_type (k_registry k) provider (ad_artifact_type draft);
  validate_against_schema (ad_content draft) (at_json_schema declared_type) ArtifactContent
    (ad_title draft ++ " (type '" ++ ad_artifact_type draft ++ "')").

(** [Kernel::stamp_artifact]. *)
Definition stamp_artifact (run_id : RunId) (capability : CapabilityRef) (grant : Grant)
    (draft : ArtifactDraft) : st W KernelError Artifact :=
  uuid ← new_uuid;
  recorded_at ← clock_now;
  mret {| a_artifact_id := new_artifact_id uuid;
          a_artifact_type := ad_artifact_type draft;
          a_title := ad_title draft;
          a_content := ad_content draft;
          a_provenance := {| pv_run_id := run_id; pv_capability := capability;
                             pv_grant_id := g_grant_id grant;
                             pv_produced_by := cr_provider capability;
                             pv_recorded_at := recorded_at |} |}.

(** The checks of [complete_outcome]: the result, then every draft. *)
Definition validate_outcome (capability : CapabilityRef) (output_schema : option JsonObject)
    (outcome : CapabilityOutcome) k : KernelResult unit :=
  _ ← match output_schema with
      | Some schema => validate_against_schema (co_result outcome) schema CapabilityOutput
                         (CapabilityRef_qualified_name capability)
      | None => Ok tt
      end;
  for_each (fun draft => validate_draft (cr_provider capability) draft k) (co_artifacts outcome).

(** [Kernel::complete_outcome]. *)
Definition complete_outcome (run_id : RunId) (capability : CapabilityRef) (grant : Grant)
    (data_scope : DataScope) (output_schema : option JsonObject) (outcome : CapabilityOutcome)
    : st (Kernel W S) KernelError InvocationResult := fun k =>
  match validate_outcome capability output_schema outcome k with
  | Err error => fail_invocation run_id capability grant data_scope (KernelError_display error) k
  | Panic msg => (Panic msg, k)
  | Ok _ =>
      (stored ← on_world (st_map (stamp_artifact run_id capability grant) (co_artifacts outcome));
       result_sha256 ← st_lift (payload_sha256 (co_result outcome));
       _ ← commit_completion
         (((fun artifact => ArtifactProduced run_id (a_artifact_id artifact) (a_artifact_type artifact))
             <$> stored)
          ++ [CapabilityCompleted run_id capability (g_grant_id grant) result_sha256 data_scope])
         stored;
       mret (ResCompleted (co_result outcome) stored)) k
  end.

(** [Kernel::finalize_invocation]. *)
Definition finalize_invocation (executed : ExecutedInvocation)
    : st (Kernel W S) KernelError InvocationResult := fun k =>
  (pending ← st_lift (require_phase (exi_id executed) AuthorizedForExecution k);
   revalidation ← st_catch (revalidate_pending pending);
   consume_pending (exi_id executed)
     match revalidation with
     | Err error => finalize_cancelled (pi_run_id pending) (pi_capability pending)
                      (pi_requested_data_scope pending) error
     | _ =>
         if exi_cancelled_before_dispatch executed
         then finalize_cancelled (pi_run_id pending) (pi_capability pending)
                (pi_requested_data_scope pending) PreparedInvocationCancelled
         else
           match exi_panic executed, exi_outcome executed with
           | Some error, _ => fail_invocation (pi_run_id pending) (pi_capability pending)
               (pi_grant pending) (pi_requested_data_scope pending) error
           | None, Some (inl outcome) => complete_outcome (pi_run_id pending) (pi_capability pending)
               (pi_grant pending) (pi_requested_data_scope pending) (pi_output_schema pending) outcome
           | None, Some (inr failure) => fail_invocation (pi_run_id pending) (pi_capability pending)
               (pi_grant pending) (pi_requested_data_scope pending) (hf_error failure)
           | None, None => st_lift (Panic "authorized execution always returns an outcome")
           end
     end) k.

(** [Kernel::abort_pending]. *)
Definition abort_pending (id : N) : st (Kernel W S) KernelError InvocationResult := fun k =>
  match k_pending_invocations k !! id with
  | None => (Err PreparedInvocationConsumed, k)
  | Some pending =>
      (_ ← record (cancellation_event pending);
       _ ← st_modify (remove_pending id);
       mret (ResRefused RefCancelled)) k
  end.

(** [Kernel::abort_prepared_invocation]: the token is dropped at the end. *)
Definition abort_prepared_invocation (token : PreparedInvocation)
    : st (Kernel W S) KernelError InvocationResult := fun k =>
  let '(r, k') := abort_pending (ppi_id token) k in (r, raise_flag (ppi_cancelled token) k').

(** [Kernel::abort_authorized_invocation]. *)
Definition abort_authorized_invocation (token : AuthorizedInvocation W)
    : st (Kernel W S) KernelError InvocationResult := fun k =>
  let '(r, k') := abort_pending (aui_id token) k in
  (r, set_flags (CancellationHandle_cancel (ic_cancellation (aui_context token)) (k_flags k')) k').

(** ** Surfaces *)

(** [Kernel::open_surface]. *)
Definition open_surface (app_id : AppId) (surface : SurfaceName)
    : st (Kernel W S) KernelError SurfaceBinding := fun k =>
  ('(binding, surfaces) ← on_world (SurfaceManager_open (k_surfaces k) (k_registry k) app_id surface);
   _ ← st_modify (set_surfaces surfaces);
   mret binding) k.

(** [Kernel::close_surface]. *)
Definition close_surface (binding : SurfaceBinding) : st (Kernel W S) KernelError unit :=
  st_modify (fun k => set_surfaces (SurfaceManager_close (k_surfaces k) binding) k).

(** [Kernel::require_open_surface]. *)
Definition require_open_surface (binding : SurfaceBinding) k : KernelResult unit :=
  SurfaceManager_require_open (k_surfaces k) binding.

(** [Kernel::prepare_surface_action]. *)
Definition prepare_surface_action (binding : SurfaceBinding) (intent : ActionIntent)
    : st (Kernel W S) KernelError (RunId * PrepareInvocation) := fun k =>
  (_ ← st_lift (SurfaceManager_require_open (k_surfaces k) binding);
   declared_surface ← st_lift (Registry_surface (k_registry k) (sb_app_id binding) (sb_surface binding));
   _ ← st_lift (if negb (bool_decide (ai_capability intent ∈ sd_intents declared_surface))
                then Err (UndeclaredSurfaceIntent (sb_app_id binding) (sb_surface binding)
                            (ai_capability intent)) else Ok tt);
   run_id ← start_run (InitSurfaceAction (sb_app_id binding) (sb_surface binding)) (ai_goal intent);
   prepared ← st_catch (prepare_invocation_with_context run_id (ai_capability intent)
     {| ir_input := ai_input intent; ir_data_scope := ai_data_scope intent |}
     DEFAULT_INVOCATION_TIMEOUT
     (bool_decide (sb_app_id binding = cr_provider (ai_capability intent))));
   match prepared with
   | Err error =>
       _ ← st_catch (end_run run_id RunFailed);
       st_fail error
   | _ => prepared ← st_lift prepared; mret (run_id, prepared)
   end) k.

(** ** Leases, secrets, events *)

Definition on_leases {A} (m : st (LeaseManager * W) KernelError A) : st (Kernel W S) KernelError A := fun k =>
  let '(r, (leases, w)) := m (k_leases k, k_world k) in (r, set_leases leases (set_world w k)).

(** [Kernel::acquire_lease]. *)
Definition acquire_lease (run_id : RunId) (target : LeaseTarget) (duration : Duration)
    : st (Kernel W S) KernelError LeaseOutcome := fun k =>
  (run ← st_lift (run_view (k_ledger k) run_id);
   _ ← st_lift (if negb (RunView_is_active run) then Err (RunAlreadyEnded run_id) else Ok tt);
   outcome ← on_leases (LeaseManager_acquire run_id target duration);
   _ ← match outcome with
       | Conflict holder => show_notice_or_fail
           (LeaseConflict (LeaseTarget_resource_name target) (le_run_id holder) run_id)
       | Acquired _ => mret tt
       end;
   mret outcome) k.

(** [Kernel::put_secret]. *)
Definition kernel_put_secret (secret_ref : SecretRef) (value : string) : st (Kernel W S) KernelError unit :=
  st_modify (fun k => set_broker (put_secret (k_broker k) secret_ref value) k).

(** [Kernel::clear_secret]. *)
Definition kernel_clear_secret (secret_ref : SecretRef) : st (Kernel W S) KernelError unit :=
  st_modify (fun k => set_broker (clear_secret (k_broker k) secret_ref) k).

(** [Kernel::secret_resolver_for]. *)
Definition kernel_secret_resolver_for (app_id : AppId) k : KernelResult SecretResolver :=
  app ← Registry_app (k_registry k) app_id;
  Ok (secret_resolver_for (k_broker k) app_id (declared_secret_names (ia_manifest app))).

(** [Kernel::drain_inbox]. *)
Definition drain_inbox (app_id : AppId) : st (Kernel W S) KernelError (list AppEventEnvelope) := fun k =>
  ('(events, router) ← st_lift (MessageRouter_drain_inbox (k_router k) app_id (k_registry k));
   _ ← st_modify (set_router router);
   mret events) k.

(** [Kernel::inbox_status]. *)
Definition inbox_status (app_id : AppId) k : KernelResult EventInboxStatus :=
  MessageRouter_inbox_status (k_router k) app_id (k_registry k).

(** [Kernel::publish_app_data_change]. *)
Definition publish_app_data_change (provider_app_id : AppId) (resource_ref : string) (revision : N)
    (change_kind : AppDataChangeKind) : st (Kernel W S) KernelError unit := fun k =>
  (_ ← st_lift (Registry_app (k_registry k) provider_app_id);
   _ ← st_lift (if is_blank resource_ref then Err (Durability "resource ref must not be empty") else Ok tt);
   st_modify (fun k => set_router (MessageRouter_publish_data_change (k_router k) provider_app_id
     resource_ref revision change_kind (k_registry k)) k)) k.

(** [Kernel::check_grant]. *)
Definition check_grant (holder : AppId) (capability : CapabilityRef)
    : st (Kernel W S) KernelError GrantCheck := fun k =>
  on_world (broker_check (k_broker k) holder capability NoData) k.

End invoke.
