(* ===== verification/KernelBoot.v ===== *)
(** * Recovery

    The constructors of [kernel.rs] that load a durable state, check it against
    the ledger and interrupt the runs that were active when the host stopped. *)

From S2P Require Import Prelude RustStd Json Types Errors Grants Manifest Platform Ledger Registry.
From S2P Require Import Broker Artifacts Surfaces Router Invocation Durable KernelState KernelGrants.

(** ** Checks on a recovered state *)

(** Where an artifact was produced: record index, run and type. *)
Abbreviation Production := (nat * RunId * ArtifactTypeName)%type (only parsing).

(** The production records by artifact id; an artifact is produced once. *)
Fixpoint collect_produced (produced : gmap ArtifactId Production) (index : nat)
    (records : list LedgerRecord) : KernelResult (gmap ArtifactId Production) :=
  match records with
  | [] => Ok produced
  | record :: records' =>
      match lr_event record with
      | ArtifactProduced run_id artifact_id artifact_type =>
          match produced !! artifact_id with
          | Some _ => Err (Durability ("duplicate artifact production record '" ++ artifact_id ++ "'"))
          | None => collect_produced (<[artifact_id := (index, run_id, artifact_type)]> produced)
                      (S index) records'
          end
      | _ => collect_produced produced (S index) records'
      end
  end.

Definition is_artifact_produced (record : LedgerRecord) : bool :=
  match lr_event record with ArtifactProduced _ _ _ => true | _ => false end.

(** The completion an artifact's batch must end in. *)
Definition completes (artifact : Artifact) (run_id : RunId) (grant : Grant) (record : LedgerRecord) : bool :=
  match lr_event record with
  | CapabilityCompleted completed_run capability grant_id _ data_scope =>
      bool_decide (completed_run = run_id)
      && bool_decide (capability = pv_capability (a_provenance artifact))
      && bool_decide (grant_id = pv_grant_id (a_provenance artifact))
      && DataScope_covers (g_data_scope grant) data_scope
  | _ => false
  end.

Definition artifact_error (artifact : Artifact) (message : string) : KernelError :=
  Durability ("artifact '" ++ a_artifact_id artifact ++ "' " ++ message).

(** The checks of [validate_recovered_state] on one artifact. *)
Definition validate_recovered_artifact (ledger : RunLedger) (durable_grants : gmap GrantId Grant)
    (produced : gmap ArtifactId Production) (artifact : Artifact) : KernelResult unit :=
  '(produced_at, run_id, artifact_type) ←
    ok_or (produced !! a_artifact_id artifact) (artifact_error artifact "has no production record");
  let provenance := a_provenance artifact in
  _ ← (if negb (bool_decide (run_id = pv_run_id provenance))
          || negb (bool_decide (artifact_type = a_artifact_type artifact))
       then Err (artifact_error artifact "provenance disagrees with its ledger record") else Ok tt);
  _ ← (if negb (bool_decide (pv_produced_by provenance = cr_provider (pv_capability provenance)))
       then Err (artifact_error artifact "producer disagrees with its capability provider") else Ok tt);
  grant ← ok_or (durable_grants !! pv_grant_id provenance)
            (artifact_error artifact ("references unknown grant '" ++ pv_grant_id provenance ++ "'"));
  run ← run_view ledger run_id;
  _ ← (if negb (bool_decide (g_holder grant = RunView_initiating_app run))
          || negb (GrantScope_covers (g_scope grant) (pv_capability provenance))
       then Err (artifact_error artifact "grant does not cover its run and capability") else Ok tt);
  match List.find (fun record => negb (is_artifact_produced record))
          (drop (S produced_at) (l_records ledger)) with
  | Some record => if completes artifact run_id grant record then Ok tt
                   else Err (artifact_error artifact "has no matching completion record")
  | None => Err (artifact_error artifact "has no matching completion record")
  end.

(** A live grant needs its holder and its provider. *)
Definition validate_recovered_grant (registry : Registry) (revoked : list GrantId) (grant : Grant)
    : KernelResult unit :=
  if bool_decide (g_grant_id grant ∈ revoked) then Ok tt
  else
    _ ← map_err (fun _ => Durability ("live grant '" ++ g_grant_id grant ++ "' has no installed holder"))
          (Registry_app registry (g_holder grant));
    _ ← map_err (fun _ => Durability ("live grant '" ++ g_grant_id grant ++ "' has no installed provider"))
          (Registry_app registry (GrantScope_provider (g_scope grant)));
    Ok tt.

(** [Kernel::validate_recovered_state]. *)
Definition validate_recovered_state (registry : Registry) (ledger : RunLedger)
    (broker : PermissionBroker) (artifacts : ArtifactStore) : KernelResult unit :=
  produced ← collect_produced ∅ 0 (l_records ledger);
  let grants_by_id := list_to_map ((fun grant => (g_grant_id grant, grant)) <$> durable_grants broker) in
  _ ← (if negb (bool_decide (size produced = length (ArtifactStore_all artifacts)))
       then Err (Durability "artifact records and durable artifacts differ") else Ok tt);
  _ ← for_each (validate_recovered_artifact ledger grants_by_id produced) (ArtifactStore_all artifacts);
  for_each (validate_recovered_grant registry (durable_revocations broker)) (durable_grants broker).

(** ** Construction *)

Section boot.
Context {W S : Type} `{Libraries, Environment W, TrustedChrome W, KernelStateStore S}.
Implicit Types (k : Kernel W S).

(** Interrupt the runs the host left active. *)
Definition interrupt_active_runs : st (Kernel W S) KernelError unit := fun k =>
  match active_run_ids (k_ledger k) with
  | [] => (Ok tt, k)
  | active =>
      (cancellations ← st_lift (incomplete_invocation_cancellations (k_ledger k));
       record_batch (cancellations ++ ((fun run_id => RunEnded run_id RunInterrupted) <$> active))) k
  end.

(** Load the services from a durable state. *)
Definition restore_services (state : DurableKernelState) : st (Kernel W S) KernelError unit :=
  registry ← st_lift (Registry_restore (dk_installed_apps state));
  _ ← st_modify (set_registry registry);
  ledger ← on_world (RunLedger_restore (dk_ledger_records state));
  _ ← st_modify (set_ledger ledger);
  broker ← st_lift (PermissionBroker_restore (dk_grants state) (dk_revoked_grant_ids state));
  _ ← st_modify (set_broker broker);
  artifacts ← st_lift (ArtifactStore_restore (dk_artifacts state));
  _ ← st_modify (set_artifacts artifacts);
  _ ← st_lift (for_each (fun app => validate_grant_requests registry (ia_manifest app) Tolerate)
                 (Registry_installed_apps registry));
  st_lift (validate_recovered_state registry ledger broker artifacts).

(** [Kernel::with_clock_and_state_store]: on an error the half-built kernel is
    dropped, and what is left is the world and the store. *)
Definition with_clock_and_state_store (chrome next_invocation_id : N) (w : W) (store : S)
    : outcome KernelError unit * Kernel W S :=
  let k := set_state_store (Some store) (Kernel_with_clock chrome next_invocation_id w) in
  match store_load store with
  | Err error => (Err (Durability error), k)
  | Panic msg => (Panic msg, k)
  | Ok None => (Ok tt, k)
  | Ok (Some state) => (_ ← restore_services state; interrupt_active_runs) k
  end.

End boot.
