(* ===== verification/Durability.v ===== *)
(** * Durable state and the commit discipline

    The refinement of the in-memory services by the durable store: unless recovery
    is required, loading the store rebuilds exactly the registry, the ledger, the
    grants and the artifacts the kernel holds. [DurableInvariant] states what a
    property of the durable part needs for every kernel operation to keep it; the
    refinement, the append-only history and the freeze after an unresolved commit
    are three instances. *)

From S2P Require Import Prelude RustStd Json Types Errors Grants Manifest Platform Ledger.
From S2P Require Import Registry Broker BrokerFacts Artifacts Surfaces Router Invocation Durable KernelState KernelGrants.
From S2P Require Import KernelInstall KernelInvoke KernelBoot.

(** ** The refinement relation *)

Section relation.
Context `{Libraries}.

(** The invariants of the four durable services. *)
Record services_wf (r : Registry) (l : RunLedger) (b : PermissionBroker) (a : ArtifactStore) : Prop := {
  sw_registry : registry_wf r;
  sw_ledger : ledger_wf l;
  sw_parents : parents_ok (l_records l) (l_runs l);
  sw_broker : broker_wf b;
  sw_artifacts : artifacts_wf a;
}.

(** Secrets are not durable. *)
Definition without_secrets (b : PermissionBroker) : PermissionBroker :=
  {| b_grants := b_grants b; b_revoked := b_revoked b; b_secrets := ∅ |}.

(** Restoring [d] gives the services. *)
Record recovers_to (d : DurableKernelState) (r : Registry) (l : RunLedger) (b : PermissionBroker)
    (a : ArtifactStore) : Prop := {
  rt_registry : Registry_restore (dk_installed_apps d) = Ok r;
  rt_ledger : dk_ledger_records d = l_records l;
  rt_broker : PermissionBroker_restore (dk_grants d) (dk_revoked_grant_ids d) = Ok (without_secrets b);
  rt_artifacts : ArtifactStore_restore (dk_artifacts d) = Ok a;
}.

Lemma recovers_durable_state r l b a :
  services_wf r l b a -> recovers_to (durable_state r l b a) r l b a.
Proof.
  intros []. split; simpl; [by apply restore_installed_apps | done
    | by apply restore_durable_grants | by apply ArtifactStore_restore_roundtrip].
Qed.

End relation.

Section durability.
Context {W S : Type} `{Libraries, Environment W, TrustedChrome W, KernelStateStore S}.
Context `{!KernelStateStoreLaws S}.
Implicit Types (k : Kernel W S).

(** What a store holds; a store that was never written stands for empty services. *)
Definition store_holds (s : S) (r : Registry) (l : RunLedger) (b : PermissionBroker)
    (a : ArtifactStore) : Prop :=
  match store_load s with
  | Ok (Some d) => recovers_to d r l b a
  | Ok None => r_apps r = ∅ /\ l_records l = [] /\ b_grants b = ∅ /\ b_revoked b = ∅ /\
               as_artifacts a = ∅
  | _ => False
  end.

(** The part of the kernel the relation is about. *)
Definition durable_part k :=
  (k_registry k, k_ledger k, k_broker k, k_artifacts k, k_state_store k, k_recovery_required k).

(** The invariant: well-formed services, mirrored by the store unless recovery is
    required. *)
Record durable_ok k : Prop := {
  do_services : services_wf (k_registry k) (k_ledger k) (k_broker k) (k_artifacts k);
  do_store : k_recovery_required k = false -> ∀ s, k_state_store k = Some s ->
    store_holds s (k_registry k) (k_ledger k) (k_broker k) (k_artifacts k);
}.

Lemma durable_ok_ext k k' : durable_part k = durable_part k' -> durable_ok k -> durable_ok k'.
Proof.
  destruct k, k'. unfold durable_part. simpl. intros [= -> -> -> -> -> ->] [Hs Hst].
  split; simpl in *; done.
Qed.

Lemma on_world_snd {A} (m : st W KernelError A) k : (on_world m k).2 = set_world (m (k_world k)).2 k.
Proof. unfold on_world. by destruct (m (k_world k)). Qed.

Lemma on_world_Ok {A} (m : st W KernelError A) k a k' :
  on_world m k = (Ok a, k') -> m (k_world k) = (Ok a, k_world k') /\ k' = set_world (k_world k') k.
Proof. unfold on_world. destruct (m (k_world k)) as [r w]. intros [= -> <-]. done. Qed.

Lemma frames_on_world {A} (m : st W KernelError A) : frames durable_part (on_world m).
Proof. intros k. by rewrite on_world_snd. Qed.

(** ** The commit *)

(** A failed commit leaves the kernel related to its store; a successful one
    leaves memory alone and has put the candidate into the store. *)
Lemma commit_parts_cases r l b a k :
  durable_ok k -> services_wf r l b a ->
  match commit_parts r l b a k with
  | (Ok _, k') => ∃ so, k' = set_state_store so k /\ k_recovery_required k = false /\
                    (is_Some so <-> is_Some (k_state_store k)) /\
                    ∀ s, so = Some s -> store_holds s r l b a
  | (Err _, k') => durable_ok k'
  | (Panic _, _) => False
  end.
Proof.
  intros Hk Hwf. unfold commit_parts. destruct (k_recovery_required k) eqn:Hrec; [done|].
  destruct (k_state_store k) as [s|] eqn:Hs.
  2: { exists None. split; [|naive_solver]. destruct k; simpl in *; by subst. }
  destruct (store_commit _ s) as [[|e|e] s'] eqn:Hc.
  - exists (Some s'). split; [done|]. split; [done|]. split; [naive_solver|]. intros s0 [= <-].
    unfold store_holds. rewrite (commit_committed _ _ _ Hc). by apply recovers_durable_state.
  - destruct Hk as [Hsv Hst]. split; simpl; [done|]. intros _ s0 [= <-].
    unfold store_holds. rewrite (commit_not_committed _ _ _ _ Hc). by apply Hst.
  - destruct Hk as [Hsv Hst]. split; simpl; [done|]. done.
Qed.

(** ** Candidates and invariants *)

(** What every operation commits: well-formed services whose ledger extends the
    current one and which revoke at least what is revoked now. *)
Record candidate k (r : Registry) (l : RunLedger) (b : PermissionBroker) (a : ArtifactStore) : Prop := {
  ca_wf : services_wf (k_registry k) (k_ledger k) (k_broker k) (k_artifacts k) -> services_wf r l b a;
  ca_ledger : l_records (k_ledger k) `prefix_of` l_records l;
  ca_revoked : b_revoked (k_broker k) ⊆ b_revoked b;
}.

(** A property of the durable part that survives whatever an operation may do:
    changes elsewhere, the recovery flag, secrets, and a commit followed by the
    installation of what was committed. *)
Class DurableInvariant (I : Kernel W S -> Prop) : Prop := {
  di_ext : ∀ k k', durable_part k = durable_part k' -> I k -> I k';
  di_recovery : ∀ k, I k -> I (set_recovery_required true k);
  di_secrets : ∀ k secrets, I k -> I (set_broker (with_secrets (k_broker k) secrets) k);
  di_commit : ∀ A r l b a (f : st (Kernel W S) KernelError A) k,
    I k -> candidate k r l b a ->
    (∀ so, durable_part (f (set_state_store so k)).2 = (r, l, b, a, so, k_recovery_required k)) ->
    I ((_ ← commit_parts r l b a; f) k).2;
}.

(** The refinement is such a property. *)
#[export] Instance durable_ok_invariant : DurableInvariant durable_ok.
Proof.
  split.
  - apply durable_ok_ext.
  - intros k [Hs _]. by split.
  - intros k secrets [[Hr Hl Hp [Hk Hv Hrev] Ha] Hst]. split; [by split; [..|split|]|].
    intros Hrec s Hs. specialize (Hst Hrec s Hs). unfold store_holds in *.
    destruct (store_load s) as [[d|]| |]; [|done..]. by destruct Hst.
  - intros A r l b a f k Hk [Hwf _ _] Hf. specialize (Hwf (do_services _ Hk)).
    pose proof (commit_parts_cases r l b a k Hk Hwf) as Hc.
    unfold mbind, st_bind. destruct (commit_parts r l b a k) as [[[]|e|msg] k'] eqn:E; [|done..].
    destruct Hc as (so & -> & Hrec & _ & Hst). specialize (Hf so). unfold durable_part in Hf.
    simplify_eq. split; [done|]. intros _ s Hs. apply Hst. congruence.
Qed.

(** ** History *)

(** The audit log only grows and revocation is final, relative to [k0]. *)
Record history_grows (k0 k : Kernel W S) : Prop := {
  hg_ledger : l_records (k_ledger k0) `prefix_of` l_records (k_ledger k);
  hg_revoked : b_revoked (k_broker k0) ⊆ b_revoked (k_broker k);
}.

(** What [commit_parts] does to the kernel, whatever the store answers. *)
Lemma commit_parts_snd r l b a k :
  match commit_parts r l b a k with
  | (Ok _, k') => k_recovery_required k = false /\ ∃ so, k' = set_state_store so k
  | (_, k') => k' = k \/ (k_recovery_required k = false /\
      ∃ so rec, k' = set_recovery_required rec (set_state_store so k))
  end.
Proof.
  unfold commit_parts. destruct (k_recovery_required k) eqn:Hrec; [by left|].
  destruct (k_state_store k) as [s|] eqn:Hs.
  2: { split; [done|]. exists None. destruct k; simpl in *; by subst. }
  destruct (store_commit _ s) as [[|e|e] s']; [by eauto| |right; by eauto].
  right. split; [done|]. exists (Some s'), false. destruct k; simpl in *; by subst.
Qed.

#[export] Instance history_grows_invariant k0 : DurableInvariant (history_grows k0).
Proof.
  split.
  - intros k k' He [Hl Hr]. unfold durable_part in He. injection He as _ El Eb _ _ _.
    split; [by rewrite <- El|by rewrite <- Eb].
  - by intros k [].
  - by intros k x [].
  - intros A r l b a f k [Hl Hr] [_ Hcl Hcr] Hf. pose proof (commit_parts_snd r l b a k) as Hc.
    unfold mbind, st_bind. destruct (commit_parts r l b a k) as [[[]|e|msg] k'].
    + destruct Hc as (_ & so & ->). specialize (Hf so). unfold durable_part in Hf. simplify_eq.
      split; [by etrans|set_solver].
    + by destruct Hc as [->|(_ & so & rec & ->)].
    + by destruct Hc as [->|(_ & so & rec & ->)].
Qed.

(** ** Freeze *)

(** Everything durable, in memory and in the store. *)
Definition frozen_part k :=
  (k_registry k, k_ledger k, b_grants (k_broker k), b_revoked (k_broker k), k_artifacts k,
   k_state_store k, k_recovery_required k).

(** Once recovery is required, nothing durable changes any more. *)
Definition frozen_since (k0 k : Kernel W S) : Prop :=
  k_recovery_required k0 = true -> frozen_part k = frozen_part k0.

Lemma frozen_recovery k k0 :
  frozen_part k = frozen_part k0 -> k_recovery_required k = k_recovery_required k0.
Proof. unfold frozen_part. by intros [= _ _ _ _ _ _ H0']. Qed.

#[export] Instance frozen_since_invariant k0 : DurableInvariant (frozen_since k0).
Proof.
  split.
  - intros k k' He Hk Hr. rewrite <- (Hk Hr). unfold durable_part in He. unfold frozen_part.
    injection He as -> -> -> -> -> ->. done.
  - intros k Hk Hr. specialize (Hk Hr). pose proof (frozen_recovery _ _ Hk) as Hrec.
    rewrite <- Hk. unfold frozen_part. simpl. by rewrite Hrec, Hr.
  - intros k x Hk Hr. by rewrite <- (Hk Hr).
  - intros A r l b a f k Hk _ _ Hr. specialize (Hk Hr). pose proof (frozen_recovery _ _ Hk) as Hrec.
    rewrite <- Hk. unfold mbind, st_bind, commit_parts. by rewrite Hrec, Hr.
Qed.

End durability.
