(* ===== verification/Operations.v ===== *)
(** * Every operation keeps the durable invariants

    For any [DurableInvariant], each kernel operation preserves it, whatever its
    outcome. The operations that commit build a [candidate]; the others follow
    from the structure of their code. *)

From S2P Require Import Prelude RustStd Json Types Errors Grants Manifest Platform Ledger.
From S2P Require Import Registry Broker BrokerFacts Artifacts Surfaces Router Invocation Durable KernelState KernelGrants.
From S2P Require Import KernelInstall KernelInvoke KernelBoot Durability.

(** ** Candidates *)

Section candidates.
Context {W S : Type} `{Libraries, Environment W, TrustedChrome W, KernelStateStore S}.
Implicit Types (k : Kernel W S).

Lemma append_parents l e w r l' w' :
  parents_ok (l_records l) (l_runs l) -> check_parent (l_runs l) e = Ok tt ->
  RunLedger_append l e w = (Ok (r, l'), w') -> parents_ok (l_records l') (l_runs l').
Proof.
  intros Hp Hc (_ & Hi & _ & <- & ->)%RunLedger_append_Ok. by eapply parents_ok_snoc.
Qed.

Lemma check_parent_not_start runs e : is_start e = false -> check_parent runs e = Ok tt.
Proof. by destruct e. Qed.

Lemma append_all_parents l events w rs l' w' :
  parents_ok (l_records l) (l_runs l) -> Forall (fun e => is_start e = false) events ->
  append_all l events w = (Ok (rs, l'), w') -> parents_ok (l_records l') (l_runs l').
Proof.
  revert l w rs. induction events as [|e events IH]; intros l w rs Hp Hns Ha; simpl in Ha.
  { unfold mret, st_ret in Ha. by simplify_eq. }
  apply Forall_cons in Hns as [He Hns]. inv_ok Ha. eapply IH; [|done|done].
  eapply append_parents; [done| |done]. by apply check_parent_not_start.
Qed.

(** The current services are a candidate. *)
Lemma candidate_refl k : candidate k (k_registry k) (k_ledger k) (k_broker k) (k_artifacts k).
Proof. by split. Qed.

Lemma candidate_world k w r l b a : candidate k r l b a -> candidate (set_world w k) r l b a.
Proof. by intros []. Qed.

Lemma candidate_append k r l b a e w rec l' w' :
  candidate k r l b a -> (ledger_wf l -> check_parent (l_runs l) e = Ok tt) ->
  RunLedger_append l e w = (Ok (rec, l'), w') -> candidate k r l' b a.
Proof.
  intros [Hwf Hl Hr] Hc Ha. split; [|etrans; [done|]|done].
  - intros [? Hw Hp ? ?]%Hwf. split; try done; [by eapply RunLedger_append_wf|].
    eapply append_parents; [done| |done]. by apply Hc.
  - apply RunLedger_append_Ok in Ha as (_ & _ & _ & _ & ->). by eexists.
Qed.

Lemma batch_extends l events w rs l' w' :
  RunLedger_append_batch l events w = (Ok (rs, l'), w') -> l_records l' = l_records l ++ rs.
Proof. unfold RunLedger_append_batch. intros Ha. inv_ok Ha. done. Qed.

Lemma candidate_append_batch k r l b a events w rs l' w' :
  candidate k r l b a -> Forall (fun e => is_start e = false) events ->
  RunLedger_append_batch l events w = (Ok (rs, l'), w') -> candidate k r l' b a.
Proof.
  intros [Hwf Hl Hr] Hns Ha. split; [|etrans; [done|]|done].
  - intros [? Hw Hp ? ?]%Hwf. split; try done; [by eapply append_batch_wf|].
    rewrite append_batch_append_all in Ha. by eapply append_all_parents.
  - rewrite (batch_extends _ _ _ _ _ _ Ha). by eexists.
Qed.

Lemma candidate_put_all k r l b a produced :
  candidate k r l b a -> candidate k r l b (ArtifactStore_put_all a produced).
Proof.
  intros [Hwf Hl Hr]. split; [|done..]. intros []%Hwf. split; try done. by apply artifacts_wf_put_all.
Qed.

Lemma candidate_broker k r l b a b' :
  candidate k r l b a -> (broker_wf b -> broker_wf b') -> b_revoked b ⊆ b_revoked b' ->
  candidate k r l b' a.
Proof. intros [Hwf Hl Hr] Hb Hb'. split; [|done|set_solver]. intros []%Hwf. split; auto. Qed.

Lemma candidate_registry k r l b a r' :
  candidate k r l b a -> (registry_wf r -> registry_wf r') -> candidate k r' l b a.
Proof. intros [Hwf Hl Hr] Hb. split; [|done..]. intros []%Hwf. split; auto. Qed.

(** *** Brokers *)

Lemma candidate_step k r l b a b' :
  candidate k r l b a -> broker_step b b' -> candidate k r l b' a.
Proof.
  intros Hc Hs. eapply candidate_broker; [done| |by apply broker_step_revoked].
  intros Hb. by eapply broker_wf_step.
Qed.

Lemma candidate_rtc k r l b a b' :
  candidate k r l b a -> rtc broker_step b b' -> candidate k r l b' a.
Proof. intros Hc Hs. induction Hs as [|b1 b2 b3 Hs _ IH]; [done|]. apply IH. by eapply candidate_step. Qed.

Lemma revoke_each_steps b ids b' : revoke_each b ids = Ok b' -> rtc broker_step b b'.
Proof.
  revert b. induction ids as [|id ids IH]; intros b Hr; simpl in Hr; [by simplify_eq|].
  inv_ok Hr. eapply rtc_l; [by econstructor|by apply IH].
Qed.

Lemma reconcile_steps b app requests origin prompts decisions w rs issued b' w' :
  reconcile_manifest_grants b app requests origin prompts decisions w = (Ok (rs, issued, b'), w') ->
  rtc broker_step b b'.
Proof.
  revert b w rs issued. induction requests as [|req reqs IH]; intros b w rs issued Hr; simpl in Hr.
  { unfold mret, st_ret in Hr. by simplify_eq. }
  apply st_bind_Ok_inv in Hr as (existing & w1 & He & Hr).
  apply st_bind_Ok_inv in Hr as ([[r i] b1] & w2 & Hi & Hr).
  apply st_bind_Ok_inv in Hr as ([[rs' i'] b2] & w3 & Hrec & Hr). inv_prim Hr.
  transitivity b1; [|by eapply IH]. destruct existing; [by inv_prim Hi|].
  apply st_bind_Ok_inv in Hi as ([r1 b3] & w4 & Hi & Hm). inv_prim Hm.
  destruct (decision_for _ _ _); [|by inv_prim Hi]. apply rtc_once. by econstructor.
Qed.

Lemma strip_authority_steps b app_id : rtc broker_step b (strip_authority b app_id).
Proof.
  unfold strip_authority. eapply rtc_l; [apply step_revoke_for|].
  eapply rtc_l; [apply step_revoke_over|]. apply rtc_once, step_clear_all.
Qed.

End candidates.

(** ** Primitive methods *)

Section primitives.
Context {W S : Type} `{Libraries, Environment W, TrustedChrome W, KernelStateStore S}.
Context {I : Kernel W S -> Prop} `{!DurableInvariant I}.
Implicit Types (k : Kernel W S).

Lemma di_world k w : I k -> I (set_world w k).
Proof. by apply di_ext. Qed.

Lemma preserves_frame {A} (m : st (Kernel W S) KernelError A) :
  frames durable_part m -> preserves I m.
Proof. intros Hf k Hk. eapply di_ext; [|done]. by rewrite Hf. Qed.

Lemma preserves_on_world {A} (m : st W KernelError A) : preserves I (on_world m).
Proof. apply preserves_frame, frames_on_world. Qed.

Lemma preserves_quiet (f : Kernel W S -> Kernel W S) :
  (∀ k, durable_part (f k) = durable_part k) ->
  preserves I (st_modify f : st (Kernel W S) KernelError unit).
Proof. intros Hf k Hk. by eapply di_ext; [symmetry; apply Hf|]. Qed.

Lemma record_keeps e k :
  I k -> (ledger_wf (k_ledger k) -> check_parent (l_runs (k_ledger k)) e = Ok tt) -> I (record e k).2.
Proof.
  intros Hk Hc. unfold record. apply snd_bind; [done|]. intros view s [Hv <-]%st_lift_inv.
  apply snd_bind; [by apply preserves_on_world|]. intros [rec ledger] k1 [Ha ->]%on_world_Ok.
  apply di_commit; [by apply di_world| |done].
  apply candidate_world. eapply candidate_append; [apply candidate_refl|done|done].
Qed.

Lemma preserves_record e :
  is_start e = false -> preserves I (record e : st (Kernel W S) KernelError _).
Proof. intros He k Hk. apply record_keeps; [done|]. intros _. by apply check_parent_not_start. Qed.

Lemma preserves_record_batch events :
  Forall (fun e => is_start e = false) events ->
  preserves I (record_batch events : st (Kernel W S) KernelError _).
Proof.
  intros Hns k Hk. unfold record_batch. apply snd_bind; [done|]. intros views s [Hv <-]%st_lift_inv.
  apply snd_bind; [by apply preserves_on_world|]. intros [rec ledger] k1 [Ha ->]%on_world_Ok.
  apply di_commit; [by apply di_world| |done].
  apply candidate_world. eapply candidate_append_batch; [apply candidate_refl|done|done].
Qed.

Lemma preserves_commit_completion events produced :
  Forall (fun e => is_start e = false) events ->
  preserves I (commit_completion events produced : st (Kernel W S) KernelError _).
Proof.
  intros Hns k Hk. unfold commit_completion. apply snd_bind; [done|]. intros views s [Hv <-]%st_lift_inv.
  apply snd_bind; [by apply preserves_on_world|]. intros [rec ledger] k1 [Ha ->]%on_world_Ok.
  apply di_commit; [by apply di_world| |done].
  apply candidate_world, candidate_put_all. eapply candidate_append_batch; [apply candidate_refl|done|done].
Qed.

Lemma preserves_require_recovery :
  preserves I (require_recovery_after_consumed_transition : st (Kernel W S) KernelError _).
Proof.
  intros k Hk. unfold require_recovery_after_consumed_transition, st_modify. simpl.
  destruct (k_state_store k); [by apply di_recovery|done].
Qed.

End primitives.

#[export] Hint Resolve preserves_on_world preserves_record preserves_record_batch
  preserves_commit_completion preserves_require_recovery : kestral.
#[export] Hint Extern 1 (is_start ?e = false) => reflexivity : kestral.
#[export] Hint Extern 1 (is_start (match ?x with _ => _ end) = false) => (destruct x; reflexivity) : kestral.
#[export] Hint Extern 2 (preserves _ (st_modify _)) =>
  (apply preserves_quiet; intros ?; repeat case_match; reflexivity) : kestral.

(** Turn a goal about one call into one about the method. *)
Ltac at_call Hk :=
  lazymatch type of Hk with
  | _ ?k =>
      lazymatch goal with
      | |- ?I (?m k).2 => cut (preserves I m); [let H := fresh in intros H; exact (H k Hk)|]
      end
  end.
Ltac as_method :=
  let k := fresh "k" in let Hk := fresh "Hk" in intros k Hk; cbv beta; at_call Hk.

(** Step over [n] checks that only read the state. *)
Tactic Notation "skip_lifts" integer(n) := do n (apply snd_bind; [assumption|]; intros ? ? [? <-]%st_lift_inv).

Section operations.
Context {W S : Type} `{Libraries, Environment W, TrustedChrome W, KernelStateStore S}.
Context {I : Kernel W S -> Prop} `{!DurableInvariant I}.
Implicit Types (k : Kernel W S).

Lemma collect_cancelled_work flags pendings w cancelled w' :
  collect_cancelled flags pendings w = (Ok cancelled, w') ->
  Forall (fun e => is_start e = false) cancelled.*2.
Proof.
  revert w cancelled. induction pendings as [|[id p] ps IH]; intros w cancelled Hc; simpl in Hc.
  - unfold mret, st_ret in Hc. simplify_eq. constructor.
  - inv_ok Hc. apply IH in Hok0. destruct a; [by constructor|done].
Qed.

Lemma cancellation_events_work p k :
  Forall (fun e => is_start e = false)
    (cancellation_event <$> List.filter p (btree_values (k_pending_invocations k))).
Proof. apply Forall_fmap, Forall_true. done. Qed.

Lemma remove_all_part ids k :
  durable_part (foldl (fun k id => remove_pending id k) k ids) = durable_part k.
Proof. revert k. induction ids as [|id ids IH]; intros k; simpl; [done|]. by rewrite IH. Qed.

Lemma preserves_reap : preserves I (reap_cancelled_pending : st (Kernel W S) KernelError _).
Proof.
  intros k Hk. unfold reap_cancelled_pending.
  apply snd_bind; [by apply preserves_on_world|]. intros cancelled k1 Hc.
  pose proof (on_world_Ok _ _ _ _ Hc) as [Hc' ->]. apply collect_cancelled_work in Hc'.
  destruct cancelled as [|c cs]; [by apply di_world|].
  apply preserves_bind; [by apply preserves_record_batch| |by apply di_world].
  intros _. apply preserves_quiet. intros k2. apply remove_all_part.
Qed.

Lemma preserves_revalidate pending :
  preserves I (revalidate_pending pending : st (Kernel W S) KernelError _).
Proof.
  unfold revalidate_pending. as_method. st_walk.
Qed.
#[local] Hint Resolve preserves_reap preserves_revalidate : kestral.

Lemma preserves_finalize_cancelled run_id capability scope error :
  preserves I (finalize_cancelled run_id capability scope error : st (Kernel W S) KernelError _).
Proof. unfold finalize_cancelled. st_walk. Qed.
#[local] Hint Resolve preserves_finalize_cancelled : kestral.

Lemma preserves_consume {A} id (m : st (Kernel W S) KernelError A) :
  preserves I m -> preserves I (consume_pending id m).
Proof. intros Hm. unfold consume_pending. st_walk. Qed.
#[local] Hint Resolve preserves_consume : kestral.

Lemma preserves_record_consuming id event :
  is_start event = false ->
  preserves I (record_consuming id event : st (Kernel W S) KernelError _).
Proof. intros He. unfold record_consuming. st_walk. Qed.
#[local] Hint Resolve preserves_record_consuming : kestral.

Lemma preserves_dispatch approval pending :
  preserves I (dispatch approval pending : st (Kernel W S) KernelError _).
Proof. unfold dispatch. as_method. st_walk. Qed.
#[local] Hint Resolve preserves_dispatch : kestral.

Lemma preserves_authorize_revalidated approval pending :
  preserves I (authorize_revalidated approval pending : st (Kernel W S) KernelError _).
Proof. unfold authorize_revalidated. st_walk. Qed.
#[local] Hint Resolve preserves_authorize_revalidated : kestral.

Lemma preserves_authorize approval :
  preserves I (authorize_invocation approval : st (Kernel W S) KernelError _).
Proof.
  intros k Hk. unfold authorize_invocation.
  assert (I (authorize_body approval k).2) as Hb.
  { revert k Hk. unfold authorize_body. as_method. st_walk. }
  destruct (authorize_body approval k) as [[[]| |] k']; simpl in *; try done;
    by apply (di_ext k').
Qed.

Lemma preserves_fail_invocation run_id capability grant scope error :
  preserves I
    (fail_invocation run_id capability grant scope error : st (Kernel W S) KernelError _).
Proof. unfold fail_invocation. st_walk. Qed.
#[local] Hint Resolve preserves_fail_invocation : kestral.

Lemma preserves_complete_outcome run_id capability grant scope schema outcome :
  preserves I
    (complete_outcome run_id capability grant scope schema outcome : st (Kernel W S) KernelError _).
Proof.
  intros k Hk. unfold complete_outcome.
  destruct (validate_outcome _ _ _ k); [|by apply preserves_fail_invocation|done].
  at_call Hk. st_walk. apply preserves_commit_completion, Forall_app. split; [|by repeat constructor].
  by apply Forall_fmap, Forall_true.
Qed.
#[local] Hint Resolve preserves_complete_outcome : kestral.

Lemma preserves_finalize executed :
  preserves I (finalize_invocation executed : st (Kernel W S) KernelError _).
Proof. unfold finalize_invocation. as_method. st_walk. Qed.

Lemma preserves_abort id : preserves I (abort_pending id : st (Kernel W S) KernelError _).
Proof.
  intros k Hk. unfold abort_pending. destruct (k_pending_invocations k !! id); [|done].
  at_call Hk. st_walk.
Qed.


Lemma require_parent_check initiator run_id goal k :
  ledger_wf (k_ledger k) -> require_parent initiator k = Ok tt ->
  check_parent (l_runs (k_ledger k)) (RunStarted run_id initiator goal) = Ok tt.
Proof.
  intros Hwf. destruct initiator as [| |app parent]; [done..|]. simpl. intros Hp. inv_ok Hp.
  destruct (run_view_Ok _ _ _ Hwf Hok) as (state & -> & Happ & Hact).
  rewrite <- Hact, <- Happ. destruct (RunView_is_active a); [|done]. simpl in *.
  by destruct (bool_decide _).
Qed.

Lemma preserves_start_run initiator goal :
  preserves I (start_run initiator goal : st (Kernel W S) KernelError _).
Proof.
  intros k Hk. unfold start_run. apply snd_bind; [done|]. intros app s [_ <-]%st_lift_inv.
  apply snd_bind; [done|]. intros [] s [Hp <-]%st_lift_inv.
  apply snd_bind; [by apply preserves_on_world|]. intros uuid k1 [_ ->]%on_world_Ok.
  assert (I (record (RunStarted (new_run_id uuid) initiator goal) (set_world (k_world k1) k)).2) as Hr.
  { apply record_keeps; [by apply di_world|]. intros Hwf.
    by apply (require_parent_check initiator (new_run_id uuid) goal k). }
  apply snd_bind; [done|]. intros rec k2 Hrec. by rewrite Hrec in Hr.
Qed.
#[local] Hint Resolve preserves_start_run : kestral.

Lemma preserves_end_run run_id terminal :
  preserves I (end_run run_id terminal : st (Kernel W S) KernelError _).
Proof.
  unfold end_run. as_method. st_walk. apply preserves_record_batch, Forall_app.
  split; [apply cancellation_events_work|by repeat constructor].
Qed.
#[local] Hint Resolve preserves_end_run : kestral.

Lemma preserves_show_notice notice :
  preserves I (show_notice_or_fail notice : st (Kernel W S) KernelError _).
Proof. apply preserves_on_world. Qed.
#[local] Hint Resolve preserves_show_notice : kestral.

Lemma preserves_record_dispatch run app capability declaration grant request prompt :
  preserves I (record_dispatch run app capability declaration grant request prompt
    : st (Kernel W S) KernelError _).
Proof. unfold record_dispatch. as_method. st_walk. Qed.
#[local] Hint Resolve preserves_record_dispatch : kestral.

Lemma preserves_register_pending run_id app capability declaration grant request timeout approval :
  preserves I (register_pending run_id app capability declaration grant request timeout approval
    : st (Kernel W S) KernelError _).
Proof. unfold register_pending. as_method. st_walk. Qed.
#[local] Hint Resolve preserves_register_pending : kestral.

Lemma preserves_prepare_granted run app capability declaration request timeout direct grant :
  preserves I (prepare_granted run app capability declaration request timeout direct grant
    : st (Kernel W S) KernelError _).
Proof. unfold prepare_granted. as_method. st_walk. Qed.
#[local] Hint Resolve preserves_prepare_granted : kestral.

Lemma preserves_prepare run_id capability request timeout direct :
  preserves I (prepare_invocation_with_context run_id capability request timeout direct
    : st (Kernel W S) KernelError _).
Proof. unfold prepare_invocation_with_context. st_walk. Qed.
#[local] Hint Resolve preserves_prepare : kestral.

Lemma preserves_prepare_surface_action binding intent :
  preserves I (prepare_surface_action binding intent : st (Kernel W S) KernelError _).
Proof. unfold prepare_surface_action. as_method. st_walk. Qed.

Lemma preserves_on_leases {A} (m : st (LeaseManager * W) KernelError A) :
  preserves I (on_leases m : st (Kernel W S) KernelError _).
Proof.
  apply preserves_frame. intros k. unfold on_leases. by destruct (m _) as [r [l w]].
Qed.
#[local] Hint Resolve preserves_on_leases : kestral.

Lemma preserves_acquire_lease run_id target duration :
  preserves I (acquire_lease run_id target duration : st (Kernel W S) KernelError _).
Proof. unfold acquire_lease. as_method. st_walk. Qed.

(** ** Authority *)

Lemma commit_issued_keeps r b k : I k -> broker_step (k_broker k) b \/ r = Refused -> I (commit_issued r b k).2.
Proof.
  intros Hk Hb. unfold commit_issued. destruct r; [|done]. destruct Hb as [Hb|]; [|done].
  apply di_commit; [done| |done]. by eapply candidate_step; [apply candidate_refl|].
Qed.

Lemma preserves_commit_grant approval :
  preserves I (commit_grant approval : st (Kernel W S) KernelError _).
Proof.
  intros k Hk. unfold commit_grant. skip_lifts 5.
  apply snd_bind; [by apply preserves_on_world|]. intros [r b] k1 [Hi ->]%on_world_Ok.
  apply commit_issued_keeps; [by apply di_world|]. left. by econstructor.
Qed.

Lemma preserves_issue_grant holder request :
  preserves I (issue_grant holder request : st (Kernel W S) KernelError _).
Proof.
  intros k Hk. unfold issue_grant. skip_lifts 2.
  apply snd_bind; [by apply preserves_on_world|]. intros [r b] k1 [Hi ->]%on_world_Ok.
  apply commit_issued_keeps; [by apply di_world|]. left.
  unfold broker_issue in Hi. destruct (confirm_grant _ _) as [d w]. by econstructor.
Qed.

Lemma preserves_revoke_grant id : preserves I (revoke_grant id : st (Kernel W S) KernelError _).
Proof.
  intros k Hk. unfold revoke_grant. apply snd_bind; [done|]. intros b s [Hr <-]%st_lift_inv.
  apply di_commit; [done| |done]. eapply candidate_step; [apply candidate_refl|]. by econstructor.
Qed.

Lemma preserves_revoke_for_resource id :
  preserves I (revoke_grants_for_resource id : st (Kernel W S) KernelError _).
Proof.
  intros k Hk. unfold revoke_grants_for_resource.
  destruct (grant_ids_over_resource (k_broker k) id) as [|g gs]; [done|].
  apply snd_bind; [done|]. intros b s [Hr <-]%st_lift_inv.
  apply di_commit; [done| |done]. eapply candidate_rtc; [apply candidate_refl|].
  by eapply revoke_each_steps.
Qed.

Lemma preserves_put_secret r v : preserves I (kernel_put_secret r v : st (Kernel W S) KernelError _).
Proof. intros k. apply di_secrets. Qed.

Lemma preserves_clear_secret r : preserves I (kernel_clear_secret r : st (Kernel W S) KernelError _).
Proof. intros k. apply di_secrets. Qed.

(** ** Lifecycle *)

Lemma teardown_events_work app_id k : Forall (fun e => is_start e = false) (teardown_events app_id k).
Proof.
  apply Forall_app. split; [apply cancellation_events_work|]. by apply Forall_fmap, Forall_true.
Qed.

Lemma preserves_replace sealed handlers origin previous event_prompt event_decision prompts decisions :
  preserves I (replace_installed_app sealed handlers origin previous event_prompt
    event_decision prompts decisions : st (Kernel W S) KernelError _).
Proof.
  intros k Hk. unfold replace_installed_app. skip_lifts 2.
  apply snd_bind; [done|]. intros r1 s [Hun <-]%st_lift_inv. skip_lifts 4.
  apply snd_bind; [by apply preserves_on_world|]. intros r2 k1 [Hin Hk1]%on_world_Ok.
  assert (I k1) as Hk1' by (rewrite Hk1; by apply di_world). skip_lifts 1.
  apply snd_bind; [by apply preserves_on_world|]. intros [rs l2] k2 [Hl Hk2]%on_world_Ok.
  assert (I k2) as Hk2' by (rewrite Hk2; by apply di_world).
  apply snd_bind; [by apply preserves_on_world|]. intros [[results i] b2] k3 [Hb Hk3]%on_world_Ok.
  apply di_commit; [by rewrite Hk3; apply di_world| |by rewrite Hk3, Hk2, Hk1].
  rewrite Hk3, Hk2, Hk1. repeat apply candidate_world.
  eapply candidate_rtc; [|etrans; [apply strip_authority_steps|by eapply reconcile_steps]].
  eapply candidate_append_batch; [|by eapply (teardown_events_work _ k)|exact Hl].
  eapply candidate_registry; [apply candidate_refl|]. intros Hr. simpl in Hr.
  eapply Registry_install_wf; [|done]. by eapply Registry_uninstall_wf.
Qed.

Lemma preserves_commit_rebind p decisions :
  preserves I (commit_rebind p decisions : st (Kernel W S) KernelError _).
Proof.
  intros k Hk. unfold commit_rebind. skip_lifts 4.
  apply snd_bind; [by apply preserves_on_world|]. intros [[results i] b] k1 [Hb Hk1]%on_world_Ok.
  assert (I k1) as Hk1' by (rewrite Hk1; by apply di_world).
  assert (I ((if i then _ ← commit_parts (k_registry k) (k_ledger k) b (k_artifacts k);
                        st_modify (set_broker b) else mret tt) k1).2) as Hc.
  { destruct i; [|done]. apply di_commit; [done| |by rewrite Hk1]. rewrite Hk1. apply candidate_world.
    eapply candidate_rtc; [apply candidate_refl|by eapply reconcile_steps]. }
  apply snd_bind; [done|]. intros [] k2 Hk2. rewrite Hk2 in Hc. by apply (di_ext k2).
Qed.

Lemma preserves_commit_fresh p event_decision decisions :
  preserves I (commit_fresh p event_decision decisions : st (Kernel W S) KernelError _).
Proof.
  intros k Hk. unfold commit_fresh. skip_lifts 5.
  apply snd_bind; [by apply preserves_on_world|]. intros r k1 [Hin Hk1]%on_world_Ok.
  assert (I k1) as Hk1' by (rewrite Hk1; by apply di_world).
  apply snd_bind; [by apply preserves_on_world|]. intros [[results i] b] k2 [Hb Hk2]%on_world_Ok.
  apply di_commit; [by rewrite Hk2; apply di_world| |by rewrite Hk2, Hk1]. rewrite Hk2, Hk1. repeat apply candidate_world.
  eapply candidate_rtc; [|by eapply reconcile_steps].
  eapply candidate_registry; [apply candidate_refl|]. intros Hr. by eapply Registry_install_wf.
Qed.
#[local] Hint Resolve preserves_replace preserves_commit_rebind preserves_commit_fresh : kestral.

Lemma preserves_commit_install approval :
  preserves I (commit_install approval : st (Kernel W S) KernelError _).
Proof. unfold commit_install. as_method. st_walk. Qed.

Lemma preserves_upgrade sealed handlers :
  preserves I (upgrade_app sealed handlers : st (Kernel W S) KernelError _).
Proof.
  intros k Hk. unfold upgrade_app. skip_lifts 2.
  apply snd_bind; [done|]. intros r s [Hu <-]%st_lift_inv.
  apply di_commit; [done| |done]. eapply candidate_registry; [apply candidate_refl|].
  intros Hr. by eapply Registry_upgrade_wf.
Qed.

Lemma preserves_uninstall app_id : preserves I (uninstall app_id : st (Kernel W S) KernelError _).
Proof.
  intros k Hk. unfold uninstall. skip_lifts 2.
  apply snd_bind; [by apply preserves_on_world|]. intros [rs l] k1 [Hl Hk1]%on_world_Ok.
  assert (I k1) as Hk1' by (rewrite Hk1; by apply di_world).
  apply snd_bind; [done|]. intros r s [Hu <-]%st_lift_inv.
  apply di_commit; [done| |by rewrite Hk1]. rewrite Hk1. apply candidate_world.
  eapply candidate_rtc; [|apply strip_authority_steps].
  eapply candidate_append_batch; [|by eapply (teardown_events_work _ k)|exact Hl].
  eapply candidate_registry; [apply candidate_refl|]. intros Hr. by eapply Registry_uninstall_wf.
Qed.

End operations.
