(* ===== verification/Session.v ===== *)
(** * Host sessions

    The public interface of the kernel as a step relation: one step per method,
    whatever its outcome, and one per host action between the calls (time passes, a
    prompt is answered, a handler runs, a token is dropped). What holds in every
    state a session can reach is proved by induction over its steps. *)

From S2P Require Import Prelude RustStd Json Types Errors Grants Manifest Platform Ledger.
From S2P Require Import Registry Broker BrokerFacts Artifacts Surfaces Router Invocation Durable KernelState KernelGrants.
From S2P Require Import KernelInstall KernelInvoke KernelBoot Durability Operations.

Section session.
Context {W S : Type} `{Libraries, Environment W, TrustedChrome W, KernelStateStore S}.
Implicit Types (k : Kernel W S).

(** The public methods that take [&mut self] or touch an atomic. *)
Inductive public_call : ∀ {A}, st (Kernel W S) KernelError A -> Prop :=
  | call_prepare_install sealed handlers origin :
      public_call (prepare_install_with_grant_origin sealed handlers origin)
  | call_commit_install approval : public_call (commit_install approval)
  | call_upgrade_app sealed handlers : public_call (upgrade_app sealed handlers)
  | call_uninstall app_id : public_call (uninstall app_id)
  | call_start_run initiator goal : public_call (start_run initiator goal)
  | call_end_run run_id terminal : public_call (end_run run_id terminal)
  | call_prepare_invocation run_id capability request timeout :
      public_call (prepare_invocation_with_timeout run_id capability request timeout)
  | call_authorize_invocation approval : public_call (authorize_invocation approval)
  | call_finalize_invocation executed : public_call (finalize_invocation executed)
  | call_abort_prepared token : public_call (abort_prepared_invocation token)
  | call_abort_authorized token : public_call (abort_authorized_invocation token)
  | call_open_surface app_id surface : public_call (open_surface app_id surface)
  | call_close_surface binding : public_call (close_surface binding)
  | call_prepare_surface_action binding intent : public_call (prepare_surface_action binding intent)
  | call_acquire_lease run_id target duration : public_call (acquire_lease run_id target duration)
  | call_put_secret secret value : public_call (kernel_put_secret secret value)
  | call_clear_secret secret : public_call (kernel_clear_secret secret)
  | call_drain_inbox app_id : public_call (drain_inbox app_id)
  | call_publish_app_data_change app_id resource revision kind :
      public_call (publish_app_data_change app_id resource revision kind)
  | call_commit_grant approval : public_call (commit_grant approval)
  | call_issue_grant holder request : public_call (issue_grant holder request)
  | call_revoke_grant grant_id : public_call (revoke_grant grant_id)
  | call_revoke_for_resource resource : public_call (revoke_grants_for_resource resource)
  | call_cancel_pending run_id : public_call (cancel_pending_invocations_for_run run_id)
  | call_available_capabilities consumer : public_call (available_capabilities_for consumer)
  | call_check_grant holder capability : public_call (check_grant holder capability).

Inductive kernel_step : Kernel W S -> Kernel W S -> Prop :=
  | step_call {A} (m : st (Kernel W S) KernelError A) k : public_call m -> kernel_step k (m k).2
  | step_world w k : kernel_step k (set_world w k)
  | step_execute token k : kernel_step k (execute_step token k).2
  | step_drop_token flag k : kernel_step k (raise_flag flag k).

(** The states of a session that booted on [store]. *)
Definition reachable (chrome next_id : N) (w : W) (store : S) k : Prop :=
  ∃ k0, with_clock_and_state_store chrome next_id w store = (Ok tt, k0) /\ rtc kernel_step k0 k.

(** ** Steps keep the durable invariants *)

Section steps.
Context {I : Kernel W S -> Prop} `{!DurableInvariant I}.

Lemma missing_requests_quiet app_id origin requests :
  preserves I (missing_requests app_id origin requests : st (Kernel W S) KernelError _).
Proof.
  induction requests as [|r rs IH]; simpl; [apply preserves_ret|].
  apply preserves_bind; [|intros ?; st_walk]. intros k Hk. by apply preserves_on_world.
Qed.
#[local] Hint Resolve missing_requests_quiet preserves_commit_install preserves_upgrade
  preserves_uninstall preserves_start_run preserves_end_run preserves_prepare preserves_authorize
  preserves_finalize preserves_prepare_surface_action preserves_acquire_lease preserves_put_secret
  preserves_clear_secret preserves_commit_grant preserves_issue_grant preserves_revoke_grant
  preserves_revoke_for_resource : kestral.

Lemma public_call_keeps {A} (m : st (Kernel W S) KernelError A) : public_call m -> preserves I m.
Proof.
  destruct 1; try solve [eauto with kestral nocore].
  - unfold prepare_install_with_grant_origin. as_method. st_walk.
  - unfold prepare_invocation_with_timeout. st_walk.
  - intros k Hk. unfold abort_prepared_invocation. pose proof (preserves_abort (ppi_id token) k Hk) as Ha.
    destruct (abort_pending _ k) as [r k']. by apply (di_ext k').
  - intros k Hk. unfold abort_authorized_invocation. pose proof (preserves_abort (aui_id token) k Hk) as Ha.
    destruct (abort_pending _ k) as [r k']. by apply (di_ext k').
  - unfold open_surface. as_method. st_walk.
  - unfold close_surface. st_walk.
  - unfold drain_inbox. as_method. st_walk.
  - unfold publish_app_data_change. as_method. st_walk.
  - unfold cancel_pending_invocations_for_run. st_walk.
  - unfold available_capabilities_for. as_method. st_walk.
  - unfold check_grant. as_method. st_walk.
Qed.

Lemma kernel_step_keeps k k' : kernel_step k k' -> I k -> I k'.
Proof.
  destruct 1 as [A m k Hm|w k|token k|flag k]; intros Hk.
  - by apply public_call_keeps.
  - by apply (di_ext k).
  - unfold execute_step. destruct (execute _ _ _) as [[e flags] w]. by apply (di_ext k).
  - by apply (di_ext k).
Qed.

Lemma kernel_steps_keep k k' : rtc kernel_step k k' -> I k -> I k'.
Proof. induction 1 as [|k1 k2 k3 Hs _ IH]; [done|]. intros Hk. by eapply IH, kernel_step_keeps. Qed.

Lemma interrupt_active_runs_keeps : preserves I interrupt_active_runs.
Proof.
  intros k Hk. unfold interrupt_active_runs. destruct (active_run_ids (k_ledger k)) as [|r rs]; [done|].
  apply snd_bind; [done|]. intros cs s [Hc <-]%st_lift_inv.
  apply preserves_record_batch; [|done]. apply Forall_app. split; [|by apply Forall_fmap, Forall_true].
  unfold incomplete_invocation_cancellations in Hc. inv_ok Hc. simplify_eq.
  apply Forall_forall. intros e He. apply list_elem_of_bind in He as ([rid acts] & He & _).
  apply elem_of_app in He as [He|He]; by apply list_elem_of_fmap in He as (? & -> & _).
Qed.

End steps.

Lemma history_grows_refl k : history_grows k k.
Proof. by split. Qed.

(** ** Recovery *)

Context `{!KernelStateStoreLaws S}.

Lemma restore_grants_sound by_id grants by_id' :
  (∀ id g, by_id !! id = Some g -> g_grant_id g = id /\ Grant_validate g = Ok tt) ->
  restore_grants by_id grants = Ok by_id' ->
  ∀ id g, by_id' !! id = Some g -> g_grant_id g = id /\ Grant_validate g = Ok tt.
Proof.
  revert by_id. induction grants as [|g gs IH]; intros by_id Hb Hr; simpl in Hr; [by simplify_eq|].
  inv_ok Hr. destruct (by_id !! g_grant_id g) eqn:E; [done|]. eapply IH; [|done].
  intros id g'. intros [[<- <-]|[_ ?]]%lookup_insert_Some; [done|by apply Hb].
Qed.

Lemma PermissionBroker_restore_wf grants revoked b :
  PermissionBroker_restore grants revoked = Ok b -> broker_wf b /\ without_secrets b = b.
Proof.
  unfold PermissionBroker_restore. intros Hr. inv_ok Hr.
  destruct (existsb _ revoked) eqn:E; [done|]. simplify_eq. split; [|done].
  assert (∀ id g, a !! id = Some g -> g_grant_id g = id /\ Grant_validate g = Ok tt) as Hg.
  { eapply restore_grants_sound; [|done]. intros id g. by rewrite lookup_empty. }
  split; simpl; [naive_solver..|].
  intros id Hid%elem_of_list_to_set. apply not_eq_None_Some. intros Hn.
  assert (existsb (fun id => bool_decide (a !! id = None)) revoked = true) as Ht; [|congruence].
  apply existsb_exists. exists id. rewrite <- list_elem_of_In. split; [done|]. by apply bool_decide_eq_true.
Qed.

(** What a successful load leaves in the kernel. *)
Lemma restore_services_Ok d k k' :
  restore_services d k = (Ok tt, k') ->
  recovers_to d (k_registry k') (k_ledger k') (k_broker k') (k_artifacts k') /\
  services_wf (k_registry k') (k_ledger k') (k_broker k') (k_artifacts k') /\
  k_state_store k' = k_state_store k /\ k_recovery_required k' = k_recovery_required k.
Proof.
  unfold restore_services. intros Hr. inv_ok Hr. apply on_world_Ok in Hok0 as [Hl Hs0].
  repeat match goal with
  | HH : st_lift _ _ = (Ok _, _) |- _ => apply st_lift_inv in HH as [HH <-]
  end. clear Hok3 Hr. rewrite Hs0. simpl in *.
  apply RunLedger_restore_sound in Hl as (Hrec & Hwf & Hp & _).
  apply PermissionBroker_restore_wf in Hok1 as Hb. destruct Hb as [Hb Hsec].
  split; [|split]; [split; simpl; rewrite ?Hsec; auto|split; simpl|done].
  - by eapply Registry_restore_wf.
  - done.
  - done.
  - done.
  - eapply restore_artifacts_wf; [|exact Hok2]. intros id x. simpl. by rewrite lookup_empty.
Qed.

Lemma boot_durable chrome next_id w store k :
  with_clock_and_state_store chrome next_id w store = (Ok tt, k) -> durable_ok k.
Proof.
  unfold with_clock_and_state_store. intros Hb.
  destruct (store_load store) as [[d|]| |] eqn:Hl; simplify_eq.
  - apply st_bind_Ok_inv in Hb as ([] & k1 & Hr & Hi).
    apply restore_services_Ok in Hr as (Hrt & Hwf & Hst & Hrec).
    assert (durable_ok k1) as Hk1.
    { split; [done|]. intros _ s Hs. rewrite Hst in Hs. simpl in Hs. simplify_eq.
      unfold store_holds. by rewrite Hl. }
    pose proof (interrupt_active_runs_keeps (I := durable_ok) k1 Hk1) as Hk2. by rewrite Hi in Hk2.
  - split; simpl.
    + split; [apply registry_wf_new|constructor|constructor|apply broker_wf_new|].
      intros id x; simpl. by rewrite lookup_empty.
    + intros _ s [= <-]. unfold store_holds. by rewrite Hl.
Qed.

Lemma reachable_durable chrome next_id w store k :
  reachable chrome next_id w store k -> durable_ok k.
Proof.
  intros (k0 & Hb & Hr). apply boot_durable in Hb. by eapply kernel_steps_keep.
Qed.

End session.
