(* ===== verification/Scenario.v ===== *)
(** * A concrete host

    Instances of the surroundings the kernel is parametrised by, small enough to
    run whole sessions by evaluation, together with one app and the session steps
    the witnesses and the executable scenarios share. *)

From S2P Require Import Prelude RustStd Json Types Errors Grants Manifest Platform Ledger Registry.
From S2P Require Import Broker Artifacts Surfaces Router Invocation Durable KernelState KernelGrants KernelInstall.
From S2P Require Import KernelInvoke KernelBoot.

Module Host.

(** ** Third-party functions *)

Fixpoint render (v : Value) : string :=
  match v with
  | VNull => "null"
  | VBool b => if b then "true" else "false"
  | VNumber t => t
  | VString s => s
  | VArray items => "[" ++ foldr (fun i acc => render i ++ "," ++ acc)%string "]" items
  | VObject members => "{" ++ foldr (fun kv acc => kv.1 ++ ":" ++ render kv.2 ++ "," ++ acc)%string "}" members
  end.

(** A validator that understands the [const] keyword. *)
Definition const_validator (schema : JsonObject) (v : Value) : list string :=
  match Value_get (VObject schema) "const" with
  | Some c => if bool_decide (v = c) then [] else [": value is not the constant"]
  | None => []
  end.

#[global] Instance libraries : Libraries := {
  schema_validator_for schema := Ok (const_validator schema);
  json_to_vec v := Ok (render v);
  json_to_string_pretty o := render (VObject o);
  manifest_to_string m := (m_app_id m ++ "@" ++ m_version m)%string;
  sha256_hex s := ("sha256:" ++ s)%string;
  max_utc := seconds 8000000000000;
  instant_max := seconds 8000000000;
}.

(** ** World *)

Record World := {
  now : DateTime;
  instant : Z;
  uuids : N;
  answers : list ApprovalDecision;
  notices : list ChromeNotice;
}.

Definition start : World :=
  {| now := seconds 1000; instant := 0; uuids := 0; answers := []; notices := [] |}.

Definition next_uuid (w : World) : string * World :=
  (pretty (uuids w),
   {| now := now w; instant := instant w; uuids := uuids w + 1; answers := answers w;
      notices := notices w |}).

Definition set_instant (i : Z) (w : World) : World :=
  {| now := now w; instant := i; uuids := uuids w; answers := answers w; notices := notices w |}.

Definition set_now (t : DateTime) (w : World) : World :=
  {| now := t; instant := instant w; uuids := uuids w; answers := answers w; notices := notices w |}.

Definition sleep (d : Z) (w : World) : World := set_instant (instant w + d) w.

#[global] Instance environment : Environment World := {
  env_now w := (now w, w);
  env_instant w := (instant w, w);
  env_uuid w := next_uuid w;
}.

(** The next prepared answer, or an approval when none is left. *)
Definition answer (w : World) : ApprovalDecision * World :=
  match answers w with
  | [] => (Approved, w)
  | d :: ds => (d, {| now := now w; instant := instant w; uuids := uuids w; answers := ds;
                      notices := notices w |})
  end.

#[global] Instance chrome : TrustedChrome World := {
  confirm_grant _ w := answer w;
  approve_capability _ w := answer w;
  confirm_event_subscriptions _ w := answer w;
  confirm_install prompt w :=
    default_confirm_install (fun _ w => answer w) (fun _ w => answer w) prompt w;
  show_notice notice w :=
    (Ok tt, {| now := now w; instant := instant w; uuids := uuids w; answers := answers w;
               notices := notices w ++ [notice] |});
}.

Abbreviation kernel := (Kernel World MemoryKernelStateStore).
Abbreviation session := (st kernel KernelError).

Definition empty_store : MemoryKernelStateStore := {| ms_state := None |}.

(** A kernel booted on an empty store. *)
Definition fresh_kernel : kernel := (with_clock_and_state_store 0 1 start empty_store).2.

(** A host step outside the kernel. *)
Definition host {A} (f : World -> A * World) : session A := fun k =>
  let '(a, w) := f (k_world k) in (Ok a, set_world w k).

(** ** An app *)

Definition read_ref : CapabilityRef := {| cr_provider := "notes"; cr_capability := "read" |}.

Definition read_capability : CapabilityDeclaration := {|
  cd_name := "read"; cd_description := "Read the notes"; cd_input_schema := [];
  cd_effect := EffectReadOnly; cd_output_schema := None |}.

Definition note_type : ArtifactTypeDeclaration :=
  {| at_name := "note"; at_description := "A note"; at_json_schema := [] |}.

Definition panel : SurfaceDeclaration := {|
  sd_name := "panel"; sd_kind := Panel; sd_title := "Notes"; sd_description := "The notes";
  sd_intents := [read_ref] |}.

Definition request (condition : GrantCondition) : GrantRequest := {|
  gq_scope := ExactCapability "notes" "read"; gq_data_scope := NoData; gq_condition := condition;
  gq_reason := "show the notes"; gq_duration := NonExpiring |}.

Definition notes (version : string) (requests : list GrantRequest) : AppManifest := {|
  m_app_id := "notes"; m_version := version; m_display_name := "Notes"; m_description := "Notes";
  m_capabilities := [read_capability]; m_surfaces := [panel]; m_agents := []; m_skills := [];
  m_assistant_profiles := []; m_automations := []; m_connectors := []; m_config_declarations := [];
  m_artifact_types := [note_type]; m_extension_points := []; m_extension_contributions := [];
  m_grant_requests := requests; m_event_subscriptions := ["run-ended"] |}.

(** A handler that returns one note. *)
Definition read_handler : CapabilityHandler World := fun _ _ w =>
  (HandlerOk {| co_result := VString "read";
                co_artifacts := [{| ad_artifact_type := "note"; ad_title := "Note";
                                    ad_content := VNull |}] |}, false, w).

Definition handlers : Handlers World := {["read" := read_handler]}.

(** ** Session steps *)

(** Install the notes app with the given requests, every prompt answered by the
    chrome. *)
Definition install (requests : list GrantRequest) : session (list IssueResult) :=
  p ← prepare_install (seal (notes "1" requests)) handlers;
  approval ← host (PreparedInstall_await_approval p);
  commit_install approval.

Definition no_input : InvocationRequest := {| ir_input := []; ir_data_scope := NoData |}.

(** Open the panel and click it: the run and the prepared token. *)
Definition click : session (RunId * PreparedInvocation) :=
  binding ← open_surface "notes" "panel";
  '(run_id, prepared) ← prepare_surface_action binding
    {| ai_capability := read_ref; ai_input := []; ai_data_scope := NoData; ai_goal := "read" |};
  match prepared with
  | Prepared token => mret (run_id, token)
  | PrepareRefused _ => st_fail PreparedInvocationConsumed
  end.

Definition prepare (run_id : RunId) : session PreparedInvocation :=
  prepared ← prepare_invocation run_id read_ref no_input;
  match prepared with
  | Prepared token => mret token
  | PrepareRefused _ => st_fail PreparedInvocationConsumed
  end.

Definition authorize (token : PreparedInvocation) : session (AuthorizedInvocation World) :=
  approval ← host (PreparedInvocation_await_approval token);
  authorized ← authorize_invocation approval;
  match authorized with
  | Authorized token => mret token
  | AuthorizeRefused _ => st_fail PreparedInvocationConsumed
  end.

Definition run_handler (token : AuthorizedInvocation World) : session ExecutedInvocation := fun k =>
  let '(executed, k) := execute_step token k in (Ok executed, k).

Definition run_token (token : AuthorizedInvocation World) : session InvocationResult :=
  executed ← run_handler token;
  finalize_invocation executed.

(** Restart the host on the store of a kernel. *)
Definition reboot (k : kernel) : outcome KernelError unit * kernel :=
  with_clock_and_state_store 0 (k_next_invocation_id k) (k_world k)
    (default empty_store (k_state_store k)).

End Host.

(** A whole session, from a boot on an empty store to a completed invocation and
    a restart, runs through. *)
Example session_runs :
  let '(r, k) := (_ ← Host.install [Host.request Silent];
                  '(run_id, token) ← Host.click;
                  token ← Host.authorize token;
                  result ← Host.run_token token;
                  _ ← end_run run_id RunCompleted;
                  mret result) Host.fresh_kernel in
  is_ok r = true /\ length (l_records (k_ledger k)) = 5 /\ is_ok (Host.reboot k).1 = true.
Proof. vm_compute. done. Qed.
