(* ===== verification/SessionFacts.v ===== *)
(** * What a session guarantees

    Durability, append-only history, the freeze after an unresolved commit and
    restarts, for every state a host session can reach. *)

From S2P Require Import Prelude RustStd Json Types Errors Grants Manifest Platform Ledger.
From S2P Require Import Registry Broker BrokerFacts Artifacts Surfaces Router Invocation Durable KernelState KernelGrants.
From S2P Require Import KernelInstall KernelInvoke KernelBoot Durability Operations Session Scenario.

Section facts.
Context {W S : Type} `{Libraries, Environment W, TrustedChrome W, KernelStateStore S}.
Implicit Types (k : Kernel W S).

(** ** Runs and the index *)

Lemma append_all_extends l events (w : W) rs l' w' :
  append_all l events w = (Ok (rs, l'), w') -> l_records l' = l_records l ++ rs.
Proof. rewrite <- append_batch_append_all. apply batch_extends. Qed.

Definition run_active (l : RunLedger) (rid : RunId) : Prop :=
  ∃ state, l_runs l !! rid = Some state /\ ri_active state = true.

Definition run_ended (l : RunLedger) (rid : RunId) : Prop :=
  ∃ state, l_runs l !! rid = Some state /\ ri_active state = false.

Lemma append_run_ended l e w r l' w' rid :
  RunLedger_append l e w = (Ok (r, l'), w') ->
  run_ended l rid \/ (∃ t, e = RunEnded rid t) -> run_ended l' rid.
Proof.
  intros (Hv & Hi & _)%RunLedger_append_Ok Hr. unfold run_ended.
  rewrite (index_event_lookup _ _ _ rid Hi Hv). apply validate_append_cases in Hv.
  destruct Hr as [(state & Hs & Ha)|[t ->]]; simpl in *.
  - rewrite Hs. case_bool_decide as He; [|by eauto]. subst rid. rewrite Hs in Hv.
    destruct (is_start e); [done|]. destruct Hv as (? & [= <-] & ?). congruence.
  - rewrite bool_decide_eq_true_2 by done. destruct Hv as (state & -> & _). by eexists.
Qed.

Lemma append_run_active l e w r l' w' rid :
  RunLedger_append l e w = (Ok (r, l'), w') -> is_start e = false -> run_active l' rid -> run_active l rid.
Proof.
  intros (Hv & Hi & _)%RunLedger_append_Ok He. unfold run_active.
  rewrite (index_event_lookup _ _ _ rid Hi Hv).
  case_bool_decide; [|done]. destruct e; try done. intros (state & Hs & Ha).
  destruct (l_runs l !! rid); by simplify_eq/=.
Qed.

Lemma append_all_ended l events w rs l' w' rid :
  append_all l events w = (Ok (rs, l'), w') ->
  run_ended l rid \/ (∃ t, RunEnded rid t ∈ events) -> run_ended l' rid.
Proof.
  revert l w rs. induction events as [|e events IH]; intros l w rs Ha Hr; simpl in Ha.
  { unfold mret, st_ret in Ha. simplify_eq. destruct Hr as [?|[t Ht]]; [done|set_solver]. }
  inv_ok Ha. eapply IH; [done|]. destruct Hr as [Hr|[t [<-|Ht]%elem_of_cons]].
  - left. eapply append_run_ended; [done|by left].
  - left. eapply append_run_ended; [done|right; by eexists].
  - right. by exists t.
Qed.

Lemma append_all_active l events w rs l' w' rid :
  append_all l events w = (Ok (rs, l'), w') -> Forall (fun e => is_start e = false) events ->
  run_active l' rid -> run_active l rid.
Proof.
  revert l w rs. induction events as [|e events IH]; intros l w rs Ha Hns; simpl in Ha.
  { unfold mret, st_ret in Ha. by simplify_eq. }
  apply Forall_cons in Hns as [He Hns]. inv_ok Ha. intros Hr.
  eapply append_run_active; [done|done|]. by eapply IH.
Qed.

Lemma elem_of_active_run_ids l rid : rid ∈ active_run_ids l <-> run_active l rid.
Proof.
  unfold active_run_ids, run_active. rewrite list_elem_of_fmap. split.
  - intros ([k state] & -> & Hin). apply list_elem_of_In, filter_In in Hin as [Hin Ha].
    apply list_elem_of_In, elem_of_btree_list in Hin. by exists state.
  - intros (state & Hs & Ha). exists (rid, state). split; [done|].
    apply list_elem_of_In, filter_In. split; [|done]. by apply list_elem_of_In, elem_of_btree_list.
Qed.

Lemma record_batch_Ok events k k' :
  record_batch events k = (Ok tt, k') ->
  ∃ rs, append_all (k_ledger k) events (k_world k) = (Ok (rs, k_ledger k'), k_world k') /\
    k_registry k' = k_registry k /\ k_broker k' = k_broker k /\ k_artifacts k' = k_artifacts k /\
    k_pending_invocations k' = k_pending_invocations k /\ k_leases k' = k_leases k /\
    k_flags k' = k_flags k /\ k_handlers k' = k_handlers k /\ k_surfaces k' = k_surfaces k.
Proof.
  unfold record_batch. intros Hr. inv_ok Hr. apply on_world_Ok in Hok0 as [Ha Hs0].
  pose proof (commit_parts_snd (k_registry s) r (k_broker s) (k_artifacts s) s0) as Hc.
  rewrite Hok1 in Hc. destruct Hc as (_ & so & ->). rewrite Hs0 in *. simpl.
  exists l. by rewrite <- append_batch_append_all.
Qed.

Lemma cancellations_work l cs :
  incomplete_invocation_cancellations l = Ok cs -> Forall (fun e => is_start e = false) cs.
Proof.
  unfold incomplete_invocation_cancellations. intros Hc. inv_ok Hc. simplify_eq.
  apply Forall_forall. intros e He. apply list_elem_of_bind in He as ([rid acts] & He & _).
  apply elem_of_app in He as [He|He]; by apply list_elem_of_fmap in He as (? & -> & _).
Qed.

(** Interrupting ends every active run and changes nothing else that is durable. *)
Lemma interrupt_Ok k k' :
  interrupt_active_runs k = (Ok tt, k') ->
  active_run_ids (k_ledger k') = [] /\ l_records (k_ledger k) `prefix_of` l_records (k_ledger k') /\
  k_registry k' = k_registry k /\ k_broker k' = k_broker k /\ k_artifacts k' = k_artifacts k.
Proof.
  unfold interrupt_active_runs. destruct (active_run_ids (k_ledger k)) as [|rid0 rids0] eqn:Hact.
  { by intros [= <-]. }
  intros Hr. inv_ok Hr. pose proof Hr as (rs & Ha & ? & ? & ? & _)%record_batch_Ok.
  split_and!; [|apply append_all_extends in Ha as ->; by eexists|done..].
  destruct (active_run_ids (k_ledger k')) as [|rid rids] eqn:Hact'; [done|]. exfalso.
  assert (run_active (k_ledger k') rid) as Hra.
  { apply elem_of_active_run_ids. rewrite Hact'. apply list_elem_of_here. }
  assert (run_ended (k_ledger k') rid) as (st2 & Hs2 & He2).
  { eapply append_all_ended; [done|]. right. exists RunInterrupted. apply elem_of_app. right.
    apply list_elem_of_fmap. exists rid. split; [done|]. rewrite <- Hact.
    apply elem_of_active_run_ids. eapply append_all_active; [done| |done].
    apply Forall_app. split; [by eapply cancellations_work|by apply Forall_fmap, Forall_true]. }
  destruct Hra as (st1 & Hs1 & He1). congruence.
Qed.

(** ** Theorems *)

Context `{!KernelStateStoreLaws S}.

(** C1: The durable store refines memory. In every state a host session can reach
    from a boot, unless recovery is required, loading the store yields exactly the
    registry, the ledger records, the grants with their revocations and the
    artifacts the kernel works with: no operation answers from state a crash would
    lose. *)
Theorem store_mirrors_memory chrome next_id w store k s :
  reachable chrome next_id w store k -> k_recovery_required k = false -> k_state_store k = Some s ->
  store_holds s (k_registry k) (k_ledger k) (k_broker k) (k_artifacts k).
Proof. intros Hr Hrec Hs. apply (do_store _ (reachable_durable _ _ _ _ _ Hr) Hrec s Hs). Qed.

(** C6: A restart loses nothing that was durable. Whatever session came before, a
    boot on its store that succeeds comes up with the same installed apps, grants,
    revocations and artifacts, with the old audit log as a prefix of the new one,
    and with every run that was active ended. *)
Theorem restart_restores chrome next_id w store k s chrome' next_id' w' k' :
  reachable chrome next_id w store k -> k_recovery_required k = false -> k_state_store k = Some s ->
  with_clock_and_state_store chrome' next_id' w' s = (Ok tt, k') ->
  k_registry k' = k_registry k /\ b_grants (k_broker k') = b_grants (k_broker k) /\
  b_revoked (k_broker k') = b_revoked (k_broker k) /\ k_artifacts k' = k_artifacts k /\
  l_records (k_ledger k) `prefix_of` l_records (k_ledger k') /\ active_run_ids (k_ledger k') = [].
Proof.
  intros Hr Hrec Hs Hb. pose proof (do_store _ (reachable_durable _ _ _ _ _ Hr) Hrec s Hs) as Hh.
  unfold store_holds in Hh. unfold with_clock_and_state_store in Hb.
  destruct (store_load s) as [[d|]| |]; try done.
  - apply st_bind_Ok_inv in Hb as ([] & k1 & Hres & Hi).
    apply restore_services_Ok in Hres as ([Hr1 Hl1 Hb1 Ha1] & _ & _).
    destruct Hh as [Hr2 Hl2 Hb2 Ha2].
    apply interrupt_Ok in Hi as (Hact & Hpre & -> & -> & ->).
    rewrite Hr1 in Hr2. rewrite Hb1 in Hb2. rewrite Ha1 in Ha2. unfold without_secrets in Hb2.
    simplify_eq. split_and!; try done. by rewrite <- Hl2, Hl1.
  - simplify_eq. destruct Hh as (Hr0 & Hl0 & Hg0 & Hv0 & Ha0). simpl.
    rewrite Hl0, Hg0, Hv0. destruct (k_registry k), (k_artifacts k); simpl in *; subst. done.
Qed.

(** C9: The audit log is append-only and revocation is final. Along any number of
    steps of a session the records already written stay in front and unchanged, no
    revocation is ever withdrawn, and whatever check is made afterwards, a grant that
    was revoked at the start is never the one it allows or asks approval for. *)
Theorem history_is_final k k' :
  rtc kernel_step k k' ->
  l_records (k_ledger k) `prefix_of` l_records (k_ledger k') /\
  b_revoked (k_broker k) ⊆ b_revoked (k_broker k') /\
  ∀ holder capability scope w r w' g,
    broker_check (k_broker k') holder capability scope w = (Ok r, w') ->
    r = Allowed g \/ r = ApprovalRequired g -> g_grant_id g ∉ b_revoked (k_broker k).
Proof.
  intros Hs. destruct (kernel_steps_keep k k' Hs (history_grows_refl k)) as [Hl Hrv].
  split; [done|]. split; [done|]. intros holder capability scope w r w' g Hc Hr Hin.
  pose proof (broker_check_sound _ _ _ _ _ _ _ g Hc Hr) as [[_ Hlive] _].
  apply bool_decide_eq_false in Hlive. set_solver.
Qed.

(** C7: An unresolved commit stops the kernel. Once recovery is required, no sequence
    of calls and host actions changes the registry, the ledger, the grants, the
    revocations, the artifacts, the store or the requirement itself. *)
Theorem recovery_required_freezes k k' :
  rtc kernel_step k k' -> k_recovery_required k = true -> frozen_part k' = frozen_part k.
Proof. intros Hs. by apply (kernel_steps_keep (I := frozen_since k) k k' Hs). Qed.

(** C31: A restart finds every durable part it needs. For any reachable state whose
    store loads, restoring the loaded state into a new kernel succeeds with the
    same registry, ledger, grants and artifacts, provided only that the checks
    across the parts hold of them: the actions replay, the grant requests of the
    installed apps validate, and the recovered state is consistent. *)
Theorem restart_loads chrome next_id w store k s d actions k0 :
  reachable chrome next_id w store k -> k_recovery_required k = false -> k_state_store k = Some s ->
  store_load s = Ok (Some d) ->
  replay_action_state (l_records (k_ledger k)) = Ok actions ->
  for_each (fun app => validate_grant_requests (k_registry k) (ia_manifest app) Tolerate)
    (Registry_installed_apps (k_registry k)) = Ok tt ->
  validate_recovered_state (k_registry k) (k_ledger k) (without_secrets (k_broker k))
    (k_artifacts k) = Ok tt ->
  ∃ k', restore_services d k0 = (Ok tt, k') /\ k_registry k' = k_registry k /\
    k_ledger k' = k_ledger k /\ k_broker k' = without_secrets (k_broker k) /\
    k_artifacts k' = k_artifacts k.
Proof.
  intros Hreach Hrec Hs Hl Ha Hg Hv. pose proof (reachable_durable _ _ _ _ _ Hreach) as [Hwf Hst].
  specialize (Hst Hrec s Hs). unfold store_holds in Hst. rewrite Hl in Hst.
  destruct Hst as [Hr Hrs Hb Har]. destruct Hwf as [_ Hlw Hp _ _].
  destruct (restore_own_records (k_ledger k) actions (k_world k0) Hlw Hp Ha) as [w' Hrl].
  unfold restore_services, st_lift, st_modify, on_world, mbind, st_bind. rewrite Hr. simpl.
  rewrite Hrs, Hrl. simpl. rewrite Hb. simpl. rewrite Har. simpl. rewrite Hg. simpl. rewrite Hv.
  eexists. split; [done|]. done.
Qed.

(** The life-cycle of a run. In every reachable state a run the index does not
    know has no record at all, and a run it knows has the shape start, work,
    optional end: exactly one start, which comes first and names the initiating
    app of the index, at most one end, which comes last and is there exactly when
    the index says the run is over. *)
Theorem run_lifecycle chrome next_id w store k rid :
  reachable chrome next_id w store k ->
  match l_runs (k_ledger k) !! rid with
  | None => events_of rid (l_records (k_ledger k)) = []
  | Some state =>
      ∃ i g mid tail,
        events_of rid (l_records (k_ledger k)) = RunStarted rid i g :: mid ++ tail /\
        Initiator_app_id i = ri_initiating_app state /\
        Forall (fun e => is_start e = false /\ is_end e = false) mid /\
        (if ri_active state then tail = [] else ∃ t, tail = [RunEnded rid t])
  end.
Proof.
  intros [[_ Hwf _ _ _] _]%reachable_durable. pose proof (ledger_ok_run _ _ rid Hwf) as Hr.
  destruct (l_runs _ !! rid) as [state|]; [|apply Hr].
  destruct Hr as (i & g & mid & tail & ? & _ & ? & ? & ?). by exists i, g, mid, tail.
Qed.

(** The read model and the run index agree. In every reachable state a run has
    a view exactly when it is indexed, and the view rebuilt from the records names
    the same initiating app and the same activity as the index the permission
    checks use. *)
Theorem run_view_agrees chrome next_id w store k rid :
  reachable chrome next_id w store k ->
  match l_runs (k_ledger k) !! rid with
  | None => run_view (k_ledger k) rid = Err (UnknownRun rid)
  | Some state => ∃ v, run_view (k_ledger k) rid = Ok v /\
      RunView_initiating_app v = ri_initiating_app state /\ RunView_is_active v = ri_active state
  end.
Proof. intros [[_ Hwf _ _ _] _]%reachable_durable. by apply run_view_index. Qed.

End facts.
