(* ===== verification/InvokeFacts.v ===== *)
(** * What the action path guarantees

    No handler runs and no result is committed unless, at that moment, the run is
    active, the acting app and the unchanged provider are installed, the same live
    grant covers the request and nobody cancelled the invocation. *)

From S2P Require Import Prelude RustStd Json Types Errors Grants Manifest Platform Ledger.
From S2P Require Import Registry Broker BrokerFacts Artifacts Surfaces Router Invocation Durable KernelState KernelGrants.
From S2P Require Import KernelInstall KernelInvoke KernelBoot Durability Operations Session Scenario SessionFacts.

Section frames.
Context {W S : Type} `{Libraries, Environment W, TrustedChrome W, KernelStateStore S}.
Implicit Types (k : Kernel W S).

(** The part of the kernel a ledger record leaves alone. *)
Definition beside_ledger k :=
  (k_registry k, k_broker k, k_surfaces k, k_leases k, k_artifacts k, k_handlers k,
   k_pending_invocations k, k_next_invocation_id k, k_flags k).

Lemma frames_commit_parts {B} (f : Kernel W S -> B) r l b a :
  (∀ k so, f (set_state_store so k) = f k) -> (∀ k x, f (set_recovery_required x k) = f k) ->
  frames f (commit_parts r l b a).
Proof.
  intros H1' H2' k. unfold commit_parts. destruct (k_recovery_required k); [done|].
  destruct (k_state_store k); [|done]. destruct (store_commit _ _) as [[|e|e] s']; simpl; by rewrite ?H2', ?H1'.
Qed.

Lemma frames_record e : frames beside_ledger (record e : st (Kernel W S) KernelError _).
Proof.
  intros k. unfold record.
  apply (snd_bind (fun k' => beside_ledger k' = beside_ledger k)); [done|].
  intros view s [_ <-]%st_lift_inv.
  apply (snd_bind (fun k' => beside_ledger k' = beside_ledger k)); [by rewrite on_world_snd|].
  intros [rec l] k1 [_ ->]%on_world_Ok.
  apply (snd_bind (fun k' => beside_ledger k' = beside_ledger k)).
  - by rewrite frames_commit_parts.
  - intros [] k2 Hc. change (beside_ledger k2 = beside_ledger k).
    pose proof (frames_commit_parts beside_ledger (k_registry k) l (k_broker k) (k_artifacts k)
      (fun _ _ => eq_refl) (fun _ _ => eq_refl) (set_world (k_world k1) k)) as Hf.
    by rewrite Hc in Hf.
Qed.

Lemma record_Ok e k rec k' :
  record e k = (Ok rec, k') ->
  RunLedger_append (k_ledger k) e (k_world k) = (Ok (rec, k_ledger k'), k_world k') /\
  beside_ledger k' = beside_ledger k.
Proof.
  intros Hr. split; [|pose proof (frames_record e k) as Hf; by rewrite Hr in Hf].
  unfold record in Hr. inv_ok Hr. apply on_world_Ok in Hok0 as [Ha Hs0].
  pose proof (commit_parts_snd (k_registry s) r (k_broker s) (k_artifacts s) s0) as Hc.
  rewrite Hok1 in Hc. destruct Hc as (_ & so & ->). rewrite Hs0 in *. done.
Qed.

Lemma append_keeps_active l e (w : W) r l' w' rid :
  RunLedger_append l e w = (Ok (r, l'), w') -> is_end e = false -> run_active l rid -> run_active l' rid.
Proof.
  intros (Hv & Hi & _)%RunLedger_append_Ok He (state & Hs & Ha). unfold run_active.
  rewrite (index_event_lookup _ _ _ rid Hi Hv). case_bool_decide; [|by eauto].
  destruct e; try done; eauto.
Qed.

(** ** Revalidation *)

(** An invocation may run (or its result be committed) in [k]: the grant is judged
    at the reading of the clock the revalidation takes in the world of [k], and the
    deadline at the reading of the monotonic clock that follows it (past it the flag
    is raised, which is a cell of the kernel's store). *)
Record may_run k (pending : PendingInvocation) : Prop := {
  mr_run : ∃ view, run_view (k_ledger k) (pi_run_id pending) = Ok view /\ RunView_is_active view = true;
  mr_actor : is_Some (r_apps (k_registry k) !! pi_acting_app pending);
  mr_provider : ∃ app, r_apps (k_registry k) !! cr_provider (pi_capability pending) = Some app /\
    ia_content_hash app = pi_provider_content_hash pending;
  mr_grant : ∃ g, g_grant_id g = g_grant_id (pi_grant pending) /\
    current_grant (k_broker k) (pi_acting_app pending) (pi_capability pending)
      (pi_requested_data_scope pending) (env_now (k_world k)).1 g;
  mr_deadline : (pi_cancelled pending < length (k_flags k))%nat ->
    ((env_instant (env_now (k_world k)).2).1 < pi_deadline pending)%Z;
  mr_flag : flag_load (k_flags k) (pi_cancelled pending) = false;
}.

(** Everything but the world and the flags. *)
Definition beside_flags k :=
  (k_registry k, k_ledger k, k_broker k, k_surfaces k, k_leases k, k_artifacts k, k_handlers k,
   k_pending_invocations k, k_next_invocation_id k, k_state_store k, k_recovery_required k).

Lemma revalidate_frame pending :
  frames beside_flags (revalidate_pending pending : st (Kernel W S) KernelError _).
Proof.
  intros k. unfold revalidate_pending.
  do 5 (apply (snd_bind (fun k' => beside_flags k' = beside_flags k)); [done|];
        intros ? ? [_ <-]%st_lift_inv).
  apply (snd_bind (fun k' => beside_flags k' = beside_flags k)); [by rewrite on_world_snd|].
  intros c k1 [_ ->]%on_world_Ok.
  apply (snd_bind (fun k' => beside_flags k' = beside_flags k)); [done|].
  intros ? ? [_ <-]%st_lift_inv.
  apply (snd_bind (fun k' => beside_flags k' = beside_flags k)); [by rewrite on_world_snd|].
  intros t k2 [_ ->]%on_world_Ok. simpl. by destruct (_ <=? _)%Z.
Qed.

Lemma flag_raise_load flags f g : flag_load (flag_raise flags f) g = false -> flag_load flags g = false.
Proof.
  unfold flag_load, flag_raise. destruct (decide (f = g)) as [->|Hne]; [|by rewrite list_lookup_insert_ne].
  destruct (decide (g < length flags)%nat); [by rewrite list_lookup_insert_eq|].
  by rewrite list_insert_ge by lia.
Qed.

Lemma run_view_no_panic l rid msg : run_view l rid ≠ Panic msg.
Proof. unfold run_view. by destruct (find_start _ _) as [[]|]. Qed.

Lemma Registry_app_no_panic r app_id msg : Registry_app r app_id ≠ Panic msg.
Proof. unfold Registry_app. by destruct (r_apps r !! app_id). Qed.

Lemma revalidate_no_panic pending k msg k' : revalidate_pending pending k ≠ (Panic msg, k').
Proof.
  unfold revalidate_pending, st_lift, mbind, st_bind.
  pose proof (run_view_no_panic (k_ledger k) (pi_run_id pending)) as Hn.
  destruct (run_view _ _) as [v| |]; [|done|by edestruct Hn]. destruct (negb _); [done|].
  pose proof (Registry_app_no_panic (k_registry k) (pi_acting_app pending)) as Ha.
  destruct (Registry_app _ _) as [app| |]; [|done|by edestruct Ha].
  pose proof (Registry_app_no_panic (k_registry k) (cr_provider (pi_capability pending))) as Hp.
  destruct (Registry_app _ (cr_provider _)) as [papp| |]; [|done|by edestruct Hp].
  destruct (negb _); [done|].
  destruct (broker_check_total (k_broker k) (pi_acting_app pending) (pi_capability pending)
              (pi_requested_data_scope pending) (k_world k)) as (c & w' & Hc).
  unfold on_world. rewrite Hc. destruct c as [g|g|]; [case_bool_decide..|done]; try done;
    unfold instant_now, st_modify, st_get; destruct (env_instant _); by destruct (flag_load _ _).
Qed.

(** A deadline that has passed shows on the flag. *)
Lemma flag_raise_by_deadline flags f deadline now :
  flag_load (if (deadline <=? now)%Z then flag_raise flags f else flags) f = false ->
  flag_load flags f = false /\ ((f < length flags)%nat -> (now < deadline)%Z).
Proof.
  destruct (Z.leb_spec deadline now) as [Hle|Hlt]; intros Hf; [|done].
  split; [by apply flag_raise_load in Hf|]. intros Hlen. unfold flag_load, flag_raise in Hf.
  by rewrite list_lookup_insert_eq in Hf.
Qed.

Lemma revalidate_sound pending k k' :
  revalidate_pending pending k = (Ok tt, k') -> may_run k pending.
Proof.
  unfold revalidate_pending. intros Hr. inv_ok Hr.
  repeat match goal with
  | HH : on_world _ _ = (Ok _, _) |- _ => apply on_world_Ok in HH as [HH ?]
  end.
  assert (∃ g, g_grant_id g = g_grant_id (pi_grant pending) /\ (a2 = Allowed g \/ a2 = ApprovalRequired g))
    as (g & Hid & Hg).
  { destruct a2 as [g|g|]; [exists g..|done]; (split; [by case_bool_decide|]); [by left|by right]. }
  pose proof (broker_check_reads _ _ _ _ _ _ _ g Hok4 Hg) as Hw.
  destruct (flag_load _ (pi_cancelled pending)) eqn:Hf in Hr; [done|].
  assert (flag_load (if (pi_deadline pending <=? a3)%Z then flag_raise (k_flags s) (pi_cancelled pending)
    else k_flags s) (pi_cancelled pending) = false) as [Hflag Hdl]%flag_raise_by_deadline.
  { rewrite <- Hf. assert (k_flags s0 = k_flags s) as <- by (rewrite H3; simpl; by rewrite H4).
    by destruct (_ <=? _)%Z. }
  split; [..|intros Hlen; specialize (Hdl Hlen)|done].
  - exists a. by destruct (RunView_is_active a).
  - exists a0. by apply Registry_app_Ok.
  - exists a1. split; [by apply Registry_app_Ok|]. by case_bool_decide.
  - exists g. split; [done|]. by eapply broker_check_sound.
  - unfold instant_now in Hok6. rewrite Hw in Hok6. by destruct (env_instant _); simplify_eq/=.
Qed.

(** ** Phases *)

Lemma run_view_active l rid :
  ledger_wf l -> run_active l rid <-> ∃ view, run_view l rid = Ok view /\ RunView_is_active view = true.
Proof.
  intros Hwf. pose proof (run_view_index l rid Hwf) as Hi. unfold run_active. split.
  - intros (state & Hs & Ha). rewrite Hs in Hi. destruct Hi as (v & ? & _ & ?). exists v. by rewrite <- Ha.
  - intros (v & Hv & Ha). destruct (run_view_Ok _ _ _ Hwf Hv) as (state & ? & _ & Hact).
    exists state. by rewrite <- Hact.
Qed.

Lemma record_ledger_wf e k rec k' :
  ledger_wf (k_ledger k) -> record e k = (Ok rec, k') -> ledger_wf (k_ledger k').
Proof. intros Hwf [Ha _]%record_Ok. by eapply RunLedger_append_wf. Qed.

(** A record that does not end its run leaves every active run active. *)
Lemma record_keeps_active rid e k rec k' :
  record e k = (Ok rec, k') -> is_end e = false -> run_active (k_ledger k) rid -> run_active (k_ledger k') rid.
Proof. intros [Ha _]%record_Ok He. by eapply append_keeps_active. Qed.

Lemma record_consuming_Ok id e k k' :
  record_consuming id e k = (Ok tt, k') -> ∃ rec, record e k = (Ok rec, k').
Proof.
  unfold record_consuming, st_catch. intros Hr. apply st_bind_Ok_inv in Hr as (r & k1 & Hc & Hr).
  destruct (record e k) as [[rec|err|msg] k2]; simplify_eq. inv_prim Hr. by exists rec.
Qed.

Lemma st_catch_Ok {T E A} (m : st T E A) s r s' :
  st_catch m s = (Ok r, s') -> m s = (r, s').
Proof. unfold st_catch. destruct (m s) as [[a|e|msg] s1]; intros; by simplify_eq. Qed.

Lemma require_phase_Ok id state k pending :
  require_phase id state k = Ok pending ->
  k_pending_invocations k !! id = Some pending /\ pi_state pending = state.
Proof.
  unfold require_phase. destruct (k_pending_invocations k !! id) as [p|]; [|done].
  case_bool_decide; intros; by simplify_eq.
Qed.

(** The token hands out exactly the bound handler and the scoped context. *)
Record token_for k (pending : PendingInvocation) (token : AuthorizedInvocation W) : Prop := {
  tf_handler : bound_handler (pi_capability pending) k = Some (aui_handler token);
  tf_input : aui_input token = pi_input pending;
  tf_context : context_for pending k = Ok (aui_context token);
}.

Lemma dispatch_Ok approval pending k token k' :
  dispatch approval pending k = (Ok (Authorized token), k') ->
  token_for k pending token /\ aui_id token = apr_id approval /\
  k' = set_pending_invocations
         (<[apr_id approval := mark_authorized pending]> (k_pending_invocations k)) k.
Proof.
  unfold dispatch. intros Hd. inv_ok Hd. simplify_eq. split; [|done]. split; simpl; try done.
  by destruct (bound_handler _ _); simplify_eq/=.
Qed.

Lemma authorize_revalidated_Ok approval pending k token k' :
  ledger_wf (k_ledger k) ->
  authorize_revalidated approval pending k = (Ok (Authorized token), k') ->
  ∃ k1, may_run k pending /\ token_for k1 pending token /\ aui_id token = apr_id approval /\
    run_active (k_ledger k1) (pi_run_id pending) /\
    (k_registry k1, k_broker k1, k_artifacts k1, k_handlers k1, k_pending_invocations k1)
    = (k_registry k, k_broker k, k_artifacts k, k_handlers k, k_pending_invocations k) /\
    k' = set_pending_invocations
         (<[apr_id approval := mark_authorized pending]> (k_pending_invocations k)) k1.
Proof.
  intros Hwf. unfold authorize_revalidated. intros Ha.
  apply st_bind_Ok_inv in Ha as (r & k1 & Hc%st_catch_Ok & Ha).
  pose proof (revalidate_frame pending k) as Hfr. rewrite Hc in Hfr. simpl in Hfr.
  destruct r as [[]|e|msg]; [|apply st_bind_Ok_inv in Ha as (? & ? & _ & Hm); by inv_prim Hm|].
  2: by destruct (revalidate_no_panic pending k msg k1).
  apply revalidate_sound in Hc. pose proof (mr_run _ _ Hc) as Hrun. apply run_view_active in Hrun; [|done].
  unfold beside_flags in Hfr. injection Hfr as E1 E2 E3 E4 E5 E6 E7 E8 E9 E10 E11.
  rewrite <- E2 in Hrun. apply st_bind_Ok_inv in Ha as ([] & k2 & Hinv & Hd).
  assert (run_active (k_ledger k2) (pi_run_id pending) /\ beside_ledger k2 = beside_ledger k1) as [Hrun2 Hb].
  { case_bool_decide; [|by inv_prim Hinv]. inv_ok Hinv.
    apply record_consuming_Ok in Hinv as [rec Hrec].
    split; [|by apply record_Ok in Hrec as [_ ->]]. by eapply record_keeps_active. }
  apply dispatch_Ok in Hd as (Ht & Hid & ->). exists k2.
  unfold beside_ledger in Hb. injection Hb as F1 F2 F3 F4 F5 F6 F7 F8 F9.
  split_and!; try done; congruence.
Qed.

Lemma token_for_ext k k' pending token :
  (k_registry k, k_broker k, k_artifacts k, k_handlers k)
  = (k_registry k', k_broker k', k_artifacts k', k_handlers k') ->
  token_for k pending token -> token_for k' pending token.
Proof.
  intros [= Er Eb Ea Eh] [Hh Hi Hc]. split; [|done|].
  - unfold bound_handler in *. by rewrite <- Eh.
  - unfold context_for in *. by rewrite <- Er, <- Eb, <- Ea.
Qed.

(** The kernel in which an authorization revalidates: the one it was given, with the
    approval of the user recorded when there was one to give. *)
Definition approval_recorded (approval : ApprovalResult) (pending : PendingInvocation) k k1 : Prop :=
  match apr_decision approval with
  | Some Approved => ∃ rec, record (ApprovalGranted (pi_run_id pending) (pi_capability pending)
      (g_grant_id (pi_grant pending)) (pi_requested_data_scope pending)) k = (Ok rec, k1)
  | Some Denied => False
  | None => k1 = k
  end.

Lemma authorize_Ok approval k token k' :
  ledger_wf (k_ledger k) -> authorize_invocation approval k = (Ok (Authorized token), k') ->
  ∃ pending k1,
    k_pending_invocations k !! apr_id approval = Some pending /\
    pi_state pending = PreparedForApproval /\ approval_recorded approval pending k k1 /\
    may_run k1 pending /\ token_for k pending token /\ aui_id token = apr_id approval /\
    run_active (k_ledger k') (pi_run_id pending) /\
    (k_registry k', k_broker k', k_artifacts k', k_handlers k')
    = (k_registry k, k_broker k, k_artifacts k, k_handlers k) /\
    k_pending_invocations k' =
      <[apr_id approval := mark_authorized pending]> (k_pending_invocations k).
Proof.
  intros Hwf Ha. unfold authorize_invocation in Ha.
  destruct (authorize_body approval k) as [[[t|res]| |] k1] eqn:Hb; simplify_eq.
  unfold authorize_body in Hb. apply st_bind_Ok_inv in Hb as (pending & s & [Hp <-]%st_lift_inv & Hb).
  apply require_phase_Ok in Hp as [Hp Hst]. exists pending.
  assert (∃ k2, ledger_wf (k_ledger k2) /\ beside_ledger k2 = beside_ledger k /\
            approval_recorded approval pending k k2 /\
            authorize_revalidated approval pending k2 = (Ok (Authorized token), k'))
    as (k2 & Hwf2 & Hb2 & Hd & Ha).
  { unfold approval_recorded. destruct (apr_decision approval) as [[]|]; [| |by exists k].
    - apply st_bind_Ok_inv in Hb as ([] & k2 & [rec Hr]%record_consuming_Ok & Hb). exists k2.
      split; [by eapply record_ledger_wf|]. split; [by apply record_Ok in Hr as [_ ->]|]. by split; [exists rec|].
    - apply st_bind_Ok_inv in Hb as ([] & k2 & _ & Hb). by inv_ok Hb. }
  exists k2. apply authorize_revalidated_Ok in Ha as (k3 & Hmr & Ht & Hid & Hrun & E & ->); [|done].
  unfold beside_ledger in Hb2. injection Hb2 as F1 F2 F3 F4 F5 F6 F7 F8 F9.
  injection E as E1 E2 E3 E4 E5. split_and!; try done; simpl; try congruence.
  eapply token_for_ext; [|done]. congruence.
Qed.

(** ** Preparation *)

Lemma show_notice_Ok notice k k' :
  show_notice_or_fail notice k = (Ok tt, k') -> k' = set_world (k_world k') k.
Proof. unfold show_notice_or_fail. by intros [_ ?]%on_world_Ok. Qed.

(** The event that opens an invocation. *)
Definition opening_event (run_id : RunId) (capability : CapabilityRef) (grant : Grant)
    (request : InvocationRequest) (prompted : bool) (event : LedgerEvent) : Prop :=
  if prompted
  then event = ApprovalRequested run_id capability (g_grant_id grant) (ir_data_scope request)
  else ∃ input_sha256, payload_sha256 (VObject (ir_input request)) = Ok input_sha256 /\
    event = CapabilityInvoked run_id capability (g_grant_id grant) input_sha256 (ir_data_scope request).

(** What the prompt tells the user. *)
Definition prompt_shows (prompt : CapabilityApprovalPrompt) (run : RunView) (acting_app : AppId)
    (capability : CapabilityRef) (declaration : CapabilityDeclaration) (grant : Grant)
    (request : InvocationRequest) : Prop :=
  cap_app_id prompt = acting_app /\ cap_capability prompt = capability /\
  cap_effect prompt = cd_effect declaration /\ cap_data_scope prompt = ir_data_scope request /\
  cap_grant_id prompt = g_grant_id grant /\ cap_run_id prompt = rv_run_id run /\
  cap_goal prompt = rv_goal run /\
  approval_input_summary (ir_input request)
  = Ok (cap_input_summary prompt, cap_input_summary_truncated prompt).

Lemma opening_event_active run_id capability grant request needs_prompt event l (w : W) rec l' w' :
  opening_event run_id capability grant request needs_prompt event ->
  RunLedger_append l event w = (Ok (rec, l'), w') -> run_active l' run_id.
Proof.
  intros Hev Ha. assert (event_run_id event = run_id /\ is_start event = false /\ is_end event = false)
    as (Hid & Hst & Hen).
  { unfold opening_event in Hev. destruct needs_prompt; [by subst|]. by destruct Hev as (? & _ & ->). }
  eapply append_keeps_active; [done|done|]. apply RunLedger_append_Ok in Ha as (Hv & _).
  apply validate_append_cases in Hv. rewrite Hst, Hid in Hv. exact Hv.
Qed.

Lemma record_dispatch_Ok run acting_app capability declaration grant request needs_prompt k approval k' :
  record_dispatch run acting_app capability declaration grant request needs_prompt k = (Ok approval, k') ->
  beside_ledger k' = beside_ledger k /\
  (∃ rec event, opening_event (rv_run_id run) capability grant request needs_prompt event /\
     record event k = (Ok rec, k')) /\
  if needs_prompt
  then ∃ prompt, approval = Some prompt /\
    prompt_shows prompt run acting_app capability declaration grant request
  else approval = None.
Proof.
  unfold record_dispatch. destruct needs_prompt; intros Hr; inv_ok Hr; simplify_eq.
  - split; [by apply record_Ok in Hok1 as [_ ?]|]. split; [by eexists _, _|].
    eexists. split; [done|]. by repeat split.
  - split; [by apply record_Ok in Hok0 as [_ ?]|]. split; [|done]. eexists _, _. split; [|done].
    by eexists.
Qed.

Lemma register_pending_Ok run_id acting_app capability declaration grant request timeout approval k t k' :
  register_pending run_id acting_app capability declaration grant request timeout approval k = (Ok t, k') ->
  ∃ pending,
    k_pending_invocations k' = <[ppi_id t := pending]> (k_pending_invocations k) /\
    pi_run_id pending = run_id /\ pi_acting_app pending = acting_app /\
    pi_capability pending = capability /\ pi_grant pending = grant /\
    pi_requested_data_scope pending = ir_data_scope request /\ pi_input pending = ir_input request /\
    pi_state pending = PreparedForApproval /\ pi_cancelled pending = ppi_cancelled t /\
    ppi_approval t = approval /\ ppi_cancelled t = length (k_flags k) /\
    k_flags k' = k_flags k ++ [false] /\
    (k_registry k', k_ledger k', k_broker k', k_handlers k') =
    (k_registry k, k_ledger k, k_broker k, k_handlers k).
Proof.
  unfold register_pending. intros Hr. inv_ok Hr. apply on_world_Ok in Hok as [_ Hs]. rewrite Hs in *.
  simpl in *. inv_ok Hr. simplify_eq. simpl. eexists. by split_and!.
Qed.

Lemma run_view_id l rid view : run_view l rid = Ok view -> rv_run_id view = rid.
Proof.
  unfold run_view. destruct (find_start _ _) as [[i g]|]; [|done]. intros [= <-].
  enough (∀ v rs, rv_run_id (foldl view_step v rs) = rv_run_id v) as -> by done.
  intros v rs. revert v. induction rs as [|r rs IH]; intros v; simpl; [done|].
  rewrite IH. unfold view_step. by destruct (lr_event r).
Qed.

(** The pending invocation a prepared token stands for. *)
Record prepared_for k (token : PreparedInvocation) (run_id : RunId) (capability : CapabilityRef)
    (request : InvocationRequest) (direct : bool) (pending : PendingInvocation)
    (declaration : CapabilityDeclaration) (run : RunView) : Prop := {
  pf_pending : k_pending_invocations k !! ppi_id token = Some pending;
  pf_state : pi_state pending = PreparedForApproval;
  pf_run : pi_run_id pending = run_id /\ rv_run_id run = run_id;
  pf_active : run_active (k_ledger k) run_id;
  pf_actor : pi_acting_app pending = RunView_initiating_app run;
  pf_handler : is_Some (bound_handler capability k);
  pf_request : pi_capability pending = capability /\
    pi_requested_data_scope pending = ir_data_scope request /\ pi_input pending = ir_input request;
  pf_flag : pi_cancelled pending = ppi_cancelled token /\
    flag_load (k_flags k) (ppi_cancelled token) = false;
  pf_declared : Registry_capability (k_registry k) capability = Ok declaration /\
    schema_accepts (cd_input_schema declaration) (VObject (ir_input request));
  pf_grant : ∃ now, current_grant (k_broker k) (pi_acting_app pending) capability
    (ir_data_scope request) now (pi_grant pending);
  pf_recorded : ∃ rs rec, l_records (k_ledger k) = rs ++ [rec] /\
    opening_event run_id capability (pi_grant pending) request
      (bool_decide (is_Some (ppi_approval token))) (lr_event rec);
  pf_consent : match ppi_approval token with
    | Some prompt => g_condition (pi_grant pending) = RequiresApproval /\
        prompt_shows prompt run (pi_acting_app pending) capability declaration (pi_grant pending) request
    | None => g_condition (pi_grant pending) ≠ RequiresApproval \/
        (direct = true /\ bounded_effect (cd_effect declaration) = true)
    end;
}.

Lemma prepare_granted_Ok run acting_app capability declaration request timeout direct grant k token k' :
  Registry_capability (k_registry k) capability = Ok declaration ->
  schema_accepts (cd_input_schema declaration) (VObject (ir_input request)) ->
  (∃ now, current_grant (k_broker k) acting_app capability (ir_data_scope request) now grant) ->
  acting_app = RunView_initiating_app run ->
  prepare_granted run acting_app capability declaration request timeout direct grant k
  = (Ok (Prepared token), k') ->
  ∃ pending, prepared_for k' token (rv_run_id run) capability request direct pending declaration run.
Proof.
  intros Hd Hs Hg Hact Hp. unfold prepare_granted in Hp.
  apply st_bind_Ok_inv in Hp as (h & s & [Hh <-]%st_lift_inv & Hp).
  apply st_bind_Ok_inv in Hp as ([] & k1 & Hn & Hp).
  assert (k1 = set_world (k_world k1) k) as Hk1.
  { destruct (_ && _) in Hn; [by apply show_notice_Ok in Hn|]. inv_prim Hn. by destruct k1. }
  clear Hn. apply st_bind_Ok_inv in Hp as (approval & k2 & Hrd & Hp).
  apply st_bind_Ok_inv in Hp as (t & k3 & Hrp & Hp). inv_prim Hp.
  apply record_dispatch_Ok in Hrd as (Hb & (rec & event & Hev & Hrec) & Happ).
  apply record_Ok in Hrec as [Hrec _]. pose proof (opening_event_active _ _ _ _ _ _ _ _ _ _ _ Hev Hrec) as Hra.
  apply RunLedger_append_Ok in Hrec as (_ & _ & _ & He & Hl).
  apply register_pending_Ok in Hrp as (pending & Hpend & Hr & Ha & Hc & Hgr & Hsc & Hin & Hst & Hfl &
    Hap & Hloc & Hflags & E).
  injection E as E1 E2 E3 E4. unfold beside_ledger in Hb.
  injection Hb as F1 F2 _ _ _ F6 _ _ F9. rewrite Hk1 in F1, F2, F6, F9. simpl in F1, F2, F6, F9.
  exists pending. split; rewrite ?E1, ?E2, ?E3, ?F1, ?F2, ?Ha, ?Hgr; try done.
  - rewrite Hpend. apply lookup_insert_eq.
  - unfold bound_handler in *. rewrite E4, F6. destruct (_ ≫= _); [done|by inversion Hh].
  - split; [done|]. rewrite Hflags, Hloc. unfold flag_load. by rewrite lookup_app_r, Nat.sub_diag.
  - exists (l_records (k_ledger k1)), rec. split; [done|]. rewrite He, Hap.
    destruct (_ && _) in Hev, Happ; [destruct Happ as (prompt & -> & _)|rewrite Happ]; done.
  - rewrite Hap. case_bool_decide as Hcond; simpl in Happ.
    + destruct (direct && bounded_effect _) eqn:Hdir; simpl in Happ.
      * rewrite Happ. right. by apply andb_true_iff.
      * destruct Happ as (prompt & -> & Hshow). done.
    + rewrite Happ. by left.
Qed.

Lemma prepare_Ok run_id capability request timeout direct k token k' :
  prepare_invocation_with_context run_id capability request timeout direct k = (Ok (Prepared token), k') ->
  ∃ pending declaration run, prepared_for k' token run_id capability request direct pending declaration run.
Proof.
  unfold prepare_invocation_with_context. intros Hp. inv_ok Hp.
  match goal with HH : on_world (broker_check _ _ _ _) _ = _ |- _ => rename HH into Hc end.
  match goal with HH : validate_against_schema _ _ _ _ = Ok ?u |- _ => destruct u; rename HH into Hv end.
  match goal with HH : Registry_capability _ _ = Ok ?d |- _ => rename HH into Hd; rename d into decl end.
  match goal with HH : run_view _ run_id = Ok ?v |- _ => rename HH into Hrun; rename v into run end.
  apply on_world_Ok in Hc as [Hc Hk2]. apply validate_against_schema_Ok in Hv.
  assert (∀ g, a2 = Allowed g \/ a2 = ApprovalRequired g ->
    prepare_granted run (RunView_initiating_app run) capability decl request timeout direct g s
      = (Ok (Prepared token), k') ->
    ∃ pending declaration run0,
      prepared_for k' token run_id capability request direct pending declaration run0) as Hmain.
  { intros g Hg Hp'. apply prepare_granted_Ok in Hp' as [pending Hpf]; [|by rewrite Hk2|done| |done].
    - rewrite (run_view_id _ _ _ Hrun) in Hpf. by exists pending, decl, run.
    - exists (env_now (k_world s0)).1. rewrite Hk2. by eapply broker_check_sound. }
  destruct a2 as [g|g|reason]; [by eapply Hmain; [left|]|by eapply Hmain; [right|]|].
  by inv_ok Hp.
Qed.

(** ** Theorems *)

(** What a preparation establishes. A prepared token stands for a pending
    invocation of an active run, by the app that initiated it, of a declared
    capability with a bound handler; the input satisfies the declared schema, a
    current grant of the acting app covers the request, the opening record is the
    last of the ledger, and the token carries a prompt that shows exactly this
    invocation, unless the grant needs no approval or the action is a direct one
    with a bounded effect. *)
Theorem prepare_invocation_checks run_id capability request timeout direct k token k' :
  prepare_invocation_with_context run_id capability request timeout direct k = (Ok (Prepared token), k') ->
  ∃ pending declaration run, prepared_for k' token run_id capability request direct pending declaration run.
Proof. apply prepare_Ok. Qed.

(** C3: What an authorization rests on. A token to execute is handed out only for an
    invocation that was pending in its approval phase and was not denied; in the
    kernel that has recorded the user's approval (the given one when none was asked
    for) the run is active, the acting app and the unchanged provider are installed,
    the same grant covers the request and is neither revoked nor expired at the
    reading of the clock taken there, the deadline has not passed and nobody
    cancelled the invocation. The token carries the handler bound to the capability,
    the pending input and the context made for it, the run is still active, and the
    invocation moves to its execution phase while nothing else pending changes. *)
Theorem authorize_invocation_sound approval k token k' :
  ledger_wf (k_ledger k) -> authorize_invocation approval k = (Ok (Authorized token), k') ->
  ∃ pending k1,
    k_pending_invocations k !! apr_id approval = Some pending /\
    pi_state pending = PreparedForApproval /\ approval_recorded approval pending k k1 /\
    may_run k1 pending /\ token_for k pending token /\ aui_id token = apr_id approval /\
    run_active (k_ledger k') (pi_run_id pending) /\
    (k_registry k', k_broker k', k_artifacts k', k_handlers k')
    = (k_registry k, k_broker k, k_artifacts k, k_handlers k) /\
    k_pending_invocations k' =
      <[apr_id approval := mark_authorized pending]> (k_pending_invocations k).
Proof. apply authorize_Ok. Qed.

(** C2: No handler runs without consent. An invocation prepared through the public
    entry point under a grant that requires approval is authorized only with an answer
    the trusted chrome gave to a prompt that names exactly this app, capability, data
    scope, grant and run, and that answer is an approval. *)
Theorem no_execution_without_consent run_id capability request timeout k0 token k1 k2 w token' k3 :
  prepare_invocation_with_timeout run_id capability request timeout k0 = (Ok (Prepared token), k1) ->
  (∃ pending, k_pending_invocations k1 !! ppi_id token = Some pending /\
    g_condition (pi_grant pending) = RequiresApproval) ->
  ledger_wf (k_ledger k2) ->
  authorize_invocation (PreparedInvocation_await_approval token w).1 k2 = (Ok (Authorized token'), k3) ->
  ∃ prompt pending, ppi_approval token = Some prompt /\ (approve_capability prompt w).1 = Approved /\
    k_pending_invocations k1 !! ppi_id token = Some pending /\
    cap_app_id prompt = pi_acting_app pending /\ cap_capability prompt = capability /\
    cap_data_scope prompt = ir_data_scope request /\
    cap_grant_id prompt = g_grant_id (pi_grant pending) /\ cap_run_id prompt = run_id.
Proof.
  intros Hp (pending' & Hp1 & Hcond) Hwf Ha.
  apply prepare_Ok in Hp as (pending & decl & run & Hpf).
  pose proof (pf_pending _ _ _ _ _ _ _ _ _ Hpf) as Hp2.
  assert (pending' = pending) as -> by congruence.
  apply authorize_Ok in Ha as (p & k1' & _ & _ & Hd & _); [|done]. unfold approval_recorded in Hd.
  pose proof (pf_consent _ _ _ _ _ _ _ _ _ Hpf) as Hcs.
  pose proof (pf_run _ _ _ _ _ _ _ _ _ Hpf) as [_ Hrid].
  unfold PreparedInvocation_await_approval in Hd.
  destruct (ppi_approval token) as [prompt|]; [|by destruct Hcs as [|[? _]]].
  destruct Hcs as (_ & Hs1 & Hs2 & _ & Hs3 & Hs4 & Hs5 & _). exists prompt, pending.
  destruct (approve_capability prompt w) as [[] w']; simpl in *; [|done].
  split_and!; try done. congruence.
Qed.

End frames.
