(* ===== verification/FinalizeFacts.v ===== *)
(** * What finalization guarantees

    A result is committed whole, with kernel-written provenance, only while the
    invocation is still allowed; a late result leaves no trace in the artifact
    store; and an execution token finalizes at most once. *)

From S2P Require Import Prelude RustStd Json Types Errors Grants Manifest Platform Ledger.
From S2P Require Import Registry Broker BrokerFacts Artifacts Surfaces Router Invocation Durable KernelState KernelGrants.
From S2P Require Import KernelInstall KernelInvoke KernelBoot Durability Operations Session Scenario SessionFacts InvokeFacts.

Section finalize.
Context {W S : Type} `{Libraries, Environment W, TrustedChrome W, KernelStateStore S}.
Implicit Types (k : Kernel W S).

Lemma consume_pending_Ok {A} id (m : st (Kernel W S) KernelError A) k a k' :
  consume_pending id m k = (Ok a, k') -> ∃ k1, m k = (Ok a, k1) /\ k' = remove_pending id k1.
Proof.
  unfold consume_pending. intros Hc. apply st_bind_Ok_inv in Hc as (r & k1 & Hm%st_catch_Ok & Hc).
  exists k1. destruct r; inv_ok Hc; by simplify_eq.
Qed.

Lemma consume_pending_removes {A} id (m : st (Kernel W S) KernelError A) k r k' :
  consume_pending id m k = (r, k') -> (∀ msg, r ≠ Panic msg) -> k_pending_invocations k' !! id = None.
Proof.
  unfold consume_pending, st_catch, mbind, st_bind, require_recovery_after_consumed_transition,
    st_modify, st_lift, mret, st_ret. intros Hc Hp.
  destruct (m k) as [[a|e|msg] k1]; simplify_eq; simpl.
  - apply lookup_delete_eq.
  - destruct (k_state_store k1); apply lookup_delete_eq.
  - by edestruct Hp.
Qed.

(** An artifact is the draft with the provenance of the invocation. *)
Record stamped (pending : PendingInvocation) (draft : ArtifactDraft) (artifact : Artifact) : Prop := {
  sp_type : a_artifact_type artifact = ad_artifact_type draft;
  sp_title : a_title artifact = ad_title draft;
  sp_content : a_content artifact = ad_content draft;
  sp_run : pv_run_id (a_provenance artifact) = pi_run_id pending;
  sp_capability : pv_capability (a_provenance artifact) = pi_capability pending;
  sp_grant : pv_grant_id (a_provenance artifact) = g_grant_id (pi_grant pending);
  sp_producer : pv_produced_by (a_provenance artifact) = cr_provider (pi_capability pending);
}.

Lemma stamp_all_Ok pending drafts (w : W) stored w' :
  st_map (stamp_artifact (pi_run_id pending) (pi_capability pending) (pi_grant pending)) drafts w
  = (Ok stored, w') -> Forall2 (stamped pending) drafts stored.
Proof.
  revert w stored. induction drafts as [|d ds IH]; intros w stored Hm; simpl in Hm.
  - unfold mret, st_ret in Hm. simplify_eq. constructor.
  - apply st_bind_Ok_inv in Hm as (a & w1 & Ha & Hm). unfold stamp_artifact in Ha. inv_ok Ha.
    apply st_bind_Ok_inv in Hm as (rest & w2 & Hrest & Hm). inv_prim Hm.
    constructor; [by split|]. by eapply IH.
Qed.

(** The records of a completion. *)
Definition completion_events (pending : PendingInvocation) (artifacts : list Artifact)
    (result_sha256 : string) : list LedgerEvent :=
  ((fun artifact => ArtifactProduced (pi_run_id pending) (a_artifact_id artifact)
      (a_artifact_type artifact)) <$> artifacts)
  ++ [CapabilityCompleted (pi_run_id pending) (pi_capability pending)
        (g_grant_id (pi_grant pending)) result_sha256 (pi_requested_data_scope pending)].

Lemma append_all_events l events (w : W) rs l' w' :
  append_all l events w = (Ok (rs, l'), w') -> lr_event <$> rs = events.
Proof.
  revert l w rs. induction events as [|e events IH]; intros l w rs Ha; simpl in Ha.
  - unfold mret, st_ret in Ha. by simplify_eq.
  - apply st_bind_Ok_inv in Ha as ([r l1] & w1 & Hr & Ha).
    apply st_bind_Ok_inv in Ha as ([rs' l2] & w2 & Hrs & Ha). inv_prim Ha.
    apply RunLedger_append_Ok in Hr as (_ & _ & _ & He & _). simpl. f_equal; [done|]. by eapply IH.
Qed.

Lemma commit_completion_Ok events produced k k' :
  commit_completion events produced k = (Ok tt, k') ->
  (∃ rs, l_records (k_ledger k') = l_records (k_ledger k) ++ rs /\ lr_event <$> rs = events) /\
  k_artifacts k' = ArtifactStore_put_all (k_artifacts k) produced /\
  k_pending_invocations k' = k_pending_invocations k /\ k_registry k' = k_registry k /\
  k_broker k' = k_broker k.
Proof.
  unfold commit_completion. intros Hc. inv_ok Hc.
  match goal with HH : on_world _ _ = _ |- _ => apply on_world_Ok in HH as [Ha Hs0] end.
  match goal with HH : commit_parts ?r ?l ?b ?a ?k0 = _ |- _ =>
    pose proof (commit_parts_snd r l b a k0) as Hcp; rewrite HH in Hcp end.
  destruct Hcp as (_ & so & ->). rewrite Hs0. simpl. split; [|done].
  rewrite append_batch_append_all in Ha. eexists.
  split; [by eapply append_all_extends|by eapply append_all_events].
Qed.

Lemma complete_outcome_Ok pending outcome k result artifacts k' :
  complete_outcome (pi_run_id pending) (pi_capability pending) (pi_grant pending)
    (pi_requested_data_scope pending) (pi_output_schema pending) outcome k
  = (Ok (ResCompleted result artifacts), k') ->
  result = co_result outcome /\
  validate_outcome (pi_capability pending) (pi_output_schema pending) outcome k = Ok tt /\
  Forall2 (stamped pending) (co_artifacts outcome) artifacts /\
  (∃ rs sha, payload_sha256 result = Ok sha /\
     l_records (k_ledger k') = l_records (k_ledger k) ++ rs /\
     lr_event <$> rs = completion_events pending artifacts sha) /\
  k_artifacts k' = ArtifactStore_put_all (k_artifacts k) artifacts /\
  k_pending_invocations k' = k_pending_invocations k.
Proof.
  unfold complete_outcome. destruct (validate_outcome _ _ _ k) as [[]|e|msg]; [| |done].
  2: { unfold fail_invocation. intros Hf. by inv_ok Hf. }
  intros Hc. apply st_bind_Ok_inv in Hc as (stored & k1 & [Hst Hk1]%on_world_Ok & Hc).
  apply st_bind_Ok_inv in Hc as (sha & s & [Hsha <-]%st_lift_inv & Hc).
  apply st_bind_Ok_inv in Hc as ([] & k2 & Hcc & Hc). inv_prim Hc.
  apply commit_completion_Ok in Hcc as ((rs & Hrs & Hev) & Hart & Hpend & _).
  rewrite Hk1 in Hrs, Hart, Hpend. split_and!; try done; [by eapply stamp_all_Ok|].
  by exists rs, sha.
Qed.

Lemma finalize_Completed executed k result artifacts k' :
  finalize_invocation executed k = (Ok (ResCompleted result artifacts), k') ->
  ∃ pending outcome,
    k_pending_invocations k !! exi_id executed = Some pending /\
    pi_state pending = AuthorizedForExecution /\ may_run k pending /\
    exi_outcome executed = Some (inl outcome) /\ exi_panic executed = None /\
    exi_cancelled_before_dispatch executed = false /\
    result = co_result outcome /\
    validate_outcome (pi_capability pending) (pi_output_schema pending) outcome k = Ok tt /\
    Forall2 (stamped pending) (co_artifacts outcome) artifacts /\
    (∃ rs sha, payload_sha256 result = Ok sha /\
       l_records (k_ledger k') = l_records (k_ledger k) ++ rs /\
       lr_event <$> rs = completion_events pending artifacts sha) /\
    k_artifacts k' = ArtifactStore_put_all (k_artifacts k) artifacts /\
    k_pending_invocations k' = delete (exi_id executed) (k_pending_invocations k).
Proof.
  unfold finalize_invocation. intros Hf.
  apply st_bind_Ok_inv in Hf as (pending & s & [Hp <-]%st_lift_inv & Hf).
  apply require_phase_Ok in Hp as [Hp Hst].
  apply st_bind_Ok_inv in Hf as (r & k1 & Hrev%st_catch_Ok & Hf).
  pose proof (revalidate_frame pending k) as Hfr. rewrite Hrev in Hfr. simpl in Hfr.
  apply consume_pending_Ok in Hf as (k2 & Hf & ->).
  destruct r as [[]|e|msg]; [| |by destruct (revalidate_no_panic pending k msg k1)].
  2: { unfold finalize_cancelled in Hf. destruct e; by inv_ok Hf. }
  apply revalidate_sound in Hrev as Hmr.
  destruct (exi_cancelled_before_dispatch executed).
  { unfold finalize_cancelled in Hf. by inv_ok Hf. }
  destruct (exi_panic executed).
  { unfold fail_invocation in Hf. by inv_ok Hf. }
  destruct (exi_outcome executed) as [[outcome|failure]|]; [| |done].
  2: { unfold fail_invocation in Hf. by inv_ok Hf. }
  exists pending, outcome. unfold beside_flags in Hfr.
  injection Hfr as E1 E2 E3 E4 E5 E6 E7 E8 E9 E10 E11.
  apply complete_outcome_Ok in Hf as (Hres & Hv & Hs & Hrs & Ha & Hpend).
  rewrite E2 in Hrs. rewrite E6 in Ha. split_and!; try done.
  - by unfold validate_outcome, validate_draft in *; rewrite E1 in Hv.
  - simpl. by rewrite Hpend, E8.
Qed.

(** ** Late results *)

Lemma frames_finalize_cancelled run_id capability scope error :
  frames beside_ledger (finalize_cancelled run_id capability scope error : st (Kernel W S) KernelError _).
Proof. pose proof (frames_record (W := W) (S := S)). unfold finalize_cancelled. st_walk. Qed.

Lemma finalize_cancelled_Ok run_id capability scope error k r k' :
  finalize_cancelled run_id capability scope error k = (Ok r, k') ->
  ∃ reason rec, r = ResRefused reason /\ l_records (k_ledger k') = l_records (k_ledger k) ++ [rec] /\
    (lr_event rec = InvocationCancelled run_id capability scope \/
     ∃ denial, lr_event rec = InvocationRefused run_id capability denial scope).
Proof.
  unfold finalize_cancelled.
  assert (∀ event reason, (_ ← record event; mret (ResRefused reason)) k = (Ok r, k') ->
    ∃ rec, r = ResRefused reason /\ l_records (k_ledger k') = l_records (k_ledger k) ++ [rec] /\
      lr_event rec = event) as Hrec.
  { intros event reason Hr. apply st_bind_Ok_inv in Hr as (rec & k1 & Hr & Hm). inv_prim Hm.
    apply record_Ok in Hr as [(_ & _ & _ & He & Hl)%RunLedger_append_Ok _]. by exists rec. }
  intros Hf. destruct error; try done; apply Hrec in Hf as (rec & -> & Hl & He);
    eexists _, rec; split_and!; try done; by eauto.
Qed.

Lemma finalize_refuses executed pending k r k' :
  k_pending_invocations k !! exi_id executed = Some pending -> ¬ may_run k pending ->
  finalize_invocation executed k = (r, k') ->
  k_artifacts k' = k_artifacts k /\
  ∀ res, r = Ok res -> ∃ reason rec, res = ResRefused reason /\
    l_records (k_ledger k') = l_records (k_ledger k) ++ [rec] /\
    (lr_event rec = cancellation_event pending \/
     ∃ denial, lr_event rec = InvocationRefused (pi_run_id pending) (pi_capability pending) denial
                                (pi_requested_data_scope pending)).
Proof.
  intros Hp Hn. unfold finalize_invocation, require_phase. rewrite Hp.
  case_bool_decide; [|by intros [= <- <-]]. simpl. unfold mbind at 1, st_bind at 1, st_lift at 1.
  unfold mbind at 1, st_bind at 1, st_catch at 1.
  pose proof (revalidate_frame pending k) as Hfr.
  destruct (revalidate_pending pending k) as [[[]|e|msg] k1] eqn:Hrev; simpl in Hfr.
  - by destruct Hn; eapply revalidate_sound.
  - unfold beside_flags in Hfr. injection Hfr as _ E2 _ _ _ E6 _ _ _ _ _.
    pose proof (frames_finalize_cancelled (pi_run_id pending) (pi_capability pending)
      (pi_requested_data_scope pending) e k1) as Hfc.
    unfold beside_ledger in Hfc. injection Hfc as _ _ _ _ F5 _ _ _ _.
    pose proof (finalize_cancelled_Ok (pi_run_id pending) (pi_capability pending)
      (pi_requested_data_scope pending) e k1) as Hok.
    unfold consume_pending, st_catch, mbind, st_bind, require_recovery_after_consumed_transition,
      st_modify, st_lift, mret, st_ret.
    destruct (finalize_cancelled _ _ _ _ k1) as [[res|err|msg] k2]; simpl in F5.
    + intros [= <- <-]. simpl. split; [congruence|]. intros res' [= <-].
      destruct (Hok res k2 eq_refl) as (reason & rec & ? & Hl & Hev). exists reason, rec.
      rewrite <- E2. split_and!; try done.
    + intros [= <- <-]. simpl. split; [|done]. destruct (k_state_store k2); simpl; congruence.
    + intros [= <- <-]. split; [congruence|done].
  - by destruct (revalidate_no_panic pending k msg k1).
Qed.

(** ** Theorems *)

(** C4: A result is committed whole or not at all. A completed finalization consumes
    an authorized invocation that may still run at the clock readings of the
    finalization, whose handler returned an outcome without a panic and without being cancelled before dispatch; the outcome passed
    its schemas; every artifact is a draft of the handler with provenance written by
    the kernel; and the ledger grows by exactly one production per artifact followed
    by the completion with the hash of the result. *)
Theorem finalize_invocation_sound executed k result artifacts k' :
  finalize_invocation executed k = (Ok (ResCompleted result artifacts), k') ->
  ∃ pending outcome,
    k_pending_invocations k !! exi_id executed = Some pending /\
    pi_state pending = AuthorizedForExecution /\ may_run k pending /\
    exi_outcome executed = Some (inl outcome) /\ exi_panic executed = None /\
    exi_cancelled_before_dispatch executed = false /\
    result = co_result outcome /\
    validate_outcome (pi_capability pending) (pi_output_schema pending) outcome k = Ok tt /\
    Forall2 (stamped pending) (co_artifacts outcome) artifacts /\
    (∃ rs sha, payload_sha256 result = Ok sha /\
       l_records (k_ledger k') = l_records (k_ledger k) ++ rs /\
       lr_event <$> rs = completion_events pending artifacts sha) /\
    k_artifacts k' = ArtifactStore_put_all (k_artifacts k) artifacts /\
    k_pending_invocations k' = delete (exi_id executed) (k_pending_invocations k).
Proof. apply finalize_Completed. Qed.

(** C5: A late result leaves no trace but its refusal. If the invocation may no longer
    run (run ended, app gone or changed, grant revoked or expired at the reading of the
    clock the finalization takes, deadline passed, cancelled), finalizing it never changes the artifact store, and if it answers at all it
    answers with a refusal and one record that says so. *)
Theorem late_result_never_commits executed pending k r k' :
  k_pending_invocations k !! exi_id executed = Some pending -> ¬ may_run k pending ->
  finalize_invocation executed k = (r, k') ->
  k_artifacts k' = k_artifacts k /\
  ∀ res, r = Ok res -> ∃ reason rec, res = ResRefused reason /\
    l_records (k_ledger k') = l_records (k_ledger k) ++ [rec] /\
    (lr_event rec = cancellation_event pending \/
     ∃ denial, lr_event rec = InvocationRefused (pi_run_id pending) (pi_capability pending) denial
                                (pi_requested_data_scope pending)).
Proof. apply finalize_refuses. Qed.

(** C37: An execution token is used once. After a finalization that did not panic,
    whatever it answered, finalizing the same invocation again answers that it was
    consumed and changes nothing. *)
Theorem finalize_single_use executed executed' k r k' :
  finalize_invocation executed k = (r, k') -> (∀ msg, r ≠ Panic msg) ->
  exi_id executed' = exi_id executed ->
  finalize_invocation executed' k' = (Err PreparedInvocationConsumed, k').
Proof.
  intros Hf Hp Hid.
  assert (∀ e, require_phase (exi_id executed) AuthorizedForExecution k' = Err e ->
    finalize_invocation executed' k' = (Err e, k')) as Hsecond.
  { intros e He. unfold finalize_invocation. by rewrite Hid, He. }
  unfold finalize_invocation in Hf.
  destruct (require_phase (exi_id executed) AuthorizedForExecution k) as [pending|e|msg] eqn:Hph.
  - unfold mbind at 1, st_bind at 1, st_lift at 1 in Hf. unfold mbind, st_bind at 1 in Hf.
    apply Hsecond. unfold require_phase.
    destruct (st_catch (revalidate_pending pending) k) as [[rv|e|msg] k1] eqn:Hc.
    + by rewrite (consume_pending_removes _ _ _ _ _ Hf Hp).
    + unfold st_catch in Hc. by destruct (revalidate_pending pending k) as [[]].
    + simplify_eq. by edestruct Hp.
  - simpl in Hf. simplify_eq. unfold mbind, st_bind, st_lift in Hf. simplify_eq.
    apply Hsecond. rewrite Hph. unfold require_phase in Hph. by repeat case_match; simplify_eq.
  - unfold require_phase in Hph. by repeat case_match; simplify_eq.
Qed.

End finalize.
