(* ===== verification/LifecycleFacts.v ===== *)
(** * What the app lifecycle guarantees

    Uninstalling leaves no authority behind, ending a run closes its work, an
    in-place upgrade touches only the declaration and the handlers, and no grant is
    ever issued without the chrome's approval of exactly that authority. *)

From S2P Require Import Prelude RustStd Json Types Errors Grants Manifest Platform Ledger.
From S2P Require Import Registry Broker BrokerFacts Artifacts Surfaces Router Invocation Durable KernelState.
From S2P Require Import KernelGrants KernelInstall KernelInvoke KernelBoot Durability Operations Session Scenario.
From S2P Require Import SessionFacts InvokeFacts.

Section lifecycle.
Context {W S : Type} `{Libraries, Environment W, TrustedChrome W, KernelStateStore S}.
Implicit Types (k : Kernel W S).

(** ** Runs *)

Definition run_of_app (l : RunLedger) (rid : RunId) (app_id : AppId) : Prop :=
  ∃ state, l_runs l !! rid = Some state /\ ri_active state = true /\ ri_initiating_app state = app_id.

Lemma append_run_of_app l e (w : W) r l' w' rid app_id :
  RunLedger_append l e w = (Ok (r, l'), w') -> is_start e = false ->
  run_of_app l' rid app_id -> run_of_app l rid app_id.
Proof.
  intros (Hv & Hi & _)%RunLedger_append_Ok He. unfold run_of_app.
  rewrite (index_event_lookup _ _ _ rid Hi Hv).
  case_bool_decide; [|done]. destruct e; try done. intros (state & Hs & Ha & _).
  destruct (l_runs l !! rid); by simplify_eq/=.
Qed.

Lemma append_all_run_of_app l events (w : W) rs l' w' rid app_id :
  append_all l events w = (Ok (rs, l'), w') -> Forall (fun e => is_start e = false) events ->
  run_of_app l' rid app_id -> run_of_app l rid app_id.
Proof.
  revert l w rs. induction events as [|e events IH]; intros l w rs Ha Hns; simpl in Ha.
  { unfold mret, st_ret in Ha. by simplify_eq. }
  apply Forall_cons in Hns as [He Hns]. inv_ok Ha. intros Hr.
  eapply append_run_of_app; [done|done|]. by eapply IH.
Qed.

Lemma elem_of_active_runs_for_app l app_id rid :
  rid ∈ active_runs_for_app l app_id <-> run_of_app l rid app_id.
Proof.
  unfold active_runs_for_app, run_of_app. rewrite list_elem_of_fmap. split.
  - intros ([k state] & -> & Hin). apply list_elem_of_In, filter_In in Hin as [Hin Ha].
    apply list_elem_of_In, elem_of_btree_list in Hin. exists state.
    by apply andb_true_iff in Ha as [? ?%bool_decide_eq_true].
  - intros (state & Hs & Ha & Happ). exists (rid, state). split; [done|].
    apply list_elem_of_In, filter_In. split; [by apply list_elem_of_In, elem_of_btree_list|].
    simpl. rewrite Ha. by apply bool_decide_eq_true.
Qed.

(** ** Pending invocations *)

Lemma remove_pending_matching_lookup p k id pending :
  k_pending_invocations (remove_pending_matching p k) !! id = Some pending <->
  k_pending_invocations k !! id = Some pending /\ p pending = false.
Proof.
  unfold remove_pending_matching. simpl. rewrite lookup_btree_retain.
  destruct (k_pending_invocations k !! id) as [q|]; simpl; [|split; [done|by intros [? _]]].
  destruct (p q) eqn:E; simpl; split; [done|intros [[= ->] ?]; congruence|by intros [= ->]|by intros [? _]].
Qed.

Lemma flag_raise_monotone flags f g : flag_load flags g = true -> flag_load (flag_raise flags f) g = true.
Proof.
  intros Hg. destruct (flag_load (flag_raise flags f) g) eqn:E; [done|].
  apply flag_raise_load in E. congruence.
Qed.

Lemma raise_all_raised flags pendings p :
  p ∈ pendings -> (pi_cancelled p < length flags)%nat ->
  flag_load (raise_all flags pendings) (pi_cancelled p) = true.
Proof.
  assert (∀ ps fl g, flag_load fl g = true -> flag_load (raise_all fl ps) g = true) as Hmono.
  { intros ps. induction ps as [|q ps IH]; intros fl g Hg; simpl; [done|]. by apply IH, flag_raise_monotone. }
  revert flags. induction pendings as [|q ps IH]; intros flags; [by intros ?%elem_of_nil|].
  intros [->|Hp]%elem_of_cons Hlt; simpl.
  - apply Hmono. unfold flag_load, flag_raise. by rewrite list_lookup_insert_eq.
  - apply IH; [done|]. unfold flag_raise. by rewrite length_insert.
Qed.

Lemma raise_matching_raised p k id pending :
  k_pending_invocations k !! id = Some pending -> p pending = true ->
  (pi_cancelled pending < length (k_flags k))%nat ->
  flag_load (k_flags (raise_matching p k)) (pi_cancelled pending) = true.
Proof.
  intros Hl Hp Hlt. unfold raise_matching. simpl. apply raise_all_raised; [|done].
  apply list_elem_of_In, filter_In. split; [|done]. apply list_elem_of_In, elem_of_btree_values. by exists id.
Qed.

(** ** Leases *)

Lemma release_leases_lookup run_ids (m : LeaseManager) id l :
  lm_leases (foldl LeaseManager_release_all_for_run m run_ids) !! id = Some l <->
  lm_leases m !! id = Some l /\ le_run_id l ∉ run_ids.
Proof.
  revert m. induction run_ids as [|r rs IH]; intros m; simpl.
  - split; [|by intros [? _]]. intros ?. split; [done|]. apply not_elem_of_nil.
  - rewrite IH. unfold LeaseManager_release_all_for_run. cbn [lm_leases].
    rewrite lookup_btree_retain, not_elem_of_cons.
    destruct (lm_leases m !! id) as [l'|]; simpl; [|split; [by intros [? _]|by intros [? _]]].
    case_bool_decide; simpl; split.
    + by intros [? _].
    + by intros [[= ->] [? _]].
    + by intros [[= ->] ?].
    + by intros [[= ->] [_ ?]].
Qed.

(** ** Authority *)

Lemma strip_authority_revokes b app_id id g :
  b_grants (strip_authority b app_id) !! id = Some g ->
  g_holder g = app_id \/ GrantScope_provider (g_scope g) = app_id ->
  id ∈ b_revoked (strip_authority b app_id).
Proof.
  unfold strip_authority. simpl. intros Hg [Hh|Hp].
  - apply elem_of_union_r, elem_of_union_l, elem_of_matching_ids. exists g. split; [done|].
    by apply bool_decide_eq_true.
  - apply elem_of_union_l, elem_of_matching_ids. exists g. split; [done|]. by apply bool_decide_eq_true.
Qed.

Lemma strip_authority_secrets b app_id r :
  sr_owner r = app_id -> b_secrets (strip_authority b app_id) !! r = None.
Proof.
  intros Hr. unfold strip_authority. simpl. rewrite lookup_btree_retain.
  destruct (b_secrets b !! r); simpl; [|done]. by rewrite bool_decide_eq_true_2.
Qed.

(** Ended by the teardown of an app: no active run of it is left. *)
Lemma teardown_ends_runs app_id k (w : W) rs l' w' rid :
  append_all (k_ledger k) (teardown_events app_id k) w = (Ok (rs, l'), w') ->
  ¬ run_of_app l' rid app_id.
Proof.
  intros Ha Hr. pose proof (append_all_run_of_app _ _ _ _ _ _ _ _ Ha (teardown_events_work app_id k) Hr) as Hr0.
  assert (run_ended l' rid) as (state & Hs & He).
  { eapply append_all_ended; [done|]. right. exists RunCancelled. apply elem_of_app. right.
    apply list_elem_of_fmap. exists rid. split; [done|]. by apply elem_of_active_runs_for_app. }
  destruct Hr as (state' & Hs' & He' & _). congruence.
Qed.

(** ** Theorems *)

(** C30: Uninstalling leaves nothing of an app behind. The app is gone from the
    catalog; every grant it holds or provides is revoked; its secrets, open surfaces,
    inbox, handlers and pending invocations are gone, its runs are over and their
    leases are released. *)
Theorem uninstall_removes_authority app_id k k' :
  uninstall app_id k = (Ok tt, k') ->
  r_apps (k_registry k') = delete app_id (r_apps (k_registry k)) /\
  (∀ id g, b_grants (k_broker k') !! id = Some g ->
     g_holder g = app_id \/ GrantScope_provider (g_scope g) = app_id -> id ∈ b_revoked (k_broker k')) /\
  (∀ r, sr_owner r = app_id -> b_secrets (k_broker k') !! r = None) /\
  (∀ b, b ∈ s_open (k_surfaces k') -> sb_app_id b ≠ app_id) /\
  mr_inboxes (k_router k') !! app_id = None /\ k_handlers k' !! app_id = None /\
  (∀ id p, k_pending_invocations k' !! id = Some p ->
     pi_acting_app p ≠ app_id /\ cr_provider (pi_capability p) ≠ app_id) /\
  (∀ rid, ¬ run_of_app (k_ledger k') rid app_id) /\
  (∀ id l, lm_leases (k_leases k') !! id = Some l -> ¬ run_of_app (k_ledger k) (le_run_id l) app_id).
Proof.
  unfold uninstall. intros Hu.
  apply st_bind_Ok_inv in Hu as (app & s & [_ <-]%st_lift_inv & Hu).
  apply st_bind_Ok_inv in Hu as (views & s & [_ <-]%st_lift_inv & Hu).
  apply st_bind_Ok_inv in Hu as ([rs l'] & k1 & [Hl Hk1]%on_world_Ok & Hu).
  apply st_bind_Ok_inv in Hu as (r & s & [Hr <-]%st_lift_inv & Hu).
  apply st_bind_Ok_inv in Hu as ([] & k2 & Hc & Hu).
  pose proof (commit_parts_snd r l' (strip_authority (k_broker k) app_id) (k_artifacts k) k1) as Hcp.
  rewrite Hc in Hcp. destruct Hcp as (_ & so & ->). clear Hc.
  unfold Registry_uninstall in Hr. destruct (r_apps (k_registry k) !! app_id); [|done]. simplify_eq.
  rewrite append_batch_append_all in Hl. rewrite Hk1 in Hu. clear Hk1.
  repeat (apply st_bind_Ok_inv in Hu as ([] & ? & Hok & Hu); unfold st_modify in Hok; injection Hok as <-).
  unfold st_modify in Hu. injection Hu as <-. simpl.
  split_and!; [done|apply strip_authority_revokes|apply strip_authority_secrets| | | | | |].
  - intros b Hb. by apply elem_of_filter in Hb as [? _].
  - apply lookup_delete_eq.
  - apply lookup_delete_eq.
  - intros id p Hp. rewrite lookup_btree_retain in Hp.
    destruct (k_pending_invocations k !! id) as [q|]; simpl in Hp; [|done].
    destruct (pending_of_app app_id q) eqn:E; simpl in Hp; simplify_eq.
    apply orb_false_iff in E as [E1%bool_decide_eq_false E2%bool_decide_eq_false]. done.
  - intros rid. by eapply teardown_ends_runs.
  - intros id l Hlk. apply release_leases_lookup in Hlk as [_ Hn].
    by rewrite <- elem_of_active_runs_for_app.
Qed.

(** Ending a run closes its work. The run is over in the ledger, exactly its
    pending invocations are removed and their cancellation flags are raised for the
    handlers still running, its leases are released, and nothing else durable changes. *)
Theorem end_run_closes_work run_id terminal k k' :
  end_run run_id terminal k = (Ok tt, k') ->
  run_ended (k_ledger k') run_id /\
  (∀ id p, k_pending_invocations k' !! id = Some p <->
     k_pending_invocations k !! id = Some p /\ pi_run_id p ≠ run_id) /\
  (∀ id p, k_pending_invocations k !! id = Some p -> pi_run_id p = run_id ->
     (pi_cancelled p < length (k_flags k))%nat -> flag_load (k_flags k') (pi_cancelled p) = true) /\
  (∀ id l, lm_leases (k_leases k') !! id = Some l -> le_run_id l ≠ run_id) /\
  k_registry k' = k_registry k /\ k_broker k' = k_broker k /\ k_artifacts k' = k_artifacts k.
Proof.
  unfold end_run. intros He.
  apply st_bind_Ok_inv in He as ([] & k1 & Hr & He).
  apply record_batch_Ok in Hr as (rs & Ha & E1 & E2 & E3 & E4 & E5 & E6 & _).
  apply st_bind_Ok_inv in He as ([] & k2 & Hm & He). unfold st_modify in Hm, He. simplify_eq.
  simpl. split_and!; try done.
  - eapply append_all_ended; [done|]. right. exists terminal. apply elem_of_app. right.
    apply list_elem_of_here.
  - intros id p. rewrite <- E4.
    change (k_pending_invocations (remove_pending_matching (pending_in_run run_id) k1) !! id = Some p <->
      k_pending_invocations k1 !! id = Some p /\ pi_run_id p ≠ run_id).
    rewrite remove_pending_matching_lookup. unfold pending_in_run. by rewrite bool_decide_eq_false.
  - intros id p Hp Hrun Hlt. rewrite <- E4 in Hp. rewrite <- E6 in Hlt.
    apply (raise_matching_raised (pending_in_run run_id) k1 id p Hp); [|done].
    by apply bool_decide_eq_true.
  - intros id l. rewrite lookup_btree_retain. destruct (lm_leases (k_leases k1) !! id); simpl; [|done].
    case_bool_decide; [done|]. by intros [= <-].
Qed.

(** An in-place upgrade changes code and nothing else. The new version declares
    the same upgrade contract as the installed one, keeps its installation time, binds
    exactly the declared capabilities, and leaves ledger, grants, artifacts, surfaces,
    inboxes, leases and pending work as they were. *)
Theorem upgrade_preserves_authority sealed handlers k k' :
  upgrade_app sealed handlers k = (Ok tt, k') ->
  let app_id := m_app_id (sm_manifest sealed) in
  (∃ old new, r_apps (k_registry k) !! app_id = Some old /\
     r_apps (k_registry k') = <[app_id := new]> (r_apps (k_registry k)) /\
     sealed_of new = sealed /\ ia_installed_at new = ia_installed_at old /\
     has_same_upgrade_contract (ia_manifest old) (ia_manifest new) = true) /\
  k_handlers k' = <[app_id := handlers]> (k_handlers k) /\
  list_to_set (cd_name <$> m_capabilities (sm_manifest sealed)) = (list_to_set (btree_keys handlers) : gset string) /\
  (k_ledger k', k_broker k', k_artifacts k', k_surfaces k', k_router k', k_leases k',
   k_pending_invocations k', k_flags k')
  = (k_ledger k, k_broker k, k_artifacts k, k_surfaces k, k_router k, k_leases k,
     k_pending_invocations k, k_flags k).
Proof.
  unfold upgrade_app. intros Hu.
  apply st_bind_Ok_inv in Hu as ([] & s & [Hb <-]%st_lift_inv & Hu).
  apply st_bind_Ok_inv in Hu as ([] & s & [_ <-]%st_lift_inv & Hu).
  apply st_bind_Ok_inv in Hu as (r & s & [Hr <-]%st_lift_inv & Hu).
  apply st_bind_Ok_inv in Hu as ([] & k1 & Hc & Hu).
  pose proof (commit_parts_snd r (k_ledger k) (k_broker k) (k_artifacts k) k) as Hcp.
  rewrite Hc in Hcp. destruct Hcp as (_ & so & ->). inv_ok Hu. simpl.
  unfold Registry_upgrade in Hr. inv_ok Hr. apply Registry_app_Ok in Hok.
  destruct (has_same_upgrade_contract _ _) eqn:Hsame; simplify_eq/=. split_and!; [|done| |done].
  - eexists _, _. split_and!; try done. by destruct sealed.
  - unfold require_handler_binding in Hb. by case_bool_decide.
Qed.

End lifecycle.
