(* ===== verification/AuthorityFacts.v ===== *)
(** * What issuance guarantees

    Authority enters the broker only through an approval of exactly that
    authority; prompts are asked once per distinct authority; the approval prompt
    shows a bounded prefix of the input; and a click replaces an approval only in
    the provider's own surface. *)

From S2P Require Import Prelude RustStd Json Types Errors Grants Manifest Platform Ledger.
From S2P Require Import Registry Broker BrokerFacts Artifacts Surfaces Router Invocation Durable KernelState.
From S2P Require Import KernelGrants KernelInstall KernelInvoke KernelBoot Durability Operations Session Scenario.
From S2P Require Import SessionFacts InvokeFacts LifecycleFacts.

(** The shape of most guards: an early return unless a condition holds. *)
Lemma guard_Ok {E} (P : Prop) `{!Decision P} (e : E) :
  (if negb (bool_decide P) then Err e else Ok tt) = Ok tt -> P.
Proof. by case_bool_decide. Qed.

Section authority.
Context {W S : Type} `{Libraries, Environment W, TrustedChrome W, KernelStateStore S}.
Implicit Types (k : Kernel W S).

(** ** Manifest grants *)

(** When a grant for [duration] issued at [issued_at] expires. *)
Definition expiry_of (duration : GrantDuration) (issued_at : DateTime) : option DateTime :=
  match duration with
  | NonExpiring => None
  | ExpiresAfter secs => Some (issued_at + seconds secs)%Z
  end.

(** A grant is what a request of [app_id] asks for, for as long as it asks. *)
Definition grant_of_request (app_id : AppId) (origin : GrantOrigin) (request : GrantRequest) (g : Grant) : Prop :=
  g_holder g = app_id /\ g_scope g = gq_scope request /\ g_data_scope g = gq_data_scope request /\
  g_condition g = gq_condition request /\ g_origin g = origin /\
  g_expires_at g = expiry_of (gq_duration request) (g_issued_at g).

Lemma grant_duration_matches_true g duration :
  grant_duration_matches g duration = Ok true -> g_expires_at g = expiry_of duration (g_issued_at g).
Proof.
  unfold grant_duration_matches. destruct duration as [|secs], (g_expires_at g) as [t|]; try done.
  intros Hm. inv_ok Hm. unfold datetime_add in Hok. case_match; simplify_eq/=. by case_bool_decide; simplify_eq/=.
Qed.

(** The user approved a prompt naming the authority of [request]. *)
Definition approved_request (prompts : list GrantIssuancePrompt) (decisions : list ApprovalDecision)
    (request : GrantRequest) : Prop :=
  ∃ i prompt, prompts !! i = Some prompt /\ decisions !! i = Some Approved /\
    gip_scope prompt = gq_scope request /\ gip_data_scope prompt = gq_data_scope request /\
    gip_condition prompt = gq_condition request /\ gip_duration prompt = gq_duration request.

Lemma find_ok_Some {E A} (p : A -> outcome E bool) l x :
  find_ok p l = Ok (Some x) -> x ∈ l /\ p x = Ok true.
Proof.
  induction l as [|y l IH]; simpl; [done|]. intros Hf. inv_ok Hf. destruct a.
  - simplify_eq. split; [apply list_elem_of_here|done].
  - apply IH in Hf as [Hin Hp]. split; [by right|done].
Qed.

Lemma existing_grant_Some b app_id request origin (w : W) g w' :
  existing_grant b app_id request origin w = (Ok (Some g), w') ->
  grant_of_request app_id origin request g /\ (∃ id, b_grants b !! id = Some g) /\ is_revoked b g = false.
Proof.
  unfold existing_grant, grants_for. intros He. inv_ok He. inv_ok Hok.
  apply find_ok_Some in He as [Hin Hs].
  apply list_elem_of_In, filter_In in Hin as [Hin Hp]. apply list_elem_of_In, elem_of_btree_values in Hin.
  apply andb_true_iff in Hp as [Hp _]. apply andb_true_iff in Hp as [Hh%bool_decide_eq_true Hr%negb_true_iff].
  split; [|done]. unfold satisfies_request in Hs. destruct (_ && _) eqn:E; [|done].
  repeat (apply andb_true_iff in E as [E ?%bool_decide_eq_true]). apply bool_decide_eq_true in E.
  by apply grant_duration_matches_true in Hs.
Qed.

Lemma lookup_combine {A B} (xs : list A) (ys : list B) i x y :
  combine xs ys !! i = Some (x, y) -> xs !! i = Some x /\ ys !! i = Some y.
Proof.
  revert ys i. induction xs as [|a xs IH]; intros [|b ys] i; try done.
  destruct i as [|i]; simpl; [by intros [= -> ->]|apply IH].
Qed.

Lemma decision_for_approved prompts decisions request :
  decision_for prompts decisions request = Some Approved -> approved_request prompts decisions request.
Proof.
  unfold decision_for. destruct (List.find _ _) as [[prompt d]|] eqn:E; [|done]. simpl. intros [= ->].
  apply find_Some_elem in E as [Hin Hp]. apply list_elem_of_lookup in Hin as [i Hi].
  apply lookup_combine in Hi as [Hi Hd]. unfold prompt_answers in Hp. simpl in Hp.
  repeat (apply andb_true_iff in Hp as [Hp ?%bool_decide_eq_true]). apply bool_decide_eq_true in Hp.
  by exists i, prompt.
Qed.

(** What one request of a reconciliation ends in. *)
Definition reconciled (app_id : AppId) (origin : GrantOrigin) (request : GrantRequest) (r : IssueResult) : Prop :=
  match r with Issued g => grant_of_request app_id origin request g | Refused => True end.

Lemma reconcile_spec b app_id requests origin prompts decisions (w : W) rs issued b' w' :
  reconcile_manifest_grants b app_id requests origin prompts decisions w = (Ok (rs, issued, b'), w') ->
  Forall2 (reconciled app_id origin) requests rs /\ b_revoked b' = b_revoked b /\
  b_secrets b' = b_secrets b /\
  (∀ id g, b_grants b' !! id = Some g -> b_grants b !! id = Some g \/
     ∃ request, request ∈ requests /\ approved_request prompts decisions request /\
       grant_of_request app_id origin request g).
Proof.
  revert b w rs issued. induction requests as [|req reqs IH]; intros b w rs issued Hr; simpl in Hr.
  { unfold mret, st_ret in Hr. simplify_eq. split_and!; try done. by left. }
  apply st_bind_Ok_inv in Hr as (existing & w1 & He & Hr).
  apply st_bind_Ok_inv in Hr as ([[r i] b1] & w2 & Hi & Hr).
  apply st_bind_Ok_inv in Hr as ([[rs' i'] b2] & w3 & Hrec & Hr). inv_prim Hr.
  apply IH in Hrec as (Hf & Hrv & Hsec & Hg).
  assert (reconciled app_id origin req r /\ b_revoked b1 = b_revoked b /\ b_secrets b1 = b_secrets b /\
    ∀ id g, b_grants b1 !! id = Some g -> b_grants b !! id = Some g \/
      (approved_request prompts decisions req /\ grant_of_request app_id origin req g))
    as (Hrec1 & Hrv1 & Hsec1 & Hg1).
  { destruct existing as [g|].
    - inv_prim Hi. split; [by apply existing_grant_Some in He as [? _]|]. by eauto.
    - apply st_bind_Ok_inv in Hi as ([r1 b3] & w4 & Hi & Hm). inv_prim Hm.
      destruct (decision_for prompts decisions req) as [d|] eqn:Hd; [|inv_prim Hi; split_and!; try done; by eauto].
      apply issue_with_decision_Ok in Hi. destruct r1 as [g|]; [|destruct Hi as [_ ->]; split_and!; try done; by eauto].
      destruct Hi as (-> & Hh & Hs & Hds & Hc & Ho & _ & He' & _ & ->).
      split; [done|]. split; [done|]. split; [done|]. simpl. intros id g'.
      intros [[_ <-]|[_ ?]]%lookup_insert_Some; [right|by left].
      split; [by apply decision_for_approved|done]. }
  split; [by constructor|]. split; [congruence|]. split; [congruence|].
  intros id g Hl. apply Hg in Hl as [Hl|(request & Hin & Ha & Hgr)].
  - apply Hg1 in Hl as [Hl|[Ha Hgr]]; [by left|]. right. exists req. split; [apply list_elem_of_here|done].
  - right. exists request. split; [by right|done].
Qed.

(** ** Installation *)

(** The grants of [k'] are those of [k] and approved requests of the manifest. *)
Definition grants_approved (approval : InstallApproval W) k k' : Prop :=
  let manifest := sm_manifest (pin_sealed_manifest (ina_prepared approval)) in
  ∀ id g, b_grants (k_broker k') !! id = Some g -> b_grants (k_broker k) !! id = Some g \/
    ∃ request, request ∈ m_grant_requests manifest /\
      approved_request (pin_grant_prompts (ina_prepared approval)) (ina_grant_decisions approval) request /\
      grant_of_request (m_app_id manifest) (pin_grant_origin (ina_prepared approval)) request g.

Lemma require_event_consent_Ok app_id prompt decision :
  require_event_consent app_id prompt decision = Ok tt -> is_Some prompt -> decision = Some Approved.
Proof.
  unfold require_event_consent. intros Hc [p ->]. by case_bool_decide.
Qed.

Lemma commit_fresh_Ok approval k results k' :
  let p := ina_prepared approval in
  commit_fresh p (ina_event_decision approval) (ina_grant_decisions approval) k = (Ok results, k') ->
  grants_approved approval k k' /\
  (is_Some (pin_event_prompt p) -> ina_event_decision approval = Some Approved) /\
  (∃ app, r_apps (k_registry k') = <[m_app_id (sm_manifest (pin_sealed_manifest p)) := app]>
            (r_apps (k_registry k)) /\ sealed_of app = pin_sealed_manifest p) /\
  k_handlers k' = <[m_app_id (sm_manifest (pin_sealed_manifest p)) := pin_handlers p]> (k_handlers k) /\
  k_ledger k' = k_ledger k.
Proof.
  intros p. unfold commit_fresh. intros Hc. fold p in Hc.
  do 3 (apply st_bind_Ok_inv in Hc as ([] & s & [_ <-]%st_lift_inv & Hc)).
  apply st_bind_Ok_inv in Hc as ([] & s & [Hev <-]%st_lift_inv & Hc).
  apply st_bind_Ok_inv in Hc as ([] & s & [_ <-]%st_lift_inv & Hc).
  apply st_bind_Ok_inv in Hc as (r & k1 & [Hin Hk1]%on_world_Ok & Hc).
  apply st_bind_Ok_inv in Hc as ([[rs i] b] & k2 & [Hrec Hk2]%on_world_Ok & Hc).
  apply st_bind_Ok_inv in Hc as ([] & k3 & Hcp & Hc).
  pose proof (commit_parts_snd r (k_ledger k) b (k_artifacts k) k2) as Hs. rewrite Hcp in Hs.
  destruct Hs as (_ & so & ->). inv_ok Hc. simplify_eq. rewrite Hk2, Hk1. simpl.
  apply reconcile_spec in Hrec as (_ & _ & _ & Hg). apply Registry_install_Ok in Hin as (t & _ & _ & Hr).
  split; [done|]. split; [by eapply require_event_consent_Ok|]. split; [|done].
  rewrite Hr. eexists. split; [done|]. by destruct (pin_sealed_manifest p).
Qed.

Lemma commit_rebind_Ok approval k results k' :
  let p := ina_prepared approval in
  commit_rebind p (ina_grant_decisions approval) k = (Ok results, k') ->
  grants_approved approval k k' /\ k_registry k' = k_registry k /\
  k_handlers k' = <[m_app_id (sm_manifest (pin_sealed_manifest p)) := pin_handlers p]> (k_handlers k) /\
  k_ledger k' = k_ledger k.
Proof.
  intros p. unfold commit_rebind. intros Hc. fold p in Hc.
  apply st_bind_Ok_inv in Hc as (app & s & [_ <-]%st_lift_inv & Hc).
  do 3 (apply st_bind_Ok_inv in Hc as ([] & s & [_ <-]%st_lift_inv & Hc)).
  apply st_bind_Ok_inv in Hc as ([[rs i] b] & k1 & [Hrec Hk1]%on_world_Ok & Hc).
  apply st_bind_Ok_inv in Hc as ([] & k2 & Hcp & Hc). inv_ok Hc. simplify_eq. simpl.
  apply reconcile_spec in Hrec as (_ & _ & _ & Hg).
  assert (k_registry k2 = k_registry k /\ k_handlers k2 = k_handlers k /\ k_ledger k2 = k_ledger k /\
    (k_broker k2 = b \/ k_broker k2 = k_broker k)) as (-> & -> & -> & Hb).
  { destruct i; [|inv_prim Hcp; rewrite Hk1; simpl; by eauto].
    apply st_bind_Ok_inv in Hcp as ([] & k3 & Hcp & Hm). unfold st_modify in Hm. simplify_eq.
    pose proof (commit_parts_snd (k_registry k) (k_ledger k) b (k_artifacts k) k1) as Hs.
    rewrite Hcp in Hs. destruct Hs as (_ & so & ->). rewrite Hk1. simpl. by eauto. }
  split; [|done]. intros id g; simpl. destruct Hb as [->| ->]; [apply Hg|by left].
Qed.

Lemma replace_Ok approval previous k results k' :
  let p := ina_prepared approval in
  replace_installed_app (pin_sealed_manifest p) (pin_handlers p) (pin_grant_origin p) previous
    (pin_event_prompt p) (ina_event_decision approval) (pin_grant_prompts p)
    (ina_grant_decisions approval) k = (Ok results, k') ->
  grants_approved approval k k' /\
  (is_Some (pin_event_prompt p) -> ina_event_decision approval = Some Approved) /\
  b_revoked (k_broker k') = b_revoked (strip_authority (k_broker k) (m_app_id (sm_manifest (pin_sealed_manifest p)))).
Proof.
  intros p. unfold replace_installed_app. intros Hc.
  apply st_bind_Ok_inv in Hc as (app & s & [_ <-]%st_lift_inv & Hc).
  apply st_bind_Ok_inv in Hc as ([] & s & [_ <-]%st_lift_inv & Hc).
  apply st_bind_Ok_inv in Hc as (r1 & s & [_ <-]%st_lift_inv & Hc).
  do 2 (apply st_bind_Ok_inv in Hc as ([] & s & [_ <-]%st_lift_inv & Hc)).
  apply st_bind_Ok_inv in Hc as ([] & s & [Hev <-]%st_lift_inv & Hc).
  apply st_bind_Ok_inv in Hc as ([] & s & [_ <-]%st_lift_inv & Hc).
  apply st_bind_Ok_inv in Hc as (r & k1 & [_ Hk1]%on_world_Ok & Hc).
  apply st_bind_Ok_inv in Hc as (views & s & [_ <-]%st_lift_inv & Hc).
  apply st_bind_Ok_inv in Hc as ([recs l] & k2 & [_ Hk2]%on_world_Ok & Hc).
  apply st_bind_Ok_inv in Hc as ([[rs i] b] & k3 & [Hrec Hk3]%on_world_Ok & Hc).
  apply st_bind_Ok_inv in Hc as ([] & k4 & Hcp & Hc).
  pose proof (commit_parts_snd r l b (k_artifacts k) k3) as Hs. rewrite Hcp in Hs.
  destruct Hs as (_ & so & ->). inv_ok Hc. simplify_eq. simpl.
  apply reconcile_spec in Hrec as (_ & Hrv & _ & Hg). split_and!; [done| |done].
  by eapply require_event_consent_Ok.
Qed.

(** ** User-added grants *)

Lemma commit_issued_Ok r b k r' k' :
  commit_issued r b k = (Ok r', k') ->
  r' = r /\ match r with
            | Issued _ => ∃ so, k' = set_broker b (set_state_store so k)
            | Refused => k' = k
            end.
Proof.
  unfold commit_issued. destruct r as [g|]; [|by intros [= <- <-]]. intros Hc.
  apply st_bind_Ok_inv in Hc as ([] & k1 & Hcp & Hc).
  pose proof (commit_parts_snd (k_registry k) (k_ledger k) b (k_artifacts k) k) as Hs.
  rewrite Hcp in Hs. destruct Hs as (_ & so & ->). inv_ok Hc. simplify_eq. by eauto.
Qed.

(** ** Prompts *)

Lemma same_authority_spec a b :
  same_authority a b = true <-> gip_scope a = gip_scope b /\ gip_data_scope a = gip_data_scope b /\
    gip_condition a = gip_condition b /\ gip_duration a = gip_duration b.
Proof. unfold same_authority. rewrite !andb_true_iff, !bool_decide_eq_true. tauto. Qed.

(** Distinct authorities, pairwise. *)
Definition distinct_prompts (prompts : list GrantIssuancePrompt) : Prop :=
  ∀ i j a b, prompts !! i = Some a -> prompts !! j = Some b -> same_authority a b = true -> i = j.

Lemma distinct_prompts_snoc unique prompt :
  distinct_prompts unique -> existsb (fun seen => same_authority seen prompt) unique = false ->
  distinct_prompts (unique ++ [prompt]).
Proof.
  intros Hd Hn. assert (∀ i a, unique !! i = Some a -> same_authority a prompt = false) as Hnew.
  { intros i a Hi. destruct (same_authority a prompt) eqn:E; [|done].
    assert (existsb (fun seen => same_authority seen prompt) unique = true); [|congruence].
    apply existsb_exists. exists a. split; [|done]. apply list_elem_of_In. by eapply list_elem_of_lookup_2. }
  intros i j a b Hi Hj Hs. apply lookup_app_Some in Hi as [Hi|[Hi Hi']], Hj as [Hj|[Hj Hj']].
  - by eapply Hd.
  - apply list_lookup_singleton_Some in Hj' as [_ <-]. by rewrite (Hnew _ _ Hi) in Hs.
  - apply list_lookup_singleton_Some in Hi' as [_ <-].
    assert (same_authority b prompt = true) as Hsym by (rewrite same_authority_spec in *; intuition congruence).
    by rewrite (Hnew _ _ Hj) in Hsym.
  - apply list_lookup_singleton_Some in Hi' as [? _], Hj' as [? _]. lia.
Qed.

Lemma dedup_prompts_gen prompts unique :
  distinct_prompts unique ->
  let result := foldl (fun unique prompt =>
    if existsb (fun seen => same_authority seen prompt) unique then unique else unique ++ [prompt])
    unique prompts in
  distinct_prompts result /\
  (∀ p, p ∈ result -> p ∈ unique \/ p ∈ prompts) /\
  (∀ p, p ∈ unique \/ p ∈ prompts -> ∃ q, q ∈ result /\ same_authority q p = true).
Proof.
  revert unique. induction prompts as [|p ps IH]; intros unique Hd; simpl.
  { split; [done|]. split; [by intros; left|]. intros q [Hq|Hq%not_elem_of_nil]; [|done].
    exists q. split; [done|]. by apply same_authority_spec. }
  destruct (existsb _ unique) eqn:E.
  - destruct (IH unique Hd) as (Hd' & Hsub & Hcov). split; [done|]. split.
    + intros q Hq. rewrite elem_of_cons. apply Hsub in Hq. tauto.
    + intros q. rewrite elem_of_cons. intros [Hq|[->|Hq]]; [apply Hcov; by left| |apply Hcov; by right].
      apply existsb_exists in E as (x & Hx%list_elem_of_In & Hs). destruct (Hcov x (or_introl Hx)) as (y & Hy & Hs').
      exists y. split; [done|]. rewrite same_authority_spec in *. intuition congruence.
  - destruct (IH (unique ++ [p]) (distinct_prompts_snoc _ _ Hd E)) as (Hd' & Hsub & Hcov).
    split; [done|]. split.
    + intros q Hq%Hsub. rewrite elem_of_cons. rewrite elem_of_app, list_elem_of_singleton in Hq. tauto.
    + intros q Hq. apply Hcov. rewrite elem_of_app, list_elem_of_singleton.
      rewrite elem_of_cons in Hq. tauto.
Qed.

(** ** Bounded input summaries *)

Lemma boundary_spec s n :
  ∃ m, boundary_at_or_before s n = Ok m /\ (m <= n)%nat /\ is_char_boundary s m = true /\
    ∀ i, (m < i <= n)%nat -> is_char_boundary s i = false.
Proof.
  induction n as [|n (m & Hm & Hle & Hb & Hmax)]; simpl.
  - exists 0. split_and!; try done; lia.
  - destruct (is_char_boundary s (Datatypes.S n)) eqn:E.
    + exists (Datatypes.S n). split_and!; try done; lia.
    + exists m. split_and!; [done|lia|done|]. intros i Hi.
      destruct (decide (i = Datatypes.S n)) as [->|]; [done|]. apply Hmax. lia.
Qed.

Lemma length_substring_0 n s : (n <= String.length s)%nat -> String.length (String.substring 0 n s) = n.
Proof.
  revert n. induction s as [|c s IH]; intros n Hn; simpl in *; [by destruct n; [|lia]|].
  destruct n as [|n]; [done|]. simpl. rewrite IH by lia. done.
Qed.

Lemma prefix_substring_0 n s : String.prefix (String.substring 0 n s) s = true.
Proof.
  revert n. induction s as [|c s IH]; intros n; simpl; [by destruct n|].
  destruct n as [|n]; [done|]. simpl. destruct (Ascii.ascii_dec c c); [apply IH|done].
Qed.

(** ** Surface actions *)

Lemma prepare_surface_action_Ok binding intent k run_id prepared k' :
  prepare_surface_action binding intent k = (Ok (run_id, prepared), k') ->
  binding ∈ s_open (k_surfaces k) /\
  (∃ surface, Registry_surface (k_registry k) (sb_app_id binding) (sb_surface binding) = Ok surface /\
     ai_capability intent ∈ sd_intents surface) /\
  ∃ k1, start_run (InitSurfaceAction (sb_app_id binding) (sb_surface binding)) (ai_goal intent) k = (Ok run_id, k1) /\
    prepare_invocation_with_context run_id (ai_capability intent)
      {| ir_input := ai_input intent; ir_data_scope := ai_data_scope intent |} DEFAULT_INVOCATION_TIMEOUT
      (bool_decide (sb_app_id binding = cr_provider (ai_capability intent))) k1 = (Ok prepared, k').
Proof.
  unfold prepare_surface_action. intros Hp.
  apply st_bind_Ok_inv in Hp as ([] & s & [Ho <-]%st_lift_inv & Hp).
  apply st_bind_Ok_inv in Hp as (surface & s & [Hs <-]%st_lift_inv & Hp).
  apply st_bind_Ok_inv in Hp as ([] & s & [Hi <-]%st_lift_inv & Hp).
  apply st_bind_Ok_inv in Hp as (rid & k1 & Hrun & Hp).
  apply st_bind_Ok_inv in Hp as (r & k2 & Hc%st_catch_Ok & Hp).
  unfold SurfaceManager_require_open in Ho.
  destruct (bool_decide (binding ∈ _)) eqn:Hb in Ho; [apply bool_decide_eq_true in Hb|done].
  destruct (bool_decide (_ ∈ sd_intents _)) eqn:Hin in Hi; [apply bool_decide_eq_true in Hin|done].
  split; [done|]. split; [by eauto|].
  destruct r as [prep|e|msg].
  - inv_ok Hp. simplify_eq. by exists k1.
  - by inv_ok Hp.
  - by inv_ok Hp.
Qed.

(** ** Theorems *)

(** C12: Installation creates only approved authority. After a committed install,
    rebind or replacement every grant either existed before or is what a request of
    the installed manifest asks for (holder, scope, data scope, condition, origin and
    the time it lasts from its issue), under a prompt naming exactly that authority
    and duration which the user approved; and the event subscriptions of a new manifest were
    approved when they were asked for. *)
Theorem install_only_approved_authority approval k results k' :
  commit_install approval k = (Ok results, k') ->
  grants_approved approval k k' /\
  (pin_mode (ina_prepared approval) ≠ Rebind -> is_Some (pin_event_prompt (ina_prepared approval)) ->
   ina_event_decision approval = Some Approved).
Proof.
  unfold commit_install. intros Hc.
  do 2 (apply st_bind_Ok_inv in Hc as ([] & s & [_ <-]%st_lift_inv & Hc)).
  destruct (pin_mode (ina_prepared approval)) as [| |previous].
  - apply commit_fresh_Ok in Hc as (? & ? & _). done.
  - apply commit_rebind_Ok in Hc as (? & _). done.
  - apply replace_Ok in Hc as (? & ? & _). done.
Qed.

(** Reconciling manifest grants answers every request in order, withdraws no
    revocation, touches no secret, and adds only grants that a request asks for under
    an approved prompt naming the same authority. *)
Theorem reconcile_issues_only_approved b app_id requests origin prompts decisions (w : W) rs issued b' w' :
  reconcile_manifest_grants b app_id requests origin prompts decisions w = (Ok (rs, issued, b'), w') ->
  Forall2 (reconciled app_id origin) requests rs /\ b_revoked b' = b_revoked b /\
  b_secrets b' = b_secrets b /\
  (∀ id g, b_grants b' !! id = Some g -> b_grants b !! id = Some g \/
     ∃ request, request ∈ requests /\ approved_request prompts decisions request /\
       grant_of_request app_id origin request g).
Proof. apply reconcile_spec. Qed.

(** A user-added grant is what was prompted for. Committing it requires that
    holder and provider are still the versions shown in the prompt; an approval issues
    exactly the requested authority, for the requested time, and only adds it, a denial changes no authority. *)
Theorem commit_grant_requires_approval approval k r k' :
  commit_grant approval k = (Ok r, k') ->
  let p := ga_prepared approval in
  (∃ holder provider, r_apps (k_registry k) !! pg_holder p = Some holder /\
     ia_content_hash holder = pg_holder_content_hash p /\
     r_apps (k_registry k) !! GrantScope_provider (gq_scope (pg_request p)) = Some provider /\
     ia_content_hash provider = pg_provider_content_hash p) /\
  match r with
  | Issued g => ga_decision approval = Approved /\
      grant_of_request (pg_holder p) UserAdded (pg_request p) g /\
      b_grants (k_broker k') = <[g_grant_id g := g]> (b_grants (k_broker k)) /\
      b_revoked (k_broker k') = b_revoked (k_broker k)
  | Refused => ga_decision approval = Denied /\ k_broker k' = k_broker k
  end.
Proof.
  intros Hc p. unfold commit_grant in Hc. fold p in Hc.
  apply st_bind_Ok_inv in Hc as (holder & s & [Hh <-]%st_lift_inv & Hc).
  apply st_bind_Ok_inv in Hc as ([] & s & [Hhh <-]%st_lift_inv & Hc).
  apply st_bind_Ok_inv in Hc as (provider & s & [Hp <-]%st_lift_inv & Hc).
  apply st_bind_Ok_inv in Hc as ([] & s & [Hph <-]%st_lift_inv & Hc).
  apply st_bind_Ok_inv in Hc as ([] & s & [_ <-]%st_lift_inv & Hc).
  apply st_bind_Ok_inv in Hc as ([r1 b] & k1 & [Hi Hk1]%on_world_Ok & Hc).
  apply commit_issued_Ok in Hc as [-> Hc]. apply Registry_app_Ok in Hh, Hp. split.
  { apply guard_Ok in Hhh, Hph. by exists holder, provider. }
  apply issue_with_decision_Ok in Hi. destruct r1 as [g|].
  - destruct Hc as [so ->]. destruct Hi as (Hd & Hg1 & Hg2 & Hg3 & Hg4 & Hg5 & _ & Hg6 & _ & ->).
    by rewrite Hk1.
  - subst k'. destruct Hi as [Hd ->]. by rewrite Hk1.
Qed.

(** The user is asked once per distinct authority. Deduplicated prompts name
    pairwise different authority, each is one of the given prompts, and every given
    prompt has one of the same authority among them. *)
Theorem dedup_prompts_spec prompts :
  distinct_prompts (dedup_prompts prompts) /\
  (∀ p, p ∈ dedup_prompts prompts -> p ∈ prompts) /\
  (∀ p, p ∈ prompts -> ∃ q, q ∈ dedup_prompts prompts /\ same_authority q p = true).
Proof.
  destruct (dedup_prompts_gen prompts []) as (Hd & Hsub & Hcov); [by intros i j a b Hi; rewrite lookup_nil in Hi|].
  split; [done|]. split; [|by intros; apply Hcov; right].
  intros p Hp. by apply Hsub in Hp as [?%not_elem_of_nil|].
Qed.

(** The input shown in an approval prompt is a faithful, bounded prefix. It never
    exceeds the byte limit, never cuts a character, is the longest such prefix, and is
    marked as truncated exactly when the input did not fit. *)
Theorem approval_input_summary_bounded input :
  ∃ summary truncated, approval_input_summary input = Ok (summary, truncated) /\
    (String.length summary <= MAX_CAPABILITY_APPROVAL_INPUT_BYTES)%nat /\
    String.prefix summary (json_to_string_pretty input) = true /\
    is_char_boundary (json_to_string_pretty input) (String.length summary) = true /\
    (truncated = true <-> MAX_CAPABILITY_APPROVAL_INPUT_BYTES < String.length (json_to_string_pretty input))%nat /\
    (truncated = false -> summary = json_to_string_pretty input) /\
    (∀ i, (String.length summary < i <= MAX_CAPABILITY_APPROVAL_INPUT_BYTES)%nat -> truncated = true ->
       is_char_boundary (json_to_string_pretty input) i = false).
Proof.
  unfold approval_input_summary. set (s := json_to_string_pretty input).
  destruct (String.length s <=? MAX_CAPABILITY_APPROVAL_INPUT_BYTES)%nat eqn:E.
  - apply Nat.leb_le in E. exists s, false. split_and!; try done.
    + clear. induction s as [|c s IH]; [done|]. simpl. by destruct (Ascii.ascii_dec c c).
    + unfold is_char_boundary. destruct (String.length s =? 0)%nat; [done|].
      assert (∀ t : string, String.get (String.length t) t = None) as -> by (intros t; by induction t).
      apply Nat.eqb_refl.
    + split; [done|lia].
  - apply Nat.leb_gt in E.
    destruct (boundary_spec s MAX_CAPABILITY_APPROVAL_INPUT_BYTES) as (m & Hm & Hle & Hb & Hmax).
    rewrite Hm. simpl. exists (String.substring 0 m s), true.
    rewrite length_substring_0 by lia. split_and!; try done; [apply prefix_substring_0|].
    intros i Hi _. by apply Hmax.
Qed.

(** The exemption of direct surface actions is narrow. A prepared surface action
    comes from an open surface that declares the intent, and it skips the approval its
    grant requires only if the surface belongs to the capability's own provider and
    the capability's effect is bounded. *)
Theorem surface_exemption binding intent k run_id token k' :
  prepare_surface_action binding intent k = (Ok (run_id, Prepared token), k') ->
  binding ∈ s_open (k_surfaces k) /\
  (∃ surface, Registry_surface (k_registry k) (sb_app_id binding) (sb_surface binding) = Ok surface /\
     ai_capability intent ∈ sd_intents surface) /\
  ∃ pending declaration,
    k_pending_invocations k' !! ppi_id token = Some pending /\
    Registry_capability (k_registry k') (ai_capability intent) = Ok declaration /\
    (g_condition (pi_grant pending) = RequiresApproval -> ppi_approval token = None ->
     sb_app_id binding = cr_provider (ai_capability intent) /\
     bounded_effect (cd_effect declaration) = true).
Proof.
  intros (Ho & Hs & k1 & _ & Hp)%prepare_surface_action_Ok. split; [done|]. split; [done|].
  apply prepare_Ok in Hp as (pending & declaration & run & Hpf). exists pending, declaration.
  split; [apply Hpf|]. split; [apply Hpf|]. intros Hcond Hnone.
  pose proof (pf_consent _ _ _ _ _ _ _ _ _ Hpf) as Hcs. rewrite Hnone in Hcs.
  destruct Hcs as [|[Hd%bool_decide_eq_true ?]]; done.
Qed.

End authority.
