(* ===== verification/Findings.v ===== *)
(** * Sessions the recovery checks reject

    Three sessions of legal calls, all of which succeed, after which the recovery
    checks reject the state the kernel itself wrote: the host cannot boot on its own
    store. *)

From S2P Require Import Prelude RustStd Json Types Errors Grants Manifest Platform Ledger Registry.
From S2P Require Import Broker Artifacts Surfaces Router Invocation Durable KernelState KernelGrants KernelInstall.
From S2P Require Import KernelInvoke KernelBoot Scenario.

Definition is_invoked (record : LedgerRecord) : bool :=
  match lr_event record with CapabilityInvoked _ _ _ _ _ => true | _ => false end.

(** A click on the app's own surface whose grant requires approval: the click counts
    as the approval, the handler runs once, and the run ends. *)
Definition approved_by_click : Host.session InvocationResult :=
  _ ← Host.install [Host.request RequiresApproval];
  '(run_id, token) ← Host.click;
  token ← Host.authorize token;
  result ← Host.run_token token;
  _ ← end_run run_id RunCompleted;
  mret result.

(** Two invocations of one capability and scope in one run, under different grants:
    the grant of the second is revoked while both are authorised, so the second is
    cancelled and the first completes. *)
Definition cancelled_sibling : Host.session (InvocationResult * InvocationResult) :=
  _ ← Host.install [Host.request Notify];
  run_id ← start_run (InitApp "notes" "read") "read";
  first ← Host.prepare run_id;
  first ← Host.authorize first;
  issued ← issue_grant "notes" (Host.request Silent);
  second ← Host.prepare run_id;
  second ← Host.authorize second;
  _ ← match issued with
      | Issued grant => revoke_grant (g_grant_id grant)
      | _ => st_fail PreparedInvocationConsumed
      end;
  refused ← Host.run_token second;
  completed ← Host.run_token first;
  _ ← end_run run_id RunCompleted;
  mret (completed, refused).

(** An app that only declares capabilities and grant requests. *)
Definition plain_app (app_id : AppId) (capabilities : list CapabilityDeclaration)
    (requests : list GrantRequest) : AppManifest := {|
  m_app_id := app_id; m_version := "1"; m_display_name := app_id; m_description := app_id;
  m_capabilities := capabilities; m_surfaces := []; m_agents := []; m_skills := [];
  m_assistant_profiles := []; m_automations := []; m_connectors := []; m_config_declarations := [];
  m_artifact_types := []; m_extension_points := []; m_extension_contributions := [];
  m_grant_requests := requests; m_event_subscriptions := [] |}.

Definition install_app (manifest : AppManifest) (handlers : Handlers Host.World)
    : Host.session (list IssueResult) :=
  p ← prepare_install (seal manifest) handlers;
  approval ← Host.host (PreparedInstall_await_approval p);
  commit_install approval.

(** A consumer requests a capability of a provider; the provider is uninstalled and a
    version of it without the capability is installed. *)
Definition reinstalled_provider : Host.session unit :=
  _ ← install_app (plain_app "notes" [Host.read_capability] []) Host.handlers;
  _ ← install_app (plain_app "reader" [] [Host.request Silent]) ∅;
  _ ← uninstall "notes";
  _ ← install_app (plain_app "notes" [] []) ∅;
  mret tt.

(** An app that asks for a capability of another app blocks the next boot once
    the other app has been uninstalled and installed again without the capability.
    Every call succeeds, but recovery tolerates only an absent provider and rejects
    a request against a present one that no longer declares the capability. *)
Theorem reinstalled_provider_blocks_restart :
  let '(r, k) := reinstalled_provider Host.fresh_kernel in
  is_ok r = true /\ k_recovery_required k = false /\
  (Host.reboot k).1 = Err (UndeclaredCapability "notes" "read").
Proof. vm_compute. done. Qed.

(** A click on an app's own surface under a grant that requires approval is
    recorded as invoked twice, once when it is prepared and once when it is
    authorised. Every call of the session succeeds, one completion is recorded,
    and the next boot refuses the store because the run ended with work pending. *)
Theorem approved_click_blocks_restart :
  let '(r, k) := approved_by_click Host.fresh_kernel in
  is_ok r = true /\ length (List.filter is_invoked (l_records (k_ledger k))) = 2 /\
  k_recovery_required k = false /\
  (Host.reboot k).1 = Err (Durability "run 'run-2' ended with pending capability work").
Proof. vm_compute. done. Qed.

(** A cancellation record names the capability and the data scope but no grant,
    so replaying it may close the wrong one of two invocations that differ only in
    their grant. Every call of the session succeeds, and the next boot refuses the
    store because the other invocation's completion has nothing to match. *)
Theorem cancelled_sibling_blocks_restart :
  let '(r, k) := cancelled_sibling Host.fresh_kernel in
  is_ok r = true /\ k_recovery_required k = false /\
  (Host.reboot k).1 = Err (Durability "invocation outcome has no matching invocation").
Proof. vm_compute. done. Qed.
