(* ===== verification/Witnesses.v ===== *)
(** * Concrete instances

    Each conditional theorem of the development applied to a state that the host of
    [Scenario] reaches by evaluation, so that its hypotheses are known to hold
    together. *)

From S2P Require Import Prelude RustStd Json Types Errors Grants Manifest Platform Ledger.
From S2P Require Import Registry Broker BrokerFacts Artifacts Surfaces Router Invocation Durable KernelState.
From S2P Require Import KernelGrants KernelInstall KernelInvoke KernelBoot Durability Operations Session Scenario.
From S2P Require Import SessionFacts InvokeFacts FinalizeFacts LifecycleFacts AuthorityFacts.

(** ** Sessions of the concrete host *)

Abbreviation from_boot := (reachable 0 1 Host.start Host.empty_store).

Lemma boot_reaches : from_boot Host.fresh_kernel.
Proof. exists Host.fresh_kernel. by split; [vm_compute|]. Qed.

Lemma reaches_step k k' : kernel_step k k' -> from_boot k -> from_boot k'.
Proof. intros Hs (k0 & Hb & Hr). exists k0. split; [done|]. by eapply rtc_r. Qed.

Lemma reaches_call {A} (m : Host.session A) : public_call m -> preserves from_boot m.
Proof. intros Hm k. by apply reaches_step, step_call. Qed.

Lemma reaches_host {A} (f : Host.World -> A * Host.World) : preserves from_boot (Host.host f).
Proof. intros k Hk. unfold Host.host. destruct (f _) as [a w]. eapply reaches_step, Hk. apply step_world. Qed.

Lemma reaches_execute token : preserves from_boot (Host.run_handler token).
Proof.
  intros k Hk. unfold Host.run_handler. pose proof (step_execute token k) as Hs.
  destruct (execute_step token k) as [e k']. by eapply reaches_step.
Qed.

#[local] Hint Resolve reaches_call reaches_host reaches_execute : kestral.
#[local] Hint Constructors public_call : kestral.

Lemma reaches_install requests : preserves from_boot (Host.install requests).
Proof. unfold Host.install, prepare_install. st_walk. Qed.

Lemma reaches_click : preserves from_boot Host.click.
Proof. unfold Host.click. st_walk. Qed.

Lemma reaches_prepare run_id : preserves from_boot (Host.prepare run_id).
Proof. unfold Host.prepare, prepare_invocation. st_walk. Qed.

Lemma reaches_authorize token : preserves from_boot (Host.authorize token).
Proof. unfold Host.authorize. st_walk. Qed.

Lemma reaches_run_token token : preserves from_boot (Host.run_token token).
Proof. unfold Host.run_token. st_walk. Qed.

#[local] Hint Resolve reaches_install reaches_click reaches_prepare reaches_authorize
  reaches_run_token : kestral.

(** The value a session of legal calls ends with, and the state it leaves. *)
Ltac value_of m :=
  let r := eval vm_compute in (m Host.fresh_kernel).1 in
  match r with Ok ?a => exact a end.

Definition leaves {A} (m : Host.session A) : Host.kernel := (m Host.fresh_kernel).2.

Lemma reaches_leaves {A} (m : Host.session A) : preserves from_boot m -> from_boot (leaves m).
Proof. intros Hm. by apply Hm, boot_reaches. Qed.

Lemma from_boot_wf k :
  from_boot k -> services_wf (k_registry k) (k_ledger k) (k_broker k) (k_artifacts k).
Proof. apply reachable_durable. Qed.

(** Evaluate the outcome of a concrete call. *)
Ltac run_call E :=
  let E1 := fresh in
  pose proof (f_equal fst E) as E1; vm_compute in E1;
  match type of E1 with _ = ?x => subst x end.

(** A run that has a prepared token under a grant with [condition]. *)
Definition preparing (condition : GrantCondition) : Host.session (RunId * PreparedInvocation) :=
  _ ← Host.install [Host.request condition];
  run_id ← start_run (InitApp "notes" "read") "read";
  token ← Host.prepare run_id;
  mret (run_id, token).

(** One step further: the token is authorised. *)
Definition working (condition : GrantCondition) : Host.session (RunId * AuthorizedInvocation Host.World) :=
  '(run_id, token) ← preparing condition;
  token ← Host.authorize token;
  mret (run_id, token).

(** The handler ran. *)
Definition executing : Host.session ExecutedInvocation :=
  '(_, token) ← working Silent;
  Host.run_handler token.

(** The result is committed and the run has ended. *)
Definition finished : Host.session RunId :=
  executed ← executing;
  _ ← finalize_invocation executed;
  _ ← end_run "run-1" RunCompleted;
  mret "run-1".

Lemma reaches_preparing condition : preserves from_boot (preparing condition).
Proof. unfold preparing. st_walk. Qed.

#[local] Hint Resolve reaches_preparing : kestral.

Lemma reaches_working condition : preserves from_boot (working condition).
Proof. unfold working. st_walk. Qed.

#[local] Hint Resolve reaches_working : kestral.

Lemma reaches_executing : preserves from_boot executing.
Proof. unfold executing. st_walk. Qed.

#[local] Hint Resolve reaches_executing : kestral.

Lemma reaches_finished : preserves from_boot finished.
Proof. unfold finished. st_walk. Qed.

Example finished_runs : is_ok (finished Host.fresh_kernel).1 = true.
Proof. vm_compute. done. Qed.

Definition run_and_prepared : RunId * PreparedInvocation := ltac:(value_of (preparing RequiresApproval)).
Definition run_and_token : RunId * AuthorizedInvocation Host.World := ltac:(value_of (working Silent)).
Definition executed : ExecutedInvocation := ltac:(value_of executing).

(** ** Sessions and restarts *)

Lemma store_mirrors_memory_witness :
  ∃ s, k_state_store (leaves finished) = Some s /\
    store_holds s (k_registry (leaves finished)) (k_ledger (leaves finished))
      (k_broker (leaves finished)) (k_artifacts (leaves finished)).
Proof.
  destruct (k_state_store (leaves finished)) as [s|] eqn:Hs; [|vm_compute in Hs; discriminate].
  exists s. split; [done|].
  apply (store_mirrors_memory 0 1 Host.start Host.empty_store (leaves finished) s).
  - apply reaches_leaves, reaches_finished.
  - vm_compute. reflexivity.
  - exact Hs.
Defined.

Lemma restart_restores_witness :
  ∃ s k', k_state_store (leaves executing) = Some s /\
    with_clock_and_state_store 0 7 Host.start s = (Ok tt, k') /\
    k_registry k' = k_registry (leaves executing) /\
    l_records (k_ledger (leaves executing)) `prefix_of` l_records (k_ledger k') /\
    active_run_ids (k_ledger (leaves executing)) ≠ [] /\ active_run_ids (k_ledger k') = [].
Proof.
  pose (s0 := default Host.empty_store (k_state_store (leaves executing))).
  assert (k_state_store (leaves executing) = Some s0) as Hs by (vm_compute; reflexivity).
  destruct (with_clock_and_state_store 0 7 Host.start s0) as [r k'] eqn:Hb. run_call Hb.
  edestruct (restart_restores 0 1 Host.start Host.empty_store (leaves executing) s0 0 7 Host.start k')
    as (H1 & _ & _ & _ & H5 & H6); [apply reaches_leaves, reaches_executing|vm_compute; reflexivity|exact Hs|exact Hb|].
  exists s0, k'. split_and!; [done|exact Hb|exact H1|exact H5| |exact H6]. vm_compute. discriminate.
Defined.

(** A kernel whose last commit could not be resolved. *)
Definition stuck : Host.kernel := set_recovery_required true (leaves executing).

Lemma recovery_required_freezes_witness :
  frozen_part (end_run "run-1" RunCompleted (finalize_invocation executed stuck).2).2
  = frozen_part stuck.
Proof.
  apply (recovery_required_freezes stuck).
  - apply (rtc_l _ _ (finalize_invocation executed stuck).2).
    + apply (step_call (finalize_invocation executed)), call_finalize_invocation.
    + apply rtc_once, (step_call (end_run "run-1" RunCompleted)), call_end_run.
  - vm_compute. reflexivity.
Defined.

(** Two grants of one authority, the first of them revoked. *)
Definition revoking : Host.session unit :=
  _ ← Host.install [Host.request Silent];
  _ ← issue_grant "notes" (Host.request Notify);
  revoke_grant "grant-0".

Lemma history_is_final_witness :
  let k := leaves revoking in
  let k' := (start_run (InitApp "notes" "read") "read" k).2 in
  size (b_revoked (k_broker k)) = 1%nat /\
  ∃ g w', broker_check (k_broker k') "notes" Host.read_ref NoData (k_world k') = (Ok (Allowed g), w') /\
    l_records (k_ledger k) `prefix_of` l_records (k_ledger k') /\
    g_grant_id g ∉ b_revoked (k_broker k).
Proof.
  split; [vm_compute; reflexivity|].
  set (k' := (start_run _ _ (leaves revoking)).2).
  destruct (broker_check (k_broker k') "notes" Host.read_ref NoData (k_world k')) as [r w'] eqn:Hc.
  run_call Hc. eexists _, w'. split; [reflexivity|].
  destruct (history_is_final (leaves revoking) k') as (H1 & _ & H3);
    [apply rtc_once, (step_call (start_run _ _)), call_start_run|].
  split; [exact H1|]. eapply H3; [exact Hc|left; reflexivity].
Defined.

Lemma restart_loads_witness :
  let k := leaves finished in
  ∃ d k', store_load (default Host.empty_store (k_state_store k)) = Ok (Some d) /\
    restore_services d Host.fresh_kernel = (Ok tt, k') /\ k_ledger k' = k_ledger k /\
    k_artifacts k' = k_artifacts k.
Proof.
  pose (s := default Host.empty_store (k_state_store (leaves finished))).
  destruct (store_load s) as [[d|]|e|p] eqn:Hl; [|vm_compute in Hl; discriminate Hl..].
  destruct (replay_action_state (l_records (k_ledger (leaves finished)))) as [actions|e|p] eqn:Ha;
    [|vm_compute in Ha; discriminate Ha..].
  edestruct (restart_loads 0 1 Host.start Host.empty_store (leaves finished) s d actions Host.fresh_kernel)
    as (k' & H1 & _ & H3 & _ & H5);
    [apply reaches_leaves, reaches_finished|vm_compute; reflexivity|vm_compute; reflexivity|exact Hl
    |exact Ha|vm_compute; reflexivity|vm_compute; reflexivity|].
  exists d, k'. split_and!; [exact Hl|exact H1|exact H3|exact H5].
Defined.

Lemma run_lifecycle_witness :
  ∃ i g mid tail, events_of "run-1" (l_records (k_ledger (leaves finished)))
    = RunStarted "run-1" i g :: mid ++ tail /\ (∃ t, tail = [RunEnded "run-1" t]).
Proof.
  pose proof (run_lifecycle 0 1 Host.start Host.empty_store (leaves finished) "run-1"
    (reaches_leaves _ reaches_finished)) as Hr.
  destruct (l_runs (k_ledger (leaves finished)) !! "run-1") as [state|] eqn:Hs;
    [|vm_compute in Hs; discriminate Hs].
  assert (ri_active state = false) as Ha by (vm_compute in Hs; by injection Hs as <-).
  destruct Hr as (i & g & mid & tail & H1 & _ & _ & H4). rewrite Ha in H4.
  exists i, g, mid, tail. split; [exact H1|exact H4].
Defined.

Lemma run_view_agrees_witness :
  ∃ v, run_view (k_ledger (leaves finished)) "run-1" = Ok v /\ RunView_is_active v = false.
Proof.
  pose proof (run_view_agrees 0 1 Host.start Host.empty_store (leaves finished) "run-1"
    (reaches_leaves _ reaches_finished)) as Hr.
  destruct (l_runs (k_ledger (leaves finished)) !! "run-1") as [state|] eqn:Hs;
    [|vm_compute in Hs; discriminate Hs].
  assert (ri_active state = false) as Ha by (vm_compute in Hs; by injection Hs as <-).
  destruct Hr as (v & H1 & _ & H3). exists v. rewrite H3. split; [exact H1|exact Ha].
Defined.

(** ** The action path *)

Definition prepared : PreparedInvocation := run_and_prepared.2.

(** The state in which an approval is still awaited. *)
Definition awaiting : Host.kernel := leaves (preparing RequiresApproval).

Definition approval_given :=
  (PreparedInvocation_await_approval prepared (k_world awaiting)).1.

Lemma awaiting_wf : ledger_wf (k_ledger awaiting).
Proof. apply (from_boot_wf awaiting). apply reaches_leaves, reaches_preparing. Qed.

(** The state before the preparation. *)
Definition started : Host.kernel :=
  leaves (_ ← Host.install [Host.request RequiresApproval];
          start_run (InitApp "notes" "read") "read").

Lemma prepare_invocation_checks_witness :
  ∃ token k' pending declaration run,
    prepare_invocation_with_context "run-1" Host.read_ref Host.no_input (seconds 60) false started
      = (Ok (Prepared token), k') /\
    prepared_for k' token "run-1" Host.read_ref Host.no_input false pending declaration run.
Proof.
  destruct (prepare_invocation_with_context "run-1" Host.read_ref Host.no_input (seconds 60) false started)
    as [r k'] eqn:E. run_call E.
  destruct (prepare_invocation_checks _ _ _ _ _ _ _ _ E) as (pending & declaration & run & Hp).
  eexists _, k', pending, declaration, run. split; [reflexivity|exact Hp].
Defined.

Lemma authorize_invocation_sound_witness :
  ∃ token k' pending k1,
    authorize_invocation approval_given awaiting = (Ok (Authorized token), k') /\
    k_pending_invocations awaiting !! apr_id approval_given = Some pending /\
    approval_recorded approval_given pending awaiting k1 /\
    may_run k1 pending /\ token_for awaiting pending token.
Proof.
  destruct (authorize_invocation approval_given awaiting) as [r k'] eqn:E. run_call E.
  destruct (authorize_invocation_sound _ _ _ _ awaiting_wf E)
    as (pending & k1 & H1 & _ & H3 & H4 & H5 & _).
  eexists _, k', pending, k1. split_and!; [reflexivity|exact H1|exact H3|exact H4|exact H5].
Defined.

Lemma no_execution_without_consent_witness :
  ∃ token k1 prompt,
    prepare_invocation_with_timeout "run-1" Host.read_ref Host.no_input (seconds 60) started
      = (Ok (Prepared token), k1) /\
    ppi_approval token = Some prompt /\ (approve_capability prompt (k_world k1)).1 = Approved /\
    cap_capability prompt = Host.read_ref /\ cap_run_id prompt = "run-1".
Proof.
  pose (k1 := (prepare_invocation_with_timeout "run-1" Host.read_ref Host.no_input (seconds 60) started).2).
  assert (prepare_invocation_with_timeout "run-1" Host.read_ref Host.no_input (seconds 60) started
    = (Ok (Prepared prepared), k1)) as E by (vm_compute; reflexivity).
  destruct (authorize_invocation (PreparedInvocation_await_approval prepared (k_world k1)).1 k1)
    as [r k3] eqn:E3. run_call E3.
  assert (∃ pending, k_pending_invocations k1 !! ppi_id prepared = Some pending /\
    g_condition (pi_grant pending) = RequiresApproval) as Hc.
  { destruct (k_pending_invocations k1 !! ppi_id prepared) as [p|] eqn:Hp;
      [|vm_compute in Hp; discriminate Hp].
    exists p. split; [reflexivity|]. vm_compute in Hp. injection Hp as <-. reflexivity. }
  assert (ledger_wf (k_ledger k1)) as Hwf.
  { apply (from_boot_wf k1). apply reaches_call; [apply call_prepare_invocation|].
    apply reaches_leaves. st_walk. }
  destruct (no_execution_without_consent _ _ _ _ _ _ _ _ _ _ _ E Hc Hwf E3)
    as (prompt & pending & H1 & H2 & _ & _ & H5 & _ & _ & H8).
  exists prepared, k1, prompt. split_and!; [exact E|exact H1|exact H2|exact H5|exact H8].
Defined.

Lemma finalize_invocation_sound_witness :
  ∃ result artifacts k' pending,
    finalize_invocation executed (leaves executing) = (Ok (ResCompleted result artifacts), k') /\
    length artifacts = 1%nat /\ may_run (leaves executing) pending /\
    k_artifacts k' = ArtifactStore_put_all (k_artifacts (leaves executing)) artifacts.
Proof.
  destruct (finalize_invocation executed (leaves executing)) as [r k'] eqn:E. run_call E.
  destruct (finalize_invocation_sound _ _ _ _ _ E)
    as (pending & outcome & _ & _ & H3 & _ & _ & _ & _ & _ & _ & _ & H11 & _).
  eexists _, _, k', pending. split_and!; [reflexivity|reflexivity|exact H3|exact H11].
Defined.

(** The invocation was cancelled while its handler ran. *)
Definition cancelled : Host.kernel := raise_flag (exi_cancelled executed) (leaves executing).

Lemma late_result_never_commits_witness :
  ∃ res k', finalize_invocation executed cancelled = (Ok res, k') /\
    k_artifacts k' = k_artifacts cancelled /\ ∃ reason, res = ResRefused reason.
Proof.
  destruct (finalize_invocation executed cancelled) as [r k'] eqn:E.
  destruct (k_pending_invocations cancelled !! exi_id executed) as [pending|] eqn:Hp;
    [|vm_compute in Hp; discriminate Hp].
  destruct (late_result_never_commits executed pending cancelled r k' Hp) as [H1 H2].
  - intros [_ _ _ _ _ Hf]. vm_compute in Hp. injection Hp as <-. vm_compute in Hf. discriminate Hf.
  - exact E.
  - run_call E. eexists _, k'. split_and!; [reflexivity|exact H1|].
    destruct (H2 _ eq_refl) as (reason & _ & H3 & _). exists reason. exact H3.
Defined.

Lemma finalize_single_use_witness :
  let k' := (finalize_invocation executed (leaves executing)).2 in
  finalize_invocation executed k' = (Err PreparedInvocationConsumed, k').
Proof.
  destruct (finalize_invocation executed (leaves executing)) as [r k'] eqn:E.
  apply (finalize_single_use executed executed (leaves executing) r k' E).
  - run_call E. intros msg. discriminate.
  - reflexivity.
Defined.

(** ** Installation, grants and teardown *)

Definition offering : Host.session (PreparedInstall Host.World) :=
  prepare_install (seal (Host.notes "1" [Host.request Notify])) Host.handlers.

Definition offered : PreparedInstall Host.World := ltac:(value_of offering).

Definition accepted : InstallApproval Host.World :=
  (PreparedInstall_await_approval offered Host.start).1.

Lemma install_only_approved_authority_witness :
  ∃ results k', commit_install accepted Host.fresh_kernel = (Ok results, k') /\
    length results = 1%nat /\ grants_approved accepted Host.fresh_kernel k'.
Proof.
  destruct (commit_install accepted Host.fresh_kernel) as [r k'] eqn:E. run_call E.
  destruct (install_only_approved_authority _ _ _ _ E) as [H1 _].
  eexists _, k'. split_and!; [reflexivity|reflexivity|exact H1].
Defined.

Lemma uninstall_removes_authority_witness :
  ∃ k', uninstall "notes" (leaves executing) = (Ok tt, k') /\
    r_apps (k_registry k') = delete "notes" (r_apps (k_registry (leaves executing))) /\
    k_handlers k' !! "notes" = None /\ ∀ rid, ¬ run_of_app (k_ledger k') rid "notes".
Proof.
  destruct (uninstall "notes" (leaves executing)) as [r k'] eqn:E. run_call E.
  destruct (uninstall_removes_authority _ _ _ E) as (H1 & _ & _ & _ & _ & H6 & _ & H8 & _).
  exists k'. split_and!; [reflexivity|exact H1|exact H6|exact H8].
Defined.

(** The panel of the app is open, its grant requires approval. *)
Definition panel_open : Host.session SurfaceBinding :=
  _ ← Host.install [Host.request RequiresApproval];
  open_surface "notes" "panel".

Definition panel_binding : SurfaceBinding := ltac:(value_of panel_open).

Definition read_intent : ActionIntent :=
  {| ai_capability := Host.read_ref; ai_input := []; ai_data_scope := NoData; ai_goal := "read" |}.

Lemma surface_exemption_witness :
  ∃ run_id token k' pending,
    prepare_surface_action panel_binding read_intent (leaves panel_open) = (Ok (run_id, Prepared token), k') /\
    ppi_approval token = None /\ k_pending_invocations k' !! ppi_id token = Some pending /\
    (g_condition (pi_grant pending) = RequiresApproval ->
     sb_app_id panel_binding = cr_provider (ai_capability read_intent)).
Proof.
  destruct (prepare_surface_action panel_binding read_intent (leaves panel_open)) as [r k'] eqn:E.
  run_call E. destruct (surface_exemption _ _ _ _ _ _ E) as (_ & _ & pending & declaration & H1 & _ & H3).
  eexists _, _, k', pending. split_and!; [reflexivity|reflexivity|exact H1|].
  intros Hc. apply (H3 Hc). reflexivity.
Defined.

Lemma end_run_closes_work_witness :
  ∃ k', end_run "run-1" RunCancelled (leaves executing) = (Ok tt, k') /\
    size (k_pending_invocations (leaves executing)) = 1%nat /\ run_ended (k_ledger k') "run-1" /\
    ∀ id p, k_pending_invocations k' !! id = Some p -> pi_run_id p ≠ "run-1".
Proof.
  destruct (end_run "run-1" RunCancelled (leaves executing)) as [r k'] eqn:E. run_call E.
  destruct (end_run_closes_work _ _ _ _ E) as (H1 & H2 & _).
  exists k'. split_and!; [reflexivity|vm_compute; reflexivity|exact H1|].
  intros id p Hp. apply H2 in Hp as [_ Hp]. exact Hp.
Defined.

Lemma upgrade_preserves_authority_witness :
  ∃ k', upgrade_app (seal (Host.notes "2" [Host.request Silent])) Host.handlers (leaves executing)
      = (Ok tt, k') /\
    k_broker k' = k_broker (leaves executing) /\ k_ledger k' = k_ledger (leaves executing).
Proof.
  destruct (upgrade_app _ _ (leaves executing)) as [r k'] eqn:E. run_call E.
  destruct (upgrade_preserves_authority _ _ _ _ E) as (_ & _ & _ & H4).
  exists k'. split_and!; [reflexivity| |].
  - exact (f_equal (fun parts => parts.1.1.1.1.1.1.2) H4).
  - exact (f_equal (fun parts => parts.1.1.1.1.1.1.1) H4).
Defined.

Definition grant_offer : PreparedGrant :=
  ltac:(let r := eval vm_compute in
          (prepare_grant "notes" (Host.request Silent) (leaves executing)) in
        match r with Ok ?p => exact p end).

Definition grant_accepted : GrantApproval := (PreparedGrant_await_approval grant_offer Host.start).1.

Lemma commit_grant_requires_approval_witness :
  ∃ g k', commit_grant grant_accepted (leaves executing) = (Ok (Issued g), k') /\
    ga_decision grant_accepted = Approved /\
    grant_of_request "notes" UserAdded (Host.request Silent) g.
Proof.
  destruct (commit_grant grant_accepted (leaves executing)) as [r k'] eqn:E. run_call E.
  destruct (commit_grant_requires_approval _ _ _ _ E) as (_ & H1 & H2 & _).
  eexists _, k'. split_and!; [reflexivity|exact H1|exact H2].
Defined.

Lemma reconcile_issues_only_approved_witness :
  ∃ rs issued b' w',
    reconcile_manifest_grants PermissionBroker_new "notes" [Host.request Notify] ManifestRequested
      (pin_grant_prompts offered) (ina_grant_decisions accepted) Host.start = (Ok (rs, issued, b'), w') /\
    size (b_grants b') = 1%nat /\
    Forall2 (reconciled "notes" ManifestRequested) [Host.request Notify] rs.
Proof.
  destruct (reconcile_manifest_grants _ _ _ _ _ _ _) as [r w'] eqn:E. run_call E.
  destruct (reconcile_issues_only_approved _ _ _ _ _ _ _ _ _ _ _ E) as (H1 & _).
  eexists _, _, _, w'. split_and!; [reflexivity|reflexivity|exact H1].
Defined.

(** ** Components *)

Lemma issue_with_decision_no_panic_witness :
  ∃ r b' w', issue_with_decision PermissionBroker_new "notes" (Host.request Silent) UserAdded Approved
    Host.start = (Ok (r, b'), w').
Proof.
  apply (issue_with_decision_no_panic PermissionBroker_new "notes" (Host.request Silent) UserAdded Approved).
  - vm_compute. reflexivity.
  - exact I.
  - vm_compute. discriminate.
Defined.

Lemma PermissionBroker_restore_roundtrip_witness :
  let b := k_broker (leaves revoking) in
  PermissionBroker_restore (durable_grants b) (durable_revocations b)
  = Ok {| b_grants := b_grants b; b_revoked := b_revoked b; b_secrets := ∅ |}.
Proof.
  apply (PermissionBroker_restore_roundtrip (k_broker (leaves revoking))).
  apply (from_boot_wf (leaves revoking)). apply reaches_leaves. unfold revoking. st_walk.
Defined.

Lemma RunLedger_restore_roundtrip_witness :
  ∃ w', RunLedger_restore (l_records (k_ledger (leaves finished))) Host.start
    = (Ok (k_ledger (leaves finished)), w').
Proof.
  destruct (from_boot_wf (leaves finished)) as [_ Hl Hp _ _];
    [apply reaches_leaves, reaches_finished|].
  pose (replayed := replay_action_state (l_records (k_ledger (leaves finished)))).
  pose (actions := match replayed with Ok a => a | _ => ∅ end).
  apply (RunLedger_restore_roundtrip (k_ledger (leaves finished)) actions Host.start Hl Hp).
  vm_compute. reflexivity.
Defined.

Lemma recovery_closes_outstanding_witness :
  ∃ events actions, incomplete_invocation_cancellations (k_ledger (leaves executing)) = Ok events /\
    length events = 1%nat /\
    replay_events ∅ ((lr_event <$> l_records (k_ledger (leaves executing))) ++ events) = Ok actions.
Proof.
  pose (r := incomplete_invocation_cancellations (k_ledger (leaves executing))).
  pose (events := match r with Ok es => es | _ => [] end).
  assert (incomplete_invocation_cancellations (k_ledger (leaves executing)) = Ok events) as E
    by (vm_compute; reflexivity).
  destruct (recovery_closes_outstanding _ _ E) as (actions & H1 & _).
  exists events, actions. split_and!; [exact E|vm_compute; reflexivity|exact H1].
Defined.

(** Three artifacts, read one per page. *)
Definition three_notes : ArtifactSnapshotResolver :=
  let note id := {| a_artifact_id := id; a_artifact_type := "note"; a_title := id; a_content := VNull;
    a_provenance := {| pv_run_id := "run-1"; pv_capability := Host.read_ref; pv_grant_id := "grant-0";
                       pv_produced_by := "notes"; pv_recorded_at := 0%Z |} |} in
  {| sn_artifacts := {["a" := note "a"; "b" := note "b"; "c" := note "c"]} |}.

Lemma all_pages_complete_witness :
  length (snapshot_items three_notes) = 3%nat /\
  all_pages 4 three_notes None 1 = Ok (snapshot_items three_notes).
Proof.
  split; [vm_compute; reflexivity|]. apply (all_pages_complete three_notes 1).
  - vm_compute. done.
  - vm_compute. discriminate.
Defined.

Lemma publish_batch_refines_history_witness :
  let view := RunEvent "run-ended" "run-1" "notes" None None None in
  let other := RunEvent "run-started" "run-1" "notes" None None None in
  let k := leaves (Host.install []) in
  mr_inboxes (MessageRouter_publish_batch {| mr_inboxes := {["notes" := inbox_of_history []]} |}
    [other; view] (k_registry k)) !! "notes" = Some (inbox_of_history [view]).
Proof.
  intros view other k.
  apply (publish_batch_refines_history {| mr_inboxes := {["notes" := inbox_of_history []]} |}
    [other; view] (k_registry k) "notes" []).
  - apply (from_boot_wf k). apply reaches_leaves, reaches_install.
  - reflexivity.
Defined.

(** A lease that another run holds. *)
Definition held : LeaseManager :=
  {| lm_leases := {["l1" := {| le_lease_id := "l1"; le_run_id := "run-1"; le_target := LeaseArtifact "a";
                              le_acquired_at := seconds 900; le_expires_at := seconds 2000 |}]} |}.

Lemma LeaseManager_acquire_exclusive_witness :
  ∃ holder s, LeaseManager_acquire "run-2" (LeaseArtifact "a") (seconds 10) (held, Host.start)
      = (Ok (Conflict holder), s) /\ le_run_id holder ≠ "run-2".
Proof.
  destruct (LeaseManager_acquire "run-2" (LeaseArtifact "a") (seconds 10) (held, Host.start))
    as [r [m' w']] eqn:E. run_call E.
  assert (leases_exclusive (env_now (env_now Host.start).2).1 held) as Hx.
  { split.
    - intros id l. unfold held. simpl. intros [<- <-]%lookup_singleton_Some. reflexivity.
    - intros i j li lj. unfold held. simpl.
      intros [<- _]%lookup_singleton_Some [<- _]%lookup_singleton_Some. reflexivity. }
  destruct (LeaseManager_acquire_exclusive _ _ _ _ _ _ _ _ Hx E) as (_ & H1 & _).
  eexists _, (m', w'). split; [reflexivity|exact H1].
Defined.

(** A reporter that emitted at instant 0 and whose consumer is gone. *)
Definition reporter : ProgressReporter Host.World := {|
  pr_report _ w := (false, w); pr_last_emitted := Some 0%Z;
  pr_cancellation := Some {| ch_cancelled := 0%nat; ch_deadline := seconds 60 |} |}.

Definition progress : Value := VObject [("kind", VString "step")].

Lemma ProgressReporter_report_paced_witness :
  let '(status, p, flags, _) :=
    ProgressReporter_report (fun d w => Host.sleep d w) reporter progress [false] Host.start in
  status = ConsumerGone /\
  (∃ now, pr_last_emitted p = Some now /\ MIN_PROGRESS_INTERVAL <= now)%Z /\ flag_load flags 0 = true.
Proof.
  assert (∀ w : Host.World, ((env_instant w).1 <= (env_instant (env_instant w).2).1)%Z) as Hm
    by (intros; simpl; lia).
  assert (∀ d (w : Host.World), (0 <= d)%Z ->
    ((env_instant w).1 + d <= (env_instant (Host.sleep d (env_instant w).2)).1)%Z) as Hs
    by (intros; simpl; lia).
  pose proof (ProgressReporter_report_paced Host.sleep Hm Hs reporter progress [false] Host.start 0%Z
    eq_refl ltac:(vm_compute; discriminate)) as Hp.
  vm_compute in Hp |- *. destruct Hp as [H1 H2]. split; [reflexivity|]. split; [exact H1|].
  apply (H2 eq_refl _ eq_refl). lia.
Defined.
