(* ===== verification/RustText.v ===== *)
(** * Text

    What the host uses of [str]: UTF-8 validity, prefixes and suffixes, trimming,
    splitting, counting and taking characters. A [string] is the sequence of its
    UTF-8 bytes. *)

From S2P Require Import Prelude RustStd.

(** ** Well-formed UTF-8, as [read_to_string] checks it *)
Definition is_continuation (b : N) : bool := ((128 <=? b) && (b <=? 191))%N.

Fixpoint utf8_valid (s : string) : bool :=
  match s with
  | EmptyString => true
  | String c s1 =>
      let b := byte c in
      if (b <? 128)%N then utf8_valid s1
      else match s1 with
      | EmptyString => false
      | String c1 s2 =>
          let b1 := byte c1 in
          if ((194 <=? b) && (b <=? 223))%N then is_continuation b1 && utf8_valid s2
          else match s2 with
          | EmptyString => false
          | String c2 s3 =>
              let b2 := byte c2 in
              if ((224 <=? b) && (b <=? 239))%N
              then is_continuation b1 && is_continuation b2
                   && negb ((b =? 224) && (b1 <? 160))%N
                   && negb ((b =? 237) && (160 <=? b1))%N && utf8_valid s3
              else match s3 with
              | EmptyString => false
              | String c3 s4 =>
                  ((240 <=? b) && (b <=? 244))%N && is_continuation b1 && is_continuation b2
                  && is_continuation (byte c3)
                  && negb ((b =? 240) && (b1 <? 144))%N
                  && negb ((b =? 244) && (144 <=? b1))%N && utf8_valid s4
              end
          end
      end
  end.

(** ** Prefixes, suffixes, quotes *)

(** [str::strip_prefix] and [str::strip_suffix]. *)
Fixpoint strip_prefix (p s : string) : option string :=
  match p, s with
  | EmptyString, _ => Some s
  | String a p', String b s' => if decide (a = b) then strip_prefix p' s' else None
  | String _ _, EmptyString => None
  end.

Definition strip_suffix (suffix s : string) : option string :=
  let n := String.length s - String.length suffix in
  if decide (String.length suffix <= String.length s /\
             String.substring n (String.length suffix) s = suffix)
  then Some (String.substring 0 n s) else None.

(** Every byte satisfies [p]. *)
Fixpoint string_all (p : N -> bool) (s : string) : bool :=
  match s with EmptyString => true | String c s' => p (byte c) && string_all p s' end.

Definition quote : string := String (Ascii.ascii_of_N 34) EmptyString.

(** A string as JSON text, for values that need no escaping. *)
Definition quoted (s : string) : string := quote +:+ s +:+ quote.

(** ** Trimming *)

(** [str::trim_start]: drop leading characters with the [White_Space] property. *)
Fixpoint trim_start (s : string) : string :=
  match s with
  | EmptyString => EmptyString
  | String c s1 =>
      let b := byte c in
      if ((9 <=? b) && (b <=? 13) || (b =? 32))%N then trim_start s1
      else match s1 with
      | EmptyString => s
      | String c1 s2 =>
          let b1 := byte c1 in
          if ((b =? 194) && ((b1 =? 133) || (b1 =? 160)))%N then trim_start s2
          else match s2 with
          | EmptyString => s
          | String c2 s3 =>
              let b2 := byte c2 in
              if ((b =? 225) && (b1 =? 154) && (b2 =? 128)
                 || (b =? 226) && (b1 =? 128)
                    && ((128 <=? b2) && (b2 <=? 138) || (b2 =? 168) || (b2 =? 169) || (b2 =? 175))
                 || (b =? 226) && (b1 =? 129) && (b2 =? 159)
                 || (b =? 227) && (b1 =? 128) && (b2 =? 128))%N
              then trim_start s3 else s
          end
      end
  end.

(** [str::trim_end]: cut where only whitespace follows. *)
Fixpoint trim_end (s : string) : string :=
  match s with
  | EmptyString => EmptyString
  | String c s' => if is_blank s then EmptyString else String c (trim_end s')
  end.

(** [str::trim]. *)
Definition trim (s : string) : string := trim_end (trim_start s).

(** ** Splitting *)

(** [str::split_once] on a byte below 128. *)
Fixpoint split_once (sep : Ascii.ascii) (s : string) : option (string * string) :=
  match s with
  | EmptyString => None
  | String c s' =>
      if decide (c = sep) then Some (EmptyString, s')
      else '(a, b) ← split_once sep s'; Some (String c a, b)
  end.

(** [str::split] on a byte below 128. *)
Fixpoint split (sep : Ascii.ascii) (s : string) : list string :=
  match s with
  | EmptyString => [EmptyString]
  | String c s' =>
      if decide (c = sep) then EmptyString :: split sep s'
      else match split sep s' with
      | part :: parts => String c part :: parts
      | [] => [String c EmptyString]
      end
  end.

(** ** Characters *)

(** [s.chars().count()]: the bytes that start a character. *)
Fixpoint chars_count (s : string) : nat :=
  match s with
  | EmptyString => 0
  | String c s' => (if is_continuation (byte c) then 0 else 1) + chars_count s'
  end.

(** [s.chars().take(n).collect::<String>()]. *)
Fixpoint take_chars (n : nat) (s : string) : string :=
  match s with
  | EmptyString => EmptyString
  | String c s' =>
      if is_continuation (byte c) then String c (take_chars n s')
      else match n with
      | O => EmptyString
      | S n' => String c (take_chars n' s')
      end
  end.

(** ** Lemmas *)

Lemma string_length_app (s1 s2 : string) :
  String.length (s1 +:+ s2) = String.length s1 + String.length s2.
Proof. induction s1 as [|c s1 IH]; [done|]. simpl. by rewrite <- IH. Qed.

Lemma string_app_assoc (s1 s2 s3 : string) : (s1 +:+ s2) +:+ s3 = s1 +:+ (s2 +:+ s3).
Proof. induction s1 as [|c s1 IH]; [done|]. simpl. exact (f_equal (String c) IH). Qed.

Lemma string_app_nil_r (s : string) : s +:+ EmptyString = s.
Proof. induction s as [|c s IH]; [done|]. exact (f_equal (String c) IH). Qed.

Lemma strip_prefix_app p s : strip_prefix p (p +:+ s) = Some s.
Proof.
  induction p as [|c p IH]; [by destruct s|]. simpl.
  rewrite decide_True by done. exact IH.
Qed.

Lemma strip_prefix_length p s r :
  strip_prefix p s = Some r -> String.length s = String.length p + String.length r.
Proof.
  revert s. induction p as [|a p IH]; intros s; [by destruct s; intros [= <-]|].
  destruct s as [|b s]; [done|]. simpl. case_decide; [|done]. intros Hr. f_equal. by apply IH.
Qed.

Lemma substring_0_length s : String.substring 0 (String.length s) s = s.
Proof. induction s as [|c s IH]; [done|]. simpl. by rewrite IH. Qed.

Lemma substring_prefix s t : String.substring 0 (String.length s) (s +:+ t) = s.
Proof.
  induction s as [|c s IH]; [by destruct t|].
  exact (f_equal (String c) IH).
Qed.

Lemma substring_suffix s t : String.substring (String.length s) (String.length t) (s +:+ t) = t.
Proof. induction s as [|c s IH]; [apply substring_0_length|]. exact IH. Qed.

Lemma strip_suffix_app s suffix : strip_suffix suffix (s +:+ suffix) = Some s.
Proof.
  unfold strip_suffix. rewrite string_length_app, Nat.add_sub.
  rewrite decide_True; [by rewrite substring_prefix|].
  split; [lia | apply substring_suffix].
Qed.

Abbreviation chars := String.list_ascii_of_string.

Lemma length_chars s : length (chars s) = String.length s.
Proof. induction s as [|c s IH]; simpl; [done|]. by rewrite IH. Qed.

Lemma chars_app s t : chars (s +:+ t) = chars s ++ chars t.
Proof. induction s as [|c s IH]; [done|]. exact (f_equal (cons c) IH). Qed.

Lemma chars_substring n s : chars (String.substring 0 n s) = take n (chars s).
Proof.
  revert n. induction s as [|c s IH]; intros [|n]; [done..|]. simpl. by rewrite IH.
Qed.

Lemma take_chars_count n s : chars_count (take_chars n s) <= n.
Proof.
  revert n. induction s as [|c s IH]; intros n; simpl; [lia|].
  destruct (is_continuation (byte c)) eqn:E; simpl; [rewrite E; simpl; apply IH|].
  destruct n as [|n]; simpl; [lia|]. rewrite E. simpl. specialize (IH n). lia.
Qed.

(** Joining what was split at the first separator. *)
Lemma split_once_join sep s a b :
  split_once sep s = Some (a, b) -> s = a +:+ String sep b.
Proof.
  revert a. induction s as [|c s IH]; intros a; simpl; [done|]. case_decide.
  - intros [= <- <-]. by subst.
  - destruct (split_once sep s) as [[a' b']|] eqn:E; [|done]. simpl. intros [= <- <-].
    rewrite (IH a' eq_refl) at 1. reflexivity.
Qed.

(** ** Stable sorting *)

Section sort_by.
Context {A : Type} (leb : A -> A -> bool).

Fixpoint insert_by (x : A) (l : list A) : list A :=
  match l with
  | [] => [x]
  | y :: l' => if leb x y then x :: l else y :: insert_by x l'
  end.

(** [slice::sort_by], stable: [leb x y] when the comparison is not [Greater]. *)
Fixpoint sort_by (l : list A) : list A :=
  match l with [] => [] | x :: l' => insert_by x (sort_by l') end.

Lemma insert_by_perm x l : insert_by x l ≡ₚ x :: l.
Proof.
  induction l as [|y l IH]; simpl; [done|]. destruct (leb x y); [done|]. rewrite IH. apply Permutation_swap.
Qed.

Lemma sort_by_perm l : sort_by l ≡ₚ l.
Proof. induction l as [|x l IH]; simpl; [done|]. by rewrite insert_by_perm, IH. Qed.

Lemma sort_by_length l : length (sort_by l) = length l.
Proof. by rewrite sort_by_perm. Qed.

Lemma elem_of_sort_by x l : x ∈ sort_by l <-> x ∈ l.
Proof. by rewrite sort_by_perm. Qed.
End sort_by.
