(* ===== verification/AtomicJson.v ===== *)
(** * Atomic replacement of a JSON document

    [host/src-tauri/src/atomic_json.rs]: a document is written to a temporary
    file, synced, renamed over the old file, and the rename is made durable by
    syncing the directory. Every persistent store of the host goes through it.

    [std::fs] is modelled by [FileSystem]: the directory that holds the document,
    with the directory states a power loss may bring back, and the failures the
    device will report. A call either takes effect or consumes a failure; a crash in
    the middle of a routine is the schedule in which every later call fails. *)

From S2P Require Import Prelude RustStd RustText.

(** ** The file system *)

Inductive ErrorKind := NotFound | AlreadyExists | OtherKind.

Record IoError := { io_kind : ErrorKind; io_message : string }.

(** A file: its bytes, and whether [sync_all] has made them durable. *)
Record File := { f_bytes : string; f_synced : bool }.

Abbreviation Directory := (gmap string File).

(** A failure the device reports: the error and, for a write, how many bytes
    reached the file before it. *)
Record Fault := { ft_error : IoError; ft_written : nat }.

(** The parent directory of a document. [fs_pending] holds the directory states
    since the last directory sync, any of which may survive a power loss. *)
Record FileSystem := {
  fs_exists : bool;
  fs_dir : Directory;
  fs_pending : list Directory;
  fs_faults : list (option Fault);
  fs_uuids : nat;
}.

Definition with_dir (d : Directory) (fs : FileSystem) : FileSystem :=
  {| fs_exists := fs_exists fs; fs_dir := d; fs_pending := fs_dir fs :: fs_pending fs;
     fs_faults := fs_faults fs; fs_uuids := fs_uuids fs |}.

(** A call that either reports the next failure of the schedule, running [partial]
    for what it did before failing, or behaves as [m]. *)
Definition io {A} (partial : Fault -> FileSystem -> FileSystem) (m : st FileSystem IoError A) :
    st FileSystem IoError A := fun fs =>
  let rest := {| fs_exists := fs_exists fs; fs_dir := fs_dir fs; fs_pending := fs_pending fs;
                 fs_faults := tail (fs_faults fs); fs_uuids := fs_uuids fs |} in
  match head (fs_faults fs) with
  | Some (Some fault) => (Err (ft_error fault), partial fault rest)
  | _ => m rest
  end.

Definition io_all {A} (m : st FileSystem IoError A) : st FileSystem IoError A :=
  io (fun _ fs => fs) m.

Definition not_found : IoError := {| io_kind := NotFound; io_message := "not found" |}.
Definition already_exists : IoError :=
  {| io_kind := AlreadyExists; io_message := "already exists" |}.

(** [fs::create_dir_all(parent)]. *)
Definition create_dir_all : st FileSystem IoError unit :=
  io_all (st_modify (fun fs =>
    {| fs_exists := true; fs_dir := fs_dir fs; fs_pending := fs_pending fs;
       fs_faults := fs_faults fs; fs_uuids := fs_uuids fs |})).

(** [OpenOptions::new().write(true).create_new(true).open(path)]. *)
Definition open_create_new (name : string) : st FileSystem IoError unit :=
  io_all (fun fs =>
    if negb (fs_exists fs) then (Err not_found, fs)
    else match fs_dir fs !! name with
    | Some _ => (Err already_exists, fs)
    | None => (Ok tt, with_dir (<[name := {| f_bytes := ""; f_synced := false |}]> (fs_dir fs)) fs)
    end).

(** [file.write_all(bytes)] on the new file: a failure leaves a prefix. *)
Definition write_all (name bytes : string) : st FileSystem IoError unit :=
  let put text fs := with_dir (<[name := {| f_bytes := text; f_synced := false |}]> (fs_dir fs)) fs in
  io (fun fault fs => put (String.substring 0 (ft_written fault) bytes) fs)
     (st_modify (put bytes)).

(** [file.sync_all()]. *)
Definition sync_all (name : string) : st FileSystem IoError unit :=
  io_all (st_modify (fun fs =>
    with_dir (alter (fun f => {| f_bytes := f_bytes f; f_synced := true |}) name (fs_dir fs)) fs)).

(** [fs::rename(from, to)] inside the directory. *)
Definition fs_rename (from to : string) : st FileSystem IoError unit :=
  io_all (fun fs =>
    match fs_dir fs !! from with
    | None => (Err not_found, fs)
    | Some f => (Ok tt, with_dir (<[to := f]> (delete from (fs_dir fs))) fs)
    end).

(** [fs::remove_file(path)]. *)
Definition fs_remove_file (name : string) : st FileSystem IoError unit :=
  io_all (fun fs =>
    match fs_dir fs !! name with
    | None => (Err not_found, fs)
    | Some _ => (Ok tt, with_dir (delete name (fs_dir fs)) fs)
    end).

(** [File::open(parent)] and [directory.sync_all()]: entries become durable. *)
Definition sync_dir : st FileSystem IoError unit :=
  io_all (st_modify (fun fs =>
    {| fs_exists := fs_exists fs; fs_dir := fs_dir fs; fs_pending := [];
       fs_faults := fs_faults fs; fs_uuids := fs_uuids fs |})).

(** [File::open(path)] for reading: the file found. *)
Definition open_read (name : string) : st FileSystem IoError File :=
  io_all (fun fs => (ok_or (fs_dir fs !! name) not_found, fs)).

(** A call that changes nothing the model keeps ([set_permissions], an entry of
    [read_dir], the bytes of an open file). *)
Definition io_step : st FileSystem IoError unit := io_all (mret tt).

(** [result.map_err(f)] on a stateful call. *)
Definition st_map_err {S E F A} (f : E -> F) (m : st S E A) : st S F A := fun s =>
  let '(r, s') := m s in (map_err f r, s').

(** A library call that returns [Result] and cannot panic. *)
Definition from_result {E A} (r : E + A) : outcome E A :=
  match r with inl e => Err e | inr a => Ok a end.

(** ** Paths and temporary names *)

Record Path := { p_parent : string; p_file_name : string }.

(** [path.display()]. *)
Definition display (path : Path) : string := p_parent path +:+ "/" +:+ p_file_name path.

(** [path.with_file_name(name)]. *)
Definition with_file_name (path : Path) (name : string) : Path :=
  {| p_parent := p_parent path; p_file_name := name |}.

(** [Uuid::new_v4] (the successive values drawn) and [Uuid::parse_str(..).is_ok()]. *)
Class Uuids := {
  new_v4 : nat -> string;
  parse_str_ok : string -> bool;
}.

(** A UUID's text form parses. *)
Class UuidsLaws `{Uuids} : Prop := { parse_new_v4 : ∀ n, parse_str_ok (new_v4 n) = true }.

Inductive AtomicJsonError :=
  | NotCommittedJson (message : string)
  | IndeterminateJson (message : string).

Definition is_indeterminate (e : AtomicJsonError) : bool :=
  match e with IndeterminateJson _ => true | NotCommittedJson _ => false end.

Definition into_message (e : AtomicJsonError) : string :=
  match e with
  | NotCommittedJson message => message
  | IndeterminateJson message =>
      message +:+ "; candidate was committed but directory durability is indeterminate; retry or restart Kestral before making further changes"
  end.

(** ** The trait [AtomicFileWriter] and its standard implementation *)

Record AtomicFileWriter := {
  write_and_sync : string -> string -> st FileSystem IoError unit;
  rename : string -> string -> st FileSystem IoError unit;
  remove_file : string -> st FileSystem IoError unit;
  sync_parent_dir : string -> st FileSystem IoError unit;
}.

Definition StandardAtomicFileWriter : AtomicFileWriter := {|
  write_and_sync path bytes :=
    _ ← open_create_new path;
    _ ← write_all path bytes;
    sync_all path;
  rename := fs_rename;
  remove_file := fs_remove_file;
  sync_parent_dir _ := sync_dir;
|}.

Section document.
Context `{Uuids}.

(** [Uuid::new_v4()]. *)
Definition draw_uuid {E} : st FileSystem E string := fun fs =>
  (Ok (new_v4 (fs_uuids fs)),
   {| fs_exists := fs_exists fs; fs_dir := fs_dir fs; fs_pending := fs_pending fs;
      fs_faults := fs_faults fs; fs_uuids := S (fs_uuids fs) |}).

Definition temporary_prefix (path : Path) : string := "." +:+ p_file_name path +:+ ".".

Definition temporary_path {E} (path : Path) : st FileSystem E Path :=
  uuid ← draw_uuid;
  mret (with_file_name path (temporary_prefix path +:+ uuid +:+ ".tmp")).

(** The uuid part of a directory entry named like a temporary file of [path]. *)
Definition is_stale_temporary (path : Path) (name : string) : bool :=
  match strip_prefix (temporary_prefix path) name ≫= strip_suffix ".tmp" with
  | Some uuid => parse_str_ok uuid
  | None => false
  end.

(** Run the cleanup and fold its failure into the message. *)
Definition format_failure_with_cleanup (failure : string) (writer : AtomicFileWriter)
    (temp_path : Path) : st FileSystem AtomicJsonError string := fun fs =>
  match remove_file writer (p_file_name temp_path) fs with
  | (Ok _, fs') => (Ok failure, fs')
  | (Err error, fs') =>
      (match io_kind error with
       | NotFound => Ok failure
       | _ => Ok (failure +:+ "; discard temporary file '" +:+ display temp_path
                  +:+ "' failed; preserved it for recovery: " +:+ io_message error)
       end, fs')
  | (Panic msg, fs') => (Panic msg, fs')
  end.

(** [if let Err(error) = call { return Err(NotCommitted(.. cleanup ..)) }]. *)
Definition or_clean_up (call : st FileSystem IoError unit) (what : string)
    (writer : AtomicFileWriter) (temp_path : Path) : st FileSystem AtomicJsonError unit := fun fs =>
  match call fs with
  | (Ok _, fs') => (Ok tt, fs')
  | (Err error, fs') =>
      (message ← format_failure_with_cleanup (what +:+ io_message error) writer temp_path;
       st_fail (NotCommittedJson message)) fs'
  | (Panic msg, fs') => (Panic msg, fs')
  end.

Section persist.
Context {T : Type} (to_vec_pretty : T -> string + string).

Definition persist_json_document (path : Path) (document : T) (label : string)
    (writer : AtomicFileWriter) : st FileSystem AtomicJsonError unit :=
  _ ← st_map_err (fun e => NotCommittedJson ("create " +:+ label +:+ " directory failed: " +:+ io_message e))
        create_dir_all;
  bytes ← st_lift (map_err (fun e => NotCommittedJson ("serialize " +:+ label +:+ " failed: " +:+ e))
                    (from_result (to_vec_pretty document)));
  temp_path ← temporary_path path;
  _ ← or_clean_up (write_and_sync writer (p_file_name temp_path) bytes)
        ("write " +:+ label +:+ " failed: ") writer temp_path;
  _ ← or_clean_up (rename writer (p_file_name temp_path) (p_file_name path))
        ("replace " +:+ label +:+ " failed: ") writer temp_path;
  st_map_err (fun e => IndeterminateJson ("sync " +:+ label +:+ " directory failed: " +:+ io_message e))
    (sync_parent_dir writer (p_file_name path)).
End persist.

(** One directory entry of the clean-up loop. *)
Definition discard_entry (path : Path) (label name : string) : st FileSystem string unit :=
  _ ← st_map_err (fun e => "inspect stale " +:+ label +:+ " temporary files failed: " +:+ io_message e)
        io_step;
  if is_stale_temporary path name
  then st_map_err (fun e => "discard stale " +:+ label +:+ " temporary file '"
         +:+ display (with_file_name path name)
         +:+ "' failed; preserved it for recovery: " +:+ io_message e) (fs_remove_file name)
  else mret tt.

Fixpoint discard_entries (path : Path) (label : string) (names : list string) :
    st FileSystem string unit :=
  match names with
  | [] => mret tt
  | name :: names' => _ ← discard_entry path label name; discard_entries path label names'
  end.

Definition discard_stale_temporary_files (path : Path) (label : string) :
    st FileSystem string unit :=
  directory_exists ← st_get fs_exists;
  if negb directory_exists then mret tt
  else
    _ ← st_map_err (fun e => "inspect stale " +:+ label +:+ " temporary files failed: " +:+ io_message e)
          io_step;
    names ← st_get (fun fs => btree_keys (fs_dir fs));
    discard_entries path label names.

Definition restrict_existing_file (label : string) : st FileSystem string unit :=
  st_map_err (fun e => "restrict " +:+ label +:+ " permissions failed: " +:+ io_message e) io_step.

Section load.
Context {T : Type} (from_str : string -> string + T).

Definition invalid_utf8 : string := "stream did not contain valid UTF-8".

Definition parse_document (file : File) (path : Path) (label : string) : st FileSystem string T :=
  _ ← st_map_err (fun e => "read " +:+ label +:+ " failed: " +:+ io_message e) io_step;
  raw ← st_lift (if utf8_valid (f_bytes file) then Ok (f_bytes file)
                 else Err ("read " +:+ label +:+ " failed: " +:+ invalid_utf8));
  st_lift (map_err (fun e => "parse " +:+ label +:+ " failed; preserved '" +:+ display path
                             +:+ "': " +:+ e) (from_result (from_str raw))).

(** [match fs::File::open(path)] and what follows it. *)
Definition open_document (path : Path) (label : string) : st FileSystem string (option T) := fun fs =>
  match open_read (p_file_name path) fs with
  | (Ok file, fs') =>
      (_ ← restrict_existing_file label;
       document ← parse_document file path label;
       mret (Some document)) fs'
  | (Err error, fs') =>
      (match io_kind error with
       | NotFound => Ok None
       | _ => Err ("open " +:+ label +:+ " failed: " +:+ io_message error)
       end, fs')
  | (Panic msg, fs') => (Panic msg, fs')
  end.

Definition load_json_document (path : Path) (label : string) : st FileSystem string (option T) :=
  _ ← discard_stale_temporary_files path label;
  open_document path label.
End load.

End document.

(** ** Power loss

    Each name independently shows one of the entries it has had since the last
    directory sync; unsynced bytes may be anything, or the file may be missing. *)

Definition file_survives (before after : option File) : Prop :=
  match before, after with
  | None, None => True
  | Some f, Some f' => f_synced f = true -> f' = f
  | Some f, None => f_synced f = false
  | None, Some _ => False
  end.

Definition crash (fs fs' : FileSystem) : Prop :=
  fs_exists fs' = fs_exists fs /\
  fs_pending fs' = [] /\
  ∀ name, ∃ d, d ∈ fs_dir fs :: fs_pending fs /\ file_survives (d !! name) (fs_dir fs' !! name).

(** What a reader of [name] finds. *)
Definition contents (fs : FileSystem) (name : string) : option string :=
  f_bytes <$> fs_dir fs !! name.

(** The entry of [name] is durable: every directory state that a power loss may
    bring back holds the same synced file. *)
Definition settled (fs : FileSystem) (name : string) : Prop :=
  (∀ f, fs_dir fs !! name = Some f -> f_synced f = true) /\
  ∀ d, d ∈ fs_pending fs -> d !! name = fs_dir fs !! name.

(** ** Atomic replacement: what a reader finds, with and without a power loss

    The document survives every schedule of failures: a routine that reports
    [NotCommitted] left the old document, one that succeeds made the new one
    durable, and in between a power loss shows one of the two, complete. *)

(** ** Entries through the primitive calls *)

(** [name] now holds [e], and every directory state not yet superseded by a sync
    shows something allowed by [Q]. *)
Definition holds_entry (name : string) (e : option File) (Q : option File -> Prop)
    (fs : FileSystem) : Prop :=
  fs_dir fs !! name = e /\ ∀ d, d ∈ fs_pending fs -> Q (d !! name).

Lemma settled_holds fs name :
  settled fs name <->
  (∀ f, fs_dir fs !! name = Some f -> f_synced f = true) /\
  holds_entry name (fs_dir fs !! name) (fun e => e = fs_dir fs !! name) fs.
Proof. unfold settled, holds_entry. naive_solver. Qed.

Section entries.
Context (name : string) (e : option File) (Q : option File -> Prop) (HQ : Q e).
Abbreviation keeps := (preserves (holds_entry name e Q)).

Lemma with_dir_holds d fs :
  d !! name = e -> holds_entry name e Q fs -> holds_entry name e Q (with_dir d fs).
Proof.
  intros Hd [He Hp]. split; [done|]. intros d' [->|Hin]%elem_of_cons; [by rewrite He | auto].
Qed.

Lemma io_keeps {A} partial (m : st FileSystem IoError A) :
  (∀ fault fs, holds_entry name e Q fs -> holds_entry name e Q (partial fault fs)) ->
  keeps m -> keeps (io partial m).
Proof.
  intros Hpart Hm fs Hfs. unfold io.
  destruct (head (fs_faults fs)) as [[fault|]|]; [by apply Hpart | by apply Hm | by apply Hm].
Qed.

Lemma io_all_keeps {A} (m : st FileSystem IoError A) : keeps m -> keeps (io_all m).
Proof. by apply io_keeps. Qed.

Lemma map_err_keeps {E F A} (f : E -> F) (m : st FileSystem E A) :
  keeps m -> keeps (st_map_err f m).
Proof.
  intros Hm fs Hfs. specialize (Hm fs Hfs). unfold st_map_err. by destruct (m fs).
Qed.

Lemma create_dir_all_keeps : keeps create_dir_all.
Proof. apply io_all_keeps. intros fs Hfs. exact Hfs. Qed.

Lemma io_step_keeps : keeps io_step.
Proof. apply io_all_keeps. intros fs Hfs. exact Hfs. Qed.

Lemma open_read_keeps name' : keeps (open_read name').
Proof. apply io_all_keeps. intros fs Hfs. exact Hfs. Qed.

Lemma sync_dir_keeps : keeps sync_dir.
Proof. apply io_all_keeps. intros fs [He _]. split; [done|]. intros d Hd. inversion Hd. Qed.

Lemma open_create_new_keeps name' : name' <> name -> keeps (open_create_new name').
Proof.
  intros Hne. apply io_all_keeps. intros fs Hfs. destruct (fs_exists fs); [|done]. simpl.
  destruct (fs_dir fs !! name'); [done|]. apply with_dir_holds; [|done].
  by rewrite lookup_insert_ne by done; destruct Hfs.
Qed.

Lemma write_all_keeps name' bytes : name' <> name -> keeps (write_all name' bytes).
Proof.
  intros Hne. apply io_keeps.
  - intros fault fs Hfs. apply with_dir_holds; [|done].
    by rewrite lookup_insert_ne by done; destruct Hfs.
  - intros fs Hfs. apply with_dir_holds; [|done].
    by rewrite lookup_insert_ne by done; destruct Hfs.
Qed.

Lemma sync_all_keeps name' : name' <> name -> keeps (sync_all name').
Proof.
  intros Hne. apply io_all_keeps. intros fs Hfs. apply with_dir_holds; [|done].
  by rewrite lookup_alter_ne by done; destruct Hfs.
Qed.

Lemma fs_rename_keeps from to : from <> name -> to <> name -> keeps (fs_rename from to).
Proof.
  intros Hf Ht. apply io_all_keeps. intros fs Hfs.
  destruct (fs_dir fs !! from); [|done]. apply with_dir_holds; [|done].
  by rewrite lookup_insert_ne, lookup_delete_ne by done; destruct Hfs.
Qed.

Lemma fs_remove_file_keeps name' : name' <> name -> keeps (fs_remove_file name').
Proof.
  intros Hne. apply io_all_keeps. intros fs Hfs.
  destruct (fs_dir fs !! name'); [|done]. apply with_dir_holds; [|done].
  by rewrite lookup_delete_ne by done; destruct Hfs.
Qed.

Lemma draw_uuid_keeps `{Uuids} {E} : keeps (draw_uuid (E := E)).
Proof. intros fs Hfs. exact Hfs. Qed.

End entries.

#[export] Hint Resolve create_dir_all_keeps io_step_keeps open_read_keeps sync_dir_keeps
  open_create_new_keeps write_all_keeps sync_all_keeps fs_rename_keeps fs_remove_file_keeps
  draw_uuid_keeps map_err_keeps : kestral.

Lemma st_bind_run {S E A B} (m : st S E A) (k : A -> st S E B) s :
  (m ≫= k) s = match m s with
               | (Ok a, s') => k a s'
               | (Err e, s') => (Err e, s')
               | (Panic msg, s') => (Panic msg, s')
               end.
Proof. done. Qed.

(** ** Temporary names never clash with the document *)

Section names.
Context `{Uuids}.

Lemma temporary_name_ne path uuid suffix :
  temporary_prefix path +:+ uuid +:+ suffix <> p_file_name path.
Proof.
  intros E. apply (f_equal String.length) in E. unfold temporary_prefix in E.
  rewrite !string_length_app in E. simpl in E. lia.
Qed.

Lemma stale_temporary_ne path name :
  is_stale_temporary path name = true -> name <> p_file_name path.
Proof.
  unfold is_stale_temporary. intros Hs ->.
  destruct (strip_prefix _ _) as [r|] eqn:E; [|done].
  apply strip_prefix_length in E. unfold temporary_prefix in E.
  rewrite !string_length_app in E. simpl in E. lia.
Qed.

(** A temporary file left behind is recognised by the next clean-up. *)
Lemma temporary_name_stale `{!UuidsLaws} path n :
  is_stale_temporary path (temporary_prefix path +:+ new_v4 n +:+ ".tmp") = true.
Proof.
  unfold is_stale_temporary. rewrite strip_prefix_app. simpl.
  rewrite strip_suffix_app. apply parse_new_v4.
Qed.
End names.

(** A file name that does not start with a dot is never a temporary name. *)
Definition visible (name : string) : bool :=
  match name with String c _ => negb (byte c =? 46)%N | EmptyString => true end.

Lemma temporary_name_visible `{Uuids} path rest name :
  visible name = true -> temporary_prefix path +:+ rest <> name.
Proof. intros Hv <-. by vm_compute in Hv. Qed.

Lemma stale_temporary_visible `{Uuids} path name : visible name = true -> is_stale_temporary path name = false.
Proof.
  destruct name as [|c name]; [done|]. simpl. intros Hv%negb_true_iff%N.eqb_neq.
  unfold is_stale_temporary, temporary_prefix. simpl. case_decide as E; [|done]. by subst c.
Qed.

(** ** Successful and failed calls of the standard writer *)

Lemma io_all_Ok_inv {A} (m : st FileSystem IoError A) fs a fs' :
  io_all m fs = (Ok a, fs') ->
  ∃ faults, m {| fs_exists := fs_exists fs; fs_dir := fs_dir fs; fs_pending := fs_pending fs;
                 fs_faults := faults; fs_uuids := fs_uuids fs |} = (Ok a, fs').
Proof. unfold io_all, io. destruct (head (fs_faults fs)) as [[fault|]|]; naive_solver. Qed.

(** A written and synced file is durable as written. *)
Lemma write_and_sync_Ok path bytes fs u fs' :
  write_and_sync StandardAtomicFileWriter path bytes fs = (Ok u, fs') ->
  fs_dir fs' !! path = Some {| f_bytes := bytes; f_synced := true |}.
Proof.
  simpl. intros Hok. inv_ok Hok.
  apply io_all_Ok_inv in Hok as (? & [= _ <-]). simpl.
  unfold write_all, io, st_modify in Hok1. rewrite lookup_alter_eq.
  destruct (head (fs_faults s)) as [[fault|]|]; simplify_eq; simpl;
    by rewrite lookup_insert_eq.
Qed.

Lemma fs_rename_Ok from to fs f u fs' :
  fs_dir fs !! from = Some f -> fs_rename from to fs = (Ok u, fs') ->
  fs_dir fs' = <[to := f]> (delete from (fs_dir fs)) /\
  fs_pending fs' = fs_dir fs :: fs_pending fs.
Proof.
  intros Hf (faults & Hok)%io_all_Ok_inv. simpl in Hok. rewrite Hf in Hok. by simplify_eq.
Qed.

(** ** Persisting a document *)

Section persist.
Context `{Uuids} {T : Type} (to_vec_pretty : T -> string + string).
Context (path : Path) (document : T) (label : string).

(** A writer that writes, renames and removes like the standard one; it may treat
    the directory sync in its own way. *)
Definition standard_files (writer : AtomicFileWriter) : Prop :=
  write_and_sync writer = write_and_sync StandardAtomicFileWriter /\
  rename writer = rename StandardAtomicFileWriter /\
  remove_file writer = remove_file StandardAtomicFileWriter.

Lemma clean_up_keeps writer failure temp_path e Q :
  standard_files writer -> Q e -> p_file_name temp_path <> p_file_name path ->
  preserves (holds_entry (p_file_name path) e Q)
    (format_failure_with_cleanup failure writer temp_path).
Proof.
  intros (_ & _ & Hrm) HQ Hne fs Hfs. unfold format_failure_with_cleanup. rewrite Hrm.
  pose proof (fs_remove_file_keeps _ e Q HQ _ Hne fs Hfs) as Hk. simpl.
  by destruct (fs_remove_file _ fs) as [[a|error|msg] fs'].
Qed.

Lemma io_no_panic {A} partial (m : st FileSystem IoError A) fs msg :
  (∀ fs', (m fs').1 <> Panic msg) -> (io partial m fs).1 <> Panic msg.
Proof. intros Hm. unfold io. by destruct (head (fs_faults fs)) as [[fault|]|]. Qed.

Lemma fs_remove_file_no_panic name fs msg : (fs_remove_file name fs).1 <> Panic msg.
Proof. apply io_no_panic. intros fs'. by destruct (fs_dir fs' !! name). Qed.

Lemma fs_rename_no_panic from to fs msg : (fs_rename from to fs).1 <> Panic msg.
Proof. apply io_no_panic. intros fs'. by destruct (fs_dir fs' !! from). Qed.

Lemma write_and_sync_no_panic name bytes fs msg :
  (write_and_sync StandardAtomicFileWriter name bytes fs).1 <> Panic msg.
Proof.
  simpl. unfold mbind, st_bind.
  assert (∀ fs1, (open_create_new name fs1).1 <> Panic msg) as H1.
  { intros fs1. apply io_no_panic. intros fs'. destruct (negb _); [done|].
    by destruct (fs_dir fs' !! name). }
  assert (∀ fs1, (write_all name bytes fs1).1 <> Panic msg) as H2 by (intros; by apply io_no_panic).
  specialize (H1 fs). destruct (open_create_new name fs) as [[a|er|m] fs1]; [|done|done].
  specialize (H2 fs1). destruct (write_all name bytes fs1) as [[a'|er|m] fs2]; [|done|done].
  by apply io_no_panic.
Qed.

(** A guarded call either takes effect, or the clean-up runs and the routine ends
    with [NotCommitted]. *)
Lemma or_clean_up_cases writer call what temp_path e Q fs :
  standard_files writer -> Q e -> p_file_name temp_path <> p_file_name path ->
  (∀ msg, (call fs).1 <> Panic msg) ->
  holds_entry (p_file_name path) e Q fs ->
  (∀ error fs', call fs = (Err error, fs') -> holds_entry (p_file_name path) e Q fs') ->
  (∃ fs', call fs = (Ok tt, fs') /\ or_clean_up call what writer temp_path fs = (Ok tt, fs')) \/
  (∃ m fs', or_clean_up call what writer temp_path fs = (Err (NotCommittedJson m), fs') /\
            holds_entry (p_file_name path) e Q fs').
Proof.
  intros Hw HQ Hne Hnp Hfs Herr. unfold or_clean_up.
  destruct (call fs) as [[[]|error|msg] fs1]; [left; by eexists | right | by destruct (Hnp msg)].
  specialize (Herr _ _ eq_refl).
  pose proof (clean_up_keeps writer (what +:+ io_message error) temp_path e Q Hw HQ Hne fs1 Herr) as Hk.
  destruct Hw as (_ & _ & Hrm).
  unfold mbind, st_bind. unfold format_failure_with_cleanup in *. rewrite Hrm in *.
  destruct (remove_file StandardAtomicFileWriter (p_file_name temp_path) fs1)
    as [[a|er|m] fs2] eqn:E; simpl in *; [by do 2 eexists | |].
  - destruct (io_kind er); by do 2 eexists.
  - exfalso. apply (fs_remove_file_no_panic (p_file_name temp_path) fs1 m). by rewrite E.
Qed.

(** What persisting comes to: an error before the rename that left the document
    alone, or the rename and then the writer's own directory sync. *)
Inductive persist_case (writer : AtomicFileWriter) (e : option File) (Q : option File -> Prop) :
    outcome AtomicJsonError unit * FileSystem -> Prop :=
  | persist_aborted m fs' :
      holds_entry (p_file_name path) e Q fs' ->
      persist_case writer e Q (Err (NotCommittedJson m), fs')
  | persist_renamed bytes fs1 :
      to_vec_pretty document = inr bytes ->
      holds_entry (p_file_name path) (Some {| f_bytes := bytes; f_synced := true |})
        (fun e' => Q e' \/ e' = Some {| f_bytes := bytes; f_synced := true |}) fs1 ->
      persist_case writer e Q
        (st_map_err (fun er => IndeterminateJson ("sync " +:+ label +:+ " directory failed: " +:+ io_message er))
           (sync_parent_dir writer (p_file_name path)) fs1).

(** The first guarded call: writing the temporary file. *)
Lemma write_step writer what temp_path bytes e (Q : option File -> Prop) fs :
  standard_files writer -> Q e -> p_file_name temp_path <> p_file_name path ->
  holds_entry (p_file_name path) e Q fs ->
  (∃ fs', or_clean_up (write_and_sync writer (p_file_name temp_path) bytes) what writer temp_path fs
            = (Ok tt, fs') /\
          holds_entry (p_file_name path) e Q fs' /\
          fs_dir fs' !! p_file_name temp_path = Some {| f_bytes := bytes; f_synced := true |}) \/
  (∃ m fs', or_clean_up (write_and_sync writer (p_file_name temp_path) bytes) what writer temp_path fs
              = (Err (NotCommittedJson m), fs') /\
            holds_entry (p_file_name path) e Q fs').
Proof.
  intros Hw HQ Hne Hfs. pose proof Hw as (Hwrite & _ & _).
  assert (preserves (holds_entry (p_file_name path) e Q)
    (write_and_sync writer (p_file_name temp_path) bytes)) as Hp.
  { rewrite Hwrite. simpl. repeat (apply preserves_bind; [|intros ?]); eauto with kestral. }
  specialize (Hp fs Hfs).
  destruct (or_clean_up_cases writer (write_and_sync writer (p_file_name temp_path) bytes)
    what temp_path e Q fs) as [(fs' & Hcall & ->)|?]; try done; auto.
  - rewrite Hwrite. intros msg. apply write_and_sync_no_panic.
  - intros error fs' Hc. by rewrite Hc in Hp.
  - left. rewrite Hcall in Hp. rewrite Hwrite in Hcall.
    apply write_and_sync_Ok in Hcall. eauto.
Qed.

(** The second: renaming it over the document. *)
Lemma rename_step writer what temp_path f e (Q : option File -> Prop) fs :
  standard_files writer -> Q e -> p_file_name temp_path <> p_file_name path ->
  holds_entry (p_file_name path) e Q fs ->
  fs_dir fs !! p_file_name temp_path = Some f ->
  (∃ fs', or_clean_up (rename writer (p_file_name temp_path) (p_file_name path)) what writer temp_path fs
            = (Ok tt, fs') /\
          holds_entry (p_file_name path) (Some f) (fun e' => Q e' \/ e' = Some f) fs') \/
  (∃ m fs', or_clean_up (rename writer (p_file_name temp_path) (p_file_name path)) what writer temp_path fs
              = (Err (NotCommittedJson m), fs') /\
            holds_entry (p_file_name path) e Q fs').
Proof.
  intros Hw HQ Hne Hfs Htemp. pose proof Hw as (_ & Hren & _).
  destruct (or_clean_up_cases writer (rename writer (p_file_name temp_path) (p_file_name path))
    what temp_path e Q fs) as [(fs' & Hcall & ->)|?]; try done; auto.
  - rewrite Hren. intros msg. apply fs_rename_no_panic.
  - rewrite Hren. intros error fs'. simpl. unfold fs_rename, io_all, io.
    destruct (head (fs_faults fs)) as [[?|]|]; simpl; [by intros [= _ <-]| |]; by rewrite Htemp.
  - left. exists fs'. split; [done|]. rewrite Hren in Hcall.
    destruct (fs_rename_Ok _ _ _ _ _ _ Htemp Hcall) as [Hd Hp]. split.
    + by rewrite Hd, lookup_insert_eq.
    + rewrite Hp. destruct Hfs as [He Hold]. intros d [->|Hin]%elem_of_cons; left; [by rewrite He | auto].
Qed.

Lemma persist_cases writer e (Q : option File -> Prop) fs :
  standard_files writer -> Q e ->
  holds_entry (p_file_name path) e Q fs ->
  persist_case writer e Q (persist_json_document to_vec_pretty path document label writer fs).
Proof.
  intros Hw HQ Hfs.
  pose proof (create_dir_all_keeps _ e Q fs Hfs) as Hk.
  unfold persist_json_document, temporary_path, draw_uuid, mbind, st_bind, st_lift, mret, st_ret.
  unfold st_map_err at 1.
  destruct (create_dir_all fs) as [[u|er|m] fs1] eqn:E1; unfold map_err at 1; [|by constructor|].
  2:{ exfalso. revert E1. unfold create_dir_all, io_all, io.
      destruct (head (fs_faults fs)) as [[?|]|]; done. }
  destruct (to_vec_pretty document) as [er|bytes] eqn:Eb; unfold from_result, map_err at 1;
    [by constructor|].
  set (temp := with_file_name path _).
  set (fs2 := {| fs_uuids := _ |}).
  assert (p_file_name temp <> p_file_name path) as Hne by apply temporary_name_ne.
  destruct (write_step writer ("write " +:+ label +:+ " failed: ") temp bytes e Q fs2 Hw HQ Hne Hk)
    as [(fs3 & -> & Hfs3 & Htemp)|(m & fs3 & -> & Hh)]; [|by constructor].
  destruct (rename_step writer ("replace " +:+ label +:+ " failed: ") temp _ e Q fs3 Hw HQ Hne Hfs3 Htemp)
    as [(fs4 & -> & Hfs4)|(m & fs4 & -> & Hh)]; [|by constructor].
  by eapply persist_renamed.
Qed.
End persist.

(** ** Power loss *)

Lemma crash_holds_entry fs fs' name e Q :
  crash fs fs' -> holds_entry name e Q fs -> (∀ e', Q e' \/ e' = e -> ∀ f, e' = Some f -> f_synced f = true) ->
  fs_dir fs' !! name = e \/ Q (fs_dir fs' !! name).
Proof.
  intros (_ & _ & Hc) [He HQ] Hsync. destruct (Hc name) as (d & Hd & Hs).
  assert (d !! name = e \/ Q (d !! name)) as Hdn.
  { apply elem_of_cons in Hd as [->|Hd]; auto. }
  assert (fs_dir fs' !! name = d !! name) as ->; [|done].
  assert (∀ f, d !! name = Some f -> f_synced f = true) as Hf by (apply Hsync; tauto).
  destruct (d !! name) as [f|], (fs_dir fs' !! name) as [g|]; simpl in Hs; try done.
  - by rewrite Hs by auto.
  - by rewrite (Hf f) in Hs.
Qed.

(** A settled document is what a power loss brings back. *)
Lemma settled_crash fs fs' name :
  settled fs name -> crash fs fs' ->
  fs_dir fs' !! name = fs_dir fs !! name /\ settled fs' name.
Proof.
  intros [Hsync Hh]%settled_holds Hc.
  assert (fs_dir fs' !! name = fs_dir fs !! name) as E.
  { destruct (crash_holds_entry _ _ _ _ _ Hc Hh) as [?|?]; auto.
    intros e' [He|He] f Hf; apply Hsync; congruence. }
  split; [done|]. split; [rewrite E; done|]. destruct Hc as (_ & -> & _). intros d Hd. inversion Hd.
Qed.

Lemma temporary_path_preserves `{Uuids} {E A} (I : FileSystem -> Prop) path (k : Path -> st FileSystem E A) :
  (∀ fs, I fs -> I (draw_uuid (E := E) fs).2) ->
  (∀ uuid, preserves I (k (with_file_name path (temporary_prefix path +:+ uuid +:+ ".tmp")))) ->
  preserves I (temporary_path path ≫= k).
Proof. intros Hd Hk fs Hfs. apply Hk. by apply (Hd fs). Qed.

Lemma or_clean_up_preserves (I : FileSystem -> Prop) call what writer temp_path :
  preserves I call -> preserves I (remove_file writer (p_file_name temp_path)) ->
  preserves I (or_clean_up call what writer temp_path).
Proof.
  intros Hc Hr fs Hfs. specialize (Hc fs Hfs). unfold or_clean_up.
  destruct (call fs) as [[u|error|msg] fs1]; [done| |done]. simpl in Hc. rewrite st_bind_run.
  specialize (Hr fs1 Hc). unfold format_failure_with_cleanup.
  destruct (remove_file writer _ fs1) as [[u|er|msg] fs2]; try done. by destruct (io_kind er).
Qed.

(** Persisting one document leaves the other documents of the directory alone. *)
Lemma persist_keeps_other `{Uuids} {T} (to_vec_pretty : T -> string + string) path document label other :
  visible other = true -> other <> p_file_name path ->
  frames (fun fs => fs_dir fs !! other)
    (persist_json_document to_vec_pretty path document label StandardAtomicFileWriter).
Proof.
  intros Hv Hne fs. set (e := fs_dir fs !! other).
  assert (∀ {A} (m : st FileSystem AtomicJsonError A),
    preserves (holds_entry other e (fun _ => True)) m -> fs_dir (m fs).2 !! other = e) as Hp.
  { intros A m Hm. by destruct (Hm fs) as [? _]. }
  apply Hp. unfold persist_json_document, temporary_path.
  apply preserves_bind; [by apply map_err_keeps, create_dir_all_keeps|]. intros _.
  apply preserves_bind; [apply preserves_lift|]. intros bytes.
  apply temporary_path_preserves; [by intros fs1|]. intros uuid.
  assert (∀ n, p_file_name (with_file_name path (temporary_prefix path +:+ n)) <> other) as Htmp.
  { intros n. simpl. by apply temporary_name_visible. }
  specialize (Htmp (uuid +:+ ".tmp")). set (temp := with_file_name path _) in *.
  assert (preserves (holds_entry other e (fun _ => True)) (fs_remove_file (p_file_name temp))) as Hrm
    by by apply fs_remove_file_keeps.
  apply preserves_bind; [apply or_clean_up_preserves; [|done]|intros _; apply preserves_bind;
    [apply or_clean_up_preserves; [|done]|intros _]].
  - simpl. repeat (apply preserves_bind; [|intros ?]); eauto with kestral.
  - by apply fs_rename_keeps.
  - by apply map_err_keeps, sync_dir_keeps.
Qed.

Section crash_safety.
Context `{Uuids} {T : Type} (to_vec_pretty : T -> string + string).
Context (path : Path) (document : T) (label : string).
Abbreviation name := (p_file_name path).

(** What the caller may conclude from each result of persisting with the standard
    writer. *)
Definition persist_post (fs : FileSystem) (r : outcome AtomicJsonError unit) (fs' : FileSystem) : Prop :=
  match r with
  | Ok _ => ∃ bytes, to_vec_pretty document = inr bytes /\
      settled fs' name /\ contents fs' name = Some bytes
  | Err (NotCommittedJson _) => settled fs' name /\ contents fs' name = contents fs name
  | Err (IndeterminateJson _) => ∃ bytes, to_vec_pretty document = inr bytes /\
      contents fs' name = Some bytes /\
      ∀ fs'', crash fs' fs'' ->
        settled fs'' name /\
        (contents fs'' name = contents fs name \/ contents fs'' name = Some bytes)
  | Panic _ => False
  end.

Lemma renamed_crash e bytes fs fs'' :
  (∀ f, e = Some f -> f_synced f = true) ->
  holds_entry name (Some {| f_bytes := bytes; f_synced := true |})
    (fun e' => e' = e \/ e' = Some {| f_bytes := bytes; f_synced := true |}) fs ->
  crash fs fs'' ->
  settled fs'' name /\ (contents fs'' name = f_bytes <$> e \/ contents fs'' name = Some bytes).
Proof.
  intros He Hh Hc.
  assert (fs_dir fs'' !! name = e \/
          fs_dir fs'' !! name = Some {| f_bytes := bytes; f_synced := true |}) as Hor.
  { destruct (crash_holds_entry _ _ _ _ _ Hc Hh) as [?|?]; auto.
    intros e' [[->| ->]| ->] f Hf; [auto| |]; by simplify_eq. }
  destruct Hc as (_ & Hp & _). unfold settled, contents. rewrite Hp.
  split; [split|].
  - intros f Hf. destruct Hor as [Hor|Hor]; rewrite Hor in Hf; [auto | by simplify_eq].
  - intros d Hd. inversion Hd.
  - destruct Hor as [-> | ->]; auto.
Qed.

Lemma sync_dir_result fs :
  (∃ er fs', sync_dir fs = (Err er, fs') /\ fs_dir fs' = fs_dir fs /\ fs_pending fs' = fs_pending fs) \/
  (∃ fs', sync_dir fs = (Ok tt, fs') /\ fs_dir fs' = fs_dir fs /\ fs_pending fs' = []).
Proof.
  unfold sync_dir, io_all, io. destruct (head (fs_faults fs)) as [[?|]|]; [left|right|right]; eauto.
Qed.

(** Persisting is atomic and says truthfully what happened, whatever fails. *)
Lemma persist_json_document_post fs r fs' :
  settled fs name ->
  persist_json_document to_vec_pretty path document label StandardAtomicFileWriter fs = (r, fs') ->
  persist_post fs r fs'.
Proof.
  intros [Hsync Hh]%settled_holds Hrun.
  pose proof (persist_cases to_vec_pretty path document label StandardAtomicFileWriter _ _ fs
    ltac:(done) eq_refl Hh) as Hcase. rewrite Hrun in Hcase.
  inversion Hcase as [m fs1 [He Hp]|bytes fs1 Hser Hnew Heq]; subst; simpl.
  - unfold settled, contents. rewrite He. auto.
  - unfold st_map_err in Heq. simpl in Heq.
    destruct (sync_dir_result fs1) as [(er & fs2 & Hr & Hd & Hp)|(fs2 & Hr & Hd & Hp)];
      rewrite Hr in Heq; simplify_eq; simpl; exists bytes; (split; [done|]).
    + destruct Hnew as [Hn HQ]. unfold contents. rewrite Hd, Hn. split; [done|].
      intros fs'' Hc. eapply renamed_crash; [exact Hsync| |exact Hc].
      split; [by rewrite Hd|]. by rewrite Hp.
    + destruct Hnew as [Hn _]. unfold settled, contents. rewrite Hd, Hp, Hn.
      repeat split; [by intros f [= <-] | intros d Hd'; inversion Hd'].
Qed.
End crash_safety.

(** ** Loading a document *)

(** The same directory on a device that reports no failure. *)
Definition quiet (fs : FileSystem) : FileSystem :=
  {| fs_exists := fs_exists fs; fs_dir := fs_dir fs; fs_pending := fs_pending fs;
     fs_faults := []; fs_uuids := fs_uuids fs |}.

Section load.
Context `{Uuids} {T : Type} (from_str : string -> string + T).
Context (path : Path) (label : string).
Abbreviation name := (p_file_name path).

(** The result of reading [bytes] under the document's name. *)
Definition load_result (bytes : option string) : outcome string (option T) :=
  match bytes with
  | None => Ok None
  | Some raw =>
      if utf8_valid raw
      then Some <$> map_err (fun e => "parse " +:+ label +:+ " failed; preserved '" +:+ display path
                                      +:+ "': " +:+ e) (from_result (from_str raw))
      else Err ("read " +:+ label +:+ " failed: " +:+ invalid_utf8)
  end.

Lemma io_all_quiet {A} (m : st FileSystem IoError A) fs :
  fs_faults fs = [] -> io_all m fs = m fs.
Proof.
  unfold io_all, io. destruct fs as [ex dir pend faults uuids]; simpl. by intros ->.
Qed.


Lemma open_document_quiet fs :
  fs_faults fs = [] ->
  open_document from_str path label fs = (load_result (contents fs name), fs).
Proof.
  intros Hq. unfold open_document, open_read. rewrite io_all_quiet by done.
  unfold contents. destruct (fs_dir fs !! name) as [f|]; [|done]. simpl.
  unfold parse_document, restrict_existing_file, io_step, mbind, st_bind, st_lift, st_map_err.
  rewrite !io_all_quiet by done. simpl. rewrite io_all_quiet by done. simpl.
  destruct (utf8_valid (f_bytes f)); [|done].
  by destruct (from_str (f_bytes f)).
Qed.

Lemma discard_entry_quiet n fs :
  fs_faults fs = [] -> is_Some (fs_dir fs !! n) ->
  ∃ fs', discard_entry path label n fs = (Ok tt, fs') /\ fs_faults fs' = [] /\
    fs_dir fs' = if is_stale_temporary path n then delete n (fs_dir fs) else fs_dir fs.
Proof.
  intros Hq [f Hf]. unfold discard_entry, io_step, mbind, st_bind, st_map_err.
  rewrite io_all_quiet by done. simpl.
  destruct (is_stale_temporary path n); [|eauto].
  unfold fs_remove_file. rewrite io_all_quiet, Hf by done. simpl. eauto.
Qed.

Lemma discard_entries_quiet names fs :
  fs_faults fs = [] -> NoDup names -> (∀ n, n ∈ names -> is_Some (fs_dir fs !! n)) ->
  ∃ fs', discard_entries path label names fs = (Ok tt, fs') /\ fs_faults fs' = [] /\
    ∀ n, fs_dir fs' !! n =
         if bool_decide (n ∈ names) && is_stale_temporary path n then None else fs_dir fs !! n.
Proof.
  intros Hq Hnd. revert fs Hq. induction Hnd as [|m names Hm _ IH]; intros fs Hq Hin.
  { exists fs. split_and!; [done..|]. intros n. by rewrite bool_decide_eq_false_2 by (intros E; inversion E). }
  destruct (discard_entry_quiet m fs Hq (Hin m ltac:(left))) as (fs1 & Hr1 & Hq1 & Hd1).
  destruct (IH fs1 Hq1) as (fs2 & Hr2 & Hq2 & Hd2).
  { intros n Hn. rewrite Hd1. assert (m <> n) by congruence.
    destruct (is_stale_temporary path m); [rewrite lookup_delete_ne by done|]; apply Hin; by right. }
  exists fs2. split_and!; [simpl; unfold mbind, st_bind; by rewrite Hr1 | done |].
  intros n. rewrite Hd2, Hd1. destruct (decide (n = m)) as [->|Hne].
  - rewrite (bool_decide_eq_false_2 (m ∈ names)) by done.
    rewrite (bool_decide_eq_true_2 (m ∈ m :: names)) by left. simpl.
    destruct (is_stale_temporary path m); [by rewrite lookup_delete_eq | done].
  - assert (bool_decide (n ∈ m :: names) = bool_decide (n ∈ names)) as ->.
    { apply bool_decide_ext. rewrite elem_of_cons. naive_solver. }
    destruct (bool_decide _ && _); [done|].
    destruct (is_stale_temporary path m); [by rewrite lookup_delete_ne by done | done].
Qed.

(** With a working device, loading returns what the document holds, removes the
    temporary files of interrupted writes and touches nothing else. *)
Lemma load_json_document_quiet fs :
  fs_faults fs = [] -> fs_exists fs = true ->
  ∃ fs', load_json_document from_str path label fs = (load_result (contents fs name), fs') /\
    fs_faults fs' = [] /\
    ∀ n, fs_dir fs' !! n = if is_stale_temporary path n then None else fs_dir fs !! n.
Proof.
  intros Hq Hex.
  destruct (discard_entries_quiet (btree_keys (fs_dir fs)) fs Hq) as (fs' & Hr & Hq' & Hd).
  { apply btree_keys_nodup. }
  { intros n. by rewrite elem_of_btree_keys. }
  exists fs'. split_and!; [|done|].
  - unfold load_json_document, discard_stale_temporary_files, io_step.
    rewrite !st_bind_run. unfold st_get. rewrite Hex. simpl.
    rewrite st_bind_run. unfold st_map_err at 1. rewrite io_all_quiet by done. simpl.
    rewrite st_bind_run. simpl. rewrite Hr, open_document_quiet by done.
    unfold contents. rewrite Hd.
    destruct (is_stale_temporary path name) eqn:E; [by apply stale_temporary_ne in E|].
    by rewrite andb_false_r.
  - intros n. rewrite Hd.
    destruct (is_stale_temporary path n); [|by rewrite andb_false_r]. rewrite andb_true_r.
    case_bool_decide as Hn; [done|]. rewrite elem_of_btree_keys in Hn.
    by apply eq_None_not_Some.
Qed.

(** When the directory does not exist yet there is nothing to clean up. *)
Lemma load_json_document_fresh fs :
  fs_faults fs = [] -> fs_exists fs = false ->
  load_json_document from_str path label fs = (load_result (contents fs name), fs).
Proof.
  intros Hq Hex. unfold load_json_document, discard_stale_temporary_files.
  rewrite !st_bind_run. unfold st_get. rewrite Hex. simpl. by apply open_document_quiet.
Qed.

Lemma load_json_document_working fs :
  ∃ fs', load_json_document from_str path label (quiet fs) = (load_result (contents fs name), quiet fs').
Proof.
  destruct (fs_exists fs) eqn:Hex.
  - destruct (load_json_document_quiet (quiet fs)) as ([] & Hr & Hq & _); [done..|]. simpl in Hq.
    subst. rewrite Hr. by eexists {| fs_faults := [] |}.
  - rewrite load_json_document_fresh by done. eauto.
Qed.

(** Whatever fails, loading leaves the document as it is, and a document it returns
    is the one stored. *)
Lemma discard_holds_entry other e (Q : option File -> Prop) :
  Q e -> (∀ n, is_stale_temporary path n = true -> n <> other) ->
  preserves (holds_entry other e Q) (discard_stale_temporary_files path label).
Proof.
  intros HQ Hother.
  assert (∀ names, preserves (holds_entry other e Q) (discard_entries path label names)) as Hd.
  { induction names as [|n names IH]; simpl; [apply preserves_ret|].
    apply preserves_bind; [|by intros]. unfold discard_entry.
    apply preserves_bind; [by apply map_err_keeps, io_step_keeps|]. intros _.
    destruct (is_stale_temporary path n) eqn:Hs; [|apply preserves_ret].
    apply map_err_keeps, fs_remove_file_keeps; auto. }
  unfold discard_stale_temporary_files. apply preserves_bind; [apply preserves_get|]. intros [];
    [|apply preserves_ret]. apply preserves_bind; [by apply map_err_keeps, io_step_keeps|]. intros _.
  apply preserves_bind; [apply preserves_get|]. intros names. apply Hd.
Qed.

Lemma discard_keeps_entry other e :
  (∀ n, is_stale_temporary path n = true -> n <> other) ->
  preserves (fun fs => fs_dir fs !! other = e) (discard_stale_temporary_files path label).
Proof.
  intros Hother fs He.
  by destruct (discard_holds_entry other e (fun _ => True) I Hother fs (conj He (fun _ _ => I))).
Qed.

Lemma discard_keeps e :
  preserves (fun fs => fs_dir fs !! name = e) (discard_stale_temporary_files path label).
Proof. apply discard_keeps_entry. apply stale_temporary_ne. Qed.

Lemma open_document_reads : frames (fun fs => (fs_dir fs, fs_pending fs)) (open_document from_str path label).
Proof.
  intros fs. unfold open_document, open_read, io_all, io.
  set (look := fun fs1 => (fs_dir fs1, fs_pending fs1)).
  assert (∀ f fs1, look ((_ ← restrict_existing_file label;
       document ← parse_document from_str f path label; mret (Some document)) fs1).2 = look fs1) as Hrest.
  { intros f fs1. unfold restrict_existing_file, parse_document, io_step, io_all, io,
      mbind, st_bind, st_map_err, st_lift, mret, st_ret.
    destruct (head (fs_faults fs1)) as [[?|]|]; simpl; try done;
      (destruct (head (tail (fs_faults fs1))) as [[?|]|]; simpl; try done);
      destruct (utf8_valid (f_bytes f)); try done; by destruct (from_str (f_bytes f)). }
  destruct (head (fs_faults fs)) as [[?|]|]; [done| |];
    (destruct (fs_dir fs !! name) as [f|] eqn:E; simpl; rewrite ?E; simpl; [exact (Hrest _ _) | done]).
Qed.

Lemma open_document_frames : frames fs_dir (open_document from_str path label).
Proof. intros fs. by injection (open_document_reads fs). Qed.

Lemma load_keeps_entry other :
  (∀ n, is_stale_temporary path n = true -> n <> other) ->
  frames (fun fs => fs_dir fs !! other) (load_json_document from_str path label).
Proof.
  intros Hother fs. unfold load_json_document.
  pose proof (discard_keeps_entry other (fs_dir fs !! other) Hother fs eq_refl) as Hk.
  apply (snd_bind (fun fs1 => fs_dir fs1 !! other = fs_dir fs !! other)); [done|].
  intros u fs1 Hr. rewrite open_document_frames. by rewrite Hr in Hk.
Qed.

(** What a power loss during the load may bring back is what it was before. *)
Lemma load_holds_entry other e (Q : option File -> Prop) :
  Q e -> (∀ n, is_stale_temporary path n = true -> n <> other) ->
  preserves (holds_entry other e Q) (load_json_document from_str path label).
Proof.
  intros HQ Hother. unfold load_json_document. apply preserves_bind; [by apply discard_holds_entry|].
  intros _ fs [He Hp]. injection (open_document_reads fs) as Hd Hq. split; [by rewrite Hd|by rewrite Hq].
Qed.

Lemma load_json_document_keeps : frames (fun fs => fs_dir fs !! name) (load_json_document from_str path label).
Proof. apply load_keeps_entry. apply stale_temporary_ne. Qed.

(** Loading one document leaves the other documents of the directory alone. *)
Lemma load_keeps_other other :
  visible other = true -> frames (fun fs => fs_dir fs !! other) (load_json_document from_str path label).
Proof.
  intros Hv. apply load_keeps_entry. intros n Hn ->. by rewrite stale_temporary_visible in Hn.
Qed.

Lemma parse_document_Ok f fs d fs' :
  parse_document from_str f path label fs = (Ok d, fs') -> from_str (f_bytes f) = inr d.
Proof.
  unfold parse_document. intros (u & s1 & _ & (raw & s2 & [Hraw _]%st_lift_inv & [Hd _]%st_lift_inv)%st_bind_Ok_inv)%st_bind_Ok_inv.
  destruct (utf8_valid (f_bytes f)); simplify_eq. by destruct (from_str (f_bytes f)); simplify_eq/=.
Qed.

Lemma load_json_document_Some fs d fs' :
  load_json_document from_str path label fs = (Ok (Some d), fs') ->
  ∃ raw, contents fs name = Some raw /\ from_str raw = inr d.
Proof.
  unfold load_json_document. intros ([] & fs1 & Hr & Ho)%st_bind_Ok_inv.
  pose proof (discard_keeps (fs_dir fs !! name) fs eq_refl) as Hk. rewrite Hr in Hk. simpl in Hk.
  unfold contents. rewrite <- Hk. unfold open_document in Ho.
  destruct (open_read name fs1) as [[f|er|msg] fs2] eqn:E; [|by destruct (io_kind er)|done].
  apply io_all_Ok_inv in E as (faults & E). simpl in E.
  destruct (fs_dir fs1 !! name) as [f'|]; [|done]. simplify_eq/=.
  apply st_bind_Ok_inv in Ho as (u & s1 & _ & (d' & s2 & Hp%parse_document_Ok & [= -> _])%st_bind_Ok_inv).
  eauto.
Qed.
(** A device that never reports an existing file as missing. *)
Definition honest (fs : FileSystem) : Prop :=
  ∀ fault, Some fault ∈ fs_faults fs -> io_kind (ft_error fault) <> NotFound.

Lemma io_honest {A} partial (m : st FileSystem IoError A) :
  (∀ fault fs, fs_faults (partial fault fs) = fs_faults fs) ->
  preserves honest m -> preserves honest (io partial m).
Proof.
  intros Hp Hm fs Hfs. unfold io.
  assert (honest {| fs_exists := fs_exists fs; fs_dir := fs_dir fs; fs_pending := fs_pending fs;
                    fs_faults := tail (fs_faults fs); fs_uuids := fs_uuids fs |}) as Hr.
  { intros fault Hf. apply Hfs. simpl in Hf. destruct (fs_faults fs); [done|]. by right. }
  destruct (head (fs_faults fs)) as [[fault|]|]; [|by apply Hm..].
  intros f Hf. simpl in Hf. rewrite Hp in Hf. by apply Hr.
Qed.

Lemma st_map_err_honest {E F A} (f : E -> F) (m : st FileSystem E A) :
  preserves honest m -> preserves honest (st_map_err f m).
Proof. intros Hm fs Hfs. specialize (Hm fs Hfs). unfold st_map_err. by destruct (m fs). Qed.

Lemma discard_honest : preserves honest (discard_stale_temporary_files path label).
Proof.
  assert (∀ n, preserves honest (fs_remove_file n)) as Hrm.
  { intros n. apply io_honest; [done|]. intros fs Hfs. by destruct (fs_dir fs !! n). }
  assert (preserves honest io_step) as Hst by (apply io_honest; [done|apply preserves_ret]).
  assert (∀ names, preserves honest (discard_entries path label names)) as Hd.
  { induction names as [|n names IH]; simpl; [apply preserves_ret|].
    apply preserves_bind; [|by intros]. apply preserves_bind; [by apply st_map_err_honest|]. intros _.
    destruct (is_stale_temporary path n); [by apply st_map_err_honest | apply preserves_ret]. }
  unfold discard_stale_temporary_files. apply preserves_bind; [apply preserves_get|]. intros [];
    [|apply preserves_ret]. apply preserves_bind; [by apply st_map_err_honest|]. intros _.
  apply preserves_bind; [apply preserves_get|]. intros names. apply Hd.
Qed.

Lemma parse_document_utf8 f fs d fs' :
  parse_document from_str f path label fs = (Ok d, fs') -> utf8_valid (f_bytes f) = true.
Proof.
  unfold parse_document. intros (u & s1 & _ & (raw & s2 & [Hraw _]%st_lift_inv & _)%st_bind_Ok_inv)%st_bind_Ok_inv.
  by destruct (utf8_valid (f_bytes f)).
Qed.

(** On such a device a successful load returns what is stored. *)
Lemma load_json_document_honest fs d fs' :
  honest fs -> load_json_document from_str path label fs = (Ok d, fs') ->
  load_result (contents fs name) = Ok d.
Proof.
  intros Hfs. unfold load_json_document. intros ([] & fs1 & Hr & Ho)%st_bind_Ok_inv.
  pose proof (discard_keeps (fs_dir fs !! name) fs eq_refl) as Hk. rewrite Hr in Hk. simpl in Hk.
  pose proof (discard_honest fs Hfs) as Hh. rewrite Hr in Hh. simpl in Hh.
  unfold contents. rewrite <- Hk. clear Hk Hr. unfold open_document, open_read, io_all, io in Ho.
  destruct (head (fs_faults fs1)) as [[fault|]|] eqn:Ef.
  { specialize (Hh fault). destruct (fs_faults fs1); simplify_eq/=. specialize (Hh ltac:(left)).
    by destruct (io_kind (ft_error fault)). }
  all: simpl in Ho; destruct (fs_dir fs1 !! name) as [f|] eqn:Ed; simpl in Ho;
    rewrite ?Ed in Ho; [|by simplify_eq/=].
  all: apply st_bind_Ok_inv in Ho as (u & s1 & _ & (d' & s2 & Hp & [= <- _])%st_bind_Ok_inv);
    simpl; rewrite (parse_document_utf8 _ _ _ _ Hp), (parse_document_Ok _ _ _ _ Hp); done.
Qed.
End load.

(** Without any assumption on what is durable: the document was replaced (and the call
    succeeded or says so), or it was left alone (and the call says that). *)
Lemma persist_json_document_contents `{Uuids} {T} (to_vec_pretty : T -> string + string)
    path document label fs r fs' :
  persist_json_document to_vec_pretty path document label StandardAtomicFileWriter fs = (r, fs') ->
  (∃ bytes, to_vec_pretty document = inr bytes /\ contents fs' (p_file_name path) = Some bytes /\
     (r = Ok tt \/ ∃ e, r = Err e /\ is_indeterminate e = true)) \/
  (∃ e, r = Err e /\ is_indeterminate e = false /\
        contents fs' (p_file_name path) = contents fs (p_file_name path)).
Proof.
  intros Hrun.
  pose proof (persist_cases to_vec_pretty path document label StandardAtomicFileWriter
    (fs_dir fs !! p_file_name path) (fun _ => True) fs ltac:(done) I ltac:(done)) as Hc.
  rewrite Hrun in Hc. unfold contents.
  inversion Hc as [m fs1 [He _] Heq|bytes fs1 Hser [Hn _] Heq]; subst.
  - right. rewrite He. eauto.
  - left. exists bytes. split; [done|]. unfold st_map_err in Heq. simpl in Heq.
    destruct (sync_dir_result fs1) as [(er & fs2 & Hr & Hd & _)|(fs2 & Hr & Hd & _)];
      rewrite Hr in Heq; simplify_eq/=; rewrite Hd, Hn; eauto.
Qed.

(** Persisting and removing consume failures from the schedule and add none. *)
Lemma fs_remove_file_honest name : preserves honest (fs_remove_file name).
Proof. apply io_honest; [done|]. intros fs Hfs. by destruct (fs_dir fs !! name). Qed.

(** Removing a file: done, not there, or refused without effect. *)
Lemma contents_remove name fs r fs' :
  fs_remove_file name fs = (r, fs') -> honest fs ->
  (r = Ok tt /\ contents fs' name = None) \/
  (∃ e, r = Err e /\ io_kind e = NotFound /\ contents fs name = None /\ contents fs' name = None) \/
  (∃ e, r = Err e /\ io_kind e <> NotFound /\ contents fs' name = contents fs name).
Proof.
  intros Hr Hh. unfold fs_remove_file, io_all, io in Hr. unfold contents.
  destruct (head (fs_faults fs)) as [[fault|]|] eqn:Ef.
  { simplify_eq/=. right; right. eexists. split_and!; [done| |done]. apply Hh.
    destruct (fs_faults fs); simplify_eq/=. left. }
  all: simpl in Hr; destruct (fs_dir fs !! name) as [f|] eqn:E; simplify_eq/=;
    [left; by rewrite lookup_delete_eq|right; left; eexists; by rewrite E].
Qed.

Lemma persist_honest `{Uuids} {T} (to_vec_pretty : T -> string + string) path document label :
  preserves honest (persist_json_document to_vec_pretty path document label StandardAtomicFileWriter).
Proof.
  unfold persist_json_document.
  apply preserves_bind; [apply st_map_err_honest, io_honest; [done|by intros fs Hfs]|intros _].
  apply preserves_bind; [apply preserves_lift|intros bytes].
  apply temporary_path_preserves; [done|intros uuid]. set (temp := with_file_name path _).
  pose proof (fs_remove_file_honest (p_file_name temp)) as Hrm.
  apply preserves_bind; [apply or_clean_up_preserves; [|done]|intros _; apply preserves_bind;
    [apply or_clean_up_preserves; [|done]|intros _]].
  - simpl. apply preserves_bind; [|intros _; apply preserves_bind; [|intros _]]; (apply io_honest; [done|]).
    + intros fs Hfs. destruct (negb _); [done|]. by destruct (fs_dir fs !! _).
    + by intros fs Hfs.
    + by intros fs Hfs.
  - apply io_honest; [done|]. intros fs Hfs. by destruct (fs_dir fs !! _).
  - apply st_map_err_honest, io_honest; [done|by intros fs Hfs].
Qed.

Lemma io_step_honest : preserves honest io_step.
Proof. apply io_honest; [done|apply preserves_ret]. Qed.

Lemma open_read_honest name : preserves honest (open_read name).
Proof. apply io_honest; [done|]. by intros fs Hfs. Qed.

(** Loading consumes failures from the schedule and adds none. *)
Lemma load_json_document_preserves_honest `{Uuids} {T} (from_str : string -> string + T) path label :
  preserves honest (load_json_document from_str path label).
Proof.
  unfold load_json_document. apply preserves_bind; [apply discard_honest|intros _].
  intros fs Hfs. unfold open_document.
  pose proof (open_read_honest (p_file_name path) fs Hfs) as Ho.
  destruct (open_read (p_file_name path) fs) as [[f|e|msg] fs1]; simpl in *; [|by destruct (io_kind e)|done].
  apply (preserves_bind honest); [apply st_map_err_honest, io_step_honest| |done].
  intros _. apply preserves_bind; [|intros; apply preserves_ret].
  unfold parse_document. apply preserves_bind; [apply st_map_err_honest, io_step_honest|intros _].
  apply preserves_bind; intros; apply preserves_lift.
Qed.
