(* ===== verification/FileStore.v ===== *)
(** * The kernel's state file

    [host/src-tauri/src/kernel_state.rs]: the durable state of the kernel as a JSON
    document with a checksum, replaced atomically on every commit. It implements the
    persistence port ([KernelStateStore]) of the kernel.

    Serde and SHA-256 are parameters ([StateCodec]); what the store relies on of them
    is [StateCodecLaws]. *)

From S2P Require Import Errors Platform Ledger Registry Broker Artifacts KernelState KernelGrants KernelBoot Durability Session Prelude RustStd RustText Durable AtomicJson.

Definition FORMAT_VERSION : N := 1.

(** [DeferredDirSyncWriter]: the shared directory sync is skipped. *)
Definition DeferredDirSyncWriter (inner : AtomicFileWriter) : AtomicFileWriter := {|
  write_and_sync := write_and_sync inner;
  rename := rename inner;
  remove_file := remove_file inner;
  sync_parent_dir _ := mret tt;
|}.

Record KernelStateDocument (T : Type) := {
  doc_format_version : N;
  doc_state_sha256 : string;
  doc_state : T;
}.
Arguments doc_format_version {T}.
Arguments doc_state_sha256 {T}.
Arguments doc_state {T}.

(** ** Checksums *)

(** [u8::is_ascii_whitespace]. *)
Definition is_ascii_whitespace (b : N) : bool :=
  ((b =? 32) || (b =? 9) || (b =? 10) || (b =? 12) || (b =? 13))%N.

(** The loop of [checksum_raw]: drop whitespace outside string literals. *)
Fixpoint compact_raw (in_string escaped : bool) (raw : string) : string :=
  match raw with
  | EmptyString => EmptyString
  | String c rest =>
      let b := byte c in
      if in_string then
        String c (if escaped then compact_raw true false rest
                  else if (b =? 92)%N then compact_raw true true rest
                  else if (b =? 34)%N then compact_raw false false rest
                  else compact_raw true false rest)
      else if (b =? 34)%N then String c (compact_raw true escaped rest)
      else if is_ascii_whitespace b then compact_raw false escaped rest
      else String c (compact_raw false escaped rest)
  end.

(** ** JSON texts as tokens with whitespace between them *)

Inductive token :=
  | plain_token (text : string)
  | string_token (body : string).

(** The body of a string literal: no unescaped quote, no escape left open. *)
Fixpoint literal_body (escaped : bool) (s : string) : bool :=
  match s with
  | EmptyString => negb escaped
  | String c s' =>
      if escaped then literal_body false s'
      else if (byte c =? 92)%N then literal_body true s'
      else negb (byte c =? 34)%N && literal_body false s'
  end.

Definition token_ok (t : token) : bool :=
  match t with
  | plain_token text => string_all (fun b => negb (is_ascii_whitespace b) && negb (b =? 34)%N) text
  | string_token body => literal_body false body
  end.

Definition token_text (t : token) : string :=
  match t with
  | plain_token text => text
  | string_token body => quote +:+ body +:+ quote
  end.

(** The text without whitespace. *)
Fixpoint compact_text (tokens : list token) : string :=
  match tokens with
  | [] => EmptyString
  | t :: tokens' => token_text t +:+ compact_text tokens'
  end.

(** [raw] spells [tokens] with whitespace around them. *)
Inductive layout : list token -> string -> Prop :=
  | layout_end ws : string_all is_ascii_whitespace ws = true -> layout [] ws
  | layout_token ws t tokens raw :
      string_all is_ascii_whitespace ws = true -> token_ok t = true -> layout tokens raw ->
      layout (t :: tokens) (ws +:+ token_text t +:+ raw).

(** ** Serde and SHA-256 *)

Class StateCodec := {
  to_vec : DurableKernelState -> string + string;
  to_vec_pretty : KernelStateDocument DurableKernelState -> string + string;
  from_str_document : string -> string + KernelStateDocument string;
  from_str_state : string -> string + DurableKernelState;
  sha256_hex : string -> string;
}.

(** Pretty output is UTF-8; reading it back finds the fields and the raw text of the
    state, which spells the same tokens as the compact output and reads back as
    the state. *)
Class StateCodecLaws `{StateCodec} : Prop := {
  pretty_document : ∀ document bytes,
    to_vec_pretty document = inr bytes ->
    utf8_valid bytes = true /\
    ∃ raw tokens,
      from_str_document bytes = inr {| doc_format_version := doc_format_version document;
                                      doc_state_sha256 := doc_state_sha256 document;
                                      doc_state := raw |} /\
      to_vec (doc_state document) = inr (compact_text tokens) /\
      layout tokens raw /\
      from_str_state raw = inr (doc_state document);
}.

Section store.
Context `{Uuids, StateCodec}.
Context (path : Path).

Definition checksum_serializable (state : DurableKernelState) : outcome string string :=
  sha256_hex <$> map_err (fun e => "serialize kernel state checksum input failed: " +:+ e)
                   (from_result (to_vec state)).

Definition checksum (state : DurableKernelState) : outcome string string :=
  checksum_serializable state.

Definition checksum_raw (state : string) : string := sha256_hex (compact_raw false false state).

(** [read_persisted] (and [KernelStateStore::load], the same body): version, checksum
    of the raw text, then the state. *)
Definition check_document (document : option (KernelStateDocument string)) :
    outcome string (option DurableKernelState) :=
  match document with
  | None => Ok None
  | Some document =>
      if negb (doc_format_version document =? FORMAT_VERSION)%N
      then Err ("unsupported durable kernel state version: " +:+ pretty (doc_format_version document))
      else if negb (bool_decide (checksum_raw (doc_state document) = doc_state_sha256 document))
      then Err ("durable kernel state checksum mismatch; preserved '" +:+ display path +:+ "'")
      else Some <$> map_err (fun e => "parse durable kernel state failed: " +:+ e)
                      (from_result (from_str_state (doc_state document)))
  end.

Definition load : st FileSystem string (option DurableKernelState) :=
  document ← load_json_document from_str_document path "durable kernel state";
  st_lift (check_document document).

Definition read_persisted : st FileSystem string (option DurableKernelState) := load.

Definition validate_persisted : st FileSystem string unit :=
  _ ← read_persisted; mret tt.

Definition sync_committed_file : st FileSystem string unit :=
  _ ← st_map_err (fun e => "sync committed kernel state failed: " +:+ io_message e)
        (_ ← open_read (p_file_name path); sync_all (p_file_name path));
  st_map_err (fun e => "sync kernel state directory failed: " +:+ io_message e) sync_dir.

(** The [Panic] branches are unreachable: neither the codec nor the file system
    panics ([checksum_no_panic], [persist_cases]). *)
Definition commit (state : DurableKernelState) (fs : FileSystem) : CommitOutcome * FileSystem :=
  match checksum state with
  | Err error => (NotCommitted error, fs)
  | Panic msg => (NotCommitted msg, fs)
  | Ok sum =>
      let document := {| doc_format_version := FORMAT_VERSION; doc_state_sha256 := sum;
                         doc_state := state |} in
      match persist_json_document to_vec_pretty path document "durable kernel state"
              (DeferredDirSyncWriter StandardAtomicFileWriter) fs with
      | (Err (NotCommittedJson error), fs1) => (NotCommitted error, fs1)
      | (Err (IndeterminateJson error), fs1) => (Indeterminate error, fs1)
      | (Panic msg, fs1) => (NotCommitted msg, fs1)
      | (Ok _, fs1) =>
          match sync_committed_file fs1 with
          | (Ok _, fs2) => (Committed, fs2)
          | (Err error, fs2) => (Indeterminate error, fs2)
          | (Panic msg, fs2) => (Indeterminate msg, fs2)
          end
      end
  end.
End store.

(** ** The state file implements the kernel's persistence port

    The checksum of the pretty-printed text agrees with the checksum of the compact
    text, a committed state is read back, and every outcome of a commit means what
    the port promises, also across a power loss. *)

(** ** Whitespace outside string literals *)

Lemma compact_raw_whitespace ws rest :
  string_all is_ascii_whitespace ws = true ->
  compact_raw false false (ws +:+ rest) = compact_raw false false rest.
Proof.
  induction ws as [|c ws IH]; [done|]. simpl. intros [Hc Hws]%andb_true_iff.
  change (compact_raw false false (String c (ws +:+ rest)) = compact_raw false false rest).
  simpl. rewrite Hc, IH by done.
  destruct (N.eqb_spec (byte c) 34) as [E|]; [|done]. by rewrite E in Hc.
Qed.

Lemma compact_raw_plain text rest :
  string_all (fun b => negb (is_ascii_whitespace b) && negb (b =? 34)%N) text = true ->
  compact_raw false false (text +:+ rest) = text +:+ compact_raw false false rest.
Proof.
  induction text as [|c text IH]; [done|]. simpl.
  intros [[Hw Hq]%andb_true_iff Ht]%andb_true_iff.
  change (compact_raw false false (String c (text +:+ rest)) = String c (text +:+ compact_raw false false rest)).
  simpl. apply negb_true_iff in Hw, Hq. by rewrite Hw, Hq, IH.
Qed.

Lemma compact_raw_literal escaped body rest :
  literal_body escaped body = true ->
  compact_raw true escaped (body +:+ quote +:+ rest) = body +:+ quote +:+ compact_raw false false rest.
Proof.
  revert escaped. induction body as [|c body IH]; intros escaped; simpl.
  - destruct escaped; [done|]. intros _. done.
  - intros Hb.
    change (compact_raw true escaped (String c (body +:+ quote +:+ rest))
            = String c (body +:+ quote +:+ compact_raw false false rest)).
    simpl. f_equal. destruct escaped; [by apply IH|].
    destruct (byte c =? 92)%N; [by apply IH|].
    destruct (byte c =? 34)%N; [done|]. by apply IH.
Qed.

Lemma compact_raw_layout tokens raw :
  layout tokens raw -> compact_raw false false raw = compact_text tokens.
Proof.
  induction 1 as [ws Hws|ws t tokens raw Hws Ht _ IH].
  - rewrite <- (string_app_nil_r ws). by apply compact_raw_whitespace.
  - rewrite compact_raw_whitespace by done. cbn [compact_text]. rewrite <- IH.
    destruct t as [text|body]; simpl token_text; [by apply compact_raw_plain|].
    rewrite !string_app_assoc.
    change (compact_raw false false (quote +:+ (body +:+ (quote +:+ raw))))
      with (quote +:+ compact_raw true false (body +:+ (quote +:+ raw))).
    by rewrite compact_raw_literal.
Qed.

(** ** Reading a document back *)

Section store.
Context `{Uuids, StateCodec, !StateCodecLaws}.

Lemma checksum_no_panic state msg : checksum state <> Panic msg.
Proof. unfold checksum, checksum_serializable. by destruct (to_vec state). Qed.

(** What the bytes of the document read as. *)
Definition reads (path : Path) (bytes : string) : outcome string (option DurableKernelState) :=
  document ← load_result from_str_document path "durable kernel state" (Some bytes);
  check_document path document.

(** What is written for a state passes the version and checksum tests and parses. *)
Lemma document_reads_back path state sum bytes :
  checksum state = Ok sum ->
  to_vec_pretty {| doc_format_version := FORMAT_VERSION; doc_state_sha256 := sum;
                   doc_state := state |} = inr bytes ->
  reads path bytes = Ok (Some state).
Proof.
  intros Hsum (Hutf & raw & tokens & Hdoc & Hvec & Hlay & Hst)%pretty_document.
  unfold reads, load_result. rewrite Hutf, Hdoc. simpl in *.
  unfold checksum, checksum_serializable in Hsum. rewrite Hvec in Hsum. simplify_eq/=.
  unfold checksum_raw. rewrite (compact_raw_layout _ _ Hlay), bool_decide_eq_true_2 by done.
  by rewrite Hst.
Qed.

(** ** The store *)

(** What a boot on a working device loads. *)
Definition loads (path : Path) (fs : FileSystem) : outcome string (option DurableKernelState) :=
  (load path (quiet fs)).1.

Lemma loads_contents path fs :
  loads path fs =
  (document ← load_result from_str_document path "durable kernel state" (contents fs (p_file_name path));
   check_document path document).
Proof.
  unfold loads, load. rewrite st_bind_run.
  destruct (load_json_document_working from_str_document path "durable kernel state" fs) as [fs' ->].
  by destruct (load_result _ _ _ _).
Qed.

(** The result of a commit: nothing happened to the document, or the new document
    is in place and its durability depends on the two syncs. *)
Inductive commit_case (path : Path) (state : DurableKernelState) (e : option File)
    (Q : option File -> Prop) : CommitOutcome * FileSystem -> Prop :=
  | commit_aborted error fs' :
      holds_entry (p_file_name path) e Q fs' ->
      commit_case path state e Q (NotCommitted error, fs')
  | commit_done bytes fs' :
      reads path bytes = Ok (Some state) ->
      fs_dir fs' !! p_file_name path = Some {| f_bytes := bytes; f_synced := true |} ->
      fs_pending fs' = [] ->
      commit_case path state e Q (Committed, fs')
  | commit_unknown bytes error fs' :
      reads path bytes = Ok (Some state) ->
      holds_entry (p_file_name path) (Some {| f_bytes := bytes; f_synced := true |})
        (fun e' => Q e' \/ e' = Some {| f_bytes := bytes; f_synced := true |}) fs' ->
      commit_case path state e Q (Indeterminate error, fs').

Lemma sync_committed_file_result path bytes (Q : option File -> Prop) fs :
  holds_entry (p_file_name path) (Some {| f_bytes := bytes; f_synced := true |}) Q fs ->
  Q (Some {| f_bytes := bytes; f_synced := true |}) ->
  match sync_committed_file path fs with
  | (Ok _, fs') =>
      fs_dir fs' !! p_file_name path = Some {| f_bytes := bytes; f_synced := true |} /\
      fs_pending fs' = []
  | (Err _, fs') =>
      holds_entry (p_file_name path) (Some {| f_bytes := bytes; f_synced := true |}) Q fs'
  | (Panic _, _) => False
  end.
Proof.
  intros [He HQ] Hnew. unfold sync_committed_file, mbind, st_bind, st_map_err, open_read, sync_all.
  unfold io_all at 1, io at 1. simpl.
  destruct (head (fs_faults fs)) as [[?|]|]; simpl; [done| |];
    rewrite He; simpl; unfold io_all at 1, io at 1; simpl;
    (destruct (head (tail (fs_faults fs))) as [[?|]|]; simpl; [done| |]);
    match goal with |- context [sync_dir ?s] =>
      destruct (sync_dir_result s) as [(er & fs2 & -> & Hd & Hp)|(fs2 & -> & Hd & Hp)] end;
    simpl in *; unfold holds_entry; rewrite Hd, Hp, lookup_alter_eq, He; simpl; (split; [done|]);
    try done; intros d [->|Hin]%elem_of_cons; rewrite ?He; auto.
Qed.

Lemma commit_cases path state e (Q : option File -> Prop) fs :
  Q e -> holds_entry (p_file_name path) e Q fs ->
  commit_case path state e Q (commit path state fs).
Proof.
  intros HQ Hfs. unfold commit.
  destruct (checksum state) as [sum|error|msg] eqn:Hsum; [|by constructor|by constructor].
  pose proof (persist_cases to_vec_pretty path {| doc_format_version := FORMAT_VERSION;
    doc_state_sha256 := sum; doc_state := state |} "durable kernel state"
    (DeferredDirSyncWriter StandardAtomicFileWriter) e Q fs ltac:(done) HQ Hfs) as Hcase.
  inversion Hcase as [m fs1 Hh Heq|bytes fs1 Hser Hnew Heq]; [by constructor|].
  unfold st_map_err. simpl.
  pose proof (document_reads_back path state sum bytes Hsum Hser) as Hback.
  pose proof (sync_committed_file_result path bytes _ fs1 Hnew (or_intror eq_refl)) as Hsync.
  destruct (sync_committed_file path fs1) as [[[]|er|msg] fs2]; [|by eapply commit_unknown|done].
  destruct Hsync. by eapply commit_done.
Qed.

Lemma loads_reads path fs :
  loads path fs = match contents fs (p_file_name path) with
                  | None => Ok None
                  | Some bytes => reads path bytes
                  end.
Proof. rewrite loads_contents. by destruct (contents fs (p_file_name path)). Qed.

(** [FileKernelStateStore]: the path of the document and the directory it is in. *)
Record FileKernelStateStore := { fk_path : Path; fk_fs : FileSystem }.

#[export] Instance FileKernelStateStore_store : KernelStateStore FileKernelStateStore := {
  store_load s := loads (fk_path s) (fk_fs s);
  store_commit state s :=
    let '(o, fs) := commit (fk_path s) state (fk_fs s) in
    (o, {| fk_path := fk_path s; fk_fs := fs |});
}.

(** The outcomes of a commit mean what the port says of the next load. *)
#[export] Instance FileKernelStateStore_laws : KernelStateStoreLaws FileKernelStateStore.
Proof.
  assert (∀ d (s : FileKernelStateStore), commit_case (fk_path s) d
    (fs_dir (fk_fs s) !! p_file_name (fk_path s)) (fun _ => True)
    (commit (fk_path s) d (fk_fs s))) as Hc.
  { intros d s. by apply commit_cases. }
  split; simpl; intros d [path fs] s'; specialize (Hc d {| fk_path := path; fk_fs := fs |});
    simpl in *; intros; destruct (commit path d fs) as [o fs1]; simplify_eq; simpl;
    inversion Hc as [? ? [He _]|? ? Hr Hd|? ? ? Hr [Hd _]]; subst;
    rewrite !loads_reads; unfold contents.
  - by rewrite Hd.
  - by rewrite He.
  - right. by rewrite Hd.
Qed.

(** ** Power loss *)

(** The document is durable. *)
Definition store_settled (s : FileKernelStateStore) : Prop :=
  settled (fk_fs s) (p_file_name (fk_path s)).

(** The store a new process finds after a power loss. *)
Definition store_crash (s s' : FileKernelStateStore) : Prop :=
  fk_path s' = fk_path s /\ crash (fk_fs s) (fk_fs s').

(** What each outcome of a commit promises of the state after a power loss. *)
Definition commit_durable (d : DurableKernelState) (s : FileKernelStateStore) (o : CommitOutcome)
    (s' : FileKernelStateStore) : Prop :=
  match o with
  | Committed => store_settled s' /\ ∀ s'', store_crash s' s'' -> store_load s'' = Ok (Some d)
  | NotCommitted _ => store_settled s' /\ ∀ s'', store_crash s' s'' -> store_load s'' = store_load s
  | Indeterminate _ => ∀ s'', store_crash s' s'' ->
      store_settled s'' /\ (store_load s'' = store_load s \/ store_load s'' = Ok (Some d))
  end.

Lemma settled_crash_load s s'' :
  store_settled s -> store_crash s s'' -> store_settled s'' /\ store_load s'' = store_load s.
Proof.
  destruct s as [path fs], s'' as [path'' fs'']. intros Hs [Hp Hc]. simpl in *. subst.
  destruct (settled_crash _ _ _ Hs Hc) as [He Hs'']. split; [done|]. simpl in He.
  rewrite !loads_reads. unfold contents. by rewrite He.
Qed.

Lemma store_commit_durable d s o s' :
  store_settled s -> store_commit d s = (o, s') -> commit_durable d s o s'.
Proof.
  intros Hs Hrun. pose proof Hs as [Hsync Hh]%settled_holds.
  pose proof (commit_cases (fk_path s) d _ _ (fk_fs s) eq_refl Hh) as Hc. simpl in Hrun.
  destruct (commit (fk_path s) d (fk_fs s)) as [o1 fs1]. simplify_eq.
  inversion Hc as [er ? [He HQ]|bytes ? Hr Hd Hp|bytes er ? Hr Hn]; subst; unfold commit_durable.
  - assert (store_settled {| fk_path := fk_path s; fk_fs := fs1 |}) as Hs1.
    { split; simpl; rewrite He; auto. }
    split; [done|]. intros s'' Hcr. destruct (settled_crash_load _ _ Hs1 Hcr) as [_ ->].
    simpl. rewrite !loads_reads. unfold contents. by rewrite He.
  - assert (store_settled {| fk_path := fk_path s; fk_fs := fs1 |}) as Hs1.
    { split; simpl; rewrite ?Hd, ?Hp; [by intros f [= <-]|]. intros d' Hd'. inversion Hd'. }
    split; [done|]. intros s'' Hcr. destruct (settled_crash_load _ _ Hs1 Hcr) as [_ ->].
    simpl. rewrite loads_reads. unfold contents. by rewrite Hd.
  - intros s'' [Hpath Hcr]. simpl in *.
    destruct (renamed_crash (fk_path s) _ _ _ _ Hsync Hn Hcr) as [Hset Hor].
    unfold store_settled. rewrite Hpath. split; [done|]. rewrite !loads_reads. unfold contents in *.
    destruct Hor as [-> | ->]; auto.
Qed.

(** ** Kernel sessions on the state file *)

Section kernel.
Context {W : Type} `{Libraries, Environment W, TrustedChrome W}.
Implicit Types (k : Kernel W FileKernelStateStore).

(** While no commit is unresolved, the document is durable. *)
Definition kernel_settled k : Prop :=
  k_recovery_required k = false -> ∀ s, k_state_store k = Some s -> store_settled s.

#[export] Instance kernel_settled_invariant : DurableInvariant kernel_settled.
Proof.
  split.
  - intros k k' He Hk Hr s Hs. unfold durable_part in He. injection He as _ _ _ _ Es Er.
    apply Hk; congruence.
  - by intros k _.
  - by intros k secrets Hk.
  - intros A r l b a f k Hk _ Hf. unfold mbind, st_bind, commit_parts.
    destruct (k_recovery_required k) eqn:Hrec; [intros E; simpl in E; congruence|].
    specialize (Hk Hrec). destruct (k_state_store k) as [s|] eqn:Hs.
    + destruct (store_commit _ s) as [o s'] eqn:Hc.
      apply store_commit_durable in Hc; [|by apply Hk].
      destruct o as [|e|e]; simpl in Hc.
      * specialize (Hf (Some s')). unfold durable_part in Hf. intros _ s0 Hs0.
        injection Hf as _ _ _ _ Es _. destruct Hc. congruence.
      * intros _ s0 [= <-]. by destruct Hc.
      * intros E. simpl in E. done.
    + specialize (Hf None). unfold durable_part in Hf. intros _ s0 Hs0.
      assert (set_state_store None k = k) as Ek by (destruct k; simpl in *; by subst).
      rewrite Ek in Hf. injection Hf as _ _ _ _ Es _. congruence.
Qed.

Lemma boot_settled chrome next_id w store k :
  store_settled store ->
  with_clock_and_state_store chrome next_id w store = (Ok tt, k) -> kernel_settled k.
Proof.
  intros Hs Hb. unfold with_clock_and_state_store in Hb.
  destruct (store_load store) as [[d|]| |]; simplify_eq.
  - apply st_bind_Ok_inv in Hb as ([] & k1 & Hr & Hi).
    apply restore_services_Ok in Hr as (_ & _ & Hst & _).
    assert (kernel_settled k1) as Hk1.
    { intros _ s E. rewrite Hst in E. simpl in E. by simplify_eq. }
    pose proof (interrupt_active_runs_keeps (I := kernel_settled) k1 Hk1) as Hk2. by rewrite Hi in Hk2.
  - intros _ s E. simpl in E. by simplify_eq.
Qed.

Lemma reachable_settled chrome next_id w store k :
  store_settled store -> reachable chrome next_id w store k -> kernel_settled k.
Proof.
  intros Hs (k0 & Hb & Hr). apply boot_settled in Hb; [|done]. by eapply kernel_steps_keep.
Qed.

(** C8: A power loss takes nothing the kernel relies on. In every state a session on
    the state file can reach (whatever device failures happened on the way), unless
    recovery is required, the file system a crash leaves behind (any mix of the
    directory states since the last directory sync, unsynced bytes arbitrary) loads
    exactly the registry, the audit log, the grants with their revocations and the
    artifacts the kernel was working with, and is a durable starting point for the next
    session. *)
Theorem power_loss_keeps_session chrome next_id w store k s s'' :
  store_settled store -> reachable chrome next_id w store k ->
  k_recovery_required k = false -> k_state_store k = Some s -> store_crash s s'' ->
  store_settled s'' /\ store_holds s'' (k_registry k) (k_ledger k) (k_broker k) (k_artifacts k).
Proof.
  intros Hset Hreach Hrec Hs Hcrash.
  pose proof (reachable_settled _ _ _ _ _ Hset Hreach Hrec s Hs) as Hsettled.
  destruct (settled_crash_load s s'' Hsettled Hcrash) as [Hs'' Hload]. split; [done|].
  pose proof (do_store _ (reachable_durable _ _ _ _ _ Hreach) Hrec s Hs) as Hh.
  unfold store_holds in *. by rewrite Hload.
Qed.

End kernel.
End store.
