(* ===== verification/JsonOps.v ===== *)
(** * Working with JSON objects

    [serde_json::Map] (a [BTreeMap] of members) and the accessors of [Value] the host
    uses: lookup, insertion in key order, removal, [get_mut] as an update. *)

From S2P Require Import Prelude RustStd Json.

(** [Map::get]. *)
Fixpoint obj_get (o : JsonObject) (key : string) : option Value :=
  match o with
  | [] => None
  | (k, v) :: o' => if decide (k = key) then Some v else obj_get o' key
  end.

(** [Map::insert]: replace, or insert in key order. *)
Fixpoint obj_insert (o : JsonObject) (key : string) (value : Value) : JsonObject :=
  match o with
  | [] => [(key, value)]
  | (k, v) :: o' =>
      if decide (k = key) then (k, value) :: o'
      else if String.leb key k then (key, value) :: (k, v) :: o'
      else (k, v) :: obj_insert o' key value
  end.

(** [Map::remove]. *)
Definition obj_remove (o : JsonObject) (key : string) : JsonObject :=
  List.filter (fun kv => negb (bool_decide (kv.1 = key))) o.

(** [Map::get_mut(key)] followed by an assignment through the reference. *)
Definition obj_update (o : JsonObject) (key : string) (f : Value -> Value) : JsonObject :=
  (fun kv => if bool_decide (kv.1 = key) then (kv.1, f kv.2) else kv) <$> o.

(** ** Building values *)

Definition json_number (n : N) : Value := VNumber (pretty n).
Definition json_option {A} (f : A -> Value) (o : option A) : Value :=
  match o with None => VNull | Some a => f a end.

(** [serde_json::json!] of an object. *)
Definition json_object (members : list (string * Value)) : JsonObject :=
  foldl (fun o m => obj_insert o m.1 m.2) [] members.
Definition json_obj (members : list (string * Value)) : Value := VObject (json_object members).
Definition json_strings (items : list string) : Value := VArray (VString <$> items).

(** ** Accessors *)

Definition Value_as_object (v : Value) : option JsonObject :=
  match v with VObject o => Some o | _ => None end.
Definition Value_as_array (v : Value) : option (list Value) :=
  match v with VArray items => Some items | _ => None end.
Definition Value_as_bool (v : Value) : option bool :=
  match v with VBool b => Some b | _ => None end.

(** [as_object_mut] and [as_array_mut] followed by an assignment. *)
Definition on_object (f : JsonObject -> JsonObject) (v : Value) : Value :=
  match v with VObject o => VObject (f o) | _ => v end.
Definition on_array (f : list Value -> list Value) (v : Value) : Value :=
  match v with VArray items => VArray (f items) | _ => v end.

(** Every key occurs once, as in a map. *)
Definition obj_wf (o : JsonObject) : Prop := NoDup o.*1.

Section lemmas.
Implicit Types (o : JsonObject) (key : string).

Lemma obj_get_None o key : obj_get o key = None <-> key ∉ o.*1.
Proof.
  induction o as [|[k v] o IH]; simpl; [split; [by intros _ ?%elem_of_nil | done]|].
  rewrite not_elem_of_cons. case_decide; naive_solver.
Qed.

Lemma obj_get_Some_elem o key v : obj_get o key = Some v -> (key, v) ∈ o.
Proof.
  induction o as [|[k w] o IH]; simpl; [done|].
  case_decide; [intros [= ->]; subst; left | right; auto].
Qed.

Lemma obj_get_elem o key v : obj_wf o -> (key, v) ∈ o -> obj_get o key = Some v.
Proof.
  unfold obj_wf. induction o as [|[k w] o IH]; simpl; [by intros _ ?%elem_of_nil|].
  intros [Hk Ho]%NoDup_cons [E|Hin]%elem_of_cons; case_decide; simplify_eq; auto.
  exfalso. apply Hk. by apply (list_elem_of_fmap_2 fst _ (key, v)).
Qed.

Lemma obj_get_insert_eq o key v : obj_get (obj_insert o key v) key = Some v.
Proof.
  induction o as [|[k w] o IH]; simpl; [by rewrite decide_True|].
  case_decide; simpl; [by rewrite decide_True|].
  destruct (String.leb key k); simpl; [by rewrite decide_True|]. by rewrite decide_False.
Qed.

Lemma obj_get_insert_ne o key key' v :
  key <> key' -> obj_get (obj_insert o key v) key' = obj_get o key'.
Proof.
  intros Hne. induction o as [|[k w] o IH]; simpl; [by rewrite decide_False|].
  case_decide; simpl; [subst; by rewrite !decide_False|].
  destruct (String.leb key k); simpl; [by rewrite decide_False|]. by rewrite IH.
Qed.

Lemma obj_get_remove_eq o key : obj_get (obj_remove o key) key = None.
Proof.
  apply obj_get_None. unfold obj_remove. intros ([k v] & Hk & Hin)%list_elem_of_fmap.
  simpl in Hk. subst. apply list_elem_of_In, filter_In in Hin as [_ Hb].
  apply negb_true_iff, bool_decide_eq_false in Hb. done.
Qed.

Lemma obj_get_remove_ne o key key' :
  key <> key' -> obj_get (obj_remove o key) key' = obj_get o key'.
Proof.
  intros Hne. induction o as [|[k w] o IH]; simpl; [done|].
  case_bool_decide; simpl; [|by rewrite IH]. subst. by rewrite decide_False.
Qed.

Lemma obj_get_update_eq o key f : obj_get (obj_update o key f) key = f <$> obj_get o key.
Proof.
  induction o as [|[k w] o IH]; simpl; [done|].
  case_bool_decide; simpl; case_decide; naive_solver.
Qed.

Lemma obj_get_update_ne o key key' f :
  key <> key' -> obj_get (obj_update o key f) key' = obj_get o key'.
Proof.
  intros Hne. induction o as [|[k w] o IH]; simpl; [done|].
  case_bool_decide; simpl; rewrite IH; case_decide; naive_solver.
Qed.

Lemma obj_insert_keys o key v k : k ∈ (obj_insert o key v).*1 <-> k = key \/ k ∈ o.*1.
Proof.
  induction o as [|[k' w] o IH]; simpl.
  - rewrite list_elem_of_singleton, elem_of_nil. naive_solver.
  - case_decide as Hk; simpl; [subst; rewrite elem_of_cons; naive_solver|].
    destruct (String.leb key k'); simpl; rewrite !elem_of_cons, ?IH; naive_solver.
Qed.

(** In strict key order, as a [BTreeMap] iterates. *)
Definition key_lt (a b : string * Value) : Prop := String.leb a.1 b.1 = true /\ a.1 <> b.1.
Definition obj_sorted o : Prop := StronglySorted key_lt o.

Lemma key_lt_trans a b c : key_lt a b -> key_lt b c -> key_lt a c.
Proof.
  intros [H1 N1] [H2 N2]. split; [by eapply string_leb_trans|]. intros E.
  apply N1, String.leb_antisym; [done|]. by rewrite E.
Qed.

Lemma obj_insert_sorted o key v : obj_sorted o -> obj_sorted (obj_insert o key v).
Proof.
  unfold obj_sorted. induction o as [|[k w] o IH]; simpl; intros Hs; [by repeat constructor|].
  apply StronglySorted_inv in Hs as [Ho Hk]. case_decide as Hd.
  - constructor; [done|]. eapply Forall_impl; [exact Hk|]. by intros [].
  - destruct (String.leb key k) eqn:El.
    + assert (key_lt (key, v) (k, w)) as Hlt by (split; [done|by simpl; congruence]).
      repeat constructor; [done..|]. eapply Forall_impl; [exact Hk|]. intros x. by apply key_lt_trans.
    + constructor; [auto|]. apply Forall_forall. intros [k' w'] Hin.
      assert (k' ∈ (obj_insert o key v).*1) as Hk' by (by apply (list_elem_of_fmap_2 fst) in Hin).
      apply obj_insert_keys in Hk' as [->|Hk'].
      * split; simpl; [|congruence]. destruct (String.leb_total k key); congruence.
      * apply list_elem_of_fmap in Hk' as ([k2 w2] & -> & Hin2). rewrite Forall_forall in Hk.
        exact (Hk _ Hin2).
Qed.

Lemma obj_sorted_wf o : obj_sorted o -> obj_wf o.
Proof.
  induction 1 as [|[k v] o Ho IH Hk]; [by constructor|].
  constructor; [|done]. intros ([k' v'] & E & Hin)%list_elem_of_fmap. simpl in E. subst.
  rewrite Forall_forall in Hk. by destruct (Hk _ Hin).
Qed.

(** [for (k, v) in extra { o.insert(k, v) }]. *)
Lemma obj_get_insert_all o (extra : JsonObject) key :
  obj_wf extra ->
  obj_get (foldl (fun o '(k, v) => obj_insert o k v) o extra) key =
  match obj_get extra key with Some v => Some v | None => obj_get o key end.
Proof.
  unfold obj_wf. revert o. induction extra as [|[k v] extra IH]; intros o; simpl; [done|].
  intros [Hk He]%NoDup_cons. rewrite IH by done. case_decide as Hd.
  - subst. rewrite (proj2 (obj_get_None extra key)) by done. apply obj_get_insert_eq.
  - destruct (obj_get extra key); [done|]. by apply obj_get_insert_ne.
Qed.

Lemma obj_get_remove_all o names key :
  obj_get (foldl obj_remove o names) key = if bool_decide (key ∈ names) then None else obj_get o key.
Proof.
  revert o. induction names as [|n names IH]; intros o.
  { by rewrite bool_decide_eq_false_2 by apply not_elem_of_nil. }
  cbn [foldl]. rewrite IH. destruct (decide (n = key)) as [->|Hne].
  - rewrite obj_get_remove_eq, (bool_decide_eq_true_2 (key ∈ key :: names)) by left.
    by case_bool_decide.
  - rewrite obj_get_remove_ne by done.
    assert (bool_decide (key ∈ n :: names) = bool_decide (key ∈ names)) as ->; [|done].
    apply bool_decide_ext. rewrite elem_of_cons. naive_solver.
Qed.

End lemmas.
