(* ===== verification/ToolMapping.v ===== *)
(** * Tools offered to a language model

    [host/src-tauri/src/tool_mapping.rs]: names for capabilities that the providers
    accept, tool definitions from capability views, and the inputs the host binds
    itself instead of the model. *)

From S2P Require Import AtomicJson Prelude RustStd RustText Json JsonOps Types Grants Platform Broker KernelState KernelGrants.

Definition MAX_TOOL_NAME_LEN : nat := 64.
Definition HOST_INPUT_ANNOTATION : string := "x-kestral-host-input".
Definition CURRENT_CHAT_THREAD_ID : string := "current-chat-thread-id".

(** Constants of [permissions_app.rs] and [file_resources.rs]. *)
Definition PERMISSIONS_APP_ID : string := "com.ma-zierl.host.permissions".
Definition permissions_app_id : AppId := PERMISSIONS_APP_ID.
Definition LIST_ACTIVE : string := "permissions.list_active".
Definition LIST_REQUESTABLE : string := "permissions.list_requestable".
Definition PROPOSE_GRANT : string := "permissions.propose_grant".
Definition ACTIVE_PERMISSIONS_HOST_INPUT : string := "active-permissions".
Definition REQUESTABLE_PERMISSIONS_HOST_INPUT : string := "requestable-permissions".
Definition file_broker_app_id : AppId := "com.ma-zierl.host.file-broker".

(** ** Names *)

(** [char::is_ascii_alphanumeric]. *)
Definition is_ascii_alphanumeric (b : N) : bool :=
  ((48 <=? b) && (b <=? 57) || (65 <=? b) && (b <=? 90) || (97 <=? b) && (b <=? 122))%N.

Definition underscore : Ascii.ascii := Ascii.ascii_of_N 95.

Fixpoint drop_underscores (l : list Ascii.ascii) : list Ascii.ascii :=
  match l with
  | c :: l' => if decide (c = underscore) then drop_underscores l' else l
  | [] => []
  end.

(** [str::trim_matches('_')]. *)
Definition trim_underscores (l : list Ascii.ascii) : list Ascii.ascii :=
  reverse (drop_underscores (reverse (drop_underscores l))).

(** The characters one input byte contributes; the bytes of a character outside
    ASCII contribute nothing, like the character. *)
Definition sanitize_char (c : Ascii.ascii) : list Ascii.ascii :=
  let b := byte c in
  if (b =? 47)%N then [underscore; underscore]
  else if ((b =? 45) || (b =? 46) || (b =? 32))%N then [underscore]
  else if is_ascii_alphanumeric b || (b =? 95)%N then [c]
  else [].

Definition sanitize_tool_name (raw : string) : string :=
  let result := String.list_ascii_of_string raw ≫= sanitize_char in
  let trimmed := trim_underscores result in
  let capped := if (MAX_TOOL_NAME_LEN <? length trimmed)%nat
                then trim_underscores (take MAX_TOOL_NAME_LEN trimmed) else trimmed in
  match capped with
  | [] => "unknown_tool"
  | _ => String.string_of_list_ascii capped
  end.

Definition cap_ref_to_tool_name (cap_ref : CapabilityRef) : string :=
  sanitize_tool_name (cr_provider cap_ref +:+ "/" +:+ cr_capability cap_ref).

(** The [suffix]-th alternative for a taken [base]. *)
Definition suffixed_name (base : string) (suffix : N) : string :=
  let tag := "_" +:+ pretty suffix in
  let head := Nat.min (String.length base) (MAX_TOOL_NAME_LEN - String.length tag) in
  String.substring 0 head base +:+ tag.

(** The loop of [unique_tool_name]; [None] when the fuel is used up. *)
Fixpoint next_free_name (is_taken : string -> bool) (base : string) (suffix : N) (fuel : nat) :
    option string :=
  match fuel with
  | O => None
  | S fuel' =>
      let candidate := suffixed_name base suffix in
      if is_taken candidate then next_free_name is_taken base (suffix + 1) fuel' else Some candidate
  end.

Definition unique_tool_name (cap_ref : CapabilityRef) (is_taken : string -> bool) (fuel : nat) :
    option string :=
  let base := cap_ref_to_tool_name cap_ref in
  if negb (is_taken base) then Some base else next_free_name is_taken base 2 fuel.

(** ** Tool definitions *)

Record ToolFunction := { tf_name : string; tf_description : string; tf_parameters : JsonObject }.
Record ToolDefinition := { td_type : string; td_function : ToolFunction }.

(** [file_resources::constrain_tool_schema_to_grants]: the file broker's tools only
    name the resources its grants cover. *)
Definition granted_resource_ids (scope : DataScope) : list ResourceId :=
  match scope with
  | Resources resource_ids => resource_ids
  | _ => []
  end.

(** [Vec::dedup]: drop consecutive repetitions. *)
Fixpoint dedup_adjacent (l : list string) : list string :=
  match l with
  | x :: ((y :: _) as l') => if decide (x = y) then dedup_adjacent l' else x :: dedup_adjacent l'
  | _ => l
  end.

Definition constrain_tool_schema_to_grants (capability : CapabilityRef) (input_schema : JsonObject)
    (data_scopes : list DataScope) : JsonObject :=
  if negb (bool_decide (cr_provider capability = file_broker_app_id)) then input_schema
  else
    let resource_ids := dedup_adjacent (merge_sort string_le (data_scopes ≫= granted_resource_ids)) in
    obj_update input_schema "properties"
      (on_object (fun properties => obj_update properties "resource_id"
        (on_object (fun schema => obj_insert schema "enum" (VArray (VString <$> resource_ids)))))).

Definition capability_view_to_tool_def_named (view : CapabilityUseView) (name : string) :
    ToolDefinition :=
  let capability := {| cr_provider := cuv_provider_app_id view; cr_capability := cuv_capability view |} in
  {| td_type := "function";
     td_function := {|
       tf_name := name;
       tf_description := "[" +:+ cuv_provider_display_name view +:+ "] " +:+ cuv_description view;
       tf_parameters := constrain_tool_schema_to_grants capability (cuv_input_schema view)
                          (cav_data_scope <$> cuv_authorizations view) |} |}.

(** ** Inputs bound by the host *)

Record ChatToolBinding := { ctb_capability : CapabilityRef; ctb_injected_input : JsonObject }.
Record ChatTool := { ct_definition : ToolDefinition; ct_binding : ChatToolBinding }.

(** [ChatToolBinding::bind]: the host's values replace the model's. *)
Definition ChatToolBinding_bind (binding : ChatToolBinding) (arguments : JsonObject) : JsonObject :=
  foldl (fun arguments '(name, value) => obj_insert arguments name value)
    arguments (ctb_injected_input binding).

(** The properties that carry the annotation: name, source and schema. *)
Definition annotated_properties (parameters : JsonObject) : list (string * Value * Value) :=
  match obj_get parameters "properties" ≫= Value_as_object with
  | None => []
  | Some properties =>
      omap (fun '(property, schema) =>
        source ← Value_as_object schema ≫= (fun s => obj_get s HOST_INPUT_ANNOTATION);
        Some (property, source, schema)) properties
  end.

Definition is_required (parameters : JsonObject) (property : string) : bool :=
  match obj_get parameters "required" ≫= Value_as_array with
  | Some required => existsb (fun name => bool_decide (Value_as_str name = Some property)) required
  | None => false
  end.

Section chat_tool.
Context (view : CapabilityUseView) (current_chat_thread_id : option string).

Definition capability_label : string :=
  "capability " +:+ cuv_provider_app_id view +:+ "/" +:+ cuv_capability view.

Definition is_permissions_capability (names : list string) : bool :=
  bool_decide (cuv_provider_app_id view = permissions_app_id) &&
  bool_decide (cuv_capability view ∈ names).

(** A host input reserved for capabilities of the permissions app: the schema's
    constant. *)
Definition reserved_input (names : list string) (property source : string) (schema : Value) :
    outcome string (option Value) :=
  if negb (is_permissions_capability names)
  then Err (capability_label +:+ " cannot use reserved host input '" +:+ quoted source +:+ "'")
  else Some <$> ok_or (Value_get schema "const")
         (capability_label +:+ " host-bound property '" +:+ property +:+ "' must declare const").

(** The value the host supplies for one annotated property; [None] when the context it
    needs is missing. *)
Definition host_value (property : string) (source schema : Value) : outcome string (option Value) :=
  match Value_as_str source with
  | Some s =>
      if decide (s = CURRENT_CHAT_THREAD_ID) then
        if negb (bool_decide (Value_get schema "type" ≫= Value_as_str = Some "string"))
        then Err (capability_label +:+ " host-bound property '" +:+ property +:+ "' must have type string")
        else match current_chat_thread_id with
        | Some thread_id =>
            if decide (thread_id = EmptyString) then Ok None else Ok (Some (VString thread_id))
        | None => Ok None
        end
      else if decide (s = ACTIVE_PERMISSIONS_HOST_INPUT) then
        reserved_input [LIST_ACTIVE] property s schema
      else if decide (s = REQUESTABLE_PERMISSIONS_HOST_INPUT) then
        reserved_input [LIST_REQUESTABLE; PROPOSE_GRANT] property s schema
      else Err (capability_label +:+ " property '" +:+ property +:+ "' has unsupported "
                +:+ HOST_INPUT_ANNOTATION)
  | None => Err (capability_label +:+ " property '" +:+ property +:+ "' has unsupported "
                 +:+ HOST_INPUT_ANNOTATION)
  end.

(** The loop over the annotated properties. *)
Fixpoint bind_host_inputs (parameters : JsonObject) (annotated : list (string * Value * Value))
    (injected : JsonObject) : outcome string (option JsonObject) :=
  match annotated with
  | [] => Ok (Some injected)
  | (property, source, schema) :: annotated' =>
      if negb (is_required parameters property)
      then Err (capability_label +:+ " host-bound property '" +:+ property +:+ "' must be required")
      else
        value ← host_value property source schema;
        match value with
        | None => Ok None
        | Some value => bind_host_inputs parameters annotated' (obj_insert injected property value)
        end
  end.

(** Drop the annotated properties from what the model sees. *)
Definition hide_annotated (annotated : list (string * Value * Value)) (parameters : JsonObject) :
    JsonObject :=
  let names := (fun a => a.1.1) <$> annotated in
  if decide (annotated = []) then parameters
  else
    obj_update
      (obj_update parameters "properties" (on_object (fun properties => foldl obj_remove properties names)))
      "required" (on_array (List.filter (fun name =>
        negb (existsb (fun property => bool_decide (Value_as_str name = Some property)) names)))).

Definition capability_view_to_chat_tool (name : string) : outcome string (option ChatTool) :=
  let definition := capability_view_to_tool_def_named view name in
  let parameters := tf_parameters (td_function definition) in
  let annotated := annotated_properties parameters in
  injected ← bind_host_inputs parameters annotated [];
  match injected with
  | None => Ok None
  | Some injected_input =>
      Ok (Some {|
        ct_definition := {| td_type := td_type definition; td_function := {|
          tf_name := tf_name (td_function definition);
          tf_description := tf_description (td_function definition);
          tf_parameters := hide_annotated annotated parameters |} |};
        ct_binding := {|
          ctb_capability := {| cr_provider := cuv_provider_app_id view;
                               cr_capability := cuv_capability view |};
          ctb_injected_input := injected_input |} |})
  end.
End chat_tool.

(** ** Tool names and host-bound inputs

    Names fit what the providers accept and never clash, the search for a free name
    ends, and an input the host binds is out of the model's reach. *)

(** ** Characters and lengths *)

Definition valid_char (c : Ascii.ascii) : bool := is_ascii_alphanumeric (byte c) || (byte c =? 95)%N.

(** [^[a-zA-Z0-9_]{1,64}$]. *)
Record valid_tool_name (name : string) : Prop := {
  vt_chars : Forall (fun c => valid_char c = true) (chars name);
  vt_nonempty : name <> EmptyString;
  vt_length : String.length name <= MAX_TOOL_NAME_LEN;
}.

Lemma drop_underscores_suffix l : drop_underscores l `suffix_of` l.
Proof.
  induction l as [|c l IH]; simpl; [done|]. case_decide; [|done].
  etrans; [exact IH|]. by exists [c].
Qed.

Lemma trim_underscores_Forall (P : Ascii.ascii -> Prop) l :
  Forall P l -> Forall P (trim_underscores l).
Proof.
  intros Hl. unfold trim_underscores. apply Forall_reverse.
  destruct (drop_underscores_suffix (reverse (drop_underscores l))) as [k2 E2].
  assert (Forall P (drop_underscores l)) as H1.
  { destruct (drop_underscores_suffix l) as [k1 E1]. rewrite E1 in Hl.
    by apply Forall_app in Hl as [_ ?]. }
  apply Forall_reverse in H1. rewrite E2 in H1. by apply Forall_app in H1 as [_ ?].
Qed.

Lemma trim_underscores_length l : length (trim_underscores l) <= length l.
Proof.
  unfold trim_underscores. rewrite length_reverse.
  etrans; [apply suffix_length, drop_underscores_suffix|]. rewrite length_reverse.
  apply suffix_length, drop_underscores_suffix.
Qed.

Lemma sanitize_char_valid c : Forall (fun c => valid_char c = true) (sanitize_char c).
Proof.
  unfold sanitize_char. destruct (byte c =? 47)%N; [by repeat constructor|].
  destruct ((byte c =? 45) || (byte c =? 46) || (byte c =? 32))%N; [by repeat constructor|].
  destruct (is_ascii_alphanumeric (byte c) || (byte c =? 95)%N) eqn:E; by repeat constructor.
Qed.

Lemma sanitize_tool_name_valid raw : valid_tool_name (sanitize_tool_name raw).
Proof.
  unfold sanitize_tool_name. set (result := _ ≫= _).
  assert (Forall (fun c => valid_char c = true) (trim_underscores result)) as Hv.
  { apply trim_underscores_Forall. apply Forall_forall. intros c.
    unfold result. intros (x & Hc & _)%list_elem_of_bind.
    pose proof (sanitize_char_valid x) as Hx. rewrite Forall_forall in Hx. auto. }
  set (capped := if (_ <? _)%nat then _ else _).
  assert (Forall (fun c => valid_char c = true) capped /\ length capped <= MAX_TOOL_NAME_LEN) as [Hc Hl].
  { unfold capped. destruct (Nat.ltb_spec MAX_TOOL_NAME_LEN (length (trim_underscores result))).
    - split; [by apply trim_underscores_Forall, Forall_take|].
      etrans; [apply trim_underscores_length|]. rewrite length_take. lia.
    - split; [done|lia]. }
  destruct capped as [|c l] eqn:E.
  - split; [by repeat constructor | done | vm_compute; lia].
  - rewrite <- E. split; [by rewrite String.list_ascii_of_string_of_list_ascii, E| by rewrite E|].
    rewrite <- length_chars, String.list_ascii_of_string_of_list_ascii, E. exact Hl.
Qed.

(** ** Decimal suffixes *)

Definition is_digit (c : Ascii.ascii) : bool := bool_decide (is_Some (digit_value c)).

Lemma pretty_N_go_chars n s :
  Forall (fun c => is_digit c = true) (chars s) -> Forall (fun c => is_digit c = true) (chars (pretty_N_go n s)).
Proof.
  revert s. induction (N.lt_wf_0 n) as [n _ IH]; intros s Hs.
  destruct (decide (n = 0)%N) as [->|Hnz]; [by rewrite pretty_N_go_0|].
  rewrite pretty_N_go_step by lia. apply IH; [apply N.div_lt; lia|].
  constructor; [|done]. apply bool_decide_eq_true. eexists. apply digit_value_pretty.
  apply N.mod_lt. lia.
Qed.

Lemma pretty_N_go_length k n s :
  (n < 10 ^ N.of_nat k)%N -> String.length (pretty_N_go n s) <= k + String.length s.
Proof.
  revert n s. induction k as [|k IH]; intros n s Hn.
  - assert (n = 0%N) as -> by (simpl in Hn; lia). by rewrite pretty_N_go_0.
  - destruct (decide (n = 0)%N) as [->|Hnz]; [rewrite pretty_N_go_0; lia|].
    rewrite pretty_N_go_step by lia.
    etrans; [apply IH|simpl; lia].
    apply N.Div0.div_lt_upper_bound. rewrite Nat2N.inj_succ, N.pow_succ_r' in Hn. lia.
Qed.

Lemma pretty_N_digits (n : N) : Forall (fun c => is_digit c = true) (chars (pretty n)).
Proof.
  unfold pretty, pretty_N. case_decide; [by repeat constructor|]. by apply pretty_N_go_chars.
Qed.

Lemma pretty_u32_length (n : N) : (n < 2 ^ 32)%N -> String.length (pretty n) <= 10.
Proof.
  intros Hn. unfold pretty, pretty_N. case_decide; [simpl; lia|].
  etrans; [apply (pretty_N_go_length 10)|simpl; lia]. etrans; [exact Hn|]. vm_compute. done.
Qed.

Lemma digit_valid c : is_digit c = true -> valid_char c = true /\ c <> underscore.
Proof.
  unfold is_digit, digit_value, valid_char, is_ascii_alphanumeric. intros Hd%bool_decide_eq_true.
  destruct ((48 <=? byte c) && (byte c <=? 57))%N eqn:E; [|by destruct Hd].
  split; [done|]. intros ->. vm_compute in E. done.
Qed.

(** The part after the last underscore is determined by the name. *)
Lemma last_segment_inj x1 x2 d1 d2 :
  underscore ∉ d1 -> underscore ∉ d2 ->
  x1 ++ underscore :: d1 = x2 ++ underscore :: d2 -> d1 = d2.
Proof.
  intros H1 H2. revert x2. induction x1 as [|c x1 IH]; intros [|c2 x2]; simpl; intros E.
  - by simplify_eq.
  - injection E as _ ->. destruct H1. set_solver.
  - injection E as _ <-. destruct H2. set_solver.
  - injection E as _ E. by eapply IH.
Qed.

Lemma chars_suffixed base suffix :
  ∃ head, chars (suffixed_name base suffix) = head ++ underscore :: chars (pretty suffix).
Proof.
  unfold suffixed_name. eexists. rewrite !chars_app. reflexivity.
Qed.

Lemma suffixed_name_inj base i j : suffixed_name base i = suffixed_name base j -> i = j.
Proof.
  intros E. destruct (chars_suffixed base i) as [h1 E1], (chars_suffixed base j) as [h2 E2].
  rewrite E, E2 in E1.
  assert (∀ n : N, underscore ∉ chars (pretty n)) as Hno.
  { intros n Hin. pose proof (pretty_N_digits n) as Hd. rewrite Forall_forall in Hd.
    by destruct (digit_valid _ (Hd _ Hin)). }
  apply last_segment_inj in E1; [|done..].
  apply (f_equal String.string_of_list_ascii) in E1.
  rewrite !String.string_of_list_ascii_of_string in E1. symmetry. by apply (inj pretty) in E1.
Qed.

Lemma suffixed_name_valid base suffix :
  valid_tool_name base -> (suffix < 2 ^ 32)%N -> valid_tool_name (suffixed_name base suffix).
Proof.
  intros [Hc _ _] Hs. pose proof (pretty_u32_length _ Hs) as Hl. split.
  - unfold suffixed_name. rewrite !chars_app, chars_substring. apply Forall_app. split; [by apply Forall_take|].
    constructor; [done|]. eapply Forall_impl; [apply pretty_N_digits|]. intros c Hd.
    by apply digit_valid.
  - intros E. destruct (chars_suffixed base suffix) as [h Eh]. rewrite E in Eh. by destruct h.
  - unfold suffixed_name. rewrite !string_length_app, <- length_chars, chars_substring, length_take, length_chars.
    unfold MAX_TOOL_NAME_LEN. simpl. lia.
Qed.

(** ** The search ends *)

Lemma next_free_name_None is_taken base suffix fuel :
  next_free_name is_taken base suffix fuel = None ->
  ∀ i, i < fuel -> is_taken (suffixed_name base (suffix + N.of_nat i)) = true.
Proof.
  revert suffix. induction fuel as [|fuel IH]; intros suffix Hn i Hi; [lia|]. simpl in Hn.
  destruct (is_taken (suffixed_name base suffix)) eqn:E; [|done].
  destruct i as [|i]; [by rewrite N.add_0_r|].
  replace (suffix + N.of_nat (S i))%N with (suffix + 1 + N.of_nat i)%N by lia.
  by apply (IH (suffix + 1)%N); [|lia].
Qed.

Lemma next_free_name_Some is_taken base suffix fuel name :
  next_free_name is_taken base suffix fuel = Some name ->
  is_taken name = false /\ ∃ i, i < fuel /\ name = suffixed_name base (suffix + N.of_nat i).
Proof.
  revert suffix. induction fuel as [|fuel IH]; intros suffix Hn; [done|]. simpl in Hn.
  destruct (is_taken (suffixed_name base suffix)) eqn:E.
  - destruct (IH _ Hn) as (Hf & i & Hi & ->). split; [done|]. exists (S i).
    split; [lia|]. f_equal. lia.
  - injection Hn as <-. split; [done|]. exists 0. rewrite N.add_0_r. split; [lia|done].
Qed.

(** One candidate more than there are taken names is enough. *)
Lemma next_free_name_total (taken : list string) base suffix fuel :
  length taken < fuel ->
  is_Some (next_free_name (fun name => bool_decide (name ∈ taken)) base suffix fuel).
Proof.
  intros Hl. apply not_eq_None_Some. intros Hn.
  pose proof (next_free_name_None _ _ _ _ Hn) as Hall.
  set (candidates := (fun i => suffixed_name base (suffix + N.of_nat i)) <$> seq 0 fuel).
  assert (length candidates <= length taken) as Hlen.
  { apply submseteq_length, NoDup_submseteq.
    - apply NoDup_fmap_2; [|apply NoDup_seq]. intros i j E%suffixed_name_inj. lia.
    - intros x (i & -> & [_ Hi]%elem_of_seq)%list_elem_of_fmap.
      apply Hall in Hi. by apply bool_decide_eq_true in Hi. }
  unfold candidates in Hlen. rewrite length_fmap, length_seq in Hlen. lia.
Qed.

(** ** Host-bound inputs *)

Section host_inputs.
Context (view : CapabilityUseView) (thread : option string).

Lemma bind_host_inputs_Some parameters annotated injected r :
  bind_host_inputs view thread parameters annotated injected = Ok (Some r) ->
  obj_sorted injected ->
  obj_sorted r /\
  ∀ p, if bool_decide (p ∈ (fun a => a.1.1) <$> annotated)
       then is_required parameters p = true /\
            ∃ source schema v, (p, source, schema) ∈ annotated /\
              host_value view thread p source schema = Ok (Some v) /\ obj_get r p = Some v
       else obj_get r p = obj_get injected p.
Proof.
  revert injected. induction annotated as [|[[q source] schema] annotated IH];
    intros injected Hb Hs; simpl in Hb.
  { injection Hb as <-. split; [done|]. intros p.
    by rewrite bool_decide_eq_false_2 by (simpl; apply not_elem_of_nil). }
  destruct (is_required parameters q) eqn:Hq; [|done]. simpl in Hb.
  destruct (host_value view thread q source schema) as [[v|]|e|msg] eqn:Hv; try done. simpl in Hb.
  destruct (IH _ Hb (obj_insert_sorted _ q v Hs)) as [Hr Hall]. split; [done|]. intros p.
  specialize (Hall p). rewrite fmap_cons. simpl.
  case_bool_decide as Hin.
  - rewrite bool_decide_eq_true_2 by (by right). destruct Hall as (Hreq & s & sc & v' & Hm & ? & ?).
    split; [done|]. exists s, sc, v'. split; [by right|done].
  - destruct (decide (p = q)) as [->|Hne].
    + rewrite bool_decide_eq_true_2 by left. split; [done|]. exists source, schema, v.
      split; [left|]. split; [done|]. by rewrite Hall, obj_get_insert_eq.
    + rewrite bool_decide_eq_false_2 by (rewrite not_elem_of_cons; done).
      rewrite Hall. by apply obj_get_insert_ne.
Qed.

Lemma hide_annotated_properties annotated parameters p :
  p ∈ (fun a => a.1.1) <$> annotated ->
  match obj_get (hide_annotated annotated parameters) "properties" with
  | Some (VObject properties) => obj_get properties p = None
  | _ => True
  end.
Proof.
  intros Hp. unfold hide_annotated. case_decide as He; [subst; by apply elem_of_nil in Hp|].
  rewrite obj_get_update_ne, obj_get_update_eq by done.
  destruct (obj_get parameters "properties") as [[]|]; simpl; try done.
  by rewrite obj_get_remove_all, bool_decide_eq_true_2.
Qed.

Lemma hide_annotated_required annotated parameters p :
  p ∈ (fun a => a.1.1) <$> annotated -> is_required (hide_annotated annotated parameters) p = false.
Proof.
  intros Hp. unfold hide_annotated. case_decide as He; [subst; by apply elem_of_nil in Hp|].
  unfold is_required. rewrite obj_get_update_eq.
  destruct (obj_get _ "required") as [[]|]; simpl; try done.
  apply not_true_iff_false. intros (x & Hx & Hb)%existsb_exists.
  apply filter_In in Hx as [_ Hn]. apply negb_true_iff in Hn.
  assert (existsb (fun property => bool_decide (Value_as_str x = Some property))
    ((fun a : string * Value * Value => a.1.1) <$> annotated) = true) as Ht; [|congruence].
  apply existsb_exists. exists p. split; [by apply list_elem_of_In|done].
Qed.

(** The properties of the schema the model does not see. *)
Definition host_bound (name p : string) : Prop :=
  p ∈ (fun a => a.1.1) <$> annotated_properties
    (tf_parameters (td_function (capability_view_to_tool_def_named view name))).

(** The value the host supplies for a property with this annotation and schema: the
    current thread, or for a capability of the permissions app the snapshot of
    permissions it asks for, which the host has put into the schema. *)
Definition supplied (source schema v : Value) : Prop :=
  (source = VString CURRENT_CHAT_THREAD_ID /\ ∃ t, thread = Some t /\ t <> EmptyString /\ v = VString t) \/
  (cuv_provider_app_id view = permissions_app_id /\ Value_get schema "const" = Some v /\
   (source = VString ACTIVE_PERMISSIONS_HOST_INPUT /\ cuv_capability view = LIST_ACTIVE \/
    source = VString REQUESTABLE_PERMISSIONS_HOST_INPUT /\
    cuv_capability view ∈ [LIST_REQUESTABLE; PROPOSE_GRANT])).

(** A reserved value only reaches the capabilities it is reserved for. *)
Lemma host_value_Some p source schema v :
  host_value view thread p source schema = Ok (Some v) ->
  supplied source schema v.
Proof.
  unfold host_value, supplied. destruct source as [| | |s| |]; simpl; try done.
  case_decide as H1; [|case_decide as H2; [|case_decide as H3; [|done]]].
  - destruct (negb _); [done|]. destruct thread as [t|]; [|done]. case_decide; [done|].
    intros [= <-]. left. subst. eauto.
  - unfold reserved_input, is_permissions_capability. repeat case_bool_decide; simpl; try done.
    destruct (Value_get schema "const") as [c|]; [|done]. intros [= <-]. right. subst. split_and!; [done..|left; set_solver].
  - unfold reserved_input, is_permissions_capability. repeat case_bool_decide; simpl; try done.
    destruct (Value_get schema "const") as [c|]; [|done]. intros [= <-]. right. subst. split_and!; [done..|right; set_solver].
Qed.
End host_inputs.

(** ** Theorems *)

(** Naming a tool always succeeds. However many names are taken (fewer than the
    suffix counter can count), the search of [unique_tool_name] ends after at most one
    candidate per taken name, with a name that is free and that the providers accept:
    1 to 64 characters from [A-Za-z0-9_]. *)
Theorem unique_tool_name_total cap_ref (taken : list string) :
  (N.of_nat (length taken) < 2 ^ 32 - 3)%N ->
  ∃ name, unique_tool_name cap_ref (fun n => bool_decide (n ∈ taken)) (S (length taken)) = Some name /\
    (name ∉ taken) /\ valid_tool_name name.
Proof.
  intros Hl. unfold unique_tool_name. set (base := cap_ref_to_tool_name cap_ref).
  assert (valid_tool_name base) as Hb by apply sanitize_tool_name_valid.
  case_bool_decide as Hin; simpl negb; cbv iota; [|eauto].
  destruct (next_free_name_total taken base 2 (S (length taken))) as [name Hn]; [lia|].
  exists name. split; [done|].
  apply next_free_name_Some in Hn as (Hf & i & Hi & ->). apply bool_decide_eq_false in Hf.
  split; [done|]. apply suffixed_name_valid; [done|lia].
Qed.

(** C36: An input the host binds is out of the model's reach. When a capability is
    offered to the model, every property its schema marks as host-bound is missing from
    the properties and the required list the model sees, and whatever arguments the
    model sends, the invocation carries the host's value there ([supplied]): the current
    thread where the property asks for it, or, for the permissions app's own
    capabilities, the very constant of the property's schema, which holds the snapshot
    of the permissions. All other arguments pass through unchanged. *)
Theorem chat_tool_host_bound view thread name tool :
  capability_view_to_chat_tool view thread name = Ok (Some tool) ->
  (∀ p, host_bound view name p ->
     match obj_get (tf_parameters (td_function (ct_definition tool))) "properties" with
     | Some (VObject properties) => obj_get properties p = None
     | _ => True
     end /\
     is_required (tf_parameters (td_function (ct_definition tool))) p = false /\
     ∃ v, (∀ arguments, obj_get (ChatToolBinding_bind (ct_binding tool) arguments) p = Some v) /\
       ∃ source schema, (p, source, schema) ∈
           annotated_properties (tf_parameters (td_function (capability_view_to_tool_def_named view name))) /\
         supplied view thread source schema v) /\
  (∀ p arguments, ~ host_bound view name p ->
     obj_get (ChatToolBinding_bind (ct_binding tool) arguments) p = obj_get arguments p).
Proof.
  unfold capability_view_to_chat_tool, host_bound.
  set (parameters := tf_parameters _). set (annotated := annotated_properties parameters).
  destruct (bind_host_inputs view thread parameters annotated []) as [[r|]|e|msg] eqn:Hb; try done.
  intros [= <-]. simpl. destruct (bind_host_inputs_Some _ _ _ _ _ _ Hb) as [Hs Hall]; [constructor|].
  unfold ChatToolBinding_bind. simpl. split.
  - intros p Hp. split_and!; [by apply hide_annotated_properties | by apply hide_annotated_required|].
    specialize (Hall p). rewrite bool_decide_eq_true_2 in Hall by done.
    destruct Hall as (_ & source & schema & v & Hin & Hv & Hg). exists v. split.
    + intros arguments. by rewrite obj_get_insert_all, Hg by (by apply obj_sorted_wf).
    + exists source, schema. split; [done|]. by eapply host_value_Some.
  - intros p arguments Hp. specialize (Hall p). rewrite bool_decide_eq_false_2 in Hall by done.
    by rewrite obj_get_insert_all, Hall by (by apply obj_sorted_wf).
Qed.

(** Two capabilities share a tool name: the mapping is not reversible. *)
Lemma tool_names_collide :
  let a := {| cr_provider := "mcp-weather"; cr_capability := "get.forecast" |} in
  let b := {| cr_provider := "mcp.weather"; cr_capability := "get-forecast" |} in
  a <> b /\ cap_ref_to_tool_name a = cap_ref_to_tool_name b.
Proof. split; [done|]. vm_compute. reflexivity. Qed.
