(* ===== verification/RemoteAuth.v ===== *)
(** * Remote owner authentication

    [host/src-tauri/src/remote_auth.rs]: pairing codes, passkey ceremonies and owner
    sessions of the remote interface. WebAuthn, SHA-256, randomness and Serde are
    parameters; the two documents live in one directory of the file system model. *)

From S2P Require Import Prelude RustStd RustText AtomicJson.

Definition AUTH_FORMAT_VERSION : N := 1.
Definition PAIRING_FORMAT_VERSION : N := 1.
Definition MAX_CREDENTIALS : nat := 16.
Definition MAX_PENDING_CEREMONIES : nat := 32.
Definition MAX_SESSIONS : nat := 64.
Definition SESSION_COOKIE : string := "kestral_owner_session".

(** Dates are nanoseconds; [Duration::minutes] and [Duration::hours]. *)
Definition minutes (n : Z) : Z := n * 60 * 1000000000.
Definition hours (n : Z) : Z := minutes (n * 60).
Definition PAIRING_LIFETIME : Z := minutes 10.
Definition CEREMONY_LIFETIME : Z := minutes 5.
Definition SESSION_IDLE : Z := minutes 30.
Definition SESSION_ABSOLUTE : Z := hours 12.

Record AuthFailure := { af_status : N; af_message : string }.
Definition bad_request (m : string) : AuthFailure := {| af_status := 400; af_message := m |}.
Definition unauthorized (m : string) : AuthFailure := {| af_status := 401; af_message := m |}.
Definition conflict (m : string) : AuthFailure := {| af_status := 409; af_message := m |}.
Definition too_many (m : string) : AuthFailure := {| af_status := 429; af_message := m |}.
Definition internal (m : string) : AuthFailure := {| af_status := 500; af_message := m |}.

(** ** Parameters *)

(** A SHA-256 digest as its bytes. *)
Abbreviation Digest := (list N).

(** [webauthn_rs], [sha2], [rand] and the clock. *)
Class WebAuthn (W : Type) := {
  Passkey : Type;
  cred_id : Passkey -> string;
  RegistrationState : Type;
  AuthenticationState : Type;
  RegistrationCredential : Type;
  AuthenticationCredential : Type;
  AuthenticationResult : Type;
  Challenge : Type;
  start_passkey_registration : string -> option (list string) -> W ->
    (string + Challenge * RegistrationState) * W;
  finish_passkey_registration : RegistrationCredential -> RegistrationState -> string + Passkey;
  start_passkey_authentication : list Passkey -> W -> (string + Challenge * AuthenticationState) * W;
  finish_passkey_authentication : AuthenticationCredential -> AuthenticationState ->
    string + AuthenticationResult;
  user_verified : AuthenticationResult -> bool;
  (** [Some updated] with the new credential when the result is for this passkey. *)
  update_credential : AuthenticationResult -> Passkey -> option (bool * Passkey);
  sha256 : string -> Digest;
  utc_now : W -> Z * W;
  random_uuid : W -> string * W;
  random_token : W -> string * W;
}.

(** A digest has 32 bytes; updating a credential keeps its identifier. *)
Class WebAuthnLaws W `{WebAuthn W} : Prop := {
  sha256_length : ∀ s, length (sha256 s) = 32;
  update_credential_id : ∀ r c updated c',
    update_credential r c = Some (updated, c') -> cred_id c' = cred_id c;
}.

Section remote_auth.
Context {W : Type} `{WebAuthn W, Uuids}.

Record OwnerAuthDocument := {
  oa_format_version : N;
  oa_rp_id : string;
  oa_origin : string;
  oa_owner_user_id : string;
  oa_credentials : list Passkey;
}.

Record PairingDocument := {
  pd_format_version : N;
  pd_code_sha256 : Digest;
  pd_expires_at : Z;
}.

(** Serde for the two documents. *)
Record AuthCodec := {
  auth_to_vec : OwnerAuthDocument -> string + string;
  auth_from_str : string -> string + OwnerAuthDocument;
  pairing_to_vec : PairingDocument -> string + string;
  pairing_from_str : string -> string + PairingDocument;
}.

Context (codec : AuthCodec).

Record RegistrationCeremony := {
  rc_expires_at : Z;
  rc_owner_user_id : string;
  rc_state : RegistrationState;
}.
Record AuthenticationCeremony := { ac_expires_at : Z; ac_state : AuthenticationState }.
Record OwnerSession := { os_created_at : Z; os_last_seen_at : Z }.

Record RemoteOwnerAuth := {
  ra_rp_id : string;
  ra_origin : string;
  ra_auth_path : Path;
  ra_pairing_path : Path;
  ra_document : option OwnerAuthDocument;
  ra_registrations : gmap string RegistrationCeremony;
  ra_authentications : gmap string AuthenticationCeremony;
  ra_sessions : gmap Digest OwnerSession;
  ra_secure_cookie : bool;
}.

(** The service, the directory its documents are in, and the world. *)
Record AuthState := { st_auth : RemoteOwnerAuth; st_fs : FileSystem; st_world : W }.

Abbreviation auth_op := (st AuthState AuthFailure).

Definition with_auth (f : RemoteOwnerAuth -> RemoteOwnerAuth) (s : AuthState) : AuthState :=
  {| st_auth := f (st_auth s); st_fs := st_fs s; st_world := st_world s |}.

Definition set_document (d : option OwnerAuthDocument) (a : RemoteOwnerAuth) : RemoteOwnerAuth :=
  {| ra_rp_id := ra_rp_id a; ra_origin := ra_origin a; ra_auth_path := ra_auth_path a;
     ra_pairing_path := ra_pairing_path a; ra_document := d; ra_registrations := ra_registrations a;
     ra_authentications := ra_authentications a; ra_sessions := ra_sessions a;
     ra_secure_cookie := ra_secure_cookie a |}.
Definition set_registrations r (a : RemoteOwnerAuth) : RemoteOwnerAuth :=
  {| ra_rp_id := ra_rp_id a; ra_origin := ra_origin a; ra_auth_path := ra_auth_path a;
     ra_pairing_path := ra_pairing_path a; ra_document := ra_document a; ra_registrations := r;
     ra_authentications := ra_authentications a; ra_sessions := ra_sessions a;
     ra_secure_cookie := ra_secure_cookie a |}.
Definition set_authentications r (a : RemoteOwnerAuth) : RemoteOwnerAuth :=
  {| ra_rp_id := ra_rp_id a; ra_origin := ra_origin a; ra_auth_path := ra_auth_path a;
     ra_pairing_path := ra_pairing_path a; ra_document := ra_document a;
     ra_registrations := ra_registrations a; ra_authentications := r; ra_sessions := ra_sessions a;
     ra_secure_cookie := ra_secure_cookie a |}.
Definition set_sessions r (a : RemoteOwnerAuth) : RemoteOwnerAuth :=
  {| ra_rp_id := ra_rp_id a; ra_origin := ra_origin a; ra_auth_path := ra_auth_path a;
     ra_pairing_path := ra_pairing_path a; ra_document := ra_document a;
     ra_registrations := ra_registrations a; ra_authentications := ra_authentications a;
     ra_sessions := r; ra_secure_cookie := ra_secure_cookie a |}.

(** Calls on the world and on the directory. *)
Definition in_world {E A} (f : W -> A * W) : st AuthState E A := fun s =>
  let '(a, w) := f (st_world s) in
  (Ok a, {| st_auth := st_auth s; st_fs := st_fs s; st_world := w |}).

Definition in_fs {E A} (m : st FileSystem E A) : st AuthState E A := fun s =>
  let '(r, fs) := m (st_fs s) in
  (r, {| st_auth := st_auth s; st_fs := fs; st_world := st_world s |}).

(** ** Validation of the stored document *)

Fixpoint has_duplicates (seen : list string) (credentials : list Passkey) : bool :=
  match credentials with
  | [] => false
  | c :: credentials' => bool_decide (cred_id c ∈ seen) || has_duplicates (seen ++ [cred_id c]) credentials'
  end.

Definition check_credentials (document : OwnerAuthDocument) : outcome string unit :=
  if bool_decide (oa_credentials document = []) || (MAX_CREDENTIALS <? length (oa_credentials document))%nat
  then Err "remote owner authentication store has an invalid credential count"
  else if has_duplicates [] (oa_credentials document)
  then Err "remote owner authentication store contains duplicate credentials"
  else Ok tt.

Definition check_auth_version (document : OwnerAuthDocument) : outcome string unit :=
  if (oa_format_version document =? AUTH_FORMAT_VERSION)%N then Ok tt
  else Err ("unsupported remote owner authentication format version "
            +:+ pretty (oa_format_version document)).

Definition validate_document (document : OwnerAuthDocument) (rp_id origin : string) :
    outcome string unit :=
  _ ← check_auth_version document;
  if negb (bool_decide (oa_rp_id document = rp_id) && bool_decide (oa_origin document = origin))
  then Err ("remote owner passkeys are bound to origin '" +:+ oa_origin document
            +:+ "' and RP ID '" +:+ oa_rp_id document +:+ "'; configured '" +:+ origin
            +:+ "' and '" +:+ rp_id +:+ "'")
  else check_credentials document.

Definition validate_persisted_owner_auth (path : Path) : st FileSystem string unit :=
  document ← load_json_document (auth_from_str codec) path "remote owner authentication";
  match document with
  | None => mret tt
  | Some document => st_lift (_ ← check_auth_version document; check_credentials document)
  end.

(** ** Tokens *)

Definition token_hash (token : string) : Digest := sha256 token.

(** The fold of [constant_time_equal]: differences are or-ed together. *)
Definition constant_time_equal (left right : Digest) : bool :=
  (foldl (fun difference '(l, r) => N.lor difference (N.lxor l r)) 0 (zip left right) =? 0)%N.

Definition semicolon : Ascii.ascii := Ascii.ascii_of_N 59.
Definition equals_sign : Ascii.ascii := Ascii.ascii_of_N 61.

(** The session token of a [Cookie] header. *)
Fixpoint find_session_token (parts : list string) : option string :=
  match parts with
  | [] => None
  | part :: parts' =>
      match split_once equals_sign (trim part) with
      | Some (name, value) =>
          if bool_decide (name = SESSION_COOKIE) && negb (bool_decide (value = EmptyString))
          then Some value else find_session_token parts'
      | None => find_session_token parts'
      end
  end.

Definition session_token (cookie_header : option string) : option string :=
  header ← cookie_header; find_session_token (split semicolon header).

(** ** Expiry *)

Definition session_live (now : Z) (session : OwnerSession) : bool :=
  (now <? os_last_seen_at session + SESSION_IDLE)%Z && (now <? os_created_at session + SESSION_ABSOLUTE)%Z.

Definition prune (now : Z) (a : RemoteOwnerAuth) : RemoteOwnerAuth :=
  set_sessions (btree_retain (fun _ session => session_live now session) (ra_sessions a))
    (set_authentications (btree_retain (fun _ c => (now <? ac_expires_at c)%Z) (ra_authentications a))
      (set_registrations (btree_retain (fun _ c => (now <? rc_expires_at c)%Z) (ra_registrations a)) a)).

Definition pruned_now : auth_op Z :=
  now ← in_world utc_now;
  _ ← st_modify (with_auth (prune now));
  mret now.

(** The entry with the smallest [last_seen_at], in the map's own order. *)
Definition oldest_session (sessions : gmap Digest OwnerSession) : option Digest :=
  foldl (fun best '(hash, session) =>
    match best with
    | None => Some (hash, os_last_seen_at session)
    | Some (_, seen) => if (os_last_seen_at session <? seen)%Z
                        then Some (hash, os_last_seen_at session) else best
    end) None (map_to_list sessions) ≫= fun best => Some best.1.

Definition issue_session (now : Z) : auth_op string :=
  _ ← st_modify (with_auth (prune now));
  _ ← st_modify (with_auth (fun a =>
        if (MAX_SESSIONS <=? size (ra_sessions a))%nat
        then match oldest_session (ra_sessions a) with
             | Some oldest => set_sessions (delete oldest (ra_sessions a)) a
             | None => a
             end
        else a));
  token ← in_world random_token;
  _ ← st_modify (with_auth (fun a =>
        set_sessions (<[token_hash token := {| os_created_at := now; os_last_seen_at := now |}]>
                        (ra_sessions a)) a));
  mret token.

(** ** Documents on disk *)

Definition persist_document (document : OwnerAuthDocument) : st AuthState AtomicJsonError unit := fun s =>
  in_fs (persist_json_document (auth_to_vec codec) (ra_auth_path (st_auth s)) document
    "remote owner authentication store" StandardAtomicFileWriter) s.

(** Persist a candidate and make it current: kept in memory also when its durability
    is unknown, which is still reported as an error. *)
Definition commit_document (candidate : OwnerAuthDocument) : auth_op unit := fun s =>
  match persist_document candidate s with
  | (Ok _, s') => (Ok tt, with_auth (set_document (Some candidate)) s')
  | (Err error, s') =>
      if is_indeterminate error
      then (Err (internal (into_message error)), with_auth (set_document (Some candidate)) s')
      else (Err (internal (into_message error)), s')
  | (Panic msg, s') => (Panic msg, s')
  end.

Definition invalid_pairing : AuthFailure := unauthorized "pairing code is invalid or expired".

(** [fs::remove_file(path)] on the pairing document, its result ignored. *)
Definition remove_ignoring (path : Path) : st AuthState AuthFailure unit := fun s =>
  let '(_, fs) := fs_remove_file (p_file_name path) (st_fs s) in
  (Ok tt, {| st_auth := st_auth s; st_fs := fs; st_world := st_world s |}).

Definition consume_pairing_code (supplied_code : string) (now : Z) : auth_op unit := fun s =>
  let path := ra_pairing_path (st_auth s) in
  (if (256 <? String.length supplied_code)%nat then st_fail invalid_pairing
   else
     document ← st_map_err internal (in_fs (load_json_document (pairing_from_str codec) path
                  "remote owner pairing code"));
     document ← st_lift (ok_or document invalid_pairing);
     if negb (pd_format_version document =? PAIRING_FORMAT_VERSION)%N
        || (pd_expires_at document <=? now)%Z
        || negb (constant_time_equal (pd_code_sha256 document) (token_hash supplied_code))
     then
       _ ← (if (pd_expires_at document <=? now)%Z then remove_ignoring path else mret tt);
       st_fail invalid_pairing
     else
       st_map_err (fun e => internal ("consume remote owner pairing code failed: " +:+ io_message e))
         (in_fs (fs_remove_file (p_file_name path)))) s.

Definition create_pairing_code_at (path : Path) (now : Z) : st AuthState string string :=
  code ← in_world random_token;
  let document := {| pd_format_version := PAIRING_FORMAT_VERSION; pd_code_sha256 := token_hash code;
                     pd_expires_at := now + PAIRING_LIFETIME |} in
  _ ← st_map_err into_message
        (in_fs (persist_json_document (pairing_to_vec codec) path document
                  "remote owner pairing code" StandardAtomicFileWriter));
  mret code.

Definition create_pairing_code (path : Path) : st AuthState string string :=
  now ← in_world utc_now; create_pairing_code_at path now.

(** ** Ceremonies *)

Definition is_paired (a : RemoteOwnerAuth) : bool :=
  match ra_document a with
  | Some document => negb (bool_decide (oa_credentials document = []))
  | None => false
  end.

Definition start_registration (pairing_code : string) : auth_op (string * Challenge) :=
  now ← pruned_now;
  a ← st_get st_auth;
  _ ← (if (MAX_PENDING_CEREMONIES <=? size (ra_registrations a))%nat
       then st_fail (too_many "too many passkey registrations are pending") else mret tt);
  _ ← (if match ra_document a with
          | Some document => (MAX_CREDENTIALS <=? length (oa_credentials document))%nat
          | None => false
          end
       then st_fail (conflict "the maximum number of owner passkeys is already registered")
       else mret tt);
  _ ← consume_pairing_code pairing_code now;
  owner_user_id ← match ra_document a with
                  | Some document => mret (oa_owner_user_id document)
                  | None => in_world random_uuid
                  end;
  started ← in_world (start_passkey_registration owner_user_id
              ((fun document => cred_id <$> oa_credentials document) <$> ra_document a));
  '(options, state) ← st_lift (map_err (fun _ => internal "could not start passkey registration")
                                 (from_result started));
  ceremony_id ← in_world random_uuid;
  _ ← st_modify (with_auth (fun a => set_registrations
        (<[ceremony_id := {| rc_expires_at := now + CEREMONY_LIFETIME;
                             rc_owner_user_id := owner_user_id; rc_state := state |}]>
           (ra_registrations a)) a));
  mret (ceremony_id, options).

(** [registrations.remove(id)]. *)
Definition take_registration (ceremony_id : string) : auth_op (option RegistrationCeremony) := fun s =>
  (Ok (ra_registrations (st_auth s) !! ceremony_id),
   with_auth (fun a => set_registrations (delete ceremony_id (ra_registrations a)) a) s).

Definition take_authentication (ceremony_id : string) : auth_op (option AuthenticationCeremony) := fun s =>
  (Ok (ra_authentications (st_auth s) !! ceremony_id),
   with_auth (fun a => set_authentications (delete ceremony_id (ra_authentications a)) a) s).

Definition finish_registration (ceremony_id : string) (credential : RegistrationCredential) :
    auth_op string :=
  now ← pruned_now;
  ceremony ← take_registration ceremony_id;
  ceremony ← st_lift (ok_or ceremony (unauthorized "registration ceremony is invalid or expired"));
  passkey ← st_lift (map_err (fun _ => unauthorized "passkey registration failed")
              (from_result (finish_passkey_registration credential (rc_state ceremony))));
  a ← st_get st_auth;
  let candidate := match ra_document a with
    | Some document => document
    | None => {| oa_format_version := AUTH_FORMAT_VERSION; oa_rp_id := ra_rp_id a;
                 oa_origin := ra_origin a; oa_owner_user_id := rc_owner_user_id ceremony;
                 oa_credentials := [] |}
    end in
  _ ← (if negb (bool_decide (oa_owner_user_id candidate = rc_owner_user_id ceremony))
       then st_fail (unauthorized "registration ceremony does not match the owner") else mret tt);
  _ ← (if existsb (fun c => bool_decide (cred_id c = cred_id passkey)) (oa_credentials candidate)
       then st_fail (conflict "passkey is already registered") else mret tt);
  _ ← (if (MAX_CREDENTIALS <=? length (oa_credentials candidate))%nat
       then st_fail (conflict "the maximum number of owner passkeys is already registered")
       else mret tt);
  _ ← commit_document {| oa_format_version := oa_format_version candidate;
        oa_rp_id := oa_rp_id candidate; oa_origin := oa_origin candidate;
        oa_owner_user_id := oa_owner_user_id candidate;
        oa_credentials := oa_credentials candidate ++ [passkey] |};
  issue_session now.

Definition start_authentication : auth_op (string * Challenge) :=
  now ← pruned_now;
  a ← st_get st_auth;
  _ ← (if (MAX_PENDING_CEREMONIES <=? size (ra_authentications a))%nat
       then st_fail (too_many "too many passkey sign-ins are pending") else mret tt);
  document ← st_lift (ok_or (document ← ra_document a;
      if bool_decide (oa_credentials document = []) then None else Some document)
      (conflict "no owner passkey is registered; create a pairing code on the host"));
  started ← in_world (start_passkey_authentication (oa_credentials document));
  '(options, state) ← st_lift (map_err (fun _ => internal "could not start passkey sign-in")
                                 (from_result started));
  ceremony_id ← in_world random_uuid;
  _ ← st_modify (with_auth (fun a => set_authentications
        (<[ceremony_id := {| ac_expires_at := now + CEREMONY_LIFETIME; ac_state := state |}]>
           (ra_authentications a)) a));
  mret (ceremony_id, options).

(** [iter_mut().find_map(|credential| credential.update_credential(&result))]. *)
Fixpoint update_matching (result : AuthenticationResult) (credentials : list Passkey) :
    option (bool * list Passkey) :=
  match credentials with
  | [] => None
  | c :: credentials' =>
      match update_credential result c with
      | Some (updated, c') => Some (updated, c' :: credentials')
      | None => '(updated, cs) ← update_matching result credentials'; Some (updated, c :: cs)
      end
  end.

Definition finish_authentication (ceremony_id : string) (credential : AuthenticationCredential) :
    auth_op string :=
  now ← pruned_now;
  ceremony ← take_authentication ceremony_id;
  ceremony ← st_lift (ok_or ceremony (unauthorized "sign-in ceremony is invalid or expired"));
  result ← st_lift (map_err (fun _ => unauthorized "passkey sign-in failed")
             (from_result (finish_passkey_authentication credential (ac_state ceremony))));
  _ ← (if negb (user_verified result)
       then st_fail (unauthorized "passkey sign-in did not verify the owner") else mret tt);
  a ← st_get st_auth;
  candidate ← st_lift (ok_or (ra_document a) (unauthorized "owner passkey is not registered"));
  '(updated, credentials) ← st_lift (ok_or (update_matching result (oa_credentials candidate))
                              (unauthorized "owner passkey is not registered"));
  _ ← (if (updated : bool)
       then commit_document {| oa_format_version := oa_format_version candidate;
              oa_rp_id := oa_rp_id candidate; oa_origin := oa_origin candidate;
              oa_owner_user_id := oa_owner_user_id candidate; oa_credentials := credentials |}
       else mret tt);
  issue_session now.

(** ** Sessions *)

Definition authenticate_session_until (token : string) (now : Z) : auth_op (option Z) := fun s =>
  let a := prune now (st_auth s) in
  match ra_sessions a !! token_hash token with
  | None => (Ok None, with_auth (fun _ => a) s)
  | Some session =>
      (Ok (Some (os_created_at session + SESSION_ABSOLUTE)%Z),
       with_auth (fun _ => set_sessions
         (<[token_hash token := {| os_created_at := os_created_at session; os_last_seen_at := now |}]>
            (ra_sessions a)) a) s)
  end.

Definition authenticate_cookie_until (cookie_header : option string) : auth_op (option Z) :=
  match session_token cookie_header with
  | None => mret None
  | Some token => now ← in_world utc_now; authenticate_session_until token now
  end.

Definition authenticate_cookie (cookie_header : option string) : auth_op bool :=
  until ← authenticate_cookie_until cookie_header;
  mret (bool_decide (is_Some until)).

Definition logout_cookie (cookie_header : option string) : auth_op unit :=
  match session_token cookie_header with
  | None => mret tt
  | Some token => st_modify (with_auth (fun a =>
      set_sessions (delete (token_hash token) (ra_sessions a)) a))
  end.

Definition session_cookie (a : RemoteOwnerAuth) (token : string) : string :=
  SESSION_COOKIE +:+ "=" +:+ token +:+ "; Path=/api; HttpOnly; SameSite=Strict; Max-Age="
  +:+ pretty (Z.to_N (SESSION_ABSOLUTE / 1000000000)) +:+ (if ra_secure_cookie a then "; Secure" else "").

Definition clear_session_cookie (a : RemoteOwnerAuth) : string :=
  SESSION_COOKIE +:+ "=; Path=/api; HttpOnly; SameSite=Strict; Max-Age=0"
  +:+ (if ra_secure_cookie a then "; Secure" else "").
End remote_auth.
