(* ===== verification/RemoteAuthFacts.v ===== *)
(** * Remote owner authentication: bounds, expiry and single use *)

From S2P Require Import Prelude RustStd RustText AtomicJson RemoteAuth.

Section facts.
Context {W : Type} `{WebAuthn W, !WebAuthnLaws W, Uuids} (codec : AuthCodec).
Implicit Types (a : RemoteOwnerAuth) (s : AuthState).

(** ** Digests *)

Lemma foldl_lor_zero (l : list (N * N)) acc :
  foldl (fun difference '(x, y) => N.lor difference (N.lxor x y)) acc l = 0%N <->
  acc = 0%N /\ Forall (fun p => p.1 = p.2) l.
Proof.
  revert acc. induction l as [|[x y] l IH]; intros acc; simpl.
  - split; [intros ->; by split | by intros [-> _]].
  - rewrite IH, Forall_cons, N.lor_eq_0_iff, N.lxor_eq_0_iff. simpl. tauto.
Qed.

(** The comparison without early exit is equality of digests. *)
Lemma constant_time_equal_spec (x y : Digest) :
  length x = length y -> constant_time_equal x y = true <-> x = y.
Proof.
  intros Hl. unfold constant_time_equal. rewrite N.eqb_eq, foldl_lor_zero. revert y Hl.
  induction x as [|b x IH]; intros [|c y] Hl; simpl in Hl; try done.
  simpl. rewrite Forall_cons. simpl. injection Hl as Hl. specialize (IH y Hl). split.
  - intros (_ & -> & Hf). f_equal. by apply IH.
  - intros [= -> ->]. split; [done|]. split; [done|]. by apply IH.
Qed.

(** ** The invariant *)

Record document_ok (d : OwnerAuthDocument) : Prop := {
  dok_nonempty : oa_credentials d <> [];
  dok_bound : length (oa_credentials d) <= MAX_CREDENTIALS;
  dok_distinct : NoDup (cred_id <$> oa_credentials d);
}.

Record auth_ok a : Prop := {
  aok_registrations : size (ra_registrations a) <= MAX_PENDING_CEREMONIES;
  aok_authentications : size (ra_authentications a) <= MAX_PENDING_CEREMONIES;
  aok_sessions : size (ra_sessions a) <= MAX_SESSIONS;
  aok_document : ∀ d, ra_document a = Some d -> document_ok d;
}.

Definition state_ok s : Prop := auth_ok (st_auth s).

Lemma btree_retain_size {K A} `{Countable K} (p : K -> A -> bool) (m : gmap K A) :
  size (btree_retain p m) <= size m.
Proof. apply map_subseteq_size, map_filter_subseteq. Qed.

Lemma prune_ok now a : auth_ok a -> auth_ok (prune now a).
Proof.
  intros []. split; simpl; [..|done]; (etrans; [apply btree_retain_size|done]).
Qed.

Lemma size_insert_le {K A} `{Countable K} (m : gmap K A) k v : size (<[k:=v]> m) <= S (size m).
Proof. rewrite map_size_insert. destruct (m !! k); simpl; lia. Qed.

Lemma size_delete_le {K A} `{Countable K} (m : gmap K A) k : size (delete k m) <= size m.
Proof. apply map_subseteq_size, delete_subseteq. Qed.

(** ** The evicted session *)

(** The smallest key seen so far is one of those seen. *)
Lemma oldest_fold (l : list (Digest * OwnerSession)) best hash seen :
  foldl (fun best '(hash, session) =>
    match best with
    | None => Some (hash, os_last_seen_at session)
    | Some (_, seen) => if (os_last_seen_at session <? seen)%Z
                        then Some (hash, os_last_seen_at session) else best
    end) best l = Some (hash, seen) ->
  best = Some (hash, seen) \/ ∃ session, (hash, session) ∈ l /\ os_last_seen_at session = seen.
Proof.
  revert best. induction l as [|[h session] l IH]; intros best; simpl; [auto|]. intros Hf.
  destruct (IH _ Hf) as [Hb|(session' & Hin & Hs)].
  - destruct best as [[h' s']|].
    + destruct (_ <? s')%Z; [|auto]. simplify_eq. right. exists session. split; [left|done].
    + simplify_eq. right. exists session. split; [left|done].
  - right. exists session'. split; [by right|done].
Qed.

Lemma oldest_fold_is_Some (l : list (Digest * OwnerSession)) best :
  is_Some best \/ l <> [] ->
  is_Some (foldl (fun best '(hash, session) =>
    match best with
    | None => Some (hash, os_last_seen_at session)
    | Some (_, seen) => if (os_last_seen_at session <? seen)%Z
                        then Some (hash, os_last_seen_at session) else best
    end) best l).
Proof.
  revert best. induction l as [|[h session] l IH]; intros best Hb; simpl.
  - by destruct Hb.
  - apply IH. left. destruct best as [[h' s']|]; [|eauto]. destruct (_ <? s')%Z; eauto.
Qed.

Lemma oldest_session_elem (m : gmap Digest OwnerSession) :
  m <> ∅ -> ∃ hash, oldest_session m = Some hash /\ is_Some (m !! hash).
Proof.
  intros Hm. unfold oldest_session.
  destruct (oldest_fold_is_Some (map_to_list m) None) as [[hash seen] Hf].
  { right. by rewrite map_to_list_empty_iff. }
  exists hash. rewrite Hf. split; [done|].
  destruct (oldest_fold _ _ _ _ Hf) as [?|(session & Hin & _)]; [done|].
  apply elem_of_map_to_list in Hin. eauto.
Qed.

Lemma issue_session_preserves now : preserves state_ok (issue_session now).
Proof.
  intros s Hs. unfold issue_session, mbind, st_bind, st_modify, in_world, with_auth, state_ok.
  cbn [st_auth st_fs st_world].
  destruct (random_token (st_world s)) as [token w]. cbn [st_auth st_fs st_world snd mret st_ret].
  pose proof (prune_ok now _ Hs) as Hp. set (p := prune now (st_auth s)) in *.
  clearbody p. destruct (Nat.leb_spec MAX_SESSIONS (size (ra_sessions p))) as [Hge|Hlt].
  - assert (ra_sessions p <> ∅) as Hne.
    { intros E. rewrite E, map_size_empty in Hge. unfold MAX_SESSIONS in Hge. lia. }
    destruct (oldest_session_elem _ Hne) as (hash & -> & Hin). destruct Hp as [? ? Hss ?].
    split; simpl; try done. etrans; [apply size_insert_le|].
    rewrite map_size_delete. destruct Hin as [x ->]. simpl. unfold MAX_SESSIONS in *. lia.
  - destruct Hp. split; simpl; try done. etrans; [apply size_insert_le|].
    unfold MAX_SESSIONS in *. lia.
Qed.

(** ** What leaves the service alone *)

Lemma in_world_frames {E A} (f : W -> A * W) : frames st_auth (in_world f : st _ E A).
Proof. intros s. unfold in_world. by destruct (f (st_world s)). Qed.

Lemma in_fs_frames {E A} (m : st FileSystem E A) : frames st_auth (in_fs m : st _ E A).
Proof. intros s. unfold in_fs. by destruct (m (st_fs s)). Qed.

Lemma map_err_frames {E F A} (f : E -> F) (m : st AuthState E A) :
  frames st_auth m -> frames st_auth (st_map_err f m).
Proof. intros Hm s. specialize (Hm s). unfold st_map_err. by destruct (m s). Qed.

Lemma remove_ignoring_frames path : frames st_auth (remove_ignoring path).
Proof. intros s. unfold remove_ignoring. by destruct (fs_remove_file _ _). Qed.

#[local] Hint Resolve in_world_frames in_fs_frames map_err_frames remove_ignoring_frames : kestral.

(** The body of [consume_pairing_code] once the path is known. *)
Lemma consume_pairing_code_frames code now : frames st_auth (consume_pairing_code codec code now).
Proof.
  intros s. unfold consume_pairing_code. generalize (ra_pairing_path (st_auth s)). intros path.
  match goal with |- st_auth (?m s).2 = _ => assert (frames st_auth m) as Hm; [st_walk | apply Hm] end.
Qed.

Lemma create_pairing_code_frames path : frames st_auth (create_pairing_code codec path).
Proof. unfold create_pairing_code, create_pairing_code_at. st_walk. Qed.

#[local] Hint Resolve consume_pairing_code_frames : kestral.

(** ** Every operation keeps the invariant *)

Lemma framed_ok {E A} (m : st AuthState E A) : frames st_auth m -> preserves state_ok m.
Proof. intros Hm. exact (frames_preserves st_auth m auth_ok Hm). Qed.

(** A step that leaves the service alone keeps what is known of it. *)
Lemma frame_bind {E A B} (m : st AuthState E A) (k : A -> st AuthState E B) s :
  frames st_auth m -> state_ok s ->
  (∀ x s', st_auth s' = st_auth s -> state_ok (k x s').2) -> state_ok ((m ≫= k) s).2.
Proof.
  intros Hm Hs Hk. apply snd_bind; [by apply (framed_ok m Hm)|].
  intros x s' Hrun. apply Hk. pose proof (Hm s) as Hf. by rewrite Hrun in Hf.
Qed.

Lemma pruned_now_preserves : preserves state_ok pruned_now.
Proof.
  unfold pruned_now. apply preserves_bind; [apply framed_ok, in_world_frames|]. intros now.
  apply preserves_bind; [|intros ?; apply preserves_ret].
  apply preserves_modify. intros s Hs. by apply prune_ok.
Qed.

Lemma take_registration_preserves id : preserves state_ok (take_registration id).
Proof. intros s []. split; simpl; try done. etrans; [apply size_delete_le|done]. Qed.

Lemma take_authentication_preserves id : preserves state_ok (take_authentication id).
Proof. intros s []. split; simpl; try done. etrans; [apply size_delete_le|done]. Qed.

Lemma commit_document_preserves d : document_ok d -> preserves state_ok (commit_document codec d).
Proof.
  intros Hd s Hs. unfold commit_document.
  assert (state_ok (persist_document codec d s).2) as Hp by apply (framed_ok _ (in_fs_frames _) s Hs).
  destruct (persist_document codec d s) as [[u|er|msg] s']; simpl in *; [|destruct (is_indeterminate er)|];
    try done; destruct Hp; (split; [done..|]); simpl; by intros ? [= <-].
Qed.

(** Reading a field and testing a guard leave the state as it is. *)
Lemma get_step {E A B} (f : AuthState -> A) (k : A -> st AuthState E B) s :
  state_ok (k (f s) s).2 -> state_ok ((st_get f ≫= k) s).2.
Proof. done. Qed.

Lemma guard_step {E B} (b : bool) (e : E) (k : unit -> st AuthState E B) s :
  state_ok s -> (b = false -> state_ok (k tt s).2) ->
  state_ok (((if b then st_fail e else mret tt) ≫= k) s).2.
Proof. intros Hs Hk. destruct b; [done|]. by apply Hk. Qed.

Lemma lift_step {E A B} (r : outcome E A) (k : A -> st AuthState E B) s :
  state_ok s -> (∀ x, r = Ok x -> state_ok (k x s).2) -> state_ok ((st_lift r ≫= k) s).2.
Proof. intros Hs Hk. destruct r; try done. by apply Hk. Qed.

(** A ceremony is added only while there is room for it. *)
Lemma start_registration_preserves code : preserves state_ok (start_registration codec code).
Proof.
  unfold start_registration. apply preserves_bind; [apply pruned_now_preserves|]. intros now s Hs.
  apply get_step, guard_step; [done|]. intros Hroom%Nat.leb_gt. apply guard_step; [done|]. intros _.
  apply frame_bind; [eauto with kestral|done|]. intros _ s1 E1.
  apply frame_bind; [destruct (ra_document (st_auth s)); eauto with kestral|unfold state_ok; by rewrite E1|].
  intros owner s2 E2. apply frame_bind; [eauto with kestral|unfold state_ok; by rewrite E2, E1|].
  intros started s3 E3. apply lift_step; [unfold state_ok; by rewrite E3, E2, E1|]. intros [options rs] _.
  apply frame_bind; [eauto with kestral|unfold state_ok; by rewrite E3, E2, E1|]. intros id s4 E4.
  rewrite E3, E2, E1 in E4. unfold state_ok in *. simpl. rewrite E4. destruct Hs.
  split; simpl; try done. etrans; [apply size_insert_le|]. lia.
Qed.

Lemma start_authentication_preserves : preserves state_ok start_authentication.
Proof.
  unfold start_authentication. apply preserves_bind; [apply pruned_now_preserves|]. intros now s Hs.
  apply get_step, guard_step; [done|]. intros Hroom%Nat.leb_gt.
  apply lift_step; [done|]. intros d _. apply frame_bind; [eauto with kestral|done|].
  intros started s1 E1. apply lift_step; [unfold state_ok; by rewrite E1|]. intros [options rs] _.
  apply frame_bind; [eauto with kestral|unfold state_ok; by rewrite E1|]. intros id s2 E2.
  rewrite E1 in E2. unfold state_ok in *. simpl. rewrite E2. destruct Hs.
  split; simpl; try done. etrans; [apply size_insert_le|]. lia.
Qed.

Lemma finish_registration_preserves id credential :
  preserves state_ok (finish_registration codec id credential).
Proof.
  unfold finish_registration. apply preserves_bind; [apply pruned_now_preserves|]. intros now.
  apply preserves_bind; [apply take_registration_preserves|]. intros ceremony.
  apply preserves_bind; [apply preserves_lift|]. intros c.
  apply preserves_bind; [apply preserves_lift|]. intros passkey s Hs. apply get_step.
  set (candidate := match ra_document (st_auth s) with Some d => d | None => _ end).
  apply guard_step; [done|]. intros _. apply guard_step; [done|]. intros Hfresh.
  apply guard_step; [done|]. intros Hroom%Nat.leb_gt.
  refine (preserves_bind _ _ _ (commit_document_preserves _ _) (fun _ => issue_session_preserves now) s Hs).
  assert (NoDup (cred_id <$> oa_credentials candidate)) as Hnd.
  { unfold candidate. destruct (ra_document (st_auth s)) as [d|] eqn:Ed; [|constructor].
    by destruct (aok_document _ Hs d Ed). }
  split; simpl.
  - by destruct (oa_credentials candidate).
  - rewrite length_app. simpl. lia.
  - rewrite fmap_app. apply NoDup_app. split; [done|]. split; [|by apply NoDup_singleton].
    intros x (c0 & -> & Hin)%list_elem_of_fmap [= Hx]%list_elem_of_singleton.
    rewrite <- not_true_iff_false in Hfresh. apply Hfresh, existsb_exists.
    exists c0. split; [by apply list_elem_of_In|]. by apply bool_decide_eq_true.
Qed.

Lemma update_matching_ids result credentials updated credentials' :
  update_matching result credentials = Some (updated, credentials') ->
  cred_id <$> credentials' = cred_id <$> credentials.
Proof.
  revert credentials'. induction credentials as [|c cs IH]; intros cs'; simpl; [done|].
  destruct (update_credential result c) as [[u c']|] eqn:E.
  - intros [= <- <-]. simpl. by rewrite (update_credential_id _ _ _ _ E).
  - destruct (update_matching result cs) as [[u cs'']|]; [|done]. simpl. intros [= <- <-].
    rewrite !fmap_cons. by rewrite (IH _ eq_refl).
Qed.

Lemma finish_authentication_preserves id credential :
  preserves state_ok (finish_authentication codec id credential).
Proof.
  unfold finish_authentication. apply preserves_bind; [apply pruned_now_preserves|]. intros now.
  apply preserves_bind; [apply take_authentication_preserves|]. intros ceremony.
  apply preserves_bind; [apply preserves_lift|]. intros c.
  apply preserves_bind; [apply preserves_lift|]. intros result s Hs. apply guard_step; [done|]. intros _.
  apply get_step, lift_step; [done|]. intros candidate Hc. apply lift_step; [done|].
  intros [updated credentials] Hu.
  destruct (ra_document (st_auth s)) as [d|] eqn:Ed; simplify_eq/=.
  destruct (update_matching result (oa_credentials candidate)) as [[u cs]|] eqn:Em; simplify_eq/=.
  apply update_matching_ids in Em.
  refine (preserves_bind _ _ _ _ (fun _ => issue_session_preserves now) s Hs).
  destruct updated; [|apply preserves_ret]. apply commit_document_preserves.
  destruct (aok_document _ Hs _ Ed) as [Hne Hb Hd].
  assert (length credentials = length (oa_credentials candidate)) as Hl.
  { apply (f_equal length) in Em. by rewrite !length_fmap in Em. }
  split; simpl; [|lia|by rewrite Em]. intros ->. destruct (oa_credentials candidate); [done|]. done.
Qed.

Lemma authenticate_session_preserves token now : preserves state_ok (authenticate_session_until token now).
Proof.
  intros s Hs. unfold authenticate_session_until. apply (prune_ok now) in Hs. unfold state_ok.
  destruct (ra_sessions (prune now (st_auth s)) !! token_hash token) as [session|] eqn:E; [|done].
  destruct Hs. split; try done. cbn [st_auth with_auth ra_sessions set_sessions snd].
  rewrite map_size_insert_Some by eauto. done.
Qed.

Lemma authenticate_cookie_until_preserves header : preserves state_ok (authenticate_cookie_until header).
Proof.
  unfold authenticate_cookie_until. destruct (session_token header) as [token|]; [|apply preserves_ret].
  apply preserves_bind; [apply framed_ok, in_world_frames|]. intros now. apply authenticate_session_preserves.
Qed.

Lemma logout_cookie_preserves header : preserves state_ok (logout_cookie header).
Proof.
  unfold logout_cookie. destruct (session_token header) as [token|]; [|apply preserves_ret].
  apply preserves_modify. intros s []. split; simpl; try done. etrans; [apply size_delete_le|done].
Qed.

(** ** Where sessions come from *)

(** Every session of [s] was one of [s0], created at the same time. *)
Definition sessions_from s0 s : Prop :=
  ∀ h x, ra_sessions (st_auth s) !! h = Some x ->
    ∃ y, ra_sessions (st_auth s0) !! h = Some y /\ os_created_at x = os_created_at y.

(** [m] creates no session. *)
Definition no_new_session {E A} (m : st AuthState E A) : Prop := ∀ s0, preserves (sessions_from s0) m.

Lemma sessions_from_refl s : sessions_from s s.
Proof. intros h x Hx. eauto. Qed.

Lemma framed_no_new {E A} (m : st AuthState E A) : frames st_auth m -> no_new_session m.
Proof. intros Hm s0 s Hs h x. rewrite Hm. apply Hs. Qed.

Lemma no_new_bind {E A B} (m : st AuthState E A) (k : A -> st AuthState E B) :
  no_new_session m -> (∀ x, no_new_session (k x)) -> no_new_session (m ≫= k).
Proof. intros Hm Hk s0. apply preserves_bind; [apply Hm|]. intros x. apply Hk. Qed.

Lemma sub_sessions_no_new {E} (f : RemoteOwnerAuth -> RemoteOwnerAuth) :
  (∀ a, ra_sessions (f a) ⊆ ra_sessions a) -> no_new_session (st_modify (with_auth f) : st _ E unit).
Proof.
  intros Hf s0. apply preserves_modify. intros s Hs h x Hx. apply Hs.
  eapply lookup_weaken; [exact Hx|apply Hf].
Qed.

Lemma prune_sessions now a : ra_sessions (prune now a) ⊆ ra_sessions a.
Proof. apply map_filter_subseteq. Qed.

Lemma pruned_now_no_new : no_new_session pruned_now.
Proof.
  apply no_new_bind; [apply framed_no_new, in_world_frames|]. intros now.
  apply no_new_bind; [apply sub_sessions_no_new, prune_sessions|].
  intros ?. apply framed_no_new, frames_ret.
Qed.

Lemma commit_document_no_new d : no_new_session (commit_document codec d).
Proof.
  intros s0 s Hs. unfold commit_document.
  pose proof (framed_no_new _ (in_fs_frames (persist_json_document (auth_to_vec codec)
    (ra_auth_path (st_auth s)) d "remote owner authentication store" StandardAtomicFileWriter)) s0 s Hs) as Hp.
  change (sessions_from s0 (persist_document codec d s).2) in Hp.
  destruct (persist_document codec d s) as [[u|er|msg] s']; simpl in *;
    [|destruct (is_indeterminate er)|]; exact Hp.
Qed.

Lemma take_registration_no_new id : no_new_session (take_registration id).
Proof. intros s0 s Hs. exact Hs. Qed.

Lemma take_authentication_no_new id : no_new_session (take_authentication id).
Proof. intros s0 s Hs. exact Hs. Qed.

Lemma lift_no_new {E A} (r : outcome E A) : no_new_session (st_lift r).
Proof. apply framed_no_new, frames_lift. Qed.

Lemma get_no_new {E A} (f : AuthState -> A) : no_new_session (st_get f : st _ E A).
Proof. apply framed_no_new, frames_get. Qed.

Lemma guard_no_new {E} (b : bool) (e : E) : no_new_session (if b then st_fail e else mret tt : st _ E unit).
Proof. destruct b; apply framed_no_new; [apply frames_fail|apply frames_ret]. Qed.

Lemma add_ceremony_no_new {E} (f : RemoteOwnerAuth -> RemoteOwnerAuth) :
  (∀ a, ra_sessions (f a) = ra_sessions a) -> no_new_session (st_modify (with_auth f) : st _ E unit).
Proof. intros Hf. apply sub_sessions_no_new. intros a. by rewrite Hf. Qed.

#[local] Hint Resolve framed_no_new pruned_now_no_new commit_document_no_new take_registration_no_new
  take_authentication_no_new lift_no_new get_no_new guard_no_new frames_ret frames_fail : kestral.

(** Walk over a method that creates no session. *)
Local Ltac no_new :=
  repeat first
    [ progress eauto with kestral
    | apply no_new_bind; [|intros ?]
    | by apply add_ceremony_no_new
    | match goal with |- no_new_session (match ?x with _ => _ end) => destruct x end ].

Lemma start_registration_no_new code : no_new_session (start_registration codec code).
Proof. unfold start_registration. no_new. Qed.

Lemma start_authentication_no_new : no_new_session start_authentication.
Proof. unfold start_authentication. no_new. Qed.

Lemma authenticate_no_new token now : no_new_session (authenticate_session_until token now).
Proof.
  intros s0 s Hs. unfold authenticate_session_until. pose proof (prune_sessions now (st_auth s)) as Hsub.
  destruct (ra_sessions (prune now (st_auth s)) !! token_hash token) as [session|] eqn:E;
    intros h x; cbn [st_auth with_auth snd ra_sessions set_sessions].
  - intros [[<- <-]|[_ Hx]]%lookup_insert_Some; simpl.
    + apply Hs. by eapply lookup_weaken.
    + apply Hs. by eapply lookup_weaken.
  - intros Hx. apply Hs. by eapply lookup_weaken.
Qed.

Lemma authenticate_cookie_until_no_new header : no_new_session (authenticate_cookie_until header).
Proof.
  unfold authenticate_cookie_until. destruct (session_token header); [|apply framed_no_new, frames_ret].
  apply no_new_bind; [apply framed_no_new, in_world_frames|]. intros now. apply authenticate_no_new.
Qed.

Lemma logout_cookie_no_new header : no_new_session (logout_cookie header).
Proof.
  unfold logout_cookie. destruct (session_token header); [|apply framed_no_new, frames_ret].
  apply sub_sessions_no_new. intros a. apply delete_subseteq.
Qed.

(** Issuing a session adds the one whose token it returns. *)
Lemma issue_session_run now s :
  ∃ token s', issue_session now s = (Ok token, s') /\
    ra_sessions (st_auth s') !! token_hash token = Some {| os_created_at := now; os_last_seen_at := now |} /\
    ra_authentications (st_auth s') ⊆ ra_authentications (st_auth s) /\
    ra_registrations (st_auth s') ⊆ ra_registrations (st_auth s) /\
    ∀ h x, ra_sessions (st_auth s') !! h = Some x ->
      h = token_hash token \/ ra_sessions (st_auth s) !! h = Some x.
Proof.
  unfold issue_session, mbind, st_bind, st_modify, in_world, with_auth, mret, st_ret.
  cbn [st_auth st_fs st_world].
  destruct (random_token (st_world s)) as [token w]. cbn [st_auth].
  pose proof (prune_sessions now (st_auth s)) as Hsub.
  assert (ra_authentications (prune now (st_auth s)) ⊆ ra_authentications (st_auth s)) as Ha
    by apply map_filter_subseteq.
  assert (ra_registrations (prune now (st_auth s)) ⊆ ra_registrations (st_auth s)) as Hr
    by apply map_filter_subseteq.
  set (p := prune now (st_auth s)) in *. clearbody p.
  match goal with |- context [if ?b then ?x else p] => set (evicted := if b then x else p) end.
  assert (ra_sessions evicted ⊆ ra_sessions p /\ ra_authentications evicted = ra_authentications p /\
          ra_registrations evicted = ra_registrations p) as (He & Hea & Her).
  { unfold evicted. destruct (_ <=? _)%nat; [|done]. destruct (oldest_session _); [|done].
    split; [apply delete_subseteq|done]. }
  clearbody evicted. do 2 eexists. split; [reflexivity|].
  cbn [ra_sessions ra_authentications ra_registrations set_sessions st_auth]. rewrite Hea, Her.
  split_and!; [by rewrite lookup_insert_eq | done | done |].
  intros h x [[<- _]|[_ Hx]]%lookup_insert_Some; [by left|]. right.
  eapply lookup_weaken; [|exact Hsub]. by eapply lookup_weaken.
Qed.

(** ** What a finished ceremony rests on *)

Definition now_of s : Z := (utc_now (st_world s)).1.

Lemma pruned_now_run s :
  ∃ s', pruned_now s = (Ok (now_of s), s') /\ st_auth s' = prune (now_of s) (st_auth s).
Proof.
  unfold pruned_now, now_of, mbind, st_bind, in_world, st_modify, mret, st_ret.
  destruct (utc_now (st_world s)) as [now w]. simpl. eauto.
Qed.

(** A passkey sign-in: the ceremony was open and unexpired, the credential satisfied
    its challenge with user verification, and it belongs to a registered passkey. *)
Definition verified_sign_in s (id : string) (credential : AuthenticationCredential) : Prop :=
  ∃ ceremony result d,
    ra_authentications (st_auth s) !! id = Some ceremony /\
    (now_of s < ac_expires_at ceremony)%Z /\
    finish_passkey_authentication credential (ac_state ceremony) = inr result /\
    user_verified result = true /\
    ra_document (st_auth s) = Some d /\
    is_Some (update_matching result (oa_credentials d)).

(** A passkey registration: the ceremony was open and unexpired, the new passkey
    satisfied its challenge, and the ceremony was for the owner. *)
Definition verified_registration s (id : string) (credential : RegistrationCredential) : Prop :=
  ∃ ceremony passkey,
    ra_registrations (st_auth s) !! id = Some ceremony /\
    (now_of s < rc_expires_at ceremony)%Z /\
    finish_passkey_registration credential (rc_state ceremony) = inr passkey /\
    (∀ d, ra_document (st_auth s) = Some d -> oa_owner_user_id d = rc_owner_user_id ceremony).

Lemma prune_authentications now a id c :
  ra_authentications (prune now a) !! id = Some c ->
  ra_authentications a !! id = Some c /\ (now < ac_expires_at c)%Z.
Proof. simpl. intros [Hl Hc]%map_lookup_filter_Some. simpl in Hc. split; [done|]. by apply Z.ltb_lt. Qed.

Lemma prune_registrations now a id c :
  ra_registrations (prune now a) !! id = Some c ->
  ra_registrations a !! id = Some c /\ (now < rc_expires_at c)%Z.
Proof. simpl. intros [Hl Hc]%map_lookup_filter_Some. simpl in Hc. split; [done|]. by apply Z.ltb_lt. Qed.

(** The outcome of a routine that may end by issuing a session: every session is an
    old one or the one whose token is returned. *)
Definition issues_at_most s0 (r : outcome AuthFailure string) s' : Prop :=
  ∀ h x, ra_sessions (st_auth s') !! h = Some x ->
    (∃ y, ra_sessions (st_auth s0) !! h = Some y /\ os_created_at x = os_created_at y) \/
    ∃ token, r = Ok token /\ h = token_hash token.

Lemma then_issue {A} s0 (m : st AuthState AuthFailure A) now s r s' :
  sessions_from s0 (m s).2 -> (m ≫= fun _ => issue_session now) s = (r, s') -> issues_at_most s0 r s'.
Proof.
  intros Hm Hrun h x Hx. rewrite st_bind_run in Hrun.
  destruct (m s) as [[u|e|msg] s1]; simpl in Hm; simplify_eq; [|left; by apply Hm..].
  destruct (issue_session_run now s1) as (token & s2 & Hi & _ & _ & _ & Hnew).
  rewrite Hi in Hrun. simplify_eq. destruct (Hnew h x Hx) as [->|Hold]; [eauto|]. left. by apply Hm.
Qed.

Lemma issues_step {A} s0 (m : st AuthState AuthFailure A) (k : A -> st AuthState AuthFailure string) s r s' :
  no_new_session m -> sessions_from s0 s ->
  (∀ x s1, m s = (Ok x, s1) -> sessions_from s0 s1 -> ∀ r1 s2, k x s1 = (r1, s2) -> issues_at_most s0 r1 s2) ->
  (m ≫= k) s = (r, s') -> issues_at_most s0 r s'.
Proof.
  intros Hm Hs Hk Hrun. rewrite st_bind_run in Hrun. specialize (Hm s0 s Hs).
  destruct (m s) as [[x|e|msg] s1] eqn:E; simpl in Hm; simplify_eq.
  - by eapply Hk.
  - intros h x Hx. left. by apply Hm.
  - intros h x Hx. left. by apply Hm.
Qed.

Lemma finish_authentication_issues id credential s r s' :
  finish_authentication codec id credential s = (r, s') -> issues_at_most s r s'.
Proof.
  intros Hrun. pose proof (sessions_from_refl s) as H0'. unfold finish_authentication in Hrun.
  do 7 (refine (issues_step _ _ _ _ _ _ _ _ _ Hrun); [eauto with kestral|assumption|]; clear Hrun;
    intros ? ? _ ? ? ? Hrun).
  refine (issues_step _ _ _ _ _ _ _ _ _ Hrun); [eauto with kestral|assumption|]. clear Hrun.
  intros [updated credentials] t _ Ht rt t' Hrun.
  eapply then_issue; [|exact Hrun].
  destruct updated; [by apply commit_document_no_new | exact Ht].
Qed.

Lemma finish_registration_issues id credential s r s' :
  finish_registration codec id credential s = (r, s') -> issues_at_most s r s'.
Proof.
  intros Hrun. pose proof (sessions_from_refl s) as H0'. unfold finish_registration in Hrun.
  do 8 (refine (issues_step _ _ _ _ _ _ _ _ _ Hrun); [eauto with kestral|assumption|]; clear Hrun;
    intros ? ? _ ? ? ? Hrun).
  eapply then_issue; [|exact Hrun]. by apply commit_document_no_new.
Qed.

Lemma auth_guard_Ok {E} (b : bool) (e : E) s u s' :
  (if b then st_fail e else mret tt : st AuthState E unit) s = (Ok u, s') -> b = false /\ s' = s.
Proof. destruct b; [done|]. by intros [= _ <-]. Qed.

Lemma from_result_Ok {E F A} (f : E -> F) (r : E + A) x :
  map_err f (from_result r) = Ok x -> r = inr x.
Proof. destruct r; simpl; naive_solver. Qed.

Lemma commit_document_ceremonies d s :
  ra_authentications (st_auth (commit_document codec d s).2) = ra_authentications (st_auth s) /\
  ra_registrations (st_auth (commit_document codec d s).2) = ra_registrations (st_auth s).
Proof.
  unfold commit_document.
  pose proof (in_fs_frames (persist_json_document (auth_to_vec codec)
    (ra_auth_path (st_auth s)) d "remote owner authentication store" StandardAtomicFileWriter) s) as Hf.
  change (st_auth (persist_document codec d s).2 = st_auth s) in Hf.
  destruct (persist_document codec d s) as [[u|er|msg] s']; simpl in *;
    [|destruct (is_indeterminate er)|]; simpl; by rewrite Hf.
Qed.

Lemma finish_authentication_verified id credential s token s' :
  finish_authentication codec id credential s = (Ok token, s') ->
  verified_sign_in s id credential /\ ra_authentications (st_auth s') !! id = None /\
  ra_sessions (st_auth s') !! token_hash token =
    Some {| os_created_at := now_of s; os_last_seen_at := now_of s |}.
Proof.
  unfold finish_authentication. destruct (pruned_now_run s) as (s1 & Hp & Ha).
  rewrite (st_bind_Ok _ _ _ _ _ Hp).
  intros (c & s2 & [= <- <-] & Hrun)%st_bind_Ok_inv.
  apply st_bind_Ok_inv in Hrun as (ceremony & s2 & [Hc%ok_or_Ok <-]%st_lift_inv & Hrun).
  apply st_bind_Ok_inv in Hrun as (result & s3 & [Hres%from_result_Ok <-]%st_lift_inv & Hrun).
  apply st_bind_Ok_inv in Hrun as (u & s4 & [Huv%negb_false_iff ->]%auth_guard_Ok & Hrun).
  apply st_bind_Ok_inv in Hrun as (a & s5 & [= <- <-] & Hrun).
  apply st_bind_Ok_inv in Hrun as (d & s6 & [Hd%ok_or_Ok <-]%st_lift_inv & Hrun).
  apply st_bind_Ok_inv in Hrun as ([updated cs] & s7 & [Hm%ok_or_Ok <-]%st_lift_inv & Hrun).
  apply st_bind_Ok_inv in Hrun as (u' & s8 & Hcommit & Hrun).
  rewrite Ha in Hc. apply prune_authentications in Hc as [Hc Hlt].
  destruct (issue_session_run (now_of s) s8) as (t & s9 & Hi & Hsess & Hauth & _).
  rewrite Hi in Hrun. simplify_eq. split; [|split; [|done]].
  - exists ceremony, result, d. simpl in Hd. rewrite Ha in Hd. simpl in Hd. eauto 10.
  - assert (ra_authentications (st_auth s8) !! id = None) as H8.
    { set (s0 := with_auth _ s1) in Hcommit.
      assert (ra_authentications (st_auth s8) = ra_authentications (st_auth s0)) as ->;
        [|unfold s0; simpl; by rewrite lookup_delete_eq].
      destruct updated; [|by injection Hcommit as _ <-].
      match type of Hcommit with commit_document _ ?doc _ = _ =>
        destruct (commit_document_ceremonies doc s0) as [E _]; by rewrite Hcommit in E end. }
    destruct (ra_authentications (st_auth s') !! id) as [x|] eqn:Ex; [|done].
    pose proof (lookup_weaken _ _ _ _ Ex Hauth). congruence.
Qed.

Lemma finish_registration_verified id credential s token s' :
  finish_registration codec id credential s = (Ok token, s') ->
  verified_registration s id credential /\ ra_registrations (st_auth s') !! id = None.
Proof.
  unfold finish_registration. destruct (pruned_now_run s) as (s1 & Hp & Ha).
  rewrite (st_bind_Ok _ _ _ _ _ Hp).
  intros (c & s2 & [= <- <-] & Hrun)%st_bind_Ok_inv.
  apply st_bind_Ok_inv in Hrun as (ceremony & s2 & [Hc%ok_or_Ok <-]%st_lift_inv & Hrun).
  apply st_bind_Ok_inv in Hrun as (passkey & s3 & [Hres%from_result_Ok <-]%st_lift_inv & Hrun).
  apply st_bind_Ok_inv in Hrun as (a & s5 & [= <- <-] & Hrun).
  set (s0 := with_auth _ s1) in Hrun.
  apply st_bind_Ok_inv in Hrun as (u & s4 & [Hown%negb_false_iff%bool_decide_eq_true ->]%auth_guard_Ok & Hrun).
  apply st_bind_Ok_inv in Hrun as (u2 & s6 & [_ ->]%auth_guard_Ok & Hrun).
  apply st_bind_Ok_inv in Hrun as (u3 & s7 & [_ ->]%auth_guard_Ok & Hrun).
  apply st_bind_Ok_inv in Hrun as (u' & s8 & Hcommit & Hrun).
  rewrite Ha in Hc. apply prune_registrations in Hc as [Hc Hlt].
  destruct (issue_session_run (now_of s) s8) as (t & s9 & Hi & _ & _ & Hreg & _).
  rewrite Hi in Hrun. simplify_eq. split.
  - exists ceremony, passkey. split_and!; [done..|]. intros d Hd.
    simpl in Hown. rewrite Ha in Hown. simpl in Hown. by rewrite Hd in Hown.
  - destruct (ra_registrations (st_auth s') !! id) as [x|] eqn:Ex; [|done].
    pose proof (lookup_weaken _ _ _ _ Ex Hreg) as Hx.
    match type of Hcommit with commit_document _ ?doc _ = _ =>
      destruct (commit_document_ceremonies doc s0) as [_ E]; rewrite Hcommit in E end.
    simpl in E. rewrite E, lookup_delete_eq in Hx. done.
Qed.

(** ** Sessions of the service *)

(** The public methods, whatever their outcome, and what happens around them: another
    process writes a pairing code, time passes, the disk fails. *)
Inductive auth_step : AuthState -> AuthState -> Prop :=
  | step_start_registration code s : auth_step s (start_registration codec code s).2
  | step_finish_registration id credential s :
      auth_step s (finish_registration codec id credential s).2
  | step_start_authentication s : auth_step s (start_authentication s).2
  | step_finish_authentication id credential s :
      auth_step s (finish_authentication codec id credential s).2
  | step_authenticate header s : auth_step s (authenticate_cookie_until header s).2
  | step_logout header s : auth_step s (logout_cookie header s).2
  | step_pairing path s : auth_step s (create_pairing_code codec path s).2
  | step_outside fs w s : auth_step s {| st_auth := st_auth s; st_fs := fs; st_world := w |}.

(** The remote interface stays within its bounds. From any state within them, no
    sequence of requests, whatever their outcomes, leads to more than 32 pending
    registrations or sign-ins, more than 64 sessions, more than 16 passkeys, a
    registered document without passkeys, or two passkeys with one identifier. *)
Theorem remote_auth_bounded s s' : rtc auth_step s s' -> auth_ok (st_auth s) -> auth_ok (st_auth s').
Proof.
  induction 1 as [|s1 s2 s3 Hstep _ IH]; [done|]. intros Hok. apply IH. change (state_ok s2).
  destruct Hstep; [apply start_registration_preserves | apply finish_registration_preserves
    | apply start_authentication_preserves | apply finish_authentication_preserves
    | apply authenticate_cookie_until_preserves | apply logout_cookie_preserves
    | apply (framed_ok _ (create_pairing_code_frames path)) | ]; done.
Qed.

(** C35: A session comes from a passkey. In one step of the service a session either
    was there before, with the same creation time, or its token was just returned by a
    finished ceremony: a sign-in whose credential verified the user against an open,
    unexpired challenge and matched a registered passkey, or a registration for the
    owner. The ceremony is closed by it. *)
Theorem session_requires_ceremony s s' h x :
  auth_step s s' -> ra_sessions (st_auth s') !! h = Some x ->
  (∃ y, ra_sessions (st_auth s) !! h = Some y /\ os_created_at x = os_created_at y) \/
  (∃ id credential token, finish_authentication codec id credential s = (Ok token, s') /\
     h = token_hash token /\ verified_sign_in s id credential /\
     ra_authentications (st_auth s') !! id = None) \/
  (∃ id credential token, finish_registration codec id credential s = (Ok token, s') /\
     h = token_hash token /\ verified_registration s id credential /\
     ra_registrations (st_auth s') !! id = None).
Proof.
  intros Hstep Hx. pose proof (sessions_from_refl s) as Hr.
  destruct Hstep as [code s|id cr s|s|id cr s|header s|header s|path s|fs w s];
    try (left; match type of Hx with context [(?m s).2] =>
           assert (no_new_session m) as Hn by first [apply start_registration_no_new
             | apply start_authentication_no_new | apply authenticate_cookie_until_no_new
             | apply logout_cookie_no_new | apply framed_no_new, create_pairing_code_frames];
           by apply (Hn s s Hr) end).
  - destruct (finish_registration codec id cr s) as [r s'] eqn:E.
    destruct (finish_registration_issues _ _ _ _ _ E h x Hx) as [?|(token & -> & ->)]; [by left|].
    right. right. pose proof (finish_registration_verified _ _ _ _ _ E) as []. by exists id, cr, token.
  - destruct (finish_authentication codec id cr s) as [r s'] eqn:E.
    destruct (finish_authentication_issues _ _ _ _ _ E h x Hx) as [?|(token & -> & ->)]; [by left|].
    right. left. pose proof (finish_authentication_verified _ _ _ _ _ E) as (? & ? & _). by exists id, cr, token.
  - left. eauto.
Qed.

(** ** Pairing codes *)

Lemma in_world_Ok {E A} (f : W -> A * W) s x s' :
  (in_world f : st _ E A) s = (Ok x, s') -> st_fs s' = st_fs s /\ st_auth s' = st_auth s.
Proof. unfold in_world. destruct (f (st_world s)). by intros [= _ <-]. Qed.

Lemma fs_remove_file_Ok name fs u fs' :
  fs_remove_file name fs = (Ok u, fs') -> fs_dir fs' !! name = None.
Proof.
  intros (faults & Hr)%io_all_Ok_inv. simpl in Hr.
  destruct (fs_dir fs !! name) eqn:E; [|done]. simplify_eq. simpl. by rewrite lookup_delete_eq.
Qed.

(** A code is accepted only against a stored, unexpired document with its digest, and
    the document is gone afterwards. *)
Lemma consume_pairing_code_Ok code now s u s' :
  consume_pairing_code codec code now s = (Ok u, s') ->
  contents (st_fs s') (p_file_name (ra_pairing_path (st_auth s))) = None /\
  ∃ raw d, contents (st_fs s) (p_file_name (ra_pairing_path (st_auth s))) = Some raw /\
    pairing_from_str codec raw = inr d /\ pd_format_version d = PAIRING_FORMAT_VERSION /\
    (now < pd_expires_at d)%Z /\ constant_time_equal (pd_code_sha256 d) (token_hash code) = true.
Proof.
  unfold consume_pairing_code. destruct (256 <? String.length code)%nat; [done|].
  intros (od & s1 & Hload & Hrun)%st_bind_Ok_inv.
  apply st_bind_Ok_inv in Hrun as (d & s2 & [->%ok_or_Ok <-]%st_lift_inv & Hrun).
  unfold st_map_err, in_fs in Hload.
  destruct (load_json_document _ _ _ (st_fs s)) as [[od|e|m] fs1] eqn:El; simplify_eq/=.
  apply load_json_document_Some in El as (raw & Hraw & Hd).
  destruct (_ || _ || _) eqn:Eb in Hrun; [apply st_bind_Ok_inv in Hrun as (? & ? & _ & ?); done|].
  apply orb_false_iff in Eb as [[Hv He]%orb_false_iff Hc]. split.
  - unfold st_map_err, in_fs in Hrun. simpl in Hrun.
    destruct (fs_remove_file _ fs1) as [[]fs2] eqn:Er; simplify_eq/=.
    apply fs_remove_file_Ok in Er. unfold contents. by rewrite Er.
  - exists raw, d. apply negb_false_iff in Hv, Hc. apply N.eqb_eq in Hv. apply Z.leb_gt in He. done.
Qed.

Lemma start_registration_pairing code s r s' :
  start_registration codec code s = (Ok r, s') ->
  contents (st_fs s') (p_file_name (ra_pairing_path (st_auth s))) = None /\
  ∃ raw d, contents (st_fs s) (p_file_name (ra_pairing_path (st_auth s))) = Some raw /\
    pairing_from_str codec raw = inr d /\ pd_format_version d = PAIRING_FORMAT_VERSION /\
    (now_of s < pd_expires_at d)%Z /\ constant_time_equal (pd_code_sha256 d) (token_hash code) = true.
Proof.
  unfold start_registration. destruct (pruned_now_run s) as (s1 & Hp & Ha).
  rewrite (st_bind_Ok _ _ _ _ _ Hp).
  assert (st_fs s1 = st_fs s) as Hfs.
  { unfold pruned_now, mbind, st_bind, in_world, st_modify, mret, st_ret in Hp.
    destruct (utc_now (st_world s)). by simplify_eq. }
  intros (a & s2 & [= <- <-] & Hrun)%st_bind_Ok_inv.
  apply st_bind_Ok_inv in Hrun as (u1 & s3 & [_ ->]%auth_guard_Ok & Hrun).
  apply st_bind_Ok_inv in Hrun as (u2 & s3 & [_ ->]%auth_guard_Ok & Hrun).
  apply st_bind_Ok_inv in Hrun as (u3 & s3 & Hc & Hrun).
  apply consume_pairing_code_Ok in Hc. rewrite Ha, Hfs in Hc. destruct Hc as [Hgone Hex].
  change (ra_pairing_path (prune (now_of s) (st_auth s))) with (ra_pairing_path (st_auth s)) in *.
  split; [|done].
  assert (st_fs s' = st_fs s3) as ->; [|done]. clear -Hrun.
  apply st_bind_Ok_inv in Hrun as (owner & s4 & Ho & Hrun).
  assert (st_fs s4 = st_fs s3) as <- by
    (destruct (ra_document (st_auth s1)); [by injection Ho as _ <- | by apply in_world_Ok in Ho as []]).
  apply st_bind_Ok_inv in Hrun as (started & s5 & [<- _]%in_world_Ok & Hrun).
  apply st_bind_Ok_inv in Hrun as ([o rs] & s6 & [_ <-]%st_lift_inv & Hrun).
  apply st_bind_Ok_inv in Hrun as (id & s7 & [<- _]%in_world_Ok & Hrun).
  apply st_bind_Ok_inv in Hrun as (u4 & s8 & [= _ <-] & [= _ <-]). done.
Qed.

(** A pairing code works once. A registration that starts consumed the stored
    code: the document held its SHA-256 and had not expired, and it is gone; and
    without a stored document no registration starts, whatever code is supplied. *)
Theorem pairing_code_single_use code s r s' :
  (∀ raw d, pairing_from_str codec raw = inr d -> length (pd_code_sha256 d) = 32) ->
  start_registration codec code s = (Ok r, s') ->
  (∃ raw d, contents (st_fs s) (p_file_name (ra_pairing_path (st_auth s))) = Some raw /\
     pairing_from_str codec raw = inr d /\ pd_code_sha256 d = sha256 code /\
     (now_of s < pd_expires_at d)%Z) /\
  contents (st_fs s') (p_file_name (ra_pairing_path (st_auth s))) = None /\
  ∀ code' s'', contents (st_fs s'') (p_file_name (ra_pairing_path (st_auth s''))) = None ->
    is_ok (start_registration codec code' s'').1 = false.
Proof.
  intros Hlen Hrun. pose proof (start_registration_pairing _ _ _ _ Hrun) as (Hgone & raw & d & Hraw & Hd & _ & Hlt & Hct).
  split_and!; [|done|].
  - exists raw, d. split_and!; try done. apply constant_time_equal_spec in Hct; [done|].
    unfold token_hash. by rewrite (Hlen _ _ Hd), sha256_length.
  - intros code' s2 Hnone. destruct (start_registration codec code' s2) as [[x|e|m] s3] eqn:E; try done.
    apply start_registration_pairing in E as (_ & raw' & d' & Hsome & _). congruence.
Qed.

(** Sessions end. A token is accepted exactly while its session is less than 30
    minutes idle and less than 12 hours old; acceptance renews only the idle time, the
    reported end stays 12 hours after creation; and a session that is refused has been
    removed. *)
Theorem session_expiry token now s r s' :
  authenticate_session_until token now s = (Ok r, s') ->
  match r with
  | Some until => ∃ x, ra_sessions (st_auth s) !! token_hash token = Some x /\
      until = (os_created_at x + hours 12)%Z /\ (now < until)%Z /\
      (now < os_last_seen_at x + minutes 30)%Z /\
      ra_sessions (st_auth s') !! token_hash token =
        Some {| os_created_at := os_created_at x; os_last_seen_at := now |}
  | None => ra_sessions (st_auth s') !! token_hash token = None /\
      ∀ x, ra_sessions (st_auth s) !! token_hash token = Some x ->
        (os_last_seen_at x + minutes 30 <= now \/ os_created_at x + hours 12 <= now)%Z
  end.
Proof.
  unfold authenticate_session_until.
  assert (ra_sessions (prune now (st_auth s)) !! token_hash token =
    (x ← ra_sessions (st_auth s) !! token_hash token; if session_live now x then Some x else None)) as Hp
    by exact (lookup_btree_retain (fun _ x => session_live now x) (ra_sessions (st_auth s)) (token_hash token)).
  destruct (ra_sessions (prune now (st_auth s)) !! token_hash token) as [x|] eqn:E; intros [= <- <-].
  - destruct (ra_sessions (st_auth s) !! token_hash token) as [y|]; [|done]. simpl in Hp.
    destruct (session_live now y) eqn:Hl; [|done]. simplify_eq.
    apply andb_true_iff in Hl as [Hi%Z.ltb_lt Ha%Z.ltb_lt]. exists y.
    split_and!; try done. cbn [st_auth with_auth ra_sessions set_sessions]. by rewrite lookup_insert_eq.
  - split; [done|]. intros x Hx. rewrite Hx in Hp. simpl in Hp.
    destruct (session_live now x) eqn:Hl; [done|].
    apply andb_false_iff in Hl as [Hi%Z.ltb_ge|Ha%Z.ltb_ge]; auto.
Qed.
End facts.
