(* ===== verification/Packages.v ===== *)
(** * App packages

    [host/src-tauri/src/package.rs]: the shape of a package, the rules for its
    identifier and its file paths, and the digest that an approval and a signature
    are about. Package directories are trees of [Node]s; reading them does not fail
    other than through what they contain. *)

From S2P Require Import Prelude RustStd RustText Json Types Errors Grants Manifest.

(** ** Documents *)

Definition SUPPORTED_FORMAT_VERSION : N := 1.
Definition APP_JSON : string := "app.json".
Definition SIGNATURE_JSON : string := "app.signature.json".

Inductive BackendAuthorityMode := Sandboxed | Unsandboxed.

Inductive Backend :=
  | BackendNone
  | McpStdio (authority_mode : BackendAuthorityMode) (command : string) (args : list string)
  | McpStreamableHttp (url : string)
  | Executable (authority_mode : BackendAuthorityMode) (protocol : string) (args : list string)
      (platforms : list (string * string))
  | AgentWorker (authority_mode : BackendAuthorityMode) (protocol_version : N) (entry : string).

Definition kind_label (b : Backend) : string :=
  match b with
  | BackendNone => "none"
  | McpStdio _ _ _ => "mcp-stdio"
  | McpStreamableHttp _ => "mcp-streamable-http"
  | Executable _ _ _ _ => "executable"
  | AgentWorker _ _ _ => "agent-worker"
  end.

Definition authority_mode (b : Backend) : option BackendAuthorityMode :=
  match b with
  | McpStdio mode _ _ | Executable mode _ _ _ | AgentWorker mode _ _ => Some mode
  | BackendNone | McpStreamableHttp _ => None
  end.

Record AppDataTransition := { adt_from : N; adt_to : N; adt_destructive : bool }.

Record AppDataMigration := {
  adm_protocol_version : N;
  adm_command : string;
  adm_entry : string;
  adm_args : list string;
  adm_transitions : list AppDataTransition;
}.

(** *** Host-managed data *)

Inductive ManagedDataOperation := OpGet | OpList | OpCreate | OpReplace | OpDelete | OpTransaction.
Inductive ManagedDocumentOperation :=
  | DocGet | DocList | DocCreate | DocReplace | DocUpdateMetadata | DocDelete.

#[export] Instance ManagedDataOperation_eq_dec : EqDecision ManagedDataOperation.
Proof. solve_decision. Defined.
#[export] Instance ManagedDocumentOperation_eq_dec : EqDecision ManagedDocumentOperation.
Proof. solve_decision. Defined.

Record ManagedDataIndex := {
  mdi_name : string;
  mdi_field : string;
  mdi_value_schema : JsonObject;
  mdi_unique : bool;
}.

Record ManagedDataCollectionLimits := { mcl_records : N; mcl_record_bytes : N; mcl_query_results : N }.
Record ManagedDocumentCollectionLimits := {
  mdl_documents : N; mdl_metadata_bytes : N; mdl_content_bytes : N }.
Record ManagedDataStoreLimits := {
  msl_total_bytes : N; msl_transaction_operations : N; msl_batch_operations : option N }.

Record ManagedDataCollection := {
  mdc_schema : JsonObject;
  mdc_indexes : list ManagedDataIndex;
  mdc_operations : list ManagedDataOperation;
  mdc_limits : ManagedDataCollectionLimits;
}.

Record ManagedDocumentCollection := {
  mdd_metadata_schema : JsonObject;
  mdd_operations : list ManagedDocumentOperation;
  mdd_limits : ManagedDocumentCollectionLimits;
}.

Inductive ManagedDataExportOperation := ExportGet | ExportList.
Inductive ManagedDataExportHostInput := CurrentChatThreadId.

Record ManagedDataExport := {
  mde_capability : CapabilityName;
  mde_operation : ManagedDataExportOperation;
  mde_collection : string;
  mde_index : option string;
  mde_equals_host_input : option ManagedDataExportHostInput;
}.

Inductive ManagedDataProposalTarget :=
  | TargetCollection (collection : string)
  | TargetRecord (collection : string)
  | TargetDocument (document_collection : string).

Definition target_kind (t : ManagedDataProposalTarget) : string :=
  match t with
  | TargetCollection _ => "collection"
  | TargetRecord _ => "record"
  | TargetDocument _ => "document"
  end.

Definition target_collection (t : ManagedDataProposalTarget) : string :=
  match t with TargetCollection c | TargetRecord c | TargetDocument c => c end.

Record ManagedDataProposal := {
  mdp_capability : CapabilityName;
  mdp_artifact_type : ArtifactTypeName;
  mdp_title : string;
  mdp_description : string;
  mdp_target : ManagedDataProposalTarget;
  mdp_payload_schema : JsonObject;
  mdp_max_payload_bytes : N;
}.

Inductive AppData :=
  | DataNone
  | DataVersioned (format_version : N) (migration : AppDataMigration)
  | DataHostManaged (contract_version : N) (collections : gmap string ManagedDataCollection)
      (documents : gmap string ManagedDocumentCollection) (limits : ManagedDataStoreLimits)
      (exports : list ManagedDataExport) (proposals : list ManagedDataProposal).

Definition AppData_format_version (d : AppData) : option N :=
  match d with DataVersioned v _ => Some v | _ => None end.

(** *** The document *)

Inductive KestralIconName :=
  | Activity | AppGrid | ArtifactBox | BookOpen | ChatBubble | CheckSquare | PencilRuler | SettingsIcon.

Inductive PackageIcon := IconAsset (path : string) | IconKestral (name : KestralIconName).

Record PackageSurfaceUi := { psu_entry : string; psu_csp : option string; psu_connect_src : list string }.

Record PackageSurface := {
  ps_name : SurfaceName;
  ps_kind : SurfaceKind;
  ps_title : string;
  ps_description : string;
  ps_intents : list CapabilityRef;
  ps_ui : option PackageSurfaceUi;
}.

Record PackageManifestBody := {
  pm_capabilities : list CapabilityDeclaration;
  pm_surfaces : list PackageSurface;
  pm_agents : list AgentDeclaration;
  pm_skills : list SkillDeclaration;
  pm_assistant_profiles : list AssistantProfileDeclaration;
  pm_automations : list AutomationDeclaration;
  pm_connectors : list ConnectorDeclaration;
  pm_config_declarations : list ConfigDeclaration;
  pm_artifact_types : list ArtifactTypeDeclaration;
  pm_extension_points : list ExtensionPointDeclaration;
  pm_extension_contributions : list ExtensionContribution;
  pm_grant_requests : list GrantRequest;
  pm_event_subscriptions : list EventTopic;
}.

Record ConsumerGrantRequest := { cgr_holder : AppId; cgr_request : GrantRequest }.
Record Publisher := { pb_name : string; pb_homepage : option string; pb_key_id : option string }.
Record AppThemeColor := {
  tc_name : string; tc_title : string; tc_description : string; tc_light : string; tc_dark : string }.

(** The file paths the integrity map lists, with their digests, in key order. *)
Record Integrity := { in_algorithm : string; in_assets : list (string * string) }.

Record PackageDocument := {
  pk_format_version : N;
  pk_id : string;
  pk_version : string;
  pk_display_name : string;
  pk_description : string;
  pk_publisher : option Publisher;
  pk_license : option string;
  pk_icon : option PackageIcon;
  pk_theme_colors : list AppThemeColor;
  pk_min_host_version : string;
  pk_manifest : PackageManifestBody;
  pk_consumer_grant_requests : list ConsumerGrantRequest;
  pk_backend : Backend;
  pk_data : AppData;
  pk_integrity : Integrity;
}.

(** [owned_secret_names] and [capability_names]. *)
Definition owned_secret_names (document : PackageDocument) : list string :=
  pm_connectors (pk_manifest document) ≫= cn_secret_names.

Definition capability_names (document : PackageDocument) : list CapabilityName :=
  cd_name <$> pm_capabilities (pk_manifest document).

(** ** Identifiers *)

Definition dot : Ascii.ascii := Ascii.ascii_of_N 46.
Definition slash : Ascii.ascii := Ascii.ascii_of_N 47.

(** [str::contains] for one character. *)
Definition contains_char (c : Ascii.ascii) (s : string) : bool := bool_decide (c ∈ chars s).

(** [str::starts_with]. *)
Definition starts_with (p s : string) : bool := bool_decide (is_Some (strip_prefix p s)).

(** [str::ends_with]. *)
Definition ends_with (suffix s : string) : bool := bool_decide (is_Some (strip_suffix suffix s)).

Definition RESERVED_HOST_APP_IDS : list string :=
  ["chat"; "llm-provider"; "com.ma-zierl.kestral-artifacts"; "com.ma-zierl.host.file-broker";
   "com.ma-zierl.host.permissions"].

(** [c.is_ascii_lowercase() || c.is_ascii_digit() || c == '.' || c == '-']. *)
Definition id_char (b : N) : bool :=
  ((97 <=? b) && (b <=? 122) || (48 <=? b) && (b <=? 57) || (b =? 46) || (b =? 45))%N.

Definition id_is_valid (id : string) : bool :=
  if starts_with "mcp-" id || negb (contains_char dot id) || bool_decide (id ∈ RESERVED_HOST_APP_IDS)
  then false
  else string_all id_char id && negb (starts_with "." id) && negb (ends_with "." id).

(** ** Relative paths *)

Definition unsafe_part (part : string) : bool :=
  bool_decide (part = EmptyString) || bool_decide (part = ".") || bool_decide (part = "..").

(** [parts.join("/")]. *)
Fixpoint join (parts : list string) : string :=
  match parts with
  | [] => EmptyString
  | [part] => part
  | part :: parts' => part +:+ String slash (join parts')
  end.

Definition normalize_relative (rel : string) : outcome string string :=
  let unsafe := Err ("unsafe package path '" +:+ rel +:+ "'") in
  if bool_decide (rel = EmptyString) || contains_char (Ascii.ascii_of_N 92) rel
     || contains_char (Ascii.ascii_of_N 58) rel || starts_with "/" rel
  then unsafe
  else if existsb unsafe_part (split slash rel) then unsafe
  else Ok (join (split slash rel)).

Definition is_safe_relative (rel : string) : bool := is_ok (normalize_relative rel).

(** [str::to_ascii_lowercase]. *)
Definition lower_byte (c : Ascii.ascii) : Ascii.ascii :=
  let b := byte c in
  if ((65 <=? b) && (b <=? 90))%N then Ascii.ascii_of_N (b + 32) else c.

Fixpoint to_ascii_lowercase (s : string) : string :=
  match s with EmptyString => EmptyString | String c s' => String (lower_byte c) (to_ascii_lowercase s') end.

(** The loop of [declared_paths] over the assets. *)
Fixpoint declare_assets (paths case_folded : gset string) (assets : list string) :
    outcome string (gset string) :=
  match assets with
  | [] => Ok paths
  | path :: assets' =>
      normalized ← normalize_relative path;
      if negb (bool_decide (normalized = path)) || bool_decide (normalized ∈ paths)
      then Err ("duplicate normalized package path '" +:+ path +:+ "'")
      else if bool_decide (to_ascii_lowercase normalized ∈ case_folded)
      then Err ("case-colliding package path '" +:+ path +:+ "'")
      else declare_assets ({[normalized]} ∪ paths) ({[to_ascii_lowercase normalized]} ∪ case_folded) assets'
  end.

(** The files the document refers to: icon, surface entries, backend, migration. *)
Definition referenced_files (document : PackageDocument) : list string :=
  match pk_icon document with Some (IconAsset path) => [path] | _ => [] end
  ++ omap (fun surface => psu_entry <$> ps_ui surface) (pm_surfaces (pk_manifest document))
  ++ match pk_backend document with Executable _ _ _ platforms => platforms.*2 | _ => [] end
  ++ match pk_backend document with AgentWorker _ _ entry => [entry] | _ => [] end
  ++ match pk_data document with DataVersioned _ migration => [adm_entry migration] | _ => [] end.

Definition declared_paths (document : PackageDocument) : outcome string (gset string) :=
  paths ← declare_assets {[APP_JSON]} {[APP_JSON]} ((in_assets (pk_integrity document)).*1);
  _ ← for_each (fun path =>
        if bool_decide (path ∈ paths) then Ok tt
        else Err ("referenced package file '" +:+ path +:+ "' is not declared in integrity.assets"))
      (referenced_files document);
  Ok paths.

(** ** Package directories *)

Unset Elimination Schemes.
Inductive Node :=
  | NFile (bytes : string)
  | NDir (entries : list (string * Node))
  | NSymlink
  | NSpecial.
Set Elimination Schemes.

(** [path.join(name)] as text relative to the package root. *)
Definition join_path (prefix name : string) : string :=
  if decide (prefix = EmptyString) then name else prefix +:+ String slash name.

(** [walk_package_tree]: the relative paths of the regular files, in directory order. *)
Fixpoint walk_package_tree (prefix : string) (node : Node) (files : gset string) :
    outcome string (gset string) :=
  match node with
  | NSymlink => Err ("package symlinks are unsupported: " +:+ prefix)
  | NSpecial => Err ("unsupported package file type: " +:+ prefix)
  | NFile _ =>
      normalized ← normalize_relative prefix;
      if bool_decide (normalized ∈ files)
      then Err ("duplicate normalized package path '" +:+ normalized +:+ "'")
      else Ok ({[normalized]} ∪ files)
  | NDir entries =>
      (fix go entries files := match entries with
        | [] => Ok files
        | (name, child) :: entries' =>
            files' ← walk_package_tree (join_path prefix name) child files;
            go entries' files'
        end) entries files
  end.

(** [{:?}] of a list of strings that need no escaping. *)
Fixpoint debug_items (items : list string) : string :=
  match items with
  | [] => EmptyString
  | [item] => quoted item
  | item :: items' => quoted item +:+ ", " +:+ debug_items items'
  end.
Definition debug_list (items : list string) : string := "[" +:+ debug_items items +:+ "]".

Definition validate_source_tree (root : Node) (declared : gset string) : outcome string unit :=
  actual ← walk_package_tree EmptyString root ∅;
  let actual := actual ∖ {[SIGNATURE_JSON]} in
  if decide (actual = declared) then Ok tt
  else Err ("package file declaration mismatch; extra=" +:+ debug_list (btree_elements (actual ∖ declared))
            +:+ ", missing=" +:+ debug_list (btree_elements (declared ∖ actual))).

(** ** The digest *)

(** [u64::to_le_bytes]. *)
Fixpoint le_bytes (n : nat) (v : N) : string :=
  match n with
  | O => EmptyString
  | S n' => String (Ascii.ascii_of_N (v mod 256)) (le_bytes n' (v / 256))
  end.

Definition u64_le (v : N) : string := le_bytes 8 v.

(** The bytes hashed for one file: both lengths, then path and contents. *)
Definition file_record (rel contents : string) : string :=
  u64_le (N.of_nat (String.length rel)) +:+ rel +:+ u64_le (N.of_nat (String.length contents)) +:+ contents.

(** The contents of the file at [path] below [node]. *)
Fixpoint lookup_file (parts : list string) (node : Node) : option string :=
  match parts, node with
  | [], NFile bytes => Some bytes
  | part :: parts', NDir entries =>
      child ← snd <$> List.find (fun e => bool_decide (e.1 = part)) entries;
      lookup_file parts' child
  | _, _ => None
  end.

(** Everything [package_digest] feeds to SHA-256, in path order. *)
Fixpoint digest_input (files : list (string * string)) : string :=
  match files with
  | [] => EmptyString
  | (rel, contents) :: files' => file_record rel contents +:+ digest_input files'
  end.

(** The declared files in path order with their contents; a declared path that is not
    a regular file is an error. *)
Fixpoint read_files (root : Node) (paths : list string) : outcome string (list (string * string)) :=
  match paths with
  | [] => Ok []
  | rel :: paths' =>
      contents ← ok_or (lookup_file (split slash rel) root)
                   ("package entry '" +:+ rel +:+ "' is not a regular file");
      files ← read_files root paths';
      Ok ((rel, contents) :: files)
  end.

(** [package_digest], with the document already read from [app.json]. *)
Definition package_digest (sha256_hex : string -> string) (document : PackageDocument) (root : Node) :
    outcome string string :=
  declared ← declared_paths document;
  _ ← validate_source_tree root declared;
  files ← read_files root (btree_elements declared);
  Ok ("sha256-" +:+ sha256_hex (digest_input files)).

(** ** App packages: what an approved digest pins *)

(** ** Little-endian lengths *)

Lemma le_bytes_length n v : String.length (le_bytes n v) = n.
Proof. revert v. induction n as [|n IH]; intros v; simpl; [done|]. by rewrite IH. Qed.

Lemma le_bytes_inj n v w :
  (v < 256 ^ N.of_nat n)%N -> (w < 256 ^ N.of_nat n)%N -> le_bytes n v = le_bytes n w -> v = w.
Proof.
  revert v w. induction n as [|n IH]; intros v w Hv Hw E; simpl in *; [lia|].
  injection E as Ec Er.
  assert (v mod 256 = w mod 256)%N as Em.
  { apply (f_equal Ascii.N_of_ascii) in Ec.
    rewrite !Ascii.N_ascii_embedding in Ec by (apply N.mod_lt; lia). done. }
  assert (v / 256 = w / 256)%N as Ed.
  { apply IH; [..|done]; apply N.Div0.div_lt_upper_bound; rewrite Nat2N.inj_succ, N.pow_succ_r' in *; lia. }
  rewrite (N.div_mod v 256), (N.div_mod w 256) by lia. lia.
Qed.

(** A prefix of fixed length can be cancelled. *)
Lemma app_inj_length (a b c d : string) :
  String.length a = String.length c -> a +:+ b = c +:+ d -> a = c /\ b = d.
Proof.
  revert c. induction a as [|x a IH]; intros [|y c] Hl E; simpl in Hl; try done.
  change (String x (a +:+ b) = String y (c +:+ d)) in E. injection E as -> E.
  injection Hl as Hl. destruct (IH c Hl E) as [-> ->]. done.
Qed.

Definition fits_u64 (s : string) : Prop := (N.of_nat (String.length s) < 2 ^ 64)%N.

Lemma u64_le_inj v w : (v < 2 ^ 64)%N -> (w < 2 ^ 64)%N -> u64_le v = u64_le w -> v = w.
Proof. intros Hv Hw. by apply (le_bytes_inj 8). Qed.

(** A length-prefixed text determines the text and what follows. *)
Lemma length_prefixed_inj a b r s :
  fits_u64 a -> fits_u64 b ->
  u64_le (N.of_nat (String.length a)) +:+ (a +:+ r) = u64_le (N.of_nat (String.length b)) +:+ (b +:+ s) ->
  a = b /\ r = s.
Proof.
  intros Ha Hb E. apply app_inj_length in E as [El E]; [|by unfold u64_le; rewrite !le_bytes_length].
  apply u64_le_inj in El; [|done..]. apply app_inj_length in E; [done|lia].
Qed.

(** The hashed bytes determine the files: no choice of names and contents can imitate
    another package. *)
Lemma digest_input_inj files files' :
  Forall (fun f => fits_u64 f.1 /\ fits_u64 f.2) files ->
  Forall (fun f => fits_u64 f.1 /\ fits_u64 f.2) files' ->
  digest_input files = digest_input files' -> files = files'.
Proof.
  intros Hf. revert files'. induction Hf as [|[rel c] files [Hr Hc] _ IH]; intros files' Hf' E.
  - destruct files' as [|[rel' c'] files']; [done|]. exfalso.
    apply (f_equal String.length) in E. simpl in E. unfold file_record in E.
    rewrite !string_length_app in E. unfold u64_le in E. rewrite !le_bytes_length in E. lia.
  - destruct Hf' as [|[rel' c'] files' [Hr' Hc'] Hf'].
    { exfalso. apply (f_equal String.length) in E. simpl in E. unfold file_record in E.
      rewrite !string_length_app in E. unfold u64_le in E. rewrite !le_bytes_length in E. lia. }
    cbn [digest_input] in E. unfold file_record in E. rewrite !string_app_assoc in E.
    apply length_prefixed_inj in E as [-> E]; [|done..].
    apply length_prefixed_inj in E as [-> E]; [|done..].
    f_equal. by apply IH.
Qed.

(** ** Relative paths *)

Lemma split_not_nil sep s : split sep s <> [].
Proof. destruct s as [|c s]; simpl; [done|]. case_decide; [done|]. by destruct (split sep s). Qed.

Lemma join_split s : join (split slash s) = s.
Proof.
  induction s as [|c s IH]; [done|]. simpl.
  pose proof (split_not_nil slash s) as Hne. case_decide as Hc.
  - subst. destruct (split slash s) as [|p ps] eqn:E; [done|].
    change (String slash (join (p :: ps)) = String slash s). by rewrite IH.
  - destruct (split slash s) as [|p ps] eqn:E; [done|].
    destruct ps as [|q ps]; simpl in *; [by subst|].
    change (String c (p +:+ String slash (join (q :: ps))) = String c s). by rewrite <- IH.
Qed.

(** A path that normalises is unchanged and stays below the package root: it is not
    absolute and no component is empty, [.] or [..]. *)
Lemma normalize_relative_Ok rel p :
  normalize_relative rel = Ok p ->
  p = rel /\ Forall (fun part => part <> EmptyString /\ part <> "." /\ part <> "..") (split slash rel).
Proof.
  unfold normalize_relative. destruct (_ || _ || _ || _); [done|].
  destruct (existsb unsafe_part (split slash rel)) eqn:E; [done|]. intros [= <-].
  split; [apply join_split|]. apply Forall_forall. intros part Hin.
  assert (unsafe_part part = false) as Hp.
  { destruct (unsafe_part part) eqn:Eu; [|done].
    assert (existsb unsafe_part (split slash rel) = true); [|congruence].
    apply existsb_exists. exists part. split; [by apply list_elem_of_In|done]. }
  unfold unsafe_part in Hp. rewrite !orb_false_iff, !bool_decide_eq_false in Hp. tauto.
Qed.

(** ** Identifiers *)

(** A valid identifier belongs to no bundled app and to no bridged server. *)
Lemma id_is_valid_not_reserved id :
  id_is_valid id = true -> ~ (id ∈ RESERVED_HOST_APP_IDS) /\ starts_with "mcp-" id = false.
Proof.
  unfold id_is_valid. destruct (starts_with "mcp-" id || negb (contains_char dot id) || _) eqn:E; [done|].
  rewrite !orb_false_iff, bool_decide_eq_false in E. tauto.
Qed.

(** ** What the digest pins *)

Lemma read_files_paths root paths files :
  read_files root paths = Ok files ->
  files.*1 = paths /\ ∀ rel c, (rel, c) ∈ files -> lookup_file (split slash rel) root = Some c.
Proof.
  revert files. induction paths as [|rel paths IH]; intros files Hr; simpl in Hr.
  - simplify_eq. split; [done|]. intros rel c Hin. inversion Hin.
  - inv_ok Hr. destruct (lookup_file (split slash rel) root) as [c0|] eqn:E; simplify_eq/=.
    destruct (IH _ Hok0) as [<- Hall]. split; [done|].
    intros rel' c [[= -> ->]|Hin]%elem_of_cons; [done|by apply Hall].
Qed.

(** The declared files are exactly the regular files of the tree, the signature apart. *)
Lemma package_digest_Ok sha256_hex document root digest :
  package_digest sha256_hex document root = Ok digest ->
  ∃ declared files, declared_paths document = Ok declared /\
    validate_source_tree root declared = Ok tt /\ read_files root (btree_elements declared) = Ok files /\
    digest = "sha256-" +:+ sha256_hex (digest_input files).
Proof. unfold package_digest. intros Hd. inv_ok Hd. simplify_eq. eauto 10. Qed.

(** An approved digest pins the package. When two package trees have the same
    digest, and SHA-256 does not collide on what is hashed for them, they declare the
    same files with the same contents: approval and signature are about exactly the
    bytes that are copied and run. *)
Theorem package_digest_pins_contents sha256_hex d1 root1 d2 root2 digest files1 files2 declared1 declared2 :
  package_digest sha256_hex d1 root1 = Ok digest -> package_digest sha256_hex d2 root2 = Ok digest ->
  declared_paths d1 = Ok declared1 -> declared_paths d2 = Ok declared2 ->
  read_files root1 (btree_elements declared1) = Ok files1 ->
  read_files root2 (btree_elements declared2) = Ok files2 ->
  Forall (fun f => fits_u64 f.1 /\ fits_u64 f.2) (files1 ++ files2) ->
  (sha256_hex (digest_input files1) = sha256_hex (digest_input files2) ->
     digest_input files1 = digest_input files2) ->
  declared1 = declared2 /\ files1 = files2 /\
  ∀ rel, rel ∈ declared1 ->
    lookup_file (split slash rel) root1 = lookup_file (split slash rel) root2 /\
    is_Some (lookup_file (split slash rel) root1).
Proof.
  intros (x1 & f1 & E1 & _ & R1 & ->)%package_digest_Ok (x2 & f2 & E2 & _ & R2 & Ed)%package_digest_Ok
    D1 D2 F1 F2 [H1 H2]%Forall_app Hsha.
  rewrite E1 in D1; rewrite E2 in D2; simplify_eq. rewrite R1 in F1; rewrite R2 in F2; simplify_eq.
  specialize (Hsha Ed).
  apply digest_input_inj in Hsha as ->; [|done..].
  destruct (read_files_paths _ _ _ R1) as [P1 L1], (read_files_paths _ _ _ R2) as [P2 L2].
  assert (declared1 = declared2) as <-.
  { rewrite <- (btree_elements_to_set declared1), <- (btree_elements_to_set declared2). by rewrite <- P1, <- P2. }
  split_and!; try done. intros rel Hrel. apply elem_of_btree_elements in Hrel. rewrite <- P1 in Hrel.
  apply list_elem_of_fmap in Hrel as ([rel' c] & -> & Hin).
  simpl. rewrite (L1 _ _ Hin), (L2 _ _ Hin). eauto.
Qed.
