(* ===== verification/PublisherTrust.v ===== *)
(** * Publisher trust

    [host/src-tauri/src/publisher_trust.rs]: which publisher keys the owner trusts or
    has revoked, for which apps, and what a package signature is worth. Base64,
    SHA-256, Ed25519 and Serde are parameters. *)

From S2P Require Import Prelude RustStd RustText Types AtomicJson Packages.

Definition STORE_VERSION : N := 1.

Inductive TrustScope :=
  | ScopeAppId (app_id : AppId)
  | ScopeNamespacePrefix (namespace_prefix : string).

Inductive TrustStatus := StatusTrusted | StatusRevoked.

#[export] Instance TrustScope_eq_dec : EqDecision TrustScope.
Proof. solve_decision. Defined.
#[export] Instance TrustStatus_eq_dec : EqDecision TrustStatus.
Proof. solve_decision. Defined.

Record TrustRecord := {
  tr_key_id : string;
  tr_public_key : string;
  tr_scope : TrustScope;
  tr_status : TrustStatus;
}.

Record TrustStoreDocument := { td_version : N; td_entries : list TrustRecord }.

Inductive SignatureState :=
  | Unsigned
  | ValidUnknownKey (key_id : string)
  | SigTrusted (key_id : string) (scope : TrustScope)
  | SigInvalid (reason : string)
  | SigRevoked (key_id : string) (scope : TrustScope).

Record PackageSignatureDocument := {
  sd_algorithm : string;
  sd_key_id : string;
  sd_public_key : string;
  sd_signature : string;
}.

Definition SignatureState_label (s : SignatureState) : string :=
  match s with
  | Unsigned => "unsigned"
  | ValidUnknownKey _ => "valid-unknown-key"
  | SigTrusted _ _ => "trusted"
  | SigInvalid _ => "invalid"
  | SigRevoked _ _ => "revoked"
  end.

Definition SignatureState_key_id (s : SignatureState) : option string :=
  match s with
  | Unsigned | SigInvalid _ => None
  | ValidUnknownKey key_id | SigTrusted key_id _ | SigRevoked key_id _ => Some key_id
  end.

Definition blocking_error (s : SignatureState) : option string :=
  match s with
  | SigInvalid reason => Some ("invalid package signature: " +:+ reason)
  | SigRevoked key_id _ => Some ("package signature key '" +:+ key_id +:+ "' is revoked for this package")
  | _ => None
  end.

(** ** Scopes *)

Definition scope_matches (scope : TrustScope) (app_id : string) : bool :=
  match scope with
  | ScopeAppId trusted_app_id => bool_decide (trusted_app_id = app_id)
  | ScopeNamespacePrefix namespace_prefix =>
      bool_decide (app_id = namespace_prefix) || starts_with (namespace_prefix +:+ ".") app_id
  end.

Definition validate_scope (scope : TrustScope) : outcome string unit :=
  match scope with
  | ScopeAppId value =>
      if id_is_valid value then Ok tt else Err ("invalid app id scope '" +:+ value +:+ "'")
  | ScopeNamespacePrefix namespace_prefix =>
      if id_is_valid namespace_prefix then Ok tt
      else Err ("invalid namespace prefix scope '" +:+ namespace_prefix +:+ "'")
  end.

Definition newline : string := String (Ascii.ascii_of_N 10) EmptyString.

Definition signing_bytes (package_digest app_id : string) : string :=
  "kestral-signature-v1" +:+ newline +:+ app_id +:+ newline +:+ package_digest +:+ newline.

(** ** Parameters *)

Class Signatures := {
  base64_decode : string -> string + string;
  key_sha256_hex : string -> string;
  VerifyingKey : Type;
  VerifyingKey_from_bytes : string -> string + VerifyingKey;
  ed25519_verify : VerifyingKey -> string -> string -> string + unit;
}.

(** Serde for the trust store. *)
Class TrustCodec := {
  trust_to_vec_pretty : TrustStoreDocument -> string + string;
  trust_from_str : string -> string + TrustStoreDocument;
}.

(** A document that was written reads back. *)
Class TrustCodecLaws `{TrustCodec} : Prop := {
  trust_codec_roundtrip : ∀ document bytes,
    trust_to_vec_pretty document = inr bytes ->
    utf8_valid bytes = true /\ trust_from_str bytes = inr document;
}.

(** ** The store *)

(** [PublisherTrustStore] and the directory its file is in. *)
Record PublisherTrustStore := {
  pt_path : option Path;
  pt_document : TrustStoreDocument;
  pt_fs : FileSystem;
}.

Definition with_document (document : TrustStoreDocument) (s : PublisherTrustStore) : PublisherTrustStore :=
  {| pt_path := pt_path s; pt_document := document; pt_fs := pt_fs s |}.

Definition empty_document : TrustStoreDocument := {| td_version := STORE_VERSION; td_entries := [] |}.

Section store.
Context `{Uuids, Signatures, TrustCodec}.

Abbreviation trust_op := (st PublisherTrustStore string).

(** [PublisherTrustStore::new]. *)
Definition trust_store_new (path : Path) (fs : FileSystem) : outcome string PublisherTrustStore :=
  let '(loaded, fs') := load_json_document trust_from_str path "publisher trust store" fs in
  loaded ← loaded;
  document ← match loaded with
             | None => Ok empty_document
             | Some document =>
                 if negb (td_version document =? STORE_VERSION)%N
                 then Err ("unsupported publisher trust store version " +:+ pretty (td_version document))
                 else Ok document
             end;
  Ok {| pt_path := Some path; pt_document := document; pt_fs := fs' |}.

Definition in_memory (fs : FileSystem) : PublisherTrustStore :=
  {| pt_path := None; pt_document := empty_document; pt_fs := fs |}.

Definition decode_public_key (value : string) : outcome string string :=
  bytes ← map_err (String.append "invalid base64 public key: ") (from_result (base64_decode value));
  if negb (String.length bytes =? 32)
  then Err ("public key must decode to 32 bytes, got " +:+ pretty (N.of_nat (String.length bytes)))
  else Ok bytes.

Definition decode_signature (value : string) : outcome string string :=
  bytes ← map_err (String.append "invalid base64 signature: ") (from_result (base64_decode value));
  if negb (String.length bytes =? 64)
  then Err ("signature must decode to 64 bytes, got " +:+ pretty (N.of_nat (String.length bytes)))
  else Ok bytes.

Definition fingerprint_key_id (public_key : string) : string :=
  "ed25519:" +:+ key_sha256_hex public_key.

Definition matching_entry (entries : list TrustRecord) (key_id app_id : string) (status : TrustStatus) :
    option TrustRecord :=
  List.find (fun entry => bool_decide (tr_key_id entry = key_id)
                          && bool_decide (tr_status entry = status)
                          && scope_matches (tr_scope entry) app_id) entries.

Definition resolve_signature (document : TrustStoreDocument) (key_id app_id : string) :
    option SignatureState :=
  match matching_entry (td_entries document) key_id app_id StatusRevoked with
  | Some entry => Some (SigRevoked (tr_key_id entry) (tr_scope entry))
  | None =>
      (fun entry => SigTrusted (tr_key_id entry) (tr_scope entry))
        <$> matching_entry (td_entries document) key_id app_id StatusTrusted
  end.

(** The two length conversions cannot fail after the decoders' checks. *)
Definition verify_signature (document : TrustStoreDocument) (package_digest : string)
    (signature_document : PackageSignatureDocument) (app_id : string) : outcome string SignatureState :=
  if negb (bool_decide (sd_algorithm signature_document = "ed25519"))
  then Err ("unsupported signature algorithm '" +:+ sd_algorithm signature_document +:+ "'")
  else
    public_key_bytes ← decode_public_key (sd_public_key signature_document);
    if negb (bool_decide (sd_key_id signature_document = fingerprint_key_id public_key_bytes))
    then Err "signature key id does not match the supplied public key"
    else
      public_key ← map_err (String.append "invalid signature public key: ")
                     (from_result (VerifyingKey_from_bytes public_key_bytes));
      signature_bytes ← decode_signature (sd_signature signature_document);
      _ ← map_err (String.append "invalid package signature: ")
            (from_result (ed25519_verify public_key (signing_bytes package_digest app_id) signature_bytes));
      Ok (default (ValidUnknownKey (sd_key_id signature_document))
            (resolve_signature document (sd_key_id signature_document) app_id)).

Definition persist : st PublisherTrustStore AtomicJsonError unit := fun s =>
  match pt_path s with
  | None => (Ok tt, s)
  | Some path =>
      let '(r, fs) := persist_json_document trust_to_vec_pretty path (pt_document s)
                        "publisher trust store" StandardAtomicFileWriter (pt_fs s) in
      (r, {| pt_path := pt_path s; pt_document := pt_document s; pt_fs := fs |})
  end.

(** Install [document] and persist it; on an error that left the old file in place
    the old document is put back. *)
Definition persist_or_restore (document : TrustStoreDocument) : trust_op unit := fun s =>
  let previous := pt_document s in
  match persist (with_document document s) with
  | (Ok _, s') => (Ok tt, s')
  | (Err error, s') =>
      if is_indeterminate error then (Err (into_message error), s')
      else (Err (into_message error), with_document previous s')
  | (Panic msg, s') => (Panic msg, s')
  end.

Definition names_entry (key_id : string) (scope : TrustScope) (entry : TrustRecord) : bool :=
  bool_decide (tr_key_id entry = key_id) && bool_decide (tr_scope entry = scope).

(** [iter_mut().find(p)] followed by an assignment: the entries with the first match
    updated, or [None]. *)
Fixpoint update_first (p : TrustRecord -> bool) (f : TrustRecord -> TrustRecord)
    (entries : list TrustRecord) : option (list TrustRecord) :=
  match entries with
  | [] => None
  | entry :: entries' =>
      if p entry then Some (f entry :: entries') else cons entry <$> update_first p f entries'
  end.

Definition upsert (record : TrustRecord) : trust_op unit :=
  _ ← st_lift (validate_scope (tr_scope record));
  document ← st_get pt_document;
  let entries := td_entries document in
  let entries' := default (entries ++ [record])
    (update_first (names_entry (tr_key_id record) (tr_scope record)) (fun _ => record) entries) in
  persist_or_restore {| td_version := td_version document; td_entries := entries' |}.

Definition trust_key (key_id public_key : string) (scope : TrustScope) : trust_op unit :=
  public_key_bytes ← st_lift (decode_public_key public_key);
  if negb (bool_decide (key_id = fingerprint_key_id public_key_bytes))
  then st_fail ("key id '" +:+ key_id +:+ "' does not match the supplied public key fingerprint")
  else
    _ ← st_lift (validate_scope scope);
    upsert {| tr_key_id := key_id; tr_public_key := public_key; tr_scope := scope;
              tr_status := StatusTrusted |}.

Definition revoked (entry : TrustRecord) : TrustRecord :=
  {| tr_key_id := tr_key_id entry; tr_public_key := tr_public_key entry;
     tr_scope := tr_scope entry; tr_status := StatusRevoked |}.

Definition revoke_key (key_id : string) (scope : TrustScope) : trust_op unit :=
  _ ← st_lift (validate_scope scope);
  document ← st_get pt_document;
  match update_first (names_entry key_id scope) revoked (td_entries document) with
  | None => st_fail ("trusted key '" +:+ key_id +:+ "' is not registered for that scope")
  | Some entries' =>
      persist_or_restore {| td_version := td_version document; td_entries := entries' |}
  end.

(** ** Histories *)

Inductive TrustCommand :=
  | CmdTrust (key_id public_key : string) (scope : TrustScope)
  | CmdRevoke (key_id : string) (scope : TrustScope).

Definition run_command (c : TrustCommand) : trust_op unit :=
  match c with
  | CmdTrust key_id public_key scope => trust_key key_id public_key scope
  | CmdRevoke key_id scope => revoke_key key_id scope
  end.

(** The store after a sequence of commands, whatever each reports. *)
Fixpoint run_commands (cs : list TrustCommand) (s : PublisherTrustStore) : PublisherTrustStore :=
  match cs with [] => s | c :: cs' => run_commands cs' (run_command c s).2 end.
End store.

(** ** Publisher trust: what a signature state means *)

(** ** Entry updates *)

Lemma update_first_Some p f l l' :
  update_first p f l = Some l' ->
  ∃ l1 e l2, l = l1 ++ e :: l2 /\ p e = true /\ l' = l1 ++ f e :: l2.
Proof.
  revert l'. induction l as [|e l IH]; intros l'; simpl; [done|].
  destruct (p e) eqn:Hp; [intros [= <-]; by exists [], e, l|].
  destruct (update_first p f l) as [l1|]; [|done]. intros [= <-].
  destruct (IH _ eq_refl) as (la & x & lb & -> & ? & ->). by exists (e :: la), x, lb.
Qed.

Lemma names_entry_true key_id scope e :
  names_entry key_id scope e = true <-> tr_key_id e = key_id /\ tr_scope e = scope.
Proof. unfold names_entry. by rewrite andb_true_iff, !bool_decide_eq_true. Qed.

(** An entry that is not the updated one stays. *)
Lemma update_first_keeps p f l l' e :
  update_first p f l = Some l' -> e ∈ l -> p e = false \/ f e = e -> e ∈ l'.
Proof.
  intros (l1 & x & l2 & -> & Hx & ->)%update_first_Some He Hor.
  rewrite elem_of_app, elem_of_cons in He |- *.
  destruct He as [?|[->|?]]; [tauto| |tauto]. right; left. destruct Hor; congruence.
Qed.

Lemma update_first_elem p f l l' e :
  update_first p f l = Some l' -> e ∈ l' -> e ∈ l \/ ∃ x, x ∈ l /\ p x = true /\ e = f x.
Proof.
  intros (l1 & x & l2 & -> & Hx & ->)%update_first_Some.
  rewrite !elem_of_app, !elem_of_cons. intros [?|[->|?]]; [tauto| |tauto].
  right. exists x. rewrite elem_of_app, elem_of_cons. auto.
Qed.

Section facts.
Context `{Uuids, Signatures, TrustCodec}.
Implicit Types s : PublisherTrustStore.

(** What a command means for the entries. *)
Definition effect (c : TrustCommand) (entries : list TrustRecord) : option (list TrustRecord) :=
  match c with
  | CmdTrust key_id public_key scope =>
      let record := {| tr_key_id := key_id; tr_public_key := public_key; tr_scope := scope;
                       tr_status := StatusTrusted |} in
      Some (default (entries ++ [record]) (update_first (names_entry key_id scope) (fun _ => record) entries))
  | CmdRevoke key_id scope => update_first (names_entry key_id scope) revoked entries
  end.


(** The file after a refused command is as before. *)
Definition file_of s : option string := path ← pt_path s; contents (pt_fs s) (p_file_name path).

Lemma persist_or_restore_cases document s r s' :
  persist_or_restore document s = (r, s') ->
  pt_path s' = pt_path s /\
  ((∃ e, r = Err e /\ pt_document s' = pt_document s /\ file_of s' = file_of s) \/
   ((∀ msg, r <> Panic msg) /\ pt_document s' = document /\
    ∀ path, pt_path s = Some path ->
      ∃ bytes, trust_to_vec_pretty document = inr bytes /\
               contents (pt_fs s') (p_file_name path) = Some bytes)).
Proof.
  unfold persist_or_restore, persist. simpl. destruct (pt_path s) as [path|] eqn:Hp.
  2:{ intros [= <- <-]. simpl. split; [done|]. right. by split_and!. }
  destruct (persist_json_document _ _ _ _ _ _) as [r0 fs'] eqn:E.
  apply persist_json_document_contents in E as [(bytes & Hser & Hc & [->|(e & -> & ->)])|(e & -> & -> & Hc)];
    intros [= <- <-]; (split; [done|]); [right; split_and!; [done..|naive_solver]
    |right; split_and!; [done..|naive_solver]|left].
  eexists. split_and!; [done..|]. unfold file_of. simpl. by rewrite Hp.
Qed.

Lemma run_command_cases c s r s' :
  run_command c s = (r, s') ->
  (∃ e, r = Err e /\ pt_path s' = pt_path s /\ pt_document s' = pt_document s /\ file_of s' = file_of s) \/
  (∃ entries, effect c (td_entries (pt_document s)) = Some entries /\ pt_path s' = pt_path s /\
     (∀ msg, r <> Panic msg) /\
     pt_document s' = {| td_version := td_version (pt_document s); td_entries := entries |} /\
     ∀ path, pt_path s = Some path ->
       ∃ bytes, trust_to_vec_pretty (pt_document s') = inr bytes /\
                contents (pt_fs s') (p_file_name path) = Some bytes).
Proof.
  assert (∀ scope msg, validate_scope scope <> Panic msg) as Hvs.
  { intros [id|prefix] msg; simpl; by destruct (id_is_valid _). }
  assert (∀ pk msg, decode_public_key pk <> Panic msg) as Hpk.
  { intros pk msg. unfold decode_public_key. destruct (base64_decode pk); simpl; [done|].
    by destruct (negb _). }
  assert (∀ document, persist_or_restore document s = (r, s') ->
    td_version document = td_version (pt_document s) ->
    effect c (td_entries (pt_document s)) = Some (td_entries document) ->
    (∃ e, r = Err e /\ pt_path s' = pt_path s /\ pt_document s' = pt_document s /\ file_of s' = file_of s) \/
    (∃ entries, effect c (td_entries (pt_document s)) = Some entries /\ pt_path s' = pt_path s /\
       (∀ msg, r <> Panic msg) /\
       pt_document s' = {| td_version := td_version (pt_document s); td_entries := entries |} /\
       ∀ path, pt_path s = Some path ->
         ∃ bytes, trust_to_vec_pretty (pt_document s') = inr bytes /\
                  contents (pt_fs s') (p_file_name path) = Some bytes)) as Hfin.
  { intros [v entries] (Hp & [(e & ? & ? & ?)|(Hnp & Hd & Hf)])%persist_or_restore_cases Hv He; simpl in *.
    - left. by exists e.
    - right. exists entries. subst v. rewrite Hd. by split_and!. }
  destruct c as [key pk scope|key scope]; simpl; unfold trust_key, upsert, revoke_key;
    rewrite ?st_bind_run; unfold st_lift at 1.
  - specialize (Hpk pk). destruct (decode_public_key pk) as [bytes|e|msg];
      [|intros [= <- <-]; left; by exists e|by destruct (Hpk msg)].
    destruct (negb _); [intros [= <- <-]; left; by eexists|].
    rewrite !st_bind_run. unfold st_lift at 1.
    pose proof (Hvs scope) as Hsc. destruct (validate_scope scope) as [[]|e|msg] eqn:Esc;
      [|intros [= <- <-]; left; by exists e|by destruct (Hsc msg)].
    rewrite st_bind_run. unfold st_lift at 1. simpl tr_scope. rewrite Esc.
    rewrite st_bind_run. unfold st_get. intros Hr. eapply Hfin; [exact Hr|done..].
  - pose proof (Hvs scope) as Hsc. destruct (validate_scope scope) as [[]|e|msg] eqn:Esc;
      [|intros [= <- <-]; left; by exists e|by destruct (Hsc msg)].
    rewrite st_bind_run. unfold st_get.
    destruct (update_first _ _ _) as [entries|] eqn:Eu; [|intros [= <- <-]; left; by eexists].
    intros Hr. pose proof (Hfin _ Hr eq_refl Eu) as Hx. simpl in Hx. by rewrite Eu in Hx.
Qed.

(** ** Memory and file agree *)

Definition stored (path : Path) (fs : FileSystem) : outcome string TrustStoreDocument :=
  pt_document <$> trust_store_new path (quiet fs).

Lemma stored_contents path fs :
  stored path fs =
  (loaded ← load_result trust_from_str path "publisher trust store" (contents fs (p_file_name path));
   match loaded with
   | None => Ok empty_document
   | Some document =>
       if negb (td_version document =? STORE_VERSION)%N
       then Err ("unsupported publisher trust store version " +:+ pretty (td_version document))
       else Ok document
   end).
Proof.
  unfold stored, trust_store_new.
  destruct (load_json_document_working trust_from_str path "publisher trust store" fs) as [fs' ->].
  destruct (load_result _ _ _ _) as [[document|]| |]; try done. simpl. by destruct (negb _).
Qed.

Definition mirrors_file s : Prop :=
  td_version (pt_document s) = STORE_VERSION /\
  ∀ path, pt_path s = Some path -> stored path (pt_fs s) = Ok (pt_document s).

Lemma run_command_mirrors `{!TrustCodecLaws} c : preserves mirrors_file (run_command c).
Proof.
  intros s [Hv Hm]. destruct (run_command c s) as [r s'] eqn:E. simpl.
  apply run_command_cases in E as [(e & _ & Hp & Hd & Hf)|(entries & _ & Hp & _ & Hd & Hf)].
  - split; [by rewrite Hd|]. intros path Hpath. rewrite Hd. rewrite Hp in Hpath.
    rewrite <- (Hm path Hpath), !stored_contents. unfold file_of in Hf.
    rewrite Hp, Hpath in Hf. simpl in Hf. by rewrite Hf.
  - split; [by rewrite Hd|]. intros path Hpath. rewrite Hp in Hpath.
    destruct (Hf path Hpath) as (bytes & Hser & Hc).
    apply trust_codec_roundtrip in Hser as [Hutf Hback].
    rewrite stored_contents, Hc. simpl. rewrite Hutf, Hback. simpl.
    rewrite Hd. simpl. by rewrite Hv.
Qed.

(** The failures the device will report from now on. *)
Definition with_faults (faults : list (option Fault)) (s : PublisherTrustStore) : PublisherTrustStore :=
  {| pt_path := pt_path s; pt_document := pt_document s;
     pt_fs := {| fs_exists := fs_exists (pt_fs s); fs_dir := fs_dir (pt_fs s);
                 fs_pending := fs_pending (pt_fs s); fs_faults := faults; fs_uuids := fs_uuids (pt_fs s) |} |}.

Lemma trust_store_new_mirrors path fs faults s :
  trust_store_new path (quiet fs) = Ok s ->
  mirrors_file (with_faults faults s) /\ pt_path s = Some path.
Proof.
  intros Hn. assert (stored path fs = Ok (pt_document s)) as Hst by (unfold stored; by rewrite Hn).
  assert (contents (pt_fs s) (p_file_name path) = contents fs (p_file_name path) /\
          td_version (pt_document s) = STORE_VERSION /\ pt_path s = Some path) as (Hc & Hv & Hp).
  { unfold trust_store_new in Hn.
    pose proof (load_json_document_keeps trust_from_str path "publisher trust store" (quiet fs)) as Hk.
    destruct (load_json_document _ _ _ _) as [[loaded| |] fs']; try done. simpl in *.
    unfold contents. destruct loaded as [document|]; simpl in Hn; [|by simplify_eq/=; rewrite Hk].
    destruct (td_version document =? STORE_VERSION)%N eqn:E; simplify_eq/=. apply N.eqb_eq in E.
    by rewrite Hk. }
  split; [|done]. split; [done|]. intros path' Hp'. simpl in *. rewrite Hp in Hp'. simplify_eq.
  rewrite <- Hst, !stored_contents. unfold contents in *. simpl. by rewrite Hc.
Qed.

Lemma run_commands_preserve I cs s :
  (∀ c, c ∈ cs -> preserves I (run_command c)) -> I s -> I (run_commands cs s).
Proof.
  revert s. induction cs as [|c cs IH]; intros s Hc Hs; simpl; [done|].
  apply IH; [|apply Hc; [left|done]]. intros c' Hc'. apply Hc. by right.
Qed.

(** After any sequence of trust and revoke commands, with any device failures
    in between, the entries the store uses in memory are exactly the ones a restart
    would load from the file: a command whose write was not committed is undone in
    memory, and one whose rename happened (even if the directory sync then failed)
    is kept. *)
Theorem trust_store_mirrors_file `{!TrustCodecLaws} path fs faults cs s :
  trust_store_new path (quiet fs) = Ok s ->
  let s' := run_commands cs (with_faults faults s) in
  pt_path s' = Some path /\ stored path (pt_fs s') = Ok (pt_document s').
Proof.
  intros Hn s'. destruct (trust_store_new_mirrors path fs faults s Hn) as [Hm Hp].
  assert (mirrors_file s' /\ pt_path s' = Some path) as [[_ Hs] Hp']; [|by split; [|apply Hs]].
  apply (run_commands_preserve (fun s => mirrors_file s /\ pt_path s = Some path)); [|done].
  intros c _ s1 [Hm1 Hp1]. split; [by apply run_command_mirrors|].
  destruct (run_command c s1) as [r s2] eqn:E.
  apply run_command_cases in E as [(_ & _ & Hp2 & _)|(_ & _ & Hp2 & _)]; simpl; congruence.
Qed.

(** ** Revocation *)

Definition has_revoked (key_id : string) (scope : TrustScope) s : Prop :=
  ∃ e, e ∈ td_entries (pt_document s) /\ tr_key_id e = key_id /\ tr_scope e = scope /\
       tr_status e = StatusRevoked.

Lemma revoke_key_revokes key_id scope s s' :
  revoke_key key_id scope s = (Ok tt, s') -> has_revoked key_id scope s'.
Proof.
  intros E. apply (run_command_cases (CmdRevoke key_id scope)) in E
    as [(e & ? & _)|(entries & He & _ & _ & Hd & _)]; [done|].
  apply update_first_Some in He as (l1 & e & l2 & _ & [Hk Hs]%names_entry_true & ->).
  exists (revoked e). rewrite Hd. split_and!; try done. simpl. rewrite elem_of_app. right; left.
Qed.

Lemma has_revoked_kept key_id scope c :
  (∀ public_key, c <> CmdTrust key_id public_key scope) ->
  preserves (has_revoked key_id scope) (run_command c).
Proof.
  intros Hc s (e & He & Hk & Hs & Hst). destruct (run_command c s) as [r s'] eqn:E. simpl.
  apply run_command_cases in E as [(_ & _ & _ & Hd & _)|(entries & Heff & _ & _ & Hd & _)];
    unfold has_revoked; rewrite Hd; [by exists e|].
  exists e. split_and!; [|done..]. simpl. destruct c as [key pk sc|key sc]; simpl in Heff.
  - simplify_eq. destruct (update_first _ _ _) as [l'|] eqn:Eu; simpl; [|rewrite elem_of_app; by left].
    eapply update_first_keeps; [exact Eu|done|]. left. apply not_true_iff_false.
    intros [? ?]%names_entry_true. apply (Hc pk). congruence.
  - eapply update_first_keeps; [exact Heff|done|]. right. destruct e; simpl in *. by subst.
Qed.

Lemma matching_entry_Some entries key_id app_id status e :
  matching_entry entries key_id app_id status = Some e ->
  e ∈ entries /\ tr_key_id e = key_id /\ tr_status e = status /\ scope_matches (tr_scope e) app_id = true.
Proof.
  intros [He Hp]%List.find_some. rewrite !andb_true_iff, !bool_decide_eq_true in Hp.
  apply list_elem_of_In in He. tauto.
Qed.

Lemma matching_entry_None entries key_id app_id status e :
  matching_entry entries key_id app_id status = None ->
  e ∈ entries -> tr_key_id e = key_id -> tr_status e = status -> scope_matches (tr_scope e) app_id = false.
Proof.
  intros Hn He Hk Hs. eapply List.find_none in Hn; [|by apply list_elem_of_In].
  rewrite !bool_decide_eq_true_2 in Hn by done. done.
Qed.

Lemma resolve_revoked document key_id app_id e :
  e ∈ td_entries document -> tr_key_id e = key_id -> tr_status e = StatusRevoked ->
  scope_matches (tr_scope e) app_id = true ->
  ∃ scope, resolve_signature document key_id app_id = Some (SigRevoked key_id scope).
Proof.
  intros He Hk Hs Hm. unfold resolve_signature.
  destruct (matching_entry _ _ _ _) as [e'|] eqn:E.
  - apply matching_entry_Some in E as (_ & <- & _). eauto.
  - eapply matching_entry_None in E; [|done..]. congruence.
Qed.

(** What a verified signature guarantees. *)
Lemma verify_signature_Ok document digest sd app_id state :
  verify_signature document digest sd app_id = Ok state ->
  (∃ key public_key signature,
     decode_public_key (sd_public_key sd) = Ok key /\ sd_key_id sd = fingerprint_key_id key /\
     VerifyingKey_from_bytes key = inr public_key /\
     decode_signature (sd_signature sd) = Ok signature /\
     ed25519_verify public_key (signing_bytes digest app_id) signature = inr tt) /\
  state = default (ValidUnknownKey (sd_key_id sd)) (resolve_signature document (sd_key_id sd) app_id).
Proof.
  unfold verify_signature. destruct (negb _); [done|]. intros Hv. inv_ok Hv.
  destruct (negb (bool_decide (sd_key_id sd = _))) eqn:Hk; [done|]. inv_ok Hv.
  apply negb_false_iff, bool_decide_eq_true in Hk.
  destruct (VerifyingKey_from_bytes a) as [|public_key] eqn:Hpk; simplify_eq/=.
  destruct (ed25519_verify _ _ _) as [|[]] eqn:Hs; simplify_eq/=. split; [|done].
  by exists a, a0, a1.
Qed.

(** C34: A revocation is final until the owner trusts the same key for the same
    scope again: after [revoke_key] succeeded, whatever other keys and scopes are
    trusted or revoked and whatever those commands report, a package in the scope
    that carries a valid signature of the key is reported as revoked, never as
    trusted or unknown, and its installation is blocked. *)
Theorem revocation_is_final key_id scope s s1 cs digest sd app_id state :
  revoke_key key_id scope s = (Ok tt, s1) ->
  (∀ public_key, CmdTrust key_id public_key scope ∉ cs) ->
  scope_matches scope app_id = true -> sd_key_id sd = key_id ->
  verify_signature (pt_document (run_commands cs s1)) digest sd app_id = Ok state ->
  (∃ scope', state = SigRevoked key_id scope') /\ is_Some (blocking_error state).
Proof.
  intros Hr%revoke_key_revokes Hcs Hm Hkey [_ ->]%verify_signature_Ok.
  assert (has_revoked key_id scope (run_commands cs s1)) as (e & He & Hk & <- & Hst).
  { apply run_commands_preserve; [|done]. intros c Hc. apply has_revoked_kept.
    intros pk ->. by apply (Hcs pk). }
  rewrite Hkey. destruct (resolve_revoked _ _ _ _ He Hk Hst Hm) as [scope' ->]. simpl. eauto.
Qed.

(** ** Trust *)

Lemma newline_free app_id : id_is_valid app_id = true -> (Ascii.ascii_of_N 10) ∉ chars app_id.
Proof.
  unfold id_is_valid. destruct (_ || _ || _); [done|]. rewrite !andb_true_iff. intros [[Hall _] _].
  induction app_id as [|c s IH]; simpl; [by intros E%elem_of_nil|]. simpl in Hall.
  apply andb_true_iff in Hall as [Hc Hs]. intros [<-|Hin]%elem_of_cons; [by vm_compute in Hc|].
  by apply IH.
Qed.

Lemma cut_at_newline a b r t :
  Ascii.ascii_of_N 10 ∉ chars a -> Ascii.ascii_of_N 10 ∉ chars b ->
  a +:+ newline +:+ r = b +:+ newline +:+ t -> a = b /\ r = t.
Proof.
  revert b. induction a as [|c a IH]; intros [|d b] Ha Hb E; simpl in Ha, Hb.
  - by injection E.
  - exfalso. injection E as Ec _. apply Hb. rewrite Ec. left.
  - exfalso. injection E as Ec _. apply Ha. rewrite <- Ec. left.
  - change (String c (a +:+ newline +:+ r) = String d (b +:+ newline +:+ t)) in E.
    injection E as -> E. apply not_elem_of_cons in Ha as [_ Ha], Hb as [_ Hb].
    destruct (IH b Ha Hb E) as [-> ->]. done.
Qed.

Lemma signing_bytes_inj d1 a1 d2 a2 :
  id_is_valid a1 = true -> id_is_valid a2 = true ->
  signing_bytes d1 a1 = signing_bytes d2 a2 -> d1 = d2 /\ a1 = a2.
Proof.
  intros Ha1%newline_free Ha2%newline_free E. unfold signing_bytes in E.
  apply app_inj_length in E as [_ E]; [|done]. apply app_inj_length in E as [_ E]; [|done].
  apply cut_at_newline in E as [-> E]; [|done..]. split; [|done].
  apply (f_equal (strip_suffix newline)) in E. by rewrite !strip_suffix_app in E; simplify_eq.
Qed.

(** A package is reported as signed by a trusted key only when the signature
    verifies, under the key whose fingerprint it names, over exactly this package
    digest and app id (the signed bytes determine both), the owner has trusted that
    key for a scope that contains the app, and no revocation of the key covers
    the app. *)
Theorem trusted_signature_sound document digest sd app_id key_id scope :
  id_is_valid app_id = true ->
  verify_signature document digest sd app_id = Ok (SigTrusted key_id scope) ->
  (∃ key public_key signature,
     decode_public_key (sd_public_key sd) = Ok key /\ key_id = fingerprint_key_id key /\
     VerifyingKey_from_bytes key = inr public_key /\
     decode_signature (sd_signature sd) = Ok signature /\
     ed25519_verify public_key (signing_bytes digest app_id) signature = inr tt) /\
  (∀ digest' app_id', id_is_valid app_id' = true ->
     signing_bytes digest' app_id' = signing_bytes digest app_id -> digest' = digest /\ app_id' = app_id) /\
  (∃ e, e ∈ td_entries document /\ tr_key_id e = key_id /\ tr_scope e = scope /\
        tr_status e = StatusTrusted /\ scope_matches scope app_id = true) /\
  (∀ e, e ∈ td_entries document -> tr_key_id e = key_id -> tr_status e = StatusRevoked ->
        scope_matches (tr_scope e) app_id = false).
Proof.
  intros Hid [(key & pk & sg & Hk & Hfp & Hrest) Hst]%verify_signature_Ok.
  unfold resolve_signature in Hst.
  destruct (matching_entry _ _ _ StatusRevoked) as [e|] eqn:Er; [done|].
  destruct (matching_entry _ _ _ StatusTrusted) as [e|] eqn:Et; [|done]. simpl in Hst. simplify_eq.
  apply matching_entry_Some in Et as (He & Hek & Hes & Hm). rewrite Hek.
  split_and!.
  - exists key, pk, sg. split; [done|]. by split.
  - intros d' a' Ha' E. by apply signing_bytes_inj in E.
  - by exists e.
  - intros e' He' Hk' Hs'. by eapply matching_entry_None.
Qed.
End facts.
