(* ===== verification/AppData.v ===== *)
(** * App-owned data

    [host/src-tauri/src/app_data.rs]: the versioned data directories of an app, the
    document that names the active one, and the staging, commit, rollback and pruning
    of migrations. The migration command itself and SHA-256 are parameters.

    The directory [.data/<app>] is [AppDataRoot]: its own files in the file system
    model (the state document is one of them) and the revision directories as trees.
    Directory calls share the failure schedule of the file system. *)

From S2P Require Import Prelude RustStd RustText AtomicJson Packages.

Definition STATE_VERSION : N := 1.
Definition STATE_FILE : string := "app-data-state-v1.json".
Definition REVISIONS_DIR : string := "app-data-revisions".
Definition SURFACE_STATE_FILE : string := "surface-state-v2.json".

Record AppDataRevision := {
  adr_revision_id : string;
  adr_format_version : N;
  adr_package_revision_id : string;
  adr_created_at : string;
}.

Record AppDataState := {
  ads_version : N;
  ads_active_revision_id : string;
  ads_revisions : list AppDataRevision;
}.

#[export] Instance AppDataRevision_eq_dec : EqDecision AppDataRevision.
Proof. solve_decision. Defined.

(** ** Trees *)

(** [validate_tree] below a directory: no symlinks, no special files. *)
Fixpoint validate_node (path : string) (node : Node) : outcome string unit :=
  match node with
  | NFile _ => Ok tt
  | NSymlink => Err ("app data contains unsupported symlink '" +:+ path +:+ "'")
  | NSpecial => Err ("app data contains unsupported file type '" +:+ path +:+ "'")
  | NDir entries =>
      (fix go entries := match entries with
        | [] => Ok tt
        | (name, child) :: entries' =>
            _ ← validate_node (join_path path name) child; go entries'
        end) entries
  end.

Definition validate_tree (path : string) (root : option Node) : outcome string unit :=
  match root with
  | Some (NDir entries) => validate_node path (NDir entries)
  | _ => Err ("app data revision '" +:+ path +:+ "' is missing")
  end.

(** [collect_paths]: the relative paths, as components, with what they are. *)
Fixpoint collect_paths (prefix : list string) (node : Node) : list (list string * Node) :=
  match node with
  | NDir entries =>
      (fix go entries := match entries with
        | [] => []
        | (name, child) :: entries' =>
            (prefix ++ [name], child) :: collect_paths (prefix ++ [name]) child ++ go entries'
        end) entries
  | _ => []
  end.

(** [Path]'s order: component by component. *)
Fixpoint path_leb (p q : list string) : bool :=
  match p, q with
  | [], _ => true
  | _ :: _, [] => false
  | a :: p', b :: q' => if bool_decide (a = b) then path_leb p' q' else String.leb a b
  end.

Definition nul : string := String (Ascii.ascii_of_N 0) EmptyString.

(** What one path feeds to the hasher. *)
Definition tree_record (entry : list string * Node) : string :=
  join entry.1 +:+ nul +:+
  match entry.2 with NDir _ => "directory" | NFile bytes => bytes | _ => EmptyString end.

Fixpoint concat_records (entries : list (list string * Node)) : string :=
  match entries with [] => EmptyString | e :: entries' => tree_record e +:+ concat_records entries' end.

Definition tree_digest_input (root : Node) : string :=
  concat_records (sort_by (fun p q => path_leb p.1 q.1) (collect_paths [] root)).

(** ** The data directory of an app *)

Record AppDataRoot := {
  ad_fs : FileSystem;
  ad_other_dirs : list string;
  ad_revisions : gmap string Node;
}.

Definition set_ad_fs (fs : FileSystem) (r : AppDataRoot) : AppDataRoot :=
  {| ad_fs := fs; ad_other_dirs := ad_other_dirs r; ad_revisions := ad_revisions r |}.

Definition set_ad_revisions (m : gmap string Node) (r : AppDataRoot) : AppDataRoot :=
  {| ad_fs := ad_fs r; ad_other_dirs := ad_other_dirs r; ad_revisions := m |}.

(** A call on the files of the directory. *)
Definition on_fs {E A} (m : st FileSystem E A) : st AppDataRoot E A := fun r =>
  let '(o, fs) := m (ad_fs r) in (o, set_ad_fs fs r).

(** A call on the revision directories; [partial] is what a failing call leaves. *)
Definition dir_io {A} (partial : Fault -> gmap string Node -> gmap string Node)
    (m : gmap string Node -> outcome IoError A * gmap string Node) : st AppDataRoot IoError A := fun r =>
  let fs := ad_fs r in
  let rest := {| fs_exists := fs_exists fs; fs_dir := fs_dir fs; fs_pending := fs_pending fs;
                 fs_faults := tail (fs_faults fs); fs_uuids := fs_uuids fs |} in
  match head (fs_faults fs) with
  | Some (Some fault) => (Err (ft_error fault), set_ad_revisions (partial fault (ad_revisions r)) (set_ad_fs rest r))
  | _ => let '(o, dirs) := m (ad_revisions r) in (o, set_ad_revisions dirs (set_ad_fs rest r))
  end.

Definition untouched (_ : Fault) (dirs : gmap string Node) : gmap string Node := dirs.

(** [fs::create_dir] and [fs::create_dir_all] of a revision directory. *)
Definition dir_create (name : string) : st AppDataRoot IoError unit :=
  dir_io untouched (fun dirs =>
    match dirs !! name with
    | Some _ => (Err already_exists, dirs)
    | None => (Ok tt, <[name := NDir []]> dirs)
    end).

Definition dir_create_all (name : string) : st AppDataRoot IoError unit :=
  dir_io untouched (fun dirs => (Ok tt, if bool_decide (is_Some (dirs !! name)) then dirs
                                        else <[name := NDir []]> dirs)).

(** [fs::remove_dir_all]: a failure may have removed some of the entries. *)
Definition dir_remove_all (name : string) : st AppDataRoot IoError unit :=
  dir_io (fun fault dirs =>
            alter (fun node => match node with NDir l => NDir (drop (ft_written fault) l) | _ => node end)
              name dirs)
         (fun dirs => match dirs !! name with
                      | None => (Err not_found, dirs)
                      | Some _ => (Ok tt, delete name dirs)
                      end).

(** [fs::rename] of a revision directory. *)
Definition dir_rename (from to : string) : st AppDataRoot IoError unit :=
  dir_io untouched (fun dirs =>
    match dirs !! from with
    | None => (Err not_found, dirs)
    | Some node => (Ok tt, <[to := node]> (delete from dirs))
    end).

(** Copying into the new directory [name]: a failure leaves part of the entries. *)
Definition dir_fill (name : string) (node : Node) : st AppDataRoot IoError unit :=
  dir_io (fun fault dirs =>
            <[name := match node with NDir l => NDir (take (ft_written fault) l) | _ => node end]> dirs)
         (fun dirs => (Ok tt, <[name := node]> dirs)).

(** [path.exists()] and [path.is_dir()] of a revision directory. *)
Definition dir_exists (name : string) (r : AppDataRoot) : bool := bool_decide (is_Some (ad_revisions r !! name)).
Definition dir_is_dir (name : string) (r : AppDataRoot) : bool :=
  match ad_revisions r !! name with Some (NDir _) => true | _ => false end.

Definition io_context {A} (what : string) (m : st AppDataRoot IoError A) : st AppDataRoot string A :=
  st_map_err (fun e => what +:+ io_message e) m.

Class AppDataCodec := {
  state_to_vec_pretty : AppDataState -> string + string;
  state_from_str : string -> string + AppDataState;
}.

Class AppDataCodecLaws `{AppDataCodec} : Prop := {
  state_codec_roundtrip : ∀ state bytes,
    state_to_vec_pretty state = inr bytes ->
    utf8_valid bytes = true /\ state_from_str bytes = inr state;
}.

Section app_data.
Context `{Uuids, AppDataCodec} (sha256_hex : string -> string) (root_path : string).

Abbreviation data_op := (st AppDataRoot string).

Definition state_path : Path := {| p_parent := root_path; p_file_name := STATE_FILE |}.
Definition revision_path (revision_id : string) : string :=
  root_path +:+ "/" +:+ REVISIONS_DIR +:+ "/" +:+ revision_id.

Definition tree_digest (path : string) (root : option Node) : outcome string string :=
  _ ← validate_tree path root;
  match root with
  | Some node => Ok (sha256_hex (tree_digest_input node))
  | None => Err ("app data revision '" +:+ path +:+ "' is missing")
  end.

(** ** The state document *)

Fixpoint validate_revisions (dirs : gmap string Node) (ids : gset string) (revisions : list AppDataRevision) :
    outcome string (gset string) :=
  match revisions with
  | [] => Ok ids
  | revision :: revisions' =>
      let id := adr_revision_id revision in
      if negb (parse_str_ok id) then Err "app data state contains an invalid revision id"
      else if (adr_format_version revision =? 0)%N || bool_decide (id ∈ ids)
      then Err "app data state contains an invalid or duplicate revision"
      else
        _ ← validate_tree (revision_path id) (dirs !! id);
        validate_revisions dirs ({[id]} ∪ ids) revisions'
  end.

Definition validate_state (dirs : gmap string Node) (state : AppDataState) : outcome string AppDataState :=
  if negb (ads_version state =? STATE_VERSION)%N
  then Err ("unsupported app data state version " +:+ pretty (ads_version state) +:+ "; expected 1")
  else
    ids ← validate_revisions dirs ∅ (ads_revisions state);
    if negb (bool_decide (ads_active_revision_id state ∈ ids))
    then Err "app data state active revision is absent"
    else Ok state.

Definition load_state_optional : data_op (option AppDataState) :=
  state ← on_fs (load_json_document state_from_str state_path "app data state");
  dirs ← st_get ad_revisions;
  match state with
  | None => mret None
  | Some state => st_lift (Some <$> validate_state dirs state)
  end.

Definition load_state : data_op AppDataState :=
  state ← load_state_optional;
  st_lift (ok_or state "app data state is missing").

Definition active_revision (state : AppDataState) : outcome string AppDataRevision :=
  ok_or (List.find (fun revision => bool_decide (adr_revision_id revision = ads_active_revision_id state))
           (ads_revisions state))
    "app data state active revision is absent".

Definition persist_state (state : AppDataState) : data_op unit :=
  st_map_err into_message
    (on_fs (persist_json_document state_to_vec_pretty state_path state "app data state"
              StandardAtomicFileWriter)).

(** ** Opening *)

(** The entries of the data directory. *)
Definition root_entries (r : AppDataRoot) : list string :=
  btree_keys (fs_dir (ad_fs r)) ++ REVISIONS_DIR :: ad_other_dirs r.

Definition known_entry (name : string) : bool :=
  bool_decide (name ∈ [SURFACE_STATE_FILE; REVISIONS_DIR; STATE_FILE]).

Definition ensure_no_legacy_app_data : data_op unit :=
  exists_ ← st_get (fun r => fs_exists (ad_fs r));
  if negb exists_ then mret tt
  else
    _ ← st_map_err (fun e => "read app-data directory failed: " +:+ io_message e) (on_fs io_step);
    names ← st_get root_entries;
    match List.find (fun name => negb (known_entry name)) names with
    | Some name =>
        st_fail ("unversioned app data '" +:+ root_path +:+ "/" +:+ name +:+ "' cannot be adopted automatically")
    | None => mret tt
    end.

Definition initialize_state (format_version : N) (package_revision_id created_at : string) :
    data_op AppDataState :=
  _ ← ensure_no_legacy_app_data;
  uuid ← on_fs draw_uuid;
  let revision := {| adr_revision_id := uuid; adr_format_version := format_version;
                     adr_package_revision_id := package_revision_id; adr_created_at := created_at |} in
  _ ← io_context "create initial app-data revision failed: " (dir_create_all uuid);
  let state := {| ads_version := STATE_VERSION; ads_active_revision_id := uuid;
                  ads_revisions := [revision] |} in
  _ ← persist_state state;
  mret state.

(** The directory an app's backend may use. *)
Definition active_dir (app_id package_revision_id : string) (data : AppData) (created_at : string) :
    data_op string :=
  _ ← st_map_err (fun e => "create app-data directory failed: " +:+ io_message e) (on_fs create_dir_all);
  match data with
  | DataNone =>
      files ← st_get (fun r => fs_dir (ad_fs r));
      if bool_decide (is_Some (files !! STATE_FILE))
      then st_fail ("app '" +:+ app_id +:+ "' declares no app-owned data but retained versioned data exists")
      else mret root_path
  | DataVersioned format_version _ =>
      state ← load_state_optional;
      state ← match state with
              | Some state => mret state
              | None => initialize_state format_version package_revision_id created_at
              end;
      active ← st_lift (active_revision state);
      if negb (adr_format_version active =? format_version)%N
      then st_fail ("app data format " +:+ pretty (adr_format_version active)
             +:+ " requires migration before package format " +:+ pretty format_version +:+ " can start")
      else mret (revision_path (adr_revision_id active))
  | DataHostManaged _ _ _ _ _ _ =>
      st_fail "host-managed data is available only through the host data API, not a backend directory"
  end.

Definition current_revision : data_op (option AppDataRevision) :=
  state ← load_state_optional;
  match state with
  | None => mret None
  | Some state => st_lift (Some <$> active_revision state)
  end.

(** ** Migration candidates *)

Definition revision_digest (revision_id : string) : data_op string :=
  dirs ← st_get ad_revisions;
  st_lift (tree_digest (revision_path revision_id) (dirs !! revision_id)).

(** [copy_tree] of one revision directory into another. *)
Definition copy_tree (source destination : string) : data_op unit :=
  dirs ← st_get ad_revisions;
  _ ← st_lift (validate_tree (revision_path source) (dirs !! source));
  match dirs !! source with
  | Some node => io_context "copy app data file failed: " (dir_fill destination node)
  | None => st_fail ("app data revision '" +:+ revision_path source +:+ "' is missing")
  end.

(** [let _ = call]. *)
Definition ignore {A} (m : st AppDataRoot IoError A) : data_op unit := fun r =>
  match m r with (Panic msg, r') => (Panic msg, r') | (_, r') => (Ok tt, r') end.

Definition stage_candidate (candidate : AppDataRevision) (source_revision_id : option string) :
    data_op (string * option string) :=
  let id := adr_revision_id candidate in
  _ ← st_map_err (fun e => "create app-data revisions directory failed: " +:+ io_message e)
        (on_fs create_dir_all);
  stale ← st_get (dir_exists id);
  _ ← (if (stale : bool) then io_context "remove stale app-data candidate failed: " (dir_remove_all id) else mret tt);
  _ ← io_context "create app-data candidate failed: " (dir_create id);
  source_digest ← match source_revision_id with
    | None => mret None
    | Some source =>
        source_before ← revision_digest source;
        _ ← copy_tree source id;
        source_after ← revision_digest source;
        if negb (bool_decide (source_before = source_after))
        then _ ← ignore (dir_remove_all id);
             st_fail "app data changed while the migration candidate was staged"
        else mret (Some source_before)
    end;
  mret (revision_path id, source_digest).

Definition has_revision (id : string) (revisions : list AppDataRevision) : bool :=
  existsb (fun revision => bool_decide (adr_revision_id revision = id)) revisions.

(** The document that makes the candidate active. *)
Definition committed_state (state : AppDataState) (candidate : AppDataRevision) : AppDataState :=
  {| ads_version := ads_version state;
     ads_active_revision_id := adr_revision_id candidate;
     ads_revisions := if has_revision (adr_revision_id candidate) (ads_revisions state)
                      then ads_revisions state else ads_revisions state ++ [candidate] |}.

Definition commit_candidate (source_revision_id : option string) (candidate : AppDataRevision) : data_op unit :=
  let id := adr_revision_id candidate in
  loaded ← load_state_optional;
  let state := default {| ads_version := STATE_VERSION; ads_active_revision_id := id; ads_revisions := [] |} loaded in
  let proceed : data_op unit :=
    present ← st_get (dir_is_dir id);
    if negb present then st_fail "validated app-data migration candidate is missing"
    else persist_state (committed_state state candidate) in
  match source_revision_id with
  | Some source =>
      if negb (bool_decide (ads_active_revision_id state = source))
      then if bool_decide (ads_active_revision_id state = id) then mret tt
           else st_fail "active app-data revision changed before migration commit"
      else proceed
  | None => proceed
  end.

Definition discard_candidate (revision_id : string) : data_op unit :=
  present ← st_get (dir_exists revision_id);
  if negb present then mret tt
  else io_context "discard app-data candidate failed: " (dir_remove_all revision_id).

(** The document that makes the source active again. *)
Definition rolled_back_state (state : AppDataState) (source candidate : string) : AppDataState :=
  {| ads_version := ads_version state;
     ads_active_revision_id := source;
     ads_revisions := List.filter (fun revision => negb (bool_decide (adr_revision_id revision = candidate)))
                        (ads_revisions state) |}.

(** [match fs::remove_file(root.join(STATE_FILE))]. *)
Definition remove_state_file : data_op unit := fun r =>
  match on_fs (fs_remove_file STATE_FILE) r with
  | (Ok _, r') => (Ok tt, r')
  | (Err error, r') =>
      match io_kind error with
      | NotFound => (Ok tt, r')
      | _ => (Err ("remove app data state during rollback failed: " +:+ io_message error), r')
      end
  | (Panic msg, r') => (Panic msg, r')
  end.

Definition rollback_transition (source_revision_id : option string) (candidate_revision_id : string) :
    data_op unit :=
  match source_revision_id with
  | Some source =>
      state ← load_state;
      if negb (has_revision source (ads_revisions state))
      then st_fail ("app-data rollback revision '" +:+ source +:+ "' is absent")
      else
        _ ← persist_state (rolled_back_state state source candidate_revision_id);
        discard_candidate candidate_revision_id
  | None =>
      state ← load_state_optional;
      match state with
      | Some state =>
          if negb (bool_decide (ads_active_revision_id state = candidate_revision_id))
          then st_fail "app-data rollback found an unexpected active revision"
          else _ ← remove_state_file; discard_candidate candidate_revision_id
      | None => _ ← remove_state_file; discard_candidate candidate_revision_id
      end
  end.

(** ** Pruning *)

(** The backups beyond the retention, newest first kept. *)
Definition pruned_ids (state : AppDataState) (retention : N) : list string :=
  let backups := List.filter (fun revision =>
      negb (bool_decide (adr_revision_id revision = ads_active_revision_id state))) (ads_revisions state) in
  let sorted := sort_by (fun left right => String.leb (adr_created_at right) (adr_created_at left)) backups in
  btree_elements (list_to_set (adr_revision_id <$> drop (N.to_nat retention) sorted)).

Definition pruning_name (revision_id : string) : string := ".pruning-" +:+ revision_id.

Fixpoint stage_removals (ids : list string) : data_op unit :=
  match ids with
  | [] => mret tt
  | id :: ids' =>
      _ ← io_context "stage old app-data backup removal failed: " (dir_rename id (pruning_name id));
      stage_removals ids'
  end.

(** Undo the renames in reverse order, ignoring failures. *)
Fixpoint restore_removals (ids : list string) : data_op unit :=
  match ids with
  | [] => mret tt
  | id :: ids' => _ ← restore_removals ids'; ignore (dir_rename (pruning_name id) id)
  end.

Fixpoint remove_staged (ids : list string) : data_op unit :=
  match ids with
  | [] => mret tt
  | id :: ids' =>
      _ ← io_context "remove old app-data backup failed: " (dir_remove_all (pruning_name id));
      remove_staged ids'
  end.

Definition pruned_state (state : AppDataState) (remove : list string) : AppDataState :=
  {| ads_version := ads_version state;
     ads_active_revision_id := ads_active_revision_id state;
     ads_revisions := List.filter (fun revision => negb (bool_decide (adr_revision_id revision ∈ remove)))
                        (ads_revisions state) |}.

(** Write the shorter document; put the directories back when that fails. *)
Definition finish_pruning (state : AppDataState) (remove : list string) : data_op unit := fun r =>
  match persist_state (pruned_state state remove) r with
  | (Err error, r') => (_ ← restore_removals remove; st_fail error) r'
  | (Panic msg, r') => (Panic msg, r')
  | (Ok _, r') => remove_staged remove r'
  end.

Definition prune_backups (retention : N) : data_op unit :=
  if (retention =? 0)%N then st_fail "app-data backup retention must be at least 1"
  else
    state ← load_state;
    let remove := pruned_ids state retention in
    if bool_decide (remove = []) then mret tt
    else _ ← stage_removals remove; finish_pruning state remove.
End app_data.

(** ** App-owned data: migrations keep the source *)

(** ** Valid states *)

Section validity.
Context `{Uuids} (root_path : string).

Definition revision_ok (dirs : gmap string Node) (revision : AppDataRevision) : Prop :=
  parse_str_ok (adr_revision_id revision) = true /\ adr_format_version revision <> 0%N /\
  validate_tree (revision_path root_path (adr_revision_id revision)) (dirs !! adr_revision_id revision) = Ok tt.

Definition state_ok (dirs : gmap string Node) (state : AppDataState) : Prop :=
  ads_version state = STATE_VERSION /\
  NoDup (adr_revision_id <$> ads_revisions state) /\
  Forall (revision_ok dirs) (ads_revisions state) /\
  ads_active_revision_id state ∈ adr_revision_id <$> ads_revisions state.

Lemma validate_revisions_Ok dirs ids revisions ids' :
  validate_revisions root_path dirs ids revisions = Ok ids' <->
  ids' = ids ∪ list_to_set (adr_revision_id <$> revisions) /\
  NoDup (adr_revision_id <$> revisions) /\ Forall (revision_ok dirs) revisions /\
  ∀ r, r ∈ revisions -> adr_revision_id r ∉ ids.
Proof.
  revert ids. induction revisions as [|r revisions IH]; intros ids; simpl.
  { split; [intros [= <-]|intros (-> & _)]; [|f_equal; set_solver].
    split_and!; [set_solver|constructor|constructor|]. intros r Hr. inversion Hr. }
  rewrite NoDup_cons, Forall_cons. unfold revision_ok at 1.
  destruct (parse_str_ok (adr_revision_id r)) eqn:Hp; simpl; [|naive_solver].
  destruct (N.eqb_spec (adr_format_version r) 0) as [Hz|Hz]; simpl; [naive_solver|].
  case_bool_decide as Hin; simpl.
  { split; [done|]. intros (_ & _ & _ & Hr). by destruct (Hr r ltac:(left)). }
  destruct (validate_tree _ _) as [[]|e|msg]; simpl; [|naive_solver..].
  rewrite IH. split.
  - intros (-> & Hnd & Hall & Hni). split_and!; try done; [set_solver| |].
    + intros Hr. apply list_elem_of_fmap in Hr as (x & E & Hx). specialize (Hni x Hx). set_solver.
    + intros x [->|Hx]%elem_of_cons; [done|]. specialize (Hni x Hx). set_solver.
  - intros (-> & [Hr Hnd] & [_ Hall] & Hni). split_and!; try done; [set_solver|].
    intros x Hx. apply not_elem_of_union. split; [|apply Hni; by right].
    rewrite elem_of_singleton. intros E. apply Hr. rewrite <- E. by apply list_elem_of_fmap_2.
Qed.

Lemma validate_state_Ok dirs state state' :
  validate_state root_path dirs state = Ok state' <-> state' = state /\ state_ok dirs state.
Proof.
  unfold validate_state, state_ok. destruct (N.eqb_spec (ads_version state) STATE_VERSION) as [Hv|Hv];
    simpl; [|naive_solver].
  pose proof (validate_revisions_Ok dirs ∅ (ads_revisions state)) as Hiff. split.
  - intros Hok. inv_ok Hok. apply Hiff in Hok0 as (-> & Hnd & Hall & _).
    case_bool_decide as Hin; simpl in Hok; [|done]. rewrite union_empty_l_L, elem_of_list_to_set in Hin.
    by simplify_eq.
  - intros (-> & _ & Hnd & Hall & Hact).
    assert (validate_revisions root_path dirs ∅ (ads_revisions state)
            = Ok (∅ ∪ list_to_set (adr_revision_id <$> ads_revisions state))) as ->.
    { by apply Hiff. }
    simpl.
    rewrite bool_decide_eq_true_2; [done|]. rewrite union_empty_l_L. by apply elem_of_list_to_set.
Qed.

Lemma has_revision_true id revisions :
  has_revision id revisions = true <-> id ∈ adr_revision_id <$> revisions.
Proof.
  unfold has_revision. rewrite existsb_exists, list_elem_of_fmap.
  split; intros (r & Hr); exists r; rewrite ?bool_decide_eq_true, <- list_elem_of_In in *; naive_solver.
Qed.

(** Committing a candidate whose directory is a valid tree keeps the state valid. *)
Lemma committed_state_ok dirs state candidate :
  state_ok dirs state -> revision_ok dirs candidate -> state_ok dirs (committed_state state candidate).
Proof.
  intros (Hv & Hnd & Hall & Hact) Hc. unfold state_ok, committed_state. simpl.
  destruct (has_revision _ _) eqn:E.
  - apply has_revision_true in E. done.
  - apply not_true_iff_false in E. rewrite has_revision_true in E.
    rewrite fmap_app, NoDup_app, Forall_app, elem_of_app. simpl. split_and!; try done.
    + intros x Hx [->|Hn]%elem_of_cons; [done|inversion Hn].
    + apply NoDup_singleton.
    + by constructor.
    + right. left.
Qed.

Lemma fresh_state_ok dirs candidate :
  revision_ok dirs candidate ->
  state_ok dirs (committed_state {| ads_version := STATE_VERSION;
    ads_active_revision_id := adr_revision_id candidate; ads_revisions := [] |} candidate).
Proof.
  intros Hc. unfold state_ok. simpl. split_and!; [done|apply NoDup_singleton|by constructor|left].
Qed.

Lemma filter_fmap_NoDup (P : AppDataRevision -> bool) l :
  NoDup (adr_revision_id <$> l) -> NoDup (adr_revision_id <$> List.filter P l).
Proof.
  induction l as [|r l IH]; simpl; [done|]. rewrite NoDup_cons. intros [Hr Hl].
  destruct (P r); simpl; [|by apply IH]. apply NoDup_cons. split; [|by apply IH].
  contradict Hr. apply list_elem_of_fmap in Hr as (x & -> & Hx). apply list_elem_of_fmap_2.
  by apply list_elem_of_In, filter_In in Hx as [?%list_elem_of_In _].
Qed.

Lemma elem_of_ListFilter {A} (P : A -> bool) l x : x ∈ List.filter P l <-> x ∈ l /\ P x = true.
Proof. by rewrite !list_elem_of_In, filter_In. Qed.

(** Rolling back, and then dropping the candidate's directory, keep it valid too. *)
Lemma rolled_back_state_ok dirs state source candidate :
  state_ok dirs state -> source ∈ adr_revision_id <$> ads_revisions state -> source <> candidate ->
  state_ok dirs (rolled_back_state state source candidate) /\
  ∀ dirs', (∀ id, id <> candidate -> dirs' !! id = dirs !! id) ->
    state_ok dirs' (rolled_back_state state source candidate).
Proof.
  intros (Hv & Hnd & Hall & _) (r & -> & Hr)%list_elem_of_fmap Hne.
  assert (∀ dirs', (∀ id, id <> candidate -> dirs' !! id = dirs !! id) ->
    state_ok dirs' (rolled_back_state state (adr_revision_id r) candidate)) as Hok; [|by split; [apply Hok|]].
  intros dirs' Hd. unfold state_ok, rolled_back_state. simpl. split_and!; [done|by apply filter_fmap_NoDup| |].
  - rewrite Forall_forall in Hall |- *. intros x [Hx Hneq%negb_true_iff%bool_decide_eq_false]%elem_of_ListFilter.
    destruct (Hall x Hx) as (? & ? & ?). unfold revision_ok. by rewrite Hd.
  - apply list_elem_of_fmap_2, elem_of_ListFilter. split; [done|]. by rewrite bool_decide_eq_false_2.
Qed.
End validity.

(** ** What a restart loads *)

Section operations.
Context `{Uuids, AppDataCodec} (sha256_hex : string -> string) (root_path : string).
Implicit Types (r : AppDataRoot).
Abbreviation file r := (contents (ad_fs r) STATE_FILE).

(** The state a working device loads. *)
Definition stored_state r : outcome string (option AppDataState) :=
  (load_state_optional root_path (set_ad_fs (quiet (ad_fs r)) r)).1.

Definition checked (dirs : gmap string Node) (loaded : outcome string (option AppDataState)) :
    outcome string (option AppDataState) :=
  loaded ← loaded;
  match loaded with None => Ok None | Some state => Some <$> validate_state root_path dirs state end.

Lemma stored_state_contents r :
  stored_state r =
  checked (ad_revisions r) (load_result state_from_str (state_path root_path) "app data state" (file r)).
Proof.
  unfold stored_state, load_state_optional, on_fs. rewrite st_bind_run. simpl.
  destruct (load_json_document_working state_from_str (state_path root_path) "app data state" (ad_fs r))
    as [fs' ->]. unfold file. simpl.
  destruct (load_result _ _ _ _) as [[state|]|e|msg]; done.
Qed.

Lemma stored_state_agree r r' :
  file r' = file r -> ad_revisions r' = ad_revisions r -> stored_state r' = stored_state r.
Proof. intros Hf Hd. rewrite !stored_state_contents. unfold file in *. by rewrite Hf, Hd. Qed.

(** A loaded state is valid for the directories. *)
Lemma stored_state_ok r state : stored_state r = Ok (Some state) -> state_ok root_path (ad_revisions r) state.
Proof.
  rewrite stored_state_contents. unfold checked. intros Hs. inv_ok Hs.
  destruct a as [state'|]; [|done]. destruct (validate_state _ _ _) eqn:E; simplify_eq/=.
  by apply validate_state_Ok in E as [-> ?].
Qed.

Lemma load_state_optional_inv r o r' :
  load_state_optional root_path r = (o, r') ->
  file r' = file r /\ ad_revisions r' = ad_revisions r /\
  (∀ state, honest (ad_fs r) -> o = Ok state -> stored_state r = Ok state).
Proof.
  unfold load_state_optional, on_fs. rewrite st_bind_run.
  pose proof (load_json_document_keeps state_from_str (state_path root_path) "app data state" (ad_fs r)) as Hk.
  pose proof (load_json_document_honest state_from_str (state_path root_path) "app data state" (ad_fs r)) as Hh.
  destruct (load_json_document _ _ _ (ad_fs r)) as [[loaded|e|msg] fs'];
    [|intros [= <- <-]; unfold contents; simpl in *; rewrite Hk; by split_and!..].
  intros Hr. assert (r' = set_ad_fs fs' r /\
    o = checked (ad_revisions r) (Ok loaded)) as [-> ->].
  { rewrite st_bind_run in Hr. simpl in Hr. destruct loaded; simpl in Hr; by injection Hr as <- <-. }
  unfold contents. simpl in *. rewrite Hk. split_and!; [done..|]. intros state Hhon Hok.
  rewrite stored_state_contents. unfold contents.
  specialize (Hh loaded fs' Hhon eq_refl). unfold contents in Hh. simpl in Hh. by rewrite Hh.
Qed.

Lemma persist_state_inv state r o r' :
  persist_state root_path state r = (o, r') ->
  ad_revisions r' = ad_revisions r /\
  ((∃ bytes, state_to_vec_pretty state = inr bytes /\ file r' = Some bytes) \/
   (o <> Ok tt /\ file r' = file r)).
Proof.
  unfold persist_state, on_fs, st_map_err.
  destruct (persist_json_document _ _ _ _ _ _) as [r0 fs'] eqn:E. intros [= <- <-]. split; [done|].
  apply persist_json_document_contents in E as [(bytes & ? & ? & _)|(e & -> & _ & ?)]; [left; eauto|by right].
Qed.

(** A state that was written and is valid is what the next load returns. *)
Lemma stored_after_write `{!AppDataCodecLaws} r state bytes :
  state_to_vec_pretty state = inr bytes -> file r = Some bytes ->
  state_ok root_path (ad_revisions r) state -> stored_state r = Ok (Some state).
Proof.
  intros [Hutf Hback]%state_codec_roundtrip Hf Hok. rewrite stored_state_contents, Hf. simpl.
  rewrite Hutf, Hback. simpl.
  destruct (validate_state_Ok root_path (ad_revisions r) state state) as [_ ->]; done.
Qed.

(** Either the write took effect and the next load returns the new state, or the
    call failed and it returns what it did before. *)
Lemma persist_state_stored `{!AppDataCodecLaws} state r o r' :
  state_ok root_path (ad_revisions r) state -> persist_state root_path state r = (o, r') ->
  ad_revisions r' = ad_revisions r /\
  (stored_state r' = Ok (Some state) \/ (o <> Ok tt /\ stored_state r' = stored_state r)).
Proof.
  intros Hok (Hd & [(bytes & Hser & Hf)|[He Hf]])%persist_state_inv; (split; [done|]).
  - left. eapply stored_after_write; [done..|]. by rewrite Hd.
  - right. split; [done|]. by apply stored_state_agree.
Qed.

Lemma dir_remove_all_inv name r o r' :
  dir_remove_all name r = (o, r') ->
  file r' = file r /\ (∀ id, id <> name -> ad_revisions r' !! id = ad_revisions r !! id) /\
  (o = Ok tt -> ad_revisions r' !! name = None).
Proof.
  unfold dir_remove_all, dir_io. destruct (head (fs_faults (ad_fs r))) as [[fault|]|].
  - intros [= <- <-]. split_and!; [done| |done]. intros id Hne. simpl. by rewrite lookup_alter_ne.
  - destruct (ad_revisions r !! name) eqn:E; intros [= <- <-]; simpl; split_and!; try done.
    + intros id Hne. by rewrite lookup_delete_ne.
    + intros _. apply lookup_delete_eq.
  - destruct (ad_revisions r !! name) eqn:E; intros [= <- <-]; simpl; split_and!; try done.
    + intros id Hne. by rewrite lookup_delete_ne.
    + intros _. apply lookup_delete_eq.
Qed.

Lemma discard_candidate_inv name r o r' :
  discard_candidate name r = (o, r') ->
  file r' = file r /\ (∀ id, id <> name -> ad_revisions r' !! id = ad_revisions r !! id) /\
  (o = Ok tt -> ad_revisions r' !! name = None).
Proof.
  unfold discard_candidate. rewrite st_bind_run. simpl. unfold dir_exists.
  case_bool_decide as Hex; simpl.
  - unfold io_context, st_map_err. destruct (dir_remove_all name r) as [o1 r1] eqn:E.
    intros [= <- <-]. apply dir_remove_all_inv in E as (? & ? & Ho). split_and!; try done.
    intros Hok. destruct o1 as [[]| |]; try done. by apply Ho.
  - intros [= <- <-]. split_and!; try done. intros _. by apply eq_None_not_Some.
Qed.

(** ** Commit and rollback *)

Lemma commit_candidate_inv `{!AppDataCodecLaws} state source candidate r o r' :
  honest (ad_fs r) -> stored_state r = Ok (Some state) ->
  ads_active_revision_id state = source \/ ads_active_revision_id state = adr_revision_id candidate ->
  revision_ok root_path (ad_revisions r) candidate ->
  commit_candidate root_path (Some source) candidate r = (o, r') ->
  ad_revisions r' = ad_revisions r /\
  (stored_state r' = Ok (Some state) /\
     (o = Ok tt -> ads_active_revision_id state = adr_revision_id candidate) \/
   stored_state r' = Ok (Some (committed_state state candidate))).
Proof.
  intros Hh Hs Hact Hc. unfold commit_candidate. rewrite st_bind_run.
  destruct (load_state_optional root_path r) as [ol r1] eqn:El.
  apply load_state_optional_inv in El as (Hf & Hd & Hok).
  assert (stored_state r1 = stored_state r) as Hs1 by by apply stored_state_agree.
  rewrite <- Hs1 in Hs.
  destruct ol as [loaded|e|msg]; [|by intros [= <- <-]; split; [|left]..].
  specialize (Hok loaded Hh eq_refl). rewrite <- Hs1, Hs in Hok. injection Hok as <-. simpl.
  case_bool_decide as Hsrc; simpl.
  2:{ destruct Hact as [?|Hact]; [done|]. rewrite Hact, bool_decide_eq_true_2 by done.
      intros [= <- <-]. by split; [|left]. }
  rewrite st_bind_run. simpl. destruct (dir_is_dir _ r1); simpl;
    [|by intros [= <- <-]; split; [|left]].
  intros (Hd' & Hor)%persist_state_stored.
  - rewrite Hd', Hd. split; [done|]. destruct Hor as [?|[? ->]]; [by right|]. left. by split.
  - apply committed_state_ok; rewrite Hd; [|done]. by rewrite <- Hd; apply stored_state_ok.
Qed.

Lemma load_state_inv r o r' :
  load_state root_path r = (o, r') ->
  file r' = file r /\ ad_revisions r' = ad_revisions r /\
  (∀ state, honest (ad_fs r) -> o = Ok state -> stored_state r = Ok (Some state)).
Proof.
  unfold load_state. rewrite st_bind_run. destruct (load_state_optional root_path r) as [ol r1] eqn:El.
  apply load_state_optional_inv in El as (Hf & Hd & Hok).
  destruct ol as [loaded|e|msg]; intros [= <- <-]; split_and!; try done.
  intros state Hh. destruct loaded; simpl; [|done]. intros [= ->]. by apply Hok.
Qed.

Lemma rollback_transition_inv `{!AppDataCodecLaws} state source candidate r o r' :
  honest (ad_fs r) -> stored_state r = Ok (Some state) ->
  source ∈ adr_revision_id <$> ads_revisions state -> source <> candidate ->
  rollback_transition root_path (Some source) candidate r = (o, r') ->
  (∀ id, id <> candidate -> ad_revisions r' !! id = ad_revisions r !! id) /\
  (stored_state r' = Ok (Some (rolled_back_state state source candidate)) /\
     (o = Ok tt -> ad_revisions r' !! candidate = None) \/
   stored_state r' = Ok (Some state) /\ o <> Ok tt).
Proof.
  intros Hh Hs Hsrc Hne. unfold rollback_transition. rewrite st_bind_run.
  destruct (load_state root_path r) as [ol r1] eqn:El. apply load_state_inv in El as (Hf & Hd & Hok).
  assert (stored_state r1 = stored_state r) as Hs1 by by apply stored_state_agree.
  destruct ol as [loaded|e|msg]; [|intros [= <- <-]; rewrite Hd, Hs1; by split; [|right]..].
  specialize (Hok loaded Hh eq_refl). rewrite Hs in Hok. injection Hok as <-.
  rewrite (proj2 (has_revision_true _ _) Hsrc). simpl. rewrite st_bind_run.
  pose proof (stored_state_ok _ _ Hs) as Hstate.
  destruct (rolled_back_state_ok root_path _ _ _ candidate Hstate Hsrc Hne) as [Hrb Hrb'].
  destruct (persist_state root_path _ r1) as [op r2] eqn:Ep.
  apply persist_state_stored in Ep as (Hd2 & Hor); [|by rewrite Hd].
  destruct op as [[]|e|msg].
  - destruct Hor as [Hs2|[? _]]; [|done].
    intros (Hf3 & Hd3 & Hgone)%discard_candidate_inv.
    assert (∀ id, id <> candidate -> ad_revisions r' !! id = ad_revisions r !! id) as Hdirs.
    { intros id Hid. by rewrite Hd3, Hd2, Hd. }
    split; [done|]. left. split; [|done].
    rewrite stored_state_contents in Hs2 |- *. unfold file in *. rewrite Hf3.
    destruct (load_result _ _ _ _) as [[st|]| |]; try done. simpl in *.
    destruct (validate_state root_path (ad_revisions r2) st) as [st'| |] eqn:Ev; try done.
    apply validate_state_Ok in Ev as [-> _]. simpl in Hs2. injection Hs2 as ->.
    destruct (validate_state_Ok root_path (ad_revisions r') (rolled_back_state state source candidate)
      (rolled_back_state state source candidate)) as [_ ->]; [done|]. split; [done|]. by apply Hrb'.
  - intros [= <- <-]. rewrite Hd2, Hd. split; [done|]. destruct Hor as [?|[? Hs2]]; [by left|right].
    by rewrite Hs2, Hs1.
  - intros [= <- <-]. rewrite Hd2, Hd. split; [done|]. destruct Hor as [?|[? Hs2]]; [by left|right].
    by rewrite Hs2, Hs1.
Qed.

(** C33: A data migration is all-or-nothing and reversible, whichever calls of the device
    fail, provided no failure reports an existing file as not found (such a report for
    the state file is read as success without a write): committing a validated candidate leaves a state that a restart can load
    and whose active revision is the source or the candidate (the candidate when the
    commit succeeded); rolling back from there again leaves a loadable state, with the
    source active and the candidate's directory gone when it succeeds; and neither
    touches the source's files. *)
Theorem data_migration_reversible `{!AppDataCodecLaws} state source candidate r o r1 o2 r2 :
  honest (ad_fs r) -> honest (ad_fs r1) ->
  stored_state r = Ok (Some state) -> ads_active_revision_id state = source ->
  adr_revision_id candidate <> source -> revision_ok root_path (ad_revisions r) candidate ->
  commit_candidate root_path (Some source) candidate r = (o, r1) ->
  rollback_transition root_path (Some source) (adr_revision_id candidate) r1 = (o2, r2) ->
  (∃ state1, stored_state r1 = Ok (Some state1) /\
     (o = Ok tt -> ads_active_revision_id state1 = adr_revision_id candidate) /\
     ads_active_revision_id state1 ∈ [source; adr_revision_id candidate]) /\
  (∃ state2, stored_state r2 = Ok (Some state2) /\
     ads_active_revision_id state2 ∈ [source; adr_revision_id candidate] /\
     (o2 = Ok tt -> ads_active_revision_id state2 = source /\
                    ad_revisions r2 !! adr_revision_id candidate = None)) /\
  ad_revisions r2 !! source = ad_revisions r !! source.
Proof.
  intros Hh Hh1 Hs Hact Hne Hc Hcommit Hroll.
  pose proof (stored_state_ok _ _ Hs) as (_ & _ & _ & Hin). rewrite Hact in Hin.
  apply (commit_candidate_inv state) in Hcommit as (Hd & Hor); [|auto..].
  assert (∃ state1, stored_state r1 = Ok (Some state1) /\
    (o = Ok tt -> ads_active_revision_id state1 = adr_revision_id candidate) /\
    ads_active_revision_id state1 ∈ [source; adr_revision_id candidate] /\
    source ∈ adr_revision_id <$> ads_revisions state1) as (state1 & Hs1 & Ho1 & Ha1 & Hin1).
  { destruct Hor as [[Hs1 Ho]|Hs1].
    - exists state. split_and!; [done| |rewrite Hact; left|done]. intros Hok. by rewrite <- Hact in Hne; apply Ho in Hok.
    - exists (committed_state state candidate). split_and!; [done|done|simpl; right; left|].
      simpl. destruct (has_revision _ _); [done|]. rewrite fmap_app, elem_of_app. by left. }
  split; [eauto|].
  apply (rollback_transition_inv state1) in Hroll as (Hd2 & Hor2); [|done..].
  split; [|by rewrite Hd2, Hd].
  destruct Hor2 as [[Hs2 Hgone]|[Hs2 He]].
  - eexists. split; [exact Hs2|]. simpl. split; [left|]. auto.
  - eexists. split; [exact Hs2|]. done.
Qed.
End operations.

(** ** What the state document names *)

Section naming.
Context `{Uuids, AppDataCodec, !AppDataCodecLaws} (sha256_hex : string -> string) (root_path : string).
Implicit Types (r : AppDataRoot) (x source : option string).
Abbreviation file r := (contents (ad_fs r) STATE_FILE).
Abbreviation data_op := (st AppDataRoot string).
Abbreviation loads r := (load_result state_from_str (state_path root_path) "app data state" (file r)).

(** The document of the directory can be read and makes revision [x] active; without a
    document there is none. *)
Definition names r x : Prop := ∃ loaded, loads r = Ok loaded /\ x = ads_active_revision_id <$> loaded.

Lemma names_agree r r' x : file r' = file r -> names r x -> names r' x.
Proof. intros Hf Hn. unfold names. by rewrite Hf. Qed.

Lemma names_inj r x y : names r x -> names r y -> x = y.
Proof. intros (l & Hl & ->) (l' & Hl' & ->). congruence. Qed.

(** A call that leaves the document and the kind of the failures to come as they are. *)
Definition spares_document {A} (m : data_op A) : Prop :=
  ∀ bytes, preserves (fun r => file r = bytes /\ honest (ad_fs r)) m.

Lemma spares_names {A} (m : data_op A) r x :
  spares_document m -> honest (ad_fs r) -> names r x -> names (m r).2 x /\ honest (ad_fs (m r).2).
Proof.
  intros Hm Hh Hn. destruct (Hm (file r) r (conj eq_refl Hh)) as [Hf Hh']. split; [by eapply names_agree|done].
Qed.

Lemma spares_bind {A B} (m : data_op A) (k : A -> data_op B) :
  spares_document m -> (∀ a, spares_document (k a)) -> spares_document (m ≫= k).
Proof. intros Hm Hk bytes. apply preserves_bind; [apply Hm|intros a; apply Hk]. Qed.
Lemma spares_ret {A} (a : A) : spares_document (mret a).
Proof. intros bytes. apply preserves_ret. Qed.
Lemma spares_get {A} (f : AppDataRoot -> A) : spares_document (st_get f).
Proof. intros bytes. apply preserves_get. Qed.
Lemma spares_lift {A} (o : outcome string A) : spares_document (st_lift o).
Proof. intros bytes. apply preserves_lift. Qed.
Lemma spares_fail {A} (e : string) : spares_document (st_fail e : data_op A).
Proof. intros bytes. apply preserves_fail. Qed.

Lemma spares_dir_io {A} what partial (m : gmap string Node -> outcome IoError A * gmap string Node) :
  spares_document (io_context what (dir_io partial m)).
Proof.
  intros bytes r [Hf Hh]. unfold io_context, st_map_err, dir_io, honest in *.
  destruct (ad_fs r) as [ex dir pend faults uuids]. simpl in *.
  destruct faults as [|[fault|] faults]; simpl in *; try destruct (m (ad_revisions r)) as [o dirs]; simpl;
    (split; [exact Hf|]); intros fault' Hin; apply Hh; [exact Hin|by right..].
Qed.

Lemma spares_ignore_dir_io {A} partial (m : gmap string Node -> outcome IoError A * gmap string Node) :
  spares_document (ignore (dir_io partial m)).
Proof.
  intros bytes r Hr. pose proof (spares_dir_io "" partial m bytes r Hr) as Hs. unfold io_context, st_map_err, ignore in *.
  destruct (dir_io partial m r) as [[a|e|msg] r']; exact Hs.
Qed.

Lemma spares_create_all what :
  spares_document (st_map_err (fun e => what +:+ io_message e) (on_fs create_dir_all)).
Proof.
  intros bytes r [Hf Hh]. unfold st_map_err, on_fs, create_dir_all, io_all, io, contents, honest in *.
  destruct (ad_fs r) as [ex dir pend faults uuids]. simpl in *.
  destruct faults as [|[fault|] faults]; simpl in *; (split; [exact Hf|]); intros fault' Hin; apply Hh; [exact Hin|by right..].
Qed.

#[local] Hint Resolve spares_ret spares_get spares_lift spares_fail spares_dir_io spares_ignore_dir_io
  spares_create_all : core.

Ltac spares_walk :=
  repeat first
    [ solve [auto 2]
    | apply spares_bind; [|intros ?]
    | match goal with |- spares_document (match ?c with _ => _ end) => destruct c end ].

Lemma spares_revision_digest id : spares_document (revision_digest sha256_hex root_path id).
Proof. unfold revision_digest. spares_walk. Qed.

Lemma spares_stage_candidate candidate source :
  spares_document (stage_candidate sha256_hex root_path candidate source).
Proof.
  pose proof spares_revision_digest. unfold stage_candidate, copy_tree, dir_remove_all, dir_create, dir_fill.
  spares_walk.
Qed.

Lemma spares_discard_candidate id : spares_document (discard_candidate id).
Proof. unfold discard_candidate, dir_remove_all. spares_walk. Qed.

Lemma spares_stage_removals ids : spares_document (stage_removals ids).
Proof. induction ids; simpl; unfold dir_rename; spares_walk. Qed.
Lemma spares_restore_removals ids : spares_document (restore_removals ids).
Proof. induction ids; simpl; unfold dir_rename; spares_walk. Qed.
Lemma spares_remove_staged ids : spares_document (remove_staged ids).
Proof. induction ids; simpl; unfold dir_remove_all; spares_walk. Qed.

Lemma spares_load_state_optional : spares_document (load_state_optional root_path).
Proof.
  unfold load_state_optional. apply spares_bind; [|intros loaded; spares_walk].
  intros bytes r [Hf Hh]. unfold on_fs.
  pose proof (load_json_document_keeps state_from_str (state_path root_path) "app data state" (ad_fs r)) as Hk.
  pose proof (load_json_document_preserves_honest state_from_str (state_path root_path) "app data state" _ Hh) as Hh'.
  destruct (load_json_document _ _ _ (ad_fs r)) as [o fs']. simpl in *. split; [|done].
  rewrite <- Hf. unfold contents. by rewrite Hk.
Qed.

Lemma spares_load_state : spares_document (load_state root_path).
Proof. unfold load_state. apply spares_bind; [apply spares_load_state_optional|intros ?; spares_walk]. Qed.

(** A load that succeeds found what the document names. *)
Lemma load_names r loaded r' x :
  honest (ad_fs r) -> load_state_optional root_path r = (Ok loaded, r') -> names r x ->
  x = ads_active_revision_id <$> loaded.
Proof.
  intros Hh Hl (found & Hfound & ->). apply load_state_optional_inv in Hl as (_ & _ & Hs).
  specialize (Hs loaded Hh eq_refl). rewrite stored_state_contents, Hfound in Hs. simpl in Hs.
  destruct found as [state|]; [|by simplify_eq].
  destruct (validate_state _ _ _) as [state'| |] eqn:E; simplify_eq/=.
  by apply validate_state_Ok in E as [-> _].
Qed.

(** Writing a document: it names its own revision, or the call failed and the old one
    is still there. *)
Lemma persist_names state r x :
  honest (ad_fs r) -> names r x ->
  let p := persist_state root_path state r in
  honest (ad_fs p.2) /\
  (names p.2 (Some (ads_active_revision_id state)) \/ (names p.2 x /\ p.1 <> Ok tt)).
Proof.
  intros Hh Hn. destruct (persist_state root_path state r) as [o r'] eqn:E. simpl. split.
  { unfold persist_state, on_fs, st_map_err in E.
    pose proof (persist_honest state_to_vec_pretty (state_path root_path) state "app data state" _ Hh) as Hp.
    destruct (persist_json_document _ _ _ _ _ _) as [r0 fs']. by simplify_eq/=. }
  apply persist_state_inv in E as [_ [(bytes & Hser & Hf)|[He Hf]]].
  - left. exists (Some state). unfold contents in *. rewrite Hf. apply state_codec_roundtrip in Hser as [Hutf Hback].
    simpl. by rewrite Hutf, Hback.
  - right. split; [by eapply names_agree|done].
Qed.

(** What a call may do to the document: an honest device stays honest, the document
    names [x] as before or [y], and [y] when the call succeeds. *)
Definition renames {A} (m : data_op A) (r : AppDataRoot) x (y : option string) : Prop :=
  honest (ad_fs (m r).2) /\
  (names (m r).2 y \/ (names (m r).2 x /\ ∀ a, (m r).1 <> Ok a)).

Lemma spares_renames {A} (m : data_op A) r x :
  spares_document m -> honest (ad_fs r) -> names r x -> renames m r x x.
Proof. intros Hm Hh Hn. destruct (spares_names m r x Hm Hh Hn) as [? ?]. split; [done|by left]. Qed.

(** After a call that leaves the document alone. *)
Lemma renames_after {A B} (m : data_op A) (k : A -> data_op B) r x y :
  spares_document m -> honest (ad_fs r) -> names r x ->
  (∀ a r', m r = (Ok a, r') -> honest (ad_fs r') -> names r' x -> renames (k a) r' x y) ->
  renames (m ≫= k) r x y.
Proof.
  intros Hm Hh Hn Hk. destruct (spares_names m r x Hm Hh Hn) as [Hn' Hh']. unfold renames. rewrite st_bind_run.
  destruct (m r) as [[a|e|msg] r'] eqn:E; simpl in *; [by apply Hk|split; [done|by right]..].
Qed.

(** Before one. *)
Lemma renames_then {A B} (m : data_op A) (k : A -> data_op B) r x y :
  renames m r x y -> (∀ a, spares_document (k a)) -> renames (m ≫= k) r x y.
Proof.
  unfold renames. intros [Hh Hor] Hk. rewrite st_bind_run. destruct (m r) as [[a|e|msg] r']; simpl in *.
  - destruct Hor as [Hn|[_ Ho]]; [|by destruct (Ho a)].
    destruct (spares_names (k a) r' y (Hk a) Hh Hn) as [Hn' Hh']. split; [done|by left].
  - split; [done|]. destruct Hor as [?|[? _]]; [by left|right; done].
  - split; [done|]. destruct Hor as [?|[? _]]; [by left|right; done].
Qed.

Lemma renames_fails {A} (e : string) r x y :
  honest (ad_fs r) -> names r x -> renames (st_fail e : data_op A) r x y.
Proof. intros Hh Hn. split; [done|]. right. done. Qed.

Lemma persist_renames state r x :
  honest (ad_fs r) -> names r x -> renames (persist_state root_path state) r x (Some (ads_active_revision_id state)).
Proof.
  intros Hh Hn. destruct (persist_names state r x Hh Hn) as [Hh' Hor]. split; [done|].
  destruct Hor as [?|[? Ho]]; [by left|right]. split; [done|]. by intros [].
Qed.

(** A commit makes the candidate active (when a source is expected, a document has to be
    there: without one the code takes the commit for done). *)
Lemma commit_renames source candidate r x :
  honest (ad_fs r) -> names r x -> (is_Some source -> is_Some x) ->
  renames (commit_candidate root_path source candidate) r x (Some (adr_revision_id candidate)).
Proof.
  intros Hh Hn Hsx. unfold commit_candidate. apply renames_after; [apply spares_load_state_optional|done..|].
  intros loaded r1 Hl Hh1 Hn1. apply (load_names _ _ _ x) in Hl; [|done..]. set (state := default _ loaded).
  assert (renames (present ← st_get (dir_is_dir (adr_revision_id candidate));
    if negb present then st_fail "validated app-data migration candidate is missing"
    else persist_state root_path (committed_state state candidate)) r1 x (Some (adr_revision_id candidate))) as Hp.
  { apply renames_after; [auto|done..|]. intros present r2 _ Hh2 Hn2. destruct present; simpl.
    - by apply (persist_renames (committed_state state candidate)).
    - by apply renames_fails. }
  destruct source as [source|]; [|exact Hp].
  destruct (bool_decide (ads_active_revision_id state = source)); simpl; [exact Hp|].
  case_bool_decide as Hid; [|by apply renames_fails]. split; [done|]. left. simpl.
  unfold state in Hid. destruct loaded as [state'|]; simpl in *; [by rewrite <- Hid, <- Hl|].
  destruct (Hsx ltac:(done)) as [? ?]. congruence.
Qed.

Lemma remove_state_file_renames r x :
  honest (ad_fs r) -> names r x -> renames remove_state_file r x None.
Proof.
  intros Hh Hn. unfold renames, remove_state_file, on_fs.
  pose proof (fs_remove_file_honest STATE_FILE _ Hh) as Hh'.
  destruct (fs_remove_file STATE_FILE (ad_fs r)) as [o fs'] eqn:E. simpl in Hh'.
  apply contents_remove in E as [[-> Hc]|[(e & -> & Hk & _ & Hc)|(e & -> & Hk & Hc)]]; [..|done].
  - split; [done|]. left. exists None. simpl. by rewrite Hc.
  - rewrite Hk. split; [done|]. left. exists None. simpl. by rewrite Hc.
  - destruct (io_kind e); try done; (split; [done|]); right; (split; [|done]); by eapply names_agree.
Qed.

(** A rollback goes back to the source, or to no document where there was none. *)
Lemma rollback_renames source candidate r x :
  honest (ad_fs r) -> names r x -> renames (rollback_transition root_path source candidate) r x source.
Proof.
  intros Hh Hn. unfold rollback_transition. destruct source as [source|].
  - apply renames_after; [apply spares_load_state|done..|]. intros state r1 _ Hh1 Hn1.
    destruct (negb _); [by apply renames_fails|].
    apply renames_then; [|intros _; apply spares_discard_candidate].
    by apply (persist_renames (rolled_back_state state source candidate)).
  - apply renames_after; [apply spares_load_state_optional|done..|]. intros state r1 _ Hh1 Hn1.
    assert (renames (_ ← remove_state_file; discard_candidate candidate) r1 x None) as Hr.
    { apply renames_then; [by apply remove_state_file_renames|intros _; apply spares_discard_candidate]. }
    destruct state as [state|]; [|exact Hr]. destruct (negb _); [by apply renames_fails|exact Hr].
Qed.

(** Pruning backups never changes what is active. *)
Lemma prune_renames retention r x :
  honest (ad_fs r) -> names r x -> renames (prune_backups root_path retention) r x x.
Proof.
  intros Hh Hn. unfold prune_backups. destruct (retention =? 0)%N; [by apply renames_fails|].
  apply renames_after; [apply spares_load_state|done..|]. intros state r1 Hl Hh1 Hn1.
  assert (x = Some (ads_active_revision_id state)) as Hx.
  { unfold load_state in Hl. inv_ok Hl. apply (load_names _ _ _ x) in Hok; [|done..].
    destruct a as [state'|]; by simplify_eq/=. }
  case_bool_decide; [by apply spares_renames; [auto|..]|].
  apply renames_after; [apply spares_stage_removals|done..|]. intros [] r2 _ Hh2 Hn2.
  destruct (persist_names (pruned_state state (pruned_ids state retention)) r2 x Hh2 Hn2) as [Hh3 Hor].
  simpl (ads_active_revision_id _) in Hor. rewrite <- Hx in Hor. unfold renames, finish_pruning.
  assert (names (persist_state root_path (pruned_state state (pruned_ids state retention)) r2).2 x) as Hn3
    by by destruct Hor as [?|[? _]].
  destruct (persist_state _ _ r2) as [[[]|e|msg] r3]; simpl in *.
  - apply (spares_renames (remove_staged (pruned_ids state retention))); [apply spares_remove_staged|done..].
  - apply (spares_renames (_ ← restore_removals (pruned_ids state retention); st_fail e)); [|done..].
    apply spares_bind; [apply spares_restore_removals|auto].
  - split; [done|by left].
Qed.
End naming.
