(* ===== verification/UpdateJournal.v ===== *)
(** * The journal of an app update

    [host/src-tauri/src/app_manager/update_journal.rs] and the durable types of
    [app_manager.rs]: revisions, install records, and the phases an update goes
    through. *)

From S2P Require Import Prelude RustStd RustText AtomicJson Packages AppData.

Definition JOURNAL_VERSION : N := 2.

Inductive ManagedAppOperation := OpInstall | OpUpdate | OpReinstall | OpVersionConflict | OpDowngrade | OpRevert.

Inductive UpdatePhase :=
  | Prepared | Deactivated | DataCandidateValidated | DataCommitted | Activated
  | RollingBack | DataRollbackCommitted | RolledBack | UpdateCommitted.

#[export] Instance ManagedAppOperation_eq_dec : EqDecision ManagedAppOperation.
Proof. solve_decision. Defined.
#[export] Instance UpdatePhase_eq_dec : EqDecision UpdatePhase.
Proof. solve_decision. Defined.

Record AppRevision := {
  rv_revision_id : string;
  rv_version : string;
  rv_display_name : string;
  rv_description : string;
  rv_backend_kind : string;
  rv_publisher : option string;
  rv_signature_verdict : string;
  rv_signature_key_id : option string;
  rv_min_host_version : string;
  rv_installed_at : string;
  rv_payload_dir : string;
  rv_package_digest : string;
}.

Record AppDataTransitionJournal := {
  dt_source_revision_id : option string;
  dt_source_format_version : option N;
  dt_source_digest : option string;
  dt_candidate : AppDataRevision;
  dt_candidate_digest : option string;
  dt_migration_revision_id : option string;
  dt_destructive : bool;
}.

Record UpdateJournal := {
  uj_version : N;
  uj_transition_id : string;
  uj_app_id : string;
  uj_operation : ManagedAppOperation;
  uj_phase : UpdatePhase;
  uj_current_revision_id : option string;
  uj_target_revision : AppRevision;
  uj_prior_revisions : list AppRevision;
  uj_enabled : bool;
  uj_data_transition : option AppDataTransitionJournal;
}.

Definition with_phase (phase : UpdatePhase) (j : UpdateJournal) : UpdateJournal :=
  {| uj_version := uj_version j; uj_transition_id := uj_transition_id j; uj_app_id := uj_app_id j;
     uj_operation := uj_operation j; uj_phase := phase;
     uj_current_revision_id := uj_current_revision_id j; uj_target_revision := uj_target_revision j;
     uj_prior_revisions := uj_prior_revisions j; uj_enabled := uj_enabled j;
     uj_data_transition := uj_data_transition j |}.

Definition with_data_transition (data : option AppDataTransitionJournal) (j : UpdateJournal) : UpdateJournal :=
  {| uj_version := uj_version j; uj_transition_id := uj_transition_id j; uj_app_id := uj_app_id j;
     uj_operation := uj_operation j; uj_phase := uj_phase j;
     uj_current_revision_id := uj_current_revision_id j; uj_target_revision := uj_target_revision j;
     uj_prior_revisions := uj_prior_revisions j; uj_enabled := uj_enabled j;
     uj_data_transition := data |}.

(** [UpdateJournal::new]. *)
Definition journal_new (transition_id app_id : string) (operation : ManagedAppOperation)
    (current_revision_id : option string) (target_revision : AppRevision)
    (prior_revisions : list AppRevision) (enabled : bool) : UpdateJournal :=
  {| uj_version := JOURNAL_VERSION; uj_transition_id := transition_id; uj_app_id := app_id;
     uj_operation := operation; uj_phase := Prepared; uj_current_revision_id := current_revision_id;
     uj_target_revision := target_revision; uj_prior_revisions := prior_revisions;
     uj_enabled := enabled; uj_data_transition := None |}.

Definition is_data_phase (phase : UpdatePhase) : bool :=
  match phase with DataCandidateValidated | DataCommitted | DataRollbackCommitted => true | _ => false end.

(** The phases in which both digests must be recorded. *)
Definition digest_phase (phase : UpdatePhase) : bool :=
  match phase with
  | DataCandidateValidated | DataCommitted | Activated | RollingBack | DataRollbackCommitted
  | RolledBack | UpdateCommitted => true
  | Prepared | Deactivated => false
  end.

Section validate.
Context `{Uuids}.

Definition validate_version (j : UpdateJournal) : outcome string unit :=
  if (uj_version j =? JOURNAL_VERSION)%N then Ok tt
  else Err ("unsupported app update journal version " +:+ pretty (uj_version j) +:+ "; expected 2").

Definition validate_source (data : AppDataTransitionJournal) : outcome string unit :=
  let inconsistent := Err "app update journal has inconsistent source data migration fields" in
  match dt_source_revision_id data, dt_source_format_version data, dt_migration_revision_id data with
  | None, None, None => Ok tt
  | Some source, Some format, Some _ =>
      if (format =? 0)%N then inconsistent
      else if parse_str_ok source then Ok tt
      else Err "app update journal has an invalid source data revision id"
  | _, _, _ => inconsistent
  end.

Definition validate (j : UpdateJournal) : outcome string unit :=
  _ ← validate_version j;
  if bool_decide (trim (uj_transition_id j) = EmptyString) || bool_decide (trim (uj_app_id j) = EmptyString)
  then Err "app update journal has an empty transition or app id"
  else match uj_data_transition j with
  | None =>
      if is_data_phase (uj_phase j)
      then Err "app update journal entered a data phase without a data transition" else Ok tt
  | Some data =>
      if negb (parse_str_ok (adr_revision_id (dt_candidate data)))
      then Err "app update journal has an invalid data candidate id"
      else if (adr_format_version (dt_candidate data) =? 0)%N
      then Err "app update journal has an invalid target data format"
      else
        _ ← validate_source data;
        let source_digest_required :=
          bool_decide (is_Some (dt_source_revision_id data)) && digest_phase (uj_phase j) in
        if negb (bool_decide (source_digest_required = bool_decide (is_Some (dt_source_digest data))))
        then Err "app update journal has inconsistent source data digest state"
        else if negb (bool_decide (digest_phase (uj_phase j) = bool_decide (is_Some (dt_candidate_digest data))))
        then Err "app update journal has inconsistent candidate data digest state"
        else Ok tt
  end.
End validate.
