(* ===== verification/AppManager.v ===== *)
(** * The app manager

    [host/src-tauri/src/app_manager.rs]: install records with their retained
    revisions, and the journaled steps of an update. The two documents of the manager
    (the records and the journal) are files of one directory; the data of each app is
    its [AppDataRoot]. Serde is a parameter, and so is the reading of a payload
    directory's [app.json]. *)

From S2P Require Import Prelude RustStd RustText AtomicJson Packages AppData UpdateJournal.

Definition APP_STORE_VERSION : N := 4.
Definition RETAINED_REVISIONS : nat := 2.

Record InstallRecord := {
  ir_id : string;
  ir_enabled : bool;
  ir_uninstalling : bool;
  ir_lifecycle_generation : N;
  ir_purge_secrets : bool;
  ir_purge_data : bool;
  ir_purge_secret_names : list string;
  ir_active_revision_id : string;
  ir_revisions : list AppRevision;
}.

Record StoreDocument := { so_version : N; so_apps : list InstallRecord }.

(** Serde for the records and the journal. *)
Class ManagerCodec := {
  store_to_vec_pretty : StoreDocument -> string + string;
  store_from_str : string -> string + StoreDocument;
  journal_to_vec_pretty : UpdateJournal -> string + string;
  journal_from_str : string -> string + UpdateJournal;
}.

Class ManagerCodecLaws `{ManagerCodec} : Prop := {
  store_codec_roundtrip : ∀ document bytes,
    store_to_vec_pretty document = inr bytes ->
    utf8_valid bytes = true /\ store_from_str bytes = inr document;
  journal_codec_roundtrip : ∀ journal bytes,
    journal_to_vec_pretty journal = inr bytes ->
    utf8_valid bytes = true /\ journal_from_str bytes = inr journal;
}.

Record AppManager := {
  am_store_path : option Path;
  am_journal_path : option Path;
  am_records : gmap string InstallRecord;
  am_update_journal : option UpdateJournal;
  am_failures : gmap string string;
  am_fs : FileSystem;
  am_data : gmap string AppDataRoot;
}.

Definition set_records (records : gmap string InstallRecord) (m : AppManager) : AppManager :=
  {| am_store_path := am_store_path m; am_journal_path := am_journal_path m; am_records := records;
     am_update_journal := am_update_journal m; am_failures := am_failures m; am_fs := am_fs m;
     am_data := am_data m |}.
Definition set_journal (journal : option UpdateJournal) (m : AppManager) : AppManager :=
  {| am_store_path := am_store_path m; am_journal_path := am_journal_path m; am_records := am_records m;
     am_update_journal := journal; am_failures := am_failures m; am_fs := am_fs m; am_data := am_data m |}.
Definition set_fs (fs : FileSystem) (m : AppManager) : AppManager :=
  {| am_store_path := am_store_path m; am_journal_path := am_journal_path m; am_records := am_records m;
     am_update_journal := am_update_journal m; am_failures := am_failures m; am_fs := fs; am_data := am_data m |}.
Definition set_failures (failures : gmap string string) (m : AppManager) : AppManager :=
  {| am_store_path := am_store_path m; am_journal_path := am_journal_path m; am_records := am_records m;
     am_update_journal := am_update_journal m; am_failures := failures; am_fs := am_fs m; am_data := am_data m |}.
Definition set_data (data : gmap string AppDataRoot) (m : AppManager) : AppManager :=
  {| am_store_path := am_store_path m; am_journal_path := am_journal_path m; am_records := am_records m;
     am_update_journal := am_update_journal m; am_failures := am_failures m; am_fs := am_fs m; am_data := data |}.

Abbreviation manager_op := (st AppManager string).

(** ** Records and revisions *)

Definition find_revision (id : string) (revisions : list AppRevision) : option AppRevision :=
  List.find (fun revision => bool_decide (rv_revision_id revision = id)) revisions.

Definition get_record (id : string) : manager_op InstallRecord := fun m =>
  (ok_or (am_records m !! id) ("'" +:+ id +:+ "' is not a managed app"), m).

Definition active_app_revision (record : InstallRecord) : outcome string AppRevision :=
  ok_or (find_revision (ir_active_revision_id record) (ir_revisions record))
    ("managed app '" +:+ ir_id record +:+ "' has no active revision '" +:+ ir_active_revision_id record
     +:+ "': store is corrupt").

Definition retained_revision (record : InstallRecord) (revision_id : string) : outcome string AppRevision :=
  ok_or (find_revision revision_id (ir_revisions record))
    ("managed app '" +:+ ir_id record +:+ "' has no retained revision '" +:+ revision_id +:+ "'").

Definition by_installed_at (left right : AppRevision) : bool :=
  String.leb (rv_installed_at left) (rv_installed_at right).

(** The second loop of [retain_recent_revisions]: fill up with the newest. *)
Fixpoint fill_retained (retained : list AppRevision) (newest_first : list AppRevision) : list AppRevision :=
  match newest_first with
  | [] => retained
  | revision :: rest =>
      if RETAINED_REVISIONS <=? length retained then retained
      else if existsb (fun candidate => bool_decide (rv_revision_id candidate = rv_revision_id revision)) retained
      then fill_retained retained rest
      else fill_retained (retained ++ [revision]) rest
  end.

Definition retain_recent_revisions (revisions : list AppRevision) (active_revision_id : string) :
    list AppRevision :=
  let revisions := sort_by by_installed_at revisions in
  if length revisions <=? RETAINED_REVISIONS then revisions
  else
    let retained := match find_revision active_revision_id (rev revisions) with
                    | Some active => [active] | None => [] end in
    sort_by by_installed_at (fill_retained retained (rev revisions)).

Definition with_active (revision_id : string) (record : InstallRecord) : InstallRecord :=
  {| ir_id := ir_id record; ir_enabled := ir_enabled record; ir_uninstalling := ir_uninstalling record;
     ir_lifecycle_generation := ir_lifecycle_generation record; ir_purge_secrets := ir_purge_secrets record;
     ir_purge_data := ir_purge_data record; ir_purge_secret_names := ir_purge_secret_names record;
     ir_active_revision_id := revision_id;
     ir_revisions := retain_recent_revisions (ir_revisions record) revision_id |}.

Definition push_revision (revision : AppRevision) (record : InstallRecord) : InstallRecord :=
  {| ir_id := ir_id record; ir_enabled := ir_enabled record; ir_uninstalling := ir_uninstalling record;
     ir_lifecycle_generation := ir_lifecycle_generation record; ir_purge_secrets := ir_purge_secrets record;
     ir_purge_data := ir_purge_data record; ir_purge_secret_names := ir_purge_secret_names record;
     ir_active_revision_id := ir_active_revision_id record;
     ir_revisions := ir_revisions record ++ [revision] |}.

(** [u64::saturating_add(1)]. *)
Definition saturating_succ (n : N) : N := N.min (n + 1) (2 ^ 64 - 1).

Section manager.
Context `{Uuids, ManagerCodec, AppDataCodec}.
Context (sha256_hex : string -> string) (data_path : string -> string).
Context (read_document : string -> outcome string PackageDocument).

(** ** Persistence *)

Definition persist_records (records : gmap string InstallRecord) : st AppManager AtomicJsonError unit := fun m =>
  match am_store_path m with
  | None => (Ok tt, m)
  | Some path =>
      let document := {| so_version := APP_STORE_VERSION; so_apps := btree_values records |} in
      let '(r, fs) := persist_json_document store_to_vec_pretty path document "installed apps"
                        StandardAtomicFileWriter (am_fs m) in
      (r, set_fs fs m)
  end.

(** Install [record] under [id], persist, and put the previous record back when the
    write was not committed. *)
Definition persist_record (id : string) (record previous : InstallRecord) : manager_op unit := fun m =>
  let m1 := set_records (<[id := record]> (am_records m)) m in
  match persist_records (am_records m1) m1 with
  | (Ok _, m2) => (Ok tt, m2)
  | (Err error, m2) =>
      (Err (into_message error),
       if is_indeterminate error then m2 else set_records (<[id := previous]> (am_records m2)) m2)
  | (Panic msg, m2) => (Panic msg, m2)
  end.

(** [AppManager::new]; [trust] is what opening the publisher trust store (a file of its
    own, [PublisherTrust.trust_store_new]) reports. *)
Definition app_manager_new (store_path journal_path : Path) (trust : outcome string unit)
    (data : gmap string AppDataRoot) (fs : FileSystem) : outcome string AppManager :=
  let '(stored, fs1) := load_json_document store_from_str store_path "installed apps" fs in
  stored ← stored;
  let '(journal, fs2) := load_json_document journal_from_str journal_path "app update journal" fs1 in
  journal ← journal;
  _ ← match journal with Some journal => validate journal | None => Ok tt end;
  _ ← trust;
  records ← match stored with
            | None => Ok ∅
            | Some document =>
                if negb (so_version document =? APP_STORE_VERSION)%N
                then Err ("unsupported installed-apps store version " +:+ pretty (so_version document))
                else Ok (list_to_map (rev ((fun record => (ir_id record, record)) <$> so_apps document)))
            end;
  Ok {| am_store_path := Some store_path; am_journal_path := Some journal_path; am_records := records;
        am_update_journal := journal; am_failures := ∅; am_fs := fs2; am_data := data |}.

(** ** Enabling and uninstalling *)

Definition set_enabled_state (id : string) (enabled : bool) : manager_op unit :=
  record ← get_record id;
  if ir_uninstalling record then st_fail ("'" +:+ id +:+ "' is being uninstalled")
  else if Bool.eqb (ir_enabled record) enabled then mret tt
  else persist_record id
    {| ir_id := ir_id record; ir_enabled := enabled; ir_uninstalling := ir_uninstalling record;
       ir_lifecycle_generation := saturating_succ (ir_lifecycle_generation record);
       ir_purge_secrets := ir_purge_secrets record; ir_purge_data := ir_purge_data record;
       ir_purge_secret_names := ir_purge_secret_names record;
       ir_active_revision_id := ir_active_revision_id record; ir_revisions := ir_revisions record |} record.

Definition begin_uninstall (id : string) (purge_secrets purge_data : bool) : manager_op InstallRecord :=
  existing ← get_record id;
  if ir_uninstalling existing then mret existing
  else
    purge_secret_names ← st_lift (
      if purge_secrets
      then revision ← active_app_revision existing;
           document ← read_document (rv_payload_dir revision);
           Ok (owned_secret_names document)
      else Ok (ir_purge_secret_names existing));
    let record :=
      {| ir_id := ir_id existing; ir_enabled := ir_enabled existing; ir_uninstalling := true;
         ir_lifecycle_generation := saturating_succ (ir_lifecycle_generation existing);
         ir_purge_secrets := purge_secrets; ir_purge_data := purge_data;
         ir_purge_secret_names := purge_secret_names;
         ir_active_revision_id := ir_active_revision_id existing; ir_revisions := ir_revisions existing |} in
    _ ← persist_record id record existing;
    mret record.

(** The end of [finish_uninstall]: drop the record once the files are gone. *)
Definition drop_record (id : string) : manager_op unit := fun m =>
  let remaining := delete id (am_records m) in
  match persist_records remaining m with
  | (Ok _, m') => (Ok tt, set_failures (delete id (am_failures m')) (set_records remaining m'))
  | (Err error, m') =>
      if is_indeterminate error then (Err (into_message error), set_records remaining m')
      else (Err (into_message error), m')
  | (Panic msg, m') => (Panic msg, m')
  end.

(** ** The journal *)

Definition write_update_journal (journal : option UpdateJournal) : st AppManager AtomicJsonError unit := fun m =>
  match am_journal_path m with
  | None => (Ok tt, set_journal journal m)
  | Some path =>
      match journal with
      | Some document =>
          let '(r, fs) := persist_json_document journal_to_vec_pretty path document "app update journal"
                            StandardAtomicFileWriter (am_fs m) in
          let m' := set_fs fs m in
          match r with
          | Ok _ => (Ok tt, set_journal journal m')
          | Err error => (Err error, if is_indeterminate error then set_journal journal m' else m')
          | Panic msg => (Panic msg, m')
          end
      | None =>
          let '(r, fs) := fs_remove_file (p_file_name path) (am_fs m) in
          let m' := set_fs fs m in
          match r with
          | Ok _ => (Ok tt, set_journal None m')
          | Err error =>
              match io_kind error with
              | NotFound => (Ok tt, set_journal None m')
              | _ => (Err (NotCommittedJson ("remove app update journal failed: " +:+ io_message error)), m')
              end
          | Panic msg => (Panic msg, m')
          end
      end
  end.

(** [self.write_update_journal(..).map_err(AtomicJsonError::into_message)]. *)
Definition put_journal (journal : option UpdateJournal) : manager_op unit :=
  st_map_err into_message (write_update_journal journal).

Definition require_current_transition (journal : UpdateJournal) : manager_op unit :=
  current ← st_get am_update_journal;
  let stale := st_fail ("managed-app transition '" +:+ uj_transition_id journal +:+ "' is no longer current") in
  match current with
  | Some current =>
      if bool_decide (uj_transition_id current = uj_transition_id journal) then mret tt else stale
  | None => stale
  end.

(** [journal.phase = phase] followed by the write: the journal as the caller keeps it. *)
Definition enter_phase (phase : UpdatePhase) (journal : UpdateJournal) : manager_op UpdateJournal :=
  _ ← put_journal (Some (with_phase phase journal));
  mret (with_phase phase journal).

Definition phase_name (phase : UpdatePhase) : string :=
  match phase with
  | Prepared => "Prepared" | Deactivated => "Deactivated"
  | DataCandidateValidated => "DataCandidateValidated" | DataCommitted => "DataCommitted"
  | Activated => "Activated" | RollingBack => "RollingBack"
  | DataRollbackCommitted => "DataRollbackCommitted" | RolledBack => "RolledBack"
  | UpdateCommitted => "Committed"
  end.

Definition clear_completed_journal (journal : UpdateJournal) : manager_op unit :=
  _ ← require_current_transition journal;
  match uj_phase journal with
  | RolledBack | UpdateCommitted => put_journal None
  | phase => st_fail ("cannot clear managed-app transition '" +:+ uj_transition_id journal
                      +:+ "' in phase " +:+ phase_name phase)
  end.

(** ** Data steps *)

(** A call on the data directory of [app_id]. *)
Definition on_data {A} (app_id : string) (m : st AppDataRoot string A) : manager_op A := fun s =>
  let root := default {| ad_fs := {| fs_exists := false; fs_dir := ∅; fs_pending := []; fs_faults := [];
                                     fs_uuids := 0 |};
                         ad_other_dirs := []; ad_revisions := ∅ |} (am_data s !! app_id) in
  let '(r, root') := m root in
  (r, set_data (<[app_id := root']> (am_data s)) s).

Definition mark_data_candidate_validated (journal : UpdateJournal) (source_digest : option string)
    (candidate_digest : string) : manager_op UpdateJournal :=
  _ ← require_current_transition journal;
  match uj_data_transition journal with
  | None => st_fail "managed-app transition has no app-data candidate"
  | Some data =>
      if negb (bool_decide (bool_decide (is_Some (dt_source_revision_id data)) = bool_decide (is_Some source_digest)))
      then st_fail "app-data source digest does not match the journal transition"
      else
        let data' := {| dt_source_revision_id := dt_source_revision_id data;
                        dt_source_format_version := dt_source_format_version data;
                        dt_source_digest := source_digest; dt_candidate := dt_candidate data;
                        dt_candidate_digest := Some candidate_digest;
                        dt_migration_revision_id := dt_migration_revision_id data;
                        dt_destructive := dt_destructive data |} in
        enter_phase DataCandidateValidated (with_data_transition (Some data') journal)
  end.

(** The digest checks of [commit_data_candidate]. *)
Definition check_data_digests (app_id : string) (data : AppDataTransitionJournal) : manager_op unit :=
  let digest id := on_data app_id (revision_digest sha256_hex (data_path app_id) id) in
  _ ← match dt_source_revision_id data with
      | None => mret tt
      | Some source =>
          expected ← st_lift (ok_or (dt_source_digest data) "validated app-data source digest is missing");
          actual ← digest source;
          if negb (bool_decide (actual = expected))
          then st_fail "active app data changed after candidate validation; source was preserved"
          else mret tt
      end;
  expected_candidate ← st_lift (ok_or (dt_candidate_digest data) "validated app-data candidate digest is missing");
  actual_candidate ← digest (adr_revision_id (dt_candidate data));
  if negb (bool_decide (actual_candidate = expected_candidate))
  then st_fail "app-data candidate changed after validation; source was preserved"
  else mret tt.

Definition commit_data_candidate (journal : UpdateJournal) : manager_op UpdateJournal :=
  _ ← require_current_transition journal;
  data ← st_lift (ok_or (uj_data_transition journal) "managed-app transition has no app-data candidate");
  _ ← check_data_digests (uj_app_id journal) data;
  _ ← on_data (uj_app_id journal)
        (commit_candidate (data_path (uj_app_id journal)) (dt_source_revision_id data) (dt_candidate data));
  enter_phase DataCommitted journal.

(** ** Commit and rollback *)

(** The record once the target is active. *)
Definition activated_record (journal : UpdateJournal) (record : InstallRecord) : InstallRecord :=
  let target := uj_target_revision journal in
  let new_revision := default target (find_revision (rv_revision_id target) (ir_revisions record)) in
  let record := if existsb (fun revision => bool_decide (rv_revision_id revision = rv_revision_id new_revision))
                     (ir_revisions record)
                then record else push_revision new_revision record in
  with_active (rv_revision_id new_revision) record.

Definition commit_revision_transition (journal : UpdateJournal) : manager_op unit :=
  previous ← get_record (uj_app_id journal);
  persist_record (uj_app_id journal) (activated_record journal previous) previous.

Definition commit_journaled_transition (journal : UpdateJournal) (backup_retention : N) : manager_op unit :=
  _ ← require_current_transition journal;
  journal ← enter_phase Activated journal;
  _ ← commit_revision_transition journal;
  _ ← match uj_data_transition journal with
      | Some _ => on_data (uj_app_id journal) (prune_backups (data_path (uj_app_id journal)) backup_retention)
      | None => mret tt
      end;
  _ ← enter_phase UpdateCommitted journal;
  put_journal None.

(** Returns the journal as changed in place and the revision to go back to. *)
Definition begin_journaled_rollback (journal : UpdateJournal) : manager_op (UpdateJournal * string) :=
  _ ← require_current_transition journal;
  revision_id ← st_lift (ok_or (uj_current_revision_id journal) "rollback journal is missing the previous revision");
  journal ← enter_phase RollingBack journal;
  match uj_data_transition journal with
  | None => mret (journal, revision_id)
  | Some data =>
      _ ← on_data (uj_app_id journal)
            (rollback_transition (data_path (uj_app_id journal)) (dt_source_revision_id data)
               (adr_revision_id (dt_candidate data)));
      journal ← enter_phase DataRollbackCommitted journal;
      mret (journal, revision_id)
  end.

Definition finish_journaled_rollback (journal : UpdateJournal) (previous_revision_id : string) : manager_op unit :=
  _ ← require_current_transition journal;
  previous ← get_record (uj_app_id journal);
  _ ← persist_record (uj_app_id journal) (with_active previous_revision_id previous) previous;
  _ ← enter_phase RolledBack journal;
  put_journal None.
End manager.
