(* ===== verification/UpdateDriver.v ===== *)
(** * Driving an app update

    [host/src-tauri/src/lib.rs]: the phases of a journaled update, its rollback, and
    its recovery at the next start, over the app manager. What the kernel, the backend
    processes and the migration command do is the environment [HostRuntime]: it decides
    whether each call succeeds, and a migration may leave any files in the candidate
    directory it is given. *)

From S2P Require Import Prelude RustStd RustText AtomicJson Packages AppData UpdateJournal AppManager.

Class HostRuntime (W : Type) := {
  (** [AppManager::deactivate]: kernel uninstall and surface removal. *)
  deactivate : string -> W -> outcome string unit * W;
  (** [prepare_journaled_activation] and [activate_managed_app_checked]. *)
  activate_revision : string -> string -> W -> outcome string unit * W;
  (** The migration command of the chosen revision, in the candidate directory. *)
  run_migration : UpdateJournal -> Node -> W -> (outcome string unit * Node) * W;
  (** Starting the target revision on the candidate directory. *)
  probe_candidate : UpdateJournal -> Node -> W -> (outcome string unit * Node) * W;
}.

Record Host (W : Type) := { ho_manager : AppManager; ho_world : W; ho_backup_retention : N }.
Arguments ho_manager {W}. Arguments ho_world {W}. Arguments ho_backup_retention {W}.
Arguments Build_Host {W}.

Section driver.
Context {W : Type} `{HostRuntime W, Uuids, ManagerCodec, AppDataCodec}.
Context (sha256_hex : string -> string) (data_path : string -> string).
Context (read_document : string -> outcome string PackageDocument).

Abbreviation host_op := (st (Host W) string).

(** A call on the manager, under its lock. *)
Definition on_manager {A} (m : st AppManager string A) : host_op A := fun h =>
  let '(r, manager) := m (ho_manager h) in
  (r, {| ho_manager := manager; ho_world := ho_world h; ho_backup_retention := ho_backup_retention h |}).

Definition on_world {A} (f : W -> outcome string A * W) : host_op A := fun h =>
  let '(r, w) := f (ho_world h) in
  (r, {| ho_manager := ho_manager h; ho_world := w; ho_backup_retention := ho_backup_retention h |}).

Definition deactivate_journaled_transition (journal : UpdateJournal) : host_op UpdateJournal :=
  _ ← on_manager (require_current_transition journal);
  _ ← on_world (deactivate (uj_app_id journal));
  on_manager (enter_phase Deactivated journal).

(** A program run in the candidate directory. *)
Definition run_in_candidate (app_id id : string)
    (program : Node -> W -> (outcome string unit * Node) * W) : host_op unit := fun h =>
  let root := am_data (ho_manager h) !! app_id in
  let before := default (NDir []) (root ≫= fun root => ad_revisions root !! id) in
  let '((r, after), w) := program before (ho_world h) in
  let data' := match root with
               | Some root => <[app_id := set_ad_revisions (<[id := after]> (ad_revisions root)) root]>
                                (am_data (ho_manager h))
               | None => am_data (ho_manager h)
               end in
  (r, {| ho_manager := set_data data' (ho_manager h); ho_world := w;
         ho_backup_retention := ho_backup_retention h |}).

(** The checks of [DataMigrationPreparation::execute] on the package of the migration
    revision: it still owns versioned data and declares the transition. *)
Definition check_migration (revision : AppRevision) (data : AppDataTransitionJournal) : outcome string unit :=
  document ← read_document (rv_payload_dir revision);
  migration ← match pk_data document with
              | DataVersioned _ migration => Ok migration
              | DataNone => Err "selected migration revision declares no app-owned data"
              | DataHostManaged _ _ _ _ _ _ => Err "host-managed data does not use publisher migration commands"
              end;
  from ← ok_or (dt_source_format_version data) "app-data migration source format is missing";
  let target := adr_format_version (dt_candidate data) in
  if negb (existsb (fun transition => (adt_from transition =? from)%N && (adt_to transition =? target)%N)
             (adm_transitions migration))
  then Err ("migration revision no longer declares app-data transition " +:+ pretty from +:+ " -> "
            +:+ pretty target)
  else Ok tt.

(** [DataMigrationPreparation::execute]: stage, migrate, probe, and digest the
    candidate. *)
Definition execute_migration (journal : UpdateJournal) (data : AppDataTransitionJournal)
    (migration_revision : option AppRevision) : host_op (option string * string) :=
  let app_id := uj_app_id journal in
  let id := adr_revision_id (dt_candidate data) in
  staged ← on_manager (on_data app_id
    (stage_candidate sha256_hex (data_path app_id) (dt_candidate data) (dt_source_revision_id data)));
  _ ← match migration_revision with
      | Some revision =>
          _ ← st_lift (check_migration revision data);
          run_in_candidate app_id id (run_migration journal)
      | None => mret tt
      end;
  _ ← run_in_candidate app_id id (probe_candidate journal);
  candidate_digest ← on_manager (on_data app_id (revision_digest sha256_hex (data_path app_id) id));
  mret (snd staged, candidate_digest).

(** [data_migration_preparation], for a journal with a data transition: the revision
    whose migration runs. *)
Definition find_migration_revision (journal : UpdateJournal) (data : AppDataTransitionJournal) :
    manager_op (option AppRevision) :=
  _ ← require_current_transition journal;
  record ← get_record (uj_app_id journal);
  match dt_migration_revision_id data with
  | None => mret None
  | Some revision_id => revision ← st_lift (retained_revision record revision_id); mret (Some revision)
  end.

(** The rest of a rollback: start the previous revision, then make it active. Always
    reports the failure that led here. *)
Definition finish_rollback (journal : UpdateJournal) (previous_revision_id activation_error : string) :
    host_op unit :=
  if negb (uj_enabled journal) then
    _ ← on_manager (finish_journaled_rollback journal previous_revision_id);
    st_fail ("update preparation failed and was rolled back to the previous revision: " +:+ activation_error)
  else
    rollback_result ← st_catch (on_world (activate_revision (uj_app_id journal) previous_revision_id));
    match rollback_result with
    | Ok _ =>
        _ ← on_manager (finish_journaled_rollback journal previous_revision_id);
        st_fail ("update activation failed and was rolled back to the previous revision: " +:+ activation_error)
    | Err rollback_error =>
        st_fail ("update activation failed (" +:+ activation_error +:+ "); rollback also failed ("
                 +:+ rollback_error +:+ ")")
    | Panic msg => st_lift (Panic msg)
    end.

Definition rollback_journaled_transition (journal : UpdateJournal) (activation_error : string) : host_op unit :=
  if bool_decide (uj_phase journal = DataRollbackCommitted) then
    previous_revision_id ← st_lift (ok_or (uj_current_revision_id journal)
      "rollback journal is missing the previous revision");
    finish_rollback journal previous_revision_id activation_error
  else
    begun ← on_manager (begin_journaled_rollback data_path journal);
    finish_rollback (fst begun) (snd begun) activation_error.

(** The last part of [continue_journaled_transition]: activate the target, then commit
    or roll back. *)
Definition activate_target (journal : UpdateJournal) : host_op unit :=
  backup_retention ← st_get ho_backup_retention;
  if negb (uj_enabled journal)
  then on_manager (commit_journaled_transition data_path journal backup_retention)
  else
    target_result ← st_catch (on_world
      (activate_revision (uj_app_id journal) (rv_revision_id (uj_target_revision journal))));
    match target_result with
    | Ok _ => on_manager (commit_journaled_transition data_path journal backup_retention)
    | Err error => rollback_journaled_transition journal error
    | Panic msg => st_lift (Panic msg)
    end.

Definition commit_data_then_activate (journal : UpdateJournal) : host_op unit :=
  if bool_decide (uj_phase journal = DataCandidateValidated)
  then journal ← on_manager (commit_data_candidate sha256_hex data_path journal); activate_target journal
  else activate_target journal.

Definition migrate_then_activate (journal : UpdateJournal) : host_op unit :=
  match uj_phase journal, uj_data_transition journal with
  | Deactivated, Some data =>
      migration_revision ← on_manager (find_migration_revision journal data);
      migration ← st_catch (execute_migration journal data migration_revision);
      match migration with
      | Err error => rollback_journaled_transition journal error
      | Panic msg => st_lift (Panic msg)
      | Ok (source_digest, candidate_digest) =>
          journal ← on_manager (mark_data_candidate_validated journal source_digest candidate_digest);
          commit_data_then_activate journal
      end
  | _, _ => commit_data_then_activate journal
  end.

Definition continue_journaled_transition (journal : UpdateJournal) (do_deactivate : bool) : host_op unit :=
  if do_deactivate && bool_decide (uj_phase journal = Prepared)
  then journal ← deactivate_journaled_transition journal; migrate_then_activate journal
  else migrate_then_activate journal.

Definition recover_managed_app_transition_phased : host_op unit :=
  pending ← st_get (fun h => am_update_journal (ho_manager h));
  match pending with
  | None => mret tt
  | Some journal =>
      match uj_phase journal with
      | Prepared => continue_journaled_transition journal true
      | Deactivated | DataCandidateValidated | DataCommitted => continue_journaled_transition journal false
      | Activated =>
          backup_retention ← st_get ho_backup_retention;
          on_manager (commit_journaled_transition data_path journal backup_retention)
      | RollingBack | DataRollbackCommitted =>
          rollback_journaled_transition journal "interrupted target activation"
      | RolledBack | UpdateCommitted => on_manager (clear_completed_journal journal)
      end
  end.
End driver.
