(* ===== verification/AppManagerFacts.v ===== *)
(** * The app manager: records, journal and their files *)

From S2P Require Import Prelude RustStd RustText AtomicJson Packages AppData UpdateJournal AppManager.

(** ** Retained revisions *)

Abbreviation ids revisions := (rv_revision_id <$> revisions).

Lemma find_revision_Some id revisions r :
  find_revision id revisions = Some r -> r ∈ revisions /\ rv_revision_id r = id.
Proof. intros [Hr He%bool_decide_eq_true]%List.find_some. by apply list_elem_of_In in Hr. Qed.

Lemma find_revision_is_Some id revisions : id ∈ ids revisions -> is_Some (find_revision id revisions).
Proof.
  intros (r & -> & Hr)%list_elem_of_fmap. destruct (find_revision _ _) eqn:E; [done|].
  eapply List.find_none in E; [|by apply list_elem_of_In]. by apply bool_decide_eq_false in E.
Qed.

Lemma existsb_id id revisions :
  existsb (fun r => bool_decide (rv_revision_id r = id)) revisions = true <-> id ∈ ids revisions.
Proof.
  rewrite existsb_exists, list_elem_of_fmap.
  split; intros (r & Hr); exists r; rewrite ?bool_decide_eq_true, <- list_elem_of_In in *; naive_solver.
Qed.

Lemma fill_retained_spec all retained rest :
  NoDup (ids retained) -> retained ⊆ all -> rest ⊆ all -> length retained <= RETAINED_REVISIONS ->
  let result := fill_retained retained rest in
  NoDup (ids result) /\ result ⊆ all /\ retained ⊆ result /\ length result <= RETAINED_REVISIONS /\
  (length result < RETAINED_REVISIONS -> ids rest ⊆ ids result).
Proof.
  revert retained. induction rest as [|r rest IH]; intros retained Hnd Hsub Hrest Hlen; cbn [fill_retained].
  { split_and!; try done. intros _. set_solver. }
  destruct (Nat.leb_spec RETAINED_REVISIONS (length retained)) as [Hfull|Hroom].
  { split_and!; try done. intros Hlt. lia. }
  destruct (existsb _ retained) eqn:E.
  - apply existsb_id in E. destruct (IH retained) as (? & ? & Hret & ? & Hall); try done; [set_solver|].
    split_and!; try done. intros Hlt. specialize (Hall Hlt). rewrite fmap_cons.
    intros x [->|Hx]%elem_of_cons; [|by apply Hall].
    apply list_elem_of_fmap in E as (y & -> & Hy). by apply list_elem_of_fmap_2, Hret.
  - apply not_true_iff_false in E. rewrite existsb_id in E.
    destruct (IH (retained ++ [r])) as (? & ? & Hret & ? & Hall).
    + rewrite fmap_app. apply NoDup_app. split_and!; [done| |apply NoDup_singleton].
      intros x Hx Hr. apply list_elem_of_singleton in Hr. by subst.
    + set_solver.
    + set_solver.
    + rewrite length_app. simpl. unfold RETAINED_REVISIONS in *. lia.
    + split_and!; try done; [set_solver|]. intros Hlt. specialize (Hall Hlt). rewrite fmap_cons.
      intros x [->|Hx]%elem_of_cons; [|by apply Hall]. apply list_elem_of_fmap_2, Hret. set_solver.
Qed.

(** What is kept: at most two revisions, the active one among them, and no revision is
    dropped while there is room. *)
Lemma retain_recent_revisions_spec revisions active :
  NoDup (ids revisions) -> active ∈ ids revisions ->
  let kept := retain_recent_revisions revisions active in
  NoDup (ids kept) /\ kept ⊆ revisions /\ active ∈ ids kept /\
  length kept = Nat.min (length revisions) RETAINED_REVISIONS.
Proof.
  intros Hnd Hact. unfold retain_recent_revisions.
  set (sorted := sort_by by_installed_at revisions).
  assert (sorted ≡ₚ revisions) as Hperm by apply sort_by_perm.
  assert (ids sorted ≡ₚ ids revisions) as Hids by by rewrite Hperm.
  assert (length sorted = length revisions) as Hlen by by rewrite Hperm.
  destruct (Nat.leb_spec (length sorted) RETAINED_REVISIONS) as [Hle|Hgt].
  { split_and!; [by rewrite Hids|intros x; by rewrite Hperm|by rewrite Hids|]. lia. }
  assert (rev sorted ≡ₚ revisions) as Hrev by (rewrite <- Hperm; symmetry; apply Permutation_rev).
  destruct (find_revision_is_Some active (rev sorted)) as [a Ha]; [by rewrite Hrev|]. rewrite Ha.
  apply find_revision_Some in Ha as [Ha Haid].
  destruct (fill_retained_spec revisions [a] (rev sorted)) as (Hn & Hs & Hk & Hl & Hall).
  - apply NoDup_singleton.
  - intros x ->%list_elem_of_singleton. by rewrite <- Hrev.
  - intros x. by rewrite Hrev.
  - simpl. unfold RETAINED_REVISIONS. lia.
  - set (kept := fill_retained [a] (rev sorted)) in *.
    assert (sort_by by_installed_at kept ≡ₚ kept) as Hkp by apply sort_by_perm.
    split_and!.
    + by rewrite Hkp.
    + intros x. rewrite Hkp. apply Hs.
    + rewrite Hkp, <- Haid. apply list_elem_of_fmap_2, Hk. left.
    + rewrite Hkp. destruct (decide (length kept < RETAINED_REVISIONS)) as [Hlt|]; [|lia].
      specialize (Hall Hlt). exfalso.
      assert (length (ids revisions) <= length (ids kept)) as Hbig.
      { apply submseteq_length, NoDup_submseteq; [done|].
        intros x Hx. apply Hall. by rewrite Hrev. }
      rewrite !length_fmap in Hbig. lia.
Qed.

(** ** Memory and files agree *)

Section mirror.
Context `{Uuids, ManagerCodec, AppDataCodec, !ManagerCodecLaws}.
Context (sha256_hex : string -> string) (data_path : string -> string).
Context (read_document : string -> outcome string PackageDocument).
Context (store_path journal_path : Path).
Implicit Types (m : AppManager).

(** Two documents of one directory. *)
Definition separate_files : Prop :=
  visible (p_file_name store_path) = true /\ visible (p_file_name journal_path) = true /\
  p_file_name store_path <> p_file_name journal_path.

Definition stored_records m : outcome string (gmap string InstallRecord) :=
  loaded ← load_result store_from_str store_path "installed apps"
             (contents (am_fs m) (p_file_name store_path));
  match loaded with
  | None => Ok ∅
  | Some document =>
      if negb (so_version document =? APP_STORE_VERSION)%N
      then Err ("unsupported installed-apps store version " +:+ pretty (so_version document))
      else Ok (list_to_map (rev ((fun record => (ir_id record, record)) <$> so_apps document)))
  end.

Definition stored_journal m : outcome string (option UpdateJournal) :=
  load_result journal_from_str journal_path "app update journal"
    (contents (am_fs m) (p_file_name journal_path)).

(** Records are filed under their own id. *)
Definition keyed (records : gmap string InstallRecord) : Prop :=
  ∀ id record, records !! id = Some record -> ir_id record = id.

Record mirrors m : Prop := {
  mi_store : am_store_path m = Some store_path;
  mi_journal : am_journal_path m = Some journal_path;
  mi_keyed : keyed (am_records m);
  mi_honest : honest (am_fs m);
  mi_records : stored_records m = Ok (am_records m);
  mi_stored_journal : stored_journal m = Ok (am_update_journal m);
}.

Lemma keyed_collect records :
  keyed records ->
  list_to_map (rev ((fun record => (ir_id record, record)) <$> btree_values records)) = records.
Proof.
  intros Hk. rewrite <- (btree_values_to_map ir_id records) at 2 by (by intros k v Hv; apply Hk).
  symmetry. apply list_to_map_proper; [|apply Permutation_rev].
  unfold btree_values. rewrite <- !list_fmap_compose.
  replace ((fst ∘ (fun record => (ir_id record, record)) ∘ snd) <$> btree_list records) with (btree_keys records);
    [apply btree_keys_nodup|].
  apply list_fmap_ext. intros i [k v] Hi. simpl. apply list_elem_of_lookup_2, elem_of_btree_list in Hi.
  symmetry. by apply Hk.
Qed.

Lemma stored_records_written m records bytes :
  keyed records ->
  store_to_vec_pretty {| so_version := APP_STORE_VERSION; so_apps := btree_values records |} = inr bytes ->
  contents (am_fs m) (p_file_name store_path) = Some bytes -> stored_records m = Ok records.
Proof.
  intros Hk [Hutf Hback]%store_codec_roundtrip Hc. unfold stored_records. rewrite Hc. simpl.
  rewrite Hutf, Hback. simpl. by rewrite keyed_collect.
Qed.

(** Persisting records touches only the store file; either they are now stored, or the
    error says the old ones still are. *)
Lemma persist_records_inv records m r m' :
  separate_files -> mirrors m -> keyed records -> persist_records records m = (r, m') ->
  ∃ fs', m' = set_fs fs' m /\ honest fs' /\ stored_journal (set_fs fs' m) = stored_journal m /\
    ((stored_records m' = Ok records /\ (r = Ok tt \/ ∃ e, r = Err e /\ is_indeterminate e = true)) \/
     (stored_records m' = stored_records m /\ ∃ e, r = Err e /\ is_indeterminate e = false)).
Proof.
  intros (Hvs & Hvj & Hne) Hm Hk. unfold persist_records. rewrite (mi_store m Hm).
  set (document := {| so_version := APP_STORE_VERSION; so_apps := btree_values records |}).
  pose proof (persist_keeps_other store_to_vec_pretty store_path document "installed apps"
    (p_file_name journal_path) Hvj ltac:(done) (am_fs m)) as Hj.
  pose proof (persist_honest store_to_vec_pretty store_path document "installed apps" (am_fs m) (mi_honest m Hm)) as Hh.
  destruct (persist_json_document _ _ _ _ _ _) as [r0 fs'] eqn:E. intros [= <- <-]. exists fs'.
  simpl in Hj, Hh. split_and!; [done..| |].
  { unfold stored_journal, contents. simpl. by rewrite Hj. }
  apply persist_json_document_contents in E as [(bytes & Hser & Hc & Hr)|(e & -> & Hi & Hc)].
  - left. split; [|done]. by eapply stored_records_written.
  - right. split; [|eauto]. unfold stored_records. simpl. by rewrite Hc.
Qed.

Lemma persist_record_mirrors id record previous m :
  separate_files -> mirrors m -> am_records m !! id = Some previous -> ir_id record = id ->
  mirrors (persist_record id record previous m).2.
Proof.
  intros Hsep Hm Hprev Hid. unfold persist_record.
  set (records := <[id := record]> (am_records m)). set (m1 := set_records records m).
  destruct (persist_records (am_records m1) m1) as [r m2] eqn:E.
  assert (keyed records) as Hk.
  { intros id' r' [[-> ->]|[Hne Hl]]%lookup_insert_Some; [done|]. by apply (mi_keyed m Hm). }
  assert (∃ fs', m2 = set_fs fs' m1 /\ honest fs' /\ stored_journal (set_fs fs' m) = stored_journal m /\
    ((stored_records m2 = Ok records /\ (r = Ok tt \/ ∃ e, r = Err e /\ is_indeterminate e = true)) \/
     (stored_records m2 = stored_records m /\ ∃ e, r = Err e /\ is_indeterminate e = false)))
    as (fs' & -> & Hh & Hj & Hr).
  { unfold persist_records in E. change (am_store_path m1) with (am_store_path m) in E.
    destruct (persist_records records m) as [r' m2'] eqn:E'.
    pose proof E' as Hinv. apply persist_records_inv in Hinv as (fs' & -> & Hh & Hj & Hr); [|done..].
    unfold persist_records in E'. rewrite (mi_store m Hm) in E, E'. simpl in E, E'.
    destruct (persist_json_document _ _ _ _ _ _) as [r0 fs0]. simplify_eq.
    by exists fs'. }
  destruct Hm as [Hs1 Hj1 Hk1 Hh1 Hr1 Hsj].
  destruct Hr as [[Hst [->|(e & -> & ->)]]|(Hst & e & -> & ->)]; simpl.
  - split; try done. exact (eq_trans Hj Hsj).
  - split; try done. exact (eq_trans Hj Hsj).
  - unfold records. rewrite insert_insert_eq, insert_id by done.
    split; try done; [exact (eq_trans Hst Hr1)|exact (eq_trans Hj Hsj)].
Qed.

Lemma drop_record_mirrors id m : separate_files -> mirrors m -> mirrors (drop_record id m).2.
Proof.
  intros Hsep Hm. unfold drop_record. destruct (persist_records _ m) as [r m'] eqn:E.
  assert (keyed (delete id (am_records m))) as Hk.
  { intros id' r' [_ Hl]%lookup_delete_Some. by apply (mi_keyed m Hm). }
  apply persist_records_inv in E as (fs' & -> & Hh & Hj & Hr); [|done..].
  destruct Hm as [Hs1 Hj1 Hk1 Hh1 Hr1 Hsj].
  destruct Hr as [[Hst [->|(e & -> & ->)]]|(Hst & e & -> & ->)]; simpl; (split; try done);
    first [exact (eq_trans Hj Hsj)|exact (eq_trans Hst Hr1)].
Qed.

Lemma write_update_journal_mirrors journal m :
  separate_files -> mirrors m -> mirrors (write_update_journal journal m).2.
Proof.
  intros (Hvs & Hvj & Hne) [Hs1 Hj1 Hk1 Hh1 Hr1 Hsj]. unfold write_update_journal. rewrite Hj1.
  destruct journal as [document|].
  - pose proof (persist_keeps_other journal_to_vec_pretty journal_path document "app update journal"
      (p_file_name store_path) Hvs ltac:(done) (am_fs m)) as Ho.
    pose proof (persist_honest journal_to_vec_pretty journal_path document "app update journal" (am_fs m) Hh1) as Hh.
    destruct (persist_json_document _ _ _ _ _ _) as [r fs'] eqn:E. simpl in Ho, Hh.
    assert (stored_records (set_fs fs' m) = Ok (am_records m)) as Hrec.
    { rewrite <- Hr1. unfold stored_records, contents. simpl. by rewrite Ho. }
    apply persist_json_document_contents in E as [(bytes & Hser & Hc & Hr)|(e & -> & -> & Hc)].
    + assert (stored_journal (set_fs fs' m) = Ok (Some document)) as Hj.
      { unfold stored_journal. simpl. rewrite Hc. apply journal_codec_roundtrip in Hser as [Hutf Hback].
        simpl. by rewrite Hutf, Hback. }
      destruct Hr as [->|(e & -> & ->)]; by split.
    + split; try done. etrans; [|exact Hsj]. unfold stored_journal. simpl. by rewrite Hc.
  - pose proof (fs_remove_file_honest (p_file_name journal_path) (am_fs m) Hh1) as Hh.
    pose proof (fs_remove_file_keeps (p_file_name store_path) (fs_dir (am_fs m) !! p_file_name store_path)
      (fun _ => True) I (p_file_name journal_path) ltac:(done) (am_fs m) ltac:(done)) as [Ho _].
    destruct (fs_remove_file _ _) as [r fs'] eqn:E. simpl in Hh, Ho.
    assert (stored_records (set_fs fs' m) = Ok (am_records m)) as Hrec.
    { rewrite <- Hr1. unfold stored_records, contents. simpl. by rewrite Ho. }
    apply contents_remove in E as [[-> Hc]|[(e & -> & -> & _ & Hc)|(e & -> & Hk & Hc)]]; [| | |done].
    + split; try done. unfold stored_journal. simpl. by rewrite Hc.
    + split; try done. unfold stored_journal. simpl. by rewrite Hc.
    + assert (stored_journal (set_fs fs' m) = Ok (am_update_journal m)) as Hj.
      { rewrite <- Hsj. unfold stored_journal. simpl. by rewrite Hc. }
      destruct (io_kind e); by split.
Qed.
End mirror.

(** ** Every operation keeps them in agreement *)

Section operations.
Context `{Uuids, ManagerCodec, AppDataCodec, !ManagerCodecLaws}.
Context (sha256_hex : string -> string) (data_path : string -> string).
Context (read_document : string -> outcome string PackageDocument).
Context (store_path journal_path : Path) (Hsep : separate_files store_path journal_path).
Abbreviation mirrored := (mirrors store_path journal_path).
Abbreviation keeps_files := (preserves mirrored).

Lemma get_record_inv id m o m' : get_record id m = (o, m') ->
  m' = m /\ ((∃ record, o = Ok record /\ am_records m !! id = Some record) \/ ∃ e, o = Err e).
Proof.
  unfold get_record. intros [= <- <-]. split; [done|].
  destruct (am_records m !! id); simpl; eauto.
Qed.

(** Replacing one record by another with the same id. *)
Lemma update_record_keeps {A} id (f : InstallRecord -> manager_op A) :
  (∀ record m, mirrored m -> am_records m !! id = Some record -> mirrored (f record m).2) ->
  keeps_files (get_record id ≫= f).
Proof.
  intros Hf m Hm. rewrite st_bind_run. destruct (get_record id m) as [o m'] eqn:E.
  apply get_record_inv in E as [-> [(record & -> & Hl)|(e & ->)]]; [by apply Hf|done].
Qed.

Lemma put_journal_keeps journal : keeps_files (put_journal journal).
Proof.
  intros m Hm. unfold put_journal, st_map_err.
  pose proof (write_update_journal_mirrors store_path journal_path journal m Hsep Hm) as Hw.
  by destruct (write_update_journal journal m).
Qed.

Lemma enter_phase_keeps phase journal : keeps_files (enter_phase phase journal).
Proof. apply preserves_bind; [apply put_journal_keeps|]. intros _. apply preserves_ret. Qed.

Lemma require_current_keeps journal : keeps_files (require_current_transition journal).
Proof.
  apply preserves_bind; [apply preserves_get|]. intros [current|]; [|apply preserves_fail].
  case_bool_decide; [apply preserves_ret|apply preserves_fail].
Qed.

Lemma on_data_keeps {A} app_id (op : st AppDataRoot string A) : keeps_files (on_data app_id op).
Proof. intros m [? ? ? ? ? ?]. unfold on_data. destruct (op _) as [r root]. by split. Qed.

Lemma persist_record_keeps id record previous m :
  mirrored m -> am_records m !! id = Some previous -> ir_id record = ir_id previous ->
  mirrored (persist_record id record previous m).2.
Proof.
  intros Hm Hl Hid. apply persist_record_mirrors; try done.
  rewrite Hid. by apply (mi_keyed _ _ _ Hm).
Qed.

Lemma set_enabled_state_keeps id enabled : keeps_files (set_enabled_state id enabled).
Proof.
  apply update_record_keeps. intros record m Hm Hl.
  destruct (ir_uninstalling record); [done|]. destruct (Bool.eqb _ _); [done|].
  by apply persist_record_keeps.
Qed.

Lemma begin_uninstall_keeps id purge_secrets purge_data :
  keeps_files (begin_uninstall read_document id purge_secrets purge_data).
Proof.
  apply update_record_keeps. intros record m Hm Hl. destruct (ir_uninstalling record); [done|].
  rewrite st_bind_run. unfold st_lift. destruct (if purge_secrets then _ else _) as [names|e|msg]; [|done..].
  apply (snd_bind mirrored); [by apply persist_record_keeps|]. intros [] m1 Hr. simpl.
  pose proof (persist_record_keeps id {| ir_id := ir_id record; ir_enabled := ir_enabled record; ir_uninstalling := true;
         ir_lifecycle_generation := saturating_succ (ir_lifecycle_generation record);
         ir_purge_secrets := purge_secrets; ir_purge_data := purge_data;
         ir_purge_secret_names := names;
         ir_active_revision_id := ir_active_revision_id record; ir_revisions := ir_revisions record |}
    record m Hm Hl eq_refl) as Hp. by rewrite Hr in Hp.
Qed.

Lemma commit_revision_transition_keeps journal : keeps_files (commit_revision_transition journal).
Proof.
  apply update_record_keeps. intros record m Hm Hl. apply persist_record_keeps; try done.
  unfold activated_record. simpl. by destruct (existsb _ _).
Qed.

Lemma commit_journaled_transition_keeps journal retention :
  keeps_files (commit_journaled_transition data_path journal retention).
Proof.
  apply preserves_bind; [apply require_current_keeps|intros _].
  apply preserves_bind; [apply enter_phase_keeps|intros journal'].
  apply preserves_bind; [apply commit_revision_transition_keeps|intros _].
  apply preserves_bind; [destruct (uj_data_transition journal'); [apply on_data_keeps|apply preserves_ret]|intros _].
  apply preserves_bind; [apply enter_phase_keeps|intros _]. apply put_journal_keeps.
Qed.

Lemma begin_journaled_rollback_keeps journal : keeps_files (begin_journaled_rollback data_path journal).
Proof.
  apply preserves_bind; [apply require_current_keeps|intros _].
  apply preserves_bind; [apply preserves_lift|intros revision_id].
  apply preserves_bind; [apply enter_phase_keeps|intros journal'].
  destruct (uj_data_transition journal'); [|apply preserves_ret].
  apply preserves_bind; [apply on_data_keeps|intros _].
  apply preserves_bind; [apply enter_phase_keeps|intros j]. apply preserves_ret.
Qed.

Lemma finish_journaled_rollback_keeps journal previous_id :
  keeps_files (finish_journaled_rollback journal previous_id).
Proof.
  apply preserves_bind; [apply require_current_keeps|intros _].
  apply update_record_keeps. intros record m Hm Hl.
  pose proof (persist_record_keeps (uj_app_id journal) (with_active previous_id record) record m Hm Hl eq_refl) as Hp.
  apply (snd_bind mirrored); [done|]. intros [] m1 Hr. rewrite Hr in Hp. simpl in Hp. revert m1 Hp Hr.
  intros m1 Hp _. revert m1 Hp. apply preserves_bind; [apply enter_phase_keeps|intros _]. apply put_journal_keeps.
Qed.

Lemma commit_data_candidate_keeps journal : keeps_files (commit_data_candidate sha256_hex data_path journal).
Proof.
  assert (∀ app_id data, keeps_files (check_data_digests sha256_hex data_path app_id data)) as Hc.
  { intros app_id data. unfold check_data_digests.
    apply preserves_bind; [destruct (dt_source_revision_id data); [|apply preserves_ret]|intros _].
    - apply preserves_bind; [apply preserves_lift|intros expected].
      apply preserves_bind; [apply on_data_keeps|intros actual].
      case_bool_decide; [apply preserves_ret|apply preserves_fail].
    - apply preserves_bind; [apply preserves_lift|intros expected].
      apply preserves_bind; [apply on_data_keeps|intros actual].
      case_bool_decide; [apply preserves_ret|apply preserves_fail]. }
  apply preserves_bind; [apply require_current_keeps|intros _].
  apply preserves_bind; [apply preserves_lift|intros data].
  apply preserves_bind; [apply Hc|intros _].
  apply preserves_bind; [apply on_data_keeps|intros _]. apply enter_phase_keeps.
Qed.

Lemma mark_data_candidate_validated_keeps journal source_digest candidate_digest :
  keeps_files (mark_data_candidate_validated journal source_digest candidate_digest).
Proof.
  apply preserves_bind; [apply require_current_keeps|intros _].
  destruct (uj_data_transition journal); [|apply preserves_fail].
  destruct (negb _); [apply preserves_fail|apply enter_phase_keeps].
Qed.

Lemma clear_completed_journal_keeps journal : keeps_files (clear_completed_journal journal).
Proof.
  apply preserves_bind; [apply require_current_keeps|intros _].
  destruct (uj_phase journal); first [apply put_journal_keeps|apply preserves_fail].
Qed.
End operations.
