(* ===== verification/UpdateFacts.v ===== *)
(** * App updates: the files agree, and an update is all or nothing *)

From S2P Require Import Prelude RustStd RustText AtomicJson Packages AppData UpdateJournal AppManager UpdateDriver AppManagerFacts.

(** ** Phases and validity *)

Section phases.
Context `{Uuids}.

(** Whether a journal stays valid when its phase changes depends only on the
    phase: without a data transition the phase must not be a data phase; with one, the
    old and the new phase must agree on whether the digests of the source and the
    candidate have to be recorded. *)
Lemma journal_phase_change_valid j phase :
  validate j = Ok tt ->
  (validate (with_phase phase j) = Ok tt <->
   match uj_data_transition j with
   | None => is_data_phase phase = false
   | Some _ => digest_phase phase = digest_phase (uj_phase j)
   end).
Proof.
  unfold validate. change (validate_version (with_phase phase j)) with (validate_version j).
  destruct (validate_version j) as [[]| |]; [|done..]. simpl.
  destruct (_ || _); [done|]. destruct (uj_data_transition j) as [data|].
  2:{ intros _. destruct (is_data_phase phase); split; congruence. }
  destruct (negb _); [done|]. destruct (_ =? 0)%N; [done|].
  destruct (validate_source data) as [[]| |]; [|done..]. simpl.
  destruct (bool_decide (is_Some (dt_source_revision_id data))), (bool_decide (is_Some (dt_source_digest data))),
    (bool_decide (is_Some (dt_candidate_digest data))), (digest_phase phase), (digest_phase (uj_phase j)); simpl; intros ?; split; congruence.
Qed.

Lemma validate_no_panic j msg : validate j <> Panic msg.
Proof.
  unfold validate, validate_version. destruct (_ =? _)%N; [|done]. simpl. destruct (_ || _); [done|].
  destruct (uj_data_transition j) as [data|]; [|by destruct (is_data_phase _)].
  destruct (negb _); [done|]. destruct (_ =? 0)%N; [done|]. unfold validate_source.
  destruct (dt_source_revision_id data), (dt_source_format_version data) as [format|],
    (dt_migration_revision_id data); simpl; try done.
  - destruct (format =? 0)%N; [done|]. destruct (parse_str_ok _); [|done]. simpl.
    destruct (negb _); [done|]. by destruct (negb _).
  - destruct (negb _); [done|]. by destruct (negb _).
Qed.
End phases.

(** ** Memory and files *)

Section commands.
Context `{Uuids, ManagerCodec, AppDataCodec, !ManagerCodecLaws}.
Context (sha256_hex : string -> string) (data_path : string -> string).
Context (read_document : string -> outcome string PackageDocument).
Context (store_path journal_path : Path).

Inductive ManagerCommand :=
  | CmdSetEnabled (id : string) (enabled : bool)
  | CmdBeginUninstall (id : string) (purge_secrets purge_data : bool)
  | CmdDropRecord (id : string)
  | CmdStartJournal (journal : UpdateJournal)
  | CmdMarkValidated (journal : UpdateJournal) (source_digest : option string) (candidate_digest : string)
  | CmdCommitData (journal : UpdateJournal)
  | CmdCommitTransition (journal : UpdateJournal) (backup_retention : N)
  | CmdBeginRollback (journal : UpdateJournal)
  | CmdFinishRollback (journal : UpdateJournal) (previous_revision_id : string)
  | CmdClear (journal : UpdateJournal).

(** The manager after a command, whatever the command returned. *)
Definition run_manager_command (c : ManagerCommand) (m : AppManager) : AppManager :=
  match c with
  | CmdSetEnabled id enabled => (set_enabled_state id enabled m).2
  | CmdBeginUninstall id ps pd => (begin_uninstall read_document id ps pd m).2
  | CmdDropRecord id => (drop_record id m).2
  | CmdStartJournal journal => (put_journal (Some journal) m).2
  | CmdMarkValidated journal sd cd => (mark_data_candidate_validated journal sd cd m).2
  | CmdCommitData journal => (commit_data_candidate sha256_hex data_path journal m).2
  | CmdCommitTransition journal n => (commit_journaled_transition data_path journal n m).2
  | CmdBeginRollback journal => (begin_journaled_rollback data_path journal m).2
  | CmdFinishRollback journal previous => (finish_journaled_rollback journal previous m).2
  | CmdClear journal => (clear_completed_journal journal m).2
  end.

Fixpoint run_manager (cs : list ManagerCommand) (m : AppManager) : AppManager :=
  match cs with [] => m | c :: cs' => run_manager cs' (run_manager_command c m) end.

Lemma run_manager_mirrors cs m :
  separate_files store_path journal_path -> mirrors store_path journal_path m ->
  mirrors store_path journal_path (run_manager cs m).
Proof.
  intros Hsep. revert m. induction cs as [|c cs IH]; intros m Hm; simpl; [done|]. apply IH.
  destruct c; simpl.
  - by apply set_enabled_state_keeps.
  - by apply begin_uninstall_keeps.
  - by apply drop_record_mirrors.
  - by apply put_journal_keeps.
  - by apply mark_data_candidate_validated_keeps.
  - by apply commit_data_candidate_keeps.
  - by apply commit_journaled_transition_keeps.
  - by apply begin_journaled_rollback_keeps.
  - by apply finish_journaled_rollback_keeps.
  - by apply clear_completed_journal_keeps.
Qed.

(** The failures the device will report from now on. *)
Definition manager_with_faults (faults : list (option Fault)) (m : AppManager) : AppManager :=
  set_fs {| fs_exists := fs_exists (am_fs m); fs_dir := fs_dir (am_fs m); fs_pending := fs_pending (am_fs m);
            fs_faults := faults; fs_uuids := fs_uuids (am_fs m) |} m.

Lemma app_manager_new_mirrors trust data fs faults m :
  separate_files store_path journal_path ->
  (∀ fault, Some fault ∈ faults -> io_kind (ft_error fault) <> NotFound) ->
  app_manager_new store_path journal_path trust data (quiet fs) = Ok m ->
  mirrors store_path journal_path (manager_with_faults faults m).
Proof.
  intros (Hvs & Hvj & Hne) Hf. unfold app_manager_new.
  pose proof (load_keeps_entry store_from_str store_path "installed apps" (p_file_name store_path)
    (stale_temporary_ne store_path) (quiet fs)) as Hk1.
  destruct (load_json_document_working store_from_str store_path "installed apps" fs) as [fs1 E1].
  rewrite E1 in Hk1 |- *. simpl in Hk1.
  pose proof (load_keeps_entry journal_from_str journal_path "app update journal" (p_file_name journal_path)
    (stale_temporary_ne journal_path) (quiet fs1)) as Hk3.
  pose proof (load_keeps_other journal_from_str journal_path "app update journal" _ Hvs (quiet fs1)) as Hk4.
  destruct (load_json_document_working journal_from_str journal_path "app update journal" fs1) as [fs2 E2].
  rewrite E2 in Hk3, Hk4 |- *. simpl in Hk3, Hk4.
  destruct (load_result store_from_str _ _ _) as [stored| |] eqn:Es; try done. simpl.
  destruct (load_result journal_from_str _ _ _) as [journal| |] eqn:Ej; try done. simpl.
  intros Hok. inv_ok Hok. injection Hok as <-.
  assert (stored_records store_path (manager_with_faults faults {| am_store_path := Some store_path;
    am_journal_path := Some journal_path; am_records := a; am_update_journal := journal;
    am_failures := ∅; am_fs := quiet fs2; am_data := data |}) = Ok a) as Hrec.
  { unfold stored_records, contents in *. simpl. rewrite Hk4, Hk1, Es. done. }
  split; simpl; try done.
  - destruct stored as [document|]; [|by injection Hok2 as <-].
    destruct (negb _); [done|]. injection Hok2 as <-. intros id record Hl.
    apply elem_of_list_to_map_2 in Hl. rewrite <- Permutation_rev, list_elem_of_fmap in Hl. naive_solver.
  - unfold stored_journal, contents in *. simpl. by rewrite Hk3, Ej.
Qed.

(** The records and the update journal that the manager works with are always the
    ones its files hold, so that a restart loads exactly them: after opening the
    manager and any sequence of enable, uninstall and update steps, whatever they
    return and whatever failures the device reports (except calling an existing file
    missing), reading either file gives the value in memory. *)
Theorem manager_mirrors_files trust data fs faults cs m :
  separate_files store_path journal_path ->
  (∀ fault, Some fault ∈ faults -> io_kind (ft_error fault) <> NotFound) ->
  app_manager_new store_path journal_path trust data (quiet fs) = Ok m ->
  let m' := run_manager cs (manager_with_faults faults m) in
  stored_records store_path m' = Ok (am_records m') /\
  stored_journal journal_path m' = Ok (am_update_journal m').
Proof.
  intros Hsep Hf Hnew m'.
  pose proof (app_manager_new_mirrors trust data fs faults m Hsep Hf Hnew) as Hm.
  pose proof (run_manager_mirrors cs _ Hsep Hm) as Hm'. by destruct Hm'.
Qed.
End commands.

(** ** What each step does to the records and the journal *)

Section steps.
Context `{Uuids, ManagerCodec, AppDataCodec}.
Context (sha256_hex : string -> string) (data_path : string -> string).
Implicit Types (m : AppManager).

Lemma persist_records_frame records m r m' :
  persist_records records m = (r, m') ->
  am_records m' = am_records m /\ am_update_journal m' = am_update_journal m /\ am_data m' = am_data m /\
  (∀ msg, r <> Panic msg).
Proof.
  unfold persist_records. destruct (am_store_path m); [|by intros [= <- <-]].
  destruct (persist_json_document _ _ _ _ _ _) as [r0 fs'] eqn:E. intros [= <- <-]. split_and!; try done.
  apply persist_json_document_contents in E as [(? & _ & _ & [->|(? & -> & _)])|(? & -> & _)]; done.
Qed.

Lemma persist_record_inv id record previous m o m' :
  persist_record id record previous m = (o, m') -> am_records m !! id = Some previous ->
  am_update_journal m' = am_update_journal m /\ am_data m' = am_data m /\
  (am_records m' = <[id := record]> (am_records m) /\ (∀ msg, o <> Panic msg) \/
   am_records m' = am_records m /\ ∃ e, o = Err e).
Proof.
  intros Hp Hl. unfold persist_record in Hp.
  destruct (persist_records _ _) as [r m2] eqn:E. apply persist_records_frame in E as (Hr & Hj & Hd & Hnp).
  simpl in Hr, Hj, Hd. destruct r as [[]|e|msg]; [|destruct (is_indeterminate e)|by destruct (Hnp msg)];
    injection Hp as <- <-; simpl; rewrite ?Hr; (split; [done|]); (split; [done|]).
  - by left.
  - by left.
  - right. rewrite insert_insert_eq, insert_id by done. eauto.
Qed.

Lemma put_journal_inv journal m o m' :
  put_journal journal m = (o, m') ->
  am_records m' = am_records m /\ am_data m' = am_data m /\
  (am_update_journal m' = journal \/ am_update_journal m' = am_update_journal m /\ o <> Ok tt).
Proof.
  unfold put_journal, st_map_err, write_update_journal.
  destruct (am_journal_path m) as [path|]; [|intros [= <- <-]; simpl; auto].
  destruct journal as [j|].
  - destruct (persist_json_document _ _ _ _ _ _) as [r fs']. destruct r as [[]|e|msg];
      [|destruct (is_indeterminate e)|]; intros [= <- <-]; simpl; auto.
  - destruct (fs_remove_file _ _) as [r fs']. destruct r as [[]|e|msg];
      [|destruct (io_kind e)|]; intros [= <- <-]; simpl; auto.
Qed.

Lemma clear_journal_inv m o m' :
  put_journal None m = (o, m') ->
  am_records m' = am_records m /\ am_data m' = am_data m /\
  (am_update_journal m' = None /\ o = Ok tt \/ am_update_journal m' = am_update_journal m /\ o <> Ok tt).
Proof.
  unfold put_journal, st_map_err, write_update_journal.
  destruct (am_journal_path m) as [path|]; [|intros [= <- <-]; simpl; auto].
  destruct (fs_remove_file _ _) as [r fs']. destruct r as [[]|e|msg];
    [|destruct (io_kind e)|]; intros [= <- <-]; simpl; auto.
Qed.

Lemma on_data_frame {A} app_id (op : st AppDataRoot string A) m o m' :
  on_data app_id op m = (o, m') ->
  am_records m' = am_records m /\ am_update_journal m' = am_update_journal m.
Proof. unfold on_data. destruct (op _) as [r root]. by intros [= <- <-]. Qed.

Lemma require_current_frame journal m o m' :
  require_current_transition journal m = (o, m') -> m' = m.
Proof.
  unfold require_current_transition. rewrite st_bind_run. unfold st_get.
  destruct (am_update_journal m) as [current|]; [case_bool_decide|]; by intros [= <- <-].
Qed.
End steps.

(** ** An update is all or nothing *)

Section all_or_nothing.
Context {W : Type} `{HostRuntime W, Uuids, ManagerCodec, AppDataCodec, !AppDataCodecLaws}.
Context (sha256_hex : string -> string) (data_path : string -> string).
Context (read_document : string -> outcome string PackageDocument).
Context (tid app_id previous target : string) (before after : option string).
Implicit Types (m : AppManager) (h : Host W) (j : UpdateJournal) (x : option string).

(** The journal of this update: from the previous to the target revision of the app,
    and from the data revision [before] to [after], the same one when no data is
    migrated. *)
Definition belongs j : Prop :=
  uj_transition_id j = tid /\ uj_app_id j = app_id /\ uj_current_revision_id j = Some previous /\
  rv_revision_id (uj_target_revision j) = target /\
  match uj_data_transition j with
  | None => after = before
  | Some data => dt_source_revision_id data = before /\ after = Some (adr_revision_id (dt_candidate data))
  end.

Definition active_id m : option string := ir_active_revision_id <$> am_records m !! app_id.

(** The data directory of the app, as [on_data] finds it. *)
Definition data_root m : AppDataRoot :=
  default {| ad_fs := {| fs_exists := false; fs_dir := ∅; fs_pending := []; fs_faults := []; fs_uuids := 0 |};
             ad_other_dirs := []; ad_revisions := ∅ |} (am_data m !! app_id).

(** Its document names [x], and its device calls no existing file missing. *)
Definition data_names m x : Prop := names (data_path app_id) (data_root m) x /\ honest (ad_fs (data_root m)).

(** The data revision and the app revision that go with a phase. *)
Definition data_at (phase : UpdatePhase) x : Prop :=
  match phase with
  | Prepared | Deactivated | DataRollbackCommitted | RolledBack => x = before
  | DataCommitted | Activated | UpdateCommitted => x = after
  | DataCandidateValidated | RollingBack => x = before \/ x = after
  end.

Definition active_at (phase : UpdatePhase) (revision : string) : Prop :=
  match phase with
  | RolledBack => revision = previous
  | UpdateCommitted => revision = target
  | _ => revision = previous \/ revision = target
  end.

(** The update is under way: its journal is there, in a phase that fits both the
    active revision of the app and the active revision of its data. *)
Definition in_progress m : Prop :=
  ∃ record j x, am_records m !! app_id = Some record /\ am_update_journal m = Some j /\ belongs j /\
    data_names m x /\ data_at (uj_phase j) x /\ active_at (uj_phase j) (ir_active_revision_id record).

(** How it may end: app and data are the new ones, or both are the old ones. *)
Definition updated m : Prop :=
  am_update_journal m = None /\ active_id m = Some target /\ data_names m after.
Definition reverted m : Prop :=
  am_update_journal m = None /\ active_id m = Some previous /\ data_names m before.

(** The phases of the drivers. *)
Definition live (phase : UpdatePhase) : Prop := phase <> RolledBack /\ phase <> UpdateCommitted.

(** A driver between two steps: it holds the journal that is in the manager. *)
Definition at_step (record : InstallRecord) j x m : Prop :=
  am_records m !! app_id = Some record /\ am_update_journal m = Some j /\ belongs j /\ live (uj_phase j) /\
  data_names m x /\ data_at (uj_phase j) x /\
  (ir_active_revision_id record = previous \/ ir_active_revision_id record = target).

Lemma active_at_live phase revision :
  live phase -> active_at phase revision <-> revision = previous \/ revision = target.
Proof. intros [? ?]. by destruct phase. Qed.

Lemma at_step_in_progress record j x m : at_step record j x m -> in_progress m.
Proof.
  intros (Hr & Hj & Hb & Hl & Hx & Hd & Ha). exists record, j, x. split_and!; try done. by apply active_at_live.
Qed.

(** Every phase goes with one of the two data revisions. *)
Lemma data_at_either phase x : data_at phase x -> x = before \/ x = after.
Proof. destruct phase; simpl; tauto. Qed.

(** All of this reads the records, the journal and the data only. *)
Definition update_view m := (am_records m, am_update_journal m, am_data m).

Lemma in_progress_ext m m' : update_view m' = update_view m -> in_progress m -> in_progress m'.
Proof. intros [= Hr Hj Hd]. unfold in_progress, data_names, data_root. by rewrite Hr, Hj, Hd. Qed.

Lemma updated_ext m m' : update_view m' = update_view m -> updated m -> updated m'.
Proof. intros [= Hr Hj Hd]. unfold updated, active_id, data_names, data_root. by rewrite Hr, Hj, Hd. Qed.

Lemma reverted_ext m m' : update_view m' = update_view m -> reverted m -> reverted m'.
Proof. intros [= Hr Hj Hd]. unfold reverted, active_id, data_names, data_root. by rewrite Hr, Hj, Hd. Qed.

(** *** Steps of the manager *)

(** A call that succeeds leaves [Q], and otherwise leaves an update that is under way. *)
Definition steps {A} (op : manager_op A) m (Q : A -> AppManager -> Prop) : Prop :=
  match op m with (Ok a, m') => Q a m' | (_, m') => in_progress m' end.

Lemma steps_bind {A B} (op : manager_op A) (k : A -> manager_op B) m Q Q' :
  steps op m Q' -> (∀ a m', Q' a m' -> steps (k a) m' Q) -> steps (op ≫= k) m Q.
Proof.
  unfold steps. intros Hop Hk. rewrite st_bind_run. destruct (op m) as [[a|e|msg] m']; [by apply Hk|done..].
Qed.

Lemma steps_weaken {A} (op : manager_op A) m Q Q' :
  steps op m Q' -> (∀ a m', Q' a m' -> Q a m') -> steps op m Q.
Proof. unfold steps. intros Hop Hq. destruct (op m) as [[a|e|msg] m']; auto. Qed.

Lemma steps_ret {A} (a : A) m (Q : A -> AppManager -> Prop) : Q a m -> steps (mret a) m Q.
Proof. done. Qed.

Lemma steps_lift {A} (o : outcome string A) m (Q : A -> AppManager -> Prop) :
  in_progress m -> (∀ a, o = Ok a -> Q a m) -> steps (st_lift o) m Q.
Proof. unfold steps, st_lift. destruct o; auto. Qed.

Lemma steps_fail {A} (e : string) m (Q : A -> AppManager -> Prop) : in_progress m -> steps (st_fail e) m Q.
Proof. done. Qed.

Lemma require_steps record j x m j' :
  at_step record j x m -> steps (require_current_transition j') m (fun _ m' => m' = m).
Proof.
  intros Hs. unfold steps. destruct (require_current_transition j' m) as [o m'] eqn:E.
  apply require_current_frame in E as ->. destruct o; [done|by eapply at_step_in_progress..].
Qed.

(** Writing another journal of this update. *)
Lemma put_steps record j x m j' :
  at_step record j x m -> belongs j' -> live (uj_phase j') -> data_at (uj_phase j') x ->
  steps (put_journal (Some j')) m (fun _ m' => at_step record j' x m').
Proof.
  intros Hs Hb' Hl' Hd'. pose proof Hs as (Hr & Hj & Hb & Hl & Hx & Hd & Ha). unfold steps.
  destruct (put_journal (Some j') m) as [o m'] eqn:E. apply put_journal_inv in E as (Hr' & Hdata & Hj').
  assert (data_names m' x) as Hx' by (unfold data_names, data_root in *; by rewrite Hdata).
  assert (am_update_journal m' = Some j' -> at_step record j' x m') as Hnew.
  { intros Hjn. unfold at_step. rewrite Hr'. by split_and!. }
  assert (am_update_journal m' = am_update_journal m -> at_step record j x m') as Hold.
  { intros Hjo. unfold at_step. rewrite Hr', Hjo. by split_and!. }
  destruct o as [[]|e|msg]; destruct Hj' as [?|[? Ho]]; auto; eauto using at_step_in_progress. done.
Qed.

Lemma enter_other_steps record j x m phase j1 :
  at_step record j x m -> belongs j1 -> live phase -> data_at phase x ->
  steps (enter_phase phase j1) m (fun j' m' => j' = with_phase phase j1 /\ at_step record j' x m').
Proof.
  intros Hs Hb Hl Hd. eapply steps_bind; [by apply (put_steps record j x m (with_phase phase j1))|].
  intros [] m' Hs'. by apply steps_ret.
Qed.

Lemma enter_steps record j x m phase :
  at_step record j x m -> live phase -> data_at phase x ->
  steps (enter_phase phase j) m (fun j' m' => j' = with_phase phase j /\ at_step record j' x m').
Proof. intros Hs. pose proof Hs as (_ & _ & Hb & _). by apply (enter_other_steps record j). Qed.

(** A call on the app's data. *)
Lemma data_steps {A} record j x y m id (op : st AppDataRoot string A) :
  at_step record j x m -> id = app_id -> renames (data_path app_id) op (data_root m) x y -> data_at (uj_phase j) y ->
  steps (on_data id op) m (fun _ m' => at_step record j y m').
Proof.
  intros Hs -> [Hh Hor] Hdy. pose proof Hs as (Hr & Hj & Hb & Hl & _ & Hd & Ha). unfold steps, on_data.
  fold (data_root m). destruct (op (data_root m)) as [o r'] eqn:E. simpl in Hh, Hor.
  set (m' := set_data (<[app_id := r']> (am_data m)) m).
  assert (data_root m' = r') as Hroot by (unfold data_root, m'; simpl; by rewrite lookup_insert_eq).
  assert (∀ z, names (data_path app_id) r' z -> data_at (uj_phase j) z -> at_step record j z m') as Hz.
  { intros z Hn Hdz. unfold at_step, data_names. rewrite Hroot. by split_and!. }
  destruct o as [a|e|msg].
  - destruct Hor as [?|[_ Ho]]; [by apply Hz|by destruct (Ho a)].
  - destruct Hor as [?|[? _]]; [apply (at_step_in_progress record j y)|apply (at_step_in_progress record j x)]; auto.
  - destruct Hor as [?|[? _]]; [apply (at_step_in_progress record j y)|apply (at_step_in_progress record j x)]; auto.
Qed.

Lemma spared_data_steps {A} record j x m id (op : st AppDataRoot string A) :
  at_step record j x m -> id = app_id -> spares_document op ->
  steps (on_data id op) m (fun _ m' => at_step record j x m').
Proof.
  intros Hs Hid Hop. pose proof Hs as (_ & _ & _ & _ & [Hn Hh] & Hd & _).
  eapply data_steps; [done..| |done]. by apply spares_renames.
Qed.

(** Writing the record with another active revision. *)
Lemma persist_steps record record' j x m :
  at_step record j x m ->
  ir_active_revision_id record' = previous \/ ir_active_revision_id record' = target ->
  steps (persist_record app_id record' record) m (fun _ m' => at_step record' j x m').
Proof.
  intros Hs Ha'. pose proof Hs as (Hr & Hj & Hb & Hl & Hx & Hd & Ha). unfold steps.
  destruct (persist_record app_id record' record m) as [o m'] eqn:E.
  apply persist_record_inv in E as (Hj' & Hdata & Hor); [|done].
  assert (data_names m' x) as Hx' by (unfold data_names, data_root in *; by rewrite Hdata).
  destruct Hor as [[Hr' Hnp]|[Hr' (e & ->)]].
  - assert (at_step record' j x m') as Hs'.
    { unfold at_step. rewrite Hr', Hj', lookup_insert_eq. by split_and!. }
    destruct o as [[]|e|msg]; [done|by eapply at_step_in_progress..].
  - apply (at_step_in_progress record j x). unfold at_step. rewrite Hr', Hj'. by split_and!.
Qed.

(** The last journal writes: a finished phase, then no journal. *)
Lemma last_steps record j x m phase :
  at_step record j x m -> data_at phase x -> active_at phase (ir_active_revision_id record) ->
  steps (_ ← enter_phase phase j; put_journal None) m (fun _ m' =>
    am_update_journal m' = None /\ active_id m' = Some (ir_active_revision_id record) /\ data_names m' x).
Proof.
  intros (Hr & Hj & Hb & Hl & Hx & Hd & Ha) Hd' Ha'. unfold steps, enter_phase. rewrite !st_bind_run.
  destruct (put_journal (Some _) m) as [o1 m1] eqn:E1. apply put_journal_inv in E1 as (Hr1 & Hdata1 & Hj1).
  assert (data_names m1 x) as Hx1 by (unfold data_names, data_root in *; by rewrite Hdata1).
  assert (in_progress m1) as Hp1.
  { destruct Hj1 as [Hj1|[Hj1 _]].
    - exists record, (with_phase phase j), x. rewrite Hr1, Hj1. by split_and!.
    - exists record, j, x. rewrite Hr1, Hj1. split_and!; try done. by apply active_at_live. }
  destruct o1 as [[]|e|msg]; [|done..]. simpl.
  destruct (put_journal None m1) as [o2 m2] eqn:E2. apply clear_journal_inv in E2 as (Hr2 & Hdata2 & Hj2).
  assert (data_names m2 x) as Hx2 by (unfold data_names, data_root in *; by rewrite Hdata2).
  destruct Hj2 as [[Hj2 ->]|[Hj2 Ho]].
  - split_and!; [done| |done]. unfold active_id. by rewrite Hr2, Hr1, Hr.
  - assert (in_progress m2) as Hp2.
    { destruct Hp1 as (record1 & j1 & x1 & Hr1' & Hj1' & Hb1 & Hx1' & Hrest).
      exists record1, j1, x1. rewrite Hr2, Hj2. split_and!; try done.
      all: try apply Hrest. unfold data_names, data_root in *; by rewrite Hdata2. }
    by destruct o2 as [[]|e|msg].
Qed.

Lemma activated_record_active j record :
  belongs j -> ir_active_revision_id (activated_record j record) = target.
Proof.
  intros (_ & _ & _ & Ht & _). unfold activated_record. simpl. rewrite Ht.
  destruct (find_revision target _) eqn:E; simpl; [|done]. by apply find_revision_Some in E as [_ ->].
Qed.

Lemma get_record_steps {B} record j x m id (k : InstallRecord -> manager_op B) Q :
  at_step record j x m -> id = app_id -> steps (k record) m Q -> steps (get_record id ≫= k) m Q.
Proof. intros (Hr & _) -> Hk. unfold steps in *. rewrite st_bind_run. unfold get_record. by rewrite Hr. Qed.

Lemma commit_steps record j m retention :
  at_step record j after m -> steps (commit_journaled_transition data_path j retention) m (fun _ m' => updated m').
Proof.
  intros Hs. eapply steps_bind; [by eapply require_steps|]. intros [] m0 ->.
  eapply steps_bind; [by apply (enter_steps record j after m Activated)|]. intros j1 m1 [-> Hs1].
  pose proof Hs1 as (_ & _ & Hb1 & _). pose proof Hb1 as (_ & Happ & _ & _ & Hdata).
  eapply steps_bind.
  { unfold commit_revision_transition. rewrite Happ. eapply get_record_steps; [exact Hs1|done|].
    apply persist_steps; [exact Hs1|right; by apply activated_record_active]. }
  intros [] m2 Hs2.
  eapply (steps_bind _ _ _ _ (fun _ m' => at_step (activated_record (with_phase Activated j) record)
                                            (with_phase Activated j) after m')).
  { destruct (uj_data_transition (with_phase Activated j)); [|by apply steps_ret].
    pose proof Hs2 as (_ & _ & _ & _ & [Hn Hh] & Hd & _).
    eapply data_steps; [exact Hs2|done| |done]. rewrite Happ. by apply prune_renames. }
  intros [] m3 Hs3. pose proof (activated_record_active _ record Hb1) as Hact.
  eapply steps_weaken; [by apply (last_steps _ _ after m3 UpdateCommitted Hs3)|].
  intros [] m4 (Hj4 & Ha4 & Hx4). unfold updated. by rewrite Ha4, Hact.
Qed.

Lemma finish_rollback_steps record j m :
  at_step record j before m -> steps (finish_journaled_rollback j previous) m (fun _ m' => reverted m').
Proof.
  intros Hs. pose proof Hs as (_ & _ & (_ & Happ & _) & _).
  eapply steps_bind; [by eapply require_steps|]. intros [] m0 ->. rewrite Happ.
  eapply get_record_steps; [exact Hs|done|].
  eapply steps_bind; [apply persist_steps; [exact Hs|by left]|]. intros [] m1 Hs1.
  eapply steps_weaken; [by apply (last_steps _ _ before m1 RolledBack Hs1)|]. intros [] m2 (? & ? & ?). by split_and!.
Qed.

(** After the data was rolled back both journals agree that it is the old one. *)
Lemma begin_rollback_steps record j x m :
  at_step record j x m ->
  steps (begin_journaled_rollback data_path j) m (fun r m' => r.2 = previous /\ at_step record r.1 before m').
Proof.
  intros Hs. pose proof Hs as (_ & _ & Hb & _ & _ & Hd & _). pose proof Hb as (_ & Happ & Hprev & _ & Hdata).
  eapply steps_bind; [by eapply require_steps|]. intros [] m0 ->.
  eapply (steps_bind _ _ _ _ (fun id m' => id = previous /\ m' = m)).
  { apply steps_lift; [by eapply at_step_in_progress|]. intros id. rewrite Hprev. by intros [= <-]. }
  intros id m0 [-> ->].
  eapply steps_bind; [apply (enter_steps record j x m RollingBack Hs ltac:(done)); by apply data_at_either in Hd|].
  intros j1 m1 [-> Hs1]. pose proof Hs1 as (_ & _ & _ & _ & [Hn Hh] & _). simpl.
  destruct (uj_data_transition j) as [data|] eqn:Edata.
  - destruct Hdata as [Hsrc Haft].
    eapply steps_bind.
    { rewrite Happ. eapply (data_steps record _ x before); [exact Hs1|done| |by left].
      rewrite <- Hsrc. by apply rollback_renames. }
    intros [] m2 Hs2. eapply steps_bind; [by apply (enter_steps record _ before m2 DataRollbackCommitted Hs2)|].
    intros j3 m3 [-> Hs3]. by apply steps_ret.
  - apply steps_ret. split; [done|]. simpl. assert (x = before) as <-; [|done].
    apply data_at_either in Hd. destruct Hd; congruence.
Qed.

Lemma check_digests_steps record j x m data :
  at_step record j x m -> steps (check_data_digests sha256_hex data_path app_id data) m (fun _ m' => at_step record j x m').
Proof.
  intros Hs.
  assert (∀ id expected e m0, at_step record j x m0 ->
    steps (actual ← on_data app_id (revision_digest sha256_hex (data_path app_id) id);
           if negb (bool_decide (actual = expected)) then st_fail e else mret tt) m0
      (fun _ m' => at_step record j x m')) as Hd.
  { intros id expected e m0 Hs0. eapply steps_bind; [apply spared_data_steps; [done..|apply spares_revision_digest]|].
    intros actual m1 Hs1. cbv beta in Hs1. case_bool_decide; simpl; [by apply steps_ret|].
    apply steps_fail. by eapply at_step_in_progress. }
  assert (∀ (o : outcome string string) (f : string -> manager_op unit) m0, at_step record j x m0 ->
    (∀ s m1, at_step record j x m1 -> steps (f s) m1 (fun _ m' => at_step record j x m')) ->
    steps (s ← st_lift o; f s) m0 (fun _ m' => at_step record j x m')) as Hlift.
  { intros o f m0 Hs0 Hf. eapply (steps_bind _ _ _ _ (fun _ m' => at_step record j x m')); [|intros; by apply Hf].
    apply steps_lift; [by eapply at_step_in_progress|done]. }
  unfold check_data_digests. eapply (steps_bind _ _ _ _ (fun _ m' => at_step record j x m')).
  - destruct (dt_source_revision_id data); [|by apply steps_ret]. apply Hlift; [done|]. intros; by apply Hd.
  - intros [] m1 Hs1. apply Hlift; [done|]. intros; by apply Hd.
Qed.

Lemma commit_data_steps record j x m :
  at_step record j x m -> uj_phase j = DataCandidateValidated ->
  steps (commit_data_candidate sha256_hex data_path j) m (fun j' m' => at_step record j' after m').
Proof.
  intros Hs Hph. pose proof Hs as (_ & _ & Hb & Hl & _ & Hd & _). pose proof Hb as (_ & Happ & _ & _ & Hdata).
  eapply steps_bind; [by eapply require_steps|]. intros [] m0 ->.
  eapply (steps_bind _ _ _ _ (fun data m' => uj_data_transition j = Some data /\ m' = m)).
  { apply steps_lift; [by eapply at_step_in_progress|]. intros data. by destruct (uj_data_transition j); intros [= ->]. }
  intros data m0 [Edata ->]. rewrite Edata in Hdata. destruct Hdata as [Hsrc Haft]. rewrite Happ.
  eapply steps_bind; [by apply check_digests_steps|]. intros [] m1 Hs1.
  pose proof Hs1 as (_ & _ & _ & _ & [Hn Hh] & _).
  eapply steps_bind.
  { eapply (data_steps record j x after); [exact Hs1|done| |rewrite Hph; by right].
    rewrite Haft. apply commit_renames; [done..|]. rewrite Hsrc.
    apply data_at_either in Hd as [->| ->]; [done|]. rewrite Haft. by eexists. }
  intros [] m2 Hs2. eapply steps_weaken; [by apply (enter_steps record j after m2 DataCommitted Hs2)|].
  by intros j' m' [_ ?].
Qed.

Lemma mark_validated_steps record j x m sd cd :
  at_step record j x m -> uj_phase j = Deactivated ->
  steps (mark_data_candidate_validated j sd cd) m
    (fun j' m' => at_step record j' x m' /\ uj_phase j' = DataCandidateValidated).
Proof.
  intros Hs Hph. pose proof Hs as (_ & _ & Hb & Hl & _ & Hd & _). pose proof Hb as (? & ? & ? & ? & Hdata).
  eapply steps_bind; [by eapply require_steps|]. intros [] m0 ->.
  destruct (uj_data_transition j) as [data|] eqn:Edata; [|by eapply steps_fail, at_step_in_progress].
  destruct (negb _); [by eapply steps_fail, at_step_in_progress|].
  eapply steps_weaken; [apply (enter_other_steps record j x m); [done|by split_and!|done|rewrite Hph in Hd; by left]|].
  by intros j' m' [-> ?].
Qed.

(** *** The drivers *)

Abbreviation host_op := (st (Host W) string).

(** A driver that succeeds leaves [Q]; a driver that fails leaves an update that is
    reverted or under way. *)
Definition ends {A} (op : host_op A) h (Q : A -> AppManager -> Prop) : Prop :=
  match op h with
  | (Ok a, h') => Q a (ho_manager h')
  | (Err _, h') => reverted (ho_manager h') \/ in_progress (ho_manager h')
  | (Panic _, h') => in_progress (ho_manager h')
  end.

Lemma ends_bind {A B} (op : host_op A) (k : A -> host_op B) h Q Q' :
  ends op h Q' -> (∀ a h', Q' a (ho_manager h') -> ends (k a) h' Q) -> ends (op ≫= k) h Q.
Proof.
  unfold ends. intros Hop Hk. rewrite st_bind_run. destruct (op h) as [[a|e|msg] h']; [by apply Hk|done..].
Qed.

Lemma ends_on_manager {A} (op : manager_op A) h Q : steps op (ho_manager h) Q -> ends (on_manager op) h Q.
Proof.
  unfold steps, ends, on_manager. destruct (op (ho_manager h)) as [[a|e|msg] m']; simpl; auto.
Qed.

(** A call whose result is looked at, and which leaves the update where it is. *)
Lemma ends_caught {A B} record j x (op : host_op A) (k : outcome string A -> host_op B) h Q :
  preserves (fun h => at_step record j x (ho_manager h)) op -> at_step record j x (ho_manager h) ->
  (∀ r h', at_step record j x (ho_manager h') -> ends (k r) h' Q) -> ends (st_catch op ≫= k) h Q.
Proof.
  intros Hop Hs Hk. specialize (Hop h Hs). unfold ends. rewrite st_bind_run. unfold st_catch.
  destruct (op h) as [[a|e|msg] h']; [by apply Hk..|by eapply at_step_in_progress].
Qed.

Lemma on_world_keeps {A} P (f : W -> outcome string A * W) :
  preserves (fun h : Host W => P (ho_manager h)) (on_world f).
Proof. intros h Hh. unfold on_world. by destruct (f (ho_world h)). Qed.

Lemma ends_fail {A} e h (Q : A -> AppManager -> Prop) :
  reverted (ho_manager h) \/ in_progress (ho_manager h) -> ends (st_fail e) h Q.
Proof. done. Qed.

Lemma ends_panic {A} record j x msg h (Q : A -> AppManager -> Prop) :
  at_step record j x (ho_manager h) -> ends (st_lift (Panic msg)) h Q.
Proof. intros Hs. by eapply at_step_in_progress. Qed.

Abbreviation ends_updated op h := (ends op h (fun _ m' => updated m')).

Lemma finish_then_fail_ends record j h e :
  at_step record j before (ho_manager h) ->
  ends_updated (_ ← on_manager (finish_journaled_rollback j previous); st_fail e : host_op unit) h.
Proof.
  intros Hs. eapply ends_bind; [by eapply ends_on_manager, finish_rollback_steps|].
  intros [] h' Hr. apply ends_fail. by left.
Qed.

Lemma finish_rollback_ends record j h e :
  at_step record j before (ho_manager h) -> ends_updated (finish_rollback j previous e) h.
Proof.
  intros Hs. unfold finish_rollback. destruct (negb _); [by eapply finish_then_fail_ends|].
  eapply (ends_caught record j before); [apply on_world_keeps|done|]. intros [u|er|msg] h' Hs'.
  - by eapply finish_then_fail_ends.
  - right. exact (at_step_in_progress _ _ _ _ Hs').
  - by eapply ends_panic.
Qed.

Lemma rollback_ends record j x h e :
  at_step record j x (ho_manager h) -> ends_updated (rollback_journaled_transition data_path j e) h.
Proof.
  intros Hs. pose proof Hs as (_ & _ & (_ & _ & Hprev & _) & _ & _ & Hd & _).
  unfold rollback_journaled_transition. case_bool_decide as Hph.
  - rewrite Hprev. rewrite Hph in Hd. simpl in Hd. subst x.
    change (ends_updated (finish_rollback j previous e) h). by eapply finish_rollback_ends.
  - eapply ends_bind; [by eapply ends_on_manager, begin_rollback_steps|].
    intros [j' id] h' [-> Hs']. eapply finish_rollback_ends. exact Hs'.
Qed.

Lemma activate_target_ends record j h :
  at_step record j after (ho_manager h) -> ends_updated (activate_target data_path j) h.
Proof.
  intros Hs. unfold activate_target. unfold ends. rewrite st_bind_run. unfold st_get at 1. cbv iota beta.
  match goal with |- match (?op h) with _ => _ end => change (ends_updated op h) end.
  destruct (negb _); [by eapply ends_on_manager, commit_steps|].
  eapply (ends_caught record j after); [apply on_world_keeps|done|]. intros [u|er|msg] h' Hs'.
  - by eapply ends_on_manager, commit_steps.
  - by eapply rollback_ends.
  - by eapply ends_panic.
Qed.

Lemma commit_data_then_activate_ends record j x h :
  at_step record j x (ho_manager h) -> uj_phase j = DataCandidateValidated \/ x = after ->
  ends_updated (commit_data_then_activate sha256_hex data_path j) h.
Proof.
  intros Hs Hor. unfold commit_data_then_activate. case_bool_decide as Hph.
  - eapply ends_bind; [by eapply ends_on_manager, commit_data_steps|].
    intros j' h' Hs'. eapply activate_target_ends. exact Hs'.
  - destruct Hor as [?| ->]; [done|]. by eapply activate_target_ends.
Qed.

Lemma run_in_candidate_keeps record j x id program :
  preserves (fun h => at_step record j x (ho_manager h)) (run_in_candidate app_id id program).
Proof.
  intros h (Hr & Hj & Hb & Hl & [Hn Hh] & Hd & Ha). unfold run_in_candidate.
  destruct (program _ _) as [[r node] w]. simpl.
  enough (data_names (set_data (match am_data (ho_manager h) !! app_id with
      | Some root => <[app_id := set_ad_revisions (<[id := node]> (ad_revisions root)) root]> (am_data (ho_manager h))
      | None => am_data (ho_manager h)
      end) (ho_manager h)) x) by by split_and!.
  unfold data_names, data_root in *. simpl. destruct (am_data (ho_manager h) !! app_id) as [root|] eqn:E; [|by rewrite E].
  simpl. rewrite lookup_insert_eq. done.
Qed.

Lemma data_call_keeps {A} record j x (op : st AppDataRoot string A) :
  spares_document op -> preserves (fun h => at_step record j x (ho_manager h)) (on_manager (on_data app_id op)).
Proof.
  intros Hop h (Hr & Hj & Hb & Hl & [Hn Hh] & Hd & Ha). unfold on_manager, on_data. fold (data_root (ho_manager h)).
  pose proof (spares_names (data_path app_id) op _ x Hop Hh Hn) as Hx.
  destruct (op (data_root (ho_manager h))) as [o r']. simpl in *. split_and!; try done.
  unfold data_names, data_root. simpl. by rewrite lookup_insert_eq.
Qed.

Lemma execute_migration_keeps record j x data revision :
  uj_app_id j = app_id ->
  preserves (fun h => at_step record j x (ho_manager h))
    (execute_migration sha256_hex data_path read_document j data revision).
Proof.
  intros Happ. unfold execute_migration. rewrite Happ.
  apply preserves_bind; [apply data_call_keeps, spares_stage_candidate|intros staged].
  apply preserves_bind; [destruct revision; [|apply preserves_ret]|intros _].
  { apply preserves_bind; [apply preserves_lift|intros _]. apply run_in_candidate_keeps. }
  apply preserves_bind; [apply run_in_candidate_keeps|intros _].
  apply preserves_bind; [apply data_call_keeps, spares_revision_digest|intros digest]. apply preserves_ret.
Qed.

Lemma find_migration_steps record j x m data :
  at_step record j x m -> steps (find_migration_revision j data) m (fun _ m' => m' = m).
Proof.
  intros Hs. eapply steps_bind; [by eapply require_steps|]. intros [] m0 ->.
  pose proof Hs as (_ & _ & (_ & Happ & _) & _). eapply get_record_steps; [exact Hs|done|].
  destruct (dt_migration_revision_id data); [|by apply steps_ret].
  eapply (steps_bind _ _ _ _ (fun _ m' => m' = m)); [|intros revision m' ->; by apply steps_ret].
  apply steps_lift; [by eapply at_step_in_progress|done].
Qed.

(** Before a phase that has the new data, the data has been migrated. *)
Lemma migrate_ends record j x h :
  at_step record j x (ho_manager h) -> uj_phase j <> Prepared ->
  uj_phase j <> RollingBack -> uj_phase j <> DataRollbackCommitted ->
  ends_updated (migrate_then_activate sha256_hex data_path read_document j) h.
Proof.
  intros Hs Hp1 Hp2 Hp3. pose proof Hs as (_ & _ & Hb & [Hl1 Hl2] & _ & Hd & _). pose proof Hb as (_ & Happ & _ & _ & Hdata).
  unfold migrate_then_activate. destruct (uj_phase j) eqn:Eph; try done.
  2,3,4: (eapply commit_data_then_activate_ends; [exact Hs|]; rewrite Eph; auto).
  destruct (uj_data_transition j) as [data|] eqn:Edata.
  2: { eapply commit_data_then_activate_ends; [exact Hs|]. right. simpl in Hd. congruence. }
  eapply ends_bind; [by eapply ends_on_manager, find_migration_steps|]. intros revision h1 Hm. rewrite <- Hm in Hs.
  eapply (ends_caught record j x); [by apply execute_migration_keeps|done|].
  intros [[sd cd]|e|msg] h2 Hs2; [|by eapply rollback_ends|by eapply ends_panic].
  eapply ends_bind; [by eapply ends_on_manager, mark_validated_steps|]. intros j' h3 [Hs3 Hph].
  eapply commit_data_then_activate_ends; [exact Hs3|by left].
Qed.

Lemma continue_ends record j x h do_deactivate :
  at_step record j x (ho_manager h) -> (uj_phase j = Prepared -> do_deactivate = true) ->
  uj_phase j <> RollingBack -> uj_phase j <> DataRollbackCommitted ->
  ends_updated (continue_journaled_transition sha256_hex data_path read_document j do_deactivate) h.
Proof.
  intros Hs Hdo Hp2 Hp3. unfold continue_journaled_transition. destruct (decide (uj_phase j = Prepared)) as [Hph|Hph].
  - rewrite (Hdo Hph), bool_decide_eq_true_2 by done. simpl.
    eapply (ends_bind _ _ _ _ (fun j' m' => j' = with_phase Deactivated j /\ at_step record j' x m')).
    + eapply ends_bind; [by eapply ends_on_manager, require_steps|]. intros [] h1 Hm. rewrite <- Hm in Hs.
      eapply (ends_bind _ _ _ _ (fun _ m' => at_step record j x m')).
      { pose proof (on_world_keeps (at_step record j x) (deactivate (uj_app_id j)) h1 Hs) as Hk.
        unfold ends. destruct (on_world _ h1) as [[[]|e|msg] h2]; simpl in *; eauto using at_step_in_progress. }
      intros [] h2 Hs2. pose proof Hs2 as (_ & _ & _ & _ & _ & Hd & _). rewrite Hph in Hd.
      apply ends_on_manager, enter_steps; done.
    + intros j' h' [-> Hs']. eapply migrate_ends; [exact Hs'|done..].
  - rewrite bool_decide_eq_false_2, andb_false_r by done. by eapply migrate_ends.
Qed.

(** The recovery: it finishes what the phase of the journal asks for. *)
Lemma recover_ends h :
  in_progress (ho_manager h) ->
  let r := recover_managed_app_transition_phased sha256_hex data_path read_document h in
  match r.1 with
  | Ok _ => updated (ho_manager r.2) \/ reverted (ho_manager r.2)
  | Err _ => reverted (ho_manager r.2) \/ in_progress (ho_manager r.2)
  | Panic _ => in_progress (ho_manager r.2)
  end.
Proof.
  intros (record & j & x & Hr & Hj & Hb & Hx & Hd & Ha) r.
  assert (∀ op : host_op unit, ends_updated op h -> r = op h ->
    match r.1 with
    | Ok _ => updated (ho_manager r.2) \/ reverted (ho_manager r.2)
    | Err _ => reverted (ho_manager r.2) \/ in_progress (ho_manager r.2)
    | Panic _ => in_progress (ho_manager r.2)
    end) as Hends.
  { intros op He ->. unfold ends in He. destruct (op h) as [[[]|e|msg] h']; simpl; auto. }
  assert (live (uj_phase j) -> at_step record j x (ho_manager h)) as Hs.
  { intros Hl. split_and!; try done; try apply Hx. by apply (active_at_live (uj_phase j)). }
  unfold r, recover_managed_app_transition_phased in *. rewrite st_bind_run in *. unfold st_get in *.
  cbv iota beta in *. rewrite Hj in *.
  assert (uj_phase j = RolledBack \/ uj_phase j = UpdateCommitted -> ∀ r',
    on_manager (clear_completed_journal j) h = r' ->
    match r'.1 with
    | Ok _ => updated (ho_manager r'.2) \/ reverted (ho_manager r'.2)
    | Err _ => reverted (ho_manager r'.2) \/ in_progress (ho_manager r'.2)
    | Panic _ => in_progress (ho_manager r'.2)
    end) as Hdone.
  { intros Hor r' <-. unfold on_manager, clear_completed_journal. rewrite st_bind_run.
    destruct (require_current_transition j (ho_manager h)) as [oq mq] eqn:Eq. apply require_current_frame in Eq as ->.
    assert (in_progress (ho_manager h)) as Hp by by exists record, j, x; split_and!.
    destruct oq as [[]|e|msg]; [|by right|done].
    assert ((match uj_phase j with RolledBack | UpdateCommitted => put_journal None
      | phase => st_fail ("cannot clear managed-app transition '" +:+ uj_transition_id j +:+ "' in phase " +:+ phase_name phase)
      end : manager_op unit) = put_journal None) as -> by by destruct Hor as [-> | ->].
    destruct (put_journal None (ho_manager h)) as [o m'] eqn:E. apply clear_journal_inv in E as (Hr' & Hdata & Hj'). simpl.
    assert (data_names m' x) as Hx' by (unfold data_names, data_root in *; by rewrite Hdata).
    destruct Hj' as [[Hj' ->]|[Hj' Ho]].
    - destruct Hor as [Hph|Hph]; rewrite Hph in Hd, Ha; simpl in Hd, Ha; subst x; [right|left];
        unfold reverted, updated, active_id; rewrite Hr', Hr; simpl; by rewrite Ha.
    - assert (in_progress m') as Hp' by (exists record, j, x; rewrite Hr', Hj'; by split_and!).
      destruct o as [[]|e|msg]; [done|by right|done]. }
  destruct (uj_phase j) eqn:Eph.
  - eapply Hends; [|reflexivity]. eapply continue_ends; [by apply Hs|by rewrite Eph..].
  - eapply Hends; [|reflexivity]. eapply continue_ends; [by apply Hs|by rewrite Eph..].
  - eapply Hends; [|reflexivity]. eapply continue_ends; [by apply Hs|by rewrite Eph..].
  - eapply Hends; [|reflexivity]. eapply continue_ends; [by apply Hs|by rewrite Eph..].
  - eapply (Hends (on_manager (commit_journaled_transition data_path j (ho_backup_retention h)))); [|reflexivity].
    simpl in Hd. subst x. eapply ends_on_manager, commit_steps. by apply Hs.
  - eapply Hends; [|reflexivity]. eapply rollback_ends. by apply Hs.
  - eapply Hends; [|reflexivity]. eapply rollback_ends. by apply Hs.
  - apply Hdone; [by left|done].
  - apply Hdone; [by right|done].
Qed.
End all_or_nothing.

(** ** Restarts *)

Section restarts.
Context {W : Type} `{HostRuntime W, Uuids, ManagerCodec, !ManagerCodecLaws, AppDataCodec, !AppDataCodecLaws}.
Context (sha256_hex : string -> string) (data_path : string -> string).
Context (read_document : string -> outcome string PackageDocument).
Context (store_path journal_path : Path) (Hsep : separate_files store_path journal_path).
Implicit Types (m : AppManager) (h : Host W).
Abbreviation host_op := (st (Host W) string).
Abbreviation keeps_host := (preserves (fun h : Host W => mirrors store_path journal_path (ho_manager h))).

Lemma on_manager_mirrors {A} (op : manager_op A) :
  preserves (mirrors store_path journal_path) op -> keeps_host (on_manager op).
Proof. intros Hop h Hh. specialize (Hop _ Hh). unfold on_manager. by destruct (op (ho_manager h)). Qed.

Lemma on_data_mirrors {A} id (op : st AppDataRoot string A) : keeps_host (on_manager (on_data id op)).
Proof. apply on_manager_mirrors, on_data_keeps. Qed.

Lemma run_in_candidate_mirrors app_id id program : keeps_host (run_in_candidate app_id id program).
Proof.
  intros h Hh. unfold run_in_candidate. destruct (program _ _) as [[r node] w]. simpl.
  by destruct Hh as [? ? ? ? ? ?].
Qed.

Lemma rollback_mirrors j e : keeps_host (rollback_journaled_transition data_path j e).
Proof.
  assert (∀ j previous e, keeps_host (finish_rollback j previous e)) as Hf.
  { intros j' previous e'. unfold finish_rollback.
    pose proof (finish_journaled_rollback_keeps store_path journal_path Hsep j' previous) as Hk.
    destruct (negb _).
    - apply preserves_bind; [by apply on_manager_mirrors|intros _; apply preserves_fail].
    - apply preserves_bind; [apply preserves_catch, on_world_keeps|]. intros [u|er|msg].
      + apply preserves_bind; [by apply on_manager_mirrors|intros _; apply preserves_fail].
      + apply preserves_fail.
      + apply preserves_lift. }
  unfold rollback_journaled_transition. case_bool_decide.
  - apply preserves_bind; [apply preserves_lift|intros id; apply Hf].
  - apply preserves_bind; [by apply on_manager_mirrors, begin_journaled_rollback_keeps|intros r; apply Hf].
Qed.

Lemma activate_target_mirrors j : keeps_host (activate_target data_path j).
Proof.
  unfold activate_target. apply preserves_bind; [apply preserves_get|intros n].
  destruct (negb _); [by apply on_manager_mirrors, commit_journaled_transition_keeps|].
  apply preserves_bind; [apply preserves_catch, on_world_keeps|]. intros [u|er|msg].
  - by apply on_manager_mirrors, commit_journaled_transition_keeps.
  - apply rollback_mirrors.
  - apply preserves_lift.
Qed.

Lemma continue_mirrors j do_deactivate :
  keeps_host (continue_journaled_transition sha256_hex data_path read_document j do_deactivate).
Proof.
  assert (∀ j, keeps_host (commit_data_then_activate sha256_hex data_path j)) as Hc.
  { intros j'. unfold commit_data_then_activate. case_bool_decide; [|apply activate_target_mirrors].
    apply preserves_bind; [by apply on_manager_mirrors, commit_data_candidate_keeps|intros ?; apply activate_target_mirrors]. }
  assert (∀ j, keeps_host (migrate_then_activate sha256_hex data_path read_document j)) as Hm.
  { intros j'. unfold migrate_then_activate. destruct (uj_phase j'), (uj_data_transition j') as [data|]; try apply Hc.
    apply preserves_bind; [apply on_manager_mirrors|intros revision].
    { unfold find_migration_revision. apply preserves_bind; [apply require_current_keeps|intros _].
      apply preserves_bind; [by intros m Hm|intros record].
      destruct (dt_migration_revision_id data); [|apply preserves_ret].
      apply preserves_bind; [apply preserves_lift|intros ?; apply preserves_ret]. }
    apply preserves_bind; [apply preserves_catch|].
    { unfold execute_migration. apply preserves_bind; [apply on_data_mirrors|intros staged].
      apply preserves_bind; [destruct revision; [|apply preserves_ret]|intros _].
      { apply preserves_bind; [apply preserves_lift|intros _]. apply run_in_candidate_mirrors. }
      apply preserves_bind; [apply run_in_candidate_mirrors|intros _].
      apply preserves_bind; [apply on_data_mirrors|intros ?; apply preserves_ret]. }
    intros [[sd cd]|e|msg]; [|apply rollback_mirrors|apply preserves_lift].
    apply preserves_bind; [by apply on_manager_mirrors, mark_data_candidate_validated_keeps|intros ?; apply Hc]. }
  unfold continue_journaled_transition. destruct (do_deactivate && _); [|apply Hm].
  apply preserves_bind; [|intros ?; apply Hm]. unfold deactivate_journaled_transition.
  apply preserves_bind; [apply on_manager_mirrors, require_current_keeps|intros _].
  apply preserves_bind; [apply on_world_keeps|intros _]. by apply on_manager_mirrors, enter_phase_keeps.
Qed.

Lemma recover_mirrors : keeps_host (recover_managed_app_transition_phased sha256_hex data_path read_document).
Proof.
  unfold recover_managed_app_transition_phased. apply preserves_bind; [apply preserves_get|].
  intros [j|]; [|apply preserves_ret].
  destruct (uj_phase j); first [apply continue_mirrors|apply rollback_mirrors|
    by apply on_manager_mirrors, clear_completed_journal_keeps|idtac].
  apply preserves_bind; [apply preserves_get|intros n]. by apply on_manager_mirrors, commit_journaled_transition_keeps.
Qed.

(** Opening the manager finds the records and the journal the files hold. *)
Lemma app_manager_new_reads trust data fs m m0 :
  am_fs m0 = fs -> app_manager_new store_path journal_path trust data (quiet fs) = Ok m ->
  stored_records store_path m0 = Ok (am_records m) /\ stored_journal journal_path m0 = Ok (am_update_journal m) /\
  am_data m = data.
Proof.
  intros <-. destruct Hsep as (Hvs & Hvj & Hne). unfold app_manager_new.
  pose proof (load_keeps_other store_from_str store_path "installed apps" (p_file_name journal_path) Hvj
    (quiet (am_fs m0))) as Hk.
  destruct (load_json_document_working store_from_str store_path "installed apps" (am_fs m0)) as [fs1 E1].
  rewrite E1 in Hk |- *. simpl in Hk.
  destruct (load_json_document_working journal_from_str journal_path "app update journal" fs1) as [fs2 E2].
  rewrite E2. intros Hok. unfold stored_records, stored_journal.
  destruct (load_result store_from_str store_path _ _) as [stored| |] eqn:Es; simpl in Hok; try done.
  assert (contents fs1 (p_file_name journal_path) = contents (am_fs m0) (p_file_name journal_path)) as Hc
    by (unfold contents; by rewrite Hk).
  rewrite <- Hc. destruct (load_result journal_from_str journal_path _ _) as [journal| |] eqn:Ej; simpl in Hok; try done.
  inv_ok Hok. injection Hok as <-. simpl. by split_and!.
Qed.

(** The host starts again: the manager opens its files, which may be refused, the
    device gets other failures to come (none of which calls an existing file missing),
    the runtime and the setting for backups may have changed, the app data is what was
    left; then the recovery runs, with answer [o]. *)
Inductive restart (o : outcome string unit) : Host W -> Host W -> Prop :=
  | restart_intro h trust m faults w retention h' :
      app_manager_new store_path journal_path trust (am_data (ho_manager h)) (quiet (am_fs (ho_manager h))) = Ok m ->
      (∀ fault, Some fault ∈ faults -> io_kind (ft_error fault) <> NotFound) ->
      recover_managed_app_transition_phased sha256_hex data_path read_document
        {| ho_manager := manager_with_faults faults m; ho_world := w; ho_backup_retention := retention |} = (o, h') ->
      restart o h h'.

Definition restarted h h' : Prop := ∃ o, restart o h h'.
End restarts.

(** ** The claims *)

Section claims.
Context {W : Type} `{HostRuntime W, Uuids, ManagerCodec, !ManagerCodecLaws, AppDataCodec, !AppDataCodecLaws}.
Context (sha256_hex : string -> string) (data_path : string -> string).
Context (read_document : string -> outcome string PackageDocument).
Context (store_path journal_path : Path).

Section update.
Context (tid app_id previous target : string) (before after : option string).
Context (Hsep : separate_files store_path journal_path).
Implicit Types (h : Host W) (m : AppManager).
Abbreviation updated := (updated data_path app_id target after).
Abbreviation reverted := (reverted data_path app_id previous before).
Abbreviation in_progress := (in_progress data_path tid app_id previous target before after).
Abbreviation restart := (restart (W := W) sha256_hex data_path read_document store_path journal_path).
Abbreviation restarted := (restarted (W := W) sha256_hex data_path read_document store_path journal_path).

(** A restart finishes an update that is under way, or leaves it under way; one that
    has ended it leaves alone. *)
Lemma restart_settles o h h' :
  mirrors store_path journal_path (ho_manager h) -> restart o h h' ->
  mirrors store_path journal_path (ho_manager h') /\
  (updated (ho_manager h) -> updated (ho_manager h')) /\
  (reverted (ho_manager h) -> reverted (ho_manager h')) /\
  (in_progress (ho_manager h) ->
     match o with
     | Ok _ => updated (ho_manager h') \/ reverted (ho_manager h')
     | Err _ => reverted (ho_manager h') \/ in_progress (ho_manager h')
     | Panic _ => in_progress (ho_manager h')
     end).
Proof.
  intros Hm Hr. destruct Hr as [h trust m faults w retention h' Hnew Hf Hrec].
  assert (mirrors store_path journal_path (manager_with_faults faults m)) as Hm'
    by by eapply app_manager_new_mirrors.
  apply (app_manager_new_reads store_path journal_path Hsep trust _ _ m (ho_manager h)) in Hnew as (Hr & Hj & Hd); [|done].
  rewrite (mi_records _ _ _ Hm) in Hr. rewrite (mi_stored_journal _ _ _ Hm) in Hj. injection Hr as Hr. injection Hj as Hj.
  set (h1 := {| ho_manager := manager_with_faults faults m; ho_world := w; ho_backup_retention := retention |}) in *.
  pose proof (recover_mirrors sha256_hex data_path read_document store_path journal_path Hsep h1 Hm') as Hk.
  rewrite Hrec in Hk. split; [exact Hk|].
  assert (update_view (ho_manager h1) = update_view (ho_manager h)) as Hview
    by (unfold update_view; simpl; by rewrite Hr, Hj, Hd).
  assert (am_update_journal (ho_manager h) = None -> h' = h1) as Hidle.
  { intros Hn. unfold recover_managed_app_transition_phased in Hrec. rewrite st_bind_run in Hrec. unfold st_get in Hrec.
    simpl in Hrec. rewrite <- Hj, Hn in Hrec. by injection Hrec as _ <-. }
  split_and!.
  - intros Hu. pose proof Hu as (Hn & _). rewrite (Hidle Hn). by eapply updated_ext.
  - intros Hv. pose proof Hv as (Hn & _). rewrite (Hidle Hn). by eapply reverted_ext.
  - intros Hp. pose proof (in_progress_ext _ _ _ _ _ _ _ _ _ Hview Hp) as Hp1.
    pose proof (recover_ends sha256_hex data_path read_document _ _ _ _ _ _ h1 Hp1) as Hends.
    by rewrite Hrec in Hends.
Qed.

(** C18: An app update is all or nothing, for the app and for its data, also across
    restarts. Let the journal of an update be in the manager, in a phase that goes with
    the active revision of the app and of its data ([in_progress]: before the data is
    committed its source revision is active, afterwards the candidate), the files of the
    manager agreeing with it, and no device calling an existing file missing; whatever
    the kernel, the migration command and the devices do:
    when [continue_journaled_transition] succeeds, the journal is gone, the target
    revision is active and so is the migrated data ([updated]); when it fails, either
    the journal is gone and the previous revision and the data it had are active again
    ([reverted]), or the update is still in progress. From then on, over any number of
    starts that open the files of the manager and run the recovery, the update stays
    updated, reverted or in progress, never one revision with the data of the other
    without a journal that says so; an ended update stays as it ended, and a recovery
    that succeeds ends it. A start may refuse the journal, as it does after the
    rollback of [rollback_before_validation_blocks_restart]: then nothing is
    recovered. The starts follow a call that returned; a process killed between two
    writes is not modelled. *)
Theorem update_all_or_nothing j h do_deactivate :
  mirrors store_path journal_path (ho_manager h) -> am_update_journal (ho_manager h) = Some j ->
  in_progress (ho_manager h) ->
  uj_phase j ∈ [Prepared; Deactivated; DataCandidateValidated; DataCommitted; Activated] ->
  (uj_phase j = Prepared -> do_deactivate = true) ->
  let r := continue_journaled_transition sha256_hex data_path read_document j do_deactivate h in
  match r.1 with
  | Ok _ => updated (ho_manager r.2)
  | Err _ => reverted (ho_manager r.2) \/ in_progress (ho_manager r.2)
  | Panic _ => in_progress (ho_manager r.2)
  end /\
  ∀ h1, rtc restarted r.2 h1 ->
    (updated (ho_manager h1) \/ reverted (ho_manager h1) \/ in_progress (ho_manager h1)) /\
    ∀ o h2, restart o h1 h2 ->
      (updated (ho_manager h1) -> updated (ho_manager h2)) /\
      (reverted (ho_manager h1) -> reverted (ho_manager h2)) /\
      (o = Ok tt -> updated (ho_manager h2) \/ reverted (ho_manager h2)).
Proof.
  intros Hm Hj Hp Hph Hdo r.
  assert (ends data_path tid app_id previous target before after
    (continue_journaled_transition sha256_hex data_path read_document j do_deactivate) h (fun _ m' => updated m')) as Hends.
  { destruct Hp as (record & j' & x & Hr' & Hj' & Hb & Hx & Hd & Ha). rewrite Hj in Hj'. injection Hj' as <-.
    assert (live (uj_phase j)) as Hl by (split; intros E; rewrite E in Hph; set_solver).
    apply (continue_ends _ _ _ _ _ _ _ _ _ record j x); [|done|intros E; rewrite E in Hph; set_solver..].
    split_and!; try done; try apply Hx. by apply (active_at_live previous target (uj_phase j)). }
  assert (mirrors store_path journal_path (ho_manager r.2)) as Hm'
    by by apply (continue_mirrors sha256_hex data_path read_document store_path journal_path Hsep j do_deactivate h).
  unfold ends in Hends. fold r in Hends. split; [by destruct r as [[[]|e|msg] h']|].
  assert (updated (ho_manager r.2) \/ reverted (ho_manager r.2) \/ in_progress (ho_manager r.2)) as Hset
    by (destruct r as [[[]|e|msg] h']; tauto).
  clear Hends. intros h1 Hrtc. clearbody r. revert Hset Hm'. induction Hrtc as [h1|ha hb hc [o Ho] _ IH]; intros Hset Hm1.
  - split; [done|]. intros o h2 Ho. destruct (restart_settles o h1 h2 Hm1 Ho) as (_ & Hu & Hrv & Hin).
    split_and!; try done. intros ->. destruct Hset as [?|[?|?]]; auto.
  - destruct (restart_settles o ha hb Hm1 Ho) as (Hmb & Hu & Hrv & Hin). apply IH; [|done].
    destruct Hset as [?|[?|Hset]]; [by left; auto|by right; left; auto|]. specialize (Hin Hset). destruct o; tauto.
Qed.
End update.
End claims.

(** ** A rollback that blocks the next start *)

Section blocked.
Context `{Uuids, ManagerCodec, AppDataCodec, !ManagerCodecLaws}.
Context (data_path : string -> string) (store_path journal_path : Path).

Lemma begin_rollback_journal j m j' id m' :
  begin_journaled_rollback data_path j m = (Ok (j', id), m') ->
  am_update_journal m' = Some j' /\
  (j' = with_phase RollingBack j \/ j' = with_phase DataRollbackCommitted (with_phase RollingBack j)).
Proof.
  assert (∀ phase j0 m0 j1 m1, enter_phase phase j0 m0 = (Ok j1, m1) ->
    j1 = with_phase phase j0 /\ am_update_journal m1 = Some j1) as Hent.
  { intros phase j0 m0 j1 m1 Hok. unfold enter_phase in Hok. inv_ok Hok. simplify_eq.
    apply put_journal_inv in Hok0 as (_ & _ & [?|[_ ?]]); done. }
  intros Hok. unfold begin_journaled_rollback in Hok. inv_ok Hok.
  apply Hent in Hok2 as [-> Hj1]. simpl in Hok. destruct (uj_data_transition j); inv_ok Hok; simplify_eq; [|by auto].
  apply Hent in Hok3 as [-> Hj2]. auto.
Qed.

(** A data migration that fails before its candidate was validated makes the host
    unable to start: the rollback journals a phase that requires the digests which such
    a journal does not have, so that, if the process ends before the rollback is
    finished (or the previous revision does not come up again), opening the app manager
    fails on its own journal. *)
Theorem rollback_before_validation_blocks_restart j data m trust data' r m' :
  separate_files store_path journal_path -> mirrors store_path journal_path m ->
  validate j = Ok tt -> uj_phase j = Deactivated -> uj_data_transition j = Some data ->
  begin_journaled_rollback data_path j m = (Ok r, m') ->
  ∃ e, app_manager_new store_path journal_path trust data' (quiet (am_fs m')) = Err e.
Proof.
  intros Hsep Hm Hv Hph Hdata Hrun. pose proof Hsep as (Hvs & Hvj & Hne).
  pose proof (begin_journaled_rollback_keeps data_path store_path journal_path Hsep j m Hm) as Hm'.
  rewrite Hrun in Hm'. simpl in Hm'. destruct Hm' as [_ _ _ _ Hrec Hjour].
  destruct r as [j' id]. apply begin_rollback_journal in Hrun as [Hj' Hor]. rewrite Hj' in Hjour.
  assert (∃ e, validate j' = Err e) as [e He].
  { assert (validate j' <> Ok tt) as Hno.
    { destruct Hor as [-> | ->].
      - intros E. apply journal_phase_change_valid in E; [|done]. by rewrite Hdata, Hph in E.
      - intros E. change (with_phase DataRollbackCommitted (with_phase RollingBack j))
          with (with_phase DataRollbackCommitted j) in E.
        apply journal_phase_change_valid in E; [|done]. by rewrite Hdata, Hph in E. }
    pose proof (validate_no_panic j') as Hnp.
    destruct (validate j') as [[]|e|msg]; [done|by exists e|by destruct (Hnp msg)]. }
  unfold app_manager_new.
  pose proof (load_keeps_other store_from_str store_path "installed apps" _ Hvj (quiet (am_fs m'))) as Hk.
  destruct (load_json_document_working store_from_str store_path "installed apps" (am_fs m')) as [fs1 E1].
  rewrite E1 in Hk |- *. simpl in Hk.
  destruct (load_json_document_working journal_from_str journal_path "app update journal" fs1) as [fs2 E2].
  rewrite E2. unfold stored_records in Hrec. destruct (load_result store_from_str _ _ _) as [stored| |]; try done.
  simpl. unfold stored_journal, contents in *. rewrite Hk, Hjour. simpl. rewrite He. eauto.
Qed.
End blocked.
