(* ===== verification/SurfaceUi.v ===== *)
(** * Custom surface documents

    [host/src-tauri/src/surface_ui.rs]: the registry of app-provided documents, the
    content security policy they are served with, and the script injected into them.
    The URL parser and the client script are parameters; the socket of the document
    server is not modelled, its response to a request is. *)

From S2P Require Import Prelude RustStd RustText Types Packages.

Definition SURFACE_BRIDGE_VERSION : N := 3.

Record SurfaceUiBundle := { su_protocol_version : N; su_html : string; su_csp : string }.
Record SurfaceUiRoute := { sr_protocol_version : N; sr_route_token : string }.
Record SurfaceDocument := { sd_html : string; sd_csp : string }.
Record RegisteredSurfaceUi := { rs_route_token : string; rs_bundle : SurfaceUiBundle }.

(** ** Content security policy *)

(** What [reqwest::Url::parse] reports of a URL. *)
Record Url := {
  url_scheme : string;
  url_username : string;
  url_password : option string;
  url_query : option string;
  url_fragment : option string;
  url_path : string;
  url_host : option string;
}.

Definition MAX_SOURCE_LEN : nat := 255.

(** [u8::is_ascii_graphic]. *)
Definition is_ascii_graphic (b : N) : bool := ((33 <=? b) && (b <=? 126))%N.

(** One byte of a source: graphic, and not a semicolon, comma, quote or backslash. *)
Definition source_byte (b : N) : bool :=
  is_ascii_graphic b && negb ((b =? 59) || (b =? 44) || (b =? 39) || (b =? 34) || (b =? 92))%N.

Definition is_valid_connect_src_shape (source : string) : bool :=
  let lower := to_ascii_lowercase source in
  negb (bool_decide (source = EmptyString))
  && (String.length source <=? MAX_SOURCE_LEN)
  && negb (starts_with "ipc:" lower)
  && negb (starts_with "http://ipc.localhost" lower)
  && negb (starts_with "https://ipc.localhost" lower)
  && string_all source_byte source.

Fixpoint join_with (sep : string) (parts : list string) : string :=
  match parts with
  | [] => EmptyString
  | [part] => part
  | part :: parts' => part +:+ sep +:+ join_with sep parts'
  end.

Section csp.
Context (parse_url : string -> option Url).

Definition is_valid_connect_src (source : string) : bool :=
  if negb (is_valid_connect_src_shape source) then false
  else match parse_url source with
  | None => false
  | Some url =>
      if negb (bool_decide (url_scheme url ∈ ["http"; "https"; "ws"; "wss"]))
         || negb (bool_decide (url_username url = EmptyString))
         || bool_decide (is_Some (url_password url))
         || bool_decide (is_Some (url_query url))
         || bool_decide (is_Some (url_fragment url))
         || negb (bool_decide (url_path url = "/"))
      then false
      else match url_host url with
           | None => false
           | Some host =>
               negb (contains_char (Ascii.ascii_of_N 42) host)
               && negb (bool_decide (to_ascii_lowercase host = "ipc.localhost"))
           end
  end.

Definition connect_value (connect_src : list string) : string :=
  let allowed := List.filter is_valid_connect_src connect_src in
  if bool_decide (allowed = []) then "'none'" else join_with " " allowed.

Definition deny_by_default_csp (connect_src : list string) : string :=
  join_with "; "
    ["default-src 'none'"; "script-src 'unsafe-inline'"; "style-src 'unsafe-inline'";
     "img-src data:"; "font-src data:"; "connect-src " +:+ connect_value connect_src;
     "frame-src 'none'"; "object-src 'none'"; "base-uri 'none'"; "form-action 'none'"].

(** [SurfaceUiBundle::new]. *)
Definition surface_ui_bundle_new (html : string) (connect_src : list string) : SurfaceUiBundle :=
  {| su_protocol_version := SURFACE_BRIDGE_VERSION; su_html := html;
     su_csp := deny_by_default_csp connect_src |}.
End csp.

(** ** The client script *)

(** [str::find] of a text: the offset of its first occurrence. *)
Fixpoint find_text (needle s : string) : option nat :=
  if bool_decide (is_Some (strip_prefix needle s)) then Some 0
  else match s with
       | EmptyString => None
       | String _ s' => S <$> find_text needle s'
       end.

(** [&s[..n]] and [&s[n..]]. *)
Definition str_to (n : nat) (s : string) : string := String.substring 0 n s.
Definition str_from (n : nat) (s : string) : string := String.substring n (String.length s - n) s.

Definition inject_client_sdk (sdk html : string) : string :=
  let script := "<script>" +:+ sdk +:+ "</script>" in
  let lower := to_ascii_lowercase html in
  let wrapped := "<!doctype html><html><head>" +:+ script +:+ "</head><body>" +:+ html +:+ "</body></html>" in
  match find_text "<head" lower with
  | None => wrapped
  | Some head =>
      match find_text ">" (str_from head lower) with
      | None => wrapped
      | Some close =>
          let at_ := head + close + 1 in
          str_to at_ html +:+ String (Ascii.ascii_of_N 10) EmptyString +:+ script +:+ str_from at_ html
      end
  end.

(** ** The registry *)

Record SurfaceUiRegistry := {
  sg_bundles : gmap (AppId * SurfaceName) RegisteredSurfaceUi;
  sg_routes : gmap string (AppId * SurfaceName);
}.

Definition registry_new : SurfaceUiRegistry := {| sg_bundles := ∅; sg_routes := ∅ |}.

(** [register], with the token [Uuid::new_v4] draws. *)
Definition register (app_id : AppId) (surface : SurfaceName) (bundle : SurfaceUiBundle) (route_token : string)
    (g : SurfaceUiRegistry) : SurfaceUiRegistry :=
  let key := (app_id, surface) in
  let routes := match sg_bundles g !! key with
                | Some previous => delete (rs_route_token previous) (sg_routes g)
                | None => sg_routes g
                end in
  {| sg_bundles := <[key := {| rs_route_token := route_token; rs_bundle := bundle |}]>
                     (delete key (sg_bundles g));
     sg_routes := <[route_token := key]> routes |}.

Definition surface_route (app_id : AppId) (surface : SurfaceName) (g : SurfaceUiRegistry) : option SurfaceUiRoute :=
  (fun registered => {| sr_protocol_version := su_protocol_version (rs_bundle registered);
                        sr_route_token := rs_route_token registered |})
    <$> sg_bundles g !! (app_id, surface).

Definition surface_document (sdk route_token : string) (g : SurfaceUiRegistry) : option SurfaceDocument :=
  key ← sg_routes g !! route_token;
  registered ← sg_bundles g !! key;
  Some {| sd_html := inject_client_sdk sdk (su_html (rs_bundle registered));
          sd_csp := su_csp (rs_bundle registered) |}.

Definition remove_app (app_id : AppId) (g : SurfaceUiRegistry) : SurfaceUiRegistry :=
  let removed := (fun entry => rs_route_token entry.2)
    <$> List.filter (fun entry => bool_decide (entry.1.1 = app_id)) (map_to_list (sg_bundles g)) in
  {| sg_bundles := filter (fun entry => entry.1.1 <> app_id) (sg_bundles g);
     sg_routes := foldl (fun routes route_token => delete route_token routes) (sg_routes g) removed |}.

(** ** Serving *)

Record Response := { rp_status : N; rp_headers : list (string * string); rp_body : string }.

Definition plain_response (status : N) (body : string) : Response :=
  {| rp_status := status;
     rp_headers := [("Content-Type", "text/plain; charset=utf-8"); ("Cache-Control", "no-store")];
     rp_body := body |}.

Definition frame_ancestors (debug : bool) : string :=
  "tauri://localhost http://tauri.localhost https://tauri.localhost"
  +:+ (if debug then " http://localhost:1420" else EmptyString).

(** [serve_surface_request] for a registry whose lock is not poisoned. *)
Definition serve_surface_request (sdk : string) (debug : bool) (g : SurfaceUiRegistry) (get : bool) (url : string) :
    Response :=
  if negb get then plain_response 405 "method not allowed"
  else
    let route_token := default url (strip_prefix "/" url) in
    match surface_document sdk route_token g with
    | None => plain_response 404 "surface document not found"
    | Some document =>
        {| rp_status := 200;
           rp_headers := [("Content-Type", "text/html; charset=utf-8"); ("Cache-Control", "no-store");
                          ("Content-Security-Policy",
                             sd_csp document +:+ "; frame-ancestors " +:+ frame_ancestors debug);
                          ("Referrer-Policy", "no-referrer"); ("X-Content-Type-Options", "nosniff")];
           rp_body := sd_html document |}
    end.

(** ** Custom surface documents: the policy cannot be widened, routes are exact *)

(** ** Splitting what was joined *)

Lemma split_no_sep sep s : sep ∉ chars s -> split sep s = [s].
Proof.
  induction s as [|c s IH]; [done|]. simpl. intros [Hc Hs]%not_elem_of_cons.
  rewrite decide_False by congruence. by rewrite IH.
Qed.

Lemma split_app_sep sep s t : sep ∉ chars s -> split sep (s +:+ String sep t) = s :: split sep t.
Proof.
  induction s as [|c s IH]; simpl.
  - intros _. change (split sep (String sep t) = EmptyString :: split sep t). simpl. by rewrite decide_True.
  - intros [Hc Hs]%not_elem_of_cons.
    change (split sep (String c (s +:+ String sep t)) = String c s :: split sep t). simpl.
    rewrite decide_False by congruence. by rewrite IH.
Qed.

Lemma split_join_with sep pad parts :
  (∀ p, p ∈ parts -> sep ∉ chars p) -> sep ∉ chars pad ->
  split sep (join_with (String sep pad) parts) =
  match parts with [] => [EmptyString] | p :: parts' => p :: ((fun q => pad +:+ q) <$> parts') end.
Proof.
  intros Hp Hpad. destruct parts as [|p parts]; [done|].
  assert (∀ pre, sep ∉ chars pre ->
    split sep (pre +:+ join_with (String sep pad) (p :: parts)) = (pre +:+ p) :: ((fun q => pad +:+ q) <$> parts)) as H.
  2:{ exact (H EmptyString ltac:(by intros E%elem_of_nil)). }
  revert p Hp. induction parts as [|q parts IH]; intros p Hp pre Hpre.
  - simpl. rewrite split_no_sep; [done|]. rewrite chars_app. apply not_elem_of_app. split; [done|]. apply Hp. left.
  - change (join_with (String sep pad) (p :: q :: parts))
      with (p +:+ (String sep pad +:+ join_with (String sep pad) (q :: parts))).
    rewrite <- string_app_assoc.
    change (String sep pad +:+ join_with (String sep pad) (q :: parts))
      with (String sep (pad +:+ join_with (String sep pad) (q :: parts))).
    rewrite split_app_sep.
    + rewrite IH; [done| |done]. intros x Hx. apply Hp. by right.
    + rewrite chars_app. apply not_elem_of_app. split; [done|]. apply Hp. left.
Qed.

Lemma join_with_snoc sep parts x :
  parts <> [] -> join_with sep (parts ++ [x]) = join_with sep parts +:+ (sep +:+ x).
Proof.
  intros Hne. induction parts as [|p parts IH]; [done|]. destruct parts as [|q parts]; [done|].
  change (p +:+ (sep +:+ join_with sep ((q :: parts) ++ [x])) = (p +:+ (sep +:+ join_with sep (q :: parts))) +:+ (sep +:+ x)).
  by rewrite IH, !string_app_assoc.
Qed.

(** ** The policy *)

Section policy.
Context (parse_url : string -> option Url).

Lemma string_all_elem p s c : string_all p s = true -> c ∈ chars s -> p (byte c) = true.
Proof.
  induction s as [|d s IH]; simpl; [by intros _ H%elem_of_nil|]. intros [Hd Hs]%andb_true_iff.
  intros [->|Hc]%elem_of_cons; auto.
Qed.

Definition semicolon : Ascii.ascii := Ascii.ascii_of_N 59.
Definition space : Ascii.ascii := Ascii.ascii_of_N 32.

Lemma valid_source_chars source c :
  is_valid_connect_src parse_url source = true -> c ∈ chars source -> c <> semicolon /\ c <> space.
Proof.
  unfold is_valid_connect_src. destruct (is_valid_connect_src_shape source) eqn:E; [|done]. intros _ Hc.
  unfold is_valid_connect_src_shape in E. rewrite !andb_true_iff in E. destruct E as [_ Hall].
  pose proof (string_all_elem _ _ _ Hall Hc) as Hb. by split; intros ->.
Qed.

Lemma elem_of_valid source connect_src :
  source ∈ List.filter (is_valid_connect_src parse_url) connect_src ->
  source ∈ connect_src /\ is_valid_connect_src parse_url source = true.
Proof. by rewrite !list_elem_of_In, filter_In. Qed.

Lemma connect_value_no_semicolon connect_src : semicolon ∉ chars (connect_value parse_url connect_src).
Proof.
  unfold connect_value. case_bool_decide; [by vm_compute; set_solver|].
  assert (∀ l, (∀ s, s ∈ l -> semicolon ∉ chars s) -> semicolon ∉ chars (join_with " " l)) as Hj.
  { induction l as [|s l IH]; intros Hl; [by intros E%elem_of_nil|]. destruct l as [|t l]; [apply Hl; left|].
    change (join_with " " (s :: t :: l)) with (s +:+ (" " +:+ join_with " " (t :: l))).
    rewrite !chars_app. rewrite !not_elem_of_app. split_and!; [apply Hl; left| |apply IH; intros x Hx; apply Hl; by right].
    intros E%list_elem_of_singleton. done. }
  apply Hj. intros s [_ Hv]%elem_of_valid Hin. by destruct (valid_source_chars s _ Hv Hin).
Qed.

(** The sources a policy grants network access to. *)
Lemma connect_value_tokens connect_src :
  split space (connect_value parse_url connect_src) =
  match List.filter (is_valid_connect_src parse_url) connect_src with [] => ["'none'"] | l => l end.
Proof.
  unfold connect_value. case_bool_decide as E; [by rewrite E|].
  change " " with (String space EmptyString). rewrite split_join_with.
  - destruct (List.filter _ _) as [|s l]; [done|]. f_equal. simpl. by rewrite list_fmap_id.
  - intros s [_ Hv]%elem_of_valid Hin. by destruct (valid_source_chars s _ Hv Hin).
  - by intros Hn%elem_of_nil.
Qed.

(** The policy of a bundle, read as a browser reads it. *)
Lemma policy_join connect_src tail :
  (∀ d, d ∈ tail -> semicolon ∉ chars d) ->
  split semicolon (join_with "; " (
    ["default-src 'none'"; "script-src 'unsafe-inline'"; "style-src 'unsafe-inline'";
     "img-src data:"; "font-src data:"; "connect-src " +:+ connect_value parse_url connect_src;
     "frame-src 'none'"; "object-src 'none'"; "base-uri 'none'"; "form-action 'none'"] ++ tail)) =
  ["default-src 'none'"; " script-src 'unsafe-inline'"; " style-src 'unsafe-inline'"; " img-src data:";
   " font-src data:"; " connect-src " +:+ connect_value parse_url connect_src; " frame-src 'none'";
   " object-src 'none'"; " base-uri 'none'"; " form-action 'none'"] ++ ((fun d => " " +:+ d) <$> tail).
Proof.
  intros Htail. set (directives := ["default-src 'none'"; "script-src 'unsafe-inline'"; "style-src 'unsafe-inline'";
     "img-src data:"; "font-src data:"; "connect-src " +:+ connect_value parse_url connect_src;
     "frame-src 'none'"; "object-src 'none'"; "base-uri 'none'"; "form-action 'none'"]).
  pose proof (connect_value_no_semicolon connect_src) as Hcv.
  assert (∀ v, semicolon ∉ chars v -> semicolon ∉ chars ("connect-src " +:+ v)) as Hcs.
  { intros v Hv. rewrite chars_app, not_elem_of_app. split; [by vm_compute; set_solver|done]. }
  change "; " with (String semicolon " "). rewrite split_join_with; [done| |by vm_compute; set_solver].
  intros x [Hx|Hx]%elem_of_app; [|by apply Htail].
  unfold directives in Hx. repeat (apply elem_of_cons in Hx as [->|Hx]); [..|by apply elem_of_nil in Hx];
    first [by apply Hcs|by vm_compute; set_solver].
Qed.

Lemma policy_directives connect_src :
  split semicolon (deny_by_default_csp parse_url connect_src) =
  ["default-src 'none'"; " script-src 'unsafe-inline'"; " style-src 'unsafe-inline'"; " img-src data:";
   " font-src data:"; " connect-src " +:+ connect_value parse_url connect_src; " frame-src 'none'";
   " object-src 'none'"; " base-uri 'none'"; " form-action 'none'"].
Proof. apply (policy_join connect_src []). by intros d Hd%elem_of_nil. Qed.

(** No list of declared network sources can widen a surface's policy: read as a
    browser reads it (split at semicolons), the policy the host serves always has the
    same eleven directives, in the same order, and only [connect-src] depends on the
    package; its sources (split at spaces) are exactly the declared ones that pass the
    check, or 'none'. *)
Theorem csp_cannot_be_widened connect_src debug :
  split semicolon (deny_by_default_csp parse_url connect_src +:+ "; frame-ancestors " +:+ frame_ancestors debug) =
  ["default-src 'none'"; " script-src 'unsafe-inline'"; " style-src 'unsafe-inline'"; " img-src data:";
   " font-src data:"; " connect-src " +:+ connect_value parse_url connect_src; " frame-src 'none'";
   " object-src 'none'"; " base-uri 'none'"; " form-action 'none'"; " frame-ancestors " +:+ frame_ancestors debug] /\
  split space (connect_value parse_url connect_src) =
    match List.filter (is_valid_connect_src parse_url) connect_src with [] => ["'none'"] | l => l end.
Proof.
  split; [|apply connect_value_tokens].
  assert (deny_by_default_csp parse_url connect_src +:+ "; frame-ancestors " +:+ frame_ancestors debug
    = join_with "; " (["default-src 'none'"; "script-src 'unsafe-inline'"; "style-src 'unsafe-inline'";
     "img-src data:"; "font-src data:"; "connect-src " +:+ connect_value parse_url connect_src;
     "frame-src 'none'"; "object-src 'none'"; "base-uri 'none'"; "form-action 'none'"]
     ++ ["frame-ancestors " +:+ frame_ancestors debug])) as -> by by rewrite join_with_snoc.
  apply policy_join. intros d ->%list_elem_of_singleton. destruct debug; by vm_compute; set_solver.
Qed.
End policy.

(** ** Routes *)

(** The registries the host can have, tokens being fresh when they are drawn. *)
Inductive registry_reachable : SurfaceUiRegistry -> Prop :=
  | reachable_new : registry_reachable registry_new
  | reachable_register app_id surface bundle token g :
      registry_reachable g -> sg_routes g !! token = None ->
      registry_reachable (register app_id surface bundle token g)
  | reachable_remove app_id g :
      registry_reachable g -> registry_reachable (remove_app app_id g).

(** A route exists exactly for the token of a registered bundle. *)
Definition routes_exact (g : SurfaceUiRegistry) : Prop :=
  ∀ token key, sg_routes g !! token = Some key <->
               ∃ r, sg_bundles g !! key = Some r /\ rs_route_token r = token.

Lemma lookup_delete_all {A} (m : gmap string A) tokens token :
  foldl (fun m t => delete t m) m tokens !! token = if bool_decide (token ∈ tokens) then None else m !! token.
Proof.
  revert m. induction tokens as [|t tokens IH]; intros m; cbn [foldl].
  { by rewrite bool_decide_eq_false_2 by (by intros E%elem_of_nil). }
  rewrite IH. destruct (decide (token = t)) as [->|Hne].
  - rewrite (bool_decide_eq_true_2 (t ∈ t :: tokens)) by left. case_bool_decide; [done|]. apply lookup_delete_eq.
  - rewrite lookup_delete_ne by done.
    case_bool_decide as H1; case_bool_decide as H2; try done; rewrite elem_of_cons in H2; tauto.
Qed.

Lemma register_exact app_id surface bundle token g :
  routes_exact g -> sg_routes g !! token = None -> routes_exact (register app_id surface bundle token g).
Proof.
  intros Hg Hfresh t key. unfold register. simpl. set (k := (app_id, surface)).
  assert (∀ t', match sg_bundles g !! k with
                | Some previous => delete (rs_route_token previous) (sg_routes g) | None => sg_routes g end !! t'
    = match sg_bundles g !! k with
      | Some previous => if decide (rs_route_token previous = t') then None else sg_routes g !! t'
      | None => sg_routes g !! t' end) as Hold.
  { intros t'. destruct (sg_bundles g !! k); [|done]. by rewrite lookup_delete. }
  rewrite insert_delete_eq, lookup_insert, Hold. clear Hold.
  destruct (decide (token = t)) as [<-|Ht].
  - rewrite lookup_insert. destruct (decide (k = key)) as [<-|Hk].
    + naive_solver.
    + split; [by intros [= ?]|]. intros (r & Hr & Hrt). exfalso.
      assert (sg_routes g !! token = Some key) by (apply Hg; eauto). congruence.
  - rewrite lookup_insert. destruct (decide (k = key)) as [<-|Hk].
    + split; [|intros (r & [= <-] & Hrt); by simpl in Hrt]. intros E. exfalso.
      destruct (sg_bundles g !! k) as [previous|] eqn:Ek.
      * destruct (decide _) as [|Hne]; [done|]. apply Hg in E as (r & Er & Hrt). congruence.
      * apply Hg in E as (r & Er & _). congruence.
    + etrans; [|apply Hg]. destruct (sg_bundles g !! k) as [previous|] eqn:Ek; [|done].
      destruct (decide (rs_route_token previous = t)) as [Hp|]; [|done]. split; [done|]. intros E.
      exfalso. assert (sg_routes g !! t = Some k) by (apply Hg; eauto). congruence.
Qed.

Lemma remove_app_exact app_id g : routes_exact g -> routes_exact (remove_app app_id g).
Proof.
  intros Hg t key. unfold remove_app. simpl. rewrite lookup_delete_all.
  rewrite map_lookup_filter. case_bool_decide as Hin.
  - split; [done|]. intros (r & Hr & Hrt). exfalso.
    apply list_elem_of_fmap in Hin as ([k' r'] & Ht & Hin).
    apply list_elem_of_In, filter_In in Hin as [Hin%list_elem_of_In Hk%bool_decide_eq_true].
    apply elem_of_map_to_list in Hin. simpl in *.
    destruct (sg_bundles g !! key) as [r0|] eqn:E; [|done]. simpl in Hr.
    destruct (decide (key.1 <> app_id)); simplify_option_eq.
    assert (sg_routes g !! rs_route_token r' = Some k') by (apply Hg; eauto).
    assert (sg_routes g !! rs_route_token r = Some key) by (apply Hg; eauto). congruence.
  - etrans; [apply Hg|]. split; intros (r & Hr & Hrt).
    + exists r. split; [|done]. rewrite Hr. simpl. rewrite option_guard_True; [done|]. simpl. intros Hk.
      apply Hin. apply list_elem_of_fmap. exists (key, r). split; [done|].
      apply list_elem_of_In, filter_In. split; [by apply list_elem_of_In, elem_of_map_to_list|].
      by apply bool_decide_eq_true.
    + exists r. split; [|done]. destruct (sg_bundles g !! key); [|done]. simpl in Hr.
      by destruct (decide (key.1 <> app_id)); simplify_option_eq.
Qed.

Lemma reachable_exact g : registry_reachable g -> routes_exact g.
Proof.
  induction 1.
  - intros t key. unfold registry_new. simpl. rewrite lookup_empty. split; [done|].
    intros (r & Hr & _). by rewrite lookup_empty in Hr.
  - by apply register_exact.
  - by apply remove_app_exact.
Qed.

(** Surface documents are served exactly to the live routes. In every registry
    the host can reach, a request for a token succeeds when, and only when, the token
    was issued for a bundle that is still registered, and then it gets that bundle
    with its policy; a token identifies one surface; and once an app is removed, none
    of its tokens (nor any token replaced by a later registration) gets a document. *)
Theorem surface_routes_are_live sdk g token document :
  registry_reachable g ->
  (surface_document sdk token g = Some document <->
   ∃ key r, sg_bundles g !! key = Some r /\ rs_route_token r = token /\
     document = {| sd_html := inject_client_sdk sdk (su_html (rs_bundle r)); sd_csp := su_csp (rs_bundle r) |}) /\
  (∀ key key' r r', sg_bundles g !! key = Some r -> sg_bundles g !! key' = Some r' ->
     rs_route_token r = rs_route_token r' -> key = key') /\
  (∀ app_id surface r, sg_bundles g !! (app_id, surface) = Some r ->
     surface_document sdk (rs_route_token r) (remove_app app_id g) = None /\
     ∀ bundle token', sg_routes g !! token' = None ->
       surface_document sdk (rs_route_token r) (register app_id surface bundle token' g) = None).
Proof.
  intros Hreach. pose proof (reachable_exact g Hreach) as Hg. split_and!.
  - unfold surface_document. destruct (sg_routes g !! token) as [key|] eqn:E; simpl.
    + apply Hg in E as (r & Hr & Ht). rewrite Hr. simpl. split; [intros [= <-]; by exists key, r|].
      intros (key' & r' & Hr' & Ht' & ->).
      assert (sg_routes g !! token = Some key) by (apply Hg; eauto).
      assert (sg_routes g !! token = Some key') by (apply Hg; eauto). by simplify_eq.
    + split; [done|]. intros (key & r & Hr & Ht & _).
      assert (sg_routes g !! token = Some key) by (apply Hg; eauto). congruence.
  - intros key key' r r' Hr Hr' Ht.
    assert (sg_routes g !! rs_route_token r = Some key) by (apply Hg; eauto).
    assert (sg_routes g !! rs_route_token r = Some key') by (apply Hg; eauto). by simplify_eq.
  - intros app_id surface r Hr.
    assert (sg_routes g !! rs_route_token r = Some (app_id, surface)) as Hroute by (apply Hg; eauto).
    unfold surface_document. split.
    + unfold remove_app. simpl. rewrite lookup_delete_all, bool_decide_eq_true_2; [done|].
      apply list_elem_of_fmap. exists ((app_id, surface), r). split; [done|].
      apply list_elem_of_In, filter_In. split; [by apply list_elem_of_In, elem_of_map_to_list|].
      by apply bool_decide_eq_true.
    + intros bundle token' Hfresh. unfold register. simpl. rewrite Hr.
      rewrite lookup_insert_ne by congruence. by rewrite lookup_delete_eq.
Qed.
