(* ===== verification/PermissionsApp.v ===== *)
(** * Permission inspection and proposals

    [host/src-tauri/src/permissions_app.rs]: the snapshot of what an app may ask for,
    and proposals that only the trusted chrome can turn into grants. The JSON forms
    are Serde's (a parameter); the tool schemas are not modelled. *)

From S2P Require Import Prelude RustStd RustText Json JsonOps Types Grants Manifest Registry Invocation ToolMapping.

Definition PERMISSION_PROPOSAL_ARTIFACT : string := "permission-proposal".
Definition MAX_REASON_CHARS : nat := 500.
Definition MAX_REQUESTABLE_PERMISSIONS : nat := 128.
Definition MAX_ACTIVE_PERMISSIONS : nat := 256.
Definition MAX_CAPABILITY_DESCRIPTION_CHARS : nat := 1000.

Definition propose_grant_ref : CapabilityRef :=
  {| cr_provider := permissions_app_id; cr_capability := PROPOSE_GRANT |}.

Record RequestablePermissionView := {
  rpv_provider : AppId;
  rpv_provider_display_name : string;
  rpv_capability : CapabilityName;
  rpv_description : string;
  rpv_effect : CapabilityEffect;
}.

Record RequestablePermissionsSnapshot := {
  rps_holder : AppId;
  rps_permissions : list RequestablePermissionView;
  rps_omitted_count : nat;
}.

Record ProposalInput := {
  pi_provider : AppId;
  pi_capability : CapabilityName;
  pi_reason : string;
  pi_snapshot : RequestablePermissionsSnapshot;
}.

Record PermissionProposal := {
  pp_holder : AppId;
  pp_scope : GrantScope;
  pp_data_scope : DataScope;
  pp_condition : GrantCondition;
  pp_duration : GrantDuration;
  pp_reason : string;
}.

Definition grant_request (p : PermissionProposal) : GrantRequest :=
  {| gq_scope := pp_scope p; gq_data_scope := pp_data_scope p; gq_condition := pp_condition p;
     gq_reason := pp_reason p; gq_duration := pp_duration p |}.

(** ** Policy *)

Definition validate_policy (p : PermissionProposal) : outcome string unit :=
  match pp_scope p with
  | AllProviderCapabilities _ => Err "permission proposal must name one exact capability"
  | ExactCapability _ _ =>
      if negb (bool_decide (pp_data_scope p = NoData))
      then Err "permission proposals cannot claim resource access"
      else if negb (bool_decide (pp_condition p = RequiresApproval))
      then Err "permission proposals must default to per-use approval"
      else if negb (bool_decide (pp_duration p = NonExpiring))
      then Err "permission proposals must use the declared default duration"
      else
        let reason := trim (pp_reason p) in
        if bool_decide (reason = EmptyString) || (MAX_REASON_CHARS <? chars_count reason)
        then Err "permission proposal reason must contain 1 to 500 characters"
        else Ok tt
  end.

Definition validate_proposal_input (input : ProposalInput) (invoked_by : AppId) : outcome string unit :=
  if negb (bool_decide (rps_holder (pi_snapshot input) = invoked_by))
  then Err "requestable permission snapshot does not belong to the calling app"
  else if negb (existsb (fun candidate => bool_decide (rpv_provider candidate = pi_provider input)
                           && bool_decide (rpv_capability candidate = pi_capability input))
                  (rps_permissions (pi_snapshot input)))
  then Err "permission proposal is not present in the requestable permission snapshot"
  else Ok tt.

(** ** What can be requested *)

Definition requestable_view (app : InstalledApp) (capability : CapabilityDeclaration) : RequestablePermissionView :=
  {| rpv_provider := m_app_id (ia_manifest app);
     rpv_provider_display_name := m_display_name (ia_manifest app);
     rpv_capability := cd_name capability;
     rpv_description := take_chars MAX_CAPABILITY_DESCRIPTION_CHARS (cd_description capability);
     rpv_effect := cd_effect capability |}.

Definition is_granted (active : list Grant) (app : InstalledApp) (capability : CapabilityDeclaration) : bool :=
  existsb (fun grant => GrantScope_covers (g_scope grant)
    {| cr_provider := m_app_id (ia_manifest app); cr_capability := cd_name capability |}) active.

(** The order of [(provider, capability)]. *)
Definition requestable_leb (left right : RequestablePermissionView) : bool :=
  if bool_decide (rpv_provider left = rpv_provider right)
  then String.leb (rpv_capability left) (rpv_capability right)
  else String.leb (rpv_provider left) (rpv_provider right).

(** Over the installed apps and the holder's live grants. *)
Definition requestable_permissions (apps : list InstalledApp) (active : list Grant) :
    list RequestablePermissionView * nat :=
  let permissions := sort_by requestable_leb (apps ≫= fun app =>
    requestable_view app <$> List.filter (fun capability => negb (is_granted active app capability))
                               (m_capabilities (ia_manifest app))) in
  (take MAX_REQUESTABLE_PERMISSIONS permissions, length permissions - MAX_REQUESTABLE_PERMISSIONS).

(** ** Handlers *)

(** Serde for the inputs, the snapshots and the proposals. *)
Class PermissionsCodec := {
  proposal_input_from_value : Value -> string + ProposalInput;
  snapshot_from_value : Value -> string + RequestablePermissionsSnapshot;
  snapshot_to_value : RequestablePermissionsSnapshot -> string + Value;
  proposal_to_value : PermissionProposal -> string + Value;
  proposal_from_value : Value -> string + PermissionProposal;
}.

Class PermissionsCodecLaws `{PermissionsCodec} : Prop := {
  proposal_codec_roundtrip : ∀ p v, proposal_to_value p = inr v -> proposal_from_value v = inr p;
}.

Section handlers.
Context `{PermissionsCodec}.

Definition failing {A} (r : string + A) : outcome HandlerFailure A :=
  match r with inl e => Err {| hf_error := e |} | inr a => Ok a end.
Definition handler_failure {A} (r : outcome string A) : outcome HandlerFailure A :=
  map_err (fun e => {| hf_error := e |}) r.

Definition proposal_of (input : ProposalInput) (invoked_by : AppId) : PermissionProposal :=
  {| pp_holder := invoked_by;
     pp_scope := ExactCapability (pi_provider input) (pi_capability input);
     pp_data_scope := NoData;
     pp_condition := RequiresApproval;
     pp_duration := NonExpiring;
     pp_reason := trim (pi_reason input) |}.

Definition proposal_handler (input : JsonObject) (context : InvocationContext) :
    outcome HandlerFailure CapabilityOutcome :=
  input ← failing (proposal_input_from_value (VObject input));
  _ ← handler_failure (validate_proposal_input input (ic_invoked_by context));
  let proposal := proposal_of input (ic_invoked_by context) in
  _ ← handler_failure (validate_policy proposal);
  let capability_name := pi_provider input +:+ "/" +:+ pi_capability input in
  content ← failing (proposal_to_value proposal);
  Ok {| co_result := VObject
          [("message", VString ("The user must review the permission proposal for " +:+ capability_name +:+ "."));
           ("status", VString "proposal-created")];
        co_artifacts := [{| ad_artifact_type := PERMISSION_PROPOSAL_ARTIFACT;
                            ad_title := "Permission request for " +:+ capability_name;
                            ad_content := content |}] |}.

(** [list_requestable_handler]; the handler for active grants has the same body. *)
Definition list_requestable_handler (input : JsonObject) (context : InvocationContext) :
    outcome HandlerFailure CapabilityOutcome :=
  snapshot ← failing (snapshot_from_value (VObject input));
  if negb (bool_decide (rps_holder snapshot = ic_invoked_by context))
  then Err {| hf_error := "requestable permission snapshot does not belong to the calling app" |}
  else result ← failing (snapshot_to_value snapshot);
       Ok {| co_result := result; co_artifacts := [] |}.

Definition proposal_from_artifact (artifact : Artifact) : outcome string PermissionProposal :=
  if negb (bool_decide (pv_produced_by (a_provenance artifact) = permissions_app_id))
     || negb (bool_decide (pv_capability (a_provenance artifact) = propose_grant_ref))
     || negb (bool_decide (a_artifact_type artifact = PERMISSION_PROPOSAL_ARTIFACT))
  then Err "artifact is not a trusted Permissions proposal"
  else
    proposal ← map_err (String.append "invalid permission proposal artifact: ")
                 (match proposal_from_value (a_content artifact) with inl e => Err e | inr p => Ok p end);
    _ ← validate_policy proposal;
    Ok proposal.
End handlers.

(** ** Facts *)

Lemma validate_policy_Ok p :
  validate_policy p = Ok tt <->
  (∃ provider capability, pp_scope p = ExactCapability provider capability) /\
  pp_data_scope p = NoData /\ pp_condition p = RequiresApproval /\ pp_duration p = NonExpiring /\
  trim (pp_reason p) <> EmptyString /\ chars_count (trim (pp_reason p)) <= MAX_REASON_CHARS.
Proof.
  unfold validate_policy. destruct (pp_scope p) as [provider capability|provider].
  2:{ split; [done|]. by intros [(? & ? & ?) _]. }
  repeat case_bool_decide; simpl; try (split; [done|]; by intros (_ & ? & ? & ? & ? & ?)).
  destruct (Nat.ltb_spec MAX_REASON_CHARS (chars_count (trim (pp_reason p)))) as [Hlt|Hle].
  - split; [done|]. intros (_ & _ & _ & _ & _ & Hle). lia.
  - split; [|done]. intros _. split_and!; eauto.
Qed.

Section claims.
Context `{PermissionsCodec, !PermissionsCodecLaws}.

(** A permission proposal never asks for more than one exact capability that
    the host listed for the calling app. When the handler accepts a call, the only
    artifact it drafts is a proposal for the caller itself, for a capability in
    the snapshot the host bound to this caller, without resource access, asking on
    every use; and whatever artifact the host later accepts as a proposal was
    produced by the permissions app's own capability and requests a grant of
    that shape. *)
Theorem permission_proposal_is_minimal input context outcome_ artifact p :
  proposal_handler input context = Ok outcome_ ->
  proposal_from_artifact artifact = Ok p ->
  (∃ draft i, co_artifacts outcome_ = [draft] /\ ad_artifact_type draft = PERMISSION_PROPOSAL_ARTIFACT /\
     proposal_input_from_value (VObject input) = inr i /\
     rps_holder (pi_snapshot i) = ic_invoked_by context /\
     (∃ view, view ∈ rps_permissions (pi_snapshot i) /\
        rpv_provider view = pi_provider i /\ rpv_capability view = pi_capability i) /\
     proposal_from_value (ad_content draft) = inr (proposal_of i (ic_invoked_by context))) /\
  pv_produced_by (a_provenance artifact) = permissions_app_id /\
  pv_capability (a_provenance artifact) = propose_grant_ref /\
  (∃ provider capability reason, grant_request p =
     {| gq_scope := ExactCapability provider capability; gq_data_scope := NoData;
        gq_condition := RequiresApproval; gq_reason := reason; gq_duration := NonExpiring |}).
Proof.
  intros Hh Ha. split; [|split_and!].
  - unfold proposal_handler in Hh. inv_ok Hh. simplify_eq/=.
    destruct (proposal_input_from_value (VObject input)) as [|i]; simplify_eq/=.
    unfold validate_proposal_input in Hok0. case_bool_decide as Hholder; [|done]. simpl in Hok0.
    destruct (existsb _ _) eqn:Ex; [|done].
    apply existsb_exists in Ex as (view & Hin%list_elem_of_In & [Hp Hc]%andb_true_iff).
    apply bool_decide_eq_true in Hp, Hc.
    destruct (proposal_to_value _) as [|v] eqn:Ev; simplify_eq/=.
    eexists _, _. split_and!; try done; [by exists view|]. by apply proposal_codec_roundtrip.
  - unfold proposal_from_artifact in Ha. by repeat case_bool_decide; simplify_eq/=.
  - unfold proposal_from_artifact in Ha. by repeat case_bool_decide; simplify_eq/=.
  - unfold proposal_from_artifact in Ha. destruct (_ || _ || _); [done|]. inv_ok Ha. simplify_eq.
    apply validate_policy_Ok in Hok0 as ((provider & capability & Hs) & Hd & Hc & Hdur & _).
    exists provider, capability, (pp_reason p). unfold grant_request. by rewrite Hs, Hd, Hc, Hdur.
Qed.
End claims.

(** What an app is told it may request is exactly what is installed and not
    yet granted: every listed permission is a declared capability that no live
    grant of the holder covers, none is invented, the list is bounded, and the
    omitted count accounts for the rest, so that with nothing omitted the list is
    complete. *)
Theorem requestable_permissions_exact apps active permissions omitted :
  requestable_permissions apps active = (permissions, omitted) ->
  length permissions <= MAX_REQUESTABLE_PERMISSIONS /\
  (∀ view, view ∈ permissions -> chars_count (rpv_description view) <= MAX_CAPABILITY_DESCRIPTION_CHARS /\
     ∃ app capability, app ∈ apps /\ capability ∈ m_capabilities (ia_manifest app) /\
       view = requestable_view app capability /\
       ∀ grant, grant ∈ active -> GrantScope_covers (g_scope grant)
         {| cr_provider := m_app_id (ia_manifest app); cr_capability := cd_name capability |} = false) /\
  (omitted > 0 -> length permissions = MAX_REQUESTABLE_PERMISSIONS) /\
  (omitted = 0 -> ∀ app capability, app ∈ apps -> capability ∈ m_capabilities (ia_manifest app) ->
     (∀ grant, grant ∈ active -> GrantScope_covers (g_scope grant)
        {| cr_provider := m_app_id (ia_manifest app); cr_capability := cd_name capability |} = false) ->
     requestable_view app capability ∈ permissions).
Proof.
  unfold requestable_permissions.
  set (all := apps ≫= fun app => requestable_view app <$> List.filter
    (fun capability => negb (is_granted active app capability)) (m_capabilities (ia_manifest app))).
  intros [= <- <-]. pose proof (sort_by_length requestable_leb all) as Hlen.
  assert (∀ app capability, negb (is_granted active app capability) = true <->
    ∀ grant, grant ∈ active -> GrantScope_covers (g_scope grant)
      {| cr_provider := m_app_id (ia_manifest app); cr_capability := cd_name capability |} = false) as Hng.
  { intros app capability. rewrite negb_true_iff. unfold is_granted. rewrite <- not_true_iff_false, existsb_exists.
    split.
    - intros Hn grant Hg. apply not_true_iff_false. intros Hc. apply Hn. exists grant.
      by rewrite <- list_elem_of_In.
    - intros Hall (grant & Hg%list_elem_of_In & Hc). by rewrite Hall in Hc. }
  assert (∀ view, view ∈ all <-> ∃ app capability, app ∈ apps /\ capability ∈ m_capabilities (ia_manifest app) /\
    view = requestable_view app capability /\ negb (is_granted active app capability) = true) as Hall.
  { intros view. unfold all. rewrite list_elem_of_bind. split.
    - intros (app & Hv & Happ). apply list_elem_of_fmap in Hv as (capability & -> & Hc).
      apply list_elem_of_In, filter_In in Hc as [Hc%list_elem_of_In Hn]. by exists app, capability.
    - intros (app & capability & Happ & Hc & -> & Hn). exists app. split; [|done].
      apply list_elem_of_fmap_2, list_elem_of_In, filter_In. by rewrite <- list_elem_of_In. }
  split_and!.
  - rewrite length_take. lia.
  - intros view Hv. apply elem_of_take in Hv as (i & Hi%list_elem_of_lookup_2 & _).
    apply elem_of_sort_by, Hall in Hi as (app & capability & Happ & Hc & -> & Hn).
    split; [apply take_chars_count|]. exists app, capability. rewrite <- Hng. done.
  - rewrite length_take. lia.
  - intros Ho app capability Happ Hc Hn. rewrite take_ge by lia. apply elem_of_sort_by, Hall.
    exists app, capability. by rewrite Hng.
Qed.
