(* ===== verification/ArtifactsApp.v ===== *)
(** * The artifacts app

    [host/src-tauri/src/artifacts_app.rs]: read-only access to artifacts for other apps.
    Which artifacts a query covers is derived from the caller's live grants; the handlers
    read from the snapshot of their authorised scope. The kernel's store, the live grants
    of the holder and Serde's forms of requests and provenances are arguments. *)

From S2P Require Import Prelude RustStd RustText Json JsonOps Types Errors Grants Manifest Platform Artifacts Broker Invocation KernelGrants.

Definition MAX_ARTIFACT_TITLE_CHARS : nat := 256.
Definition ARTIFACTS_APP_ID : string := "com.ma-zierl.kestral-artifacts".
Definition ARTIFACTS_QUERY : string := "artifacts.query".
Definition ARTIFACTS_READ : string := "artifacts.read".
Definition artifacts_app_id : AppId := ARTIFACTS_APP_ID.

(** ** Requesting access *)

Inductive ArtifactAccessTarget := TargetArtifact (artifact_id : ArtifactId) | AllArtifacts.

Definition access_data_scope (target : ArtifactAccessTarget) : outcome string DataScope :=
  match target with
  | TargetArtifact artifact_id =>
      match DataScope_resources [artifact_id] with
      | Ok scope => Ok scope
      | _ => Panic "one artifact resource is valid"
      end
  | AllArtifacts => Ok AllResources
  end.

Definition access_reason (target : ArtifactAccessTarget) (holder : AppId) : string :=
  match target with
  | TargetArtifact _ => "allow " +:+ holder +:+ " to list and read this artifact"
  | AllArtifacts => "allow " +:+ holder +:+ " to list and read all current and future artifacts"
  end.

Definition artifact_access_grant_requests (holder : AppId) (target : ArtifactAccessTarget) :
    outcome string (list GrantRequest) :=
  data_scope ← access_data_scope target;
  Ok ((fun capability =>
         {| gq_scope := ExactCapability artifacts_app_id capability; gq_data_scope := data_scope;
            gq_condition := RequiresApproval; gq_reason := access_reason target holder;
            gq_duration := NonExpiring |}) <$> [ARTIFACTS_QUERY; ARTIFACTS_READ]).

(** [BTreeSet] of the ids in the store. *)
Definition existing_ids (store : ArtifactStore) : gset string :=
  list_to_set (a_artifact_id <$> ArtifactStore_all store).

Definition validate_access_target (store : ArtifactStore) (target : ArtifactAccessTarget) : outcome string unit :=
  match target with
  | AllArtifacts => Ok tt
  | TargetArtifact artifact_id =>
      if existsb (fun artifact => bool_decide (a_artifact_id artifact = artifact_id)) (ArtifactStore_all store)
      then Ok tt else Err ("unknown artifact '" +:+ artifact_id +:+ "'")
  end.

Definition validate_grant_data_scope (store : ArtifactStore) (scope : GrantScope) (data_scope : DataScope) :
    outcome string unit :=
  if negb (bool_decide (GrantScope_provider scope = artifacts_app_id)) then Ok tt
  else match data_scope with
  | NoData => Err "Artifact permissions must allow selected artifacts or all current and future artifacts"
  | AllResources => Ok tt
  | Resources resource_ids =>
      match List.find (fun id => negb (bool_decide (id ∈ existing_ids store))) resource_ids with
      | Some resource_id => Err ("unknown artifact '" +:+ resource_id +:+ "'")
      | None => Ok tt
      end
  end.

(** ** The scope of a call *)

Definition scope_ids (scope : DataScope) : list ResourceId :=
  match scope with Resources resource_ids => resource_ids | NoData | AllResources => [] end.

Definition authorized_artifact_resource_ids (store : ArtifactStore)
    (authorizations : list CapabilityAuthorizationView) : list ResourceId :=
  let existing := existing_ids store in
  let allow_all := existsb (fun a => bool_decide (cav_data_scope a = AllResources)) authorizations in
  let authorized : gset string :=
    if allow_all then existing
    else list_to_set (List.filter (fun id => bool_decide (id ∈ existing))
                        (authorizations ≫= fun a => scope_ids (cav_data_scope a))) in
  btree_elements authorized.

(** [live] are the grants the kernel lists for the holder. *)
Definition artifacts_invocation_data_scope (store : ArtifactStore) (live : list Grant)
    (capability : CapabilityRef) (input : JsonObject) : option DataScope :=
  if negb (bool_decide (cr_provider capability = artifacts_app_id)) then None
  else if bool_decide (cr_capability capability = ARTIFACTS_READ)
  then Some (match obj_get input "artifact_id" ≫= Value_as_str with
             | Some artifact_id => Resources [artifact_id]
             | None => NoData
             end)
  else if bool_decide (cr_capability capability = ARTIFACTS_QUERY)
  then
    let authorizations :=
      (fun grant => {| cav_data_scope := g_data_scope grant; cav_condition := g_condition grant |})
        <$> List.filter (fun grant => GrantScope_covers (g_scope grant) capability) live in
    Some (match DataScope_resources (authorized_artifact_resource_ids store authorizations) with
          | Ok scope => scope
          | _ => NoData
          end)
  else Some NoData.

(** [contextualize_tools]: the views of tools whose scope is not empty. *)
Definition contextualize_view (store : ArtifactStore) (view : CapabilityUseView) : option CapabilityUseView :=
  if negb (bool_decide (cuv_provider_app_id view = artifacts_app_id)) then Some view
  else
    let resource_ids := authorized_artifact_resource_ids store (cuv_authorizations view) in
    if bool_decide (resource_ids = []) then None
    else if bool_decide (cuv_capability view = ARTIFACTS_READ)
    then Some
      {| cuv_provider_app_id := cuv_provider_app_id view;
         cuv_provider_display_name := cuv_provider_display_name view;
         cuv_capability := cuv_capability view;
         cuv_description :=
           "Read one authorized artifact by exact id; call artifacts.query first to list ids";
         cuv_input_schema := obj_update (cuv_input_schema view) "properties"
           (on_object (fun properties => obj_update properties "artifact_id"
              (on_object (fun schema => obj_insert schema "enum" (json_strings resource_ids)))));
         cuv_authorizations := cuv_authorizations view |}
    else Some view.

Definition contextualize_tools (store : ArtifactStore) (available : list CapabilityUseView) : list CapabilityUseView :=
  omap (contextualize_view store) available.

(** ** Handlers *)

Record QueryRequest := { qr_cursor : option string; qr_limit : N }.

(** Serde for requests and provenances. *)
Class ArtifactsCodec := {
  query_request_from_value : Value -> string + QueryRequest;
  read_request_from_value : Value -> string + ArtifactId;
  provenance_to_value : Provenance -> Value;
}.

Definition require_exact_artifact_scope (scope : DataScope) : outcome HandlerFailure unit :=
  match scope with
  | Resources (_ :: _) => Ok tt
  | _ => Err {| hf_error := "artifact access requires exact artifact resource IDs" |}
  end.

Section handlers.
Context `{Libraries, ArtifactsCodec}.

Definition from_serde {A} (r : string + A) : outcome HandlerFailure A :=
  match r with inl error => Err {| hf_error := error |} | inr a => Ok a end.

Definition summary_to_value (item : ArtifactSnapshotSummary) : Value :=
  json_obj [("artifact_id", VString (ss_artifact_id item)); ("artifact_type", VString (ss_artifact_type item));
            ("title", VString (ss_title item)); ("provenance", provenance_to_value (ss_provenance item))].

Definition query_handler (input : JsonObject) (context : InvocationContext) :
    outcome HandlerFailure CapabilityOutcome :=
  _ ← require_exact_artifact_scope (ic_authorized_data_scope context);
  request ← from_serde (query_request_from_value (VObject input));
  if ((qr_limit request =? 0) || (50 <? qr_limit request))%N
  then Err {| hf_error := "limit out of bounds" |}
  else
    page ← map_err (fun e => {| hf_error := KernelError_display e |})
             (snapshot_query (ic_artifacts context) (qr_cursor request) (qr_limit request));
    Ok {| co_result := json_obj [("items", VArray (summary_to_value <$> sp_items page));
                                 ("next_cursor", json_option VString (sp_next_cursor page))];
          co_artifacts := [] |}.

Definition read_handler (input : JsonObject) (context : InvocationContext) :
    outcome HandlerFailure CapabilityOutcome :=
  _ ← require_exact_artifact_scope (ic_authorized_data_scope context);
  artifact_id ← from_serde (read_request_from_value (VObject input));
  artifact ← map_err (fun e => {| hf_error := KernelError_display e |})
               (snapshot_read (ic_artifacts context) artifact_id);
  if MAX_ARTIFACT_TITLE_CHARS <? chars_count (as_title artifact)
  then Err {| hf_error := "artifact title exceeds snapshot bound" |}
  else
    content_bytes ← map_err Build_HandlerFailure (json_to_vec (as_content artifact));
    if MAX_ARTIFACT_CONTENT_BYTES <? String.length content_bytes
    then Err {| hf_error := "artifact content exceeds snapshot bound" |}
    else Ok {| co_result := json_obj
                 [("artifact_id", VString (as_artifact_id artifact));
                  ("artifact_type", VString (as_artifact_type artifact)); ("title", VString (as_title artifact));
                  ("content", as_content artifact); ("provenance", provenance_to_value (as_provenance artifact))];
               co_artifacts := [] |}.
End handlers.

(** ** Facts *)

(** A live grant of the holder lets it use the artifact [id] with [capability]. *)
Definition grant_allows (capability : CapabilityRef) (id : ArtifactId) (grant : Grant) : Prop :=
  GrantScope_covers (g_scope grant) capability = true /\
  DataScope_covers (g_data_scope grant) (Resources [id]) = true.

Lemma existing_ids_spec store id :
  artifacts_wf store -> id ∈ existing_ids store <-> is_Some (as_artifacts store !! id).
Proof.
  intros Hwf. unfold existing_ids, ArtifactStore_all. rewrite elem_of_list_to_set, list_elem_of_fmap. split.
  - intros (a & -> & (k & Hk)%elem_of_btree_values). by rewrite (Hwf _ _ Hk).
  - intros [a Ha]. exists a. split; [by rewrite (Hwf _ _ Ha)|]. apply elem_of_btree_values. eauto.
Qed.

Lemma covers_one scope id :
  DataScope_covers scope (Resources [id]) = true <-> scope = AllResources \/ id ∈ scope_ids scope.
Proof.
  destruct scope as [| |ids]; simpl; [set_solver|naive_solver|].
  rewrite andb_true_r, bool_decide_eq_true. naive_solver.
Qed.

Lemma authorized_ids_spec store authorizations id :
  id ∈ authorized_artifact_resource_ids store authorizations <->
  id ∈ existing_ids store /\
  ∃ a, a ∈ authorizations /\ DataScope_covers (cav_data_scope a) (Resources [id]) = true.
Proof.
  unfold authorized_artifact_resource_ids, btree_elements. rewrite merge_sort_Permutation, elem_of_elements.
  destruct (existsb _ authorizations) eqn:Hall.
  - apply existsb_exists in Hall as (a & Ha%list_elem_of_In & Hs%bool_decide_eq_true).
    split; [|by intros []]. intros Hid. split; [done|]. exists a. by rewrite Hs.
  - rewrite elem_of_list_to_set, list_elem_of_In, filter_In, <- list_elem_of_In, list_elem_of_bind, bool_decide_eq_true.
    split.
    + intros [(a & Hid & Ha) He]. split; [done|]. exists a. split; [done|]. apply covers_one. by right.
    + intros [He (a & Ha & [Hs|Hid]%covers_one)]; [|split; [|done]; by exists a]. exfalso.
      eapply eq_true_false_abs, Hall. apply existsb_exists. exists a.
      by rewrite <- list_elem_of_In, bool_decide_eq_true.
Qed.

Lemma query_scope_allowed store live input ids id :
  artifacts_invocation_data_scope store live
    {| cr_provider := artifacts_app_id; cr_capability := ARTIFACTS_QUERY |} input = Some (Resources ids) ->
  id ∈ ids -> id ∈ existing_ids store /\
    ∃ grant, grant ∈ live /\ grant_allows {| cr_provider := artifacts_app_id; cr_capability := ARTIFACTS_QUERY |} id grant.
Proof.
  unfold artifacts_invocation_data_scope. rewrite !bool_decide_eq_true_2, bool_decide_eq_false_2 by done. simpl.
  intros [= Hscope] Hid. unfold DataScope_resources in Hscope. destruct (DataScope_validate _) as [u| |]; simpl in Hscope; [|done..].
  injection Hscope as <-. apply authorized_ids_spec in Hid as [He (a & Ha & Hc)]. split; [done|].
  apply list_elem_of_fmap in Ha as (grant & -> & Hg). apply list_elem_of_In, filter_In in Hg as [Hg%list_elem_of_In ?].
  exists grant. done.
Qed.

Section claims.
Context `{Libraries, ArtifactsCodec}.

Lemma snapshot_items_elem r item :
  item ∈ snapshot_items r -> ∃ id artifact, sn_artifacts r !! id = Some artifact /\ item = summary_of artifact.
Proof.
  unfold snapshot_items. rewrite merge_sort_Permutation. intros (artifact & -> & (k & Hk)%elem_of_btree_values)%list_elem_of_fmap.
  eauto.
Qed.

Lemma snapshot_query_items r cursor limit page item :
  snapshot_query r cursor limit = Ok page -> item ∈ sp_items page -> item ∈ snapshot_items r.
Proof.
  unfold snapshot_query. destruct (_ || _); [done|]. intros Hrun. inv_ok Hrun. simplify_eq/=.
  intros (i & Hi & _)%elem_of_take. apply list_elem_of_lookup_2 in Hi.
  rewrite <- (take_drop (N.to_nat a) (snapshot_items r)). apply elem_of_app. by right.
Qed.

(** Listing artifacts never goes beyond the caller's grants. When the query handler runs
    in the scope the host derives for the call, over the snapshot the kernel takes for that
    scope, every artifact it lists is stored and is one that a live grant of the caller
    covers for this very capability. *)
Theorem artifact_listing_within_grants store live input context outcome :
  artifacts_wf store ->
  artifacts_invocation_data_scope store live
    {| cr_provider := artifacts_app_id; cr_capability := ARTIFACTS_QUERY |} input
    = Some (ic_authorized_data_scope context) ->
  ic_artifacts context = snapshot_resolver_for store (ic_authorized_data_scope context) ->
  query_handler input context = Ok outcome ->
  ∃ page, co_result outcome = json_obj [("items", VArray (summary_to_value <$> sp_items page));
                                        ("next_cursor", json_option VString (sp_next_cursor page))] /\
    co_artifacts outcome = [] /\
    ∀ item, item ∈ sp_items page ->
      (∃ artifact, as_artifacts store !! ss_artifact_id item = Some artifact /\ item = summary_of artifact) /\
      ∃ grant, grant ∈ live /\
        grant_allows {| cr_provider := artifacts_app_id; cr_capability := ARTIFACTS_QUERY |}
          (ss_artifact_id item) grant.
Proof.
  intros Hwf Hscope Hsnap. unfold query_handler. intros Hrun. inv_ok Hrun. destruct (_ || _); [done|].
  inv_ok Hrun. simplify_eq/=. match goal with G : map_err _ _ = Ok ?p |- _ => exists p; rename p into page end.
  split_and!; [done|done|]. intros item Hitem.
  match goal with G : map_err _ (snapshot_query ?r ?c ?l) = _ |- _ =>
    destruct (snapshot_query r c l) as [p| |] eqn:Hq; simplify_eq/= end.
  eapply snapshot_query_items, snapshot_items_elem in Hitem as (id & artifact & Hid & ->); [|exact Hq].
  rewrite Hsnap, snapshot_is_scoped in Hid. destruct Hid as [(ids & Hids & Hin) Ha]. rewrite Hids in Hscope.
  pose proof (Hwf _ _ Ha) as Hkey. simpl. rewrite Hkey. split; [by exists artifact|].
  by eapply query_scope_allowed.
Qed.
End claims.
