(* ===== verification/ManagedData.v ===== *)
(** * Host-managed app data, contract version 1

    [host/src-tauri/src/managed_data.rs]: records of an app's declared collections in one
    JSON document per app, with optimistic revisions, transactions, unique indexes,
    quotas and cursor queries. The document and its backup live in the app's directory
    of the file system model; [md_links] are the paths that are symbolic links. Schema
    validation, Serde, UUIDs and dates are parameters. The operation lock serialises the
    calls, which are therefore sequential here. *)

From S2P Require Import Prelude RustStd RustText Json JsonOps Types Platform AtomicJson Packages.

Definition STORE_VERSION_1 : N := 1.
Definition STORE_FILE : string := "managed-data-v1.json".
Definition CONTRACT_BACKUP_FILE : string := "managed-data-contract-backup-v1.json".
Definition V2_STORE_FILE : string := "managed-data-v2.json".
Definition MAX_DOCUMENT_BYTES : N := 64 * 1024 * 1024.
Definition MAX_ID_LENGTH : nat := 64.
Definition u64_max : N := 2 ^ 64 - 1.

Record ManagedDataRecord := {
  mr_id : string;
  mr_revision : N;
  mr_created_at : string;
  mr_updated_at : string;
  mr_value : JsonObject;
}.

Record ManagedDataListResult := { ml_records : list ManagedDataRecord; ml_next_after : option string }.
Record ManagedDataDeleteResult := { mx_id : string; mx_deleted : bool; mx_revision : N }.

Record ManagedDataQuery := {
  mq_index : option string;
  mq_equals : option Value;
  mq_after : option string;
  mq_limit : option N;
}.

Inductive ManagedDataMutation :=
  | MutCreate (collection : string) (value : JsonObject)
  | MutReplace (collection id : string) (expected_revision : N) (value : JsonObject)
  | MutDelete (collection id : string) (expected_revision : N).

Inductive ManagedDataRequest :=
  | ReqGet (collection id : string)
  | ReqList (collection : string) (query : option ManagedDataQuery)
  | ReqCreate (collection : string) (value : JsonObject)
  | ReqReplace (collection id : string) (expected_revision : N) (value : JsonObject)
  | ReqDelete (collection id : string) (expected_revision : N)
  | ReqTransaction (operations : list ManagedDataMutation).

Abbreviation Records := (gmap string ManagedDataRecord).
Abbreviation Collections := (gmap string (gmap string ManagedDataRecord)).

Record ManagedDataDocument := {
  mdoc_version : N;
  mdoc_generation : N;
  mdoc_contract_digest : string;
  mdoc_collections : Collections;
}.

Definition with_collections (c : Collections) (d : ManagedDataDocument) : ManagedDataDocument :=
  {| mdoc_version := mdoc_version d; mdoc_generation := mdoc_generation d;
     mdoc_contract_digest := mdoc_contract_digest d; mdoc_collections := c |}.

(** [HostManagedDataRef] ([package.rs]). *)
Record HostManagedDataRef := {
  hm_contract_version : N;
  hm_collections : gmap string ManagedDataCollection;
  hm_documents : gmap string ManagedDocumentCollection;
  hm_limits : ManagedDataStoreLimits;
  hm_exports : list ManagedDataExport;
  hm_proposals : list ManagedDataProposal;
}.

Definition host_managed (data : AppData) : option HostManagedDataRef :=
  match data with
  | DataHostManaged contract_version collections documents limits exports proposals =>
      Some {| hm_contract_version := contract_version; hm_collections := collections;
              hm_documents := documents; hm_limits := limits; hm_exports := exports;
              hm_proposals := proposals |}
  | DataNone | DataVersioned _ _ => None
  end.

(** ** Parameters *)

(** UUIDs, dates and the wall clock. *)
Class ManagedWorld (W : Type) := {
  fresh_uuid : W -> string * W;
  now_rfc3339 : W -> string * W;
  epoch_seconds : W -> N * W;
  canonical_v4 : string -> bool;
  parse_from_rfc3339 : string -> option Z;
}.

(** Serde for the document and for the contract that is digested. *)
Class ManagedCodec := {
  mdoc_to_vec_pretty : ManagedDataDocument -> string + string;
  mdoc_from_str : string -> string + ManagedDataDocument;
  contract_to_vec : HostManagedDataRef -> string + string;
}.

Class ManagedCodecLaws `{ManagedCodec} : Prop := {
  mdoc_codec_roundtrip : ∀ document bytes,
    mdoc_to_vec_pretty document = inr bytes ->
    utf8_valid bytes = true /\ mdoc_from_str bytes = inr document;
}.

(** ** JSON of the results *)

Definition record_to_value (r : ManagedDataRecord) : Value :=
  VObject [("created_at", VString (mr_created_at r)); ("id", VString (mr_id r));
           ("revision", json_number (mr_revision r)); ("updated_at", VString (mr_updated_at r));
           ("value", VObject (mr_value r))].

Definition list_to_value (l : ManagedDataListResult) : Value :=
  VObject [("next_after", json_option VString (ml_next_after l));
           ("records", VArray (record_to_value <$> ml_records l))].

Definition delete_to_value (d : ManagedDataDeleteResult) : Value :=
  VObject [("deleted", VBool (mx_deleted d)); ("id", VString (mx_id d));
           ("revision", json_number (mx_revision d))].

(** [{:?}] of an operation. *)
Definition operation_debug (o : ManagedDataOperation) : string :=
  match o with
  | OpGet => "Get" | OpList => "List" | OpCreate => "Create" | OpReplace => "Replace"
  | OpDelete => "Delete" | OpTransaction => "Transaction"
  end.

(** ** Checks *)

(** [u64::checked_add(1)]. *)
Definition checked_succ (n : N) (error : string) : outcome string N :=
  if (n <? u64_max)%N then Ok (n + 1)%N else Err error.

Section checks.
Context {W : Type} `{Libraries, ManagedWorld W, ManagedCodec}.
Implicit Types (contract : HostManagedDataRef) (document : ManagedDataDocument).

Definition validate_id (id : string) : outcome string unit :=
  if (MAX_ID_LENGTH <? String.length id) || negb (canonical_v4 id)
  then Err "managed-data id must be a canonical version-4 UUID" else Ok tt.

Definition validate_schema_value (value : Value) (schema : JsonObject) (label : string) : outcome string unit :=
  validator ← map_err (fun e => label +:+ " schema is invalid: " +:+ e) (schema_validator_for schema);
  match validator value with
  | [] => Ok tt
  | errors => Err (label +:+ " does not match its schema: " +:+ String.concat "; " (merge_sort string_le errors))
  end.

Definition validate_value (value : JsonObject) (declaration : ManagedDataCollection) (collection : string) :
    outcome string unit :=
  bytes ← map_err (String.append "serialize managed-data value failed: ") (json_to_vec (VObject value));
  if (mcl_record_bytes (mdc_limits declaration) <? N.of_nat (String.length bytes))%N
  then Err ("managed-data value for collection '" +:+ collection +:+ "' exceeds its "
            +:+ pretty (mcl_record_bytes (mdc_limits declaration)) +:+ "-byte limit")
  else validate_schema_value (VObject value) (mdc_schema declaration)
         ("managed-data collection '" +:+ collection +:+ "' value").

Definition validate_optional_record (record : option ManagedDataRecord) (declaration : ManagedDataCollection) :
    outcome string unit :=
  match record with
  | Some record => validate_value (mr_value record) declaration "record"
  | None => Ok tt
  end.

Definition require_operation contract (collection : string) (operation : ManagedDataOperation) :
    outcome string ManagedDataCollection :=
  declaration ← ok_or (hm_collections contract !! collection)
                  ("unknown managed-data collection '" +:+ collection +:+ "'");
  if negb (bool_decide (operation ∈ mdc_operations declaration))
  then Err ("managed-data collection '" +:+ collection +:+ "' does not permit " +:+ operation_debug operation)
  else Ok declaration.

(** One record of [validate_envelope]. *)
Definition validate_stored_record (id : string) (record : ManagedDataRecord) : outcome string unit :=
  if negb (bool_decide (id = mr_id record))
  then Err ("managed-data record key '" +:+ id +:+ "' does not match its record id")
  else
    _ ← validate_id id;
    if (mr_revision record =? 0)%N then Err ("managed-data record '" +:+ id +:+ "' has a zero revision")
    else
      created_at ← ok_or (parse_from_rfc3339 (mr_created_at record))
                     ("managed-data record '" +:+ id +:+ "' has an invalid created_at");
      updated_at ← ok_or (parse_from_rfc3339 (mr_updated_at record))
                     ("managed-data record '" +:+ id +:+ "' has an invalid updated_at");
      if (updated_at <? created_at)%Z
      then Err ("managed-data record '" +:+ id +:+ "' was updated before it was created")
      else Ok tt.

Definition validate_stored_collection (entry : string * Records) : outcome string unit :=
  if bool_decide (entry.1 = EmptyString) || (64 <? String.length entry.1)
  then Err "managed-data store contains an invalid collection name"
  else for_each (fun r => validate_stored_record r.1 r.2) (btree_list entry.2).

(** The serialised size of the document. *)
Definition document_bytes document : outcome string N :=
  bytes ← map_err (String.append "serialize managed-data store failed: ")
            (from_result (mdoc_to_vec_pretty document));
  Ok (N.of_nat (String.length bytes)).

Definition validate_envelope document : outcome string unit :=
  if negb (mdoc_version document =? STORE_VERSION_1)%N
  then Err ("unsupported managed-data store version " +:+ pretty (mdoc_version document) +:+ "; expected 1")
  else if (mdoc_generation document =? 0)%N then Err "managed-data store contains a zero generation"
  else if bool_decide (mdoc_contract_digest document = EmptyString)
  then Err "managed-data store contains an empty contract digest"
  else
    _ ← for_each validate_stored_collection (btree_list (mdoc_collections document));
    bytes ← document_bytes document;
    if (MAX_DOCUMENT_BYTES <? bytes)%N
    then Err "managed-data store exceeds the 67108864-byte host limit" else Ok tt.

(** The loop over the records for one unique index. *)
Fixpoint unique_values (collection : string) (index : ManagedDataIndex) (values : list string)
    (records : list ManagedDataRecord) : outcome string unit :=
  match records with
  | [] => Ok tt
  | record :: records' =>
      match obj_get (mr_value record) (mdi_field index) with
      | None | Some VNull => unique_values collection index values records'
      | Some value =>
          canonical ← map_err (fun e => "serialize managed-data unique index '" +:+ mdi_name index
                                        +:+ "' failed: " +:+ e) (json_to_vec value);
          if bool_decide (canonical ∈ values)
          then Err ("managed-data collection '" +:+ collection +:+ "' unique index '" +:+ mdi_name index
                    +:+ "' already contains that value")
          else unique_values collection index (canonical :: values) records'
      end
  end.

Definition declared contract (collection : string) : outcome string ManagedDataCollection :=
  ok_or (hm_collections contract !! collection)
    ("managed-data store contains undeclared collection '" +:+ collection +:+ "'").

Definition validate_unique_indexes contract (entry : string * Records) : outcome string unit :=
  declaration ← declared contract entry.1;
  for_each (fun index => unique_values entry.1 index [] (btree_values entry.2))
    (List.filter mdi_unique (mdc_indexes declaration)).

(** [usize::try_from(total_bytes).unwrap_or(usize::MAX).min(MAX_DOCUMENT_BYTES)]. *)
Definition byte_limit contract : N := N.min (msl_total_bytes (hm_limits contract)) MAX_DOCUMENT_BYTES.

Definition validate_document_limits document contract : outcome string unit :=
  _ ← for_each (validate_unique_indexes contract) (btree_list (mdoc_collections document));
  bytes ← document_bytes document;
  if (byte_limit contract <? bytes)%N
  then Err ("managed-data store exceeds its " +:+ pretty (byte_limit contract) +:+ "-byte limit") else Ok tt.

Definition validate_declared_collection contract (entry : string * Records) : outcome string unit :=
  declaration ← declared contract entry.1;
  if (mcl_records (mdc_limits declaration) <? N.of_nat (size entry.2))%N
  then Err ("managed-data collection '" +:+ entry.1 +:+ "' exceeds its record limit")
  else for_each (fun record => validate_value (mr_value record) declaration entry.1) (btree_values entry.2).

Definition validate_document document contract : outcome string unit :=
  _ ← validate_envelope document;
  _ ← for_each (validate_declared_collection contract) (btree_list (mdoc_collections document));
  validate_document_limits document contract.

(** ** Mutations *)

Abbreviation world_op := (st W string).

Definition in_clock {A} (f : W -> A * W) : world_op A := fun w => let '(a, w') := f w in (Ok a, w').

Definition unknown_collection (collection : string) : string :=
  "unknown managed-data collection '" +:+ collection +:+ "'".
Definition missing_record (id : string) : string := "managed-data record '" +:+ id +:+ "' does not exist".
Definition record_changed (expected found : N) : string :=
  "managed-data record changed; expected revision " +:+ pretty expected +:+ ", found " +:+ pretty found.

Definition apply_create document contract (collection : string) (value : JsonObject) :
    world_op (ManagedDataRecord * ManagedDataDocument) :=
  declaration ← st_lift (ok_or (hm_collections contract !! collection) (unknown_collection collection));
  _ ← st_lift (validate_value value declaration collection);
  let records := default ∅ (mdoc_collections document !! collection) in
  if (mcl_records (mdc_limits declaration) <=? N.of_nat (size records))%N
  then st_fail ("managed-data collection '" +:+ collection +:+ "' reached its "
                +:+ pretty (mcl_records (mdc_limits declaration)) +:+ "-record limit")
  else
    id ← in_clock fresh_uuid;
    now ← in_clock now_rfc3339;
    let record := {| mr_id := id; mr_revision := 1; mr_created_at := now; mr_updated_at := now;
                     mr_value := value |} in
    let document' := with_collections (<[collection := <[id := record]> records]> (mdoc_collections document))
                       document in
    _ ← st_lift (validate_document_limits document' contract);
    mret (record, document').

Definition apply_replace document contract (collection id : string) (expected_revision : N)
    (value : JsonObject) : world_op (ManagedDataRecord * ManagedDataDocument) :=
  _ ← st_lift (validate_id id);
  declaration ← st_lift (ok_or (hm_collections contract !! collection) (unknown_collection collection));
  _ ← st_lift (validate_value value declaration collection);
  current ← st_lift (ok_or (mdoc_collections document !! collection ≫= (.!! id)) (missing_record id));
  if negb (mr_revision current =? expected_revision)%N
  then st_fail (record_changed expected_revision (mr_revision current))
  else
    revision ← st_lift (checked_succ (mr_revision current) "managed-data record revision overflow");
    now ← in_clock now_rfc3339;
    let record := {| mr_id := mr_id current; mr_revision := revision; mr_created_at := mr_created_at current;
                     mr_updated_at := now; mr_value := value |} in
    let document' := with_collections (alter (insert id record) collection (mdoc_collections document)) document in
    _ ← st_lift (validate_document_limits document' contract);
    mret (record, document').

Definition apply_delete document contract (collection id : string) (expected_revision : N) :
    world_op (ManagedDataDeleteResult * ManagedDataDocument) :=
  _ ← st_lift (validate_id id);
  _ ← st_lift (ok_or (hm_collections contract !! collection) (unknown_collection collection));
  current ← st_lift (ok_or (mdoc_collections document !! collection ≫= (.!! id)) (missing_record id));
  if negb (mr_revision current =? expected_revision)%N
  then st_fail (record_changed expected_revision (mr_revision current))
  else
    revision ← st_lift (checked_succ (mr_revision current) "managed-data record revision overflow");
    mret ({| mx_id := id; mx_deleted := true; mx_revision := revision |},
          with_collections (alter (delete id) collection (mdoc_collections document)) document).

Definition mutation_operation (operation : ManagedDataMutation) : string * ManagedDataOperation :=
  match operation with
  | MutCreate collection _ => (collection, OpCreate)
  | MutReplace collection _ _ _ => (collection, OpReplace)
  | MutDelete collection _ _ => (collection, OpDelete)
  end.

Definition apply_mutation document contract (operation : ManagedDataMutation) :
    world_op (Value * ManagedDataDocument) :=
  match operation with
  | MutCreate collection value =>
      '(record, document') ← apply_create document contract collection value;
      mret (record_to_value record, document')
  | MutReplace collection id expected_revision value =>
      '(record, document') ← apply_replace document contract collection id expected_revision value;
      mret (record_to_value record, document')
  | MutDelete collection id expected_revision =>
      '(deleted, document') ← apply_delete document contract collection id expected_revision;
      mret (delete_to_value deleted, document')
  end.

(** The check of one operation of a transaction. *)
Definition permit_in_transaction contract (operation : ManagedDataMutation) : outcome string unit :=
  let '(collection, required) := mutation_operation operation in
  declaration ← require_operation contract collection OpTransaction;
  if negb (bool_decide (required ∈ mdc_operations declaration))
  then Err ("managed-data collection '" +:+ collection +:+ "' does not permit " +:+ operation_debug required)
  else Ok tt.

(** The loop of a transaction over its operations. *)
Fixpoint apply_transaction (candidate : ManagedDataDocument) contract (operations : list ManagedDataMutation) :
    world_op (list Value * ManagedDataDocument) :=
  match operations with
  | [] => mret ([], candidate)
  | operation :: operations' =>
      _ ← st_lift (permit_in_transaction contract operation);
      '(result, candidate') ← apply_mutation candidate contract operation;
      '(results, candidate'') ← apply_transaction candidate' contract operations';
      mret (result :: results, candidate'')
  end.

(** ** Queries *)

Definition empty_query : ManagedDataQuery :=
  {| mq_index := None; mq_equals := None; mq_after := None; mq_limit := None |}.

Definition query_index (declaration : ManagedDataCollection) (query : ManagedDataQuery) :
    outcome string (option (ManagedDataIndex * Value)) :=
  match mq_index query, mq_equals query with
  | None, None => Ok None
  | Some name, Some equals =>
      index ← ok_or (List.find (fun index => bool_decide (mdi_name index = name)) (mdc_indexes declaration))
                ("unknown managed-data index '" +:+ name +:+ "'");
      _ ← validate_schema_value equals (mdi_value_schema index)
            ("managed-data index '" +:+ name +:+ "' query");
      Ok (Some (index, equals))
  | _, _ => Err "managed-data equality query requires both index and equals, or neither"
  end.

(** The filters of the query: after the cursor, and equal on the index. *)
Definition query_match (after : option string) (index : option (ManagedDataIndex * Value))
    (entry : string * ManagedDataRecord) : bool :=
  match after with Some after => negb (String.leb entry.1 after) | None => true end &&
  match index with
  | Some (index, equals) => bool_decide (obj_get (mr_value entry.2) (mdi_field index) = Some equals)
  | None => true
  end.

(** [take(limit + 1)], then drop the extra record and point after the last kept one. *)
Definition page {A} (key : A -> string) (limit : nat) (matches : list A) : list A * option string :=
  let taken := take (S limit) matches in
  if limit <? length taken
  then (take limit taken, key <$> last (take limit taken))
  else (taken, None).

Definition list_records document contract (collection : string) (query : option ManagedDataQuery) :
    outcome string ManagedDataListResult :=
  declaration ← ok_or (hm_collections contract !! collection) (unknown_collection collection);
  let query := default empty_query query in
  _ ← match mq_after query with Some after => validate_id after | None => Ok tt end;
  index ← query_index declaration query;
  let most := mcl_query_results (mdc_limits declaration) in
  let limit := N.min (default most (mq_limit query)) most in
  if (limit =? 0)%N then Err "managed-data query limit must be positive"
  else
    let records := default ∅ (mdoc_collections document !! collection) in
    let matches := snd <$> List.filter (query_match (mq_after query) index) (btree_list records) in
    let '(records, next_after) := page mr_id (N.to_nat limit) matches in
    Ok {| ml_records := records; ml_next_after := next_after |}.
End checks.

(** ** The store *)

(** The directory of one app, the links in it, and the world. *)
Record ManagedDir (W : Type) := { md_fs : FileSystem; md_links : gset string; md_world : W }.
Arguments md_fs {W}. Arguments md_links {W}. Arguments md_world {W}.
Arguments Build_ManagedDir {W}.

Section store.
Context {W : Type} `{Uuids, Libraries, ManagedWorld W, ManagedCodec} (app_dir : string).
Implicit Types (contract : HostManagedDataRef) (document : ManagedDataDocument).

Abbreviation store_op := (st (ManagedDir W) string).

Definition on_dir {E A} (m : st FileSystem E A) : st (ManagedDir W) E A := fun s =>
  let '(r, fs) := m (md_fs s) in
  (r, {| md_fs := fs; md_links := md_links s; md_world := md_world s |}).

Definition on_clock {A} (m : st W string A) : store_op A := fun s =>
  let '(r, w) := m (md_world s) in
  (r, {| md_fs := md_fs s; md_links := md_links s; md_world := w |}).

Definition app_path (name : string) : Path := {| p_parent := app_dir; p_file_name := name |}.

(** [reject_linked_path]; the empty name is the directory itself. *)
Definition reject_linked_path (name label : string) : store_op unit := fun s =>
  match on_dir io_step s with
  | (Ok _, s') =>
      (if bool_decide (name ∈ md_links s)
       then Err (label +:+ " path '" +:+ display (app_path name) +:+ "' is a symlink") else Ok tt, s')
  | (Err error, s') =>
      (match io_kind error with
       | NotFound => Ok tt
       | _ => Err ("inspect " +:+ label +:+ " path failed: " +:+ io_message error)
       end, s')
  | (Panic msg, s') => (Panic msg, s')
  end.

(** [path.is_file()]: an error counts as absent. *)
Definition is_file (name : string) : store_op bool := fun s =>
  match on_dir (open_read name) s with
  | (Ok _, s') => (Ok true, s')
  | (_, s') => (Ok false, s')
  end.

(** [if let Ok(metadata) = fs::metadata(path)] and the size check. *)
Definition check_file_size (name label : string) : store_op unit := fun s =>
  match on_dir (open_read name) s with
  | (Ok file, s') =>
      (if (MAX_DOCUMENT_BYTES <? N.of_nat (String.length (f_bytes file)))%N
       then Err (label +:+ " exceeds the 67108864-byte host limit") else Ok tt, s')
  | (_, s') => (Ok tt, s')
  end.

Definition load_document (name label : string) : store_op (option ManagedDataDocument) :=
  _ ← reject_linked_path name label;
  _ ← check_file_size name label;
  on_dir (load_json_document mdoc_from_str (app_path name) label).

Definition validate_contract_version contract : outcome string unit :=
  if (hm_contract_version contract =? 1)%N || (hm_contract_version contract =? 2)%N then Ok tt
  else Err ("unsupported managed-data contract version " +:+ pretty (hm_contract_version contract)).

Definition contract_digest contract : outcome string string :=
  bytes ← map_err (String.append "serialize managed-data contract failed: ")
            (from_result (contract_to_vec contract));
  Ok ("sha256-" +:+ sha256_hex bytes).

Definition ManagedDataStore_load contract (digest : string) : store_op ManagedDataDocument :=
  loaded ← load_document STORE_FILE "managed data";
  match loaded with
  | None => mret {| mdoc_version := STORE_VERSION_1; mdoc_generation := 0; mdoc_contract_digest := digest;
                    mdoc_collections := ∅ |}
  | Some document =>
      _ ← st_lift (validate_envelope document);
      _ ← st_lift (validate_document document contract);
      mret document
  end.

Definition reject_linked_app_path : store_op unit :=
  _ ← reject_linked_path EmptyString "managed data directory";
  _ ← reject_linked_path STORE_FILE "managed data";
  reject_linked_path CONTRACT_BACKUP_FILE "managed data contract backup".

Definition write_document_file (name label : string) document : store_op unit :=
  st_map_err into_message (on_dir (persist_json_document mdoc_to_vec_pretty (app_path name) document label
                                     StandardAtomicFileWriter)).

Definition changes_contract (digest : string) document : bool :=
  (0 <? mdoc_generation document)%N && negb (bool_decide (mdoc_contract_digest document = digest)).

(** The first write under a changed contract. *)
Definition back_up_contract (digest : string) document : store_op unit :=
  if changes_contract digest document
  then write_document_file CONTRACT_BACKUP_FILE "managed data contract backup" document
  else mret tt.

Definition persist_mutation contract (digest : string) document : store_op ManagedDataDocument :=
  _ ← reject_linked_app_path;
  _ ← back_up_contract digest document;
  generation ← st_lift (checked_succ (mdoc_generation document) "managed-data generation overflow");
  let document := {| mdoc_version := mdoc_version document; mdoc_generation := generation;
                     mdoc_contract_digest := digest; mdoc_collections := mdoc_collections document |} in
  _ ← st_lift (validate_document document contract);
  _ ← write_document_file STORE_FILE "managed data" document;
  mret document.

(** The branches of [request] on the loaded document. *)
Definition serve contract (digest : string) document (request : ManagedDataRequest) : store_op Value :=
  match request with
  | ReqGet collection id =>
      declaration ← st_lift (require_operation contract collection OpGet);
      _ ← st_lift (validate_id (W := W) id);
      let value := mdoc_collections document !! collection ≫= (.!! id) in
      _ ← st_lift (validate_optional_record value declaration);
      mret (json_option record_to_value value)
  | ReqList collection query =>
      _ ← st_lift (require_operation contract collection OpList);
      result ← st_lift (list_records (W := W) document contract collection query);
      mret (list_to_value result)
  | ReqCreate collection value =>
      _ ← st_lift (require_operation contract collection OpCreate);
      '(record, document) ← on_clock (apply_create document contract collection value);
      _ ← persist_mutation contract digest document;
      mret (record_to_value record)
  | ReqReplace collection id expected_revision value =>
      _ ← st_lift (require_operation contract collection OpReplace);
      '(record, document) ← on_clock (apply_replace document contract collection id expected_revision value);
      _ ← persist_mutation contract digest document;
      mret (record_to_value record)
  | ReqDelete collection id expected_revision =>
      _ ← st_lift (require_operation contract collection OpDelete);
      '(deleted, document) ← on_clock (apply_delete document contract collection id expected_revision);
      _ ← persist_mutation contract digest document;
      mret (delete_to_value deleted)
  | ReqTransaction operations =>
      let most := msl_transaction_operations (hm_limits contract) in
      if bool_decide (operations = []) || (most <? N.of_nat (length operations))%N
      then st_fail ("managed-data transaction must contain 1-" +:+ pretty most +:+ " operations")
      else
        '(results, candidate) ← on_clock (apply_transaction document contract operations);
        _ ← st_lift (validate_document_limits candidate contract);
        _ ← persist_mutation contract digest candidate;
        mret (VArray results)
  end.

(** [ManagedDataStore::request]. *)
Definition managed_request contract (request : ManagedDataRequest) : store_op Value :=
  _ ← st_lift (validate_contract_version contract);
  v2 ← is_file V2_STORE_FILE;
  if (v2 : bool) then st_fail "managed-data v2 state exists; a v1 contract cannot read it"
  else
    digest ← st_lift (contract_digest contract);
    document ← ManagedDataStore_load contract digest;
    serve contract digest document request.
End store.
