(* ===== verification/ManagedDataFacts.v ===== *)
(** * Host-managed app data: the stored document

    The store refines a map of records per collection: a request either leaves the stored
    document alone, or replaces it by the one its mutations describe, which the contract
    accepts; a transaction is one such step. Cursors enumerate every match once. *)

From S2P Require Import Prelude RustStd RustText Json JsonOps Types Platform AtomicJson Packages ManagedData.

(** ** The abstract store: what a mutation does to the collections *)

Inductive mutation_effect : ManagedDataMutation -> Value -> Collections -> Collections -> Prop :=
  | effect_create collection value id now records :
      mutation_effect (MutCreate collection value)
        (record_to_value {| mr_id := id; mr_revision := 1; mr_created_at := now; mr_updated_at := now;
                            mr_value := value |})
        records
        (<[collection := <[id := {| mr_id := id; mr_revision := 1; mr_created_at := now;
                                    mr_updated_at := now; mr_value := value |}]>
             (default ∅ (records !! collection))]> records)
  | effect_replace collection id value now current (collections : Collections) records :
      collections !! collection = Some records -> records !! id = Some current ->
      mutation_effect (MutReplace collection id (mr_revision current) value)
        (record_to_value {| mr_id := mr_id current; mr_revision := mr_revision current + 1;
                            mr_created_at := mr_created_at current; mr_updated_at := now; mr_value := value |})
        collections
        (<[collection := <[id := {| mr_id := mr_id current; mr_revision := mr_revision current + 1;
                                    mr_created_at := mr_created_at current; mr_updated_at := now;
                                    mr_value := value |}]> records]> collections)
  | effect_delete collection id current (collections : Collections) records :
      collections !! collection = Some records -> records !! id = Some current ->
      mutation_effect (MutDelete collection id (mr_revision current))
        (delete_to_value {| mx_id := id; mx_deleted := true; mx_revision := mr_revision current + 1 |})
        collections (<[collection := delete id records]> collections).

Inductive mutations_effect : list ManagedDataMutation -> list Value -> Collections -> Collections -> Prop :=
  | effects_nil collections : mutations_effect [] [] collections collections
  | effects_cons mutation mutations result results c1 c2 c3 :
      mutation_effect mutation result c1 c2 -> mutations_effect mutations results c2 c3 ->
      mutations_effect (mutation :: mutations) (result :: results) c1 c3.

(** The mutations a request asks for, and how their results are answered. *)
Definition request_mutations (request : ManagedDataRequest) : list ManagedDataMutation :=
  match request with
  | ReqGet _ _ | ReqList _ _ => []
  | ReqCreate collection value => [MutCreate collection value]
  | ReqReplace collection id expected_revision value => [MutReplace collection id expected_revision value]
  | ReqDelete collection id expected_revision => [MutDelete collection id expected_revision]
  | ReqTransaction operations => operations
  end.

Definition answer (request : ManagedDataRequest) (results : list Value) : Value :=
  match request with
  | ReqTransaction _ => VArray results
  | _ => default VNull (head results)
  end.

Definition permitted (contract : HostManagedDataRef) (mutation : ManagedDataMutation) : Prop :=
  ∃ declaration, hm_collections contract !! (mutation_operation mutation).1 = Some declaration /\
                 (mutation_operation mutation).2 ∈ mdc_operations declaration.

(** ** Mutations of the document in memory *)

Section mutations.
Context {W : Type} `{Libraries, ManagedWorld W, ManagedCodec}.
Implicit Types (contract : HostManagedDataRef) (document : ManagedDataDocument).

Lemma checked_succ_Ok n error n' : checked_succ n error = Ok n' -> n' = (n + 1)%N.
Proof. unfold checked_succ. case_match; naive_solver. Qed.

Lemma require_operation_Ok contract collection operation declaration :
  require_operation contract collection operation = Ok declaration ->
  hm_collections contract !! collection = Some declaration /\ operation ∈ mdc_operations declaration.
Proof.
  unfold require_operation. destruct (hm_collections contract !! collection) as [d|]; simpl; [|done].
  case_bool_decide; simpl; naive_solver.
Qed.

Lemma lookup_record (collections : Collections) collection id (e : string) current :
  ok_or (collections !! collection ≫= (.!! id)) e = Ok current ->
  ∃ records, collections !! collection = Some records /\ records !! id = Some current.
Proof.
  destruct (collections !! collection) as [records|]; simpl; [|done].
  destruct (records !! id) as [record|] eqn:E; simpl; naive_solver.
Qed.

Lemma alter_insert {A} (f : A -> A) (m : gmap string A) k a : m !! k = Some a -> alter f k m = <[k := f a]> m.
Proof.
  intros Hk. apply map_eq. intros i. destruct (decide (i = k)) as [->|Hne].
  - by rewrite lookup_alter_eq, lookup_insert_eq, Hk.
  - by rewrite lookup_alter_ne, lookup_insert_ne by done.
Qed.

Definition same_envelope document document' : Prop :=
  mdoc_version document' = mdoc_version document /\ mdoc_generation document' = mdoc_generation document /\
  mdoc_contract_digest document' = mdoc_contract_digest document.

Lemma apply_create_Ok document contract collection value (w : W) record document' w' :
  apply_create document contract collection value w = (Ok (record, document'), w') ->
  same_envelope document document' /\
  mutation_effect (MutCreate collection value) (record_to_value record)
    (mdoc_collections document) (mdoc_collections document').
Proof.
  unfold apply_create. intros Hrun. inv_ok Hrun. destruct (_ <=? _)%N; [done|]. inv_ok Hrun.
  split; [done|]. constructor.
Qed.

Lemma apply_replace_Ok document contract collection id expected value (w : W) record document' w' :
  apply_replace document contract collection id expected value w = (Ok (record, document'), w') ->
  same_envelope document document' /\
  mutation_effect (MutReplace collection id expected value) (record_to_value record)
    (mdoc_collections document) (mdoc_collections document').
Proof.
  unfold apply_replace. intros Hrun. inv_ok Hrun.
  destruct (negb _) eqn:Hrev; [done|]. apply negb_false_iff, N.eqb_eq in Hrev as <-. inv_ok Hrun.
  repeat match goal with
  | H : ok_or (mdoc_collections _ !! _ ≫= _) _ = Ok _ |- _ => apply lookup_record in H as (records & Hc & Hr)
  | H : checked_succ _ _ = Ok _ |- _ => apply checked_succ_Ok in H as ->
  end.
  split; [done|]. simpl. rewrite (alter_insert _ _ _ records Hc). by constructor.
Qed.

Lemma apply_delete_Ok document contract collection id expected (w : W) result document' w' :
  apply_delete document contract collection id expected w = (Ok (result, document'), w') ->
  same_envelope document document' /\
  mutation_effect (MutDelete collection id expected) (delete_to_value result)
    (mdoc_collections document) (mdoc_collections document').
Proof.
  unfold apply_delete. intros Hrun. inv_ok Hrun.
  destruct (negb _) eqn:Hrev; [done|]. apply negb_false_iff, N.eqb_eq in Hrev as <-. inv_ok Hrun.
  repeat match goal with
  | H : ok_or (mdoc_collections _ !! _ ≫= _) _ = Ok _ |- _ => apply lookup_record in H as (records & Hc & Hr)
  | H : checked_succ _ _ = Ok _ |- _ => apply checked_succ_Ok in H as ->
  end.
  split; [done|]. simpl. rewrite (alter_insert _ _ _ records Hc). by constructor.
Qed.

Lemma apply_mutation_Ok document contract mutation (w : W) result document' w' :
  apply_mutation document contract mutation w = (Ok (result, document'), w') ->
  same_envelope document document' /\
  mutation_effect mutation result (mdoc_collections document) (mdoc_collections document').
Proof.
  destruct mutation; simpl; intros Hrun; inv_ok Hrun;
    eauto using apply_create_Ok, apply_replace_Ok, apply_delete_Ok.
Qed.

Lemma apply_transaction_Ok contract mutations document (w : W) results document' w' :
  apply_transaction document contract mutations w = (Ok (results, document'), w') ->
  same_envelope document document' /\ Forall (permitted contract) mutations /\
  mutations_effect mutations results (mdoc_collections document) (mdoc_collections document').
Proof.
  revert document w results document' w'.
  induction mutations as [|mutation mutations IH]; intros document w results document' w' Hrun; simpl in Hrun.
  { inv_prim Hrun. split_and!; [done|constructor|constructor]. }
  inv_ok Hrun. apply apply_mutation_Ok in Hok0 as [(? & ? & ?) Hm]. apply IH in Hok1 as [(? & ? & ?) [Hp Hs]].
  split_and!; [split_and!; congruence| |by econstructor].
  constructor; [|done]. unfold permit_in_transaction in Hok. unfold permitted.
  destruct (mutation_operation mutation) as [collection required].
  apply bind_Ok_inv in Hok as (declaration & [? _]%require_operation_Ok & Hok). case_bool_decide; simpl in *; eauto; done.
Qed.
End mutations.

(** ** The stored document *)

Section store.
Context {W : Type} `{Uuids, Libraries, ManagedWorld W, ManagedCodec} (app_dir : string).
Implicit Types (contract : HostManagedDataRef) (document : ManagedDataDocument) (s : ManagedDir W).

(** What a reader finds in the files of the store. *)
Definition entry (name : string) s : option string := contents (md_fs s) name.
Definition sound s : Prop := honest (md_fs s).

(** The document the store stands for: none stored is the empty document. *)
Definition empty_document (digest : string) : ManagedDataDocument :=
  {| mdoc_version := STORE_VERSION_1; mdoc_generation := 0; mdoc_contract_digest := digest;
     mdoc_collections := ∅ |}.

Definition represents contract (digest : string) (bytes : option string) document : Prop :=
  match bytes with
  | None => document = empty_document digest
  | Some raw => mdoc_from_str raw = inr document /\ validate_document document contract = Ok tt
  end.

Lemma represents_inj contract digest bytes document document' :
  represents contract digest bytes document -> represents contract digest bytes document' -> document = document'.
Proof. unfold represents. destruct bytes; [intros [? _] [? _]|]; congruence. Qed.

(** [m] leaves [name] alone and reports no failure that is not scheduled. *)
Definition reads {A} (names : string -> Prop) (m : st (ManagedDir W) string A) : Prop :=
  (∀ name, names name -> frames (entry name) m) /\ preserves sound m.

Lemma on_dir_reads {A} (m : st FileSystem string A) (names : string -> Prop) :
  (∀ name, names name -> frames (fun fs => fs_dir fs !! name) m) -> preserves honest m ->
  reads names (on_dir m).
Proof.
  intros Hf Hh. split.
  - intros name Hn s. unfold entry, on_dir, contents. specialize (Hf name Hn (md_fs s)).
    destruct (m (md_fs s)). simpl in *. by rewrite Hf.
  - intros s Hs. specialize (Hh (md_fs s) Hs). unfold sound, on_dir. by destruct (m (md_fs s)).
Qed.

Lemma reads_bind {A B} names (m : st (ManagedDir W) string A) (k : A -> st (ManagedDir W) string B) :
  reads names m -> (∀ a, reads names (k a)) -> reads names (m ≫= k).
Proof.
  intros [Hf Hp] Hk. split.
  - intros name Hn. apply frames_bind; [by apply Hf|]. intros a. by apply (Hk a).
  - apply preserves_bind; [done|]. intros a. by apply (Hk a).
Qed.

Lemma reads_ret {A} names (a : A) : reads names (mret a).
Proof. split; [intros; apply frames_ret|apply preserves_ret]. Qed.
Lemma reads_lift {A} names (m : outcome string A) : reads names (st_lift m).
Proof. split; [intros; apply frames_lift|apply preserves_lift]. Qed.
Lemma reads_fail {A} names (e : string) : reads names (st_fail e : st (ManagedDir W) string A).
Proof. split; [intros; apply frames_fail|apply preserves_fail]. Qed.
Lemma reads_clock {A} names (m : st W string A) : reads names (on_clock m).
Proof. split; [intros name _ s|intros s Hs]; unfold on_clock; by destruct (m (md_world s)). Qed.

(** A call on the device that changes no file. *)
Lemma device_reads {A} (m : st FileSystem IoError A) names :
  frames fs_dir m -> preserves honest m ->
  (∀ name s, names name -> entry name (on_dir m s).2 = entry name s) /\ ∀ s, sound s -> sound (on_dir m s).2.
Proof.
  intros Hf Hp. split.
  - intros name s _. unfold entry, contents, on_dir. specialize (Hf (md_fs s)).
    destruct (m (md_fs s)). simpl in *. by rewrite Hf.
  - intros s Hs. specialize (Hp (md_fs s) Hs). unfold sound, on_dir. by destruct (m (md_fs s)).
Qed.

Lemma io_step_frames : frames fs_dir io_step.
Proof. intros fs. unfold io_step, io_all, io. by destruct (head (fs_faults fs)) as [[]|]. Qed.
Lemma open_read_frames name : frames fs_dir (open_read name).
Proof. intros fs. unfold open_read, io_all, io. by destruct (head (fs_faults fs)) as [[]|]. Qed.
Lemma reject_linked_path_reads names name label :
  reads names (reject_linked_path (W := W) app_dir name label).
Proof.
  pose proof (device_reads io_step names io_step_frames io_step_honest) as [Hf Hp].
  split; [intros n Hn s; specialize (Hf n s Hn)|intros s Hs; specialize (Hp s Hs)];
    unfold reject_linked_path; by destruct (on_dir io_step s) as [[]].
Qed.

Lemma is_file_reads names name : reads names (is_file (W := W) name).
Proof.
  pose proof (device_reads (open_read name) names (open_read_frames name) (open_read_honest name)) as [Hf Hp].
  split; [intros n Hn s; specialize (Hf n s Hn)|intros s Hs; specialize (Hp s Hs)];
    unfold is_file; by destruct (on_dir (open_read name) s) as [[]].
Qed.

Lemma check_file_size_reads names name label : reads names (check_file_size (W := W) name label).
Proof.
  pose proof (device_reads (open_read name) names (open_read_frames name) (open_read_honest name)) as [Hf Hp].
  split; [intros n Hn s; specialize (Hf n s Hn)|intros s Hs; specialize (Hp s Hs)];
    unfold check_file_size; by destruct (on_dir (open_read name) s) as [[]].
Qed.

Lemma st_map_err_frames {S E F A B} (f : S -> B) (g : E -> F) (m : st S E A) :
  frames f m -> frames f (st_map_err g m).
Proof. intros Hm s. specialize (Hm s). unfold st_map_err. by destruct (m s). Qed.

Lemma load_document_reads name label :
  reads (fun n => visible n = true) (load_document (W := W) app_dir name label).
Proof.
  unfold load_document. apply reads_bind; [apply reject_linked_path_reads|intros _].
  apply reads_bind; [apply check_file_size_reads|intros _]. apply on_dir_reads.
  - intros n Hn. by apply load_keeps_other.
  - apply load_json_document_preserves_honest.
Qed.

Lemma load_document_stored name label s o s' :
  sound s -> visible name = true -> load_document (W := W) app_dir name label s = (Ok o, s') ->
  match entry name s with
  | None => o = None
  | Some raw => ∃ document, mdoc_from_str raw = inr document /\ o = Some document
  end.
Proof.
  unfold load_document. intros Hs Hv Hrun.
  apply st_bind_Ok_inv in Hrun as ([] & s1 & Hr1 & ([] & s2 & Hr2 & Hrun)%st_bind_Ok_inv).
  destruct (reject_linked_path_reads (fun n => visible n = true) name label) as [Hf1 Hp1].
  destruct (check_file_size_reads (fun n => visible n = true) name label) as [Hf2 Hp2].
  specialize (Hf1 name Hv s). specialize (Hp1 s Hs). rewrite Hr1 in Hf1, Hp1. simpl in *.
  specialize (Hf2 name Hv s1). specialize (Hp2 s1 Hp1). rewrite Hr2 in Hf2, Hp2. simpl in *.
  rewrite <- Hf1, <- Hf2. unfold on_dir in Hrun.
  destruct (load_json_document _ _ _ (md_fs s2)) as [r fs'] eqn:El. simplify_eq/=.
  apply load_json_document_honest in El; [|done]. unfold load_result in El. simpl in El. unfold entry.
  destruct (contents (md_fs s2) name) as [raw|]; [|by simplify_eq].
  destruct (utf8_valid raw); simplify_eq/=. destruct (mdoc_from_str raw) as [?|d]; simplify_eq/=. eauto.
Qed.

Lemma load_reads contract digest :
  reads (fun n => visible n = true) (ManagedDataStore_load (W := W) app_dir contract digest).
Proof.
  unfold ManagedDataStore_load. apply reads_bind; [apply load_document_reads|intros [document|]];
    [|apply reads_ret].
  apply reads_bind; [apply reads_lift|intros _]. apply reads_bind; [apply reads_lift|intros _]. apply reads_ret.
Qed.

Lemma load_represents contract digest s document s' :
  sound s -> ManagedDataStore_load (W := W) app_dir contract digest s = (Ok document, s') ->
  represents contract digest (entry STORE_FILE s) document.
Proof.
  unfold ManagedDataStore_load, represents. intros Hs Hrun. apply st_bind_Ok_inv in Hrun as (o & s1 & Hl & Hrun).
  apply load_document_stored in Hl; [|done..]. destruct (entry STORE_FILE s) as [raw|].
  - destruct Hl as (d & Hd & ->). inv_ok Hrun. done.
  - subst o. by inv_prim Hrun.
Qed.

(** ** Writing *)

Lemma write_document_file_cases name label document s r s' :
  write_document_file (W := W) app_dir name label document s = (r, s') ->
  (sound s -> sound s') /\
  (∀ other, other <> name -> visible other = true -> entry other s' = entry other s) /\
  ((∃ bytes, mdoc_to_vec_pretty document = inr bytes /\ entry name s' = Some bytes) \/
   (r <> Ok tt /\ entry name s' = entry name s)).
Proof.
  unfold write_document_file, st_map_err, on_dir.
  destruct (persist_json_document _ _ _ _ _ (md_fs s)) as [o fs'] eqn:Hp. intros [= <- <-]. split_and!.
  - intros Hs. unfold sound in *.
    pose proof (persist_honest mdoc_to_vec_pretty (app_path app_dir name) document label (md_fs s) Hs) as Hh.
    by rewrite Hp in Hh.
  - intros other Hne Hv. pose proof (persist_keeps_other mdoc_to_vec_pretty (app_path app_dir name) document label
      other Hv Hne) as Hk. unfold entry, contents. specialize (Hk (md_fs s)). rewrite Hp in Hk. simpl in *.
    by rewrite Hk.
  - apply persist_json_document_contents in Hp as [(bytes & ? & ? & _)|(e & -> & _ & ?)]; [left; eauto|by right].
Qed.

(** The document a mutation commits. *)
Definition committed (digest : string) document : ManagedDataDocument :=
  {| mdoc_version := mdoc_version document; mdoc_generation := mdoc_generation document + 1;
     mdoc_contract_digest := digest; mdoc_collections := mdoc_collections document |}.

(** The visible files are the same. *)
Definition untouched s s' : Prop :=
  (sound s -> sound s') /\ ∀ name, visible name = true -> entry name s' = entry name s.

Lemma untouched_trans s s1 s2 : untouched s s1 -> untouched s1 s2 -> untouched s s2.
Proof. intros [Hs1 He1] [Hs2 He2]. split; [auto|]. intros name Hn. by rewrite He2, He1. Qed.

Lemma reads_run {A B} (m : st (ManagedDir W) string A) (k : A -> st (ManagedDir W) string B) s r s' :
  reads (fun n => visible n = true) m -> (m ≫= k) s = (r, s') ->
  (∃ a s1, m s = (Ok a, s1) /\ k a s1 = (r, s') /\ untouched s s1) \/
  (untouched s s' /\ ∀ b, r <> Ok b).
Proof.
  intros [Hf Hp] Hrun. rewrite st_bind_run in Hrun.
  assert (untouched s (m s).2) as Hu by (split; [apply Hp|intros; by apply Hf]).
  destruct (m s) as [[a|e|msg] s1]; simpl in *; [left; eauto|right; by simplify_eq..].
Qed.

Lemma reject_linked_app_path_reads : reads (fun n => visible n = true) (reject_linked_app_path (W := W) app_dir).
Proof. unfold reject_linked_app_path. repeat (apply reads_bind; [|intros _]); apply reject_linked_path_reads. Qed.

Lemma back_up_contract_cases digest document s o s' :
  back_up_contract (W := W) app_dir digest document s = (o, s') ->
  (sound s -> sound s') /\ entry STORE_FILE s' = entry STORE_FILE s /\
  (o = Ok tt -> changes_contract digest document = true ->
     ∃ backup, mdoc_to_vec_pretty document = inr backup /\ entry CONTRACT_BACKUP_FILE s' = Some backup).
Proof.
  unfold back_up_contract. destruct (changes_contract digest document); [|by intros [= <- <-]].
  intros (Hs2 & Ho & Hc)%write_document_file_cases. split_and!; [done|by rewrite Ho|].
  intros -> _. by destruct Hc as [?|[? _]].
Qed.

Lemma persist_mutation_cases contract digest document s r s' :
  persist_mutation (W := W) app_dir contract digest document s = (r, s') ->
  (sound s -> sound s') /\
  ((entry STORE_FILE s' = entry STORE_FILE s /\ ∀ d, r <> Ok d) \/
   ∃ bytes, validate_document (committed digest document) contract = Ok tt /\
     mdoc_to_vec_pretty (committed digest document) = inr bytes /\ entry STORE_FILE s' = Some bytes /\
     (changes_contract digest document = true ->
        ∃ backup, mdoc_to_vec_pretty document = inr backup /\ entry CONTRACT_BACKUP_FILE s' = Some backup)).
Proof.
  unfold persist_mutation. intros Hrun.
  apply (reads_run _ _ _ _ _ reject_linked_app_path_reads) in Hrun
    as [([] & s1 & _ & Hrun & Hs1 & He1)|[[Hs He] Hno]]; [|split; [done|left; auto]].
  rewrite st_bind_run in Hrun.
  destruct (back_up_contract (W := W) app_dir digest document s1) as [o s2] eqn:Hb in Hrun.
  apply back_up_contract_cases in Hb as (Hs2 & He2 & Hbk). rewrite He1 in He2 by done.
  assert (∀ o : outcome string ManagedDataDocument, (o, s2) = (r, s') -> (∀ d, o <> Ok d) ->
    (sound s -> sound s') /\ (entry STORE_FILE s' = entry STORE_FILE s /\ ∀ d, r <> Ok d)) as Hfail.
  { intros o' [= <- <-]. auto. }
  destruct o as [[]|e|msg]; [|destruct (Hfail _ Hrun ltac:(done)); auto..].
  rewrite st_bind_run in Hrun. simpl in Hrun.
  destruct (checked_succ _ _) as [generation|e|msg] eqn:Hg;
    [|destruct (Hfail _ Hrun ltac:(done)); auto..].
  apply checked_succ_Ok in Hg as ->. fold (committed digest document) in Hrun.
  rewrite st_bind_run in Hrun. simpl in Hrun.
  destruct (validate_document (committed digest document) contract) as [[]|e|msg] eqn:Hval;
    [|destruct (Hfail _ Hrun ltac:(done)); auto..].
  rewrite st_bind_run in Hrun.
  destruct (write_document_file _ _ _ _ s2) as [o s3] eqn:Hw.
  apply write_document_file_cases in Hw as (Hs3 & Ho3 & Hc).
  unfold mret, st_ret in Hrun.
  assert (s' = s3) as -> by (destruct o; congruence).
  split; [auto|]. destruct Hc as [(bytes & Hser & Hbytes)|[Hno Hsame]].
  - right. exists bytes. split_and!; [done..|]. intros Hup. rewrite Ho3 by done. auto.
  - left. split; [by rewrite Hsame|]. intros d ->. destruct o as [[]|?|?]; by simplify_eq/=.
Qed.

(** ** Requests *)

(** The answer to a request that only reads. *)
Definition read_answer contract document (request : ManagedDataRequest) (v : Value) : Prop :=
  match request with
  | ReqGet collection id => v = json_option record_to_value (mdoc_collections document !! collection ≫= (.!! id))
  | ReqList collection query =>
      ∃ result, list_records (W := W) document contract collection query = Ok result /\ v = list_to_value result
  | _ => False
  end.

(** What one request did to the stored document. *)
Definition request_effect contract (digest : string) document (request : ManagedDataRequest)
    (r : outcome string Value) s s' : Prop :=
  (entry STORE_FILE s' = entry STORE_FILE s /\ ∀ v, r = Ok v -> read_answer contract document request v) \/
  ∃ results changed bytes,
    request_mutations request <> [] /\ Forall (permitted contract) (request_mutations request) /\
    mutations_effect (request_mutations request) results (mdoc_collections document) (mdoc_collections changed) /\
    same_envelope document changed /\
    validate_document (committed digest changed) contract = Ok tt /\
    mdoc_to_vec_pretty (committed digest changed) = inr bytes /\ entry STORE_FILE s' = Some bytes /\
    (changes_contract digest document = true ->
       ∃ backup, mdoc_to_vec_pretty changed = inr backup /\ entry CONTRACT_BACKUP_FILE s' = Some backup) /\
    ∀ v, r = Ok v -> v = answer request results.

Lemma fails_keep contract digest document request (o : outcome string Value) r s s' :
  (∀ v, o <> Ok v) -> (o, s) = (r, s') ->
  (sound s -> sound s') /\ request_effect contract digest document request r s s'.
Proof. intros Ho [= <- <-]. split; [done|]. left. split; [done|]. intros v ->. by destruct (Ho v). Qed.

(** Persisting the outcome of the mutations. *)
Lemma persist_effect contract digest document changed results request v s r s' :
  request_mutations request <> [] -> Forall (permitted contract) (request_mutations request) ->
  mutations_effect (request_mutations request) results (mdoc_collections document) (mdoc_collections changed) ->
  same_envelope document changed -> v = answer request results ->
  (_ ← persist_mutation app_dir contract digest changed; mret v) s = (r, s') ->
  (sound s -> sound s') /\ request_effect contract digest document request r s s'.
Proof.
  intros Hne Hperm Heff Henv -> Hrun. rewrite st_bind_run in Hrun.
  destruct (persist_mutation app_dir contract digest changed s) as [o s1] eqn:Hp.
  apply persist_mutation_cases in Hp as [Hs Hc].
  unfold mret, st_ret in Hrun.
  assert (s' = s1) as -> by (destruct o; congruence). split; [done|].
  destruct Hc as [[Hsame Hno]|(bytes & Hval & Hser & Hfile & Hbk)].
  - left. split; [done|]. intros v ->. destruct o as [d|?|?]; simplify_eq/=. by destruct (Hno d).
  - right. exists results, changed, bytes. split_and!; try done.
    + intros Hup. apply Hbk. unfold changes_contract in *. by destruct Henv as (_ & -> & ->).
    + intros v ->. destruct o; by simplify_eq/=.
Qed.

Definition request_step contract (digest : string) document request r s s' : Prop :=
  (sound s -> sound s') /\ request_effect contract digest document request r s s'.

Lemma serve_lift_step {A} contract digest document request (m : outcome string A)
    (k : A -> st (ManagedDir W) string Value) s r s' :
  (st_lift m ≫= k) s = (r, s') ->
  (∀ a, m = Ok a -> k a s = (r, s') -> request_step contract digest document request r s s') ->
  request_step contract digest document request r s s'.
Proof.
  intros Hrun Hk. rewrite st_bind_run in Hrun. simpl in Hrun.
  destruct m; [by eapply Hk|by refine (fails_keep _ _ _ _ _ _ _ _ _ Hrun)..].
Qed.

Lemma clock_step {A} contract digest document request (m : st W string A)
    (k : A -> st (ManagedDir W) string Value) s r s' :
  (on_clock m ≫= k) s = (r, s') ->
  (∀ a w s1, m (md_world s) = (Ok a, w) -> k a s1 = (r, s') ->
     request_step contract digest document request r s1 s') ->
  request_step contract digest document request r s s'.
Proof.
  intros Hrun Hk. rewrite st_bind_run in Hrun. unfold on_clock in Hrun.
  destruct (m (md_world s)) as [[a|e|msg] w].
  - exact (Hk a w _ eq_refl Hrun).
  - injection Hrun as <- <-. split; [done|]. by left.
  - injection Hrun as <- <-. split; [done|]. by left.
Qed.

(** The branches of [request]. *)
Lemma serve_step contract digest document request s r s' :
  serve app_dir contract digest document request s = (r, s') ->
  request_step contract digest document request r s s'.
Proof.
  destruct request as [collection id|collection query|collection value|collection id expected value
                      |collection id expected|operations]; simpl; intros Hrun.
  - eapply serve_lift_step; [exact Hrun|]. intros declaration _ Hrun1.
    eapply serve_lift_step; [exact Hrun1|]. intros [] _ Hrun2.
    eapply serve_lift_step; [exact Hrun2|]. intros [] _ [-> <-]%st_ret_inv.
    split; [done|]. left. split; [done|]. by intros v [= <-].
  - eapply serve_lift_step; [exact Hrun|]. intros declaration _ Hrun1.
    eapply serve_lift_step; [exact Hrun1|]. intros result Hl [-> <-]%st_ret_inv.
    split; [done|]. left. split; [done|]. intros v [= <-]. simpl. eauto.
  - eapply serve_lift_step; [exact Hrun|]. intros declaration [? ?]%require_operation_Ok Hrun1.
    eapply clock_step; [exact Hrun1|]. intros [record changed] w s1 [Henv Heff]%apply_create_Ok Hrun2.
    eapply persist_effect; [..|exact Hrun2]; simpl; [done| |by econstructor; [|constructor]|done..].
    repeat constructor. by exists declaration.
  - eapply serve_lift_step; [exact Hrun|]. intros declaration [? ?]%require_operation_Ok Hrun1.
    eapply clock_step; [exact Hrun1|]. intros [record changed] w s1 [Henv Heff]%apply_replace_Ok Hrun2.
    eapply persist_effect; [..|exact Hrun2]; simpl; [done| |by econstructor; [|constructor]|done..].
    repeat constructor. by exists declaration.
  - eapply serve_lift_step; [exact Hrun|]. intros declaration [? ?]%require_operation_Ok Hrun1.
    eapply clock_step; [exact Hrun1|]. intros [record changed] w s1 [Henv Heff]%apply_delete_Ok Hrun2.
    eapply persist_effect; [..|exact Hrun2]; simpl; [done| |by econstructor; [|constructor]|done..].
    repeat constructor. by exists declaration.
  - destruct (bool_decide (operations = []) || _) eqn:Hn; [by refine (fails_keep _ _ _ _ _ _ _ _ _ Hrun)|].
    apply orb_false_iff in Hn as [Hn%bool_decide_eq_false _].
    eapply clock_step; [exact Hrun|]. intros [results changed] w s1 (Henv & Hp & Heff)%apply_transaction_Ok Hrun1.
    eapply serve_lift_step; [exact Hrun1|]. intros [] _ Hrun2.
    by eapply persist_effect; [..|exact Hrun2].
Qed.

(** Everything before the branches only reads. *)
Lemma managed_request_run contract request s r s' :
  managed_request app_dir contract request s = (r, s') ->
  (∃ digest document s1 s2, untouched s s1 /\ untouched s1 s2 /\ contract_digest contract = Ok digest /\
     ManagedDataStore_load app_dir contract digest s1 = (Ok document, s2) /\
     serve app_dir contract digest document request s2 = (r, s')) \/
  (untouched s s' /\ ∀ v, r <> Ok v).
Proof.
  unfold managed_request. intros Hrun.
  apply reads_run in Hrun as [([] & s1 & _ & Hrun & Hu1)|[Hu Hno]]; [|by right|apply reads_lift].
  apply reads_run in Hrun as [(v2 & s2 & _ & Hrun & Hu2)|[Hu Hno]]; [| |apply is_file_reads];
    [|right; split; [by eapply untouched_trans|done]].
  pose proof (untouched_trans _ _ _ Hu1 Hu2) as Hu. destruct v2; [injection Hrun as <- <-; by right|].
  apply reads_run in Hrun as [(digest & s3 & [Hd _]%st_lift_inv & Hrun & Hu3)|[Hu' Hno]]; [| |apply reads_lift];
    [|right; split; [by eapply untouched_trans|done]].
  pose proof (untouched_trans _ _ _ Hu Hu3) as Hu'.
  apply reads_run in Hrun as [(document & s4 & Hl & Hrun & Hu4)|[Hu4 Hno]]; [| |apply load_reads];
    [|right; split; [by eapply untouched_trans|done]].
  left. by exists digest, document, s3, s4.
Qed.

(** C26: The store refines the map of records. When a request has run on an honest device,
    whatever failed in it: either the stored document is unchanged, and an answer is the
    one a read of it gives; or the stored document is the one that the request's permitted
    mutations, in order and all of them, turn the old one into, with the next generation,
    accepted by the contract, and it is what the next load represents; an answer then
    reports exactly those mutations. *)
Theorem managed_request_refines `{!ManagedCodecLaws} contract request s r s' :
  sound s -> managed_request app_dir contract request s = (r, s') ->
  sound s' /\
  ((entry STORE_FILE s' = entry STORE_FILE s /\
    ∀ v, r = Ok v -> ∃ digest document, represents contract digest (entry STORE_FILE s) document /\
      read_answer contract document request v) \/
   ∃ digest document document' results,
     represents contract digest (entry STORE_FILE s) document /\
     represents contract digest (entry STORE_FILE s') document' /\
     request_mutations request <> [] /\ Forall (permitted contract) (request_mutations request) /\
     mutations_effect (request_mutations request) results (mdoc_collections document) (mdoc_collections document') /\
     mdoc_generation document' = (mdoc_generation document + 1)%N /\
     ∀ v, r = Ok v -> v = answer request results).
Proof.
  intros Hs [(digest & document & s1 & s2 & [Hs1 He1] & [Hs2 He2] & _ & Hload & Hrun)|[[Hs' He] Hno]]%managed_request_run;
    [|split; [auto|left; split; [by apply He|intros v ->; by destruct (Hno v)]]].
  apply load_represents in Hload; [|auto]. rewrite He1 in Hload by done.
  apply serve_step in Hrun as [Hs' Heff]. split; [auto|]. unfold request_effect in Heff.
  rewrite He2, He1 in Heff by done.
  destruct Heff as [[Hsame Hans]|(results & changed & bytes & Hne & Hperm & Hm & Henv & Hval & Hser & Hfile & _ & Hans)].
  - left. split; [done|]. eauto.
  - right. exists digest, document, (committed digest changed), results. rewrite Hfile. split_and!; try done.
    + simpl. split; [|done]. by apply mdoc_codec_roundtrip.
    + simpl. by destruct Henv as (_ & -> & _).
Qed.

(** The backup that is kept before the first write under a changed contract is not
    the prior document: it already has the request's mutations. After an answered mutation
    of a store whose document carries another digest, the backup file holds the old
    version, generation and digest with the collections the mutations produced. *)
Theorem contract_backup_is_mutated `{!ManagedCodecLaws} contract request s v s' digest document :
  sound s -> managed_request app_dir contract request s = (Ok v, s') -> request_mutations request <> [] ->
  contract_digest contract = Ok digest -> represents contract digest (entry STORE_FILE s) document ->
  changes_contract digest document = true ->
  ∃ results changed backup,
    mutations_effect (request_mutations request) results (mdoc_collections document) (mdoc_collections changed) /\
    same_envelope document changed /\
    entry CONTRACT_BACKUP_FILE s' = Some backup /\ mdoc_from_str backup = inr changed.
Proof.
  intros Hs Hrun Hne Hd Hrep Hch.
  apply managed_request_run in Hrun
    as [(digest' & document' & s1 & s2 & [Hs1 He1] & [Hs2 He2] & Hd' & Hload & Hrun)|[_ Hno]]; [|by destruct (Hno v)].
  rewrite Hd in Hd'. injection Hd' as <-.
  apply load_represents in Hload; [|auto]. rewrite He1 in Hload by done.
  rewrite (represents_inj _ _ _ _ _ Hload Hrep) in *. clear Hload.
  apply serve_step in Hrun as [_ [[_ Hans]|(results & changed & bytes & _ & _ & Hm & Henv & _ & _ & _ & Hbk & _)]].
  { specialize (Hans v eq_refl). by destruct request. }
  destruct (Hbk Hch) as (backup & Hser & Hfile). exists results, changed, backup.
  split_and!; try done. by apply mdoc_codec_roundtrip.
Qed.
End store.

(** ** What an accepted document guarantees *)

Section accepted.
Context {W : Type} `{Libraries, ManagedWorld W, ManagedCodec}.
Implicit Types (contract : HostManagedDataRef) (document : ManagedDataDocument).

Lemma map_err_Ok {E F A} (f : E -> F) (m : outcome E A) a : map_err f m = Ok a -> m = Ok a.
Proof. by destruct m; simpl; intros [= <-]. Qed.

Lemma unique_values_seen collection index values records v bytes :
  unique_values collection index values records = Ok tt -> v <> VNull -> json_to_vec v = Ok bytes ->
  bytes ∈ values -> ∀ r, r ∈ records -> obj_get (mr_value r) (mdi_field index) <> Some v.
Proof.
  intros Hrun Hv Hb. revert values Hrun.
  induction records as [|record records IH]; intros values Hrun Hin r Hr; [inversion Hr|].
  simpl in Hrun. apply elem_of_cons in Hr as [->|Hr].
  - intros Hg. rewrite Hg in Hrun. destruct v; [done|..];
      (rewrite Hb in Hrun; simpl in Hrun; rewrite bool_decide_eq_true_2 in Hrun by done; done).
  - assert (∃ values', unique_values collection index values' records = Ok tt /\ bytes ∈ values')
      as (values' & Hrun' & Hin').
    { destruct (obj_get (mr_value record) (mdi_field index)) as [[]|]; [by eauto|..|by eauto];
        (inv_ok Hrun; case_bool_decide; [done|]; eexists; split; [exact Hrun|by right]). }
    by apply (IH values').
Qed.

(** No two records share a value that is not null. *)
Lemma unique_values_Ok collection index values records i j r1 r2 v :
  unique_values collection index values records = Ok tt -> v <> VNull ->
  records !! i = Some r1 -> records !! j = Some r2 -> i < j ->
  obj_get (mr_value r1) (mdi_field index) = Some v -> obj_get (mr_value r2) (mdi_field index) = Some v -> False.
Proof.
  intros Hrun Hv Hi Hj Hlt H1' H2'. revert values i j Hrun Hi Hj Hlt.
  induction records as [|record records IH]; intros values i j Hrun Hi Hj Hlt; [done|].
  destruct j as [|j]; [lia|]. simpl in Hj. destruct i as [|i].
  - simpl in Hi. injection Hi as ->. simpl in Hrun. rewrite H1' in Hrun.
    assert (∃ bytes, json_to_vec v = Ok bytes /\
      unique_values collection index (bytes :: values) records = Ok tt) as (bytes & Hb & Hrest).
    { destruct v; [done|..]; (inv_ok Hrun; case_bool_decide; [done|]; apply map_err_Ok in Hok; eauto). }
    eapply unique_values_seen; [exact Hrest|done|done|left|by eapply list_elem_of_lookup_2|done].
  - simpl in Hi, Hrun.
    assert (∃ values', unique_values collection index values' records = Ok tt) as (values' & Hrun').
    { destruct (obj_get (mr_value record) (mdi_field index)) as [[]|]; [by eauto|..|by eauto];
        (inv_ok Hrun; case_bool_decide; [done|]; by eauto). }
    apply (IH values' i j); auto with lia.
Qed.

Lemma btree_values_position (records : Records) id r :
  records !! id = Some r -> ∃ i, btree_keys records !! i = Some id /\ btree_values records !! i = Some r.
Proof.
  intros (i & Hi)%elem_of_btree_list%list_elem_of_lookup. exists i.
  unfold btree_keys, btree_values. rewrite !list_lookup_fmap, Hi. done.
Qed.

(** Accepted records: the key is the record's id, a canonical UUID, the revision counts
    from one and the value fits its schema. *)
Definition accepted_record (declaration : ManagedDataCollection) (collection id : string)
    (record : ManagedDataRecord) : Prop :=
  mr_id record = id /\ String.length id <= MAX_ID_LENGTH /\ canonical_v4 id = true /\
  (0 < mr_revision record)%N /\ validate_value (mr_value record) declaration collection = Ok tt.

Lemma validate_stored_record_Ok id record :
  validate_stored_record id record = Ok tt ->
  mr_id record = id /\ String.length id <= MAX_ID_LENGTH /\ canonical_v4 id = true /\ (0 < mr_revision record)%N.
Proof.
  unfold validate_stored_record, validate_id. case_bool_decide as Hid; simpl; [|done].
  destruct (MAX_ID_LENGTH <? String.length id) eqn:Hl; simpl; [done|].
  destruct (canonical_v4 id) eqn:Hc; simpl; [|done].
  destruct (N.eqb_spec (mr_revision record) 0); [done|]. intros _.
  apply Nat.ltb_ge in Hl. split_and!; [done|done|done|lia].
Qed.

Lemma validate_envelope_records document collection records id record :
  validate_envelope document = Ok tt -> mdoc_collections document !! collection = Some records ->
  records !! id = Some record -> validate_stored_record id record = Ok tt.
Proof.
  unfold validate_envelope. intros Hv Hc Hr.
  destruct (negb _); [done|]. destruct (_ =? 0)%N; [done|]. destruct (bool_decide _); [done|].
  apply bind_unit_Ok in Hv as [Hall _]. apply for_each_Ok with (x := (collection, records)) in Hall;
    [|by apply elem_of_btree_list].
  unfold validate_stored_collection in Hall. destruct (_ || _); [done|].
  by apply for_each_Ok with (x := (id, record)) in Hall; [|apply elem_of_btree_list].
Qed.

Lemma unique_index_Ok document contract collection records declaration index id1 id2 r1 r2 v :
  validate_document_limits document contract = Ok tt ->
  mdoc_collections document !! collection = Some records ->
  hm_collections contract !! collection = Some declaration ->
  index ∈ mdc_indexes declaration -> mdi_unique index = true ->
  records !! id1 = Some r1 -> records !! id2 = Some r2 -> v <> VNull ->
  obj_get (mr_value r1) (mdi_field index) = Some v -> obj_get (mr_value r2) (mdi_field index) = Some v ->
  id1 = id2.
Proof.
  unfold validate_document_limits. intros [Hu _]%bind_unit_Ok Hc Hd Hindex Huniq Hr1 Hr2 Hv Hg1 Hg2.
  apply for_each_Ok with (x := (collection, records)) in Hu; [|by apply elem_of_btree_list].
  unfold validate_unique_indexes, declared in Hu. simpl in Hu. rewrite Hd in Hu. simpl in Hu.
  apply for_each_Ok with (x := index) in Hu.
  2: { apply list_elem_of_In, filter_In. split; [by apply list_elem_of_In|done]. }
  apply btree_values_position in Hr1 as (i & Hk1 & Hi). apply btree_values_position in Hr2 as (j & Hk2 & Hj).
  destruct (lt_eq_lt_dec i j) as [[Hlt| ->]|Hlt]; [|congruence|]; exfalso.
  - by apply (unique_values_Ok _ _ _ _ _ _ _ _ _ Hu Hv Hi Hj Hlt).
  - by apply (unique_values_Ok _ _ _ _ _ _ _ _ _ Hu Hv Hj Hi Hlt).
Qed.

(** C38: Every document the contract accepts is well formed: its collections are declared
    and within their record limit, every record is filed under its own canonical id with a
    positive revision and a value its schema accepts, and no two records of a collection
    have the same value under a unique index. *)
Theorem validated_document_well_formed document contract :
  validate_document document contract = Ok tt ->
  ∀ collection records, mdoc_collections document !! collection = Some records ->
  ∃ declaration, hm_collections contract !! collection = Some declaration /\
    (N.of_nat (size records) <= mcl_records (mdc_limits declaration))%N /\
    (∀ id record, records !! id = Some record -> accepted_record declaration collection id record) /\
    ∀ index id1 id2 r1 r2 v, index ∈ mdc_indexes declaration -> mdi_unique index = true ->
      records !! id1 = Some r1 -> records !! id2 = Some r2 -> v <> VNull ->
      obj_get (mr_value r1) (mdi_field index) = Some v -> obj_get (mr_value r2) (mdi_field index) = Some v ->
      id1 = id2.
Proof.
  unfold validate_document.
  intros (Henv & (Hdecl & Hlim)%bind_unit_Ok)%bind_unit_Ok collection records Hc.
  apply for_each_Ok with (x := (collection, records)) in Hdecl; [|by apply elem_of_btree_list].
  unfold validate_declared_collection, declared in Hdecl. simpl in Hdecl.
  destruct (hm_collections contract !! collection) as [declaration|] eqn:Hd; simpl in Hdecl; [|done].
  destruct (N.ltb_spec (mcl_records (mdc_limits declaration)) (N.of_nat (size records))) as [?|Hsize]; [done|].
  exists declaration. split_and!; [done..| |].
  - intros id record Hr. pose proof (validate_envelope_records _ _ _ _ _ Henv Hc Hr) as Hrec.
    apply validate_stored_record_Ok in Hrec as (? & ? & ? & ?). split_and!; try done.
    apply for_each_Ok with (x := record) in Hdecl; [done|]. apply elem_of_btree_values. eauto.
  - intros index id1 id2 r1 r2 v. by apply (unique_index_Ok document contract collection).
Qed.
End accepted.

(** ** Cursors *)

Section cursors.
Context {W : Type} `{Libraries, ManagedWorld W, ManagedCodec}.
Implicit Types (contract : HostManagedDataRef) (document : ManagedDataDocument).

Definition after_key {A} (k : string) (e : string * A) : bool := negb (String.leb e.1 k).

(** In a strictly ascending list, what follows the [n]th key is what comes after it. *)
Lemma filter_after_drop {A} (l : list (string * A)) n e :
  StronglySorted (fun p q => after_key p.1 q = true) l -> l !! n = Some e ->
  List.filter (after_key e.1) l = drop (S n) l.
Proof.
  intros Hs. revert n. induction Hs as [|p l Hl IH Hp]; intros n He; [done|].
  assert (∀ k, String.leb k k = true) as Hrefl by (intros k; by destruct (String.leb_total k k)).
  destruct n as [|n]; simpl in *.
  - injection He as ->. unfold after_key at 1. simpl. rewrite Hrefl. simpl. rewrite drop_0.
    apply forallb_filter_id, forallb_forall. intros q Hq%list_elem_of_In.
    rewrite Forall_forall in Hp. by apply Hp.
  - assert (after_key e.1 p = false) as ->; [|by apply IH].
    rewrite Forall_forall in Hp. specialize (Hp e (list_elem_of_lookup_2 _ _ _ He)). unfold after_key in *.
    apply negb_true_iff in Hp. apply negb_false_iff. destruct (String.leb_total p.1 e.1); [done|congruence].
Qed.

Lemma btree_list_ascending (records : Records) :
  StronglySorted (fun p q => after_key p.1 q = true) (btree_list records).
Proof.
  pose proof (btree_list_sorted records) as Hs. pose proof (btree_keys_nodup records) as Hn.
  unfold btree_keys in Hn. revert Hs Hn. generalize (btree_list records) as l.
  induction 1 as [|p l Hl IH Hp]; intros Hn; [constructor|].
  rewrite fmap_cons, NoDup_cons in Hn. destruct Hn as [Hp' Hn].
  constructor; [by apply IH|]. rewrite Forall_forall in Hp |- *. intros q Hq.
  unfold after_key. apply negb_true_iff, not_true_iff_false. intros Hle.
  apply Hp'. specialize (Hp q Hq). unfold entry_le in Hp. simpl in Hp.
  rewrite (String.leb_antisym p.1 q.1 Hp Hle). by apply list_elem_of_fmap_2.
Qed.

Lemma filter_ascending {A} (P : string * A -> bool) l :
  StronglySorted (fun p q => after_key p.1 q = true) l ->
  StronglySorted (fun p q => after_key p.1 q = true) (List.filter P l).
Proof.
  induction 1 as [|p l Hl IH Hp]; simpl; [constructor|]. destruct (P p); [|done].
  constructor; [done|]. rewrite Forall_forall in Hp |- *. intros q [Hq _]%list_elem_of_In%filter_In.
  by apply Hp, list_elem_of_In.
Qed.

(** The records that match a query, in key order. *)
Definition matches after index (records : Records) : list (string * ManagedDataRecord) :=
  List.filter (query_match after index) (btree_list records).

(** Moving the cursor to the [n]th match leaves the matches after it. *)
Lemma matches_after after index records n e :
  matches after index records !! n = Some e ->
  matches (Some e.1) index records = drop (S n) (matches after index records).
Proof.
  intros He. unfold matches. rewrite <- (filter_after_drop _ n e); [|apply filter_ascending, btree_list_ascending|done].
  pose proof (list_elem_of_lookup_2 _ _ _ He) as [_ Hm]%list_elem_of_In%filter_In.
  induction (btree_list records) as [|p l IH]; simpl; [done|].
  assert (query_match (Some e.1) index p = after_key e.1 p && query_match after index p) as ->.
  { unfold query_match in *. fold (after_key e.1 p). destruct after as [k|]; simpl in *; [|done].
    destruct (after_key e.1 p) eqn:Ha; simpl; [|done].
    assert (negb (String.leb p.1 k) = true) as ->; [|done].
    apply andb_true_iff in Hm as [Hk _]. apply negb_true_iff, not_true_iff_false. intros Hpk.
    apply negb_true_iff, not_true_iff_false in Ha. apply Ha, (string_leb_trans _ k); [done|].
    apply negb_true_iff in Hk. destruct (String.leb_total k e.1); [done|congruence]. }
  destruct (query_match after index p), (after_key e.1 p) eqn:Ha; simpl; rewrite ?Ha, IH; done.
Qed.
Lemma page_spec {A} (key : A -> string) n (l : list A) :
  page key (S n) l = (take (S n) l, if decide (length l <= S n) then None else key <$> l !! n).
Proof.
  unfold page. rewrite length_take.
  destruct (decide (length l <= S n)) as [Hl|Hl].
  - destruct (Nat.ltb_spec (S n) (Nat.min (S (S n)) (length l))); [lia|]. by rewrite !take_ge by lia.
  - destruct (Nat.ltb_spec (S n) (Nat.min (S (S n)) (length l))); [|lia].
    rewrite take_take, Nat.min_l by lia. f_equal. f_equal.
    rewrite last_lookup, length_take, Nat.min_l by lia. simpl. by rewrite lookup_take_lt by lia.
Qed.

Definition set_after (after : string) (query : ManagedDataQuery) : ManagedDataQuery :=
  {| mq_index := mq_index query; mq_equals := mq_equals query; mq_after := Some after;
     mq_limit := mq_limit query |}.

(** A caller that asks again after [next_after] until there is none. *)
Fixpoint follow (fuel : nat) document contract (collection : string) (query : ManagedDataQuery) :
    outcome string (list ManagedDataRecord) :=
  match fuel with
  | 0 => Err "out of fuel"
  | S fuel' =>
      result ← list_records (W := W) document contract collection (Some query);
      match ml_next_after result with
      | None => Ok (ml_records result)
      | Some after =>
          rest ← follow fuel' document contract collection (set_after after query);
          Ok (ml_records result ++ rest)
      end
  end.

(** What [list_records] returns, once its checks pass. *)
Lemma list_records_Ok document contract collection query result :
  list_records (W := W) document contract collection (Some query) = Ok result ->
  ∃ declaration index n,
    hm_collections contract !! collection = Some declaration /\ query_index declaration query = Ok index /\
    ∀ query', mq_index query' = mq_index query -> mq_equals query' = mq_equals query ->
      mq_limit query' = mq_limit query ->
      match mq_after query' with Some after => validate_id after = Ok tt | None => True end ->
      list_records (W := W) document contract collection (Some query') =
      let '(rs, next_after) := page mr_id (S n)
        (snd <$> matches (mq_after query') index (default ∅ (mdoc_collections document !! collection))) in
      Ok {| ml_records := rs; ml_next_after := next_after |}.
Proof.
  unfold list_records. destruct (hm_collections contract !! collection) as [declaration|]; simpl; [|done].
  intros Hrun. inv_ok Hrun. rename a into index.
  destruct (N.eqb_spec (N.min (default (mcl_query_results (mdc_limits declaration)) (mq_limit query))
    (mcl_query_results (mdc_limits declaration))) 0) as [?|Hn]; [done|].
  exists declaration, index, (pred (N.to_nat (N.min (default (mcl_query_results (mdc_limits declaration)) (mq_limit query))
    (mcl_query_results (mdc_limits declaration))))).
  split_and!; [done..|]. intros query' Hi He Hl Ha.
  assert (query_index declaration query' = Ok index) as Hq by (unfold query_index in *; by rewrite Hi, He).
  rewrite Hl, Hq. rewrite (proj2 (N.eqb_neq _ _) Hn).
  rewrite Nat.succ_pred by lia.
  destruct (mq_after query') as [after|]; [rewrite Ha|]; done.
Qed.

Lemma filter_keys_nodup {A} (P : string * A -> bool) l : NoDup (fst <$> l) -> NoDup (fst <$> List.filter P l).
Proof.
  induction l as [|e l IH]; simpl; [done|]. rewrite NoDup_cons. intros [He Hl].
  destruct (P e); simpl; [|by apply IH]. apply NoDup_cons. split; [|by apply IH].
  contradict He. apply list_elem_of_fmap in He as (x & -> & [Hx _]%list_elem_of_In%filter_In).
  by apply list_elem_of_fmap_2, list_elem_of_In.
Qed.

Lemma accepted_ids document contract collection :
  validate_document document contract = Ok tt ->
  ∀ id record, (default ∅ (mdoc_collections document !! collection) : Records) !! id = Some record ->
    mr_id record = id /\ validate_id id = Ok tt.
Proof.
  unfold validate_document. intros [Henv _]%bind_unit_Ok id record Hr.
  destruct (mdoc_collections document !! collection) as [records|] eqn:Hc; simpl in Hr; [|done].
  apply (validate_envelope_records _ _ _ _ _ Henv Hc), validate_stored_record_Ok in Hr as (? & Hl & Hcan & _).
  split; [done|]. unfold validate_id. rewrite (proj2 (Nat.ltb_ge _ _) Hl), Hcan. done.
Qed.

Section following.
Context document contract (collection : string) (base : ManagedDataQuery).
Abbreviation records := (default ∅ (mdoc_collections document !! collection)).
Context (index : option (ManagedDataIndex * Value)) (n : nat).
Hypothesis ids : ∀ id record, records !! id = Some record -> mr_id record = id /\ validate_id id = Ok tt.
Hypothesis pages : ∀ query',
  mq_index query' = mq_index base -> mq_equals query' = mq_equals base -> mq_limit query' = mq_limit base ->
  match mq_after query' with Some after => validate_id after = Ok tt | None => True end ->
  list_records (W := W) document contract collection (Some query') =
  let '(rs, next_after) := page mr_id (S n) (snd <$> matches (mq_after query') index records) in
  Ok {| ml_records := rs; ml_next_after := next_after |}.

Lemma matches_elem after e :
  e ∈ matches after index records <-> records !! e.1 = Some e.2 /\ query_match after index e = true.
Proof.
  unfold matches. rewrite list_elem_of_In, filter_In, <- list_elem_of_In. destruct e as [k r].
  by rewrite elem_of_btree_list.
Qed.

Lemma follow_all fuel query :
  mq_index query = mq_index base -> mq_equals query = mq_equals base -> mq_limit query = mq_limit base ->
  match mq_after query with Some after => validate_id after = Ok tt | None => True end ->
  length (matches (mq_after query) index records) < fuel ->
  follow fuel document contract collection query = Ok (snd <$> matches (mq_after query) index records).
Proof.
  revert query. induction fuel as [|fuel IH]; intros query Hi He Hl Ha Hlen; [lia|].
  cbn [follow]. rewrite (pages query) by done. rewrite page_spec, length_fmap, list_lookup_fmap. cbn [mbind outcome_bind].
  destruct (decide (length (matches (mq_after query) index records) <= S n)) as [Hle|Hle]; simpl ml_next_after.
  { f_equal. apply take_ge. by rewrite length_fmap. }
  destruct (lookup_lt_is_Some_2 (matches (mq_after query) index records) n) as [e He']; [lia|].
  rewrite He'. cbn [fmap option_fmap option_map].
  pose proof (list_elem_of_lookup_2 _ _ _ He') as [Hrec _]%matches_elem.
  destruct (ids _ _ Hrec) as [Hid Hval].
  rewrite (IH (set_after (mr_id e.2) query)); [|done|done|done|simpl; by rewrite Hid|]; simpl mq_after; rewrite Hid,
    (matches_after _ _ _ _ _ He').
  - cbn [mbind outcome_bind ml_records]. f_equal. rewrite fmap_drop. apply take_drop.
  - rewrite length_drop. lia.
Qed.
End following.

(** C39: Cursors enumerate. In an accepted document, a caller that starts with a query the
    store answers and follows [next_after] until there is none terminates, after at most
    one request per record and one more, and receives every record that matches the query
    exactly once. *)
Theorem cursor_enumerates document contract collection query result :
  validate_document document contract = Ok tt ->
  list_records (W := W) document contract collection (Some query) = Ok result ->
  ∃ declaration index all,
    hm_collections contract !! collection = Some declaration /\ query_index declaration query = Ok index /\
    (∀ fuel, size (default ∅ (mdoc_collections document !! collection)) < fuel ->
       follow fuel document contract collection query = Ok all) /\
    NoDup (mr_id <$> all) /\
    ∀ record, record ∈ all <->
      default ∅ (mdoc_collections document !! collection) !! mr_id record = Some record /\
      query_match (mq_after query) index (mr_id record, record) = true.
Proof.
  intros Hdoc Hlist. pose proof (list_records_Ok _ _ _ _ _ Hlist) as (declaration & index & n & Hd & Hq & Hpages).
  pose proof (accepted_ids _ _ collection Hdoc) as Hids.
  exists declaration, index, (snd <$> matches (mq_after query) index (default ∅ (mdoc_collections document !! collection))).
  assert (match mq_after query with Some after => validate_id after = Ok tt | None => True end) as Hafter.
  { unfold list_records in Hlist. inv_ok Hlist. simpl in Hok0. destruct (mq_after query); [exact Hok0|done]. }
  split_and!; [done|done| | |].
  - intros fuel Hfuel. apply (follow_all document contract collection query index n); try done.
    eapply Nat.le_lt_trans; [|exact Hfuel]. unfold matches. rewrite <- length_btree_list. apply filter_length_le.
  - rewrite <- list_fmap_compose. rewrite (Forall_fmap_ext_1 _ fst).
    + apply filter_keys_nodup, btree_keys_nodup.
    + apply Forall_forall. intros e [He _]%matches_elem. by destruct (Hids _ _ He).
  - intros record. rewrite list_elem_of_fmap. split.
    + intros (e & -> & [He Hm]%matches_elem). destruct e as [id r]. simpl in *.
      destruct (Hids _ _ He) as [-> _]. done.
    + intros [Hr Hm]. exists (mr_id record, record). split; [done|]. by apply matches_elem.
Qed.
End cursors.
