(* ===== verification/ManagedV2.v ===== *)
(** * Host-managed app data, contract version 2: data and checks

    [host/src-tauri/src/managed_data.rs]: the published state (records, document metadata,
    mutation receipts), the staged batch and the content-addressed blobs. The blobs live in
    their own directory with their own schedule of failures. Serde, Base64, SHA-256, UUIDs
    and dates are parameters. *)

From S2P Require Import Prelude RustStd RustText Json JsonOps Types Platform AtomicJson Packages ManagedData.

Definition V2_STORE_VERSION : N := 2.
Definition V2_STAGE_FILE : string := "managed-data-stage-v2.json".
Definition V2_BLOB_DIR : string := "managed-data-blobs-v2".
Definition V2_MAX_RECEIPTS : nat := 1024.
Definition V2_MAX_STAGE_BYTES : N := 96 * 1024 * 1024.
Definition V2_MAX_STAGE_DECODED_BYTES : N := 64 * 1024 * 1024.
Definition V2_MAX_BATCH_APPEND_OPERATIONS : nat := 64.
Definition V2_MAX_CHUNK_BYTES : N := 384 * 1024.
Definition V2_MAX_DOCUMENT_BYTES : N := 8 * 1024 * 1024.
Definition V2_STAGE_TTL_SECONDS : N := 15 * 60.
Definition MAX_MANAGED_DATA_BATCH_OPERATIONS : nat := 2048.

(** ** Requests *)

Inductive ManagedDataV2Read :=
  | ReadRecordGet (collection id : string)
  | ReadRecordList (collection : string) (query : option ManagedDataQuery)
  | ReadDocumentGet (collection id : string)
  | ReadDocumentList (collection : string) (after : option string) (limit : option N)
  | ReadDocumentContent (collection id : string) (offset length : N).

Inductive ManagedDataV2DocumentOperation :=
  | DopCreate (stage_id collection : string) (metadata : JsonObject) (content_length : N) (content_sha256 : string)
  | DopReplace (stage_id collection id : string) (expected_revision : N) (metadata : JsonObject)
      (content_length : N) (content_sha256 : string)
  | DopUpdateMetadata (collection id : string) (expected_revision : N) (metadata : JsonObject)
  | DopDelete (collection id : string) (expected_revision : N).

Inductive ManagedDataV2Request :=
  | V2ReadSnapshot (expected_generation : option N) (reads : list ManagedDataV2Read)
  | V2Get (collection id : string) (expected_generation : option N)
  | V2List (collection : string) (query : option ManagedDataQuery) (expected_generation : option N)
  | V2GetDocument (collection id : string) (offset length : N) (expected_generation : option N)
  | V2ListDocuments (collection : string) (after : option string) (limit : option N) (expected_generation : option N)
  | V2Create (mutation_id : string) (expected_generation : N) (collection : string) (value : JsonObject)
  | V2Replace (mutation_id : string) (expected_generation : N) (collection id : string) (expected_revision : N)
      (value : JsonObject)
  | V2Delete (mutation_id : string) (expected_generation : N) (collection id : string) (expected_revision : N)
  | V2BeginBatch (mutation_id : string) (expected_generation : N) (operations : list ManagedDataMutation)
      (documents : list ManagedDataV2DocumentOperation)
  | V2AppendBatchOperations (mutation_id batch_id : string) (operations : list ManagedDataMutation)
  | V2AppendDocumentChunk (mutation_id batch_id document_id : string) (chunk_index : N) (content_base64 : string)
  | V2CommitBatch (mutation_id batch_id : string)
  | V2AbortBatch (mutation_id batch_id : string).

(** ** State *)

Record ManagedDocumentRecord := {
  dr_id : string;
  dr_revision : N;
  dr_created_at : string;
  dr_updated_at : string;
  dr_metadata : JsonObject;
  dr_content_sha256 : string;
  dr_content_length : N;
}.

Record ManagedDataReceipt := { rc_digest : string; rc_result : Value; rc_generation : N; rc_recorded_at : string }.

Abbreviation Documents := (gmap string ManagedDocumentRecord).
Abbreviation Receipts := (gmap string ManagedDataReceipt).

Record ManagedDataV2Envelope := {
  env_version : N;
  env_generation : N;
  env_contract_digest : string;
  env_collections : Collections;
  env_documents : gmap string (gmap string ManagedDocumentRecord);
  env_receipts : Receipts;
}.

Record ManagedDataStageDocument := {
  sd_stage_id : string;
  sd_operation : ManagedDataV2DocumentOperation;
  sd_chunks : gmap N string;
}.

Record ManagedDataStage := {
  sg_version : N;
  sg_batch_id : string;
  sg_expected_generation : N;
  sg_contract_digest : string;
  sg_records : list ManagedDataMutation;
  sg_documents : gmap string ManagedDataStageDocument;
  sg_receipts : Receipts;
  sg_expires_at : N;
}.

(** ** Parameters: Serde and Base64 *)

Class V2Codec := {
  env_to_vec_pretty : ManagedDataV2Envelope -> string + string;
  env_from_str : string -> string + ManagedDataV2Envelope;
  stage_to_vec_pretty : ManagedDataStage -> string + string;
  stage_to_vec : ManagedDataStage -> string + string;
  stage_from_str : string -> string + ManagedDataStage;
  request_to_vec : ManagedDataV2Request -> string + string;
  base64_encode : string -> string;
  base64_decode : string -> option string;
}.

Class V2CodecLaws `{V2Codec} : Prop := {
  env_codec_roundtrip : ∀ state bytes, env_to_vec_pretty state = inr bytes ->
    utf8_valid bytes = true /\ env_from_str bytes = inr state;
  stage_codec_roundtrip : ∀ stage bytes, stage_to_vec_pretty stage = inr bytes ->
    utf8_valid bytes = true /\ stage_from_str bytes = inr stage;
  base64_roundtrip : ∀ bytes, base64_decode (base64_encode bytes) = Some bytes;
}.

(** ** JSON of the results *)

(** [ManagedDataV2RecordView]. *)
Definition record_view (r : ManagedDataRecord) : Value :=
  VObject [("createdAt", VString (mr_created_at r)); ("id", VString (mr_id r));
           ("revision", json_number (mr_revision r)); ("updatedAt", VString (mr_updated_at r));
           ("value", VObject (mr_value r))].

(** [ManagedDocumentRecordView]. *)
Definition document_view (d : ManagedDocumentRecord) : Value :=
  VObject [("contentLength", json_number (dr_content_length d)); ("contentSha256", VString (dr_content_sha256 d));
           ("createdAt", VString (dr_created_at d)); ("id", VString (dr_id d));
           ("metadata", VObject (dr_metadata d)); ("revision", json_number (dr_revision d));
           ("updatedAt", VString (dr_updated_at d))].

(** ** Checks *)

Definition generation_conflict (expected found : N) : string :=
  "managed-data generation conflict; expected " +:+ pretty expected +:+ ", found " +:+ pretty found.

Definition check_generation (actual : N) (expected : option N) : outcome string unit :=
  match expected with
  | Some expected => if (expected =? actual)%N then Ok tt else Err (generation_conflict expected actual)
  | None => Ok tt
  end.

(** ASCII letters, digits and [-_.]. *)
Definition identifier_byte (b : N) : bool :=
  ((48 <=? b) && (b <=? 57) || (65 <=? b) && (b <=? 90) || (97 <=? b) && (b <=? 122)
   || (b =? 45) || (b =? 95) || (b =? 46))%N.

Definition validate_mutation_id (id : string) : outcome string unit :=
  if (128 <? String.length id) || bool_decide (id = EmptyString) || negb (string_all identifier_byte id)
  then Err "managed-data mutation_id must be a bounded ASCII identifier" else Ok tt.

Definition validate_stage_id (id : string) : outcome string unit :=
  if bool_decide (id = EmptyString) || (64 <? String.length id) || negb (string_all identifier_byte id)
  then Err "managed-data stageId must be a bounded ASCII identifier (1-64 characters)" else Ok tt.

(** A lowercase hexadecimal digit. *)
Definition lower_hex (b : N) : bool := ((48 <=? b) && (b <=? 57) || (97 <=? b) && (b <=? 102))%N.

Definition is_sha256 (value : string) : bool :=
  (String.length value =? 71) &&
  match strip_prefix "sha256-" value with Some digits => string_all lower_hex digits | None => false end.

Definition receipt_result (receipts : Receipts) (id digest : string) : outcome string (option Value) :=
  match receipts !! id with
  | None => Ok None
  | Some receipt =>
      if negb (bool_decide (rc_digest receipt = digest))
      then Err ("managed-data mutation id '" +:+ id +:+ "' was reused with a different request")
      else Ok (Some (rc_result receipt))
  end.

Definition trim_receipts (receipts : Receipts) : outcome string unit :=
  if V2_MAX_RECEIPTS <? size receipts
  then Err "managed-data receipt quota exceeded; refusing mutation to preserve idempotency" else Ok tt.

(** [{:?}] of a document operation. *)
Definition document_operation_debug (o : ManagedDocumentOperation) : string :=
  match o with
  | DocGet => "Get" | DocList => "List" | DocCreate => "Create" | DocReplace => "Replace"
  | DocUpdateMetadata => "UpdateMetadata" | DocDelete => "Delete"
  end.

Definition unknown_documents (collection : string) : string :=
  "unknown managed-data document collection '" +:+ collection +:+ "'".
Definition missing_document (id : string) : string := "managed-data document '" +:+ id +:+ "' does not exist".
Definition document_changed (expected found : N) : string :=
  "managed-data document changed; expected revision " +:+ pretty expected +:+ ", found " +:+ pretty found.

Definition require_document_operation (contract : HostManagedDataRef) (collection : string)
    (operation : ManagedDocumentOperation) : outcome string ManagedDocumentCollection :=
  declaration ← ok_or (hm_documents contract !! collection) (unknown_documents collection);
  if negb (bool_decide (operation ∈ mdd_operations declaration))
  then Err ("managed-data document collection '" +:+ collection +:+ "' does not permit "
            +:+ document_operation_debug operation)
  else Ok declaration.

(** [ManagedDataDocument] with the records of the state. *)
Definition record_document (generation : N) (digest : string) (collections : Collections) : ManagedDataDocument :=
  {| mdoc_version := STORE_VERSION_1; mdoc_generation := N.max generation 1;
     mdoc_contract_digest := digest; mdoc_collections := collections |}.

Section checks.
Context `{Libraries, V2Codec}.
Implicit Types (contract : HostManagedDataRef).

Definition validate_document_metadata (metadata : JsonObject) (declaration : ManagedDocumentCollection)
    (collection : string) : outcome string unit :=
  bytes ← map_err (String.append "serialize document metadata failed: ") (json_to_vec (VObject metadata));
  if (mdl_metadata_bytes (mdd_limits declaration) <? N.of_nat (String.length bytes))%N
  then Err ("managed-data document metadata for collection '" +:+ collection +:+ "' exceeds its limit")
  else validate_schema_value (VObject metadata) (mdd_metadata_schema declaration)
         ("managed-data document collection '" +:+ collection +:+ "' metadata").

Definition request_digest (request : ManagedDataV2Request) : outcome string string :=
  bytes ← map_err (String.append "serialize managed-data request failed: ")
            (from_result (request_to_vec request));
  Ok ("sha256-" +:+ sha256_hex bytes).

Definition validate_batch_record_operations contract (records : list ManagedDataMutation) : outcome string unit :=
  for_each (permit_in_transaction contract) records.

Definition document_operation_kind (operation : ManagedDataV2DocumentOperation) :
    string * ManagedDocumentOperation :=
  match operation with
  | DopCreate _ collection _ _ _ => (collection, DocCreate)
  | DopReplace _ collection _ _ _ _ _ => (collection, DocReplace)
  | DopDelete collection _ _ => (collection, DocDelete)
  | DopUpdateMetadata collection _ _ _ => (collection, DocUpdateMetadata)
  end.

Definition batch_limit contract : outcome string N :=
  ok_or (msl_batch_operations (hm_limits contract)) "managed-data contract is missing batch_operations".

Definition batch_too_long (limit : N) : string :=
  "managed-data batch exceeds its " +:+ pretty limit +:+ "-operation limit".

Definition validate_batch_declarations contract (records : list ManagedDataMutation)
    (documents : list ManagedDataV2DocumentOperation) : outcome string unit :=
  if (V2_MAX_BATCH_APPEND_OPERATIONS <? length records) || (V2_MAX_BATCH_APPEND_OPERATIONS <? length documents)
  then Err "managed-data batch initial chunks must contain at most 64 operations"
  else
    limit ← batch_limit contract;
    if (limit <? N.of_nat (length records + length documents))%N then Err (batch_too_long limit)
    else
      _ ← validate_batch_record_operations contract records;
      for_each (fun operation =>
        let '(collection, required) := document_operation_kind operation in
        _ ← require_document_operation contract collection required; Ok tt) documents.

(** The staged document operation, against the published state. *)
Definition check_metadata contract (operation : ManagedDataV2DocumentOperation) :
    outcome string (option ManagedDocumentCollection) :=
  match operation with
  | DopCreate _ collection metadata _ _ | DopReplace _ collection _ _ metadata _ _
  | DopUpdateMetadata collection _ _ metadata =>
      declaration ← ok_or (hm_documents contract !! collection) (unknown_documents collection);
      _ ← validate_document_metadata metadata declaration collection;
      Ok (Some declaration)
  | DopDelete _ _ _ => Ok None
  end.

Definition check_content_declaration (operation : ManagedDataV2DocumentOperation)
    (declaration : ManagedDocumentCollection) : outcome string unit :=
  match operation with
  | DopCreate _ _ _ content_length content_sha256 | DopReplace _ _ _ _ _ content_length content_sha256 =>
      if (V2_MAX_DOCUMENT_BYTES <? content_length)%N
         || (mdl_content_bytes (mdd_limits declaration) <? content_length)%N
      then Err "managed-data document content exceeds its host or collection limit"
      else if negb (is_sha256 content_sha256)
      then Err "managed-data document content_sha256 must be sha256- followed by 64 lowercase hex characters"
      else Ok tt
  | DopUpdateMetadata _ _ _ _ | DopDelete _ _ _ => Ok tt
  end.

Definition check_current_revision (documents : gmap string Documents) (collection id : string)
    (expected_revision : N) : outcome string ManagedDocumentRecord :=
  current ← ok_or (documents !! collection ≫= (.!! id)) (missing_document id);
  if negb (dr_revision current =? expected_revision)%N
  then Err (document_changed expected_revision (dr_revision current)) else Ok current.

Definition validate_document_operation_input contract (operation : ManagedDataV2DocumentOperation)
    (state : ManagedDataV2Envelope) : outcome string unit :=
  checked ← check_metadata contract operation;
  match checked with
  | None => Ok tt
  | Some declaration =>
      _ ← check_content_declaration operation declaration;
      match operation with
      | DopReplace _ collection id expected_revision _ _ _ | DopUpdateMetadata collection id expected_revision _ =>
          _ ← check_current_revision (env_documents state) collection id expected_revision; Ok tt
      | DopCreate _ _ _ _ _ | DopDelete _ _ _ => Ok tt
      end
  end.

(** The loop over the chunks in index order. *)
Fixpoint join_chunks (expected : N) (chunks : list (N * string)) : outcome string string :=
  match chunks with
  | [] => Ok EmptyString
  | (index, value) :: chunks' =>
      if negb (index =? expected)%N
      then Err "managed-data document chunks are incomplete or out of order"
      else
        bytes ← ok_or (base64_decode value) "managed-data staged chunk is invalid base64";
        rest ← join_chunks (expected + 1) chunks';
        Ok (bytes +:+ rest)
  end.

Definition content_digest (content : string) : string := "sha256-" +:+ sha256_hex content.

Definition staged_content (staged : ManagedDataStageDocument) (length : N) (hash : string) : outcome string string :=
  bytes ← join_chunks 0 (btree_list (sd_chunks staged));
  if negb (N.of_nat (String.length bytes) =? length)%N || negb (bool_decide (content_digest bytes = hash))
  then Err "managed-data document content length or digest does not match its declaration"
  else Ok bytes.

(** Only the operations that carry content have chunks. *)
Definition takes_content (operation : ManagedDataV2DocumentOperation) : bool :=
  match operation with
  | DopCreate _ _ _ _ _ | DopReplace _ _ _ _ _ _ _ => true
  | DopUpdateMetadata _ _ _ _ | DopDelete _ _ _ => false
  end.

(** The decoded size of the chunks of one document. *)
Fixpoint decoded_size (total : N) (chunks : list string) : outcome string N :=
  match chunks with
  | [] => Ok total
  | chunk :: chunks' =>
      decoded ← ok_or (base64_decode chunk) "managed-data staged chunk is invalid base64";
      let size := N.of_nat (String.length decoded) in
      if (size =? 0)%N || (V2_MAX_CHUNK_BYTES <? size)%N
      then Err "managed-data staged chunks must be 1-393216 decoded bytes"
      else if (u64_max <? total + size)%N then Err "managed-data staged content quota overflow"
      else decoded_size (total + size) chunks'
  end.

Fixpoint stage_decoded_size (total : N) (documents : list ManagedDataStageDocument) : outcome string N :=
  match documents with
  | [] => Ok total
  | document :: documents' =>
      if negb (takes_content (sd_operation document)) && negb (bool_decide (sd_chunks document = ∅))
      then Err "managed-data metadata-only and delete operations cannot contain content chunks"
      else
        total' ← decoded_size total (btree_values (sd_chunks document));
        stage_decoded_size total' documents'
  end.

Definition validate_stage_size (stage : ManagedDataStage) : outcome string unit :=
  if MAX_MANAGED_DATA_BATCH_OPERATIONS <? length (sg_records stage) + size (sg_documents stage)
  then Err "managed-data batch exceeds the 2048-operation host limit"
  else
    bytes ← map_err (String.append "serialize managed-data batch failed: ") (from_result (stage_to_vec stage));
    if (V2_MAX_STAGE_BYTES <? N.of_nat (String.length bytes))%N
    then Err "managed-data batch exceeds the 100663296-byte limit"
    else
      decoded_total ← stage_decoded_size 0 (btree_values (sg_documents stage));
      if (V2_MAX_STAGE_DECODED_BYTES <? decoded_total)%N
      then Err "managed-data staged decoded content exceeds the 64 MiB host limit" else Ok tt.
End checks.
