(* ===== verification/ManagedV2Store.v ===== *)
(** * Host-managed app data, contract version 2: the store

    [host/src-tauri/src/managed_data.rs]: blobs, the published state, the staged batch and
    [request_v2]. [commit_stage] runs in a state of its own, because the blobs it has
    created outlive an error inside its closure. Sums of [u64] wrap where the source adds
    without a check. *)

From S2P Require Import Prelude RustStd RustText Json JsonOps Types Platform AtomicJson Packages ManagedData ManagedV2.

(** The directory of the app, and its blob directory. *)
Record V2Dir (W : Type) := { vd_dir : ManagedDir W; vd_blobs : FileSystem; vd_blob_links : gset string }.
Arguments vd_dir {W}. Arguments vd_blobs {W}. Arguments vd_blob_links {W}.
Arguments Build_V2Dir {W}.

Definition wrapping_succ (n : N) : N := (n + 1) mod (u64_max + 1).
Definition saturating_add (n m : N) : N := N.min (n + m) u64_max.

Section store.
Context {W : Type} `{Uuids, Libraries, ManagedWorld W, ManagedCodec, V2Codec} (app_dir : string).
Implicit Types (contract : HostManagedDataRef) (state : ManagedDataV2Envelope) (stage : ManagedDataStage).

Abbreviation v2_op := (st (V2Dir W) string).

Definition on_managed {E A} (m : st (ManagedDir W) E A) : st (V2Dir W) E A := fun s =>
  let '(r, d) := m (vd_dir s) in
  (r, {| vd_dir := d; vd_blobs := vd_blobs s; vd_blob_links := vd_blob_links s |}).

Definition on_blobs {E A} (m : st FileSystem E A) : st (V2Dir W) E A := fun s =>
  let '(r, fs) := m (vd_blobs s) in
  (r, {| vd_dir := vd_dir s; vd_blobs := fs; vd_blob_links := vd_blob_links s |}).

Definition on_world {A} (f : W -> A * W) : v2_op A := on_managed (on_clock (in_clock f)).

(** ** Blobs *)

Definition blob_name (hash : string) : string := default hash (strip_prefix "sha256-" hash).

Definition blob_path (hash : string) : Path :=
  {| p_parent := app_dir +:+ "/" +:+ V2_BLOB_DIR; p_file_name := blob_name hash |}.

Definition reject_linked_blob (hash : string) : v2_op unit := fun s =>
  match on_blobs io_step s with
  | (Ok _, s') =>
      (if bool_decide (blob_name hash ∈ vd_blob_links s)
       then Err ("managed data blob path '" +:+ display (blob_path hash) +:+ "' is a symlink") else Ok tt, s')
  | (Err error, s') =>
      (match io_kind error with
       | NotFound => Ok tt
       | _ => Err ("inspect managed data blob path failed: " +:+ io_message error)
       end, s')
  | (Panic msg, s') => (Panic msg, s')
  end.

(** [std::fs::read(path)]. *)
Definition read_file (hash what : string) : v2_op string :=
  file ← st_map_err (fun e => what +:+ io_message e) (on_blobs (open_read (blob_name hash)));
  mret (f_bytes file).

Definition read_blob (document : ManagedDocumentRecord) : v2_op string :=
  _ ← reject_linked_blob (dr_content_sha256 document);
  bytes ← read_file (dr_content_sha256 document) "read managed-data document blob failed: ";
  if negb (N.of_nat (String.length bytes) =? dr_content_length document)%N
     || negb (bool_decide (content_digest bytes = dr_content_sha256 document))
  then st_fail "managed-data document blob failed integrity validation"
  else mret bytes.

(** [path.is_file()]: an error counts as absent. *)
Definition blob_is_file (hash : string) : v2_op bool := fun s =>
  match on_blobs (open_read (blob_name hash)) s with
  | (Ok _, s') => (Ok true, s')
  | (_, s') => (Ok false, s')
  end.

(** [writer.write_and_sync(path, content)] and what follows its failure. *)
Definition create_blob (hash content : string) : v2_op bool := fun s =>
  match on_blobs (write_and_sync StandardAtomicFileWriter (blob_name hash) content) s with
  | (Ok _, s') => (Ok true, s')
  | (Err error, s') =>
      let failure := "write managed-data blob failed: " +:+ io_message error in
      match io_kind error with
      | AlreadyExists => (Err failure, s')
      | _ =>
          match on_blobs (remove_file StandardAtomicFileWriter (blob_name hash)) s' with
          | (Ok _, s'') => (Err failure, s'')
          | (Err error, s'') =>
              (match io_kind error with
               | NotFound => Err failure
               | _ => Err (failure +:+ "; remove partial managed-data blob failed: " +:+ io_message error)
               end, s'')
          | (Panic msg, s'') => (Panic msg, s'')
          end
      end
  | (Panic msg, s') => (Panic msg, s')
  end.

Definition write_blob (hash content : string) : v2_op bool :=
  if negb (is_sha256 hash) then st_fail "managed-data blob hash is invalid"
  else if negb (bool_decide (content_digest content = hash))
  then st_fail "managed-data document content digest mismatch"
  else
    _ ← st_map_err (fun e => "create managed-data blob directory failed: " +:+ io_message e)
          (on_blobs create_dir_all);
    _ ← reject_linked_blob hash;
    present ← blob_is_file hash;
    if (present : bool)
    then
      existing ← read_file hash "read existing managed-data blob failed: ";
      if negb (bool_decide (existing = content))
      then st_fail "managed-data content-addressed blob already exists with different content"
      else mret false
    else create_blob hash content.

(** One removal of [remove_created_blobs]. *)
Definition remove_blob (hash : string) : v2_op unit := fun s =>
  match on_blobs (remove_file StandardAtomicFileWriter (blob_name hash)) s with
  | (Ok _, s') => (Ok tt, s')
  | (Err error, s') =>
      (match io_kind error with
       | NotFound => Ok tt
       | _ => Err ("remove managed-data blob '" +:+ hash +:+ "' after failed commit failed: " +:+ io_message error)
       end, s')
  | (Panic msg, s') => (Panic msg, s')
  end.

Fixpoint remove_created_blobs (hashes : list string) : v2_op unit :=
  match hashes with
  | [] => mret tt
  | hash :: hashes' => _ ← remove_blob hash; remove_created_blobs hashes'
  end.

(** ** Validation of the published state *)

(** [documents.values().try_fold(0u64, checked_add)]. *)
Fixpoint content_sum (total : N) (error : string) (documents : list ManagedDocumentRecord) : outcome string N :=
  match documents with
  | [] => Ok total
  | document :: documents' =>
      if (u64_max <? total + dr_content_length document)%N then Err error
      else content_sum (total + dr_content_length document) error documents'
  end.

Definition blob_length (hash : string) : v2_op N :=
  file ← st_map_err (fun e => "managed-data document blob is missing: " +:+ io_message e)
           (on_blobs (open_read (blob_name hash)));
  mret (N.of_nat (String.length (f_bytes file))).

Definition validate_published_document (declaration : ManagedDocumentCollection) (collection id : string)
    (document : ManagedDocumentRecord) : v2_op unit :=
  if negb (bool_decide (id = dr_id document)) then st_fail "managed-data document key does not match its id"
  else
    _ ← st_lift (validate_id (W := W) id);
    if (dr_revision document =? 0)%N then st_fail "managed-data document has a zero revision"
    else
      _ ← st_lift (validate_document_metadata (dr_metadata document) declaration collection);
      if (mdl_content_bytes (mdd_limits declaration) <? dr_content_length document)%N
         || (V2_MAX_DOCUMENT_BYTES <? dr_content_length document)%N
         || negb (is_sha256 (dr_content_sha256 document))
      then st_fail "managed-data document has invalid content metadata"
      else
        length ← blob_length (dr_content_sha256 document);
        if negb (length =? dr_content_length document)%N
        then st_fail "managed-data document blob length does not match metadata" else mret tt.

Fixpoint validate_published_documents (declaration : ManagedDocumentCollection) (collection : string)
    (documents : list (string * ManagedDocumentRecord)) : v2_op unit :=
  match documents with
  | [] => mret tt
  | (id, document) :: documents' =>
      _ ← validate_published_document declaration collection id document;
      validate_published_documents declaration collection documents'
  end.

(** The loop over the document collections; the result is [content_total]. *)
Fixpoint validate_document_collections contract (content_total : N) (entries : list (string * Documents)) :
    v2_op N :=
  match entries with
  | [] => mret content_total
  | (collection, documents) :: entries' =>
      declaration ← st_lift (ok_or (hm_documents contract !! collection)
        ("managed-data v2 store contains undeclared document collection '" +:+ collection +:+ "'"));
      if (mdl_documents (mdd_limits declaration) <? N.of_nat (size documents))%N
      then st_fail ("managed-data document collection '" +:+ collection +:+ "' exceeds its document limit")
      else
        collection_content ← st_lift (content_sum 0
          ("managed-data document collection '" +:+ collection +:+ "' content quota overflow")
          (btree_values documents));
        if (mdl_content_bytes (mdd_limits declaration) <? collection_content)%N
        then st_fail ("managed-data document collection '" +:+ collection +:+ "' exceeds its content quota")
        else if (u64_max <? content_total + collection_content)%N
        then st_fail "managed-data document content quota overflow"
        else
          _ ← validate_published_documents declaration collection (btree_list documents);
          validate_document_collections contract (content_total + collection_content) entries'
  end.

Definition validate_v2_state state contract : v2_op unit :=
  if negb (env_version state =? V2_STORE_VERSION)%N
  then st_fail ("unsupported managed-data store version " +:+ pretty (env_version state) +:+ "; expected 2")
  else if bool_decide (env_contract_digest state = EmptyString)
  then st_fail "managed-data v2 store contains an empty contract digest"
  else
    _ ← st_lift (validate_document (W := W) (record_document (env_generation state) (env_contract_digest state)
                                               (env_collections state)) contract);
    content_total ← validate_document_collections contract 0 (btree_list (env_documents state));
    if V2_MAX_RECEIPTS <? size (env_receipts state) then st_fail "managed-data receipt quota exceeded"
    else
      bytes ← st_lift (map_err (String.append "serialize managed-data v2 store failed: ")
                         (from_result (env_to_vec_pretty state)));
      let limit := byte_limit contract in
      let length := N.of_nat (String.length bytes) in
      if (limit <? length)%N
      then st_fail ("managed-data v2 store exceeds its " +:+ pretty limit +:+ "-byte limit")
      else if (limit <? content_total)%N || (limit <? saturating_add content_total length)%N
              || (64 * 1024 * 1024 <? content_total)%N
      then st_fail "managed-data v2 content and receipt state exceeds its total quota"
      else mret tt.

(** ** Files of the store *)

Definition reject_v2_links : v2_op unit :=
  _ ← on_managed (reject_linked_path app_dir V2_STORE_FILE "managed data v2");
  _ ← on_managed (reject_linked_path app_dir V2_STAGE_FILE "managed data v2 batch");
  on_managed (reject_linked_path app_dir V2_BLOB_DIR "managed data v2 blob directory").

(** The version 1 contract that a version 2 store without a file is read under. *)
Definition legacy_contract contract : HostManagedDataRef :=
  {| hm_contract_version := 1; hm_collections := hm_collections contract; hm_documents := ∅;
     hm_limits := hm_limits contract; hm_exports := hm_exports contract; hm_proposals := [] |}.

Definition load_v2 contract (digest : string) : v2_op ManagedDataV2Envelope :=
  present ← on_managed (is_file V2_STORE_FILE);
  if (present : bool)
  then
    loaded ← on_managed (on_dir (load_json_document env_from_str (app_path app_dir V2_STORE_FILE) "managed data v2"));
    state ← st_lift (ok_or loaded "managed data v2 disappeared while loading");
    _ ← validate_v2_state state contract;
    mret state
  else
    legacy ← on_managed (ManagedDataStore_load app_dir (legacy_contract contract) digest);
    let state := {| env_version := V2_STORE_VERSION; env_generation := mdoc_generation legacy;
                    env_contract_digest := digest; env_collections := mdoc_collections legacy;
                    env_documents := ∅; env_receipts := ∅ |} in
    _ ← validate_v2_state state contract;
    mret state.

Definition persist_v2_current_atomic contract (digest : string) state :
    st (V2Dir W) AtomicJsonError ManagedDataV2Envelope :=
  let state := {| env_version := V2_STORE_VERSION; env_generation := env_generation state;
                  env_contract_digest := digest; env_collections := env_collections state;
                  env_documents := env_documents state; env_receipts := env_receipts state |} in
  _ ← st_map_err NotCommittedJson (validate_v2_state state contract);
  _ ← on_managed (on_dir (persist_json_document env_to_vec_pretty (app_path app_dir V2_STORE_FILE) state
                            "managed data v2" StandardAtomicFileWriter));
  mret state.

Definition with_generation (generation : N) state : ManagedDataV2Envelope :=
  {| env_version := env_version state; env_generation := generation;
     env_contract_digest := env_contract_digest state; env_collections := env_collections state;
     env_documents := env_documents state; env_receipts := env_receipts state |}.

Definition persist_v2_atomic contract (digest : string) state :
    st (V2Dir W) AtomicJsonError ManagedDataV2Envelope :=
  if (env_generation state <? u64_max)%N
  then persist_v2_current_atomic contract digest (with_generation (env_generation state + 1) state)
  else st_fail (NotCommittedJson "managed-data generation overflow").

Definition persist_v2 contract (digest : string) state : v2_op ManagedDataV2Envelope :=
  st_map_err into_message (persist_v2_atomic contract digest state).

Definition persist_v2_current contract (digest : string) state : v2_op ManagedDataV2Envelope :=
  st_map_err into_message (persist_v2_current_atomic contract digest state).

(** ** The staged batch *)

Definition persist_stage stage : v2_op unit :=
  _ ← st_lift (validate_stage_size stage);
  st_map_err into_message (on_managed (on_dir (persist_json_document stage_to_vec_pretty
    (app_path app_dir V2_STAGE_FILE) stage "managed data v2 batch" StandardAtomicFileWriter))).

Definition load_stage : v2_op (option ManagedDataStage) :=
  present ← on_managed (is_file V2_STAGE_FILE);
  if negb present then mret None
  else
    loaded ← on_managed (on_dir (load_json_document stage_from_str (app_path app_dir V2_STAGE_FILE)
                                   "managed data v2 batch"));
    stage ← st_lift (ok_or loaded "managed data v2 batch disappeared");
    if negb (sg_version stage =? V2_STORE_VERSION)%N
    then st_fail "unsupported managed-data v2 batch version"
    else
      _ ← st_lift (validate_stage_size stage);
      mret (Some stage).

Definition remove_stage : st (V2Dir W) IoError unit := on_managed (on_dir (fs_remove_file V2_STAGE_FILE)).

(** [let _ = std::fs::remove_file(stage_path)]: the result is dropped. *)
Definition try_remove_stage : v2_op unit := fun s => let '(_, s') := remove_stage s in (Ok tt, s').

Definition cleanup_expired_stage : v2_op unit :=
  loaded ← load_stage;
  match loaded with
  | None => mret tt
  | Some stage =>
      now ← on_world epoch_seconds;
      if (sg_expires_at stage <=? now)%N
      then st_map_err (fun e => "remove expired managed-data batch failed: " +:+ io_message e) remove_stage
      else mret tt
  end.

End store.
