(* ===== verification/ManagedV2Requests.v ===== *)
(** * Host-managed app data, contract version 2: requests

    [host/src-tauri/src/managed_data.rs]: [request_v2] and its branches, [commit_stage],
    and the checks of one app's files when the host starts. The calls run under the
    operation lock of the app and are sequential here. *)

From S2P Require Import Prelude RustStd RustText Json JsonOps Types Platform AtomicJson Packages ManagedData ManagedV2 ManagedV2Store.

(** The state of the closure of [commit_stage]. *)
Record Commit (W : Type) := { cm_dir : V2Dir W; cm_new_blobs : list string; cm_persisted : bool }.
Arguments cm_dir {W}. Arguments cm_new_blobs {W}. Arguments cm_persisted {W}.
Arguments Build_Commit {W}.

Section requests.
Context {W : Type} `{Uuids, Libraries, ManagedWorld W, ManagedCodec, V2Codec} (app_dir : string).
Implicit Types (contract : HostManagedDataRef) (state : ManagedDataV2Envelope) (stage : ManagedDataStage).

Abbreviation v2_op := (st (V2Dir W) string).
Abbreviation commit_op := (st (Commit W) string).

Definition mutate {A} (m : st W string A) : v2_op A := on_managed (on_clock m).

(** ** Reads *)

(** The bytes [offset..offset + length] of a document, in Base64. *)
Definition document_chunk contract state (collection id : string) (offset length : N) :
    v2_op (ManagedDocumentRecord * string) :=
  _ ← st_lift (require_document_operation contract collection DocGet);
  _ ← st_lift (validate_id (W := W) id);
  document ← st_lift (ok_or (env_documents state !! collection ≫= (.!! id)) (missing_document id));
  content ← read_blob app_dir document;
  if (u64_max <? offset + length)%N then st_fail "managed-data document chunk range overflow"
  else if (V2_MAX_CHUNK_BYTES <? length)%N || (dr_content_length document <? offset + length)%N
  then st_fail "managed-data document chunk must be at most 393216 bytes and within the document"
  else mret (document, base64_encode (String.substring (N.to_nat offset) (N.to_nat length) content)).

(** The documents after the cursor. *)
Definition documents_after (after : option string) (documents : Documents) : list ManagedDocumentRecord :=
  snd <$> List.filter (fun entry => match after with
                                    | Some cursor => negb (String.leb entry.1 cursor)
                                    | None => true
                                    end) (btree_list documents).

Definition document_page_limit (limit : option N) : nat := N.to_nat (N.min (default 100%N limit) 100).

Definition check_cursor (after : option string) : outcome string unit :=
  match after with Some id => validate_id (W := W) id | None => Ok tt end.

Definition read_snapshot_result contract state (read : ManagedDataV2Read) : v2_op Value :=
  match read with
  | ReadRecordGet collection id =>
      declaration ← st_lift (require_operation contract collection OpGet);
      _ ← st_lift (validate_id (W := W) id);
      let record := env_collections state !! collection ≫= (.!! id) in
      _ ← st_lift (validate_optional_record record declaration);
      mret (VObject [("kind", VString "record-get"); ("record", json_option record_view record)])
  | ReadRecordList collection query =>
      _ ← st_lift (require_operation contract collection OpList);
      result ← st_lift (list_records (W := W)
        (record_document (env_generation state) (env_contract_digest state) (env_collections state))
        contract collection query);
      mret (VObject [("kind", VString "record-list"); ("nextAfter", json_option VString (ml_next_after result));
                     ("records", VArray (record_view <$> ml_records result))])
  | ReadDocumentGet collection id =>
      _ ← st_lift (require_document_operation contract collection DocGet);
      _ ← st_lift (validate_id (W := W) id);
      mret (VObject [("document", json_option document_view (env_documents state !! collection ≫= (.!! id)));
                     ("kind", VString "document-get")])
  | ReadDocumentList collection after limit =>
      _ ← st_lift (require_document_operation contract collection DocList);
      _ ← st_lift (check_cursor after);
      let '(listed, next_after) := page dr_id (document_page_limit limit)
        (documents_after after (default ∅ (env_documents state !! collection))) in
      mret (VObject [("documents", VArray (document_view <$> listed)); ("kind", VString "document-list");
                     ("nextAfter", json_option VString next_after)])
  | ReadDocumentContent collection id offset length =>
      '(document, chunk) ← document_chunk contract state collection id offset length;
      mret (VObject [("contentBase64", VString chunk); ("contentLength", json_number (dr_content_length document));
                     ("document", document_view document); ("kind", VString "document-content");
                     ("offset", json_number offset)])
  end.

Definition v2_list_documents contract state (collection : string) (after : option string) (limit : option N) :
    v2_op Value :=
  _ ← st_lift (require_document_operation contract collection DocList);
  _ ← st_lift (check_cursor after);
  let documents := default ∅ (env_documents state !! collection) in
  let listed := take (document_page_limit limit) (documents_after after documents) in
  let next_after := match last listed with
    | Some document =>
        if existsb (fun candidate => negb (String.leb candidate (dr_id document))) (btree_keys documents)
        then Some (dr_id document) else None
    | None => None
    end in
  mret (VObject [("documents", VArray (document_view <$> listed)); ("generation", json_number (env_generation state));
                 ("nextAfter", json_option VString next_after)]).

(** ** Record mutations *)

Definition new_receipt (digest : string) (result : Value) (generation : N) : v2_op ManagedDataReceipt :=
  now ← on_world now_rfc3339;
  mret {| rc_digest := digest; rc_result := result; rc_generation := generation; rc_recorded_at := now |}.

Definition with_receipt (id : string) (receipt : ManagedDataReceipt) state : ManagedDataV2Envelope :=
  {| env_version := env_version state; env_generation := env_generation state;
     env_contract_digest := env_contract_digest state; env_collections := env_collections state;
     env_documents := env_documents state; env_receipts := <[id := receipt]> (env_receipts state) |}.

Definition with_contents (collections : Collections) (documents : gmap string Documents) state :
    ManagedDataV2Envelope :=
  {| env_version := env_version state; env_generation := env_generation state;
     env_contract_digest := env_contract_digest state; env_collections := collections;
     env_documents := documents; env_receipts := env_receipts state |}.

Definition apply_mutation_v2 document contract (operation : ManagedDataMutation) :
    st W string (Value * ManagedDataDocument) :=
  match operation with
  | MutCreate collection value =>
      '(record, document') ← apply_create document contract collection value;
      mret (record_view record, document')
  | MutReplace collection id expected_revision value =>
      '(record, document') ← apply_replace document contract collection id expected_revision value;
      mret (record_view record, document')
  | MutDelete collection id expected_revision =>
      '(deleted, document') ← apply_delete document contract collection id expected_revision;
      mret (delete_to_value deleted, document')
  end.

(** The mutation of a record request. *)
Definition record_mutation (request : ManagedDataV2Request) : option (string * N * ManagedDataMutation) :=
  match request with
  | V2Create mutation_id expected_generation collection value =>
      Some (mutation_id, expected_generation, MutCreate collection value)
  | V2Replace mutation_id expected_generation collection id expected_revision value =>
      Some (mutation_id, expected_generation, MutReplace collection id expected_revision value)
  | V2Delete mutation_id expected_generation collection id expected_revision =>
      Some (mutation_id, expected_generation, MutDelete collection id expected_revision)
  | _ => None
  end.

Definition execute_v2_record_mutation contract (contract_digest : string) state (request : ManagedDataV2Request)
    (mutation_id : string) (expected_generation : N) (mutation : ManagedDataMutation) : v2_op Value :=
  _ ← st_lift (validate_mutation_id mutation_id);
  digest ← st_lift (request_digest request);
  answered ← st_lift (receipt_result (env_receipts state) mutation_id digest);
  match answered with
  | Some result => mret result
  | None =>
      if negb (env_generation state =? expected_generation)%N
      then st_fail (generation_conflict expected_generation (env_generation state))
      else
        _ ← st_lift (require_operation contract (mutation_operation mutation).1 (mutation_operation mutation).2);
        '(result, document) ← mutate (apply_mutation_v2
            (record_document (env_generation state) contract_digest (env_collections state)) contract mutation);
        let state := with_contents (mdoc_collections document) (env_documents state) state in
        receipt ← new_receipt digest result (saturating_add (env_generation state) 1);
        let state := with_receipt mutation_id receipt state in
        _ ← st_lift (trim_receipts (env_receipts state));
        _ ← persist_v2 app_dir contract contract_digest state;
        mret result
  end.

(** ** Committing a batch *)

Definition in_commit {A} (m : v2_op A) : commit_op A := fun c =>
  let '(r, s) := m (cm_dir c) in
  (r, {| cm_dir := s; cm_new_blobs := cm_new_blobs c; cm_persisted := cm_persisted c |}).

(** [if write_blob(..)? { new_blobs.push(hash) }]. *)
Definition commit_blob (hash content : string) : commit_op unit := fun c =>
  match write_blob app_dir hash content (cm_dir c) with
  | (Ok true, s) =>
      (Ok tt, {| cm_dir := s; cm_new_blobs := cm_new_blobs c ++ [hash]; cm_persisted := cm_persisted c |})
  | (Ok false, s) => (Ok tt, {| cm_dir := s; cm_new_blobs := cm_new_blobs c; cm_persisted := cm_persisted c |})
  | (Err e, s) => (Err e, {| cm_dir := s; cm_new_blobs := cm_new_blobs c; cm_persisted := cm_persisted c |})
  | (Panic msg, s) => (Panic msg, {| cm_dir := s; cm_new_blobs := cm_new_blobs c; cm_persisted := cm_persisted c |})
  end.

Definition document_declaration contract (collection : string) (operation : ManagedDocumentOperation)
    (metadata : JsonObject) : outcome string unit :=
  _ ← require_document_operation contract collection operation;
  declaration ← ok_or (hm_documents contract !! collection) (unknown_documents collection);
  validate_document_metadata metadata declaration collection.

(** One iteration of the loop over the staged documents. *)
Definition commit_document contract (documents : gmap string Documents) (id : string)
    (staged : ManagedDataStageDocument) : commit_op (Value * gmap string Documents) :=
  match sd_operation staged with
  | DopDelete collection _ expected_revision =>
      _ ← st_lift (require_document_operation contract collection DocDelete);
      current ← st_lift (check_current_revision documents collection id expected_revision);
      mret (VObject [("deleted", VBool true); ("id", VString id);
                     ("revision", json_number (wrapping_succ (dr_revision current)))],
            alter (delete id) collection documents)
  | DopCreate _ collection metadata content_length content_sha256 =>
      _ ← st_lift (document_declaration contract collection DocCreate metadata);
      content ← st_lift (staged_content staged content_length content_sha256);
      _ ← commit_blob content_sha256 content;
      now ← in_commit (on_world now_rfc3339);
      let document := {| dr_id := id; dr_revision := 1; dr_created_at := now; dr_updated_at := now;
                         dr_metadata := metadata; dr_content_sha256 := content_sha256;
                         dr_content_length := content_length |} in
      mret (document_view document,
            <[collection := <[id := document]> (default ∅ (documents !! collection))]> documents)
  | DopReplace _ collection _ expected_revision metadata content_length content_sha256 =>
      _ ← st_lift (document_declaration contract collection DocReplace metadata);
      content ← st_lift (staged_content staged content_length content_sha256);
      current ← st_lift (check_current_revision documents collection id expected_revision);
      _ ← commit_blob content_sha256 content;
      revision ← st_lift (checked_succ (dr_revision current) "managed-data document revision overflow");
      now ← in_commit (on_world now_rfc3339);
      let document := {| dr_id := dr_id current; dr_revision := revision; dr_created_at := dr_created_at current;
                         dr_updated_at := now; dr_metadata := metadata; dr_content_sha256 := content_sha256;
                         dr_content_length := content_length |} in
      mret (document_view document, alter (insert id document) collection documents)
  | DopUpdateMetadata collection target expected_revision metadata =>
      _ ← st_lift (document_declaration contract collection DocUpdateMetadata metadata);
      current ← st_lift (check_current_revision documents collection target expected_revision);
      revision ← st_lift (checked_succ (dr_revision current) "managed-data document revision overflow");
      now ← in_commit (on_world now_rfc3339);
      let document := {| dr_id := dr_id current; dr_revision := revision; dr_created_at := dr_created_at current;
                         dr_updated_at := now; dr_metadata := metadata;
                         dr_content_sha256 := dr_content_sha256 current;
                         dr_content_length := dr_content_length current |} in
      mret (document_view document, alter (insert target document) collection documents)
  end.

Fixpoint commit_documents contract (documents : gmap string Documents)
    (staged : list (string * ManagedDataStageDocument)) : commit_op (list Value * gmap string Documents) :=
  match staged with
  | [] => mret ([], documents)
  | (id, document) :: staged' =>
      '(result, documents') ← commit_document contract documents id document;
      '(results, documents'') ← commit_documents contract documents' staged';
      mret (result :: results, documents'')
  end.

(** The loop over the staged record operations. *)
Fixpoint commit_records (document : ManagedDataDocument) contract (operations : list ManagedDataMutation) :
    v2_op (list Value * ManagedDataDocument) :=
  match operations with
  | [] => mret ([], document)
  | operation :: operations' =>
      _ ← st_lift (permit_in_transaction contract operation);
      '(result, document') ← mutate (apply_mutation_v2 document contract operation);
      '(results, document'') ← commit_records document' contract operations';
      mret (result :: results, document'')
  end.

(** [match self.persist_v2_atomic(..)]: note whether the state may have been replaced. *)
Definition commit_state contract (contract_digest : string) state (result : Value) :
    commit_op (Value * ManagedDataV2Envelope) := fun c =>
  match persist_v2_atomic app_dir contract contract_digest state (cm_dir c) with
  | (Ok state', s) => (Ok (result, state'), {| cm_dir := s; cm_new_blobs := cm_new_blobs c; cm_persisted := true |})
  | (Err error, s) =>
      (Err (into_message error),
       {| cm_dir := s; cm_new_blobs := cm_new_blobs c;
          cm_persisted := if is_indeterminate error then true else cm_persisted c |})
  | (Panic msg, s) => (Panic msg, {| cm_dir := s; cm_new_blobs := cm_new_blobs c; cm_persisted := cm_persisted c |})
  end.

(** The closure of [commit_stage]. *)
Definition commit_closure contract (contract_digest request_digest : string) state stage (mutation_id : string) :
    commit_op (Value * ManagedDataV2Envelope) :=
  '(record_results, records) ← in_commit (commit_records
    (record_document (env_generation state) contract_digest (env_collections state)) contract (sg_records stage));
  '(document_results, documents) ← commit_documents contract (env_documents state) (btree_list (sg_documents stage));
  let candidate := with_contents (mdoc_collections records) documents state in
  _ ← in_commit (validate_v2_state candidate contract);
  let generation := wrapping_succ (env_generation candidate) in
  let result := VObject [("documents", VArray document_results); ("generation", json_number generation);
                         ("records", VArray record_results)] in
  receipt ← in_commit (new_receipt request_digest result generation);
  let candidate := with_receipt mutation_id receipt candidate in
  _ ← st_lift (trim_receipts (env_receipts candidate));
  commit_state contract contract_digest candidate result.

(** What [commit_stage] does with the outcome of its closure. *)
Definition finish_commit (closed : outcome string (Value * ManagedDataV2Envelope) * Commit W) :
    outcome string Value * V2Dir W :=
  match closed with
  | (Ok (result, _), c) => (_ ← try_remove_stage; mret result) (cm_dir c)
  | (Err error, c) =>
      if cm_persisted c then (Err error, cm_dir c)
      else
        match remove_created_blobs (cm_new_blobs c) (cm_dir c) with
        | (Ok _, s') => (Err error, s')
        | (Err cleanup, s') => (Err (error +:+ "; " +:+ cleanup), s')
        | (Panic msg, s') => (Panic msg, s')
        end
  | (Panic msg, c) => (Panic msg, cm_dir c)
  end.

Definition close_commit contract (contract_digest request_digest : string) state stage (mutation_id : string) :
    v2_op Value := fun s =>
  finish_commit (commit_closure contract contract_digest request_digest state stage mutation_id
                   {| cm_dir := s; cm_new_blobs := []; cm_persisted := false |}).

Definition commit_stage contract (request_digest : string) state stage (mutation_id : string) : v2_op Value :=
  contract_digest ← st_lift (contract_digest contract);
  close_commit contract contract_digest request_digest state stage mutation_id.

(** ** Building a batch *)

Definition with_stage_receipt (id : string) (receipt : ManagedDataReceipt) stage : ManagedDataStage :=
  {| sg_version := sg_version stage; sg_batch_id := sg_batch_id stage;
     sg_expected_generation := sg_expected_generation stage; sg_contract_digest := sg_contract_digest stage;
     sg_records := sg_records stage; sg_documents := sg_documents stage;
     sg_receipts := <[id := receipt]> (sg_receipts stage); sg_expires_at := sg_expires_at stage |}.

(** The id a document operation is staged under. *)
Definition staged_target (stage_ids : gset string) (operation : ManagedDataV2DocumentOperation) :
    v2_op (string * string * gset string) :=
  match operation with
  | DopCreate stage_id _ _ _ _ | DopReplace stage_id _ _ _ _ _ _ =>
      _ ← st_lift (validate_stage_id stage_id);
      if bool_decide (stage_id ∈ stage_ids)
      then st_fail ("managed-data batch contains duplicate stageId '" +:+ stage_id +:+ "'")
      else
        id ← match operation with
             | DopReplace _ _ id _ _ _ _ => _ ← st_lift (validate_id (W := W) id); mret id
             | _ => on_world fresh_uuid
             end;
        mret (id, stage_id, {[stage_id]} ∪ stage_ids)
  | DopUpdateMetadata _ id _ _ | DopDelete _ id _ =>
      _ ← st_lift (validate_id (W := W) id);
      mret (id, EmptyString, stage_ids)
  end.

(** The loop over the documents of a new batch. *)
Fixpoint stage_documents contract state (stage_ids : gset string) (staged : gmap string ManagedDataStageDocument)
    (documents : list ManagedDataV2DocumentOperation) : v2_op (list Value * gmap string ManagedDataStageDocument) :=
  match documents with
  | [] => mret ([], staged)
  | operation :: documents' =>
      '(id, stage_id, stage_ids') ← staged_target stage_ids operation;
      if bool_decide (is_Some (staged !! id))
      then st_fail ("managed-data batch targets document '" +:+ id +:+ "' more than once")
      else
        _ ← st_lift (validate_document_operation_input contract operation state);
        '(ids, staged') ← stage_documents contract state stage_ids'
          (<[id := {| sd_stage_id := stage_id; sd_operation := operation; sd_chunks := ∅ |}]> staged) documents';
        mret (if bool_decide (stage_id = EmptyString) then ids
              else VObject [("documentId", VString id); ("stageId", VString stage_id)] :: ids, staged')
  end.

Definition begin_batch contract state (mutation_id : string) (expected_generation : N)
    (operations : list ManagedDataMutation) (documents : list ManagedDataV2DocumentOperation) : v2_op Value :=
  digest ← st_lift (request_digest (V2BeginBatch mutation_id expected_generation operations documents));
  _ ← st_lift (validate_mutation_id mutation_id);
  answered ← st_lift (receipt_result (env_receipts state) mutation_id digest);
  match answered with
  | Some result => mret result
  | None =>
      if negb (env_generation state =? expected_generation)%N
      then st_fail (generation_conflict expected_generation (env_generation state))
      else
        existing ← load_stage app_dir;
        match existing with
        | Some existing =>
            answered ← st_lift (receipt_result (sg_receipts existing) mutation_id digest);
            match answered with
            | Some result => mret result
            | None => st_fail "managed-data already has an active batch; commit or abort it first"
            end
        | None =>
            _ ← st_lift (validate_batch_declarations contract operations documents);
            batch_id ← on_world fresh_uuid;
            '(document_ids, staged) ← stage_documents contract state ∅ ∅ documents;
            now ← on_world epoch_seconds;
            let stage := {| sg_version := V2_STORE_VERSION; sg_batch_id := batch_id;
                            sg_expected_generation := expected_generation; sg_contract_digest := digest;
                            sg_records := operations; sg_documents := staged; sg_receipts := ∅;
                            sg_expires_at := saturating_add now V2_STAGE_TTL_SECONDS |} in
            _ ← persist_stage app_dir stage;
            let result := VObject [("batchId", VString batch_id); ("documents", VArray document_ids);
                                   ("generation", json_number (env_generation state))] in
            receipt ← new_receipt digest result (env_generation state);
            _ ← persist_stage app_dir (with_stage_receipt mutation_id receipt stage);
            mret result
        end
  end.

(** The staged batch that a request names, while it is live. *)
Definition live_stage (batch_id : string) : v2_op ManagedDataStage :=
  loaded ← load_stage app_dir;
  stage ← st_lift (ok_or loaded "managed-data batch does not exist");
  if negb (bool_decide (sg_batch_id stage = batch_id))
  then st_fail "managed-data batch is expired or unknown"
  else
    now ← on_world epoch_seconds;
    if (sg_expires_at stage <=? now)%N then st_fail "managed-data batch is expired or unknown"
    else mret stage.

(** [receipts.insert(..)], [trim_receipts], [persist_stage]. *)
Definition record_in_stage state (mutation_id digest : string) (result : Value) stage : v2_op Value :=
  receipt ← new_receipt digest result (env_generation state);
  let stage := with_stage_receipt mutation_id receipt stage in
  _ ← st_lift (trim_receipts (sg_receipts stage));
  _ ← persist_stage app_dir stage;
  mret result.

Definition append_batch_operations contract state (mutation_id batch_id : string)
    (operations : list ManagedDataMutation) : v2_op Value :=
  _ ← st_lift (validate_mutation_id mutation_id);
  if bool_decide (operations = []) || (V2_MAX_BATCH_APPEND_OPERATIONS <? length operations)
  then st_fail "managed-data batch operation appends must contain 1-64 operations"
  else
    stage ← live_stage batch_id;
    digest ← st_lift (request_digest (V2AppendBatchOperations mutation_id batch_id operations));
    answered ← st_lift (receipt_result (sg_receipts stage) mutation_id digest);
    match answered with
    | Some result => mret result
    | None =>
        _ ← st_lift (validate_batch_record_operations contract operations);
        limit ← st_lift (batch_limit contract);
        let staged_operations := length (sg_records stage) + size (sg_documents stage) in
        if (limit <? N.of_nat (staged_operations + length operations))%N then st_fail (batch_too_long limit)
        else
          let stage := {| sg_version := sg_version stage; sg_batch_id := sg_batch_id stage;
                          sg_expected_generation := sg_expected_generation stage;
                          sg_contract_digest := sg_contract_digest stage;
                          sg_records := sg_records stage ++ operations; sg_documents := sg_documents stage;
                          sg_receipts := sg_receipts stage; sg_expires_at := sg_expires_at stage |} in
          let result := VObject [("appended", json_number (N.of_nat (length (sg_records stage) + size (sg_documents stage))));
                                 ("batchId", VString batch_id)] in
          record_in_stage state mutation_id digest result stage
    end.

Definition append_document_chunk state (mutation_id batch_id document_id : string) (chunk_index : N)
    (content_base64 : string) : v2_op Value :=
  _ ← st_lift (validate_mutation_id mutation_id);
  stage ← live_stage batch_id;
  digest ← st_lift (request_digest (V2AppendDocumentChunk mutation_id batch_id document_id chunk_index content_base64));
  answered ← st_lift (receipt_result (sg_receipts stage) mutation_id digest);
  match answered with
  | Some result => mret result
  | None =>
      bytes ← st_lift (ok_or (base64_decode content_base64) "managed-data document chunk is not valid base64");
      if bool_decide (bytes = EmptyString) || (V2_MAX_CHUNK_BYTES <? N.of_nat (String.length bytes))%N
      then st_fail "managed-data document chunks must be 1-393216 bytes"
      else
        document ← st_lift (ok_or (sg_documents stage !! document_id)
                              "managed-data batch does not contain that document");
        if negb (takes_content (sd_operation document))
        then st_fail "managed-data metadata-only and delete operations do not accept content chunks"
        else if bool_decide (is_Some (sd_chunks document !! chunk_index))
        then st_fail "managed-data document chunk index was already written"
        else
          let document := {| sd_stage_id := sd_stage_id document; sd_operation := sd_operation document;
                             sd_chunks := <[chunk_index := base64_encode bytes]> (sd_chunks document) |} in
          let stage := {| sg_version := sg_version stage; sg_batch_id := sg_batch_id stage;
                          sg_expected_generation := sg_expected_generation stage;
                          sg_contract_digest := sg_contract_digest stage; sg_records := sg_records stage;
                          sg_documents := <[document_id := document]> (sg_documents stage);
                          sg_receipts := sg_receipts stage; sg_expires_at := sg_expires_at stage |} in
          _ ← st_lift (validate_stage_size stage);
          let result := VObject [("batchId", VString batch_id); ("chunkIndex", json_number chunk_index);
                                 ("documentId", VString document_id)] in
          record_in_stage state mutation_id digest result stage
  end.

Definition commit_batch contract state (mutation_id batch_id : string) : v2_op Value :=
  _ ← st_lift (validate_mutation_id mutation_id);
  digest ← st_lift (request_digest (V2CommitBatch mutation_id batch_id));
  answered ← st_lift (receipt_result (env_receipts state) mutation_id digest);
  match answered with
  | Some result => mret result
  | None =>
      stage ← live_stage batch_id;
      if negb (env_generation state =? sg_expected_generation stage)%N
      then st_fail (generation_conflict (sg_expected_generation stage) (env_generation state))
      else commit_stage contract digest state stage mutation_id
  end.

Definition abort_batch contract state (mutation_id batch_id : string) : v2_op Value :=
  _ ← st_lift (validate_mutation_id mutation_id);
  digest ← st_lift (request_digest (V2AbortBatch mutation_id batch_id));
  answered ← st_lift (receipt_result (env_receipts state) mutation_id digest);
  match answered with
  | Some result => mret result
  | None =>
      loaded ← load_stage app_dir;
      stage ← st_lift (ok_or loaded "managed-data batch does not exist");
      if negb (bool_decide (sg_batch_id stage = batch_id)) then st_fail "managed-data batch id does not match"
      else
        let result := VObject [("aborted", VBool true); ("batchId", VString batch_id);
                               ("generation", json_number (env_generation state))] in
        receipt ← new_receipt digest result (env_generation state);
        let state := with_receipt mutation_id receipt state in
        contract_digest ← st_lift (contract_digest contract);
        _ ← persist_v2_current app_dir contract contract_digest state;
        _ ← try_remove_stage;
        mret result
  end.

(** ** The request *)

Definition serve_v2 contract (digest : string) state (request : ManagedDataV2Request) : v2_op Value :=
  match request with
  | V2ReadSnapshot expected_generation reads =>
      _ ← st_lift (check_generation (env_generation state) expected_generation);
      if bool_decide (reads = []) || (64 <? length reads) then st_fail "managed-data readSnapshot requires 1-64 reads"
      else
        results ← st_map (read_snapshot_result contract state) reads;
        mret (VObject [("generation", json_number (env_generation state)); ("results", VArray results)])
  | V2Get collection id expected_generation =>
      _ ← st_lift (check_generation (env_generation state) expected_generation);
      declaration ← st_lift (require_operation contract collection OpGet);
      _ ← st_lift (validate_id (W := W) id);
      let record := env_collections state !! collection ≫= (.!! id) in
      _ ← st_lift (validate_optional_record record declaration);
      mret (VObject [("generation", json_number (env_generation state)); ("record", json_option record_view record)])
  | V2List collection query expected_generation =>
      _ ← st_lift (check_generation (env_generation state) expected_generation);
      _ ← st_lift (require_operation contract collection OpList);
      result ← st_lift (list_records (W := W)
        (record_document (env_generation state) digest (env_collections state)) contract collection query);
      mret (VObject [("generation", json_number (env_generation state));
                     ("nextAfter", json_option VString (ml_next_after result));
                     ("records", VArray (record_view <$> ml_records result))])
  | V2GetDocument collection id offset length expected_generation =>
      _ ← st_lift (check_generation (env_generation state) expected_generation);
      '(document, chunk) ← document_chunk contract state collection id offset length;
      mret (VObject [("contentBase64", VString chunk); ("contentLength", json_number (dr_content_length document));
                     ("document", document_view document); ("generation", json_number (env_generation state));
                     ("offset", json_number offset)])
  | V2ListDocuments collection after limit expected_generation =>
      _ ← st_lift (check_generation (env_generation state) expected_generation);
      v2_list_documents contract state collection after limit
  | V2BeginBatch mutation_id expected_generation operations documents =>
      begin_batch contract state mutation_id expected_generation operations documents
  | V2AppendBatchOperations mutation_id batch_id operations =>
      append_batch_operations contract state mutation_id batch_id operations
  | V2AppendDocumentChunk mutation_id batch_id document_id chunk_index content_base64 =>
      append_document_chunk state mutation_id batch_id document_id chunk_index content_base64
  | V2CommitBatch mutation_id batch_id => commit_batch contract state mutation_id batch_id
  | V2AbortBatch mutation_id batch_id => abort_batch contract state mutation_id batch_id
  | V2Create _ _ _ _ | V2Replace _ _ _ _ _ _ | V2Delete _ _ _ _ _ =>
      match record_mutation request with
      | Some (mutation_id, expected_generation, mutation) =>
          execute_v2_record_mutation contract digest state request mutation_id expected_generation mutation
      | None => fun s => (Panic "unreachable", s)
      end
  end.

Definition request_v2 contract (request : ManagedDataV2Request) : v2_op Value :=
  if negb (hm_contract_version contract =? 2)%N
  then st_fail ("managed-data v2 requires contract version 2, found " +:+ pretty (hm_contract_version contract))
  else
    _ ← reject_v2_links app_dir;
    _ ← cleanup_expired_stage app_dir;
    digest ← st_lift (contract_digest contract);
    state ← load_v2 app_dir contract digest;
    serve_v2 contract digest state request.

(** ** The start-up check of one app's files *)

Fixpoint envelope_documents (content_total : N) (documents : list (string * ManagedDocumentRecord)) : v2_op N :=
  match documents with
  | [] => mret content_total
  | (id, document) :: documents' =>
      _ ← st_lift (validate_id (W := W) id);
      if negb (bool_decide (id = dr_id document)) || (dr_revision document =? 0)%N
         || negb (is_sha256 (dr_content_sha256 document))
      then st_fail "managed-data v2 state contains an invalid document record"
      else if negb (bool_decide (dr_metadata document = [])) && (65536 <? N.of_nat (length (dr_metadata document)))%N
      then st_fail "managed-data v2 document metadata is too large"
      else
        _ ← reject_linked_blob app_dir (dr_content_sha256 document);
        size ← blob_length (dr_content_sha256 document);
        if negb (size =? dr_content_length document)%N
        then st_fail "managed-data document blob length does not match state"
        else
          bytes ← read_file (dr_content_sha256 document) "read managed-data document blob failed: ";
          if negb (bool_decide (content_digest bytes = dr_content_sha256 document))
          then st_fail "managed-data document blob failed integrity validation"
          else if (u64_max <? content_total + dr_content_length document)%N
          then st_fail "managed-data v2 content quota overflow"
          else envelope_documents (content_total + dr_content_length document) documents'
  end.

Definition validate_v2_envelope state : v2_op unit :=
  if negb (env_version state =? V2_STORE_VERSION)%N || (env_generation state =? 0)%N
     || bool_decide (env_contract_digest state = EmptyString)
  then st_fail "managed-data v2 state envelope is invalid"
  else if V2_MAX_RECEIPTS <? size (env_receipts state)
  then st_fail "managed-data v2 state contains too many receipts"
  else
    content_total ← envelope_documents 0 (concat (btree_list <$> btree_values (env_documents state)));
    bytes ← st_lift (map_err (String.append "serialize managed-data v2 state failed: ")
                       (from_result (env_to_vec_pretty state)));
    let length := N.of_nat (String.length bytes) in
    if (MAX_DOCUMENT_BYTES <? length)%N || (64 * 1024 * 1024 <? saturating_add content_total length)%N
    then st_fail "managed-data v2 state exceeds the host quota" else mret tt.

(** The body of the loop of [validate_all]. *)
Definition validate_app (app_id : string) : v2_op unit :=
  present ← on_managed (is_file V2_STORE_FILE);
  _ ← (if (present : bool)
       then
         _ ← reject_v2_links app_dir;
         loaded ← on_managed (on_dir (load_json_document env_from_str (app_path app_dir V2_STORE_FILE) "managed data v2"));
         state ← st_lift (ok_or loaded "managed data v2 disappeared while validating");
         validate_v2_envelope state
       else mret tt);
  staged ← on_managed (is_file V2_STAGE_FILE);
  _ ← (if (staged : bool)
       then
         loaded ← load_stage app_dir;
         stage ← st_lift (ok_or loaded "managed data v2 batch disappeared while validating");
         st_lift (validate_stage_size stage)
       else mret tt);
  loaded ← on_managed (load_document app_dir STORE_FILE "managed data");
  match loaded with
  | None =>
      backup ← on_managed (load_document app_dir CONTRACT_BACKUP_FILE "managed data contract backup");
      match backup with
      | Some _ => st_fail ("managed-data backup for app '" +:+ app_id +:+ "' exists without an active store")
      | None => mret tt
      end
  | Some document =>
      _ ← st_lift (validate_envelope (W := W) document);
      backup ← on_managed (load_document app_dir CONTRACT_BACKUP_FILE "managed data contract backup");
      match backup with Some backup => st_lift (validate_envelope (W := W) backup) | None => mret tt end
  end.

(** [validate_contract]. *)
Definition validate_contract contract : v2_op unit :=
  _ ← st_lift (validate_contract_version contract);
  present ← (if (hm_contract_version contract =? 1)%N then on_managed (is_file V2_STORE_FILE) else mret false);
  if (present : bool) then st_fail "managed-data v2 state exists; a v1 contract cannot reuse it"
  else
    digest ← st_lift (contract_digest contract);
    if (hm_contract_version contract =? 2)%N
    then _ ← load_v2 app_dir contract digest; mret tt
    else _ ← on_managed (ManagedDataStore_load app_dir contract digest); mret tt.
End requests.
