(* ===== verification/ManagedV2Facts.v ===== *)
(** * Host-managed app data, contract version 2: what a request publishes

    Staging never touches the published state; a published mutation adds its receipt in the
    same atomic write; receipts are never dropped, so a mutation id takes effect once; a
    batch is published whole or not at all. *)

From S2P Require Import Prelude RustStd RustText Json JsonOps Types Platform AtomicJson Packages ManagedData ManagedDataFacts ManagedV2 ManagedV2Store ManagedV2Requests.

Create HintDb quiet_v2 discriminated.

Section published.
Context {W : Type} `{Uuids, Libraries, ManagedWorld W, ManagedCodec, V2Codec} (app_dir : string).
Implicit Types (contract : HostManagedDataRef) (state : ManagedDataV2Envelope) (stage : ManagedDataStage)
  (s : V2Dir W).

(** The files of the store, and the device of the app's directory. *)
Definition file_v2 (name : string) s : option string := entry name (vd_dir s).
Definition sound_v2 s : Prop := sound (vd_dir s).

(** ** Calls that publish nothing *)

Section quiet.
Context (P : string -> Prop) (P_visible : ∀ name, P name -> visible name = true).

Definition quiet_on {E A} (m : st (V2Dir W) E A) : Prop :=
  (∀ name, P name -> frames (file_v2 name) m) /\ preserves sound_v2 m.

Lemma quiet_bind {E A B} (m : st (V2Dir W) E A) (k : A -> st (V2Dir W) E B) :
  quiet_on m -> (∀ a, quiet_on (k a)) -> quiet_on (m ≫= k).
Proof.
  intros [Hf Hp] Hk. split; [intros name Hn; apply frames_bind|apply preserves_bind]; auto; intros a;
    by apply (Hk a).
Qed.
Lemma quiet_ret {E A} (a : A) : quiet_on (mret a : st (V2Dir W) E A).
Proof. split; [intros; apply frames_ret|apply preserves_ret]. Qed.
Lemma quiet_lift {E A} (m : outcome E A) : quiet_on (st_lift m).
Proof. split; [intros; apply frames_lift|apply preserves_lift]. Qed.
Lemma quiet_fail {E A} (e : E) : quiet_on (st_fail e : st (V2Dir W) E A).
Proof. split; [intros; apply frames_fail|apply preserves_fail]. Qed.
Lemma quiet_frames {E A} (m : st (V2Dir W) E A) : frames vd_dir m -> quiet_on m.
Proof.
  intros Hf. split; [intros name Hn s|intros s Hs]; unfold file_v2, sound_v2; by rewrite Hf.
Qed.
Lemma quiet_map_err {E F A} (f : E -> F) (m : st (V2Dir W) E A) : quiet_on m -> quiet_on (st_map_err f m).
Proof.
  intros [Hf Hp]. split; [intros name Hn s; specialize (Hf name Hn s)|intros s Hs; specialize (Hp s Hs)];
    unfold st_map_err; by destruct (m s).
Qed.
Lemma on_blobs_dir {E A} (m : st FileSystem E A) : frames vd_dir (on_blobs (W := W) m).
Proof. intros s. unfold on_blobs. by destruct (m (vd_blobs s)). Qed.
Lemma quiet_blobs {E A} (m : st FileSystem E A) : quiet_on (on_blobs (W := W) m).
Proof. apply quiet_frames, on_blobs_dir. Qed.
Lemma quiet_mutate {A} (m : st W string A) : quiet_on (mutate m).
Proof.
  split; [intros name Hn s|intros s Hs]; unfold mutate, on_managed, on_clock; by destruct (m (md_world (vd_dir s))).
Qed.
Lemma quiet_world {A} (f : W -> A * W) : quiet_on (on_world f).
Proof. apply (quiet_mutate (in_clock f)). Qed.
Lemma quiet_managed {A} (m : st (ManagedDir W) string A) :
  reads (fun n => visible n = true) m -> quiet_on (on_managed m).
Proof.
  intros [Hf Hp]. split.
  - intros name Hn s. specialize (Hf name (P_visible name Hn) (vd_dir s)). unfold file_v2, on_managed.
    by destruct (m (vd_dir s)).
  - intros s Hs. specialize (Hp (vd_dir s) Hs). unfold sound_v2, on_managed. by destruct (m (vd_dir s)).
Qed.

#[local] Hint Resolve quiet_ret quiet_lift quiet_fail quiet_blobs quiet_world quiet_mutate quiet_managed
  reject_linked_path_reads is_file_reads load_document_reads load_reads : quiet_v2.

Ltac quiet_walk :=
  repeat first
    [ progress eauto with quiet_v2 nocore
    | apply quiet_bind; [|intros ?]
    | apply quiet_map_err
    | match goal with |- quiet_on (match ?x with _ => _ end) => destruct x eqn:? end ].

Lemma reject_v2_links_quiet : quiet_on (reject_v2_links app_dir).
Proof. unfold reject_v2_links. quiet_walk. Qed.

Lemma load_file_quiet {T} (from_str : string -> string + T) name label :
  quiet_on (on_managed (W := W) (on_dir (load_json_document from_str (app_path app_dir name) label))).
Proof.
  apply quiet_managed, on_dir_reads.
  - intros n Hn. by apply load_keeps_other.
  - apply load_json_document_preserves_honest.
Qed.
#[local] Hint Resolve reject_v2_links_quiet load_file_quiet : quiet_v2.

Lemma load_stage_quiet : quiet_on (load_stage app_dir).
Proof. unfold load_stage. quiet_walk. Qed.

#[local] Hint Resolve load_stage_quiet : quiet_v2.


(** Calls on the blobs only. *)
Lemma reject_linked_blob_quiet hash : quiet_on (reject_linked_blob (W := W) app_dir hash).
Proof.
  apply quiet_frames. intros s. pose proof (on_blobs_dir io_step s). unfold reject_linked_blob.
  by destruct (on_blobs io_step s) as [[]].
Qed.

Lemma blob_is_file_quiet hash : quiet_on (blob_is_file (W := W) hash).
Proof.
  apply quiet_frames. intros s. pose proof (on_blobs_dir (open_read (blob_name hash)) s). unfold blob_is_file.
  by destruct (on_blobs (open_read (blob_name hash)) s) as [[]].
Qed.

Lemma remove_blob_quiet hash : quiet_on (remove_blob (W := W) hash).
Proof.
  apply quiet_frames. intros s. unfold remove_blob.
  pose proof (on_blobs_dir (remove_file StandardAtomicFileWriter (blob_name hash)) s).
  by destruct (on_blobs (remove_file StandardAtomicFileWriter (blob_name hash)) s) as [[]].
Qed.

Lemma create_blob_quiet hash content : quiet_on (create_blob (W := W) hash content).
Proof.
  apply quiet_frames. intros s. unfold create_blob.
  pose proof (on_blobs_dir (write_and_sync StandardAtomicFileWriter (blob_name hash) content) s) as Hw.
  destruct (on_blobs _ s) as [[u|e|msg] s1]; simpl in *; [done| |done].
  pose proof (on_blobs_dir (remove_file StandardAtomicFileWriter (blob_name hash)) s1) as Hr.
  destruct (io_kind e); [|done|]; destruct (on_blobs _ s1) as [[] s2]; simpl in *; congruence.
Qed.
#[local] Hint Resolve reject_linked_blob_quiet blob_is_file_quiet remove_blob_quiet create_blob_quiet : quiet_v2.

Lemma read_file_quiet hash what : quiet_on (read_file (W := W) hash what).
Proof. unfold read_file. quiet_walk. Qed.
Lemma blob_length_quiet hash : quiet_on (blob_length (W := W) hash).
Proof. unfold blob_length. quiet_walk. Qed.
#[local] Hint Resolve read_file_quiet blob_length_quiet : quiet_v2.

Lemma read_blob_quiet document : quiet_on (read_blob (W := W) app_dir document).
Proof. unfold read_blob. quiet_walk. Qed.
Lemma write_blob_quiet hash content : quiet_on (write_blob (W := W) app_dir hash content).
Proof. unfold write_blob. quiet_walk. Qed.
Lemma remove_created_blobs_quiet hashes : quiet_on (remove_created_blobs (W := W) hashes).
Proof. induction hashes; simpl; quiet_walk. Qed.

Lemma validate_published_documents_quiet declaration collection documents :
  quiet_on (validate_published_documents (W := W) declaration collection documents).
Proof.
  induction documents as [|[id document] documents IH]; simpl; [quiet_walk|].
  apply quiet_bind; [|by intros]. unfold validate_published_document. quiet_walk.
Qed.
#[local] Hint Resolve read_blob_quiet write_blob_quiet remove_created_blobs_quiet
  validate_published_documents_quiet : quiet_v2.

Lemma validate_document_collections_quiet contract total entries :
  quiet_on (validate_document_collections (W := W) contract total entries).
Proof. revert total. induction entries as [|[c ds] entries IH]; intros total; simpl; quiet_walk. Qed.
#[local] Hint Resolve validate_document_collections_quiet : quiet_v2.

Lemma validate_v2_state_quiet state contract : quiet_on (validate_v2_state (W := W) state contract).
Proof. unfold validate_v2_state. quiet_walk. Qed.
#[local] Hint Resolve validate_v2_state_quiet : quiet_v2.

Lemma load_v2_quiet contract digest : quiet_on (load_v2 app_dir contract digest).
Proof. unfold load_v2. quiet_walk. Qed.
#[local] Hint Resolve load_v2_quiet : quiet_v2.

(** ** Reads *)

Lemma document_chunk_quiet contract state collection id offset length :
  quiet_on (document_chunk (W := W) app_dir contract state collection id offset length).
Proof. unfold document_chunk. quiet_walk. Qed.
#[local] Hint Resolve document_chunk_quiet : quiet_v2.

Lemma read_snapshot_result_quiet contract state read :
  quiet_on (read_snapshot_result (W := W) app_dir contract state read).
Proof. unfold read_snapshot_result. quiet_walk. Qed.

Lemma st_map_quiet {A B} (f : A -> st (V2Dir W) string B) l :
  (∀ x, quiet_on (f x)) -> quiet_on (st_map f l).
Proof. intros Hf. induction l; simpl; quiet_walk. Qed.

Lemma new_receipt_quiet digest result generation : quiet_on (new_receipt (W := W) digest result generation).
Proof. unfold new_receipt. quiet_walk. Qed.

Lemma staged_target_quiet stage_ids operation : quiet_on (staged_target (W := W) stage_ids operation).
Proof. unfold staged_target. quiet_walk. Qed.
#[local] Hint Resolve read_snapshot_result_quiet new_receipt_quiet staged_target_quiet : quiet_v2.

Lemma stage_documents_quiet contract state stage_ids staged documents :
  quiet_on (stage_documents (W := W) contract state stage_ids staged documents).
Proof. revert stage_ids staged. induction documents; intros; simpl; quiet_walk. Qed.

Lemma live_stage_quiet batch_id : quiet_on (live_stage app_dir batch_id).
Proof. unfold live_stage. quiet_walk. Qed.
#[local] Hint Resolve stage_documents_quiet live_stage_quiet : quiet_v2.

(** ** Staging *)

Context (P_stage : ∀ name, P name -> name <> V2_STAGE_FILE).

Lemma remove_stage_quiet : quiet_on (remove_stage (W := W)).
Proof.
  unfold remove_stage, on_managed, on_dir. split.
  - intros name Hn s. unfold file_v2, entry, contents. simpl.
    pose proof (fs_remove_file_keeps name (fs_dir (md_fs (vd_dir s)) !! name) (fun _ => True) I V2_STAGE_FILE
      (not_eq_sym (P_stage name Hn)) (md_fs (vd_dir s)) (conj eq_refl (fun _ _ => I))) as [Hk _].
    destruct (fs_remove_file V2_STAGE_FILE (md_fs (vd_dir s))). simpl in *. by rewrite Hk.
  - intros s Hs. pose proof (fs_remove_file_honest V2_STAGE_FILE (md_fs (vd_dir s)) Hs) as Hh.
    unfold sound_v2, sound. by destruct (fs_remove_file V2_STAGE_FILE (md_fs (vd_dir s))).
Qed.

Lemma try_remove_stage_quiet : quiet_on (try_remove_stage (W := W)).
Proof.
  destruct remove_stage_quiet as [Hf Hp].
  split; [intros name Hn s; specialize (Hf name Hn s)|intros s Hs; specialize (Hp s Hs)];
    unfold try_remove_stage; by destruct (remove_stage s).
Qed.
#[local] Hint Resolve remove_stage_quiet : quiet_v2.

Lemma cleanup_expired_stage_quiet : quiet_on (cleanup_expired_stage app_dir).
Proof. unfold cleanup_expired_stage. quiet_walk. Qed.

Lemma persist_stage_quiet stage : quiet_on (persist_stage (W := W) app_dir stage).
Proof.
  unfold persist_stage. apply quiet_bind; [apply quiet_lift|intros _]. apply quiet_map_err.
  unfold on_managed, on_dir. split.
  - intros name Hn s. unfold file_v2, entry, contents. simpl.
    pose proof (persist_keeps_other stage_to_vec_pretty (app_path app_dir V2_STAGE_FILE) stage "managed data v2 batch"
      name (P_visible name Hn) (P_stage name Hn) (md_fs (vd_dir s))) as Hk.
    destruct (persist_json_document _ _ _ _ _ (md_fs (vd_dir s))). simpl in *. by rewrite Hk.
  - intros s Hs. pose proof (persist_honest stage_to_vec_pretty (app_path app_dir V2_STAGE_FILE) stage
      "managed data v2 batch" (md_fs (vd_dir s)) Hs) as Hh.
    unfold sound_v2, sound. by destruct (persist_json_document _ _ _ _ _ (md_fs (vd_dir s))).
Qed.
#[local] Hint Resolve try_remove_stage_quiet cleanup_expired_stage_quiet persist_stage_quiet : quiet_v2.

Lemma record_in_stage_quiet state mutation_id digest result stage :
  quiet_on (record_in_stage (W := W) app_dir state mutation_id digest result stage).
Proof. unfold record_in_stage. quiet_walk. Qed.
#[local] Hint Resolve record_in_stage_quiet : quiet_v2.

Lemma begin_batch_quiet contract state mutation_id generation operations documents :
  quiet_on (begin_batch (W := W) app_dir contract state mutation_id generation operations documents).
Proof. unfold begin_batch. quiet_walk. Qed.
Lemma append_batch_operations_quiet contract state mutation_id batch_id operations :
  quiet_on (append_batch_operations (W := W) app_dir contract state mutation_id batch_id operations).
Proof. unfold append_batch_operations. quiet_walk. Qed.
Lemma append_document_chunk_quiet state mutation_id batch_id document_id index content :
  quiet_on (append_document_chunk (W := W) app_dir state mutation_id batch_id document_id index content).
Proof. unfold append_document_chunk. quiet_walk. Qed.

End quiet.

(** The bytes of the published state. *)
Definition published s : option string := file_v2 V2_STORE_FILE s.
Abbreviation unpublishing := (quiet_on (fun name => name = V2_STORE_FILE)).

Lemma store_visible name : name = V2_STORE_FILE -> visible name = true.
Proof. by intros ->. Qed.
Lemma store_not_stage name : name = V2_STORE_FILE -> name <> V2_STAGE_FILE.
Proof. by intros ->. Qed.
#[local] Hint Resolve store_visible store_not_stage : quiet_v2.

(** Run a call that publishes nothing. *)
Lemma unpublishing_run {E A B} (m : st (V2Dir W) E A) (k : A -> st (V2Dir W) E B) s r s' :
  unpublishing m -> (m ≫= k) s = (r, s') ->
  (∃ a s1, m s = (Ok a, s1) /\ k a s1 = (r, s') /\ published s1 = published s /\ (sound_v2 s -> sound_v2 s1)) \/
  (published s' = published s /\ (sound_v2 s -> sound_v2 s') /\ ∀ b, r <> Ok b).
Proof.
  intros [Hf Hp] Hrun. rewrite st_bind_run in Hrun. specialize (Hf V2_STORE_FILE eq_refl s). specialize (Hp s).
  destruct (m s) as [[a|e|msg] s1]; simpl in *; [left; eauto 10|right; by simplify_eq..].
Qed.

(** ** Publishing *)

Definition normalized (digest : string) state : ManagedDataV2Envelope :=
  {| env_version := V2_STORE_VERSION; env_generation := env_generation state;
     env_contract_digest := digest; env_collections := env_collections state;
     env_documents := env_documents state; env_receipts := env_receipts state |}.

(** The write took effect, or the published state is the old one and the call failed. *)
Definition write_result {E A} (new : ManagedDataV2Envelope) (r : outcome E A) s s' : Prop :=
  (∃ bytes, env_to_vec_pretty new = inr bytes /\ published s' = Some bytes) \/
  (published s' = published s /\ ∀ a, r <> Ok a).

Lemma persist_v2_current_atomic_cases contract digest state s r s' :
  persist_v2_current_atomic app_dir contract digest state s = (r, s') ->
  (sound_v2 s -> sound_v2 s') /\ write_result (normalized digest state) r s s' /\
  (∀ e, r = Err e -> is_indeterminate e = false -> published s' = published s).
Proof.
  unfold persist_v2_current_atomic. fold (normalized digest state). intros Hrun.
  apply unpublishing_run in Hrun as [([] & s1 & _ & Hrun & Hf & Hp)|(Hf & Hp & Hno)];
    [|split_and!; [done|by right|done]|eauto 10 using quiet_map_err, validate_v2_state_quiet with quiet_v2].
  rewrite st_bind_run in Hrun. unfold on_managed, on_dir in Hrun.
  destruct (persist_json_document _ _ _ _ _ (md_fs (vd_dir s1))) as [o fs'] eqn:Hw.
  pose proof (persist_honest env_to_vec_pretty (app_path app_dir V2_STORE_FILE) (normalized digest state)
    "managed data v2" (md_fs (vd_dir s1))) as Hh. rewrite Hw in Hh. simpl in Hh.
  apply persist_json_document_contents in Hw.
  match type of Hrun with context [Build_V2Dir ?d ?b ?l] => set (s2 := Build_V2Dir d b l) in * end.
  assert (s' = s2) as -> by (destruct o; unfold mret, st_ret in Hrun; congruence).
  split; [intros Hs; by apply Hh, Hp|].
  destruct Hw as [(bytes & Hser & Hbytes & Ho)|(e & -> & Hi & Hsame)].
  - split; [left; exists bytes; by split|]. intros e ->.
    destruct Ho as [->|(e' & -> & Hind)]; [done|]. simplify_eq/=. congruence.
  - assert (published s2 = published s) as Hs2 by (rewrite <- Hf; exact Hsame). injection Hrun as <-.
    split; [by right|done].
Qed.

Lemma persist_v2_atomic_cases contract digest state s r s' :
  persist_v2_atomic app_dir contract digest state s = (r, s') ->
  (sound_v2 s -> sound_v2 s') /\
  write_result (normalized digest (with_generation (env_generation state + 1) state)) r s s' /\
  (∀ e, r = Err e -> is_indeterminate e = false -> published s' = published s).
Proof.
  unfold persist_v2_atomic. destruct (_ <? _)%N; [apply persist_v2_current_atomic_cases|].
  intros [= <- <-]. split_and!; [done|by right|done].
Qed.

Lemma write_result_map {E F A} (f : E -> F) new (m : st (V2Dir W) E A) s r s' :
  st_map_err f m s = (r, s') ->
  (∀ o, m s = (o, s') -> (sound_v2 s -> sound_v2 s') /\ write_result new o s s') ->
  (sound_v2 s -> sound_v2 s') /\ write_result new r s s'.
Proof.
  unfold st_map_err. destruct (m s) as [o s1] eqn:Hm. intros [= <- <-] Hc.
  destruct (Hc o eq_refl) as [Hs [Hw|[Hsame Hno]]]; split; try done; [by left|]. right. split; [done|].
  intros a Ha. destruct o; simplify_eq/=. by apply (Hno a).
Qed.

Lemma persist_v2_cases contract digest state s r s' :
  persist_v2 app_dir contract digest state s = (r, s') ->
  (sound_v2 s -> sound_v2 s') /\
  write_result (normalized digest (with_generation (env_generation state + 1) state)) r s s'.
Proof.
  intros Hrun. eapply write_result_map; [exact Hrun|]. intros o Ho.
  by apply persist_v2_atomic_cases in Ho as (? & ? & _).
Qed.

Lemma persist_v2_current_cases contract digest state s r s' :
  persist_v2_current app_dir contract digest state s = (r, s') ->
  (sound_v2 s -> sound_v2 s') /\ write_result (normalized digest state) r s s'.
Proof.
  intros Hrun. eapply write_result_map; [exact Hrun|]. intros o Ho.
  by apply persist_v2_current_atomic_cases in Ho as (? & ? & _).
Qed.

(** ** The abstract store *)

(** What a staged operation does to the document collections. *)
Inductive document_effect (id : string) : ManagedDataV2DocumentOperation -> gmap string Documents ->
    gmap string Documents -> Prop :=
  | document_created stage_id collection metadata content_length content_sha256 now documents :
      document_effect id (DopCreate stage_id collection metadata content_length content_sha256) documents
        (<[collection := <[id := {| dr_id := id; dr_revision := 1; dr_created_at := now; dr_updated_at := now;
             dr_metadata := metadata; dr_content_sha256 := content_sha256; dr_content_length := content_length |}]>
           (default ∅ (documents !! collection))]> documents)
  | document_replaced stage_id collection target metadata content_length content_sha256 now
      (documents : gmap string Documents) held current :
      documents !! collection = Some held -> held !! id = Some current ->
      document_effect id (DopReplace stage_id collection target (dr_revision current) metadata content_length
                            content_sha256) documents
        (<[collection := <[id := {| dr_id := dr_id current; dr_revision := dr_revision current + 1;
             dr_created_at := dr_created_at current; dr_updated_at := now; dr_metadata := metadata;
             dr_content_sha256 := content_sha256; dr_content_length := content_length |}]> held]> documents)
  | document_updated collection target metadata now (documents : gmap string Documents) held current :
      documents !! collection = Some held -> held !! target = Some current ->
      document_effect id (DopUpdateMetadata collection target (dr_revision current) metadata) documents
        (<[collection := <[target := {| dr_id := dr_id current; dr_revision := dr_revision current + 1;
             dr_created_at := dr_created_at current; dr_updated_at := now; dr_metadata := metadata;
             dr_content_sha256 := dr_content_sha256 current;
             dr_content_length := dr_content_length current |}]> held]> documents)
  | document_deleted collection target (documents : gmap string Documents) held current :
      documents !! collection = Some held -> held !! id = Some current ->
      document_effect id (DopDelete collection target (dr_revision current)) documents
        (<[collection := delete id held]> documents).

Inductive documents_effect : list (string * ManagedDataStageDocument) -> gmap string Documents ->
    gmap string Documents -> Prop :=
  | documents_done documents : documents_effect [] documents documents
  | documents_step id staged rest d1 d2 d3 :
      document_effect id (sd_operation staged) d1 d2 -> documents_effect rest d2 d3 ->
      documents_effect ((id, staged) :: rest) d1 d3.

Definition records_effect (operations : list ManagedDataMutation) (c c' : Collections) : Prop :=
  ∃ results, mutations_effect operations results c c'.

(** The requests that publish, and the id their receipt is filed under. *)
Definition published_mutation (request : ManagedDataV2Request) : option string :=
  match request with
  | V2Create mutation_id _ _ _ | V2Replace mutation_id _ _ _ _ _ | V2Delete mutation_id _ _ _ _
  | V2CommitBatch mutation_id _ | V2AbortBatch mutation_id _ => Some mutation_id
  | _ => None
  end.

(** The change a request makes to the published state, apart from its receipt. *)
Definition publishes (request : ManagedDataV2Request) (batch : option ManagedDataStage) state state' : Prop :=
  match request with
  | V2CommitBatch _ batch_id =>
      ∃ staged, batch = Some staged /\ sg_batch_id staged = batch_id /\
        env_generation state = sg_expected_generation staged /\
        env_generation state' = (env_generation state + 1)%N /\
        records_effect (sg_records staged) (env_collections state) (env_collections state') /\
        documents_effect (btree_list (sg_documents staged)) (env_documents state) (env_documents state')
  | V2AbortBatch _ _ =>
      env_generation state' = env_generation state /\ env_collections state' = env_collections state /\
      env_documents state' = env_documents state
  | _ =>
      ∃ mutation_id mutation, record_mutation request = Some (mutation_id, env_generation state, mutation) /\
        env_generation state' = (env_generation state + 1)%N /\
        records_effect [mutation] (env_collections state) (env_collections state') /\
        env_documents state' = env_documents state
  end.

(** What a request did, given the state it loaded. *)
Definition v2_effect (request : ManagedDataV2Request) (staged : option string) state (r : outcome string Value)
    s s' : Prop :=
  (published s' = published s /\
   ∀ v id digest, r = Ok v -> published_mutation request = Some id -> request_digest request = Ok digest ->
     ∃ receipt, env_receipts state !! id = Some receipt /\ rc_digest receipt = digest /\ rc_result receipt = v) \/
  ∃ id receipt (batch : option ManagedDataStage) state' bytes,
    published_mutation request = Some id /\ env_receipts state !! id = None /\
    env_receipts state' = <[id := receipt]> (env_receipts state) /\
    request_digest request = Ok (rc_digest receipt) /\ (∀ v, r = Ok v -> v = rc_result receipt) /\
    publishes request batch state state' /\
    (∀ found, batch = Some found -> ∃ raw, staged = Some raw /\ stage_from_str raw = inr found) /\
    env_to_vec_pretty state' = inr bytes /\ published s' = Some bytes.

(** ** Record mutations *)

Lemma apply_mutation_v2_Ok document contract mutation (w : W) result document' w' :
  apply_mutation_v2 document contract mutation w = (Ok (result, document'), w') ->
  same_envelope document document' /\
  records_effect [mutation] (mdoc_collections document) (mdoc_collections document').
Proof.
  intros Hrun. unfold records_effect.
  destruct mutation; simpl in Hrun; inv_ok Hrun;
    repeat match goal with
    | H : apply_create _ _ _ _ _ = _ |- _ => apply apply_create_Ok in H as [??]
    | H : apply_replace _ _ _ _ _ _ _ = _ |- _ => apply apply_replace_Ok in H as [??]
    | H : apply_delete _ _ _ _ _ _ = _ |- _ => apply apply_delete_Ok in H as [??]
    end; (split; [done|]); eexists; econstructor; [eassumption|constructor|eassumption|constructor|eassumption|constructor].
Qed.

Lemma receipt_result_cases receipts id digest answered :
  receipt_result receipts id digest = Ok answered ->
  match answered with
  | None => receipts !! id = None
  | Some v => ∃ receipt, receipts !! id = Some receipt /\ rc_digest receipt = digest /\ rc_result receipt = v
  end.
Proof.
  unfold receipt_result. destruct (receipts !! id) as [receipt|]; [|by intros [= <-]].
  case_bool_decide; simpl; [intros [= <-]; eauto|done].
Qed.

Lemma new_receipt_Ok digest result generation s receipt s' :
  new_receipt (W := W) digest result generation s = (Ok receipt, s') ->
  rc_digest receipt = digest /\ rc_result receipt = result.
Proof. unfold new_receipt. intros Hrun. inv_ok Hrun. done. Qed.

(** ** One step of a request *)

Definition v2_step (request : ManagedDataV2Request) (staged : option string) state r s s' : Prop :=
  (sound_v2 s -> sound_v2 s') /\ v2_effect request staged state r s s'.

Lemma quiet_step {A} request staged state (m : st (V2Dir W) string A) (k : A -> st (V2Dir W) string Value) s r s' :
  unpublishing m -> (m ≫= k) s = (r, s') ->
  (∀ a s1, m s = (Ok a, s1) -> k a s1 = (r, s') -> v2_step request staged state r s1 s') ->
  v2_step request staged state r s s'.
Proof.
  intros Hm Hrun Hk. apply unpublishing_run in Hrun as [(a & s1 & Ha & Hrun & Hf & Hp)|(Hf & Hp & Hno)]; [| |done].
  - destruct (Hk a s1 Ha Hrun) as [Hs Heff]. split; [auto|]. unfold v2_effect in *. by rewrite Hf in Heff.
  - split; [done|]. left. split; [done|]. intros v id digest ->. by destruct (Hno v).
Qed.

Lemma quiet_end request staged state (m : st (V2Dir W) string Value) s r s' :
  unpublishing m -> published_mutation request = None -> m s = (r, s') -> v2_step request staged state r s s'.
Proof.
  intros [Hf Hp] Hnone Hrun. specialize (Hf V2_STORE_FILE eq_refl s). specialize (Hp s). rewrite Hrun in Hf, Hp.
  split; [done|]. left. split; [done|]. congruence.
Qed.

Lemma fail_step request staged state e s r s' :
  st_fail e s = (r, s') -> v2_step request staged state r s s'.
Proof. intros [= <- <-]. split; [done|]. by left. Qed.

(** Answering from a receipt of the published state. *)
Lemma answered_step request staged state id digest v s r s' :
  published_mutation request = Some id -> request_digest request = Ok digest ->
  (∃ receipt, env_receipts state !! id = Some receipt /\ rc_digest receipt = digest /\ rc_result receipt = v) ->
  (mret v : st (V2Dir W) string Value) s = (r, s') -> v2_step request staged state r s s'.
Proof.
  intros Hid Hd Hr [= <- <-]. split; [done|]. left. split; [done|].
  intros v' id' digest' [= <-] Hid' Hd'. rewrite Hid in Hid'. rewrite Hd in Hd'. by simplify_eq.
Qed.

(** The state that a request writes. *)
Lemma published_write_step {A} request staged state id receipt batch state' (r : outcome string A) (r' : outcome string Value) s s' :
  published_mutation request = Some id -> env_receipts state !! id = None ->
  env_receipts state' = <[id := receipt]> (env_receipts state) ->
  request_digest request = Ok (rc_digest receipt) -> (∀ v, r' = Ok v -> v = rc_result receipt /\ ∃ a, r = Ok a) ->
  publishes request batch state state' ->
  (∀ found, batch = Some found -> ∃ raw, staged = Some raw /\ stage_from_str raw = inr found) ->
  write_result state' r s s' -> v2_effect request staged state r' s s'.
Proof.
  intros Hid Hnone Hrec Hd Hans Hpub Hst [(bytes & Hser & Hfile)|[Hsame Hno]].
  - right. exists id, receipt, batch, state', bytes. split_and!; try done. intros v Hv. by destruct (Hans v Hv).
  - left. split; [done|]. intros v id' digest -> Hid' Hd'. destruct (Hans v eq_refl) as [_ [a ->]]. by destruct (Hno a).
Qed.

Lemma record_mutation_id request mutation_id generation mutation :
  record_mutation request = Some (mutation_id, generation, mutation) ->
  published_mutation request = Some mutation_id /\
  ∀ batch state state', publishes request batch state state' <->
    ∃ mutation_id mutation, record_mutation request = Some (mutation_id, env_generation state, mutation) /\
      env_generation state' = (env_generation state + 1)%N /\
      records_effect [mutation] (env_collections state) (env_collections state') /\
      env_documents state' = env_documents state.
Proof. by destruct request; intros [= <- <- <-]. Qed.

#[local] Hint Resolve quiet_lift quiet_mutate quiet_world new_receipt_quiet live_stage_quiet load_stage_quiet : quiet_v2.

(** Run the next call, which publishes nothing. *)
Ltac quiet_as Hrun lem := eapply quiet_step; [apply lem|exact Hrun|]; clear Hrun.

Lemma execute_v2_record_mutation_step contract digest state request mutation_id generation mutation staged s r s' :
  record_mutation request = Some (mutation_id, generation, mutation) ->
  execute_v2_record_mutation app_dir contract digest state request mutation_id generation mutation s = (r, s') ->
  v2_step request staged state r s s'.
Proof.
  intros Hm. destruct (record_mutation_id _ _ _ _ Hm) as [Hid Hpub].
  unfold execute_v2_record_mutation. intros Hrun.
  quiet_as Hrun quiet_lift. intros [] s1 _ Hrun.
  quiet_as Hrun quiet_lift. intros d s2 [Hd _]%st_lift_inv Hrun.
  quiet_as Hrun quiet_lift. intros answered s3 [Ha%receipt_result_cases _]%st_lift_inv Hrun.
  destruct answered as [v|]; [by eapply answered_step|].
  destruct (N.eqb_spec (env_generation state) generation) as [<-|Hne]; simpl in Hrun; [|by eapply fail_step].
  quiet_as Hrun quiet_lift. intros declaration s4 _ Hrun.
  quiet_as Hrun quiet_mutate. intros [result document] s5 Happ Hrun.
  quiet_as Hrun new_receipt_quiet. intros receipt s6 [Hrd Hrv]%new_receipt_Ok Hrun.
  quiet_as Hrun quiet_lift. intros [] s7 _ Hrun.
  rewrite st_bind_run in Hrun.
  destruct (persist_v2 _ _ _ _ s7) as [o s8] eqn:Hp. apply persist_v2_cases in Hp as [Hs Hw].
  assert (s' = s8 /\ ∀ v, r = Ok v -> v = result /\ ∃ a, o = Ok a) as [-> Hans].
  { unfold mret, st_ret in Hrun. destruct o; simplify_eq; split; try done. intros v [= <-]. eauto. }
  split; [done|].
  refine (published_write_step request staged state mutation_id receipt None _ o r _ _ Hid Ha _ _ _ _ _ Hw);
    [done|congruence| | |done].
  - intros v Hv. destruct (Hans v Hv). split; [congruence|done].
  - apply Hpub. exists mutation_id, mutation.
    unfold mutate, on_managed, on_clock in Happ. destruct (apply_mutation_v2 _ _ _ _) as [o' w'] eqn:Hap.
    simplify_eq/=. apply apply_mutation_v2_Ok in Hap as [_ Heff]. split_and!; done.
Qed.

Lemma abort_batch_step contract state mutation_id batch_id staged s r s' :
  abort_batch app_dir contract state mutation_id batch_id s = (r, s') ->
  v2_step (V2AbortBatch mutation_id batch_id) staged state r s s'.
Proof.
  unfold abort_batch. intros Hrun.
  quiet_as Hrun quiet_lift. intros [] s1 _ Hrun.
  quiet_as Hrun quiet_lift. intros d s2 [Hd _]%st_lift_inv Hrun.
  quiet_as Hrun quiet_lift. intros answered s3 [Ha%receipt_result_cases _]%st_lift_inv Hrun.
  destruct answered as [v|]; [by eapply answered_step|].
  quiet_as Hrun load_stage_quiet; [auto with quiet_v2|]. intros loaded s4 _ Hrun.
  quiet_as Hrun quiet_lift. intros stage s5 _ Hrun.
  cbv beta in Hrun. destruct (negb _); [by eapply fail_step|].
  quiet_as Hrun new_receipt_quiet. intros receipt s6 [Hrd Hrv]%new_receipt_Ok Hrun.
  quiet_as Hrun quiet_lift. intros digest s7 _ Hrun.
  cbv beta in Hrun. rewrite st_bind_run in Hrun.
  destruct (persist_v2_current _ _ _ _ s7) as [o s8] eqn:Hp. apply persist_v2_current_cases in Hp as [Hs Hw].
  assert (published s' = published s8 /\ (sound_v2 s8 -> sound_v2 s') /\
          ∀ v, r = Ok v -> v = rc_result receipt /\ ∃ a, o = Ok a) as (Hpub & Hs' & Hans).
  { destruct o as [a|e|msg]; [|by simplify_eq..]. rewrite st_bind_run in Hrun.
    destruct (try_remove_stage_quiet (fun name => name = V2_STORE_FILE) store_not_stage) as [Hf Hq].
    specialize (Hf V2_STORE_FILE eq_refl s8). specialize (Hq s8).
    unfold try_remove_stage in *. destruct (remove_stage s8) as [o' s9]. injection Hrun as <- <-.
    split_and!; [done|done|]. intros v [= <-]. by eauto. }
  split; [auto|].
  cut (v2_effect (V2AbortBatch mutation_id batch_id) staged state r s7 s8);
    [unfold v2_effect; by rewrite Hpub|].
  refine (published_write_step (V2AbortBatch mutation_id batch_id) staged state mutation_id receipt None _ o r s7 s8
            eq_refl Ha _ _ _ _ _ Hw); [done|congruence|done|by split_and!|done].
Qed.

(** ** Batches *)

(** The closure of [commit_stage] publishes nothing before its last call. *)
Definition unpublishing_commit {A} (m : st (Commit W) string A) : Prop :=
  ∀ c, published (cm_dir (m c).2) = published (cm_dir c) /\
       (sound_v2 (cm_dir c) -> sound_v2 (cm_dir (m c).2)) /\ cm_persisted (m c).2 = cm_persisted c.

Lemma commit_bind {A B} (m : st (Commit W) string A) (k : A -> st (Commit W) string B) :
  unpublishing_commit m -> (∀ a, unpublishing_commit (k a)) -> unpublishing_commit (m ≫= k).
Proof.
  intros Hm Hk c. rewrite st_bind_run. destruct (Hm c) as (Hf & Hs & Hp).
  destruct (m c) as [[a|e|msg] c1]; simpl in *; [|done..].
  destruct (Hk a c1) as (Hf1 & Hs1 & Hp1). split_and!; [congruence|auto|congruence].
Qed.

Lemma commit_pure {A} (m : outcome string A) : unpublishing_commit (st_lift m).
Proof. done. Qed.
Lemma commit_ret {A} (a : A) : unpublishing_commit (mret a).
Proof. done. Qed.

Lemma in_commit_unpublishing {A} (m : st (V2Dir W) string A) : unpublishing m -> unpublishing_commit (in_commit m).
Proof.
  intros [Hf Hp] c. specialize (Hf V2_STORE_FILE eq_refl (cm_dir c)). specialize (Hp (cm_dir c)).
  unfold in_commit. by destruct (m (cm_dir c)).
Qed.

Lemma commit_blob_unpublishing hash content : unpublishing_commit (commit_blob app_dir hash content).
Proof.
  intros c. destruct (write_blob_quiet (fun name => name = V2_STORE_FILE) hash content) as [Hf Hp].
  specialize (Hf V2_STORE_FILE eq_refl (cm_dir c)). specialize (Hp (cm_dir c)).
  unfold commit_blob. by destruct (write_blob app_dir hash content (cm_dir c)) as [[[]|e|msg] s1].
Qed.

Lemma commit_document_unpublishing contract documents id staged :
  unpublishing_commit (commit_document app_dir contract documents id staged).
Proof.
  unfold commit_document. destruct (sd_operation staged);
    repeat (apply commit_bind; [first [apply commit_pure|apply commit_blob_unpublishing
      |apply in_commit_unpublishing, quiet_world]|intros ?]); apply commit_ret.
Qed.

Lemma commit_documents_unpublishing contract documents staged :
  unpublishing_commit (commit_documents app_dir contract documents staged).
Proof.
  revert documents. induction staged as [|[id document] staged IH]; intros documents; simpl; [apply commit_ret|].
  apply commit_bind; [apply commit_document_unpublishing|intros [result documents']].
  apply commit_bind; [apply IH|intros [results documents'']]. apply commit_ret.
Qed.

Lemma commit_records_unpublishing document contract operations :
  unpublishing (commit_records (W := W) document contract operations).
Proof.
  revert document. induction operations as [|operation operations IH]; intros document; simpl; [apply quiet_ret|].
  apply quiet_bind; [apply quiet_lift|intros []]. apply quiet_bind; [apply quiet_mutate|intros [result document']].
  apply quiet_bind; [apply IH|intros [results document'']]. apply quiet_ret.
Qed.

(** ** What a committed batch contains *)

Lemma check_current_revision_Ok documents collection id expected current :
  check_current_revision documents collection id expected = Ok current ->
  expected = dr_revision current /\
  ∃ held, documents !! collection = Some held /\ held !! id = Some current.
Proof.
  unfold check_current_revision. destruct (documents !! collection) as [held|]; simpl; [|done].
  destruct (held !! id) as [found|] eqn:Hf; simpl; [|done].
  destruct (N.eqb_spec (dr_revision found) expected) as [<-|]; simpl; [|done]. intros [= <-]. eauto.
Qed.

Lemma commit_document_Ok contract documents id staged (c : Commit W) result documents' c' :
  commit_document app_dir contract documents id staged c = (Ok (result, documents'), c') ->
  document_effect id (sd_operation staged) documents documents'.
Proof.
  unfold commit_document. destruct (sd_operation staged); intros Hrun; inv_ok Hrun;
    repeat match goal with
    | H : check_current_revision _ _ _ _ = Ok _ |- _ => apply check_current_revision_Ok in H as (-> & held & Hheld & Hcur)
    | H : checked_succ _ _ = Ok _ |- _ => apply checked_succ_Ok in H as ->
    end; rewrite ?(alter_insert _ _ _ held Hheld); by econstructor.
Qed.

Lemma commit_documents_Ok contract documents staged (c : Commit W) results documents' c' :
  commit_documents app_dir contract documents staged c = (Ok (results, documents'), c') ->
  documents_effect staged documents documents'.
Proof.
  revert documents c results documents' c'.
  induction staged as [|[id document] staged IH]; intros documents c results documents' c' Hrun; simpl in Hrun.
  { inv_prim Hrun. constructor. }
  inv_ok Hrun. econstructor; [by eapply commit_document_Ok|by eapply IH].
Qed.

Lemma records_effect_cons mutation mutations c1 c2 c3 :
  records_effect [mutation] c1 c2 -> records_effect mutations c2 c3 -> records_effect (mutation :: mutations) c1 c3.
Proof.
  intros (rs & Hr) (rs' & Hr'). inversion Hr as [|? ? ? ? ? ? ? Hm Hnil]; subst. inversion Hnil; subst.
  eexists. by econstructor.
Qed.

Lemma commit_records_Ok contract operations document s results document' s' :
  commit_records (W := W) document contract operations s = (Ok (results, document'), s') ->
  records_effect operations (mdoc_collections document) (mdoc_collections document').
Proof.
  revert document s results document' s'.
  induction operations as [|operation operations IH]; intros document s results document' s' Hrun; simpl in Hrun.
  { inv_prim Hrun. eexists. constructor. }
  inv_ok Hrun. eapply records_effect_cons; [|by eapply IH].
  match goal with H : mutate _ _ = _ |- _ => unfold mutate, on_managed, on_clock in H;
    destruct (apply_mutation_v2 _ _ _ _) as [o w] eqn:Hap; simplify_eq/= end.
  by apply apply_mutation_v2_Ok in Hap as [_ Heff].
Qed.

(** The outcome of the closure: nothing is published before its last call, whose result
    tells whether the state may have been replaced. *)
Definition closure_post (digest : string) state stage (mutation_id : string)
    (r : outcome string (Value * ManagedDataV2Envelope)) (c c' : Commit W) : Prop :=
  (sound_v2 (cm_dir c) -> sound_v2 (cm_dir c')) /\
  ((published (cm_dir c') = published (cm_dir c) /\ ∀ a, r <> Ok a) \/
   ∃ receipt state',
     env_receipts state' = <[mutation_id := receipt]> (env_receipts state) /\ rc_digest receipt = digest /\
     env_generation state' = (env_generation state + 1)%N /\
     records_effect (sg_records stage) (env_collections state) (env_collections state') /\
     documents_effect (btree_list (sg_documents stage)) (env_documents state) (env_documents state') /\
     (∀ v new, r = Ok (v, new) -> v = rc_result receipt) /\ write_result state' r (cm_dir c) (cm_dir c')) /\
  (∀ e, r = Err e -> cm_persisted c = false -> cm_persisted c' = false ->
     published (cm_dir c') = published (cm_dir c)).

Lemma closure_step {A} digest state stage mutation_id (m : st (Commit W) string A)
    (k : A -> st (Commit W) string (Value * ManagedDataV2Envelope)) c r c' :
  unpublishing_commit m -> (m ≫= k) c = (r, c') ->
  (∀ a c1, m c = (Ok a, c1) -> k a c1 = (r, c') -> closure_post digest state stage mutation_id r c1 c') ->
  closure_post digest state stage mutation_id r c c'.
Proof.
  intros Hm Hrun Hk. rewrite st_bind_run in Hrun. destruct (Hm c) as (Hf & Hs & Hp).
  destruct (m c) as [[a|e|msg] c1] eqn:Hc; simpl in *;
    [|injection Hrun as <- <-; split_and!; [done|by left|done]..].
  destruct (Hk a c1 eq_refl Hrun) as (Hs1 & Hw & Hp1). unfold closure_post, write_result in *.
  rewrite Hf, Hp in *. split_and!; auto.
Qed.

Lemma commit_closure_cases contract contract_digest digest state stage mutation_id c r c' :
  commit_closure app_dir contract contract_digest digest state stage mutation_id c = (r, c') ->
  closure_post digest state stage mutation_id r c c'.
Proof.
  unfold commit_closure. intros Hrun.
  eapply closure_step; [apply in_commit_unpublishing, commit_records_unpublishing|exact Hrun|].
  clear Hrun. intros [record_results records] c1 Hrec Hrun. cbv beta iota in Hrun.
  eapply closure_step; [apply commit_documents_unpublishing|exact Hrun|].
  clear Hrun. intros [document_results documents] c2 Hdocs%commit_documents_Ok Hrun. cbv beta iota zeta in Hrun.
  eapply closure_step; [apply in_commit_unpublishing, validate_v2_state_quiet|exact Hrun|].
  clear Hrun. intros [] c3 _ Hrun.
  eapply closure_step; [apply in_commit_unpublishing, new_receipt_quiet|exact Hrun|].
  clear Hrun. intros receipt c4 Hreceipt Hrun.
  eapply closure_step; [apply commit_pure|exact Hrun|].
  clear Hrun. intros [] c5 _ Hrun. unfold commit_state in Hrun.
  assert (records_effect (sg_records stage) (env_collections state) (mdoc_collections records)) as Hre.
  { unfold in_commit in Hrec. destruct (commit_records _ _ _ _) as [o s1] eqn:E. simplify_eq/=.
    by apply commit_records_Ok in E. }
  assert (rc_digest receipt = digest /\ rc_result receipt =
    VObject [("documents", VArray document_results);
             ("generation", json_number (wrapping_succ (env_generation state)));
             ("records", VArray record_results)]) as [Hd Hv].
  { unfold in_commit in Hreceipt. destruct (new_receipt _ _ _ _) as [o s1] eqn:E. simplify_eq/=.
    by apply new_receipt_Ok in E. }
  destruct (persist_v2_atomic _ _ _ _ (cm_dir c5)) as [o s1] eqn:Hp.
  apply persist_v2_atomic_cases in Hp as (Hs & Hw & Hdet).
  assert (cm_dir c' = s1 /\ (∀ a, r = Ok a -> ∃ b, o = Ok b) /\ (∀ v new, r = Ok (v, new) -> v = rc_result receipt) /\
          (∀ e, r = Err e -> cm_persisted c5 = false -> cm_persisted c' = false -> published s1 = published (cm_dir c5)))
    as (Hc' & Hok & Hans & Hper).
  { destruct o as [new|e|msg]; injection Hrun as <- <-; simpl; split_and!; try done;
      [by eauto|intros v new' [= <- _]; by rewrite Hv|].
    intros e' [= <-] _. destruct (is_indeterminate e) eqn:Hi; [done|]. intros _. by apply (Hdet e). }
  unfold closure_post. rewrite Hc'. split_and!; [done| |done]. right. eexists receipt, _. split_and!;
    [..|destruct Hw as [Hw|[Hsame Hno]]; [left; exact Hw|right; split; [exact Hsame|]]]; try done.
  intros a Ha. destruct (Hok a Ha) as [b Hb]. by destruct (Hno b).
Qed.

Lemma close_commit_step contract contract_digest digest state stage mutation_id batch_id staged s r s' :
  request_digest (V2CommitBatch mutation_id batch_id) = Ok digest -> env_receipts state !! mutation_id = None ->
  sg_batch_id stage = batch_id -> env_generation state = sg_expected_generation stage ->
  (∃ raw, staged = Some raw /\ stage_from_str raw = inr stage) ->
  close_commit app_dir contract contract_digest digest state stage mutation_id s = (r, s') ->
  v2_step (V2CommitBatch mutation_id batch_id) staged state r s s'.
Proof.
  intros Hd Hnone Hbatch Hgen Hstaged. unfold close_commit.
  destruct (commit_closure _ _ _ _ _ _ _ _) as [o c] eqn:Hc. apply commit_closure_cases in Hc as (Hs & Hw & Hper).
  simpl in *. intros Hrun.
  assert ((sound_v2 (cm_dir c) -> sound_v2 s') /\ published s' = published (cm_dir c) /\
          (∀ v, r = Ok v -> ∃ new, o = Ok (v, new))) as (Hs' & Hpub & Hans).
  { unfold finish_commit in Hrun. destruct o as [[v new]|e|msg].
    - rewrite st_bind_run in Hrun.
      destruct (try_remove_stage_quiet (fun name => name = V2_STORE_FILE) store_not_stage) as [Hf Hq].
      specialize (Hf V2_STORE_FILE eq_refl (cm_dir c)). specialize (Hq (cm_dir c)).
      unfold try_remove_stage in *. destruct (remove_stage (cm_dir c)) as [o' s2]. injection Hrun as <- <-.
      split_and!; [done|done|]. intros v' [= <-]. by eauto.
    - destruct (cm_persisted c); [by injection Hrun as <- <-|].
      destruct (remove_created_blobs_quiet (fun name => name = V2_STORE_FILE) (cm_new_blobs c)) as [Hf Hq].
      specialize (Hf V2_STORE_FILE eq_refl (cm_dir c)). specialize (Hq (cm_dir c)).
      destruct (remove_created_blobs (cm_new_blobs c) (cm_dir c)) as [[[]|cl|msg] s2];
        injection Hrun as <- <-; by split_and!.
    - by injection Hrun as <- <-. }
  split; [auto|].
  destruct Hw as [[Hsame Hno]|(receipt & state' & Hrec & Hrd & Hg & Hre & Hdo & Hres & Hwr)].
  - left. split; [congruence|]. intros v id d Hv _ _. destruct (Hans v Hv) as [new ->]. by destruct (Hno (v, new)).
  - cut (v2_effect (V2CommitBatch mutation_id batch_id) staged state r s (cm_dir c));
      [unfold v2_effect; by rewrite Hpub|].
    refine (published_write_step (V2CommitBatch mutation_id batch_id) staged state mutation_id receipt (Some stage) state' o r
              s (cm_dir c) eq_refl Hnone Hrec _ _ _ _ Hwr); [congruence| | |by intros found [= <-]].
    + intros v Hv. destruct (Hans v Hv) as [new ->]. split; [by apply (Hres v new)|eauto].
    + exists stage. by split_and!.
Qed.

(** The staged batch is the one on disk. *)
Lemma load_stage_Some s stage s' :
  load_stage (W := W) app_dir s = (Ok (Some stage), s') ->
  ∃ raw, file_v2 V2_STAGE_FILE s = Some raw /\ stage_from_str raw = inr stage.
Proof.
  unfold load_stage. intros (present & s1 & Hp & Hrun)%st_bind_Ok_inv.
  assert (file_v2 V2_STAGE_FILE s1 = file_v2 V2_STAGE_FILE s) as Hsame.
  { destruct (quiet_managed (fun name => name = V2_STAGE_FILE) ltac:(by intros ? ->) _ (is_file_reads _ V2_STAGE_FILE)) as [Hf _].
    specialize (Hf V2_STAGE_FILE eq_refl s). by rewrite Hp in Hf. }
  destruct present; simpl in Hrun; [|by inv_prim Hrun].
  apply st_bind_Ok_inv in Hrun as (loaded & s2 & Hl & Hrun).
  apply st_bind_Ok_inv in Hrun as (found & s3 & [Hfound _]%st_lift_inv & Hrun).
  destruct loaded as [d|]; simplify_eq/=.
  assert (stage = found) as ->.
  { destruct (negb _); [done|]. inv_ok Hrun. done. }
  unfold on_managed, on_dir in Hl. destruct (load_json_document _ _ _ _) as [o fs'] eqn:El. simplify_eq/=.
  apply load_json_document_Some in El as (raw & Hraw & Hparse). exists raw. split; [|done].
  rewrite <- Hsame. exact Hraw.
Qed.

Lemma live_stage_Ok batch_id s stage s' :
  live_stage (W := W) app_dir batch_id s = (Ok stage, s') ->
  sg_batch_id stage = batch_id /\ ∃ raw, file_v2 V2_STAGE_FILE s = Some raw /\ stage_from_str raw = inr stage.
Proof.
  unfold live_stage. intros (loaded & s1 & Hl & Hrun)%st_bind_Ok_inv.
  apply st_bind_Ok_inv in Hrun as (found & s2 & [Hfound _]%st_lift_inv & Hrun).
  destruct loaded as [d|]; simplify_eq/=. apply load_stage_Some in Hl.
  destruct (bool_decide_reflect (sg_batch_id found = batch_id)) as [Hb|]; simpl in Hrun; [|done].
  inv_ok Hrun. destruct (_ <=? _)%N; inv_ok Hrun; by subst.
Qed.

Lemma commit_batch_step contract state mutation_id batch_id s r s' :
  commit_batch app_dir contract state mutation_id batch_id s = (r, s') ->
  v2_step (V2CommitBatch mutation_id batch_id) (file_v2 V2_STAGE_FILE s) state r s s'.
Proof.
  set (staged := file_v2 V2_STAGE_FILE s). unfold commit_batch. intros Hrun.
  quiet_as Hrun quiet_lift. intros [] s1 [_ <-]%st_lift_inv Hrun.
  quiet_as Hrun quiet_lift. intros d s1 [Hd <-]%st_lift_inv Hrun.
  quiet_as Hrun quiet_lift. intros answered s1 [Ha%receipt_result_cases <-]%st_lift_inv Hrun. cbv beta in Hrun.
  destruct answered as [v|]; [by eapply answered_step|].
  quiet_as Hrun live_stage_quiet; [auto with quiet_v2|]. intros stage s4 [Hb Hst]%live_stage_Ok Hrun.
  cbv beta in Hrun. destruct (N.eqb_spec (env_generation state) (sg_expected_generation stage)) as [Hg|];
    simpl in Hrun; [|by eapply fail_step].
  unfold commit_stage in Hrun. quiet_as Hrun quiet_lift. intros digest s5 [_ <-]%st_lift_inv Hrun.
  by eapply close_commit_step.
Qed.

(** Every branch. *)
Lemma serve_v2_step contract digest state request s r s' :
  serve_v2 app_dir contract digest state request s = (r, s') ->
  v2_step request (file_v2 V2_STAGE_FILE s) state r s s'.
Proof.
  pose proof store_visible as Hv. pose proof store_not_stage as Hns.
  destruct request; simpl; intros Hrun;
    try (by eapply execute_v2_record_mutation_step; [|exact Hrun]);
    try (by eapply commit_batch_step); try (by eapply abort_batch_step);
    (eapply quiet_end; [|done|exact Hrun]); clear Hrun.
  - apply quiet_bind; [apply quiet_lift|intros []]. destruct (_ || _); [apply quiet_fail|].
    apply quiet_bind; [apply st_map_quiet; intros; by apply read_snapshot_result_quiet|intros; apply quiet_ret].
  - repeat (apply quiet_bind; [apply quiet_lift|intros ?]). apply quiet_ret.
  - repeat (apply quiet_bind; [apply quiet_lift|intros ?]). apply quiet_ret.
  - apply quiet_bind; [apply quiet_lift|intros []].
    apply quiet_bind; [by apply document_chunk_quiet|intros []; apply quiet_ret].
  - unfold v2_list_documents. repeat (apply quiet_bind; [apply quiet_lift|intros ?]). apply quiet_ret.
  - by apply begin_batch_quiet.
  - by apply append_batch_operations_quiet.
  - by apply append_document_chunk_quiet.
Qed.

(** ** Requests *)

(** The state that the published bytes stand for. *)
Definition represents_v2 (bytes : option string) state : Prop :=
  match bytes with
  | Some raw => env_from_str raw = inr state
  | None => env_receipts state = ∅ /\ env_documents state = ∅
  end.

(** [Path::is_file] swallows errors: the check that chooses between the published state and
    a version 1 store has to see the file when it is there. *)
Definition stat_truthful s : Prop :=
  ∀ s1, (_ ← reject_v2_links app_dir; cleanup_expired_stage app_dir) s = (Ok tt, s1) ->
    (is_file V2_STORE_FILE (vd_dir s1)).1 = Ok (bool_decide (is_Some (published s1))).

Lemma load_v2_represents contract digest s state s' :
  sound_v2 s -> (is_file V2_STORE_FILE (vd_dir s)).1 = Ok (bool_decide (is_Some (published s))) ->
  load_v2 app_dir contract digest s = (Ok state, s') -> represents_v2 (published s) state.
Proof.
  unfold load_v2. intros Hs Hstat (present & s1 & Hp & Hrun)%st_bind_Ok_inv.
  assert (published s1 = published s) as Hsame.
  { destruct (quiet_managed (fun name => name = V2_STORE_FILE) ltac:(by intros ? ->) _ (is_file_reads _ V2_STORE_FILE))
      as [Hf _]. specialize (Hf V2_STORE_FILE eq_refl s). by rewrite Hp in Hf. }
  unfold on_managed in Hp. destruct (is_file V2_STORE_FILE (vd_dir s)) as [o d] eqn:E. simplify_eq/=.
  case_bool_decide as Hin; simpl in Hrun.
  - apply st_bind_Ok_inv in Hrun as (loaded & s2 & Hl & Hrun).
    apply st_bind_Ok_inv in Hrun as (found & s3 & [Hfound _]%st_lift_inv & Hrun).
    destruct loaded as [f|]; simplify_eq/=. inv_ok Hrun.
    unfold on_managed, on_dir in Hl. destruct (load_json_document _ _ _ _) as [o fs'] eqn:El. simplify_eq/=.
    apply load_json_document_Some in El as (raw & Hraw & Hparse). unfold represents_v2.
    rewrite <- Hsame. unfold published, file_v2, entry. simpl in *. by rewrite Hraw.
  - inv_ok Hrun. unfold represents_v2. destruct (published s); [|done]. destruct Hin. eauto.
Qed.

(** The stage file is left alone or removed before the branches. *)
Definition stage_kept {E A} (m : st (V2Dir W) E A) : Prop :=
  ∀ s raw, file_v2 V2_STAGE_FILE (m s).2 = Some raw -> file_v2 V2_STAGE_FILE s = Some raw.

Lemma stage_kept_quiet {E A} (m : st (V2Dir W) E A) : quiet_on (fun name => visible name = true) m -> stage_kept m.
Proof. intros [Hf _] s raw. by rewrite (Hf V2_STAGE_FILE eq_refl s). Qed.

Lemma stage_kept_bind {E A B} (m : st (V2Dir W) E A) (k : A -> st (V2Dir W) E B) :
  stage_kept m -> (∀ a, stage_kept (k a)) -> stage_kept (m ≫= k).
Proof.
  intros Hm Hk s raw. rewrite st_bind_run. specialize (Hm s). destruct (m s) as [[a|e|msg] s1]; simpl in *; [|apply Hm..].
  intros Hraw%Hk. by apply Hm.
Qed.

Lemma remove_stage_kept : stage_kept (remove_stage (W := W)).
Proof.
  intros s raw. unfold remove_stage, on_managed, on_dir, file_v2, entry, contents, fs_remove_file, io_all, io.
  destruct (head _) as [[f|]|]; simpl; [done|..]; 
    (destruct (fs_dir (md_fs (vd_dir s)) !! V2_STAGE_FILE) eqn:E; simpl; [by rewrite lookup_delete_eq|by rewrite E]).
Qed.

Lemma cleanup_expired_stage_kept : stage_kept (cleanup_expired_stage (W := W) app_dir).
Proof.
  unfold cleanup_expired_stage. apply stage_kept_bind; [by apply stage_kept_quiet, load_stage_quiet|].
  intros [stage|]; [|by apply stage_kept_quiet, quiet_ret].
  apply stage_kept_bind; [by apply stage_kept_quiet, quiet_world|]. intros now.
  destruct (_ <=? _)%N; [|by apply stage_kept_quiet, quiet_ret].
  intros s raw. unfold st_map_err. pose proof (remove_stage_kept s raw) as Hk.
  by destruct (remove_stage s).
Qed.

(** Everything before the branches publishes nothing. *)
Lemma request_v2_run contract request s r s' :
  request_v2 app_dir contract request s = (r, s') ->
  (∃ digest state s1 s3,
     published s1 = published s /\ published s3 = published s /\ (sound_v2 s -> sound_v2 s1 /\ sound_v2 s3) /\
     (_ ← reject_v2_links app_dir; cleanup_expired_stage app_dir) s = (Ok tt, s1) /\
     (∀ raw, file_v2 V2_STAGE_FILE s3 = Some raw -> file_v2 V2_STAGE_FILE s = Some raw) /\
     load_v2 app_dir contract digest s1 = (Ok state, s3) /\
     serve_v2 app_dir contract digest state request s3 = (r, s')) \/
  (published s' = published s /\ (sound_v2 s -> sound_v2 s') /\ ∀ v, r <> Ok v).
Proof.
  pose proof store_visible as Hv. pose proof store_not_stage as Hns.
  unfold request_v2. destruct (negb _); [intros [= <- <-]; by right|]. intros Hrun.
  apply unpublishing_run in Hrun as [([] & s0 & H0' & Hrun & Hf0 & Hs0)|?]; [|by right|by apply reject_v2_links_quiet].
  apply unpublishing_run in Hrun as [([] & s1 & H1' & Hrun & Hf1 & Hs1)|(Hf & Hs & Hno)];
    [| |by apply cleanup_expired_stage_quiet]; [|right; split_and!; [congruence|auto|done]].
  apply unpublishing_run in Hrun as [(digest & s2 & [_ <-]%st_lift_inv & Hrun & _)|(Hf & Hs & Hno)];
    [| |by apply quiet_lift]; [|right; split_and!; [congruence|auto|done]].
  apply unpublishing_run in Hrun as [(state & s3 & Hl & Hrun & Hf3 & Hs3)|(Hf & Hs & Hno)];
    [| |by apply load_v2_quiet]; [|right; split_and!; [congruence|auto|done]].
  left. exists digest, state, s1, s3. split_and!; try done; try congruence; try (split; auto).
  - rewrite st_bind_run, H0'. exact H1'.
  - intros raw Hraw.
    pose proof (stage_kept_quiet _ (load_v2_quiet _ (fun _ H => H) contract digest) s1 raw) as Hk. rewrite Hl in Hk.
    pose proof (cleanup_expired_stage_kept s0 raw) as Hk1. rewrite H1' in Hk1.
    pose proof (stage_kept_quiet _ (reject_v2_links_quiet _ (fun _ H => H)) s raw) as Hk0. rewrite H0' in Hk0. auto.
Qed.

(** What a whole request did to the published bytes. *)
Definition request_effect_v2 (request : ManagedDataV2Request) (r : outcome string Value) s s' : Prop :=
  (published s' = published s /\
   ∀ v id digest, r = Ok v -> published_mutation request = Some id -> request_digest request = Ok digest ->
     ∃ state receipt, represents_v2 (published s) state /\
       env_receipts state !! id = Some receipt /\ rc_digest receipt = digest /\ rc_result receipt = v) \/
  ∃ id receipt batch state state',
    represents_v2 (published s) state /\ represents_v2 (published s') state' /\
    published_mutation request = Some id /\ env_receipts state !! id = None /\
    env_receipts state' = <[id := receipt]> (env_receipts state) /\
    request_digest request = Ok (rc_digest receipt) /\ (∀ v, r = Ok v -> v = rc_result receipt) /\
    publishes request batch state state' /\
    ∀ found, batch = Some found -> ∃ raw, file_v2 V2_STAGE_FILE s = Some raw /\ stage_from_str raw = inr found.

Lemma request_v2_effect `{!V2CodecLaws} contract request s r s' :
  sound_v2 s -> stat_truthful s -> request_v2 app_dir contract request s = (r, s') ->
  sound_v2 s' /\ request_effect_v2 request r s s'.
Proof.
  intros Hs Hstat Hrun.
  apply request_v2_run in Hrun
    as [(digest & state & s1 & s3 & Hf1 & Hf3 & Hs13 & Hpre & Hst & Hl & Hrun)|(Hf & Hs' & Hno)].
  2: { split; [auto|]. left. split; [done|]. intros v id digest ->. by destruct (Hno v). }
  destruct (Hs13 Hs) as [Hs1 Hs3]. specialize (Hstat s1 Hpre).
  apply load_v2_represents in Hl; [|done..]. rewrite Hf1 in Hl.
  apply serve_v2_step in Hrun as [Hs' Heff]. split; [auto|]. unfold v2_effect in Heff. rewrite Hf3 in Heff.
  destruct Heff as [[Hsame Hans]|(id & receipt & batch & state' & bytes & Hid & Hnone & Hrec & Hd & Hv & Hpub & Hbatch
    & Hser & Hfile)].
  - left. split; [done|]. intros v id d Hr Hid Hd. destruct (Hans v id d Hr Hid Hd) as (receipt & ?). eauto.
  - right. exists id, receipt, batch, state, state'. split_and!; try done.
    + rewrite Hfile. by apply env_codec_roundtrip.
    + intros found (raw & Hraw & Hparse)%Hbatch. eauto.
Qed.

(** C10: A request on contract version 2 changes the published state only as its abstract
    specification says. On an honest device whose existence check is truthful, whatever
    else fails: either the published state is unchanged, and a mutation is then answered
    only with the result of the receipt that is already filed under its id; or the request
    is one that publishes, its id had no receipt, and the new state is the old one with
    exactly its record mutation, the whole staged batch, or nothing but the receipt, which
    carries the digest of the request and the answered result. *)
Theorem request_v2_refines `{!V2CodecLaws} contract request s r s' :
  sound_v2 s -> stat_truthful s -> request_v2 app_dir contract request s = (r, s') ->
  sound_v2 s' /\ request_effect_v2 request r s s'.
Proof. apply request_v2_effect. Qed.

(** ** Exactly once *)

(** Later requests, of this or another version of the package. *)
Inductive session : V2Dir W -> V2Dir W -> Prop :=
  | session_end s : session s s
  | session_request contract request r s1 s2 s3 :
      stat_truthful s1 -> request_v2 app_dir contract request s1 = (r, s2) -> session s2 s3 -> session s1 s3.

(** The receipt of [request] with the result [v] is published. *)
Definition receipted (request : ManagedDataV2Request) (v : Value) s : Prop :=
  ∃ id digest receipt state, published_mutation request = Some id /\ request_digest request = Ok digest /\
    is_Some (published s) /\ represents_v2 (published s) state /\
    env_receipts state !! id = Some receipt /\ rc_digest receipt = digest /\ rc_result receipt = v.

Lemma represents_v2_inj bytes state state' :
  is_Some bytes -> represents_v2 bytes state -> represents_v2 bytes state' -> state = state'.
Proof. intros [raw ->]. simpl. congruence. Qed.

Lemma receipted_step `{!V2CodecLaws} contract request request' v r s s' :
  sound_v2 s -> stat_truthful s -> receipted request v s ->
  request_v2 app_dir contract request' s = (r, s') -> sound_v2 s' /\ receipted request v s'.
Proof.
  intros Hs Hstat (id & digest & receipt & state & Hid & Hd & Hp & Hrep & Hlook & Hrd & Hrv) Hrun.
  apply request_v2_effect in Hrun as [Hs' [[Hsame _]|(id' & receipt' & batch & old & new & Ho & Hn & _ & Hnone & Hrec & _)]];
    [|split; [done|]|done..].
  { split; [done|]. unfold receipted. rewrite Hsame. by exists id, digest, receipt, state. }
  rewrite (represents_v2_inj _ _ _ Hp Ho Hrep) in *.
  assert (is_Some (published s')) as Hp'.
  { destruct (published s'); [eauto|]. destruct Hn as [Hn _]. rewrite Hn in Hrec.
    exfalso. assert ((∅ : Receipts) !! id' = Some receipt') as Hx by (rewrite Hrec; apply lookup_insert_eq).
    by rewrite lookup_empty in Hx. }
  exists id, digest, receipt, new. split_and!; try done. rewrite Hrec, lookup_insert_ne; [done|]. congruence.
Qed.

Lemma receipted_session `{!V2CodecLaws} request v s s' :
  session s s' -> sound_v2 s -> receipted request v s -> sound_v2 s' /\ receipted request v s'.
Proof.
  induction 1 as [|contract request' r s1 s2 s3 Hstat Hrun Hsess IH]; [done|]. intros Hs Hrec.
  destruct (receipted_step _ _ _ _ _ _ _ Hs Hstat Hrec Hrun). by apply IH.
Qed.

Lemma answered_receipted `{!V2CodecLaws} contract request id digest v s s' :
  sound_v2 s -> stat_truthful s -> published_mutation request = Some id -> request_digest request = Ok digest ->
  request_v2 app_dir contract request s = (Ok v, s') -> sound_v2 s' /\ receipted request v s'.
Proof.
  intros Hs Hstat Hid Hd Hrun. apply request_v2_effect in Hrun as [Hs' Heff]; [|done..]. split; [done|].
  destruct Heff as [[Hsame Hans]|(id' & receipt & batch & old & new & Ho & Hn & Hid' & Hnone & Hrec & Hd' & Hv & _)].
  - destruct (Hans v id digest eq_refl Hid Hd) as (state & receipt & Hrep & Hl & Hrd & Hrv).
    exists id, digest, receipt, state. rewrite Hsame. split_and!; try done.
    destruct (published s); [eauto|]. destruct Hrep as [Hrep _]. by rewrite Hrep, lookup_empty in Hl.
  - exists id, digest, receipt, new. rewrite Hid in Hid'. injection Hid' as <-. rewrite Hd in Hd'.
    split_and!; try done; [|by rewrite Hrec, lookup_insert_eq|congruence|symmetry; by apply Hv].
    destruct (published s'); [eauto|]. destruct Hn as [Hn _]. rewrite Hn in Hrec.
    assert ((∅ : Receipts) !! id = Some receipt) as Hx by (rewrite Hrec; apply lookup_insert_eq).
    by rewrite lookup_empty in Hx.
Qed.

(** C11: Mutations take effect exactly once, as long as the host sees its own state file.
    Once a publishing request was answered with [v], then after any further requests,
    sending it again publishes nothing and, when it is answered, is answered with [v].
    Assumed of the device: it never reports the existing state file as missing
    ([sound_v2]), and at each request the existence check that chooses between the
    version 2 state and the version 1 store does not fail ([stat_truthful]: the check
    reads any error as absent). Other calls may fail at will. Without that assumption a
    sent mutation is executed twice, as the directory of managed data then counts as
    empty. *)
Theorem mutation_exactly_once `{!V2CodecLaws} contract contract' request id digest v s s1 s2 r s3 :
  sound_v2 s -> stat_truthful s -> published_mutation request = Some id -> request_digest request = Ok digest ->
  request_v2 app_dir contract request s = (Ok v, s1) -> session s1 s2 -> stat_truthful s2 ->
  request_v2 app_dir contract' request s2 = (r, s3) ->
  published s3 = published s2 /\ ∀ v', r = Ok v' -> v' = v.
Proof.
  intros Hs Hstat Hid Hd Hrun Hsess Hstat2 Hagain.
  destruct (answered_receipted _ _ _ _ _ _ _ Hs Hstat Hid Hd Hrun) as [Hs1 Hrec].
  destruct (receipted_session _ _ _ _ Hsess Hs1 Hrec)
    as [Hs2 (id' & digest' & receipt & state & Hid' & Hd' & Hp & Hrep & Hl & Hrd & Hrv)].
  rewrite Hid in Hid'. injection Hid' as <-. rewrite Hd in Hd'. injection Hd' as <-.
  apply request_v2_effect in Hagain as [_ [[Hsame Hans]|(id' & receipt' & batch & old & new & Ho & _ & Hid' & Hnone & _)]];
    [| |done..].
  - split; [done|]. intros v' ->. destruct (Hans v' id digest eq_refl Hid Hd) as (state' & receipt' & Hrep' & Hl' & _ & Hv').
    rewrite (represents_v2_inj _ _ _ Hp Hrep' Hrep) in Hl'. congruence.
  - rewrite (represents_v2_inj _ _ _ Hp Ho Hrep) in Hnone. congruence.
Qed.

End published.
