(* ===== verification/ManagedV2BlobFacts.v ===== *)
(** * Host-managed app data, contract version 2: blobs

    No request removes or changes a stored blob, whichever calls fail, and every document
    of the published state keeps its content. The blob device must not fail twice in a row:
    [Path::is_file] swallows errors, and a blob that looks absent is only protected by
    [create_new] when the next call goes through. *)

From S2P Require Import Prelude RustStd RustText Json JsonOps Types Platform AtomicJson Packages ManagedData ManagedDataFacts ManagedV2 ManagedV2Store ManagedV2Requests ManagedV2Facts.

(** No two adjacent failures in the schedule. *)
Definition sparse (fs : FileSystem) : Prop :=
  ∀ i fault fault', fs_faults fs !! i = Some (Some fault) -> fs_faults fs !! S i <> Some (Some fault').

Lemma sparse_tail fs fs' : fs_faults fs' = tail (fs_faults fs) -> sparse fs -> sparse fs'.
Proof.
  intros Ht Hs i fault fault'. rewrite Ht. specialize (Hs (S i) fault fault').
  destruct (fs_faults fs) as [|x l]; simpl in *; [done|]. apply Hs.
Qed.

Lemma io_sparse {A} partial (m : st FileSystem IoError A) :
  (∀ fault fs, fs_faults (partial fault fs) = fs_faults fs) -> frames fs_faults m -> preserves sparse (io partial m).
Proof.
  intros Hp Hm fs Hs. unfold io. destruct (head (fs_faults fs)) as [[fault|]|].
  - apply (sparse_tail fs); [|done]. simpl. by rewrite Hp.
  - apply (sparse_tail fs); [|done]. by rewrite Hm.
  - apply (sparse_tail fs); [|done]. by rewrite Hm.
Qed.

Create HintDb blob_quiet discriminated.

Section blobs.
Context {W : Type} `{Uuids, Libraries, ManagedWorld W, ManagedCodec, V2Codec} (app_dir : string).
Implicit Types (contract : HostManagedDataRef) (state : ManagedDataV2Envelope) (stage : ManagedDataStage)
  (s : V2Dir W).

Definition blobs s : Directory := fs_dir (vd_blobs s).
Definition steady s : Prop := sparse (vd_blobs s).

(** ** Calls that leave the blobs alone *)

Definition blob_quiet {E A} (m : st (V2Dir W) E A) : Prop := frames blobs m /\ preserves steady m.

Lemma bq_bind {E A B} (m : st (V2Dir W) E A) (k : A -> st (V2Dir W) E B) :
  blob_quiet m -> (∀ a, blob_quiet (k a)) -> blob_quiet (m ≫= k).
Proof. intros [Hf Hp] Hk. split; [apply frames_bind|apply preserves_bind]; try done; intros a; apply (Hk a). Qed.
Lemma bq_ret {E A} (a : A) : blob_quiet (mret a : st (V2Dir W) E A).
Proof. split; [apply frames_ret|apply preserves_ret]. Qed.
Lemma bq_lift {E A} (m : outcome E A) : blob_quiet (st_lift m).
Proof. split; [apply frames_lift|apply preserves_lift]. Qed.
Lemma bq_fail {E A} (e : E) : blob_quiet (st_fail e : st (V2Dir W) E A).
Proof. split; [apply frames_fail|apply preserves_fail]. Qed.
Lemma bq_map_err {E F A} (f : E -> F) (m : st (V2Dir W) E A) : blob_quiet m -> blob_quiet (st_map_err f m).
Proof.
  intros [Hf Hp]. split; intros s; [specialize (Hf s)|intros Hs; specialize (Hp s Hs)];
    unfold st_map_err; by destruct (m s).
Qed.
Lemma bq_managed {E A} (m : st (ManagedDir W) E A) : blob_quiet (on_managed m).
Proof. split; intros s; unfold on_managed; by destruct (m (vd_dir s)). Qed.
Lemma bq_mutate {A} (m : st W string A) : blob_quiet (mutate m).
Proof. apply bq_managed. Qed.
Lemma bq_world {A} (f : W -> A * W) : blob_quiet (on_world f).
Proof. apply bq_managed. Qed.
Lemma bq_blobs {A} (m : st FileSystem IoError A) :
  frames fs_dir m -> preserves sparse m -> blob_quiet (on_blobs m).
Proof.
  intros Hf Hp. split; intros s; [specialize (Hf (vd_blobs s))|intros Hs; specialize (Hp (vd_blobs s) Hs)];
    unfold on_blobs; by destruct (m (vd_blobs s)).
Qed.
Lemma bq_open_read name : blob_quiet (on_blobs (open_read name)).
Proof. apply bq_blobs; [apply open_read_frames|by apply io_sparse]. Qed.
Lemma bq_io_step : blob_quiet (on_blobs io_step).
Proof. apply bq_blobs; [apply io_step_frames|by apply io_sparse]. Qed.
Lemma bq_create_dir : blob_quiet (on_blobs create_dir_all).
Proof.
  apply bq_blobs; [|by apply io_sparse]. intros fs. unfold create_dir_all, io_all, io.
  by destruct (head (fs_faults fs)) as [[]|].
Qed.
#[local] Hint Resolve bq_ret bq_lift bq_fail bq_managed bq_mutate bq_world bq_open_read bq_io_step
  bq_create_dir : blob_quiet.

Ltac bq_walk :=
  repeat first
    [ progress eauto with blob_quiet nocore
    | apply bq_bind; [|intros ?]
    | apply bq_map_err
    | match goal with |- blob_quiet (match ?x with _ => _ end) => destruct x eqn:? end ].

Lemma reject_linked_blob_bq hash : blob_quiet (reject_linked_blob (W := W) app_dir hash).
Proof.
  destruct bq_io_step as [Hf Hp]. split; intros s; [specialize (Hf s)|intros Hs; specialize (Hp s Hs)];
    unfold reject_linked_blob; by destruct (on_blobs io_step s) as [[]].
Qed.
Lemma blob_is_file_bq hash : blob_quiet (blob_is_file (W := W) hash).
Proof.
  destruct (bq_open_read (blob_name hash)) as [Hf Hp].
  split; intros s; [specialize (Hf s)|intros Hs; specialize (Hp s Hs)];
    unfold blob_is_file; by destruct (on_blobs (open_read (blob_name hash)) s) as [[]].
Qed.
#[local] Hint Resolve reject_linked_blob_bq blob_is_file_bq : blob_quiet.

Lemma read_file_bq hash what : blob_quiet (read_file (W := W) hash what).
Proof. unfold read_file. bq_walk. Qed.
Lemma blob_length_bq hash : blob_quiet (blob_length (W := W) hash).
Proof. unfold blob_length. bq_walk. Qed.
#[local] Hint Resolve read_file_bq blob_length_bq : blob_quiet.
Lemma read_blob_bq document : blob_quiet (read_blob (W := W) app_dir document).
Proof. unfold read_blob. bq_walk. Qed.
Lemma validate_published_documents_bq declaration collection documents :
  blob_quiet (validate_published_documents (W := W) declaration collection documents).
Proof.
  induction documents as [|[id document] documents IH]; simpl; [bq_walk|].
  apply bq_bind; [|by intros]. unfold validate_published_document. bq_walk.
Qed.
#[local] Hint Resolve read_blob_bq validate_published_documents_bq : blob_quiet.
Lemma validate_document_collections_bq contract total entries :
  blob_quiet (validate_document_collections (W := W) contract total entries).
Proof. revert total. induction entries as [|[c ds] entries IH]; intros total; simpl; bq_walk. Qed.
#[local] Hint Resolve validate_document_collections_bq : blob_quiet.
Lemma validate_v2_state_bq state contract : blob_quiet (validate_v2_state (W := W) state contract).
Proof. unfold validate_v2_state. bq_walk. Qed.
#[local] Hint Resolve validate_v2_state_bq : blob_quiet.
Lemma load_v2_bq contract digest : blob_quiet (load_v2 app_dir contract digest).
Proof. unfold load_v2. bq_walk. Qed.
Lemma load_stage_bq : blob_quiet (load_stage (W := W) app_dir).
Proof. unfold load_stage. bq_walk. Qed.
Lemma remove_stage_bq : blob_quiet (remove_stage (W := W)).
Proof. apply bq_managed. Qed.
Lemma try_remove_stage_bq : blob_quiet (try_remove_stage (W := W)).
Proof.
  destruct remove_stage_bq as [Hf Hp]. split; intros s; [specialize (Hf s)|intros Hs; specialize (Hp s Hs)];
    unfold try_remove_stage; by destruct (remove_stage s).
Qed.
#[local] Hint Resolve load_v2_bq load_stage_bq remove_stage_bq try_remove_stage_bq : blob_quiet.
Lemma cleanup_expired_stage_bq : blob_quiet (cleanup_expired_stage (W := W) app_dir).
Proof. unfold cleanup_expired_stage. bq_walk. Qed.
Lemma reject_v2_links_bq : blob_quiet (reject_v2_links (W := W) app_dir).
Proof. unfold reject_v2_links. bq_walk. Qed.
Lemma persist_stage_bq stage : blob_quiet (persist_stage (W := W) app_dir stage).
Proof. unfold persist_stage. bq_walk. Qed.
Lemma persist_v2_current_atomic_bq contract digest state :
  blob_quiet (persist_v2_current_atomic app_dir contract digest state).
Proof. unfold persist_v2_current_atomic. bq_walk. Qed.
#[local] Hint Resolve cleanup_expired_stage_bq reject_v2_links_bq persist_stage_bq
  persist_v2_current_atomic_bq : blob_quiet.
Lemma persist_v2_atomic_bq contract digest state : blob_quiet (persist_v2_atomic app_dir contract digest state).
Proof. unfold persist_v2_atomic. bq_walk. Qed.
#[local] Hint Resolve persist_v2_atomic_bq : blob_quiet.
Lemma document_chunk_bq contract state collection id offset length :
  blob_quiet (document_chunk (W := W) app_dir contract state collection id offset length).
Proof. unfold document_chunk. bq_walk. Qed.
#[local] Hint Resolve document_chunk_bq : blob_quiet.
Lemma read_snapshot_result_bq contract state read :
  blob_quiet (read_snapshot_result (W := W) app_dir contract state read).
Proof. unfold read_snapshot_result. bq_walk. Qed.
Lemma st_map_bq {A B} (f : A -> st (V2Dir W) string B) l : (∀ x, blob_quiet (f x)) -> blob_quiet (st_map f l).
Proof. intros Hf. induction l; simpl; bq_walk. Qed.
Lemma new_receipt_bq digest result generation : blob_quiet (new_receipt (W := W) digest result generation).
Proof. unfold new_receipt. bq_walk. Qed.
Lemma staged_target_bq stage_ids operation : blob_quiet (staged_target (W := W) stage_ids operation).
Proof. unfold staged_target. bq_walk. Qed.
#[local] Hint Resolve read_snapshot_result_bq st_map_bq new_receipt_bq staged_target_bq : blob_quiet.
Lemma stage_documents_bq contract state stage_ids staged documents :
  blob_quiet (stage_documents (W := W) contract state stage_ids staged documents).
Proof. revert stage_ids staged. induction documents; intros; simpl; bq_walk. Qed.
Lemma live_stage_bq batch_id : blob_quiet (live_stage (W := W) app_dir batch_id).
Proof. unfold live_stage. bq_walk. Qed.
Lemma record_in_stage_bq state mutation_id digest result stage :
  blob_quiet (record_in_stage (W := W) app_dir state mutation_id digest result stage).
Proof. unfold record_in_stage. bq_walk. Qed.
Lemma commit_records_bq document contract operations : blob_quiet (commit_records (W := W) document contract operations).
Proof. revert document. induction operations; intros; simpl; bq_walk. Qed.
#[local] Hint Resolve stage_documents_bq live_stage_bq record_in_stage_bq commit_records_bq : blob_quiet.

(** Only a commit touches the blobs. *)
Lemma serve_v2_bq contract digest state request :
  match request with V2CommitBatch _ _ => False | _ => True end ->
  blob_quiet (serve_v2 app_dir contract digest state request).
Proof.
  intros Hreq. destruct request; try done; simpl;
    unfold begin_batch, append_batch_operations, append_document_chunk, abort_batch, execute_v2_record_mutation,
      persist_v2, persist_v2_current, v2_list_documents; bq_walk.
Qed.
(** ** Writing a blob *)

Lemma open_create_new_sparse name : preserves sparse (open_create_new name).
Proof.
  apply io_sparse; [done|]. intros fs. destruct (negb (fs_exists fs)); [done|]. by destruct (fs_dir fs !! name).
Qed.
Lemma write_and_sync_sparse name bytes : preserves sparse (write_and_sync StandardAtomicFileWriter name bytes).
Proof.
  simpl. apply preserves_bind; [apply open_create_new_sparse|intros _].
  apply preserves_bind; [by apply io_sparse|intros _]. by apply io_sparse.
Qed.
Lemma fs_remove_file_sparse name : preserves sparse (fs_remove_file name).
Proof. apply io_sparse; [done|]. intros fs. by destruct (fs_dir fs !! name). Qed.

(** A blob of the directory. *)
Definition holds (other : string) (f : File) s : Prop := blobs s !! other = Some f /\ steady s.

Lemma on_blobs_holds {A} (m : st FileSystem IoError A) other f :
  preserves (holds_entry other (Some f) (fun _ => True)) m -> preserves sparse m ->
  preserves (holds other f) (on_blobs m).
Proof.
  intros Hm Hp s [Hb Hs]. destruct (Hm (vd_blobs s) (conj Hb (fun _ _ => I))) as [He _]. specialize (Hp (vd_blobs s) Hs).
  unfold holds, blobs, steady, on_blobs. by destruct (m (vd_blobs s)).
Qed.

Lemma bq_holds {E A} (m : st (V2Dir W) E A) other f : blob_quiet m -> preserves (holds other f) m.
Proof. intros [Hf Hp] s [Hb Hs]. split; [by rewrite Hf|by apply Hp]. Qed.

Lemma create_blob_keeps hash content other f s r s' :
  holds other f s -> create_blob hash content s = (r, s') ->
  (blob_name hash = other -> fs_exists (vd_blobs s) = true /\ ∀ fault, head (fs_faults (vd_blobs s)) <> Some (Some fault)) ->
  holds other f s' /\ (r = Ok true -> blob_name hash <> other).
Proof.
  intros Hh Hrun Hsafe. unfold create_blob in Hrun.
  destruct (decide (blob_name hash = other)) as [Heq|Hne].
  - destruct (Hsafe Heq) as [Hex Hhead]. destruct Hh as [Hb Hs].
    assert (∃ fs, write_and_sync StandardAtomicFileWriter (blob_name hash) content (vd_blobs s) = (Err already_exists, fs) /\
      fs_dir fs = fs_dir (vd_blobs s) /\ fs_faults fs = tail (fs_faults (vd_blobs s))) as (fs & Hw & Hd & Hf).
    { simpl. rewrite st_bind_run. unfold open_create_new, io_all, io.
      unfold blobs in Hb. rewrite <- Heq in Hb.
      destruct (head (fs_faults (vd_blobs s))) as [[fault|]|] eqn:E; [by destruct (Hhead fault)|..];
        simpl; rewrite Hex, Hb; simpl; by eexists. }
    unfold on_blobs in Hrun. rewrite Hw in Hrun. simpl in Hrun. injection Hrun as <- <-.
    split; [|done]. split; unfold blobs, steady; simpl; [by rewrite Hd|by apply (sparse_tail (vd_blobs s))].
  - split; [|done].
    assert (preserves (holds other f) (on_blobs (write_and_sync StandardAtomicFileWriter (blob_name hash) content))) as Hw.
    { apply on_blobs_holds; [|apply write_and_sync_sparse]. simpl.
      repeat (apply preserves_bind; [|intros ?]); eauto using open_create_new_keeps, write_all_keeps, sync_all_keeps. }
    assert (preserves (holds other f) (on_blobs (remove_file StandardAtomicFileWriter (blob_name hash)))) as Hr.
    { apply on_blobs_holds; [by apply fs_remove_file_keeps|apply fs_remove_file_sparse]. }
    specialize (Hw s Hh). destruct (on_blobs _ s) as [[u|e|msg] s1]; simpl in *; [by simplify_eq| |by simplify_eq].
    specialize (Hr s1 Hw).
    destruct (io_kind e); [|by simplify_eq|]; destruct (on_blobs _ s1) as [[u|e'|msg] s2]; simpl in *; by simplify_eq.
Qed.

Definition ready s : Prop := fs_exists (vd_blobs s) = true.

Lemma reject_linked_blob_ready hash : preserves ready (reject_linked_blob (W := W) app_dir hash).
Proof.
  intros s Hs. unfold ready, reject_linked_blob, on_blobs, io_step, io_all, io in *.
  destruct (head (fs_faults (vd_blobs s))) as [[fault|]|]; simpl; [by destruct (io_kind (ft_error fault))|..]; done.
Qed.

(** A stored blob that looks absent was hidden by a failure, and the next call works. *)
Lemma blob_hidden hash f s s' :
  ready s -> steady s -> blobs s !! blob_name hash = Some f -> blob_is_file hash s = (Ok false, s') ->
  ready s' /\ ∀ fault, head (fs_faults (vd_blobs s')) <> Some (Some fault).
Proof.
  unfold ready, steady, blobs, blob_is_file, on_blobs, open_read, io_all, io. intros Hr Hs Hb Hrun.
  destruct (head (fs_faults (vd_blobs s))) as [[fault|]|] eqn:E; simpl in Hrun.
  - injection Hrun as <-. split; [done|]. intros fault'. simpl.
    destruct (fs_faults (vd_blobs s)) as [|x l] eqn:El; simplify_eq/=.
    specialize (Hs 0 fault fault'). rewrite El in Hs. simpl in Hs. destruct l; simpl in *; [done|]. by apply Hs.
  - rewrite Hb in Hrun. simpl in Hrun. done.
  - rewrite Hb in Hrun. simpl in Hrun. done.
Qed.

Lemma create_dir_ready {E} (g : IoError -> E) s u s' :
  st_map_err g (on_blobs (W := W) create_dir_all) s = (Ok u, s') -> ready s'.
Proof.
  unfold st_map_err, on_blobs, create_dir_all. destruct (io_all _ (vd_blobs s)) as [o fs] eqn:Ho.
  destruct o; simpl; intros [= <- <-]. apply io_all_Ok_inv in Ho as (faults & [= _ <-]). done.
Qed.

Lemma holds_run {A B} (m : st (V2Dir W) string A) (k : A -> st (V2Dir W) string B) other f s r s' :
  preserves (holds other f) m -> holds other f s -> (m ≫= k) s = (r, s') ->
  (holds other f s' /\ ∀ b, r <> Ok b) \/ ∃ a s1, m s = (Ok a, s1) /\ holds other f s1 /\ k a s1 = (r, s').
Proof.
  intros Hm Hh Hrun. specialize (Hm s Hh). rewrite st_bind_run in Hrun.
  destruct (m s) as [[a|e|msg] s1]; simpl in *; [right; eauto|left; by simplify_eq..].
Qed.

Lemma write_blob_keeps hash content other f s r s' :
  holds other f s -> write_blob app_dir hash content s = (r, s') ->
  holds other f s' /\ (r = Ok true -> blob_name hash <> other).
Proof.
  intros Hh. unfold write_blob. destruct (negb _); [intros [= <- <-]; done|].
  destruct (negb _); [intros [= <- <-]; done|]. intros Hrun.
  apply (holds_run _ _ other f) in Hrun as [[? Hno]|([] & s1 & Hc%create_dir_ready & Hh1 & Hrun)];
    [by split; [|intros ->; destruct (Hno true)]| |by apply bq_holds, bq_map_err, bq_create_dir|done].
  pose proof (reject_linked_blob_ready hash s1 Hc) as Hr2.
  apply (holds_run _ _ other f) in Hrun as [[? Hno]|([] & s2 & Hl & Hh2 & Hrun)];
    [by split; [|intros ->; destruct (Hno true)]| |by apply bq_holds, reject_linked_blob_bq|done].
  rewrite Hl in Hr2. simpl in Hr2.
  apply (holds_run _ _ other f) in Hrun as [[? Hno]|(present & s3 & Hp & Hh3 & Hrun)];
    [by split; [|intros ->; destruct (Hno true)]| |by apply bq_holds, blob_is_file_bq|done].
  destruct present.
  - assert (blob_quiet (existing ← read_file (W := W) hash "read existing managed-data blob failed: ";
      if negb (bool_decide (existing = content))
      then st_fail "managed-data content-addressed blob already exists with different content"
      else mret false)) as Hq.
    { apply bq_bind; [apply read_file_bq|intros existing]. destruct (negb _); [apply bq_fail|apply bq_ret]. }
    pose proof (bq_holds _ other f Hq s3 Hh3) as Hh4. rewrite Hrun in Hh4. split; [done|]. intros ->.
    inv_ok Hrun. destruct (negb _); [done|]. by inv_prim Hrun.
  - apply (create_blob_keeps hash content other f s3); [done..|]. intros <-.
    apply (blob_hidden hash f s2); [done|apply Hh2|apply Hh2|done].
Qed.

(** A written blob holds the content, which has the promised digest. *)
Lemma write_blob_Ok hash content s b s' :
  write_blob app_dir hash content s = (Ok b, s') ->
  content_digest content = hash /\ ∃ f, blobs s' !! blob_name hash = Some f /\ f_bytes f = content.
Proof.
  unfold write_blob. destruct (negb _); [done|]. case_bool_decide as Hd; simpl; [|done]. intros Hrun. split; [done|].
  inv_ok Hrun. match goal with a : bool |- _ => destruct a end.
  - apply st_bind_Ok_inv in Hrun as (existing & s4 & Hrd & Hrun).
    case_bool_decide as He; simpl in Hrun; [|done]. inv_prim Hrun.
    unfold read_file, st_map_err, on_blobs in Hrd. inv_ok Hrd. 
    match goal with H : (let '(_, _) := _ in _) = _ |- _ => rename H into Hr end.
    destruct (open_read _ _) as [o fs] eqn:Ho. destruct o as [f| |]; simplify_eq/=.
    apply io_all_Ok_inv in Ho as (faults & Ho). simpl in Ho. injection Ho as Ho <-.
    unfold blobs. simpl. destruct (fs_dir _ !! _) as [f'|] eqn:Hf in Ho; simplify_eq/=. eauto.
  - unfold create_blob, on_blobs in Hrun.
    destruct (write_and_sync _ _ _ _) as [[u|e|msg] fs] eqn:Hw.
    + injection Hrun as <- <-. apply write_and_sync_Ok in Hw. unfold blobs. simpl. eauto.
    + destruct (io_kind e); [|done|]; simpl in Hrun; destruct (fs_remove_file _ _) as [[?|e'|?] ?]; try done;
        simpl in Hrun; by destruct (io_kind e').
    + done.
Qed.

(** ** No request removes or changes a stored blob *)

Section one_blob.
Context (other : string) (f : File) (foreign : bool).

(** The blob is there and, when it is not the commit's own, the commit does not count it
    among those it created. *)
Definition kept (c : Commit W) : Prop :=
  holds other f (cm_dir c) /\
  (foreign = true -> Forall (fun hash => blob_name hash <> other) (cm_new_blobs c)).

Lemma in_commit_kept {A} (m : st (V2Dir W) string A) : blob_quiet m -> preserves kept (in_commit m).
Proof.
  intros Hm c [Hh Hn]. pose proof (bq_holds m other f Hm (cm_dir c) Hh) as Hh'.
  unfold kept, in_commit. by destruct (m (cm_dir c)).
Qed.

Lemma commit_blob_kept hash content : preserves kept (commit_blob app_dir hash content).
Proof.
  intros c [Hh Hn]. unfold kept, commit_blob.
  destruct (write_blob app_dir hash content (cm_dir c)) as [r s] eqn:Hw.
  apply (write_blob_keeps _ _ other f) in Hw as [Hh' Hne]; [|done].
  destruct r as [[]|e|msg]; simpl; split; try done. intros Hf. apply Forall_app. split; [auto|].
  constructor; [by apply Hne|done].
Qed.

Lemma commit_document_kept contract documents id staged :
  preserves kept (commit_document app_dir contract documents id staged).
Proof.
  unfold commit_document. destruct (sd_operation staged);
    repeat (apply preserves_bind; [first [apply preserves_lift|apply commit_blob_kept|apply in_commit_kept, bq_world]|intros ?]);
    apply preserves_ret.
Qed.

Lemma commit_documents_kept contract documents staged :
  preserves kept (commit_documents app_dir contract documents staged).
Proof.
  revert documents. induction staged as [|[id document] staged IH]; intros documents; simpl; [apply preserves_ret|].
  apply preserves_bind; [apply commit_document_kept|intros [result documents']].
  apply preserves_bind; [apply IH|intros [results documents'']]. apply preserves_ret.
Qed.

Lemma commit_state_kept contract digest state result : preserves kept (commit_state app_dir contract digest state result).
Proof.
  intros c [Hh Hn].
  pose proof (bq_holds _ other f (persist_v2_atomic_bq contract digest state) (cm_dir c) Hh) as Hh'.
  unfold kept, commit_state. by destruct (persist_v2_atomic app_dir contract digest state (cm_dir c)) as [[]].
Qed.

Lemma commit_closure_kept contract contract_digest digest state stage mutation_id :
  preserves kept (commit_closure app_dir contract contract_digest digest state stage mutation_id).
Proof.
  unfold commit_closure.
  apply preserves_bind; [apply in_commit_kept, commit_records_bq|intros [record_results records]].
  apply preserves_bind; [apply commit_documents_kept|intros [document_results documents]].
  apply preserves_bind; [apply in_commit_kept, validate_v2_state_bq|intros []].
  apply preserves_bind; [apply in_commit_kept, new_receipt_bq|intros receipt].
  apply preserves_bind; [apply preserves_lift|intros []]. apply commit_state_kept.
Qed.

Lemma remove_created_blobs_holds hashes :
  Forall (fun hash => blob_name hash <> other) hashes -> preserves (holds other f) (remove_created_blobs (W := W) hashes).
Proof.
  induction 1 as [|hash hashes Hne _ IH]; simpl; [apply preserves_ret|].
  apply preserves_bind; [|by intros]. intros s Hh.
  assert (preserves (holds other f) (on_blobs (remove_file StandardAtomicFileWriter (blob_name hash)))) as Hr.
  { apply on_blobs_holds; [by apply fs_remove_file_keeps|apply fs_remove_file_sparse]. }
  specialize (Hr s Hh). unfold remove_blob. by destruct (on_blobs _ s) as [[]].
Qed.

Lemma finish_commit_holds r c : foreign = true -> kept c -> holds other f (finish_commit (r, c)).2.
Proof.
  intros Hforeign [Hh Hn]. specialize (Hn Hforeign). unfold finish_commit. destruct r as [[result new]|e|msg]; [| |done].
  - apply (bq_holds (_ ← try_remove_stage (W := W); mret result) other f); [|done].
    apply bq_bind; [apply try_remove_stage_bq|intros; apply bq_ret].
  - destruct (cm_persisted c); [done|]. pose proof (remove_created_blobs_holds _ Hn (cm_dir c) Hh) as Hr.
    by destruct (remove_created_blobs (cm_new_blobs c) (cm_dir c)) as [[]].
Qed.

End one_blob.

Section requests.
Context (other : string) (f : File).

Lemma serve_v2_holds contract digest state request :
  preserves (holds other f) (serve_v2 (W := W) app_dir contract digest state request).
Proof.
  destruct request; try (apply bq_holds, serve_v2_bq; exact I). simpl. unfold commit_batch, commit_stage.
  apply preserves_bind; [apply preserves_lift|intros []]. apply preserves_bind; [apply preserves_lift|intros d].
  apply preserves_bind; [apply preserves_lift|intros [v|]]; [apply preserves_ret|].
  apply preserves_bind; [apply bq_holds, live_stage_bq|intros stage]. destruct (negb _); [apply preserves_fail|].
  apply preserves_bind; [apply preserves_lift|intros cd]. intros s Hh. unfold close_commit.
  pose proof (commit_closure_kept other f true contract cd d state stage mutation_id
    {| cm_dir := s; cm_new_blobs := []; cm_persisted := false |}) as Hk.
  destruct (commit_closure _ _ _ _ _ _ _ _) as [r c]. apply (finish_commit_holds other f true); [done|]. apply Hk. by split.
Qed.

Lemma request_v2_holds contract request : preserves (holds other f) (request_v2 (W := W) app_dir contract request).
Proof.
  unfold request_v2. destruct (negb _); [apply preserves_fail|].
  apply preserves_bind; [apply bq_holds, reject_v2_links_bq|intros []].
  apply preserves_bind; [apply bq_holds, cleanup_expired_stage_bq|intros []].
  apply preserves_bind; [apply preserves_lift|intros digest].
  apply preserves_bind; [apply bq_holds, load_v2_bq|intros state]. apply serve_v2_holds.
Qed.
End requests.

(** ** Documents keep their content *)

(** The blob of a document is there, whole. *)
Definition stored_content (sha256 : string) (length : N) (directory : Directory) : Prop :=
  ∃ f, directory !! blob_name sha256 = Some f /\ N.of_nat (String.length (f_bytes f)) = length /\
       content_digest (f_bytes f) = sha256.

Definition documents_intact (documents : gmap string Documents) (directory : Directory) : Prop :=
  ∀ collection held id document, documents !! collection = Some held -> held !! id = Some document ->
    stored_content (dr_content_sha256 document) (dr_content_length document) directory.

Definition operation_stored (operation : ManagedDataV2DocumentOperation) (directory : Directory) : Prop :=
  match operation with
  | DopCreate _ _ _ content_length content_sha256 | DopReplace _ _ _ _ _ content_length content_sha256 =>
      stored_content content_sha256 content_length directory
  | _ => True
  end.

Definition batch_stored stage (directory : Directory) : Prop :=
  ∀ id staged, (id, staged) ∈ btree_list (sg_documents stage) -> operation_stored (sd_operation staged) directory.

(** The contents of the old documents and of the batch are those of the new documents. *)
Lemma document_effect_intact id operation documents documents' directory :
  document_effect id operation documents documents' -> operation_stored operation directory ->
  documents_intact documents directory -> documents_intact documents' directory.
Proof.
  intros Heff Hop Hdocs collection held key document Hc Hk. unfold documents_intact in Hdocs. inversion Heff; subst; simpl in *;
    (match goal with H : <[?c := _]> _ !! collection = _ |- _ => destruct (decide (collection = c)) as [->|Hne] end;
     [rewrite lookup_insert_eq in Hc; injection Hc as <-|rewrite lookup_insert_ne in Hc by done; exact (Hdocs _ _ _ _ Hc Hk)]).
  - destruct (decide (key = id)) as [->|]; [rewrite lookup_insert_eq in Hk; by injection Hk as <-|].
    rewrite lookup_insert_ne in Hk by done.
    match goal with H : default ∅ (documents !! ?c) !! _ = _ |- _ => destruct (documents !! c) eqn:E; simpl in H end; [|done].
    by eauto.
  - destruct (decide (key = id)) as [->|]; [rewrite lookup_insert_eq in Hk; by injection Hk as <-|].
    rewrite lookup_insert_ne in Hk by done. by eauto.
  - match goal with H : <[?t := _]> _ !! key = _ |- _ => destruct (decide (key = t)) as [->|] end;
      [rewrite lookup_insert_eq in Hk; injection Hk as <-; simpl; by eauto|].
    rewrite lookup_insert_ne in Hk by done. by eauto.
  - apply lookup_delete_Some in Hk as [_ Hk]. by eauto.
Qed.

Lemma documents_effect_intact staged documents documents' directory :
  documents_effect staged documents documents' ->
  (∀ id document, (id, document) ∈ staged -> operation_stored (sd_operation document) directory) ->
  documents_intact documents directory -> documents_intact documents' directory.
Proof.
  induction 1 as [|id document rest d1 d2 d3 Heff _ IH]; intros Hst Hd; [done|].
  apply IH; [intros; eapply Hst; by right|]. eapply document_effect_intact; [done| |done].
  apply (Hst id). left.
Qed.

(** Later calls keep what is stored. *)
Lemma stored_kept {E A} (m : st (V2Dir W) E A) sha256 length s :
  (∀ other f, preserves (holds other f) m) -> steady s -> stored_content sha256 length (blobs s) ->
  stored_content sha256 length (blobs (m s).2) /\ steady (m s).2.
Proof.
  intros Hm Hs (f & Hf & Hrest). destruct (Hm (blob_name sha256) f s (conj Hf Hs)) as [Hf' Hs'].
  split; [|done]. by exists f.
Qed.

Lemma commit_document_stored contract documents id staged (c : Commit W) result documents' c' :
  steady (cm_dir c) -> commit_document app_dir contract documents id staged c = (Ok (result, documents'), c') ->
  operation_stored (sd_operation staged) (blobs (cm_dir c')).
Proof.
  assert (∀ hash content c1 u c2, commit_blob app_dir hash content c1 = (Ok u, c2) ->
    content_digest content = hash /\ ∃ f, blobs (cm_dir c2) !! blob_name hash = Some f /\ f_bytes f = content) as Hblob.
  { intros hash content c1 u c2. unfold commit_blob.
    destruct (write_blob app_dir hash content (cm_dir c1)) as [[b|e|msg] s1] eqn:Hw; [|done..].
    apply write_blob_Ok in Hw. destruct b; intros [= _ <-]; done. }
  assert (∀ hash length content c1 u c2 now c3, commit_blob app_dir hash content c1 = (Ok u, c2) ->
    staged_content staged length hash = Ok content -> in_commit (on_world now_rfc3339) c2 = (Ok now, c3) ->
    stored_content hash length (blobs (cm_dir c3))) as Hstored.
  { intros hash length content c1 u c2 now c3 Hb Hst Hnow. apply Hblob in Hb as (Hd & f & Hf & Hc).
    unfold staged_content in Hst. inv_ok Hst. destruct (N.eqb_spec (N.of_nat (String.length a)) length) as [Hlen|];
      simpl in Hst; [|done]. destruct (negb _); [done|]. injection Hst as ->. subst content.
    exists f. assert (blobs (cm_dir c3) = blobs (cm_dir c2)) as ->; [|done].
    destruct (bq_world now_rfc3339) as [Hq _]. specialize (Hq (cm_dir c2)).
    unfold in_commit in Hnow. destruct (on_world now_rfc3339 (cm_dir c2)). by injection Hnow as _ <-. }
  intros Hs. unfold commit_document, operation_stored. destruct (sd_operation staged); intros Hrun; [..|done|done];
    inv_ok Hrun; by eapply Hstored.
Qed.

(** The schedule stays sparse, whatever is written. *)
Lemma on_blobs_steady {A} (m : st FileSystem IoError A) : preserves sparse m -> preserves steady (on_blobs (W := W) m).
Proof. intros Hm s Hs. specialize (Hm (vd_blobs s) Hs). unfold steady, on_blobs. by destruct (m (vd_blobs s)). Qed.

Lemma create_blob_steady hash content : preserves steady (create_blob (W := W) hash content).
Proof.
  intros s Hs. unfold create_blob.
  pose proof (on_blobs_steady _ (write_and_sync_sparse (blob_name hash) content) s Hs) as Hw.
  destruct (on_blobs _ s) as [[u|e|msg] s1]; simpl in *; [done| |done].
  pose proof (on_blobs_steady _ (fs_remove_file_sparse (blob_name hash)) s1 Hw) as Hr.
  destruct (io_kind e); [|done|]; by destruct (on_blobs (fs_remove_file (blob_name hash)) s1) as [[]].
Qed.

Lemma bq_steady {E A} (m : st (V2Dir W) E A) : blob_quiet m -> preserves steady m.
Proof. by intros [_ Hp]. Qed.

Lemma write_blob_steady hash content : preserves steady (write_blob (W := W) app_dir hash content).
Proof.
  unfold write_blob. destruct (negb _); [apply preserves_fail|]. destruct (negb _); [apply preserves_fail|].
  apply preserves_bind; [apply bq_steady, bq_map_err, bq_create_dir|intros []].
  apply preserves_bind; [apply bq_steady, reject_linked_blob_bq|intros []].
  apply preserves_bind; [apply bq_steady, blob_is_file_bq|intros []]; [|apply create_blob_steady].
  apply preserves_bind; [apply bq_steady, read_file_bq|intros existing].
  destruct (negb _); [apply preserves_fail|apply preserves_ret].
Qed.

Definition steady_commit (c : Commit W) : Prop := steady (cm_dir c).

Lemma commit_document_steady contract documents id staged :
  preserves steady_commit (commit_document app_dir contract documents id staged).
Proof.
  assert (preserves steady_commit (in_commit (on_world now_rfc3339))) as Hnow.
  { intros c Hc. pose proof (bq_steady _ (bq_world now_rfc3339) (cm_dir c) Hc) as Hn.
    unfold steady_commit, in_commit. by destruct (on_world now_rfc3339 (cm_dir c)). }
  assert (∀ hash content, preserves steady_commit (commit_blob app_dir hash content)) as Hblob.
  { intros hash content c Hc. pose proof (write_blob_steady hash content (cm_dir c) Hc) as Hn.
    unfold steady_commit, commit_blob. by destruct (write_blob app_dir hash content (cm_dir c)) as [[[]| |]]. }
  unfold commit_document. destruct (sd_operation staged);
    repeat (apply preserves_bind; [first [apply preserves_lift|apply Hblob|apply Hnow]|intros ?]); apply preserves_ret.
Qed.

Lemma stored_kept_commit {A} (m : st (Commit W) string A) operation c :
  (∀ other f, preserves (kept other f false) m) -> steady_commit c -> operation_stored operation (blobs (cm_dir c)) ->
  operation_stored operation (blobs (cm_dir (m c).2)).
Proof.
  intros Hm Hs. assert (∀ sha256 length, stored_content sha256 length (blobs (cm_dir c)) ->
    stored_content sha256 length (blobs (cm_dir (m c).2))) as Hk.
  { intros sha256 length (f & Hf & Hrest). destruct (Hm (blob_name sha256) f c) as [[Hf' _] _]; [|by exists f].
    by split. }
  destruct operation; simpl; auto.
Qed.

Lemma commit_documents_stored contract documents staged (c : Commit W) results documents' c' :
  steady_commit c -> commit_documents app_dir contract documents staged c = (Ok (results, documents'), c') ->
  ∀ id document, (id, document) ∈ staged -> operation_stored (sd_operation document) (blobs (cm_dir c')).
Proof.
  revert documents c results documents' c'.
  induction staged as [|[id document] staged IH]; intros documents c results documents' c' Hs Hrun id' document' Hin;
    [inversion Hin|].
  simpl in Hrun. apply st_bind_Ok_inv in Hrun as ([result documents1] & c1 & Hone & Hrun).
  apply st_bind_Ok_inv in Hrun as ([rest documents2] & c2 & Hrest & [_ <-]%st_ret_inv).
  pose proof (commit_document_steady contract documents id document c Hs) as Hs1. rewrite Hone in Hs1.
  apply elem_of_cons in Hin as [[= -> ->]|Hin]; [|by eapply IH].
  apply commit_document_stored in Hone; [|done].
  pose proof (stored_kept_commit (commit_documents app_dir contract documents1 staged) _ c1
    (fun other f => commit_documents_kept other f false contract documents1 staged) Hs1 Hone) as Hk.
  by rewrite Hrest in Hk.
Qed.

Lemma unpublished_run {A B} (m : st (Commit W) string A) (k : A -> st (Commit W) string B) c r c' :
  unpublishing_commit m -> (m ≫= k) c = (r, c') ->
  published (cm_dir c') = published (cm_dir c) \/
  ∃ a c1, m c = (Ok a, c1) /\ k a c1 = (r, c') /\ published (cm_dir c1) = published (cm_dir c).
Proof.
  intros Hm Hrun. rewrite st_bind_run in Hrun. destruct (Hm c) as (Hf & _ & _).
  destruct (m c) as [[a|e|msg] c1]; simpl in *; [right; eauto|left; by simplify_eq..].
Qed.

(** When the closure has published, the contents of the whole batch are stored. *)
Lemma commit_closure_stored contract contract_digest digest state stage mutation_id c r c' :
  steady_commit c ->
  commit_closure app_dir contract contract_digest digest state stage mutation_id c = (r, c') ->
  published (cm_dir c') = published (cm_dir c) \/ batch_stored stage (blobs (cm_dir c')).
Proof.
  intros Hs. unfold commit_closure. intros Hrun.
  apply unpublished_run in Hrun as [?|([record_results records] & c1 & H1' & Hrun & Hp1)];
    [by left| |apply in_commit_unpublishing, commit_records_unpublishing].
  assert (steady_commit c1) as Hs1.
  { pose proof (bq_steady _ (commit_records_bq (record_document (env_generation state) contract_digest
      (env_collections state)) contract (sg_records stage)) (cm_dir c) Hs) as Hn. unfold steady_commit.
    unfold in_commit in H1'. destruct (commit_records _ _ _ _). by injection H1' as _ <-. }
  cbv beta iota in Hrun.
  apply unpublished_run in Hrun as [?|([document_results documents] & c2 & H2' & Hrun & Hp2)];
    [left; congruence| |apply commit_documents_unpublishing].
  right. pose proof (commit_documents_stored _ _ _ _ _ _ _ Hs1 H2') as Hst.
  assert (steady_commit c2) as Hs2.
  { assert (∀ documents staged, preserves steady_commit (commit_documents app_dir contract documents staged)) as Hp.
    { intros ds staged. revert ds. induction staged as [|[id document] staged IH]; intros ds; simpl; [apply preserves_ret|].
      apply preserves_bind; [apply commit_document_steady|intros []]. apply preserves_bind; [apply IH|intros []].
      apply preserves_ret. }
    specialize (Hp (env_documents state) (btree_list (sg_documents stage)) c1 Hs1). by rewrite H2' in Hp. }
  cbv beta iota in Hrun. intros id staged Hin. specialize (Hst id staged Hin).
  match type of Hrun with ?m c2 = _ =>
    pose proof (stored_kept_commit m (sd_operation staged) c2) as Hk end.
  rewrite Hrun in Hk. apply Hk; [|done|done]. intros other f.
  apply preserves_bind; [apply in_commit_kept, validate_v2_state_bq|intros []].
  apply preserves_bind; [apply in_commit_kept, new_receipt_bq|intros receipt].
  apply preserves_bind; [apply preserves_lift|intros []]. apply commit_state_kept.
Qed.

Lemma close_commit_stored contract contract_digest digest state stage mutation_id s r s' :
  steady s -> close_commit app_dir contract contract_digest digest state stage mutation_id s = (r, s') ->
  published s' = published s \/ batch_stored stage (blobs s').
Proof.
  intros Hs Hrun. unfold close_commit in Hrun.
  destruct (commit_closure _ _ _ _ _ _ _ _) as [o c] eqn:Hc.
  pose proof (commit_closure_cases _ _ _ _ _ _ _ _ _ _ Hc) as (_ & _ & Hper).
  apply commit_closure_stored in Hc; [|done]. simpl in *. unfold finish_commit in Hrun. destruct o as [[v new]|e|msg].
  - assert (published s' = published (cm_dir c) /\ blobs s' = blobs (cm_dir c)) as [-> ->]; [|done].
    rewrite st_bind_run in Hrun.
    destruct (try_remove_stage_quiet (W := W) (fun name => name = V2_STORE_FILE) store_not_stage) as [Hf _].
    destruct try_remove_stage_bq as [Hb _]. specialize (Hf V2_STORE_FILE eq_refl (cm_dir c)). specialize (Hb (cm_dir c)).
    unfold try_remove_stage in *. destruct (remove_stage (cm_dir c)) as [o' s2]. by injection Hrun as _ <-.
  - destruct (cm_persisted c); [by injection Hrun as _ <-|]. left.
    destruct (remove_created_blobs_quiet (W := W) (fun name => name = V2_STORE_FILE) (cm_new_blobs c)) as [Hf _].
    specialize (Hf V2_STORE_FILE eq_refl (cm_dir c)). specialize (Hper e eq_refl eq_refl eq_refl). unfold published in *.
    destruct (remove_created_blobs (cm_new_blobs c) (cm_dir c)) as [[[]|cl|msg] s2]; injection Hrun as _ <-; simpl in *;
      congruence.
  - by injection Hrun as _ <-.
Qed.

(** A batch that a request published is stored whole. *)
Lemma commit_request_stored contract mutation_id batch_id s r s' :
  steady s -> request_v2 app_dir contract (V2CommitBatch mutation_id batch_id) s = (r, s') ->
  published s' = published s \/
  ∃ raw stage, file_v2 V2_STAGE_FILE s = Some raw /\ stage_from_str raw = inr stage /\ batch_stored stage (blobs s').
Proof.
  intros Hs Hrun.
  apply request_v2_run in Hrun
    as [(digest & state & s1 & s3 & Hf1 & Hf3 & _ & Hpre & Hst & Hl & Hrun)|(Hf & _)]; [|by left].
  assert (steady s1) as Hs1.
  { pose proof (bq_steady (_ ← reject_v2_links app_dir; cleanup_expired_stage app_dir)
      (bq_bind _ _ reject_v2_links_bq (fun _ => cleanup_expired_stage_bq)) s Hs) as Hn. by rewrite Hpre in Hn. }
  assert (steady s3) as Hs3.
  { pose proof (bq_steady _ (load_v2_bq contract digest) s1 Hs1) as Hn. by rewrite Hl in Hn. }
  simpl in Hrun. unfold commit_batch in Hrun. rewrite <- Hf3.
  apply unpublishing_run in Hrun as [([] & s4 & [_ <-]%st_lift_inv & Hrun & _)|(? & _)]; [|by left|apply quiet_lift].
  apply unpublishing_run in Hrun as [(d & s4 & [_ <-]%st_lift_inv & Hrun & _)|(? & _)]; [|by left|apply quiet_lift].
  apply unpublishing_run in Hrun as [(answered & s4 & [_ <-]%st_lift_inv & Hrun & _)|(? & _)]; [|by left|apply quiet_lift].
  destruct answered as [v|]; [injection Hrun as _ <-; by left|].
  apply unpublishing_run in Hrun as [(stage & s4 & Hlive & Hrun & Hp4 & _)|(? & _)];
    [|by left|apply live_stage_quiet, store_visible].
  assert (steady s4) as Hs4.
  { pose proof (bq_steady _ (live_stage_bq batch_id) s3 Hs3) as Hn. by rewrite Hlive in Hn. }
  apply live_stage_Ok in Hlive as (_ & raw & Hraw & Hparse).
  destruct (negb _) in Hrun; [injection Hrun as _ <-; by left|]. unfold commit_stage in Hrun.
  apply unpublishing_run in Hrun as [(cd & s5 & [_ <-]%st_lift_inv & Hrun & _)|(? & _)];
    [|left; congruence|apply quiet_lift].
  apply close_commit_stored in Hrun as [?|Hb]; [left; congruence| |done]. right. exists raw, stage. auto.
Qed.

(** Every document of the published state has its content. *)
Definition contents_intact s : Prop :=
  ∀ state, represents_v2 (published s) state -> documents_intact (env_documents state) (blobs s).


End blobs.
