(* ===== verification/ManagedExports.v ===== *)
(** * Capabilities over managed data

    [host/src-tauri/src/managed_data.rs]: the generated handlers of an app's exports and
    proposals, and the data scope each of them insists on. A handler's two looks at its
    cancellation flag are the arguments [before] and [after]; the checks of the installed
    package ([package_digest], [read_document], [structural_error]) are arguments too. *)

From S2P Require Import Prelude RustStd RustText Json JsonOps Types Errors Grants Platform AtomicJson Artifacts Invocation Packages ManagedData ManagedDataFacts ManagedV2 ManagedV2Store ManagedV2Requests ManagedV2Facts.

#[export] Instance ManagedDataIndex_eq_dec : EqDecision ManagedDataIndex.
Proof. solve_decision. Defined.
#[export] Instance ManagedDataCollectionLimits_eq_dec : EqDecision ManagedDataCollectionLimits.
Proof. solve_decision. Defined.
#[export] Instance ManagedDocumentCollectionLimits_eq_dec : EqDecision ManagedDocumentCollectionLimits.
Proof. solve_decision. Defined.
#[export] Instance ManagedDataStoreLimits_eq_dec : EqDecision ManagedDataStoreLimits.
Proof. solve_decision. Defined.
#[export] Instance ManagedDataCollection_eq_dec : EqDecision ManagedDataCollection.
Proof. solve_decision. Defined.
#[export] Instance ManagedDocumentCollection_eq_dec : EqDecision ManagedDocumentCollection.
Proof. solve_decision. Defined.
#[export] Instance ManagedDataExportOperation_eq_dec : EqDecision ManagedDataExportOperation.
Proof. solve_decision. Defined.
#[export] Instance ManagedDataExportHostInput_eq_dec : EqDecision ManagedDataExportHostInput.
Proof. solve_decision. Defined.
#[export] Instance ManagedDataExport_eq_dec : EqDecision ManagedDataExport.
Proof. solve_decision. Defined.
#[export] Instance ManagedDataProposalTarget_eq_dec : EqDecision ManagedDataProposalTarget.
Proof. solve_decision. Defined.
#[export] Instance ManagedDataProposal_eq_dec : EqDecision ManagedDataProposal.
Proof. solve_decision. Defined.
#[export] Instance AppDataTransition_eq_dec : EqDecision AppDataTransition.
Proof. solve_decision. Defined.
#[export] Instance AppDataMigration_eq_dec : EqDecision AppDataMigration.
Proof. solve_decision. Defined.
#[export] Instance AppData_eq_dec : EqDecision AppData.
Proof. solve_decision. Defined.

(** ** Resource ids *)

Definition resource_id (app_id : AppId) (collection : string) : ResourceId :=
  "app-data:" +:+ app_id +:+ ":" +:+ collection.
Definition record_resource_id (app_id : AppId) (collection id : string) : ResourceId :=
  "app-data:" +:+ app_id +:+ ":" +:+ collection +:+ ":record:" +:+ id.
Definition document_resource_id (app_id : AppId) (collection id : string) : ResourceId :=
  "app-data:" +:+ app_id +:+ ":" +:+ collection +:+ ":document:" +:+ id.

(** ** Fields of an input *)

Definition is_digit (b : N) : bool := ((48 <=? b) && (b <=? 57))%N.

Fixpoint decimal (acc : N) (s : string) : N :=
  match s with
  | EmptyString => acc
  | String c s' => decimal (acc * 10 + (Ascii.N_of_ascii c - 48)) s'
  end.

(** [Value::as_u64]: a number written as an integer that fits. *)
Definition Value_as_u64 (v : Value) : option N :=
  match v with
  | VNumber text =>
      if negb (bool_decide (text = EmptyString)) && string_all is_digit text && (decimal 0 text <=? u64_max)%N
      then Some (decimal 0 text) else None
  | _ => None
  end.

Definition u32_max : N := 2 ^ 32 - 1.

Definition failure {A} (message : string) : outcome HandlerFailure A := Err {| hf_error := message |}.
Definition or_failure {A} (m : outcome string A) : outcome HandlerFailure A := map_err Build_HandlerFailure m.

Definition required_string (input : JsonObject) (field : string) : outcome string string :=
  ok_or (obj_get input field ≫= Value_as_str) ("managed-data input requires string '" +:+ field +:+ "'").

Definition optional_string (input : JsonObject) (field : string) : outcome string (option string) :=
  match obj_get input field with
  | None | Some VNull => Ok None
  | Some (VString value) => Ok (Some value)
  | Some _ => Err ("managed-data input '" +:+ field +:+ "' must be a string or null")
  end.

Definition optional_u32 (input : JsonObject) (field : string) : outcome string (option N) :=
  match obj_get input field with
  | None => Ok None
  | Some value =>
      match Value_as_u64 value with
      | Some n => if (n <=? u32_max)%N then Ok (Some n)
                  else Err ("managed-data input '" +:+ field +:+ "' must be an integer")
      | None => Err ("managed-data input '" +:+ field +:+ "' must be an integer")
      end
  end.

Section handlers.
Context {W : Type} `{Uuids, Libraries, ManagedWorld W, ManagedCodec, V2Codec} (app_dir : string).
Context (debug_scope : DataScope -> string).
Implicit Types (contract : HostManagedDataRef).

Abbreviation handler_op := (st (V2Dir W) HandlerFailure).

Definition store_call {A} (m : st (V2Dir W) string A) : handler_op A := st_map_err Build_HandlerFailure m.

(** ** Exports *)

(** The request of an export. *)
Definition export_request (export : ManagedDataExport) (input : JsonObject) : outcome string ManagedDataRequest :=
  match mde_operation export with
  | ExportGet =>
      id ← required_string input "id";
      Ok (ReqGet (mde_collection export) id)
  | ExportList =>
      after ← optional_string input "after";
      limit ← optional_u32 input "limit";
      Ok (ReqList (mde_collection export)
            (Some {| mq_index := mde_index export; mq_equals := obj_get input "equals"; mq_after := after;
                     mq_limit := limit |}))
  end.

Definition scope_is_exactly (scope : DataScope) (resource : ResourceId) : bool :=
  match scope with
  | Resources resource_ids => bool_decide (resource_ids = [resource])
  | NoData | AllResources => false
  end.

(** One handler of [handlers_for_exports]. *)
Definition export_handler (app_id : AppId) (data : AppData) (export : ManagedDataExport) (before after : bool)
    (input : JsonObject) (context : InvocationContext) : handler_op CapabilityOutcome :=
  if before then st_fail {| hf_error := "managed-data read cancelled" |}
  else
    let expected_resource := resource_id app_id (mde_collection export) in
    if negb (scope_is_exactly (ic_authorized_data_scope context) expected_resource)
    then st_fail {| hf_error := "managed-data export requires exact resource scope '" +:+ expected_resource +:+ "'" |}
    else
      contract ← st_lift (or_failure (ok_or (host_managed data) "managed-data contract is unavailable"));
      request ← st_lift (or_failure (export_request export input));
      result ← store_call (on_managed (managed_request app_dir contract request));
      if after then st_fail {| hf_error := "managed-data read cancelled" |}
      else mret {| co_result := result; co_artifacts := [] |}.

(** ** Proposals *)

Record ProposalTargetState := {
  pt_kind : string;
  pt_collection : string;
  pt_resource_id : ResourceId;
  pt_generation : N;
  pt_revision : option N;
}.

Definition proposal_target_of contract (app_id : AppId) (target : ManagedDataProposalTarget) (input : JsonObject)
    (state : ManagedDataV2Envelope) : outcome string ProposalTargetState :=
  match target with
  | TargetCollection collection =>
      if negb (bool_decide (is_Some (hm_collections contract !! collection)))
      then Err ("unknown managed-data collection '" +:+ collection +:+ "'")
      else Ok {| pt_kind := "collection"; pt_collection := collection; pt_resource_id := resource_id app_id collection;
                 pt_generation := env_generation state; pt_revision := None |}
  | TargetRecord collection =>
      id ← required_string input "targetId";
      _ ← validate_id (W := W) id;
      record ← ok_or (env_collections state !! collection ≫= (.!! id)) (missing_record id);
      Ok {| pt_kind := "record"; pt_collection := collection;
            pt_resource_id := record_resource_id app_id collection id;
            pt_generation := env_generation state; pt_revision := Some (mr_revision record) |}
  | TargetDocument document_collection =>
      id ← required_string input "targetId";
      _ ← validate_id (W := W) id;
      document ← ok_or (env_documents state !! document_collection ≫= (.!! id)) (missing_document id);
      Ok {| pt_kind := "document"; pt_collection := document_collection;
            pt_resource_id := document_resource_id app_id document_collection id;
            pt_generation := env_generation state; pt_revision := Some (dr_revision document) |}
  end.

(** [ManagedDataStore::proposal_target]. *)
Definition proposal_target contract (app_id : AppId) (proposal : ManagedDataProposal) (input : JsonObject) :
    st (V2Dir W) string ProposalTargetState :=
  if negb (hm_contract_version contract =? 2)%N
  then st_fail "managed-data proposals require contract version 2"
  else
    _ ← reject_v2_links app_dir;
    _ ← cleanup_expired_stage app_dir;
    digest ← st_lift (contract_digest contract);
    state ← load_v2 app_dir contract digest;
    st_lift (proposal_target_of contract app_id (mdp_target proposal) input state).

Definition proposal_scope_from_input (app_id : AppId) (proposal : ManagedDataProposal) (input : JsonObject) :
    outcome string DataScope :=
  resource ← match mdp_target proposal with
    | TargetCollection collection => Ok (resource_id app_id collection)
    | TargetRecord collection =>
        id ← required_string input "targetId";
        _ ← validate_id (W := W) id;
        Ok (record_resource_id app_id collection id)
    | TargetDocument document_collection =>
        id ← required_string input "targetId";
        _ ← validate_id (W := W) id;
        Ok (document_resource_id app_id document_collection id)
    end;
  map_err KernelError_display (DataScope_resources [resource]).

Definition expected_scope_label (scope : DataScope) : string :=
  match scope with
  | Resources resource_ids => default EmptyString (head resource_ids)
  | NoData => "none"
  | AllResources => "all-resources"
  end.

(** [revalidate_proposal_contract]: the installed package is still the one reviewed. *)
Definition revalidate_proposal_contract (actual_digest : outcome string string)
    (read_document : outcome string PackageDocument) (structural_error : PackageDocument -> option string)
    (app_id : AppId) (expected_data : AppData) (expected_package_digest : string) : outcome string unit :=
  actual ← actual_digest;
  if negb (bool_decide (actual = expected_package_digest))
  then Err "installed package changed while proposal was executing"
  else
    document ← read_document;
    if negb (bool_decide (pk_id document = app_id)) then Err "installed proposal package identity changed"
    else match structural_error document with
    | Some error => Err ("installed proposal package is no longer valid: " +:+ error)
    | None =>
        if negb (bool_decide (pk_data document = expected_data))
        then Err "installed proposal data contract changed while proposal was executing"
        else Ok tt
    end.

(** The payload, within its limit and its schema. *)
Definition proposal_payload (proposal : ManagedDataProposal) (input : JsonObject) : outcome string JsonObject :=
  payload ← ok_or (obj_get input "payload" ≫= Value_as_object) "managed-data proposal payload must be an object";
  bytes ← map_err (String.append "serialize proposal payload failed: ") (json_to_vec (VObject payload));
  if (mdp_max_payload_bytes proposal <? N.of_nat (String.length bytes))%N
  then Err ("managed-data proposal payload exceeds the " +:+ pretty (mdp_max_payload_bytes proposal) +:+ "-byte limit")
  else
    _ ← validate_schema_value (VObject payload) (mdp_payload_schema proposal) "managed-data proposal payload";
    Ok payload.

(** The target has not moved since the input named it. *)
Definition check_target_version (target : ProposalTargetState) (input : JsonObject) : outcome string unit :=
  match pt_revision target with
  | None =>
      expected ← ok_or (obj_get input "targetGeneration" ≫= Value_as_u64)
                   "managed-data proposal targetGeneration must be an integer";
      if negb (expected =? pt_generation target)%N
      then Err ("managed-data collection generation is stale; expected " +:+ pretty expected +:+ ", found "
                +:+ pretty (pt_generation target))
      else Ok tt
  | Some revision =>
      expected ← ok_or (obj_get input "targetRevision" ≫= Value_as_u64)
                   "managed-data proposal targetRevision must be an integer";
      if negb (expected =? revision)%N
      then Err ("managed-data target revision is stale; expected " +:+ pretty expected +:+ ", found " +:+ pretty revision)
      else Ok tt
  end.

Definition proposal_content (app_id : AppId) (target : ProposalTargetState) (payload : JsonObject) : Value :=
  VObject [("collection", VString (pt_collection target)); ("payload", VObject payload);
           ("resourceId", VString (pt_resource_id target)); ("targetAppId", VString app_id);
           ("targetGeneration", json_number (pt_generation target)); ("targetKind", VString (pt_kind target));
           ("targetRevision", json_option json_number (pt_revision target))].

(** One handler of [handlers_for_proposals]; [revalidated] is [revalidate_proposal_contract]. *)
Definition managed_proposal_handler (app_id : AppId) (data : AppData) (proposal : ManagedDataProposal)
    (revalidated : outcome string unit) (before after : bool) (input : JsonObject) (context : InvocationContext) :
    handler_op CapabilityOutcome :=
  if before then st_fail {| hf_error := "managed-data proposal cancelled" |}
  else
    _ ← st_lift (or_failure revalidated);
    expected_scope ← st_lift (or_failure (proposal_scope_from_input app_id proposal input));
    if negb (bool_decide (ic_authorized_data_scope context = expected_scope))
    then st_fail {| hf_error := "managed-data proposal requires exact target resource scope '"
           +:+ expected_scope_label expected_scope +:+ "', found " +:+ debug_scope (ic_authorized_data_scope context) |}
    else
      payload ← st_lift (or_failure (proposal_payload proposal input));
      contract ← st_lift (or_failure (ok_or (host_managed data) "managed-data proposal contract is unavailable"));
      target ← store_call (proposal_target contract app_id proposal input);
      _ ← st_lift (or_failure (check_target_version target input));
      let content := proposal_content app_id target payload in
      if after then st_fail {| hf_error := "managed-data proposal cancelled" |}
      else mret {| co_result := content;
                   co_artifacts := [{| ad_artifact_type := mdp_artifact_type proposal; ad_title := mdp_title proposal;
                                       ad_content := content |}] |}.
End handlers.

(** ** What the generated capabilities of managed data may do

    Exports read one collection under exactly its resource scope and publish nothing;
    proposals publish nothing either, and describe the target they were authorised for as
    the published state has it. *)

Section facts.
Context {W : Type} `{Uuids, Libraries, ManagedWorld W, ManagedCodec, V2Codec} (app_dir : string).
Context (debug_scope : DataScope -> string).
Implicit Types (contract : HostManagedDataRef) (s : V2Dir W).

Lemma scope_is_exactly_true scope resource :
  scope_is_exactly scope resource = true -> scope = Resources [resource].
Proof. destruct scope; simpl; [done|done|]. by intros ->%bool_decide_eq_true. Qed.

(** ** Exports *)

(** The resource a request touches. *)
Definition request_collection (request : ManagedDataRequest) : option string :=
  match request with
  | ReqGet c _ | ReqList c _ | ReqCreate c _ | ReqReplace c _ _ _ | ReqDelete c _ _ => Some c
  | ReqTransaction _ => None
  end.

Lemma export_request_reads export input request :
  export_request export input = Ok request ->
  request_mutations request = [] /\ request_collection request = Some (mde_collection export).
Proof.
  unfold export_request. destruct (mde_operation export); intros Hrun; inv_ok Hrun; by simplify_eq.
Qed.

Lemma store_call_run {A} (m : st (V2Dir W) string A) s a s' :
  store_call m s = (Ok a, s') -> m s = (Ok a, s').
Proof. unfold store_call, st_map_err. destruct (m s) as [[v|e|msg] s1]; naive_solver. Qed.

Lemma or_failure_Ok {A} (m : outcome string A) a : or_failure m = Ok a -> m = Ok a.
Proof. apply map_err_Ok. Qed.

(** An answered read leaves the stored document alone and answers from it. *)
Lemma managed_read_answer contract request d v d' :
  sound d -> request_mutations request = [] -> managed_request app_dir contract request d = (Ok v, d') ->
  entry STORE_FILE d' = entry STORE_FILE d /\
  ∃ digest document, ManagedDataFacts.represents (W := W) contract digest (entry STORE_FILE d) document /\
    read_answer (W := W) contract document request v.
Proof.
  intros Hs Hnone [(digest & document & d1 & d2 & [Hs1 He1] & [Hs2 He2] & _ & Hload & Hrun)|[_ Hno]]%managed_request_run;
    [|by destruct (Hno v)].
  apply load_represents in Hload; [|auto]. rewrite He1 in Hload by done.
  apply serve_step in Hrun as [_ [[Hsame Hans]|(results & changed & bytes & Hne & _)]]; [|done].
  rewrite Hsame, He2, He1 by done. split; [done|]. exists digest, document. auto.
Qed.

(** An export hands out only what its grant names. A call of an export's handler that
    succeeds was authorised for exactly the resource of the exported collection, its answer
    is what the stored document of the app holds for the one read request it stands for on
    that collection, it creates no artifact, and the stored document is unchanged. *)
Theorem export_reads_its_collection `{!ManagedCodecLaws} app_id data export before after input context s outcome s' :
  sound (vd_dir s) ->
  export_handler app_dir app_id data export before after input context s = (Ok outcome, s') ->
  ic_authorized_data_scope context = Resources [resource_id app_id (mde_collection export)] /\
  co_artifacts outcome = [] /\ entry STORE_FILE (vd_dir s') = entry STORE_FILE (vd_dir s) /\
  ∃ contract request digest document, host_managed data = Some contract /\
    request_collection request = Some (mde_collection export) /\
    ManagedDataFacts.represents (W := W) contract digest (entry STORE_FILE (vd_dir s)) document /\
    read_answer (W := W) contract document request (co_result outcome).
Proof.
  intros Hs. unfold export_handler. destruct before; [done|].
  destruct (scope_is_exactly _ _) eqn:Hscope; simpl; [|done]. apply scope_is_exactly_true in Hscope.
  intros Hrun. inv_ok Hrun. destruct after; [done|]. inv_prim Hrun. simpl.
  repeat match goal with H : or_failure _ = Ok _ |- _ => apply or_failure_Ok in H end.
  match goal with H : export_request _ _ = Ok _ |- _ => apply export_request_reads in H as [Hnone Hcol] end.
  match goal with H : ok_or (host_managed data) _ = Ok ?c |- _ =>
    assert (host_managed data = Some c) as Hc by (destruct (host_managed data); naive_solver) end.
  match goal with H : store_call _ _ = _ |- _ => apply store_call_run in H; rename H into Hcall end.
  unfold on_managed in Hcall. destruct (managed_request _ _ _ (vd_dir s)) as [o d] eqn:Hm. simplify_eq/=.
  apply managed_read_answer in Hm as (Hsame & digest & document & Hrep & Hans); [|done..].
  split_and!; try done. by repeat eexists.
Qed.

(** ** Proposals *)

Lemma DataScope_resources_Ok ids scope :
  map_err KernelError_display (DataScope_resources ids) = Ok scope -> scope = Resources ids.
Proof. unfold DataScope_resources. intros Hrun%map_err_Ok. inv_ok Hrun. by simplify_eq. Qed.

(** The scope a proposal insists on is the resource of the target it describes. *)
Lemma proposal_scope_names_target contract app_id proposal input state scope target :
  proposal_scope_from_input (W := W) app_id proposal input = Ok scope ->
  proposal_target_of (W := W) contract app_id (mdp_target proposal) input state = Ok target ->
  scope = Resources [pt_resource_id target].
Proof.
  unfold proposal_scope_from_input, proposal_target_of. destruct (mdp_target proposal) as [c|c|c]; intros Hs Ht.
  - inv_ok Hs. simplify_eq. apply DataScope_resources_Ok in Hs as ->.
    destruct (negb _); [done|]. by simplify_eq.
  - inv_ok Hs. inv_ok Ht. inv_ok Hok. apply DataScope_resources_Ok in Hs. simplify_eq/=. congruence.
  - inv_ok Hs. inv_ok Ht. inv_ok Hok. apply DataScope_resources_Ok in Hs. simplify_eq/=. congruence.
Qed.

Lemma proposal_target_generation contract app_id target input state found :
  proposal_target_of (W := W) contract app_id target input state = Ok found ->
  pt_generation found = env_generation state.
Proof.
  unfold proposal_target_of. destruct target; intros Ht; [destruct (negb _)|inv_ok Ht..]; by simplify_eq.
Qed.

(** The caller named the generation, or the revision, that the target has. *)
Definition expects_version (target : ProposalTargetState) (input : JsonObject) : Prop :=
  match pt_revision target with
  | None => obj_get input "targetGeneration" ≫= Value_as_u64 = Some (pt_generation target)
  | Some revision => obj_get input "targetRevision" ≫= Value_as_u64 = Some revision
  end.

Lemma check_target_version_Ok target input :
  check_target_version target input = Ok tt -> expects_version target input.
Proof.
  unfold check_target_version, expects_version. destruct (pt_revision target) as [revision|]; intros Hrun;
    inv_ok Hrun; destruct (_ =? _)%N eqn:He; simpl in Hrun; try done; apply N.eqb_eq in He as ->; by apply ok_or_Ok in Hok.
Qed.

Lemma proposal_payload_Ok proposal input payload :
  proposal_payload proposal input = Ok payload ->
  ∃ bytes, json_to_vec (VObject payload) = Ok bytes /\
    (N.of_nat (String.length bytes) <= mdp_max_payload_bytes proposal)%N /\
    validate_schema_value (VObject payload) (mdp_payload_schema proposal) "managed-data proposal payload" = Ok tt.
Proof.
  unfold proposal_payload. intros Hrun. inv_ok Hrun. destruct (N.ltb_spec (mdp_max_payload_bytes proposal)
    (N.of_nat (String.length a0))); [done|]. inv_ok Hrun. simplify_eq.
  match goal with H : map_err _ _ = Ok _ |- _ => apply map_err_Ok in H end. eauto.
Qed.

Lemma proposal_target_run contract app_id proposal input s target s' :
  sound_v2 s -> stat_truthful app_dir s ->
  proposal_target app_dir contract app_id proposal input s = (Ok target, s') ->
  published s' = published s /\ sound_v2 s' /\
  ∃ state, represents_v2 (published s) state /\
    proposal_target_of (W := W) contract app_id (mdp_target proposal) input state = Ok target.
Proof.
  intros Hs Hstat. unfold proposal_target. destruct (negb _); [done|]. intros Hrun.
  apply unpublishing_run in Hrun as [([] & s0 & H0' & Hrun & Hf0 & Hs0)|(_ & _ & Hno)];
    [|by destruct (Hno target)|by apply reject_v2_links_quiet, store_visible].
  apply unpublishing_run in Hrun as [([] & s1 & H1' & Hrun & Hf1 & Hs1)|(_ & _ & Hno)];
    [|by destruct (Hno target)|by apply cleanup_expired_stage_quiet; [apply store_visible|apply store_not_stage]].
  assert (Hpre : (_ ← reject_v2_links app_dir; cleanup_expired_stage app_dir) s = (Ok tt, s1))
    by (rewrite st_bind_run, H0'; exact H1').
  apply st_bind_Ok_inv in Hrun as (a & s2 & [_ <-]%st_lift_inv & Hrun).
  apply st_bind_Ok_inv in Hrun as (state & s3 & Hl & Hrun). inv_prim Hrun.
  pose proof (load_v2_quiet app_dir (fun name => name = V2_STORE_FILE) store_visible contract a) as [Hf2 Hs2].
  specialize (Hf2 V2_STORE_FILE eq_refl s1). specialize (Hs2 s1 ltac:(auto)). rewrite Hl in Hf2, Hs2. simpl in *.
  apply load_v2_represents in Hl; [|auto|by apply Hstat].
  split_and!; [unfold published in *; congruence|done|]. exists state. split; [congruence|done].
Qed.

(** A proposal never acts. A call of a proposal's handler that succeeds ran on the
    reviewed package, was authorised for exactly the one resource of its target, and leaves
    the published state as it was; what it returns, as the result and as the one artifact,
    names the target with the generation and the revision the published state has, which
    are also those the caller expected, and a payload within the declared size and schema. *)
Theorem proposal_is_exact app_id data proposal revalidated before after input context s outcome s' :
  sound_v2 s -> stat_truthful app_dir s ->
  managed_proposal_handler app_dir debug_scope app_id data proposal revalidated before after input context s
    = (Ok outcome, s') ->
  revalidated = Ok tt /\ published s' = published s /\
  ∃ contract state target payload bytes,
    host_managed data = Some contract /\ represents_v2 (published s) state /\
    proposal_target_of (W := W) contract app_id (mdp_target proposal) input state = Ok target /\
    pt_generation target = env_generation state /\ expects_version target input /\
    ic_authorized_data_scope context = Resources [pt_resource_id target] /\
    json_to_vec (VObject payload) = Ok bytes /\
    (N.of_nat (String.length bytes) <= mdp_max_payload_bytes proposal)%N /\
    validate_schema_value (VObject payload) (mdp_payload_schema proposal) "managed-data proposal payload" = Ok tt /\
    co_result outcome = proposal_content app_id target payload /\
    co_artifacts outcome = [{| ad_artifact_type := mdp_artifact_type proposal; ad_title := mdp_title proposal;
                               ad_content := proposal_content app_id target payload |}].
Proof.
  intros Hs Hstat. unfold managed_proposal_handler. destruct before; [done|]. intros Hrun. inv_ok Hrun.
  destruct (bool_decide_reflect (ic_authorized_data_scope context = a)) as [Hscope|]; simpl in Hrun; [|done].
  inv_ok Hrun. destruct after; [done|]. inv_prim Hrun.
  repeat match goal with H : or_failure _ = Ok _ |- _ => apply or_failure_Ok in H end.
  match goal with H : ok_or (host_managed data) _ = Ok _ |- _ => apply ok_or_Ok in H end.
  match goal with H : store_call _ _ = _ |- _ =>
    apply store_call_run, proposal_target_run in H as (Hpub & _ & state & Hrep & Htarget); [|done..] end.
  match goal with H : proposal_payload _ _ = Ok _ |- _ => apply proposal_payload_Ok in H as (bytes & ? & ? & ?) end.
  match goal with H : proposal_scope_from_input _ _ _ = Ok _ |- _ =>
    eapply proposal_scope_names_target in H; [|exact Htarget] end.
  match goal with H : check_target_version _ _ = Ok _ |- _ => apply check_target_version_Ok in H end.
  split_and!; [done|done|]. do 5 eexists. split_and!; try done. by eapply proposal_target_generation.
Qed.
End facts.
