(* ===== verification/PackageChecks.v ===== *)
(** * What an installable package has to satisfy

    [host/src-tauri/src/package.rs]: [structural_error] with the checks of theme colours
    and of host-managed data, and the capability schemas that exports and proposals of
    host-managed data must declare. Semantic versions come from the [semver] crate. *)

From S2P Require Import Artifacts Invocation ManagedDataFacts Prelude RustStd RustText Json JsonOps Types Errors Grants Manifest Platform ToolMapping Packages ManagedData.

(** [semver::Version]: parsing, with the error as text, and its order. *)
Class Semver := {
  Version : Type;
  Version_parse : string -> outcome string Version;
  Version_leb : Version -> Version -> bool;
}.

Definition SUPPORTED_FORMAT_VERSION : N := 1.
Definition HOST_VERSION : string := "0.1.0-alpha.1".
Definition MAX_BATCH_OPERATIONS : N := 2048.
Definition MAX_PROPOSAL_PAYLOAD_BYTES : N := 1048576.
Definition MANAGED_DATA_UUID_PATTERN : string :=
  "^[0-9a-f]{8}-[0-9a-f]{4}-[1-5][0-9a-f]{3}-[89ab][0-9a-f]{3}-[0-9a-f]{12}$".
Definition MANAGED_DATA_EXPORT_ANNOTATION : string := "x-kestral-managed-data-export".
Definition MANAGED_DATA_SCOPE_ANNOTATION : string := "x-kestral-managed-data-scope".
Definition MANAGED_DATA_PROPOSAL_ANNOTATION : string := "x-kestral-managed-data-proposal".

(** ** Theme colours *)

Definition ascii_digit (b : N) : bool := ((48 <=? b) && (b <=? 57))%N.
Definition ascii_hexdigit (b : N) : bool :=
  (ascii_digit b || (65 <=? b) && (b <=? 70) || (97 <=? b) && (b <=? 102))%N.
Definition point : Ascii.ascii := Ascii.ascii_of_N 46.
Definition comma : Ascii.ascii := Ascii.ascii_of_N 44.

Fixpoint count_char (c : Ascii.ascii) (s : string) : nat :=
  match s with
  | EmptyString => 0
  | String c' s' => (if decide (c' = c) then 1 else 0) + count_char c s'
  end.

(** The digits of a numeral without its point, as a number. *)
Fixpoint digits_value (acc : N) (s : string) : N :=
  match s with
  | EmptyString => acc
  | String c s' => if decide (c = point) then digits_value acc s' else digits_value (acc * 10 + (byte c - 48)) s'
  end.

Definition fraction_digits (s : string) : N :=
  match split_once point s with Some (_, fraction) => N.of_nat (String.length fraction) | None => 0 end.

(** [number.parse::<f64>()] compared with a bound. The nearest double to the numeral is at
    most [maximum] when the numeral is at most half a unit in the last place above it;
    [half_ulp] is the exponent of that half unit, and ties go to the bound, whose mantissa
    is even. *)
Definition f64_at_most (number : string) (maximum : N) (half_ulp : N) : bool :=
  (digits_value 0 number * 2 ^ half_ulp <=? (maximum * 2 ^ half_ulp + 1) * 10 ^ fraction_digits number)%N.

(** A bound of the CSS check: the number and the exponent of its half unit. *)
Definition bound_255 : N * N := (255, 46)%N.
Definition bound_100 : N * N := (100, 47)%N.
Definition bound_1 : N * N := (1, 53)%N.

Definition css_number_in_range (value : string) (allow_leading_dot : bool) (maximum percent_maximum : N * N) : bool :=
  let number := default value (strip_suffix "%" value) in
  if bool_decide (number = EmptyString)
     || (negb allow_leading_dot && starts_with "." number)
     || ends_with "." number
     || negb (string_all (fun b => ascii_digit b || (b =? 46)%N) number)
     || (1 <? count_char point number)
  then false
  else
    let bound := if ends_with "%" value then percent_maximum else maximum in
    f64_at_most number bound.1 bound.2.

Definition eq_ignore_ascii_case (a b : string) : bool :=
  bool_decide (to_ascii_lowercase a = to_ascii_lowercase b).

Definition theme_color_value_is_valid (value : string) : bool :=
  let value := trim value in
  if 80 <? String.length value then false
  else match strip_prefix "#" value with
  | Some hex => existsb (Nat.eqb (String.length hex)) [3; 4; 6; 8] && string_all ascii_hexdigit hex
  | None =>
      match split_once (Ascii.ascii_of_N 40) value with
      | None => false
      | Some (function, arguments) =>
          match strip_suffix ")" arguments with
          | None => false
          | Some inner =>
              let alpha := eq_ignore_ascii_case function "rgba" in
              if negb alpha && negb (eq_ignore_ascii_case function "rgb") then false
              else
                let parts := trim <$> split comma inner in
                if negb (length parts =? (if alpha then 4 else 3)) then false
                else
                  forallb (fun part => css_number_in_range part false bound_255 bound_100) (take 3 parts)
                  && (negb alpha || match parts !! 3 with
                                    | Some part => css_number_in_range part true bound_1 bound_100
                                    | None => false
                                    end)
          end
      end
  end.

Fixpoint theme_color_error (names : gset string) (colors : list AppThemeColor) : outcome string unit :=
  match colors with
  | [] => Ok tt
  | color :: colors' =>
      if bool_decide (tc_name color ∈ names)
      then Err ("theme_colors contains duplicate name '" +:+ tc_name color +:+ "'")
      else if negb (theme_color_value_is_valid (tc_light color)) || negb (theme_color_value_is_valid (tc_dark color))
      then Err ("theme color '" +:+ tc_name color
                +:+ "' must provide valid HEX, rgb(), or rgba() light and dark values")
      else theme_color_error ({[tc_name color]} ∪ names) colors'
  end.

(** ** Schemas of generated capabilities *)

Definition uuid_string : list (string * Value) :=
  [("type", VString "string"); ("pattern", VString MANAGED_DATA_UUID_PATTERN)].

Definition managed_export_input_schema (operation : ManagedDataExportOperation) (collection_name : string)
    (collection : ManagedDataCollection) (index : option ManagedDataIndex)
    (equals_host_input : option ManagedDataExportHostInput) : JsonObject :=
  let value :=
    match operation with
    | ExportGet =>
        json_object [("type", VString "object"); ("additionalProperties", VBool false);
                     ("required", json_strings ["id"]); ("properties", json_obj [("id", json_obj uuid_string)])]
    | ExportList =>
        let properties := json_object
          [("after", json_obj [("type", json_strings ["string"; "null"]);
                               ("pattern", VString MANAGED_DATA_UUID_PATTERN)]);
           ("limit", json_obj [("type", VString "integer"); ("minimum", json_number 1);
                               ("maximum", json_number (mcl_query_results (mdc_limits collection)))])] in
        let '(properties, required) :=
          match index with
          | Some index =>
              let equals_schema :=
                match equals_host_input with
                | Some CurrentChatThreadId =>
                    obj_insert (mdi_value_schema index) HOST_INPUT_ANNOTATION (VString CURRENT_CHAT_THREAD_ID)
                | None => mdi_value_schema index
                end in
              (obj_insert properties "equals" (VObject equals_schema), json_strings ["equals"])
          | None => (properties, VArray [])
          end in
        json_object [("type", VString "object"); ("additionalProperties", VBool false);
                     ("required", required); ("properties", VObject properties)]
    end in
  obj_insert value MANAGED_DATA_EXPORT_ANNOTATION (json_obj [("collection", VString collection_name)]).

Definition managed_export_output_schema (operation : ManagedDataExportOperation)
    (collection : ManagedDataCollection) : JsonObject :=
  let date_time := json_obj [("type", VString "string"); ("format", VString "date-time")] in
  let record := json_obj
    [("type", VString "object"); ("additionalProperties", VBool false);
     ("required", json_strings ["id"; "revision"; "created_at"; "updated_at"; "value"]);
     ("properties", json_obj
        [("id", json_obj uuid_string);
         ("revision", json_obj [("type", VString "integer"); ("minimum", json_number 1)]);
         ("created_at", date_time); ("updated_at", date_time); ("value", VObject (mdc_schema collection))])] in
  match operation with
  | ExportGet => json_object [("oneOf", VArray [record; json_obj [("type", VString "null")]])]
  | ExportList =>
      json_object
        [("type", VString "object"); ("additionalProperties", VBool false);
         ("required", json_strings ["records"; "next_after"]);
         ("properties", json_obj
            [("records", json_obj [("type", VString "array");
                                   ("maxItems", json_number (mcl_query_results (mdc_limits collection)));
                                   ("items", record)]);
             ("next_after", json_obj [("type", json_strings ["string"; "null"])])])]
  end.

Definition targets_collection (target : ManagedDataProposalTarget) : bool :=
  match target with TargetCollection _ => true | TargetRecord _ | TargetDocument _ => false end.

Definition managed_proposal_input_schema (proposal : ManagedDataProposal) : JsonObject :=
  let '(target_property, target_schema) :=
    match mdp_target proposal with
    | TargetCollection collection =>
        ("targetGeneration",
         json_obj [("type", VString "integer"); ("minimum", json_number 0);
                   (MANAGED_DATA_SCOPE_ANNOTATION,
                    json_obj [("kind", VString "collection"); ("collection", VString collection)])])
    | TargetRecord collection | TargetDocument collection =>
        ("targetId",
         json_obj (uuid_string ++
                   [(MANAGED_DATA_SCOPE_ANNOTATION,
                     json_obj [("kind", VString (target_kind (mdp_target proposal)));
                               ("collection", VString collection)])]))
    end in
  let properties := json_object [(target_property, target_schema)] in
  let properties :=
    if targets_collection (mdp_target proposal) then properties
    else obj_insert properties "targetRevision" (json_obj [("type", VString "integer"); ("minimum", json_number 1)]) in
  let properties := obj_insert properties "payload" (VObject (mdp_payload_schema proposal)) in
  let required :=
    if targets_collection (mdp_target proposal) then ["targetGeneration"; "payload"]
    else ["targetId"; "targetRevision"; "payload"] in
  json_object [("type", VString "object"); ("additionalProperties", VBool false);
               ("required", json_strings required); ("properties", VObject properties);
               (MANAGED_DATA_PROPOSAL_ANNOTATION, VBool true)].

Definition managed_proposal_artifact_schema (app_id : AppId) (proposal : ManagedDataProposal) : JsonObject :=
  json_object
    [("type", VString "object"); ("additionalProperties", VBool false);
     ("required", json_strings ["targetAppId"; "targetKind"; "collection"; "resourceId"; "targetGeneration";
                                "targetRevision"; "payload"]);
     ("properties", json_obj
        [("targetAppId", json_obj [("const", VString app_id)]);
         ("targetKind", json_obj [("const", VString (target_kind (mdp_target proposal)))]);
         ("collection", json_obj [("const", VString (target_collection (mdp_target proposal)))]);
         ("resourceId", json_obj [("type", VString "string"); ("minLength", json_number 1);
                                  ("maxLength", json_number 256)]);
         ("targetGeneration", json_obj [("type", VString "integer"); ("minimum", json_number 0)]);
         ("targetRevision", json_obj [("type", json_strings ["integer"; "null"]); ("minimum", json_number 1)]);
         ("payload", VObject (mdp_payload_schema proposal))])].

(** ** Host-managed data *)

Definition lowercase_letter (b : N) : bool := ((97 <=? b) && (b <=? 122))%N.
Definition name_byte (b : N) : bool := (lowercase_letter b || ascii_digit b || (b =? 45))%N.

Definition managed_name_valid (value : string) : bool :=
  match value with
  | EmptyString => false
  | String first _ => (String.length value <=? 64) && lowercase_letter (byte first) && string_all name_byte value
  end.

Definition validate_managed_data_name (value label : string) : outcome string unit :=
  if managed_name_valid value then Ok tt
  else Err ("host-managed " +:+ label +:+ " name '" +:+ value
            +:+ "' must be 1-64 lowercase ASCII letters, digits, or '-' and start with a letter").

(** [(low..=high).contains(&n)]. *)
Definition between (low high n : N) : bool := ((low <=? n) && (n <=? high))%N.

(** The schema describes an object without further members. *)
Definition closed_object_schema (schema : JsonObject) : bool :=
  bool_decide (obj_get schema "type" ≫= Value_as_str = Some "object")
  && bool_decide (obj_get schema "additionalProperties" = Some (VBool false)).

(** Guard clauses: the errors of [if condition { return Err(error) }]. *)
Definition reject {E} (condition : bool) (error : E) : outcome E unit := if condition then Err error else Ok tt.

Section managed.
Context `{Libraries}.

Definition compile_schema (schema : JsonObject) (what : string) : outcome string unit :=
  _ ← map_err (String.append (what +:+ " is invalid: ")) (schema_validator_for schema);
  Ok tt.

Definition validate_store_limits (contract_version : N) (collections : gmap string ManagedDataCollection)
    (documents : gmap string ManagedDocumentCollection) (limits : ManagedDataStoreLimits) : outcome string unit :=
  _ ← reject (negb ((contract_version =? 1) || (contract_version =? 2))%N)
        ("unsupported host-managed data contract version " +:+ pretty contract_version);
  _ ← reject (64 <? size collections) "host-managed data exceeds the 64-collection limit";
  _ ← reject ((contract_version =? 1)%N && bool_decide (collections = ∅))
        "host-managed contract v1 requires 1-64 collections";
  _ ← reject ((contract_version =? 2)%N && bool_decide (collections = ∅) && bool_decide (documents = ∅))
        "host-managed contract v2 requires at least one record or document collection";
  _ ← reject (negb (between 1024 67108864 (msl_total_bytes limits)))
        "host-managed total_bytes must be between 1024 and 67108864";
  _ ← reject (negb (between 1 64 (msl_transaction_operations limits)))
        "host-managed transaction_operations must be between 1 and 64";
  if (contract_version =? 1)%N
  then reject (bool_decide (is_Some (msl_batch_operations limits)))
         "host-managed contract v1 must not declare batch_operations"
  else
    batch_operations ← ok_or (msl_batch_operations limits) "host-managed contract v2 requires batch_operations";
    reject (negb (between 1 MAX_BATCH_OPERATIONS batch_operations))
      "host-managed batch_operations must be between 1 and 2048".

Definition collection_label (name : string) : string := "host-managed collection '" +:+ name +:+ "'".

Definition validate_index (name : string) (properties : JsonObject) (index_names : gset string)
    (index : ManagedDataIndex) : outcome string unit :=
  _ ← validate_managed_data_name (mdi_name index) "index";
  _ ← validate_managed_data_name (mdi_field index) "index field";
  _ ← reject (bool_decide (mdi_name index ∈ index_names))
        (collection_label name +:+ " contains duplicate index '" +:+ mdi_name index +:+ "'");
  property_schema ← ok_or (obj_get properties (mdi_field index))
    (collection_label name +:+ " index '" +:+ mdi_name index +:+ "' references unknown field '"
     +:+ mdi_field index +:+ "'");
  _ ← reject (negb (bool_decide (property_schema = VObject (mdi_value_schema index))))
        (collection_label name +:+ " index '" +:+ mdi_name index
         +:+ "' value_schema must equal the schema for field '" +:+ mdi_field index +:+ "'");
  compile_schema (mdi_value_schema index) (collection_label name +:+ " index '" +:+ mdi_name index +:+ "' schema").

Fixpoint validate_indexes (name : string) (properties : JsonObject) (index_names : gset string)
    (indexes : list ManagedDataIndex) : outcome string unit :=
  match indexes with
  | [] => Ok tt
  | index :: indexes' =>
      _ ← validate_index name properties index_names index;
      validate_indexes name properties ({[mdi_name index]} ∪ index_names) indexes'
  end.

Definition validate_collection (entry : string * ManagedDataCollection) : outcome string unit :=
  let '(name, collection) := entry in
  _ ← validate_managed_data_name name "collection";
  _ ← reject (negb (closed_object_schema (mdc_schema collection)))
        (collection_label name +:+ " schema must have type 'object' and additionalProperties false");
  _ ← compile_schema (mdc_schema collection) (collection_label name +:+ " schema");
  _ ← reject (bool_decide (mdc_operations collection = []))
        (collection_label name +:+ " must declare at least one operation");
  _ ← reject (negb (between 1 100000 (mcl_records (mdc_limits collection)))
              || negb (between 2 1048576 (mcl_record_bytes (mdc_limits collection)))
              || negb (between 1 1000 (mcl_query_results (mdc_limits collection))))
        (collection_label name +:+ " has limits outside host bounds");
  _ ← reject (16 <? length (mdc_indexes collection)) (collection_label name +:+ " exceeds the 16-index limit");
  properties ← ok_or (obj_get (mdc_schema collection) "properties" ≫= Value_as_object)
                 (collection_label name +:+ " schema must declare properties");
  validate_indexes name properties ∅ (mdc_indexes collection).

Definition validate_document_collection (entry : string * ManagedDocumentCollection) : outcome string unit :=
  let '(name, collection) := entry in
  let label := "host-managed document collection '" +:+ name +:+ "'" in
  _ ← validate_managed_data_name name "document collection";
  _ ← reject (negb (closed_object_schema (mdd_metadata_schema collection)))
        (label +:+ " metadata_schema must have type 'object' and additionalProperties false");
  _ ← compile_schema (mdd_metadata_schema collection) (label +:+ " metadata schema");
  reject (bool_decide (mdd_operations collection = [])
          || negb (between 1 10000 (mdl_documents (mdd_limits collection)))
          || negb (between 2 65536 (mdl_metadata_bytes (mdd_limits collection)))
          || negb (between 1 8388608 (mdl_content_bytes (mdd_limits collection))))
    (label +:+ " has limits or operations outside host bounds").

(** *** Exports *)

(** [capability_by_name]: a later declaration replaces an earlier one of the same name. *)
Definition capability_by_name (capabilities : list CapabilityDeclaration) : gmap string CapabilityDeclaration :=
  foldl (fun m capability => <[cd_name capability := capability]> m) ∅ capabilities.

Definition export_label (export : ManagedDataExport) : string :=
  "host-managed export '" +:+ mde_capability export +:+ "'".

Definition export_operation (operation : ManagedDataExportOperation) : ManagedDataOperation :=
  match operation with ExportGet => OpGet | ExportList => OpList end.

Definition export_index (export : ManagedDataExport) (collection : ManagedDataCollection) :
    outcome string (option ManagedDataIndex) :=
  match mde_operation export, mde_index export with
  | ExportGet, Some _ => Err ("host-managed get export '" +:+ mde_capability export +:+ "' must not declare an index")
  | ExportList, Some name =>
      Some <$> ok_or (List.find (fun index => bool_decide (mdi_name index = name)) (mdc_indexes collection))
                 ("host-managed list export '" +:+ mde_capability export +:+ "' references unknown index '"
                  +:+ name +:+ "'")
  | _, None => Ok None
  end.

Definition is_list_export (export : ManagedDataExport) : bool :=
  match mde_operation export with ExportList => true | ExportGet => false end.

Definition validate_export (collections : gmap string ManagedDataCollection)
    (by_name : gmap string CapabilityDeclaration) (exported_names : gset string) (export : ManagedDataExport) :
    outcome string unit :=
  _ ← reject (bool_decide (mde_capability export ∈ exported_names))
        ("host-managed capability '" +:+ mde_capability export +:+ "' is exported more than once");
  collection ← ok_or (collections !! mde_collection export)
    (export_label export +:+ " references unknown collection '" +:+ mde_collection export +:+ "'");
  _ ← reject (negb (bool_decide (export_operation (mde_operation export) ∈ mdc_operations collection)))
        (export_label export +:+ " uses an operation not enabled for collection '" +:+ mde_collection export +:+ "'");
  index ← export_index export collection;
  _ ← reject (bool_decide (is_Some (mde_equals_host_input export))
              && (negb (is_list_export export) || negb (bool_decide (is_Some index))))
        (export_label export +:+ " may bind equality host input only for an indexed list");
  _ ← reject (match mde_equals_host_input export with Some CurrentChatThreadId => true | None => false end
              && negb (bool_decide (((index : option ManagedDataIndex)
                        ≫= fun index => obj_get (mdi_value_schema index) "type") ≫= Value_as_str = Some "string")))
        (export_label export +:+ " current Chat thread binding requires a string index");
  capability ← ok_or (by_name !! mde_capability export)
                 (export_label export +:+ " has no matching manifest capability");
  _ ← reject (negb (bool_decide (cd_effect capability = EffectReadOnly)))
        (export_label export +:+ " must declare effect 'read-only'");
  reject (negb (bool_decide (cd_input_schema capability =
                  managed_export_input_schema (mde_operation export) (mde_collection export) collection index
                    (mde_equals_host_input export)))
          || negb (bool_decide (cd_output_schema capability =
                     Some (managed_export_output_schema (mde_operation export) collection))))
    (export_label export +:+ " capability schemas do not match its fixed host operation").

Fixpoint validate_exports (collections : gmap string ManagedDataCollection)
    (by_name : gmap string CapabilityDeclaration) (exported_names : gset string) (exports : list ManagedDataExport) :
    outcome string (gset string) :=
  match exports with
  | [] => Ok exported_names
  | export :: exports' =>
      _ ← validate_export collections by_name exported_names export;
      validate_exports collections by_name ({[mde_capability export]} ∪ exported_names) exports'
  end.

(** *** Proposals *)

Definition proposal_label (proposal : ManagedDataProposal) : string :=
  "host-managed proposal '" +:+ mdp_capability proposal +:+ "'".

Definition validate_proposal_payload_schema (capability : CapabilityName) (schema : JsonObject) : outcome string unit :=
  _ ← reject (negb (closed_object_schema schema))
        ("host-managed proposal '" +:+ capability
         +:+ "' payload_schema must have type 'object' and additionalProperties false");
  compile_schema schema ("host-managed proposal '" +:+ capability +:+ "' payload schema").

Definition is_blank_text (s : string) : bool := bool_decide (trim s = EmptyString).

Definition target_declared (collections : gmap string ManagedDataCollection)
    (documents : gmap string ManagedDocumentCollection) (proposal : ManagedDataProposal) : outcome string unit :=
  match mdp_target proposal with
  | TargetCollection collection | TargetRecord collection =>
      reject (negb (bool_decide (is_Some (collections !! collection))))
        (proposal_label proposal +:+ " references unknown collection '" +:+ collection +:+ "'")
  | TargetDocument document_collection =>
      reject (negb (bool_decide (is_Some (documents !! document_collection))))
        (proposal_label proposal +:+ " references unknown document collection '" +:+ document_collection +:+ "'")
  end.

(** One iteration of the loop over the proposals: the artifact types still unclaimed. *)
Definition validate_proposal (collections : gmap string ManagedDataCollection)
    (documents : gmap string ManagedDocumentCollection) (by_name : gmap string CapabilityDeclaration)
    (app_id : string) (exported_names : gset string) (artifacts : gmap string ArtifactTypeDeclaration)
    (proposal : ManagedDataProposal) : outcome string unit :=
  _ ← reject (bool_decide (mdp_capability proposal ∈ exported_names))
        ("host-managed capability '" +:+ mdp_capability proposal +:+ "' is exported or proposed more than once");
  _ ← reject (is_blank_text (mdp_title proposal) || (256 <? chars_count (mdp_title proposal)))
        (proposal_label proposal +:+ " title must contain 1-256 characters");
  _ ← reject (is_blank_text (mdp_description proposal) || (2000 <? chars_count (mdp_description proposal)))
        (proposal_label proposal +:+ " description must contain 1-2000 characters");
  _ ← reject (negb (between 1 MAX_PROPOSAL_PAYLOAD_BYTES (mdp_max_payload_bytes proposal)))
        (proposal_label proposal +:+ " max_payload_bytes must be between 1 and 1048576");
  _ ← validate_proposal_payload_schema (mdp_capability proposal) (mdp_payload_schema proposal);
  _ ← target_declared collections documents proposal;
  capability ← ok_or (by_name !! mdp_capability proposal)
                 (proposal_label proposal +:+ " has no matching manifest capability");
  _ ← reject (negb (bool_decide (cd_effect capability = EffectLocalWrite)))
        (proposal_label proposal +:+ " must declare effect 'local-write'");
  artifact ← ok_or (artifacts !! mdp_artifact_type proposal)
    (proposal_label proposal +:+ " has no matching manifest artifact type '" +:+ mdp_artifact_type proposal +:+ "'");
  let envelope_schema := managed_proposal_artifact_schema app_id proposal in
  _ ← reject (negb (bool_decide (cd_input_schema capability = managed_proposal_input_schema proposal))
              || negb (bool_decide (cd_output_schema capability = Some envelope_schema)))
        (proposal_label proposal +:+ " capability schemas do not match its fixed host operation");
  reject (negb (bool_decide (at_json_schema artifact = envelope_schema)))
    (proposal_label proposal +:+ " artifact type schema does not match its fixed host envelope").

Fixpoint validate_proposals (collections : gmap string ManagedDataCollection)
    (documents : gmap string ManagedDocumentCollection) (by_name : gmap string CapabilityDeclaration)
    (app_id : string) (exported_names : gset string) (artifacts : gmap string ArtifactTypeDeclaration)
    (proposals : list ManagedDataProposal) : outcome string (gset string) :=
  match proposals with
  | [] => Ok exported_names
  | proposal :: proposals' =>
      _ ← validate_proposal collections documents by_name app_id exported_names artifacts proposal;
      validate_proposals collections documents by_name app_id ({[mdp_capability proposal]} ∪ exported_names)
        (delete (mdp_artifact_type proposal) artifacts) proposals'
  end.

Definition artifact_by_name (artifact_types : list ArtifactTypeDeclaration) : gmap string ArtifactTypeDeclaration :=
  foldl (fun m artifact => <[at_name artifact := artifact]> m) ∅ artifact_types.

Definition validate_host_managed_data (contract_version : N) (collections : gmap string ManagedDataCollection)
    (documents : gmap string ManagedDocumentCollection) (limits : ManagedDataStoreLimits)
    (exports : list ManagedDataExport) (proposals : list ManagedDataProposal)
    (capabilities : list CapabilityDeclaration) (artifact_types : list ArtifactTypeDeclaration) (app_id : string) :
    outcome string unit :=
  _ ← validate_store_limits contract_version collections documents limits;
  _ ← for_each validate_collection (btree_list collections);
  _ ← reject ((contract_version =? 1)%N && negb (bool_decide (documents = ∅)))
        "host-managed contract v1 must not declare document collections";
  _ ← reject ((contract_version =? 1)%N && negb (bool_decide (proposals = [])))
        "host-managed contract v1 must not declare proposals";
  _ ← reject (32 <? size documents) "host-managed data exceeds the 32-document-collection limit";
  _ ← for_each validate_document_collection (btree_list documents);
  _ ← reject (64 <? length exports + length proposals) "host-managed data exceeds the 64-export limit";
  let by_name := capability_by_name capabilities in
  exported ← validate_exports collections by_name ∅ exports;
  names ← validate_proposals collections documents by_name app_id exported (artifact_by_name artifact_types) proposals;
  reject (negb (length capabilities =? size names)
          || existsb (fun capability => negb (bool_decide (cd_name capability ∈ names))) capabilities)
    ("a host-managed backend-free app may declare only capabilities listed in data.exports or data.proposals").
End managed.

(** ** The structural check *)

Section structure.
Context `{Libraries, Semver}.

Definition parse_semver (what version : string) : outcome string Version :=
  map_err (String.append (what +:+ " '" +:+ version +:+ "' is not strict semver: ")) (Version_parse version).

Definition semver_error (what version : string) : outcome string unit :=
  _ ← parse_semver what version;
  Ok tt.

Fixpoint validate_transitions (format_version : N) (seen : gset (N * N)) (transitions : list AppDataTransition) :
    outcome string unit :=
  match transitions with
  | [] => Ok tt
  | t :: transitions' =>
      _ ← reject ((adt_from t =? 0) || (adt_to t =? 0) || (adt_from t =? adt_to t))%N
            "app-data migration transitions require distinct positive versions";
      _ ← reject (negb (adt_from t =? format_version) && negb (adt_to t =? format_version))%N
            ("app-data migration transition " +:+ pretty (adt_from t) +:+ " -> " +:+ pretty (adt_to t)
             +:+ " is unrelated to declared format " +:+ pretty format_version);
      _ ← reject (bool_decide ((adt_from t, adt_to t) ∈ seen))
            ("duplicate app-data migration transition " +:+ pretty (adt_from t) +:+ " -> " +:+ pretty (adt_to t));
      validate_transitions format_version ({[(adt_from t, adt_to t)]} ∪ seen) transitions'
  end.

Definition runs_locally (backend : Backend) : bool :=
  match backend with McpStdio _ _ _ | Executable _ _ _ _ => true | _ => false end.

Definition validate_versioned (document : PackageDocument) (format_version : N) (migration : AppDataMigration) :
    outcome string unit :=
  _ ← reject (format_version =? 0)%N "versioned app data requires a positive format_version";
  _ ← reject (negb (runs_locally (pk_backend document)))
        "versioned app data requires an mcp-stdio or executable local backend";
  _ ← reject (negb (adm_protocol_version migration =? 1)%N)
        ("unsupported app-data migration protocol version " +:+ pretty (adm_protocol_version migration));
  _ ← reject (negb (is_safe_relative (adm_entry migration))) "app-data migration entry is not a safe package path";
  _ ← reject (negb (bool_decide (adm_entry migration ∈ (in_assets (pk_integrity document)).*1)))
        ("app-data migration entry '" +:+ adm_entry migration +:+ "' is not declared in integrity.assets");
  _ ← reject (negb (bool_decide (adm_command migration = adm_entry migration))
              && negb (bool_decide (adm_entry migration ∈ adm_args migration)))
        "app-data migration command must execute its declared package entry";
  validate_transitions format_version ∅ (adm_transitions migration).

Definition validate_agent_worker (document : PackageDocument) : outcome string unit :=
  match pk_backend document with
  | AgentWorker _ _ _ =>
      _ ← reject (negb (bool_decide (capability_names document = ["agent.run"])))
            "an 'agent-worker' backend must declare exactly the 'agent.run' capability";
      reject (negb (bool_decide ("agent-transcript" ∈ (at_name <$> pm_artifact_types (pk_manifest document)))))
        "an 'agent-worker' backend must declare the 'agent-transcript' artifact type"
  | _ => Ok tt
  end.

Definition validate_consumer_request (document : PackageDocument) (consumer : ConsumerGrantRequest) :
    outcome string unit :=
  _ ← reject (bool_decide (cgr_holder consumer = pk_id document))
        ("consumer_grant_requests must name another app; use manifest.grant_requests for the package itself");
  reject (negb (bool_decide (GrantScope_provider (gq_scope (cgr_request consumer)) = pk_id document)))
    "consumer_grant_requests may only expose capabilities provided by this package".

Definition is_none_backend (backend : Backend) : bool :=
  match backend with BackendNone => true | _ => false end.

Definition validate_data (document : PackageDocument) : outcome string unit :=
  match pk_data document with
  | DataNone => Ok tt
  | DataHostManaged contract_version collections documents limits exports proposals =>
      _ ← reject (negb (is_none_backend (pk_backend document)))
            "host-managed data contract v1 requires a 'none' backend";
      validate_host_managed_data contract_version collections documents limits exports proposals
        (pm_capabilities (pk_manifest document)) (pm_artifact_types (pk_manifest document)) (pk_id document)
  | DataVersioned format_version migration => validate_versioned document format_version migration
  end.

Definition is_host_managed (data : AppData) : bool :=
  match data with DataHostManaged _ _ _ _ _ _ => true | _ => false end.

(** The checks of [structural_error], in order; an [Err] is the [Some] it returns. *)
Definition check_structure (document : PackageDocument) : outcome string unit :=
  _ ← reject (negb (pk_format_version document =? SUPPORTED_FORMAT_VERSION)%N)
        ("unsupported package format version " +:+ pretty (pk_format_version document)
         +:+ " (this host supports 1)");
  _ ← reject (negb (id_is_valid (pk_id document)))
        ("invalid app id '" +:+ pk_id document
         +:+ "': must be reverse-DNS (contain a dot) and not start with 'mcp-'");
  _ ← semver_error "version" (pk_version document);
  _ ← semver_error "min_host_version" (pk_min_host_version document);
  _ ← semver_error "host version" HOST_VERSION;
  _ ← reject (negb (bool_decide (in_algorithm (pk_integrity document) = "sha256")))
        ("unsupported integrity algorithm '" +:+ in_algorithm (pk_integrity document) +:+ "'");
  _ ← theme_color_error ∅ (pk_theme_colors document);
  _ ← reject (is_none_backend (pk_backend document)
              && negb (bool_decide (pm_capabilities (pk_manifest document) = []))
              && negb (is_host_managed (pk_data document)))
        "a 'none' backend must not declare capabilities (nothing would back them)";
  _ ← validate_data document;
  _ ← validate_agent_worker document;
  for_each (validate_consumer_request document) (pk_consumer_grant_requests document).

(** A panic of a library the check calls counts as its error. *)
Definition structural_error (document : PackageDocument) : option string :=
  match check_structure document with Ok _ => None | Err error => Some error | Panic msg => Some msg end.

Definition host_compatible (min_host_version : string) : outcome string bool :=
  min ← parse_semver "min_host_version" min_host_version;
  host ← parse_semver "host version" HOST_VERSION;
  Ok (Version_leb min host).
End structure.

(** ** What the structural check of a package guarantees

    A package with host-managed data runs no code of its publisher: each of its
    capabilities is one export or one proposal whose schema, effect and target are the
    host's, and the data scope the host derives for a call is the scope its handler
    insists on. *)

(** ** Guards *)

Lemma reject_Ok {E} condition (error : E) : reject condition error = Ok tt <-> condition = false.
Proof. unfold reject. by destruct condition. Qed.

Lemma reject_not_Ok {E} (P : Prop) `{Decision P} (error : E) : reject (negb (bool_decide P)) error = Ok tt -> P.
Proof. rewrite reject_Ok, negb_false_iff. apply bool_decide_eq_true. Qed.

Lemma between_true low high n : between low high n = true <-> (low <= n <= high)%N.
Proof. unfold between. rewrite andb_true_iff, !N.leb_le. done. Qed.

(** Take a successful chain of guards apart. *)
Ltac inv_guards H :=
  inv_ok H;
  repeat match goal with
  | G : reject (negb (bool_decide _)) _ = Ok _ |- _ => apply reject_not_Ok in G
  | G : reject _ _ = Ok _ |- _ => apply reject_Ok in G
  | G : ok_or _ _ = Ok _ |- _ => apply ok_or_Ok in G
  | G : bool_decide _ = false |- _ => apply bool_decide_eq_false in G
  | G : (_ || _) = false |- _ => apply orb_false_iff in G as [? ?]
  | G : negb (bool_decide _) = false |- _ => apply negb_false_iff, bool_decide_eq_true in G
  | G : negb (between _ _ _) = false |- _ => apply negb_false_iff, between_true in G
  end.

Lemma for_each_sorted {E A} (f : string * A -> outcome E unit) (m : gmap string A) k a :
  for_each f (btree_list m) = Ok tt -> m !! k = Some a -> f (k, a) = Ok tt.
Proof. intros Hall Hk. apply for_each_Ok with (x := (k, a)) in Hall; [done|by apply elem_of_btree_list]. Qed.

(** ** Indexing a list by name *)

Section by_name.
Context {A : Type} (key : A -> string).

Definition insert_by_key (m : gmap string A) (a : A) : gmap string A := <[key a := a]> m.

Lemma index_elem l m k a :
  foldl insert_by_key m l !! k = Some a -> m !! k = Some a \/ (a ∈ l /\ key a = k).
Proof.
  revert m. induction l as [|b l IH]; intros m Hk; simpl in *; [by left|].
  apply IH in Hk as [Hk|[Hin Hkey]]; [|right; split; [by apply list_elem_of_further|done]].
  unfold insert_by_key in Hk. destruct (decide (key b = k)) as [<-|Hne].
  - rewrite lookup_insert_eq in Hk. simplify_eq. right. split; [apply list_elem_of_here|done].
  - rewrite lookup_insert_ne in Hk by done. by left.
Qed.
End by_name.

Lemma capability_by_name_elem capabilities name capability :
  capability_by_name capabilities !! name = Some capability ->
  capability ∈ capabilities /\ cd_name capability = name.
Proof. intros [Hk|?]%(index_elem cd_name); [by rewrite lookup_empty in Hk|done]. Qed.

Lemma artifact_by_name_elem artifacts name artifact :
  artifact_by_name artifacts !! name = Some artifact -> artifact ∈ artifacts /\ at_name artifact = name.
Proof. intros [Hk|?]%(index_elem at_name); [by rewrite lookup_empty in Hk|done]. Qed.

Lemma size_names_le (names : list string) : size (list_to_set names : gset string) <= length names.
Proof.
  induction names as [|n names IH]; simpl; [done|]. destruct (decide (n ∈ names)) as [Hn|Hn].
  - rewrite subseteq_union_1_L by (rewrite singleton_subseteq_l; by apply elem_of_list_to_set). lia.
  - rewrite size_union, size_singleton by set_solver. lia.
Qed.

(** As many names as entries, all of them found: every entry has a name of its own. *)
Lemma names_cover {A} (name : A -> string) (l : list A) (names : gset string) :
  length l = size names -> (∀ a, a ∈ l -> name a ∈ names) -> (∀ n, n ∈ names -> n ∈ name <$> l) ->
  NoDup (name <$> l).
Proof.
  intros Hl Hin Hcov. assert (list_to_set (name <$> l) = names) as Hset.
  { apply set_eq. intros n. rewrite elem_of_list_to_set. split; [|apply Hcov].
    intros (a & -> & Ha)%list_elem_of_fmap. by apply Hin. }
  assert (length (name <$> l) = size (list_to_set (C := gset string) (name <$> l))) as Hs
    by (by rewrite length_fmap, Hl, Hset).
  clear Hl Hin Hcov Hset. revert Hs. generalize (name <$> l) as ns.
  induction ns as [|n ns IH]; intros Hs; [constructor|]. simpl in Hs.
  destruct (decide (n ∈ ns)) as [Hn|Hn].
  - exfalso. rewrite subseteq_union_1_L in Hs by (rewrite singleton_subseteq_l; by apply elem_of_list_to_set).
    pose proof (size_names_le ns). lia.
  - constructor; [done|]. apply IH. rewrite size_union, size_singleton in Hs by set_solver. lia.
Qed.

(** ** Host-managed contracts *)

Section managed.
Context `{Libraries}.

(** [capability] is the export [export]: a read of a declared collection with the schemas
    of the host. *)
Definition fixed_export (collections : gmap string ManagedDataCollection) (export : ManagedDataExport)
    (capability : CapabilityDeclaration) : Prop :=
  cd_name capability = mde_capability export /\ cd_effect capability = EffectReadOnly /\
  ∃ collection index,
    collections !! mde_collection export = Some collection /\
    export_operation (mde_operation export) ∈ mdc_operations collection /\
    export_index export collection = Ok index /\
    cd_input_schema capability = managed_export_input_schema (mde_operation export) (mde_collection export)
                                   collection index (mde_equals_host_input export) /\
    cd_output_schema capability = Some (managed_export_output_schema (mde_operation export) collection).

(** [capability] is the proposal [proposal]: it yields artifacts of a type that accepts the
    host's envelope and is this proposal's alone. *)
Definition fixed_proposal (collections : gmap string ManagedDataCollection)
    (documents : gmap string ManagedDocumentCollection) (artifact_types : list ArtifactTypeDeclaration)
    (app_id : AppId) (proposal : ManagedDataProposal) (capability : CapabilityDeclaration) : Prop :=
  cd_name capability = mdp_capability proposal /\ cd_effect capability = EffectLocalWrite /\
  (mdp_max_payload_bytes proposal <= MAX_PROPOSAL_PAYLOAD_BYTES)%N /\
  target_declared collections documents proposal = Ok tt /\
  cd_input_schema capability = managed_proposal_input_schema proposal /\
  cd_output_schema capability = Some (managed_proposal_artifact_schema app_id proposal) /\
  ∃ artifact, artifact ∈ artifact_types /\ at_name artifact = mdp_artifact_type proposal /\
    at_json_schema artifact = managed_proposal_artifact_schema app_id proposal.

Lemma validate_export_Ok collections by_name names export :
  validate_export collections by_name names export = Ok tt ->
  ~ (mde_capability export ∈ names) /\
  ∃ capability, by_name !! mde_capability export = Some capability /\
    (cd_name capability = mde_capability export -> fixed_export collections export capability).
Proof.
  unfold validate_export. intros Hrun. inv_guards Hrun. split; [done|].
  match goal with G : by_name !! _ = Some ?c |- _ => exists c; split; [done|] end.
  intros Hname. split_and!; [done|done|]. eexists _, _. split_and!; done.
Qed.

Lemma validate_exports_Ok collections by_name names exports out :
  validate_exports collections by_name names exports = Ok out ->
  out = list_to_set (mde_capability <$> exports) ∪ names /\ NoDup (mde_capability <$> exports) /\
  (∀ export, export ∈ exports -> ~ (mde_capability export ∈ names) /\
    ∃ capability, by_name !! mde_capability export = Some capability /\
      (cd_name capability = mde_capability export -> fixed_export collections export capability)).
Proof.
  revert names. induction exports as [|export exports IH]; intros names Hrun; simpl in *.
  { simplify_eq. split_and!; [set_solver|constructor|by intros ? ?%elem_of_nil]. }
  apply bind_unit_Ok in Hrun as [He Hrun]. apply validate_export_Ok in He.
  apply IH in Hrun as (-> & Hnd & Hall). split_and!; [set_solver| |].
  - constructor; [|done]. intros (e & He' & Hin)%list_elem_of_fmap. apply (Hall e Hin). rewrite <- He'. set_solver.
  - intros e [->|Hin]%elem_of_cons; [done|]. destruct (Hall e Hin) as [Hn ?]. split; [set_solver|done].
Qed.

Lemma validate_proposal_Ok collections documents by_name app_id names artifacts proposal :
  validate_proposal collections documents by_name app_id names artifacts proposal = Ok tt ->
  ~ (mdp_capability proposal ∈ names) /\
  ∃ capability artifact, by_name !! mdp_capability proposal = Some capability /\
    artifacts !! mdp_artifact_type proposal = Some artifact /\
    ∀ artifact_types, artifact ∈ artifact_types -> at_name artifact = mdp_artifact_type proposal ->
      cd_name capability = mdp_capability proposal ->
      fixed_proposal collections documents artifact_types app_id proposal capability.
Proof.
  unfold validate_proposal. intros Hrun. inv_guards Hrun. split; [done|]. eexists _, _. split_and!; [done|done|].
  intros artifact_types Hin Hat Hname. unfold fixed_proposal. split_and!; try done; [lia|]. by eexists.
Qed.

Definition proposal_declared (collections : gmap string ManagedDataCollection)
    (documents : gmap string ManagedDocumentCollection) (by_name : gmap string CapabilityDeclaration)
    (app_id : AppId) (artifacts : gmap string ArtifactTypeDeclaration) (proposal : ManagedDataProposal) : Prop :=
  ∃ capability artifact, by_name !! mdp_capability proposal = Some capability /\
    artifacts !! mdp_artifact_type proposal = Some artifact /\
    ∀ artifact_types, artifact ∈ artifact_types -> at_name artifact = mdp_artifact_type proposal ->
      cd_name capability = mdp_capability proposal ->
      fixed_proposal collections documents artifact_types app_id proposal capability.

Lemma validate_proposals_Ok collections documents by_name app_id names artifacts proposals out :
  validate_proposals collections documents by_name app_id names artifacts proposals = Ok out ->
  out = list_to_set (mdp_capability <$> proposals) ∪ names /\ NoDup (mdp_capability <$> proposals) /\
  NoDup (mdp_artifact_type <$> proposals) /\
  (∀ proposal, proposal ∈ proposals -> ~ (mdp_capability proposal ∈ names) /\
    proposal_declared collections documents by_name app_id artifacts proposal).
Proof.
  revert names artifacts. induction proposals as [|proposal proposals IH]; intros names artifacts Hrun; simpl in *.
  { simplify_eq. split_and!; [set_solver|constructor|constructor|by intros ? ?%elem_of_nil]. }
  apply bind_unit_Ok in Hrun as [He Hrun]. apply validate_proposal_Ok in He.
  apply IH in Hrun as (-> & Hnd & Hat & Hall). split_and!; [set_solver| | |].
  - constructor; [|done]. intros (e & He' & Hin)%list_elem_of_fmap. apply (Hall e Hin). rewrite <- He'. set_solver.
  - constructor; [|done]. intros (e & He' & Hin)%list_elem_of_fmap.
    destruct (Hall e Hin) as (_ & ? & ? & _ & Hl & _). by rewrite <- He', lookup_delete_eq in Hl.
  - intros e [->|Hin]%elem_of_cons; [done|]. destruct (Hall e Hin) as (Hn & c & a & Hc & Ha & Hf).
    split; [set_solver|]. apply lookup_delete_Some in Ha as [_ Ha]. by exists c, a.
Qed.

(** *** Whole contracts *)

Record contract_accepted (contract_version : N) (collections : gmap string ManagedDataCollection)
    (documents : gmap string ManagedDocumentCollection) (exports : list ManagedDataExport)
    (proposals : list ManagedDataProposal) (capabilities : list CapabilityDeclaration)
    (artifact_types : list ArtifactTypeDeclaration) (app_id : AppId) : Prop := {
  ca_version : contract_version = 1%N \/ contract_version = 2%N;
  ca_names : NoDup (cd_name <$> capabilities);
  ca_generated : NoDup ((mde_capability <$> exports) ++ (mdp_capability <$> proposals));
  ca_artifacts : NoDup (mdp_artifact_type <$> proposals);
  ca_exports : ∀ export, export ∈ exports ->
    ∃ capability, capability ∈ capabilities /\ fixed_export collections export capability;
  ca_proposals : ∀ proposal, proposal ∈ proposals ->
    ∃ capability, capability ∈ capabilities /\
      fixed_proposal collections documents artifact_types app_id proposal capability;
  ca_backed : ∀ capability, capability ∈ capabilities ->
    (∃ export, export ∈ exports /\ fixed_export collections export capability) \/
    ∃ proposal, proposal ∈ proposals /\
      fixed_proposal collections documents artifact_types app_id proposal capability;
}.

Lemma names_unique {A} (name : A -> string) (l : list A) a b :
  NoDup (name <$> l) -> a ∈ l -> b ∈ l -> name a = name b -> a = b.
Proof.
  intros Hnd (i & Hi)%list_elem_of_lookup (j & Hj)%list_elem_of_lookup Hn.
  assert (i = j) as ->; [|congruence].
  apply (NoDup_lookup (name <$> l) i j (name a)); [done|..].
  - by rewrite list_lookup_fmap, Hi.
  - by rewrite list_lookup_fmap, Hj, Hn.
Qed.

(** The last guard: no capability without an export or a proposal. *)
Lemma only_generated (capabilities : list CapabilityDeclaration) (exports proposals : list string) :
  existsb (fun capability => negb (bool_decide (cd_name capability ∈
    list_to_set (C := gset string) proposals ∪ (list_to_set exports ∪ ∅)))) capabilities = false ->
  ∀ c, c ∈ capabilities -> cd_name c ∈ exports ++ proposals.
Proof.
  intros Hin c Hc. rewrite elem_of_app. destruct (decide (cd_name c ∈ exports)) as [|Hne]; [by left|].
  right. destruct (decide (cd_name c ∈ proposals)) as [|Hnp]; [done|]. exfalso.
  eapply eq_true_false_abs, Hin. apply existsb_exists. exists c. split; [by apply list_elem_of_In|].
  apply negb_true_iff, bool_decide_eq_false. set_solver.
Qed.

Lemma validate_host_managed_data_Ok contract_version collections documents limits exports proposals capabilities
    artifact_types app_id :
  validate_host_managed_data contract_version collections documents limits exports proposals capabilities
    artifact_types app_id = Ok tt ->
  contract_accepted contract_version collections documents exports proposals capabilities artifact_types app_id.
Proof.
  unfold validate_host_managed_data. intros Hrun.
  apply bind_unit_Ok in Hrun as [Hlimits Hrun].
  do 6 (apply bind_unit_Ok in Hrun as [_ Hrun]).
  apply bind_Ok_inv in Hrun as (exported & (-> & Hnde & Hexports)%validate_exports_Ok & Hrun).
  apply bind_Ok_inv in Hrun as (names & (-> & Hndp & Hnda & Hproposals)%validate_proposals_Ok & Hrun).
  apply reject_Ok, orb_false_iff in Hrun as [Hlen%negb_false_iff%Nat.eqb_eq Hin].
  pose proof (only_generated _ _ _ Hin) as Hall.
  assert (Hcover : ∀ n, n ∈ list_to_set (C := gset string) (mdp_capability <$> proposals) ∪
      (list_to_set (mde_capability <$> exports) ∪ ∅) -> n ∈ cd_name <$> capabilities).
  { intros n [Hn|[Hn|Hn]%elem_of_union]%elem_of_union; [| |set_solver]; apply elem_of_list_to_set in Hn;
      apply list_elem_of_fmap in Hn as (e & -> & He).
    - destruct (Hproposals e He) as (_ & c & _ & Hc%capability_by_name_elem & _). destruct Hc as [Hc <-].
      by apply list_elem_of_fmap_2.
    - destruct (Hexports e He) as (_ & c & Hc%capability_by_name_elem & _). destruct Hc as [Hc <-].
      by apply list_elem_of_fmap_2. }
  assert (Hnd : NoDup (cd_name <$> capabilities)).
  { eapply names_cover; [exact Hlen| |exact Hcover]. intros c Hc%Hall. set_solver. }
  assert (Hexp : ∀ export, export ∈ exports ->
    ∃ capability, capability ∈ capabilities /\ fixed_export collections export capability).
  { intros e He. destruct (Hexports e He) as (_ & c & Hc%capability_by_name_elem & Hf). exists c. naive_solver. }
  assert (Hprop : ∀ proposal, proposal ∈ proposals -> ∃ capability, capability ∈ capabilities /\
    fixed_proposal collections documents artifact_types app_id proposal capability).
  { intros e He. destruct (Hproposals e He) as (_ & c & a & Hc%capability_by_name_elem & Ha%artifact_by_name_elem & Hf).
    exists c. naive_solver. }
  constructor; try done.
  - unfold validate_store_limits in Hlimits. apply bind_unit_Ok in Hlimits as [Hv _].
    apply reject_Ok, negb_false_iff, orb_true_iff in Hv as [Hv%N.eqb_eq|Hv%N.eqb_eq]; auto.
  - rewrite NoDup_app. split_and!; [done| |done]. intros n (e & -> & He)%list_elem_of_fmap (q & Hq & Hqin)%list_elem_of_fmap.
    destruct (Hproposals q Hqin) as [Hn _]. apply Hn. rewrite <- Hq. set_solver.
  - intros c Hc. pose proof (Hall c Hc) as Hn. apply elem_of_app in Hn as [Hn|Hn];
      apply list_elem_of_fmap in Hn as (e & Hn & He).
    + left. exists e. split; [done|]. destruct (Hexp e He) as (c' & Hc' & Hf).
      rewrite (names_unique cd_name capabilities c c'); [done..|]. destruct Hf as [-> _]. done.
    + right. exists e. split; [done|]. destruct (Hprop e He) as (c' & Hc' & Hf).
      rewrite (names_unique cd_name capabilities c c'); [done..|]. destruct Hf as [-> _]. done.
Qed.
End managed.

(** ** The structural check *)

Section structure.
Context `{Libraries, Semver}.

Lemma structural_error_None document : structural_error document = None -> check_structure document = Ok tt.
Proof. unfold structural_error. by destruct (check_structure document) as [[]| |]. Qed.

(** The parts of a successful check. *)
Lemma check_structure_Ok document :
  check_structure document = Ok tt ->
  id_is_valid (pk_id document) = true /\ validate_data document = Ok tt /\ validate_agent_worker document = Ok tt /\
  (pk_backend document = BackendNone -> pm_capabilities (pk_manifest document) <> [] ->
     is_host_managed (pk_data document) = true) /\
  (∀ consumer, consumer ∈ pk_consumer_grant_requests document ->
     validate_consumer_request document consumer = Ok tt).
Proof.
  unfold check_structure. intros Hrun.
  apply bind_unit_Ok in Hrun as [_ Hrun]. apply bind_unit_Ok in Hrun as [Hid%reject_Ok%negb_false_iff Hrun].
  do 5 (apply bind_unit_Ok in Hrun as [_ Hrun]). apply bind_unit_Ok in Hrun as [Hnone%reject_Ok Hrun].
  apply bind_unit_Ok in Hrun as [Hdata Hrun]. apply bind_unit_Ok in Hrun as [Hworker Hrun].
  split_and!; try done; [|by apply for_each_Ok].
  intros Hb Hc. rewrite Hb, bool_decide_eq_false_2 in Hnone by done. simpl in Hnone. by apply negb_false_iff.
Qed.

(** C27: A package without a backend runs no code of its publisher. When the structural check
    accepts a package with the backend [none], every capability it declares is one that the
    host generates: either exactly one export, read-only, over a declared collection that
    enables the operation, or exactly one proposal, a local write whose artifact type is its
    own; in both cases the schemas are those the host fixes. No two capabilities share a
    name, and each declared export and proposal has its capability. *)
Theorem backendless_capabilities_are_generated document :
  structural_error document = None -> pk_backend document = BackendNone ->
  pm_capabilities (pk_manifest document) = [] \/
  ∃ contract_version collections documents limits exports proposals,
    pk_data document = DataHostManaged contract_version collections documents limits exports proposals /\
    contract_accepted contract_version collections documents exports proposals
      (pm_capabilities (pk_manifest document)) (pm_artifact_types (pk_manifest document)) (pk_id document).
Proof.
  intros (_ & Hdata & _ & Hnone & _)%structural_error_None%check_structure_Ok Hb.
  destruct (decide (pm_capabilities (pk_manifest document) = [])) as [|Hne]; [by left|]. right.
  specialize (Hnone Hb Hne). unfold validate_data in Hdata.
  destruct (pk_data document) as [|fv m|v cs ds lims es ps]; try done. do 6 eexists. split; [done|].
  apply bind_unit_Ok in Hdata as [_ Hdata]. by eapply validate_host_managed_data_Ok.
Qed.
End structure.
