(* ===== verification/InvocationScopes.v ===== *)
(** * The data scope of an invocation

    [host/src-tauri/src/tool_mapping.rs] and [file_resources.rs]: what the host asks the
    kernel to authorise when an app calls a capability with some input. For managed data it
    follows annotations that the structural check puts under the host's control. *)

From S2P Require Import Prelude RustStd RustText Json JsonOps Types Errors Grants Manifest Platform Artifacts Broker Invocation KernelGrants ToolMapping ArtifactsApp Packages ManagedData ManagedDataFacts ManagedV2 ManagedV2Store ManagedV2Requests ManagedV2Facts ManagedExports PackageChecks.

(** [Iterator::find_map]. *)
Fixpoint find_map {A B} (f : A -> option B) (l : list A) : option B :=
  match l with
  | [] => None
  | a :: l' => match f a with Some b => Some b | None => find_map f l' end
  end.

(** The first property with a scope annotation, and the annotation. *)
Definition scope_annotation (property : string * Value) : option (string * JsonObject) :=
  schema ← Value_as_object property.2;
  annotation ← obj_get schema MANAGED_DATA_SCOPE_ANNOTATION ≫= Value_as_object;
  Some (property.1, annotation).

Definition annotated_resource (provider : AppId) (annotated : string * JsonObject) (input : JsonObject) :
    option ResourceId :=
  let '(field, value) := annotated in
  kind ← obj_get value "kind" ≫= Value_as_str;
  collection ← obj_get value "collection" ≫= Value_as_str;
  if bool_decide (kind = "collection") && bool_decide (field = "targetGeneration")
  then Some (resource_id provider collection)
  else if bool_decide (kind = "record") && bool_decide (field = "targetId")
  then (fun id => record_resource_id provider collection id) <$> (obj_get input field ≫= Value_as_str)
  else if bool_decide (kind = "document") && bool_decide (field = "targetId")
  then (fun id => document_resource_id provider collection id) <$> (obj_get input field ≫= Value_as_str)
  else None.

Definition proposal_invocation_scope (capability : CapabilityRef) (schema input : JsonObject) : option DataScope :=
  properties ← obj_get schema "properties" ≫= Value_as_object;
  annotated ← find_map scope_annotation properties;
  resource ← annotated_resource (cr_provider capability) annotated input;
  match DataScope_resources [resource] with Ok scope => Some scope | _ => None end.

(** [installed] is the manifest the kernel has for the provider. *)
Definition managed_data_invocation_data_scope (installed : option AppManifest) (capability : CapabilityRef)
    (input : JsonObject) : outcome string (option DataScope) :=
  match installed ≫= (fun manifest => List.find (fun declaration =>
          bool_decide (cd_name declaration = cr_capability capability)) (m_capabilities manifest)) with
  | None => Ok None
  | Some declaration =>
      let schema := cd_input_schema declaration in
      match obj_get schema MANAGED_DATA_EXPORT_ANNOTATION with
      | Some annotation =>
          match Value_get annotation "collection" ≫= Value_as_str with
          | None => Ok (Some NoData)
          | Some collection =>
              match DataScope_resources [resource_id (cr_provider capability) collection] with
              | Ok scope => Ok (Some scope)
              | _ => Panic "managed-data export annotation must produce a resource scope"
              end
          end
      | None =>
          if negb (bool_decide (obj_get schema MANAGED_DATA_PROPOSAL_ANNOTATION = Some (VBool true))) then Ok None
          else Ok (proposal_invocation_scope capability schema input)
      end
  end.

(** [file_resources::invocation_data_scope]. *)
Definition file_invocation_data_scope (capability : CapabilityRef) (input : JsonObject) : DataScope :=
  if negb (bool_decide (cr_provider capability = file_broker_app_id)) then NoData
  else match obj_get input "resource_id" ≫= Value_as_str with
       | Some resource_id => Resources [resource_id]
       | None => NoData
       end.

Definition invocation_data_scope (installed : option AppManifest) (store : ArtifactStore) (live : list Grant)
    (capability : CapabilityRef) (input : JsonObject) : outcome string DataScope :=
  managed ← managed_data_invocation_data_scope installed capability input;
  Ok (default (default (file_invocation_data_scope capability input)
                 (artifacts_invocation_data_scope store live capability input)) managed).

(** ** The host asks for what the handlers insist on *)

Lemma one_resource id : DataScope_resources [id] = Ok (Resources [id]).
Proof.
  unfold DataScope_resources, DataScope_validate.
  assert (size (list_to_set [id] : gset ResourceId) = 1%nat) as Hsize.
  { unfold list_to_set. rewrite union_empty_r_L. apply size_singleton. }
  case_bool_decide as Hb; [|done]. exfalso. apply Hb. exact Hsize.
Qed.

Lemma find_capability capabilities capability :
  NoDup (cd_name <$> capabilities) -> capability ∈ capabilities ->
  List.find (fun declaration => bool_decide (cd_name declaration = cd_name capability)) capabilities
  = Some capability.
Proof.
  intros Hnd Hin. destruct (List.find _ _) as [found|] eqn:Hf.
  - apply find_some in Hf as [Hf%list_elem_of_In Hn%bool_decide_eq_true]. f_equal.
    by apply (names_unique cd_name capabilities).
  - eapply find_none in Hf; [|by apply list_elem_of_In]. by rewrite bool_decide_eq_true_2 in Hf.
Qed.

Lemma export_schema_annotated operation collection_name collection index host_input :
  obj_get (managed_export_input_schema operation collection_name collection index host_input)
    MANAGED_DATA_EXPORT_ANNOTATION = Some (json_obj [("collection", VString collection_name)]).
Proof. unfold managed_export_input_schema. apply obj_get_insert_eq. Qed.

(** A payload schema that does not pose as a target. *)
Definition plain_payload (proposal : ManagedDataProposal) : Prop :=
  scope_annotation ("payload", VObject (mdp_payload_schema proposal)) = None.

Lemma proposal_schema_annotated proposal :
  obj_get (managed_proposal_input_schema proposal) MANAGED_DATA_EXPORT_ANNOTATION = None /\
  obj_get (managed_proposal_input_schema proposal) MANAGED_DATA_PROPOSAL_ANNOTATION = Some (VBool true).
Proof. unfold managed_proposal_input_schema. by destruct (mdp_target proposal). Qed.

(** The target property of a proposal's input, and what follows the payload. *)
Definition target_property (target : ManagedDataProposalTarget) : string * Value :=
  match target with
  | TargetCollection collection =>
      ("targetGeneration",
       json_obj [("type", VString "integer"); ("minimum", json_number 0);
                 (MANAGED_DATA_SCOPE_ANNOTATION,
                  json_obj [("kind", VString "collection"); ("collection", VString collection)])])
  | TargetRecord collection | TargetDocument collection =>
      ("targetId",
       json_obj (uuid_string ++ [(MANAGED_DATA_SCOPE_ANNOTATION,
                   json_obj [("kind", VString (target_kind target)); ("collection", VString collection)])]))
  end.

Definition revision_property (target : ManagedDataProposalTarget) : list (string * Value) :=
  if targets_collection target then []
  else [("targetRevision", json_obj [("type", VString "integer"); ("minimum", json_number 1)])].

Lemma proposal_schema_properties proposal :
  obj_get (managed_proposal_input_schema proposal) "properties" =
  Some (VObject (("payload", VObject (mdp_payload_schema proposal)) ::
                 target_property (mdp_target proposal) :: revision_property (mdp_target proposal))).
Proof. destruct proposal as [? ? ? ? target ? ?]. destruct target; vm_compute; reflexivity. Qed.

Lemma target_property_annotated target :
  scope_annotation (target_property target) =
  Some (if targets_collection target then "targetGeneration" else "targetId",
        json_object [("kind", VString (target_kind target)); ("collection", VString (target_collection target))]).
Proof. destruct target; vm_compute; reflexivity. Qed.

(** The resource a proposal is about. *)
Definition target_resource (app_id : AppId) (target : ManagedDataProposalTarget) (input : JsonObject) :
    option ResourceId :=
  match target with
  | TargetCollection collection => Some (resource_id app_id collection)
  | TargetRecord collection => record_resource_id app_id collection <$> (obj_get input "targetId" ≫= Value_as_str)
  | TargetDocument collection =>
      document_resource_id app_id collection <$> (obj_get input "targetId" ≫= Value_as_str)
  end.

Lemma annotated_target_resource app_id target input :
  annotated_resource app_id
    (if targets_collection target then "targetGeneration" else "targetId",
     json_object [("kind", VString (target_kind target)); ("collection", VString (target_collection target))]) input
  = target_resource app_id target input.
Proof. destruct target; vm_compute; reflexivity. Qed.

Lemma proposal_schema_scope app_id capability proposal input :
  plain_payload proposal ->
  proposal_invocation_scope {| cr_provider := app_id; cr_capability := capability |}
    (managed_proposal_input_schema proposal) input =
  (fun resource => Resources [resource]) <$> target_resource app_id (mdp_target proposal) input.
Proof.
  intros Hplain. unfold proposal_invocation_scope. rewrite proposal_schema_properties.
  cbn [mbind option_bind Value_as_object find_map]. unfold plain_payload in Hplain. rewrite Hplain.
  rewrite target_property_annotated. cbn [cr_provider mbind option_bind]. rewrite annotated_target_resource.
  destruct (target_resource _ _ _); simpl; [by rewrite one_resource|done].
Qed.

(** What a handler computes is what the target says. *)
Lemma proposal_scope_target {W} `{ManagedWorld W} app_id proposal input scope :
  proposal_scope_from_input (W := W) app_id proposal input = Ok scope ->
  Some scope = (fun resource => Resources [resource]) <$> target_resource app_id (mdp_target proposal) input.
Proof.
  unfold proposal_scope_from_input, target_resource. intros Hs.
  destruct (mdp_target proposal) as [c|c|c]; inv_ok Hs; simplify_eq/=;
    apply DataScope_resources_Ok in Hs as ->; [done|..]; inv_ok Hok; simplify_eq;
    (match goal with G : required_string _ _ = Ok _ |- _ => apply ok_or_Ok in G; by rewrite G end).
Qed.

(** C29: The host asks for exactly the authority its generated handlers insist on. In the
    manifest of a package that the structural check accepted, the scope the host derives for
    a call of an export is the one resource that the export's handler accepts, never a
    panic; and for a call of a proposal whose payload schema does not pose as a target, it
    is the scope the proposal's handler computes from the same input. *)
Theorem derived_scope_is_required {W} `{ManagedWorld W} manifest contract_version collections documents exports
    proposals artifact_types input :
  contract_accepted contract_version collections documents exports proposals (m_capabilities manifest)
    artifact_types (m_app_id manifest) ->
  (∀ export, export ∈ exports ->
     ∃ scope, managed_data_invocation_data_scope (Some manifest)
         {| cr_provider := m_app_id manifest; cr_capability := mde_capability export |} input = Ok (Some scope) /\
       scope_is_exactly scope (resource_id (m_app_id manifest) (mde_collection export)) = true) /\
  (∀ proposal scope, proposal ∈ proposals -> plain_payload proposal ->
     proposal_scope_from_input (W := W) (m_app_id manifest) proposal input = Ok scope ->
     managed_data_invocation_data_scope (Some manifest)
       {| cr_provider := m_app_id manifest; cr_capability := mdp_capability proposal |} input = Ok (Some scope)).
Proof.
  intros Hca. split.
  - intros export (c & Hc & Hname & _ & collection & index & _ & _ & _ & Hin & _)%(ca_exports _ _ _ _ _ _ _ _ Hca).
    exists (Resources [resource_id (m_app_id manifest) (mde_collection export)]).
    split; [|by apply bool_decide_eq_true].
    unfold managed_data_invocation_data_scope. rewrite <- Hname. cbn [mbind option_bind cr_capability cr_provider].
    rewrite find_capability; [|by eapply ca_names|done]. rewrite Hin, export_schema_annotated.
    change (Value_get _ "collection" ≫= Value_as_str) with (Some (mde_collection export)). cbv iota beta.
    by rewrite one_resource.
  - intros proposal scope (c & Hc & Hname & _ & _ & _ & Hin & _)%(ca_proposals _ _ _ _ _ _ _ _ Hca) Hplain Hs.
    unfold managed_data_invocation_data_scope. rewrite <- Hname. cbn [mbind option_bind cr_capability cr_provider].
    rewrite find_capability; [|by eapply ca_names|done]. rewrite Hin.
    destruct (proposal_schema_annotated proposal) as [-> ->]. rewrite bool_decide_eq_true_2 by done. simpl.
    rewrite proposal_schema_scope by done. f_equal. symmetry. by apply (proposal_scope_target (W := W)).
Qed.
