(* ===== verification/Drive.v ===== *)
(** * A drive with links

    The files that are not the host's own, as [std::fs] shows them: a tree with symbolic
    links, in which other processes act between any two calls and every call may fail. File
    names are UTF-8 text, on which [to_string_lossy] and [to_str] change nothing. *)

From S2P Require Import Prelude RustStd RustText Types AtomicJson Packages.

(** ** Paths

    [Path::components] on Unix. An absolute path without links is the list of the names
    below the root. *)

Inductive PathComponent := RootDir | CurDir | ParentDir | Normal (name : string).

#[export] Instance PathComponent_eq_dec : EqDecision PathComponent.
Proof. solve_decision. Defined.

Abbreviation Names := (list string).

(** Empty parts and ["."] disappear, except for a leading ["."]. *)
Definition component_of (part : string) : list PathComponent :=
  if bool_decide (part = "" \/ part = ".") then []
  else if bool_decide (part = "..") then [ParentDir] else [Normal part].

Definition path_components (path : string) : list PathComponent :=
  let parts := split slash path in
  (if starts_with "/" path then [RootDir]
   else match parts with "." :: _ => [CurDir] | _ => [] end) ++ (parts ≫= component_of).

Definition join_names (names : Names) : string := String.concat "/" names.

(** [path.display()] and [path.to_string_lossy()] of an absolute path. *)
Definition show_path (names : Names) : string := "/" +:+ join_names names.

(** ** The drive *)

(** A directory entry; a regular file is known by its number (device and inode). *)
Inductive Entry :=
  | EFile (inode : N)
  | EDirectory
  | ESymlink (target : list PathComponent)
  | EOther.

#[export] Instance Entry_eq_dec : EqDecision Entry.
Proof. solve_decision. Defined.

(** Entries by path below the root, and the bytes of the regular files. *)
Record Volume := { v_entries : gmap Names Entry; v_files : gmap N string }.

Definition entry_at (v : Volume) (p : Names) : option Entry :=
  match p with [] => Some EDirectory | _ => v_entries v !! p end.

Definition bytes_of (v : Volume) (inode : N) : string := default "" (v_files v !! inode).

Definition other_error (message : string) : IoError := {| io_kind := OtherKind; io_message := message |}.
Definition not_a_directory : IoError := other_error "Not a directory".
Definition is_a_directory : IoError := other_error "Is a directory".
Definition too_many_links : IoError := other_error "Too many levels of symbolic links".

(** The symbolic links one resolution may follow. *)
Definition MAX_LINKS : nat := 40.

(** Resolve [todo] from the directory [here], following every link. *)
Fixpoint walk (v : Volume) (links : nat) {struct links} : Names -> list PathComponent -> outcome IoError Names :=
  fix go (here : Names) (todo : list PathComponent) {struct todo} :=
  match todo with
  | [] => Ok here
  | RootDir :: rest => go [] rest
  | CurDir :: rest => go here rest
  | ParentDir :: rest => go (removelast here) rest
  | Normal name :: rest =>
      match v_entries v !! (here ++ [name]) with
      | None => Err not_found
      | Some EDirectory => go (here ++ [name]) rest
      | Some (ESymlink target) =>
          match links with
          | O => Err too_many_links
          | S links' => walk v links' here (target ++ rest)
          end
      | Some _ => match rest with [] => Ok (here ++ [name]) | _ => Err not_a_directory end
      end
  end.

(** What an absolute path names, links followed ([fs::canonicalize]). *)
Definition resolve (v : Volume) (p : Names) : outcome IoError Names := walk v MAX_LINKS [] (Normal <$> p).

Definition is_directory (v : Volume) (p : Names) : bool := bool_decide (entry_at v p = Some EDirectory).

(** The directory entry a path names: its last component is not followed. *)
Definition locate (v : Volume) (p : Names) : outcome IoError Names :=
  match last p with
  | None => Ok []
  | Some name =>
      here ← resolve v (removelast p);
      if is_directory v here then Ok (here ++ [name]) else Err not_a_directory
  end.

(** ** Calls *)

(** What happens at one call: other processes act first; then it fails or takes effect. *)
Record DriveCall := { dc_others : Volume -> Volume; dc_fault : option Fault }.

Record Drive := { dr_volume : Volume; dr_calls : list DriveCall; dr_draws : nat }.

Definition with_volume (v : Volume) (d : Drive) : Drive :=
  {| dr_volume := v; dr_calls := tail (dr_calls d); dr_draws := dr_draws d |}.

Definition drive_call {A} (partial : Fault -> Volume -> Volume) (m : Volume -> outcome IoError A * Volume) :
    st Drive IoError A := fun d =>
  match dr_calls d with
  | {| dc_others := others; dc_fault := Some fault |} :: _ =>
      (Err (ft_error fault), with_volume (partial fault (others (dr_volume d))) d)
  | {| dc_others := others; dc_fault := None |} :: _ =>
      let '(r, v) := m (others (dr_volume d)) in (r, with_volume v d)
  | [] => let '(r, v) := m (dr_volume d) in (r, with_volume v d)
  end.

(** A call that writes nothing. *)
Definition drive_look {A} (f : Volume -> outcome IoError A) : st Drive IoError A :=
  drive_call (fun _ v => v) (fun v => (f v, v)).

(** A call that changes the entries, or nothing. *)
Definition drive_edit (f : Volume -> outcome IoError (gmap Names Entry)) : st Drive IoError unit :=
  drive_call (fun _ v => v) (fun v =>
    match f v with
    | Ok entries => (Ok tt, {| v_entries := entries; v_files := v_files v |})
    | Err error => (Err error, v)
    | Panic msg => (Panic msg, v)
    end).

(** [fs::Metadata]; modification times are whatever the drive says. *)
Class FileTimes := { modified_at : Volume -> Names -> option DateTime }.

Record Metadata := { md_entry : Entry; md_len : N; md_modified : option DateTime }.

Definition is_file (m : Metadata) : bool := match md_entry m with EFile _ => true | _ => false end.
Definition is_dir (m : Metadata) : bool := bool_decide (md_entry m = EDirectory).
Definition is_symlink (m : Metadata) : bool := match md_entry m with ESymlink _ => true | _ => false end.

Section calls.
Context `{FileTimes}.

Definition metadata_at (v : Volume) (p : Names) : outcome IoError Metadata :=
  entry ← ok_or (entry_at v p) not_found;
  Ok {| md_entry := entry;
        md_len := match entry with EFile inode => N.of_nat (String.length (bytes_of v inode)) | _ => 0 end;
        md_modified := modified_at v p |}.

Definition symlink_metadata (p : Names) : st Drive IoError Metadata :=
  drive_look (fun v => p ← locate v p; metadata_at v p).

(** [fs::metadata]. *)
Definition metadata (p : Names) : st Drive IoError Metadata :=
  drive_look (fun v => p ← resolve v p; metadata_at v p).
End calls.

Definition canonicalize (p : Names) : st Drive IoError Names := drive_look (fun v => resolve v p).

(** [Path::exists]: an error counts as absence. *)
Definition path_exists {E} (p : Names) : st Drive E bool := fun d =>
  let '(r, d') := drive_look (fun v => resolve v p) d in (Ok (is_ok r), d').

(** [File::open] for reading: the file found. *)
Definition open_file (p : Names) : st Drive IoError Entry :=
  drive_look (fun v => p ← resolve v p; ok_or (entry_at v p) not_found).

Definition opened_bytes (v : Volume) (file : Entry) : outcome IoError string :=
  match file with
  | EFile inode => Ok (bytes_of v inode)
  | EDirectory => Err is_a_directory
  | _ => Err (other_error "Not a regular file")
  end.

(** [file.take(limit).read_to_end(buffer)]. *)
Definition read_up_to (file : Entry) (limit : N) : st Drive IoError string :=
  drive_look (fun v => String.substring 0 (N.to_nat limit) <$> opened_bytes v file).

(** Reading an open file until nothing is left. *)
Definition read_all (file : Entry) : st Drive IoError string := drive_look (fun v => opened_bytes v file).

(** The names [fs::read_dir] gives. *)
Definition children (v : Volume) (p : Names) : list string :=
  omap (fun e => match last e.1 with
                 | Some name => if bool_decide (e.1 = p ++ [name]) then Some name else None
                 | None => None
                 end) (map_to_list (v_entries v)).

Definition read_dir (p : Names) : st Drive IoError (list string) :=
  drive_look (fun v =>
    p ← resolve v p;
    if is_directory v p then Ok (children v p) else Err not_a_directory).

(** [OpenOptions::new().create_new(true).write(true).open(path)]: a new, empty file. *)
Definition create_new (p : Names) : st Drive IoError N :=
  drive_call (fun _ v => v) (fun v =>
    match p ← locate v p; match entry_at v p with Some _ => Err already_exists | None => Ok p end with
    | Ok p =>
        let inode := fresh (dom (v_files v)) in
        (Ok inode, {| v_entries := <[p := EFile inode]> (v_entries v); v_files := <[inode := ""]> (v_files v) |})
    | Err error => (Err error, v)
    | Panic msg => (Panic msg, v)
    end).

(** [file.write_all(bytes)] on a new file: a failure leaves a prefix. *)
Definition write_bytes (inode : N) (bytes : string) : st Drive IoError unit :=
  let put text v := {| v_entries := v_entries v; v_files := <[inode := text]> (v_files v) |} in
  drive_call (fun fault => put (String.substring 0 (ft_written fault) bytes)) (fun v => (Ok tt, put bytes v)).

(** [file.sync_all()]: the drive's caches are not modelled. *)
Definition sync_file : st Drive IoError unit := drive_look (fun _ => Ok tt).

(** The entries below [from], and [from] itself, under [to]. *)
Definition move_tree (from to : Names) (entries : gmap Names Entry) : gmap Names Entry :=
  list_to_map ((fun e => if bool_decide (from `prefix_of` e.1) then (to ++ drop (length from) e.1, e.2) else e)
               <$> map_to_list entries).

(** [fs::rename]; that renaming one name of a file over another name of the same file does
    nothing is left out. *)
Definition rename_path (from to : Names) : st Drive IoError unit :=
  drive_edit (fun v =>
    from ← locate v from;
    to ← locate v to;
    match entry_at v from, entry_at v to with
    | None, _ => Err not_found
    | Some EDirectory, None =>
        if bool_decide (from `prefix_of` to) then Err (other_error "Invalid argument")
        else Ok (move_tree from to (v_entries v))
    | Some EDirectory, Some EDirectory =>
        if bool_decide (from = to) then Ok (v_entries v)
        else if bool_decide (from `prefix_of` to) then Err (other_error "Invalid argument")
        else match children v to with
             | [] => Ok (move_tree from to (delete to (v_entries v)))
             | _ => Err (other_error "Directory not empty")
             end
    | Some EDirectory, Some _ => Err not_a_directory
    | Some _, Some EDirectory => Err is_a_directory
    | Some entry, _ => Ok (<[to := entry]> (delete from (v_entries v)))
    end).

(** [fs::remove_file]. *)
Definition remove_entry (p : Names) : st Drive IoError unit :=
  drive_edit (fun v =>
    p ← locate v p;
    match entry_at v p with
    | None => Err not_found
    | Some EDirectory => Err is_a_directory
    | Some _ => Ok (delete p (v_entries v))
    end).

(** [match call { Ok(..) => .., Err(..) => .. }]: the caller sees the whole result. *)
Definition st_result {S E F A} (m : st S E A) : st S F (outcome E A) := fun s =>
  match m s with (Panic msg, s') => (Panic msg, s') | (r, s') => (Ok r, s') end.

(** [let _ = call]. *)
Definition ignore_failure {S E F A} (m : st S E A) : st S F unit := fun s =>
  match m s with (Panic msg, s') => (Panic msg, s') | (_, s') => (Ok tt, s') end.

(** The next UUID, or the next reading of the clock. *)
Definition draw {E A} (f : nat -> A) : st Drive E A := fun d =>
  (Ok (f (dr_draws d)),
   {| dr_volume := dr_volume d; dr_calls := dr_calls d; dr_draws := S (dr_draws d) |}).

(** [format!("{what} '{}' failed: {error}", path.display())]. *)
Definition at_path {S A} (what : string) (path : Names) (m : st S IoError A) : st S string A :=
  st_map_err (fun e => what +:+ " '" +:+ show_path path +:+ "' failed: " +:+ io_message e) m.

(** ** Facts about paths *)

(** Every directory on the way to [p], and [p] itself, is a real directory. *)
Definition standing (v : Volume) (p : Names) : Prop :=
  ∀ q, q `prefix_of` p -> entry_at v q = Some EDirectory.

Lemma entry_at_snoc v p name : entry_at v (p ++ [name]) = v_entries v !! (p ++ [name]).
Proof. by destruct p. Qed.

Lemma standing_nil v : standing v [].
Proof. intros q Hq%prefix_nil_inv. by subst. Qed.

Lemma prefix_snoc_inv (q p : Names) name : q `prefix_of` p ++ [name] -> q `prefix_of` p \/ q = p ++ [name].
Proof.
  intros [s Hs]. destruct s as [|x s _] using rev_ind.
  - right. by rewrite app_nil_r in Hs.
  - left. rewrite app_assoc in Hs. apply app_inj_tail in Hs as [-> _]. by exists s.
Qed.

Lemma standing_snoc v p name :
  standing v (p ++ [name]) <-> standing v p /\ v_entries v !! (p ++ [name]) = Some EDirectory.
Proof.
  rewrite <- entry_at_snoc. split.
  - intros Hs. split; [|by apply Hs]. intros q Hq. apply Hs. by apply prefix_app_r.
  - intros [Hp Hn] q [Hq| ->]%prefix_snoc_inv; [by apply Hp|done].
Qed.

Lemma standing_removelast v p : standing v p -> standing v (removelast p).
Proof.
  destruct p as [|n p _] using rev_ind; [done|]. rewrite removelast_last. by intros [? _]%standing_snoc.
Qed.

(** Where a resolution ends: below real directories, and not at a link. *)
Definition settled_at (v : Volume) (p : Names) : Prop :=
  standing v (removelast p) /\ ∃ entry, entry_at v p = Some entry /\ ∀ target, entry <> ESymlink target.

Lemma standing_settled v p : standing v p -> settled_at v p.
Proof.
  intros Hp. split; [by apply standing_removelast|]. exists EDirectory. split; [by apply Hp|done].
Qed.

Lemma walk_settled v links here todo p :
  standing v here -> walk v links here todo = Ok p -> settled_at v p.
Proof.
  revert here todo. induction links as [|links IHl]; intros here todo; revert here;
    (induction todo as [|c todo IH]; intros here Hh; simpl;
      [intros [= <-]; by apply standing_settled|]);
    (destruct c as [| | |name]; [apply IH, standing_nil|by apply IH|by apply IH, standing_removelast|]);
    (destruct (v_entries v !! (here ++ [name])) as [entry|] eqn:E; [|done]);
    (destruct entry as [inode| |target|];
      [|apply IH, standing_snoc; done| |]); try done;
    try (by apply IHl);
    (destruct todo; [intros [= <-]|done]);
    (split; [by rewrite removelast_last|rewrite entry_at_snoc, E; by eexists]).
Qed.

Lemma resolve_settled v p q : resolve v p = Ok q -> settled_at v q.
Proof. apply walk_settled, standing_nil. Qed.

Lemma walk_normal v links here names :
  standing v (here ++ names) -> walk v links here (Normal <$> names) = Ok (here ++ names).
Proof.
  revert here. induction names as [|n names IH]; intros here Hs.
  - destruct links; simpl; by rewrite app_nil_r.
  - assert (v_entries v !! (here ++ [n]) = Some EDirectory) as Hn.
    { rewrite <- entry_at_snoc. apply Hs. apply prefix_app. by exists names. }
    specialize (IH (here ++ [n])). rewrite <- app_assoc in IH. specialize (IH Hs).
    destruct links; simpl in *; rewrite Hn; exact IH.
Qed.

Lemma resolve_standing v p : standing v p -> resolve v p = Ok p.
Proof. apply (walk_normal v MAX_LINKS []). Qed.

Lemma walk_last v links here names name entry :
  standing v (here ++ names) -> v_entries v !! (here ++ names ++ [name]) = Some entry ->
  (∀ target, entry <> ESymlink target) ->
  walk v links here (Normal <$> names ++ [name]) = Ok (here ++ names ++ [name]).
Proof.
  revert here. induction names as [|n names IH]; intros here Hs He Hl.
  - destruct entry; simpl in *; try by destruct links; simpl; rewrite He. by destruct (Hl target).
  - assert (v_entries v !! (here ++ [n]) = Some EDirectory) as Hn.
    { rewrite <- entry_at_snoc. apply Hs. apply prefix_app. by exists names. }
    specialize (IH (here ++ [n])). rewrite <- !app_assoc in IH. specialize (IH Hs He Hl).
    destruct links; simpl in *; rewrite Hn; exact IH.
Qed.

Lemma resolve_settled_at v p : settled_at v p -> resolve v p = Ok p.
Proof.
  intros [Hs (entry & He & Hl)]. destruct p as [|n p _] using rev_ind; [done|].
  rewrite removelast_last in Hs. rewrite entry_at_snoc in He. by apply (walk_last v MAX_LINKS [] p n entry).
Qed.

Lemma last_snoc_removelast (p : Names) name : last p = Some name -> p = removelast p ++ [name].
Proof.
  destruct p as [|n p _] using rev_ind; [done|]. rewrite last_snoc, removelast_last. by intros [= ->].
Qed.

Lemma locate_standing v p : standing v (removelast p) -> locate v p = Ok p.
Proof.
  intros Hs. unfold locate. destruct (last p) as [name|] eqn:E.
  - rewrite (resolve_standing _ _ Hs). simpl. unfold is_directory.
    rewrite bool_decide_eq_true_2 by (by apply Hs). by rewrite <- last_snoc_removelast.
  - apply last_None in E. by subst.
Qed.

(** ** Calls when nobody else acts *)

Definition alone (d : Drive) : Prop := ∀ c, c ∈ dr_calls d -> ∀ v, dc_others c v = v.

(** The next call fails. *)
Definition fails_next (d : Drive) : Prop :=
  ∃ c, head (dr_calls d) = Some c /\ is_Some (dc_fault c).

(** Failures do not follow each other immediately. *)
Fixpoint isolated (calls : list DriveCall) : Prop :=
  match calls with
  | c :: calls' =>
      (is_Some (dc_fault c) -> ∀ c', head calls' = Some c' -> dc_fault c' = None) /\ isolated calls'
  | [] => True
  end.

Lemma alone_tail d v : alone d -> alone (with_volume v d).
Proof. intros Ha c Hc. apply Ha. simpl in Hc. destruct (dr_calls d); [inversion Hc|by right]. Qed.

Lemma isolated_tail d v : isolated (dr_calls d) -> isolated (dr_calls (with_volume v d)).
Proof. simpl. destruct (dr_calls d); [done|by intros [_ ?]]. Qed.

(** A call either fails as scheduled, or takes effect. *)
Lemma drive_call_alone {A} partial (m : Volume -> outcome IoError A * Volume) d r d' :
  alone d -> drive_call partial m d = (r, d') ->
  dr_calls d' = tail (dr_calls d) /\ dr_draws d' = dr_draws d /\ alone d' /\
  ((∃ c fault, head (dr_calls d) = Some c /\ dc_fault c = Some fault /\
     r = Err (ft_error fault) /\ dr_volume d' = partial fault (dr_volume d)) \/
   m (dr_volume d) = (r, dr_volume d')).
Proof.
  intros Ha. unfold drive_call. destruct (dr_calls d) as [|[others [fault|]] calls] eqn:Ec.
  - destruct (m (dr_volume d)) as [r0 v0] eqn:Em. intros [= <- <-].
    split_and!; [by rewrite <- Ec|done|by apply alone_tail|by right].
  - intros [= <- <-]. split_and!; [by simpl; rewrite Ec|done|by apply alone_tail|].
    left. eexists _, fault. split_and!; [done..|]. simpl. f_equal.
    apply (Ha {| dc_others := others; dc_fault := Some fault |}). rewrite Ec. by left.
  - assert (others (dr_volume d) = dr_volume d) as ->.
    { apply (Ha {| dc_others := others; dc_fault := None |}). rewrite Ec. by left. }
    destruct (m (dr_volume d)) as [r0 v0] eqn:Em. intros [= <- <-].
    split_and!; [by simpl; rewrite Ec|done|by apply alone_tail|by right].
Qed.

(** [d'] comes after [d] in a run. *)
Definition follows (d d' : Drive) : Prop :=
  (alone d -> alone d') /\ (isolated (dr_calls d) -> isolated (dr_calls d')).

#[export] Instance follows_preorder : PreOrder follows.
Proof. split; [by intros d|intros d1 d2 d3 [? ?] [? ?]; split; auto]. Qed.

Lemma follows_tail d d' : alone d' -> dr_calls d' = tail (dr_calls d) -> follows d d'.
Proof. intros Ha Hc. split; [done|]. rewrite Hc. destruct (dr_calls d); [done|by intros [_ ?]]. Qed.

Lemma draw_spec {E A} (f : nat -> A) d :
  ∃ a d', draw (E:=E) f d = (Ok a, d') /\ follows d d' /\ dr_volume d' = dr_volume d /\ dr_calls d' = dr_calls d.
Proof. eexists _, _. split; [reflexivity|]. split; [|done]. by split. Qed.

(** A call without effect on the drive. *)
Lemma drive_look_spec {A} (f : Volume -> outcome IoError A) d r d' :
  alone d -> drive_look f d = (r, d') ->
  alone d' /\ follows d d' /\ dr_volume d' = dr_volume d /\ ((∃ e, r = Err e) \/ f (dr_volume d) = r).
Proof.
  intros Ha (Hc & _ & Ha' & [(c & fault & _ & _ & -> & Hv)|Hm])%drive_call_alone; [| |done].
  - split_and!; [done|by apply follows_tail|done|left; eauto].
  - simpl in Hm. injection Hm as Hm Hv. split_and!; [done|by apply follows_tail|done|by right].
Qed.

(** An edit of the entries: refused with everything as it was, or carried out. *)
Lemma drive_edit_spec f d r d' :
  alone d -> drive_edit f d = (r, d') ->
  alone d' /\ follows d d' /\ dr_calls d' = tail (dr_calls d) /\
  ((fails_next d /\ (∃ e, r = Err e) /\ dr_volume d' = dr_volume d) \/
   match f (dr_volume d) with
   | Ok entries => r = Ok tt /\ v_entries (dr_volume d') = entries /\ v_files (dr_volume d') = v_files (dr_volume d)
   | Err e => r = Err e /\ dr_volume d' = dr_volume d
   | Panic msg => r = Panic msg /\ dr_volume d' = dr_volume d
   end).
Proof.
  intros Ha (Hc & _ & Ha' & Hor)%drive_call_alone; [|done].
  split_and!; [done|by apply follows_tail|done|].
  destruct Hor as [(c & fault & Hhd & Hf & -> & Hv)|Hm].
  - left. split_and!; [|eauto|done]. exists c. rewrite Hf. eauto.
  - right. destruct (f (dr_volume d)); by injection Hm as <- <-.
Qed.
