(* ===== verification/FileResources.v ===== *)
(** * User-chosen files

    [host/src-tauri/src/file_resources.rs]: the registry of files and folders the owner has
    opened to apps, the File Broker that serves them, its manifest, and what happens in the
    kernel when a resource is removed. The registry keeps its document like every other
    store; the files themselves lie on a [Drive]. *)

From S2P Require Import Prelude RustStd RustText Json JsonOps Types Errors Grants Manifest Registry Platform Ledger Broker Artifacts Invocation Durable KernelState KernelGrants AtomicJson ToolMapping Packages PackageChecks InvocationScopes Drive.

(** ** The registry *)

Definition FILE_STORE_VERSION : N := 1.
Definition MAX_READ_BYTES : N := 1024 * 1024.
Definition MAX_WRITE_BYTES : N := 1024 * 1024.
Definition MAX_WRITE_BASE64_CHARS : N := 4 * ((MAX_WRITE_BYTES + 2) / 3).
Definition MAX_DIRECTORY_ENTRIES : N := 1024.

Inductive FileResourceKind := ResourceFile | ResourceDirectory.
Inductive FileEntryKind := KindFile | KindDirectory | KindSymlink | KindOther.
Inductive FileResourceStatus := ResourceActive | ResourceRemoving.

#[export] Instance FileResourceKind_eq_dec : EqDecision FileResourceKind.
Proof. solve_decision. Defined.
#[export] Instance FileEntryKind_eq_dec : EqDecision FileEntryKind.
Proof. solve_decision. Defined.
#[export] Instance FileResourceStatus_eq_dec : EqDecision FileResourceStatus.
Proof. solve_decision. Defined.

Record FileResourceRecord := {
  fr_resource_id : ResourceId;
  fr_display_name : string;
  fr_kind : FileResourceKind;
  fr_canonical_path : Names;
  fr_created_at : DateTime;
}.

#[export] Instance FileResourceRecord_eq_dec : EqDecision FileResourceRecord.
Proof. solve_decision. Defined.

Record FileResourceView := {
  fv_resource_id : ResourceId;
  fv_display_name : string;
  fv_kind : FileResourceKind;
  fv_created_at : DateTime;
  fv_status : FileResourceStatus;
}.

Record TrustedFileResourceView := { tv_resource : FileResourceView; tv_canonical_path : Names }.

Record FileEntryView := {
  fe_path : Names;
  fe_display_name : string;
  fe_kind : FileEntryKind;
  fe_size_bytes : option N;
  fe_modified_at : option DateTime;
}.

Record FileListView := {
  fl_resource_id : ResourceId;
  fl_resource_kind : FileResourceKind;
  fl_entries : list FileEntryView;
}.

Record FileReadView := {
  rv_resource_id : ResourceId;
  rv_path : string;
  rv_bytes_read : N;
  rv_total_bytes : N;
  rv_truncated : bool;
  rv_sha256 : string;
  rv_content_base64 : string;
}.

Record FileWriteView := {
  wv_resource_id : ResourceId;
  wv_path : string;
  wv_bytes_written : N;
  wv_replaced : bool;
  wv_sha256 : string;
}.

Record FileDeleteView := { xv_resource_id : ResourceId; xv_path : string; xv_deleted : bool }.

Record FileResourceRegistryDocument := {
  fd_version : N;
  fd_resources : list FileResourceRecord;
  fd_pending_removals : list ResourceId;
}.

Definition empty_registry : FileResourceRegistryDocument :=
  {| fd_version := FILE_STORE_VERSION; fd_resources := []; fd_pending_removals := [] |}.

(** [FileResourceRegistryService] and the directory its file is in. *)
Record FileResourceRegistryService := {
  fs_path : Path;
  fs_document : FileResourceRegistryDocument;
  fs_files : FileSystem;
}.

Definition with_registry (document : FileResourceRegistryDocument) (s : FileResourceRegistryService) :
    FileResourceRegistryService :=
  {| fs_path := fs_path s; fs_document := document; fs_files := fs_files s |}.

(** Serde for the registry. *)
Class FileRegistryCodec := {
  file_registry_to_vec_pretty : FileResourceRegistryDocument -> string + string;
  file_registry_from_str : string -> string + FileResourceRegistryDocument;
}.

Class FileRegistryCodecLaws `{FileRegistryCodec} : Prop := {
  file_registry_roundtrip : ∀ document bytes,
    file_registry_to_vec_pretty document = inr bytes ->
    utf8_valid bytes = true /\ file_registry_from_str bytes = inr document;
}.

(** [Utc::now] at each reading, and base64. *)
Class FileLibraries := {
  file_clock : nat -> DateTime;
  base64_standard_encode : string -> string;
  base64_standard_decode : string -> string + string;
}.

Class FileLibrariesLaws `{FileLibraries} : Prop := {
  base64_decode_encode : ∀ bytes, base64_standard_decode (base64_standard_encode bytes) = inr bytes;
}.

Section registry.
Context `{Uuids, FileRegistryCodec}.

Abbreviation registry_op := (st FileResourceRegistryService string).

Definition registry_persist : st FileResourceRegistryService AtomicJsonError unit := fun s =>
  let '(r, fs) := persist_json_document file_registry_to_vec_pretty (fs_path s) (fs_document s)
                    "file resource registry" StandardAtomicFileWriter (fs_files s) in
  (r, {| fs_path := fs_path s; fs_document := fs_document s; fs_files := fs |}).

(** Install [document] and persist it; an error that left the old file in place puts the
    old document back. *)
Definition registry_commit (document : FileResourceRegistryDocument) : registry_op unit := fun s =>
  match registry_persist (with_registry document s) with
  | (Ok _, s') => (Ok tt, s')
  | (Err error, s') =>
      (Err (into_message error),
       if is_indeterminate error then s' else with_registry (fs_document s) s')
  | (Panic msg, s') => (Panic msg, s')
  end.

Definition create_registry (path : Path) : st FileSystem string FileResourceRegistryService := fun fs =>
  let '(r, s) := registry_persist {| fs_path := path; fs_document := empty_registry; fs_files := fs |} in
  ((fun _ => s) <$> map_err into_message r, fs_files s).

Definition open_registry (path : Path) : st FileSystem string FileResourceRegistryService :=
  file ← st_map_err (fun e => "read file resource registry failed: " +:+ io_message e) (open_read (p_file_name path));
  _ ← st_lift (reject (negb (utf8_valid (f_bytes file))) ("read file resource registry failed: " +:+ invalid_utf8));
  document ← st_lift (map_err (fun e => "parse file resource registry failed; preserved '" +:+ display path
                        +:+ "': " +:+ e) (from_result (file_registry_from_str (f_bytes file))));
  _ ← st_lift (reject (negb (fd_version document =? FILE_STORE_VERSION)%N)
        ("unsupported file resource registry version: " +:+ pretty (fd_version document)));
  fs ← st_get id;
  mret {| fs_path := path; fs_document := document; fs_files := fs |}.

(** [FileResourceRegistryService::with_writer] with the standard writer; an existence check
    that fails counts as absence. *)
Definition file_registry_new (path : Path) : st FileSystem string FileResourceRegistryService :=
  _ ← st_map_err (fun e => "create file resource registry directory failed: " +:+ io_message e) create_dir_all;
  found ← st_result (open_read (p_file_name path));
  if is_ok found then open_registry path else create_registry path.

Definition has_id (resource_id : ResourceId) (record : FileResourceRecord) : bool :=
  bool_decide (fr_resource_id record = resource_id).

Definition view_for (document : FileResourceRegistryDocument) (record : FileResourceRecord) : FileResourceView :=
  {| fv_resource_id := fr_resource_id record; fv_display_name := fr_display_name record; fv_kind := fr_kind record;
     fv_created_at := fr_created_at record;
     fv_status := if bool_decide (fr_resource_id record ∈ fd_pending_removals document)
                  then ResourceRemoving else ResourceActive |}.

Definition list_resources (document : FileResourceRegistryDocument) : list FileResourceView :=
  sort_by (fun left right => String.leb (fv_display_name left) (fv_display_name right))
    (view_for document <$> fd_resources document).

Definition list_trusted_resources (document : FileResourceRegistryDocument) : list TrustedFileResourceView :=
  sort_by (fun left right =>
      String.leb (fv_display_name (tv_resource left)) (fv_display_name (tv_resource right)))
    ((fun record => {| tv_resource := view_for document record; tv_canonical_path := fr_canonical_path record |})
     <$> fd_resources document).

Definition find_resource (document : FileResourceRegistryDocument) (resource_id : ResourceId) :
    option FileResourceRecord :=
  List.find (has_id resource_id) (fd_resources document).

Definition active_resource (document : FileResourceRegistryDocument) (resource_id : ResourceId) :
    outcome string FileResourceRecord :=
  record ← ok_or (find_resource document resource_id) ("unknown file resource: " +:+ resource_id);
  if bool_decide (resource_id ∈ fd_pending_removals document)
  then Err ("file resource '" +:+ resource_id +:+ "' is being removed")
  else Ok record.

Definition begin_removal (resource_id : ResourceId) : registry_op FileResourceRecord :=
  document ← st_get fs_document;
  record ← st_lift (ok_or (find_resource document resource_id) ("unknown file resource: " +:+ resource_id));
  if bool_decide (resource_id ∈ fd_pending_removals document) then mret record
  else
    _ ← registry_commit {| fd_version := fd_version document; fd_resources := fd_resources document;
                           fd_pending_removals := fd_pending_removals document ++ [resource_id] |};
    mret record.

Definition finalize_removal (resource_id : ResourceId) : registry_op unit :=
  document ← st_get fs_document;
  registry_commit
    {| fd_version := fd_version document;
       fd_resources := List.filter (fun record => negb (has_id resource_id record)) (fd_resources document);
       fd_pending_removals :=
         List.filter (fun pending => negb (bool_decide (pending = resource_id))) (fd_pending_removals document) |}.

(** [validate_grant_data_scope]. *)
Definition validate_file_grant_data_scope (document : FileResourceRegistryDocument) (scope : GrantScope)
    (data_scope : DataScope) : outcome string unit :=
  if negb (bool_decide (GrantScope_provider scope = file_broker_app_id)) then Ok tt
  else match data_scope with
       | Resources resource_ids => for_each (fun id => _ ← active_resource document id; Ok tt) resource_ids
       | _ => Err "File Broker permissions require a registered resource"
       end.
End registry.

(** ** Registering a chosen path *)

(** The registry with the drive the chosen paths are on. *)
Record FileBroker := { fb_service : FileResourceRegistryService; fb_drive : Drive }.

Definition on_registry {E A} (m : st FileResourceRegistryService E A) : st FileBroker E A := fun b =>
  let '(r, s) := m (fb_service b) in (r, {| fb_service := s; fb_drive := fb_drive b |}).
Definition on_drive {E A} (m : st Drive E A) : st FileBroker E A := fun b =>
  let '(r, d) := m (fb_drive b) in (r, {| fb_service := fb_service b; fb_drive := d |}).

Definition display_name_for (path : Names) (kind : FileResourceKind) : string :=
  match last path with
  | Some name =>
      if bool_decide (trim name = "")
      then match kind with ResourceFile => "selected file" | ResourceDirectory => "selected folder" end
      else name
  | None => match kind with ResourceFile => "selected file" | ResourceDirectory => "selected folder" end
  end.

Section files.
Context `{FileTimes, Uuids, FileRegistryCodec, FileLibraries} (sha256_hex : string -> string) (cwd : Names).

(** A chosen path, as text: a final slash or [.] asks for a directory and so has the
    final link followed. *)
Definition wants_directory (path : string) : bool :=
  match rev (split slash path) with
  | part :: _ :: _ => bool_decide (part = "" \/ part = ".")
  | _ => false
  end.

Definition resolve_text (v : Volume) (path : string) : outcome IoError Names :=
  if bool_decide (path = "") then Err not_found
  else
    p ← walk v MAX_LINKS cwd (path_components path);
    if wants_directory path && negb (is_directory v p) then Err not_a_directory else Ok p.

Definition locate_text (v : Volume) (path : string) : outcome IoError Names :=
  match rev (path_components path) with
  | Normal name :: rest =>
      if wants_directory path then resolve_text v path
      else
        here ← walk v MAX_LINKS cwd (rev rest);
        if is_directory v here then Ok (here ++ [name]) else Err not_a_directory
  | _ => resolve_text v path
  end.

Definition at_text {A} (what path : string) (m : st Drive IoError A) : st Drive string A :=
  st_map_err (fun e => what +:+ " '" +:+ path +:+ "' failed: " +:+ io_message e) m.

Definition file_kind (path : Names) : st Drive string FileResourceKind :=
  found ← at_path "inspect selected path" path (metadata path);
  if is_file found then mret ResourceFile
  else if is_dir found then mret ResourceDirectory
  else st_fail ("selected path '" +:+ show_path path +:+ "' must be a regular file or directory").

(** The new record of [register_resource]. *)
Definition add_resource (document : FileResourceRegistryDocument) (canonical : Names) (kind : FileResourceKind) :
    st FileBroker string TrustedFileResourceView :=
  uuid ← on_drive (draw new_v4);
  now ← on_drive (draw file_clock);
  let record := {| fr_resource_id := "resource-" +:+ uuid; fr_display_name := display_name_for canonical kind;
                   fr_kind := kind; fr_canonical_path := canonical; fr_created_at := now |} in
  _ ← on_registry (registry_commit
        {| fd_version := fd_version document; fd_resources := fd_resources document ++ [record];
           fd_pending_removals := fd_pending_removals document |});
  document' ← st_get (fun b => fs_document (fb_service b));
  mret {| tv_resource := view_for document' record; tv_canonical_path := canonical |}.

Definition register_resource (path : string) : st FileBroker string TrustedFileResourceView :=
  found ← on_drive (at_text "inspect selected path" path
            (drive_look (fun v => p ← locate_text v path; metadata_at v p)));
  if is_symlink found
  then st_fail ("selected path '" +:+ path +:+ "' must not be a symlink")
  else
    canonical ← on_drive (at_text "canonicalize selected path" path (drive_look (fun v => resolve_text v path)));
    kind ← on_drive (file_kind canonical);
    document ← st_get (fun b => fs_document (fb_service b));
    if existsb (fun record => bool_decide (fr_canonical_path record = canonical)) (fd_resources document)
    then st_fail ("file resource '" +:+ show_path canonical +:+ "' is already registered")
    else add_resource document canonical kind.

(** ** Where a request may point *)

Fixpoint keep_names (relative_path : string) (components : list PathComponent) : outcome string Names :=
  match components with
  | [] => Ok []
  | Normal part :: components' => cons part <$> keep_names relative_path components'
  | CurDir :: components' => keep_names relative_path components'
  | _ => Err ("invalid relative path: " +:+ relative_path)
  end.

Definition sanitize_relative_path (relative_path : string) : outcome string Names :=
  keep_names relative_path (path_components relative_path).

Definition ensure_within_root (root target : Names) : outcome string unit :=
  if bool_decide (root `prefix_of` target) then Ok tt
  else Err ("path '" +:+ show_path target +:+ "' escapes resource root '" +:+ show_path root +:+ "'").

Definition resolve_existing_within_root (root target : Names) : st Drive string Names :=
  canonical ← at_path "canonicalize path" target (canonicalize target);
  _ ← st_lift (ensure_within_root root canonical);
  mret canonical.

(** [target] has a last component: it is [root] joined with some names. *)
Definition resolve_parent_within_root (root target : Names) : st Drive string Names :=
  name ← st_lift (ok_or (last target) ("path '" +:+ show_path target +:+ "' has no parent directory"));
  canonical_parent ← at_path "canonicalize path" (removelast target) (canonicalize (removelast target));
  _ ← st_lift (ensure_within_root root canonical_parent);
  mret (canonical_parent ++ [name]).

Definition resolve_target (root : Names) (kind : FileResourceKind) (relative_path : option string) (write : bool) :
    st Drive string Names :=
  relative ← st_lift (sanitize_relative_path (default "" relative_path));
  if bool_decide (kind = ResourceFile)
  then if negb (bool_decide (relative = [])) then st_fail "file resources do not allow descendant paths"
       else mret root
  else if bool_decide (relative = [])
  then if write then st_fail "directory resources require a descendant file path for writes" else mret root
  else if write then resolve_parent_within_root root (root ++ relative)
  else resolve_existing_within_root root (root ++ relative).

(** ** File operations *)

Definition not_regular (target : Names) : string :=
  "resource target '" +:+ show_path target +:+ "' is not a regular file".

(** [ensure_same_file] on Unix. *)
Definition ensure_same_file (opened : Entry) (checked : Metadata) (path : Names) : st Drive string unit :=
  _ ← at_path "inspect file" path (drive_look (fun _ => Ok tt));
  if negb (bool_decide (opened = md_entry checked))
  then st_fail ("resource target '" +:+ show_path path +:+ "' changed while it was being opened")
  else mret tt.

Definition sha256_of_file (path : Names) : st Drive string string :=
  file ← at_path "open file" path (open_file path);
  bytes ← at_path "read file" path (read_all file);
  mret (sha256_hex bytes).

Definition entry_kind (found : Metadata) : FileEntryKind :=
  if is_symlink found then KindSymlink
  else if is_dir found then KindDirectory
  else if is_file found then KindFile else KindOther.

Definition entry_view (root path : Names) : st Drive string FileEntryView :=
  found ← at_path "inspect entry" path (symlink_metadata path);
  mret {| fe_path := if bool_decide (root `prefix_of` path) then drop (length root) path else path;
          fe_display_name := default "" (last path);
          fe_kind := entry_kind found;
          fe_size_bytes := if is_file found then Some (md_len found) else None;
          fe_modified_at := md_modified found |}.

(** The loop over [read_dir]; [count] entries are already collected. *)
Fixpoint collect_entries (root target : Names) (count : N) (names : list string) :
    st Drive string (list FileEntryView) :=
  match names with
  | [] => mret []
  | name :: names' =>
      if (MAX_DIRECTORY_ENTRIES <=? count)%N
      then st_fail ("directory contains more than " +:+ pretty MAX_DIRECTORY_ENTRIES
                    +:+ " entries; choose a narrower resource path")
      else
        _ ← st_map_err (fun e => "read directory entry failed: " +:+ io_message e) (drive_look (fun _ => Ok tt));
        view ← entry_view root (target ++ [name]);
        views ← collect_entries root target (count + 1) names';
        mret (view :: views)
  end.

Definition by_path (left right : FileEntryView) : bool :=
  String.leb (join_names (fe_path left)) (join_names (fe_path right)).

Definition list_entries (document : FileResourceRegistryDocument) (resource_id : ResourceId)
    (relative_path : option string) : st Drive string FileListView :=
  resource ← st_lift (active_resource document resource_id);
  let root := fr_canonical_path resource in
  let answer entries := {| fl_resource_id := fr_resource_id resource; fl_resource_kind := fr_kind resource;
                           fl_entries := entries |} in
  target ← resolve_target root (fr_kind resource) relative_path false;
  found ← at_path "inspect resource target" target (symlink_metadata target);
  if is_file found then view ← entry_view root target; mret (answer [view])
  else if negb (is_dir found)
  then st_fail ("resource target '" +:+ show_path target +:+ "' must be a file or directory")
  else
    names ← at_path "read directory" target (read_dir target);
    entries ← collect_entries root target 0 names;
    mret (answer (sort_by by_path entries)).

Definition read_file (document : FileResourceRegistryDocument) (resource_id : ResourceId)
    (relative_path : option string) (limit_bytes : option N) : st Drive string FileReadView :=
  resource ← st_lift (active_resource document resource_id);
  target ← resolve_target (fr_canonical_path resource) (fr_kind resource) relative_path false;
  file ← at_path "open file" target (open_file target);
  found ← at_path "inspect file" target (symlink_metadata target);
  if negb (is_file found) then st_fail (not_regular target)
  else
    _ ← ensure_same_file file found target;
    let limit := match limit_bytes with Some value => N.min value MAX_READ_BYTES | None => MAX_READ_BYTES end in
    buffer ← at_path "read file" target (read_up_to file (limit + 1));
    let truncated := (limit <? N.of_nat (String.length buffer))%N in
    let buffer := if truncated then String.substring 0 (N.to_nat limit) buffer else buffer in
    mret {| rv_resource_id := fr_resource_id resource; rv_path := default "" relative_path;
            rv_bytes_read := N.of_nat (String.length buffer); rv_total_bytes := md_len found;
            rv_truncated := truncated; rv_sha256 := sha256_hex buffer;
            rv_content_base64 := base64_standard_encode buffer |}.

(** The sibling of [target] with a hidden, unused name. *)
Definition hidden_sibling (target : Names) (uuid suffix : string) : Names :=
  removelast target ++ ["." +:+ default "file" (last target) +:+ "." +:+ uuid +:+ suffix].

(** The conflict guard of [write_file] and [delete_file]. *)
Definition check_expected_sha256 (target : Names) (expected : option string) : st Drive string unit :=
  match expected with
  | None => mret tt
  | Some expected =>
      current ← sha256_of_file target;
      if negb (bool_decide (current = expected))
      then st_fail ("SHA-256 conflict for '" +:+ show_path target +:+ "': expected " +:+ expected
                    +:+ ", got " +:+ current)
      else mret tt
  end.

(** The checks of [write_file] on its target: whether there is a file to replace. *)
Definition check_replaceable (target : Names) (expected_sha256 : option string) : st Drive string bool :=
  replaced ← path_exists target;
  _ ← (if replaced : bool
       then found ← at_path "inspect file" target (symlink_metadata target);
            if negb (is_file found) then st_fail (not_regular target) else mret tt
       else mret tt);
  _ ← st_lift (reject (bool_decide (is_Some expected_sha256) && negb replaced)
        "expected SHA-256 conflict guard requires an existing target");
  _ ← check_expected_sha256 target expected_sha256;
  mret replaced.

(** The temporary file of [write_file]. *)
Definition write_temporary (temp_path : Names) (content : string) : st Drive string unit :=
  file ← at_path "create temporary file" temp_path (create_new temp_path);
  _ ← at_path "write temporary file" temp_path (write_bytes file content);
  at_path "sync temporary file" temp_path sync_file.

(** Move the file to be replaced out of the way. *)
Definition set_aside (target temp_path : Names) : st Drive string Names :=
  uuid ← draw new_v4;
  let backup_path := hidden_sibling target uuid ".bak" in
  moved ← st_result (rename_path target backup_path);
  match moved with
  | Ok _ => mret backup_path
  | Err error =>
      _ ← ignore_failure (remove_entry temp_path);
      st_fail ("prepare replacement for '" +:+ show_path target +:+ "' failed: " +:+ io_message error)
  | Panic msg => st_lift (Panic msg)
  end.

(** Move the temporary file into place; if that fails, undo. *)
Definition move_into_place (target temp_path : Names) (backup_path : option Names) : st Drive string unit :=
  moved ← st_result (rename_path temp_path target);
  match moved with
  | Ok _ => match backup_path with Some backup => ignore_failure (remove_entry backup) | None => mret tt end
  | Err error =>
      _ ← match backup_path with
          | Some backup =>
              _ ← ignore_failure (rename_path backup target);
              ignore_failure (remove_entry backup)
          | None => mret tt
          end;
      _ ← ignore_failure (remove_entry temp_path);
      st_fail ("replace file '" +:+ show_path target +:+ "' failed: " +:+ io_message error)
  | Panic msg => st_lift (Panic msg)
  end.

(** [write_file] once its checks are passed. *)
Definition replace_content (target : Names) (content : string) (replaced : bool) : st Drive string unit :=
  uuid ← draw new_v4;
  let temp_path := hidden_sibling target uuid ".tmp" in
  _ ← write_temporary temp_path content;
  backup_path ← (if replaced : bool then backup ← set_aside target temp_path; mret (Some backup) else mret None);
  move_into_place target temp_path backup_path.

Definition decode_content (content_base64 : string) : outcome string string :=
  let too_long := "file content exceeds the " +:+ pretty MAX_WRITE_BYTES +:+ "-byte write limit" in
  _ ← reject (MAX_WRITE_BASE64_CHARS <? N.of_nat (String.length content_base64))%N too_long;
  content ← map_err (String.append "decode file content failed: ") (from_result (base64_standard_decode content_base64));
  _ ← reject (MAX_WRITE_BYTES <? N.of_nat (String.length content))%N too_long;
  Ok content.

Definition write_file (document : FileResourceRegistryDocument) (resource_id : ResourceId)
    (relative_path : option string) (content_base64 : string) (expected_sha256 : option string) :
    st Drive string FileWriteView :=
  resource ← st_lift (active_resource document resource_id);
  target ← resolve_target (fr_canonical_path resource) (fr_kind resource) relative_path true;
  content ← st_lift (decode_content content_base64);
  replaced ← check_replaceable target expected_sha256;
  _ ← replace_content target content replaced;
  mret {| wv_resource_id := fr_resource_id resource; wv_path := default "" relative_path;
          wv_bytes_written := N.of_nat (String.length content); wv_replaced := replaced;
          wv_sha256 := sha256_hex content |}.

Definition delete_file (document : FileResourceRegistryDocument) (resource_id : ResourceId)
    (relative_path expected_sha256 : option string) : st Drive string FileDeleteView :=
  resource ← st_lift (active_resource document resource_id);
  target ← resolve_target (fr_canonical_path resource) (fr_kind resource) relative_path true;
  found ← at_path "inspect file" target (symlink_metadata target);
  if negb (is_file found) then st_fail (not_regular target)
  else
    _ ← check_expected_sha256 target expected_sha256;
    _ ← at_path "delete file" target (remove_entry target);
    mret {| xv_resource_id := fr_resource_id resource; xv_path := default "" relative_path; xv_deleted := true |}.
End files.

(** ** The handlers *)

Record FileResourceOperationRequest := { or_resource_id : ResourceId; or_relative_path : option string }.
Record FileResourceReadRequest :=
  { rr_resource_id : ResourceId; rr_relative_path : option string; rr_limit_bytes : option N }.
Record FileResourceWriteRequest :=
  { wr_resource_id : ResourceId; wr_relative_path : option string; wr_content_base64 : string;
    wr_expected_sha256 : option string }.
Record FileResourceDeleteRequest :=
  { dr_resource_id : ResourceId; dr_relative_path : option string; dr_expected_sha256 : option string }.

(** Serde for requests and views. *)
Class FileRequestCodec := {
  operation_request_from_value : Value -> string + FileResourceOperationRequest;
  file_read_request_from_value : Value -> string + FileResourceReadRequest;
  write_request_from_value : Value -> string + FileResourceWriteRequest;
  delete_request_from_value : Value -> string + FileResourceDeleteRequest;
  list_view_to_value : FileListView -> string + Value;
  read_view_to_value : FileReadView -> string + Value;
  write_view_to_value : FileWriteView -> string + Value;
  delete_view_to_value : FileDeleteView -> string + Value;
}.

Inductive FileOperation := OpList | OpRead | OpWrite | OpDelete.

#[export] Instance FileOperation_eq_dec : EqDecision FileOperation.
Proof. solve_decision. Defined.

Definition to_handler_failure {A} (r : string + A) : outcome HandlerFailure A :=
  map_err Build_HandlerFailure (from_result r).

Definition ensure_authorized_resource (context : InvocationContext) (resource_id : ResourceId) :
    outcome HandlerFailure unit :=
  let refused := Err {| hf_error := "resource scope mismatch: authorization did not include '"
                                      +:+ resource_id +:+ "'" |} in
  match ic_authorized_data_scope context with
  | Resources resource_ids => if bool_decide (resource_id ∈ resource_ids) then Ok tt else refused
  | _ => refused
  end.

Section handlers.
Context `{FileTimes, Uuids, FileLibraries, FileRequestCodec} (sha256_hex : string -> string).
Context (document : FileResourceRegistryDocument).

Abbreviation file_handler := (JsonObject -> InvocationContext -> st Drive HandlerFailure CapabilityOutcome).

(** The frame the four handlers share: decode, check the authorisation, act, encode. *)
Definition answer_request {R V} (decode : Value -> string + R) (names : R -> ResourceId) (act : R -> st Drive string V)
    (encode : V -> string + Value) : file_handler := fun input context =>
  request ← st_lift (to_handler_failure (decode (VObject input)));
  _ ← st_lift (ensure_authorized_resource context (names request));
  view ← st_map_err Build_HandlerFailure (act request);
  result ← st_lift (to_handler_failure (encode view));
  mret {| co_result := result; co_artifacts := [] |}.

Definition handle_list : file_handler :=
  answer_request operation_request_from_value or_resource_id
    (fun request => list_entries document (or_resource_id request) (or_relative_path request)) list_view_to_value.

Definition handle_read : file_handler :=
  answer_request file_read_request_from_value rr_resource_id
    (fun request => read_file sha256_hex document (rr_resource_id request) (rr_relative_path request)
                      (rr_limit_bytes request)) read_view_to_value.

Definition handle_write : file_handler :=
  answer_request write_request_from_value wr_resource_id
    (fun request => write_file sha256_hex document (wr_resource_id request) (wr_relative_path request)
                      (wr_content_base64 request) (wr_expected_sha256 request)) write_view_to_value.

Definition handle_delete : file_handler :=
  answer_request delete_request_from_value dr_resource_id
    (fun request => delete_file sha256_hex document (dr_resource_id request) (dr_relative_path request)
                      (dr_expected_sha256 request)) delete_view_to_value.

(** [boxed_handler]. *)
Definition boxed_handler (operation : FileOperation) : file_handler :=
  match operation with
  | OpList => handle_list
  | OpRead => handle_read
  | OpWrite => handle_write
  | OpDelete => handle_delete
  end.

Definition file_broker_handlers : list (CapabilityName * file_handler) :=
  [("file.list", boxed_handler OpList); ("file.read", boxed_handler OpRead);
   ("file.create-or-replace", boxed_handler OpWrite); ("file.delete", boxed_handler OpDelete)].
End handlers.

(** ** The File Broker's manifest *)

Definition json_type (name : string) : Value := json_obj [("type", VString name)].
Definition json_nullable (name : string) : Value := json_obj [("type", VArray [VString name; VString "null"])].

Definition closed_object (properties : list (string * Value)) (required : list string) : JsonObject :=
  json_object [("type", VString "object"); ("properties", json_obj properties);
               ("required", VArray (VString <$> required)); ("additionalProperties", VBool false)].

Definition empty_object_schema : JsonObject :=
  json_object [("type", VString "object"); ("properties", json_obj []); ("additionalProperties", VBool false)].

Definition capability_input_schema (name : string) : JsonObject :=
  if bool_decide (name = "file.list") then
    closed_object [("resource_id", json_type "string"); ("relative_path", json_nullable "string")] ["resource_id"]
  else if bool_decide (name = "file.read") then
    closed_object [("resource_id", json_type "string"); ("relative_path", json_nullable "string");
                   ("limit_bytes", json_obj [("type", VArray [VString "integer"; VString "null"]);
                                             ("minimum", json_number 1)])] ["resource_id"]
  else if bool_decide (name = "file.create-or-replace") then
    closed_object [("resource_id", json_type "string"); ("relative_path", json_nullable "string");
                   ("content_base64", json_obj [("type", VString "string");
                                                ("maxLength", json_number MAX_WRITE_BASE64_CHARS)]);
                   ("expected_sha256", json_nullable "string")] ["resource_id"; "content_base64"]
  else if bool_decide (name = "file.delete") then
    closed_object [("resource_id", json_type "string"); ("relative_path", json_nullable "string");
                   ("expected_sha256", json_nullable "string")] ["resource_id"]
  else empty_object_schema.

Definition json_enum (values : list string) : Value :=
  json_obj [("type", VString "string"); ("enum", VArray (VString <$> values))].

Definition entry_schema : JsonObject :=
  closed_object [("path", json_type "string"); ("display_name", json_type "string");
                 ("kind", json_enum ["file"; "directory"; "symlink"; "other"]);
                 ("size_bytes", json_nullable "integer"); ("modified_at", json_nullable "string")]
    ["path"; "display_name"; "kind"].

Definition capability_output_schema (name : string) : JsonObject :=
  if bool_decide (name = "file.list") then
    closed_object [("resource_id", json_type "string"); ("resource_kind", json_enum ["file"; "directory"]);
                   ("entries", json_obj [("type", VString "array"); ("maxItems", json_number MAX_DIRECTORY_ENTRIES);
                                         ("items", VObject entry_schema)])]
      ["resource_id"; "resource_kind"; "entries"]
  else if bool_decide (name = "file.read") then
    closed_object [("resource_id", json_type "string"); ("path", json_type "string");
                   ("bytes_read", json_type "integer"); ("total_bytes", json_type "integer");
                   ("truncated", json_type "boolean"); ("sha256", json_type "string");
                   ("content_base64", json_type "string")]
      ["resource_id"; "path"; "bytes_read"; "total_bytes"; "truncated"; "sha256"; "content_base64"]
  else if bool_decide (name = "file.create-or-replace") then
    closed_object [("resource_id", json_type "string"); ("path", json_type "string");
                   ("bytes_written", json_type "integer"); ("replaced", json_type "boolean");
                   ("sha256", json_type "string")]
      ["resource_id"; "path"; "bytes_written"; "replaced"; "sha256"]
  else if bool_decide (name = "file.delete") then
    closed_object [("resource_id", json_type "string"); ("path", json_type "string");
                   ("deleted", json_type "boolean")] ["resource_id"; "path"; "deleted"]
  else empty_object_schema.

Definition file_capability (name description : string) (effect : CapabilityEffect) : CapabilityDeclaration :=
  {| cd_name := name; cd_description := description; cd_input_schema := capability_input_schema name;
     cd_effect := effect; cd_output_schema := Some (capability_output_schema name) |}.

Definition file_broker_manifest : AppManifest := {|
  m_app_id := file_broker_app_id;
  m_version := "0.1.0";
  m_display_name := "File Broker";
  m_description := "Host-owned brokered file access for trusted resources.";
  m_capabilities :=
    [file_capability "file.list" "List the contents of a registered file resource" EffectReadOnly;
     file_capability "file.read" "Read a registered file resource" EffectReadOnly;
     file_capability "file.create-or-replace"
       "Create or replace a file inside a registered directory resource" EffectLocalWrite;
     file_capability "file.delete" "Delete a file inside a registered resource" EffectDestructive];
  m_surfaces := []; m_agents := []; m_skills := []; m_assistant_profiles := []; m_automations := [];
  m_connectors := []; m_config_declarations := []; m_artifact_types := []; m_extension_points := [];
  m_extension_contributions := []; m_grant_requests := []; m_event_subscriptions := [];
|}.

(** ** Grants over resources *)

Inductive FileResourceGrantOperation := GrantList | GrantRead | GrantCreateOrReplace | GrantDelete.

Definition grant_capability_name (operation : FileResourceGrantOperation) : CapabilityName :=
  match operation with
  | GrantList => "file.list"
  | GrantRead => "file.read"
  | GrantCreateOrReplace => "file.create-or-replace"
  | GrantDelete => "file.delete"
  end.

Definition file_resource_grant_request (holder : AppId) (resource_id : ResourceId)
    (operation : FileResourceGrantOperation) : outcome KernelError GrantRequest :=
  match DataScope_resources [resource_id] with
  | Ok scope =>
      Ok {| gq_scope := ExactCapability file_broker_app_id (grant_capability_name operation);
            gq_data_scope := scope;
            gq_condition := RequiresApproval;
            gq_reason := "allow " +:+ holder +:+ " to access a registered file resource";
            gq_duration := NonExpiring |}
  | _ => Panic "single resource id is valid"
  end.

(** ** With the kernel *)

Section with_kernel.
Context {W S : Type} `{Libraries, Environment W, TrustedChrome W, KernelStateStore S, Uuids, FileRegistryCodec}.

(** The kernel and the registry, as the commands of [lib.rs] hold them. *)
Record FileHost := { fh_kernel : Kernel W S; fh_registry : FileResourceRegistryService }.

Definition in_kernel {A} (m : st (Kernel W S) KernelError A) : st FileHost string A := fun h =>
  let '(r, k) := m (fh_kernel h) in
  (map_err KernelError_display r, {| fh_kernel := k; fh_registry := fh_registry h |}).
Definition in_registry {A} (m : st FileResourceRegistryService string A) : st FileHost string A := fun h =>
  let '(r, s) := m (fh_registry h) in (r, {| fh_kernel := fh_kernel h; fh_registry := s |}).

Definition kernel_grant_statuses_for (holder : AppId) : st (Kernel W S) KernelError (list GrantStatusView) :=
  fun k => on_world (grant_statuses_for (k_broker k) holder) k.

Fixpoint st_each {S' E A} (f : A -> st S' E unit) (l : list A) : st S' E unit :=
  match l with
  | [] => mret tt
  | a :: l' => _ ← f a; st_each f l'
  end.

(** A live grant over the File Broker that names something not registered. *)
Definition is_orphaned (active : list ResourceId) (view : GrantStatusView) : bool :=
  bool_decide (gsv_status view = StatusActive)
  && bool_decide (GrantScope_provider (g_scope (gsv_grant view)) = file_broker_app_id)
  && match g_data_scope (gsv_grant view) with
     | Resources resource_ids => existsb (fun id => negb (bool_decide (id ∈ active))) resource_ids
     | NoData => true
     | AllResources => false
     end.

Definition finish_removal (resource_id : ResourceId) : st FileHost string unit :=
  _ ← in_kernel (revoke_grants_for_resource resource_id);
  in_registry (finalize_removal resource_id).

Definition reconcile_with_kernel : st FileHost string unit :=
  pending ← st_get (fun h => fd_pending_removals (fs_document (fh_registry h)));
  _ ← st_each finish_removal pending;
  active ← st_get (fun h => fr_resource_id <$> fd_resources (fs_document (fh_registry h)));
  holders ← st_get (fun h => (fun app => m_app_id (ia_manifest app)) <$>
                               Registry_installed_apps (k_registry (fh_kernel h)));
  statuses ← st_map (fun holder => in_kernel (kernel_grant_statuses_for holder)) holders;
  let orphaned := (fun view => g_grant_id (gsv_grant view)) <$> List.filter (is_orphaned active) (concat statuses) in
  st_each (fun grant_id => in_kernel (revoke_grant grant_id)) orphaned.

(** ** The commands of [lib.rs] *)

Definition remove_file_resource (resource_id : ResourceId) : st FileHost string unit :=
  _ ← in_registry (begin_removal resource_id);
  finish_removal resource_id.

Definition issue_grant_phased (holder : AppId) (request : GrantRequest) : st FileHost string IssueResult :=
  prepared ← in_kernel (fun k => (prepare_grant holder request k, k));
  approval ← in_kernel (on_world (fun w => let '(approval, w') := PreparedGrant_await_approval prepared w in
                                           (Ok approval, w')));
  in_kernel (commit_grant approval).

Definition grant_file_resource_access (holder : AppId) (resource_id : ResourceId)
    (operations : list FileResourceGrantOperation) : st FileHost string unit :=
  if bool_decide (operations = []) then st_fail "at least one file resource operation is required"
  else
    document ← st_get (fun h => fs_document (fh_registry h));
    _ ← st_lift (active_resource document resource_id);
    st_each (fun operation =>
      request ← st_lift (map_err KernelError_display (file_resource_grant_request holder resource_id operation));
      _ ← issue_grant_phased holder request;
      mret tt) operations.
End with_kernel.

(** [register_file_resource] of [lib.rs]. *)
Definition register_file_resource `{FileTimes, Uuids, FileRegistryCodec, FileLibraries} (cwd : Names) (path : string) :
    st FileBroker string TrustedFileResourceView :=
  let path := trim path in
  if bool_decide (path = "") then st_fail "file resource path is required" else register_resource cwd path.
