(* ===== verification/FileResourcesFacts.v ===== *)
(** * The File Broker keeps to its resources

    Writing replaces a file wholly or not at all; calls to the broker read and change only
    what the caller was authorised for; removing a resource leaves no grant behind. *)

From S2P Require Import Prelude RustStd RustText Json JsonOps Types Errors Grants Manifest Registry Platform Ledger Broker Artifacts Invocation Durable KernelState KernelGrants Durability AtomicJson ToolMapping Packages PackageChecks InvocationScopes Drive FileResources.

(** ** What replacing a file touches *)

Definition hidden_of (target p : Names) : Prop := ∃ uuid suffix, p = hidden_sibling target uuid suffix.

(** Nothing but [target] and its hidden siblings has another entry, and every file that
    was there has the bytes it had. *)
Record touches (target : Names) (v v' : Volume) : Prop := {
  to_entries : ∀ p, p <> target -> ¬ hidden_of target p -> v_entries v' !! p = v_entries v !! p;
  to_files : ∀ inode bytes, v_files v !! inode = Some bytes -> v_files v' !! inode = Some bytes;
}.

#[export] Instance touches_preorder target : PreOrder (touches target).
Proof.
  split; [done|]. intros v1 v2 v3 [He1 Hf1] [He2 Hf2]. split; [|by eauto].
  intros p Hp Hh. by rewrite He2, He1.
Qed.

(** The entry [p] is set or removed, and files may be added. *)
Lemma touches_one target p v v' :
  p = target \/ hidden_of target p -> (∀ q, q <> p -> v_entries v' !! q = v_entries v !! q) ->
  (∀ inode bytes, v_files v !! inode = Some bytes -> v_files v' !! inode = Some bytes) -> touches target v v'.
Proof. intros Hp He Hf. split; [|done]. intros q Hq Hh. apply He. naive_solver. Qed.

Lemma hidden_removelast target uuid suffix : removelast (hidden_sibling target uuid suffix) = removelast target.
Proof. apply removelast_last. Qed.

Lemma touches_standing target v v' :
  target <> [] -> touches target v v' -> standing v (removelast target) -> standing v' (removelast target).
Proof.
  intros Hne [He _] Hs q Hq. specialize (Hs q Hq). destruct q as [|n q]; [done|]. cbn [entry_at] in *.
  rewrite He; [done| |].
  - intros Heq. rewrite Heq in Hq. clear Heq. apply prefix_length in Hq. destruct target as [|x t _] using rev_ind; [done|].
    rewrite removelast_last in Hq. rewrite length_app in Hq. simpl in Hq. lia.
  - intros (u & s & Heq). rewrite Heq in Hq. apply prefix_length in Hq. unfold hidden_sibling in Hq.
    rewrite length_app in Hq. simpl in Hq. lia.
Qed.

Lemma append_same_end (a b s t : string) :
  String.length s = String.length t -> a +:+ s = b +:+ t -> s = t.
Proof.
  revert b. induction a as [|c a IH]; intros [|c' b] Hl He.
  - done.
  - apply (f_equal String.length) in He. rewrite !string_length_app in He. simpl in He. lia.
  - apply (f_equal String.length) in He. rewrite !string_length_app in He. simpl in He. lia.
  - injection He as _ He. by eapply IH.
Qed.

Lemma hidden_not_target target uuid suffix : target <> [] -> hidden_sibling target uuid suffix <> target.
Proof.
  intros Hne Heq. destruct target as [|n t _] using rev_ind; [done|].
  unfold hidden_sibling in Heq. rewrite removelast_last, last_snoc in Heq. apply app_inj_tail in Heq as [_ Heq].
  apply (f_equal String.length) in Heq. simpl in Heq. rewrite !string_length_app in Heq. lia.
Qed.

Lemma temp_not_backup target u1 u2 : hidden_sibling target u1 ".tmp" <> hidden_sibling target u2 ".bak".
Proof.
  intros Heq. unfold hidden_sibling in Heq. apply app_inj_tail in Heq as [_ Heq].
  rewrite <- !string_app_assoc in Heq. by apply append_same_end in Heq.
Qed.

(** ** The calls beside a target *)

Definition beside (target p : Names) : Prop := p = target \/ hidden_of target p.

Lemma beside_nonempty target p : target <> [] -> beside target p -> p <> [].
Proof. intros Hne [->|(u & s & ->)]; [done|]. unfold hidden_sibling. by destruct (removelast target). Qed.

Lemma beside_removelast target p : beside target p -> removelast p = removelast target.
Proof. intros [->|(u & s & ->)]; [done|]. apply hidden_removelast. Qed.

Lemma entry_at_nonempty v p : p <> [] -> entry_at v p = v_entries v !! p.
Proof. by destruct p. Qed.

Lemma v_eta v : v = {| v_entries := v_entries v; v_files := v_files v |}.
Proof. by destruct v. Qed.

(** The file [inode] with [text] has been put at [p]. *)
Definition with_file (p : Names) (inode : N) (text : string) (v : Volume) : Volume :=
  {| v_entries := <[p := EFile inode]> (v_entries v); v_files := <[inode := text]> (v_files v) |}.

Section beside_target.
Context (target : Names) (Hne : target <> []).

Lemma locate_beside v p : standing v (removelast target) -> beside target p -> locate v p = Ok p.
Proof. intros Hs Hp. apply locate_standing. by rewrite (beside_removelast target). Qed.

Lemma rename_spec from to inode d r d' :
  alone d -> standing (dr_volume d) (removelast target) -> beside target from -> beside target to ->
  v_entries (dr_volume d) !! from = Some (EFile inode) ->
  rename_path from to d = (r, d') ->
  alone d' /\ follows d d' /\ dr_calls d' = tail (dr_calls d) /\
  (((∃ e, r = Err e) /\ dr_volume d' = dr_volume d /\
    (fails_next d \/ v_entries (dr_volume d) !! to = Some EDirectory)) \/
   (r = Ok tt /\ dr_volume d' = {| v_entries := <[to := EFile inode]> (delete from (v_entries (dr_volume d)));
                                   v_files := v_files (dr_volume d) |})).
Proof.
  intros Ha Hs Hf Ht He Hr. apply drive_edit_spec in Hr as (Ha' & Hfo & Hc & Hor); [|done].
  split_and!; [done..|]. destruct Hor as [(Hfail & Herr & Hv)|Hm]; [left; by auto|].
  rewrite !(locate_beside _ _ Hs) in Hm by done. cbn [mbind outcome_bind] in Hm.
  rewrite !entry_at_nonempty, He in Hm by (by eapply beside_nonempty).
  destruct (v_entries (dr_volume d) !! to) as [[| | |]|] eqn:Et;
    try (destruct Hm as (-> & Hv); left; by eauto);
    (destruct Hm as (-> & Hv & Hvf); right; split; [done|]; by rewrite (v_eta (dr_volume d')), Hv, Hvf).
Qed.

Lemma remove_spec p d r d' :
  alone d -> standing (dr_volume d) (removelast target) -> beside target p ->
  remove_entry p d = (r, d') ->
  alone d' /\ follows d d' /\ dr_calls d' = tail (dr_calls d) /\
  (((∃ e, r = Err e) /\ dr_volume d' = dr_volume d) \/
   (r = Ok tt /\ dr_volume d' = {| v_entries := delete p (v_entries (dr_volume d));
                                   v_files := v_files (dr_volume d) |})).
Proof.
  intros Ha Hs Hp Hr. apply drive_edit_spec in Hr as (Ha' & Hfo & Hc & Hor); [|done].
  split_and!; [done..|]. destruct Hor as [(Hfail & Herr & Hv)|Hm]; [left; by auto|].
  rewrite (locate_beside _ _ Hs) in Hm by done. cbn [mbind outcome_bind] in Hm.
  destruct (entry_at (dr_volume d) p) as [[| | |]|];
    try (destruct Hm as (-> & Hv); left; by eauto);
    (destruct Hm as (-> & Hv & Hvf); right; split; [done|]; by rewrite (v_eta (dr_volume d')), Hv, Hvf).
Qed.

(** Removing [p] and ignoring the outcome. *)
Lemma ignored_remove_spec {F} p d :
  alone d -> standing (dr_volume d) (removelast target) -> beside target p ->
  ∃ d', ignore_failure (F:=F) (remove_entry p) d = (Ok tt, d') /\ alone d' /\ follows d d' /\
    touches target (dr_volume d) (dr_volume d') /\
    (∀ q, q <> p -> v_entries (dr_volume d') !! q = v_entries (dr_volume d) !! q) /\
    v_files (dr_volume d') = v_files (dr_volume d).
Proof.
  intros Ha Hs Hp. unfold ignore_failure. destruct (remove_entry p d) as [r d'] eqn:Hr.
  apply remove_spec in Hr as (Ha' & Hfo & _ & Hor); [|done..]. exists d'.
  destruct Hor as [((e & ->) & Hv)|(-> & Hv)]; rewrite Hv; split_and!; try done.
  - apply (touches_one _ p); [done| |done]. intros q Hq. simpl. by rewrite lookup_delete_ne.
  - intros q Hq. simpl. by rewrite lookup_delete_ne.
Qed.

Lemma create_new_spec p d r d' :
  alone d -> standing (dr_volume d) (removelast target) -> beside target p ->
  create_new p d = (r, d') ->
  alone d' /\ follows d d' /\
  (((∃ e, r = Err e) /\ dr_volume d' = dr_volume d) \/
   (∃ inode, r = Ok inode /\ v_files (dr_volume d) !! inode = None /\ v_entries (dr_volume d) !! p = None /\
      dr_volume d' = with_file p inode "" (dr_volume d))).
Proof.
  intros Ha Hs Hp Hr. apply drive_call_alone in Hr as (Hc & _ & Ha' & Hor); [|done].
  split_and!; [done|by apply follows_tail|].
  destruct Hor as [(c & fault & _ & _ & -> & Hv)|Hm]; [left; by eauto|].
  rewrite (locate_beside _ _ Hs) in Hm by done. cbn [mbind outcome_bind] in Hm.
  rewrite entry_at_nonempty in Hm by (by eapply beside_nonempty).
  destruct (v_entries (dr_volume d) !! p) as [entry|] eqn:E; injection Hm as Hm Hv; subst r;
    [left; by eauto|right].
  eexists. split_and!; [done| |done|done].
  apply not_elem_of_dom, is_fresh.
Qed.

Lemma write_bytes_spec inode bytes d r d' :
  alone d -> write_bytes inode bytes d = (r, d') ->
  alone d' /\ follows d d' /\
  ∃ text, dr_volume d' = {| v_entries := v_entries (dr_volume d); v_files := <[inode := text]> (v_files (dr_volume d)) |} /\
    (r = Ok tt /\ text = bytes \/ ∃ e, r = Err e).
Proof.
  intros Ha Hr. apply drive_call_alone in Hr as (Hc & _ & Ha' & Hor); [|done].
  split_and!; [done|by apply follows_tail|].
  destruct Hor as [(c & fault & _ & _ & -> & Hv)|Hm]; [eexists; split; eauto|].
  injection Hm as <- <-. eexists. split; [done|by left].
Qed.

Lemma at_path_inv {A} what path (m : st Drive IoError A) d r d' :
  at_path what path m d = (r, d') -> ∃ r0, m d = (r0, d') /\
    ((∃ e e', r0 = Err e /\ r = Err e') \/ (∃ a, r0 = Ok a /\ r = Ok a) \/ ∃ msg, r0 = Panic msg /\ r = Panic msg).
Proof.
  unfold at_path, st_map_err. destruct (m d) as [r0 d0]. intros [= <- <-]. exists r0.
  destruct r0; simpl; naive_solver.
Qed.

(** The temporary file: complete if the calls succeed, and otherwise at most a part of it. *)
Lemma write_temporary_spec temp content d r d' :
  alone d -> standing (dr_volume d) (removelast target) -> beside target temp ->
  write_temporary temp content d = (r, d') ->
  alone d' /\ follows d d' /\
  (((∃ e, r = Err e) /\ dr_volume d' = dr_volume d) \/
   (∃ inode text, v_files (dr_volume d) !! inode = None /\ v_entries (dr_volume d) !! temp = None /\
      dr_volume d' = with_file temp inode text (dr_volume d) /\ (r = Ok tt /\ text = content \/ ∃ e, r = Err e))).
Proof.
  intros Ha Hs Ht. unfold write_temporary. rewrite st_bind_run.
  destruct (at_path _ _ (create_new temp) d) as [r1 d1] eqn:E1.
  apply at_path_inv in E1 as (r0 & Hr0 & Hcase).
  apply create_new_spec in Hr0 as (Ha1 & Hf1 & [((e & ->) & Hv1)|(inode & -> & Hn & He & Hv1)]); [| |done..].
  { destruct Hcase as [(? & e' & _ & ->)|[(? & [=] & _)|(? & [=] & _)]]. intros [= <- <-].
    split_and!; [done..|]. left; eauto. }
  destruct Hcase as [(? & ? & [=] & _)|[(? & [= <-] & ->)|(? & [=] & _)]].
  rewrite st_bind_run. destruct (at_path _ _ (write_bytes inode content) d1) as [r2 d2] eqn:E2.
  apply at_path_inv in E2 as (r0 & Hr0 & Hcase).
  apply write_bytes_spec in Hr0 as (Ha2 & Hf2 & text & Hv2 & Hr0); [|done].
  assert (dr_volume d2 = with_file temp inode text (dr_volume d)) as Hv.
  { rewrite Hv2, Hv1. unfold with_file. simpl. by rewrite insert_insert_eq. }
  destruct Hr0 as [[-> ->]|(e & ->)].
  2:{ destruct Hcase as [(? & e' & _ & ->)|[(? & [=] & _)|(? & [=] & _)]]. intros [= <- <-].
      split_and!; [done|by etrans|]. right. exists inode, text. split_and!; eauto. }
  destruct Hcase as [(? & ? & [=] & _)|[([] & _ & ->)|(? & [=] & _)]].
  intros (r0 & Hr0 & Hcase)%at_path_inv. apply drive_look_spec in Hr0 as (Ha3 & Hf3 & Hv3 & Hr0); [|done].
  split_and!; [done|by etrans; [exact Hf1|etrans]|]. right. exists inode, content.
  split_and!; [done..|congruence|].
  destruct Hcase as [(? & e' & _ & ->)|[([] & _ & ->)|(? & -> & _)]]; [right; eauto|by left|].
  by destruct Hr0 as [[? ?]|?].
Qed.
End beside_target.

(** ** Replacing a file *)

Section replacing.
Context `{Uuids} (target : Names) (Hne : target <> []).
Implicit Types d : Drive.

Lemma hidden_beside uuid suffix : beside target (hidden_sibling target uuid suffix).
Proof. right. by exists uuid, suffix. Qed.

Lemma with_file_touches p inode text v :
  beside target p -> v_files v !! inode = None -> touches target v (with_file p inode text v).
Proof.
  intros Hp Hn. apply (touches_one _ p); [done|intros q Hq; simpl; by rewrite lookup_insert_ne|].
  intros i bytes Hi. simpl. rewrite lookup_insert_ne; [done|]. congruence.
Qed.

Lemma rename_touches from to inode v :
  beside target from -> beside target to ->
  touches target v {| v_entries := <[to := EFile inode]> (delete from (v_entries v)); v_files := v_files v |}.
Proof.
  intros Hf Ht. split; [|done]. intros q Hq Hh. simpl.
  rewrite lookup_insert_ne, lookup_delete_ne; [done|..]; unfold beside in *; naive_solver.
Qed.

(** A run that left [v] with the effect [touches] and, on failure, with the old target. *)
Definition replaces (d : Drive) (r : outcome string unit) (d' : Drive) (content : string) : Prop :=
  alone d' /\ follows d d' /\ touches target (dr_volume d) (dr_volume d') /\
  match r with
  | Ok _ => ∃ inode, v_entries (dr_volume d') !! target = Some (EFile inode) /\
                     v_files (dr_volume d') !! inode = Some content
  | Err _ => isolated (dr_calls d) -> v_entries (dr_volume d') !! target = v_entries (dr_volume d) !! target
  | Panic _ => False
  end.

Lemma replaces_after d d1 r d' content :
  follows d d1 -> touches target (dr_volume d) (dr_volume d1) ->
  v_entries (dr_volume d1) !! target = v_entries (dr_volume d) !! target ->
  replaces d1 r d' content -> replaces d r d' content.
Proof.
  intros Hf Ht He (Ha & Hf' & Ht' & Hr). split_and!; [done|by etrans|by etrans|].
  destruct r; [done| |done]. intros Hi. rewrite <- He. by apply Hr, Hf.
Qed.

(** Moving the temporary file into place when there was nothing to replace. *)
Lemma move_into_place_new temp inode content d r d' :
  alone d -> standing (dr_volume d) (removelast target) -> hidden_of target temp -> temp <> target ->
  v_entries (dr_volume d) !! temp = Some (EFile inode) -> v_files (dr_volume d) !! inode = Some content ->
  move_into_place target temp None d = (r, d') -> replaces d r d' content.
Proof.
  intros Ha Hs Ht Htne He Hb. unfold move_into_place. rewrite st_bind_run. unfold st_result at 1.
  destruct (rename_path temp target d) as [r1 d1] eqn:E1.
  apply (rename_spec target Hne _ _ inode) in E1 as (Ha1 & Hf1 & _ & Hor); [|done|done|by right|by left|done].
  destruct Hor as [((e & ->) & Hv & _)|(-> & Hv)].
  - rewrite st_bind_run. cbv beta iota. cbn [mret st_ret].
    destruct (ignored_remove_spec (F:=string) target temp d1) as (d2 & Hr2 & Ha2 & Hf2 & Ht2 & He2 & _);
      [done|by rewrite Hv|by right|].
    unfold mret, st_ret. rewrite st_bind_run, Hr2. intros [= <- <-].
    split_and!; [done|by etrans|by rewrite <- Hv|]. intros _. by rewrite He2, Hv.
  - intros [= <- <-]. split_and!; [done..| |].
    + rewrite Hv. apply rename_touches; [by right|by left].
    + exists inode. rewrite Hv. simpl. by rewrite lookup_insert_eq.
Qed.

(** The same with a file set aside: if it fails, the old file is put back. *)
Lemma move_into_place_replacing temp backup inode old content d r d' :
  alone d -> standing (dr_volume d) (removelast target) ->
  hidden_of target temp -> hidden_of target backup -> temp <> target -> backup <> target -> temp <> backup ->
  v_entries (dr_volume d) !! temp = Some (EFile inode) -> v_files (dr_volume d) !! inode = Some content ->
  v_entries (dr_volume d) !! backup = Some (EFile old) -> v_entries (dr_volume d) !! target = None ->
  move_into_place target temp (Some backup) d = (r, d') ->
  alone d' /\ follows d d' /\ touches target (dr_volume d) (dr_volume d') /\
  match r with
  | Ok _ => ∃ inode, v_entries (dr_volume d') !! target = Some (EFile inode) /\
                     v_files (dr_volume d') !! inode = Some content
  | Err _ => isolated (dr_calls d) -> v_entries (dr_volume d') !! target = Some (EFile old)
  | Panic _ => False
  end.
Proof.
  intros Ha Hs Ht Hb Htne Hbne Htb He Hc Hbe Hn. unfold move_into_place. rewrite st_bind_run. unfold st_result at 1.
  destruct (rename_path temp target d) as [r1 d1] eqn:E1.
  apply (rename_spec target Hne _ _ inode) in E1 as (Ha1 & Hf1 & Hc1 & Hor); [|done|done|by right|by left|done].
  destruct Hor as [((e & ->) & Hv & Hfail)|(-> & Hv)].
  - rewrite st_bind_run. cbv beta iota. rewrite st_bind_run. unfold ignore_failure at 1.
    destruct (rename_path backup target d1) as [r2 d2] eqn:E2.
    apply (rename_spec target Hne _ _ old) in E2 as (Ha2 & Hf2 & _ & Hor);
      [|done|by rewrite Hv|by right|by left|by rewrite Hv].
    assert (touches target (dr_volume d) (dr_volume d2) /\
            (isolated (dr_calls d) -> v_entries (dr_volume d2) !! target = Some (EFile old)) /\
            ((∃ u, r2 = Ok u) \/ ∃ e, r2 = Err e)) as (Ht2 & He2 & Hr2).
    { destruct Hor as [((e2 & ->) & Hv2 & Hfail2)|(-> & Hv2)]; rewrite Hv in *.
      - rewrite Hv2. split_and!; [done| |eauto]. intros Hi.
        destruct Hfail as [(c & Hhd & Hflt)|Hd]; [|congruence].
        destruct Hfail2 as [(c' & Hhd' & Hflt')|Hd]; [|congruence].
        rewrite Hc1 in Hhd'. destruct (dr_calls d) as [|c0 calls]; [done|]. injection Hhd as ->.
        destruct Hi as [Hi _]. rewrite (Hi Hflt c' Hhd') in Hflt'. by destruct Hflt'.
      - rewrite Hv2. split_and!; [|intros _; simpl; by rewrite lookup_insert_eq|eauto].
        apply rename_touches; [by right|by left]. }
    assert (standing (dr_volume d2) (removelast target)) as Hs2 by (by eapply touches_standing).
    destruct (ignored_remove_spec (F:=string) target backup d2) as (d3 & Hr3 & Ha3 & Hf3 & Ht3 & He3 & _);
      [done|done|by right|].
    destruct (ignored_remove_spec (F:=string) target temp d3) as (d4 & Hr4 & Ha4 & Hf4 & Ht4 & He4 & _);
      [done|by eapply touches_standing|by right|].
    assert (match r2 with Panic msg => (Panic msg, d2) | _ => (Ok tt, d2) end = (Ok tt : outcome string unit, d2)) as ->
      by (destruct Hr2 as [[? ->]|[? ->]]; done).
    rewrite Hr3, st_bind_run, Hr4. intros [= <- <-]. split_and!; [done| | |].
    + etrans; [exact Hf1|]. etrans; [exact Hf2|]. by etrans.
    + etrans; [exact Ht2|]. by etrans.
    + intros Hi. rewrite He4, He3 by done. auto.
  - cbv beta iota. destruct (ignored_remove_spec (F:=string) target backup d1) as (d2 & Hr2 & Ha2 & Hf2 & Ht2 & He2 & Hfi2);
      [done| |by right|].
    { eapply touches_standing; [done| |exact Hs]. rewrite Hv. apply rename_touches; [by right|by left]. }
    rewrite Hr2. intros [= <- <-]. split_and!; [done|by etrans| |].
    + etrans; [|exact Ht2]. rewrite Hv. apply rename_touches; [by right|by left].
    + exists inode. rewrite He2, Hfi2, Hv by done. simpl. by rewrite lookup_insert_eq.
Qed.
End replacing.

Lemma replace_content_spec `{Uuids} target content (replaced : bool) d r d' :
  target <> [] -> alone d -> standing (dr_volume d) (removelast target) ->
  (replaced = true -> ∃ inode, v_entries (dr_volume d) !! target = Some (EFile inode)) ->
  replace_content target content replaced d = (r, d') -> replaces target d r d' content.
Proof.
  intros Hne Ha Hs Hrep. unfold replace_content. rewrite st_bind_run.
  destruct (draw_spec (E:=string) new_v4 d) as (uuid & d0 & Hd & Hf0 & Hv0 & _). rewrite Hd. clear Hd.
  set (temp := hidden_sibling target uuid ".tmp").
  assert (temp <> target) as Htne by by apply hidden_not_target.
  assert (alone d0) as Ha0 by by apply Hf0.
  rewrite st_bind_run. destruct (write_temporary temp content d0) as [r1 d1] eqn:E1.
  apply (write_temporary_spec target Hne) in E1 as (Ha1 & Hf1 & Hor); [|done|by rewrite Hv0|apply hidden_beside].
  rewrite Hv0 in Hor.
  destruct Hor as [((e & ->) & Hv1)|(inode & text & Hni & Hnt & Hv1 & Hor)].
  { intros [= <- <-]. split_and!; [done|by etrans|by rewrite Hv1|by rewrite Hv1]. }
  assert (touches target (dr_volume d) (dr_volume d1)) as Ht1
    by (rewrite Hv1; apply with_file_touches; [apply hidden_beside|done]).
  assert (v_entries (dr_volume d1) !! target = v_entries (dr_volume d) !! target) as He1
    by (rewrite Hv1; simpl; by rewrite lookup_insert_ne).
  assert (standing (dr_volume d1) (removelast target)) as Hs1 by by eapply touches_standing.
  destruct Hor as [[-> ->]|(e & ->)].
  2:{ intros [= <- <-]. split_and!; [done|by etrans|done|done]. }
  intros Hrun. apply (replaces_after target d d1); [by etrans|done..|]. revert Hrun. rewrite st_bind_run.
  assert (v_entries (dr_volume d1) !! temp = Some (EFile inode)) as Hte
    by (rewrite Hv1; simpl; by rewrite lookup_insert_eq).
  assert (v_files (dr_volume d1) !! inode = Some content) as Htb
    by (rewrite Hv1; simpl; by rewrite lookup_insert_eq).
  assert (hidden_of target temp) as Hh by (by eexists _, _).
  destruct replaced.
  2:{ unfold mret at 1, st_ret at 1. apply (move_into_place_new target Hne temp inode); done. }
  destruct (Hrep eq_refl) as [old Hold]. rewrite st_bind_run. unfold set_aside. rewrite st_bind_run.
  destruct (draw_spec (E:=string) new_v4 d1) as (uuid' & d2 & Hd & Hf2 & Hv2 & _). rewrite Hd. clear Hd.
  set (backup := hidden_sibling target uuid' ".bak"). rewrite st_bind_run. unfold st_result at 1.
  destruct (rename_path target backup d2) as [r3 d3] eqn:E3.
  assert (alone d2) as Ha2 by by apply Hf2.
  apply (rename_spec target Hne _ _ old) in E3 as (Ha3 & Hf3 & _ & Hor);
    [|done|by rewrite Hv2|by left|by right; eexists _, _|by rewrite Hv2, He1].
  rewrite Hv2 in Hor. destruct Hor as [((e & ->) & Hv3 & _)|(-> & Hv3)].
  - cbv beta iota. rewrite st_bind_run.
    destruct (ignored_remove_spec (F:=string) target temp d3) as (d4 & Hr4 & Ha4 & Hf4 & Ht4 & He4 & _);
      [done|by rewrite Hv3|by right|].
    rewrite Hr4. intros [= <- <-]. rewrite Hv3 in *.
    split_and!; [done|by etrans; [exact Hf2|etrans]|done|]. intros _. by rewrite He4.
  - unfold mret at 1 2, st_ret at 1 2. intros Hrun.
    assert (temp <> backup) as Htb' by apply temp_not_backup.
    assert (backup <> target) as Hbt by by apply hidden_not_target.
    assert (touches target (dr_volume d1) (dr_volume d3)) as Ht3
      by (rewrite Hv3; apply rename_touches; [by left|by right; eexists _, _]).
    apply (move_into_place_replacing target Hne temp backup inode old content) in Hrun as (Ha' & Hf' & Ht' & Hr);
      try done; try (by eexists _, _).
    + split_and!; [done|by etrans; [exact Hf2|etrans]|by etrans|].
      destruct r; [done| |done]. intros Hi. rewrite He1, Hold. apply Hr. by apply Hf3, Hf2.
    + by eapply touches_standing.
    + rewrite Hv3. simpl. rewrite lookup_insert_ne, lookup_delete_ne by done. done.
    + by apply Ht3.
    + rewrite Hv3. simpl. by rewrite lookup_insert_eq.
    + rewrite Hv3. simpl. rewrite lookup_insert_ne, lookup_delete_eq by done. done.
Qed.

(** ** Where an operation ends up *)

(** The resources still lie where they were registered: below real directories. *)
Definition grounded (v : Volume) (document : FileResourceRegistryDocument) : Prop :=
  ∀ record, record ∈ fd_resources document ->
    standing v (removelast (fr_canonical_path record)) /\
    (fr_kind record = ResourceFile -> fr_canonical_path record <> []).

(** The part of the drive a resource opens. *)
Definition within_resource (record : FileResourceRecord) (p : Names) : Prop :=
  match fr_kind record with
  | ResourceFile => p = fr_canonical_path record \/ hidden_of (fr_canonical_path record) p
  | ResourceDirectory => fr_canonical_path record `prefix_of` p
  end.

Lemma active_resource_Ok document id record :
  active_resource document id = Ok record ->
  record ∈ fd_resources document /\ fr_resource_id record = id /\ id ∉ fd_pending_removals document.
Proof.
  unfold active_resource. intros (r & Hr%ok_or_Ok & Hp)%bind_Ok_inv. unfold find_resource in Hr.
  apply find_Some_elem in Hr as [Hin Hid%bool_decide_eq_true]. case_bool_decide; [done|]. by simplify_eq.
Qed.

Lemma keep_names_no_panic text cs msg : keep_names text cs <> Panic msg.
Proof. induction cs as [|[| | |n] cs IH]; simpl; [done..|]. by destruct (keep_names text cs). Qed.

(** Nothing can be reached under a parent that is not a directory. *)
Lemma settled_parent v parent :
  settled_at v parent -> standing v parent \/ ∀ name, locate v (parent ++ [name]) = Err not_a_directory.
Proof.
  intros Hs. destruct (decide (entry_at v parent = Some EDirectory)) as [Hd|Hd].
  - left. intros q Hq. destruct Hs as [Hs _]. destruct parent as [|n parent _] using rev_ind; [by apply prefix_nil_inv in Hq as ->|].
    rewrite removelast_last in Hs. apply prefix_snoc_inv in Hq as [Hq| ->]; [by apply Hs|done].
  - right. intros name. unfold locate. rewrite last_snoc, removelast_last, (resolve_settled_at _ _ Hs). simpl.
    unfold is_directory. by rewrite bool_decide_eq_false_2.
Qed.

Lemma walk_no_panic v links here todo msg : walk v links here todo <> Panic msg.
Proof.
  revert here todo. induction links as [|links IHl]; intros here todo; revert here;
    (induction todo as [|c todo IH]; intros here; simpl; [done|]);
    (destruct c as [| | |name]; [apply IH..|]);
    (destruct (v_entries v !! (here ++ [name])) as [[| | |]|]; try done; try apply IH; try apply IHl; by destruct todo).
Qed.

Lemma locate_no_panic v p msg : locate v p <> Panic msg.
Proof.
  unfold locate. destruct (last p); [|done]. pose proof (walk_no_panic v MAX_LINKS [] (Normal <$> removelast p)) as Hw.
  unfold resolve. destruct (walk _ _ _ _) as [here| |m]; [|done|by destruct (Hw m)]. simpl. by destruct (is_directory v here).
Qed.

(** A call without effect, its error wrapped. *)
Lemma at_look_spec {A} what p (f : Volume -> outcome IoError A) d r d' :
  alone d -> (∀ msg, f (dr_volume d) <> Panic msg) -> at_path what p (drive_look f) d = (r, d') ->
  alone d' /\ follows d d' /\ dr_volume d' = dr_volume d /\
  ((∃ e, r = Err e) \/ ∃ a, r = Ok a /\ f (dr_volume d) = Ok a).
Proof.
  intros Ha Hnp (r0 & Hr0 & Hc)%at_path_inv. apply drive_look_spec in Hr0 as (Ha1 & Hf1 & Hv1 & Hor); [|done].
  split_and!; [done..|]. destruct Hc as [(? & ? & _ & ->)|[(a & -> & ->)|(msg & -> & _)]]; [eauto| |].
  - destruct Hor as [[? [=]]|Hor]. eauto.
  - destruct Hor as [[? [=]]|Hor]. by destruct (Hnp msg).
Qed.

Section locating.
Context `{FileTimes, Uuids, FileLibraries} (sha256_hex : string -> string).

Lemma resolve_target_spec root kind rel write d r d' :
  alone d -> resolve_target root kind rel write d = (r, d') ->
  alone d' /\ follows d d' /\ dr_volume d' = dr_volume d /\ (∀ msg, r <> Panic msg) /\
  ∀ target, r = Ok target ->
    match kind, write with
    | ResourceFile, _ => target = root
    | ResourceDirectory, true => ∃ parent name, target = parent ++ [name] /\ root `prefix_of` parent /\
                                                settled_at (dr_volume d) parent
    | ResourceDirectory, false => target = root \/ root `prefix_of` target /\ settled_at (dr_volume d) target
    end.
Proof.
  intros Ha. unfold resolve_target. rewrite st_bind_run. unfold st_lift at 1.
  pose proof (keep_names_no_panic (default "" rel) (path_components (default "" rel))) as Hnp.
  unfold sanitize_relative_path.
  destruct (keep_names _ _) as [names|e|msg]; [|intros [= <- <-]; by split_and!|by destruct (Hnp msg)].
  clear Hnp. destruct kind; simpl.
  { case_bool_decide; simpl; intros [= <- <-]; split_and!; try done. by intros ? [= ->]. }
  case_bool_decide; [destruct write; intros [= <- <-]; split_and!; try done; intros ? [= ->]; by left|].
  destruct write; [unfold resolve_parent_within_root|unfold resolve_existing_within_root]; rewrite !st_bind_run.
  - destruct (last (root ++ names)) as [name|] eqn:El; unfold st_lift at 1; cbn [ok_or];
      [rewrite st_bind_run|intros [= <- <-]; by split_and!].
    destruct (at_path _ _ _ d) as [r1 d1] eqn:E1.
    apply at_look_spec in E1 as (Ha1 & Hf1 & Hv1 & [(e & ->)|(parent & -> & Hor)]);
      [intros [= <- <-]; by split_and!| |done|intros ?; apply walk_no_panic].
    apply resolve_settled in Hor. rewrite st_bind_run. unfold st_lift, ensure_within_root.
    case_bool_decide as Hp; intros [= <- <-]; split_and!; try done. intros ? [= <-]. by exists parent, name.
  - destruct (at_path _ _ _ d) as [r1 d1] eqn:E1.
    apply at_look_spec in E1 as (Ha1 & Hf1 & Hv1 & [(e & ->)|(p & -> & Hor)]);
      [intros [= <- <-]; by split_and!| |done|intros ?; apply walk_no_panic].
    apply resolve_settled in Hor. rewrite st_bind_run. unfold st_lift, ensure_within_root.
    case_bool_decide as Hp; intros [= <- <-]; split_and!; try done. intros ? [= <-]. by right.
Qed.

Lemma metadata_at_spec v p m : metadata_at v p = Ok m -> entry_at v p = Some (md_entry m).
Proof. unfold metadata_at. intros (e & He%ok_or_Ok & [= <-])%bind_Ok_inv. done. Qed.

Lemma metadata_no_panic v p msg : metadata_at v p <> Panic msg.
Proof. unfold metadata_at. by destruct (entry_at v p). Qed.

(** [fs::symlink_metadata]: the entry itself, where its parent stands. *)
Lemma symlink_metadata_spec what p d r d' :
  alone d -> at_path what p (symlink_metadata p) d = (r, d') ->
  alone d' /\ follows d d' /\ dr_volume d' = dr_volume d /\
  ((∃ e, r = Err e) \/ ∃ m q, r = Ok m /\ locate (dr_volume d) p = Ok q /\ metadata_at (dr_volume d) q = Ok m).
Proof.
  intros Ha Hr. apply at_look_spec in Hr as (Ha' & Hf & Hv & Hor); [|done|].
  - split_and!; [done..|]. destruct Hor as [?|(m & -> & (q & Hq & Hm)%bind_Ok_inv)]; [by left|].
    right. by exists m, q.
  - intros msg. pose proof (locate_no_panic (dr_volume d) p) as Hn.
    destruct (locate _ p) as [q|e|msg'] eqn:E; simpl; [apply metadata_no_panic|done|by destruct (Hn msg')].
Qed.

Lemma is_file_entry m : is_file m = true -> ∃ inode, md_entry m = EFile inode.
Proof. unfold is_file. destruct (md_entry m); try done. eauto. Qed.

Lemma file_settled v p inode : standing v (removelast p) -> entry_at v p = Some (EFile inode) -> settled_at v p.
Proof. intros Hs He. split; [done|]. by eexists. Qed.

Lemma open_file_spec what p d r d' :
  alone d -> at_path what p (open_file p) d = (r, d') ->
  alone d' /\ follows d d' /\ dr_volume d' = dr_volume d /\
  ((∃ e, r = Err e) \/ ∃ file q, r = Ok file /\ resolve (dr_volume d) p = Ok q /\ entry_at (dr_volume d) q = Some file).
Proof.
  intros Ha Hr. apply at_look_spec in Hr as (Ha' & Hf & Hv & Hor); [|done|].
  - split_and!; [done..|]. destruct Hor as [?|(file & -> & (q & Hq & Hm%ok_or_Ok)%bind_Ok_inv)]; [by left|].
    right. eauto 10.
  - intros msg. pose proof (walk_no_panic (dr_volume d) MAX_LINKS [] (Normal <$> p)) as Hn. unfold resolve.
    destruct (walk _ _ _ _) as [q|e|msg'] eqn:E; simpl; [by destruct (entry_at (dr_volume d) q)|done|by destruct (Hn msg')].
Qed.

Lemma check_expected_spec target expected inode d r d' :
  alone d -> settled_at (dr_volume d) target -> entry_at (dr_volume d) target = Some (EFile inode) ->
  check_expected_sha256 sha256_hex target expected d = (r, d') ->
  alone d' /\ follows d d' /\ dr_volume d' = dr_volume d /\
  ((∃ e, r = Err e) \/
   r = Ok tt /\ ∀ digest, expected = Some digest -> sha256_hex (bytes_of (dr_volume d) inode) = digest).
Proof.
  intros Ha Hs He. unfold check_expected_sha256. destruct expected as [digest|]; [|intros [= <- <-]; split_and!; [done..|by right]].
  unfold sha256_of_file. rewrite !st_bind_run.
  destruct (at_path _ _ (open_file target) d) as [r1 d1] eqn:E1.
  apply open_file_spec in E1 as (Ha1 & Hf1 & Hv1 & [(e & ->)|(file & q & -> & Hq & Hfile)]); [| |done].
  { intros [= <- <-]. split_and!; eauto. }
  rewrite resolve_settled_at in Hq by done. injection Hq as <-. rewrite He in Hfile. injection Hfile as <-.
  rewrite st_bind_run. destruct (at_path _ _ (read_all _) d1) as [r2 d2] eqn:E2.
  apply at_look_spec in E2 as (Ha2 & Hf2 & Hv2 & [(e & ->)|(bytes & -> & [= <-])]); [| |done|done].
  { intros [= <- <-]. split_and!; [done|by etrans|congruence|eauto]. }
  unfold mret at 1, st_ret at 1. rewrite Hv1. case_bool_decide as Hb; simpl; intros [= <- <-];
    (split_and!; [done|by etrans|congruence|]); [right|left; eauto].
  split; [done|]. by intros ? [= <-].
Qed.
End locating.

(** ** The operations *)

Section operations.
Context `{FileTimes, Uuids, FileLibraries} (sha256_hex : string -> string).
Context (document : FileResourceRegistryDocument).

(** A place to write: its parent is a real directory, or not a directory at all. *)
Definition place (v : Volume) (target : Names) : Prop :=
  target <> [] /\
  (standing v (removelast target) \/
   ∀ p, p <> [] -> removelast p = removelast target -> locate v p = Err not_a_directory).

(** The place a write or a deletion was directed to. *)
Lemma write_target_spec id record rel d r d' :
  alone d -> grounded (dr_volume d) document -> active_resource document id = Ok record ->
  resolve_target (fr_canonical_path record) (fr_kind record) rel true d = (r, d') ->
  alone d' /\ follows d d' /\ dr_volume d' = dr_volume d /\ (∀ msg, r <> Panic msg) /\
  ∀ target, r = Ok target ->
    place (dr_volume d) target /\ ∀ p, beside target p -> within_resource record p.
Proof.
  intros Ha Hg (Hin & _ & _)%active_resource_Ok Hr.
  apply resolve_target_spec in Hr as (Ha' & Hf & Hv & Hnp & Hor); [|done].
  split_and!; [done..|]. intros target Ht. specialize (Hor _ Ht). unfold within_resource.
  destruct (fr_kind record) eqn:Hk.
  - subst target. destruct (Hg _ Hin) as [Hs Hne]. split; [by split; [apply Hne|left]|]. intros p Hp. exact Hp.
  - destruct Hor as (parent & name & -> & Hp & Hset). split.
    + split; [by destruct parent|]. rewrite removelast_last. apply settled_parent in Hset as [Hs|Hb]; [by left|right].
      intros p Hne Hrm. destruct p as [|n p _] using rev_ind; [done|]. rewrite removelast_last in Hrm. by subst.
    + assert (fr_canonical_path record `prefix_of` parent ++ [name]) as Hpre by by apply prefix_app_r.
      intros p [->|(u & s & ->)]; [done|]. unfold hidden_sibling. rewrite removelast_last. by apply prefix_app_r.
Qed.

Lemma path_exists_spec {E} p d :
  alone d -> ∃ b d', path_exists (E:=E) p d = (Ok b, d') /\ alone d' /\ follows d d' /\ dr_volume d' = dr_volume d.
Proof.
  intros Ha. unfold path_exists. destruct (drive_look _ d) as [r d'] eqn:Er.
  apply drive_look_spec in Er as (Ha' & Hf & Hv & _); [|done]. eauto 10.
Qed.

Lemma decode_content_no_panic text msg : decode_content text <> Panic msg.
Proof.
  unfold decode_content, reject. case_match; [done|]. simpl. destruct (base64_standard_decode text); [done|]. simpl.
  by case_match.
Qed.

(** In a place without a directory nothing is created. *)
Lemma replace_content_nowhere target content d r d' :
  alone d -> (∀ p, p <> [] -> removelast p = removelast target -> locate (dr_volume d) p = Err not_a_directory) ->
  replace_content target content false d = (r, d') ->
  alone d' /\ follows d d' /\ dr_volume d' = dr_volume d /\ ∃ e, r = Err e.
Proof.
  intros Ha Hb. unfold replace_content. rewrite st_bind_run.
  destruct (draw_spec (E:=string) new_v4 d) as (uuid & d0 & Hd & Hf0 & Hv0 & _). rewrite Hd. clear Hd.
  rewrite st_bind_run. unfold write_temporary. rewrite st_bind_run.
  destruct (at_path _ _ (create_new _) d0) as [r1 d1] eqn:E1. apply at_path_inv in E1 as (r0 & Hr0 & Hc).
  assert (alone d0) as Ha0 by by apply Hf0.
  apply drive_call_alone in Hr0 as (Hcalls & _ & Ha1 & Hor); [|done].
  assert ((∃ e, r0 = Err e) /\ dr_volume d1 = dr_volume d0) as [[e ->] Hv1].
  { destruct Hor as [(c & fault & _ & _ & -> & Hv)|Hm]; [eauto|].
    rewrite Hv0, Hb in Hm; [|unfold hidden_sibling; by destruct (removelast target)|apply hidden_removelast].
    simpl in Hm. injection Hm as <- Hm. split; [eauto|congruence]. }
  destruct Hc as [(? & e' & _ & ->)|[(? & [=] & _)|(? & [=] & _)]]. intros [= <- <-].
  split_and!; [done|etrans; [exact Hf0|by apply follows_tail]|congruence|eauto].
Qed.

(** What the checks on the target establish. *)
Lemma check_replaceable_spec target expected d r d' :
  alone d -> place (dr_volume d) target ->
  check_replaceable sha256_hex target expected d = (r, d') ->
  alone d' /\ follows d d' /\ dr_volume d' = dr_volume d /\
  ((∃ e, r = Err e) \/
   ∃ replaced : bool, r = Ok replaced /\
     (replaced = true -> standing (dr_volume d) (removelast target) /\
        ∃ inode, entry_at (dr_volume d) target = Some (EFile inode)) /\
     (∀ digest, expected = Some digest ->
        ∃ inode, entry_at (dr_volume d) target = Some (EFile inode) /\
                 sha256_hex (bytes_of (dr_volume d) inode) = digest)).
Proof.
  intros Ha [Hne Hplace]. unfold check_replaceable. rewrite st_bind_run.
  destruct (path_exists_spec (E:=string) target d Ha) as (replaced & d2 & -> & Ha2 & Hf2 & Hv2).
  destruct replaced.
  - rewrite !st_bind_run. destruct (at_path _ _ _ d2) as [r4 d4] eqn:E4.
    apply symlink_metadata_spec in E4 as (Ha4 & Hf4 & Hv4 & Hor); [|done]. rewrite Hv2 in *.
    destruct Hor as [(e & ->)|(m & q & -> & Hq & He)]; [intros [= <- <-]; split_and!; [done|by etrans|done|left; eauto]|].
    destruct (is_file m) eqn:Hm; simpl; [|intros [= <- <-]; split_and!; [done|by etrans|done|left; eauto]].
    unfold mret at 1, st_ret at 1. rewrite st_bind_run. unfold st_lift at 1, reject. rewrite andb_false_r.
    destruct Hplace as [Hs|Hb]; [|by rewrite Hb in Hq].
    rewrite locate_standing in Hq by done. injection Hq as <-. apply metadata_at_spec in He. destruct (is_file_entry _ Hm) as [inode Hi].
    rewrite Hi in He. rewrite st_bind_run. destruct (check_expected_sha256 _ _ _ d4) as [r5 d5] eqn:E5.
    apply (check_expected_spec sha256_hex target expected inode) in E5 as (Ha5 & Hf5 & Hv5 & Hor);
      [|done|rewrite Hv4; by eapply file_settled|by rewrite Hv4]. rewrite Hv4 in *.
    destruct Hor as [(e & ->)|[-> Hd]]; intros [= <- <-];
      (split_and!; [done|by etrans; [exact Hf2|etrans]|done|]); [left; eauto|right].
    exists true. split_and!; [done|eauto|]. intros digest Hx. exists inode. auto.
  - unfold mret at 1, st_ret at 1. rewrite !st_bind_run. unfold st_lift at 1, reject. rewrite andb_true_r.
    destruct expected as [digest|]; [rewrite bool_decide_eq_true_2 by eauto|rewrite bool_decide_eq_false_2 by (by intros [? ?])];
      intros [= <- <-]; (split_and!; [done..|]); [left; eauto|right]. exists false. by split_and!.
Qed.

(** What a write with target [target] and outcome [r] has done to the drive. *)
Definition write_effect (id : ResourceId) (target : Names) (content : string) (d : Drive)
    (r : outcome string FileWriteView) (d' : Drive) : Prop :=
  touches target (dr_volume d) (dr_volume d') /\
  match r with
  | Ok view =>
      (∃ inode, v_entries (dr_volume d') !! target = Some (EFile inode) /\
                v_files (dr_volume d') !! inode = Some content) /\
      wv_resource_id view = id /\ wv_bytes_written view = N.of_nat (String.length content) /\
      wv_sha256 view = sha256_hex content
  | Err _ => isolated (dr_calls d) -> v_entries (dr_volume d') !! target = v_entries (dr_volume d) !! target
  | Panic _ => False
  end.

(** A write either leaves everything alone, or replaces the file it was directed to. *)
Lemma write_file_spec id rel content64 expected d r d' :
  alone d -> grounded (dr_volume d) document ->
  write_file sha256_hex document id rel content64 expected d = (r, d') ->
  alone d' /\
  (((∃ e, r = Err e) /\ dr_volume d' = dr_volume d) \/
   ∃ record target content d1,
     active_resource document id = Ok record /\
     resolve_target (fr_canonical_path record) (fr_kind record) rel true d = (Ok target, d1) /\
     (∀ p, beside target p -> within_resource record p) /\
     decode_content content64 = Ok content /\
     (∀ digest, expected = Some digest ->
        ∃ inode, entry_at (dr_volume d) target = Some (EFile inode) /\
                 sha256_hex (bytes_of (dr_volume d) inode) = digest) /\
     target <> [] /\ write_effect id target content d r d').
Proof.
  intros Ha Hg. unfold write_file. rewrite st_bind_run. unfold st_lift at 1.
  destruct (active_resource document id) as [record|e|msg] eqn:Hact;
    [|intros [= <- <-]; split; [done|]; left; eauto
     |exfalso; revert Hact; unfold active_resource; destruct (find_resource document id); simpl; by try case_bool_decide].
  rewrite st_bind_run. destruct (resolve_target _ _ _ _ d) as [r1 d1] eqn:E1.
  pose proof (write_target_spec _ _ _ _ _ _ Ha Hg Hact E1) as (Ha1 & Hf1 & Hv1 & Hnp & Ht).
  destruct r1 as [target|e|msg]; [|intros [= <- <-]; split; [done|]; left; eauto|by destruct (Hnp msg)].
  destruct (Ht _ eq_refl) as [Hplace Hin]. clear Ht Hnp.
  rewrite st_bind_run. unfold st_lift at 1.
  pose proof (decode_content_no_panic content64) as Hnp.
  destruct (decode_content content64) as [content|e|msg] eqn:Hdec;
    [|intros [= <- <-]; split; [done|]; left; eauto|by destruct (Hnp msg)]. clear Hnp.
  rewrite st_bind_run. destruct (check_replaceable _ _ _ d1) as [r4 d4] eqn:E4.
  apply check_replaceable_spec in E4 as (Ha4 & Hf4 & Hv4 & Hr4); [|done|by rewrite Hv1]. rewrite Hv1 in *.
  destruct Hr4 as [(e & ->)|(replaced & -> & Hrep & Hguarded)]; [intros [= <- <-]; split; [done|]; left; eauto|].
  rewrite st_bind_run. destruct (replace_content target content replaced d4) as [u d5] eqn:E5.
  assert (follows d d4) as Hf by by etrans.
  destruct Hplace as [Hne Hplace].
  assert (standing (dr_volume d) (removelast target) \/ replaced = false /\
    ∀ p, p <> [] -> removelast p = removelast target -> locate (dr_volume d4) p = Err not_a_directory) as [Hs|[-> Hb]].
  { rewrite Hv4. destruct replaced; [left; by destruct (Hrep eq_refl)|]. destruct Hplace; auto. }
  2:{ apply replace_content_nowhere in E5 as (Ha5 & _ & Hv5 & e & ->); [|done..].
      intros [= <- <-]. split; [done|]. left. split; [eauto|congruence]. }
  apply replace_content_spec in E5; [|done|done|by rewrite Hv4|].
  2:{ intros Hx. rewrite Hv4. destruct (Hrep Hx) as (_ & i & Hi). exists i. by rewrite entry_at_nonempty in Hi. }
  assert (replaces target d u d5 content) as (Ha5 & _ & Htouch & Hu)
    by (eapply replaces_after; [exact Hf|by rewrite Hv4|by rewrite Hv4|done]).
  intros Hend. assert (d5 = d') as -> by (destruct u as [[]| |]; by injection Hend).
  split; [done|]. right. exists record, target, content, d1. split_and!; try done.
  apply active_resource_Ok in Hact as (_ & Hid & _).
  destruct u as [[]| |]; [|by injection Hend as <-|done]. by injection Hend as <-.
Qed.

Lemma active_resource_no_panic id msg : active_resource document id <> Panic msg.
Proof. unfold active_resource. destruct (find_resource document id); simpl; [by case_bool_decide|done]. Qed.

(** A deletion either leaves everything alone, or removes the file it was directed to. *)
Lemma delete_file_spec id rel expected d r d' :
  alone d -> grounded (dr_volume d) document ->
  delete_file sha256_hex document id rel expected d = (r, d') ->
  (((∃ e, r = Err e) /\ dr_volume d' = dr_volume d) \/
   ∃ record target view inode,
     active_resource document id = Ok record /\ (∀ p, beside target p -> within_resource record p) /\
     r = Ok view /\ entry_at (dr_volume d) target = Some (EFile inode) /\
     (∀ digest, expected = Some digest -> sha256_hex (bytes_of (dr_volume d) inode) = digest) /\
     dr_volume d' = {| v_entries := delete target (v_entries (dr_volume d)); v_files := v_files (dr_volume d) |}).
Proof.
  intros Ha Hg. unfold delete_file. rewrite st_bind_run. unfold st_lift at 1.
  destruct (active_resource document id) as [record|e|msg] eqn:Hact;
    [|intros [= <- <-]; left; eauto|by destruct (active_resource_no_panic id msg)].
  rewrite st_bind_run. destruct (resolve_target _ _ _ _ d) as [r1 d1] eqn:E1.
  pose proof (write_target_spec _ _ _ _ _ _ Ha Hg Hact E1) as (Ha1 & _ & Hv1 & Hnp & Ht).
  destruct r1 as [target|e|msg]; [|intros [= <- <-]; left; eauto|by destruct (Hnp msg)].
  destruct (Ht _ eq_refl) as [[Hne Hplace] Hin]. clear Ht Hnp.
  rewrite st_bind_run. destruct (at_path _ _ _ d1) as [r2 d2] eqn:E2.
  apply symlink_metadata_spec in E2 as (Ha2 & _ & Hv2 & Hor); [|done]. rewrite Hv1 in *.
  destruct Hor as [(e & ->)|(m & q & -> & Hq & He)]; [intros [= <- <-]; left; eauto|].
  destruct (is_file m) eqn:Hm; simpl; [|intros [= <- <-]; left; eauto].
  destruct Hplace as [Hs|Hb]; [|by rewrite Hb in Hq].
  rewrite locate_standing in Hq by done. injection Hq as <-. apply metadata_at_spec in He. destruct (is_file_entry _ Hm) as [inode Hi]. rewrite Hi in He.
  rewrite st_bind_run. destruct (check_expected_sha256 _ _ _ d2) as [r3 d3] eqn:E3.
  apply (check_expected_spec sha256_hex target expected inode) in E3 as (Ha3 & _ & Hv3 & Hor);
    [|done|rewrite Hv2; by eapply file_settled|by rewrite Hv2]. rewrite Hv2 in *.
  destruct Hor as [(e & ->)|[-> Hd]]; [intros [= <- <-]; left; eauto|].
  rewrite st_bind_run. destruct (at_path _ _ _ d3) as [r4 d4] eqn:E4. apply at_path_inv in E4 as (r0 & Hr0 & Hc).
  apply (remove_spec target) in Hr0 as (_ & _ & _ & Hor); [|done|by rewrite Hv3|by left]. rewrite Hv3 in Hor.
  destruct Hor as [((e & ->) & Hv)|(-> & Hv)]; (destruct Hc as [(? & ? & [=] & ->)|[([] & [=] & ->)|(? & [=] & _)]]);
    intros [= <- <-]; [left; eauto|right]. eexists record, target, _, inode. by split_and!.
Qed.

(** The bytes a read shows: a bounded beginning of one file of the resource. *)
Definition shows (record : FileResourceRecord) (limit : option N) (v : Volume) (view : FileReadView) : Prop :=
  ∃ p inode shown rest,
    within_resource record p /\ entry_at v p = Some (EFile inode) /\ bytes_of v inode = shown +:+ rest /\
    rv_content_base64 view = base64_standard_encode shown /\ rv_sha256 view = sha256_hex shown /\
    rv_bytes_read view = N.of_nat (String.length shown) /\
    (rv_bytes_read view <= N.min (default MAX_READ_BYTES limit) MAX_READ_BYTES)%N /\
    (rv_truncated view = false <-> rest = "") /\
    rv_total_bytes view = N.of_nat (String.length (bytes_of v inode)).

Lemma read_target_spec record rel d target d' :
  alone d -> grounded (dr_volume d) document -> record ∈ fd_resources document ->
  resolve_target (fr_canonical_path record) (fr_kind record) rel false d = (Ok target, d') ->
  within_resource record target /\ fr_canonical_path record `prefix_of` target /\
  standing (dr_volume d) (removelast target).
Proof.
  intros Ha Hg Hin Hr. apply resolve_target_spec in Hr as (_ & _ & _ & _ & Hor); [|done].
  specialize (Hor _ eq_refl). unfold within_resource. destruct (Hg _ Hin) as [Hs _]. destruct (fr_kind record).
  - subst. split_and!; [by left|done|done].
  - destruct Hor as [->|[Hp [Hset _]]]; by split_and!.
Qed.

Lemma split_text n s :
  ∃ rest, s = String.substring 0 n s +:+ rest /\
          String.length (String.substring 0 n s) = Nat.min n (String.length s).
Proof.
  revert n. induction s as [|c s IH]; intros n.
  - exists "". by destruct n.
  - destruct n as [|n]; [by exists (String c s)|]. destruct (IH n) as (rest & Hs & Hl).
    exists rest. split; [exact (f_equal (String c) Hs)|]. simpl. by rewrite Hl.
Qed.

(** The buffer of [read_file]: at most [limit] bytes, found by asking for one more. *)
Lemma read_buffer (limit : N) bytes :
  let buffer := String.substring 0 (N.to_nat (limit + 1)) bytes in
  let truncated := (limit <? N.of_nat (String.length buffer))%N in
  let shown := if truncated then String.substring 0 (N.to_nat limit) buffer else buffer in
  ∃ rest, bytes = shown +:+ rest /\ (N.of_nat (String.length shown) <= limit)%N /\
          (truncated = false <-> rest = "").
Proof.
  intros buffer truncated shown. destruct (split_text (N.to_nat (limit + 1)) bytes) as (rest & Hs & Hl).
  fold buffer in Hs, Hl. assert (String.length bytes = String.length buffer + String.length rest)%nat as Hb
    by (rewrite Hs at 1; apply string_length_app).
  destruct truncated eqn:Et; subst truncated shown.
  - apply N.ltb_lt in Et. destruct (split_text (N.to_nat limit) buffer) as (more & Hm & Hlm).
    exists (more +:+ rest). rewrite <- string_app_assoc, <- Hm. split_and!; [done|lia|].
    split; [done|]. intros Hz. apply (f_equal String.length) in Hz. rewrite string_length_app in Hz. simpl in Hz.
    apply (f_equal String.length) in Hm. rewrite string_length_app in Hm. lia.
  - apply N.ltb_ge in Et. exists rest. split_and!; [done|lia|]. split; [|done]. intros _.
    destruct rest; [done|]. simpl in Hb. lia.
Qed.

Lemma read_file_spec id rel limit d r d' :
  alone d -> grounded (dr_volume d) document ->
  read_file sha256_hex document id rel limit d = (r, d') ->
  dr_volume d' = dr_volume d /\
  ((∃ e, r = Err e) \/
   ∃ record view, active_resource document id = Ok record /\ r = Ok view /\ shows record limit (dr_volume d) view).
Proof.
  intros Ha Hg. unfold read_file. rewrite st_bind_run. unfold st_lift at 1.
  destruct (active_resource document id) as [record|e|msg] eqn:Hact;
    [|intros [= <- <-]; eauto|by destruct (active_resource_no_panic id msg)].
  destruct (active_resource_Ok _ _ _ Hact) as (Hin & _ & _).
  rewrite st_bind_run. destruct (resolve_target _ _ _ _ d) as [r1 d1] eqn:E1.
  pose proof (resolve_target_spec _ _ _ _ _ _ _ Ha E1) as (Ha1 & _ & Hv1 & Hnp & _).
  destruct r1 as [target|e|msg]; [|intros [= <- <-]; eauto|by destruct (Hnp msg)].
  destruct (read_target_spec _ _ _ _ _ Ha Hg Hin E1) as (Hwithin & _ & Hs). clear Hnp.
  rewrite st_bind_run. destruct (at_path _ _ (open_file target) d1) as [r2 d2] eqn:E2.
  apply open_file_spec in E2 as (Ha2 & _ & Hv2 & [(e & ->)|(file & q & -> & Hq & Hfile)]); [| |done].
  { intros [= <- <-]. split; [congruence|eauto]. }
  rewrite st_bind_run. destruct (at_path _ _ _ d2) as [r3 d3] eqn:E3.
  apply symlink_metadata_spec in E3 as (Ha3 & _ & Hv3 & Hor); [|done]. rewrite Hv1 in *. rewrite Hv2 in *.
  destruct Hor as [(e & ->)|(m & q' & -> & Hq' & Hm)]; [intros [= <- <-]; split; [congruence|eauto]|].
  destruct (is_file m) eqn:Hf; simpl; [|intros [= <- <-]; split; [congruence|eauto]].
  rewrite locate_standing in Hq' by done. injection Hq' as <-.
  pose proof (metadata_at_spec _ _ _ Hm) as He. destruct (is_file_entry _ Hf) as [inode Hi]. rewrite Hi in He.
  rewrite (resolve_settled_at _ _ (file_settled _ _ _ Hs He)) in Hq. injection Hq as <-.
  rewrite He in Hfile. injection Hfile as <-.
  rewrite st_bind_run. unfold ensure_same_file. rewrite st_bind_run.
  destruct (at_path _ _ _ d3) as [r4 d4] eqn:E4.
  apply at_look_spec in E4 as (Ha4 & _ & Hv4 & [(e & ->)|([] & -> & _)]); [| |done|done].
  { intros [= <- <-]. split; [congruence|eauto]. }
  rewrite Hi, bool_decide_eq_true_2 by done. simpl. unfold mret at 1, st_ret at 1. rewrite st_bind_run.
  destruct (at_path _ _ (read_up_to _ _) d4) as [r5 d5] eqn:E5.
  apply at_look_spec in E5 as (Ha5 & _ & Hv5 & [(e & ->)|(buffer & -> & [= <-])]); [| |done|done].
  { intros [= <- <-]. split; [congruence|eauto]. }
  intros [= <- <-]. split; [congruence|]. right. eexists record, _. split_and!; [done..|].
  assert (dr_volume d4 = dr_volume d) as -> by congruence.
  set (bound := match limit with Some value => N.min value MAX_READ_BYTES | None => MAX_READ_BYTES end).
  destruct (read_buffer bound (bytes_of (dr_volume d) inode)) as (rest & Hr & Hl & Ht).
  exists target, inode. eexists _, rest. simpl. split_and!; try done.
  - etrans; [exact Hl|]. unfold bound. destruct limit; simpl; lia.
  - unfold metadata_at in Hm. rewrite He in Hm. cbn in Hm. injection Hm as <-. done.
Qed.
End operations.

(** ** Listing, and the handlers *)

Section broker.
Context `{FileTimes, Uuids, FileLibraries, FileRequestCodec} (sha256_hex : string -> string).
Context (document : FileResourceRegistryDocument).

(** A listed entry is one of the resource, as the drive has it. The code does not look at
    the kind again: a file resource whose path has become a directory lists it. *)
Definition lists (record : FileResourceRecord) (v : Volume) (view : FileEntryView) : Prop :=
  ∃ p m, fr_canonical_path record `prefix_of` p /\ metadata_at v p = Ok m /\
         fe_path view = drop (length (fr_canonical_path record)) p /\ fe_kind view = entry_kind m.

Lemma entry_view_spec record p d r d' :
  alone d -> standing (dr_volume d) (removelast p) -> fr_canonical_path record `prefix_of` p ->
  entry_view (fr_canonical_path record) p d = (r, d') ->
  alone d' /\ dr_volume d' = dr_volume d /\
  ((∃ e, r = Err e) \/ ∃ view, r = Ok view /\ lists record (dr_volume d) view).
Proof.
  intros Ha Hs Hp. unfold entry_view. rewrite st_bind_run. destruct (at_path _ _ _ d) as [r1 d1] eqn:E1.
  apply symlink_metadata_spec in E1 as (Ha1 & _ & Hv1 & Hor); [|done].
  destruct Hor as [(e & ->)|(m & q & -> & Hq & Hm)]; [intros [= <- <-]; split_and!; eauto|].
  rewrite locate_standing in Hq by done. injection Hq as <-. intros [= <- <-]. split_and!; [done..|right].
  eexists. split; [done|]. exists p, m. simpl. by rewrite bool_decide_eq_true_2.
Qed.

Lemma collect_entries_spec record target count names d r d' :
  alone d -> standing (dr_volume d) target -> fr_canonical_path record `prefix_of` target ->
  (count <= MAX_DIRECTORY_ENTRIES)%N ->
  collect_entries (fr_canonical_path record) target count names d = (r, d') ->
  dr_volume d' = dr_volume d /\
  ((∃ e, r = Err e) \/
   ∃ views, r = Ok views /\ Forall (lists record (dr_volume d)) views /\
            (count + N.of_nat (length views) <= MAX_DIRECTORY_ENTRIES)%N).
Proof.
  revert count d r d'. induction names as [|name names IH]; intros count d r d' Ha Hs Hp Hc; simpl.
  { intros [= <- <-]. split; [done|]. right. exists []. split_and!; [done..|simpl; lia]. }
  destruct (MAX_DIRECTORY_ENTRIES <=? count)%N eqn:Eb; [intros [= <- <-]; eauto|]. apply N.leb_gt in Eb.
  rewrite st_bind_run. destruct (st_map_err _ _ d) as [r1 d1] eqn:E1.
  assert (alone d1 /\ dr_volume d1 = dr_volume d /\ ((∃ e, r1 = Err e) \/ r1 = Ok tt)) as (Ha1 & Hv1 & Hr1).
  { unfold st_map_err in E1. destruct (drive_look _ d) as [r0 d0] eqn:E0. injection E1 as <- <-.
    apply drive_look_spec in E0 as (Ha0 & _ & Hv0 & Hor); [|done].
    destruct Hor as [[e ->]|<-]; simpl; split_and!; eauto. }
  destruct Hr1 as [(e & ->)| ->]; [intros [= <- <-]; eauto|].
  rewrite st_bind_run. destruct (entry_view _ _ d1) as [r2 d2] eqn:E2.
  apply entry_view_spec in E2 as (Ha2 & Hv2 & Hor);
    [|done|by rewrite Hv1, removelast_last|by apply prefix_app_r]. rewrite Hv1 in *.
  destruct Hor as [(e & ->)|(view & -> & Hview)]; [intros [= <- <-]; eauto|].
  rewrite st_bind_run. destruct (collect_entries _ _ _ names d2) as [r3 d3] eqn:E3.
  apply IH in E3 as [Hv3 Hor]; [|done|by rewrite Hv2|done|lia]. rewrite Hv2 in *.
  destruct Hor as [(e & ->)|(views & -> & Hviews & Hl)]; intros [= <- <-]; (split; [done|]); [eauto|right].
  exists (view :: views). split_and!; [done|by constructor|simpl; lia].
Qed.

Lemma list_entries_spec id rel d r d' :
  alone d -> grounded (dr_volume d) document ->
  list_entries document id rel d = (r, d') ->
  dr_volume d' = dr_volume d /\
  ((∃ e, r = Err e) \/
   ∃ record view, active_resource document id = Ok record /\ r = Ok view /\
     Forall (lists record (dr_volume d)) (fl_entries view) /\
     (N.of_nat (length (fl_entries view)) <= MAX_DIRECTORY_ENTRIES)%N).
Proof.
  intros Ha Hg. unfold list_entries. rewrite st_bind_run. unfold st_lift at 1.
  destruct (active_resource document id) as [record|e|msg] eqn:Hact;
    [|intros [= <- <-]; eauto|by destruct (active_resource_no_panic document id msg)].
  destruct (active_resource_Ok _ _ _ Hact) as (Hin & _ & _).
  rewrite st_bind_run. destruct (resolve_target _ _ _ _ d) as [r1 d1] eqn:E1.
  pose proof (resolve_target_spec _ _ _ _ _ _ _ Ha E1) as (Ha1 & _ & Hv1 & Hnp & _).
  destruct r1 as [target|e|msg]; [|intros [= <- <-]; eauto|by destruct (Hnp msg)].
  destruct (read_target_spec document _ _ _ _ _ Ha Hg Hin E1) as (_ & Hpre & Hs). clear Hnp.
  rewrite st_bind_run. destruct (at_path _ _ (symlink_metadata target) d1) as [r2 d2] eqn:E2.
  apply symlink_metadata_spec in E2 as (Ha2 & _ & Hv2 & Hor); [|done]. rewrite Hv1 in *.
  destruct Hor as [(e & ->)|(m & q & -> & Hq & Hm)]; [intros [= <- <-]; split; [congruence|eauto]|].
  rewrite locate_standing in Hq by done. injection Hq as <-. apply metadata_at_spec in Hm.
  destruct (is_file m) eqn:Hf.
  - rewrite st_bind_run. destruct (entry_view _ _ d2) as [r3 d3] eqn:E3.
    apply entry_view_spec in E3 as (_ & Hv3 & Hor); [|done|by rewrite Hv2|done]. rewrite Hv2 in *.
    destruct Hor as [(e & ->)|(view & -> & Hview)]; intros [= <- <-]; (split; [congruence|]); [eauto|right].
    eexists record, _. split_and!; [done..|by constructor|done].
  - destruct (is_dir m) eqn:Hd; simpl; [|intros [= <- <-]; split; [congruence|eauto]].
    apply bool_decide_eq_true in Hd. rewrite Hd in Hm.
    assert (standing (dr_volume d) target) as Hst.
    { intros q Hq. destruct target as [|n target _] using rev_ind; [by apply prefix_nil_inv in Hq as ->|].
      rewrite removelast_last in Hs. apply prefix_snoc_inv in Hq as [Hq| ->]; [by apply Hs|done]. }
    rewrite st_bind_run. destruct (at_path _ _ (read_dir target) d2) as [r3 d3] eqn:E3.
    apply at_look_spec in E3 as (Ha3 & _ & Hv3 & [(e & ->)|(names & -> & Hnames)]); [| |done|].
    + intros [= <- <-]. split; [congruence|eauto].
    + rewrite st_bind_run. destruct (collect_entries _ _ _ _ d3) as [r4 d4] eqn:E4.
      apply collect_entries_spec in E4 as [Hv4 Hor]; [|done|by rewrite Hv3, Hv2|done|done].
      rewrite Hv3, Hv2 in *. destruct Hor as [(e & ->)|(views & -> & Hviews & Hl)]; intros [= <- <-];
        (split; [congruence|]); [eauto|right]. eexists record, _. simpl. split_and!; [done..| |].
      * cbn [fl_entries]. by rewrite sort_by_perm.
      * cbn [fl_entries]. by rewrite sort_by_length.
    + intros msg. rewrite Hv2, (resolve_standing _ _ Hst). simpl. by case_match.
Qed.

(** The caller was authorised for the resource, which is registered and not being removed. *)
Definition opened_to (context : InvocationContext) (record : FileResourceRecord) : Prop :=
  active_resource document (fr_resource_id record) = Ok record /\
  ∃ ids, ic_authorized_data_scope context = Resources ids /\ fr_resource_id record ∈ ids.

(** Entries change only inside the resource, and no file that was there is written to. *)
Record confined (record : FileResourceRecord) (v v' : Volume) : Prop := {
  cf_entries : ∀ p, ¬ within_resource record p -> v_entries v' !! p = v_entries v !! p;
  cf_files : ∀ inode bytes, v_files v !! inode = Some bytes -> v_files v' !! inode = Some bytes;
}.

Lemma touches_confined record target v v' :
  (∀ p, beside target p -> within_resource record p) -> touches target v v' -> confined record v v'.
Proof.
  intros Hw [He Hf]. split; [|done]. intros p Hp. apply He.
  - intros ->. apply Hp, Hw. by left.
  - intros Hh. apply Hp, Hw. by right.
Qed.

Lemma answer_request_spec {R V} (decode : Value -> string + R) (names : R -> ResourceId) act (encode : V -> string + Value)
    input context d r d' :
  answer_request decode names act encode input context d = (r, d') ->
  ((∃ e, r = Err e) /\ d' = d) \/
  ∃ request rv ids, ic_authorized_data_scope context = Resources ids /\ names request ∈ ids /\
    act request d = (rv, d') /\
    ∀ outcome, r = Ok outcome -> ∃ view, rv = Ok view /\ encode view = inr (co_result outcome).
Proof.
  unfold answer_request, to_handler_failure. rewrite st_bind_run. unfold st_lift at 1.
  destruct (decode (VObject input)) as [e|request]; simpl; [intros [= <- <-]; left; eauto|].
  rewrite st_bind_run. unfold st_lift at 1, ensure_authorized_resource.
  destruct (ic_authorized_data_scope context) as [| |ids] eqn:Hs; [intros [= <- <-]; left; eauto..|].
  case_bool_decide as Hin; [|intros [= <- <-]; left; eauto]. intros Hrun. right.
  revert Hrun. rewrite st_bind_run. unfold st_map_err. destruct (act request d) as [rv d1] eqn:Ea.
  destruct rv as [view|e|msg]; simpl; [|intros [= <- <-]; exists request; eexists _, ids; by split_and!..].
  rewrite st_bind_run. unfold st_lift. destruct (encode view) as [e|v] eqn:Ev; simpl; intros [= <- <-];
    exists request; eexists _, ids; split_and!; try done. intros ? [= <-]. eauto.
Qed.

Lemma active_opened_to context id record ids :
  active_resource document id = Ok record -> ic_authorized_data_scope context = Resources ids -> id ∈ ids ->
  opened_to context record.
Proof.
  intros Hact Hs Hin. destruct (active_resource_Ok _ _ _ Hact) as (_ & Hid & _). unfold opened_to. rewrite Hid. eauto.
Qed.

(** What the outcome of an operation may tell about the drive [v]. *)
Definition tells (operation : FileOperation) (record : FileResourceRecord) (v : Volume) (outcome : CapabilityOutcome) : Prop :=
  match operation with
  | OpList => ∃ view, list_view_to_value view = inr (co_result outcome) /\
                Forall (lists record v) (fl_entries view) /\
                (N.of_nat (length (fl_entries view)) <= MAX_DIRECTORY_ENTRIES)%N
  | OpRead => ∃ view limit, read_view_to_value view = inr (co_result outcome) /\
                shows sha256_hex record limit v view
  | OpWrite | OpDelete => True
  end.

(** C23: As long as no other process changes the drive during the call ([alone]) and the
    registered resources still lie below real directories ([grounded]), a call to the File
    Broker, whichever calls of the drive fail, changes entries only inside one resource
    the caller was authorised for, never writes into a file that was there before, and
    answers a list with entries of that resource and a read with at most 1 MiB of one of
    its files, whatever links, relative paths or names the request uses. Against another
    process that swaps files during the call the containment check does not protect:
    a file renamed over the resolved one before it is opened is read. *)
Theorem broker_stays_in_resources operation input context d r d' :
  alone d -> grounded (dr_volume d) document ->
  boxed_handler sha256_hex document operation input context d = (r, d') ->
  (dr_volume d' = dr_volume d \/
   ∃ record, opened_to context record /\ confined record (dr_volume d) (dr_volume d')) /\
  ∀ outcome, r = Ok outcome ->
    ∃ record, opened_to context record /\ tells operation record (dr_volume d) outcome.
Proof.
  intros Ha Hg.
  destruct operation; simpl; intros [[[e ->] ->]|(request & rv & ids & Hs & Hin & Hact & Hout)]%answer_request_spec;
    try (split; [by left|done]).
  - apply list_entries_spec in Hact as [Hv [[e ->]|(record & view & Hr & -> & Hl & Hn)]]; [| |done..].
    { split; [by left|]. intros outcome Ho. by destruct (Hout _ Ho) as (? & [=] & _). }
    split; [by left|]. intros outcome Ho. destruct (Hout _ Ho) as (view' & [= <-] & Henc).
    exists record. split; [by eapply active_opened_to|]. by exists view.
  - apply read_file_spec in Hact as [Hv [[e ->]|(record & view & Hr & -> & Hsh)]]; [| |done..].
    { split; [by left|]. intros outcome Ho. by destruct (Hout _ Ho) as (? & [=] & _). }
    split; [by left|]. intros outcome Ho. destruct (Hout _ Ho) as (view' & [= <-] & Henc).
    exists record. split; [by eapply active_opened_to|]. by eexists view, _.
  - apply write_file_spec in Hact as [_ [[[e ->] Hv]|(record & target & content & d1 & Hr & _ & Hw & _ & _ & _ & Ht & _)]];
      [| |done..].
    { split; [by left|]. intros outcome Ho. by destruct (Hout _ Ho) as (? & [=] & _). }
    assert (opened_to context record) as Hopen by by eapply active_opened_to.
    split; [right; exists record; split; [done|by eapply touches_confined]|]. intros outcome Ho. by exists record.
  - apply delete_file_spec in Hact as [[[e ->] Hv]|(record & target & view & inode & Hr & Hw & -> & _ & _ & Hv)];
      [| |done..].
    { split; [by left|]. intros outcome Ho. by destruct (Hout _ Ho) as (? & [=] & _). }
    assert (opened_to context record) as Hopen by by eapply active_opened_to.
    split; [|intros outcome Ho; by exists record]. right. exists record. split; [done|].
    apply (touches_confined record target); [done|]. apply (touches_one target target); [by left| |by rewrite Hv].
    intros q Hq. rewrite Hv. simpl. by rewrite lookup_delete_ne.
Qed.

(** C24: As long as no other process changes the drive during the call ([alone]) and the
    registered resources still lie below real directories ([grounded]), a write that
    reports success has put exactly the decoded content at its target, over the version
    the caller expected if it named one; a write that reports an error has left the file
    as it was. Failures of the drive may strike anywhere, but not twice in a row. *)
Theorem write_is_all_or_nothing id rel content64 expected d r d' record target d1 :
  alone d -> isolated (dr_calls d) -> grounded (dr_volume d) document ->
  active_resource document id = Ok record ->
  resolve_target (fr_canonical_path record) (fr_kind record) rel true d = (Ok target, d1) ->
  write_file sha256_hex document id rel content64 expected d = (r, d') ->
  match r with
  | Ok view =>
      ∃ inode content, base64_standard_decode content64 = inr content /\
        (N.of_nat (String.length content) <= MAX_WRITE_BYTES)%N /\
        entry_at (dr_volume d') target = Some (EFile inode) /\ bytes_of (dr_volume d') inode = content /\
        ∀ digest, expected = Some digest ->
          ∃ old, entry_at (dr_volume d) target = Some (EFile old) /\ sha256_hex (bytes_of (dr_volume d) old) = digest
  | Err _ =>
      entry_at (dr_volume d') target = entry_at (dr_volume d) target /\
      ∀ inode, is_Some (v_files (dr_volume d) !! inode) -> bytes_of (dr_volume d') inode = bytes_of (dr_volume d) inode
  | Panic _ => False
  end.
Proof.
  intros Ha Hi Hg Hact Hres Hrun. apply write_file_spec in Hrun as [_ Hor]; [|done..].
  destruct Hor as [[[e ->] Hv]|(record' & target' & content & d1' & Hact' & Hres' & _ & Hdec & Hguard & Hne & Ht & Hr)].
  { by rewrite Hv. }
  rewrite Hact in Hact'. injection Hact' as <-. rewrite Hres in Hres'. injection Hres' as <- <-.
  destruct r as [view|e|msg]; [| |done].
  - destruct Hr as ((inode & He & Hb) & _). exists inode, content. revert Hdec. unfold decode_content, reject.
    destruct (_ <? _)%N; [done|]. simpl. destruct (base64_standard_decode content64) as [|bytes]; [done|]. simpl.
    destruct (MAX_WRITE_BYTES <? N.of_nat (String.length bytes))%N eqn:Hl; [done|]. intros [= ->]. apply N.ltb_ge in Hl.
    split_and!; [done|done|by rewrite entry_at_nonempty|unfold bytes_of; by rewrite Hb|done].
  - rewrite !entry_at_nonempty by done. split; [auto|]. intros inode [bytes Hb]. unfold bytes_of.
    by rewrite Hb, (to_files _ _ _ Ht _ _ Hb).
Qed.
End broker.

(** ** Removed resources and the kernel's grants *)

(** Only revocations are added. *)
Definition revokes (b b' : PermissionBroker) : Prop :=
  b_grants b' = b_grants b /\ b_revoked b ⊆ b_revoked b'.

#[export] Instance revokes_preorder : PreOrder revokes.
Proof. split; [by intros b|intros b1 b2 b3 [? ?] [? ?]; split; [congruence|set_solver]]. Qed.

(** Every grant that names [resource_id] is revoked. *)
Definition unnamed (b : PermissionBroker) (resource_id : ResourceId) : Prop :=
  ∀ grant ids, grant ∈ btree_values (b_grants b) -> g_data_scope grant = Resources ids -> resource_id ∈ ids ->
    is_revoked b grant = true.

Lemma unnamed_revokes b b' id : revokes b b' -> unnamed b id -> unnamed b' id.
Proof.
  intros [Hg Hr] Hu grant ids Hin Hs Hid. rewrite Hg in Hin. specialize (Hu _ _ Hin Hs Hid). unfold is_revoked in *.
  rewrite bool_decide_eq_true in *. set_solver.
Qed.

Lemma broker_revoke_spec b id b' : broker_revoke b id = Ok b' -> revokes b b' /\ id ∈ b_revoked b'.
Proof.
  unfold broker_revoke. destruct (b_grants b !! id); [|done]. intros [= <-]. unfold revokes. simpl.
  split; [split; [done|]|]; set_solver.
Qed.

Lemma revoke_each_spec b ids b' :
  revoke_each b ids = Ok b' -> revokes b b' /\ ∀ id, id ∈ ids -> id ∈ b_revoked b'.
Proof.
  revert b. induction ids as [|id ids IH]; intros b; simpl.
  - intros [= <-]. split; [done|]. by intros id Hid%elem_of_nil.
  - intros (b1 & [H1 Hid]%broker_revoke_spec & [H2 Hids]%IH)%bind_Ok_inv. split; [by etrans|].
    intros id' [->|Hin]%elem_of_cons; [by apply H2|auto].
Qed.

Lemma filter_minus (id : string) ids l :
  List.filter (fun p => negb (bool_decide (p ∈ ids))) (List.filter (fun p => negb (bool_decide (p = id))) l) =
  List.filter (fun p => negb (bool_decide (p ∈ id :: ids))) l.
Proof.
  induction l as [|p l IH]; simpl; [done|]. destruct (decide (p = id)) as [->|Hne].
  - rewrite !bool_decide_eq_true_2 by (done || by left). exact IH.
  - rewrite (bool_decide_eq_false_2 (p = id)) by done. simpl.
    rewrite (bool_decide_ext (p ∈ id :: ids) (p ∈ ids)) by (rewrite elem_of_cons; tauto). by rewrite IH.
Qed.

Lemma filter_none (l : list string) : List.filter (fun p => negb (bool_decide (p ∈ l))) l = [].
Proof.
  assert (∀ l', (∀ p, p ∈ l' -> p ∈ l) -> List.filter (fun p => negb (bool_decide (p ∈ l))) l' = []) as Hf; [|by apply Hf].
  intros l' Hl. induction l' as [|p l' IH]; simpl; [done|]. rewrite bool_decide_eq_true_2 by (apply Hl; by left).
  apply IH. intros q Hq. apply Hl. by right.
Qed.

Section reconciling.
Context {W S : Type} `{Libraries, Environment W, TrustedChrome W, KernelStateStore S, Uuids, FileRegistryCodec}.
Implicit Types (k : Kernel W S) (h : FileHost (W:=W) (S:=S)).

Lemma commit_revoked r l b a p k k' :
  (_ ← commit_parts r l b a; _ ← st_modify (set_broker b); st_modify (raise_matching p)) k = (Ok tt, k') ->
  k_registry k' = k_registry k /\ k_broker k' = b /\ k_world k' = k_world k.
Proof.
  intros Hrun. inv_ok Hrun. pose proof (commit_parts_snd r l b a k) as Hc. rewrite Hok in Hc.
  destruct Hc as (_ & so & ->). by subst.
Qed.

Lemma revoke_grant_spec id k k' :
  revoke_grant id k = (Ok tt, k') ->
  k_registry k' = k_registry k /\ revokes (k_broker k) (k_broker k') /\ id ∈ b_revoked (k_broker k') /\
  k_world k' = k_world k.
Proof.
  unfold revoke_grant. intros (b & k1 & [Hb <-]%st_lift_inv & (Hr & Hk & Hw)%commit_revoked)%st_bind_Ok_inv.
  apply broker_revoke_spec in Hb as [Hb Hin]. by rewrite Hk.
Qed.

Lemma revoke_grants_for_resource_spec id k k' :
  revoke_grants_for_resource id k = (Ok tt, k') ->
  k_registry k' = k_registry k /\ revokes (k_broker k) (k_broker k') /\ unnamed (k_broker k') id /\
  k_world k' = k_world k.
Proof.
  unfold revoke_grants_for_resource.
  assert (∀ grant ids, grant ∈ btree_values (b_grants (k_broker k)) -> g_data_scope grant = Resources ids -> id ∈ ids ->
    g_grant_id grant ∈ grant_ids_over_resource (k_broker k) id) as Hids.
  { intros grant ids Hin Hs Hid. unfold grant_ids_over_resource. apply list_elem_of_fmap. exists grant. split; [done|].
    apply list_elem_of_In, List.filter_In. split; [by apply list_elem_of_In|]. rewrite Hs. by apply bool_decide_eq_true. }
  destruct (grant_ids_over_resource (k_broker k) id) as [|g gs] eqn:Eg.
  - intros [= <-]. split_and!; [done..| |done].
    intros grant ids Hin Hs Hid. by destruct (not_elem_of_nil _ (Hids _ _ Hin Hs Hid)).
  - intros (b & k1 & [Hb <-]%st_lift_inv & (Hr & Hk & Hw)%commit_revoked)%st_bind_Ok_inv.
    apply revoke_each_spec in Hb as [Hb Hin]. rewrite Hk. split_and!; [done..| |done].
    intros grant ids Hgr Hs Hid. destruct Hb as [Hg _]. rewrite Hg in Hgr. apply bool_decide_eq_true, Hin. eauto.
Qed.

(** The registry of apps is untouched, grants are only revoked and no clock is read. *)
Definition settles h h' : Prop :=
  (k_registry (fh_kernel h') = k_registry (fh_kernel h) /\ k_world (fh_kernel h') = k_world (fh_kernel h)) /\
  revokes (k_broker (fh_kernel h)) (k_broker (fh_kernel h')).

#[local] Instance settles_preorder : PreOrder settles.
Proof.
  split; [by intros h|intros h1 h2 h3 [[? ?] ?] [[? ?] ?]; split; [split; congruence|by etrans]].
Qed.

Lemma in_kernel_Ok {A} (m : st (Kernel W S) KernelError A) h a h' :
  in_kernel m h = (Ok a, h') -> m (fh_kernel h) = (Ok a, fh_kernel h') /\ fh_registry h' = fh_registry h.
Proof. unfold in_kernel. destruct (m (fh_kernel h)) as [[a0|e|msg] k]; intros [=]; by subst. Qed.

Lemma in_registry_Ok {A} (m : st FileResourceRegistryService string A) h a h' :
  in_registry m h = (Ok a, h') -> m (fh_registry h) = (Ok a, fh_registry h') /\ fh_kernel h' = fh_kernel h.
Proof. unfold in_registry. destruct (m (fh_registry h)) as [r s]; intros [=]; by subst. Qed.

Lemma registry_commit_Ok document s s' :
  registry_commit document s = (Ok tt, s') -> fs_document s' = document.
Proof.
  unfold registry_commit, registry_persist. simpl. destruct (persist_json_document _ _ _ _ _ _) as [[[]|e|msg] fs].
  - by intros [= <-].
  - by destruct (is_indeterminate e).
  - done.
Qed.

Definition registered h : list FileResourceRecord := fd_resources (fs_document (fh_registry h)).
Definition pending h : list ResourceId := fd_pending_removals (fs_document (fh_registry h)).

Lemma finish_removal_spec id h h' :
  finish_removal id h = (Ok tt, h') ->
  settles h h' /\ unnamed (k_broker (fh_kernel h')) id /\
  registered h' = List.filter (fun record => negb (has_id id record)) (registered h) /\
  pending h' = List.filter (fun p => negb (bool_decide (p = id))) (pending h).
Proof.
  unfold finish_removal. intros Hrun. inv_ok Hrun. apply in_kernel_Ok in Hok as [Hk Hs].
  apply in_registry_Ok in Hrun as [Hf Hk']. apply revoke_grants_for_resource_spec in Hk as (Hr & Hb & Hu & Hw).
  unfold finalize_removal in Hf. inv_ok Hf. apply registry_commit_Ok in Hf. unfold settles, registered, pending.
  rewrite Hk', Hf, <- Hs. by split_and!.
Qed.

Lemma finish_removals_spec ids h h' :
  st_each finish_removal ids h = (Ok tt, h') ->
  settles h h' /\ pending h' = List.filter (fun p => negb (bool_decide (p ∈ ids))) (pending h).
Proof.
  revert h. induction ids as [|id ids IH]; intros h; simpl.
  - intros [= <-]. split; [done|]. symmetry. by apply forallb_filter_id, forallb_forall.
  - intros Hrun. inv_ok Hrun. apply finish_removal_spec in Hok as (Hs1 & _ & _ & Hp). apply IH in Hrun as [Hs2 Hp'].
    split; [by etrans|]. by rewrite Hp', Hp, filter_minus.
Qed.

(** The [i]-th reading of the wall clock from [w] on. *)
Fixpoint nth_reading (i : nat) (w : W) : DateTime :=
  match i with
  | 0 => (env_now w).1
  | Datatypes.S i => nth_reading i (env_now w).2
  end.

Lemma grant_statuses_spec holder h l h' :
  in_kernel (kernel_grant_statuses_for holder) h = (Ok l, h') ->
  k_registry (fh_kernel h') = k_registry (fh_kernel h) /\ k_broker (fh_kernel h') = k_broker (fh_kernel h) /\
  fh_registry h' = fh_registry h /\ k_world (fh_kernel h') = (env_now (k_world (fh_kernel h))).2 /\
  ∀ grant, grant ∈ btree_values (b_grants (k_broker (fh_kernel h))) -> g_holder grant = holder ->
    is_revoked (k_broker (fh_kernel h)) grant = false ->
    Grant_is_expired grant (env_now (k_world (fh_kernel h))).1 = false ->
    {| gsv_grant := grant; gsv_status := StatusActive |} ∈ l.
Proof.
  intros [Hk Hs]%in_kernel_Ok. unfold kernel_grant_statuses_for, on_world in Hk.
  unfold grant_statuses_for, clock_now, mbind, st_bind in Hk.
  destruct (env_now (k_world (fh_kernel h))) as [now w1] eqn:Ew. unfold mret, st_ret in Hk. injection Hk as <- <-.
  split_and!; [done..|]. intros grant Hin Hh Hr He.
  apply list_elem_of_fmap. exists grant. rewrite Hr. simpl in He. rewrite He. split; [done|].
  apply list_elem_of_In, List.filter_In. split; [by apply list_elem_of_In|by apply bool_decide_eq_true].
Qed.

Lemma all_statuses_spec holders h ls h' :
  st_map (fun holder => in_kernel (kernel_grant_statuses_for holder)) holders h = (Ok ls, h') ->
  k_registry (fh_kernel h') = k_registry (fh_kernel h) /\ k_broker (fh_kernel h') = k_broker (fh_kernel h) /\
  fh_registry h' = fh_registry h /\
  ∀ i grant, holders !! i = Some (g_holder grant) -> grant ∈ btree_values (b_grants (k_broker (fh_kernel h))) ->
    is_revoked (k_broker (fh_kernel h)) grant = false ->
    Grant_is_expired grant (nth_reading i (k_world (fh_kernel h))) = false ->
    {| gsv_grant := grant; gsv_status := StatusActive |} ∈ concat ls.
Proof.
  revert h ls. induction holders as [|holder holders IH]; intros h ls; simpl.
  - intros [= <- <-]. split_and!; [done..|]. by intros i grant.
  - intros Hrun. inv_ok Hrun. apply grant_statuses_spec in Hok as (Hr & Hb & Hs & Hk & Hw).
    apply IH in Hok0 as (Hr' & Hb' & Hs' & Hall). rewrite Hb in *. rewrite Hk in Hall.
    split_and!; [congruence|done|congruence|].
    intros [|i] grant Hh Hin Hrev Hexp; simpl in *; apply elem_of_app; [left|right; by eapply Hall].
    apply Hw; [done|congruence|done|done].
Qed.

Lemma revoke_all_spec ids h h' :
  st_each (fun grant_id => in_kernel (revoke_grant grant_id)) ids h = (Ok tt, h') ->
  settles h h' /\ fh_registry h' = fh_registry h /\
  ∀ id, id ∈ ids -> id ∈ b_revoked (k_broker (fh_kernel h')).
Proof.
  revert h. induction ids as [|id ids IH]; intros h; simpl.
  - intros [= <-]. split_and!; [done..|]. by intros id Hid%elem_of_nil.
  - intros Hrun. inv_ok Hrun. apply in_kernel_Ok in Hok as [(Hr & Hb & Hid & Hw)%revoke_grant_spec Hs].
    apply IH in Hrun as (Hs2 & Hs' & Hall). split_and!; [by etrans; [by split|]|congruence|].
    intros id' [->|Hin]%elem_of_cons; [|auto]. by apply Hs2.
Qed.

(** The scope of a grant names registered resources only. *)
Definition scope_registered h (scope : DataScope) : Prop :=
  match scope with
  | Resources ids => ∀ id, id ∈ ids -> id ∈ fr_resource_id <$> registered h
  | AllResources => True
  | NoData => False
  end.

(** C25: Once the host has started, no removal is left half done, and every grant of an
    installed app over the File Broker that is neither revoked nor, at the one reading of
    the clock taken when the grants of that app were listed, past its expiry names
    registered resources only: a removed resource cannot be reached through an old grant,
    wherever the removal was interrupted. The apps are listed in the order of the registry
    and the clock is read once for each, so the reading for the [i]-th app is the [i]-th
    from the start. *)
Theorem reconcile_leaves_no_orphans h h' :
  reconcile_with_kernel h = (Ok tt, h') ->
  pending h' = [] /\ k_registry (fh_kernel h') = k_registry (fh_kernel h) /\
  revokes (k_broker (fh_kernel h)) (k_broker (fh_kernel h')) /\
  ∀ i app grant, Registry_installed_apps (k_registry (fh_kernel h')) !! i = Some app ->
    g_holder grant = m_app_id (ia_manifest app) ->
    grant ∈ btree_values (b_grants (k_broker (fh_kernel h'))) ->
    GrantScope_provider (g_scope grant) = file_broker_app_id ->
    is_revoked (k_broker (fh_kernel h')) grant = false ->
    Grant_is_expired grant (nth_reading i (k_world (fh_kernel h))) = false ->
    scope_registered h' (g_data_scope grant).
Proof.
  unfold reconcile_with_kernel. intros Hrun. inv_ok Hrun.
  rename s0 into middle. apply finish_removals_spec in Hok as [[[Hr1 Hw1] Hb1] Hp]. apply all_statuses_spec in Hok0 as (Hr2 & Hb2 & Hs2 & Hall).
  apply revoke_all_spec in Hrun as ([[Hr3 _] Hb3] & Hs3 & Hrev). rewrite Hb2 in Hb3. split_and!.
  - unfold pending in *. rewrite Hs3, Hs2, Hp. apply filter_none.
  - congruence.
  - by etrans.
  - intros i app grant Happ Hh Hin Hpr Hnr Hexp. destruct Hb3 as [Hg Hsub]. rewrite Hg in Hin. rewrite Hr3, Hr2 in Happ.
    rewrite <- Hw1 in Hexp.
    destruct (is_orphaned (fr_resource_id <$> registered middle) {| gsv_grant := grant; gsv_status := StatusActive |}) eqn:Ho.
    + exfalso. assert (g_grant_id grant ∈ b_revoked (k_broker (fh_kernel h'))) as Hbad.
      { apply Hrev. apply list_elem_of_fmap. eexists {| gsv_grant := grant; gsv_status := StatusActive |}. split; [done|].
        apply list_elem_of_In, List.filter_In. split; [|exact Ho]. apply list_elem_of_In, (Hall i); try done; [by rewrite list_lookup_fmap, Happ, Hh|].
        unfold is_revoked in *. rewrite bool_decide_eq_false in *. set_solver. }
      unfold is_revoked in Hnr. by rewrite bool_decide_eq_true_2 in Hnr.
    + unfold is_orphaned in Ho. simpl in Ho. rewrite bool_decide_eq_true_2 in Ho by done.
      assert (registered h' = registered middle) as Hreg by (unfold registered; congruence).
      unfold scope_registered. rewrite Hreg. destruct (g_data_scope grant) as [| |ids]; [done..|].
      intros id Hid. simpl in Ho. destruct (decide (id ∈ fr_resource_id <$> registered middle)) as [|Hn]; [done|].
      exfalso. eapply Bool.diff_true_false. rewrite <- Ho. symmetry. apply existsb_exists. exists id.
      split; [by apply list_elem_of_In|]. by rewrite bool_decide_eq_false_2.
Qed.
End reconciling.

Section removal.
Context {W S : Type} `{Libraries, Environment W, TrustedChrome W, KernelStateStore S, Uuids, FileRegistryCodec}.

Lemma begin_removal_closes id s record s' :
  begin_removal id s = (Ok record, s') -> id ∈ fd_pending_removals (fs_document s').
Proof.
  unfold begin_removal. intros Hrun. inv_ok Hrun. destruct (bool_decide (id ∈ _)) eqn:Eb.
  - inv_prim Hrun. by apply bool_decide_eq_true in Eb.
  - inv_ok Hrun. apply registry_commit_Ok in Hok0. subst. rewrite Hok0. simpl. set_solver.
Qed.

(** Once the owner's command to remove a resource has succeeded, nothing is registered
    under its name, no request reaches it, and every grant that named it is revoked. *)
Theorem removal_revokes_access id (h h' : FileHost (W:=W) (S:=S)) :
  remove_file_resource id h = (Ok tt, h') ->
  (∀ record, record ∈ registered h' -> fr_resource_id record <> id) /\
  (∃ e, active_resource (fs_document (fh_registry h')) id = Err e) /\
  unnamed (k_broker (fh_kernel h')) id.
Proof.
  unfold remove_file_resource. intros Hrun. inv_ok Hrun.
  apply finish_removal_spec in Hrun as (_ & Hu & Hreg & _).
  assert (∀ record, record ∈ registered h' -> fr_resource_id record <> id) as Hgone.
  { intros record Hin. rewrite Hreg in Hin.
    apply list_elem_of_In, List.filter_In in Hin as [_ Hid%negb_true_iff]. by apply bool_decide_eq_false in Hid. }
  split_and!; [done| |done]. unfold active_resource, find_resource. fold (registered h').
  destruct (List.find (has_id id) (registered h')) as [record|] eqn:Ef; [|eexists; reflexivity].
  apply find_Some_elem in Ef as [Hin Hid%bool_decide_eq_true]. by destruct (Hgone _ Hin).
Qed.
End removal.

(** ** The registry opens again *)

Section saved.
Context `{Uuids, FileRegistryCodec}.

(** The file holds what is in memory. *)
Definition registry_saved (s : FileResourceRegistryService) : Prop :=
  fd_version (fs_document s) = FILE_STORE_VERSION /\
  ∃ bytes, file_registry_to_vec_pretty (fs_document s) = inr bytes /\
           contents (fs_files s) (p_file_name (fs_path s)) = Some bytes.

Lemma registry_commit_saved document :
  fd_version document = FILE_STORE_VERSION -> preserves registry_saved (registry_commit document).
Proof.
  intros Hv s [Hvs (bytes & Hser & Hc)]. unfold registry_commit, registry_persist. simpl.
  destruct (persist_json_document _ _ _ _ _ _) as [r fs'] eqn:E.
  apply persist_json_document_contents in E as [(bytes' & Hser' & Hc' & [->|(e & -> & He)])|(e & -> & He & Hc')].
  - simpl. split; [done|]. by exists bytes'.
  - simpl. rewrite He. split; [done|]. by exists bytes'.
  - simpl. rewrite He. split; [done|]. exists bytes. split; [done|]. simpl. by rewrite Hc'.
Qed.

(** Whatever the owner does and whatever fails, the file stays what memory holds. *)
Lemma begin_removal_saved id : preserves registry_saved (begin_removal id).
Proof.
  intros s Hs. unfold begin_removal. apply snd_bind; [done|]. intros document s1 [= <- <-].
  apply snd_bind; [done|]. intros record s2 [_ <-]%st_lift_inv. case_bool_decide; [done|].
  apply preserves_bind; [apply registry_commit_saved, Hs|intros []; apply preserves_ret|done].
Qed.

Lemma finalize_removal_saved id : preserves registry_saved (finalize_removal id).
Proof.
  intros s Hs. unfold finalize_removal. apply snd_bind; [done|]. intros document s1 [= <- <-].
  apply registry_commit_saved; [apply Hs|done].
Qed.

Lemma register_resource_saved `{FileTimes, FileLibraries} cwd path :
  preserves (fun b => registry_saved (fb_service b)) (register_resource cwd path).
Proof.
  assert (∀ A (m : st Drive string A), preserves (fun b => registry_saved (fb_service b)) (on_drive m)) as Hdrive.
  { intros A m b Hb. unfold on_drive. by destruct (m (fb_drive b)). }
  assert (∀ document, fd_version document = FILE_STORE_VERSION ->
    preserves (fun b => registry_saved (fb_service b)) (on_registry (registry_commit document))) as Hcommit.
  { intros document Hv b Hb. unfold on_registry. pose proof (registry_commit_saved document Hv _ Hb) as Hs.
    by destruct (registry_commit document (fb_service b)). }
  unfold register_resource. apply preserves_bind; [apply Hdrive|]. intros found.
  destruct (is_symlink found); [apply preserves_fail|].
  apply preserves_bind; [apply Hdrive|]. intros canonical. apply preserves_bind; [apply Hdrive|]. intros kind b Hb.
  apply snd_bind; [done|]. intros document b1 [= <- <-]. destruct (existsb _ _); [done|].
  enough (∀ document, fd_version document = FILE_STORE_VERSION ->
    preserves (fun b => registry_saved (fb_service b)) (add_resource document canonical kind)) as Hadd
    by (apply Hadd; [apply Hb|done]).
  unfold add_resource.
  intros document Hv. repeat (apply preserves_bind; [apply Hdrive|]; intros ?).
  apply preserves_bind; [by apply Hcommit|]. intros _. apply preserves_bind; [apply preserves_get|]. intros ?. apply preserves_ret.
Qed.

(** A restart finds the registry as it was. *)
Theorem file_registry_reopens `{!FileRegistryCodecLaws} s :
  registry_saved s ->
  ∃ s', (file_registry_new (fs_path s) (quiet (fs_files s))).1 = Ok s' /\ fs_document s' = fs_document s /\
        registry_saved s'.
Proof.
  intros [Hv (bytes & Hser & Hc)]. unfold file_registry_new. rewrite st_bind_run. unfold st_map_err at 1, create_dir_all.
  rewrite io_all_quiet by done. unfold st_modify. simpl map_err. cbv iota beta. rewrite st_bind_run.
  unfold st_result, open_read. rewrite io_all_quiet by done. unfold contents in Hc.
  destruct (fs_dir (fs_files s) !! p_file_name (fs_path s)) as [file|] eqn:Ef; [|done]. simpl in Hc. injection Hc as Hb.
  simpl. rewrite Ef. simpl. unfold open_registry. rewrite st_bind_run. unfold st_map_err at 1, open_read.
  rewrite io_all_quiet by done. simpl. rewrite Ef. simpl.
  destruct (file_registry_roundtrip _ _ Hser) as [Hutf Hback]. rewrite st_bind_run. unfold st_lift at 1, reject.
  rewrite Hb, Hutf. simpl. rewrite st_bind_run. unfold st_lift at 1. rewrite Hback. simpl.
  rewrite st_bind_run. unfold st_lift at 1. rewrite Hv. simpl. eexists. split_and!; [reflexivity|done|].
  split; [done|]. exists bytes. simpl. split; [done|]. unfold contents. simpl. by rewrite Ef; simpl; rewrite Hb.
Qed.
End saved.
