(* ===== verification/ChatModelProfiles.v ===== *)
(** * Model profiles for Chat

    [host/src-tauri/src/chat_model_profiles.rs]: what an app may offer as a model profile,
    the receipt that pins one to a conversation, and which profiles are usable now. Serde is
    a parameter; an [f64] is a value of the Standard Library's specification of IEEE 754. *)

From Stdlib Require Import SpecFloat.
From S2P Require Import Prelude RustStd RustText Json Types Errors Manifest Platform Registry AtomicJson Packages PackageChecks.

Definition MODEL_PROFILE_EXTENSION_POINT : string := "model-profile-editor".
Definition MODEL_PROFILE_CONTRACT_VERSION : N := 1.
Definition MODEL_PROFILE_CONFIG : string := "model-profiles".
Definition MAX_PROFILES : nat := 64.
Definition MAX_TOOLS : nat := 64.
Definition MAX_PROMPT_LAYER_IDS : nat := 64.
Definition MAX_PROMPT_CUSTOM_TEXTS : nat := 8.
Definition MAX_PROMPT_CUSTOM_TEXT_CHARS : N := 16 * 1024.
Definition MAX_PROMPT_TOTAL_CUSTOM_TEXT_CHARS : N := 32 * 1024.
Definition MAX_OUTPUT_TOKENS : N := 1000000.

Abbreviation f64 := spec_float.

Record ChatModelProfilePrompt := { pp_layer_ids : list string; pp_custom_texts : list string }.

Record ChatModelProfile := {
  mp_id : string;
  mp_title : string;
  mp_description : string;
  mp_connector_id : string;
  mp_model : string;
  mp_reasoning : option string;
  mp_temperature : option f64;
  mp_max_output_tokens : option N;
  mp_tools : list string;
  mp_prompt : option ChatModelProfilePrompt;
}.

Record ChatModelProfileReceipt := {
  mr_source_app_id : string;
  mr_source_app_version : string;
  mr_profile_id : string;
  mr_profile_digest : string;
  mr_title : string;
  mr_connector_id : string;
  mr_model : string;
  mr_reasoning : option string;
  mr_temperature : option f64;
  mr_max_output_tokens : option N;
  mr_tool_refs : list string;
  mr_prompt : option ChatModelProfilePrompt;
}.

Record ChatModelProfileView := {
  mv_receipt : ChatModelProfileReceipt;
  mv_source_app_name : string;
  mv_description : string;
  mv_effective_tool_refs : list string;
  mv_unavailable_tool_refs : list string;
  mv_available : bool;
  mv_availability_reason : option string;
}.

Record ModelProfileSource := { ms_app_id : string; ms_display_name : string; ms_version : string }.

(** Serde: the profiles of an app's configuration, and a profile as bytes. *)
Class ProfilesCodec := {
  model_profiles_from_value : JsonObject -> string + list ChatModelProfile;
  profile_to_vec : ChatModelProfile -> string + string;
}.

(** ** Validation *)

(** [value.chars().any(char::is_whitespace)]: some suffix starts with whitespace. *)
Fixpoint has_whitespace (s : string) : bool :=
  match s with
  | EmptyString => false
  | String _ s' => negb (bool_decide (trim_start s = s)) || has_whitespace s'
  end.

Definition ascii_lowercase_or_digit (b : N) : bool :=
  ((97 <=? b) && (b <=? 122) || (48 <=? b) && (b <=? 57))%N.

Definition valid_profile_id (value : string) : bool :=
  negb (bool_decide (value = EmptyString)) && (String.length value <=? 64)
  && forallb (fun part => negb (bool_decide (part = EmptyString)) && string_all ascii_lowercase_or_digit part)
       (split (Ascii.ascii_of_N 45) value).

Definition validate_text (value field : string) (max : N) (allow_empty : bool) : outcome string unit :=
  _ ← reject (negb allow_empty && bool_decide (trim value = EmptyString) || negb (bool_decide (value = trim value)))
        ("model profile " +:+ field +:+ " must be trimmed and non-empty");
  reject (max <? N.of_nat (chars_count value))%N
    ("model profile " +:+ field +:+ " exceeds " +:+ pretty max +:+ " characters").

Definition validate_tool_ref (value : string) : outcome string unit :=
  let invalid := "invalid model profile tool '" +:+ value +:+ "'" in
  _ ← reject ((257 <? chars_count value) || negb (bool_decide (value = trim value))) invalid;
  parts ← ok_or (split_once (Ascii.ascii_of_N 47) value) invalid;
  reject (bool_decide (parts.1 = EmptyString) || bool_decide (parts.2 = EmptyString)
          || contains_char (Ascii.ascii_of_N 47) parts.2 || has_whitespace value) invalid.

(** A loop over texts that must each pass and never repeat. *)
Fixpoint distinct_items (validate : string -> outcome string unit) (duplicate : string -> string)
    (seen : gset string) (items : list string) : outcome string unit :=
  match items with
  | [] => Ok tt
  | item :: items' =>
      _ ← validate item;
      _ ← reject (bool_decide (item ∈ seen)) (duplicate item);
      distinct_items validate duplicate ({[item]} ∪ seen) items'
  end.

Definition validate_layer_id (layer_id : string) : outcome string unit :=
  _ ← validate_text layer_id "prompt layer id" 256 false;
  reject (bool_decide (layer_id = "protocol")) "model profile prompt cannot override protocol layer".

Definition validate_prompt (prompt : ChatModelProfilePrompt) : outcome string unit :=
  _ ← reject (MAX_PROMPT_LAYER_IDS <? length (pp_layer_ids prompt))
        ("model profile prompt exceeds " +:+ pretty MAX_PROMPT_LAYER_IDS +:+ " layer ids");
  _ ← distinct_items validate_layer_id
        (fun layer_id => "duplicate model profile prompt layer '" +:+ layer_id +:+ "'") ∅ (pp_layer_ids prompt);
  _ ← reject (MAX_PROMPT_CUSTOM_TEXTS <? length (pp_custom_texts prompt))
        ("model profile prompt exceeds " +:+ pretty MAX_PROMPT_CUSTOM_TEXTS +:+ " custom texts");
  _ ← for_each (fun text => validate_text text "prompt custom text" MAX_PROMPT_CUSTOM_TEXT_CHARS false)
        (pp_custom_texts prompt);
  reject (MAX_PROMPT_TOTAL_CUSTOM_TEXT_CHARS <? N.of_nat (sum_list_with chars_count (pp_custom_texts prompt)))%N
    ("model profile prompt custom texts exceed " +:+ pretty MAX_PROMPT_TOTAL_CUSTOM_TEXT_CHARS +:+ " characters").

Definition f64_zero : f64 := S754_zero false.
(** 2.0 with its 53-bit significand. *)
Definition f64_two : f64 := S754_finite false (2 ^ 52) (-51).

Definition is_finite (x : f64) : bool :=
  match x with S754_zero _ | S754_finite _ _ _ => true | S754_infinity _ | S754_nan => false end.

Definition temperature_ok (temperature : f64) : bool :=
  is_finite temperature && SFleb f64_zero temperature && SFleb temperature f64_two.

Definition REASONING_LEVELS : list string := ["minimal"; "low"; "medium"; "high"; "xhigh"; "max"].

Definition validate_profile (profile : ChatModelProfile) : outcome string unit :=
  _ ← reject (negb (valid_profile_id (mp_id profile))) ("invalid model profile id '" +:+ mp_id profile +:+ "'");
  _ ← validate_text (mp_title profile) "title" 120 false;
  _ ← validate_text (mp_description profile) "description" 1000 true;
  _ ← validate_text (mp_connector_id profile) "connector_id" 256 false;
  _ ← validate_text (mp_model profile) "model" 256 false;
  _ ← match mp_reasoning profile with
      | Some reasoning =>
          reject (negb (bool_decide (reasoning ∈ REASONING_LEVELS))) ("invalid reasoning value '" +:+ reasoning +:+ "'")
      | None => Ok tt
      end;
  _ ← match mp_temperature profile with
      | Some temperature => reject (negb (temperature_ok temperature)) "temperature must be between 0 and 2"
      | None => Ok tt
      end;
  _ ← match mp_max_output_tokens profile with
      | Some value => reject ((value =? 0) || (MAX_OUTPUT_TOKENS <? value))%N
                        ("max_output_tokens must be between 1 and " +:+ pretty MAX_OUTPUT_TOKENS)
      | None => Ok tt
      end;
  _ ← reject (MAX_TOOLS <? length (mp_tools profile)) ("model profile exceeds " +:+ pretty MAX_TOOLS +:+ " tools");
  _ ← distinct_items validate_tool_ref (fun tool => "duplicate model profile tool '" +:+ tool +:+ "'") ∅ (mp_tools profile);
  match mp_prompt profile with Some prompt => validate_prompt prompt | None => Ok tt end.

(** The loop of [parse_profiles]. *)
Fixpoint validate_profiles (ids : gset string) (profiles : list ChatModelProfile) : outcome string unit :=
  match profiles with
  | [] => Ok tt
  | profile :: profiles' =>
      _ ← validate_profile profile;
      _ ← reject (bool_decide (mp_id profile ∈ ids)) ("duplicate model profile id '" +:+ mp_id profile +:+ "'");
      validate_profiles ({[mp_id profile]} ∪ ids) profiles'
  end.

(** ** Profiles of an app *)

Section profiles.
Context `{Libraries, ProfilesCodec}.

Definition parse_profiles (config : JsonObject) : outcome string (list ChatModelProfile) :=
  profiles ← map_err (String.append "invalid model profiles config: ") (from_result (model_profiles_from_value config));
  _ ← reject (MAX_PROFILES <? length profiles) ("model profiles config exceeds " +:+ pretty MAX_PROFILES +:+ " profiles");
  _ ← validate_profiles ∅ profiles;
  Ok profiles.

Definition receipt_for (profile : ChatModelProfile) (source_app_id source_app_version : string) :
    outcome string ChatModelProfileReceipt :=
  encoded ← map_err (String.append "serialize model profile failed: ") (from_result (profile_to_vec profile));
  Ok {| mr_source_app_id := source_app_id; mr_source_app_version := source_app_version; mr_profile_id := mp_id profile;
        mr_profile_digest := sha256_hex encoded; mr_title := mp_title profile; mr_connector_id := mp_connector_id profile;
        mr_model := mp_model profile; mr_reasoning := mp_reasoning profile; mr_temperature := mp_temperature profile;
        mr_max_output_tokens := mp_max_output_tokens profile; mr_tool_refs := mp_tools profile;
        mr_prompt := mp_prompt profile |}.

Definition find_profile (profile_id : string) (profiles : list ChatModelProfile) : option ChatModelProfile :=
  List.find (fun profile => bool_decide (mp_id profile = profile_id)) profiles.

Definition resolve_profile (config : JsonObject) (profile_id source_app_id source_app_version : string) :
    outcome string ChatModelProfileReceipt :=
  profiles ← parse_profiles config;
  profile ← ok_or (find_profile profile_id profiles) ("unknown model profile: " +:+ profile_id);
  receipt_for profile source_app_id source_app_version.

Definition profile_is_current (config : JsonObject) (source_app_id source_app_version : string)
    (receipt : ChatModelProfileReceipt) : outcome string bool :=
  if negb (bool_decide (mr_source_app_id receipt = source_app_id))
     || negb (bool_decide (mr_source_app_version receipt = source_app_version))
  then Ok false
  else
    profiles ← parse_profiles config;
    match find_profile (mr_profile_id receipt) profiles with
    | None => Ok false
    | Some profile =>
        current ← receipt_for profile source_app_id source_app_version;
        Ok (bool_decide (mr_profile_digest current = mr_profile_digest receipt))
    end.

(** What the configuration grants now: tools, provider connectors that are set up and that
    Chat may select, and the layers of its prompt. *)
Record ProfileSupport := {
  ps_granted_tools : gset string;
  ps_configured_connectors : gset string;
  ps_selectable_connectors : gset string;
  ps_current_prompt_layers : gset string;
}.

Definition prompt_available (support : ProfileSupport) (profile : ChatModelProfile) : bool :=
  match mp_prompt profile with
  | None => true
  | Some prompt => forallb (fun layer_id => bool_decide (layer_id ∈ ps_current_prompt_layers support)) (pp_layer_ids prompt)
  end.

Definition profile_view (source : ModelProfileSource) (support : ProfileSupport) (profile : ChatModelProfile) :
    outcome string ChatModelProfileView :=
  receipt ← receipt_for profile (ms_app_id source) (ms_version source);
  let granted tool := bool_decide (tool ∈ ps_granted_tools support) in
  let available := bool_decide (mp_connector_id profile ∈ ps_selectable_connectors support)
                   && prompt_available support profile in
  Ok {| mv_receipt := receipt; mv_source_app_name := ms_display_name source; mv_description := mp_description profile;
        mv_effective_tool_refs := List.filter granted (mp_tools profile);
        mv_unavailable_tool_refs := List.filter (fun tool => negb (granted tool)) (mp_tools profile);
        mv_available := available;
        mv_availability_reason :=
          if available then None
          else Some (if negb (prompt_available support profile)
                     then "Model profile prompt references chat layers that are currently unavailable"
                     else if bool_decide (mp_connector_id profile ∈ ps_configured_connectors support)
                     then "Model provider profile '" +:+ mp_connector_id profile
                          +:+ "' uses a credential; choose it as Default for Chat first"
                     else "Model provider profile '" +:+ mp_connector_id profile +:+ "' is not configured") |}.

Definition profile_views (config : JsonObject) (source : ModelProfileSource) (support : ProfileSupport) :
    outcome string (list ChatModelProfileView) :=
  profiles ← parse_profiles config;
  map_ok (profile_view source support) profiles.
End profiles.

(** ** Apps that offer profiles *)

Definition is_model_profile_source (app : InstalledApp) : bool :=
  existsb (fun contribution =>
    bool_decide (ec_target_app contribution = "chat")
    && bool_decide (ec_extension_point contribution = MODEL_PROFILE_EXTENSION_POINT)
    && (ec_contract_version contribution =? MODEL_PROFILE_CONTRACT_VERSION)%N
    && existsb (fun surface => bool_decide (sd_name surface = ec_surface contribution)) (m_surfaces (ia_manifest app)))
    (m_extension_contributions (ia_manifest app))
  && existsb (fun declaration => bool_decide (cf_name declaration = MODEL_PROFILE_CONFIG))
       (m_config_declarations (ia_manifest app)).

Definition by_app_id (left right : InstalledApp) : bool :=
  String.leb (m_app_id (ia_manifest left)) (m_app_id (ia_manifest right)).

Definition model_profile_sources (registry : Registry) : list InstalledApp :=
  sort_by by_app_id (List.filter is_model_profile_source (Registry_installed_apps registry)).

Definition model_profile_source (registry : Registry) (app_id : string) : outcome string InstalledApp :=
  match Registry_app registry app_id with
  | Ok app =>
      if is_model_profile_source app then Ok app
      else Err ("app does not contribute the model profile contract: " +:+ app_id)
  | Err _ => Err ("model profile source is not installed or enabled: " +:+ app_id)
  | Panic msg => Panic msg
  end.

(** ** What an accepted configuration offers *)

Lemma distinct_items_Ok validate duplicate seen items :
  distinct_items validate duplicate seen items = Ok tt ->
  NoDup items /\ ∀ item, item ∈ items -> validate item = Ok tt /\ item ∉ seen.
Proof.
  revert seen. induction items as [|x items IH]; intros seen; simpl.
  - intros _. split; [constructor|]. intros item Hin. inversion Hin.
  - intros Hrun. apply bind_unit_Ok in Hrun as [Hx Hrun]. apply bind_unit_Ok in Hrun as [Hseen%reject_Ok Hrun].
    apply bool_decide_eq_false in Hseen. apply IH in Hrun as [Hn Hall]. split.
    + constructor; [|done]. intros Hin. destruct (Hall x Hin) as [_ Hnot]. set_solver.
    + intros item [->|Hin]%elem_of_cons; [done|]. destruct (Hall item Hin). split; [done|]. set_solver.
Qed.

(** What validation leaves of a profile. *)
Record profile_ok (profile : ChatModelProfile) : Prop := {
  po_id : valid_profile_id (mp_id profile) = true;
  po_reasoning : ∀ reasoning, mp_reasoning profile = Some reasoning -> reasoning ∈ REASONING_LEVELS;
  po_temperature : ∀ temperature, mp_temperature profile = Some temperature -> temperature_ok temperature = true;
  po_tokens : ∀ tokens, mp_max_output_tokens profile = Some tokens -> (1 <= tokens <= MAX_OUTPUT_TOKENS)%N;
  po_tools_bounded : length (mp_tools profile) <= MAX_TOOLS;
  po_tools : NoDup (mp_tools profile) /\ ∀ tool, tool ∈ mp_tools profile -> validate_tool_ref tool = Ok tt;
  po_prompt : ∀ prompt, mp_prompt profile = Some prompt ->
    NoDup (pp_layer_ids prompt) /\ ("protocol" ∉ pp_layer_ids prompt) /\
    (N.of_nat (sum_list_with chars_count (pp_custom_texts prompt)) <= MAX_PROMPT_TOTAL_CUSTOM_TEXT_CHARS)%N;
}.

Lemma validate_prompt_Ok prompt :
  validate_prompt prompt = Ok tt ->
  NoDup (pp_layer_ids prompt) /\ ("protocol" ∉ pp_layer_ids prompt) /\
  (N.of_nat (sum_list_with chars_count (pp_custom_texts prompt)) <= MAX_PROMPT_TOTAL_CUSTOM_TEXT_CHARS)%N.
Proof.
  unfold validate_prompt. intros Hrun. apply bind_unit_Ok in Hrun as [_ Hrun].
  apply bind_unit_Ok in Hrun as [[Hn Hall]%distinct_items_Ok Hrun]. do 2 apply bind_unit_Ok in Hrun as [_ Hrun].
  apply reject_Ok, N.ltb_ge in Hrun. split; [done|]. split; [|done]. intros Hin.
  destruct (Hall _ Hin) as [Hv _]. unfold validate_layer_id in Hv. apply bind_unit_Ok in Hv as [_ Hv%reject_Ok].
  by apply bool_decide_eq_false in Hv.
Qed.

Lemma validate_profile_Ok profile : validate_profile profile = Ok tt -> profile_ok profile.
Proof.
  unfold validate_profile. intros Hrun. apply bind_unit_Ok in Hrun as [Hid%reject_Ok%negb_false_iff Hrun].
  do 4 apply bind_unit_Ok in Hrun as [_ Hrun]. apply bind_unit_Ok in Hrun as [Hreason Hrun].
  apply bind_unit_Ok in Hrun as [Htemp Hrun]. apply bind_unit_Ok in Hrun as [Htokens Hrun].
  apply bind_unit_Ok in Hrun as [Hlen%reject_Ok%Nat.ltb_ge Hrun]. apply bind_unit_Ok in Hrun as [[Hn Hall]%distinct_items_Ok Hprompt].
  constructor; [done| | | |done| |].
  - intros reasoning E. rewrite E in Hreason. by apply reject_Ok, negb_false_iff, bool_decide_eq_true in Hreason.
  - intros temperature E. rewrite E in Htemp. by apply reject_Ok, negb_false_iff in Htemp.
  - intros tokens E. rewrite E in Htokens. apply reject_Ok, orb_false_iff in Htokens as [H0%N.eqb_neq H1%N.ltb_ge]. lia.
  - split; [done|]. intros tool Hin. by destruct (Hall tool Hin).
  - intros prompt E. rewrite E in Hprompt. by apply validate_prompt_Ok.
Qed.

Lemma validate_profiles_Ok ids profiles :
  validate_profiles ids profiles = Ok tt ->
  NoDup (mp_id <$> profiles) /\ ∀ profile, profile ∈ profiles -> profile_ok profile /\ mp_id profile ∉ ids.
Proof.
  revert ids. induction profiles as [|x profiles IH]; intros ids; csimpl.
  - intros _. split; [constructor|]. intros profile Hin. inversion Hin.
  - intros Hrun. apply bind_unit_Ok in Hrun as [Hx%validate_profile_Ok Hrun].
    apply bind_unit_Ok in Hrun as [Hseen%reject_Ok Hrun]. apply bool_decide_eq_false in Hseen.
    apply IH in Hrun as [Hn Hall]. split.
    + constructor; [|done]. intros (y & E & Hin)%list_elem_of_fmap. destruct (Hall y Hin) as [_ Hnot]. set_solver.
    + intros profile [->|Hin]%elem_of_cons; [done|]. destruct (Hall profile Hin). split; [done|]. set_solver.
Qed.

(** A receipt that pins a profile pins a valid one: the profile is the only one of its name in
    the app's configuration, its generation parameters and its tools are within their bounds,
    and its prompt leaves the protocol layer alone; the receipt counts as current exactly for
    the app, the version and the profile bytes it was made from. *)
Theorem resolved_profile_is_valid `{Libraries, ProfilesCodec} config profile_id app_id version receipt :
  resolve_profile config profile_id app_id version = Ok receipt ->
  (∃ profiles profile, parse_profiles config = Ok profiles /\ length profiles <= MAX_PROFILES /\
     profile ∈ profiles /\ mp_id profile = profile_id /\ profile_ok profile /\
     (∀ other, other ∈ profiles -> mp_id other = profile_id -> other = profile) /\
     mr_profile_id receipt = profile_id /\ mr_tool_refs receipt = mp_tools profile /\ mr_prompt receipt = mp_prompt profile) /\
  profile_is_current config app_id version receipt = Ok true /\
  (∀ app_id' version', (app_id', version') <> (app_id, version) ->
     profile_is_current config app_id' version' receipt = Ok false).
Proof.
  unfold resolve_profile. intros (profiles & Hp & Hrun)%bind_Ok_inv. apply bind_Ok_inv in Hrun as (profile & Hf & Hr).
  destruct (find_profile profile_id profiles) as [p|] eqn:Ef; [|done]. injection Hf as ->.
  pose proof Ef as [Hin Hid%bool_decide_eq_true]%find_Some_elem.
  pose proof Hp as Hparse. unfold parse_profiles in Hparse. apply bind_Ok_inv in Hparse as (parsed & _ & Hparse).
  apply bind_unit_Ok in Hparse as [Hlen%reject_Ok%Nat.ltb_ge Hparse].
  apply bind_unit_Ok in Hparse as [[Hn Hall]%validate_profiles_Ok [= ->]].
  pose proof Hr as Hreceipt. unfold receipt_for in Hr. apply bind_Ok_inv in Hr as (encoded & _ & [= <-]). split_and!.
  - exists profiles, profile. simpl. split_and!; try done; [by destruct (Hall profile Hin)|].
    intros other Ho Hoid. apply list_elem_of_lookup in Hin as [i Hi]. apply list_elem_of_lookup in Ho as [j Hj].
    assert (i = j) as ->; [|congruence]. eapply (NoDup_lookup _ _ _ _ Hn); rewrite list_lookup_fmap;
      [by rewrite Hi|by rewrite Hj; simpl; rewrite Hoid, Hid].
  - unfold profile_is_current. simpl. rewrite !bool_decide_eq_true_2 by done. simpl. rewrite Hp. simpl. rewrite Hid, Ef. simpl.
    rewrite Hreceipt. simpl. by rewrite bool_decide_eq_true_2.
  - intros app_id' version' Hne. unfold profile_is_current. simpl.
    destruct (decide (app_id = app_id')) as [->|Ha]; [|by rewrite bool_decide_eq_false_2].
    destruct (decide (version = version')) as [->|Hv]; [done|]. by rewrite bool_decide_eq_true_2, bool_decide_eq_false_2.
Qed.
