(* ===== verification/ChatStore.v ===== *)
(** * The chat store

    [host/src-tauri/src/chat_store.rs]: the conversations of Chat, their transcripts, the
    contributions and the context that other apps put into them, and the one document they
    are kept in. Serde, the clock and the parser of its timestamps are parameters. *)

From S2P Require Import Prelude RustStd RustText Json Types Errors Platform AtomicJson PackageChecks ChatModelProfiles.

Definition CHAT_STORE_VERSION : N := 4.
Definition MAX_INJECTED_CONTEXTS_PER_SOURCE : N := 100.
Definition MAX_INJECTED_CONTEXTS_PER_THREAD : N := 200.
Definition MAX_INJECTED_CONTEXT_CHARS : N := 16 * 1024.
Definition MAX_INJECTED_CONTEXT_CHARS_PER_SOURCE : N := 48 * 1024.
Definition MAX_INJECTED_CONTEXT_CHARS_PER_THREAD : N := 64 * 1024.

(** ** Data *)

Inductive ChatMessageRole := RoleUser | RoleAssistant | RoleSystem | RoleToolStatus.
Inductive ChatContributionKind := TextSnapshot | ArtifactRef | ResourceRef | DraftProposal.
Inductive ChatContributionCompleteness := ContributionComplete | ContributionTruncated | ContributionUnavailable.
Inductive ChatContributionLifecycle := LifecycleDraft | LifecycleAccepted | LifecycleRemoved | LifecycleStale | LifecycleFailed.
Inductive ChatMessageStatus := MsgPending | MsgCompleted | MsgInterrupted | MsgFailed | MsgCancelled.
Inductive PublicChatMessageRole := PublicUser | PublicAssistant.
Inductive ChatMessageViewStatus := ViewPending | ViewCompleted | ViewInterrupted | ViewCancelled | ViewFailed.

#[export] Instance ChatContributionKind_eq_dec : EqDecision ChatContributionKind.
Proof. solve_decision. Defined.
#[export] Instance ChatMessageStatus_eq_dec : EqDecision ChatMessageStatus.
Proof. solve_decision. Defined.
#[export] Instance ChatMessageRole_eq_dec : EqDecision ChatMessageRole.
Proof. solve_decision. Defined.

Record ChatContribution := {
  cc_source_app_id : string;
  cc_source_app_version : string;
  cc_source_contract : N;
  cc_item_id : string;
  cc_revision : N;
  cc_digest : string;
  cc_completeness : ChatContributionCompleteness;
  cc_lifecycle : ChatContributionLifecycle;
  cc_kind : ChatContributionKind;
  cc_title : string;
  cc_body : Value;
  cc_created_at : string;
  cc_updated_at : string;
}.

Record ChatInjectedContext := {
  ic_source_app_id : string;
  ic_source_app_version : string;
  ic_source_app_content_hash : string;
  ic_source_run_id : string;
  ic_item_id : string;
  ic_revision : N;
  ic_content_digest : string;
  ic_content : string;
  ic_created_at : string;
  ic_updated_at : string;
}.

Record ChatInjectedContextTombstone := { tb_source_app_id : string; tb_item_id : string; tb_revision : N }.

Record ChatInjectedContextEntryReceipt := {
  er_source_app_id : string;
  er_source_app_name : string;
  er_source_app_version : string;
  er_item_id : string;
  er_revision : N;
  er_source_run_id : string;
  er_grant_id : string;
  er_content_digest : string;
}.

Record ChatInjectedContextReceipt := {
  ir_message_digest : string;
  ir_entries : list ChatInjectedContextEntryReceipt;
  ir_exact_message : option string;
}.

Inductive ChatInjectedContextUpdate :=
  | ContextUpsert (context : ChatInjectedContext)
  | ContextRemove (source_app_id item_id : string) (revision : N).

Record ChatMessage := {
  mg_message_id : string;
  mg_role : ChatMessageRole;
  mg_text : string;
  mg_reasoning : option string;
  mg_run_id : option string;
  mg_artifact_ids : list string;
  mg_status : option ChatMessageStatus;
  mg_client_request_id : option string;
  mg_created_at : string;
  mg_completed_at : option string;
}.

Record ChatThreadRef := {
  th_resource_id : string;
  th_thread_id : string;
  th_title : string;
  th_revision : N;
  th_created_at : string;
  th_updated_at : string;
}.

Record ChatMessageView := {
  vw_message_id : string;
  vw_thread_resource_id : string;
  vw_sequence : N;
  vw_role : PublicChatMessageRole;
  vw_status : ChatMessageViewStatus;
  vw_text : string;
  vw_artifact_refs : list string;
  vw_run_ref : option string;
  vw_created_at : string;
  vw_completed_at : option string;
}.

Record ChatThreadPage := {
  pg_thread : ChatThreadRef;
  pg_messages : list ChatMessageView;
  pg_next_cursor : option N;
}.

Record ChatThreadSummary := {
  su_id : string;
  su_title : string;
  su_created_at : string;
  su_updated_at : string;
  su_message_count : nat;
}.

Record ChatPromptReceiptLayer := {
  pl_id : string;
  pl_kind : string;
  pl_title : string;
  pl_source : option string;
  pl_content : string;
}.

Record ChatCompositionReceipt := {
  cr_system_prompt_digest : string;
  cr_assistant_profile_ref : string;
  cr_assistant_profile_digest : string;
  cr_enabled_skill_digests : list string;
  cr_context_block_digests : list string;
  cr_attachment_refs : list string;
  cr_available_capability_refs : list string;
  cr_provider_profile_ref : string;
  cr_model_profile : option ChatModelProfileReceipt;
  cr_agent_engine_ref : option string;
  cr_agent_engine_version : option string;
  cr_agent_engine_features : list string;
  cr_assistant_capability_refs : list string;
  cr_created_at : string;
  cr_system_prompt : string;
  cr_layers : list ChatPromptReceiptLayer;
  cr_injected_context : option ChatInjectedContextReceipt;
}.

Record ChatProfileReceipt := {
  pr_app_id : string;
  pr_profile_name : string;
  pr_version : string;
  pr_digest : string;
  pr_reviewed_skill_digests : list string;
  pr_capability_refs : list string;
  pr_engine_contract : option string;
  pr_status : string;
}.

Record ChatAgentEngineReceipt := { ae_app_id : string; ae_version : string; ae_contract : string }.
Record ChatAgentEngineState := { as_status : string; as_fallback_reason : option string }.

#[export] Instance ChatAgentEngineState_eq_dec : EqDecision ChatAgentEngineState.
Proof. solve_decision. Defined.

(** What a conversation is set up with. *)
Record ChatThreadSetup := {
  se_assistant_profile_ref : option string;
  se_assistant_profile_receipt : option ChatProfileReceipt;
  se_model_profile_ref : option string;
  se_model_profile_receipt : option ChatModelProfileReceipt;
  se_chat_agent_engine_ref : option string;
  se_chat_agent_engine_receipt : option ChatAgentEngineReceipt;
  se_chat_agent_engine_state : option ChatAgentEngineState;
}.

(** [ChatThread], its last seven fields apart. *)
Record ChatThread := {
  ct_id : string;
  ct_resource_id : string;
  ct_revision : N;
  ct_title : string;
  ct_created_at : string;
  ct_updated_at : string;
  ct_messages : list ChatMessage;
  ct_prompt_receipts : gmap string ChatCompositionReceipt;
  ct_contributions : list ChatContribution;
  ct_injected_contexts : list ChatInjectedContext;
  ct_injected_context_tombstones : list ChatInjectedContextTombstone;
  ct_setup : ChatThreadSetup;
}.

Record ContributionIdentity := { ci_source_app_id : string; ci_kind : ChatContributionKind; ci_item_id : string }.

Definition ContributionIdentity_matches (identity : ContributionIdentity) (contribution : ChatContribution) : bool :=
  bool_decide (ci_source_app_id identity = cc_source_app_id contribution)
  && bool_decide (ci_kind identity = cc_kind contribution) && bool_decide (ci_item_id identity = cc_item_id contribution).

Definition identity_of (contribution : ChatContribution) : ContributionIdentity :=
  {| ci_source_app_id := cc_source_app_id contribution; ci_kind := cc_kind contribution;
     ci_item_id := cc_item_id contribution |}.

Record ChatStoreDocument := { sd_version : N; sd_threads : list ChatThread }.

Inductive ChatRequestState := RequestPending | RequestCompleted.

(** Updates of a thread. *)
Definition set_title (title : string) (t : ChatThread) : ChatThread :=
  {| ct_id := ct_id t; ct_resource_id := ct_resource_id t; ct_revision := ct_revision t; ct_title := title;
     ct_created_at := ct_created_at t; ct_updated_at := ct_updated_at t; ct_messages := ct_messages t;
     ct_prompt_receipts := ct_prompt_receipts t; ct_contributions := ct_contributions t;
     ct_injected_contexts := ct_injected_contexts t;
     ct_injected_context_tombstones := ct_injected_context_tombstones t; ct_setup := ct_setup t |}.
Definition set_messages (messages : list ChatMessage) (t : ChatThread) : ChatThread :=
  {| ct_id := ct_id t; ct_resource_id := ct_resource_id t; ct_revision := ct_revision t; ct_title := ct_title t;
     ct_created_at := ct_created_at t; ct_updated_at := ct_updated_at t; ct_messages := messages;
     ct_prompt_receipts := ct_prompt_receipts t; ct_contributions := ct_contributions t;
     ct_injected_contexts := ct_injected_contexts t;
     ct_injected_context_tombstones := ct_injected_context_tombstones t; ct_setup := ct_setup t |}.
Definition set_receipts (receipts : gmap string ChatCompositionReceipt) (t : ChatThread) : ChatThread :=
  {| ct_id := ct_id t; ct_resource_id := ct_resource_id t; ct_revision := ct_revision t; ct_title := ct_title t;
     ct_created_at := ct_created_at t; ct_updated_at := ct_updated_at t; ct_messages := ct_messages t;
     ct_prompt_receipts := receipts; ct_contributions := ct_contributions t;
     ct_injected_contexts := ct_injected_contexts t;
     ct_injected_context_tombstones := ct_injected_context_tombstones t; ct_setup := ct_setup t |}.
Definition set_contributions (contributions : list ChatContribution) (t : ChatThread) : ChatThread :=
  {| ct_id := ct_id t; ct_resource_id := ct_resource_id t; ct_revision := ct_revision t; ct_title := ct_title t;
     ct_created_at := ct_created_at t; ct_updated_at := ct_updated_at t; ct_messages := ct_messages t;
     ct_prompt_receipts := ct_prompt_receipts t; ct_contributions := contributions;
     ct_injected_contexts := ct_injected_contexts t;
     ct_injected_context_tombstones := ct_injected_context_tombstones t; ct_setup := ct_setup t |}.
Definition set_injected (contexts : list ChatInjectedContext) (tombstones : list ChatInjectedContextTombstone)
    (t : ChatThread) : ChatThread :=
  {| ct_id := ct_id t; ct_resource_id := ct_resource_id t; ct_revision := ct_revision t; ct_title := ct_title t;
     ct_created_at := ct_created_at t; ct_updated_at := ct_updated_at t; ct_messages := ct_messages t;
     ct_prompt_receipts := ct_prompt_receipts t; ct_contributions := ct_contributions t;
     ct_injected_contexts := contexts; ct_injected_context_tombstones := tombstones; ct_setup := ct_setup t |}.
Definition set_setup (setup : ChatThreadSetup) (t : ChatThread) : ChatThread :=
  {| ct_id := ct_id t; ct_resource_id := ct_resource_id t; ct_revision := ct_revision t; ct_title := ct_title t;
     ct_created_at := ct_created_at t; ct_updated_at := ct_updated_at t; ct_messages := ct_messages t;
     ct_prompt_receipts := ct_prompt_receipts t; ct_contributions := ct_contributions t;
     ct_injected_contexts := ct_injected_contexts t;
     ct_injected_context_tombstones := ct_injected_context_tombstones t; ct_setup := setup |}.

(** [updated_at = now_iso(); revision += 1], on a 64-bit counter. *)
Definition touched (now : string) (t : ChatThread) : ChatThread :=
  {| ct_id := ct_id t; ct_resource_id := ct_resource_id t; ct_revision := wrap64 (ct_revision t + 1); ct_title := ct_title t;
     ct_created_at := ct_created_at t; ct_updated_at := now; ct_messages := ct_messages t;
     ct_prompt_receipts := ct_prompt_receipts t; ct_contributions := ct_contributions t;
     ct_injected_contexts := ct_injected_contexts t;
     ct_injected_context_tombstones := ct_injected_context_tombstones t; ct_setup := ct_setup t |}.

Definition should_persist (t : ChatThread) : bool :=
  (0 <? ct_revision t)%N || negb (bool_decide (length (ct_messages t) = 0))
  || negb (bool_decide (length (ct_contributions t) = 0)) || negb (bool_decide (length (ct_injected_contexts t) = 0))
  || negb (bool_decide (length (ct_injected_context_tombstones t) = 0)).

(** ** Validation of a loaded document *)

(** [chrono::DateTime::parse_from_rfc3339] succeeds; [Utc::now().to_rfc3339()] at each call. *)
Class Chrono := { rfc3339_ok : string -> bool; now_at : nat -> string }.

(** What [to_rfc3339] writes, [parse_from_rfc3339] reads. *)
Class ChronoLaws `{Chrono} : Prop := { now_parses : ∀ n, rfc3339_ok (now_at n) = true }.

(** The counters of a pass over the contexts. *)
Record Tally := {
  ty_counts : gmap string N;
  ty_chars : gmap string N;
  ty_total : N;
}.

Definition no_tally : Tally := {| ty_counts := ∅; ty_chars := ∅; ty_total := 0 |}.

Definition saturating_add (a b : N) : N := N.min (a + b) usize_max.

Definition source_count (t : Tally) (source : string) : N := default 0%N (ty_counts t !! source).
Definition source_chars (t : Tally) (source : string) : N := default 0%N (ty_chars t !! source).

Definition counted (context : ChatInjectedContext) (t : Tally) : Tally :=
  let source := ic_source_app_id context in
  let chars := N.of_nat (chars_count (ic_content context)) in
  {| ty_counts := <[source := (source_count t source + 1)%N]> (ty_counts t);
     ty_chars := <[source := saturating_add (source_chars t source) chars]> (ty_chars t);
     ty_total := saturating_add (ty_total t) chars |}.

Section validation.
Context `{Libraries, Chrono}.

Definition pair_label (source_app_id item_id : string) : string := source_app_id +:+ "/" +:+ item_id.

(** One context by itself. *)
Definition validate_context (context : ChatInjectedContext) : outcome string unit :=
  let chars := N.of_nat (chars_count (ic_content context)) in
  _ ← reject ((chars =? 0) || (MAX_INJECTED_CONTEXT_CHARS <? chars))%N
        "stored injected Chat context content is empty or too large";
  _ ← reject (negb (bool_decide (ic_content_digest context = sha256_hex (ic_content context))))
        ("stored injected Chat context digest mismatch for " +:+ pair_label (ic_source_app_id context) (ic_item_id context));
  reject (negb (rfc3339_ok (ic_created_at context)) || negb (rfc3339_ok (ic_updated_at context)))
    "stored injected Chat context timestamp is invalid".

Definition validate_context_identity (context : ChatInjectedContext) : outcome string unit :=
  _ ← reject (bool_decide (ic_source_app_id context = EmptyString) || bool_decide (ic_source_app_version context = EmptyString)
              || bool_decide (ic_source_app_content_hash context = EmptyString)
              || bool_decide (ic_source_run_id context = EmptyString) || bool_decide (ic_item_id context = EmptyString))
        "stored injected Chat context identity is incomplete";
  reject (256 <? chars_count (ic_item_id context)) "stored injected Chat context item id is too large".

Definition stored_limits (source : string) (t : Tally) : outcome string unit :=
  _ ← reject (MAX_INJECTED_CONTEXTS_PER_SOURCE <? source_count t source)%N
        "stored injected Chat context source limit exceeded";
  _ ← reject (MAX_INJECTED_CONTEXT_CHARS_PER_SOURCE <? source_chars t source)%N
        "stored injected Chat context source size limit exceeded";
  reject (MAX_INJECTED_CONTEXT_CHARS_PER_THREAD <? ty_total t)%N "stored injected Chat context total size limit exceeded".

(** The first loop of [validate_loaded_injected_contexts]; it ends with the identities seen. *)
Fixpoint validate_contexts (identities : gset (string * string)) (t : Tally) (contexts : list ChatInjectedContext) :
    outcome string (gset (string * string)) :=
  match contexts with
  | [] => Ok identities
  | context :: contexts' =>
      let identity := (ic_source_app_id context, ic_item_id context) in
      _ ← validate_context_identity context;
      _ ← reject (bool_decide (identity ∈ identities))
            ("duplicate stored injected Chat context: " +:+ pair_label identity.1 identity.2);
      _ ← validate_context context;
      _ ← stored_limits (ic_source_app_id context) (counted context t);
      validate_contexts ({[identity]} ∪ identities) (counted context t) contexts'
  end.

Fixpoint validate_tombstones (identities seen : gset (string * string)) (tombstones : list ChatInjectedContextTombstone) :
    outcome string unit :=
  match tombstones with
  | [] => Ok tt
  | tombstone :: tombstones' =>
      let identity := (tb_source_app_id tombstone, tb_item_id tombstone) in
      _ ← reject (bool_decide (identity.1 = EmptyString) || bool_decide (identity.2 = EmptyString))
            "stored injected Chat context tombstone identity is incomplete";
      _ ← reject (bool_decide (identity ∈ identities))
            ("stored injected Chat context has a live entry and tombstone: " +:+ pair_label identity.1 identity.2);
      _ ← reject (bool_decide (identity ∈ seen))
            ("duplicate stored injected Chat context tombstone: " +:+ pair_label identity.1 identity.2);
      validate_tombstones identities ({[identity]} ∪ seen) tombstones'
  end.

Definition count_exceeds {A} (max : N) (l : list A) : bool := (max <? N.of_nat (length l))%N.

Definition validate_loaded_injected_contexts (thread : ChatThread) : outcome string unit :=
  _ ← reject (count_exceeds MAX_INJECTED_CONTEXTS_PER_THREAD (ct_injected_contexts thread))
        "stored injected Chat context limit exceeded";
  _ ← reject (count_exceeds MAX_INJECTED_CONTEXTS_PER_THREAD (ct_injected_context_tombstones thread))
        "stored injected Chat context tombstone limit exceeded";
  identities ← validate_contexts ∅ no_tally (ct_injected_contexts thread);
  validate_tombstones identities ∅ (ct_injected_context_tombstones thread).

Fixpoint validate_threads (thread_ids resource_ids : gset string) (threads : list ChatThread) : outcome string unit :=
  match threads with
  | [] => Ok tt
  | thread :: threads' =>
      _ ← reject (bool_decide (ct_id thread = EmptyString)) "chat thread id cannot be empty";
      _ ← reject (bool_decide (ct_id thread ∈ thread_ids)) ("duplicate chat thread id: " +:+ ct_id thread);
      _ ← reject (bool_decide (ct_resource_id thread = EmptyString)) "chat thread resource id cannot be empty";
      _ ← reject (bool_decide (ct_resource_id thread ∈ resource_ids))
            ("duplicate chat thread resource id: " +:+ ct_resource_id thread);
      _ ← validate_loaded_injected_contexts thread;
      validate_threads ({[ct_id thread]} ∪ thread_ids) ({[ct_resource_id thread]} ∪ resource_ids) threads'
  end.

Definition validate_document (document : ChatStoreDocument) : outcome string unit :=
  _ ← reject (negb (sd_version document =? CHAT_STORE_VERSION)%N)
        ("unsupported chat storage version: " +:+ pretty (sd_version document));
  validate_threads ∅ ∅ (sd_threads document).
End validation.

(** ** Reading *)

(** [String::cmp], then the next comparison. *)
Definition then_with (left right : comparison) : comparison := match left with Eq => right | c => c end.
Definition not_greater (c : comparison) : bool := match c with Gt => false | _ => true end.

Definition thread_ref (thread : ChatThread) : ChatThreadRef :=
  {| th_resource_id := ct_resource_id thread; th_thread_id := ct_id thread; th_title := ct_title thread;
     th_revision := ct_revision thread; th_created_at := ct_created_at thread; th_updated_at := ct_updated_at thread |}.

(** The latest first. *)
Definition recent_first (left right : ChatThreadRef) : bool :=
  not_greater (then_with (String.compare (th_updated_at right) (th_updated_at left))
                         (String.compare (th_resource_id left) (th_resource_id right))).

Definition list_thread_refs (document : ChatStoreDocument) : list ChatThreadRef :=
  sort_by recent_first (thread_ref <$> sd_threads document).

Definition find_thread (thread_id : string) (threads : list ChatThread) : option ChatThread :=
  List.find (fun thread => bool_decide (ct_id thread = thread_id)) threads.

Definition find_thread_by_resource_id (document : ChatStoreDocument) (resource_id : string) : option ChatThread :=
  List.find (fun thread => bool_decide (ct_resource_id thread = resource_id)) (sd_threads document).

Definition list_threads (document : ChatStoreDocument) : list ChatThreadSummary :=
  (fun thread =>
     {| su_id := th_thread_id thread; su_title := th_title thread; su_created_at := th_created_at thread;
        su_updated_at := th_updated_at thread;
        su_message_count := default 0 ((fun stored => length (ct_messages stored))
                              <$> find_thread_by_resource_id document (th_resource_id thread)) |})
  <$> list_thread_refs document.

Definition unknown_thread (thread_id : string) : string := "unknown chat thread: " +:+ thread_id.

Definition get_thread (document : ChatStoreDocument) (thread_id : string) : outcome string ChatThread :=
  ok_or (find_thread thread_id (sd_threads document)) (unknown_thread thread_id).

Definition public_role (role : ChatMessageRole) : option PublicChatMessageRole :=
  match role with
  | RoleUser => Some PublicUser
  | RoleAssistant => Some PublicAssistant
  | RoleSystem | RoleToolStatus => None
  end.

Definition view_status (status : option ChatMessageStatus) : ChatMessageViewStatus :=
  match default MsgCompleted status with
  | MsgPending => ViewPending
  | MsgCompleted => ViewCompleted
  | MsgFailed => ViewFailed
  | MsgCancelled => ViewCancelled
  | MsgInterrupted => ViewInterrupted
  end.

Definition message_view (thread : ChatThread) (sequence : N) (message : ChatMessage) : option ChatMessageView :=
  role ← public_role (mg_role message);
  Some {| vw_message_id := mg_message_id message; vw_thread_resource_id := ct_resource_id thread; vw_sequence := sequence;
          vw_role := role; vw_status := view_status (mg_status message); vw_text := mg_text message;
          vw_artifact_refs := mg_artifact_ids message; vw_run_ref := mg_run_id message;
          vw_created_at := mg_created_at message; vw_completed_at := mg_completed_at message |}.

(** [iter().enumerate()] from [sequence]. *)
Fixpoint enumerate_from {A} (sequence : N) (l : list A) : list (N * A) :=
  match l with [] => [] | x :: l' => (sequence, x) :: enumerate_from (sequence + 1) l' end.

Definition public_messages (thread : ChatThread) (cursor : option N) (limit : nat) : list ChatMessageView :=
  let start := default 0%N ((fun value => saturating_add value 1) <$> cursor) in
  take limit
    (omap (fun entry => if (entry.1 <? start)%N then None else message_view thread entry.1 entry.2)
       (enumerate_from 0 (ct_messages thread))).

Definition get_thread_page (document : ChatStoreDocument) (resource_id : string) (cursor : option N) (limit : nat) :
    outcome string ChatThreadPage :=
  _ ← reject (negb ((1 <=? limit) && (limit <=? 100))) "chat page limit must be between 1 and 100";
  thread ← ok_or (find_thread_by_resource_id document resource_id) ("unknown chat thread resource: " +:+ resource_id);
  let messages := public_messages thread cursor (limit + 1) in
  Ok {| pg_thread := thread_ref thread; pg_messages := take limit messages;
        pg_next_cursor := if limit <? length messages then vw_sequence <$> messages !! (limit - 1) else None |}.

Definition request_of (client_request_id : string) (messages : list ChatMessage) : option ChatMessage :=
  List.find (fun message => bool_decide (mg_client_request_id message = Some client_request_id)) messages.

Definition request_state (document : ChatStoreDocument) (thread_id client_request_id message : string) :
    outcome string (option ChatRequestState) :=
  thread ← get_thread document thread_id;
  match request_of client_request_id (ct_messages thread) with
  | None => Ok None
  | Some request =>
      _ ← reject (negb (bool_decide (mg_text request = trim message)))
            "chat request id was already used with different content";
      Ok (Some (if bool_decide (mg_status request = Some MsgPending) then RequestPending else RequestCompleted))
  end.

(** *** Titles *)

(** The characters before the first whitespace, and the rest. *)
Fixpoint take_word (s : string) : string * string :=
  match s with
  | EmptyString => (EmptyString, EmptyString)
  | String c s' =>
      if bool_decide (trim_start s = s) then let '(word, rest) := take_word s' in (String c word, rest)
      else (EmptyString, s)
  end.

(** [split_whitespace]; every round drops at least one byte. *)
Fixpoint split_whitespace (fuel : nat) (s : string) : list string :=
  match fuel with
  | O => []
  | S fuel' =>
      match trim_start s with
      | EmptyString => []
      | s' => let '(word, rest) := take_word s' in word :: split_whitespace fuel' rest
      end
  end.

Definition title_from_first_message (message : string) : string :=
  let normalized := String.concat " " (split_whitespace (String.length message) message) in
  if bool_decide (normalized = EmptyString) then "New chat"
  else
    let truncated := take_chars 48 normalized in
    if 48 <? chars_count normalized then trim_end truncated +:+ "..." else truncated.

(** ** Injected context *)

Definition same_context (source_app_id item_id : string) (context : ChatInjectedContext) : bool :=
  bool_decide (ic_source_app_id context = source_app_id) && bool_decide (ic_item_id context = item_id).
Definition same_tombstone (source_app_id item_id : string) (tombstone : ChatInjectedContextTombstone) : bool :=
  bool_decide (tb_source_app_id tombstone = source_app_id) && bool_decide (tb_item_id tombstone = item_id).

(** [iter_mut().find(p)] followed by an assignment. *)
Fixpoint replace_first {A} (p : A -> bool) (f : A -> A) (l : list A) : option (list A) :=
  match l with
  | [] => None
  | x :: l' => if p x then Some (f x :: l') else cons x <$> replace_first p f l'
  end.

Abbreviation injected := (list ChatInjectedContext * list ChatInjectedContextTombstone)%type.

Definition upsert_context (context : ChatInjectedContext) (held : injected) : outcome string injected :=
  let source := ic_source_app_id context in
  let item := ic_item_id context in
  let stale := "stale injected context revision for " +:+ pair_label source item in
  let '(contexts, tombstones) := held in
  _ ← match List.find (same_tombstone source item) tombstones with
      | Some tombstone => reject (ic_revision context <=? tb_revision tombstone)%N stale
      | None => Ok tt
      end;
  contexts' ← match List.find (same_context source item) contexts with
              | Some existing =>
                  _ ← reject (ic_revision context <? ic_revision existing)%N stale;
                  _ ← reject ((ic_revision context =? ic_revision existing)%N
                              && negb (bool_decide (ic_content_digest context = ic_content_digest existing)))
                        ("injected context revision changed content for " +:+ pair_label source item);
                  Ok (default contexts (replace_first (same_context source item) (fun _ => context) contexts))
              | None => Ok (contexts ++ [context])
              end;
  Ok (contexts', List.filter (fun tombstone => negb (same_tombstone source item tombstone)) tombstones).

Definition remove_context (source item : string) (revision : N) (held : injected) : outcome string injected :=
  let '(contexts, tombstones) := held in
  _ ← match List.find (same_context source item) contexts with
      | Some existing => reject (revision <? ic_revision existing)%N
                           ("stale injected context revision for " +:+ pair_label source item)
      | None => Ok tt
      end;
  let raised tombstone :=
    {| tb_source_app_id := tb_source_app_id tombstone; tb_item_id := tb_item_id tombstone;
       tb_revision := N.max (tb_revision tombstone) revision |} in
  Ok (List.filter (fun context => negb (same_context source item context)) contexts,
      default (tombstones ++ [{| tb_source_app_id := source; tb_item_id := item; tb_revision := revision |}])
        (replace_first (same_tombstone source item) raised tombstones)).

Definition apply_update (held : injected) (update : ChatInjectedContextUpdate) : outcome string injected :=
  match update with
  | ContextUpsert context => upsert_context context held
  | ContextRemove source_app_id item_id revision => remove_context source_app_id item_id revision held
  end.

Fixpoint apply_updates (updates : list ChatInjectedContextUpdate) (held : injected) : outcome string injected :=
  match updates with
  | [] => Ok held
  | update :: updates' => held' ← apply_update held update; apply_updates updates' held'
  end.

(** The limits a call is subject to. *)
Record ContextLimits := {
  li_max_per_source : N;
  li_max_total : N;
  li_max_chars_per_source : N;
  li_max_total_chars : N;
}.

Fixpoint check_limits (limits : ContextLimits) (t : Tally) (contexts : list ChatInjectedContext) : outcome string unit :=
  match contexts with
  | [] => Ok tt
  | context :: contexts' =>
      let source := ic_source_app_id context in
      let t' := counted context t in
      _ ← reject (li_max_per_source limits <? source_count t' source)%N "injected Chat context source limit reached";
      _ ← reject (li_max_chars_per_source limits <? source_chars t' source)%N
            "injected Chat context source size limit reached";
      _ ← reject (li_max_total_chars limits <? ty_total t')%N "injected Chat context total size limit reached";
      check_limits limits t' contexts'
  end.

Definition context_leb (left right : ChatInjectedContext) : bool :=
  not_greater (then_with (String.compare (ic_source_app_id left) (ic_source_app_id right))
                         (String.compare (ic_item_id left) (ic_item_id right))).

(** What [apply_injected_context_updates] makes of a thread. *)
Definition updated_contexts (updates : list ChatInjectedContextUpdate) (limits : ContextLimits) (thread : ChatThread) :
    outcome string ChatThread :=
  held ← apply_updates updates (ct_injected_contexts thread, ct_injected_context_tombstones thread);
  let '(contexts, tombstones) := held in
  _ ← reject (count_exceeds (li_max_total limits) contexts) "injected Chat context limit reached";
  _ ← reject (count_exceeds (li_max_total limits) tombstones) "injected Chat context tombstone limit reached";
  _ ← check_limits limits no_tally contexts;
  Ok (set_injected (sort_by context_leb contexts) tombstones thread).

(** ** Contributions *)

Definition kind_rank (kind : ChatContributionKind) : N :=
  match kind with TextSnapshot => 0 | ArtifactRef => 1 | ResourceRef => 2 | DraftProposal => 3 end.

(** The derived [Debug]. *)
Definition kind_debug (kind : ChatContributionKind) : string :=
  match kind with
  | TextSnapshot => "TextSnapshot"
  | ArtifactRef => "ArtifactRef"
  | ResourceRef => "ResourceRef"
  | DraftProposal => "DraftProposal"
  end.

Definition contribution_leb (left right : ChatContribution) : bool :=
  not_greater (then_with (String.compare (cc_source_app_id left) (cc_source_app_id right))
              (then_with (kind_rank (cc_kind left) ?= kind_rank (cc_kind right))%N
                         (String.compare (cc_item_id left) (cc_item_id right)))).

Definition upsert_into (contributions : list ChatContribution) (contribution : ChatContribution) : list ChatContribution :=
  default (contributions ++ [contribution])
    (replace_first (ContributionIdentity_matches (identity_of contribution)) (fun _ => contribution) contributions).

Fixpoint check_contributors (max_per_source : nat) (counts : gmap string nat) (contributions : list ChatContribution) :
    outcome string unit :=
  match contributions with
  | [] => Ok tt
  | contribution :: contributions' =>
      let count := default 0 (counts !! cc_source_app_id contribution) + 1 in
      _ ← reject (max_per_source <? count) "chat contributor limit reached";
      check_contributors max_per_source (<[cc_source_app_id contribution := count]> counts) contributions'
  end.

Definition updated_contributions (contributions : list ChatContribution) (max_per_source max_total : nat)
    (thread : ChatThread) : outcome string ChatThread :=
  let merged := foldl upsert_into (ct_contributions thread) contributions in
  _ ← reject (max_total <? length merged) "chat contributions limit reached";
  _ ← check_contributors max_per_source ∅ merged;
  Ok (set_contributions (sort_by contribution_leb merged) thread).

Definition without (identities : list ContributionIdentity) (contributions : list ChatContribution) : list ChatContribution :=
  List.filter (fun contribution => negb (existsb (fun identity => ContributionIdentity_matches identity contribution) identities))
    contributions.

(** ** The store *)

(** Serde for the document. *)
Class ChatCodec := {
  chat_to_vec_pretty : ChatStoreDocument -> string + string;
  chat_from_str : string -> string + ChatStoreDocument;
}.

(** A document that was written reads back. *)
Class ChatCodecLaws `{ChatCodec} : Prop := {
  chat_codec_roundtrip : ∀ document bytes,
    chat_to_vec_pretty document = inr bytes -> utf8_valid bytes = true /\ chat_from_str bytes = inr document;
}.

(** [ChatStore], the directory of its file and how often the clock was read. *)
Record ChatStore := { cs_path : Path; cs_document : ChatStoreDocument; cs_fs : FileSystem; cs_clock : nat }.

Definition set_document (document : ChatStoreDocument) (s : ChatStore) : ChatStore :=
  {| cs_path := cs_path s; cs_document := document; cs_fs := cs_fs s; cs_clock := cs_clock s |}.
Definition set_chat_fs (fs : FileSystem) (s : ChatStore) : ChatStore :=
  {| cs_path := cs_path s; cs_document := cs_document s; cs_fs := fs; cs_clock := cs_clock s |}.

Definition with_threads (threads : list ChatThread) (document : ChatStoreDocument) : ChatStoreDocument :=
  {| sd_version := sd_version document; sd_threads := threads |}.

(** The part of a document that is written. *)
Definition persisted_part (document : ChatStoreDocument) : ChatStoreDocument :=
  with_threads (List.filter should_persist (sd_threads document)) document.

Definition fresh_document : ChatStoreDocument := {| sd_version := CHAT_STORE_VERSION; sd_threads := [] |}.

Section store.
Context `{Libraries, Uuids, Chrono, ChatCodec}.

Abbreviation chat_op := (st ChatStore string).

Definition persist_chat (document : ChatStoreDocument) (path : Path) : st FileSystem AtomicJsonError unit :=
  persist_json_document chat_to_vec_pretty path document "chat storage" StandardAtomicFileWriter.

(** [ChatStore::validate_persisted]. *)
Definition validate_persisted (path : Path) (fs : FileSystem) : outcome string unit :=
  loaded ← (load_json_document chat_from_str path "chat storage" fs).1;
  match loaded with None => Ok tt | Some document => validate_document document end.

(** [ChatStore::new]. *)
Definition with_writer (path : Path) (fs : FileSystem) (clock : nat) : outcome string ChatStore :=
  let '(loaded, fs) := load_json_document chat_from_str path "chat storage" fs in
  loaded ← loaded;
  let document := default fresh_document loaded in
  _ ← validate_document document;
  let kept := persisted_part document in
  if bool_decide (length (sd_threads kept) = length (sd_threads document))
  then Ok {| cs_path := path; cs_document := kept; cs_fs := fs; cs_clock := clock |}
  else
    let '(r, fs) := persist_chat kept path fs in
    _ ← map_err into_message r;
    Ok {| cs_path := path; cs_document := kept; cs_fs := fs; cs_clock := clock |}.

(** [now_iso]. *)
Definition now_iso : chat_op string := fun s =>
  (Ok (now_at (cs_clock s)),
   {| cs_path := cs_path s; cs_document := cs_document s; cs_fs := cs_fs s; cs_clock := S (cs_clock s) |}).

Definition new_id (prefix : string) : chat_op string := fun s =>
  let '(uuid, fs) := draw_uuid (cs_fs s) in
  ((fun uuid => prefix +:+ "-" +:+ uuid) <$> uuid, set_chat_fs fs s).

Definition commit_chat (candidate : ChatStoreDocument) : chat_op unit := fun s =>
  let '(r, fs) := persist_chat (persisted_part candidate) (cs_path s) (cs_fs s) in
  let s := set_chat_fs fs s in
  match r with
  | Ok _ => (Ok tt, set_document candidate s)
  | Err error =>
      if is_indeterminate error then (Err (into_message error), set_document candidate s)
      else (Err (into_message error), s)
  | Panic msg => (Panic msg, s)
  end.

(** The frame of every mutation: on a copy of the document, find the thread, change it,
    stamp it, commit the copy. *)
Definition edit_thread (thread_id : string) (change : ChatThread -> chat_op ChatThread) : chat_op ChatThread :=
  document ← st_get cs_document;
  thread ← st_lift (get_thread document thread_id);
  changed ← change thread;
  now ← now_iso;
  let thread' := touched now changed in
  _ ← commit_chat (with_threads
        (default (sd_threads document)
           (replace_first (fun thread => bool_decide (ct_id thread = thread_id)) (fun _ => thread') (sd_threads document)))
        document);
  mret thread'.

(** ** Mutations *)

Definition create_thread_with_agent_engine (engine_ref : option string)
    (engine_receipt : option ChatAgentEngineReceipt) : chat_op ChatThread :=
  now ← now_iso;
  id ← new_id "thread";
  resource_id ← new_id "chat-thread";
  let thread := {|
    ct_id := id; ct_resource_id := resource_id; ct_revision := 0; ct_title := "New chat"; ct_created_at := now;
    ct_updated_at := now; ct_messages := []; ct_prompt_receipts := ∅; ct_contributions := [];
    ct_injected_contexts := []; ct_injected_context_tombstones := [];
    ct_setup := {| se_assistant_profile_ref := Some "chat/standard"; se_assistant_profile_receipt := None;
                   se_model_profile_ref := None; se_model_profile_receipt := None;
                   se_chat_agent_engine_ref := engine_ref; se_chat_agent_engine_receipt := engine_receipt;
                   se_chat_agent_engine_state := None |} |} in
  _ ← st_modify (fun s => set_document (with_threads (sd_threads (cs_document s) ++ [thread]) (cs_document s)) s);
  mret thread.

Definition create_thread : chat_op ChatThread := create_thread_with_agent_engine None None.

Definition rename_thread (thread_id title : string) : chat_op ChatThread :=
  let title := trim title in
  if bool_decide (title = EmptyString) then st_fail "chat title must not be empty"
  else edit_thread thread_id (fun thread => mret (set_title title thread)).

Definition delete_thread (thread_id : string) : chat_op unit :=
  document ← st_get cs_document;
  let kept := List.filter (fun thread => negb (bool_decide (ct_id thread = thread_id))) (sd_threads document) in
  if bool_decide (length kept = length (sd_threads document)) then st_fail (unknown_thread thread_id)
  else commit_chat (with_threads kept document).

Definition edit_setup (thread_id : string) (change : ChatThreadSetup -> ChatThreadSetup) : chat_op ChatThread :=
  edit_thread thread_id (fun thread => mret (set_setup (change (ct_setup thread)) thread)).

Definition set_assistant_profile (thread_id : string) (profile_ref : option string)
    (receipt : option ChatProfileReceipt) : chat_op ChatThread :=
  edit_setup thread_id (fun e => {|
    se_assistant_profile_ref := profile_ref; se_assistant_profile_receipt := receipt;
    se_model_profile_ref := se_model_profile_ref e; se_model_profile_receipt := se_model_profile_receipt e;
    se_chat_agent_engine_ref := se_chat_agent_engine_ref e;
    se_chat_agent_engine_receipt := se_chat_agent_engine_receipt e;
    se_chat_agent_engine_state := se_chat_agent_engine_state e |}).

Definition set_chat_agent_engine (thread_id : string) (engine_ref : option string)
    (receipt : option ChatAgentEngineReceipt) (state : option ChatAgentEngineState) : chat_op ChatThread :=
  edit_setup thread_id (fun e => {|
    se_assistant_profile_ref := se_assistant_profile_ref e;
    se_assistant_profile_receipt := se_assistant_profile_receipt e;
    se_model_profile_ref := se_model_profile_ref e; se_model_profile_receipt := se_model_profile_receipt e;
    se_chat_agent_engine_ref := engine_ref; se_chat_agent_engine_receipt := receipt;
    se_chat_agent_engine_state := state |}).

Definition set_model_profile (thread_id : string) (profile_ref : option string)
    (receipt : option ChatModelProfileReceipt) : chat_op ChatThread :=
  edit_setup thread_id (fun e => {|
    se_assistant_profile_ref := se_assistant_profile_ref e;
    se_assistant_profile_receipt := se_assistant_profile_receipt e;
    se_model_profile_ref := profile_ref; se_model_profile_receipt := receipt;
    se_chat_agent_engine_ref := se_chat_agent_engine_ref e;
    se_chat_agent_engine_receipt := se_chat_agent_engine_receipt e;
    se_chat_agent_engine_state := se_chat_agent_engine_state e |}).

Definition set_chat_agent_engine_state (thread_id : string) (state : option ChatAgentEngineState) : chat_op ChatThread :=
  document ← st_get cs_document;
  current ← st_lift (get_thread document thread_id);
  if bool_decide (se_chat_agent_engine_state (ct_setup current) = state) then mret current
  else edit_setup thread_id (fun e => {|
    se_assistant_profile_ref := se_assistant_profile_ref e;
    se_assistant_profile_receipt := se_assistant_profile_receipt e;
    se_model_profile_ref := se_model_profile_ref e; se_model_profile_receipt := se_model_profile_receipt e;
    se_chat_agent_engine_ref := se_chat_agent_engine_ref e;
    se_chat_agent_engine_receipt := se_chat_agent_engine_receipt e;
    se_chat_agent_engine_state := state |}).

Definition upsert_contributions (thread_id : string) (contributions : list ChatContribution)
    (max_per_source max_total : nat) : chat_op ChatThread :=
  edit_thread thread_id (fun thread => st_lift (updated_contributions contributions max_per_source max_total thread)).

Definition upsert_contribution (thread_id : string) (contribution : ChatContribution) : chat_op ChatThread :=
  upsert_contributions thread_id [contribution] 128 128.

Definition remove_contribution (thread_id : string) (identity : ContributionIdentity) : chat_op ChatThread :=
  edit_thread thread_id (fun thread =>
    let kept := without [identity] (ct_contributions thread) in
    st_lift (if bool_decide (length kept = length (ct_contributions thread))
             then Err ("unknown chat contribution: " +:+ ci_source_app_id identity +:+ "/"
                       +:+ kind_debug (ci_kind identity) +:+ "/" +:+ ci_item_id identity)
             else Ok (set_contributions kept thread))).

Definition remove_contributions (thread_id : string) (identities : list ContributionIdentity) : chat_op ChatThread :=
  edit_thread thread_id (fun thread => mret (set_contributions (without identities (ct_contributions thread)) thread)).

Definition apply_injected_context_updates (thread_id : string) (updates : list ChatInjectedContextUpdate)
    (limits : ContextLimits) : chat_op ChatThread :=
  edit_thread thread_id (fun thread => st_lift (updated_contexts updates limits thread)).

(** *** Messages *)

Definition append_message_view (thread_id : string) (message : ChatMessage) : chat_op ChatThread :=
  edit_thread thread_id (fun thread =>
    let titled :=
      if bool_decide (length (ct_messages thread) = 0) && bool_decide (ct_title thread = "New chat")
         && bool_decide (mg_role message = RoleUser)
      then set_title (title_from_first_message (mg_text message)) thread else thread in
    mret (set_messages (ct_messages thread ++ [message]) titled)).

Definition append_message (thread_id : string) (role : ChatMessageRole) (text : string) (run_id : option string)
    (artifact_ids : list string) (status : option ChatMessageStatus) : chat_op ChatThread :=
  id ← new_id "message";
  now ← now_iso;
  append_message_view thread_id {|
    mg_message_id := id; mg_role := role; mg_text := trim text; mg_reasoning := None; mg_run_id := run_id;
    mg_artifact_ids := artifact_ids; mg_status := status; mg_client_request_id := None; mg_created_at := now;
    mg_completed_at := None |}.

Definition append_user_message (thread_id text client_request_id : string) : chat_op ChatThread :=
  id ← new_id "message";
  now ← now_iso;
  append_message_view thread_id {|
    mg_message_id := id; mg_role := RoleUser; mg_text := trim text; mg_reasoning := None; mg_run_id := None;
    mg_artifact_ids := []; mg_status := Some MsgPending; mg_client_request_id := Some client_request_id;
    mg_created_at := now; mg_completed_at := None |}.

Definition answered (now : string) (request : ChatMessage) : ChatMessage :=
  {| mg_message_id := mg_message_id request; mg_role := mg_role request; mg_text := mg_text request;
     mg_reasoning := mg_reasoning request; mg_run_id := mg_run_id request;
     mg_artifact_ids := mg_artifact_ids request; mg_status := Some MsgCompleted;
     mg_client_request_id := mg_client_request_id request; mg_created_at := mg_created_at request;
     mg_completed_at := Some now |}.

(** A response gets the identity and the times it lacks. *)
Definition stamp_response (response : ChatMessage) : chat_op ChatMessage :=
  id ← (if bool_decide (mg_message_id response = EmptyString) then new_id "message" else mret (mg_message_id response));
  created_at ← (if bool_decide (mg_created_at response = EmptyString) then now_iso else mret (mg_created_at response));
  mret {| mg_message_id := id; mg_role := mg_role response; mg_text := mg_text response;
          mg_reasoning := mg_reasoning response; mg_run_id := mg_run_id response;
          mg_artifact_ids := mg_artifact_ids response; mg_status := mg_status response;
          mg_client_request_id := mg_client_request_id response; mg_created_at := created_at;
          mg_completed_at := Some (default created_at (mg_completed_at response)) |}.

Definition receipt_created (now : string) (r : ChatCompositionReceipt) : ChatCompositionReceipt :=
  {| cr_system_prompt_digest := cr_system_prompt_digest r; cr_assistant_profile_ref := cr_assistant_profile_ref r;
     cr_assistant_profile_digest := cr_assistant_profile_digest r;
     cr_enabled_skill_digests := cr_enabled_skill_digests r; cr_context_block_digests := cr_context_block_digests r;
     cr_attachment_refs := cr_attachment_refs r; cr_available_capability_refs := cr_available_capability_refs r;
     cr_provider_profile_ref := cr_provider_profile_ref r; cr_model_profile := cr_model_profile r;
     cr_agent_engine_ref := cr_agent_engine_ref r; cr_agent_engine_version := cr_agent_engine_version r;
     cr_agent_engine_features := cr_agent_engine_features r;
     cr_assistant_capability_refs := cr_assistant_capability_refs r; cr_created_at := now;
     cr_system_prompt := cr_system_prompt r; cr_layers := cr_layers r; cr_injected_context := cr_injected_context r |}.

Definition is_request (client_request_id : string) (message : ChatMessage) : bool :=
  bool_decide (mg_client_request_id message = Some client_request_id).

(** What completing a request makes of its thread. *)
Definition completed_thread (client_request_id : string) (responses : list ChatMessage)
    (prompt_receipt : option ChatCompositionReceipt) (consumed : list ContributionIdentity) (thread : ChatThread) :
    chat_op ChatThread :=
  request ← st_lift (ok_or (request_of client_request_id (ct_messages thread))
                       ("unknown chat request: " +:+ client_request_id));
  _ ← st_lift (reject (negb (bool_decide (mg_status request = Some MsgPending)))
                 ("chat request already completed: " +:+ client_request_id));
  now ← now_iso;
  responses ← st_map stamp_response responses;
  let messages := default (ct_messages thread)
    (replace_first (is_request client_request_id) (answered now) (ct_messages thread)) in
  let thread := set_messages (messages ++ responses) thread in
  match prompt_receipt with
  | None => mret thread
  | Some receipt =>
      now ← now_iso;
      mret (set_contributions (without consumed (ct_contributions thread))
              (set_receipts (<[client_request_id := receipt_created now receipt]> (ct_prompt_receipts thread)) thread))
  end.

Definition complete_request_with_prompt_receipt_and_consumed_contributions (thread_id client_request_id : string)
    (responses : list ChatMessage) (prompt_receipt : option ChatCompositionReceipt)
    (consumed_contributions : list ContributionIdentity) : chat_op ChatThread :=
  edit_thread thread_id (completed_thread client_request_id responses prompt_receipt consumed_contributions).

Definition complete_request_with_prompt_receipt (thread_id client_request_id : string) (responses : list ChatMessage)
    (prompt_receipt : option ChatCompositionReceipt) : chat_op ChatThread :=
  complete_request_with_prompt_receipt_and_consumed_contributions thread_id client_request_id responses prompt_receipt [].

Definition complete_request (thread_id client_request_id : string) (responses : list ChatMessage) : chat_op ChatThread :=
  complete_request_with_prompt_receipt thread_id client_request_id responses None.
End store.
