(* ===== verification/ChatStoreFacts.v ===== *)
(** * Facts about the chat store

    The specification of the checks of a loaded document, the order of injected contexts,
    the pages of a transcript, and the agreement of memory and file. *)

From S2P Require Import Prelude RustStd RustText Json Types Errors Platform AtomicJson PackageChecks ChatModelProfiles ChatStore.

(** ** Counting contexts *)

Definition contexts_of (source : string) (contexts : list ChatInjectedContext) : list ChatInjectedContext :=
  List.filter (fun context => bool_decide (ic_source_app_id context = source)) contexts.
Definition context_chars (context : ChatInjectedContext) : N := N.of_nat (chars_count (ic_content context)).
Definition chars_of (contexts : list ChatInjectedContext) : N := foldr (fun c n => context_chars c + n)%N 0%N contexts.

(** Counting does not depend on the order. *)
#[export] Instance chars_of_perm : Proper ((≡ₚ) ==> (=)) chars_of.
Proof. induction 1; simpl; lia. Qed.

#[export] Instance contexts_of_perm source : Proper ((≡ₚ) ==> (≡ₚ)) (contexts_of source).
Proof. unfold contexts_of. induction 1 as [|x l l' _ IH|x y l|]; simpl; [done| | |by etrans].
  - case_bool_decide; [by constructor|done].
  - do 2 case_bool_decide; try done. constructor.
Qed.

Lemma elem_of_contexts_of source c l : c ∈ contexts_of source l <-> c ∈ l /\ ic_source_app_id c = source.
Proof. unfold contexts_of. by rewrite list_elem_of_In, List.filter_In, <- list_elem_of_In, bool_decide_eq_true. Qed.

(** The tally after more contexts. *)
Definition tallied (t : Tally) (contexts : list ChatInjectedContext) : Tally :=
  foldl (fun t context => counted context t) t contexts.

Lemma source_count_counted c t s :
  source_count (counted c t) s =
  (source_count t s + if bool_decide (ic_source_app_id c = s) then 1 else 0)%N.
Proof.
  unfold source_count, counted. simpl. case_bool_decide as E.
  - subst s. by rewrite lookup_insert_eq.
  - rewrite lookup_insert_ne by done. lia.
Qed.

Lemma source_chars_counted c t s :
  source_chars (counted c t) s =
  if bool_decide (ic_source_app_id c = s) then saturating_add (source_chars t s) (context_chars c) else source_chars t s.
Proof.
  unfold source_chars, counted. simpl. case_bool_decide as E.
  - subst s. by rewrite lookup_insert_eq.
  - by rewrite lookup_insert_ne.
Qed.

Lemma source_count_tallied t l s :
  source_count (tallied t l) s = (source_count t s + N.of_nat (length (contexts_of s l)))%N.
Proof.
  revert t. induction l as [|c l IH]; intros t; simpl; [lia|]. rewrite IH, source_count_counted.
  case_bool_decide; simpl; lia.
Qed.

Lemma source_chars_tallied t l s :
  (source_chars t s <= usize_max)%N ->
  source_chars (tallied t l) s = saturating_add (source_chars t s) (chars_of (contexts_of s l)).
Proof.
  revert t. induction l as [|c l IH]; intros t Ht; simpl; [unfold saturating_add; lia|].
  rewrite IH; rewrite source_chars_counted; unfold saturating_add; case_bool_decide; simpl; lia.
Qed.

Lemma total_tallied t l :
  (ty_total t <= usize_max)%N -> ty_total (tallied t l) = saturating_add (ty_total t) (chars_of l).
Proof.
  revert t. induction l as [|c l IH]; intros t Ht; simpl; [unfold saturating_add; lia|].
  rewrite IH; simpl; unfold saturating_add; fold (context_chars c); lia.
Qed.

(** A tally of machine words. *)
Definition bounded (t : Tally) : Prop := (∀ s, source_chars t s <= usize_max)%N /\ (ty_total t <= usize_max)%N.

Lemma counted_bounded c t : bounded t -> bounded (counted c t).
Proof.
  intros [Hs Ht]. split; [intros s; rewrite source_chars_counted; specialize (Hs s)|simpl];
    unfold saturating_add; [case_bool_decide|]; lia.
Qed.

Lemma no_tally_bounded : bounded no_tally.
Proof. split; [intros s; unfold source_chars; simpl; rewrite lookup_empty; simpl|simpl]; unfold usize_max, u64_modulus; lia. Qed.

(** What a list of contexts may hold. *)
Definition within (limits : ContextLimits) (l : list ChatInjectedContext) : Prop :=
  (∀ s, N.of_nat (length (contexts_of s l)) <= li_max_per_source limits /\
        N.min (chars_of (contexts_of s l)) usize_max <= li_max_chars_per_source limits)%N /\
  (N.min (chars_of l) usize_max <= li_max_total_chars limits)%N.

(** The tally is within the limits for a source. *)
Definition at_limits (limits : ContextLimits) (s : string) (t : Tally) : Prop :=
  (source_count t s <= li_max_per_source limits /\ source_chars t s <= li_max_chars_per_source limits /\
   ty_total t <= li_max_total_chars limits)%N.

(** The checks of a loop that counts. *)
Fixpoint checked (limits : ContextLimits) (t : Tally) (l : list ChatInjectedContext) : Prop :=
  match l with
  | [] => True
  | c :: l' => at_limits limits (ic_source_app_id c) (counted c t) /\ checked limits (counted c t) l'
  end.

Lemma checked_tallied limits t l :
  bounded t ->
  checked limits t l <-> l = [] \/ ∀ c, c ∈ l -> at_limits limits (ic_source_app_id c) (tallied t l).
Proof.
  revert t. induction l as [|c l IH]; intros t Ht; simpl; [naive_solver|].
  rewrite IH by by apply counted_bounded. set (t' := counted c t).
  assert (bounded t') as Ht' by by apply counted_bounded.
  assert (∀ s, at_limits limits s (tallied t' l) -> at_limits limits s t') as Hmono.
  { intros s. unfold at_limits. rewrite source_count_tallied, source_chars_tallied, total_tallied by apply Ht'.
    unfold saturating_add. destruct Ht' as [Hs Htot]. specialize (Hs s). lia. }
  split.
  - intros [Hc Hor]. right. intros d Hd.
    destruct (decide (l = [])) as [->|Hne]; [apply list_elem_of_singleton in Hd as ->; done|].
    destruct Hor as [?|Hall]; [done|]. apply elem_of_cons in Hd as [->|Hd]; [|by apply Hall].
    destruct l as [|e l0]; [done|]. pose proof (Hall e (list_elem_of_here _ _)) as (_ & _ & Htot).
    destruct (contexts_of (ic_source_app_id c) (e :: l0)) as [|d ds] eqn:Hof.
    + destruct Hc as (Hn & Hch & _). unfold at_limits. rewrite source_count_tallied, source_chars_tallied by apply Ht'.
      rewrite Hof. simpl length. simpl chars_of. unfold saturating_add. split_and!; [lia|lia|exact Htot].
    + assert (d ∈ contexts_of (ic_source_app_id c) (e :: l0)) as [Hin Hd]%elem_of_contexts_of by (rewrite Hof; left).
      rewrite <- Hd. by apply Hall.
  - intros [?|Hall]; [done|]. split; [apply Hmono, Hall; left|].
    destruct l as [|e l0]; [by left|]. right. intros d Hd. apply Hall. by right.
Qed.

(** A pass over the contexts succeeds exactly on those within the limits. *)
Lemma checked_within limits l : checked limits no_tally l <-> within limits l.
Proof.
  rewrite checked_tallied by apply no_tally_bounded. unfold at_limits, within.
  assert (∀ s, source_count (tallied no_tally l) s = N.of_nat (length (contexts_of s l))) as Hcount.
  { intros s. rewrite source_count_tallied. unfold source_count. simpl. by rewrite lookup_empty. }
  assert (∀ s, source_chars (tallied no_tally l) s = N.min (chars_of (contexts_of s l)) usize_max) as Hchars.
  { intros s. rewrite source_chars_tallied by apply no_tally_bounded. unfold source_chars. simpl. by rewrite lookup_empty. }
  assert (ty_total (tallied no_tally l) = N.min (chars_of l) usize_max) as Htot
    by (rewrite total_tallied by apply no_tally_bounded; done).
  split.
  - intros [->|Hall]; [simpl; split; [intros s|]; lia|].
    assert (∀ s, contexts_of s l = [] \/ ∃ c, c ∈ l /\ ic_source_app_id c = s) as Hcase.
    { intros s. destruct (contexts_of s l) as [|c cs] eqn:E; [by left|right]. exists c.
      apply elem_of_contexts_of. rewrite E. left. }
    split.
    + intros s. destruct (Hcase s) as [->|(c & Hc & <-)]; [simpl; lia|].
      specialize (Hall c Hc). rewrite Hcount, Hchars in Hall. tauto.
    + destruct l as [|c l]; [simpl; lia|]. rewrite <- Htot. apply (Hall c). left.
  - intros [Hs Hl]. right. intros c _. rewrite Hcount, Hchars, Htot. specialize (Hs (ic_source_app_id c)). tauto.
Qed.

Lemma within_perm limits l l' : l ≡ₚ l' -> within limits l -> within limits l'.
Proof.
  intros Hp [Hs Ht]. split; [intros s; specialize (Hs s); rewrite <- !Hp|rewrite <- Hp]; done.
Qed.

Lemma check_limits_Ok limits l : check_limits limits no_tally l = Ok tt <-> within limits l.
Proof.
  rewrite <- checked_within. generalize no_tally. induction l as [|c l IH]; intros t; simpl; [done|].
  rewrite !bind_unit_Ok, !reject_Ok, !N.ltb_ge, IH. unfold at_limits. tauto.
Qed.

Definition stored_context_limits : ContextLimits := {|
  li_max_per_source := MAX_INJECTED_CONTEXTS_PER_SOURCE; li_max_total := MAX_INJECTED_CONTEXTS_PER_THREAD;
  li_max_chars_per_source := MAX_INJECTED_CONTEXT_CHARS_PER_SOURCE;
  li_max_total_chars := MAX_INJECTED_CONTEXT_CHARS_PER_THREAD |}.

Lemma stored_limits_Ok s t : stored_limits s t = Ok tt <-> at_limits stored_context_limits s t.
Proof. unfold stored_limits. rewrite !bind_unit_Ok, !reject_Ok, !N.ltb_ge. unfold at_limits. tauto. Qed.

(** ** What a valid document is *)

Section validity.
Context `{Libraries, Chrono}.

Definition context_identity (c : ChatInjectedContext) : string * string := (ic_source_app_id c, ic_item_id c).
Definition tombstone_identity (t : ChatInjectedContextTombstone) : string * string := (tb_source_app_id t, tb_item_id t).

(** A context by itself. *)
Definition context_ok (c : ChatInjectedContext) : Prop :=
  validate_context_identity c = Ok tt /\ validate_context c = Ok tt.

(** Live contexts and tombstones that fit together. *)
Record held_ok (held : injected) : Prop := {
  ho_contexts : ∀ c, c ∈ held.1 -> context_ok c;
  ho_distinct : NoDup (context_identity <$> held.1);
  ho_tombstones : ∀ t, t ∈ held.2 -> tb_source_app_id t <> EmptyString /\ tb_item_id t <> EmptyString;
  ho_tombstones_distinct : NoDup (tombstone_identity <$> held.2);
  ho_disjoint : ∀ t, t ∈ held.2 -> tombstone_identity t ∉ context_identity <$> held.1;
}.

Definition contexts_ok (thread : ChatThread) : Prop :=
  held_ok (ct_injected_contexts thread, ct_injected_context_tombstones thread) /\
  within stored_context_limits (ct_injected_contexts thread) /\
  (N.of_nat (length (ct_injected_contexts thread)) <= MAX_INJECTED_CONTEXTS_PER_THREAD)%N /\
  (N.of_nat (length (ct_injected_context_tombstones thread)) <= MAX_INJECTED_CONTEXTS_PER_THREAD)%N.

Lemma not_in_union `{Countable K} (x y : K) (ids : gset K) : x ∉ {[y]} ∪ ids <-> x <> y /\ (x ∉ ids).
Proof. by rewrite not_elem_of_union, not_elem_of_singleton. Qed.

Lemma validate_contexts_Ok ids t l ids' :
  validate_contexts ids t l = Ok ids' <->
  (∀ c, c ∈ l -> context_ok c) /\ NoDup (context_identity <$> l) /\ (∀ c, c ∈ l -> context_identity c ∉ ids) /\
  checked stored_context_limits t l /\ ids' = list_to_set (context_identity <$> l) ∪ ids.
Proof.
  revert ids t. induction l as [|c l IH]; intros ids t; simpl.
  - rewrite NoDup_nil, (left_id_L ∅ (∪)). split; [intros [= ->]|intros (_ & _ & _ & _ & ->); done].
    split_and!; try done; intros c Hc; inversion Hc.
  - rewrite !bind_unit_Ok, reject_Ok, bool_decide_eq_false, stored_limits_Ok, IH, NoDup_cons.
    change (ic_source_app_id c, ic_item_id c) with (context_identity c).
    assert (list_to_set (context_identity <$> l) ∪ ({[context_identity c]} ∪ ids)
            = {[context_identity c]} ∪ list_to_set (context_identity <$> l) ∪ ids) as Hset
      by (rewrite !(assoc_L (∪)); f_equal; apply (comm_L (∪))).
    setoid_rewrite not_in_union. rewrite Hset. split.
    + intros (Hi & Hnew & Hv & Hl & Hall & Hnd & Hids & Hck & ->). split_and!; try done.
      * intros d [->|Hd]%elem_of_cons; [done|by apply Hall].
      * intros (d & Hid & Hd)%list_elem_of_fmap. by destruct (Hids d Hd).
      * intros d [->|Hd]%elem_of_cons; [done|]. by destruct (Hids d Hd).
    + intros (Hall & [Hnew Hnd] & Hids & [Hl Hck] & ->).
      destruct (Hall c (list_elem_of_here _ _)) as [Hi Hv].
      split_and!; try done.
      * apply Hids. left.
      * intros d Hd. apply Hall. by right.
      * intros d Hd. split; [|apply Hids; by right]. intros E. apply Hnew. rewrite <- E. by apply list_elem_of_fmap_2.
Qed.

Lemma validate_tombstones_Ok ids seen l :
  validate_tombstones ids seen l = Ok tt <->
  (∀ t, t ∈ l -> tb_source_app_id t <> EmptyString /\ tb_item_id t <> EmptyString) /\
  NoDup (tombstone_identity <$> l) /\ (∀ t, t ∈ l -> tombstone_identity t ∉ ids) /\
  (∀ t, t ∈ l -> tombstone_identity t ∉ seen).
Proof.
  revert seen. induction l as [|t l IH]; intros seen; simpl.
  - rewrite NoDup_nil. split; [intros _|done]. split_and!; try done; intros t Ht; inversion Ht.
  - rewrite !bind_unit_Ok, !reject_Ok, orb_false_iff, !bool_decide_eq_false, IH, NoDup_cons.
    change (tb_source_app_id t, tb_item_id t) with (tombstone_identity t). setoid_rewrite not_in_union. split.
    + intros ([Hs Hi] & Hids & Hseen & Hall & Hnd & Hall' & Hseen'). split_and!; try done.
      * intros d [->|Hd]%elem_of_cons; [done|by apply Hall].
      * intros (d & Hid & Hd)%list_elem_of_fmap. by destruct (Hseen' d Hd).
      * intros d [->|Hd]%elem_of_cons; [done|by apply Hall'].
      * intros d [->|Hd]%elem_of_cons; [done|]. by destruct (Hseen' d Hd).
    + intros (Hall & [Hnew Hnd] & Hids & Hseen). destruct (Hall t (list_elem_of_here _ _)) as [Hs Hi].
      split_and!; try done.
      * apply Hids. left.
      * apply Hseen. left.
      * intros d Hd. apply Hall. by right.
      * intros d Hd. apply Hids. by right.
      * intros d Hd. split; [|apply Hseen; by right]. intros E. apply Hnew. rewrite <- E. by apply list_elem_of_fmap_2.
Qed.

Lemma count_exceeds_false {A} max (l : list A) :
  count_exceeds max l = false <-> (N.of_nat (length l) <= max)%N.
Proof. apply N.ltb_ge. Qed.

Lemma held_checks_Ok contexts tombstones :
  (∃ ids, validate_contexts ∅ no_tally contexts = Ok ids /\ validate_tombstones ids ∅ tombstones = Ok tt) <->
  held_ok (contexts, tombstones) /\ within stored_context_limits contexts.
Proof.
  split.
  - intros (ids & (Hall & Hnd & _ & Hck & ->)%validate_contexts_Ok & (Ht & Htn & Hd & _)%validate_tombstones_Ok).
    split; [|by apply checked_within]. constructor; try done. simpl. intros t Hin Hc. apply (Hd t Hin).
    by apply elem_of_union_l, elem_of_list_to_set.
  - intros [[Hall Hnd Ht Htn Hd] Hw]. eexists. split.
    + apply validate_contexts_Ok. split_and!; try done. by apply checked_within.
    + apply validate_tombstones_Ok. simpl in *. split_and!; try done.
      intros t Hin. specialize (Hd t Hin). by rewrite (right_id_L ∅ (∪)), elem_of_list_to_set.
Qed.

Lemma validate_loaded_Ok thread : validate_loaded_injected_contexts thread = Ok tt <-> contexts_ok thread.
Proof.
  unfold validate_loaded_injected_contexts. rewrite !bind_unit_Ok, !reject_Ok, !count_exceeds_false. unfold contexts_ok.
  split.
  - intros (H1 & H2 & (ids & Hv & Hrest)%bind_Ok_inv).
    destruct (proj1 (held_checks_Ok _ _) (ex_intro _ ids (conj Hv Hrest))) as [Hok Hw]. done.
  - intros (Hok & Hw & H1 & H2). split; [done|]. split; [done|].
    destruct (proj2 (held_checks_Ok _ _) (conj Hok Hw)) as (ids & -> & Ht). done.
Qed.

Definition document_ok (document : ChatStoreDocument) : Prop :=
  sd_version document = CHAT_STORE_VERSION /\
  (∀ thread, thread ∈ sd_threads document ->
     ct_id thread <> EmptyString /\ ct_resource_id thread <> EmptyString /\ contexts_ok thread) /\
  NoDup (ct_id <$> sd_threads document) /\ NoDup (ct_resource_id <$> sd_threads document).

Lemma validate_threads_Ok ids resources l :
  validate_threads ids resources l = Ok tt <->
  (∀ t, t ∈ l -> ct_id t <> EmptyString /\ ct_resource_id t <> EmptyString /\ contexts_ok t) /\
  NoDup (ct_id <$> l) /\ NoDup (ct_resource_id <$> l) /\
  (∀ t, t ∈ l -> (ct_id t ∉ ids) /\ (ct_resource_id t ∉ resources)).
Proof.
  revert ids resources. induction l as [|t l IH]; intros ids resources; simpl.
  - rewrite !NoDup_nil. split; [intros _|done]. split_and!; try done; intros t Ht; inversion Ht.
  - rewrite !bind_unit_Ok, !reject_Ok, !bool_decide_eq_false, validate_loaded_Ok, IH, !NoDup_cons.
    setoid_rewrite not_in_union. split.
    + intros (Hid & Hnew & Hr & Hrnew & Hc & Hall & Hnd & Hrnd & Hfresh). split_and!; try done.
      * intros d [->|Hd]%elem_of_cons; [done|by apply Hall].
      * intros (d & Hdid & Hd)%list_elem_of_fmap. destruct (Hfresh d Hd) as [[? _] _]. done.
      * intros (d & Hdid & Hd)%list_elem_of_fmap. destruct (Hfresh d Hd) as [_ [? _]]. done.
      * intros d [->|Hd]%elem_of_cons; [done|]. destruct (Hfresh d Hd) as [[_ ?] [_ ?]]. done.
    + intros (Hall & [Hnew Hnd] & [Hrnew Hrnd] & Hfresh).
      destruct (Hall t (list_elem_of_here _ _)) as (Hid & Hr & Hc).
      destruct (Hfresh t (list_elem_of_here _ _)) as [Hf1 Hf2]. split_and!; try done.
      * intros d Hd. apply Hall. by right.
      * intros d Hd. destruct (Hfresh d (list_elem_of_further _ _ _ Hd)) as [H1 H2].
        split; (split; [|done]); intros E; [apply Hnew|apply Hrnew]; rewrite <- E; by apply list_elem_of_fmap_2.
Qed.

Lemma validate_document_Ok document : validate_document document = Ok tt <-> document_ok document.
Proof.
  unfold validate_document, document_ok. rewrite bind_unit_Ok, reject_Ok, negb_false_iff, N.eqb_eq, validate_threads_Ok.
  split; [tauto|]. intros (Hv & Hall & Hi & Hr). by split_and!.
Qed.
End validity.

(** ** Lists with keys *)

Section predicates.
Context {A : Type}.
Implicit Types (p q : A -> bool) (l : list A).

Lemma find_ext p q l : (∀ x, p x = q x) -> List.find p l = List.find q l.
Proof. intros Hpq. induction l as [|x l IH]; simpl; [done|]. by rewrite Hpq, IH. Qed.

Lemma filter_ext p q l : (∀ x, p x = q x) -> List.filter p l = List.filter q l.
Proof. intros Hpq. induction l as [|x l IH]; simpl; [done|]. by rewrite Hpq, IH. Qed.

Lemma replace_first_ext p q f l : (∀ x, p x = q x) -> replace_first p f l = replace_first q f l.
Proof. intros Hpq. induction l as [|x l IH]; simpl; [done|]. by rewrite Hpq, IH. Qed.

Lemma filter_sub p l x : x ∈ List.filter p l -> x ∈ l.
Proof. rewrite !list_elem_of_In, List.filter_In. tauto. Qed.

End predicates.

Section keyed.
Context {A K : Type} `{EqDecision K} (key : A -> K).

Definition find_key (k : K) (l : list A) : option A := List.find (fun x => bool_decide (key x = k)) l.

Lemma find_key_Some k l x : find_key k l = Some x -> x ∈ l /\ key x = k.
Proof. by intros [Hin Hk%bool_decide_eq_true]%find_Some_elem. Qed.

Lemma find_key_elem k l : k ∈ key <$> l <-> is_Some (find_key k l).
Proof.
  split.
  - intros (x & -> & Hx)%list_elem_of_fmap. destruct (find_key (key x) l) as [y|] eqn:E; [done|].
    apply (proj1 (find_None_elem _ _) E) in Hx. by rewrite bool_decide_eq_true_2 in Hx.
  - intros [x [Hx <-]%find_key_Some]. by apply list_elem_of_fmap_2.
Qed.

Lemma find_key_None k l : k ∉ key <$> l <-> find_key k l = None.
Proof. rewrite find_key_elem. symmetry. apply eq_None_not_Some. Qed.

Lemma find_key_unique k l x : NoDup (key <$> l) -> x ∈ l -> key x = k -> find_key k l = Some x.
Proof.
  intros Hnd Hx <-. induction l as [|y l IH]; [inversion Hx|]. simpl in Hnd. apply NoDup_cons in Hnd as [Hy Hnd].
  unfold find_key. simpl. apply elem_of_cons in Hx as [->|Hx]; [by rewrite bool_decide_eq_true_2|].
  rewrite bool_decide_eq_false_2; [by apply IH|]. intros E. apply Hy. rewrite E. by apply list_elem_of_fmap_2.
Qed.

Lemma find_key_snoc k l x :
  find_key k (l ++ [x]) = match find_key k l with Some y => Some y | None => if decide (key x = k) then Some x else None end.
Proof.
  unfold find_key. induction l as [|y l IH]; simpl; [by case_bool_decide; case_decide|]. by case_bool_decide.
Qed.

Lemma find_key_remove k k' l :
  find_key k' (List.filter (fun x => negb (bool_decide (key x = k))) l) = if decide (k' = k) then None else find_key k' l.
Proof.
  unfold find_key. induction l as [|y l IH]; simpl; [by case_decide|].
  destruct (decide (key y = k)) as [<-|Hne].
  - rewrite (bool_decide_eq_true_2 (key y = key y)) by done. simpl. rewrite IH. case_decide; [done|].
    by rewrite bool_decide_eq_false_2.
  - rewrite (bool_decide_eq_false_2 (key y = k)) by done. simpl. rewrite IH.
    case_bool_decide; [|done]. rewrite decide_False; [done|congruence].
Qed.

Lemma NoDup_key_filter (p : A -> bool) l : NoDup (key <$> l) -> NoDup (key <$> List.filter p l).
Proof.
  induction l as [|x l IH]; simpl; [done|]. rewrite NoDup_cons. intros [Hx Hl]. destruct (p x); [|by apply IH].
  csimpl. apply NoDup_cons. split; [|by apply IH]. intros (y & E & Hy%filter_sub)%list_elem_of_fmap.
  apply Hx. rewrite E. by apply list_elem_of_fmap_2.
Qed.

Lemma replace_key k f l :
  (∀ x, key x = k -> key (f x) = k) ->
  match find_key k l with
  | None => replace_first (fun x => bool_decide (key x = k)) f l = None
  | Some x => ∃ l', replace_first (fun x => bool_decide (key x = k)) f l = Some l' /\ key <$> l' = key <$> l /\
      (∀ k', find_key k' l' = if decide (k' = k) then Some (f x) else find_key k' l) /\
      (∀ y, y ∈ l' -> y = f x \/ y ∈ l)
  end.
Proof.
  intros Hf. unfold find_key. induction l as [|y l IH]; simpl; [done|]. destruct (decide (key y = k)) as [Hy|Hne].
  - rewrite bool_decide_eq_true_2 by done. eexists. split; [done|]. split; [csimpl; by rewrite Hf, Hy|]. split.
    + intros k'. simpl. rewrite Hf, Hy by done. case_bool_decide; case_decide; naive_solver.
    + intros z [->|Hz]%elem_of_cons; [by left|]. right. by right.
  - rewrite (bool_decide_eq_false_2 (key y = k)) by done. destruct (List.find _ l) as [x|]; [|by rewrite IH].
    destruct IH as (l' & -> & Hkeys & Hfind & Hel). eexists. split; [done|]. split; [csimpl; by rewrite Hkeys|]. split.
    + intros k'. simpl. rewrite Hfind. case_bool_decide; case_decide; naive_solver.
    + intros z [->|Hz]%elem_of_cons; [right; by left|]. destruct (Hel z Hz); [by left|right; by right].
Qed.
End keyed.

(** ** The order of injected contexts *)

Inductive ContextStatus := Never | Live (revision : N) (digest : string) | Gone (revision : N).

(** What a thread knows of a context. *)
Definition context_status (held : injected) (identity : string * string) : ContextStatus :=
  match find_key context_identity identity held.1 with
  | Some context => Live (ic_revision context) (ic_content_digest context)
  | None =>
      match find_key tombstone_identity identity held.2 with
      | Some tombstone => Gone (tb_revision tombstone)
      | None => Never
      end
  end.

(** The order in which a context may change: revisions do not fall, a revision has one
    content, and what was removed comes back only with a higher revision. *)
Definition later (a b : ContextStatus) : Prop :=
  match a, b with
  | Never, _ => True
  | Live r d, Live r' d' => (r < r')%N \/ (r = r' /\ d = d')
  | Live r _, Gone r' => (r <= r')%N
  | Gone r, Live r' _ => (r < r')%N
  | Gone r, Gone r' => (r <= r')%N
  | _, Never => False
  end.

#[export] Instance later_preorder : PreOrder later.
Proof.
  split.
  - intros [|r d|r]; simpl; [done|by right|lia].
  - intros [|r d|r] [|r' d'|r'] [|r'' d''|r'']; simpl; try tauto; try lia.
    intros [?|[-> ->]] [?|[-> ->]]; [left; lia|by left|by left|by right].
Qed.

Lemma same_context_key source item c : same_context source item c = bool_decide (context_identity c = (source, item)).
Proof. unfold same_context, context_identity. do 3 case_bool_decide; naive_solver. Qed.

Lemma same_tombstone_key source item t : same_tombstone source item t = bool_decide (tombstone_identity t = (source, item)).
Proof. unfold same_tombstone, tombstone_identity. do 3 case_bool_decide; naive_solver. Qed.

Lemma upsert_context_run context held :
  let id := context_identity context in
  upsert_context context held =
  (_ ← match find_key tombstone_identity id held.2 with
       | Some tombstone => reject (ic_revision context <=? tb_revision tombstone)%N
                             ("stale injected context revision for " +:+ pair_label id.1 id.2)
       | None => Ok tt
       end;
   contexts' ← match find_key context_identity id held.1 with
               | Some existing =>
                   _ ← reject (ic_revision context <? ic_revision existing)%N
                         ("stale injected context revision for " +:+ pair_label id.1 id.2);
                   _ ← reject ((ic_revision context =? ic_revision existing)%N
                               && negb (bool_decide (ic_content_digest context = ic_content_digest existing)))
                         ("injected context revision changed content for " +:+ pair_label id.1 id.2);
                   Ok (default held.1 (replace_first (fun c => bool_decide (context_identity c = id)) (fun _ => context) held.1))
               | None => Ok (held.1 ++ [context])
               end;
   Ok (contexts', List.filter (fun t => negb (bool_decide (tombstone_identity t = id))) held.2)).
Proof.
  destruct held as [contexts tombstones]. unfold upsert_context, find_key. simpl.
  rewrite (find_ext _ _ _ (same_tombstone_key _ _)), (find_ext _ _ _ (same_context_key _ _)).
  rewrite (replace_first_ext _ _ _ _ (same_context_key _ _)).
  rewrite (filter_ext _ (fun t => negb (bool_decide (tombstone_identity t = context_identity context))));
    [done|]. intros t. by rewrite same_tombstone_key.
Qed.

Lemma remove_context_run source item revision held :
  let id := (source, item) in
  let raised tombstone :=
    {| tb_source_app_id := tb_source_app_id tombstone; tb_item_id := tb_item_id tombstone;
       tb_revision := N.max (tb_revision tombstone) revision |} in
  remove_context source item revision held =
  (_ ← match find_key context_identity id held.1 with
       | Some existing => reject (revision <? ic_revision existing)%N
                            ("stale injected context revision for " +:+ pair_label source item)
       | None => Ok tt
       end;
   Ok (List.filter (fun c => negb (bool_decide (context_identity c = id))) held.1,
       default (held.2 ++ [{| tb_source_app_id := source; tb_item_id := item; tb_revision := revision |}])
         (replace_first (fun t => bool_decide (tombstone_identity t = id)) raised held.2))).
Proof.
  destruct held as [contexts tombstones]. unfold remove_context, find_key. simpl.
  rewrite (find_ext _ _ _ (same_context_key _ _)), (replace_first_ext _ _ _ _ (same_tombstone_key _ _)).
  rewrite (filter_ext _ (fun c => negb (bool_decide (context_identity c = (source, item))))); [done|].
  intros c. by rewrite same_context_key.
Qed.

(** What an accepted update asked for, and what it did. *)
Definition update_identity (u : ChatInjectedContextUpdate) : string * string :=
  match u with ContextUpsert c => context_identity c | ContextRemove source item _ => (source, item) end.

Section updates.
Context `{Libraries, Chrono}.

Definition update_ok (u : ChatInjectedContextUpdate) : Prop :=
  match u with
  | ContextUpsert c => context_ok c
  | ContextRemove source item _ => source <> EmptyString /\ item <> EmptyString
  end.

(** An accepted upsert: the context replaces the one of its identity, or is added. *)
Lemma upsert_context_Ok context held held' :
  upsert_context context held = Ok held' ->
  let id := context_identity context in
  (match context_status held id with
   | Never => True
   | Live r d => later (Live r d) (Live (ic_revision context) (ic_content_digest context))
   | Gone r => (r < ic_revision context)%N
   end) /\
  (∀ id', find_key context_identity id' held'.1 = if decide (id' = id) then Some context else find_key context_identity id' held.1) /\
  (∀ id', find_key tombstone_identity id' held'.2 = if decide (id' = id) then None else find_key tombstone_identity id' held.2) /\
  (∀ c, c ∈ held'.1 -> c = context \/ c ∈ held.1) /\ (∀ t, t ∈ held'.2 -> t ∈ held.2) /\
  (NoDup (context_identity <$> held.1) -> NoDup (context_identity <$> held'.1)) /\
  (NoDup (tombstone_identity <$> held.2) -> NoDup (tombstone_identity <$> held'.2)).
Proof.
  intros Hrun id. rewrite upsert_context_run in Hrun. fold id in Hrun. apply bind_unit_Ok in Hrun as [Htomb Hrun].
  apply bind_Ok_inv in Hrun as (contexts' & Hc & [= <-]). simpl.
  pose proof (replace_key context_identity id (fun _ => context) held.1 ltac:(done)) as Hrep.
  assert ((match find_key context_identity id held.1 with
    | Some e => later (Live (ic_revision e) (ic_content_digest e)) (Live (ic_revision context) (ic_content_digest context))
    | None => True end) /\
    (∀ id', find_key context_identity id' contexts' = if decide (id' = id) then Some context else find_key context_identity id' held.1) /\
    (∀ c, c ∈ contexts' -> c = context \/ c ∈ held.1) /\
    (NoDup (context_identity <$> held.1) -> NoDup (context_identity <$> contexts'))) as (Hlive & Hfind & Hel & Hndc).
  { destruct (find_key context_identity id held.1) as [e|] eqn:Ef.
    - apply bind_unit_Ok in Hc as [Hle%reject_Ok%N.ltb_ge Hc]. apply bind_unit_Ok in Hc as [Heq%reject_Ok [= <-]].
      destruct Hrep as (l' & Hl' & Hkeys & Hf & He). rewrite Hl'. simpl. split_and!; [|done|done|by rewrite Hkeys].
      destruct (N.eqb_spec (ic_revision context) (ic_revision e)) as [E|E]; [|left; lia]. right. split; [done|].
      apply negb_false_iff, bool_decide_eq_true in Heq. done.
    - injection Hc as <-. split_and!; [done| | |].
      + intros id'. rewrite find_key_snoc. fold id. destruct (decide (id' = id)) as [->|Hne].
        * by rewrite Ef, decide_True.
        * rewrite decide_False by done. by destruct (find_key _ id' _).
      + intros c [Hc|Hc%list_elem_of_singleton]%elem_of_app; auto.
      + intros Hn. rewrite fmap_app. apply NoDup_app. split; [done|]. split; [|apply NoDup_singleton].
        intros x Hx Hx'%list_elem_of_singleton. subst x. apply find_key_None in Ef. by apply Ef. }
  split_and!; try done; [|intros id'; apply find_key_remove|by intros t ?%filter_sub|apply NoDup_key_filter].
  - unfold context_status. destruct (find_key context_identity id held.1); [done|].
    destruct (find_key tombstone_identity id held.2); [|done]. apply reject_Ok, N.leb_gt in Htomb. done.
Qed.

(** An accepted removal: the context is gone and its tombstone stands at least as high. *)
Lemma remove_context_Ok source item revision held held' :
  remove_context source item revision held = Ok held' ->
  let id := (source, item) in
  (match context_status held id with Live r _ => r <= revision | _ => True end)%N /\
  (∀ id', find_key context_identity id' held'.1 = if decide (id' = id) then None else find_key context_identity id' held.1) /\
  (∃ top, find_key tombstone_identity id held'.2 = Some top /\ (revision <= tb_revision top)%N /\
     (∀ t, find_key tombstone_identity id held.2 = Some t -> tb_revision t <= tb_revision top)%N) /\
  (∀ id', id' <> id -> find_key tombstone_identity id' held'.2 = find_key tombstone_identity id' held.2) /\
  (∀ c, c ∈ held'.1 -> c ∈ held.1) /\ (∀ t, t ∈ held'.2 -> tombstone_identity t = id \/ t ∈ held.2) /\
  (NoDup (context_identity <$> held.1) -> NoDup (context_identity <$> held'.1)) /\
  (NoDup (tombstone_identity <$> held.2) -> NoDup (tombstone_identity <$> held'.2)).
Proof.
  intros Hrun id. rewrite remove_context_run in Hrun. fold id in Hrun. apply bind_unit_Ok in Hrun as [Hlive [= <-]].
  cbn [fst snd].
  set (raised t := {| tb_source_app_id := _; tb_item_id := _; tb_revision := _ |}).
  pose proof (replace_key tombstone_identity id raised held.2 ltac:(done)) as Hrep.
  assert ((match context_status held id with Live r _ => r <= revision | _ => True end)%N) as Hlow.
  { unfold context_status. destruct (find_key context_identity id held.1); [|by destruct (find_key tombstone_identity id held.2)].
    by apply reject_Ok, N.ltb_ge in Hlive. }
  split; [done|]. split; [intros id'; apply find_key_remove|].
  pose proof (filter_sub (fun c => negb (bool_decide (context_identity c = id))) held.1) as Hsub.
  pose proof (NoDup_key_filter context_identity (fun c => negb (bool_decide (context_identity c = id))) held.1) as Hnd.
  destruct (find_key tombstone_identity id held.2) as [t|] eqn:Et.
  - destruct Hrep as (l' & -> & Hkeys & Hf & He). simpl. split_and!; try done.
    + exists (raised t). rewrite Hf, decide_True by done. simpl. split_and!; [done|lia|]. intros t' [= <-]. lia.
    + intros id' Hne. by rewrite Hf, decide_False.
    + intros t' [->|Ht']%He; [left|by right]. by apply find_key_Some in Et as [_ Et].
    + by rewrite Hkeys.
  - rewrite Hrep. simpl. split_and!; try done.
    + eexists. rewrite find_key_snoc, Et. unfold tombstone_identity. simpl. rewrite decide_True by done.
      split_and!; [done|simpl; lia|done].
    + intros id' Hne. rewrite find_key_snoc. destruct (find_key _ id' _); [done|]. by rewrite decide_False.
    + intros t' [Ht'|Ht'%list_elem_of_singleton]%elem_of_app; [by right|left; by subst t'].
    + intros Hn. rewrite fmap_app. apply NoDup_app. split; [done|]. split; [|apply NoDup_singleton].
      intros x Hx Hx'%list_elem_of_singleton. subst x. apply find_key_None in Et. by apply Et.
Qed.
Lemma apply_update_later held u held' id :
  apply_update held u = Ok held' -> later (context_status held id) (context_status held' id).
Proof.
  destruct u as [context|source item revision]; simpl.
  - intros (Hst & Hf & Ht & _)%upsert_context_Ok. destruct (decide (id = context_identity context)) as [->|Hne].
    + unfold context_status at 2. rewrite Hf, decide_True by done. by destruct (context_status held _).
    + unfold context_status. by rewrite Hf, Ht, !decide_False.
  - intros (Hst & Hf & (top & Htop & Hle & Hmax) & Ht & _)%remove_context_Ok.
    destruct (decide (id = (source, item))) as [->|Hne].
    + unfold context_status at 2. rewrite Hf, decide_True, Htop by done.
      destruct (context_status held (source, item)) as [|r d|r] eqn:E; simpl; [done|lia|].
      unfold context_status in E. destruct (find_key context_identity _ _); [done|].
      destruct (find_key tombstone_identity _ _) as [t|]; [|done]. injection E as <-. by apply Hmax.
    + unfold context_status. by rewrite Hf, Ht, decide_False.
Qed.

Lemma apply_update_held held u held' : held_ok held -> update_ok u -> apply_update held u = Ok held' -> held_ok held'.
Proof.
  intros [Hc Hd Ht Htd Hdj] Hu. destruct u as [context|source item revision]; simpl in *.
  - intros (_ & Hf & Hft & Hel & Hts & Hnd & Hndt)%upsert_context_Ok. constructor; auto.
    + intros c [->|Hin]%Hel; [done|by apply Hc].
    + intros t Hin Hid%find_key_elem. rewrite Hf in Hid. case_decide as E.
      * assert (is_Some (find_key tombstone_identity (tombstone_identity t) held'.2)) as Hsome
          by (apply find_key_elem; by apply list_elem_of_fmap_2).
        rewrite Hft, decide_True in Hsome by done. by destruct Hsome.
      * apply (Hdj t); [by apply Hts|]. by apply find_key_elem.
  - intros (_ & Hf & _ & _ & Hcs & Hts & Hnd & Hndt)%remove_context_Ok. constructor; auto.
    + intros t [Hid|Hin]%Hts; [|by apply Ht]. by injection Hid as -> ->.
    + intros t Hin Hid%find_key_elem. rewrite Hf in Hid. case_decide as E; [by destruct Hid|].
      destruct (Hts t Hin) as [?|Hin']; [done|]. apply (Hdj t Hin'). by apply find_key_elem.
Qed.

Lemma apply_updates_Ok updates held held' :
  apply_updates updates held = Ok held' ->
  (∀ id, later (context_status held id) (context_status held' id)) /\
  (held_ok held -> Forall update_ok updates -> held_ok held').
Proof.
  revert held. induction updates as [|u updates IH]; intros held; simpl.
  - intros [= ->]. split; [intros id; reflexivity|done].
  - intros (held1 & Hu & (Hlater & Hok)%IH)%bind_Ok_inv. split.
    + intros id. etrans; [by eapply apply_update_later|done].
    + intros Hheld [Hu1 Hus]%Forall_cons. apply Hok; [|done]. by eapply apply_update_held.
Qed.

(** Sorting the contexts changes nothing of this. *)
Lemma status_sorted contexts tombstones id :
  NoDup (context_identity <$> contexts) ->
  context_status (sort_by context_leb contexts, tombstones) id = context_status (contexts, tombstones) id.
Proof.
  intros Hnd. unfold context_status. simpl.
  assert (NoDup (context_identity <$> sort_by context_leb contexts)) as Hnd' by by rewrite sort_by_perm.
  destruct (find_key context_identity id contexts) as [c|] eqn:E.
  - apply find_key_Some in E as [Hin Hid]. by rewrite (find_key_unique context_identity id _ c) by (rewrite ?elem_of_sort_by; done).
  - apply find_key_None in E.
    assert (find_key context_identity id (sort_by context_leb contexts) = None) as -> by (apply find_key_None; by rewrite sort_by_perm).
    done.
Qed.

Definition held_of (thread : ChatThread) : injected := (ct_injected_contexts thread, ct_injected_context_tombstones thread).

Lemma updated_contexts_Ok updates limits thread thread' :
  updated_contexts updates limits thread = Ok thread' ->
  ∃ held, apply_updates updates (held_of thread) = Ok held /\
    thread' = set_injected (sort_by context_leb held.1) held.2 thread /\ within limits held.1 /\
    (N.of_nat (length held.1) <= li_max_total limits)%N /\ (N.of_nat (length held.2) <= li_max_total limits)%N.
Proof.
  unfold updated_contexts. intros ([contexts tombstones] & Ha & Hrun)%bind_Ok_inv.
  apply bind_unit_Ok in Hrun as [Hc%reject_Ok%count_exceeds_false Hrun].
  apply bind_unit_Ok in Hrun as [Ht%reject_Ok%count_exceeds_false Hrun].
  apply bind_unit_Ok in Hrun as [Hl%check_limits_Ok [= <-]]. by exists (contexts, tombstones).
Qed.

Lemma held_ok_sorted contexts tombstones :
  held_ok (contexts, tombstones) -> held_ok (sort_by context_leb contexts, tombstones).
Proof.
  intros [Hc Hd Ht Htd Hdj]. simpl in *. constructor; simpl; try done.
  - intros c. rewrite elem_of_sort_by. apply Hc.
  - by rewrite sort_by_perm.
  - intros t Hin. rewrite sort_by_perm. by apply Hdj.
Qed.

(** The contexts a thread has after a call. *)
Lemma updated_contexts_sound updates limits thread thread' :
  updated_contexts updates limits thread = Ok thread' -> held_ok (held_of thread) -> Forall update_ok updates ->
  held_ok (held_of thread') /\ within limits (ct_injected_contexts thread') /\
  (N.of_nat (length (ct_injected_contexts thread')) <= li_max_total limits)%N /\
  (N.of_nat (length (ct_injected_context_tombstones thread')) <= li_max_total limits)%N /\
  ∀ id, later (context_status (held_of thread) id) (context_status (held_of thread') id).
Proof.
  intros ([contexts tombstones] & [Hlater Hok]%apply_updates_Ok & -> & Hw & Hc & Ht)%updated_contexts_Ok Hheld Hus.
  specialize (Hok Hheld Hus). unfold held_of. simpl in *. split_and!; try done.
  - by apply held_ok_sorted.
  - eapply within_perm; [symmetry; apply sort_by_perm|done].
  - by rewrite sort_by_perm.
  - intros id. etrans; [apply Hlater|]. rewrite status_sorted by apply Hok. reflexivity.
Qed.
End updates.

(** ** Memory and file agree *)

Section agreement.
Context `{Libraries, Uuids, Chrono, ChatCodec, !ChatCodecLaws}.

(** What reopening would find in the file. *)
Definition stored_document (s : ChatStore) : outcome string ChatStoreDocument :=
  default fresh_document <$> load_result chat_from_str (cs_path s) "chat storage" (contents (cs_fs s) (p_file_name (cs_path s))).

Record chat_wf (s : ChatStore) : Prop := {
  cw_document : document_ok (cs_document s);
  cw_honest : honest (cs_fs s);
  cw_stored : stored_document s = Ok (persisted_part (cs_document s));
}.

Lemma document_ok_filter p document :
  document_ok document -> document_ok (with_threads (List.filter p (sd_threads document)) document).
Proof.
  intros (Hv & Hall & Hi & Hr). split; [done|]. simpl. split_and!; try by apply NoDup_key_filter.
  intros t Ht%filter_sub. by apply Hall.
Qed.

Lemma commit_chat_cases candidate s r s' :
  chat_wf s -> document_ok candidate -> commit_chat candidate s = (r, s') ->
  chat_wf s' /\ cs_path s' = cs_path s /\
  ((cs_document s' = candidate /\ (r = Ok tt \/ ∃ m, r = Err m)) \/
   (cs_document s' = cs_document s /\ contents (cs_fs s') (p_file_name (cs_path s)) = contents (cs_fs s) (p_file_name (cs_path s)) /\
    ∃ m, r = Err m)).
Proof.
  intros [Hd Hh Hs] Hok. unfold commit_chat, persist_chat.
  pose proof (persist_honest chat_to_vec_pretty (cs_path s) (persisted_part candidate) "chat storage" (cs_fs s) Hh) as Hh'.
  destruct (persist_json_document _ _ _ _ _ _) as [r0 fs] eqn:E. simpl in Hh'.
  apply persist_json_document_contents in E as [(bytes & Hser & Hc & Hr)|(e & -> & Hi & Hc)].
  - assert (chat_wf (set_document candidate (set_chat_fs fs s))) as Hwf.
    { constructor; [done|done|]. unfold stored_document. simpl. rewrite Hc. simpl.
      apply chat_codec_roundtrip in Hser as [-> ->]. done. }
    destruct Hr as [->|(e & -> & Hi)]; [|rewrite Hi]; intros [= <- <-]; (split_and!; [done|done|]); left; eauto.
  - rewrite Hi. intros [= <- <-]. split_and!; [|done|right; eauto].
    constructor; [done|done|]. unfold stored_document in *. simpl. by rewrite Hc.
Qed.

(** A thread replaced by one of the same identities. *)
Lemma document_ok_replace document thread thread' threads' :
  document_ok document -> thread ∈ sd_threads document -> ct_id thread' = ct_id thread ->
  ct_resource_id thread' = ct_resource_id thread -> contexts_ok thread' ->
  replace_first (fun t => bool_decide (ct_id t = ct_id thread)) (fun _ => thread') (sd_threads document) = Some threads' ->
  document_ok (with_threads threads' document).
Proof.
  intros (Hv & Hall & Hi & Hr) Hin Hid Hres Hc Hrep. split; [done|]. simpl.
  pose proof (replace_key ct_id (ct_id thread) (fun _ => thread') (sd_threads document) ltac:(done)) as Hk.
  rewrite (find_key_unique ct_id _ _ thread Hi Hin eq_refl), Hrep in Hk. destruct Hk as (l & [= <-] & Hkeys & _ & Hel).
  destruct (Hall thread Hin) as (Hne & Hrne & _). split_and!.
  - intros t [->|Ht]%Hel; [|by apply Hall]. by rewrite Hid, Hres.
  - by rewrite Hkeys.
  - assert (ct_resource_id <$> threads' = ct_resource_id <$> sd_threads document) as ->; [|done].
    clear Hv Hall Hr Hc Hkeys Hel Hne Hrne. revert threads' Hi Hin Hrep.
    induction (sd_threads document) as [|t l IH]; intros threads' Hi Hin Hrep; [done|].
    simpl in Hrep, Hi. apply NoDup_cons in Hi as [Hnew Hi]. case_bool_decide as E.
    + injection Hrep as <-. apply elem_of_cons in Hin as [->|Hin]; [csimpl; by rewrite Hres|].
      exfalso. apply Hnew. rewrite E. by apply list_elem_of_fmap_2.
    + apply elem_of_cons in Hin as [->|Hin]; [done|].
      destruct (replace_first _ _ l) as [l'|] eqn:El; [|done]. injection Hrep as <-. csimpl. by rewrite (IH l').
Qed.

(** *** Edits *)

(** Calls that only read the clock or draw an identifier. *)
Definition ambient {A} (m : st ChatStore string A) : Prop :=
  ∀ s r s', m s = (r, s') -> cs_document s' = cs_document s /\ cs_path s' = cs_path s /\ (chat_wf s -> chat_wf s').

Lemma ambient_same {A} (m : st ChatStore string A) :
  (∀ s, cs_document (m s).2 = cs_document s /\ cs_path (m s).2 = cs_path s /\
        fs_dir (cs_fs (m s).2) = fs_dir (cs_fs s) /\ fs_faults (cs_fs (m s).2) = fs_faults (cs_fs s)) -> ambient m.
Proof.
  intros Hm s r s' Hrun. specialize (Hm s). rewrite Hrun in Hm. simpl in Hm. destruct Hm as (Hd & Hp & Hf & Hq). split_and!; try done.
  intros [Hok Hh Hst]. constructor; [by rewrite Hd| |].
  - intros fault. rewrite Hq. apply Hh.
  - unfold stored_document, contents in *. by rewrite Hp, Hd, Hf.
Qed.

Lemma now_iso_ambient : ambient now_iso.
Proof. apply ambient_same. done. Qed.

Lemma new_id_ambient prefix : ambient (new_id prefix).
Proof. apply ambient_same. done. Qed.

Lemma lift_ambient {A} (m : outcome string A) : ambient (st_lift m).
Proof. apply ambient_same. done. Qed.

Lemma bind_ambient {A B} (m : st ChatStore string A) (k : A -> st ChatStore string B) :
  ambient m -> (∀ a, ambient (k a)) -> ambient (m ≫= k).
Proof.
  intros Hm Hk s r s' Hrun. rewrite st_bind_run in Hrun. destruct (m s) as [[a|e|msg] s1] eqn:E.
  - destruct (Hm _ _ _ E) as (Hd & Hp & Hw). destruct (Hk _ _ _ _ Hrun) as (Hd' & Hp' & Hw').
    rewrite Hd', Hp'. auto.
  - injection Hrun as <- <-. by apply (Hm _ _ _ E).
  - injection Hrun as <- <-. by apply (Hm _ _ _ E).
Qed.

Lemma st_map_ambient {A B} (f : A -> st ChatStore string B) l : (∀ x, ambient (f x)) -> ambient (st_map f l).
Proof.
  intros Hf. induction l as [|x l IH]; simpl; [by apply lift_ambient|].
  apply bind_ambient; [done|intros y]. apply bind_ambient; [done|intros ys]. by apply lift_ambient.
Qed.

(** What [edit_thread] comes to. *)
Lemma edit_thread_cases thread_id change s r s' :
  chat_wf s -> (∀ t, ambient (change t)) ->
  (∀ t t' s1 s2, t ∈ sd_threads (cs_document s) -> change t s1 = (Ok t', s2) ->
     ct_id t' = ct_id t /\ ct_resource_id t' = ct_resource_id t /\ contexts_ok t') ->
  edit_thread thread_id change s = (r, s') ->
  chat_wf s' /\ cs_path s' = cs_path s /\
  ((cs_document s' = cs_document s /\ ∀ t, r <> Ok t) \/
   ∃ thread changed now threads' s1 s2,
     find_thread thread_id (sd_threads (cs_document s)) = Some thread /\ change thread s1 = (Ok changed, s2) /\
     replace_first (fun t => bool_decide (ct_id t = thread_id)) (fun _ => touched now changed)
       (sd_threads (cs_document s)) = Some threads' /\
     cs_document s' = with_threads threads' (cs_document s) /\
     (r = Ok (touched now changed) \/ ∃ m, r = Err m)).
Proof.
  intros Hwf Hamb Hkeep Hrun. unfold edit_thread in Hrun. rewrite st_bind_run in Hrun. simpl in Hrun.
  rewrite st_bind_run in Hrun. unfold st_lift, get_thread in Hrun.
  destruct (find_thread thread_id (sd_threads (cs_document s))) as [thread|] eqn:Ef;
    [|injection Hrun as <- <-; split_and!; [done|done|left; split; [done|by intros t]]].
  pose proof (find_key_Some ct_id _ _ _ Ef) as [Hin Hid]. simpl in Hrun. rewrite st_bind_run in Hrun.
  destruct (change thread s) as [rc s1] eqn:Ec. destruct (Hamb _ _ _ _ Ec) as (Hd1 & Hp1 & Hw1).
  destruct rc as [changed|e|msg];
    [|injection Hrun as <- <-; split_and!; [auto|done|left; split; [done|by intros t]]..].
  destruct (Hkeep _ _ _ _ Hin Ec) as (Hcid & Hcres & Hcok).
  rewrite st_bind_run in Hrun. destruct (now_iso s1) as [rn s2] eqn:En.
  destruct (now_iso_ambient _ _ _ En) as (Hd2 & Hp2 & Hw2). injection En as <- _.
  set (now := now_at (cs_clock s1)) in *. set (thread' := touched now changed) in *.
  pose proof (replace_key ct_id thread_id (fun _ => thread') (sd_threads (cs_document s))) as Hk.
  unfold find_key in Hk. unfold find_thread in Ef. rewrite Ef in Hk.
  destruct Hk as (threads' & Hrep & _); [intros; simpl; congruence|]. rewrite Hrep in Hrun. cbn [default] in Hrun.
  rewrite st_bind_run in Hrun. rewrite <- Hid in Hrep.
  assert (document_ok (with_threads threads' (cs_document s))) as Hok'.
  { by apply (document_ok_replace (cs_document s) thread thread' threads' (cw_document s Hwf) Hin Hcid Hcres Hcok). }
  destruct (commit_chat _ s2) as [rc s3] eqn:Ecm.
  destruct (commit_chat_cases _ _ _ _ (Hw2 (Hw1 Hwf)) Hok' Ecm) as (Hw3 & Hp3 & Hcase).
  rewrite Hid in Hrep.
  destruct Hcase as [(Hd3 & Hr)|(Hd3 & _ & m & ->)].
  - assert (s' = s3) as -> by (destruct Hr as [->|[m ->]]; by injection Hrun).
    split; [done|]. split; [congruence|]. right. exists thread, changed, now, threads', s, s1. split_and!; try done.
    destruct Hr as [->|[m ->]]; injection Hrun as <-; eauto.
  - injection Hrun as <- <-. split; [done|]. split; [congruence|]. left. split; [congruence|by intros t].
Qed.
(** *** Commands *)

Inductive ChatCommand :=
  | CmdCreate (engine_ref : option string) (receipt : option ChatAgentEngineReceipt)
  | CmdRename (thread_id title : string)
  | CmdDelete (thread_id : string)
  | CmdProfile (thread_id : string) (profile_ref : option string) (receipt : option ChatProfileReceipt)
  | CmdModel (thread_id : string) (profile_ref : option string) (receipt : option ChatModelProfileReceipt)
  | CmdEngine (thread_id : string) (engine_ref : option string) (receipt : option ChatAgentEngineReceipt)
      (state : option ChatAgentEngineState)
  | CmdEngineState (thread_id : string) (state : option ChatAgentEngineState)
  | CmdContribute (thread_id : string) (contributions : list ChatContribution) (max_per_source max_total : nat)
  | CmdWithdraw (thread_id : string) (identity : ContributionIdentity)
  | CmdWithdrawAll (thread_id : string) (identities : list ContributionIdentity)
  | CmdInject (thread_id : string) (updates : list ChatInjectedContextUpdate) (limits : ContextLimits)
  | CmdAppend (thread_id : string) (role : ChatMessageRole) (text : string) (run_id : option string)
      (artifact_ids : list string) (status : option ChatMessageStatus)
  | CmdAsk (thread_id text client_request_id : string)
  | CmdAnswer (thread_id client_request_id : string) (responses : list ChatMessage)
      (prompt_receipt : option ChatCompositionReceipt) (consumed : list ContributionIdentity).

Definition discard {A} (m : st ChatStore string A) : st ChatStore string unit := _ ← m; mret tt.

Definition run_chat_command (c : ChatCommand) : st ChatStore string unit :=
  match c with
  | CmdCreate engine_ref receipt => discard (create_thread_with_agent_engine engine_ref receipt)
  | CmdRename thread_id title => discard (rename_thread thread_id title)
  | CmdDelete thread_id => delete_thread thread_id
  | CmdProfile thread_id profile_ref receipt => discard (set_assistant_profile thread_id profile_ref receipt)
  | CmdModel thread_id profile_ref receipt => discard (set_model_profile thread_id profile_ref receipt)
  | CmdEngine thread_id engine_ref receipt state => discard (set_chat_agent_engine thread_id engine_ref receipt state)
  | CmdEngineState thread_id state => discard (set_chat_agent_engine_state thread_id state)
  | CmdContribute thread_id contributions max_per_source max_total =>
      discard (upsert_contributions thread_id contributions max_per_source max_total)
  | CmdWithdraw thread_id identity => discard (remove_contribution thread_id identity)
  | CmdWithdrawAll thread_id identities => discard (remove_contributions thread_id identities)
  | CmdInject thread_id updates limits => discard (apply_injected_context_updates thread_id updates limits)
  | CmdAppend thread_id role text run_id artifact_ids status =>
      discard (append_message thread_id role text run_id artifact_ids status)
  | CmdAsk thread_id text client_request_id => discard (append_user_message thread_id text client_request_id)
  | CmdAnswer thread_id client_request_id responses prompt_receipt consumed =>
      discard (complete_request_with_prompt_receipt_and_consumed_contributions thread_id client_request_id responses
                 prompt_receipt consumed)
  end.

(** What the callers see to: drawn identifiers are new, and injected context has passed the
    checks of its handler and is subject to the limits of the store. *)
Definition command_allowed (c : ChatCommand) (s : ChatStore) : Prop :=
  match c with
  | CmdCreate _ _ =>
      (∀ t, t ∈ sd_threads (cs_document s) ->
         ct_id t <> "thread-" +:+ new_v4 (fs_uuids (cs_fs s)) /\
         ct_resource_id t <> "chat-thread-" +:+ new_v4 (S (fs_uuids (cs_fs s))))
  | CmdInject _ updates limits => limits = stored_context_limits /\ Forall update_ok updates
  | _ => True
  end.

(** What every command keeps. *)
Definition moves_on (s s' : ChatStore) : Prop :=
  chat_wf s' /\ cs_path s' = cs_path s /\
  ∀ t t', t ∈ sd_threads (cs_document s) -> t' ∈ sd_threads (cs_document s') -> ct_id t = ct_id t' ->
    ∀ id, later (context_status (held_of t) id) (context_status (held_of t') id).

Lemma same_document_moves_on s s' :
  chat_wf s -> chat_wf s' -> cs_path s' = cs_path s -> cs_document s' = cs_document s -> moves_on s s'.
Proof.
  intros Hwf Hwf' Hp Hd. split_and!; [done|done|]. rewrite Hd. intros t t' Ht Ht' Hid c.
  destruct (cw_document s Hwf) as (_ & _ & Hnd & _).
  pose proof (find_key_unique ct_id _ _ t Hnd Ht eq_refl) as E.
  rewrite (find_key_unique ct_id _ _ t' Hnd Ht') in E by done. by injection E as <-.
Qed.

Lemma edit_moves_on thread_id change s r s' :
  chat_wf s -> (∀ t, ambient (change t)) ->
  (∀ t t' s1 s2, t ∈ sd_threads (cs_document s) -> change t s1 = (Ok t', s2) ->
     ct_id t' = ct_id t /\ ct_resource_id t' = ct_resource_id t /\ contexts_ok t' /\
     ∀ id, later (context_status (held_of t) id) (context_status (held_of t') id)) ->
  edit_thread thread_id change s = (r, s') -> moves_on s s'.
Proof.
  intros Hwf Hamb Hkeep Hrun.
  destruct (edit_thread_cases thread_id change s r s' Hwf Hamb) as (Hwf' & Hp & Hcase); [|done|].
  { intros t t' s1 s2 Ht Hc. destruct (Hkeep t t' s1 s2 Ht Hc) as (? & ? & ? & _). done. }
  destruct Hcase as [[Hd _]|(thread & changed & now & threads' & s1 & s2 & Hf & Hc & Hrep & Hd & _)];
    [by apply same_document_moves_on|].
  pose proof (find_key_Some ct_id _ _ _ Hf) as [Hin Hid].
  destruct (Hkeep _ _ _ _ Hin Hc) as (Hcid & _ & _ & Hlater).
  pose proof (replace_key ct_id thread_id (fun _ => touched now changed) (sd_threads (cs_document s))) as Hk.
  unfold find_key, find_thread in *. rewrite Hf, Hrep in Hk. destruct Hk as (l & [= <-] & _ & _ & Hel); [simpl; congruence|].
  destruct (cw_document s Hwf) as (_ & _ & Hnd & _). split_and!; [done|done|]. rewrite Hd. simpl.
  assert (∀ t u, t ∈ sd_threads (cs_document s) -> u ∈ sd_threads (cs_document s) -> ct_id t = ct_id u -> t = u) as Huniq.
  { intros t u Ht Hu E. pose proof (find_key_unique ct_id _ _ t Hnd Ht E) as E1.
    rewrite (find_key_unique ct_id _ _ u Hnd Hu eq_refl) in E1. congruence. }
  intros t t' Ht Ht' E id. destruct (Hel t' Ht') as [->|Ht''].
  - assert (t = thread) as -> by (apply Huniq; [done|done|simpl in E; congruence]). apply Hlater.
  - assert (t = t') as -> by by apply Huniq. reflexivity.
Qed.

(** An edit that leaves the contexts alone. *)
Lemma quiet_edit_moves_on thread_id change s r s' :
  chat_wf s -> (∀ t, ambient (change t)) ->
  (∀ t t' s1 s2, change t s1 = (Ok t', s2) ->
     ct_id t' = ct_id t /\ ct_resource_id t' = ct_resource_id t /\ held_of t' = held_of t) ->
  edit_thread thread_id change s = (r, s') -> moves_on s s'.
Proof.
  intros Hwf Hamb Hkeep. apply edit_moves_on; [done|done|]. intros t t' s1 s2 Ht Hc.
  destruct (Hkeep _ _ _ _ Hc) as (Hi & Hr & Hh). split_and!; [done|done| |intros id; by rewrite Hh].
  destruct (cw_document s Hwf) as (_ & Hall & _). destruct (Hall t Ht) as (_ & _ & Hok).
  unfold contexts_ok, held_of in *. by injection Hh as -> ->.
Qed.

Lemma discard_inv {A} (m : st ChatStore string A) s r s' :
  discard m s = (r, s') -> ∃ r', m s = (r', s').
Proof. unfold discard. rewrite st_bind_run. destruct (m s) as [[a|e|msg] s1]; simpl; intros [= <- <-]; eauto. Qed.

Lemma ambient_then {A B} (m : st ChatStore string A) (k : A -> st ChatStore string B) s r s' :
  ambient m -> chat_wf s -> (m ≫= k) s = (r, s') ->
  (∀ a s1 r1 s2, chat_wf s1 -> k a s1 = (r1, s2) -> moves_on s1 s2) -> moves_on s s'.
Proof.
  intros Hm Hwf Hrun Hk. rewrite st_bind_run in Hrun. destruct (m s) as [r1 s1] eqn:E.
  destruct (Hm _ _ _ E) as (Hd & Hp & Hw). specialize (Hw Hwf).
  assert (moves_on s s1) as Hs1 by (by apply same_document_moves_on).
  destruct r1 as [a|e|msg]; [|by injection Hrun as _ <-..].
  destruct (Hk _ _ _ _ Hw Hrun) as (Hwf' & Hp' & Hl'). split_and!; [done|congruence|].
  intros t t' Ht Ht'. rewrite <- Hd in Ht. by apply Hl'.
Qed.
Lemma ret_ambient {A} (a : A) : ambient (mret a).
Proof. by apply ambient_same. Qed.

Lemma completed_thread_ambient request_id responses receipt consumed thread :
  ambient (completed_thread request_id responses receipt consumed thread).
Proof.
  assert (∀ response, ambient (stamp_response response)) as Hstamp.
  { intros response. apply bind_ambient; [case_bool_decide; [apply new_id_ambient|apply ret_ambient]|intros id].
    apply bind_ambient; [case_bool_decide; [apply now_iso_ambient|apply ret_ambient]|intros now]. apply ret_ambient. }
  unfold completed_thread. apply bind_ambient; [apply lift_ambient|intros request].
  apply bind_ambient; [apply lift_ambient|intros _]. apply bind_ambient; [apply now_iso_ambient|intros now].
  apply bind_ambient; [by apply st_map_ambient|intros stamped]. destruct receipt; [|apply ret_ambient].
  apply bind_ambient; [apply now_iso_ambient|intros later]. apply ret_ambient.
Qed.

(** The thread a completed request is in. *)
Lemma completed_thread_Ok request_id responses receipt consumed thread thread' s s' :
  completed_thread request_id responses receipt consumed thread s = (Ok thread', s') ->
  ∃ request now messages stamped,
    request_of request_id (ct_messages thread) = Some request /\ mg_status request = Some MsgPending /\
    replace_first (is_request request_id) (answered now) (ct_messages thread) = Some messages /\
    ct_messages thread' = messages ++ stamped /\ length stamped = length responses /\
    Forall2 (fun a b => mg_client_request_id b = mg_client_request_id a /\ mg_role b = mg_role a /\ mg_text b = mg_text a)
      responses stamped /\
    ct_id thread' = ct_id thread /\ ct_resource_id thread' = ct_resource_id thread /\ held_of thread' = held_of thread /\
    ct_revision thread' = ct_revision thread.
Proof.
  intros Hrun. unfold completed_thread in Hrun.
  apply st_bind_Ok_inv in Hrun as (request & s1 & [Hreq%ok_or_Ok <-]%st_lift_inv & Hrun).
  apply st_bind_Ok_inv in Hrun as ([] & s2 & [Hst%reject_not_Ok <-]%st_lift_inv & Hrun).
  apply st_bind_Ok_inv in Hrun as (now & s3 & _ & Hrun).
  apply st_bind_Ok_inv in Hrun as (stamped & s4 & Hmap & Hrun).
  assert (Forall2 (fun a b => mg_client_request_id b = mg_client_request_id a /\ mg_role b = mg_role a /\ mg_text b = mg_text a)
            responses stamped) as Hall.
  { clear Hrun. revert stamped s3 s4 Hmap. induction responses as [|a l IH]; intros stamped s3 s4 Hmap.
    - injection Hmap as <- _. constructor.
    - apply st_bind_Ok_inv in Hmap as (b & s5 & Hb & Hmap). apply st_bind_Ok_inv in Hmap as (bs & s6 & Hbs & [= <- _]).
      constructor; [|by eapply IH]. unfold stamp_response in Hb.
      apply st_bind_Ok_inv in Hb as (id & ? & _ & Hb). apply st_bind_Ok_inv in Hb as (at_ & ? & _ & [= <- _]). done. }
  pose proof (Forall2_length _ _ _ Hall) as Hlen.
  assert (∃ messages, replace_first (is_request request_id) (answered now) (ct_messages thread) = Some messages) as [messages Hm].
  { clear -Hreq. unfold request_of, is_request in *. induction (ct_messages thread) as [|m l IH]; simpl in *; [done|].
    case_bool_decide; [eauto|]. destruct (IH Hreq) as [l' ->]. eauto. }
  rewrite Hm in Hrun. simpl in Hrun.
  destruct receipt as [receipt|]; [apply st_bind_Ok_inv in Hrun as (later & s5 & _ & Hrun)|];
    injection Hrun as <- _; exists request, now, messages, stamped; by split_and!.
Qed.

(** What [command_allowed] asks of a new thread. *)
Lemma create_moves_on engine_ref receipt s r s' :
  chat_wf s -> command_allowed (CmdCreate engine_ref receipt) s ->
  create_thread_with_agent_engine engine_ref receipt s = (r, s') -> moves_on s s'.
Proof.
  intros [(Hv & Hall & Hi & Hr) Hh Hst] Hfresh [= _ <-].
  assert (document_ok (cs_document s)) as Hok by by split_and!.
  simpl in Hfresh. split_and!; [constructor|done|]; simpl.
  - split; [done|]. simpl. split_and!.
    + intros t [Ht| ->%list_elem_of_singleton]%elem_of_app; [by apply Hall|]. split; [done|]. split; [done|].
      apply validate_loaded_Ok. done.
    + rewrite fmap_app. apply NoDup_app. split; [done|]. split; [|apply NoDup_singleton].
      intros id (t & -> & Ht)%list_elem_of_fmap E%list_elem_of_singleton. by destruct (Hfresh t Ht).
    + rewrite fmap_app. apply NoDup_app. split; [done|]. split; [|apply NoDup_singleton].
      intros id (t & -> & Ht)%list_elem_of_fmap E%list_elem_of_singleton. by destruct (Hfresh t Ht).
  - done.
  - unfold stored_document in *. simpl. unfold contents in *. simpl. rewrite Hst. unfold persisted_part, with_threads. simpl.
    rewrite List.filter_app. simpl. by rewrite app_nil_r.
  - intros t t' Ht [Ht'| ->%list_elem_of_singleton]%elem_of_app E id.
    + pose proof (find_key_unique ct_id _ _ t Hi Ht eq_refl) as E1.
      rewrite (find_key_unique ct_id _ _ t' Hi Ht') in E1 by done. by injection E1 as <-.
    + by destruct (Hfresh t Ht).
Qed.

Lemma delete_moves_on thread_id s r s' :
  chat_wf s -> delete_thread thread_id s = (r, s') -> moves_on s s'.
Proof.
  intros Hwf Hrun. unfold delete_thread in Hrun. rewrite st_bind_run in Hrun. simpl in Hrun.
  case_bool_decide; [injection Hrun as _ <-; by apply same_document_moves_on|].
  pose proof (document_ok_filter (fun thread => negb (bool_decide (ct_id thread = thread_id))) _ (cw_document s Hwf)) as Hok.
  destruct (commit_chat_cases _ _ _ _ Hwf Hok Hrun) as (Hwf' & Hp & [[Hd _]|(Hd & _)]);
    [|by apply same_document_moves_on].
  split_and!; [done|done|]. rewrite Hd. simpl. intros t t' Ht Ht'%filter_sub E id.
  destruct (cw_document s Hwf) as (_ & _ & Hi & _).
  pose proof (find_key_unique ct_id _ _ t Hi Ht eq_refl) as E1.
  rewrite (find_key_unique ct_id _ _ t' Hi Ht') in E1 by done. by injection E1 as <-.
Qed.

Lemma inject_moves_on thread_id updates s r s' :
  chat_wf s -> Forall update_ok updates ->
  apply_injected_context_updates thread_id updates stored_context_limits s = (r, s') -> moves_on s s'.
Proof.
  intros Hwf Hus. apply edit_moves_on; [done|by intros t; apply lift_ambient|].
  intros t t' s1 s2 Ht [Hu _]%st_lift_inv. destruct (cw_document s Hwf) as (_ & Hall & _).
  destruct (Hall t Ht) as (_ & _ & (Hheld & _)).
  destruct (updated_contexts_sound _ _ _ _ Hu Hheld Hus) as (Hh & Hw & Hc & Htb & Hlater).
  apply updated_contexts_Ok in Hu as (held & _ & -> & _). by split_and!.
Qed.

(** Every command, whatever its outcome. *)
Lemma run_chat_command_moves_on c s r s' :
  chat_wf s -> command_allowed c s -> run_chat_command c s = (r, s') -> moves_on s s'.
Proof.
  intros Hwf Hc Hrun.
  assert (∀ thread_id (f : ChatThread -> ChatThread) r s',
    (∀ t, ct_id (f t) = ct_id t /\ ct_resource_id (f t) = ct_resource_id t /\ held_of (f t) = held_of t) ->
    edit_thread thread_id (fun t => mret (f t)) s = (r, s') -> moves_on s s') as Hpure.
  { intros thread_id f r0 s0 Hf. apply quiet_edit_moves_on; [done|intros; apply ret_ambient|].
    by intros t t' s1 s2 [= <- _]. }
  assert (∀ thread_id (f : ChatThread -> outcome string ChatThread) r s',
    (∀ t t', f t = Ok t' -> ct_id t' = ct_id t /\ ct_resource_id t' = ct_resource_id t /\ held_of t' = held_of t) ->
    edit_thread thread_id (fun t => st_lift (f t)) s = (r, s') -> moves_on s s') as Hlift.
  { intros thread_id f r0 s0 Hf. apply quiet_edit_moves_on; [done|intros; apply lift_ambient|].
    intros t t' s1 s2 [Ht _]%st_lift_inv. by apply Hf. }
  destruct c; simpl in Hrun; try (apply discard_inv in Hrun as [r' Hrun]).
  - by eapply create_moves_on.
  - unfold rename_thread in Hrun. case_bool_decide; [injection Hrun as _ <-; by apply same_document_moves_on|].
    eapply Hpure; [|exact Hrun]; done.
  - by eapply delete_moves_on.
  - eapply Hpure; [|exact Hrun]; done.
  - eapply Hpure; [|exact Hrun]; done.
  - eapply Hpure; [|exact Hrun]; done.
  - unfold set_chat_agent_engine_state in Hrun. rewrite st_bind_run in Hrun. simpl in Hrun. rewrite st_bind_run in Hrun.
    unfold st_lift in Hrun. destruct (get_thread _ _); simpl in Hrun;
      [|injection Hrun as _ <-; by apply same_document_moves_on..].
    case_bool_decide; [injection Hrun as _ <-; by apply same_document_moves_on|]. eapply Hpure; [|exact Hrun]; done.
  - eapply Hlift; [|exact Hrun]. intros t t' Ht. unfold updated_contributions in Ht.
    apply bind_unit_Ok in Ht as [_ Ht]. by apply bind_unit_Ok in Ht as [_ [= <-]].
  - eapply Hlift; [|exact Hrun]. intros t t' Ht. simpl in Ht. by case_bool_decide; simplify_eq.
  - eapply Hpure; [|exact Hrun]; done.
  - destruct Hc as [-> Hus]. by eapply inject_moves_on.
  - eapply ambient_then in Hrun; [exact Hrun|apply new_id_ambient|done|]. intros id s1 r1 s2 Hwf1 Hrun1.
    eapply ambient_then in Hrun1; [exact Hrun1|apply now_iso_ambient|done|]. intros now s3 r3 s4 Hwf3.
    apply quiet_edit_moves_on; [done|by intros; apply ret_ambient|]. intros t t' ? ? [= <- _]. by destruct (_ && _).
  - eapply ambient_then in Hrun; [exact Hrun|apply new_id_ambient|done|]. intros id s1 r1 s2 Hwf1 Hrun1.
    eapply ambient_then in Hrun1; [exact Hrun1|apply now_iso_ambient|done|]. intros now s3 r3 s4 Hwf3.
    apply quiet_edit_moves_on; [done|by intros; apply ret_ambient|]. intros t t' ? ? [= <- _]. by destruct (_ && _).
  - eapply quiet_edit_moves_on; [done|intros t; apply completed_thread_ambient| |exact Hrun].
    intros t t' s1 s2 (? & ? & ? & ? & _ & _ & _ & _ & _ & _ & ? & ? & ? & _)%completed_thread_Ok. done.
Qed.
(** *** Histories *)

Definition chat_step (s s' : ChatStore) : Prop :=
  ∃ c r, command_allowed c s /\ run_chat_command c s = (r, s').

Lemma chat_steps_wf s s' : chat_wf s -> rtc chat_step s s' -> chat_wf s' /\ cs_path s' = cs_path s.
Proof.
  intros Hwf Hsteps. induction Hsteps as [s|s s1 s' (c & r & Hc & Hrun) _ IH]; [done|].
  destruct (run_chat_command_moves_on c s r s1 Hwf Hc Hrun) as (Hwf1 & Hp & _).
  destruct (IH Hwf1) as [? ->]. done.
Qed.

Lemma filter_idempotent {A} (p : A -> bool) l : List.filter p (List.filter p l) = List.filter p l.
Proof. induction l as [|x l IH]; simpl; [done|]. destruct (p x) eqn:E; simpl; [by rewrite E, IH|done]. Qed.

Lemma persisted_part_idempotent document : persisted_part (persisted_part document) = persisted_part document.
Proof. unfold persisted_part, with_threads. simpl. by rewrite filter_idempotent. Qed.

(** Opening a store leaves memory and file in agreement. *)
Lemma with_writer_wf path fs clock s :
  honest fs -> with_writer path fs clock = Ok s -> chat_wf s /\ cs_path s = path.
Proof.
  intros Hh. unfold with_writer, persist_chat. destruct (load_json_document _ _ _ fs) as [loaded fs1] eqn:El.
  pose proof (load_json_document_keeps chat_from_str path "chat storage" fs) as Hk.
  pose proof (load_json_document_preserves_honest chat_from_str path "chat storage" fs Hh) as Hh1.
  rewrite El in Hk, Hh1. simpl in Hk, Hh1. intros (document & -> & Hrun)%bind_Ok_inv.
  apply bind_unit_Ok in Hrun as [Hok%validate_document_Ok Hrun]. pose proof (load_json_document_honest _ _ _ _ _ _ Hh El) as Hload.
  assert (contents fs1 (p_file_name path) = contents fs (p_file_name path)) as Hc by (unfold contents; by rewrite Hk).
  case_bool_decide as Hlen.
  - injection Hrun as <-. split; [|done]. constructor; simpl; [by apply document_ok_filter|done|].
    unfold stored_document. simpl. rewrite Hc, Hload, persisted_part_idempotent. simpl. f_equal.
    unfold persisted_part, with_threads in *. simpl in Hlen. destruct (default fresh_document document) as [v threads]. simpl in *.
    f_equal. clear -Hlen. induction threads as [|t l IH]; simpl in *; [done|].
    pose proof (List.filter_length_le should_persist l) as Hle. destruct (should_persist t); simpl in *; [|lia].
    f_equal. apply IH. lia.
  - pose proof (persist_honest chat_to_vec_pretty path (persisted_part (default fresh_document document)) "chat storage" fs1 Hh1) as Hh2.
    destruct (persist_json_document _ _ _ _ _ fs1) as [r fs2] eqn:Ep. simpl in Hh2.
    apply bind_Ok_inv in Hrun as ([] & Hr & [= <-]). split; [|done]. constructor; simpl; [by apply document_ok_filter|done|].
    apply persist_json_document_contents in Ep as [(bytes & [Hutf Hback]%chat_codec_roundtrip & Hb & _)|(e & -> & _)]; [|done].
    unfold stored_document. simpl. rewrite Hb. simpl. rewrite Hutf, Hback, persisted_part_idempotent. done.
Qed.

(** C22: Chat storage survives a restart, whatever happened before. After any sequence of calls,
    each of which may fail at any step of writing the file, the store opens again: the document
    on disk passes every check of a loaded document, and what is opened is what was in memory
    when the process ended, less the threads nobody ever wrote in. The calls are all those of
    the store, for fresh identifiers and for injected context that passed its handler. *)
Theorem chat_store_reopens path fs clock clock' s s' :
  honest fs -> with_writer path fs clock = Ok s -> rtc chat_step s s' ->
  (∃ reopened, with_writer path (quiet (cs_fs s')) clock' = Ok reopened /\
     cs_document reopened = persisted_part (cs_document s')) /\
  validate_persisted path (quiet (cs_fs s')) = Ok tt /\
  (∀ thread, thread ∈ sd_threads (cs_document s') -> thread ∉ sd_threads (persisted_part (cs_document s')) ->
     ct_revision thread = 0%N /\ ct_messages thread = [] /\ ct_contributions thread = [] /\
     ct_injected_contexts thread = [] /\ ct_injected_context_tombstones thread = []).
Proof.
  intros Hh [Hwf Hp]%with_writer_wf Hsteps; [|done].
  destruct (chat_steps_wf s s' Hwf Hsteps) as [[Hok Hh' Hst] Hp']. rewrite Hp in Hp'. clear Hp Hwf Hsteps.
  unfold stored_document in Hst. rewrite Hp' in Hst.
  assert (document_ok (persisted_part (cs_document s'))) as Hok' by by apply document_ok_filter.
  destruct (load_json_document_working chat_from_str path "chat storage" (cs_fs s')) as [fs1 Hload].
  apply fmap_Ok_inv in Hst as (loaded & Hl & Hd).
  split_and!.
  - unfold with_writer. rewrite Hload, Hl. cbn -[validate_document persisted_part].
    rewrite Hd, (proj2 (validate_document_Ok _) Hok'), persisted_part_idempotent. cbn -[persisted_part].
    rewrite bool_decide_eq_true_2 by done. by eexists.
  - unfold validate_persisted. rewrite Hload. cbn -[validate_document]. rewrite Hl. cbn -[validate_document].
    destruct loaded as [document|]; [|done]. simpl in Hd. subst document. by apply validate_document_Ok.
  - intros thread Hin Hnot. unfold persisted_part in Hnot. simpl in Hnot.
    rewrite list_elem_of_In, List.filter_In, <- list_elem_of_In in Hnot.
    assert (should_persist thread = false) as Hsp by (destruct (should_persist thread); [tauto|done]).
    unfold should_persist in Hsp.
    repeat (apply orb_false_iff in Hsp as [Hsp ?H%negb_false_iff%bool_decide_eq_true%length_zero_iff_nil]).
    apply N.ltb_ge in Hsp. split_and!; try done. lia.
Qed.

(** Injected context only moves forward. Whatever a command does and however it ends, in
    every thread the revision of a context that an app put there never falls, a revision keeps
    its content, and a context that was removed comes back only with a higher revision than the
    one it was removed with; nothing that was known is forgotten. [later] is a preorder, so the
    same holds of any sequence of commands; live contexts and tombstones stay well formed. *)
Theorem injected_context_moves_forward c s r s' thread thread' :
  chat_wf s -> command_allowed c s -> run_chat_command c s = (r, s') ->
  thread ∈ sd_threads (cs_document s) -> thread' ∈ sd_threads (cs_document s') -> ct_id thread = ct_id thread' ->
  contexts_ok thread' /\ ∀ id, later (context_status (held_of thread) id) (context_status (held_of thread') id).
Proof.
  intros Hwf Hc Hrun Ht Ht' Hid. destruct (run_chat_command_moves_on c s r s' Hwf Hc Hrun) as (Hwf' & _ & Hlater).
  split; [|by apply Hlater]. destruct (cw_document s' Hwf') as (_ & Hall & _). by apply Hall.
Qed.
End agreement.

(** ** Pages of a transcript *)

Section transcript.
Context (document : ChatStoreDocument).

(** Following the cursors from page to page. *)
Fixpoint read_transcript (fuel : nat) (resource_id : string) (cursor : option N) (limit : nat) :
    outcome string (list ChatMessageView) :=
  match fuel with
  | O => Err "out of fuel"
  | S fuel' =>
      page ← get_thread_page document resource_id cursor limit;
      match pg_next_cursor page with
      | None => Ok (pg_messages page)
      | Some next =>
          rest ← read_transcript fuel' resource_id (Some next) limit;
          Ok (pg_messages page ++ rest)
      end
  end.

Lemma read_transcript_step fuel resource_id cursor limit :
  read_transcript (S fuel) resource_id cursor limit =
  (page ← get_thread_page document resource_id cursor limit;
   match pg_next_cursor page with
   | None => Ok (pg_messages page)
   | Some next => rest ← read_transcript fuel resource_id (Some next) limit; Ok (pg_messages page ++ rest)
   end).
Proof. done. Qed.

(** The public messages of a thread, in order. *)
Definition transcript (thread : ChatThread) : list ChatMessageView :=
  omap (fun entry => message_view thread entry.1 entry.2) (enumerate_from 0 (ct_messages thread)).

Definition from_sequence (start : N) (views : list ChatMessageView) : list ChatMessageView :=
  List.filter (fun view => negb (vw_sequence view <? start)%N) views.

Lemma message_view_sequence thread n m view : message_view thread n m = Some view -> vw_sequence view = n.
Proof. unfold message_view. by destruct (public_role (mg_role m)); intros [= <-]. Qed.

Lemma public_messages_transcript thread cursor limit :
  public_messages thread cursor limit =
  take limit (from_sequence (default 0%N ((fun value => saturating_add value 1) <$> cursor)) (transcript thread)).
Proof.
  unfold public_messages, transcript, from_sequence. f_equal. set (start := default _ _).
  induction (enumerate_from 0 (ct_messages thread)) as [|[n m] l IH]; csimpl; [done|].
  destruct (message_view thread n m) as [view|] eqn:Ev; csimpl.
  - apply message_view_sequence in Ev. rewrite Ev. destruct (n <? start)%N; csimpl; by rewrite IH.
  - destruct (n <? start)%N; csimpl; by rewrite IH.
Qed.

(** Sequences grow along a transcript and stay below the number of messages. *)
Fixpoint rising (low : N) (views : list ChatMessageView) : Prop :=
  match views with
  | [] => True
  | view :: views' => (low <= vw_sequence view)%N /\ rising (vw_sequence view + 1) views'
  end.

Lemma rising_weaken low low' views : (low' <= low)%N -> rising low views -> rising low' views.
Proof. destruct views; simpl; [done|]. intros ? [? ?]. split; [lia|done]. Qed.

Lemma rising_from low start views : rising low views -> (start <= low)%N -> from_sequence start views = views.
Proof.
  revert low. induction views as [|view views IH]; intros low; simpl; [done|]. intros [Hl Hr] Hs.
  rewrite (proj2 (N.ltb_ge _ _)) by lia. simpl. by rewrite (IH _ Hr) by lia.
Qed.

(** The messages after the [k]-th are those from its successor on. *)
Lemma from_after low views k view :
  rising low views -> views !! k = Some view -> from_sequence (vw_sequence view + 1) views = drop (S k) views.
Proof.
  revert low k. induction views as [|v views IH]; intros low k; [done|]. simpl. intros [Hl Hr].
  destruct k as [|k]; simpl.
  - intros [= ->]. rewrite (proj2 (N.ltb_lt _ _)) by lia. simpl. rewrite drop_0. by eapply rising_from.
  - intros Hk. assert (vw_sequence v < vw_sequence view)%N as Hlt.
    { clear IH. revert k Hk Hr. generalize (vw_sequence v) as n. induction views as [|w views IH]; intros n k Hk Hr; [done|].
      simpl in Hr. destruct Hr as [Hw Hr]. destruct k as [|k]; simpl in Hk; [injection Hk as ->; lia|].
      specialize (IH _ _ Hk Hr). lia. }
    rewrite (proj2 (N.ltb_lt _ _)) by lia. simpl. by eapply IH.
Qed.

Lemma transcript_rising thread : rising 0 (transcript thread).
Proof.
  unfold transcript. generalize 0%N as n. induction (ct_messages thread) as [|m l IH]; intros n; csimpl; [done|].
  destruct (message_view thread n m) as [view|] eqn:Ev; csimpl.
  - apply message_view_sequence in Ev. rewrite Ev. split; [lia|apply IH].
  - eapply rising_weaken; [|apply IH]. lia.
Qed.

Lemma transcript_bounded thread view :
  view ∈ transcript thread -> (vw_sequence view < N.of_nat (length (ct_messages thread)))%N.
Proof.
  assert (∀ n l, view ∈ omap (fun entry => message_view thread entry.1 entry.2) (enumerate_from n l) ->
    vw_sequence view < n + N.of_nat (length l))%N as Hall; [|intros Hin; by apply Hall in Hin].
  intros n l. revert n. induction l as [|m l IH]; intros n Hin; csimpl in *; [inversion Hin|].
  destruct (message_view thread n m) as [v|] eqn:Ev; csimpl in *.
  - apply message_view_sequence in Ev. apply elem_of_cons in Hin as [->|Hin]; [lia|]. specialize (IH _ Hin). lia.
  - specialize (IH _ Hin). lia.
Qed.

Lemma length_transcript thread : length (transcript thread) <= length (ct_messages thread).
Proof.
  unfold transcript. generalize 0%N. induction (ct_messages thread) as [|m l IH]; intros n; csimpl; [done|].
  specialize (IH (n + 1)%N). destruct (message_view thread n m); csimpl; lia.
Qed.

(** Reading a transcript page by page ends and misses nothing. For a thread of fewer than
    2^64 messages and a page size the store accepts, following the cursors from the start
    returns, after at most one round per message and one more, exactly the messages of user and
    assistant in their order, each once; no page is longer than asked for. *)
Theorem pages_read_the_transcript resource_id thread limit :
  find_thread_by_resource_id document resource_id = Some thread -> 1 <= limit <= 100 ->
  (N.of_nat (length (ct_messages thread)) <= usize_max)%N ->
  read_transcript (S (length (ct_messages thread))) resource_id None limit = Ok (transcript thread) /\
  ∀ cursor page, get_thread_page document resource_id cursor limit = Ok page -> length (pg_messages page) <= limit.
Proof.
  intros Hfind Hlimit Hmax.
  assert (∀ cursor, get_thread_page document resource_id cursor limit =
    let messages := public_messages thread cursor (limit + 1) in
    Ok {| pg_thread := thread_ref thread; pg_messages := take limit messages;
          pg_next_cursor := if limit <? length messages then vw_sequence <$> messages !! (limit - 1) else None |}) as Hpage.
  { intros cursor. unfold get_thread_page. rewrite Hfind.
    rewrite (proj2 (Nat.leb_le 1 limit)), (proj2 (Nat.leb_le limit 100)) by lia. done. }
  split; [|intros cursor page; rewrite Hpage; intros [= <-]; simpl; rewrite length_take; lia].
  set (views := transcript thread).
  assert (∀ k fuel cursor, length views - k < fuel ->
    from_sequence (default 0%N ((fun value => saturating_add value 1) <$> cursor)) views = drop k views ->
    read_transcript fuel resource_id cursor limit = Ok (drop k views)) as Hread; cycle 1.
  { apply (Hread 0).
    - pose proof (length_transcript thread). unfold views. lia.
    - simpl. rewrite drop_0. eapply rising_from; [apply transcript_rising|lia]. }
  intros k fuel. revert k. induction fuel as [|fuel IH]; intros k cursor Hfuel Hfrom; [lia|].
  rewrite read_transcript_step, Hpage, public_messages_transcript. fold views. rewrite Hfrom. cbn -[take drop read_transcript Nat.ltb Nat.min].
  rewrite length_take, take_take, length_drop.
  destruct (Nat.ltb_spec limit (Nat.min (limit + 1) (length views - k))) as [Hlt|Hge]; cbn -[take drop read_transcript Nat.ltb Nat.min].
  - destruct (views !! (k + (limit - 1))) as [view|] eqn:Ev; [|apply lookup_ge_None in Ev; lia].
    rewrite lookup_take_lt, lookup_drop, Ev by lia. cbn -[take drop read_transcript Nat.ltb Nat.min].
    rewrite (IH (k + limit)); [| |].
    + cbn -[take drop Nat.min]. rewrite Nat.min_l by lia. f_equal. rewrite <- drop_drop. apply take_drop.
    + lia.
    + cbn -[drop]. pose proof (transcript_bounded thread view (list_elem_of_lookup_2 _ _ _ Ev)) as Hb.
      assert (saturating_add (vw_sequence view) 1 = (vw_sequence view + 1)%N) as -> by (unfold saturating_add; lia).
      rewrite (from_after 0 views (k + (limit - 1)) view); [f_equal; lia|apply transcript_rising|done].
  - f_equal. rewrite take_ge; [done|]. rewrite length_drop. lia.
Qed.
End transcript.
