(* ===== verification/HostDemo.v ===== *)
(** * A concrete host for the durable documents

    Text encodings that satisfy the laws the documents rely on, and an identifier
    source, so that the theorems on the host's files have instances that evaluate.
    A value is laid out as a tree of strings and the tree is written as a string of
    binary digits through its numbering. *)

From stdpp Require Import countable.
From S2P Require Import Prelude RustStd RustText Json Types AtomicJson Durable FileStore Packages PublisherTrust.
From S2P Require Import JsonOps AppData UpdateJournal AppManager PermissionsApp Drive FileResources.

(** ** Identifiers *)

#[export] Instance demo_uuids : Uuids := {
  new_v4 n := "uuid-" +:+ pretty (N.of_nat n);
  parse_str_ok := starts_with "uuid-";
}.

#[export] Instance demo_uuids_laws : UuidsLaws.
Proof. by split. Qed.

(** ** Binary digits *)

Definition digit0 : Ascii.ascii := Ascii.ascii_of_N 48.
Definition digit1 : Ascii.ascii := Ascii.ascii_of_N 49.

Fixpoint digits_of (p : positive) : string :=
  match p with
  | xH => EmptyString
  | xO p' => String digit0 (digits_of p')
  | xI p' => String digit1 (digits_of p')
  end.

Fixpoint of_digits (s : string) : option positive :=
  match s with
  | EmptyString => Some xH
  | String c s' =>
      p ← of_digits s';
      if bool_decide (c = digit0) then Some (xO p)
      else if bool_decide (c = digit1) then Some (xI p) else None
  end.

Lemma of_digits_of p : of_digits (digits_of p) = Some p.
Proof. induction p as [p IH|p IH|]; simpl; rewrite ?IH; done. Qed.

Lemma digits_utf8 p : utf8_valid (digits_of p) = true.
Proof. by induction p. Qed.

#[local] Unset Program Cases.

(** ** Trees of strings *)

Abbreviation tree := (gen_tree string).

Class Layout (T : Type) := {
  to_tree : T -> tree;
  of_tree : tree -> option T;
  of_to_tree : ∀ x, of_tree (to_tree x) = Some x;
}.

#[export] Program Instance string_layout : Layout string := {
  to_tree := GenLeaf;
  of_tree t := match t with GenLeaf s => Some s | _ => None end;
}.
Next Obligation. done. Qed.

(** Numbers, by their own numbering. *)
Program Definition numbered `{Countable T} : Layout T := {|
  to_tree x := GenLeaf (digits_of (encode x));
  of_tree t := match t with GenLeaf s => of_digits s ≫= decode | _ => None end;
|}.
Next Obligation. intros T ? ? x. simpl. rewrite of_digits_of. simpl. apply decode_encode. Qed.

#[export] Instance N_layout : Layout N := numbered.
#[export] Instance Z_layout : Layout Z := numbered.

#[export] Program Instance bool_layout : Layout bool := {
  to_tree b := GenNode (if b then 1 else 0) [];
  of_tree t := match t with GenNode 0 [] => Some false | GenNode 1 [] => Some true | _ => None end;
}.
Next Obligation. by intros []. Qed.

#[export] Program Instance option_layout `{Layout T} : Layout (option T) := {
  to_tree o := match o with None => GenNode 0 [] | Some x => GenNode 1 [to_tree x] end;
  of_tree t := match t with GenNode 0 [] => Some None | GenNode 1 [t'] => Some <$> of_tree t' | _ => None end;
}.
Next Obligation. intros T L [x|]; [|done]. by rewrite of_to_tree. Qed.

#[export] Program Instance list_layout `{Layout T} : Layout (list T) := {
  to_tree l := GenNode 0 (to_tree <$> l);
  of_tree t := match t with GenNode 0 ts => mapM of_tree ts | _ => None end;
}.
Next Obligation.
  intros T L l. simpl. apply mapM_fmap_Some. intros x. apply of_to_tree.
Qed.

#[export] Program Instance prod_layout `{Layout A, Layout B} : Layout (A * B) := {
  to_tree p := GenNode 0 [to_tree p.1; to_tree p.2];
  of_tree t := match t with
    | GenNode 0 [t1; t2] => a ← of_tree t1; b ← of_tree t2; Some (a, b)
    | _ => None
    end;
}.
Next Obligation. intros A L1 B L2 [a b]. simpl. by rewrite of_to_tree; simpl; rewrite of_to_tree. Qed.

(** A type that embeds in one that has a layout. *)
Program Definition embedded {A B} `{Layout B} (f : A -> B) (g : B -> option A)
    (gf : ∀ x, g (f x) = Some x) : Layout A := {|
  to_tree x := to_tree (f x);
  of_tree t := b ← of_tree t; g b;
|}.
Next Obligation. intros A B L f g gf x. simpl. rewrite of_to_tree. simpl. apply gf. Qed.

(** ** Documents as text *)

Definition write_document `{Layout T} (x : T) : string + string := inr (digits_of (encode (to_tree x))).

Definition read_document `{Layout T} (s : string) : string + T :=
  match (p ← of_digits s; t ← decode (A := tree) p; of_tree (T := T) t) with
  | Some x => inr x
  | None => inl "expected value"
  end.

Lemma document_roundtrip `{Layout T} (x : T) bytes :
  write_document x = inr bytes -> utf8_valid bytes = true /\ read_document bytes = inr x.
Proof.
  intros [= <-]. split; [apply digits_utf8|]. unfold read_document.
  rewrite of_digits_of. simpl. rewrite decode_encode. simpl. by rewrite of_to_tree.
Qed.

(** Enumerations are laid out by the position of their values. *)
Lemma lookup_index {A} `{EqDecision A} (l : list A) x :
  x ∈ l -> (list_find (x =.) l ≫= fun p => l !! p.1) = Some x.
Proof.
  intros Hx. destruct (list_find_elem_of (x =.) l x Hx eq_refl) as [[i y] Hi]. rewrite Hi. simpl.
  apply list_find_Some in Hi as (Hl & -> & _). done.
Qed.

Program Definition enumerated {A} `{EqDecision A} (l : list A) (full : ∀ x, x ∈ l) : Layout A := {|
  to_tree x := GenNode (match list_find (x =.) l with Some p => p.1 | None => 0 end) [];
  of_tree t := match t with GenNode i [] => l !! i | _ => None end;
|}.
Next Obligation.
  intros A ? l full x. simpl. pose proof (lookup_index l x (full x)) as Hl.
  by destruct (list_find _ l) as [[i y]|].
Qed.

(** Records are laid out as the tuple of their fields. *)
Ltac record_layout := intros []; reflexivity.
Ltac enum_layout := intros []; set_solver.

(** ** Publisher trust *)

(** A signature is the key twice. *)
#[export] Instance demo_signatures : Signatures := {
  base64_decode := inr;
  key_sha256_hex := id;
  VerifyingKey := string;
  VerifyingKey_from_bytes := inr;
  ed25519_verify key _ signature :=
    if bool_decide (signature = key +:+ key) then inr tt else inl "signature error";
}.

#[export] Instance TrustScope_layout : Layout TrustScope := embedded
  (fun s => match s with ScopeAppId a => (true, a) | ScopeNamespacePrefix p => (false, p) end)
  (fun p => Some (if (p : bool * string).1 then ScopeAppId p.2 else ScopeNamespacePrefix p.2))
  ltac:(record_layout).
#[export] Instance TrustStatus_layout : Layout TrustStatus :=
  enumerated [StatusTrusted; StatusRevoked] ltac:(enum_layout).
#[export] Instance TrustRecord_layout : Layout TrustRecord := embedded
  (fun r => (tr_key_id r, tr_public_key r, tr_scope r, tr_status r))
  (fun '(k, p, s, t) => Some {| tr_key_id := k; tr_public_key := p; tr_scope := s; tr_status := t |})
  ltac:(record_layout).
#[export] Instance TrustStoreDocument_layout : Layout TrustStoreDocument := embedded
  (fun d => (td_version d, td_entries d))
  (fun '(v, e) => Some {| td_version := v; td_entries := e |})
  ltac:(record_layout).

#[export] Instance demo_trust_codec : TrustCodec := {
  trust_to_vec_pretty := write_document;
  trust_from_str := read_document;
}.
#[export] Instance demo_trust_codec_laws : TrustCodecLaws.
Proof. split. apply document_roundtrip. Qed.

(** ** App data *)

#[export] Instance AppDataRevision_layout : Layout AppDataRevision := embedded
  (fun r => (adr_revision_id r, adr_format_version r, adr_package_revision_id r, adr_created_at r))
  (fun '(i, f, p, c) => Some {| adr_revision_id := i; adr_format_version := f;
                                adr_package_revision_id := p; adr_created_at := c |})
  ltac:(record_layout).
#[export] Instance AppDataState_layout : Layout AppDataState := embedded
  (fun s => (ads_version s, ads_active_revision_id s, ads_revisions s))
  (fun '(v, a, r) => Some {| ads_version := v; ads_active_revision_id := a; ads_revisions := r |})
  ltac:(record_layout).

#[export] Instance demo_app_data_codec : AppDataCodec := {
  state_to_vec_pretty := write_document;
  state_from_str := read_document;
}.
#[export] Instance demo_app_data_codec_laws : AppDataCodecLaws.
Proof. split. apply document_roundtrip. Qed.

(** ** Install records and the update journal *)

#[export] Instance AppRevision_layout : Layout AppRevision := embedded
  (fun r => (rv_revision_id r, rv_version r, rv_display_name r, rv_description r, rv_backend_kind r,
             rv_publisher r, rv_signature_verdict r, rv_signature_key_id r, rv_min_host_version r,
             rv_installed_at r, rv_payload_dir r, rv_package_digest r))
  (fun '(i, v, n, d, b, p, sv, sk, m, t, dir, dg) => Some
     {| rv_revision_id := i; rv_version := v; rv_display_name := n; rv_description := d;
        rv_backend_kind := b; rv_publisher := p; rv_signature_verdict := sv;
        rv_signature_key_id := sk; rv_min_host_version := m; rv_installed_at := t;
        rv_payload_dir := dir; rv_package_digest := dg |})
  ltac:(record_layout).
#[export] Instance InstallRecord_layout : Layout InstallRecord := embedded
  (fun r => (ir_id r, ir_enabled r, ir_uninstalling r, ir_lifecycle_generation r, ir_purge_secrets r,
             ir_purge_data r, ir_purge_secret_names r, ir_active_revision_id r, ir_revisions r))
  (fun '(i, e, u, g, ps, pd, pn, a, rs) => Some
     {| ir_id := i; ir_enabled := e; ir_uninstalling := u; ir_lifecycle_generation := g;
        ir_purge_secrets := ps; ir_purge_data := pd; ir_purge_secret_names := pn;
        ir_active_revision_id := a; ir_revisions := rs |})
  ltac:(record_layout).
#[export] Instance StoreDocument_layout : Layout StoreDocument := embedded
  (fun d => (so_version d, so_apps d)) (fun '(v, a) => Some {| so_version := v; so_apps := a |})
  ltac:(record_layout).
#[export] Instance AppDataTransitionJournal_layout : Layout AppDataTransitionJournal := embedded
  (fun t => (dt_source_revision_id t, dt_source_format_version t, dt_source_digest t, dt_candidate t,
             dt_candidate_digest t, dt_migration_revision_id t, dt_destructive t))
  (fun '(s, f, sd, c, cd, m, d) => Some
     {| dt_source_revision_id := s; dt_source_format_version := f; dt_source_digest := sd;
        dt_candidate := c; dt_candidate_digest := cd; dt_migration_revision_id := m;
        dt_destructive := d |})
  ltac:(record_layout).
#[export] Instance ManagedAppOperation_layout : Layout ManagedAppOperation :=
  enumerated [OpInstall; OpUpdate; OpReinstall; OpVersionConflict; OpDowngrade; OpRevert] ltac:(enum_layout).
#[export] Instance UpdatePhase_layout : Layout UpdatePhase :=
  enumerated [Prepared; Deactivated; DataCandidateValidated; DataCommitted; Activated; RollingBack;
              DataRollbackCommitted; RolledBack; UpdateCommitted] ltac:(enum_layout).
#[export] Instance UpdateJournal_layout : Layout UpdateJournal := embedded
  (fun j => (uj_version j, uj_transition_id j, uj_app_id j, uj_operation j, uj_phase j,
             uj_current_revision_id j, uj_target_revision j, uj_prior_revisions j, uj_enabled j,
             uj_data_transition j))
  (fun '(v, t, a, o, p, c, tr, pr, e, d) => Some
     {| uj_version := v; uj_transition_id := t; uj_app_id := a; uj_operation := o; uj_phase := p;
        uj_current_revision_id := c; uj_target_revision := tr; uj_prior_revisions := pr;
        uj_enabled := e; uj_data_transition := d |})
  ltac:(record_layout).

#[export] Instance demo_manager_codec : ManagerCodec := {
  store_to_vec_pretty := write_document;
  store_from_str := read_document;
  journal_to_vec_pretty := write_document;
  journal_from_str := read_document;
}.
#[export] Instance demo_manager_codec_laws : ManagerCodecLaws.
Proof. split; apply document_roundtrip. Qed.

(** ** User-chosen files *)

#[export] Instance FileResourceKind_layout : Layout FileResourceKind :=
  enumerated [ResourceFile; ResourceDirectory] ltac:(enum_layout).
#[export] Instance FileResourceRecord_layout : Layout FileResourceRecord := embedded
  (fun r => (fr_resource_id r, fr_display_name r, fr_kind r, fr_canonical_path r, fr_created_at r))
  (fun '(i, n, k, p, t) => Some {| fr_resource_id := i; fr_display_name := n; fr_kind := k; fr_canonical_path := p;
                                   fr_created_at := t |})
  ltac:(record_layout).
#[export] Instance FileRegistryDocument_layout : Layout FileResourceRegistryDocument := embedded
  (fun d => (fd_version d, fd_resources d, fd_pending_removals d))
  (fun '(v, r, p) => Some {| fd_version := v; fd_resources := r; fd_pending_removals := p |})
  ltac:(record_layout).

#[export] Instance demo_file_registry_codec : FileRegistryCodec := {
  file_registry_to_vec_pretty := write_document;
  file_registry_from_str := read_document;
}.
#[export] Instance demo_file_registry_codec_laws : FileRegistryCodecLaws.
Proof. split. apply document_roundtrip. Qed.

(** A clock that ticks, and base64 that leaves its text alone. *)
#[export] Instance demo_file_libraries : FileLibraries := {
  file_clock n := Z.of_nat n;
  base64_standard_encode := id;
  base64_standard_decode := inr;
}.
#[export] Instance demo_file_libraries_laws : FileLibrariesLaws.
Proof. by split. Qed.

#[export] Instance demo_file_times : FileTimes := { modified_at _ _ := None }.

(** A request's fields; a missing or null one is absent. *)
Definition text_field (v : Value) (name : string) : option string := Value_get v name ≫= Value_as_str.

Definition with_resource {R} (f : Value -> ResourceId -> R) (v : Value) : string + R :=
  match text_field v "resource_id" with
  | Some id => inr (f v id)
  | None => inl "missing field `resource_id`"
  end.

#[export] Instance demo_file_requests : FileRequestCodec := {
  operation_request_from_value := with_resource (fun v id =>
    {| or_resource_id := id; or_relative_path := text_field v "relative_path" |});
  file_read_request_from_value := with_resource (fun v id =>
    {| rr_resource_id := id; rr_relative_path := text_field v "relative_path"; rr_limit_bytes := None |});
  write_request_from_value := with_resource (fun v id =>
    {| wr_resource_id := id; wr_relative_path := text_field v "relative_path";
       wr_content_base64 := default "" (text_field v "content_base64");
       wr_expected_sha256 := text_field v "expected_sha256" |});
  delete_request_from_value := with_resource (fun v id =>
    {| dr_resource_id := id; dr_relative_path := text_field v "relative_path";
       dr_expected_sha256 := text_field v "expected_sha256" |});
  list_view_to_value view := inr (VArray ((fun e => VString (join_names (fe_path e))) <$> fl_entries view));
  read_view_to_value view := inr (json_obj [("content_base64", VString (rv_content_base64 view));
                                            ("truncated", VBool (rv_truncated view))]);
  write_view_to_value view := inr (json_obj [("replaced", VBool (wv_replaced view))]);
  delete_view_to_value view := inr (json_obj [("deleted", VBool (xv_deleted view))]);
}.
