(* ===== verification/ManagedDemo.v ===== *)
(** * A concrete world for managed data

    Encodings of the documents of [managed_data.rs] that satisfy their laws, a digest of
    the right shape, a counter for UUIDs and dates, and a package contract with one record
    and one document collection, so that the store's theorems have instances that evaluate. *)

From stdpp Require Import countable.
From S2P Require Import Prelude RustStd RustText Json JsonOps Types Manifest Platform AtomicJson Packages ManagedData ManagedV2 HostDemo.

#[local] Unset Program Cases.

(** ** Layouts *)

Section gmap.
Context {K T : Type} `{EqDecision K, Countable K} (LK : Layout K) (LT : Layout T).

Definition entries : Layout (list (K * T)) := @list_layout _ (@prod_layout _ LK _ LT).

Definition map_to_tree (m : gmap K T) : tree := @to_tree _ entries (map_to_list m).

Definition tree_to_map (t : tree) : option (gmap K T) :=
  list_to_map <$> @of_tree _ entries t.

Lemma tree_to_map_to_tree m : tree_to_map (map_to_tree m) = Some m.
Proof. unfold tree_to_map, map_to_tree. rewrite (@of_to_tree _ entries). simpl. by rewrite list_to_map_to_list. Qed.
End gmap.

#[export] Instance gmap_layout {K T} `{EqDecision K, Countable K} `{LK : Layout K} `{LT : Layout T} :
    Layout (gmap K T) :=
  {| to_tree := map_to_tree LK LT; of_tree := tree_to_map LK LT; of_to_tree := tree_to_map_to_tree LK LT |}.

Fixpoint value_to_tree (v : Value) : tree :=
  match v with
  | VNull => GenNode 0 []
  | VBool b => GenNode 1 [to_tree b]
  | VNumber t => GenNode 2 [GenLeaf t]
  | VString s => GenNode 3 [GenLeaf s]
  | VArray items => GenNode 4 (value_to_tree <$> items)
  | VObject members => GenNode 5 ((fun kv => GenNode 0 [GenLeaf kv.1; value_to_tree kv.2]) <$> members)
  end.

Fixpoint tree_to_value (t : tree) : option Value :=
  match t with
  | GenNode 0 [] => Some VNull
  | GenNode 1 [t'] => VBool <$> of_tree t'
  | GenNode 2 [GenLeaf s] => Some (VNumber s)
  | GenNode 3 [GenLeaf s] => Some (VString s)
  | GenNode 4 ts => VArray <$> mapM tree_to_value ts
  | GenNode 5 ts =>
      VObject <$> mapM (fun t => match t with
        | GenNode 0 [GenLeaf k; t'] => pair k <$> tree_to_value t'
        | _ => None
        end) ts
  | _ => None
  end.

Lemma tree_to_value_to_tree v : tree_to_value (value_to_tree v) = Some v.
Proof.
  induction v as [|b|t|s|items IH|members IH] using Value_ind; simpl; [done|by destruct b|done|done|..].
  - assert (mapM tree_to_value (value_to_tree <$> items) = Some items) as ->; [|done].
    by apply mapM_fmap_Forall_Some.
  - match goal with |- VObject <$> ?m = _ => assert (m = Some members) as ->; [|done] end.
    apply (mapM_fmap_Forall_Some _ (fun kv => GenNode 0 [GenLeaf kv.1; value_to_tree kv.2])).
    eapply Forall_impl; [exact IH|]. intros [k x] Hx. simpl in *. by rewrite Hx.
Qed.

#[export] Instance Value_layout : Layout Value :=
  {| to_tree := value_to_tree; of_tree := tree_to_value; of_to_tree := tree_to_value_to_tree |}.

#[export] Instance ManagedDataRecord_layout : Layout ManagedDataRecord := embedded
  (fun r => (mr_id r, mr_revision r, mr_created_at r, mr_updated_at r, mr_value r))
  (fun '(i, n, c, u, v) => Some {| mr_id := i; mr_revision := n; mr_created_at := c; mr_updated_at := u; mr_value := v |})
  ltac:(record_layout).
#[export] Instance ManagedDataDocument_layout : Layout ManagedDataDocument := embedded
  (fun d => (mdoc_version d, mdoc_generation d, mdoc_contract_digest d, mdoc_collections d))
  (fun '(v, g, c, r) => Some {| mdoc_version := v; mdoc_generation := g; mdoc_contract_digest := c; mdoc_collections := r |})
  ltac:(record_layout).
#[export] Instance ManagedDataMutation_layout : Layout ManagedDataMutation := embedded
  (fun m => match m with
            | MutCreate c v => (c, None, v)
            | MutReplace c i r v => (c, Some (i, r, true), v)
            | MutDelete c i r => (c, Some (i, r, false), [])
            end)
  (fun '(c, t, v) => Some match t with
            | None => MutCreate c v
            | Some (i, r, true) => MutReplace c i r v
            | Some (i, r, false) => MutDelete c i r
            end)
  ltac:(record_layout).
#[export] Instance DocumentOperation_layout : Layout ManagedDataV2DocumentOperation := embedded
  (fun o => match o with
            | DopCreate s c m l h => (c, Some m, None, Some (s, l, h))
            | DopReplace s c i r m l h => (c, Some m, Some (i, r), Some (s, l, h))
            | DopUpdateMetadata c i r m => (c, Some m, Some (i, r), None)
            | DopDelete c i r => (c, None, Some (i, r), None)
            end)
  (fun '(c, m, t, b) => match m, t, b with
            | Some m, None, Some (s, l, h) => Some (DopCreate s c m l h)
            | Some m, Some (i, r), Some (s, l, h) => Some (DopReplace s c i r m l h)
            | Some m, Some (i, r), None => Some (DopUpdateMetadata c i r m)
            | None, Some (i, r), None => Some (DopDelete c i r)
            | _, _, _ => None
            end)
  ltac:(record_layout).
#[export] Instance ManagedDocumentRecord_layout : Layout ManagedDocumentRecord := embedded
  (fun d => (dr_id d, dr_revision d, dr_created_at d, dr_updated_at d, dr_metadata d, dr_content_sha256 d,
             dr_content_length d))
  (fun '(i, r, c, u, m, h, l) => Some
     {| dr_id := i; dr_revision := r; dr_created_at := c; dr_updated_at := u; dr_metadata := m;
        dr_content_sha256 := h; dr_content_length := l |})
  ltac:(record_layout).
#[export] Instance ManagedDataReceipt_layout : Layout ManagedDataReceipt := embedded
  (fun r => (rc_digest r, rc_result r, rc_generation r, rc_recorded_at r))
  (fun '(d, v, g, t) => Some {| rc_digest := d; rc_result := v; rc_generation := g; rc_recorded_at := t |})
  ltac:(record_layout).
#[export] Instance ManagedDataV2Envelope_layout : Layout ManagedDataV2Envelope := embedded
  (fun e => (env_version e, env_generation e, env_contract_digest e, env_collections e, env_documents e, env_receipts e))
  (fun '(v, g, c, rs, ds, rc) => Some
     {| env_version := v; env_generation := g; env_contract_digest := c; env_collections := rs;
        env_documents := ds; env_receipts := rc |})
  ltac:(record_layout).
#[export] Instance ManagedDataStageDocument_layout : Layout ManagedDataStageDocument := embedded
  (fun d => (sd_stage_id d, sd_operation d, sd_chunks d))
  (fun '(s, o, c) => Some {| sd_stage_id := s; sd_operation := o; sd_chunks := c |})
  ltac:(record_layout).
#[export] Instance ManagedDataStage_layout : Layout ManagedDataStage := embedded
  (fun s => (sg_version s, sg_batch_id s, sg_expected_generation s, sg_contract_digest s, sg_records s, sg_documents s,
             sg_receipts s, sg_expires_at s))
  (fun '(v, b, g, c, r, d, rc, e) => Some
     {| sg_version := v; sg_batch_id := b; sg_expected_generation := g; sg_contract_digest := c; sg_records := r;
        sg_documents := d; sg_receipts := rc; sg_expires_at := e |})
  ltac:(record_layout).

(** ** Encodings *)

Fixpoint render (v : Value) : string :=
  match v with
  | VNull => "null"
  | VBool b => if b then "true" else "false"
  | VNumber t => t
  | VString s => "'" +:+ s +:+ "'"
  | VArray items => "[" +:+ String.concat "," (render <$> items) +:+ "]"
  | VObject members => "{" +:+ String.concat "," ((fun kv => kv.1 +:+ ":" +:+ render kv.2) <$> members) +:+ "}"
  end.

(** The requests of the scenario: the digest needs to tell them apart. *)
Definition render_request (request : ManagedDataV2Request) : string :=
  match request with
  | V2Create m g c v => "create " +:+ m +:+ " " +:+ pretty g +:+ " " +:+ c +:+ " " +:+ render (VObject v)
  | V2Replace m g c i r v =>
      "replace " +:+ m +:+ " " +:+ pretty g +:+ " " +:+ c +:+ " " +:+ i +:+ " " +:+ pretty r +:+ render (VObject v)
  | V2Delete m g c i r => "delete " +:+ m +:+ " " +:+ pretty g +:+ " " +:+ c +:+ " " +:+ i +:+ " " +:+ pretty r
  | V2BeginBatch m g _ _ => "begin " +:+ m +:+ " " +:+ pretty g
  | V2AppendBatchOperations m b _ => "append " +:+ m +:+ " " +:+ b
  | V2AppendDocumentChunk m b d i c => "chunk " +:+ m +:+ " " +:+ b +:+ " " +:+ d +:+ pretty i +:+ " " +:+ c
  | V2CommitBatch m b => "commit " +:+ m +:+ " " +:+ b
  | V2AbortBatch m b => "abort " +:+ m +:+ " " +:+ b
  | _ => "read"
  end.

(** Sixty-four digits: of each byte of the text, whether it is in the upper half of the
    alphabet, and zeros. *)
Fixpoint digest_digits (n : nat) (s : string) : string :=
  match n, s with
  | 0, _ => EmptyString
  | S n', EmptyString => String digit0 (digest_digits n' EmptyString)
  | S n', String c s' =>
      String (if (N.of_nat (Ascii.nat_of_ascii c) <? 110)%N then Ascii.ascii_of_N 97 else Ascii.ascii_of_N 98) (digest_digits n' s')
  end.

#[export] Instance managed_libraries : Libraries := {
  schema_validator_for _ := Ok (fun _ => []);
  json_to_vec v := Ok (render v);
  json_to_string_pretty o := render (VObject o);
  manifest_to_string m := m_app_id m;
  sha256_hex s := digest_digits 64 s;
  max_utc := 8000000000000%Z;
  instant_max := 8000000000%Z;
}.

#[export] Instance managed_world : ManagedWorld nat := {
  fresh_uuid n := ("uuid-" +:+ pretty (N.of_nat n), S n);
  now_rfc3339 n := ("t" +:+ pretty (N.of_nat n), S n);
  epoch_seconds n := (N.of_nat n, n);
  canonical_v4 := starts_with "uuid-";
  parse_from_rfc3339 _ := Some 0%Z;
}.

#[export] Instance managed_codec : ManagedCodec := {
  mdoc_to_vec_pretty := write_document;
  mdoc_from_str := read_document;
  contract_to_vec contract := inr (pretty (msl_total_bytes (hm_limits contract)));
}.
#[export] Instance managed_codec_laws : ManagedCodecLaws.
Proof. split. apply document_roundtrip. Qed.

#[export] Instance managed_v2_codec : V2Codec := {
  env_to_vec_pretty := write_document;
  env_from_str := read_document;
  stage_to_vec_pretty := write_document;
  stage_to_vec := write_document;
  stage_from_str := read_document;
  request_to_vec request := inr (render_request request);
  base64_encode bytes := "=" +:+ bytes;
  base64_decode := strip_prefix "=";
}.
#[export] Instance managed_v2_codec_laws : V2CodecLaws.
Proof. split; [apply document_roundtrip..|]. intros bytes. apply strip_prefix_app. Qed.

(** ** A package *)

Definition all_operations : list ManagedDataOperation :=
  [OpGet; OpList; OpCreate; OpReplace; OpDelete; OpTransaction].

Definition items_collection : ManagedDataCollection :=
  {| mdc_schema := []; mdc_indexes := [{| mdi_name := "by-title"; mdi_field := "title"; mdi_value_schema := [];
                                          mdi_unique := true |}];
     mdc_operations := all_operations;
     mdc_limits := {| mcl_records := 10; mcl_record_bytes := 100; mcl_query_results := 1 |} |}.

Definition files_collection : ManagedDocumentCollection :=
  {| mdd_metadata_schema := [];
     mdd_operations := [DocGet; DocList; DocCreate; DocReplace; DocUpdateMetadata; DocDelete];
     mdd_limits := {| mdl_documents := 4; mdl_metadata_bytes := 100; mdl_content_bytes := 100 |} |}.

Definition demo_contract (version total_bytes : N) : HostManagedDataRef :=
  {| hm_contract_version := version; hm_collections := {["items" := items_collection]};
     hm_documents := {["files" := files_collection]};
     hm_limits := {| msl_total_bytes := total_bytes; msl_transaction_operations := 4; msl_batch_operations := Some 8%N |};
     hm_exports := []; hm_proposals := [] |}.

Definition titled (title : string) : JsonObject := [("title", VString title)].

(** An empty directory on a device without failures. *)
Definition no_files : FileSystem :=
  {| fs_exists := true; fs_dir := ∅; fs_pending := []; fs_faults := []; fs_uuids := 0 |}.

Definition demo_dir : ManagedDir nat := {| md_fs := no_files; md_links := ∅; md_world := 0 |}.
