(* ===== verification/HostWitnesses.v ===== *)
(** * Concrete instances for the host

    The conditional theorems on the host's components applied to concrete documents,
    directories and sessions, with the encodings of [HostDemo]. *)

From S2P Require Import Prelude RustStd RustText Json JsonOps Types Errors Grants Manifest Platform Ledger Registry.
From S2P Require Import Broker Artifacts Invocation Durable KernelState KernelGrants KernelInvoke KernelBoot Durability Session Scenario.
From S2P Require Import AtomicJson FileStore ToolMapping Packages.
From S2P Require Import PublisherTrust AppData UpdateJournal AppManager UpdateDriver.
From S2P Require Import AppManagerFacts UpdateFacts SurfaceUi PermissionsApp RemoteAuth RemoteAuthFacts Drive FileResources FileResourcesFacts HostDemo.

(** ** Directories *)

(** An empty directory of a device without failures. *)
Definition empty_dir : FileSystem :=
  {| fs_exists := true; fs_dir := ∅; fs_pending := []; fs_faults := []; fs_uuids := 0 |}.

(** A directory with one synced file. *)
Definition one_file (name bytes : string) : FileSystem :=
  {| fs_exists := true; fs_dir := {[name := {| f_bytes := bytes; f_synced := true |}]};
     fs_pending := []; fs_faults := []; fs_uuids := 0 |}.

Definition text_of (r : string + string) : string := match r with inr s => s | inl s => s end.

(** ** The kernel's state file *)

(** The durable states of a session that installs an app and starts a run of it. *)
Definition installed_kernel : Host.kernel := (Host.install [] Host.fresh_kernel).2.

Definition durable_of (k : Host.kernel) : DurableKernelState :=
  default DurableKernelState_empty (k_state_store k ≫= ms_state).

Definition start_notes {S} `{KernelStateStore S} : st (Kernel Host.World S) KernelError RunId :=
  start_run (InitApp "notes" "read") "read".

Definition installed_state : DurableKernelState := durable_of installed_kernel.
Definition started_state : DurableKernelState := durable_of (start_notes installed_kernel).2.

(** An encoding of these two states: one digit, with blanks around it in the pretty
    text. *)
Definition state_digit (state : DurableKernelState) : option string :=
  if decide (state = installed_state) then Some "0"
  else if decide (state = started_state) then Some "1" else None.

Definition digit_state (raw : string) : string + DurableKernelState :=
  if decide (raw = " 0 ") then inr installed_state
  else if decide (raw = " 1 ") then inr started_state else inl "expected value".

#[export] Instance demo_state_codec : StateCodec := {
  to_vec state := match state_digit state with Some d => inr d | None => inl "unsupported state" end;
  to_vec_pretty document :=
    match state_digit (doc_state document) with
    | Some d => write_document (doc_format_version document, doc_state_sha256 document, " " +:+ d +:+ " ")
    | None => inl "unsupported state"
    end;
  from_str_document bytes :=
    match HostDemo.read_document bytes : string + N * string * string with
    | inr (version, sum, raw) =>
        inr {| doc_format_version := version; doc_state_sha256 := sum; doc_state := raw |}
    | inl e => inl e
    end;
  from_str_state := digit_state;
  FileStore.sha256_hex s := "sha256:" +:+ s;
}.

#[export] Instance demo_state_codec_laws : StateCodecLaws.
Proof.
  split. intros [v sum state] bytes Hb. cbn [to_vec_pretty demo_state_codec doc_state doc_format_version
    doc_state_sha256] in *.
  destruct (state_digit state) as [d|] eqn:Hd; [|done]. apply document_roundtrip in Hb as [Hu Hr].
  split; [done|]. exists (" " +:+ d +:+ " "), [plain_token d].
  cbn [from_str_document to_vec from_str_state demo_state_codec]. rewrite Hr, Hd.
  assert (d = "0" /\ state = installed_state \/ d = "1" /\ state = started_state) as Hcase.
  { unfold state_digit in Hd. destruct (decide (state = installed_state)) as [E|_].
    { injection Hd as <-. left. exact (conj eq_refl E). }
    destruct (decide (state = started_state)) as [E|_]; [|discriminate].
    injection Hd as <-. right. exact (conj eq_refl E). }
  split; [done|]. cbn [compact_text token_text]. rewrite string_app_nil_r.
  split; [done|]. split.
  - apply (layout_token " " (plain_token d) [] " "); [done| |by constructor].
    by destruct Hcase as [[-> _]|[-> _]].
  - unfold digit_state. destruct Hcase as [[-> ->]|[-> ->]]; reflexivity.
Qed.

Definition kernel_file : Path := {| p_parent := "/data"; p_file_name := "kernel-state.json" |}.

(** The state file of the host with the app installed. *)
Definition installed_store : FileKernelStateStore :=
  {| fk_path := kernel_file;
     fk_fs := one_file "kernel-state.json" (text_of (to_vec_pretty
       {| doc_format_version := FORMAT_VERSION; doc_state_sha256 := "sha256:0";
          doc_state := installed_state |})) |}.

Definition booted : Kernel Host.World FileKernelStateStore :=
  (with_clock_and_state_store 0 7 Host.start installed_store).2.

Definition running : Kernel Host.World FileKernelStateStore := (start_notes booted).2.

Example file_session_runs :
  is_ok (with_clock_and_state_store 0 7 Host.start installed_store).1 = true /\
  is_ok (start_notes booted).1 = true.
Proof. split; vm_compute; reflexivity. Qed.

(** A crash right after a sync may leave everything in place. *)
Lemma crash_of_synced s : fs_pending (fk_fs s) = [] -> store_crash s s.
Proof.
  intros Hp. split; [done|]. split; [done|]. split; [done|]. intros name.
  exists (fs_dir (fk_fs s)). split; [left|]. by destruct (fs_dir (fk_fs s) !! name).
Qed.

Lemma power_loss_keeps_session_witness :
  ∃ s s'', k_state_store running = Some s /\ store_crash s s'' /\
    store_settled s'' /\
    store_holds s'' (k_registry running) (k_ledger running) (k_broker running) (k_artifacts running).
Proof.
  pose (s0 := default installed_store (k_state_store running)).
  assert (k_state_store running = Some s0) as Hs by (vm_compute; reflexivity).
  assert (fs_pending (fk_fs s0) = []) as Hp by (vm_compute; reflexivity).
  assert (store_crash s0 s0) as Hc.
  { apply crash_of_synced. exact Hp. }
  exists s0, s0. split; [exact Hs|]. split; [exact Hc|].
  apply (power_loss_keeps_session 0 7 Host.start installed_store running s0 s0).
  - split; [|intros d Hd; inversion Hd]. intros f Hf. vm_compute in Hf. by injection Hf as <-.
  - exists booted. split; [vm_compute; reflexivity|].
    apply rtc_once, (step_call start_notes), call_start_run.
  - vm_compute. reflexivity.
  - exact Hs.
  - exact Hc.
Defined.

(** ** Tool names *)

Lemma unique_tool_name_total_witness :
  ∃ name, unique_tool_name Host.read_ref (fun n => bool_decide (n ∈ ["notes__read"; "notes__read_2"])) 3
          = Some name /\ (name ∉ ["notes__read"; "notes__read_2"]) /\ valid_tool_name name.
Proof. apply (unique_tool_name_total Host.read_ref ["notes__read"; "notes__read_2"]). reflexivity. Defined.

(** A capability with one ordinary property and one the host binds to the thread. *)
Definition thread_view : CapabilityUseView := {|
  cuv_provider_app_id := "notes"; cuv_provider_display_name := "Notes"; cuv_capability := "read";
  cuv_description := "Read";
  cuv_input_schema :=
    [("properties", VObject
        [("text", VObject [("type", VString "string")]);
         ("thread", VObject [("type", VString "string"); (HOST_INPUT_ANNOTATION, VString CURRENT_CHAT_THREAD_ID)])]);
     ("required", VArray [VString "text"; VString "thread"])];
  cuv_authorizations := [] |}.

Definition thread_tool : ChatTool :=
  match capability_view_to_chat_tool thread_view (Some "t1") "notes__read" with
  | Ok (Some tool) => tool
  | _ => {| ct_definition := capability_view_to_tool_def_named thread_view "notes__read";
            ct_binding := {| ctb_capability := Host.read_ref; ctb_injected_input := [] |} |}
  end.

Lemma chat_tool_host_bound_witness :
  is_required (tf_parameters (td_function (ct_definition thread_tool))) "thread" = false /\
  (∃ v, ∀ arguments, obj_get (ChatToolBinding_bind (ct_binding thread_tool) arguments) "thread" = Some v) /\
  obj_get (ChatToolBinding_bind (ct_binding thread_tool) [("text", VString "x")]) "text" = Some (VString "x").
Proof.
  destruct (chat_tool_host_bound thread_view (Some "t1") "notes__read" thread_tool) as [Hb Hf];
    [vm_compute; reflexivity|].
  destruct (Hb "thread") as (_ & Hr & v & Hv & _); [unfold host_bound; apply (bool_decide_eq_true_1 _); vm_compute; reflexivity|].
  split; [exact Hr|]. split; [exists v; exact Hv|].
  rewrite (Hf "text"); [reflexivity|]. unfold host_bound. apply (bool_decide_eq_false_1 _). vm_compute. reflexivity.
Defined.

(** ** Packages *)

Definition empty_manifest : PackageManifestBody := {|
  pm_capabilities := []; pm_surfaces := []; pm_agents := []; pm_skills := []; pm_assistant_profiles := [];
  pm_automations := []; pm_connectors := []; pm_config_declarations := []; pm_artifact_types := [];
  pm_extension_points := []; pm_extension_contributions := []; pm_grant_requests := [];
  pm_event_subscriptions := [] |}.

Definition notes_document : PackageDocument := {|
  pk_format_version := 1; pk_id := "com.example.notes"; pk_version := "1.0.0"; pk_display_name := "Notes";
  pk_description := "Notes"; pk_publisher := None; pk_license := None; pk_icon := None; pk_theme_colors := [];
  pk_min_host_version := "0.1.0"; pk_manifest := empty_manifest; pk_consumer_grant_requests := [];
  pk_backend := BackendNone; pk_data := DataNone;
  pk_integrity := {| in_algorithm := "sha256"; in_assets := [("ui/index.html", "sha256-x")] |} |}.

Definition notes_tree : Node :=
  NDir [("app.json", NFile "{}"); ("ui", NDir [("index.html", NFile "<p>notes</p>")])].

(** The same files listed in another order. *)
Definition notes_tree' : Node :=
  NDir [("ui", NDir [("index.html", NFile "<p>notes</p>")]); ("app.json", NFile "{}")].

Lemma package_digest_pins_contents_witness :
  lookup_file ["ui"; "index.html"] notes_tree = lookup_file ["ui"; "index.html"] notes_tree' /\
  is_Some (lookup_file ["ui"; "index.html"] notes_tree).
Proof.
  set (files := [("app.json", "{}"); ("ui/index.html", "<p>notes</p>")]).
  destruct (package_digest_pins_contents id notes_document notes_tree notes_document notes_tree'
    ("sha256-" +:+ digest_input files) files files {["app.json"; "ui/index.html"]}
    {["app.json"; "ui/index.html"]}) as (_ & _ & H);
    [..|apply (H "ui/index.html"); apply (bool_decide_eq_true_1 _); vm_compute; reflexivity].
  1-6: vm_compute; reflexivity.
  - unfold files. repeat constructor.
  - intros _. reflexivity.
Defined.

(** ** Publisher trust *)

Definition demo_key : string := "0123456789abcdef0123456789abcdef".
Definition demo_key_id : string := "ed25519:" +:+ demo_key.
Definition notes_scope : TrustScope := ScopeAppId "com.example.notes".
Definition notes_signature : PackageSignatureDocument := {|
  sd_algorithm := "ed25519"; sd_key_id := demo_key_id; sd_public_key := demo_key;
  sd_signature := demo_key +:+ demo_key |}.

Definition trust_file : Path := {| p_parent := "/data"; p_file_name := "publisher-trust.json" |}.

Definition trusting : PublisherTrustStore :=
  match trust_store_new trust_file empty_dir with
  | Ok s => (trust_key demo_key_id demo_key notes_scope s).2
  | _ => in_memory empty_dir
  end.

Lemma trusted_signature_sound_witness :
  verify_signature (pt_document trusting) "sha256-d" notes_signature "com.example.notes"
    = Ok (SigTrusted demo_key_id notes_scope) /\
  (∃ key public_key signature,
     decode_public_key (sd_public_key notes_signature) = Ok key /\ demo_key_id = fingerprint_key_id key /\
     VerifyingKey_from_bytes key = inr public_key /\
     decode_signature (sd_signature notes_signature) = Ok signature /\
     ed25519_verify public_key (signing_bytes "sha256-d" "com.example.notes") signature = inr tt).
Proof.
  assert (verify_signature (pt_document trusting) "sha256-d" notes_signature "com.example.notes"
          = Ok (SigTrusted demo_key_id notes_scope)) as Hv by (vm_compute; reflexivity).
  split; [exact Hv|].
  apply (trusted_signature_sound (pt_document trusting) "sha256-d" notes_signature "com.example.notes"
           demo_key_id notes_scope); [vm_compute; reflexivity|exact Hv].
Defined.

(** The revoked key stays revoked when the owner trusts it for another app. *)
Definition other_trust : list TrustCommand :=
  [CmdTrust demo_key_id demo_key (ScopeAppId "com.example.tasks")].

Lemma revocation_is_final_witness :
  is_Some (blocking_error (SigRevoked demo_key_id notes_scope)) /\
  verify_signature (pt_document (run_commands other_trust (revoke_key demo_key_id notes_scope trusting).2))
    "sha256-d" notes_signature "com.example.notes" = Ok (SigRevoked demo_key_id notes_scope).
Proof.
  assert (verify_signature (pt_document (run_commands other_trust (revoke_key demo_key_id notes_scope trusting).2))
    "sha256-d" notes_signature "com.example.notes" = Ok (SigRevoked demo_key_id notes_scope)) as Hv
    by (vm_compute; reflexivity).
  split; [|exact Hv].
  apply (revocation_is_final demo_key_id notes_scope trusting (revoke_key demo_key_id notes_scope trusting).2
    other_trust "sha256-d" notes_signature "com.example.notes" (SigRevoked demo_key_id notes_scope)).
  - vm_compute. reflexivity.
  - intros public_key [E|[]%elem_of_nil]%elem_of_cons. discriminate E.
  - vm_compute. reflexivity.
  - reflexivity.
  - exact Hv.
Defined.

(** ** Surfaces *)

Definition panel_bundle : SurfaceUiBundle :=
  {| su_protocol_version := 1; su_html := "<p>notes</p>"; su_csp := "default-src 'none'" |}.

Definition one_route : SurfaceUiRegistry := register "notes" "panel" panel_bundle "r1" registry_new.

Lemma surface_routes_are_live_witness :
  is_Some (surface_document "sdk" "r1" one_route) /\
  surface_document "sdk" "r1" (remove_app "notes" one_route) = None.
Proof.
  destruct (surface_routes_are_live "sdk" one_route "r1"
    {| sd_html := inject_client_sdk "sdk" "<p>notes</p>"; sd_csp := "default-src 'none'" |})
    as ([_ H1] & _ & H3); [apply reachable_register; [apply reachable_new|reflexivity]|].
  split.
  - eexists. apply H1. exists ("notes", "panel"), {| rs_route_token := "r1"; rs_bundle := panel_bundle |}.
    split; [vm_compute; reflexivity|]. split; reflexivity.
  - destruct (H3 "notes" "panel" {| rs_route_token := "r1"; rs_bundle := panel_bundle |}) as [H4 _];
      [vm_compute; reflexivity|exact H4].
Defined.

(** ** Permission proposals *)

(** The wire form of what this app handles, with the host's snapshot naming one
    capability. *)
Definition demo_view : RequestablePermissionView := {|
  rpv_provider := "notes"; rpv_provider_display_name := "Notes"; rpv_capability := "read";
  rpv_description := "Read"; rpv_effect := EffectReadOnly |}.

#[export] Instance demo_permissions_codec : PermissionsCodec := {
  proposal_input_from_value v :=
    match Value_get v "reason" with
    | Some (VString reason) => inr {| pi_provider := "notes"; pi_capability := "read"; pi_reason := reason;
        pi_snapshot := {| rps_holder := "agent"; rps_permissions := [demo_view]; rps_omitted_count := 0 |} |}
    | _ => inl "missing field reason"
    end;
  snapshot_from_value _ := inl "expected a snapshot";
  snapshot_to_value _ := inl "expected a snapshot";
  proposal_to_value p :=
    match p with
    | {| pp_holder := holder; pp_scope := ExactCapability provider capability; pp_data_scope := NoData;
         pp_condition := RequiresApproval; pp_duration := NonExpiring; pp_reason := reason |} =>
        inr (VArray [VString holder; VString provider; VString capability; VString reason])
    | _ => inl "unsupported proposal"
    end;
  proposal_from_value v :=
    match v with
    | VArray [VString holder; VString provider; VString capability; VString reason] =>
        inr {| pp_holder := holder; pp_scope := ExactCapability provider capability; pp_data_scope := NoData;
               pp_condition := RequiresApproval; pp_duration := NonExpiring; pp_reason := reason |}
    | _ => inl "expected a proposal"
    end;
}.

#[export] Instance demo_permissions_codec_laws : PermissionsCodecLaws.
Proof. split. intros [? [] [] [] [] ?] v; simpl; intros E; by simplify_eq. Qed.

Definition agent_context : InvocationContext := {|
  ic_run_id := "run-0"; ic_invoked_by := "agent"; ic_invoked_by_version := "1";
  ic_invoked_by_content_hash := "sha256:agent"; ic_authorized_data_scope := NoData;
  ic_secrets := {| res_declared := ∅; res_secrets := ∅ |}; ic_artifacts := {| sn_artifacts := ∅ |};
  ic_cancellation := {| ch_cancelled := 0; ch_deadline := 1 |} |}.

Definition demo_proposal : PermissionProposal := {|
  pp_holder := "agent"; pp_scope := ExactCapability "notes" "read"; pp_data_scope := NoData;
  pp_condition := RequiresApproval; pp_duration := NonExpiring; pp_reason := "to read" |}.

Definition proposal_artifact : Artifact := {|
  a_artifact_id := "artifact-0"; a_artifact_type := PERMISSION_PROPOSAL_ARTIFACT; a_title := "Permission request";
  a_content := VArray [VString "agent"; VString "notes"; VString "read"; VString "to read"];
  a_provenance := {| pv_run_id := "run-0"; pv_capability := propose_grant_ref; pv_grant_id := "grant-0";
                     pv_produced_by := permissions_app_id; pv_recorded_at := 0 |} |}.

Lemma permission_proposal_is_minimal_witness :
  ∃ o, proposal_handler [("reason", VString "to read")] agent_context = Ok o /\
    (∃ draft, co_artifacts o = [draft]) /\
    pv_produced_by (a_provenance proposal_artifact) = permissions_app_id.
Proof.
  destruct (proposal_handler [("reason", VString "to read")] agent_context) as [o|e|m] eqn:Ho;
    [|vm_compute in Ho; discriminate Ho..].
  exists o. split; [reflexivity|].
  destruct (permission_proposal_is_minimal [("reason", VString "to read")] agent_context o
    proposal_artifact demo_proposal) as ((draft & _ & Hd & _) & Hp & _); [exact Ho|vm_compute; reflexivity|].
  split; [exists draft; exact Hd|exact Hp].
Defined.

(** ** Remote owner authentication *)

(** Authenticators that sign with their own name, a clock that ticks once per call, and
    a digest that pads. *)
#[export] Instance demo_webauthn : WebAuthn N := {
  Passkey := string;
  cred_id := id;
  RegistrationState := unit;
  AuthenticationState := list string;
  RegistrationCredential := string;
  AuthenticationCredential := string;
  AuthenticationResult := string;
  Challenge := string;
  start_passkey_registration _ _ w := (inr ("register", tt), w + 1)%N;
  finish_passkey_registration credential _ := inr credential;
  start_passkey_authentication passkeys w := (inr ("sign in", passkeys), w + 1)%N;
  finish_passkey_authentication credential passkeys :=
    if bool_decide (credential ∈ passkeys) then inr credential else inl "unknown credential";
  user_verified _ := true;
  update_credential result passkey := if bool_decide (result = passkey) then Some (true, passkey) else None;
  sha256 s := take 32 ((byte <$> chars s) ++ replicate 32 0%N);
  utc_now w := (Z.of_N w, w + 1)%N;
  random_uuid w := ("id-" +:+ pretty w, w + 1)%N;
  random_token w := ("token-" +:+ pretty w, w + 1)%N;
}.

#[export] Instance demo_webauthn_laws : WebAuthnLaws N.
Proof.
  split.
  - intros s. unfold sha256, demo_webauthn. rewrite length_take, length_app, length_replicate. lia.
  - simpl. intros r c u c' E. case_bool_decide; by simplify_eq.
Qed.

Definition demo_auth_codec : AuthCodec (W := N) := {|
  auth_to_vec d := write_document (T := N * string * string * string * list string)
                                  (oa_format_version d, oa_rp_id d, oa_origin d, oa_owner_user_id d, oa_credentials d);
  auth_from_str s :=
    match HostDemo.read_document s : string + N * string * string * string * list string with
    | inr (v, r, o, u, c) => inr {| oa_format_version := v; oa_rp_id := r; oa_origin := o;
                                    oa_owner_user_id := u; oa_credentials := c |}
    | inl e => inl e
    end;
  pairing_to_vec d := write_document (T := N * list N * Z) (pd_format_version d, pd_code_sha256 d, pd_expires_at d);
  pairing_from_str s :=
    match HostDemo.read_document s : string + N * list N * Z with
    | inr (v, h, e) => if length h =? 32
                       then inr {| pd_format_version := v; pd_code_sha256 := h; pd_expires_at := e |}
                       else inl "invalid length"
    | inl e => inl e
    end;
|}.

Definition pairing_file : Path := {| p_parent := "/data"; p_file_name := "pairing.json" |}.

(** A service without passkeys. *)
Definition fresh_auth : AuthState (W := N) := {|
  st_auth := {| ra_rp_id := "host"; ra_origin := "https://host";
                ra_auth_path := {| p_parent := "/data"; p_file_name := "owner.json" |};
                ra_pairing_path := pairing_file; ra_document := None; ra_registrations := ∅;
                ra_authentications := ∅; ra_sessions := ∅; ra_secure_cookie := true |};
  st_fs := empty_dir; st_world := 0%N |}.

Definition offered : AuthState (W := N) := (create_pairing_code demo_auth_codec pairing_file fresh_auth).2.
Definition registering : AuthState (W := N) := (start_registration demo_auth_codec "token-1" offered).2.
Definition registered : AuthState (W := N) := (finish_registration demo_auth_codec "id-5" "key-a" registering).2.
Definition signing_in : AuthState (W := N) := (start_authentication registered).2.
Definition signed_in : AuthState (W := N) := (finish_authentication demo_auth_codec "id-10" "key-a" signing_in).2.

Example auth_session_runs :
  (create_pairing_code demo_auth_codec pairing_file fresh_auth).1 = Ok "token-1" /\
  (start_registration demo_auth_codec "token-1" offered).1 = Ok ("id-5", "register") /\
  (finish_registration demo_auth_codec "id-5" "key-a" registering).1 = Ok "token-7" /\
  (start_authentication registered).1 = Ok ("id-10", "sign in") /\
  (finish_authentication demo_auth_codec "id-10" "key-a" signing_in).1 = Ok "token-12".
Proof. vm_compute. repeat split. Qed.

Lemma remote_auth_bounded_witness : auth_ok (st_auth signed_in) /\ size (ra_sessions (st_auth signed_in)) = 2.
Proof.
  split; [|vm_compute; reflexivity].
  apply (remote_auth_bounded demo_auth_codec fresh_auth signed_in).
  - apply (rtc_l _ _ offered); [apply step_pairing|].
    apply (rtc_l _ _ registering); [apply step_start_registration|].
    apply (rtc_l _ _ registered); [apply step_finish_registration|].
    apply (rtc_l _ _ signing_in); [apply step_start_authentication|].
    apply rtc_once, step_finish_authentication.
  - split; [vm_compute; lia..|]. intros d E. discriminate E.
Defined.

Lemma session_requires_ceremony_witness :
  let h := token_hash "token-12" in
  is_Some (ra_sessions (st_auth signed_in) !! h) /\
  ((∃ id credential token, finish_authentication demo_auth_codec id credential signing_in = (Ok token, signed_in) /\
      h = token_hash token /\ verified_sign_in signing_in id credential /\
      ra_authentications (st_auth signed_in) !! id = None) \/
   (∃ id credential token, finish_registration demo_auth_codec id credential signing_in = (Ok token, signed_in) /\
      h = token_hash token /\ verified_registration signing_in id credential /\
      ra_registrations (st_auth signed_in) !! id = None)).
Proof.
  intros h.
  assert (∃ x, ra_sessions (st_auth signed_in) !! h = Some x) as [x Hx]
    by (eexists; vm_compute; reflexivity).
  split; [exists x; exact Hx|].
  destruct (session_requires_ceremony demo_auth_codec signing_in signed_in h x) as [(y & Hy & _)|H];
    [apply step_finish_authentication|exact Hx| |exact H].
  vm_compute in Hy. discriminate Hy.
Defined.

Lemma pairing_code_single_use_witness :
  contents (st_fs registering) "pairing.json" = None /\
  is_ok (start_registration demo_auth_codec "token-1" registering).1 = false.
Proof.
  destruct (start_registration demo_auth_codec "token-1" offered) as [r s'] eqn:E.
  assert (s' = registering) as -> by (unfold registering; rewrite E; reflexivity).
  assert (r = Ok ("id-5", "register")) as ->.
  { pose proof (f_equal fst E) as E1. cbn [fst] in E1. rewrite <- E1. vm_compute. reflexivity. }
  destruct (pairing_code_single_use demo_auth_codec "token-1" offered ("id-5", "register") registering)
    as (_ & Hgone & Hnone).
  - intros raw d. unfold pairing_from_str, demo_auth_codec.
    destruct (HostDemo.read_document raw) as [e|[[v h] t]]; [discriminate|].
    destruct (length h =? 32) eqn:Hl; [|discriminate]. intros [= <-]. by apply Nat.eqb_eq.
  - exact E.
  - split; [exact Hgone|]. apply Hnone. exact Hgone.
Defined.

(** ** App data *)

Definition data_revision (id : string) (format : N) : AppDataRevision :=
  {| adr_revision_id := id; adr_format_version := format; adr_package_revision_id := "r";
     adr_created_at := "2026-01-01" |}.

Definition notes_data_state : AppDataState :=
  {| ads_version := STATE_VERSION; ads_active_revision_id := "uuid-a"; ads_revisions := [data_revision "uuid-a" 1] |}.

(** An app with one data revision and the directory of a candidate. *)
Definition notes_data : AppDataRoot := {|
  ad_fs := one_file STATE_FILE (text_of (state_to_vec_pretty notes_data_state));
  ad_other_dirs := [];
  ad_revisions := {["uuid-a" := NDir [("db", NFile "v1")]; "uuid-b" := NDir [("db", NFile "v2")]]} |}.

Lemma no_faults_honest fs : fs_faults fs = [] -> honest fs.
Proof. intros E fault Hf. rewrite E in Hf. inversion Hf. Qed.

Lemma data_migration_reversible_witness :
  let committed := commit_candidate "/apps/notes" (Some "uuid-a") (data_revision "uuid-b" 2) notes_data in
  let restored := rollback_transition "/apps/notes" (Some "uuid-a") "uuid-b" committed.2 in
  committed.1 = Ok tt /\ restored.1 = Ok tt /\
  (∃ state, stored_state "/apps/notes" committed.2 = Ok (Some state) /\ ads_active_revision_id state = "uuid-b") /\
  (∃ state, stored_state "/apps/notes" restored.2 = Ok (Some state) /\ ads_active_revision_id state = "uuid-a") /\
  ad_revisions restored.2 !! "uuid-b" = None.
Proof.
  intros committed restored.
  assert (committed.1 = Ok tt) as Hc by (vm_compute; reflexivity).
  assert (restored.1 = Ok tt) as Hr by (vm_compute; reflexivity).
  destruct (data_migration_reversible "/apps/notes" notes_data_state "uuid-a" (data_revision "uuid-b" 2)
    notes_data committed.1 committed.2 restored.1 restored.2) as ((s1 & H1 & H2 & _) & (s2 & H3 & _ & H4) & _).
  - apply no_faults_honest. vm_compute. reflexivity.
  - apply no_faults_honest. vm_compute. reflexivity.
  - vm_compute. reflexivity.
  - reflexivity.
  - discriminate.
  - split; [vm_compute; reflexivity|]. split; [discriminate|vm_compute; reflexivity].
  - apply surjective_pairing.
  - apply surjective_pairing.
  - split; [exact Hc|]. split; [exact Hr|]. destruct (H4 Hr) as [H5 H6].
    split; [exists s1; split; [exact H1|exact (H2 Hc)]|].
    split; [exists s2; split; [exact H3|exact H5]|exact H6].
Defined.

(** ** App updates *)

Definition store_file : Path := {| p_parent := "/data"; p_file_name := "apps.json" |}.
Definition journal_file : Path := {| p_parent := "/data"; p_file_name := "update-journal.json" |}.

Definition notes_revision (id : string) : AppRevision := {|
  rv_revision_id := id; rv_version := "1.0.0"; rv_display_name := "Notes"; rv_description := "Notes";
  rv_backend_kind := "none"; rv_publisher := None; rv_signature_verdict := "unsigned";
  rv_signature_key_id := None; rv_min_host_version := "0.1.0"; rv_installed_at := id;
  rv_payload_dir := "/apps/notes/" +:+ id; rv_package_digest := "sha256-" +:+ id |}.

Definition notes_record : InstallRecord := {|
  ir_id := "notes"; ir_enabled := true; ir_uninstalling := false; ir_lifecycle_generation := 0;
  ir_purge_secrets := false; ir_purge_data := false; ir_purge_secret_names := [];
  ir_active_revision_id := "r1"; ir_revisions := [notes_revision "r1"; notes_revision "r2"] |}.

Definition notes_journal (phase : UpdatePhase) (data : option AppDataTransitionJournal) : UpdateJournal :=
  with_data_transition data (with_phase phase
    (journal_new "t1" "notes" OpUpdate (Some "r1") (notes_revision "r2") [notes_revision "r1"] true)).

Definition notes_migration : AppDataTransitionJournal := {|
  dt_source_revision_id := Some "uuid-a"; dt_source_format_version := Some 1%N; dt_source_digest := None;
  dt_candidate := data_revision "uuid-b" 2; dt_candidate_digest := None;
  dt_migration_revision_id := Some "r2"; dt_destructive := false |}.

(** A manager with the app installed and this journal on disk. *)
Definition manager_dir (j : UpdateJournal) : FileSystem := {|
  fs_exists := true;
  fs_dir := {[ "apps.json" := {| f_bytes := text_of (store_to_vec_pretty
                   {| so_version := APP_STORE_VERSION; so_apps := [notes_record] |}); f_synced := true |};
               "update-journal.json" := {| f_bytes := text_of (journal_to_vec_pretty j); f_synced := true |} ]};
  fs_pending := []; fs_faults := []; fs_uuids := 0 |}.

Definition stored_data : AppDataRoot :=
  set_ad_revisions {["uuid-a" := NDir [("db", NFile "v1")]]} notes_data.

Definition updating (j : UpdateJournal) : AppManager := {|
  am_store_path := Some store_file; am_journal_path := Some journal_file;
  am_records := {["notes" := notes_record]}; am_update_journal := Some j; am_failures := ∅;
  am_fs := manager_dir j; am_data := {["notes" := stored_data]} |}.

Lemma demo_files_separate : separate_files store_file journal_file.
Proof. split; [done|]. split; [done|]. discriminate. Qed.

(** A runtime that starts every revision whose identifier is in its world; the
    migration writes the new format. *)
#[export] Instance demo_runtime : HostRuntime (list string) := {
  deactivate _ w := (Ok tt, w);
  activate_revision _ id w := (if bool_decide (id ∈ w) then Ok tt else Err "backend did not start", w);
  run_migration _ _ w := ((Ok tt, NDir [("db", NFile "v2")]), w);
  probe_candidate _ node w := ((Ok tt, node), w);
}.

Definition updating_host (world : list string) : UpdateDriver.Host (list string) :=
  {| ho_manager := updating (notes_journal Prepared (Some notes_migration)); ho_world := world;
     ho_backup_retention := 1 |}.

Definition apps_path (id : string) : string := "/apps/" +:+ id.

(** The package of every revision migrates from format 1 to 2. *)
Definition versioned_document : PackageDocument := {|
  pk_format_version := 1; pk_id := "com.example.notes"; pk_version := "2.0.0"; pk_display_name := "Notes";
  pk_description := "Notes"; pk_publisher := None; pk_license := None; pk_icon := None; pk_theme_colors := [];
  pk_min_host_version := "0.1.0"; pk_manifest := empty_manifest; pk_consumer_grant_requests := [];
  pk_backend := BackendNone;
  pk_data := DataVersioned 2 {| adm_protocol_version := 1; adm_command := "migrate"; adm_entry := "migrate.js";
    adm_args := []; adm_transitions := [{| adt_from := 1; adt_to := 2; adt_destructive := false |}] |};
  pk_integrity := {| in_algorithm := "sha256"; in_assets := [] |} |}.

Definition stored_package (_ : string) : outcome string PackageDocument := Ok versioned_document.

Definition update_run (world : list string) : outcome string unit * UpdateDriver.Host (list string) :=
  continue_journaled_transition id apps_path stored_package (notes_journal Prepared (Some notes_migration)) true (updating_host world).

Example update_completes :
  (update_run ["r1"; "r2"]).1 = Ok tt /\
  am_update_journal (ho_manager (update_run ["r1"; "r2"]).2) = None /\
  active_id "notes" (ho_manager (update_run ["r1"; "r2"]).2) = Some "r2".
Proof. vm_compute. repeat split. Qed.

(** Neither revision starts: the rollback stays in the journal. At the next start the
    previous revision starts again, and the recovery ends the update on it. *)
Definition stuck_update : UpdateDriver.Host (list string) := (update_run []).2.

Definition next_manager : AppManager :=
  match app_manager_new store_file journal_file (Ok tt) (am_data (ho_manager stuck_update))
          (quiet (am_fs (ho_manager stuck_update))) with
  | Ok m => m
  | _ => ho_manager stuck_update
  end.

Definition next_start : outcome string unit * UpdateDriver.Host (list string) :=
  recover_managed_app_transition_phased id apps_path stored_package
    {| ho_manager := manager_with_faults [] next_manager; ho_world := ["r1"]; ho_backup_retention := 1 |}.

Lemma updating_mirrors phase :
  mirrors store_file journal_file (updating (notes_journal phase (Some notes_migration))).
Proof.
  split; try reflexivity.
  - intros i record. simpl. intros [<- <-]%lookup_singleton_Some. reflexivity.
  - by intros fault Hin%elem_of_nil.
  - destruct phase; vm_compute; reflexivity.
Qed.

Lemma updating_in_progress :
  in_progress apps_path "t1" "notes" "r1" "r2" (Some "uuid-a") (Some "uuid-b")
    (updating (notes_journal Prepared (Some notes_migration))).
Proof.
  exists notes_record, (notes_journal Prepared (Some notes_migration)), (Some "uuid-a").
  split_and!; try (vm_compute; reflexivity); [by split_and!| |by left].
  split; [|by intros fault Hin%elem_of_nil]. eexists. split; vm_compute; reflexivity.
Qed.

Lemma update_all_or_nothing_witness :
  is_ok (update_run []).1 = false /\ am_update_journal (ho_manager stuck_update) <> None /\
  reverted apps_path "notes" "r1" (Some "uuid-a") (ho_manager next_start.2).
Proof.
  assert (restart id apps_path stored_package store_file journal_file next_start.1 stuck_update next_start.2) as Hre.
  { apply (restart_intro _ _ _ _ _ _ _ (Ok tt) next_manager [] ["r1"] 1%N).
    - vm_compute. reflexivity.
    - intros fault Hin. inversion Hin.
    - apply surjective_pairing. }
  split; [vm_compute; reflexivity|]. split; [intros Hn; vm_compute in Hn; discriminate Hn|].
  pose proof (update_all_or_nothing id apps_path stored_package store_file journal_file "t1" "notes" "r1" "r2"
    (Some "uuid-a") (Some "uuid-b") demo_files_separate (notes_journal Prepared (Some notes_migration))
    (updating_host []) true (updating_mirrors Prepared) eq_refl updating_in_progress ltac:(left) ltac:(reflexivity)) as [_ Hnext].
  destruct (Hnext next_start.2) as [[Hu|[Hr|Hp]] _].
  - apply rtc_once. exists next_start.1. exact Hre.
  - exfalso. destruct Hu as (_ & Ha & _). vm_compute in Ha. discriminate Ha.
  - exact Hr.
  - exfalso. destruct Hp as (record & j & x & _ & Hj & _). vm_compute in Hj. discriminate Hj.
Defined.

(** Enabling fails on a full disk, then the update is journaled as rolling back. *)
Definition manager_history : list ManagerCommand :=
  [CmdSetEnabled "notes" false; CmdSetEnabled "notes" false;
   CmdBeginRollback (notes_journal Prepared None)].

Definition disk_full : Fault := {| ft_error := {| io_kind := OtherKind; io_message := "disk full" |}; ft_written := 3 |}.

Definition opened (j : UpdateJournal) : AppManager :=
  match app_manager_new store_file journal_file (Ok tt) {["notes" := stored_data]} (quiet (manager_dir j)) with
  | Ok m => m
  | _ => updating j
  end.

(** The device fails in the middle of the first write. *)
Definition after_history : AppManager :=
  run_manager id apps_path (fun _ => Err "no package") manager_history
    (manager_with_faults [None; None; Some disk_full] (opened (notes_journal Prepared None))).

Lemma manager_mirrors_files_witness :
  (uj_phase <$> am_update_journal after_history) = Some RollingBack /\
  stored_records store_file after_history = Ok (am_records after_history) /\
  stored_journal journal_file after_history = Ok (am_update_journal after_history).
Proof.
  split; [vm_compute; reflexivity|].
  apply (manager_mirrors_files id apps_path (fun _ => Err "no package") store_file journal_file
    (Ok tt) {["notes" := stored_data]} (manager_dir (notes_journal Prepared None)) [None; None; Some disk_full]
    manager_history (opened (notes_journal Prepared None))).
  - exact demo_files_separate.
  - intros fault Hf. apply elem_of_cons in Hf as [E|Hf]; [discriminate E|].
    apply elem_of_cons in Hf as [E|Hf]; [discriminate E|]. apply list_elem_of_singleton in Hf.
    injection Hf as ->. discriminate.
  - vm_compute. reflexivity.
Defined.

(** The data migration failed before the candidate was validated. *)
Lemma rollback_before_validation_blocks_restart_witness :
  let j := notes_journal Deactivated (Some notes_migration) in
  let rolled := begin_journaled_rollback apps_path j (updating j) in
  is_ok rolled.1 = true /\
  ∃ e, app_manager_new store_file journal_file (Ok tt) {["notes" := stored_data]} (quiet (am_fs rolled.2)) = Err e.
Proof.
  intros j rolled. assert (is_ok rolled.1 = true) as Hok by (vm_compute; reflexivity). split; [exact Hok|].
  destruct rolled as [o m'] eqn:E. destruct o as [r|e|msg]; [|discriminate Hok..].
  apply (rollback_before_validation_blocks_restart apps_path store_file journal_file j notes_migration
    (updating j) (Ok tt) {["notes" := stored_data]} r m').
  - exact demo_files_separate.
  - exact (updating_mirrors Deactivated).
  - vm_compute. reflexivity.
  - reflexivity.
  - reflexivity.
  - exact E.
Defined.

(** ** User-chosen files *)

(** A drive with the owner's notes, a link out of them, and a file of the system. *)
Definition home_volume : Volume := {|
  v_entries := list_to_map
    [(["home"], EDirectory); (["home"; "notes"], EDirectory); (["home"; "notes"; "a"], EFile 1);
     (["home"; "notes"; "out"], ESymlink [RootDir; Normal "etc"]); (["etc"], EDirectory);
     (["etc"; "passwd"], EFile 2)];
  v_files := list_to_map [(1%N, "old"); (2%N, "secret")] |}.

(** [n] calls that succeed with nobody else acting, and then [calls]. *)
Definition undisturbed : DriveCall := {| dc_others := fun v => v; dc_fault := None |}.
Definition failing_call : DriveCall :=
  {| dc_others := fun v => v; dc_fault := Some {| ft_error := other_error "Input/output error"; ft_written := 0 |} |}.
Definition home_drive (calls : list DriveCall) : Drive :=
  {| dr_volume := home_volume; dr_calls := calls; dr_draws := 0 |}.

Definition notes_resource : FileResourceRecord := {|
  fr_resource_id := "resource-1"; fr_display_name := "notes"; fr_kind := ResourceDirectory;
  fr_canonical_path := ["home"; "notes"]; fr_created_at := 0%Z |}.

Definition notes_folder (pending : list ResourceId) : FileResourceRegistryDocument :=
  {| fd_version := FILE_STORE_VERSION; fd_resources := [notes_resource]; fd_pending_removals := pending |}.

Lemma home_grounded calls pending : grounded (dr_volume (home_drive calls)) (notes_folder pending).
Proof.
  intros record ->%list_elem_of_singleton. split; [|done]. intros q [s Hs].
  destruct q as [|n [|n' q]]; [done| |done]. injection Hs as <- _. vm_compute. reflexivity.
Qed.

Lemma calls_alone calls : (∀ c, c ∈ calls -> c = undisturbed \/ c = failing_call) -> alone (home_drive calls).
Proof. intros Hc c Hin v. by destruct (Hc c Hin) as [-> | ->]. Qed.

Lemma seven_alone calls :
  (∀ c, c ∈ calls -> c = undisturbed \/ c = failing_call) -> alone (home_drive (replicate 7 undisturbed ++ calls)).
Proof.
  intros Hc. apply calls_alone. intros c [Hin|Hin]%elem_of_app; [|auto]. left. by apply elem_of_replicate in Hin as [-> _].
Qed.

Definition file_caller : InvocationContext := {|
  ic_run_id := "run-1"; ic_invoked_by := "chat"; ic_invoked_by_version := "1.0.0";
  ic_invoked_by_content_hash := "sha256:c"; ic_authorized_data_scope := Resources ["resource-1"];
  ic_secrets := {| res_declared := ∅; res_secrets := ∅ |}; ic_artifacts := {| sn_artifacts := ∅ |};
  ic_cancellation := {| ch_cancelled := 0; ch_deadline := 1 |} |}.

Definition file_call (operation : FileOperation) (path : string) (calls : list DriveCall) :
    outcome HandlerFailure CapabilityOutcome * Drive :=
  boxed_handler id (notes_folder []) operation
    (json_object [("resource_id", VString "resource-1"); ("relative_path", VString path);
                  ("content_base64", VString "new")]) file_caller (home_drive calls).

(** The listing does not follow the link, and nothing reads through it. *)
Lemma broker_stays_in_resources_witness :
  (∃ outcome, (file_call OpList "./" []).1 = Ok outcome /\
     co_result outcome = VArray [VString "a"; VString "out"]) /\
  (∃ e, (file_call OpRead "out/passwd" []).1 = Err e /\
     hf_error e = "path '/etc/passwd' escapes resource root '/home/notes'") /\
  (dr_volume (file_call OpWrite "a" []).2 = home_volume \/
   ∃ record, opened_to (notes_folder []) file_caller record /\
     confined record home_volume (dr_volume (file_call OpWrite "a" []).2)).
Proof.
  split; [|split].
  - eexists. split; vm_compute; reflexivity.
  - eexists. split; vm_compute; reflexivity.
  - refine (proj1 (broker_stays_in_resources id (notes_folder []) OpWrite _ file_caller (home_drive []) _ _ _ _
             (surjective_pairing (file_call OpWrite "a" [])))); [by apply calls_alone; intros c Hc%elem_of_nil|].
    apply home_grounded.
Defined.

Definition overwrite (calls : list DriveCall) : outcome string FileWriteView * Drive :=
  write_file id (notes_folder []) "resource-1" (Some "a") "new" None (home_drive calls).

(** The replacing rename fails: the old file is put back. *)
Lemma write_is_all_or_nothing_witness :
  is_ok (overwrite (replicate 7 undisturbed ++ [failing_call])).1 = false /\
  (entry_at (dr_volume (overwrite (replicate 7 undisturbed ++ [failing_call])).2) ["home"; "notes"; "a"] = Some (EFile 1) /\
   ∀ inode, is_Some (v_files home_volume !! inode) ->
     bytes_of (dr_volume (overwrite (replicate 7 undisturbed ++ [failing_call])).2) inode = bytes_of home_volume inode).
Proof.
  pose (calls := replicate 7 undisturbed ++ [failing_call]).
  assert (alone (home_drive calls)) as Ha.
  { apply seven_alone. intros c ->%list_elem_of_singleton. by right. }
  assert (isolated (dr_calls (home_drive calls))) as Hi by (simpl; naive_solver).
  assert (resolve_target ["home"; "notes"] ResourceDirectory (Some "a") true (home_drive calls) =
    (Ok ["home"; "notes"; "a"],
     (resolve_target ["home"; "notes"] ResourceDirectory (Some "a") true (home_drive calls)).2)) as Hres
    by (vm_compute; reflexivity).
  pose proof (write_is_all_or_nothing id (notes_folder []) "resource-1" (Some "a") "new" None (home_drive calls)
    (overwrite calls).1 (overwrite calls).2 notes_resource ["home"; "notes"; "a"] _ Ha Hi (home_grounded calls [])
    ltac:(vm_compute; reflexivity) Hres (surjective_pairing _)) as Hw.
  destruct (overwrite calls).1 as [view|e|msg] eqn:Hr.
  - exfalso. vm_compute in Hr. discriminate Hr.
  - split; [fold calls; rewrite Hr; reflexivity|]. destruct Hw as [He Hb]. split; [exact He|exact Hb].
  - exfalso. vm_compute in Hr. discriminate Hr.
Defined.

Lemma names_no_other_file (inode : N) (entries : gmap Names Entry) :
  forallb (fun e : Names * Entry => match e.2 with EFile i => (i =? inode)%N | _ => true end) (map_to_list entries) = true ->
  map_Forall (fun _ entry => ∀ i, entry = EFile i -> i = inode) entries.
Proof.
  intros Hall p entry Hp i ->. rewrite forallb_forall in Hall.
  apply elem_of_map_to_list, list_elem_of_In, Hall in Hp. by apply N.eqb_eq.
Qed.

(** Two failures in a row lose the file: the replacing rename and the one that should put
    the old file back fail, and then the backup, by now the only name of the old file, is
    removed. Neither the old nor the new content has a name any more. *)
Theorem failed_restore_loses_the_file :
  v_entries home_volume !! ["home"; "notes"; "a"] = Some (EFile 1) /\
  let run := overwrite (replicate 7 undisturbed ++ [failing_call; failing_call]) in
  is_ok run.1 = false /\
  map_Forall (fun _ entry => entry <> EFile 1 /\ bytes_of (dr_volume run.2) 1 = "old" /\ ∀ i, entry = EFile i -> i = 2%N)
    (v_entries (dr_volume run.2)).
Proof.
  split; [vm_compute; reflexivity|]. intros run. split; [vm_compute; reflexivity|].
  assert (bytes_of (dr_volume run.2) 1 = "old") as Hb by (vm_compute; reflexivity).
  assert (map_Forall (fun _ entry => ∀ i, entry = EFile i -> i = 2%N) (v_entries (dr_volume run.2))) as Hf
    by (apply names_no_other_file; vm_compute; reflexivity).
  clearbody run. intros p entry Hp. specialize (Hf _ _ Hp). simpl in Hf.
  split_and!; [intros ->; by specialize (Hf _ eq_refl)|done|done].
Qed.

(** Another process renames a second file over the one that was resolved, before it is
    opened; the check of the handle looks at the new file both times. *)
Definition swap_in (v : Volume) : Volume :=
  {| v_entries := <[["home"; "notes"; "a"] := EFile 2]> (v_entries v); v_files := v_files v |}.

Example read_follows_a_swapped_file :
  ∃ outcome, (file_call OpRead "a" [undisturbed; {| dc_others := swap_in; dc_fault := None |}]).1 = Ok outcome /\
    Value_get (co_result outcome) "content_base64" = Some (VString "secret").
Proof. eexists. split; vm_compute; reflexivity. Qed.

(** *** Removing *)

Definition read_grant (resource_id : ResourceId) : Grant := {|
  g_grant_id := "grant-" +:+ resource_id; g_holder := "notes";
  g_scope := ExactCapability file_broker_app_id "file.read"; g_data_scope := Resources [resource_id];
  g_condition := RequiresApproval; g_origin := UserAdded; g_issued_at := 0%Z; g_expires_at := None |}.

(** A grant that is live for a while yet. *)
Definition lasting_grant (resource_id : ResourceId) : Grant := {|
  g_grant_id := "grant-" +:+ resource_id; g_holder := "notes";
  g_scope := ExactCapability file_broker_app_id "file.read"; g_data_scope := Resources [resource_id];
  g_condition := Silent; g_origin := UserAdded; g_issued_at := 0%Z; g_expires_at := Some 1000000000000000%Z |}.

(** The removal of the resource was recorded and nothing else done; another grant, which
    expires one day, names a resource that is not registered at all. *)
Definition interrupted_removal : FileHost (W:=Host.World) (S:=MemoryKernelStateStore) := {|
  fh_kernel := set_broker {| b_grants := {["grant-resource-1" := read_grant "resource-1"; "grant-gone" := lasting_grant "gone"]};
                             b_revoked := ∅; b_secrets := ∅ |} installed_kernel;
  fh_registry := {| fs_path := {| p_parent := "config"; p_file_name := "file-resources-v1.json" |};
                    fs_document := notes_folder ["resource-1"]; fs_files := empty_dir |} |}.

Definition reconciled : FileHost (W:=Host.World) (S:=MemoryKernelStateStore) :=
  (reconcile_with_kernel interrupted_removal).2.

Lemma reconcile_leaves_no_orphans_witness :
  pending interrupted_removal = ["resource-1"] /\
  b_revoked (k_broker (fh_kernel reconciled)) = {["grant-resource-1"; "grant-gone"]} /\
  pending reconciled = [].
Proof.
  split; [reflexivity|]. split; [vm_compute; reflexivity|].
  refine (proj1 (reconcile_leaves_no_orphans interrupted_removal reconciled _)).
  assert (is_ok (reconcile_with_kernel interrupted_removal).1 = true) as Hok by (vm_compute; reflexivity).
  unfold reconciled. destruct (reconcile_with_kernel interrupted_removal) as [[[]| |] h]; [reflexivity|discriminate Hok..].
Defined.
