(* ===== verification/ManagedWitnesses.v ===== *)
(** * Concrete instances for managed data

    The theorems on the managed-data store applied to short sessions of the world of
    [ManagedDemo]. *)

From S2P Require Import Prelude RustStd RustText Json JsonOps Types Errors Grants Manifest Platform AtomicJson Broker Artifacts Invocation Packages ManagedData ManagedDataFacts ManagedV2 ManagedV2Store ManagedV2Requests ManagedV2Facts ManagedV2BlobFacts ManagedExports HostDemo ManagedDemo.

(** A device that has no failures left. *)
Lemma faultless_honest fs : fs_faults fs = [] -> honest fs.
Proof. intros Hf fault Hin. rewrite Hf in Hin. inversion Hin. Qed.

Lemma faultless_sparse fs : fs_faults fs = [] -> sparse fs.
Proof. intros Hf i fault fault' Hi. by rewrite Hf in Hi. Qed.

Lemma run_pair {A B} (p : A * B) a : p.1 = a -> p = (a, p.2).
Proof. intros <-. apply surjective_pairing. Qed.

(** ** Version 1 *)

Definition first_contract : HostManagedDataRef := demo_contract 1 100000.
Definition changed_contract : HostManagedDataRef := demo_contract 1 90000.

Definition created_dir : ManagedDir nat :=
  (managed_request "app" first_contract (ReqCreate "items" (titled "a")) demo_dir).2.

Definition read_stored (s : ManagedDir nat) : ManagedDataDocument :=
  match mdoc_from_str (default EmptyString (entry STORE_FILE s)) with
  | inr document => document
  | inl _ => empty_document EmptyString
  end.

Definition three_items : ManagedDir nat :=
  (managed_request "app" first_contract
     (ReqTransaction [MutCreate "items" (titled "b"); MutCreate "items" (titled "c")]) created_dir).2.

Definition replace_first : ManagedDataRequest := ReqReplace "items" "uuid-0" 1 (titled "z").

Definition answer_of {E A} (r : outcome E A) (d : A) : A := match r with Ok a => a | _ => d end.

Definition replaced : outcome string Value * ManagedDir nat :=
  managed_request "app" changed_contract replace_first created_dir.

Definition changed_digest : string := answer_of (contract_digest changed_contract) EmptyString.

Lemma managed_request_refines_witness :
  (replaced.1 = Ok (answer_of replaced.1 VNull)) /\
  (sound replaced.2 /\
  ((entry STORE_FILE replaced.2 = entry STORE_FILE created_dir /\
    ∀ v, replaced.1 = Ok v -> ∃ digest document,
      represents (W := nat) changed_contract digest (entry STORE_FILE created_dir) document /\
      read_answer (W := nat) changed_contract document replace_first v) \/
   ∃ digest document document' results,
     represents (W := nat) changed_contract digest (entry STORE_FILE created_dir) document /\
     represents (W := nat) changed_contract digest (entry STORE_FILE replaced.2) document' /\
     request_mutations replace_first <> [] /\ Forall (permitted changed_contract) (request_mutations replace_first) /\
     mutations_effect (request_mutations replace_first) results (mdoc_collections document) (mdoc_collections document') /\
     mdoc_generation document' = (mdoc_generation document + 1)%N /\
     ∀ v, replaced.1 = Ok v -> v = answer replace_first results)).
Proof.
  split; [vm_compute; reflexivity|].
  apply (managed_request_refines "app" changed_contract replace_first created_dir replaced.1 replaced.2).
  - apply faultless_honest. vm_compute. reflexivity.
  - apply surjective_pairing.
Defined.

Lemma contract_backup_is_mutated_witness :
  ∃ results changed backup,
    mutations_effect (request_mutations replace_first) results (mdoc_collections (read_stored created_dir))
      (mdoc_collections changed) /\
    same_envelope (read_stored created_dir) changed /\
    entry CONTRACT_BACKUP_FILE replaced.2 = Some backup /\ mdoc_from_str backup = inr changed.
Proof.
  apply (contract_backup_is_mutated "app" changed_contract replace_first created_dir (answer_of replaced.1 VNull)
           replaced.2 changed_digest (read_stored created_dir)).
  - apply faultless_honest. vm_compute. reflexivity.
  - apply (run_pair replaced). vm_compute. reflexivity.
  - discriminate.
  - vm_compute. reflexivity.
  - vm_compute. split; reflexivity.
  - vm_compute. reflexivity.
Defined.

Definition stored_items : Records := default ∅ (mdoc_collections (read_stored three_items) !! "items").

Lemma validated_document_well_formed_witness :
  ∃ declaration, hm_collections first_contract !! "items" = Some declaration /\
    (N.of_nat (size stored_items) <= mcl_records (mdc_limits declaration))%N.
Proof.
  pose proof (validated_document_well_formed (W := nat) (read_stored three_items) first_contract) as Hwf.
  destruct (Hwf ltac:(vm_compute; reflexivity) "items" stored_items
    ltac:(vm_compute; reflexivity)) as (declaration & Hd & Hsize & _).
  exists declaration. split; [exact Hd|exact Hsize].
Defined.

Lemma cursor_enumerates_witness :
  ∃ all, follow (W := nat) 4 (read_stored three_items) first_contract "items" empty_query = Ok all /\
         NoDup (mr_id <$> all) /\ length all = 3.
Proof.
  pose proof (cursor_enumerates (W := nat) (read_stored three_items) first_contract "items" empty_query
    (answer_of (list_records (W := nat) (read_stored three_items) first_contract "items" (Some empty_query))
       {| ml_records := []; ml_next_after := None |})) as Hcur.
  destruct (Hcur ltac:(vm_compute; reflexivity) ltac:(vm_compute; reflexivity)) as (declaration & index & all & _ & _ & Hf & Hn & _).
  exists all. specialize (Hf 4 ltac:(vm_compute; lia)). split; [exact Hf|]. split; [exact Hn|].
  assert (Ok (E := string) (length all) = Ok 3) as Hlen.
  { change (Ok (length all)) with (length <$> (Ok (E := string) all)). rewrite <- Hf. vm_compute. reflexivity. }
  congruence.
Defined.

(** ** Version 2 *)

(** A session that creates a record, stages a batch with a record and a document, and
    commits it. *)
Definition contract_2 : HostManagedDataRef := demo_contract 2 100000.
Definition fresh_dir : V2Dir nat := {| vd_dir := demo_dir; vd_blobs := no_files; vd_blob_links := ∅ |}.
Definition run_v2 (request : ManagedDataV2Request) (s : V2Dir nat) : outcome string Value * V2Dir nat :=
  request_v2 "app" contract_2 request s.

Definition create_a : ManagedDataV2Request := V2Create "m1" 0 "items" (titled "a").
Definition after_create : V2Dir nat := (run_v2 create_a fresh_dir).2.
Definition after_begin : V2Dir nat :=
  (run_v2 (V2BeginBatch "m2" 1 [MutCreate "items" (titled "b")]
             [DopCreate "s1" "files" (titled "f") 5 (content_digest "hello")]) after_create).2.
Definition after_chunk : V2Dir nat :=
  (run_v2 (V2AppendDocumentChunk "m3" "uuid-3" "uuid-4" 0 (base64_encode "hello")) after_begin).2.
Definition commit_m4 : ManagedDataV2Request := V2CommitBatch "m4" "uuid-3".
Definition after_commit : V2Dir nat := (run_v2 commit_m4 after_chunk).2.

(** The existence check, on one run. *)
Lemma truthful_run {W} `{Uuids, Libraries, ManagedWorld W, ManagedCodec, V2Codec} app_dir (s : V2Dir W) :
  (is_file V2_STORE_FILE (vd_dir ((_ ← reject_v2_links app_dir; cleanup_expired_stage app_dir) s).2)).1
  = Ok (bool_decide (is_Some (published ((_ ← reject_v2_links app_dir; cleanup_expired_stage app_dir) s).2))) ->
  stat_truthful app_dir s.
Proof. intros Ht s1 Hs1. rewrite Hs1 in Ht. exact Ht. Qed.

(** A store whose published state has no documents. *)
Lemma documentless_intact {W} `{Uuids, Libraries, ManagedWorld W, ManagedCodec, V2Codec} (s : V2Dir W) :
  match published s with
  | Some raw => match env_from_str raw with inr state => env_documents state = ∅ | inl _ => True end
  | None => True
  end -> contents_intact s.
Proof.
  intros Hp state Hrep. assert (env_documents state = ∅) as ->; [|by intros c held id d Hc].
  unfold represents_v2 in Hrep. destruct (published s) as [raw|]; [|by destruct Hrep].
  by rewrite Hrep in Hp.
Qed.

Lemma request_v2_refines_witness :
  (run_v2 commit_m4 after_chunk).1 = Ok (answer_of (run_v2 commit_m4 after_chunk).1 VNull) /\
  sound_v2 after_commit /\ request_effect_v2 commit_m4 (run_v2 commit_m4 after_chunk).1 after_chunk after_commit.
Proof.
  split; [vm_compute; reflexivity|].
  apply (request_v2_refines "app" contract_2 commit_m4 after_chunk (run_v2 commit_m4 after_chunk).1 after_commit).
  - apply faultless_honest. vm_compute. reflexivity.
  - apply truthful_run. vm_compute. reflexivity.
  - apply surjective_pairing.
Defined.

Lemma mutation_exactly_once_witness :
  published (run_v2 create_a after_begin).2 = published after_begin /\
  ∀ v', (run_v2 create_a after_begin).1 = Ok v' -> v' = answer_of (run_v2 create_a fresh_dir).1 VNull.
Proof.
  apply (mutation_exactly_once "app" contract_2 contract_2 create_a "m1"
           (answer_of (request_digest create_a) EmptyString) (answer_of (run_v2 create_a fresh_dir).1 VNull)
           fresh_dir after_create after_begin).
  - apply faultless_honest. vm_compute. reflexivity.
  - apply truthful_run. vm_compute. reflexivity.
  - reflexivity.
  - vm_compute. reflexivity.
  - apply (run_pair (run_v2 create_a fresh_dir)). vm_compute. reflexivity.
  - eapply session_request; [apply truthful_run; vm_compute; reflexivity|apply surjective_pairing|apply session_end].
  - apply truthful_run. vm_compute. reflexivity.
  - apply surjective_pairing.
Defined.


(** ** Generated capabilities *)

Definition data_of (contract : HostManagedDataRef) : AppData :=
  DataHostManaged (hm_contract_version contract) (hm_collections contract) (hm_documents contract)
    (hm_limits contract) (hm_exports contract) (hm_proposals contract).

Definition context_on (resource : ResourceId) : InvocationContext := {|
  ic_run_id := "run-0"; ic_invoked_by := "agent"; ic_invoked_by_version := "1";
  ic_invoked_by_content_hash := "sha256:agent"; ic_authorized_data_scope := Resources [resource];
  ic_secrets := {| res_declared := ∅; res_secrets := ∅ |}; ic_artifacts := {| sn_artifacts := ∅ |};
  ic_cancellation := {| ch_cancelled := 0; ch_deadline := 1 |} |}.

Definition read_items : ManagedDataExport :=
  {| mde_capability := "read-items"; mde_operation := ExportList; mde_collection := "items"; mde_index := None;
     mde_equals_host_input := None |}.

Definition v1_dir : V2Dir nat := {| vd_dir := three_items; vd_blobs := no_files; vd_blob_links := ∅ |}.

Definition exported : outcome HandlerFailure CapabilityOutcome * V2Dir nat :=
  export_handler "app" "notes" (data_of first_contract) read_items false false []
    (context_on "app-data:notes:items") v1_dir.

Definition no_outcome : CapabilityOutcome := {| co_result := VNull; co_artifacts := [] |}.

Lemma export_reads_its_collection_witness :
  co_artifacts (answer_of exported.1 no_outcome) = [] /\
  entry STORE_FILE (vd_dir exported.2) = entry STORE_FILE (vd_dir v1_dir).
Proof.
  pose proof (export_reads_its_collection "app" "notes" (data_of first_contract) read_items false false []
    (context_on "app-data:notes:items") v1_dir (answer_of exported.1 no_outcome) exported.2) as Hx.
  destruct Hx as (_ & Ha & Hs & _); [|apply (run_pair exported); vm_compute; reflexivity|split; assumption].
  apply faultless_honest. vm_compute. reflexivity.
Defined.

Definition edit_item : ManagedDataProposal :=
  {| mdp_capability := "propose-edit"; mdp_artifact_type := "item-edit"; mdp_title := "Edit an item";
     mdp_description := "Propose a new title"; mdp_target := TargetRecord "items"; mdp_payload_schema := [];
     mdp_max_payload_bytes := 100 |}.

Definition edit_input : JsonObject :=
  [("targetId", VString "uuid-0"); ("targetRevision", VNumber "1"); ("payload", VObject (titled "b"))].

Definition proposed : outcome HandlerFailure CapabilityOutcome * V2Dir nat :=
  managed_proposal_handler "app" (fun _ => "scope") "notes" (data_of contract_2) edit_item (Ok tt) false false
    edit_input (context_on "app-data:notes:items:record:uuid-0") after_create.

Lemma proposal_is_exact_witness :
  published proposed.2 = published after_create /\
  ∃ draft, co_artifacts (answer_of proposed.1 no_outcome) = [draft].
Proof.
  pose proof (proposal_is_exact "app" (fun _ => "scope") "notes" (data_of contract_2) edit_item (Ok tt) false false
    edit_input (context_on "app-data:notes:items:record:uuid-0") after_create (answer_of proposed.1 no_outcome)
    proposed.2) as Hx.
  destruct Hx as (_ & Hp & contract & state & target & payload & bytes & Hx).
  - apply faultless_honest. vm_compute. reflexivity.
  - apply truthful_run. vm_compute. reflexivity.
  - apply (run_pair proposed). vm_compute. reflexivity.
  - split; [exact Hp|]. eexists. apply Hx.
Defined.

(** ** Managed data: sessions that end in a store the host refuses

    Concrete sessions of contract version 2, each of legal requests, after which the store
    cannot be opened or a content cannot be stored. *)

(** ** Aborting the first batch *)

Definition begun_fresh : V2Dir nat := (run_v2 (V2BeginBatch "m1" 0 [] []) fresh_dir).2.
Definition aborted_fresh : outcome string Value * V2Dir nat := run_v2 (V2AbortBatch "m2" "uuid-0") begun_fresh.

(** Aborting a batch on a store that has published nothing blocks the next start. The
    abort is answered and publishes generation zero with its receipt, and the start-up
    check of the app's files rejects a generation of zero. *)
Theorem abort_on_fresh_store_blocks_restart :
  aborted_fresh.1 = Ok (VObject [("aborted", VBool true); ("batchId", VString "uuid-0");
                                 ("generation", VNumber "0")]) /\
  (validate_app "app" "app" aborted_fresh.2).1 = Err "managed-data v2 state envelope is invalid".
Proof. split; vm_compute; reflexivity. Qed.

(** ** Power loss after a commit *)

(** A power loss may bring back any directory since the last sync. *)
Lemma crash_to_pending fs d :
  d ∈ fs_pending fs -> (∀ name f, d !! name = Some f -> f_synced f = true) ->
  crash fs {| fs_exists := fs_exists fs; fs_dir := d; fs_pending := []; fs_faults := []; fs_uuids := 0 |}.
Proof.
  intros Hd Hs. split_and!; [done|done|]. intros name. exists d. split; [by right|]. simpl.
  destruct (d !! name) as [f|] eqn:E; simpl; done.
Qed.

Lemma last_elem {A} (l : list A) x : last l = Some x -> x ∈ l.
Proof. intros Hl. apply last_Some in Hl as [l' ->]. apply elem_of_app. right. by apply list_elem_of_singleton. Qed.

Definition with_blobs (fs : FileSystem) (s : V2Dir nat) : V2Dir nat :=
  {| vd_dir := vd_dir s; vd_blobs := fs; vd_blob_links := vd_blob_links s |}.

Definition lost_blobs : FileSystem :=
  {| fs_exists := true; fs_dir := ∅; fs_pending := []; fs_faults := []; fs_uuids := 0 |}.

(** A power loss may leave a committed document without its content. A blob is
    synced but the directory that names it never is: after an answered commit the blob
    directory may come back empty, and then every request of the app is refused. *)
Theorem committed_blob_may_vanish :
  (run_v2 commit_m4 after_chunk).1 = Ok (answer_of (run_v2 commit_m4 after_chunk).1 VNull) /\
  crash (vd_blobs after_commit) lost_blobs /\
  (run_v2 (V2Get "items" "uuid-0" None) (with_blobs lost_blobs after_commit)).1
  = Err "managed-data document blob is missing: not found".
Proof.
  split_and!; [vm_compute; reflexivity| |vm_compute; reflexivity].
  apply (crash_to_pending (vd_blobs after_commit) ∅); [|by intros].
  apply last_elem. vm_compute. reflexivity.
Qed.

(** ** An existence check that fails *)

(** After the first record a second one is created; then the existence check of the
    published state fails once, the fifth call on the directory. *)
Definition create_b : ManagedDataV2Request := V2Create "m5" 1 "items" (titled "b").
Definition after_b : V2Dir nat := (run_v2 create_b after_create).2.
Definition unreadable_once : option Fault :=
  Some {| ft_error := {| io_kind := OtherKind; io_message := "denied" |}; ft_written := 0 |}.
Definition check_fails (s : V2Dir nat) : V2Dir nat :=
  let fs := md_fs (vd_dir s) in
  {| vd_dir := {| md_fs := {| fs_exists := fs_exists fs; fs_dir := fs_dir fs; fs_pending := fs_pending fs;
                              fs_faults := [None; None; None; None; unreadable_once]; fs_uuids := fs_uuids fs |};
                  md_links := md_links (vd_dir s); md_world := md_world (vd_dir s) |};
     vd_blobs := vd_blobs s; vd_blob_links := vd_blob_links s |}.

(** A published state that the existence check does not see is replaced. The check
    [Path::is_file] answers no when it fails; the store then starts from an empty
    state, executes a mutation it had answered before a second time, and publishes the
    result over everything that was stored: the second record is gone. *)
Theorem unseen_state_is_replaced :
  let again := run_v2 create_a (check_fails after_b) in
  (is_Some (published after_b) /\ ∃ answer, again.1 = Ok answer /\ answer <> answer_of (run_v2 create_a fresh_dir).1 VNull) /\
  (∃ record, (run_v2 (V2Get "items" "uuid-3" None) after_b).1
             = Ok (VObject [("generation", VNumber "2"); ("record", VObject record)])) /\
  (run_v2 (V2Get "items" "uuid-3" None) again.2).1 = Ok (VObject [("generation", VNumber "1"); ("record", VNull)]).
Proof.
  split_and!.
  - eexists. vm_compute. reflexivity.
  - eexists. split; [vm_compute; reflexivity|]. vm_compute. discriminate.
  - eexists. vm_compute. reflexivity.
  - vm_compute. reflexivity.
Qed.

(** ** A crash while a blob is written *)

Definition power_cut : option Fault :=
  Some {| ft_error := {| io_kind := OtherKind; io_message := "cut" |}; ft_written := 2 |}.

(** The blob calls of the commit up to the write, which is cut short with what follows. *)
Definition cut_commit : V2Dir nat :=
  (run_v2 commit_m4 (with_blobs
     {| fs_exists := true; fs_dir := ∅; fs_pending := [];
        fs_faults := [None; None; None; None; power_cut; power_cut]; fs_uuids := 0 |} after_chunk)).2.

(** A crash while a blob is written makes its content impossible to store. The
    partial blob stays under its final name, and every later commit of the same content
    finds it, finds that it differs, and is refused. *)
Theorem interrupted_blob_refuses_content :
  blobs cut_commit !! blob_name (content_digest "hello") = Some {| f_bytes := "he"; f_synced := false |} /\
  (run_v2 (V2CommitBatch "m5" "uuid-3") cut_commit).1
  = Err "managed-data content-addressed blob already exists with different content".
Proof. split; vm_compute; reflexivity. Qed.
