(* ===== verification/PackageInspect.v ===== *)
(** * Reading and inspecting packages

    [host/src-tauri/src/package.rs]: reading [app.json] and the signature, the integrity of
    the assets, icons, the inspection shown before an installation, and the translation of
    a package to a kernel manifest. A package directory is a tree of files; a symbolic link
    inside it is never followed. Serde, the bundled JSON schema, base64 and the URL parser
    are parameters. *)

From S2P Require Import PublisherTrust PackageChecks Prelude RustStd RustText Json JsonOps Types Errors Grants Manifest AtomicJson FileStore Platform Registry Packages SurfaceUi.

Class PackageFormat := {
  (** [serde_json::from_str], and [from_value] at the two document types. *)
  value_from_str : string -> string + Value;
  document_from_value : Value -> string + PackageDocument;
  signature_from_value : Value -> string + PackageSignatureDocument;
  (** The parsed [schemas/app.schema.json]. *)
  app_schema : JsonObject;
  (** base64's [STANDARD] alphabet. *)
  standard_encode : string -> string;
  package_url : string -> option Url;
}.

Definition MAX_APP_DOCUMENT_BYTES : nat := Z.to_nat 1048576.
Definition MAX_SIGNATURE_DOCUMENT_BYTES : nat := Z.to_nat 65536.
Definition MAX_SURFACE_UI_BYTES : nat := Z.to_nat 33554432.
Definition MAX_ICON_BYTES : nat := Z.to_nat 262144.

(** ** Reading *)

(** [open_regular_nofollow] and [read_to_end]. *)
Definition read_regular (root : Node) (rel label : string) : outcome string string :=
  ok_or (lookup_file (split slash rel) root) ("package entry '" +:+ label +:+ "' is not a regular file").

Definition read_bounded_utf8 (root : Node) (rel label : string) (max_bytes : nat) : outcome string string :=
  bytes ← read_regular root rel label;
  if max_bytes <? String.length bytes
  then Err (label +:+ " is " +:+ pretty (N.of_nat (String.length bytes)) +:+ " bytes; the maximum is "
            +:+ pretty (N.of_nat max_bytes))
  else if utf8_valid bytes then Ok bytes else Err (label +:+ " is not valid UTF-8").

Section reading.
Context `{Libraries, PackageFormat}.

(** The checks of [validate_public_schema] and [validate_signature_schema] after the schema
    is chosen. *)
Definition validate_schema (schema : JsonObject) (label : string) (value : Value) : outcome string unit :=
  validator ← map_err (String.append "bundled app package schema is invalid: ") (schema_validator_for schema);
  let errors := merge_sort string_le (validator value) in
  if bool_decide (errors = []) then Ok tt
  else Err (label +:+ " does not match the public schema: " +:+ join_with "; " errors).

Definition validate_public_schema (value : Value) : outcome string unit :=
  validate_schema app_schema APP_JSON value.

(** [schema.pointer("/$defs/SignatureDocument")]. *)
Definition signature_schema : option JsonObject :=
  obj_get app_schema "$defs" ≫= (fun defs => Value_get defs "SignatureDocument" ≫= Value_as_object).

Definition validate_signature_schema (value : Value) : outcome string unit :=
  schema ← ok_or signature_schema "bundled app package schema is missing definition 'SignatureDocument'";
  validate_schema schema SIGNATURE_JSON value.

Definition read_document (root : Node) : outcome string PackageDocument :=
  raw ← read_bounded_utf8 root APP_JSON APP_JSON MAX_APP_DOCUMENT_BYTES;
  value ← map_err (String.append ("invalid " +:+ APP_JSON +:+ ": ")) (from_result (value_from_str raw));
  _ ← validate_public_schema value;
  map_err (String.append ("invalid " +:+ APP_JSON +:+ ": ")) (from_result (document_from_value value)).

Definition read_signature_document (root : Node) : outcome string (option PackageSignatureDocument) :=
  if negb (bool_decide (is_Some (lookup_file [SIGNATURE_JSON] root))) then Ok None
  else
    raw ← read_bounded_utf8 root SIGNATURE_JSON SIGNATURE_JSON MAX_SIGNATURE_DOCUMENT_BYTES;
    value ← map_err (String.append ("invalid " +:+ SIGNATURE_JSON +:+ ": ")) (from_result (value_from_str raw));
    _ ← validate_signature_schema value;
    document ← map_err (String.append ("invalid " +:+ SIGNATURE_JSON +:+ ": ")) (from_result (signature_from_value value));
    Ok (Some document).

(** [package_digest] of a directory. *)
Definition directory_digest (root : Node) : outcome string string :=
  document ← read_document root;
  package_digest sha256_hex document root.

(** ** Integrity *)

Definition verify_asset (root : Node) (asset : string * string) : outcome string unit :=
  let '(rel, expected) := asset in
  _ ← reject (negb (is_safe_relative rel)) ("integrity lists an unsafe path: " +:+ rel);
  bytes ← read_regular root rel rel;
  reject (negb (bool_decide ("sha256-" +:+ sha256_hex bytes = expected))) ("checksum mismatch for '" +:+ rel +:+ "'").

Definition verify_integrity (root : Node) (integrity : Integrity) : outcome string (list string) :=
  _ ← for_each (verify_asset root) (in_assets integrity);
  Ok [].
End reading.

(** ** Icons *)

Definition is_ascii_alphabetic (b : N) : bool := ((65 <=? b) && (b <=? 90) || (97 <=? b) && (b <=? 122))%N.

(** [while cursor < len && p(bytes[cursor])]. *)
Fixpoint skip_while (p : N -> bool) (s : string) : string :=
  match s with
  | String c s' => if p (byte c) then skip_while p s' else s
  | EmptyString => s
  end.

Definition starts_with_equals (s : string) : bool :=
  match s with String c _ => (byte c =? 61)%N | EmptyString => false end.

(** One iteration of the loop of [has_svg_event_handler], on the text from [start]. *)
Definition event_handler_at (s : string) : bool :=
  match s with
  | String w (String o (String n (String a rest))) =>
      is_ascii_whitespace (byte w) && (byte o =? 111)%N && (byte n =? 110)%N && is_ascii_alphabetic (byte a)
      && starts_with_equals (skip_while is_ascii_whitespace (skip_while is_ascii_alphabetic rest))
  | _ => false
  end.

Fixpoint has_svg_event_handler (svg : string) : bool :=
  match svg with
  | EmptyString => false
  | String _ rest => event_handler_at svg || has_svg_event_handler rest
  end.

(** [str::contains] of a text. *)
Definition contains_text (needle s : string) : bool := bool_decide (is_Some (find_text needle s)).

(** [path.rsplit_once('.')]. *)
Fixpoint rsplit_once (sep : Ascii.ascii) (s : string) : option (string * string) :=
  match s with
  | EmptyString => None
  | String c s' =>
      match rsplit_once sep s' with
      | Some (before, after) => Some (String c before, after)
      | None => if decide (c = sep) then Some (EmptyString, s') else None
      end
  end.

(** [Path::extension] of a normalised path. *)
Definition path_extension (path : string) : option string :=
  match rsplit_once dot (List.last (split slash path) EmptyString) with
  | Some (EmptyString, _) | None => None
  | Some (_, extension) => Some extension
  end.

Fixpoint text_of_bytes (bytes : list N) : string :=
  match bytes with [] => EmptyString | b :: bytes' => String (Ascii.ascii_of_N b) (text_of_bytes bytes') end.

Definition PNG_MAGIC : string := text_of_bytes [137; 80; 78; 71; 13; 10; 26; 10]%N.
Definition JPEG_MAGIC : string := text_of_bytes [255; 216; 255]%N.

Definition FORBIDDEN_SVG : list string := ["<script"; "<foreignobject"; "<style"; "href"; "url"; "@import"].

Definition svg_media_type (path bytes : string) : outcome string string :=
  let active := "app icon '" +:+ path +:+ "' contains unsupported active or external SVG content" in
  if negb (utf8_valid bytes) then Err ("app icon '" +:+ path +:+ "' is not UTF-8 SVG")
  else
    let normalized := to_ascii_lowercase bytes in
    if negb (contains_text "<svg" normalized) then Err ("app icon '" +:+ path +:+ "' does not contain an SVG root")
    else if existsb (fun forbidden => contains_text forbidden normalized) FORBIDDEN_SVG then Err active
    else if has_svg_event_handler normalized then Err active
    else Ok "image/svg+xml".

Definition icon_media_type (path bytes : string) : outcome string string :=
  let extension := to_ascii_lowercase <$> path_extension path in
  if bool_decide (extension = Some "png") && starts_with PNG_MAGIC bytes then Ok "image/png"
  else if bool_decide (extension = Some "webp") && (12 <=? String.length bytes)
          && bool_decide (String.substring 0 4 bytes = "RIFF") && bool_decide (String.substring 8 4 bytes = "WEBP")
  then Ok "image/webp"
  else if (bool_decide (extension = Some "jpg") || bool_decide (extension = Some "jpeg")) && starts_with JPEG_MAGIC bytes
  then Ok "image/jpeg"
  else if bool_decide (extension = Some "svg") then svg_media_type path bytes
  else Err ("app icon '" +:+ path +:+ "' must be a valid SVG, PNG, WebP, or JPEG image").

Inductive AppIconView := IconViewAsset (media_type data_base64 : string) | IconViewKestral (name : KestralIconName).

Definition app_icon_view `{PackageFormat} (root : Node) (icon : option PackageIcon) :
    outcome string (option AppIconView) :=
  match icon with
  | None => Ok None
  | Some (IconKestral name) => Ok (Some (IconViewKestral name))
  | Some (IconAsset path) =>
      bytes ← ok_or (lookup_file (split slash path) root) ("read app icon '" +:+ path +:+ "' failed");
      if MAX_ICON_BYTES <? String.length bytes
      then Err ("app icon '" +:+ path +:+ "' is " +:+ pretty (N.of_nat (String.length bytes))
                +:+ " bytes; the maximum is 262144")
      else
        media_type ← icon_media_type path bytes;
        Ok (Some (IconViewAsset media_type (standard_encode bytes)))
  end.

(** ** Summaries *)

Record ManagedDataCollectionSummary := {
  cs_name : string; cs_schema : JsonObject; cs_operations : list ManagedDataOperation; cs_records : N;
  cs_record_bytes : N; cs_query_results : N; cs_indexes : list string; cs_unique_indexes : list string }.
Record ManagedDocumentCollectionSummary := {
  ds_name : string; ds_metadata_schema : JsonObject; ds_operations : list ManagedDocumentOperation;
  ds_documents : N; ds_metadata_bytes : N; ds_content_bytes : N }.
Record ManagedDataProposalSummary := {
  ps_capability : string; ps_artifact_type : string; ps_proposal_title : string; ps_proposal_description : string;
  ps_target_kind : string; ps_collection : string; ps_max_payload_bytes : N; ps_payload_schema : JsonObject }.

Record AppDataSummary := {
  da_kind : string;
  da_format_version : option N;
  da_migration_protocol_version : option N;
  da_transitions : list AppDataTransition;
  da_contract_version : option N;
  da_total_bytes : option N;
  da_batch_operations : option N;
  da_collections : list ManagedDataCollectionSummary;
  da_documents : list ManagedDocumentCollectionSummary;
  da_proposals : list ManagedDataProposalSummary;
}.

Definition collection_summary (entry : string * ManagedDataCollection) : ManagedDataCollectionSummary :=
  let '(name, declaration) := entry in
  {| cs_name := name; cs_schema := mdc_schema declaration; cs_operations := mdc_operations declaration;
     cs_records := mcl_records (mdc_limits declaration);
     cs_record_bytes := mcl_record_bytes (mdc_limits declaration);
     cs_query_results := mcl_query_results (mdc_limits declaration);
     cs_indexes := mdi_name <$> mdc_indexes declaration;
     cs_unique_indexes := mdi_name <$> List.filter mdi_unique (mdc_indexes declaration) |}.

Definition document_summary (entry : string * ManagedDocumentCollection) : ManagedDocumentCollectionSummary :=
  let '(name, declaration) := entry in
  {| ds_name := name; ds_metadata_schema := mdd_metadata_schema declaration;
     ds_operations := mdd_operations declaration; ds_documents := mdl_documents (mdd_limits declaration);
     ds_metadata_bytes := mdl_metadata_bytes (mdd_limits declaration);
     ds_content_bytes := mdl_content_bytes (mdd_limits declaration) |}.

Definition proposal_summary (proposal : ManagedDataProposal) : ManagedDataProposalSummary :=
  {| ps_capability := mdp_capability proposal; ps_artifact_type := mdp_artifact_type proposal;
     ps_proposal_title := mdp_title proposal; ps_proposal_description := mdp_description proposal;
     ps_target_kind := target_kind (mdp_target proposal); ps_collection := target_collection (mdp_target proposal);
     ps_max_payload_bytes := mdp_max_payload_bytes proposal; ps_payload_schema := mdp_payload_schema proposal |}.

(** [AppData::summary]. *)
Definition data_summary (data : AppData) : AppDataSummary :=
  match data with
  | DataNone =>
      {| da_kind := "none"; da_format_version := None; da_migration_protocol_version := None; da_transitions := [];
         da_contract_version := None; da_total_bytes := None; da_batch_operations := None; da_collections := [];
         da_documents := []; da_proposals := [] |}
  | DataVersioned format_version migration =>
      {| da_kind := "versioned"; da_format_version := Some format_version;
         da_migration_protocol_version := Some (adm_protocol_version migration);
         da_transitions := adm_transitions migration; da_contract_version := None; da_total_bytes := None;
         da_batch_operations := None; da_collections := []; da_documents := []; da_proposals := [] |}
  | DataHostManaged contract_version collections documents limits _ proposals =>
      {| da_kind := "host-managed"; da_format_version := None; da_migration_protocol_version := None;
         da_transitions := []; da_contract_version := Some contract_version;
         da_total_bytes := Some (msl_total_bytes limits); da_batch_operations := msl_batch_operations limits;
         da_collections := collection_summary <$> btree_list collections;
         da_documents := document_summary <$> btree_list documents;
         da_proposals := proposal_summary <$> proposals |}
  end.

Definition authority_mode_label (mode : BackendAuthorityMode) : string :=
  match mode with Sandboxed => "sandboxed" | Unsandboxed => "unsandboxed" end.

(** [Backend::detail]. *)
Definition backend_detail (backend : Backend) : string :=
  match backend with
  | BackendNone => "No backend process — UI, data, and cross-app actions only"
  | McpStdio mode command _ => "MCP over stdio: " +:+ command +:+ " (" +:+ authority_mode_label mode +:+ ")"
  | McpStreamableHttp url => "MCP Streamable HTTP: " +:+ url
  | Executable mode _ _ platforms =>
      "Packaged executable (MCP stdio), " +:+ pretty (N.of_nat (length platforms)) +:+ " platform(s), "
      +:+ authority_mode_label mode
  | AgentWorker mode protocol_version _ =>
      "Agent worker protocol v" +:+ pretty protocol_version +:+ " (" +:+ authority_mode_label mode +:+ ")"
  end.

Definition effect_label (effect : CapabilityEffect) : string :=
  match effect with
  | EffectUnspecified => "unspecified"
  | EffectReadOnly => "read-only"
  | EffectLocalWrite => "local-write"
  | EffectExternalWrite => "external-write"
  | EffectDestructive => "destructive"
  end.

Definition surface_kind_label (kind : SurfaceKind) : string :=
  match kind with
  | Panel => "panel" | Card => "card" | Form => "form" | Picker => "picker" | Dashboard => "dashboard"
  end.

Record GrantRequestSummary := {
  gs_scope_label : string; gs_data_scope_label : string; gs_condition : string; gs_reason : string;
  gs_duration_label : string }.

Definition grant_scope_label (scope : GrantScope) : string :=
  match scope with
  | ExactCapability provider capability => provider +:+ "/" +:+ capability
  | AllProviderCapabilities provider => provider +:+ "/* (all actions)"
  end.

Definition data_scope_label (scope : DataScope) : string :=
  match scope with
  | NoData => "all data"
  | AllResources => "all current and future resources"
  | Resources resource_ids => "resources: " +:+ join_with ", " resource_ids
  end.

Definition condition_label (condition : GrantCondition) : string :=
  match condition with Silent => "silent" | Notify => "notify" | RequiresApproval => "requires approval" end.

Definition duration_label (duration : GrantDuration) : string :=
  match duration with
  | NonExpiring => "does not expire"
  | ExpiresAfter seconds => "expires after " +:+ pretty seconds +:+ "s"
  end.

Definition grant_summary (request : GrantRequest) : GrantRequestSummary :=
  {| gs_scope_label := grant_scope_label (gq_scope request);
     gs_data_scope_label := data_scope_label (gq_data_scope request);
     gs_condition := condition_label (gq_condition request); gs_reason := gq_reason request;
     gs_duration_label := duration_label (gq_duration request) |}.

Definition consumer_summary (consumer : ConsumerGrantRequest) : GrantRequestSummary :=
  let summary := grant_summary (cgr_request consumer) in
  {| gs_scope_label := cgr_holder consumer +:+ " -> " +:+ gs_scope_label summary;
     gs_data_scope_label := gs_data_scope_label summary; gs_condition := gs_condition summary;
     gs_reason := gs_reason summary; gs_duration_label := gs_duration_label summary |}.

(** ** The inspection *)

Record PackageInspection := {
  pi_staged_id : string;
  pi_package_digest : string;
  pi_id : string;
  pi_version : string;
  pi_display_name : string;
  pi_description : string;
  pi_publisher : option Publisher;
  pi_license : option string;
  pi_signature : SignatureState;
  pi_signature_public_key : option string;
  pi_backend_kind : string;
  pi_backend_detail : string;
  pi_backend_authority_mode : option BackendAuthorityMode;
  pi_data : AppDataSummary;
  pi_min_host_version : string;
  pi_host_version : string;
  pi_host_compatible : bool;
  (** Name, description and effect. *)
  pi_capabilities : list (string * string * string);
  pi_grant_requests : list GrantRequestSummary;
  pi_extension_contributions : list ExtensionContribution;
  (** Name, kind, title and whether it has its own document. *)
  pi_surfaces : list (string * string * string * bool);
  pi_config : list (string * string * string);
  (** Connector, secret name and description. *)
  pi_secrets : list (string * string * string);
  pi_artifact_types : list string;
  pi_event_subscriptions : list string;
  pi_integrity_ok : bool;
  pi_integrity_error : option string;
  pi_warnings : list string;
  pi_installable : bool;
  pi_blocking_error : option string;
}.

(** The signature the inspection reports: verified, and by the key the publisher names. *)
Definition signature_state `{Signatures} (trust : TrustStoreDocument) (package_digest app_id : string)
    (publisher_key : option string) (signature : option PackageSignatureDocument) : SignatureState :=
  let state :=
    match signature with
    | None => Unsigned
    | Some signature =>
        match verify_signature trust package_digest signature app_id with
        | Ok state => state
        | Err error | Panic error => SigInvalid error
        end
    end in
  match publisher_key with
  | Some expected =>
      if negb (bool_decide (SignatureState_key_id state = Some expected))
      then SigInvalid ("publisher key id '" +:+ expected +:+ "' does not match the signed key")
      else state
  | None => state
  end.

(** [first.or_else(|| second)]. *)
Definition or_else {A} (first second : option A) : option A :=
  match first with Some a => Some a | None => second end.

Section inspection.
Context `{Libraries, PackageFormat, Semver, Signatures}.

Definition asset_warnings (integrity : outcome string (list string)) : list string :=
  match integrity with Ok asset_warnings => asset_warnings | _ => [] end.

Definition compatibility_warnings (document : PackageDocument) (compatible : bool) : list string :=
  if compatible then []
  else ["requires host " +:+ pk_min_host_version document +:+ " or newer (this host is " +:+ HOST_VERSION +:+ ")"].

Definition inspect_document (root : Node) (staged_id package_digest : string) (document : PackageDocument)
    (signature : option PackageSignatureDocument) (trust : TrustStoreDocument) : outcome string PackageInspection :=
  let structural := structural_error document in
  let integrity := verify_integrity root (pk_integrity document) in
  let integrity_error := match integrity with Ok _ => None | Err error | Panic error => Some error end in
  let integrity_ok := is_ok integrity in
  _ ← (if integrity_ok then _ ← app_icon_view root (pk_icon document); Ok tt else Ok tt);
  compatible ← host_compatible (pk_min_host_version document);
  _ ← parse_semver "version" (pk_version document);
  let warnings := asset_warnings integrity ++ compatibility_warnings document compatible in
  let state := signature_state trust package_digest (pk_id document)
                 (pk_publisher document ≫= pb_key_id) signature in
  let blocking := or_else structural (blocking_error state) in
  Ok {| pi_staged_id := staged_id; pi_package_digest := package_digest; pi_id := pk_id document;
        pi_version := pk_version document; pi_display_name := pk_display_name document;
        pi_description := pk_description document; pi_publisher := pk_publisher document;
        pi_license := pk_license document; pi_signature := state;
        pi_signature_public_key := sd_public_key <$> signature;
        pi_backend_kind := kind_label (pk_backend document);
        pi_backend_detail := backend_detail (pk_backend document);
        pi_backend_authority_mode := authority_mode (pk_backend document);
        pi_data := data_summary (pk_data document); pi_min_host_version := pk_min_host_version document;
        pi_host_version := HOST_VERSION; pi_host_compatible := compatible;
        pi_capabilities := (fun c => (cd_name c, cd_description c, effect_label (cd_effect c)))
                             <$> pm_capabilities (pk_manifest document);
        pi_grant_requests := (grant_summary <$> pm_grant_requests (pk_manifest document))
                             ++ (consumer_summary <$> pk_consumer_grant_requests document);
        pi_extension_contributions := pm_extension_contributions (pk_manifest document);
        pi_surfaces := (fun s => (ps_name s, surface_kind_label (ps_kind s), ps_title s, bool_decide (is_Some (ps_ui s))))
                         <$> pm_surfaces (pk_manifest document);
        pi_config := (fun c => (cf_name c, cf_title c, cf_description c))
                       <$> pm_config_declarations (pk_manifest document);
        pi_secrets := pm_connectors (pk_manifest document) ≫= (fun connector =>
                        (fun name => (cn_name connector, name, cn_description connector)) <$> cn_secret_names connector);
        pi_artifact_types := at_name <$> pm_artifact_types (pk_manifest document);
        pi_event_subscriptions := pm_event_subscriptions (pk_manifest document);
        pi_integrity_ok := integrity_ok; pi_integrity_error := integrity_error; pi_warnings := warnings;
        pi_installable := negb (bool_decide (is_Some blocking)) && integrity_ok && compatible;
        pi_blocking_error := blocking |}.

Definition inspect_with_trust (root : Node) (trust : TrustStoreDocument) : outcome string PackageInspection :=
  digest ← directory_digest root;
  document ← read_document root;
  signature ← read_signature_document root;
  inspect_document root EmptyString digest document signature trust.

(** ** Translation to the kernel manifest *)

Record TranslatedPackage := {
  tp_sealed : SealedManifest;
  tp_app_id : AppId;
  tp_ui_bundles : list (SurfaceName * SurfaceUiBundle);
  tp_backend : Backend;
  tp_data : AppData;
}.

Definition surface_declaration (surface : PackageSurface) : SurfaceDeclaration :=
  {| sd_name := ps_name surface; sd_kind := ps_kind surface; sd_title := ps_title surface;
     sd_description := ps_description surface; sd_intents := ps_intents surface |}.

(** The document of a surface with its policy. *)
Definition surface_bundle (root : Node) (surface : PackageSurface) (ui : PackageSurfaceUi) :
    outcome string SurfaceUiBundle :=
  _ ← reject (negb (is_safe_relative (psu_entry ui)))
        ("surface '" +:+ ps_name surface +:+ "' has an unsafe ui.entry");
  html ← read_bounded_utf8 root (psu_entry ui) ("ui entry '" +:+ psu_entry ui +:+ "'") MAX_SURFACE_UI_BYTES;
  _ ← reject (bool_decide (is_Some (psu_csp ui)))
        ("surface '" +:+ ps_name surface +:+ "' sets ui.csp, which is no longer accepted; declare allowed "
         +:+ "network hosts in ui.connect_src instead (the host authors the policy)");
  match List.find (fun source => negb (is_valid_connect_src package_url source)) (psu_connect_src ui) with
  | Some bad =>
      Err ("surface '" +:+ ps_name surface +:+ "' declares an invalid ui.connect_src entry '" +:+ bad
           +:+ "'; each entry must be one exact http(s) or ws(s) origin such as 'https://example.com' "
           +:+ "(no paths, credentials, wildcards, or scheme-only sources; host IPC origins are reserved)")
  | None => Ok (surface_ui_bundle_new package_url html (psu_connect_src ui))
  end.

Fixpoint surface_bundles (root : Node) (surfaces : list PackageSurface) :
    outcome string (list (SurfaceName * SurfaceUiBundle)) :=
  match surfaces with
  | [] => Ok []
  | surface :: surfaces' =>
      match ps_ui surface with
      | None => surface_bundles root surfaces'
      | Some ui =>
          bundle ← surface_bundle root surface ui;
          bundles ← surface_bundles root surfaces';
          Ok ((ps_name surface, bundle) :: bundles)
      end
  end.

Definition translated_manifest (document : PackageDocument) : AppManifest :=
  let body := pk_manifest document in
  {| m_app_id := pk_id document; m_version := pk_version document; m_display_name := pk_display_name document;
     m_description := pk_description document; m_capabilities := pm_capabilities body;
     m_surfaces := surface_declaration <$> pm_surfaces body; m_agents := pm_agents body; m_skills := pm_skills body;
     m_assistant_profiles := pm_assistant_profiles body; m_automations := pm_automations body;
     m_connectors := pm_connectors body; m_config_declarations := pm_config_declarations body;
     m_artifact_types := pm_artifact_types body; m_extension_points := pm_extension_points body;
     m_extension_contributions := pm_extension_contributions body; m_grant_requests := pm_grant_requests body;
     m_event_subscriptions := pm_event_subscriptions body |}.

Definition translate (root : Node) (document : PackageDocument) : outcome string TranslatedPackage :=
  match structural_error document with
  | Some error => Err error
  | None =>
      ui_bundles ← surface_bundles root (pm_surfaces (pk_manifest document));
      let manifest := translated_manifest document in
      _ ← map_err (fun error => "manifest is inconsistent: " +:+ KernelError_display error) (require_consistent manifest);
      Ok {| tp_sealed := seal manifest; tp_app_id := pk_id document; tp_ui_bundles := ui_bundles;
            tp_backend := pk_backend document; tp_data := pk_data document |}
  end.
End inspection.

(** ** Inspection and translation of packages

    The scan for event handlers in SVG icons, what makes a package installable, and what a
    translated package hands to the kernel and to the surface server. *)

(** ** Scanning *)

Lemma skip_while_split p s :
  ∃ a, s = a +:+ skip_while p s /\ string_all p a = true.
Proof.
  induction s as [|c s (a & Hs & Ha)]; simpl; [by exists EmptyString|].
  destruct (p (byte c)) eqn:Hc; [|by exists EmptyString].
  exists (String c a). split; [exact (f_equal (String c) Hs)|]. simpl. by rewrite Hc, Ha.
Qed.

Lemma skip_while_app p a b : string_all p a = true -> skip_while p (a +:+ b) = skip_while p b.
Proof. induction a as [|c a IH]; simpl; [done|]. intros [-> Ha]%andb_true_iff. by apply IH. Qed.

(** The first byte of [s], if any, is not in [p]. *)
Definition stops (p : N -> bool) (s : string) : Prop :=
  match s with String c _ => p (byte c) = false | EmptyString => True end.

Lemma skip_while_stops p s : stops p s -> skip_while p s = s.
Proof. destruct s as [|c s]; simpl; [done|]. by intros ->. Qed.

Lemma whitespace_not_alphabetic b : is_ascii_whitespace b = true -> is_ascii_alphabetic b = false.
Proof.
  unfold is_ascii_whitespace, is_ascii_alphabetic.
  rewrite !orb_true_iff, !N.eqb_eq. intros [[[[->| ->]| ->]| ->]| ->]; reflexivity.
Qed.

Definition equals_char : Ascii.ascii := Ascii.ascii_of_N 61.

Lemma starts_with_equals_spec s : starts_with_equals s = true <-> ∃ post, s = String equals_char post.
Proof.
  destruct s as [|c s]; simpl; [naive_solver|]. rewrite N.eqb_eq. split.
  - intros Hc. exists s. f_equal. rewrite <- (Ascii.ascii_N_embedding c). unfold byte in Hc. by rewrite Hc.
  - by intros (post & [= -> ->]).
Qed.

Lemma byte_eq c n : byte c = n -> c = Ascii.ascii_of_N n.
Proof. intros <-. symmetry. apply Ascii.ascii_N_embedding. Qed.

Lemma after_name_stops ws post :
  string_all is_ascii_whitespace ws = true -> stops is_ascii_alphabetic (ws +:+ String equals_char post).
Proof.
  destruct ws as [|c ws]; simpl; [done|]. intros [Hc _]%andb_true_iff. by apply whitespace_not_alphabetic.
Qed.

(** An attribute whose name starts with [on], at the start of [s] after one blank. *)
Definition handler_attribute (s : string) : Prop :=
  ∃ w a name ws post,
    s = String w ("on" +:+ String a (name +:+ ws +:+ String equals_char post)) /\
    is_ascii_whitespace (byte w) = true /\ is_ascii_alphabetic (byte a) = true /\
    string_all is_ascii_alphabetic name = true /\ string_all is_ascii_whitespace ws = true.

Lemma event_handler_at_spec s : event_handler_at s = true <-> handler_attribute s.
Proof.
  split.
  - destruct s as [|w [|o [|n [|a rest]]]]; try done. simpl.
    rewrite !andb_true_iff, !N.eqb_eq, starts_with_equals_spec.
    intros ((((Hw & Ho%byte_eq) & Hn%byte_eq) & Ha) & post & Hpost).
    destruct (skip_while_split is_ascii_alphabetic rest) as (name & Hrest & Hname).
    destruct (skip_while_split is_ascii_whitespace (skip_while is_ascii_alphabetic rest)) as (ws & Hws & Hall).
    exists w, a, name, ws, post. rewrite <- Hpost, <- Hws, <- Hrest. subst o n. split_and!; done.
  - intros (w & a & name & ws & post & -> & Hw & Ha & Hname & Hws). simpl. rewrite Hw, Ha. simpl.
    rewrite skip_while_app, (skip_while_stops is_ascii_alphabetic), skip_while_app, (skip_while_stops is_ascii_whitespace)
      by (try apply after_name_stops; done).
    done.
Qed.

(** The scan of an SVG icon for event handlers, written with cursors, finds exactly what
    it means to find: it answers yes when and only when the text contains a blank followed by
    an attribute whose name is [on] and at least one more letter, then blanks, then an equals
    sign. *)
Theorem svg_event_handler_spec svg :
  has_svg_event_handler svg = true <-> ∃ before attribute, svg = before +:+ attribute /\ handler_attribute attribute.
Proof.
  induction svg as [|c svg IH].
  { split; [done|]. intros (before & attribute & Hs & (w & b & name & ws & post & -> & _)). by destruct before. }
  change (has_svg_event_handler (String c svg)) with (event_handler_at (String c svg) || has_svg_event_handler svg).
  rewrite orb_true_iff, event_handler_at_spec, IH. split.
  - intros [Hh|(before & attribute & -> & Hh)].
    + by exists EmptyString, (String c svg).
    + by exists (String c before), attribute.
  - intros ([|c' before] & attribute & Hs & Hh); simpl in Hs; [left; by rewrite Hs|].
    injection Hs as <- ->. right. by exists before, attribute.
Qed.

(** ** Installable packages *)

Section inspection.
Context `{Libraries, PackageFormat, Semver, Signatures}.

(** Every asset the document lists is a file with the contents whose digest it names. *)
Definition assets_intact (root : Node) (document : PackageDocument) : Prop :=
  ∀ rel expected, (rel, expected) ∈ in_assets (pk_integrity document) ->
    is_safe_relative rel = true /\
    ∃ bytes, lookup_file (split slash rel) root = Some bytes /\ expected = "sha256-" +:+ sha256_hex bytes.

Lemma verify_asset_Ok root rel expected :
  verify_asset root (rel, expected) = Ok tt <->
  is_safe_relative rel = true /\
  ∃ bytes, lookup_file (split slash rel) root = Some bytes /\ expected = "sha256-" +:+ sha256_hex bytes.
Proof.
  unfold verify_asset, read_regular. rewrite bind_unit_Ok, reject_Ok, negb_false_iff.
  destruct (lookup_file _ _) as [bytes|]; cbn [ok_or]; [|naive_solver].
  change (Ok bytes ≫= ?f) with (f bytes). cbv beta. rewrite reject_Ok, negb_false_iff, bool_decide_eq_true. naive_solver.
Qed.

Lemma verify_integrity_ok root document :
  is_ok (verify_integrity root (pk_integrity document)) = true <-> assets_intact root document.
Proof.
  unfold verify_integrity. transitivity (for_each (verify_asset root) (in_assets (pk_integrity document)) = Ok tt).
  { by destruct (for_each _ _) as [[]| |]. }
  rewrite for_each_Ok. split.
  - intros Hall rel expected Hin. by apply verify_asset_Ok, Hall.
  - intros Hall [rel expected] Hin. by apply verify_asset_Ok, Hall.
Qed.

(** Who vouches for a package: nobody, if the publisher names no key; otherwise the key the
    publisher names, through a signature of this digest and this app that verifies and is
    not revoked. *)
Definition properly_signed (trust : TrustStoreDocument) (digest : string) (document : PackageDocument)
    (signature : option PackageSignatureDocument) : Prop :=
  let named := pk_publisher document ≫= pb_key_id in
  match signature with
  | None => named = None
  | Some signature =>
      ∃ state, verify_signature trust digest signature (pk_id document) = Ok state /\
        blocking_error state = None /\
        ∀ key, named = Some key -> SignatureState_key_id state = Some key
  end.

Lemma signature_state_acceptable trust digest document signature :
  blocking_error (signature_state trust digest (pk_id document) (pk_publisher document ≫= pb_key_id) signature) = None
  <-> properly_signed trust digest document signature.
Proof.
  unfold signature_state, properly_signed. set (named := pk_publisher document ≫= pb_key_id).
  destruct signature as [signature|].
  - destruct (verify_signature _ _ _ _) as [state|error|error].
    + destruct named as [key|]; simpl; [|naive_solver].
      case_bool_decide as Hk; simpl; [naive_solver|]. split; [done|]. intros (s & [= <-] & _ & Hkey).
      by rewrite (Hkey key eq_refl) in Hk.
    + split; [|naive_solver]. destruct named as [key|]; simpl; done.
    + split; [|naive_solver]. destruct named as [key|]; simpl; done.
  - destruct named as [key|]; simpl; done.
Qed.

Lemma or_else_None {A} (a b : option A) : or_else a b = None <-> a = None /\ b = None.
Proof. destruct a; naive_solver. Qed.

Lemma no_error_iff {A} (o : option A) : negb (bool_decide (is_Some o)) = true <-> o = None.
Proof. by destruct o. Qed.

(** C28: The inspection calls a package installable exactly when it should: the structural
    check accepts its document, every asset the document lists has the contents it pins, the
    host is recent enough, and either nobody signed it and its publisher names no key, or
    its signature over this very digest and app verifies, is not revoked and is by the key
    the publisher names. The reported digest is the digest of the inspected files. *)
Theorem installable_spec root trust inspection :
  inspect_with_trust root trust = Ok inspection ->
  ∃ document signature minimum host,
    read_document root = Ok document /\ read_signature_document root = Ok signature /\
    package_digest sha256_hex document root = Ok (pi_package_digest inspection) /\
    Version_parse (pk_min_host_version document) = Ok minimum /\ Version_parse HOST_VERSION = Ok host /\
    (pi_installable inspection = true <->
     structural_error document = None /\ assets_intact root document /\ Version_leb minimum host = true /\
     properly_signed trust (pi_package_digest inspection) document signature).
Proof.
  unfold inspect_with_trust, directory_digest. intros Hrun.
  apply bind_Ok_inv in Hrun as (digest & Hdigest & Hrun). apply bind_Ok_inv in Hdigest as (document & Hdoc & Hdigest).
  rewrite Hdoc in Hrun. apply bind_Ok_inv in Hrun as (document' & [= <-] & Hrun).
  apply bind_Ok_inv in Hrun as (signature & Hsig & Hrun). unfold inspect_document in Hrun.
  apply bind_unit_Ok in Hrun as [_ Hrun]. apply bind_Ok_inv in Hrun as (compatible & Hcomp & Hrun).
  apply bind_Ok_inv in Hrun as (version & _ & [= <-]). simpl.
  unfold host_compatible, parse_semver in Hcomp. apply bind_Ok_inv in Hcomp as (minimum & Hmin & Hcomp).
  apply bind_Ok_inv in Hcomp as (host & Hhost & [= <-]).
  destruct (Version_parse (pk_min_host_version document)) as [m| |] eqn:Em; simplify_eq/=.
  destruct (Version_parse HOST_VERSION) as [h| |] eqn:Eh; simplify_eq/=.
  exists document, signature, minimum, host. split_and!; [done..|].
  rewrite !andb_true_iff, no_error_iff, or_else_None, verify_integrity_ok, signature_state_acceptable. tauto.
Qed.

(** ** Translated packages *)

Lemma read_bounded_utf8_Ok root rel label max_bytes text :
  read_bounded_utf8 root rel label max_bytes = Ok text ->
  lookup_file (split slash rel) root = Some text /\ String.length text <= max_bytes /\ utf8_valid text = true.
Proof.
  unfold read_bounded_utf8, read_regular. intros Hrun. inv_ok Hrun.
  destruct (lookup_file _ _); simplify_eq/=. destruct (_ <? _) eqn:E; [done|].
  destruct (utf8_valid _) eqn:Hu; simplify_eq. apply Nat.ltb_ge in E. done.
Qed.

Lemma filter_all {A} (p : A -> bool) (l : list A) :
  List.find (fun x => negb (p x)) l = None -> List.filter p l = l.
Proof.
  induction l as [|x l IH]; simpl; [done|]. destruct (p x); simpl; [|done]. intros. by rewrite IH.
Qed.

(** The policy a browser reads in a bundle's header: the host's directives, with network
    access to the declared origins and to nothing else. *)
Definition host_policy (connect_src : list string) (bundle : SurfaceUiBundle) : Prop :=
  ∃ sources,
    split semicolon (su_csp bundle) =
      ["default-src 'none'"; " script-src 'unsafe-inline'"; " style-src 'unsafe-inline'"; " img-src data:";
       " font-src data:"; " connect-src " +:+ sources; " frame-src 'none'"; " object-src 'none'";
       " base-uri 'none'"; " form-action 'none'"] /\
    split space sources = match connect_src with [] => ["'none'"] | _ => connect_src end.

Lemma surface_bundle_Ok root surface ui bundle :
  surface_bundle root surface ui = Ok bundle ->
  psu_csp ui = None /\ lookup_file (split slash (psu_entry ui)) root = Some (su_html bundle) /\
  Forall (fun source => is_valid_connect_src package_url source = true) (psu_connect_src ui) /\
  host_policy (psu_connect_src ui) bundle.
Proof.
  unfold surface_bundle. intros Hrun. apply bind_unit_Ok in Hrun as [_ Hrun].
  apply bind_Ok_inv in Hrun as (html & (Hhtml & _)%read_bounded_utf8_Ok & Hrun).
  apply bind_unit_Ok in Hrun as [Hcsp%reject_Ok%bool_decide_eq_false Hrun].
  destruct (List.find _ _) eqn:Hfind; [done|]. injection Hrun as <-. split_and!.
  - by destruct (psu_csp ui); [destruct Hcsp|].
  - done.
  - apply Forall_forall. intros source Hin%list_elem_of_In.
    pose proof (find_none _ _ Hfind _ Hin) as Hv. by apply negb_false_iff in Hv.
  - exists (connect_value package_url (psu_connect_src ui)). split.
    + apply policy_directives.
    + rewrite connect_value_tokens, filter_all by done. by destruct (psu_connect_src ui).
Qed.

Lemma surface_bundles_Ok root surfaces bundles :
  surface_bundles root surfaces = Ok bundles ->
  ∀ name bundle, (name, bundle) ∈ bundles ->
  ∃ surface ui, surface ∈ surfaces /\ ps_name surface = name /\ ps_ui surface = Some ui /\
    surface_bundle root surface ui = Ok bundle.
Proof.
  revert bundles. induction surfaces as [|surface surfaces IH]; intros bundles Hrun name bundle Hin; simpl in Hrun.
  { simplify_eq. by apply elem_of_nil in Hin. }
  destruct (ps_ui surface) as [ui|] eqn:Hui.
  - apply bind_Ok_inv in Hrun as (b & Hb & Hrun). apply bind_Ok_inv in Hrun as (bs & Hbs & [= <-]).
    apply elem_of_cons in Hin as [[= -> ->]|Hin].
    + exists surface, ui. split_and!; try done. by left.
    + destruct (IH _ Hbs _ _ Hin) as (s & ui' & Hs & ?). exists s, ui'. split; [by right|done].
  - destruct (IH _ Hrun _ _ Hin) as (s & ui' & Hs & ?). exists s, ui'. split; [by right|done].
Qed.

(** A package enters the host only on the host's terms. When a package is translated, the
    manifest the kernel gets is consistent and asks for exactly the capabilities, grants and
    events of the document, under the document's identity; and every custom surface document
    is the declared entry file, served under a policy that the host wrote, in which only the
    network sources vary and are exactly the origins the package declared, each of which
    passed the check. A package that brings a policy of its own is refused. *)
Theorem translate_sound root document translated :
  translate root document = Ok translated ->
  let manifest := sm_manifest (tp_sealed translated) in
  structural_error document = None /\ manifest_consistent manifest /\ tp_app_id translated = m_app_id manifest /\
  m_app_id manifest = pk_id document /\ m_capabilities manifest = pm_capabilities (pk_manifest document) /\
  m_grant_requests manifest = pm_grant_requests (pk_manifest document) /\
  m_event_subscriptions manifest = pm_event_subscriptions (pk_manifest document) /\
  ∀ name bundle, (name, bundle) ∈ tp_ui_bundles translated ->
    name ∈ sd_name <$> m_surfaces manifest /\
    ∃ surface ui, surface ∈ pm_surfaces (pk_manifest document) /\ ps_name surface = name /\
      ps_ui surface = Some ui /\ psu_csp ui = None /\ psu_entry ui ∈ referenced_files document /\
      lookup_file (split slash (psu_entry ui)) root = Some (su_html bundle) /\
      Forall (fun source => is_valid_connect_src package_url source = true) (psu_connect_src ui) /\
      host_policy (psu_connect_src ui) bundle.
Proof.
  unfold translate. destruct (structural_error document) eqn:Hs; [done|]. intros Hrun.
  apply bind_Ok_inv in Hrun as (bundles & Hb & Hrun). apply bind_unit_Ok in Hrun as [Hc [= <-]]. simpl.
  split_and!; try done.
  - apply require_consistent_spec. by destruct (require_consistent _) as [[]| |].
  - intros name bundle Hin. destruct (surface_bundles_Ok _ _ _ Hb _ _ Hin) as (surface & ui & Hsurf & <- & Hui & Hbundle).
    apply surface_bundle_Ok in Hbundle as (? & ? & ? & ?). split.
    + apply list_elem_of_fmap. exists (surface_declaration surface). split; [done|]. apply list_elem_of_fmap. eauto.
    + exists surface, ui. split_and!; try done. unfold referenced_files. apply elem_of_app. right. apply elem_of_app. left.
      apply list_elem_of_omap. exists surface. by rewrite Hui.
Qed.
End inspection.
