(* ===== verification/PackageStaging.v ===== *)
(** * Staging and copying packages

    [host/src-tauri/src/package.rs]: copying a package into host-owned staging and out of
    it. The directory that is copied from belongs to somebody else: every access to it may
    find another tree. Directories of the host change only by the host's own calls, whose
    writes may fail; reading them back does not. *)

From S2P Require Import PackageChecks Prelude RustStd RustText Json Types Errors Grants Manifest AtomicJson Platform Registry Packages PublisherTrust SurfaceUi PackageInspect.

(** Directories of the host by path; the number of calls made so far counts the accesses. *)
Record Disk := { dk_clock : nat; dk_dirs : gmap string Node; dk_uuids : nat }.

Definition set_dirs (dirs : gmap string Node) (d : Disk) : Disk :=
  {| dk_clock := dk_clock d; dk_dirs := dirs; dk_uuids := dk_uuids d |}.

(** What the world outside the host does: the source at each access, and the writes that
    fail, with their errors. *)
Record Medium := { me_source : nat -> Node; me_fault : nat -> option string }.

(** ** Trees *)

Definition has_name (name : string) (e : string * Node) : bool := bool_decide (e.1 = name).

(** Replace the entry [name], or add it. *)
Fixpoint put_entry (name : string) (node : Node) (entries : list (string * Node)) : list (string * Node) :=
  match entries with
  | [] => [(name, node)]
  | e :: entries' => if has_name name e then (name, node) :: entries' else e :: put_entry name node entries'
  end.

Definition entry_of (name : string) (entries : list (string * Node)) : option Node :=
  snd <$> List.find (has_name name) entries.

(** [fs::create_dir_all(parent)], [File::create(path)] and the copy of the bytes. *)
Fixpoint insert_file (parts : list string) (bytes : string) (node : Node) : option Node :=
  match parts, node with
  | [name], NDir entries =>
      match entry_of name entries with
      | Some (NFile _) | None => Some (NDir (put_entry name (NFile bytes) entries))
      | Some _ => None
      end
  | name :: parts', NDir entries =>
      child ← insert_file parts' bytes (default (NDir []) (entry_of name entries));
      Some (NDir (put_entry name child entries))
  | _, _ => None
  end.

Section staging.
Context `{Libraries, PackageFormat, Semver, Signatures, Uuids}.
Context (medium : Medium).

(** One access to the source. *)
Definition look : st Disk string Node := fun d =>
  (Ok (me_source medium (dk_clock d)), {| dk_clock := S (dk_clock d); dk_dirs := dk_dirs d; dk_uuids := dk_uuids d |}).

(** [|error| format!("{label} failed: {error}")]. *)
Definition failed (label error : string) : string := label +:+ " failed: " +:+ error.

(** A write that changes nothing if it fails. *)
Definition write_dirs (wrap : string -> string) (f : gmap string Node -> outcome string (gmap string Node)) :
    st Disk string unit := fun d =>
  let d1 := {| dk_clock := S (dk_clock d); dk_dirs := dk_dirs d; dk_uuids := dk_uuids d |} in
  match me_fault medium (dk_clock d) with
  | Some error => (Err (wrap error), d1)
  | None => match f (dk_dirs d) with
            | Ok dirs => (Ok tt, set_dirs dirs d1)
            | Err error => (Err (wrap error), d1)
            | Panic msg => (Panic msg, d1)
            end
  end.

(** [fs::create_dir]. *)
Definition create_dir (label dir : string) : st Disk string unit :=
  write_dirs (failed label) (fun dirs =>
    if bool_decide (is_Some (dirs !! dir)) then Err "File exists" else Ok (<[dir := NDir []]> dirs)).

(** [fs::remove_dir_all] and [remove_read_only_tree]. *)
Definition remove_tree (dir : string) : st Disk string unit :=
  write_dirs id (fun dirs => Ok (delete dir dirs)).

(** [let _ = call]. *)
Definition ignoring (m : st Disk string unit) : st Disk string unit := fun d =>
  match m d with (Panic msg, d') => (Panic msg, d') | (_, d') => (Ok tt, d') end.

(** The tree of a directory of the host. *)
Definition tree_of (dir : string) : st Disk string Node := fun d =>
  (ok_or (dk_dirs d !! dir) "No such file or directory", d).

(** [copy_regular_file]: a failing copy leaves an empty file. *)
Definition copy_regular_file (destination rel : string) : st Disk string unit :=
  root ← look;
  bytes ← st_lift (read_regular root rel rel);
  let put text := fun dirs =>
    node ← ok_or (dirs !! destination) "No such file or directory";
    node' ← ok_or (insert_file (split slash rel) text node) "Not a directory";
    Ok (<[destination := node']> dirs) in
  _ ← write_dirs (failed ("create package file '" +:+ rel +:+ "'")) (put EmptyString);
  write_dirs (failed ("copy package file '" +:+ rel +:+ "'")) (put bytes).

Fixpoint copy_files (destination : string) (paths : list string) : st Disk string unit :=
  match paths with
  | [] => mret tt
  | rel :: paths' => _ ← copy_regular_file destination rel; copy_files destination paths'
  end.

(** Run [m]; if it does not succeed, remove [dir] and report the error of [m]. *)
Definition or_remove {A} (dir : string) (m : st Disk string A) : st Disk string A :=
  result ← st_catch m;
  match result with
  | Ok a => mret a
  | Err error => _ ← ignoring (remove_tree dir); st_fail error
  | Panic msg => st_lift (Panic msg)
  end.

(** ** Staging *)

Definition draw_staged_id : st Disk string string := fun d =>
  (Ok (new_v4 (dk_uuids d)), {| dk_clock := dk_clock d; dk_dirs := dk_dirs d; dk_uuids := S (dk_uuids d) |}).

Definition join_dir (root name : string) : string := root +:+ "/" +:+ name.

(** [staged_dir]. *)
Definition staged_dir (staging_root staged_id : string) : outcome string string :=
  if parse_str_ok staged_id then Ok (join_dir staging_root staged_id) else Err "invalid staged package identity".

(** The closure of [stage_and_inspect_with_trust]. *)
Definition fill_and_inspect (dir staged_id : string) (document : PackageDocument) (declared : gset string)
    (signature : option PackageSignatureDocument) (trust : TrustStoreDocument) : st Disk string PackageInspection :=
  _ ← copy_files dir (btree_elements declared);
  tree ← tree_of dir;
  _ ← st_lift (validate_source_tree tree declared);
  _ ← st_lift (verify_integrity tree (pk_integrity document));
  digest ← st_lift (directory_digest tree);
  _ ← write_dirs id (fun dirs => Ok dirs);
  st_lift (inspect_document tree staged_id digest document signature trust).

Definition stage_and_inspect_with_trust (staging_root : string) (trust : TrustStoreDocument) :
    st Disk string PackageInspection :=
  root ← look;
  document ← st_lift (read_document root);
  _ ← st_lift (match structural_error document with Some error => Err error | None => Ok tt end);
  root ← look;
  signature ← st_lift (read_signature_document root);
  declared ← st_lift (declared_paths document);
  root ← look;
  _ ← st_lift (validate_source_tree root declared);
  _ ← write_dirs (failed "create package staging root") (fun dirs => Ok dirs);
  staged_id ← draw_staged_id;
  let dir := join_dir staging_root staged_id in
  _ ← create_dir "create package staging directory" dir;
  or_remove dir (fill_and_inspect dir staged_id document declared signature trust).

(** ** Installing what was approved *)

(** [copy_verified_package]; its test hook does nothing in the program. *)
Definition copy_verified_package (destination expected_digest : string) : st Disk string unit :=
  root ← look;
  document ← st_lift (read_document root);
  declared ← st_lift (declared_paths document);
  root ← look;
  _ ← st_lift (validate_source_tree root declared);
  root ← look;
  digest ← st_lift (directory_digest root);
  _ ← st_lift (reject (negb (bool_decide (digest = expected_digest)))
                 "staged package digest no longer matches the approved digest");
  _ ← create_dir "create install directory" destination;
  or_remove destination
    (_ ← copy_files destination (btree_elements declared);
     tree ← tree_of destination;
     actual ← st_lift (directory_digest tree);
     st_lift (reject (negb (bool_decide (actual = expected_digest))) "post-copy package verification failed")).
End staging.

(** ** What staging and copying guarantee

    Whatever happens to the source meanwhile, a staged package consists of the declared
    files with the pinned contents, and the bytes that are installed are the bytes whose
    digest was approved. *)

(** ** Trees *)

Lemma entry_of_put_eq name node entries : entry_of name (put_entry name node entries) = Some node.
Proof.
  induction entries as [|e entries IH]; unfold entry_of, has_name in *; simpl; [by rewrite bool_decide_eq_true_2|].
  unfold has_name. case_bool_decide as He; simpl; [by rewrite bool_decide_eq_true_2|]. by rewrite bool_decide_eq_false_2.
Qed.

Lemma entry_of_put_ne name name' node entries :
  name <> name' -> entry_of name (put_entry name' node entries) = entry_of name entries.
Proof.
  intros Hne. induction entries as [|e entries IH]; unfold entry_of, has_name in *; simpl.
  { by rewrite bool_decide_eq_false_2. }
  unfold has_name. repeat (case_bool_decide; simpl); try congruence; done.
Qed.

Lemma lookup_file_dir name parts entries :
  lookup_file (name :: parts) (NDir entries) = entry_of name entries ≫= lookup_file parts.
Proof. done. Qed.

Lemma lookup_file_new parts : lookup_file parts (NDir []) = None.
Proof. by destruct parts. Qed.

(** Writing a file leaves every other file alone. *)
Lemma insert_file_lookup parts bytes node node' :
  insert_file parts bytes node = Some node' ->
  lookup_file parts node' = Some bytes /\ ∀ q, q <> parts -> lookup_file q node' = lookup_file q node.
Proof.
  revert node node'. induction parts as [|name parts IH]; intros node node' Hi; [done|].
  destruct node as [|entries| |]; try (by destruct parts).
  assert ((parts = [] /\ node' = NDir (put_entry name (NFile bytes) entries) /\
           (∀ q, entry_of name entries ≫= lookup_file q = if decide (q = []) then entry_of name entries ≫= lookup_file [] else None)) \/
          (∃ child, insert_file parts bytes (default (NDir []) (entry_of name entries)) = Some child /\
             node' = NDir (put_entry name child entries))) as [(-> & -> & Hold)|(child & Hc & ->)].
  { destruct parts as [|part parts].
    - left. simpl in Hi. destruct (entry_of name entries) as [[b|es| |]|] eqn:E; simplify_eq; split_and!; try done;
        intros [|p q]; simpl; by rewrite ?decide_True, ?decide_False by done.
    - right. change (insert_file (name :: part :: parts) bytes (NDir entries)) with
        (child ← insert_file (part :: parts) bytes (default (NDir []) (entry_of name entries));
         Some (NDir (put_entry name child entries))) in Hi.
      apply bind_Some in Hi as (child & Hc & [= <-]). eauto. }
  - split; [by rewrite lookup_file_dir, entry_of_put_eq|]. intros [|name' q] Hq; [done|].
    rewrite !lookup_file_dir. destruct (decide (name' = name)) as [->|Hne]; [|by rewrite entry_of_put_ne].
    rewrite entry_of_put_eq, Hold, decide_False by congruence. simpl. destruct q; [done|]. done.
  - destruct (IH _ _ Hc) as [Heq Hoth]. split; [by rewrite lookup_file_dir, entry_of_put_eq|].
    intros [|name' q] Hq; [done|]. rewrite !lookup_file_dir.
    destruct (decide (name' = name)) as [->|Hne]; [|by rewrite entry_of_put_ne].
    rewrite entry_of_put_eq. simpl. rewrite Hoth by congruence.
    destruct (entry_of name entries) as [old|]; [done|]. apply lookup_file_new.
Qed.

(** ** Calls that stay inside one directory *)

Section staging.
Context `{Libraries, PackageFormat, Semver, Signatures, Uuids}.
Context (medium : Medium).

(** [m] changes no directory but [dir]. *)
Abbreviation confined dir m := (frames (fun d => delete dir (dk_dirs d)) m).
(** [m] changes no directory. *)
Abbreviation reads_only m := (frames dk_dirs m).

Lemma reads_only_confined {A} dir (m : st Disk string A) : reads_only m -> confined dir m.
Proof. intros Hm d. by rewrite Hm. Qed.

Lemma look_reads : reads_only (look medium).
Proof. done. Qed.

Lemma tree_of_reads dir : reads_only (tree_of dir).
Proof. done. Qed.

Lemma draw_reads : reads_only draw_staged_id.
Proof. done. Qed.

Lemma write_dirs_cases wrap f d r d' :
  write_dirs medium wrap f d = (r, d') ->
  (dk_dirs d' = dk_dirs d /\ r <> Ok tt) \/ (r = Ok tt /\ f (dk_dirs d) = Ok (dk_dirs d')).
Proof.
  unfold write_dirs. destruct (me_fault _ _); [naive_solver|].
  destruct (f (dk_dirs d)); intros [= <- <-]; simpl; naive_solver.
Qed.

Lemma write_same_reads wrap : reads_only (write_dirs medium wrap (fun dirs => Ok dirs)).
Proof. intros d. unfold write_dirs. by destruct (me_fault _ _). Qed.

Lemma write_confined dir wrap f :
  (∀ dirs dirs', f dirs = Ok dirs' -> delete dir dirs' = delete dir dirs) -> confined dir (write_dirs medium wrap f).
Proof.
  intros Hf d. destruct (write_dirs _ _ _ d) as [r d'] eqn:E.
  apply write_dirs_cases in E as [[E _]|[_ E]]; simpl; [by rewrite E|by apply Hf].
Qed.

Lemma create_dir_confined label dir : confined dir (create_dir medium label dir).
Proof.
  apply write_confined. intros dirs dirs'. case_bool_decide; [done|]. intros [= <-]. apply delete_insert_eq.
Qed.

Lemma remove_tree_confined dir : confined dir (remove_tree medium dir).
Proof. apply write_confined. intros dirs dirs' [= <-]. by rewrite delete_delete_eq. Qed.

Lemma copy_regular_file_confined dir rel : confined dir (copy_regular_file medium dir rel).
Proof.
  unfold copy_regular_file. apply frames_bind; [by apply reads_only_confined|]. intros root.
  apply frames_bind; [apply frames_lift|]. intros bytes.
  assert (∀ wrap text, confined dir (write_dirs medium wrap (fun dirs =>
    node ← ok_or (dirs !! dir) "No such file or directory";
    node' ← ok_or (insert_file (split slash rel) text node) "Not a directory";
    Ok (<[dir := node']> dirs)))) as Hput.
  { intros wrap text. apply write_confined. intros dirs dirs' Hrun. inv_ok Hrun. simplify_eq. apply delete_insert_eq. }
  apply frames_bind; [apply Hput|intros _; apply Hput].
Qed.

Lemma copy_files_confined dir paths : confined dir (copy_files medium dir paths).
Proof.
  induction paths as [|rel paths IH]; simpl; [apply frames_ret|].
  apply frames_bind; [apply copy_regular_file_confined|done].
Qed.

Lemma ignoring_frames {B} (f : Disk -> B) m : frames f m -> frames f (ignoring m).
Proof. intros Hm d. specialize (Hm d). unfold ignoring. by destruct (m d) as [[]]. Qed.

(** A call wrapped in [or_remove] either succeeds, or reports an error and leaves nothing of
    [dir] behind, unless the removal itself failed. *)
Lemma or_remove_cases {A} dir (m : st Disk string A) d r d' :
  confined dir m -> dk_dirs d !! dir = Some (NDir []) -> or_remove medium dir m d = (r, d') ->
  delete dir (dk_dirs d') = delete dir (dk_dirs d) /\
  ((∃ a, r = Ok a /\ m d = (Ok a, d')) \/
   (∃ error, r = Err error /\ (dk_dirs d' = delete dir (dk_dirs d) \/ ∃ n, is_Some (me_fault medium n))) \/
   ∃ msg, r = Panic msg).
Proof.
  intros Hm Hdir. unfold or_remove. specialize (Hm d).
  change ((st_catch m ≫= ?k) d) with (match st_catch m d with
    | (Ok a, s') => k a s' | (Err e, s') => (Err e, s') | (Panic msg, s') => (Panic msg, s') end).
  unfold st_catch. destruct (m d) as [[a|error|msg] d1] eqn:E; simpl in *.
  - intros [= <- <-]. split; [done|]. left. eauto.
  - destruct (remove_tree medium dir d1) as [r2 d2] eqn:Er. pose proof (remove_tree_confined dir d1) as Hc.
    rewrite Er in Hc. simpl in Hc. unfold remove_tree, write_dirs in Er. unfold mbind, st_bind, ignoring.
    destruct (me_fault medium (dk_clock d1)) as [e|] eqn:Ef.
    + unfold remove_tree, write_dirs. rewrite Ef. intros [= <- <-]. simpl. split; [done|]. right. left. eauto 6.
    + unfold remove_tree, write_dirs. rewrite Ef. intros [= <- <-]. simpl. split; [by rewrite delete_delete_eq|].
      right. left. exists error. split; [done|]. by left.
  - intros [= <- <-]. split; [done|]. right. right. eauto.
Qed.

Lemma bind_reads {A B} (m : st Disk string A) (k : A -> st Disk string B) d r d' :
  reads_only m -> (m ≫= k) d = (r, d') ->
  (∃ a d1, m d = (Ok a, d1) /\ dk_dirs d1 = dk_dirs d /\ k a d1 = (r, d')) \/
  (dk_dirs d' = dk_dirs d /\ ∀ b, r <> Ok b).
Proof.
  intros Hm. specialize (Hm d). unfold mbind, st_bind. destruct (m d) as [[a|error|msg] d1]; simpl in Hm.
  - intros Hk. left. eauto.
  - intros [= <- <-]. right. done.
  - intros [= <- <-]. right. done.
Qed.

(** What a call leaves behind: on success its result and one new directory, otherwise
    nothing, unless a write of the host failed. *)
Definition outcome_of {A} (good : A -> string -> Node -> Prop) (d : Disk) (r : outcome string A) (d' : Disk) : Prop :=
  (∃ a dir tree, r = Ok a /\ dk_dirs d !! dir = None /\ dk_dirs d' = <[dir := tree]> (dk_dirs d) /\ good a dir tree) \/
  ((∀ a, r <> Ok a) /\
   (dk_dirs d' = dk_dirs d \/ (∃ n, is_Some (me_fault medium n)) \/ ∃ msg, r = Panic msg)).

Lemma outcome_of_unchanged {A} (good : A -> string -> Node -> Prop) d r d' :
  dk_dirs d' = dk_dirs d -> (∀ a, r <> Ok a) -> outcome_of good d r d'.
Proof. intros Hd Hr. right. split; [done|]. by left. Qed.

(** A new directory, filled by [m] or removed again. *)
Lemma create_and_fill {A} (good : A -> string -> Node -> Prop) label dir (m : st Disk string A) d r d' :
  confined dir m ->
  (∀ d1 a d2, m d1 = (Ok a, d2) -> is_Some (dk_dirs d1 !! dir) ->
     ∃ tree, dk_dirs d2 !! dir = Some tree /\ good a dir tree) ->
  (_ ← create_dir medium label dir; or_remove medium dir m) d = (r, d') -> outcome_of good d r d'.
Proof.
  intros Hconf Hgood. unfold mbind, st_bind.
  destruct (create_dir medium label dir d) as [[[]|error|msg] d1] eqn:Ec.
  - apply write_dirs_cases in Ec as [[_ Hc]|[_ Hc]]; [done|].
    destruct (bool_decide _) eqn:Hnew; [done|]. injection Hc as Hc.
    apply bool_decide_eq_false, eq_None_not_Some in Hnew. intros Hrun.
    apply or_remove_cases in Hrun as [Hdel Hcases]; [|done|by rewrite <- Hc, lookup_insert_eq].
    destruct Hcases as [(a & -> & Hm)|[(error & -> & Hleft)|(msg & ->)]].
    + destruct (Hgood _ _ _ Hm) as (tree & Htree & Hok); [rewrite <- Hc, lookup_insert_eq; eauto|].
      left. exists a, dir, tree. split_and!; try done.
      rewrite <- (insert_delete_id (dk_dirs d') dir tree), Hdel, <- Hc by done.
      by rewrite delete_insert_eq, insert_delete_eq.
    + right. split; [done|]. destruct Hleft as [Hleft|Hf]; [left|by right; left].
      rewrite Hleft, <- Hc, delete_insert_eq. by apply delete_id.
    + right. split; [done|]. right. right. eauto.
  - intros [= <- <-]. apply outcome_of_unchanged; [|done].
    by apply write_dirs_cases in Ec as [[Ec _]|[? _]].
  - intros [= <- <-]. apply outcome_of_unchanged; [|done].
    by apply write_dirs_cases in Ec as [[Ec _]|[? _]].
Qed.

(** *** Staging *)

(** A staged package: exactly the declared files, with the pinned contents, and inspected. *)
Record staged_as (staging_root : string) (trust : TrustStoreDocument) (document : PackageDocument)
    (signature : option PackageSignatureDocument) (inspection : PackageInspection) (dir : string) (tree : Node) : Prop := {
  sa_dir : dir = join_dir staging_root (pi_staged_id inspection);
  sa_structure : structural_error document = None;
  sa_declared : ∃ declared, declared_paths document = Ok declared /\ validate_source_tree tree declared = Ok tt;
  sa_intact : assets_intact tree document;
  sa_digest : directory_digest tree = Ok (pi_package_digest inspection);
  sa_inspected : inspect_document tree (pi_staged_id inspection) (pi_package_digest inspection) document signature trust
                 = Ok inspection;
}.

Lemma inspect_document_names root staged_id digest document signature trust inspection :
  inspect_document root staged_id digest document signature trust = Ok inspection ->
  pi_staged_id inspection = staged_id /\ pi_package_digest inspection = digest.
Proof.
  unfold inspect_document. intros Hrun. apply bind_unit_Ok in Hrun as [_ Hrun].
  apply bind_Ok_inv in Hrun as (compatible & _ & Hrun). by apply bind_Ok_inv in Hrun as (version & _ & [= <-]).
Qed.

Lemma fill_and_inspect_confined dir staged_id document declared signature trust :
  confined dir (fill_and_inspect medium dir staged_id document declared signature trust).
Proof.
  unfold fill_and_inspect. apply frames_bind; [apply copy_files_confined|intros _].
  apply frames_bind; [by apply reads_only_confined|intros tree].
  do 3 (apply frames_bind; [apply frames_lift|intros ?]).
  apply frames_bind; [apply reads_only_confined, write_same_reads|intros _]. apply frames_lift.
Qed.

Lemma fill_and_inspect_Ok staging_root staged_id document declared signature trust d inspection d' :
  structural_error document = None -> declared_paths document = Ok declared ->
  fill_and_inspect medium (join_dir staging_root staged_id) staged_id document declared signature trust d
    = (Ok inspection, d') ->
  ∃ tree, dk_dirs d' !! join_dir staging_root staged_id = Some tree /\
    staged_as staging_root trust document signature inspection (join_dir staging_root staged_id) tree.
Proof.
  unfold fill_and_inspect. intros Hs Hd Hrun.
  apply st_bind_Ok_inv in Hrun as ([] & s1 & _ & Hrun).
  apply st_bind_Ok_inv in Hrun as (tree & s2 & Htree & Hrun).
  apply st_bind_Ok_inv in Hrun as ([] & s3 & [Hv <-]%st_lift_inv & Hrun).
  apply st_bind_Ok_inv in Hrun as (ws & s4 & [Hi <-]%st_lift_inv & Hrun).
  apply st_bind_Ok_inv in Hrun as (digest & s5 & [Hdig <-]%st_lift_inv & Hrun).
  apply st_bind_Ok_inv in Hrun as ([] & s6 & Hperm & Hrun).
  apply st_lift_inv in Hrun as [Hinsp <-].
  pose proof (inspect_document_names _ _ _ _ _ _ _ Hinsp) as [Hid Hpd].
  unfold tree_of in Htree. injection Htree as Htree%ok_or_Ok <-.
  exists tree. split.
  - pose proof (write_same_reads id s1) as Hsame. rewrite Hperm in Hsame. simpl in Hsame. by rewrite Hsame.
  - constructor.
    + by rewrite Hid.
    + done.
    + eauto.
    + apply verify_integrity_ok. by rewrite Hi.
    + by rewrite Hpd.
    + by rewrite Hid, Hpd.
Qed.

(** Past a call that changes no directory; if it fails, nothing was left behind. *)
Ltac past_read Hrun a d1 Ha :=
  apply bind_reads in Hrun as [(a & d1 & Ha & ? & Hrun)|[? ?]];
  [|apply outcome_of_unchanged; [congruence|done]|first [apply frames_lift|apply write_same_reads|done]].

Lemma stage_cases staging_root trust d r d' :
  stage_and_inspect_with_trust medium staging_root trust d = (r, d') ->
  outcome_of (fun inspection dir tree =>
    ∃ i j document signature,
      read_document (me_source medium i) = Ok document /\
      read_signature_document (me_source medium j) = Ok signature /\
      staged_as staging_root trust document signature inspection dir tree) d r d'.
Proof.
  unfold stage_and_inspect_with_trust. intros Hrun.
  past_read Hrun root d1 Hl1. injection Hl1 as <- Hl1.
  past_read Hrun document d2 Hdoc. apply st_lift_inv in Hdoc as [Hdoc <-].
  past_read Hrun u d3 Hs. apply st_lift_inv in Hs as [Hs <-].
  past_read Hrun root2 d4 Hl2. injection Hl2 as <- Hl2.
  past_read Hrun signature d5 Hsig. apply st_lift_inv in Hsig as [Hsig <-].
  past_read Hrun declared d6 Hdecl. apply st_lift_inv in Hdecl as [Hdecl <-].
  past_read Hrun root3 d7 Hl3. past_read Hrun u' d8 Hv. apply st_lift_inv in Hv as [_ <-].
  past_read Hrun u'' d9 Hroot. past_read Hrun staged_id d10 Hid.
  assert (structural_error document = None) as Hnone by (by destruct (structural_error document)).
  assert (dk_dirs d10 = dk_dirs d) as Hdirs by congruence.
  unfold outcome_of. rewrite <- Hdirs.
  eapply create_and_fill; [apply fill_and_inspect_confined| |exact Hrun].
  intros e inspection e' Hfill _. apply fill_and_inspect_Ok in Hfill as (tree & Ht & Hst); [|done|done].
  exists tree. split; [done|]. by exists (dk_clock d), (dk_clock d1), document, signature.
Qed.

(** Staging pins a package. Whatever the owner of the source directory does to it while it
    is copied, when staging succeeds there is one new directory of the host, which holds
    exactly the files the document declares, with the contents whose digests the document
    pins; the document passed the structural check, and the digest shown to the user is that
    of the staged bytes. When staging does not succeed nothing is left behind, unless a write
    of the host failed or a library call panicked. *)
Theorem staging_pins_package staging_root trust d r d' :
  stage_and_inspect_with_trust medium staging_root trust d = (r, d') ->
  outcome_of (fun inspection dir tree =>
    ∃ i j document signature,
      read_document (me_source medium i) = Ok document /\
      read_signature_document (me_source medium j) = Ok signature /\
      staged_as staging_root trust document signature inspection dir tree) d r d'.
Proof. apply stage_cases. Qed.

Lemma staging_outcome staging_root trust d inspection d' :
  stage_and_inspect_with_trust medium staging_root trust d = (Ok inspection, d') ->
  ∃ staged, dk_dirs d' !! join_dir staging_root (pi_staged_id inspection) = Some staged /\
    directory_digest staged = Ok (pi_package_digest inspection).
Proof.
  intros Hrun%stage_cases. destruct Hrun as [(a & dir & tree & [= <-] & _ & Hd & Hgood)|[Hr _]]; [|by destruct (Hr inspection)].
  destruct Hgood as (i & j & document & signature & _ & _ & Hst). exists tree.
  rewrite <- (sa_dir _ _ _ _ _ _ _ Hst), Hd, lookup_insert_eq. split; [done|]. apply Hst.
Qed.

(** *** Copying out of staging *)

Lemma copy_verified_package_cases destination expected d r d' :
  copy_verified_package medium destination expected d = (r, d') ->
  outcome_of (fun _ dir tree => dir = destination /\ directory_digest tree = Ok expected) d r d'.
Proof.
  unfold copy_verified_package. intros Hrun.
  past_read Hrun root d1 Hl1. past_read Hrun document d2 Hdoc. apply st_lift_inv in Hdoc as [_ <-].
  past_read Hrun declared d3 Hdecl. apply st_lift_inv in Hdecl as [_ <-].
  past_read Hrun root2 d4 Hl2. past_read Hrun u d5 Hv. apply st_lift_inv in Hv as [_ <-].
  past_read Hrun root3 d6 Hl3. past_read Hrun digest d7 Hdig. apply st_lift_inv in Hdig as [_ <-].
  past_read Hrun u' d8 Hsame. apply st_lift_inv in Hsame as [_ <-].
  assert (dk_dirs d6 = dk_dirs d) as Hdirs by congruence. unfold outcome_of. rewrite <- Hdirs.
  eapply create_and_fill; [| |exact Hrun].
  - apply frames_bind; [apply copy_files_confined|intros _].
    apply frames_bind; [by apply reads_only_confined|intros tree].
    apply frames_bind; [apply frames_lift|intros actual]. apply frames_lift.
  - intros e [] e' Hfill _.
    apply st_bind_Ok_inv in Hfill as ([] & s1 & _ & Hfill).
    apply st_bind_Ok_inv in Hfill as (tree & s2 & Htree & Hfill).
    apply st_bind_Ok_inv in Hfill as (actual & s3 & [Hact <-]%st_lift_inv & Hfill).
    apply st_lift_inv in Hfill as [Hsame%reject_not_Ok <-].
    unfold tree_of in Htree. injection Htree as Htree%ok_or_Ok <-. exists tree. by subst.
Qed.
End staging.

(** ** What was approved is what is installed *)

Section approval.
Context `{Libraries, PackageFormat, Semver, Signatures, Uuids}.

(** The declared files of a package directory, with their contents. *)
Definition package_files (root : Node) (files : list (string * string)) : Prop :=
  ∃ document declared, read_document root = Ok document /\ declared_paths document = Ok declared /\
    read_files root (btree_elements declared) = Ok files.

Lemma directory_digest_Ok root digest :
  directory_digest root = Ok digest ->
  ∃ files, package_files root files /\ digest = "sha256-" +:+ sha256_hex (digest_input files).
Proof.
  unfold directory_digest. intros Hrun. apply bind_Ok_inv in Hrun as (document & Hdoc & Hrun).
  apply package_digest_Ok in Hrun as (declared & files & Hd & _ & Hf & ->).
  exists files. split; [|done]. by exists document, declared.
Qed.

Lemma package_files_lookup root files rel :
  package_files root files -> rel ∈ files.*1 ->
  ∃ bytes, (rel, bytes) ∈ files /\ lookup_file (split slash rel) root = Some bytes.
Proof.
  intros (document & declared & _ & _ & Hf) ([rel' bytes] & -> & Hin)%list_elem_of_fmap.
  apply read_files_paths in Hf as [_ Hlook]. exists bytes. split; [done|by apply Hlook].
Qed.

Lemma declare_assets_grows assets paths folded out :
  declare_assets paths folded assets = Ok out -> paths ⊆ out.
Proof.
  revert paths folded. induction assets as [|path assets IH]; intros paths folded Hrun; simpl in Hrun; [by simplify_eq|].
  inv_ok Hrun. destruct (_ || _); [done|]. destruct (bool_decide _); [done|]. apply IH in Hrun. set_solver.
Qed.

Lemma app_json_declared document declared : declared_paths document = Ok declared -> APP_JSON ∈ declared.
Proof.
  unfold declared_paths. intros Hrun. inv_ok Hrun. simplify_eq.
  match goal with G : declare_assets _ _ _ = Ok _ |- _ => apply declare_assets_grows in G end. set_solver.
Qed.

(** SHA-256 does not collide on the two packages, whose files are of possible sizes. *)
Definition digests_apart (root1 root2 : Node) : Prop :=
  ∀ files1 files2, package_files root1 files1 -> package_files root2 files2 ->
    Forall (fun f => fits_u64 f.1 /\ fits_u64 f.2) (files1 ++ files2) /\
    (sha256_hex (digest_input files1) = sha256_hex (digest_input files2) -> digest_input files1 = digest_input files2).

(** Two packages with the same files. *)
Definition same_package (root1 root2 : Node) : Prop :=
  read_document root1 = read_document root2 /\
  ∃ files, package_files root1 files /\ package_files root2 files.

Lemma same_digest_same_package root1 root2 digest :
  directory_digest root1 = Ok digest -> directory_digest root2 = Ok digest -> digests_apart root1 root2 ->
  same_package root1 root2.
Proof.
  intros (files1 & Hp1 & ->)%directory_digest_Ok (files2 & Hp2 & Hd)%directory_digest_Ok Hapart.
  destruct (Hapart _ _ Hp1 Hp2) as [[Hf1 Hf2]%Forall_app Hsha].
  assert (files1 = files2) as <-.
  { apply digest_input_inj; [done|done|]. apply Hsha. by apply (inj (String.append "sha256-")). }
  split; [|eauto]. assert (APP_JSON ∈ files1.*1) as Hin.
  { destruct Hp1 as (document & declared & _ & Hdecl & Hf). apply read_files_paths in Hf as [-> _].
    apply elem_of_btree_elements. by eapply app_json_declared. }
  destruct (package_files_lookup _ _ _ Hp1 Hin) as (b1 & Hb1 & Hl1), (package_files_lookup _ _ _ Hp2 Hin) as (b2 & Hb2 & Hl2).
  assert (NoDup files1.*1) as Hnd.
  { destruct Hp1 as (document & declared & _ & _ & Hf). apply read_files_paths in Hf as [-> _]. unfold btree_elements.
    rewrite merge_sort_Permutation. apply NoDup_elements. }
  assert (b1 = b2) as <-.
  { assert ((APP_JSON, b1) = (APP_JSON, b2)) as E by (by apply (names_unique fst files1)). by injection E. }
  unfold read_document, read_bounded_utf8, read_regular. by rewrite Hl1, Hl2.
Qed.

(** C14: What was approved is what is installed. Let a package be staged, and let a copy out
    of any directory, which may be tampered with at every moment, succeed for the digest that
    the inspection showed. Unless SHA-256 collides, the installed directory holds the declared
    files of the staged one, byte for byte, its [app.json] included; so it too satisfies
    the pins of the inspected document. A copy that does not succeed leaves no directory
    behind, unless a write failed or a library call panicked. *)
Theorem approved_bytes_are_installed staging_root trust medium1 medium2 d d1 d2 inspection destination r d3 :
  stage_and_inspect_with_trust medium1 staging_root trust d = (Ok inspection, d1) ->
  copy_verified_package medium2 destination (pi_package_digest inspection) d2 = (r, d3) ->
  ∃ staged, dk_dirs d1 !! join_dir staging_root (pi_staged_id inspection) = Some staged /\
  ((∃ installed, r = Ok tt /\ dk_dirs d3 = <[destination := installed]> (dk_dirs d2) /\
      (digests_apart staged installed -> same_package staged installed)) \/
   (r <> Ok tt /\ (dk_dirs d3 = dk_dirs d2 \/ (∃ n, is_Some (me_fault medium2 n)) \/ ∃ msg, r = Panic msg))).
Proof.
  intros Hstage Hcopy. apply copy_verified_package_cases in Hcopy.
  apply staging_outcome in Hstage as (staged & Hstaged & Hdigest). exists staged. split; [done|].
  destruct Hcopy as [(u & dir & installed & -> & _ & Hdirs & -> & Hinst)|[Hr Hleft]].
  - left. destruct u. exists installed. split_and!; [done..|]. intros Hapart.
    by eapply same_digest_same_package.
  - right. split; [by apply Hr|done].
Qed.
End approval.
