(* ===== verification/AppInstall.v ===== *)
(** * Inspecting and installing packages

    [host/src-tauri/src/app_manager.rs]: [inspect] and [install_record], over the staging
    of [PackageStaging] and the records of [AppManager]; and what
    [crates/mcp-adapter/src/stdio.rs] says the platform can sandbox. *)

From S2P Require Import PackageChecks PackageInspect PackageStaging Prelude RustStd RustText Json Types Errors Grants Manifest AtomicJson Platform Registry Packages PublisherTrust SurfaceUi AppData UpdateJournal AppManager.

Record StagedInspection := { si_inspection : PackageInspection; si_signature : option PackageSignatureDocument }.

(** The manager with its staging area and its publisher trust store. *)
Record Installer := {
  in_disk : Disk;
  in_manager : AppManager;
  in_staged_inspections : gmap string StagedInspection;
  in_trust : TrustStoreDocument;
}.

Definition set_disk (disk : Disk) (h : Installer) : Installer :=
  {| in_disk := disk; in_manager := in_manager h; in_staged_inspections := in_staged_inspections h; in_trust := in_trust h |}.
Definition set_manager (manager : AppManager) (h : Installer) : Installer :=
  {| in_disk := in_disk h; in_manager := manager; in_staged_inspections := in_staged_inspections h; in_trust := in_trust h |}.
Definition set_staged (staged : gmap string StagedInspection) (h : Installer) : Installer :=
  {| in_disk := in_disk h; in_manager := in_manager h; in_staged_inspections := staged; in_trust := in_trust h |}.

Definition on_disk {E A} (m : st Disk E A) : st Installer E A := fun h =>
  let '(r, disk) := m (in_disk h) in (r, set_disk disk h).

(** ** Policy *)

Inductive SandboxFeatureSupport := Supported | Unsupported (reason : string).

Definition is_supported (feature : SandboxFeatureSupport) : bool :=
  match feature with Supported => true | Unsupported _ => false end.

Definition feature_reason (feature : SandboxFeatureSupport) : option string :=
  match feature with Supported => None | Unsupported reason => Some reason end.

(** The part of the probe that bears on sandboxing; process clean-up is left out. *)
Record NativeBackendSandboxSupport := { sb_filesystem : SandboxFeatureSupport; sb_network : SandboxFeatureSupport }.

Definition native_filesystem_sandbox_support (windows : bool) : SandboxFeatureSupport :=
  Unsupported (if windows then "Windows AppContainer backend launch is not yet proven on this build"
               else "no OS filesystem sandbox API is wired for read-only payload plus writable app data").

Definition native_network_sandbox_support (windows : bool) : SandboxFeatureSupport :=
  Unsupported (if windows then "Windows AppContainer backend launch is not yet proven on this build"
               else "no deny-by-default network sandbox API is wired for native backends").

Definition native_backend_sandbox_support (windows : bool) : NativeBackendSandboxSupport :=
  {| sb_filesystem := native_filesystem_sandbox_support windows; sb_network := native_network_sandbox_support windows |}.

Definition supports_sandboxed_execution (support : NativeBackendSandboxSupport) : bool :=
  is_supported (sb_filesystem support) && is_supported (sb_network support).

Definition backend_policy_error (windows allow_unsafe_native_backends : bool) (backend : Backend) : option string :=
  match authority_mode backend with
  | None => None
  | Some Sandboxed =>
      let support := native_backend_sandbox_support windows in
      if supports_sandboxed_execution support then None
      else Some ("sandboxed native backend launch is unsupported on this platform: filesystem="
                 +:+ default "unsupported" (feature_reason (sb_filesystem support)) +:+ ", network="
                 +:+ default "unsupported" (feature_reason (sb_network support)))
  | Some Unsandboxed =>
      if allow_unsafe_native_backends then None
      else Some ("unsandboxed native backends require --allow-unsafe-native-backends, the user-level "
                 +:+ "KESTRAL_ALLOW_UNSAFE_NATIVE_BACKENDS=true environment variable, or a debug build")
  end.

(** The directory below [source] that holds the package. *)
Definition resolve_package_directory (source : Node) : outcome string (list string) :=
  if bool_decide (is_Some (lookup_file [APP_JSON] source)) then Ok []
  else if bool_decide (is_Some (lookup_file ["dist"; APP_JSON] source)) then Ok ["dist"]
  else Err "no app package found (expected app.json or dist/app.json)".

(** The subdirectory of a tree; a missing one has no files. *)
Fixpoint subtree (parts : list string) (node : Node) : Node :=
  match parts, node with
  | [], _ => node
  | part :: parts', NDir entries => subtree parts' (default (NDir []) (entry_of part entries))
  | _, _ => NDir []
  end.

(** ** The signature gate of an installation *)

Section gate.
Context `{Signatures}.

(** The verdict recorded with the revision, and the key. *)
Definition signature_gate (trust : TrustStoreDocument) (inspection : PackageInspection)
    (signature : option PackageSignatureDocument) (approved_digest app_id : string) :
    outcome string (string * option string) :=
  match signature with
  | Some signature =>
      state ← verify_signature trust approved_digest signature app_id;
      match state with
      | ValidUnknownKey _ | SigTrusted _ _ => Ok (SignatureState_label state, SignatureState_key_id state)
      | Unsigned => Ok ("unsigned", None)
      | SigInvalid reason => Err ("invalid package signature: " +:+ reason)
      | SigRevoked key_id _ => Err ("package signature key '" +:+ key_id +:+ "' is revoked for this package")
      end
  | None => Ok (SignatureState_label (pi_signature inspection), SignatureState_key_id (pi_signature inspection))
  end.
End gate.

Section installer.
Context `{Libraries, PackageFormat, Semver, Signatures, Uuids, ManagerCodec}.
Context (windows allow_unsafe_native_backends : bool).
Context (staging_root apps_root : string).

(** ** Inspection *)

Definition blocked (error : string) (i : PackageInspection) : PackageInspection :=
  {| pi_staged_id := pi_staged_id i; pi_package_digest := pi_package_digest i; pi_id := pi_id i;
     pi_version := pi_version i; pi_display_name := pi_display_name i; pi_description := pi_description i;
     pi_publisher := pi_publisher i; pi_license := pi_license i; pi_signature := pi_signature i;
     pi_signature_public_key := pi_signature_public_key i; pi_backend_kind := pi_backend_kind i;
     pi_backend_detail := pi_backend_detail i; pi_backend_authority_mode := pi_backend_authority_mode i;
     pi_data := pi_data i; pi_min_host_version := pi_min_host_version i; pi_host_version := pi_host_version i;
     pi_host_compatible := pi_host_compatible i; pi_capabilities := pi_capabilities i;
     pi_grant_requests := pi_grant_requests i; pi_extension_contributions := pi_extension_contributions i;
     pi_surfaces := pi_surfaces i; pi_config := pi_config i; pi_secrets := pi_secrets i;
     pi_artifact_types := pi_artifact_types i; pi_event_subscriptions := pi_event_subscriptions i;
     pi_integrity_ok := pi_integrity_ok i; pi_integrity_error := pi_integrity_error i; pi_warnings := pi_warnings i;
     pi_installable := false; pi_blocking_error := or_else (pi_blocking_error i) (Some error) |}.

Definition inspect (medium : Medium) : st Installer string PackageInspection :=
  source ← on_disk (look medium);
  parts ← st_lift (resolve_package_directory source);
  let package := {| me_source := fun n => subtree parts (me_source medium n); me_fault := me_fault medium |} in
  root ← on_disk (look package);
  signature ← st_lift (read_signature_document root);
  trust ← st_get in_trust;
  inspection ← on_disk (stage_and_inspect_with_trust package staging_root trust);
  root ← on_disk (look package);
  document ← st_lift (read_document root);
  let inspection :=
    match backend_policy_error windows allow_unsafe_native_backends (pk_backend document) with
    | Some error => blocked error inspection
    | None => inspection
    end in
  _ ← st_modify (fun h => set_staged (<[pi_staged_id inspection :=
        {| si_inspection := inspection; si_signature := signature |}]> (in_staged_inspections h)) h);
  mret inspection.

(** ** Installation *)

(** [self.staged_inspections.remove(staged_id)]. *)
Definition take_staged (staged_id : string) : st Installer string StagedInspection := fun h =>
  match in_staged_inspections h !! staged_id with
  | Some staged => (Ok staged, set_staged (delete staged_id (in_staged_inspections h)) h)
  | None => (Err "staged inspection metadata is missing; inspect the package again before installing", h)
  end.

Definition draw_id : st Installer string string := on_disk draw_staged_id.

Definition payload_path (id revision_id : string) : string := apps_root +:+ "/" +:+ id +:+ "/revisions/" +:+ revision_id.

Definition new_revision (document : PackageDocument) (revision_id installed_at payload_dir approved_digest : string)
    (verdict : string * option string) : AppRevision :=
  {| rv_revision_id := revision_id; rv_version := pk_version document; rv_display_name := pk_display_name document;
     rv_description := pk_description document; rv_backend_kind := kind_label (pk_backend document);
     rv_publisher := pb_name <$> pk_publisher document; rv_signature_verdict := verdict.1;
     rv_signature_key_id := verdict.2; rv_min_host_version := pk_min_host_version document;
     rv_installed_at := installed_at; rv_payload_dir := payload_dir; rv_package_digest := approved_digest |}.

Definition new_record (id : string) (revision : AppRevision) : InstallRecord :=
  {| ir_id := id; ir_enabled := true; ir_uninstalling := false; ir_lifecycle_generation := 0;
     ir_purge_secrets := false; ir_purge_data := false; ir_purge_secret_names := [];
     ir_active_revision_id := rv_revision_id revision; ir_revisions := [revision] |}.

(** [fs::rename] of a directory to a path that does not exist. *)
Definition rename_dir (medium : Medium) (from to : string) : st Disk string unit :=
  write_dirs medium (failed "activate verified payload") (fun dirs =>
    tree ← ok_or (dirs !! from) "No such file or directory";
    Ok (<[to := tree]> (delete from dirs))).

(** Add the record and persist it; a write that was not committed takes it back. *)
Definition persist_new_record (medium : Medium) (id payload_dir : string) (record : InstallRecord) :
    st Installer string unit := fun h =>
  let h1 := set_manager (set_records (<[id := record]> (am_records (in_manager h))) (in_manager h)) h in
  match persist_records (am_records (in_manager h1)) (in_manager h1) with
  | (Ok _, m) => (Ok tt, set_manager m h1)
  | (Err error, m) =>
      let h2 := set_manager m h1 in
      if is_indeterminate error then (Err (into_message error), h2)
      else
        let '(_, h3) := on_disk (ignoring (remove_tree medium payload_dir)) h2 in
        (Err (into_message error), set_manager (set_records (delete id (am_records (in_manager h3))) (in_manager h3)) h3)
  | (Panic msg, m) => (Panic msg, set_manager m h1)
  end.

(** What [install_record] checks before it writes anything. *)
Definition approve (staged : StagedInspection) (approved_digest : string) (root : Node) (trust : TrustStoreDocument) :
    outcome string (PackageDocument * (string * option string)) :=
  let inspection := si_inspection staged in
  _ ← reject (negb (bool_decide (pi_package_digest inspection = approved_digest)))
        "staged package digest does not match the approved digest";
  document ← read_document root;
  _ ← match structural_error document with Some error => Err error | None => Ok tt end;
  _ ← reject (negb (pi_host_compatible inspection))
        ("requires host " +:+ pk_min_host_version document +:+ " or newer (this host is " +:+ HOST_VERSION +:+ ")");
  verdict ← signature_gate trust inspection (si_signature staged) approved_digest (pk_id document);
  Ok (document, verdict).

(** The payload of a new revision: its identifier and its directory. *)
Definition place_payload (medium : Medium) (id approved_digest : string) : st Installer string (string * string) :=
  _ ← on_disk (write_dirs medium (failed "create app payload root") (fun dirs => Ok dirs));
  _ ← on_disk (write_dirs medium (failed "create app revision root") (fun dirs => Ok dirs));
  revision_id ← draw_id;
  let payload_dir := payload_path id revision_id in
  suffix ← draw_id;
  let temporary_dir := payload_path id (".installing-" +:+ suffix) in
  dirs ← st_get (fun h => dk_dirs (in_disk h));
  _ ← st_lift (reject (bool_decide (is_Some (dirs !! payload_dir)))
                 ("verified payload destination already exists: " +:+ payload_dir));
  _ ← on_disk (copy_verified_package medium temporary_dir approved_digest);
  _ ← on_disk (rename_dir medium temporary_dir payload_dir);
  tree ← on_disk (tree_of payload_dir);
  digest ← st_lift (directory_digest tree);
  _ ← (if bool_decide (digest = approved_digest) then mret tt
       else _ ← on_disk (ignoring (remove_tree medium payload_dir));
            st_fail "post-install package verification failed");
  mret (revision_id, payload_dir).

(** The staged directory is the host's own: [medium] only says which writes fail. *)
Definition install_record (faults : nat -> option string) (staged_id approved_digest installed_at : string) :
    st Installer string InstallRecord :=
  dir ← st_lift (staged_dir staging_root staged_id);
  staged ← take_staged staged_id;
  root ← st_get (fun h => default (NDir []) (dk_dirs (in_disk h) !! dir));
  trust ← st_get in_trust;
  approval ← st_lift (approve staged approved_digest root trust);
  let '(document, verdict) := approval in
  let id := pk_id document in
  let medium := {| me_source := fun _ => root; me_fault := faults |} in
  records ← st_get (fun h => am_records (in_manager h));
  _ ← st_lift (reject (bool_decide (is_Some (records !! id))) ("app '" +:+ id +:+ "' is already installed"));
  placed ← place_payload medium id approved_digest;
  let '(revision_id, payload_dir) := placed in
  let record := new_record id (new_revision document revision_id installed_at payload_dir approved_digest verdict) in
  _ ← persist_new_record medium id payload_dir record;
  _ ← on_disk (ignoring (remove_tree medium dir));
  mret record.
End installer.

(** ** What an installation has checked

    A successful [install_record] installed the staged bytes of the approved digest, under
    the identity of their own document, with a signature that verifies at that moment. *)

Section installer.
Context `{Libraries, PackageFormat, Semver, Signatures, Uuids, ManagerCodec}.
Context (staging_root apps_root : string).

Lemma on_disk_inv {E A} (m : st Disk E A) h r h' :
  on_disk m h = (r, h') -> ∃ disk, m (in_disk h) = (r, disk) /\ h' = set_disk disk h.
Proof. unfold on_disk. destruct (m (in_disk h)) as [r' disk]. intros [= <- <-]. eauto. Qed.

Lemma tree_of_Ok dir d tree d' : tree_of dir d = (Ok tree, d') -> dk_dirs d !! dir = Some tree /\ d' = d.
Proof. unfold tree_of. by intros [= ?%ok_or_Ok <-]. Qed.

Lemma rename_dir_Ok medium from to d d' :
  rename_dir medium from to d = (Ok tt, d') ->
  ∃ tree, dk_dirs d !! from = Some tree /\ dk_dirs d' = <[to := tree]> (delete from (dk_dirs d)).
Proof.
  intros [[_ Hr]|[_ Hf]]%write_dirs_cases; [done|]. inv_ok Hf. simplify_eq.
  match goal with G : ok_or _ _ = Ok ?tree |- _ => apply ok_or_Ok in G; exists tree; done end.
Qed.

(** Removing a directory does not touch the others. *)
Lemma remove_tree_other medium dir other d r d' :
  ignoring (remove_tree medium dir) d = (r, d') -> other <> dir -> dk_dirs d' !! other = dk_dirs d !! other.
Proof.
  intros Hrun Hne. pose proof (ignoring_frames _ _ (remove_tree_confined medium dir) d) as Hc.
  rewrite Hrun in Hc. simpl in Hc. by rewrite <- (lookup_delete_ne (dk_dirs d') dir other), Hc, lookup_delete_ne.
Qed.

Lemma persist_records_records records m r m' :
  persist_records records m = (r, m') -> am_records m' = am_records m.
Proof.
  unfold persist_records. destruct (am_store_path m); [|by intros [= <- <-]].
  destruct (persist_json_document _ _ _ _ _ _) as [r0 fs]. by intros [= <- <-].
Qed.

Lemma persist_new_record_Ok medium id payload_dir record h h' :
  persist_new_record medium id payload_dir record h = (Ok tt, h') ->
  in_disk h' = in_disk h /\ in_staged_inspections h' = in_staged_inspections h /\
  am_records (in_manager h') = <[id := record]> (am_records (in_manager h)).
Proof.
  unfold persist_new_record. destruct (persist_records _ _) as [[|error|msg] m] eqn:E.
  - intros [= <-]. simpl. split_and!; try done. apply persist_records_records in E. by rewrite E.
  - destruct (is_indeterminate error); [done|]. by destruct (on_disk _ _).
  - done.
Qed.

(** The verdict an installation may record. *)
Definition gate_passed (trust : TrustStoreDocument) (staged : StagedInspection) (digest app_id : string) : Prop :=
  ∀ signature, si_signature staged = Some signature ->
    ∃ state, verify_signature trust digest signature app_id = Ok state /\ blocking_error state = None.

Lemma signature_gate_Ok trust staged digest app_id verdict :
  signature_gate trust (si_inspection staged) (si_signature staged) digest app_id = Ok verdict ->
  gate_passed trust staged digest app_id.
Proof.
  unfold signature_gate. intros Hrun signature Hsig. rewrite Hsig in Hrun. apply bind_Ok_inv in Hrun as (state & Hv & Hrun).
  exists state. split; [done|]. by destruct state.
Qed.

Lemma approve_Ok staged approved_digest root trust document verdict :
  approve staged approved_digest root trust = Ok (document, verdict) ->
  pi_package_digest (si_inspection staged) = approved_digest /\ read_document root = Ok document /\
  structural_error document = None /\ pi_host_compatible (si_inspection staged) = true /\
  gate_passed trust staged approved_digest (pk_id document).
Proof.
  unfold approve. intros Hrun. apply bind_unit_Ok in Hrun as [Hd%reject_not_Ok Hrun].
  apply bind_Ok_inv in Hrun as (document' & Hdoc & Hrun). apply bind_unit_Ok in Hrun as [Hs Hrun].
  apply bind_unit_Ok in Hrun as [Hc%reject_Ok%negb_false_iff Hrun].
  apply bind_Ok_inv in Hrun as (verdict' & Hgate & [= -> ->]).
  split_and!; try done; [by destruct (structural_error document)|by eapply signature_gate_Ok].
Qed.

Lemma read_document_empty : ∀ document, read_document (NDir []) <> Ok document.
Proof. done. Qed.

Lemma place_payload_Ok medium id approved_digest h revision_id payload_dir h' :
  place_payload apps_root medium id approved_digest h = (Ok (revision_id, payload_dir), h') ->
  in_manager h' = in_manager h /\ in_staged_inspections h' = in_staged_inspections h /\
  dk_dirs (in_disk h) !! payload_dir = None /\
  ∃ payload, dk_dirs (in_disk h') !! payload_dir = Some payload /\ directory_digest payload = Ok approved_digest.
Proof.
  unfold place_payload. intros Hrun.
  apply st_bind_Ok_inv in Hrun as ([] & s1 & (d1 & Hw1 & ->)%on_disk_inv & Hrun).
  apply st_bind_Ok_inv in Hrun as ([] & s2 & (d2 & Hw2 & ->)%on_disk_inv & Hrun).
  apply st_bind_Ok_inv in Hrun as (revision & s3 & (d3 & [= <- <-] & ->)%on_disk_inv & Hrun).
  apply st_bind_Ok_inv in Hrun as (suffix & s4 & (d4 & [= <- <-] & ->)%on_disk_inv & Hrun).
  apply st_bind_Ok_inv in Hrun as (dirs & s5 & [= <- <-] & Hrun).
  apply st_bind_Ok_inv in Hrun as ([] & s6 & [Hfree <-]%st_lift_inv & Hrun).
  apply reject_Ok, bool_decide_eq_false, eq_None_not_Some in Hfree.
  apply st_bind_Ok_inv in Hrun as ([] & s7 & (d7 & Hcopy & ->)%on_disk_inv & Hrun).
  apply st_bind_Ok_inv in Hrun as ([] & s8 & (d8 & Hren & ->)%on_disk_inv & Hrun).
  apply st_bind_Ok_inv in Hrun as (payload & s9 & (d9 & [Hpay ->]%tree_of_Ok & ->)%on_disk_inv & Hrun).
  apply st_bind_Ok_inv in Hrun as (digest & s10 & [Hdigest <-]%st_lift_inv & Hrun).
  case_bool_decide as Heq;
    [|apply st_bind_Ok_inv in Hrun as ([] & ? & Hbad & _); by apply st_bind_Ok_inv in Hbad as (? & ? & _ & ?)].
  subst digest. injection Hrun as <- <- <-. simpl in *. split_and!; try done; [|eauto].
  pose proof (write_same_reads medium (failed "create app payload root") (in_disk h)) as E1.
  pose proof (write_same_reads medium (failed "create app revision root") d1) as E2.
  rewrite Hw1 in E1. rewrite Hw2 in E2. simpl in *. by rewrite <- E1, <- E2.
Qed.

(** C13: An installation is of what was approved. When [install_record] succeeds, the digest the
    user approved was the one shown for a package that is still staged; its own [app.json]
    passes the structural check, suits this host, and if it was signed, the signature over
    that digest and that app's identity verifies now and is not revoked. No app of this
    identity was installed before; now there is a single record of one revision, whose payload
    directory exists and has the approved digest. The inspection cannot be used again. *)
Theorem installation_is_approved faults staged_id approved_digest installed_at h record h' :
  install_record staging_root apps_root faults staged_id approved_digest installed_at h = (Ok record, h') ->
  ∃ staged root document revision payload,
    in_staged_inspections h !! staged_id = Some staged /\
    pi_package_digest (si_inspection staged) = approved_digest /\
    dk_dirs (in_disk h) !! join_dir staging_root staged_id = Some root /\
    read_document root = Ok document /\ structural_error document = None /\
    pi_host_compatible (si_inspection staged) = true /\
    gate_passed (in_trust h) staged approved_digest (pk_id document) /\
    am_records (in_manager h) !! pk_id document = None /\ record = new_record (pk_id document) revision /\
    am_records (in_manager h') = <[pk_id document := record]> (am_records (in_manager h)) /\
    rv_package_digest revision = approved_digest /\
    dk_dirs (in_disk h') !! rv_payload_dir revision = Some payload /\ directory_digest payload = Ok approved_digest /\
    in_staged_inspections h' = delete staged_id (in_staged_inspections h).
Proof.
  unfold install_record. intros Hrun.
  apply st_bind_Ok_inv in Hrun as (dir & s0 & [Hdir <-]%st_lift_inv & Hrun).
  unfold staged_dir in Hdir. destruct (parse_str_ok staged_id); [|done]. injection Hdir as <-.
  apply st_bind_Ok_inv in Hrun as (staged & s1 & Htake & Hrun).
  unfold take_staged in Htake. destruct (in_staged_inspections h !! staged_id) as [si|] eqn:Hst; [|done].
  injection Htake as -> <-.
  apply st_bind_Ok_inv in Hrun as (root & s2 & Hroot & Hrun). injection Hroot as Hroot <-.
  apply st_bind_Ok_inv in Hrun as (trust & s3 & [= <- <-] & Hrun).
  apply st_bind_Ok_inv in Hrun as ([document verdict] & s4 & [Happ <-]%st_lift_inv & Hrun).
  apply approve_Ok in Happ as (Hdig & Hdoc & Hs & Hc & Hgate). simpl in *.
  destruct (dk_dirs (in_disk h) !! join_dir staging_root staged_id) as [tree|] eqn:Htree; simpl in Hroot; subst root;
    [|by apply read_document_empty in Hdoc].
  apply st_bind_Ok_inv in Hrun as (records & s5 & [= <- <-] & Hrun).
  apply st_bind_Ok_inv in Hrun as ([] & s6 & [Hnew <-]%st_lift_inv & Hrun).
  apply reject_Ok, bool_decide_eq_false, eq_None_not_Some in Hnew. simpl in Hnew.
  apply st_bind_Ok_inv in Hrun as ([revision_id payload_dir] & s7 & Hplace & Hrun).
  apply place_payload_Ok in Hplace as (Hman & Hins & Hfree & payload & Hpay & Hdigest). simpl in *.
  apply st_bind_Ok_inv in Hrun as ([] & s8 & (Hdisk & Hins' & Hrec)%persist_new_record_Ok & Hrun).
  apply st_bind_Ok_inv in Hrun as ([] & s9 & (d9 & Hrem & ->)%on_disk_inv & Hrun).
  injection Hrun as <- <-. simpl.
  eexists staged, tree, document, _, payload. split_and!; try done.
  - by rewrite Hrec, Hman.
  - simpl. rewrite (remove_tree_other _ _ payload_dir _ _ _ Hrem); [by rewrite Hdisk|].
    intros ->. congruence.
  - by rewrite Hins', Hins.
Qed.
End installer.
