(* ===== verification/PackageWitnesses.v ===== *)
(** * Concrete packages

    A package with host-managed data, one generated export and one generated proposal, and
    an artifact store with one grant, to which the theorems on package checks, invocation
    scopes and the artifacts app apply. *)

From S2P Require Import Prelude RustStd RustText Json JsonOps Types Errors Grants Manifest Platform Artifacts Broker Invocation KernelGrants ToolMapping ArtifactsApp Packages.
From S2P Require Import ManagedData ManagedDataFacts ManagedV2 ManagedV2Store ManagedV2Requests ManagedExports PackageChecks InvocationScopes HostDemo ManagedDemo.

(** Versions as texts that start with a digit. *)
#[export] Instance demo_semver : Semver := {
  Version := string;
  Version_parse s := if starts_with "0." s || starts_with "1." s then Ok s else Err "unexpected character";
  Version_leb _ _ := true;
}.

(** ** A package without a backend *)

Definition text_schema : JsonObject := [("type", VString "string")].

Definition closed_schema (properties : JsonObject) : JsonObject :=
  [("additionalProperties", VBool false); ("properties", VObject properties); ("type", VString "object")].

Definition notes_collection : ManagedDataCollection :=
  {| mdc_schema := closed_schema [("title", VObject text_schema)];
     mdc_indexes := [{| mdi_name := "by-title"; mdi_field := "title"; mdi_value_schema := text_schema;
                        mdi_unique := true |}];
     mdc_operations := [OpGet; OpList; OpCreate];
     mdc_limits := {| mcl_records := 10; mcl_record_bytes := 100; mcl_query_results := 5 |} |}.

Definition notes_list : ManagedDataExport :=
  {| mde_capability := "notes.list"; mde_operation := ExportList; mde_collection := "notes";
     mde_index := Some "by-title"; mde_equals_host_input := None |}.

Definition notes_edit : ManagedDataProposal :=
  {| mdp_capability := "notes.edit"; mdp_artifact_type := "note-edit"; mdp_title := "Edit a note";
     mdp_description := "Propose a new title"; mdp_target := TargetRecord "notes";
     mdp_payload_schema := closed_schema [("title", VObject text_schema)]; mdp_max_payload_bytes := 100 |}.

Definition notes_id : AppId := "com.example.notes".

Definition notes_capabilities : list CapabilityDeclaration :=
  [{| cd_name := "notes.list"; cd_description := "List notes";
      cd_input_schema := managed_export_input_schema ExportList "notes" notes_collection
        (mdc_indexes notes_collection !! 0%nat) None;
      cd_effect := EffectReadOnly;
      cd_output_schema := Some (managed_export_output_schema ExportList notes_collection) |};
   {| cd_name := "notes.edit"; cd_description := "Propose an edit";
      cd_input_schema := managed_proposal_input_schema notes_edit; cd_effect := EffectLocalWrite;
      cd_output_schema := Some (managed_proposal_artifact_schema notes_id notes_edit) |}].

Definition notes_artifact_types : list ArtifactTypeDeclaration :=
  [{| at_name := "note-edit"; at_description := "An edit";
      at_json_schema := managed_proposal_artifact_schema notes_id notes_edit |}].

Definition notes_limits : ManagedDataStoreLimits :=
  {| msl_total_bytes := 4096; msl_transaction_operations := 4; msl_batch_operations := Some 8%N |}.

Definition notes_body : PackageManifestBody := {|
  pm_capabilities := notes_capabilities; pm_surfaces := []; pm_agents := []; pm_skills := [];
  pm_assistant_profiles := []; pm_automations := []; pm_connectors := []; pm_config_declarations := [];
  pm_artifact_types := notes_artifact_types; pm_extension_points := []; pm_extension_contributions := [];
  pm_grant_requests := []; pm_event_subscriptions := [] |}.

Definition color (name light dark : string) : AppThemeColor :=
  {| tc_name := name; tc_title := name; tc_description := name; tc_light := light; tc_dark := dark |}.

Definition notes_package (theme_colors : list AppThemeColor) : PackageDocument := {|
  pk_format_version := 1; pk_id := notes_id; pk_version := "1.0.0"; pk_display_name := "Notes";
  pk_description := "Notes"; pk_publisher := None; pk_license := None; pk_icon := None;
  pk_theme_colors := theme_colors; pk_min_host_version := "0.1.0"; pk_manifest := notes_body;
  pk_consumer_grant_requests := []; pk_backend := BackendNone;
  pk_data := DataHostManaged 2 {["notes" := notes_collection]} ∅ notes_limits [notes_list] [notes_edit];
  pk_integrity := {| in_algorithm := "sha256"; in_assets := [] |} |}.

(** Percentages stop at 100. *)
Example bad_theme_color :
  structural_error (notes_package [color "ink" "rgb(0, 12, 255)" "#fff"; color "accent" "#102030" "rgb(10%, 101%, 255)"])
  = Some "theme color 'accent' must provide valid HEX, rgb(), or rgba() light and dark values".
Proof. vm_compute. reflexivity. Qed.

Definition plain_notes_package : PackageDocument :=
  notes_package [color "ink" "rgb(0, 12, 255)" "#fff"; color "accent" "#102030" "RGBA(10%, 20.5%, 255, .5)"].

Lemma backendless_capabilities_are_generated_witness :
  structural_error plain_notes_package = None /\
  ∃ exports proposals, exports <> [] /\ proposals <> [] /\
    contract_accepted 2 {["notes" := notes_collection]} ∅ exports proposals
      notes_capabilities notes_artifact_types notes_id.
Proof.
  split; [vm_compute; reflexivity|].
  pose proof (backendless_capabilities_are_generated plain_notes_package) as H.
  destruct H as [H|(v & cs & ds & lims & es & ps & Hd & Hca)]; [vm_compute; reflexivity|reflexivity|discriminate H|].
  injection Hd as <- <- <- <- <- <-. exists [notes_list], [notes_edit]. split; [discriminate|]. split; [discriminate|].
  exact Hca.
Defined.

(** ** The scope of its capabilities *)

Definition notes_manifest : AppManifest := {|
  m_app_id := notes_id; m_version := "1.0.0"; m_display_name := "Notes"; m_description := "Notes";
  m_capabilities := notes_capabilities; m_surfaces := []; m_agents := []; m_skills := [];
  m_assistant_profiles := []; m_automations := []; m_connectors := []; m_config_declarations := [];
  m_artifact_types := notes_artifact_types; m_extension_points := []; m_extension_contributions := [];
  m_grant_requests := []; m_event_subscriptions := [] |}.

Definition edit_note : JsonObject :=
  [("payload", VObject (titled "b")); ("targetId", VString "uuid-7"); ("targetRevision", VNumber "1")].

Lemma notes_contract :
  contract_accepted 2 {["notes" := notes_collection]} ∅ [notes_list] [notes_edit]
    notes_capabilities notes_artifact_types notes_id.
Proof. eapply validate_host_managed_data_Ok with (limits := notes_limits). vm_compute. reflexivity. Qed.

Lemma derived_scope_is_required_witness :
  managed_data_invocation_data_scope (Some notes_manifest)
    {| cr_provider := notes_id; cr_capability := "notes.edit" |} edit_note
  = Ok (Some (Resources ["app-data:com.example.notes:notes:record:uuid-7"])).
Proof.
  destruct (derived_scope_is_required (W := nat) notes_manifest 2 {["notes" := notes_collection]} ∅ [notes_list]
    [notes_edit] notes_artifact_types edit_note notes_contract) as [_ H].
  apply (H notes_edit); [by left|reflexivity|]. vm_compute. reflexivity.
Defined.

(** ** An artifact store *)

#[export] Instance demo_artifacts_codec : ArtifactsCodec := {
  query_request_from_value _ := inr {| qr_cursor := None; qr_limit := 10 |};
  read_request_from_value v :=
    match Value_get v "artifact_id" ≫= Value_as_str with Some id => inr id | None => inl "missing field" end;
  provenance_to_value p := VString (pv_run_id p);
}.

Definition report (id : ArtifactId) : Artifact := {|
  a_artifact_id := id; a_artifact_type := "report"; a_title := id; a_content := VNull;
  a_provenance := {| pv_run_id := "run-0"; pv_capability := {| cr_provider := "notes"; cr_capability := "write" |};
    pv_grant_id := "grant-0"; pv_produced_by := "notes"; pv_recorded_at := 0%Z |} |}.

Definition two_reports : ArtifactStore :=
  {| as_artifacts := {["a" := report "a"; "b" := report "b"]} |}.

Definition may_list_a : Grant := {|
  g_grant_id := "grant-1"; g_holder := "chat"; g_scope := ExactCapability artifacts_app_id ARTIFACTS_QUERY;
  g_data_scope := Resources ["a"]; g_condition := Silent; g_origin := UserAdded; g_issued_at := 0%Z;
  g_expires_at := None |}.

Definition listing_context : InvocationContext := {|
  ic_run_id := "run-1"; ic_invoked_by := "chat"; ic_invoked_by_version := "1";
  ic_invoked_by_content_hash := "sha256:chat"; ic_authorized_data_scope := Resources ["a"];
  ic_secrets := {| res_declared := ∅; res_secrets := ∅ |};
  ic_artifacts := snapshot_resolver_for two_reports (Resources ["a"]);
  ic_cancellation := {| ch_cancelled := 0; ch_deadline := 1 |} |}.

Definition listing : outcome HandlerFailure CapabilityOutcome := query_handler [] listing_context.

Lemma artifact_listing_within_grants_witness :
  listing = Ok {| co_result := json_obj
    [("items", VArray [summary_to_value (summary_of (report "a"))]); ("next_cursor", VNull)]; co_artifacts := [] |} /\
  ∃ page, listing = Ok {| co_result := json_obj [("items", VArray (summary_to_value <$> sp_items page));
      ("next_cursor", json_option VString (sp_next_cursor page))]; co_artifacts := [] |} /\
    ∀ item, item ∈ sp_items page -> ∃ grant, grant ∈ [may_list_a] /\
      grant_allows {| cr_provider := artifacts_app_id; cr_capability := ARTIFACTS_QUERY |} (ss_artifact_id item) grant.
Proof.
  assert (∃ o, listing = Ok o) as [o Ho] by (vm_compute; eexists; reflexivity).
  split; [vm_compute; reflexivity|].
  destruct (artifact_listing_within_grants two_reports [may_list_a] [] listing_context o) as (page & Hr & Ha & Hitems).
  - intros id artifact H. unfold two_reports in H. simpl in H.
    repeat (apply lookup_insert_Some in H as [[<- <-]|[_ H]]; [reflexivity|]).
    apply lookup_singleton_Some in H as [<- <-]. reflexivity.
  - vm_compute. reflexivity.
  - reflexivity.
  - exact Ho.
  - exists page. split; [rewrite Ho; destruct o; simpl in *; by subst|].
    intros item Hin. apply (Hitems item Hin).
Defined.
