(* ===== verification/TransitionPlans.v ===== *)
(** * Planning a transition of a managed app

    [host/src-tauri/src/app_manager.rs]: the review of an update, a downgrade, a
    reinstallation or a revert before anything changes: its classification, the difference
    between the packages, the migration of the app's data, and the one-time plan that may be
    applied. What the managed-data store says about the app is an argument. *)

From S2P Require Import Prelude RustStd RustText Json Types Errors Grants Manifest AtomicJson Platform Registry Packages PublisherTrust SurfaceUi ManagedData PackageChecks PackageInspect PackageStaging.
From S2P Require Import AppData UpdateJournal AppManager AppInstall.

Inductive ManagedAppVersionRelation := VersionSame | VersionHigher | VersionLower.
Inductive ManagedAppPublisherContinuity := PublisherSame | PublisherChanged | PublisherNew | PublisherUnknown.

#[export] Instance ManagedAppVersionRelation_eq_dec : EqDecision ManagedAppVersionRelation.
Proof. solve_decision. Defined.
#[export] Instance GrantRequestSummary_eq_dec : EqDecision GrantRequestSummary.
Proof. solve_decision. Defined.

Record ManagedAppPermissionDiff := {
  pd_unchanged : list GrantRequestSummary;
  pd_added : list GrantRequestSummary;
  pd_widened : list GrantRequestSummary;
  pd_removed : list GrantRequestSummary;
}.

Record ManagedAppExtensionWarning := {
  ew_contributor_app_id : string;
  ew_extension_point : string;
  ew_surface : string;
  ew_contribution_contract_version : N;
  ew_current_target_contract_version : N;
  ew_target_contract_version : option N;
}.

Record ManagedAppUpdateDiff := {
  ud_version_relation : ManagedAppVersionRelation;
  ud_display_name_changed : bool;
  ud_description_changed : bool;
  ud_backend_kind_changed : bool;
  ud_current_backend_authority_mode : option BackendAuthorityMode;
  ud_target_backend_authority_mode : option BackendAuthorityMode;
  ud_current_data : option AppDataSummary;
  ud_target_data : AppDataSummary;
  ud_publisher_key_continuity : ManagedAppPublisherContinuity;
  ud_capabilities_added : list string;
  ud_capabilities_removed : list string;
  ud_surfaces_added : list string;
  ud_surfaces_removed : list string;
  ud_permissions : ManagedAppPermissionDiff;
  ud_consumer_permissions : ManagedAppPermissionDiff;
  ud_extension_warnings : list ManagedAppExtensionWarning;
}.

Record ManagedAppDataTransition := {
  mt_source_format_version : option N;
  mt_target_format_version : N;
  mt_destructive : bool;
  mt_reverse_migration : bool;
}.

Record ManagedAppTransitionRequest := {
  tr_operation : ManagedAppOperation;
  tr_staged_id : option string;
  tr_package_digest : option string;
  tr_app_id : option string;
  tr_revision_id : option string;
  tr_acknowledge_downgrade : bool;
  tr_acknowledge_revert_data_caveat : bool;
}.

Record ManagedAppTransitionPlan := {
  tn_transition_id : string;
  tn_app_id : string;
  tn_operation : ManagedAppOperation;
  tn_current_revision_id : option string;
  tn_target_revision_id : string;
  tn_target_version : string;
  tn_diff : ManagedAppUpdateDiff;
  tn_requires_explicit_approval : bool;
  tn_data_rollback_supported : bool;
  tn_data_rollback_caveat : option string;
  tn_data_transition : option ManagedAppDataTransition;
  tn_staged_id : option string;
  tn_package_digest : option string;
  tn_revision_id : option string;
}.

(** The manager with the plans that wait for their review. *)
Record Planner := { pl_installer : Installer; pl_plans : gmap string ManagedAppTransitionPlan }.

Definition set_plans (plans : gmap string ManagedAppTransitionPlan) (p : Planner) : Planner :=
  {| pl_installer := pl_installer p; pl_plans := plans |}.

(** ** Classification *)

Section versions.
Context `{Semver}.

Definition compare_versions (current target : string) : ManagedAppVersionRelation :=
  match Version_parse current, Version_parse target with
  | Ok current, Ok target =>
      if Version_leb current target && negb (Version_leb target current) then VersionHigher
      else if Version_leb target current && negb (Version_leb current target) then VersionLower
      else VersionSame
  | _, _ => VersionSame
  end.
End versions.

(** The package is the installed one, byte for byte. *)
Definition classify_same_digest (requested : ManagedAppOperation) : outcome string ManagedAppOperation :=
  match requested with
  | OpReinstall => Ok OpReinstall
  | OpInstall => Err "app is already installed; use reinstall"
  | OpUpdate => Err "same digest cannot be treated as an update"
  | OpDowngrade => Err "same digest cannot be treated as a downgrade"
  | OpRevert => Err "use revert to switch retained revisions"
  | OpVersionConflict => Err "version conflict must be resolved explicitly"
  end.

Definition classify_by_version (version_relation : ManagedAppVersionRelation) (requested : ManagedAppOperation) :
    outcome string ManagedAppOperation :=
  match version_relation, requested with
  | VersionHigher, OpUpdate => Ok OpUpdate
  | VersionHigher, OpInstall => Err "higher version requires explicit update intent"
  | VersionHigher, OpReinstall => Err "higher version is not a reinstall"
  | VersionHigher, OpDowngrade => Err "higher version cannot be downgraded"
  | VersionHigher, OpRevert => Err "use revert only for retained revisions"
  | VersionHigher, OpVersionConflict => Err "higher version is not a conflict"
  | VersionLower, OpDowngrade => Ok OpDowngrade
  | VersionLower, OpRevert => Ok OpRevert
  | VersionLower, (OpInstall | OpUpdate) => Err "lower version requires explicit downgrade or revert intent"
  | VersionLower, OpReinstall => Err "lower version is not a reinstall"
  | VersionLower, OpVersionConflict => Err "lower version is not a conflict"
  | VersionSame, OpReinstall => Ok OpReinstall
  | VersionSame, (OpInstall | OpUpdate) => Err "same version requires reinstall or conflict handling"
  | VersionSame, OpDowngrade => Err "same version is not a downgrade"
  | VersionSame, OpRevert => Err "same version is not a revert"
  | VersionSame, OpVersionConflict => Ok OpVersionConflict
  end.

Definition classify_transition (installed : bool) (version_relation : ManagedAppVersionRelation)
    (current_digest : option string) (target_digest : string) (requested : ManagedAppOperation) :
    outcome string ManagedAppOperation :=
  if negb installed then
    match requested with OpInstall => Ok OpInstall | _ => Err "app is not installed; use install" end
  else match current_digest with
  | Some current_digest =>
      if bool_decide (current_digest = target_digest) then classify_same_digest requested
      else if bool_decide (version_relation = VersionSame)
      then Err "same app id and version with a different digest is a version conflict"
      else classify_by_version version_relation requested
  | None => classify_by_version version_relation requested
  end.

(** ** Differences *)

Definition scope_text (scope : GrantScope) : string :=
  match scope with
  | ExactCapability provider capability => provider +:+ "/" +:+ capability
  | AllProviderCapabilities provider => provider +:+ "/*"
  end.

Definition duration_text (duration : GrantDuration) : string :=
  match duration with
  | NonExpiring => "non-expiring"
  | ExpiresAfter seconds => "expires-after:" +:+ pretty seconds +:+ "s"
  end.

(** [format!("{:?}", condition).to_lowercase()]. *)
Definition condition_text (condition : GrantCondition) : string :=
  match condition with Silent => "silent" | Notify => "notify" | RequiresApproval => "requiresapproval" end.

Definition summarize_grant_request (request : GrantRequest) : GrantRequestSummary :=
  {| gs_scope_label := scope_text (gq_scope request); gs_data_scope_label := data_scope_label (gq_data_scope request);
     gs_condition := condition_text (gq_condition request); gs_reason := gq_reason request;
     gs_duration_label := duration_text (gq_duration request) |}.

Definition summarize_consumer (consumer : ConsumerGrantRequest) : GrantRequestSummary :=
  let summary := summarize_grant_request (cgr_request consumer) in
  {| gs_scope_label := cgr_holder consumer +:+ " -> " +:+ gs_scope_label summary;
     gs_data_scope_label := gs_data_scope_label summary; gs_condition := gs_condition summary;
     gs_reason := gs_reason summary; gs_duration_label := gs_duration_label summary |}.

Definition summarize_permissions (document : PackageDocument) : list GrantRequestSummary * list GrantRequestSummary :=
  (summarize_grant_request <$> pm_grant_requests (pk_manifest document),
   summarize_consumer <$> pk_consumer_grant_requests document).

Definition permission_key (summary : GrantRequestSummary) : string :=
  gs_scope_label summary +:+ "|" +:+ gs_data_scope_label summary +:+ "|" +:+ gs_condition summary +:+ "|"
  +:+ gs_reason summary +:+ "|" +:+ gs_duration_label summary.

Definition diff_permission_sets (current target : list GrantRequestSummary) : ManagedAppPermissionDiff :=
  let current_set : gset string := list_to_set (permission_key <$> current) in
  let target_set : gset string := list_to_set (permission_key <$> target) in
  {| pd_unchanged := List.filter (fun summary => bool_decide (permission_key summary ∈ current_set)) target;
     pd_added := List.filter (fun summary => negb (bool_decide (permission_key summary ∈ current_set))) target;
     pd_widened := [];
     pd_removed := List.filter (fun summary => negb (bool_decide (permission_key summary ∈ target_set))) current |}.

Definition publisher_continuity (current target : option string) : ManagedAppPublisherContinuity :=
  match current, target with
  | Some current, Some target => if bool_decide (current = target) then PublisherSame else PublisherChanged
  | None, Some _ => PublisherNew
  | _, None => PublisherUnknown
  end.

(** [set_diff_names] and [set_diff_surface_names]. *)
Definition set_diff_names (current target : list string) (added : bool) : list string :=
  let current : gset string := list_to_set current in
  let target : gset string := list_to_set target in
  btree_elements (if added then target ∖ current else current ∖ target).

Definition capability_summary_names (document : PackageDocument) : list string :=
  cd_name <$> pm_capabilities (pk_manifest document).
Definition surface_summary_names (document : PackageDocument) : list string :=
  ps_name <$> pm_surfaces (pk_manifest document).

(** *** Extension points *)

Definition point_versions (document : PackageDocument) : gmap string N :=
  foldl (fun points point => <[ep_name point := ep_contract_version point]> points) ∅
    (pm_extension_points (pk_manifest document)).

(** The warning for one contribution, if it loses its contract. *)
Definition contribution_warning (current_points target_points : gmap string N) (target_id contributor : string)
    (contribution : ExtensionContribution) : option ManagedAppExtensionWarning :=
  if negb (bool_decide (ec_target_app contribution = target_id)) then None
  else
    current_version ← current_points !! ec_extension_point contribution;
    if negb (current_version =? ec_contract_version contribution)%N then None
    else
      let target_version := target_points !! ec_extension_point contribution in
      if bool_decide (target_version = Some (ec_contract_version contribution)) then None
      else Some {| ew_contributor_app_id := contributor; ew_extension_point := ec_extension_point contribution;
                   ew_surface := ec_surface contribution;
                   ew_contribution_contract_version := ec_contract_version contribution;
                   ew_current_target_contract_version := current_version;
                   ew_target_contract_version := target_version |}.

(** The comparison of triples of texts. *)
Definition warning_leb (left right : ManagedAppExtensionWarning) : bool :=
  if negb (bool_decide (ew_contributor_app_id left = ew_contributor_app_id right))
  then String.leb (ew_contributor_app_id left) (ew_contributor_app_id right)
  else if negb (bool_decide (ew_extension_point left = ew_extension_point right))
  then String.leb (ew_extension_point left) (ew_extension_point right)
  else String.leb (ew_surface left) (ew_surface right).

(** ** App data *)

Section data.
(** The app's data revision that is active, whether a managed-data store is retained for the
    app, and that store's answer for a contract. *)
Context (persisted_revision : outcome string (option AppDataRevision)) (retained_managed : bool).
Context (validate_contract : HostManagedDataRef -> outcome string unit).

Definition retained_format (target : PackageDocument) (persisted : option AppDataRevision) :
    outcome string (option ManagedAppDataTransition) :=
  match persisted, AppData_format_version (pk_data target) with
  | None, _ => Ok None
  | Some persisted, None =>
      Err ("retained app data is format " +:+ pretty (adr_format_version persisted)
           +:+ ", but this package declares no app-owned data")
  | Some persisted, Some target =>
      if (adr_format_version persisted =? target)%N then Ok None
      else Err ("retained app data is format " +:+ pretty (adr_format_version persisted)
                +:+ ", but this package expects format " +:+ pretty target
                +:+ "; install a matching package and update through its declared migration")
  end.

(** The format of the data the current package works on. *)
Definition current_format (app_id : string) (current : AppData) (persisted : option AppDataRevision) :
    outcome string (option N) :=
  match current with
  | DataNone =>
      match persisted with
      | Some persisted =>
          Err ("app '" +:+ app_id +:+ "' has retained versioned data format " +:+ pretty (adr_format_version persisted)
               +:+ " but its current package declares no app-owned data")
      | None => Ok None
      end
  | DataVersioned format_version _ =>
      persisted ← ok_or persisted ("app '" +:+ app_id +:+ "' is missing its versioned app-data state");
      if negb (adr_format_version persisted =? format_version)%N
      then Err ("app '" +:+ app_id +:+ "' package declares data format " +:+ pretty format_version
                +:+ ", but active data is format " +:+ pretty (adr_format_version persisted))
      else Ok (Some format_version)
  | DataHostManaged _ _ _ _ _ _ => Panic "internal error: entered unreachable code: host-managed transition handled above"
  end.

Definition migration_of (data : AppData) : option AppDataMigration :=
  match data with DataVersioned _ migration => Some migration | _ => None end.

Definition declared_transition (current target : AppData) (reverse_migration : bool) (source target_format : N) :
    outcome string (option ManagedAppDataTransition) :=
  migration ← (if reverse_migration
               then ok_or (migration_of current) "current package has no app-data migration command"
               else match migration_of target with
                    | Some migration => Ok migration
                    | None => Panic "internal error: entered unreachable code: target format is present"
                    end);
  transition ← ok_or (List.find (fun transition => (adt_from transition =? source)%N
                                                   && (adt_to transition =? target_format)%N)
                        (adm_transitions migration))
    ("package declares data format " +:+ pretty target_format +:+ " but no tested migration from active format "
     +:+ pretty source);
  Ok (Some {| mt_source_format_version := Some source; mt_target_format_version := target_format;
              mt_destructive := adt_destructive transition; mt_reverse_migration := reverse_migration |}).

Definition versioned_transition (app_id : string) (current target : AppData) (reverse_migration : bool)
    (persisted : option AppDataRevision) : outcome string (option ManagedAppDataTransition) :=
  current_format ← current_format app_id current persisted;
  match current_format, AppData_format_version target with
  | None, None => Ok None
  | Some _, None => Err "a package cannot drop versioned app data; publish an explicit versioned migration instead"
  | None, Some target_format =>
      Ok (Some {| mt_source_format_version := None; mt_target_format_version := target_format;
                  mt_destructive := false; mt_reverse_migration := false |})
  | Some source, Some target_format =>
      if (source =? target_format)%N then Ok None
      else declared_transition current target reverse_migration source target_format
  end.

Definition plan_data_transition (app_id : string) (current_document : option PackageDocument) (target : PackageDocument)
    (reverse_migration : bool) : outcome string (option ManagedAppDataTransition) :=
  persisted ← persisted_revision;
  _ ← match host_managed (pk_data target) with
      | Some contract =>
          map_err (String.append "target host-managed data contract is incompatible: ") (validate_contract contract)
      | None => Ok tt
      end;
  match current_document with
  | None =>
      if retained_managed && negb (is_host_managed (pk_data target))
      then Err "retained host-managed data exists, but this package declares a different data kind"
      else retained_format target persisted
  | Some current =>
      match pk_data current, pk_data target with
      | DataHostManaged _ _ _ _ _ _, DataHostManaged _ _ _ _ _ _ => Ok None
      | DataHostManaged _ _ _ _ _ _, _ => Err "a package cannot replace host-managed data with another data kind"
      | DataVersioned _ _, DataHostManaged _ _ _ _ _ _ =>
          Err ("a package cannot replace versioned native data with host-managed data without an explicit "
               +:+ "import contract")
      | DataNone, DataHostManaged _ _ _ _ _ _ => Ok None
      | current_data, target_data =>
          versioned_transition app_id current_data target_data reverse_migration persisted
      end
  end.
End data.

(** ** Plans *)

(** What the managed-data store of the host says about an app. *)
Class ManagedStores := {
  store_exists : string -> bool;
  store_validate_contract : string -> HostManagedDataRef -> outcome string unit;
}.

Section plans.
Context `{Libraries, PackageFormat, Semver, Signatures, Uuids, ManagerCodec, AppDataCodec, ManagedStores}.
Context (staging_root : string) (data_path : string -> string).

Abbreviation plan_op := (st Planner string).

Definition on_installer {A} (m : st Installer string A) : plan_op A := fun p =>
  let '(r, h) := m (pl_installer p) in (r, {| pl_installer := h; pl_plans := pl_plans p |}).

Definition on_app_manager {A} (m : manager_op A) : plan_op A :=
  on_installer (fun h => let '(r, manager) := m (in_manager h) in (r, set_manager manager h)).

(** [package::read_document] of a revision's payload directory. *)
Definition revision_document (h : Installer) (revision : AppRevision) : outcome string PackageDocument :=
  read_document (default (NDir []) (dk_dirs (in_disk h) !! rv_payload_dir revision)).

Definition active_revision_document (h : Installer) (record : InstallRecord) : outcome string PackageDocument :=
  revision ← active_app_revision record;
  revision_document h revision.

Definition package_document_for_revision (h : Installer) (record : InstallRecord) (revision_id : string) :
    outcome string PackageDocument :=
  revision ← retained_revision record revision_id;
  revision_document h revision.

(** [result.ok()]. *)
Definition ok {E A} (r : outcome E A) : option A := match r with Ok a => Some a | _ => None end.

Definition add_contributor (h : Installer) (contributors : gmap string (list ExtensionContribution))
    (record : InstallRecord) : gmap string (list ExtensionContribution) :=
  if ir_uninstalling record || bool_decide (is_Some (contributors !! ir_id record)) then contributors
  else match active_revision_document h record with
       | Ok document => <[ir_id record := pm_extension_contributions (pk_manifest document)]> contributors
       | _ => contributors
       end.

Definition contributors (h : Installer) (active_manifests : list AppManifest) : gmap string (list ExtensionContribution) :=
  foldl (add_contributor h)
    (foldl (fun m manifest => <[m_app_id manifest := m_extension_contributions manifest]> m) ∅ active_manifests)
    (btree_values (am_records (in_manager h))).

Definition extension_update_warnings (h : Installer) (current : option PackageDocument) (target : PackageDocument)
    (active_manifests : list AppManifest) : list ManagedAppExtensionWarning :=
  match current with
  | None => []
  | Some current =>
      sort_by warning_leb
        (btree_list (contributors h active_manifests) ≫= fun entry =>
           omap (contribution_warning (point_versions current) (point_versions target) (pk_id target) entry.1) entry.2)
  end.

Definition changed {A} `{EqDecision A} (field : PackageDocument -> A) (current : option PackageDocument)
    (target : PackageDocument) : bool :=
  negb (bool_decide (field <$> current = Some (field target))).

Definition diff_documents (h : Installer) (current : option PackageDocument) (target : PackageDocument)
    (active_manifests : list AppManifest) : ManagedAppUpdateDiff :=
  let names (field : PackageDocument -> list string) := default [] (field <$> current) in
  let permissions := default ([], []) (summarize_permissions <$> current) in
  {| ud_version_relation := default VersionHigher
       ((fun current => compare_versions (pk_version current) (pk_version target)) <$> current);
     ud_display_name_changed := changed pk_display_name current target;
     ud_description_changed := changed pk_description current target;
     ud_backend_kind_changed := changed (fun document => kind_label (pk_backend document)) current target;
     ud_current_backend_authority_mode := current ≫= (fun current => authority_mode (pk_backend current));
     ud_target_backend_authority_mode := authority_mode (pk_backend target);
     ud_current_data := (fun document => data_summary (pk_data document)) <$> current;
     ud_target_data := data_summary (pk_data target);
     ud_publisher_key_continuity := publisher_continuity
       (current ≫= (fun document => pk_publisher document ≫= pb_key_id)) (pk_publisher target ≫= pb_key_id);
     ud_capabilities_added :=
       set_diff_names (names capability_summary_names) (capability_summary_names target) true;
     ud_capabilities_removed :=
       set_diff_names (names capability_summary_names) (capability_summary_names target) false;
     ud_surfaces_added := set_diff_names (names surface_summary_names) (surface_summary_names target) true;
     ud_surfaces_removed := set_diff_names (names surface_summary_names) (surface_summary_names target) false;
     ud_permissions := diff_permission_sets permissions.1 (summarize_permissions target).1;
     ud_consumer_permissions := diff_permission_sets permissions.2 (summarize_permissions target).2;
     ud_extension_warnings := extension_update_warnings h current target active_manifests |}.

(** [plan_data_transition] with the data of the app as it is now. *)
Definition plan_data (app_id : string) (current : option PackageDocument) (target : PackageDocument)
    (reverse_migration : bool) : plan_op (option ManagedAppDataTransition) :=
  persisted ← st_catch (on_app_manager (on_data app_id (current_revision (data_path app_id))));
  st_lift (plan_data_transition persisted (store_exists app_id) (store_validate_contract app_id)
             app_id current target reverse_migration).

Definition plan_uuid : plan_op string := on_installer draw_id.

(** The revert of a retained revision. *)
Definition plan_revert (request : ManagedAppTransitionRequest) (active_manifests : list AppManifest) :
    plan_op ManagedAppTransitionPlan :=
  app_id ← st_lift (ok_or (tr_app_id request) "revert requires app_id");
  revision_id ← st_lift (ok_or (tr_revision_id request) "revert requires revision_id");
  _ ← st_lift (reject (negb (tr_acknowledge_revert_data_caveat request))
                 "revert requires explicit acknowledgement of app-data compatibility or migration");
  record ← on_app_manager (get_record app_id);
  current ← st_lift (active_app_revision record);
  target ← st_lift (retained_revision record revision_id);
  h ← st_get pl_installer;
  let current_doc := ok (active_revision_document h record) in
  target_doc ← st_lift (package_document_for_revision h record revision_id);
  data_transition ← plan_data app_id current_doc target_doc true;
  let diff := diff_documents h current_doc target_doc active_manifests in
  transition_id ← plan_uuid;
  mret {| tn_transition_id := transition_id; tn_app_id := app_id; tn_operation := OpRevert;
          tn_current_revision_id := Some (rv_revision_id current); tn_target_revision_id := rv_revision_id target;
          tn_target_version := rv_version target; tn_diff := diff; tn_requires_explicit_approval := true;
          tn_data_rollback_supported := bool_decide (is_Some data_transition);
          tn_data_rollback_caveat := (fun _ => "Kestral stages a declared reverse migration and restores the "
            +:+ "prior data revision if activation fails.") <$> data_transition;
          tn_data_transition := data_transition; tn_staged_id := None; tn_package_digest := None;
          tn_revision_id := Some revision_id |}.

(** The signature check of a plan. *)
Definition plan_signature_gate (trust : TrustStoreDocument) (signature : option PackageSignatureDocument)
    (package_digest app_id : string) : outcome string unit :=
  match signature with
  | Some signature =>
      state ← verify_signature trust package_digest signature app_id;
      match state with
      | SigInvalid reason => Err ("invalid package signature: " +:+ reason)
      | SigRevoked key_id _ => Err ("package signature key '" +:+ key_id +:+ "' is revoked for this package")
      | _ => Ok tt
      end
  | None => Ok tt
  end.

(** The staged package a plan is about: what [plan_managed_app_transition_with_manifests]
    checks of it. *)
Definition planned_package (h : Installer) (staged_id package_digest : string) : outcome string PackageDocument :=
  dir ← staged_dir staging_root staged_id;
  staged ← ok_or (in_staged_inspections h !! staged_id)
    "staged inspection metadata is missing; inspect the package again before transitioning";
  _ ← reject (negb (bool_decide (pi_package_digest (si_inspection staged) = package_digest)))
        "staged package digest does not match the approved digest";
  target_doc ← read_document (default (NDir []) (dk_dirs (in_disk h) !! dir));
  _ ← match structural_error target_doc with Some error => Err error | None => Ok tt end;
  _ ← plan_signature_gate (in_trust h) (si_signature staged) package_digest (pk_id target_doc);
  _ ← reject (negb (pi_host_compatible (si_inspection staged)))
        ("requires host " +:+ pk_min_host_version target_doc +:+ " or newer (this host is " +:+ HOST_VERSION +:+ ")");
  _ ← semver_error "version" (pk_version target_doc);
  Ok target_doc.

(** The transition to a staged package. *)
Definition plan_package (request : ManagedAppTransitionRequest) (active_manifests : list AppManifest) :
    plan_op ManagedAppTransitionPlan :=
  staged_id ← st_lift (ok_or (tr_staged_id request) "package-based transitions require staged_id");
  package_digest ← st_lift (ok_or (tr_package_digest request) "package-based transitions require package_digest");
  h ← st_get pl_installer;
  target_doc ← st_lift (planned_package h staged_id package_digest);
  let app_id := pk_id target_doc in
  let current_record := am_records (in_manager h) !! app_id in
  let current_doc := current_record ≫= (fun record => ok (active_revision_document h record)) in
  let current_digest := rv_package_digest <$> (current_record ≫= (fun record => ok (active_app_revision record))) in
  let version_relation := default VersionHigher
    ((fun current => compare_versions (pk_version current) (pk_version target_doc)) <$> current_doc) in
  classification ← st_lift (classify_transition (bool_decide (is_Some current_record)) version_relation current_digest
                              package_digest (tr_operation request));
  let diff := diff_documents h current_doc target_doc active_manifests in
  let reverse_migration := bool_decide (classification = OpDowngrade) in
  data_transition ← plan_data app_id current_doc target_doc reverse_migration;
  _ ← st_lift (reject (bool_decide (classification = OpDowngrade) && negb (tr_acknowledge_downgrade request))
                 "downgrade requires explicit acknowledgement");
  transition_id ← plan_uuid;
  target_revision_id ← plan_uuid;
  mret {| tn_transition_id := transition_id; tn_app_id := app_id; tn_operation := classification;
          tn_current_revision_id := ir_active_revision_id <$> current_record;
          tn_target_revision_id := target_revision_id; tn_target_version := pk_version target_doc; tn_diff := diff;
          tn_requires_explicit_approval := true; tn_data_rollback_supported := bool_decide (is_Some data_transition);
          tn_data_rollback_caveat := (fun _ => "The previous app-data revision is retained as a recoverable "
            +:+ "backup; failed activation restores it automatically.") <$> data_transition;
          tn_data_transition := data_transition; tn_staged_id := Some staged_id;
          tn_package_digest := Some package_digest; tn_revision_id := None |}.

Definition plan_managed_app_transition_with_manifests (request : ManagedAppTransitionRequest)
    (active_manifests : list AppManifest) : plan_op ManagedAppTransitionPlan :=
  plan ← (match tr_operation request with
          | OpRevert => plan_revert request active_manifests
          | _ => plan_package request active_manifests
          end);
  _ ← st_modify (fun p => set_plans (<[tn_transition_id plan := plan]>
        (btree_retain (fun _ pending => negb (bool_decide (tn_app_id pending = tn_app_id plan))) (pl_plans p))) p);
  mret plan.

Definition take_managed_app_transition_plan (transition_id : string) : plan_op ManagedAppTransitionPlan := fun p =>
  match pl_plans p !! transition_id with
  | Some plan => (Ok plan, set_plans (delete transition_id (pl_plans p)) p)
  | None => (Err ("managed-app transition '" +:+ transition_id
                  +:+ "' is missing, stale, or already applied; review the package again"), p)
  end.
End plans.

(** ** Data stays with code that understands it *)

(** The transition is one that a package declares. *)
Definition declared_by (document : PackageDocument) (source target : N) (destructive : bool) : Prop :=
  ∃ format migration, pk_data document = DataVersioned format migration /\
    {| adt_from := source; adt_to := target; adt_destructive := destructive |} ∈ adm_transitions migration.

Lemma find_transition source target_format (transitions : list AppDataTransition) transition :
  List.find (fun transition => (adt_from transition =? source)%N && (adt_to transition =? target_format)%N) transitions
    = Some transition ->
  {| adt_from := source; adt_to := target_format; adt_destructive := adt_destructive transition |} ∈ transitions.
Proof.
  intros [Hin%list_elem_of_In [<-%N.eqb_eq <-%N.eqb_eq]%andb_true_iff]%find_some. by destruct transition.
Qed.

Lemma declared_transition_Ok current target reverse_migration source target_format r :
  declared_transition (pk_data current) (pk_data target) reverse_migration source target_format = Ok r ->
  ∃ transition, r = Some transition /\ mt_source_format_version transition = Some source /\
    mt_target_format_version transition = target_format /\ mt_reverse_migration transition = reverse_migration /\
    declared_by (if reverse_migration then current else target) source target_format (mt_destructive transition).
Proof.
  unfold declared_transition. intros Hrun. apply bind_Ok_inv in Hrun as (migration & Hm & Hrun).
  apply bind_Ok_inv in Hrun as (transition & Hf%ok_or_Ok & [= <-]). apply find_transition in Hf.
  eexists. split_and!; try done. simpl.
  assert (∀ document, migration_of (pk_data document) = Some migration ->
    declared_by document source target_format (adt_destructive transition)) as Hd.
  { intros document Hdoc. destruct (pk_data document) as [|format m|] eqn:E; simplify_eq/=. exists format, migration. done. }
  destruct reverse_migration; apply Hd; [by apply ok_or_Ok in Hm|]. by destruct (migration_of (pk_data target)); simplify_eq.
Qed.

(** What a planned transition of the data promises, given the data that is there. *)
Definition data_plan_ok (persisted : option AppDataRevision) (retained_managed : bool)
    (current : option PackageDocument) (target : PackageDocument) (reverse_migration : bool)
    (planned : option ManagedAppDataTransition) : Prop :=
  match planned with
  | Some transition =>
      AppData_format_version (pk_data target) = Some (mt_target_format_version transition) /\
      mt_source_format_version transition = adr_format_version <$> persisted /\
      ∀ p, persisted = Some p -> adr_format_version p <> mt_target_format_version transition /\
        ∃ document, current = Some document /\
        declared_by (if reverse_migration then document else target) (adr_format_version p)
          (mt_target_format_version transition) (mt_destructive transition)
  | None =>
      (∀ p, persisted = Some p ->
         AppData_format_version (pk_data target) = Some (adr_format_version p) \/
         (is_host_managed (pk_data target) = true /\
          ∃ document, current = Some document /\ AppData_format_version (pk_data document) = None)) /\
      (current = None -> retained_managed = true -> is_host_managed (pk_data target) = true)
  end /\
  (∀ document, current = Some document -> is_host_managed (pk_data document) = true ->
     is_host_managed (pk_data target) = true) /\
  (is_host_managed (pk_data target) = true ->
     match current with
     | Some document => AppData_format_version (pk_data document) = None
     | None => persisted = None
     end).

Lemma host_managed_no_format data : is_host_managed data = true -> AppData_format_version data = None.
Proof. by destruct data. Qed.

Lemma versioned_transition_Ok app_id current target reverse_migration persisted retained_managed planned :
  is_host_managed (pk_data current) = false ->
  (is_host_managed (pk_data target) = true -> AppData_format_version (pk_data current) = None) ->
  versioned_transition app_id (pk_data current) (pk_data target) reverse_migration persisted = Ok planned ->
  data_plan_ok persisted retained_managed (Some current) target reverse_migration planned.
Proof.
  intros Hnot Hown. unfold versioned_transition. intros Hrun. apply bind_Ok_inv in Hrun as (source & Hsource & Hrun).
  assert (source = adr_format_version <$> persisted) as ->.
  { unfold current_format in Hsource. destruct (pk_data current) as [|format migration|]; simpl in *.
    - destruct persisted; by simplify_eq.
    - destruct persisted as [p|]; simpl in *; [|done]. destruct (negb _) eqn:E; simplify_eq.
      apply negb_false_iff, N.eqb_eq in E. by rewrite E.
    - done. }
  destruct persisted as [p|]; simpl in Hrun.
  - destruct (AppData_format_version (pk_data target)) as [target_format|] eqn:Ht; [|done].
    destruct (N.eqb_spec (adr_format_version p) target_format) as [He|Hne].
    + simplify_eq. split; [|split; [intros ? [= <-]; congruence|exact Hown]]. split; [|done]. intros q [= <-]. by left.
    + apply declared_transition_Ok in Hrun as (transition & -> & Hs & Hf & _ & Hd).
      split; [|split; [intros ? [= <-]; congruence|exact Hown]]. rewrite Hs, Hf. split_and!; try done. intros q [= <-]. eauto.
  - destruct (AppData_format_version (pk_data target)) as [target_format|] eqn:Ht; simplify_eq;
      (split; [|split; [intros ? [= <-]; congruence|exact Hown]]); simpl; split_and!; try done.
Qed.


(** ** What a review shows *)

Definition bar_free (summary : GrantRequestSummary) : Prop :=
  let bar := Ascii.ascii_of_N 124 in
  (bar ∉ chars (gs_scope_label summary)) /\ (bar ∉ chars (gs_data_scope_label summary)) /\
  (bar ∉ chars (gs_condition summary)) /\ (bar ∉ chars (gs_reason summary)) /\ (bar ∉ chars (gs_duration_label summary)).

Lemma permission_key_split summary :
  bar_free summary ->
  split (Ascii.ascii_of_N 124) (permission_key summary) =
  [gs_scope_label summary; gs_data_scope_label summary; gs_condition summary; gs_reason summary; gs_duration_label summary].
Proof.
  intros (H1 & H2 & H3 & H4 & H5). unfold permission_key.
  assert (∀ s, "|" +:+ s = String (Ascii.ascii_of_N 124) s) as Hbar by done. rewrite !Hbar.
  rewrite !split_app_sep by assumption. by rewrite split_no_sep.
Qed.

Lemma permission_key_inj a b : bar_free a -> bar_free b -> permission_key a = permission_key b -> a = b.
Proof.
  intros Ha Hb Hk. pose proof (permission_key_split a Ha) as Ea. rewrite Hk, permission_key_split in Ea by done.
  destruct a, b. by simplify_eq/=.
Qed.

Lemma filter_complement {A} (P : A -> Prop) `{∀ x, Decision (P x)} (l : list A) :
  filter (fun x => ¬ P x) l ++ filter P l ≡ₚ l.
Proof.
  induction l as [|x l IH]; [done|]. rewrite !filter_cons. destruct (decide (P x)).
  - rewrite decide_False by tauto. by rewrite <- Permutation_middle, IH.
  - rewrite decide_True by done. simpl. by rewrite IH.
Qed.

(** The review of permissions is exact. As long as no label contains the character that
    joins them, the difference between two packages lists as added exactly the requests that
    are new, as unchanged exactly those that both make, and as removed exactly those that are
    dropped; in the order of the packages, each request of the target once as often as it is
    made. *)
Theorem permission_diff_exact current target :
  Forall bar_free current -> Forall bar_free target ->
  let diff := diff_permission_sets current target in
  pd_added diff = filter (.∉ current) target /\ pd_unchanged diff = filter (.∈ current) target /\
  pd_removed diff = filter (.∉ target) current /\ pd_added diff ++ pd_unchanged diff ≡ₚ target.
Proof.
  intros Hc Ht. rewrite Forall_forall in Hc. rewrite Forall_forall in Ht. simpl.
  assert (∀ l x, (∀ y, y ∈ l -> bar_free y) -> bar_free x ->
    permission_key x ∈ (list_to_set (permission_key <$> l) : gset string) <-> x ∈ l) as Hkey.
  { intros l x Hl Hx. rewrite elem_of_list_to_set, list_elem_of_fmap. split; [|eauto].
    intros (y & Hk & Hy). apply permission_key_inj in Hk as ->; auto. }
  assert (∀ p q (l : list GrantRequestSummary) `{∀ x, Decision (q x)},
    (∀ x, x ∈ l -> p x = true <-> q x) -> List.filter p l = filter q l) as Hfilter.
  { intros p q l Hd. induction l as [|x l IH]; intros Hpq; [done|]. rewrite filter_cons. simpl.
    rewrite IH by (intros; apply Hpq; by right). specialize (Hpq x (list_elem_of_here x l)).
    destruct (p x); case_decide; naive_solver. }
  assert (pd_added (diff_permission_sets current target) = filter (.∉ current) target) as Hadd.
  { apply Hfilter. intros x Hx. rewrite negb_true_iff, bool_decide_eq_false, Hkey by auto. done. }
  assert (pd_unchanged (diff_permission_sets current target) = filter (.∈ current) target) as Hunch.
  { apply Hfilter. intros x Hx. rewrite bool_decide_eq_true, Hkey by auto. done. }
  split_and!; [exact Hadd|exact Hunch| |].
  - apply Hfilter. intros x Hx. rewrite negb_true_iff, bool_decide_eq_false, Hkey by auto. done.
  - change (pd_added (diff_permission_sets current target) ++ pd_unchanged (diff_permission_sets current target) ≡ₚ target).
    rewrite Hadd, Hunch. apply filter_complement.
Qed.

(** A difference between two requests can be lost in the labels: nothing is shown as added,
    although an approval the target no longer asks for was promised before. *)
Lemma review_hides_dropped_approval :
  ∃ current target : GrantRequest,
    gq_condition current = RequiresApproval /\ gq_condition target = Silent /\
    gq_scope current = gq_scope target /\ gq_data_scope current <> gq_data_scope target /\
    pd_added (diff_permission_sets [summarize_grant_request current] [summarize_grant_request target]) = [] /\
    pd_removed (diff_permission_sets [summarize_grant_request current] [summarize_grant_request target]) = [].
Proof.
  exists {| gq_scope := AllProviderCapabilities "files"; gq_data_scope := Resources ["a"]; gq_condition := RequiresApproval;
            gq_reason := "sync|silent|sync"; gq_duration := NonExpiring |},
    {| gq_scope := AllProviderCapabilities "files"; gq_data_scope := Resources ["a|requiresapproval|sync"];
       gq_condition := Silent; gq_reason := "sync"; gq_duration := NonExpiring |}.
  split_and!; try done; vm_compute; reflexivity.
Qed.

(** ** Classification *)

(** Which operation a package may be used for. *)
Definition operation_allowed (installed : bool) (relation : ManagedAppVersionRelation) (current_digest : option string)
    (target_digest : string) (operation : ManagedAppOperation) : Prop :=
  if installed then
    match current_digest with
    | Some digest =>
        if decide (digest = target_digest) then operation = OpReinstall
        else match relation with
             | VersionHigher => operation = OpUpdate
             | VersionLower => operation = OpDowngrade \/ operation = OpRevert
             | VersionSame => False
             end
    | None =>
        match relation with
        | VersionHigher => operation = OpUpdate
        | VersionLower => operation = OpDowngrade \/ operation = OpRevert
        | VersionSame => operation = OpReinstall \/ operation = OpVersionConflict
        end
    end
  else operation = OpInstall.

Lemma classify_transition_Ok installed relation current_digest target_digest requested granted :
  classify_transition installed relation current_digest target_digest requested = Ok granted <->
  granted = requested /\ operation_allowed installed relation current_digest target_digest requested.
Proof.
  unfold classify_transition, operation_allowed. destruct installed; simpl.
  - destruct current_digest as [digest|].
    + case_bool_decide as Hd; [rewrite decide_True by done|rewrite decide_False by done].
      * destruct requested; naive_solver.
      * destruct relation, requested; naive_solver.
    + destruct relation, requested; naive_solver.
  - destruct requested; naive_solver.
Qed.

(** ** Plans *)

Section planning.
Context `{Libraries, PackageFormat, Semver, Signatures, Uuids, ManagerCodec, AppDataCodec, ManagedStores}.
Context (staging_root : string) (data_path : string -> string).

(** What planning must not touch: the installed apps, the update in progress, every package
    directory, what was inspected, and the trusted keys. *)
Definition settled (p : Planner) :=
  let h := pl_installer p in
  (am_records (in_manager h), am_update_journal (in_manager h), dk_dirs (in_disk h), in_staged_inspections h, in_trust h).

Lemma on_app_manager_settled {A} (m : manager_op A) :
  frames (fun manager => (am_records manager, am_update_journal manager)) m ->
  frames (fun p => (settled p, pl_plans p)) (on_app_manager m).
Proof.
  intros Hm p. specialize (Hm (in_manager (pl_installer p))). unfold on_app_manager, on_installer, settled.
  destruct (m _) as [r manager]. simpl in *. by injection Hm as -> ->.
Qed.

Lemma plan_uuid_settled : frames (fun p => (settled p, pl_plans p)) plan_uuid.
Proof. done. Qed.

Lemma get_record_settled app_id : frames (fun p => (settled p, pl_plans p)) (on_app_manager (get_record app_id)).
Proof. by apply on_app_manager_settled. Qed.

Lemma plan_data_settled app_id current target reverse_migration :
  frames (fun p => (settled p, pl_plans p)) (plan_data data_path app_id current target reverse_migration).
Proof.
  apply frames_bind; [apply frames_catch|intros ?; apply frames_lift].
  apply on_app_manager_settled. intros manager. unfold on_data.
  by destruct (current_revision _ _) as [r root].
Qed.

Lemma plan_package_settled request active_manifests :
  frames (fun p => (settled p, pl_plans p)) (plan_package staging_root data_path request active_manifests).
Proof.
  unfold plan_package. repeat (apply frames_bind; [apply frames_lift || apply frames_get|intros ?]).
  apply frames_bind; [apply plan_data_settled|intros ?].
  apply frames_bind; [apply frames_lift|intros ?].
  do 2 (apply frames_bind; [apply plan_uuid_settled|intros ?]). apply frames_ret.
Qed.

Lemma plan_revert_settled request active_manifests :
  frames (fun p => (settled p, pl_plans p)) (plan_revert data_path request active_manifests).
Proof.
  unfold plan_revert. do 3 (apply frames_bind; [apply frames_lift|intros ?]).
  apply frames_bind; [apply get_record_settled|intros ?].
  repeat (apply frames_bind; [apply frames_lift || apply frames_get|intros ?]).
  apply frames_bind; [apply plan_data_settled|intros ?].
  apply frames_bind; [apply plan_uuid_settled|intros ?]. apply frames_ret.
Qed.

(** The invariant of the pending plans: each is kept under its own id, and no app has two. *)
Definition plans_wf (plans : gmap string ManagedAppTransitionPlan) : Prop :=
  (∀ id plan, plans !! id = Some plan -> tn_transition_id plan = id) /\
  (∀ id1 id2 plan1 plan2, plans !! id1 = Some plan1 -> plans !! id2 = Some plan2 ->
     tn_app_id plan1 = tn_app_id plan2 -> id1 = id2).

Definition replace_plan (plan : ManagedAppTransitionPlan) (plans : gmap string ManagedAppTransitionPlan) :=
  <[tn_transition_id plan := plan]>
    (btree_retain (fun _ pending => negb (bool_decide (tn_app_id pending = tn_app_id plan))) plans).

Lemma replace_plan_lookup plan plans id found :
  replace_plan plan plans !! id = Some found ->
  (id = tn_transition_id plan /\ found = plan) \/
  (id <> tn_transition_id plan /\ plans !! id = Some found /\ tn_app_id found <> tn_app_id plan).
Proof.
  unfold replace_plan. rewrite lookup_insert_Some, lookup_btree_retain. intros [[-> ->]|[Hne Hl]]; [by left|right].
  split; [done|]. destruct (plans !! id) as [p|]; simpl in Hl; [|done]. case_bool_decide; simpl in Hl; [done|].
  injection Hl as ->. done.
Qed.

Lemma replace_plan_wf plan plans : plans_wf plans -> plans_wf (replace_plan plan plans).
Proof.
  intros [Hkey Hone]. split.
  - intros id found [[-> ->]|(_ & Hl & _)]%replace_plan_lookup; [done|by apply Hkey].
  - intros id1 id2 plan1 plan2 L1%replace_plan_lookup L2%replace_plan_lookup Ha.
    destruct L1 as [[-> ->]|(_ & L1 & Hne1)], L2 as [[-> ->]|(_ & L2 & Hne2)]; [done|congruence|congruence|].
    by eapply Hone.
Qed.

Lemma plan_transition_runs request active_manifests p :
  let '(r, p') := plan_managed_app_transition_with_manifests staging_root data_path request active_manifests p in
  settled p' = settled p /\ pl_plans p' = match r with Ok plan => replace_plan plan (pl_plans p) | _ => pl_plans p end.
Proof.
  unfold plan_managed_app_transition_with_manifests.
  set (m := match tr_operation request with OpRevert => _ | _ => _ end).
  assert (frames (fun p => (settled p, pl_plans p)) m) as Hm
    by (unfold m; destruct (tr_operation request); first [apply plan_package_settled|apply plan_revert_settled]).
  specialize (Hm p). unfold mbind, st_bind. apply pair_equal_spec in Hm as [L1 L2].
  destruct (m p) as [[plan|e|msg] p1]; cbn in L1, L2 |- *; (split; [exact L1|]); by rewrite L2.
Qed.

(** At most one review of an app is open. Pending plans are kept under their own ids, and
    an app has no two of them: a new plan drops the app's older one, taking a plan removes it,
    and a failed call changes none. Planning itself changes nothing else: not the installed
    apps, a journal, a package directory, an inspection or the trusted keys, whatever its
    outcome. *)
Theorem one_open_review request active_manifests transition_id p :
  plans_wf (pl_plans p) ->
  let '(r, planned) := plan_managed_app_transition_with_manifests staging_root data_path request active_manifests p in
  let '(t, taken) := take_managed_app_transition_plan transition_id p in
  plans_wf (pl_plans planned) /\ settled planned = settled p /\
  pl_plans planned = match r with Ok plan => replace_plan plan (pl_plans p) | _ => pl_plans p end /\
  plans_wf (pl_plans taken) /\ settled taken = settled p /\
  match t with
  | Ok plan => pl_plans p !! transition_id = Some plan /\ tn_transition_id plan = transition_id /\
      (∀ id other, pl_plans taken !! id = Some other -> tn_app_id other <> tn_app_id plan)
  | Err _ => pl_plans p !! transition_id = None /\ taken = p
  | Panic _ => False
  end.
Proof.
  intros Hwf. pose proof (plan_transition_runs request active_manifests p) as Hplan.
  destruct (plan_managed_app_transition_with_manifests _ _ _ _ _) as [r planned]. destruct Hplan as [Hset Hplans].
  assert (plans_wf (pl_plans planned)) as Hwf'
    by (rewrite Hplans; destruct r; [by apply replace_plan_wf|done|done]).
  destruct Hwf as [Hkey Hone]. unfold take_managed_app_transition_plan.
  destruct (pl_plans p !! transition_id) as [plan|] eqn:Hl; simpl; [|by split_and!].
  split; [done|]. split; [done|]. split; [done|]. split_and!; try done; [split| |].
  - intros id found [_ Hf]%lookup_delete_Some. by apply Hkey.
  - intros id1 id2 plan1 plan2 [_ L1]%lookup_delete_Some [_ L2]%lookup_delete_Some. by apply (Hone id1 id2 plan1 plan2).
  - by apply Hkey.
  - intros id other [Hne Ho]%lookup_delete_Some Ha. by apply Hne, (Hone transition_id id plan other).
Qed.

(** ** What a plan rests on *)

(** The data of the app that is active now. *)
Definition active_data (h : Installer) (app_id : string) : outcome string (option AppDataRevision) :=
  (on_data app_id (current_revision (data_path app_id)) (in_manager h)).1.

(** The difference and the data migration of a plan are those between two packages. *)
Definition compares (h : Installer) (active_manifests : list AppManifest) (plan : ManagedAppTransitionPlan)
    (current : option PackageDocument) (target : PackageDocument) (reverse_migration : bool) : Prop :=
  tn_diff plan = diff_documents h current target active_manifests /\
  tn_data_rollback_supported plan = bool_decide (is_Some (tn_data_transition plan)) /\
  plan_data_transition (active_data h (tn_app_id plan)) (store_exists (tn_app_id plan))
    (store_validate_contract (tn_app_id plan)) (tn_app_id plan) current target reverse_migration
    = Ok (tn_data_transition plan).

(** A plan to go back to a retained revision. *)
Definition reverts (h : Installer) (active_manifests : list AppManifest) (request : ManagedAppTransitionRequest)
    (plan : ManagedAppTransitionPlan) : Prop :=
  tr_operation request = OpRevert /\ tn_operation plan = OpRevert /\ tr_acknowledge_revert_data_caveat request = true /\
  tn_package_digest plan = None /\
  ∃ record current target document,
    tr_app_id request = Some (tn_app_id plan) /\ am_records (in_manager h) !! tn_app_id plan = Some record /\
    active_app_revision record = Ok current /\ tn_current_revision_id plan = Some (rv_revision_id current) /\
    target ∈ ir_revisions record /\ rv_revision_id target = tn_target_revision_id plan /\
    tn_target_version plan = rv_version target /\
    tn_revision_id plan = Some (tn_target_revision_id plan) /\ revision_document h target = Ok document /\
    compares h active_manifests plan (ok (active_revision_document h record)) document true.

(** A plan to put a staged package in place. *)
Definition replaces (h : Installer) (active_manifests : list AppManifest) (request : ManagedAppTransitionRequest)
    (plan : ManagedAppTransitionPlan) : Prop :=
  let record := am_records (in_manager h) !! tn_app_id plan in
  let current_doc := record ≫= (fun record => ok (active_revision_document h record)) in
  ∃ staged_id digest staged root document,
    tr_staged_id request = Some staged_id /\ tn_staged_id plan = Some staged_id /\
    tr_package_digest request = Some digest /\ tn_package_digest plan = Some digest /\
    in_staged_inspections h !! staged_id = Some staged /\ pi_package_digest (si_inspection staged) = digest /\
    dk_dirs (in_disk h) !! join_dir staging_root staged_id = Some root /\ read_document root = Ok document /\
    structural_error document = None /\ pi_host_compatible (si_inspection staged) = true /\
    gate_passed (in_trust h) staged digest (pk_id document) /\ tn_app_id plan = pk_id document /\
    tn_target_version plan = pk_version document /\
    tn_operation plan = tr_operation request /\
    operation_allowed (bool_decide (is_Some record))
      (default VersionHigher ((fun current => compare_versions (pk_version current) (pk_version document)) <$> current_doc))
      (rv_package_digest <$> (record ≫= (fun record => ok (active_app_revision record)))) digest (tn_operation plan) /\
    (tn_operation plan = OpDowngrade -> tr_acknowledge_downgrade request = true) /\
    tn_current_revision_id plan = ir_active_revision_id <$> record /\
    compares h active_manifests plan current_doc document (bool_decide (tn_operation plan = OpDowngrade)).

Lemma plan_data_Ok app_id current target reverse_migration p planned p' :
  plan_data data_path app_id current target reverse_migration p = (Ok planned, p') ->
  plan_data_transition (active_data (pl_installer p) app_id) (store_exists app_id) (store_validate_contract app_id)
    app_id current target reverse_migration = Ok planned.
Proof.
  unfold plan_data, active_data. intros (persisted & p1 & Hc & [Hp _]%st_lift_inv)%st_bind_Ok_inv.
  unfold st_catch, on_app_manager, on_installer in Hc.
  destruct (on_data _ _ _) as [r manager]. destruct r; [injection Hc as <- _|injection Hc as <- _|discriminate]; exact Hp.
Qed.

Lemma get_record_run app_id p r p' :
  on_app_manager (get_record app_id) p = (r, p') ->
  p' = p /\ r = ok_or (am_records (in_manager (pl_installer p)) !! app_id) ("'" +:+ app_id +:+ "' is not a managed app").
Proof. destruct p as [[] plans]. unfold on_app_manager, on_installer, get_record. simpl. by intros [= <- <-]. Qed.

Lemma find_revision_Ok record revision_id revision :
  retained_revision record revision_id = Ok revision -> revision ∈ ir_revisions record /\ rv_revision_id revision = revision_id.
Proof. unfold retained_revision, find_revision. intros [Hin Hb%bool_decide_eq_true]%ok_or_Ok%find_Some_elem. done. Qed.

Lemma plan_signature_gate_Ok trust staged digest app_id :
  plan_signature_gate trust (si_signature staged) digest app_id = Ok tt -> gate_passed trust staged digest app_id.
Proof.
  intros Hrun signature Hsig. rewrite Hsig in Hrun. apply bind_Ok_inv in Hrun as (state & Hv & Hrun).
  exists state. split; [done|]. by destruct state.
Qed.

Lemma planned_package_Ok h staged_id digest document :
  planned_package staging_root h staged_id digest = Ok document ->
  ∃ staged root, in_staged_inspections h !! staged_id = Some staged /\
    pi_package_digest (si_inspection staged) = digest /\
    dk_dirs (in_disk h) !! join_dir staging_root staged_id = Some root /\ read_document root = Ok document /\
    structural_error document = None /\ pi_host_compatible (si_inspection staged) = true /\
    gate_passed (in_trust h) staged digest (pk_id document).
Proof.
  unfold planned_package, staged_dir. destruct (parse_str_ok staged_id); [|done]. simpl. intros Hrun.
  apply bind_Ok_inv in Hrun as (staged & Hst%ok_or_Ok & Hrun). apply bind_unit_Ok in Hrun as [Hd%reject_not_Ok Hrun].
  apply bind_Ok_inv in Hrun as (document' & Hdoc & Hrun). apply bind_unit_Ok in Hrun as [Hs Hrun].
  apply bind_unit_Ok in Hrun as [Hg%plan_signature_gate_Ok Hrun].
  apply bind_unit_Ok in Hrun as [Hc%reject_Ok%negb_false_iff Hrun]. apply bind_Ok_inv in Hrun as ([] & _ & [= ->]).
  destruct (dk_dirs (in_disk h) !! _) as [root|] eqn:Hroot; simpl in Hdoc; [|by apply read_document_empty in Hdoc].
  exists staged, root. split_and!; try done. by destruct (structural_error document).
Qed.

Lemma plan_revert_Ok request active_manifests p plan p' :
  tr_operation request = OpRevert ->
  plan_revert data_path request active_manifests p = (Ok plan, p') ->
  tn_requires_explicit_approval plan = true /\ reverts (pl_installer p) active_manifests request plan.
Proof.
  intros Hop Hrun. unfold plan_revert in Hrun.
  apply st_bind_Ok_inv in Hrun as (app_id & ? & [Happ%ok_or_Ok <-]%st_lift_inv & Hrun).
  apply st_bind_Ok_inv in Hrun as (revision_id & ? & [Hrev%ok_or_Ok <-]%st_lift_inv & Hrun).
  apply st_bind_Ok_inv in Hrun as ([] & ? & [Hack%reject_Ok%negb_false_iff <-]%st_lift_inv & Hrun).
  apply st_bind_Ok_inv in Hrun as (record & ? & [-> Hrec%eq_sym%ok_or_Ok]%get_record_run & Hrun).
  apply st_bind_Ok_inv in Hrun as (current & ? & [Hcur <-]%st_lift_inv & Hrun).
  apply st_bind_Ok_inv in Hrun as (target & ? & [Htarget <-]%st_lift_inv & Hrun).
  apply st_bind_Ok_inv in Hrun as (h & ? & [= <- <-] & Hrun).
  apply st_bind_Ok_inv in Hrun as (document & ? & [Hdoc <-]%st_lift_inv & Hrun).
  apply st_bind_Ok_inv in Hrun as (data_transition & ? & Hdata%plan_data_Ok & Hrun).
  apply st_bind_Ok_inv in Hrun as (transition_id & ? & _ & [= <- <-]).
  pose proof (find_revision_Ok _ _ _ Htarget) as [Hin Hid]. split; [done|]. unfold reverts, compares. simpl.
  split_and!; try done. unfold package_document_for_revision in Hdoc. rewrite Htarget in Hdoc.
  exists record, current, target, document. rewrite <- Hid. split_and!; try done.
Qed.

Lemma plan_package_Ok request active_manifests p plan p' :
  plan_package staging_root data_path request active_manifests p = (Ok plan, p') ->
  tn_requires_explicit_approval plan = true /\ replaces (pl_installer p) active_manifests request plan.
Proof.
  intros Hrun. unfold plan_package in Hrun.
  apply st_bind_Ok_inv in Hrun as (staged_id & ? & [Hst%ok_or_Ok <-]%st_lift_inv & Hrun).
  apply st_bind_Ok_inv in Hrun as (digest & ? & [Hdig%ok_or_Ok <-]%st_lift_inv & Hrun).
  apply st_bind_Ok_inv in Hrun as (h & ? & [= <- <-] & Hrun).
  apply st_bind_Ok_inv in Hrun as (document & ? & [Hpack%planned_package_Ok <-]%st_lift_inv & Hrun).
  apply st_bind_Ok_inv in Hrun as (operation & ? & [[-> Hop]%classify_transition_Ok <-]%st_lift_inv & Hrun).
  apply st_bind_Ok_inv in Hrun as (data_transition & ? & Hdata%plan_data_Ok & Hrun).
  apply st_bind_Ok_inv in Hrun as ([] & ? & [Hack%reject_Ok <-]%st_lift_inv & Hrun).
  apply st_bind_Ok_inv in Hrun as (transition_id & ? & _ & Hrun).
  apply st_bind_Ok_inv in Hrun as (target_revision_id & ? & _ & [= <- <-]).
  destruct Hpack as (staged & root & Hpack). split; [done|]. unfold replaces, compares. simpl.
  exists staged_id, digest, staged, root, document. split_and!; try apply Hpack; try done.
  intros Hd. rewrite bool_decide_eq_true_2 in Hack by done. by apply negb_false_iff in Hack.
Qed.

(** C15: A plan stands on what is installed and what was inspected. When planning succeeds, the
    plan waits for an explicit approval under its own id. If it is a revert, the caveat was
    acknowledged, the app is installed, and its target is one of the retained revisions, whose
    package is readable. Otherwise the package is staged, with the digest that was inspected
    and asked for; it passes the structural check, suits this host and its signature gate; the
    operation is the one asked for, allowed for the versions and digests at hand, and a
    downgrade was acknowledged. In both cases the difference shown and the data migration are
    those between the active package and the target. *)
Theorem plan_stands_on_state request active_manifests p plan p' :
  plan_managed_app_transition_with_manifests staging_root data_path request active_manifests p = (Ok plan, p') ->
  tn_requires_explicit_approval plan = true /\ pl_plans p' !! tn_transition_id plan = Some plan /\
  if decide (tr_operation request = OpRevert) then reverts (pl_installer p) active_manifests request plan
  else replaces (pl_installer p) active_manifests request plan.
Proof.
  intros Hrun. pose proof (plan_transition_runs request active_manifests p) as Hplans. rewrite Hrun in Hplans.
  unfold plan_managed_app_transition_with_manifests in Hrun.
  apply st_bind_Ok_inv in Hrun as (plan' & p1 & Hplan & Hrun). apply st_bind_Ok_inv in Hrun as ([] & p2 & _ & [= -> ->]).
  assert (pl_plans p' !! tn_transition_id plan = Some plan) as Hat
    by (destruct Hplans as [_ ->]; apply lookup_insert_eq).
  case_decide as Hop; [rewrite Hop in Hplan; apply plan_revert_Ok in Hplan as [Ha Hr]; done|].
  destruct (tr_operation request) eqn:E; try done; apply plan_package_Ok in Hplan as [Ha Hr]; done.
Qed.
End planning.
