(* ===== verification/InstallWitnesses.v ===== *)
(** * Concrete installations

    A package directory that changes or not, and an installer, to which the theorems on
    inspection, staging and installation apply; and two runs that show what inspection and
    installation do not check. *)

From S2P Require Import Prelude RustStd RustText Json Types Errors Grants Manifest AtomicJson Platform Registry Packages PublisherTrust SurfaceUi PackageChecks PackageInspect PackageStaging.
From S2P Require Import AppData UpdateJournal AppManager AppInstall TransitionPlans HostDemo ManagedDemo PackageWitnesses.

(** ** Packages *)

Definition index_page : string := "<p>notes</p>".

Definition site_body (requests : list GrantRequest) : PackageManifestBody := {|
  pm_capabilities := [];
  pm_surfaces := [{| ps_name := "main"; ps_kind := Panel; ps_title := "Notes"; ps_description := "Notes"; ps_intents := [];
    ps_ui := Some {| psu_entry := "ui/index.html"; psu_csp := None; psu_connect_src := ["https://example.com"] |} |}];
  pm_agents := []; pm_skills := []; pm_assistant_profiles := []; pm_automations := []; pm_connectors := [];
  pm_config_declarations := []; pm_artifact_types := []; pm_extension_points := []; pm_extension_contributions := [];
  pm_grant_requests := requests; pm_event_subscriptions := [] |}.

Definition site_document (publisher : option Publisher) (requests : list GrantRequest) : PackageDocument := {|
  pk_format_version := 1; pk_id := notes_id; pk_version := "1.0.0"; pk_display_name := "Notes";
  pk_description := "Notes"; pk_publisher := publisher; pk_license := None; pk_icon := None; pk_theme_colors := [];
  pk_min_host_version := "0.1.0"; pk_manifest := site_body requests; pk_consumer_grant_requests := [];
  pk_backend := BackendNone; pk_data := DataNone;
  pk_integrity := {| in_algorithm := "sha256"; in_assets := [("ui/index.html", "sha256-" +:+ sha256_hex index_page)] |} |}.

Definition everything : GrantRequest :=
  {| gq_scope := AllProviderCapabilities "com.example.files"; gq_data_scope := AllResources; gq_condition := Silent;
     gq_reason := "sync"; gq_duration := NonExpiring |}.

Definition named_key : Publisher := {| pb_name := "Ann"; pb_homepage := None; pb_key_id := Some "ed25519:ann" |}.

(** The text of [app.json] names one of three documents. *)
#[export] Instance demo_format : PackageFormat := {
  value_from_str s := inr (VString s);
  document_from_value v :=
    match v with
    | VString "plain" => inr (site_document None [])
    | VString "greedy" => inr (site_document None [everything])
    | VString "named" => inr (site_document (Some named_key) [])
    | _ => inl "missing field `id`"
    end;
  signature_from_value _ := inl "missing field `algorithm`";
  app_schema := [];
  standard_encode := id;
  package_url s :=
    if starts_with "https://" s
    then Some {| url_scheme := "https"; url_username := EmptyString; url_password := None; url_query := None;
                 url_fragment := None; url_path := "/"; url_host := Some "example.com" |}
    else None;
}.

Definition site (document : string) : Node :=
  NDir [("app.json", NFile document); ("ui", NDir [("index.html", NFile index_page)])].

Definition no_trust : TrustStoreDocument := {| td_version := 1; td_entries := [] |}.

(** ** Inspection *)

Definition plain_inspection : outcome string PackageInspection := inspect_with_trust (site "plain") no_trust.

Lemma installable_spec_witness :
  ∃ inspection document, plain_inspection = Ok inspection /\ pi_installable inspection = true /\
    PackageInspect.read_document (site "plain") = Ok document /\
    structural_error document = None /\ assets_intact (site "plain") document.
Proof.
  assert (∃ i, plain_inspection = Ok i /\ pi_installable i = true) as (i & Hi & Hinst)
    by (vm_compute; eexists; split; reflexivity).
  destruct (installable_spec (site "plain") no_trust i Hi) as (document & signature & minimum & host & Hd & _ & _ & _ & _ & Hiff).
  exists i, document. destruct (proj1 Hiff Hinst) as (Hs & Ha & _). split_and!; assumption.
Defined.

Lemma translate_sound_witness :
  ∃ translated bundle, translate (site "plain") (site_document None []) = Ok translated /\
    tp_ui_bundles translated = [("main", bundle)] /\ su_html bundle = index_page /\ host_policy ["https://example.com"] bundle.
Proof.
  assert (∃ t, translate (site "plain") (site_document None []) = Ok t) as [t Ht] by (vm_compute; eexists; reflexivity).
  assert (∃ b, tp_ui_bundles t = [("main", b)]) as [b Hb] by (vm_compute in Ht; injection Ht as <-; eexists; reflexivity).
  exists t, b. split; [exact Ht|]. split; [exact Hb|].
  destruct (translate_sound (site "plain") (site_document None []) t Ht) as (_ & _ & _ & _ & _ & _ & _ & Hall).
  destruct (Hall "main" b) as (_ & surface & ui & Hsurface & _ & Hui & _ & _ & Hhtml & _ & Hpolicy); [rewrite Hb; by left|].
  apply list_elem_of_singleton in Hsurface. rewrite Hsurface in Hui. injection Hui as Hui. rewrite <- Hui in Hhtml, Hpolicy.
  split; [|exact Hpolicy]. vm_compute in Hhtml. injection Hhtml as Hhtml. symmetry. exact Hhtml.
Defined.

(** ** Staging and copying *)

Definition still (document : string) : Medium := {| me_source := fun _ => site document; me_fault := fun _ => None |}.

Definition no_dirs : Disk := {| dk_clock := 0; dk_dirs := ∅; dk_uuids := 0 |}.

Definition staging_run (medium : Medium) : outcome string PackageInspection * Disk :=
  stage_and_inspect_with_trust medium "/staging" no_trust no_dirs.

Lemma pair_of {A B} (p : A * B) : p = (p.1, p.2).
Proof. by destruct p. Qed.

Lemma staging_pins_package_witness :
  ∃ inspection dir tree, (staging_run (still "plain")).1 = Ok inspection /\
    dk_dirs (staging_run (still "plain")).2 = {[dir := tree]} /\
    directory_digest tree = Ok (pi_package_digest inspection).
Proof.
  assert (∃ i, (staging_run (still "plain")).1 = Ok i) as [i Hi] by (vm_compute; eexists; reflexivity).
  destruct (staging_pins_package (still "plain") "/staging" no_trust no_dirs _ _ (pair_of (staging_run (still "plain"))))
    as [(a & dir & tree & Ha & _ & Hd & (j & k & document & signature & _ & _ & Hst))|[Hr _]].
  - exists a, dir, tree. split; [exact Ha|]. split; [exact Hd|]. apply Hst.
  - destruct (Hr i Hi).
Defined.

Definition copy_run (digest : string) : outcome string unit * Disk :=
  copy_verified_package (still "plain") "/apps/notes" digest no_dirs.

Lemma one_package files1 files2 root : package_files root files1 -> package_files root files2 -> files1 = files2.
Proof. intros (d & s & E1 & E2 & E3) (d' & s' & F1 & F2 & F3). congruence. Qed.

(** The files a package directory has, computed. *)
Definition files_of (root : Node) : outcome string (list (string * string)) :=
  document ← PackageInspect.read_document root;
  declared ← declared_paths document;
  read_files root (btree_elements declared).

Lemma files_of_spec root files : package_files root files -> files_of root = Ok files.
Proof. intros (d & s & E1 & E2 & E3). unfold files_of. rewrite E1. simpl. rewrite E2. done. Qed.

Lemma approved_bytes_are_installed_witness :
  ∃ inspection staged installed, (staging_run (still "plain")).1 = Ok inspection /\
    (copy_run (pi_package_digest inspection)).1 = Ok tt /\
    dk_dirs (copy_run (pi_package_digest inspection)).2 = {["/apps/notes" := installed]} /\
    same_package staged installed.
Proof.
  destruct (staging_run (still "plain")) as [r d1] eqn:Erun.
  assert (∃ i, r = Ok i /\ (copy_run (pi_package_digest i)).1 = Ok tt /\
    dk_dirs d1 !! join_dir "/staging" (pi_staged_id i) = Some (site "plain")) as (i & -> & Hc & Hs).
  { vm_compute in Erun. injection Erun as <- <-. eexists. split; [reflexivity|]. split; vm_compute; reflexivity. }
  destruct (copy_run (pi_package_digest i)) as [r3 d3] eqn:Ecopy. simpl in Hc. subst r3.
  destruct (approved_bytes_are_installed "/staging" no_trust (still "plain") (still "plain") no_dirs d1 no_dirs i
              "/apps/notes" (Ok tt) d3 Erun Ecopy) as (staged & Hst & Hor).
  assert (staged = site "plain") as -> by congruence.
  destruct Hor as [(installed & _ & Hd & Hsame)|[Hr _]]; [|by destruct Hr].
  exists i, (site "plain"), installed. split; [reflexivity|]. rewrite Ecopy. split; [reflexivity|]. split; [exact Hd|]. apply Hsame.
  assert (installed = site "plain") as ->.
  { assert (dk_dirs d3 !! "/apps/notes" = Some (site "plain")) as Hl.
    { transitivity (dk_dirs (copy_run (pi_package_digest i)).2 !! "/apps/notes"); [by rewrite Ecopy|].
      vm_compute in Erun. injection Erun as <- _. vm_compute. reflexivity. }
    rewrite Hd in Hl. simpl in Hl. rewrite lookup_insert_eq in Hl. by injection Hl. }
  intros files1 files2 H1 H2. assert (files1 = files2) as <- by (by eapply one_package). split; [|done].
  apply files_of_spec in H1. vm_compute in H1. injection H1 as <-. repeat constructor.
Defined.

(** ** Installing *)

Definition fresh_manager : AppManager := {|
  am_store_path := None; am_journal_path := None; am_records := ∅; am_update_journal := None; am_failures := ∅;
  am_fs := no_files; am_data := ∅ |}.

Definition fresh_installer : Installer := {|
  in_disk := no_dirs; in_manager := fresh_manager; in_staged_inspections := ∅; in_trust := no_trust |}.

Definition inspected (medium : Medium) : outcome string PackageInspection * Installer :=
  inspect false false "/staging" medium fresh_installer.

Definition install_run (medium : Medium) : outcome string InstallRecord * Installer :=
  match inspected medium with
  | (Ok inspection, h) =>
      install_record "/staging" "/apps" (fun _ => None) (pi_staged_id inspection) (pi_package_digest inspection) "today" h
  | (Err error, h) => (Err error, h)
  | (Panic msg, h) => (Panic msg, h)
  end.

Lemma installation_is_approved_witness :
  ∃ record payload, (install_run (still "plain")).1 = Ok record /\
    am_records (in_manager (install_run (still "plain")).2) = {[notes_id := record]} /\
    is_Some (dk_dirs (in_disk (install_run (still "plain")).2) !! payload).
Proof.
  destruct (inspected (still "plain")) as [ri h] eqn:Einspect.
  assert (∃ i, ri = Ok i) as [i ->] by (vm_compute in Einspect; injection Einspect as <- _; eexists; reflexivity).
  assert (install_run (still "plain") = install_record "/staging" "/apps" (fun _ => None) (pi_staged_id i)
            (pi_package_digest i) "today" h) as Erun by (unfold install_run; rewrite Einspect; reflexivity).
  assert (am_records (in_manager h) = ∅) as Hnone by (vm_compute in Einspect; injection Einspect as _ <-; reflexivity).
  assert (∃ r, (install_run (still "plain")).1 = Ok r) as [record Hr] by (vm_compute; eexists; reflexivity).
  destruct (installation_is_approved "/staging" "/apps" (fun _ => None) (pi_staged_id i) (pi_package_digest i) "today" h
              record (install_run (still "plain")).2) as
    (staged & root & document & revision & payload & _ & _ & _ & _ & _ & _ & _ & _ & Hrec & Hrecs & _ & Hpay & _).
  { rewrite <- Erun, <- Hr. apply pair_of. }
  exists record, (rv_payload_dir revision). split; [exact Hr|]. split; [|rewrite Hpay; eexists; reflexivity].
  rewrite Hrecs, Hnone. assert (ir_id record = notes_id) as Hid.
  { vm_compute in Hr. injection Hr as <-. reflexivity. }
  rewrite Hrec in Hid. simpl in Hid. rewrite Hid. reflexivity.
Defined.

(** ** Planning a transition *)

(** No app has host-managed data, and the store takes every contract. *)
#[export] Instance demo_stores : ManagedStores := {
  store_exists _ := false;
  store_validate_contract _ _ := Ok tt;
}.

Definition app_data_path (app_id : string) : string := "/data/" +:+ app_id.

(** The package is installed, and inspected once more. *)
Definition reinspected : outcome string PackageInspection * Installer :=
  inspect false false "/staging" (still "plain") (install_run (still "plain")).2.

Definition reinstall_request (inspection : PackageInspection) : ManagedAppTransitionRequest := {|
  tr_operation := OpReinstall; tr_staged_id := Some (pi_staged_id inspection);
  tr_package_digest := Some (pi_package_digest inspection); tr_app_id := None; tr_revision_id := None;
  tr_acknowledge_downgrade := false; tr_acknowledge_revert_data_caveat := false |}.

Definition plan_run (i : PackageInspection) (h : Installer) : outcome string ManagedAppTransitionPlan * Planner :=
  plan_managed_app_transition_with_manifests "/staging" app_data_path (reinstall_request i) []
    {| pl_installer := h; pl_plans := ∅ |}.

Definition reviewed : outcome string ManagedAppTransitionPlan * Planner :=
  match reinspected with
  | (Ok i, h) => plan_run i h
  | (Err error, h) => (Err error, {| pl_installer := h; pl_plans := ∅ |})
  | (Panic msg, h) => (Panic msg, {| pl_installer := h; pl_plans := ∅ |})
  end.

Lemma plan_stands_on_state_witness :
  ∃ plan record, reviewed.1 = Ok plan /\ tn_operation plan = OpReinstall /\
    am_records (in_manager reinspected.2) !! tn_app_id plan = Some record /\
    tn_current_revision_id plan = Some (ir_active_revision_id record) /\ tn_data_transition plan = None.
Proof.
  destruct reinspected as [ri h] eqn:Einspect.
  assert (∃ i, ri = Ok i) as [i ->] by (vm_compute in Einspect; injection Einspect as <- _; eexists; reflexivity).
  assert (reviewed = plan_run i h) as Erun by (unfold reviewed; rewrite Einspect; reflexivity).
  assert (∃ plan, reviewed.1 = Ok plan /\ tn_operation plan = OpReinstall /\ tn_data_transition plan = None /\
    is_Some (am_records (in_manager reinspected.2) !! tn_app_id plan)) as (plan & Hp & Hop & Hdata & [record Hrec])
    by (vm_compute; eexists; split_and!; [reflexivity..|eexists; reflexivity]).
  destruct (plan_stands_on_state "/staging" app_data_path (reinstall_request i) []
    {| pl_installer := h; pl_plans := ∅ |} plan reviewed.2) as (_ & _ & Hstands).
  { fold (plan_run i h). rewrite <- Erun, <- Hp. apply pair_of. }
  destruct Hstands as (sid & digest & staged & root & document & Hstands). rewrite Einspect in Hrec.
  exists plan, record. split; [exact Hp|]. split; [exact Hop|]. split; [exact Hrec|]. split; [|exact Hdata].
  destruct Hstands as (_ & _ & _ & _ & _ & _ & _ & _ & _ & _ & _ & _ & _ & _ & _ & _ & Hcur & _).
  simpl in Hrec, Hcur |- *. rewrite Hcur, Hrec. reflexivity.
Defined.

Lemma one_open_review_witness :
  ∃ i plan, reinspected.1 = Ok i /\ (plan_run i reinspected.2).1 = Ok plan /\
    pl_plans (plan_run i reinspected.2).2 = {[tn_transition_id plan := plan]} /\
    (take_managed_app_transition_plan "none" {| pl_installer := reinspected.2; pl_plans := ∅ |}).1
      = Err "managed-app transition 'none' is missing, stale, or already applied; review the package again".
Proof.
  destruct reinspected as [ri h] eqn:Einspect.
  assert (∃ i, ri = Ok i) as [i ->] by (vm_compute in Einspect; injection Einspect as <- _; eexists; reflexivity).
  assert (∃ plan, (plan_run i h).1 = Ok plan) as [plan Hp]
    by (vm_compute in Einspect; injection Einspect as <- <-; vm_compute; eexists; reflexivity).
  exists i, plan. cbn [fst snd]. split; [reflexivity|]. split; [exact Hp|]. split; [|reflexivity].
  pose proof (one_open_review "/staging" app_data_path (reinstall_request i) [] "none"
    {| pl_installer := h; pl_plans := ∅ |}) as Hone. cbv beta zeta in Hone. fold (plan_run i h) in Hone.
  destruct (plan_run i h) as [r planned]. simpl in Hp. subst r.
  destruct Hone as (_ & _ & Hplans & _); [split; [intros ? ? Hl|intros ? ? ? ? Hl]; destruct (lookup_empty_Some (K := string) _ _ Hl)|].
  cbn [snd]. rewrite Hplans. reflexivity.
Defined.

(** *** Data and permissions *)

Definition data_document (data : AppData) : PackageDocument :=
  let document := site_document None [] in {|
  pk_format_version := pk_format_version document; pk_id := pk_id document; pk_version := pk_version document;
  pk_display_name := pk_display_name document; pk_description := pk_description document;
  pk_publisher := pk_publisher document; pk_license := pk_license document; pk_icon := pk_icon document;
  pk_theme_colors := pk_theme_colors document; pk_min_host_version := pk_min_host_version document;
  pk_manifest := pk_manifest document; pk_consumer_grant_requests := pk_consumer_grant_requests document;
  pk_backend := pk_backend document; pk_data := data; pk_integrity := pk_integrity document |}.

Definition migration (transitions : list AppDataTransition) : AppDataMigration := {|
  adm_protocol_version := 1; adm_command := "bun"; adm_entry := "migrate.js"; adm_args := [];
  adm_transitions := transitions |}.

Definition first_format : PackageDocument :=
  data_document (DataVersioned 1 (migration [])).
Definition second_format : PackageDocument :=
  data_document (DataVersioned 2 (migration [{| adt_from := 1; adt_to := 2; adt_destructive := true |}])).
Definition first_data : AppDataRevision :=
  {| adr_revision_id := "r1"; adr_format_version := 1; adr_package_revision_id := "p1"; adr_created_at := "today" |}.


Definition noted : GrantRequest :=
  {| gq_scope := AllProviderCapabilities "com.example.files"; gq_data_scope := AllResources; gq_condition := Notify;
     gq_reason := "sync"; gq_duration := NonExpiring |}.

Lemma permission_diff_exact_witness :
  pd_added (diff_permission_sets [summarize_grant_request noted]
             [summarize_grant_request noted; summarize_grant_request everything]) = [summarize_grant_request everything].
Proof.
  assert (Forall bar_free [summarize_grant_request noted; summarize_grant_request everything]) as Hfree.
  { repeat constructor; apply (bool_decide_unpack _); vm_compute; exact I. }
  destruct (permission_diff_exact [summarize_grant_request noted]
             [summarize_grant_request noted; summarize_grant_request everything]) as (Hadd & _);
    [inversion Hfree; by constructor|exact Hfree|]. rewrite Hadd. reflexivity.
Defined.

(** ** What is not checked *)

(** The owner of the source replaces [app.json] after it was read and before it is copied. *)
Definition swapped : Medium :=
  {| me_source := fun n => site (if n <? 5 then "plain" else "greedy"); me_fault := fun _ => None |}.

(** The inspection can describe another package than the one that is staged. The document
    and the signature that are inspected are read from the source directory, not from the
    staged copy, and nothing compares the two: here the inspection shows a package that asks
    for nothing, is installable and has the digest of the staged bytes, while the staged
    [app.json] asks for silent access to all resources of another app. *)
Theorem inspection_may_describe_other_package :
  ∃ inspection staged document,
    (staging_run swapped).1 = Ok inspection /\ pi_installable inspection = true /\ pi_grant_requests inspection = [] /\
    dk_dirs (staging_run swapped).2 = {[join_dir "/staging" (pi_staged_id inspection) := staged]} /\
    directory_digest staged = Ok (pi_package_digest inspection) /\
    PackageInspect.read_document staged = Ok document /\
    pm_grant_requests (pk_manifest document) = [everything].
Proof.
  assert (∃ i, (staging_run swapped).1 = Ok i) as [i Hi] by (vm_compute; eexists; reflexivity).
  exists i, (site "greedy"), (site_document None [everything]). split; [exact Hi|].
  vm_compute in Hi. injection Hi as <-. split_and!; vm_compute; reflexivity.
Qed.


(** A package that the inspection blocks is installed all the same. Its publisher names a
    signing key and nobody signed it, so the inspection reports an invalid signature, a
    blocking error and that it is not installable; [install_record] checks none of the three
    for a package without a signature file and records the revision as enabled, with the
    verdict [invalid]. *)
Theorem blocked_package_is_installed :
  ∃ inspection record revision,
    (inspected (still "named")).1 = Ok inspection /\ pi_installable inspection = false /\
    pi_blocking_error inspection
      = Some "invalid package signature: publisher key id 'ed25519:ann' does not match the signed key" /\
    (install_run (still "named")).1 = Ok record /\ ir_enabled record = true /\ ir_revisions record = [revision] /\
    rv_signature_verdict revision = "invalid".
Proof.
  assert (∃ i, (inspected (still "named")).1 = Ok i) as [i Hi] by (vm_compute; eexists; reflexivity).
  assert (∃ r, (install_run (still "named")).1 = Ok r) as [r Hr] by (vm_compute; eexists; reflexivity).
  assert (∃ v, ir_revisions r = [v]) as [v Hv] by (vm_compute in Hr; injection Hr as <-; eexists; reflexivity).
  exists i, r, v. split_and!; try assumption.
  - vm_compute in Hi. injection Hi as <-. reflexivity.
  - vm_compute in Hi. injection Hi as <-. reflexivity.
  - vm_compute in Hr. injection Hr as <-. reflexivity.
  - vm_compute in Hr. injection Hr as <-. injection Hv as <-. reflexivity.
Qed.
