(* ===== verification/ChatSend.v ===== *)
(** * Sending a chat message

    [host/src-tauri/src/chat_runtime.rs]: the gate a message passes before anything runs, the
    record it leaves before external effects can occur, and its end. The messages that run
    are those of [active_chat_sends]; the calls that hold them advance in steps that
    interleave with each other, with every other call of the store, with restarts and with
    power loss. No request of a chat is executed twice. *)

From S2P Require Import Prelude RustStd RustText Json JsonOps Types Errors Platform AtomicJson PackageChecks PackageInspect ChatModelProfiles ChatStore ChatStoreFacts.

Definition MAX_REQUEST_ID : nat := 128.
Definition RESPONSE_TIMEOUT_SECS : N := 120.
Definition NO_PROVIDER_CONFIGURED_ERROR : string := "no LLM provider profile is configured".

(** ** The gate *)

Record ActiveChatSend := {
  as_cancelled : bool;
  as_run_ids : list string;
  as_request_id : string;
  as_message : string;
}.

Inductive SendEntry := SendAnswered (thread : ChatThread) | SendStarted (send : ActiveChatSend).

Definition is_interrupted (message : ChatMessage) : bool :=
  bool_decide (mg_client_request_id message <> None) && bool_decide (mg_status message = Some MsgPending).

Definition request_running (sends : gmap string ActiveChatSend) (thread_id request_id message : string) : bool :=
  match sends !! thread_id with
  | Some active => bool_decide (as_request_id active = request_id) && bool_decide (as_message active = message)
  | None => false
  end.

(** The first part of [send_chat_message_with_progress], up to the insertion into
    [active_chat_sends]. *)
Definition begin_send (document : ChatStoreDocument) (sends : gmap string ActiveChatSend)
    (thread_id message request_id : string) : outcome string SendEntry :=
  let trimmed := trim message in
  _ ← reject (bool_decide (trimmed = EmptyString)) "chat message must not be empty";
  _ ← reject (bool_decide (trim request_id = EmptyString)) "chat request id must not be empty";
  _ ← reject (MAX_REQUEST_ID <? String.length request_id) "chat request id must be at most 128 characters";
  state ← request_state document thread_id request_id trimmed;
  match state with
  | Some RequestCompleted => SendAnswered <$> get_thread document thread_id
  | Some RequestPending =>
      if request_running sends thread_id request_id trimmed then Err "this chat request is still running"
      else Err "this chat request was interrupted; it was not replayed because external effects may already have occurred"
  | None =>
      thread ← get_thread document thread_id;
      let running := bool_decide (is_Some (sends !! thread_id)) in
      _ ← reject (existsb is_interrupted (ct_messages thread))
            (if running then "a message is already running for this chat"
             else "this chat has an interrupted request; start a new chat to avoid repeating possible external effects");
      _ ← reject running "a message is already running for this chat";
      Ok (SendStarted {| as_cancelled := false; as_run_ids := []; as_request_id := request_id; as_message := trimmed |})
  end.

(** [cancel_chat_message], up to the runs it cancels. *)
Definition cancel_send (sends : gmap string ActiveChatSend) (thread_id : string) :
    outcome string (list string * gmap string ActiveChatSend) :=
  send ← ok_or (sends !! thread_id) "no message is running for this chat";
  let cancelled := {| as_cancelled := true; as_run_ids := as_run_ids send; as_request_id := as_request_id send;
                      as_message := as_message send |} in
  Ok (as_run_ids send, <[thread_id := cancelled]> sends).

(** A run registered for cancellation by [execute_chat_session]. *)
Definition register_run (sends : gmap string ActiveChatSend) (thread_id run_id : string) : gmap string ActiveChatSend :=
  match sends !! thread_id with
  | Some send => <[thread_id := {| as_cancelled := as_cancelled send; as_run_ids := as_run_ids send ++ [run_id];
                                   as_request_id := as_request_id send; as_message := as_message send |}]> sends
  | None => sends
  end.

(** ** The end of a message *)

Definition user_facing_texts : list (string * string) :=
  [("cancelled", "You cancelled this request. Work that completed before cancellation remains in the run history.");
   (NO_PROVIDER_CONFIGURED_ERROR,
    "I can't generate a model response because no model provider is configured. Use Configure model provider below or open Settings -> Model providers, then add a profile and select it as the default for Chat.");
   ("chat has no available execution path",
    "Chat has no available model execution path. Configure a model provider or restore Chat's model or agent permission in Settings -> Permissions.");
   ("pi-ai worker response timed out",
    "The model provider did not respond within " +:+ pretty RESPONSE_TIMEOUT_SECS +:+ " seconds. Completed tool calls remain in the run history.");
   ("deadline", "The request timed out before Chat could finish. Completed tool calls remain in the run history.");
   ("timed out", "The request timed out before Chat could finish. Completed tool calls remain in the run history.");
   ("kernel busy", "The host is waiting on another trusted decision. Finish that prompt and try again.");
   ("LLM call refused:",
    "Chat's model permission is no longer available. Open Settings -> Permissions to review it, then try again.");
   ("LLM call failed:",
    "The selected model provider could not complete the request. Check its connection and credentials in Settings -> Model providers. Completed tool calls remain in the run history.");
   ("Agent Engine was denied.",
    "Chat's Agent Engine permission is no longer available. Open Settings -> Permissions to review it, then try again.");
   ("Agent Engine could not complete this message.",
    "Agent Engine could not complete this request. Retry once. If it keeps failing, open System for the run details.")].

(** The first text whose marker the error contains. *)
Definition user_facing_chat_error (error : string) : string :=
  match List.find (fun entry => contains_text entry.1 error) user_facing_texts with
  | Some entry => entry.2
  | None => "The request failed before Chat could finish. Open System for run and grant details."
  end.

Definition failure_status (error : string) : ChatMessageStatus :=
  if contains_text "cancelled" error then MsgCancelled else MsgFailed.

Definition failure_message (error now : string) : ChatMessage :=
  {| mg_message_id := EmptyString; mg_role := RoleAssistant; mg_text := user_facing_chat_error error; mg_reasoning := None;
     mg_run_id := None; mg_artifact_ids := []; mg_status := Some (failure_status error); mg_client_request_id := None;
     mg_created_at := now; mg_completed_at := None |}.

(** The receipt of a prompt names the contributions it was composed from. *)
Definition prompt_receipt_for (contributions : list ChatContribution) (r : ChatCompositionReceipt) : ChatCompositionReceipt :=
  {| cr_system_prompt_digest := cr_system_prompt_digest r; cr_assistant_profile_ref := cr_assistant_profile_ref r;
     cr_assistant_profile_digest := cr_assistant_profile_digest r;
     cr_enabled_skill_digests := cr_enabled_skill_digests r;
     cr_context_block_digests := cc_digest <$> contributions;
     cr_attachment_refs := (fun item => cc_source_app_id item +:+ "/" +:+ cc_item_id item) <$> contributions;
     cr_available_capability_refs := cr_available_capability_refs r;
     cr_provider_profile_ref := cr_provider_profile_ref r; cr_model_profile := cr_model_profile r;
     cr_agent_engine_ref := cr_agent_engine_ref r; cr_agent_engine_version := cr_agent_engine_version r;
     cr_agent_engine_features := cr_agent_engine_features r;
     cr_assistant_capability_refs := cr_assistant_capability_refs r; cr_created_at := cr_created_at r;
     cr_system_prompt := cr_system_prompt r; cr_layers := cr_layers r; cr_injected_context := cr_injected_context r |}.

(** How a run of the model or an agent ended: its messages, the receipt of its prompt and the
    contributions it was composed from, or an error. *)
Abbreviation RunOutcome := (list ChatMessage * option ChatCompositionReceipt * list ChatContribution + string)%type.

(** [receipt_for_contributions]: what a prompt may be composed from. *)
Definition check_receipt_contribution (contribution : ChatContribution) : outcome string unit :=
  let label := cc_source_app_id contribution +:+ " / " +:+ cc_item_id contribution in
  _ ← (match cc_completeness contribution with
       | ContributionUnavailable => Err (label +:+ " is unavailable")
       | _ => Ok tt
       end : outcome string unit);
  match cc_kind contribution with
  | ResourceRef =>
      match cc_body contribution with
      | VObject body =>
          match obj_get body "resource_id" with
          | Some (VString _) => Ok tt
          | _ => Err (label +:+ " needs a resolvable resource reference")
          end
      | _ => Err (label +:+ " has invalid resource contribution body")
      end
  | _ => Ok tt
  end.

Definition receipt_for_contributions (contributions : list ChatContribution) : outcome string (list ChatContribution) :=
  _ ← for_each check_receipt_contribution contributions;
  Ok contributions.

(** ** The steps *)

Section sending.
Context `{Libraries, Uuids, Chrono, ChatCodec}.

(** The last part of [send_chat_message_with_progress]: one commit for the end of the request
    and its responses. *)
Definition finish_send (thread_id request_id : string) (out : RunOutcome) : st ChatStore string ChatThread :=
  match out with
  | inl (messages, prompt_receipt, contributions) =>
      complete_request_with_prompt_receipt_and_consumed_contributions thread_id request_id messages
        (prompt_receipt_for contributions <$> prompt_receipt) (identity_of <$> contributions)
  | inr error =>
      now ← now_iso;
      complete_request thread_id request_id [failure_message error now]
  end.

(** Where the call that holds an entry of [active_chat_sends] stands. *)
Inductive SendPhase := Preparing | Executing.

(** The store, the messages that run with the calls that hold them, and, for the statements,
    the requests whose external effects may have begun. *)
Record ChatHost := {
  ch_store : ChatStore;
  ch_sends : gmap string ActiveChatSend;
  ch_calls : gmap string SendPhase;
  ch_executed : list (string * string);
}.

Definition idle_host (s : ChatStore) (executed : list (string * string)) : ChatHost :=
  {| ch_store := s; ch_sends := ∅; ch_calls := ∅; ch_executed := executed |}.

Definition with_store (s : ChatStore) (h : ChatHost) : ChatHost :=
  {| ch_store := s; ch_sends := ch_sends h; ch_calls := ch_calls h; ch_executed := ch_executed h |}.

Definition with_sends (sends : gmap string ActiveChatSend) (h : ChatHost) : ChatHost :=
  {| ch_store := ch_store h; ch_sends := sends; ch_calls := ch_calls h; ch_executed := ch_executed h |}.

Definition started (thread_id : string) (send : ActiveChatSend) (h : ChatHost) : ChatHost :=
  {| ch_store := ch_store h; ch_sends := <[thread_id := send]> (ch_sends h);
     ch_calls := <[thread_id := Preparing]> (ch_calls h); ch_executed := ch_executed h |}.

Definition executing (thread_id request_id : string) (s : ChatStore) (h : ChatHost) : ChatHost :=
  {| ch_store := s; ch_sends := ch_sends h; ch_calls := <[thread_id := Executing]> (ch_calls h);
     ch_executed := (thread_id, request_id) :: ch_executed h |}.

(** [ActiveChatSendGuard::drop]. *)
Definition left (thread_id : string) (s : ChatStore) (h : ChatHost) : ChatHost :=
  {| ch_store := s; ch_sends := delete thread_id (ch_sends h); ch_calls := delete thread_id (ch_calls h);
     ch_executed := ch_executed h |}.

(** The calls of the store that are not part of a send; a new thread draws an identifier that
    no thread ever had. *)
Definition elsewhere (c : ChatCommand) (h : ChatHost) : Prop :=
  match c with
  | CmdAsk _ _ _ | CmdAnswer _ _ _ _ _ => False
  | CmdCreate _ _ =>
      let id := "thread-" +:+ new_v4 (fs_uuids (cs_fs (ch_store h))) in
      (∀ t, t ∈ sd_threads (cs_document (ch_store h)) -> ct_id t <> id) /\ id ∉ (ch_executed h).*1
  | _ => True
  end.

Definition document_of (h : ChatHost) : ChatStoreDocument := cs_document (ch_store h).

(** What the next process finds: the directory of a process that stopped, or what a power loss
    left of it. *)
Definition found_after (fs fs' : FileSystem) : Prop :=
  (fs_dir fs' = fs_dir fs /\ fs_pending fs' = fs_pending fs) \/ crash fs fs'.

Inductive send_step : ChatHost -> ChatHost -> Prop :=
  | step_begin h thread_id message request_id send :
      begin_send (document_of h) (ch_sends h) thread_id message request_id = Ok (SendStarted send) ->
      send_step h (started thread_id send h)
  | step_record h thread_id send thread s' :
      ch_sends h !! thread_id = Some send -> ch_calls h !! thread_id = Some Preparing ->
      append_user_message thread_id (as_message send) (as_request_id send) (ch_store h) = (Ok thread, s') ->
      send_step h (executing thread_id (as_request_id send) s' h)
  | step_record_fails h thread_id send r s' :
      ch_sends h !! thread_id = Some send -> ch_calls h !! thread_id = Some Preparing ->
      append_user_message thread_id (as_message send) (as_request_id send) (ch_store h) = (r, s') ->
      (∀ thread, r <> Ok thread) ->
      send_step h (left thread_id s' h)
  | step_finish h thread_id send out r s' :
      ch_sends h !! thread_id = Some send -> ch_calls h !! thread_id = Some Executing ->
      finish_send thread_id (as_request_id send) out (ch_store h) = (r, s') ->
      send_step h (left thread_id s' h)
  | step_leave h thread_id send :
      ch_sends h !! thread_id = Some send -> send_step h (left thread_id (ch_store h) h)
  | step_cancel h thread_id run_ids sends :
      cancel_send (ch_sends h) thread_id = Ok (run_ids, sends) -> send_step h (with_sends sends h)
  | step_register h thread_id run_id :
      send_step h (with_sends (register_run (ch_sends h) thread_id run_id) h)
  | step_command h c r s' :
      elsewhere c h -> run_chat_command c (ch_store h) = (r, s') -> send_step h (with_store s' h)
  | step_restart h fs clock s' :
      found_after (cs_fs (ch_store h)) fs -> with_writer (cs_path (ch_store h)) fs clock = Ok s' ->
      send_step h (idle_host s' (ch_executed h)).

(** ** What a recorded request leaves behind *)

Definition asked (thread : ChatThread) (request_id : string) : Prop :=
  ∃ m, m ∈ ct_messages thread /\ mg_client_request_id m = Some request_id.

Definition mentions (X : list (string * string)) (document : ChatStoreDocument) : Prop :=
  ∀ thread request_id, (ct_id thread, request_id) ∈ X -> thread ∈ sd_threads document -> asked thread request_id.

Definition entry_mentions (X : list (string * string)) (e : option File) : Prop :=
  ∀ f, e = Some f -> f_synced f = true /\ ∀ document, chat_from_str (f_bytes f) = inr document -> mentions X document.

(** Whatever a power loss brings back mentions the requests. *)
Definition durable (X : list (string * string)) (path : Path) (fs : FileSystem) : Prop :=
  entry_mentions X (fs_dir fs !! p_file_name path) /\ ∀ d, d ∈ fs_pending fs -> entry_mentions X (d !! p_file_name path).

Record remembers (X : list (string * string)) (s : ChatStore) : Prop := {
  rm_distinct : NoDup (ct_id <$> sd_threads (cs_document s));
  rm_mentions : mentions X (cs_document s);
  rm_durable : durable X (cs_path s) (cs_fs s);
}.

Lemma durable_holds X path fs :
  durable X path fs <->
  entry_mentions X (fs_dir fs !! p_file_name path) /\
  holds_entry (p_file_name path) (fs_dir fs !! p_file_name path) (entry_mentions X) fs.
Proof. unfold durable, holds_entry. tauto. Qed.

Lemma mentions_filter X p document :
  mentions X document -> mentions X (with_threads (List.filter p (sd_threads document)) document).
Proof. intros Hm thread request_id Hin Ht%filter_sub. by eapply Hm. Qed.

Lemma found_after_durable X path fs fs' : durable X path fs -> found_after fs fs' -> durable X path fs'.
Proof.
  intros Hd [[E1 E2]|Hc]; [by unfold durable; rewrite E1, E2|]. pose proof Hd as [He Hh]%durable_holds.
  pose proof (crash_holds_entry _ _ _ _ _ Hc Hh) as Hcr. destruct Hc as (_ & Hp & _).
  split; [|rewrite Hp; intros d Hin; inversion Hin].
  destruct Hcr as [->|?]; [|done|done]. intros e' [HQ| ->] f Hf; [by apply (HQ f)|by apply (He f)].
Qed.

Lemma load_durable X path fs :
  durable X path fs -> durable X path (load_json_document chat_from_str path "chat storage" fs).2.
Proof.
  rewrite !durable_holds. intros [He Hh].
  destruct (load_holds_entry chat_from_str path "chat storage" _ _ _ He (stale_temporary_ne path) fs Hh) as [Hd Hp].
  rewrite Hd. done.
Qed.

Context `{!ChatCodecLaws}.

Lemma written_mentions X document bytes :
  mentions X document -> chat_to_vec_pretty document = inr bytes ->
  entry_mentions X (Some {| f_bytes := bytes; f_synced := true |}).
Proof. intros Hm [_ Hback]%chat_codec_roundtrip f [= <-]. split; [done|]. intros d. simpl. rewrite Hback. by intros [= <-]. Qed.

(** Writing a document that mentions the requests leaves them durable, however it ends; once
    it succeeds, nothing else can come back. *)
Lemma persist_durable X path document fs r fs' :
  mentions X document -> persist_chat document path fs = (r, fs') ->
  (durable X path fs -> durable X path fs') /\ (r = Ok tt -> durable X path fs').
Proof.
  intros Hm Hrun. unfold persist_chat in Hrun.
  assert (∀ Q : option File -> Prop, Q (fs_dir fs !! p_file_name path) -> (∀ d, d ∈ fs_pending fs -> Q (d !! p_file_name path)) ->
    (∃ m, r = Err (NotCommittedJson m)) /\ holds_entry (p_file_name path) (fs_dir fs !! p_file_name path) Q fs' \/
    ∃ f, entry_mentions X (Some f) /\ fs_dir fs' !! p_file_name path = Some f /\
      (r = Ok tt /\ fs_pending fs' = [] \/
       (∃ m, r = Err m) /\ ∀ d, d ∈ fs_pending fs' -> Q (d !! p_file_name path) \/ d !! p_file_name path = Some f)) as Hcase.
  { intros Q HQ Hpend. pose proof (persist_cases chat_to_vec_pretty path document "chat storage" StandardAtomicFileWriter
      _ Q fs ltac:(done) HQ (conj eq_refl Hpend)) as Hc. rewrite Hrun in Hc.
    inversion Hc as [m fs1 Hh Heq|bytes fs1 Hser [Hn Hp] Heq]; subst; [left; eauto|right].
    exists {| f_bytes := bytes; f_synced := true |}. split; [by eapply written_mentions|].
    unfold st_map_err in Heq. simpl in Heq.
    destruct (sync_dir_result fs1) as [(er & fs2 & Hr & Hd & Hq)|(fs2 & Hr & Hd & Hq)];
      rewrite Hr in Heq; simplify_eq/=; rewrite Hd, Hq; (split; [done|]); [right|left]; eauto. }
  split.
  - intros [He Hp]. destruct (Hcase (entry_mentions X) He Hp) as [[_ [Hd Hp']]|(f & Hf & Hd & Hrest)].
    + split; [by rewrite Hd|done].
    + split; [by rewrite Hd|]. intros d Hin. destruct Hrest as [[_ Hn]|[_ Hq]]; [rewrite Hn in Hin; inversion Hin|].
      by destruct (Hq d Hin) as [?| ->].
  - intros ->. destruct (Hcase (fun _ => True) I ltac:(done)) as [[[m Hm'] _]|(f & Hf & Hd & Hrest)]; [done|].
    destruct Hrest as [[_ Hn]|[[m Hm'] _]]; [|done]. split; [by rewrite Hd|]. rewrite Hn. intros d Hin. inversion Hin.
Qed.

Lemma commit_chat_remembers X candidate s :
  remembers X s -> NoDup (ct_id <$> sd_threads candidate) -> mentions X candidate ->
  remembers X (commit_chat candidate s).2.
Proof.
  intros [Hn Hm Hd] Hn' Hm'. unfold commit_chat. destruct (persist_chat _ _ _) as [r fs] eqn:E.
  apply (persist_durable X) in E as [Hk _]; [|by apply mentions_filter]. specialize (Hk Hd).
  destruct r as [[]|error|msg]; [|destruct (is_indeterminate error)|]; by constructor.
Qed.

Lemma commit_chat_recorded X candidate s s' :
  commit_chat candidate s = (Ok tt, s') -> NoDup (ct_id <$> sd_threads candidate) -> mentions X candidate -> remembers X s'.
Proof.
  unfold commit_chat. destruct (persist_chat _ _ _) as [r fs] eqn:E. intros Hrun Hn Hm.
  apply (persist_durable X) in E as [_ Hk]; [|by apply mentions_filter].
  destruct r as [[]|error|msg]; [|by destruct (is_indeterminate error)|done]. injection Hrun as <-.
  constructor; [done|done|by apply Hk].
Qed.

(** ** Calls of the store *)

Definition keeps_asked (thread thread' : ChatThread) : Prop :=
  ct_id thread' = ct_id thread /\ ∀ request_id, asked thread request_id -> asked thread' request_id.

Lemma keeps_asked_messages thread thread' added :
  ct_id thread' = ct_id thread -> ct_messages thread' = ct_messages thread ++ added -> keeps_asked thread thread'.
Proof. intros Hi Hm. split; [done|]. intros r (m & Hin & Hr). exists m. split; [|done]. rewrite Hm. apply elem_of_app. by left. Qed.

Lemma keeps_asked_same thread thread' :
  ct_id thread' = ct_id thread -> ct_messages thread' = ct_messages thread -> keeps_asked thread thread'.
Proof. intros Hi Hm. apply (keeps_asked_messages _ _ []); [done|]. by rewrite app_nil_r. Qed.

(** A thread replaced by one that remembers at least as much. *)
Lemma replaced_remembers X s thread thread' threads' :
  remembers X s -> find_thread (ct_id thread) (sd_threads (cs_document s)) = Some thread -> keeps_asked thread thread' ->
  replace_first (fun t => bool_decide (ct_id t = ct_id thread)) (fun _ => thread') (sd_threads (cs_document s)) = Some threads' ->
  NoDup (ct_id <$> threads') /\ mentions X (with_threads threads' (cs_document s)) /\
  ∀ t, t ∈ threads' -> ct_id t = ct_id thread -> t = thread'.
Proof.
  intros [Hn Hm Hd] Hf [Hid Hk] Hrep.
  pose proof (replace_key ct_id (ct_id thread) (fun _ => thread') (sd_threads (cs_document s)) ltac:(done)) as Hr.
  pose proof (find_key_Some ct_id _ _ _ Hf) as [Hin _].
  unfold find_key, find_thread in *. rewrite Hf, Hrep in Hr. destruct Hr as (l & [= <-] & Hkeys & Hfind & Hel). split_and!.
  - by rewrite Hkeys.
  - intros t r HX Ht. simpl in Ht. destruct (Hel t Ht) as [->|Ht']; [|by eapply Hm].
    rewrite Hid in HX. apply Hk. by eapply Hm.
  - intros t Ht E. pose proof (find_key_unique ct_id (ct_id thread) threads' t) as Hu. unfold find_key in Hu.
    rewrite Hkeys in Hu. specialize (Hu Hn Ht E). specialize (Hfind (ct_id thread)). rewrite decide_True in Hfind by done.
    rewrite Hu in Hfind. by injection Hfind.
Qed.

(** A successful or failing edit remembers what was remembered; a successful one also what it
    recorded. *)
Lemma edit_thread_run X thread_id change s r s' :
  remembers X s -> (∀ t, preserves (remembers X) (change t)) ->
  (∀ t t' s1 s2, change t s1 = (Ok t', s2) -> keeps_asked t t') ->
  edit_thread thread_id change s = (r, s') ->
  remembers X s' /\
  ∀ t, r = Ok t -> ∃ thread changed s1 s2,
    change thread s1 = (Ok changed, s2) /\
    ∀ request_id, asked changed request_id -> remembers ((thread_id, request_id) :: X) s'.
Proof.
  intros Hs Hpres Hkeep Hrun. unfold edit_thread in Hrun. rewrite st_bind_run in Hrun. simpl in Hrun.
  rewrite st_bind_run in Hrun. unfold st_lift, get_thread in Hrun.
  destruct (find_thread thread_id (sd_threads (cs_document s))) as [thread|] eqn:Ef;
    [|injection Hrun as <- <-; split; [done|by intros t]].
  pose proof (find_key_Some ct_id _ _ _ Ef) as [Hin Hid]. simpl in Hrun. rewrite st_bind_run in Hrun.
  pose proof (Hpres thread s Hs) as Hs1. destruct (change thread s) as [rc s1] eqn:Ec. simpl in Hs1.
  destruct rc as [changed|e|msg]; [|injection Hrun as <- <-; split; [done|by intros t]..].
  pose proof (Hkeep _ _ _ _ Ec) as [Hcid Hck].
  rewrite st_bind_run in Hrun. unfold now_iso in Hrun. set (now := now_at (cs_clock s1)) in *.
  set (thread' := touched now changed) in *.
  pose proof (replace_key ct_id thread_id (fun _ => thread') (sd_threads (cs_document s))) as Hk.
  unfold find_key in Hk. unfold find_thread in Ef. rewrite Ef in Hk.
  destruct Hk as (threads' & Hrep & _); [intros; simpl; congruence|]. rewrite Hrep in Hrun. cbn [default] in Hrun.
  subst thread_id. destruct (replaced_remembers X s thread thread' threads' Hs Ef) as (Hn' & Hm' & Huniq); [done|done|].
  rewrite st_bind_run in Hrun. set (s2 := {| cs_path := cs_path s1; cs_clock := _ |}) in *.
  assert (remembers X s2) as Hs2 by (by destruct Hs1; constructor).
  pose proof (commit_chat_remembers X (with_threads threads' (cs_document s)) s2 Hs2 Hn' Hm') as Hc.
  destruct (commit_chat _ s2) as [[[]|e|msg] s3] eqn:E; simpl in Hc; injection Hrun as <- <-; (split; [done|]); try by intros t.
  intros t _. exists thread, changed, s, s1. split; [done|]. intros request_id Ha.
  eapply commit_chat_recorded; [exact E|done|]. intros t' r HX Ht'. apply elem_of_cons in HX as [HX|HX]; [|by eapply Hm'].
  injection HX as HX ->. by rewrite (Huniq t' Ht' HX).
Qed.

Lemma edit_thread_remembers X thread_id change :
  (∀ t, preserves (remembers X) (change t)) -> (∀ t t' s1 s2, change t s1 = (Ok t', s2) -> keeps_asked t t') ->
  preserves (remembers X) (edit_thread thread_id change).
Proof.
  intros Hp Hk s Hs. destruct (edit_thread thread_id change s) as [r s'] eqn:E. by eapply edit_thread_run in E as [? _].
Qed.

Lemma now_iso_remembers X : preserves (remembers X) now_iso.
Proof. intros s []. by constructor. Qed.
Lemma new_id_remembers X prefix : preserves (remembers X) (new_id prefix).
Proof. intros s []. by constructor. Qed.
Hint Resolve now_iso_remembers new_id_remembers : kestral.

Lemma edit_ret_remembers X thread_id f :
  (∀ t, keeps_asked t (f t)) -> preserves (remembers X) (edit_thread thread_id (fun t => mret (f t))).
Proof. intros Hf. apply edit_thread_remembers; [intros t; apply preserves_ret|]. intros t t' s1 s2 [= <- _]. apply Hf. Qed.

Lemma edit_lift_remembers X thread_id f :
  (∀ t t', f t = Ok t' -> keeps_asked t t') -> preserves (remembers X) (edit_thread thread_id (fun t => st_lift (f t))).
Proof. intros Hf. apply edit_thread_remembers; [intros t; apply preserves_lift|]. intros t t' s1 s2 [= Ht _]. by apply Hf. Qed.

Lemma completed_thread_remembers X request_id responses receipt consumed thread :
  preserves (remembers X) (completed_thread request_id responses receipt consumed thread).
Proof.
  unfold completed_thread, stamp_response. apply preserves_bind; [apply preserves_lift|intros request].
  apply preserves_bind; [apply preserves_lift|intros _]. apply preserves_bind; [auto with kestral|intros now].
  apply preserves_bind.
  - apply preserves_map. intros x. apply preserves_bind; [case_bool_decide; auto with kestral|intros id].
    apply preserves_bind; [case_bool_decide; auto with kestral|intros at_]. apply preserves_ret.
  - intros stamped. destruct receipt; [|apply preserves_ret]. apply preserves_bind; [auto with kestral|intros now'].
    apply preserves_ret.
Qed.

Lemma completed_thread_keeps request_id responses receipt consumed thread thread' s s' :
  completed_thread request_id responses receipt consumed thread s = (Ok thread', s') -> keeps_asked thread thread'.
Proof.
  intros (request & now & messages & stamped & _ & _ & Hrep & Hm & _ & _ & Hid & _)%completed_thread_Ok.
  split; [done|]. intros r (m & Hin & Hr). unfold asked. rewrite Hm. clear Hm Hid thread'.
  assert (∃ m', m' ∈ messages /\ mg_client_request_id m' = Some r) as (m' & ? & ?).
  { revert messages Hrep Hin. induction (ct_messages thread) as [|x l IH]; intros messages Hrep Hin; [done|]. simpl in Hrep.
    destruct (is_request request_id x).
    - injection Hrep as <-. apply elem_of_cons in Hin as [->|Hin]; [|exists m; split; [by right|done]].
      exists (answered now x). split; [by left|done].
    - destruct (replace_first _ _ l) as [l'|]; [|done]. injection Hrep as <-.
      apply elem_of_cons in Hin as [->|Hin]; [exists x; split; [by left|done]|].
      destruct (IH _ eq_refl Hin) as (m' & ? & ?). exists m'. split; [by right|done]. }
  exists m'. split; [|done]. apply elem_of_app. by left.
Qed.

Lemma append_message_view_remembers X thread_id message : preserves (remembers X) (append_message_view thread_id message).
Proof.
  apply edit_ret_remembers. intros t. destruct (_ && _); by eapply keeps_asked_messages.
Qed.

Lemma finish_send_remembers X thread_id request_id out : preserves (remembers X) (finish_send thread_id request_id out).
Proof.
  assert (∀ responses receipt consumed, preserves (remembers X)
    (complete_request_with_prompt_receipt_and_consumed_contributions thread_id request_id responses receipt consumed)) as Hc.
  { intros. apply edit_thread_remembers; [intros t; apply completed_thread_remembers|].
    intros t t' s1 s2. apply completed_thread_keeps. }
  destruct out as [[[messages receipt] contributions]|error]; simpl; [apply Hc|].
  apply preserves_bind; [auto with kestral|intros now]. apply Hc.
Qed.

Lemma discard_remembers {A} X (m : st ChatStore string A) : preserves (remembers X) m -> preserves (remembers X) (discard m).
Proof. intros Hm. apply preserves_bind; [done|]. intros a. apply preserves_ret. Qed.

(** A new thread has nothing to remember. *)
Lemma create_remembers h engine_ref receipt X :
  (∀ id r, (id, r) ∈ X -> id ∈ (ch_executed h).*1) -> elsewhere (CmdCreate engine_ref receipt) h ->
  remembers X (ch_store h) -> remembers X (create_thread_with_agent_engine engine_ref receipt (ch_store h)).2.
Proof.
  intros HX [Hfresh Hnew] [Hn Hm Hd]. simpl. constructor; simpl; [| |done].
  - rewrite fmap_app. apply NoDup_app. split; [done|]. split; [|apply NoDup_singleton].
    intros id (t & -> & Ht)%list_elem_of_fmap Hid%list_elem_of_singleton. by apply (Hfresh t).
  - intros t r Hin [Ht|Ht%list_elem_of_singleton]%elem_of_app; [by eapply Hm|]. subst t. simpl in Hin.
    exfalso. by eapply Hnew, HX.
Qed.

Lemma elsewhere_remembers h c r s' :
  elsewhere c h -> run_chat_command c (ch_store h) = (r, s') ->
  remembers (ch_executed h) (ch_store h) -> remembers (ch_executed h) s'.
Proof.
  set (X := ch_executed h). intros He Hrun Hs.
  assert (remembers X (run_chat_command c (ch_store h)).2) as Hgoal; [|by rewrite Hrun in Hgoal].
  assert (preserves (remembers X) (run_chat_command c) -> remembers X (run_chat_command c (ch_store h)).2) as Hp by auto.
  assert (∀ t change, preserves (remembers X) (edit_setup t change)) as Hsetup
    by (intros t change; apply edit_ret_remembers; intros u; by apply keeps_asked_same).
  destruct c; simpl in He; try exact (False_ind _ He).
  - unfold run_chat_command, discard. rewrite st_bind_run.
    pose proof (create_remembers h engine_ref receipt X ltac:(intros id q Hin; by apply (list_elem_of_fmap_2 fst) in Hin) He Hs) as Hc.
    by destruct (create_thread_with_agent_engine _ _ _) as [[?|?|?] ?].
  - apply Hp, discard_remembers. unfold rename_thread. case_bool_decide; [apply preserves_fail|].
    apply edit_ret_remembers. intros t. by apply keeps_asked_same.
  - simpl. unfold delete_thread. rewrite st_bind_run. simpl. pose proof Hs as [Hn Hm Hd].
    case_bool_decide; [done|]. apply commit_chat_remembers; [done| |by apply mentions_filter]. by apply NoDup_key_filter.
  - apply Hp, discard_remembers, Hsetup.
  - apply Hp, discard_remembers, Hsetup.
  - apply Hp, discard_remembers, Hsetup.
  - apply Hp, discard_remembers. intros s Hs'. unfold set_chat_agent_engine_state. rewrite st_bind_run. simpl.
    rewrite st_bind_run. unfold st_lift. destruct (get_thread _ _); [|done..]. case_bool_decide; [done|]. by apply Hsetup.
  - apply Hp, discard_remembers, edit_lift_remembers. intros t t'. unfold updated_contributions.
    intros Hrun'. do 2 apply bind_unit_Ok in Hrun' as [_ Hrun']. injection Hrun' as <-. by apply keeps_asked_same.
  - apply Hp, discard_remembers, edit_lift_remembers. intros t t'. case_bool_decide; [done|]. intros [= <-]. by apply keeps_asked_same.
  - apply Hp, discard_remembers, edit_ret_remembers. intros t. by apply keeps_asked_same.
  - apply Hp, discard_remembers, edit_lift_remembers. intros t t' (held & _ & -> & _)%updated_contexts_Ok. by apply keeps_asked_same.
  - apply Hp, discard_remembers. unfold append_message. apply preserves_bind; [auto with kestral|intros id].
    apply preserves_bind; [auto with kestral|intros now]. apply append_message_view_remembers.
Qed.

(** What [append_user_message] recorded. *)
Lemma append_user_message_run X thread_id text request_id s r s' :
  remembers X s -> append_user_message thread_id text request_id s = (r, s') ->
  remembers X s' /\ ∀ t, r = Ok t -> remembers ((thread_id, request_id) :: X) s'.
Proof.
  intros Hs Hrun. unfold append_user_message in Hrun. rewrite st_bind_run in Hrun.
  pose proof (new_id_remembers X "message" s Hs) as Hs1. destruct (new_id "message" s) as [[id|e|msg] s1]; simpl in Hs1;
    [|injection Hrun as <- <-; split; [done|by intros t]..].
  rewrite st_bind_run in Hrun. pose proof (now_iso_remembers X s1 Hs1) as Hs2.
  destruct (now_iso s1) as [[now|e|msg] s2]; simpl in Hs2; [|injection Hrun as <- <-; split; [done|by intros t]..].
  set (message := {| mg_message_id := id; mg_client_request_id := _ |}) in Hrun. unfold append_message_view in Hrun.
  match type of Hrun with edit_thread _ ?change _ = _ =>
    pose proof (edit_thread_run X thread_id change s2 r s' Hs2 (fun t => preserves_ret _ _)) as Hedit
  end.
  destruct (fun H => Hedit H Hrun) as [Hs' Hrec].
  { intros t t' sa sb [= <- _]. destruct (_ && _); by eapply keeps_asked_messages. }
  split; [done|]. intros t ->. destruct (Hrec t eq_refl) as (thread & changed & sa & sb & [= <- _] & Hall).
  apply Hall. exists message. split; [|done]. simpl. apply elem_of_app. right. by left.
Qed.

(** ** At most once *)

(** The invariant: what was executed is remembered and distinct, and a call that has not
    recorded its request yet holds one that was not executed. *)
Record once (h : ChatHost) : Prop := {
  on_distinct : NoDup (ch_executed h);
  on_remembers : remembers (ch_executed h) (ch_store h);
  on_fresh : ∀ thread_id send, ch_calls h !! thread_id = Some Preparing -> ch_sends h !! thread_id = Some send ->
    (thread_id, as_request_id send) ∉ ch_executed h;
}.

Lemma request_of_asked thread request_id : asked thread request_id -> is_Some (request_of request_id (ct_messages thread)).
Proof.
  intros (m & Hin & Hr). unfold request_of. induction (ct_messages thread) as [|x l IH]; [inversion Hin|]. simpl.
  case_bool_decide; [done|]. apply elem_of_cons in Hin as [->|Hin]; [done|auto].
Qed.

(** The gate lets no request through that the thread has. *)
Lemma begin_send_new document sends thread_id message request_id send X :
  mentions X document -> begin_send document sends thread_id message request_id = Ok (SendStarted send) ->
  ((thread_id, request_id) ∉ X) /\ as_request_id send = request_id /\ sends !! thread_id = None.
Proof.
  intros Hm. unfold begin_send. intros Hrun. do 3 apply bind_unit_Ok in Hrun as [_ Hrun].
  apply bind_Ok_inv in Hrun as (state & Hstate & Hrun). unfold request_state in Hstate.
  apply bind_Ok_inv in Hstate as (thread & Hget & Hstate). unfold get_thread in Hget, Hrun.
  destruct (find_thread thread_id (sd_threads document)) as [t|] eqn:Ef; [|done]. injection Hget as ->.
  pose proof (find_key_Some ct_id _ _ _ Ef) as [Hin Hid].
  destruct (request_of request_id (ct_messages thread)) as [request|] eqn:Er.
  - apply bind_unit_Ok in Hstate as [_ [= <-]]. case_bool_decide; [by destruct (request_running _ _ _ _)|].
    done.
  - injection Hstate as <-. cbn -[reject] in Hrun. apply bind_unit_Ok in Hrun as [_ Hrun].
    apply bind_unit_Ok in Hrun as [Hrunning%reject_Ok Hrun]. injection Hrun as <-. split_and!; [|done|].
    + intros HX. subst thread_id. destruct (request_of_asked thread request_id) as [? E]; [by eapply Hm|congruence].
    + destruct (sends !! thread_id); [|done]. by rewrite bool_decide_eq_true_2 in Hrunning by eauto.
Qed.

Lemma once_left h thread_id s : remembers (ch_executed h) s -> once h -> once (left thread_id s h).
Proof.
  intros Hs [Hd Hr Hf]. constructor; simpl; [done|done|]. intros id send [_ Hc]%lookup_delete_Some [_ Hsend]%lookup_delete_Some.
  by apply Hf.
Qed.

(** Loading checks that the identifiers of threads are distinct. *)
Lemma with_writer_remembers X path fs clock s :
  durable X path fs -> with_writer path fs clock = Ok s -> remembers X s /\ cs_path s = path.
Proof.
  intros Hd. unfold with_writer. pose proof (load_durable X path fs Hd) as Hd1.
  destruct (load_json_document chat_from_str path "chat storage" fs) as [loaded fs1] eqn:El. simpl in Hd1.
  intros (document & -> & Hrun)%bind_Ok_inv. apply bind_unit_Ok in Hrun as [(_ & _ & Hn & _)%validate_document_Ok Hrun].
  assert (mentions X (default fresh_document document)) as Hm.
  { destruct document as [document|]; [|intros t r _ Ht; inversion Ht].
    apply load_json_document_Some in El as (raw & Hraw & Hback). unfold contents in Hraw.
    destruct (fs_dir fs !! p_file_name path) as [f|] eqn:Ef; [|done]. injection Hraw as <-.
    destruct Hd as [He _]. by apply (He f Ef). }
  set (kept := persisted_part (default fresh_document document)) in *.
  assert (mentions X kept) as Hmk by by apply mentions_filter.
  assert (NoDup (ct_id <$> sd_threads kept)) as Hnk by by apply NoDup_key_filter.
  case_bool_decide; [injection Hrun as <-; by split|].
  destruct (persist_chat kept path fs1) as [r fs2] eqn:Ep. apply (persist_durable X) in Ep as [Hk _]; [|done].
  apply bind_Ok_inv in Hrun as ([] & _ & [= <-]). split; [|done]. constructor; auto.
Qed.

Lemma send_step_once h h' : once h -> send_step h h' -> once h'.
Proof.
  intros [Hd Hr Hf] Hstep.
  destruct Hstep as [h thread_id message request_id send Hb|h thread_id send thread s' Hs Hc Ha|h thread_id send r s' Hs Hc Ha Hno
    |h thread_id send out r s' Hs Hc Hrun|h thread_id send Hs|h thread_id run_ids sends Hc|h thread_id run_id|h c r s' He Hrun
    |h fs clock s' Hfound Hw].
  - apply (begin_send_new _ _ _ _ _ _ (ch_executed h)) in Hb as (Hnew & Hid & _); [|by apply Hr].
    constructor; simpl; [done|done|]. intros id send'. rewrite !lookup_insert. case_decide as E; [|apply Hf].
    subst id. intros _ [= <-]. by rewrite Hid.
  - destruct (append_user_message_run _ _ _ _ _ _ _ Hr Ha) as [_ Hrec]. constructor; simpl.
    + constructor; [by apply Hf|done].
    + by eapply Hrec.
    + intros id send'. rewrite lookup_insert. case_decide as E; [done|]. intros Hc' Hs' [HX|HX]%elem_of_cons; [congruence|].
      by apply (Hf id send').
  - destruct (append_user_message_run _ _ _ _ _ _ _ Hr Ha) as [? _]. by apply once_left.
  - pose proof (finish_send_remembers (ch_executed h) thread_id (as_request_id send) out _ Hr) as Hr'.
    rewrite Hrun in Hr'. by apply once_left.
  - by apply once_left.
  - unfold cancel_send in Hc. destruct (ch_sends h !! thread_id) as [send|] eqn:E; [|done]. injection Hc as <- <-.
    constructor; simpl; [done|done|]. intros id send' Hp. rewrite lookup_insert. case_decide as E'; [|by apply Hf].
    subst id. intros [= <-]. by apply (Hf thread_id send).
  - constructor; simpl; [done|done|]. intros id send' Hp. unfold register_run.
    destruct (ch_sends h !! thread_id) as [send|] eqn:E; [|by apply Hf]. rewrite lookup_insert.
    case_decide as E'; [|by apply Hf]. subst id. intros [= <-]. by apply (Hf thread_id send).
  - constructor; simpl; [done| |done]. by eapply elsewhere_remembers.
  - destruct (with_writer_remembers (ch_executed h) _ _ _ _ (found_after_durable _ _ _ _ (rm_durable _ _ Hr) Hfound) Hw) as [Hs' _].
    constructor; simpl; [done|done|]. intros id send'. by rewrite lookup_empty.
Qed.

Lemma send_steps_once h h' : rtc send_step h h' -> once h -> once h'.
Proof. induction 1; eauto using send_step_once. Qed.

(** C17: No chat request is executed twice. Calls of [send_chat_message] interleave with each
    other, with cancellations, with every other call of the store and with restarts; the disk
    may fail at any step and a power loss may come at any moment. The external effects of a
    message start only once its record is written, and in every history each request of each
    thread reaches that point at most once. A request that did is never let through again:
    sending it once more is answered from the record or refused. *)
Theorem no_request_executed_twice path fs clock s h :
  settled fs (p_file_name path) -> with_writer path fs clock = Ok s -> rtc send_step (idle_host s []) h ->
  NoDup (ch_executed h) /\
  ∀ thread_id request_id message entry, (thread_id, request_id) ∈ ch_executed h ->
    begin_send (document_of h) (ch_sends h) thread_id message request_id = Ok entry ->
    ∃ thread, entry = SendAnswered thread /\ get_thread (document_of h) thread_id = Ok thread /\ asked thread request_id.
Proof.
  intros [Hsync Hpend] Hw Hsteps.
  assert (durable [] path fs) as Hd.
  { split; [intros f Hf; split; [auto|by intros d _ t r Hin; inversion Hin]|]. intros d Hin f Hf. rewrite (Hpend d Hin) in Hf.
    split; [auto|by intros d' _ t r Hin'; inversion Hin']. }
  destruct (with_writer_remembers [] path fs clock s Hd Hw) as [Hs _].
  assert (once (idle_host s [])) as Hidle.
  { constructor; simpl; [constructor|done|]. intros id send. by rewrite lookup_empty. }
  destruct (send_steps_once _ _ Hsteps Hidle) as [Hdist [Hn Hm Hdur] _].
  split; [done|]. intros thread_id request_id message entry HX Hb.
  destruct entry as [thread|send]; [|by apply (begin_send_new _ _ _ _ _ _ (ch_executed h) Hm) in Hb as [? _]].
  exists thread. split; [done|]. unfold begin_send in Hb. do 3 apply bind_unit_Ok in Hb as [_ Hb].
  apply bind_Ok_inv in Hb as (state & _ & Hb). assert (get_thread (document_of h) thread_id = Ok thread) as Hget.
  { destruct state as [[]|]; [by destruct (request_running _ _ _ _)|by apply fmap_Ok_inv in Hb as (? & ? & [= ->])|].
    apply bind_Ok_inv in Hb as (t & _ & Hb). do 2 apply bind_unit_Ok in Hb as [_ Hb]. done. }
  split; [done|]. unfold get_thread in Hget. destruct (find_thread _ _) as [t|] eqn:Ef; [|done]. injection Hget as ->.
  pose proof (find_key_Some ct_id _ _ _ Ef) as [Hin <-]. by eapply Hm.
Qed.
End sending.
