(* ===== verification/ChatApp.v ===== *)
(** * The chat app

    [host/src-tauri/src/chat_app.rs], [chat_runtime.rs]: the capabilities Chat offers to other
    apps, which run on the chat store with the caller and its authorised scope; what of the
    context they put there still stands when a message is sent; and the part of a transcript
    a model is shown. *)

From S2P Require Import Prelude RustStd RustText Json JsonOps Types Errors Grants Manifest Platform Ledger Registry Broker Artifacts Invocation AtomicJson PackageChecks ManagedExports ChatModelProfiles ChatStore ChatStoreFacts ChatSend.

Definition CHAT_INJECT_USER_CONTEXT : CapabilityName := "chat.inject_user_context".
Definition MAX_HISTORY_MESSAGES : nat := 40.
Definition MAX_HISTORY_CHARS : nat := 64 * 1024.
Definition MAX_CONTRIBUTIONS_PER_CALL : nat := 32.
Definition MAX_CONTRIBUTIONS_PER_THREAD : nat := 128.
Definition MAX_CONTRIBUTION_BODY_BYTES : nat := 16 * 1024.
Definition MAX_INJECTED_CONTEXTS_PER_CALL : nat := 32.
Definition MAX_INJECTED_CONTEXT_TOTAL_CHARS_PER_CALL : N := 64 * 1024.

Definition chat_app_id : AppId := "chat".

(** ** JSON *)

Definition thread_ref_to_value (thread : ChatThreadRef) : Value :=
  json_obj [("resource_id", VString (th_resource_id thread)); ("thread_id", VString (th_thread_id thread));
            ("title", VString (th_title thread)); ("revision", json_number (th_revision thread));
            ("created_at", VString (th_created_at thread)); ("updated_at", VString (th_updated_at thread))].

Definition kind_name (kind : ChatContributionKind) : string :=
  match kind with
  | TextSnapshot => "text-snapshot"
  | ArtifactRef => "artifact-ref"
  | ResourceRef => "resource-ref"
  | DraftProposal => "draft-proposal"
  end.

Definition completeness_name (completeness : ChatContributionCompleteness) : string :=
  match completeness with
  | ContributionComplete => "complete"
  | ContributionTruncated => "truncated"
  | ContributionUnavailable => "unavailable"
  end.

Definition lifecycle_name (lifecycle : ChatContributionLifecycle) : string :=
  match lifecycle with
  | LifecycleDraft => "draft"
  | LifecycleAccepted => "accepted"
  | LifecycleRemoved => "removed"
  | LifecycleStale => "stale"
  | LifecycleFailed => "failed"
  end.

Definition contribution_to_value (c : ChatContribution) : Value :=
  json_obj [("source_app_id", VString (cc_source_app_id c)); ("source_app_version", VString (cc_source_app_version c));
            ("source_contract", json_number (cc_source_contract c)); ("item_id", VString (cc_item_id c));
            ("revision", json_number (cc_revision c)); ("digest", VString (cc_digest c));
            ("completeness", VString (completeness_name (cc_completeness c)));
            ("lifecycle", VString (lifecycle_name (cc_lifecycle c))); ("kind", VString (kind_name (cc_kind c)));
            ("title", VString (cc_title c)); ("body", cc_body c); ("created_at", VString (cc_created_at c));
            ("updated_at", VString (cc_updated_at c))].

Definition public_role_name (role : PublicChatMessageRole) : string :=
  match role with PublicUser => "user" | PublicAssistant => "assistant" end.

Definition view_status_name (status : ChatMessageViewStatus) : string :=
  match status with
  | ViewPending => "pending"
  | ViewCompleted => "completed"
  | ViewInterrupted => "interrupted"
  | ViewCancelled => "cancelled"
  | ViewFailed => "failed"
  end.

Definition message_view_to_value (m : ChatMessageView) : Value :=
  json_obj [("message_id", VString (vw_message_id m)); ("thread_resource_id", VString (vw_thread_resource_id m));
            ("sequence", json_number (vw_sequence m)); ("role", VString (public_role_name (vw_role m)));
            ("status", VString (view_status_name (vw_status m))); ("text", VString (vw_text m));
            ("artifact_refs", json_strings (vw_artifact_refs m)); ("run_ref", json_option VString (vw_run_ref m));
            ("created_at", VString (vw_created_at m)); ("completed_at", json_option VString (vw_completed_at m))].

Definition page_to_value (page : ChatThreadPage) : Value :=
  json_obj [("thread", thread_ref_to_value (pg_thread page));
            ("messages", VArray (message_view_to_value <$> pg_messages page));
            ("next_cursor", json_option json_number (pg_next_cursor page))].

(** ** Input *)

Definition get_str (object : JsonObject) (key message : string) : outcome string string :=
  ok_or (obj_get object key ≫= Value_as_str) message.

Definition get_u64 (object : JsonObject) (key message : string) : outcome string N :=
  ok_or (obj_get object key ≫= Value_as_u64) message.

Definition get_array (object : JsonObject) (key message : string) : outcome string (list Value) :=
  ok_or (obj_get object key ≫= Value_as_array) message.

(** The scope names the thread. *)
Definition scope_names (scope : DataScope) (resource_id : string) : bool :=
  match scope with
  | Resources resource_ids => bool_decide (resource_id ∈ resource_ids)
  | NoData | AllResources => false
  end.

Definition UNAUTHORIZED_THREAD : string := "authorized chat thread resource is required".

Definition completeness_of (name : option string) : outcome string ChatContributionCompleteness :=
  match name with
  | Some name =>
      if bool_decide (name = "complete") then Ok ContributionComplete
      else if bool_decide (name = "truncated") then Ok ContributionTruncated
      else if bool_decide (name = "unavailable") then Ok ContributionUnavailable
      else Err "invalid chat contribution completeness"
  | None => Err "invalid chat contribution completeness"
  end.

Definition kind_of (name : string) : outcome string ChatContributionKind :=
  if bool_decide (name = "text-snapshot") then Ok TextSnapshot
  else if bool_decide (name = "artifact-ref") then Ok ArtifactRef
  else if bool_decide (name = "resource-ref") then Ok ResourceRef
  else if bool_decide (name = "draft-proposal") then Ok DraftProposal
  else Err "invalid chat contribution kind".

Section handlers.
Context `{Libraries, Uuids, Chrono, ChatCodec}.
Abbreviation chat_op := (st ChatStore string).

Definition canonical_contribution_digest (value : Value) : outcome string string :=
  sha256_hex <$> json_to_vec value.

(** One iteration of the loop of [chat.propose_draft], with the identities seen. *)
Definition parse_contribution (source_app_id source_app_version : string)
    (seen : list (ChatContributionKind * string)) (item : Value) : chat_op ChatContribution :=
  object ← st_lift (ok_or (Value_as_object item) "chat contribution must be an object");
  kind ← st_lift (get_str object "kind" "chat contribution kind is required");
  item_id ← st_lift (get_str object "item_id" "chat contribution item_id is required");
  title ← st_lift (get_str object "title" "chat contribution title is required");
  revision ← st_lift (get_u64 object "revision" "chat contribution revision is required");
  completeness ← st_lift (completeness_of (obj_get object "completeness" ≫= Value_as_str));
  kind ← st_lift (kind_of kind);
  _ ← st_lift (reject (bool_decide ((kind, item_id) ∈ seen)) "duplicate chat contribution identity");
  digest ← st_lift (canonical_contribution_digest item);
  let body := default VNull (obj_get object "content") in
  bytes ← st_lift (json_to_vec body);
  _ ← st_lift (reject (MAX_CONTRIBUTION_BODY_BYTES <? String.length bytes) "chat contribution body is too large");
  created_at ← now_iso;
  updated_at ← now_iso;
  mret {| cc_source_app_id := source_app_id; cc_source_app_version := source_app_version; cc_source_contract := 1;
          cc_item_id := item_id; cc_revision := revision; cc_digest := digest; cc_completeness := completeness;
          cc_lifecycle := LifecycleAccepted; cc_kind := kind; cc_title := title; cc_body := body;
          cc_created_at := created_at; cc_updated_at := updated_at |}.

Fixpoint parse_contributions (source_app_id source_app_version : string)
    (seen : list (ChatContributionKind * string)) (items : list Value) : chat_op (list ChatContribution) :=
  match items with
  | [] => mret []
  | item :: items' =>
      contribution ← parse_contribution source_app_id source_app_version seen item;
      rest ← parse_contributions source_app_id source_app_version
               ((cc_kind contribution, cc_item_id contribution) :: seen) items';
      mret (contribution :: rest)
  end.

Definition authorized_thread (resource_id : string) (document : ChatStoreDocument) : outcome string ChatThread :=
  ok_or (find_thread_by_resource_id document resource_id) ("unknown chat thread resource: " +:+ resource_id).

(** [chat.propose_draft]. *)
Definition propose_draft (input : JsonObject) (ctx : InvocationContext) : chat_op CapabilityOutcome :=
  resource_id ← st_lift (get_str input "resource_id" "chat resource_id is required");
  contributions ← st_lift (get_array input "contributions" "chat contributions are required");
  _ ← st_lift (reject (bool_decide (length contributions = 0)) "chat contributions are required");
  _ ← st_lift (reject (MAX_CONTRIBUTIONS_PER_CALL <? length contributions) "too many chat contributions");
  _ ← st_lift (reject (negb (scope_names (ic_authorized_data_scope ctx) resource_id)) UNAUTHORIZED_THREAD);
  document ← st_get cs_document;
  thread ← st_lift (authorized_thread resource_id document);
  pending ← parse_contributions (ic_invoked_by ctx) (ic_invoked_by_version ctx) [] contributions;
  thread ← upsert_contributions (ct_id thread) pending MAX_CONTRIBUTIONS_PER_CALL MAX_CONTRIBUTIONS_PER_THREAD;
  mret {| co_result := json_obj [("thread", thread_ref_to_value (thread_ref thread));
                                 ("contributions", VArray (contribution_to_value <$> ct_contributions thread))];
          co_artifacts := [] |}.

(** One iteration of the loop of [chat.inject_user_context], with the item ids seen and the
    characters counted. *)
Definition parse_operation (now : string) (thread : ChatThread) (ctx : InvocationContext)
    (seen : list string) (total_chars : N) (operation : Value) :
    outcome string (string * N * ChatInjectedContextUpdate) :=
  object ← ok_or (Value_as_object operation) "injected context operation must be an object";
  kind ← get_str object "kind" "injected context operation kind is required";
  item_id ← get_str object "item_id" "injected context item_id is required";
  revision ← get_u64 object "revision" "injected context revision is required";
  _ ← reject (bool_decide (item_id ∈ seen)) "duplicate injected context item_id";
  if bool_decide (kind = "upsert") then
    content ← get_str object "content" "injected context content is required";
    let chars := N.of_nat (chars_count content) in
    _ ← reject ((chars =? 0) || (MAX_INJECTED_CONTEXT_CHARS <? chars))%N "injected context content is empty or too large";
    let total_chars := saturating_add total_chars chars in
    _ ← reject (MAX_INJECTED_CONTEXT_TOTAL_CHARS_PER_CALL <? total_chars)%N
          "injected context call exceeds the total size limit";
    let created_at :=
      default now (ic_created_at <$> List.find (same_context (ic_invoked_by ctx) item_id) (ct_injected_contexts thread)) in
    Ok (item_id, total_chars, ContextUpsert
      {| ic_source_app_id := ic_invoked_by ctx; ic_source_app_version := ic_invoked_by_version ctx;
         ic_source_app_content_hash := ic_invoked_by_content_hash ctx; ic_source_run_id := ic_run_id ctx;
         ic_item_id := item_id; ic_revision := revision; ic_content_digest := sha256_hex content; ic_content := content;
         ic_created_at := created_at; ic_updated_at := now |})
  else if bool_decide (kind = "remove") then Ok (item_id, total_chars, ContextRemove (ic_invoked_by ctx) item_id revision)
  else Err "invalid injected context operation kind".

Fixpoint parse_operations (now : string) (thread : ChatThread) (ctx : InvocationContext)
    (seen : list string) (total_chars : N) (operations : list Value) :
    outcome string (list ChatInjectedContextUpdate) :=
  match operations with
  | [] => Ok []
  | operation :: operations' =>
      parsed ← parse_operation now thread ctx seen total_chars operation;
      let '(item_id, total_chars, update) := parsed in
      rest ← parse_operations now thread ctx (item_id :: seen) total_chars operations';
      Ok (update :: rest)
  end.

Definition chat_context_limits : ContextLimits :=
  {| li_max_per_source := MAX_INJECTED_CONTEXTS_PER_SOURCE; li_max_total := MAX_INJECTED_CONTEXTS_PER_THREAD;
     li_max_chars_per_source := MAX_INJECTED_CONTEXT_CHARS_PER_SOURCE;
     li_max_total_chars := MAX_INJECTED_CONTEXT_CHARS_PER_THREAD |}.

(** [chat.inject_user_context]. *)
Definition inject_user_context (input : JsonObject) (ctx : InvocationContext) : chat_op CapabilityOutcome :=
  resource_id ← st_lift (get_str input "resource_id" "chat resource_id is required");
  operations ← st_lift (get_array input "operations" "injected context operations are required");
  _ ← st_lift (reject (bool_decide (length operations = 0) || (MAX_INJECTED_CONTEXTS_PER_CALL <? length operations))
                 "injected context operation count is out of bounds");
  _ ← st_lift (reject (negb (scope_names (ic_authorized_data_scope ctx) resource_id)) UNAUTHORIZED_THREAD);
  document ← st_get cs_document;
  thread ← st_lift (authorized_thread resource_id document);
  now ← now_iso;
  updates ← st_lift (parse_operations now thread ctx [] 0 operations);
  thread ← apply_injected_context_updates (ct_id thread) updates chat_context_limits;
  mret {| co_result := json_obj [("thread", thread_ref_to_value (thread_ref thread));
                                 ("accepted_operations", json_number (N.of_nat (length updates)))];
          co_artifacts := [] |}.

(** [iter().position(p)]. *)
Fixpoint position {A} (p : A -> bool) (l : list A) : option nat :=
  match l with
  | [] => None
  | x :: l' => if p x then Some 0 else S <$> position p l'
  end.

Definition page_limit (input : JsonObject) : nat := N.to_nat (default 50%N (obj_get input "limit" ≫= Value_as_u64)).

(** The threads a scope names, the latest first. *)
Definition authorized_refs (document : ChatStoreDocument) (resource_ids : list ResourceId) : list ChatThreadRef :=
  List.filter (fun thread => bool_decide (th_resource_id thread ∈ resource_ids)) (list_thread_refs document).

Definition page_of_refs (threads : list ChatThreadRef) (cursor : option string) (limit : nat) :
    outcome string (list ChatThreadRef * option string) :=
  start ← match cursor with
          | Some cursor =>
              position ← ok_or (position (fun thread => bool_decide (th_resource_id thread = cursor)) threads)
                           "invalid chat thread cursor";
              Ok (position + 1)
          | None => Ok 0
          end;
  let available := drop start threads in
  let page := take limit available in
  Ok (page, if limit <? length available then th_resource_id <$> last page else None).

(** [chat.list_threads]. *)
Definition list_threads_handler (input : JsonObject) (ctx : InvocationContext) : chat_op CapabilityOutcome :=
  let cursor := obj_get input "cursor" ≫= Value_as_str in
  resource_ids ← st_lift (match ic_authorized_data_scope ctx with
                          | Resources resource_ids => Ok resource_ids
                          | NoData | AllResources => Err "chat thread resource authorization is required"
                          end);
  document ← st_get cs_document;
  paged ← st_lift (page_of_refs (authorized_refs document resource_ids) cursor (page_limit input));
  mret {| co_result := json_obj [("threads", VArray (thread_ref_to_value <$> paged.1));
                                 ("next_cursor", json_option VString paged.2)];
          co_artifacts := [] |}.

(** [chat.read_thread]. *)
Definition read_thread_handler (input : JsonObject) (ctx : InvocationContext) : chat_op CapabilityOutcome :=
  resource_id ← st_lift (get_str input "resource_id" "chat thread resource_id is required");
  _ ← st_lift (reject (negb (scope_names (ic_authorized_data_scope ctx) resource_id)) UNAUTHORIZED_THREAD);
  document ← st_get cs_document;
  page ← st_lift (get_thread_page document resource_id (obj_get input "cursor" ≫= Value_as_u64) (page_limit input));
  mret {| co_result := page_to_value page; co_artifacts := [] |}.

(** [chat_handlers]: the handlers by the names of their capabilities. *)
Definition chat_handlers : list (CapabilityName * (JsonObject -> InvocationContext -> chat_op CapabilityOutcome)) :=
  [("chat.propose_draft", propose_draft); (CHAT_INJECT_USER_CONTEXT, inject_user_context);
   ("chat.list_threads", list_threads_handler); ("chat.read_thread", read_thread_handler)].

(** A failure of a handler is its text. *)
Definition run_chat_handler (handler : JsonObject -> InvocationContext -> chat_op CapabilityOutcome)
    (input : JsonObject) (ctx : InvocationContext) : st ChatStore HandlerFailure CapabilityOutcome :=
  st_map_err Build_HandlerFailure (handler input ctx).
End handlers.

(** ** Context that still stands *)

Record AuthorizedChatInjectedContext := {
  au_context : ChatInjectedContext;
  au_source_app_name : string;
  au_grant_id : GrantId;
}.

Definition inject_capability : CapabilityRef :=
  {| cr_provider := chat_app_id; cr_capability := CHAT_INJECT_USER_CONTEXT |}.

(** The first completed invocation of [chat.inject_user_context] in a run. *)
Fixpoint injecting_invocation (invocations : list InvocationRecord) : option (GrantId * DataScope) :=
  match invocations with
  | [] => None
  | RecCompleted capability grant_id data_scope :: invocations' =>
      if bool_decide (capability = inject_capability) then Some (grant_id, data_scope)
      else injecting_invocation invocations'
  | _ :: invocations' => injecting_invocation invocations'
  end.

(** The app a context came from and the grant it was injected under, if the app is the same
    and its run ended well. *)
Definition injection_of (registry : Registry) (ledger : RunLedger) (requested_scope : DataScope)
    (context : ChatInjectedContext) : option (InstalledApp * GrantId) :=
  match Registry_app registry (ic_source_app_id context), run_view ledger (ic_source_run_id context) with
  | Ok installed, Ok run =>
      if negb (bool_decide (ia_content_hash installed = ic_source_app_content_hash context)) then None
      else if negb (bool_decide (RunView_initiating_app run = ic_source_app_id context))
              || negb (bool_decide (rv_terminal_state run = Some RunCompleted)) then None
      else
        injected ← injecting_invocation (rv_invocations run);
        if DataScope_covers injected.2 requested_scope then Some (installed, injected.1) else None
  | _, _ => None
  end.

Definition grant_stands (requested_scope : DataScope) (grant_id : GrantId) (status : GrantStatusView) : bool :=
  bool_decide (g_grant_id (gsv_grant status) = grant_id) && bool_decide (gsv_status status = StatusActive)
  && GrantScope_covers (g_scope (gsv_grant status)) inject_capability
  && DataScope_covers (g_data_scope (gsv_grant status)) requested_scope.

Section authorize.
Context {W : Type} `{Libraries, Environment W}.

(** [authorize_injected_contexts], on the services of the kernel. *)
Fixpoint authorize_injected_contexts (registry : Registry) (ledger : RunLedger) (broker : PermissionBroker)
    (thread_resource_id : string) (contexts : list ChatInjectedContext) :
    st W string (list AuthorizedChatInjectedContext) :=
  match contexts with
  | [] => mret []
  | context :: contexts' =>
      let requested_scope := Resources [thread_resource_id] in
      _ ← st_lift (reject (negb (bool_decide (sha256_hex (ic_content context) = ic_content_digest context)))
                     ("stored injected context digest mismatch for "
                      +:+ pair_label (ic_source_app_id context) (ic_item_id context)));
      kept ← match injection_of registry ledger requested_scope context with
             | None => mret []
             | Some (installed, grant_id) =>
                 statuses ← st_map_err KernelError_display (grant_statuses_for broker (ic_source_app_id context));
                 mret (if existsb (grant_stands requested_scope grant_id) statuses
                       then [{| au_context := context; au_source_app_name := m_display_name (ia_manifest installed);
                                au_grant_id := grant_id |}]
                       else [])
             end;
      rest ← authorize_injected_contexts registry ledger broker thread_resource_id contexts';
      mret (kept ++ rest)
  end.
End authorize.

(** ** What a model is shown *)

Record ToolCallFunction := { tf_name : string; tf_arguments : string }.
Record ToolCall := { tc_id : string; tc_type : string; tc_function : ToolCallFunction }.
Record LlmChatMessage := {
  lm_role : string;
  lm_content : string;
  lm_tool_calls : option (list ToolCall);
  lm_tool_call_id : option string;
  lm_name : option string;
}.

Definition plain (role content : string) : LlmChatMessage :=
  {| lm_role := role; lm_content := content; lm_tool_calls := None; lm_tool_call_id := None; lm_name := None |}.

Definition history_message (view : ChatMessage) : option LlmChatMessage :=
  let text := trim (mg_text view) in
  if bool_decide (text = EmptyString) then None
  else match mg_role view with
  | RoleUser => if bool_decide (mg_status view = Some MsgCompleted) then Some (plain "user" (mg_text view)) else None
  | RoleAssistant => if bool_decide (mg_status view = Some MsgPending) then None else Some (plain "assistant" (mg_text view))
  | RoleToolStatus =>
      match mg_status view with
      | Some MsgCompleted => if bool_decide (mg_run_id view = None) then None else Some (plain "assistant" ("[tool success] " +:+ text))
      | Some MsgFailed => Some (plain "assistant" ("[tool error] " +:+ text))
      | _ => None
      end
  | RoleSystem => None
  end.

Definition TRUNCATED_SUFFIX : string := String (Ascii.ascii_of_N 10) "[truncated by Chat]".

Definition truncate_chars (value : string) (limit : nat) : string :=
  if chars_count value <=? limit then value
  else take_chars (limit - chars_count TRUNCATED_SUFFIX) value +:+ TRUNCATED_SUFFIX.

Definition history_chars (history : list LlmChatMessage) : nat :=
  sum_list_with (fun message => chars_count (lm_content message)) history.

(** The loop that drops the oldest message while there is too much text. *)
Fixpoint drop_oldest (history : list LlmChatMessage) : list LlmChatMessage :=
  match history with
  | [] => []
  | message :: history' =>
      if (1 <? length history) && (MAX_HISTORY_CHARS <? history_chars history) then drop_oldest history' else history
  end.

Definition set_content (content : string) (message : LlmChatMessage) : LlmChatMessage :=
  {| lm_role := lm_role message; lm_content := content; lm_tool_calls := lm_tool_calls message;
     lm_tool_call_id := lm_tool_call_id message; lm_name := lm_name message |}.

Definition conversation_history (transcript : list ChatMessage) : list LlmChatMessage :=
  let history := omap history_message transcript in
  let recent := if MAX_HISTORY_MESSAGES <? length history then drop (length history - MAX_HISTORY_MESSAGES) history else history in
  match drop_oldest recent with
  | [] => []
  | message :: history' => set_content (truncate_chars (lm_content message) MAX_HISTORY_CHARS) message :: history'
  end.

Record PreparedChatInjectedContext := { pc_message : LlmChatMessage; pc_receipt : ChatInjectedContextReceipt }.

Definition context_entry_to_value (authorized : AuthorizedChatInjectedContext) : Value :=
  let context := au_context authorized in
  json_obj [("source_app_id", VString (ic_source_app_id context)); ("source_app_name", VString (au_source_app_name authorized));
            ("source_app_version", VString (ic_source_app_version context)); ("item_id", VString (ic_item_id context));
            ("revision", json_number (ic_revision context)); ("text", VString (ic_content context))].

Definition context_entry_receipt (authorized : AuthorizedChatInjectedContext) : ChatInjectedContextEntryReceipt :=
  let context := au_context authorized in
  {| er_source_app_id := ic_source_app_id context; er_source_app_name := au_source_app_name authorized;
     er_source_app_version := ic_source_app_version context; er_item_id := ic_item_id context;
     er_revision := ic_revision context; er_source_run_id := ic_source_run_id context;
     er_grant_id := au_grant_id authorized; er_content_digest := ic_content_digest context |}.

Definition CONTEXT_HEADER : string :=
  "[Authorized app context]" +:+ String (Ascii.ascii_of_N 10)
    ("For the next user message. Each text value is supplemental user-level context supplied under an active Kestral grant. The next visible user message wins any conflict."
     +:+ String (Ascii.ascii_of_N 10) EmptyString).

Definition prepare_injected_context `{Libraries} (contexts : list AuthorizedChatInjectedContext) (record_exact : bool) :
    outcome string (option PreparedChatInjectedContext) :=
  if bool_decide (length contexts = 0) then Ok None
  else
    serialized ← json_to_vec (VArray (context_entry_to_value <$> contexts));
    let content := CONTEXT_HEADER +:+ serialized in
    Ok (Some {| pc_message := plain "user" content;
                pc_receipt := {| ir_message_digest := sha256_hex content; ir_entries := context_entry_receipt <$> contexts;
                                 ir_exact_message := if record_exact then Some content else None |} |}).

(** ** What a model is shown of a transcript *)

Lemma chars_count_app s1 s2 : chars_count (s1 +:+ s2) = chars_count s1 + chars_count s2.
Proof. induction s1 as [|c s1 IH]; simpl; [done|]. rewrite IH. by destruct (is_continuation (byte c)). Qed.

Lemma truncate_chars_count value limit :
  chars_count TRUNCATED_SUFFIX <= limit -> chars_count (truncate_chars value limit) <= limit.
Proof.
  intros Hs. unfold truncate_chars. destruct (Nat.leb_spec (chars_count value) limit); [done|].
  rewrite chars_count_app. pose proof (take_chars_count (limit - chars_count TRUNCATED_SUFFIX) value). lia.
Qed.

(** What dropping leaves fits, unless a single message is left. *)
Lemma drop_oldest_spec history :
  ∃ k, drop_oldest history = drop k history /\
    (history <> [] -> drop_oldest history <> []) /\
    (length (drop_oldest history) <= 1 \/ history_chars (drop_oldest history) <= MAX_HISTORY_CHARS) /\
    (history_chars history <= MAX_HISTORY_CHARS -> k = 0).
Proof.
  Opaque MAX_HISTORY_CHARS.
  induction history as [|m l (k & IH & Hne & Hfit & _)]; [exists 0; split_and!; [done|done|left; simpl; lia|done]|]. cbn [drop_oldest].
  destruct ((1 <? length (m :: l)) && (MAX_HISTORY_CHARS <? history_chars (m :: l))) eqn:E.
  - apply andb_true_iff in E as [Hlen%Nat.ltb_lt Hc%Nat.ltb_lt].
    exists (S k). split; [exact IH|]. split; [|split; [exact Hfit|lia]]. intros _. apply Hne. by destruct l; [simpl in Hlen; lia|].
  - exists 0. split; [done|]. split; [done|]. split; [|done].
    apply andb_false_iff in E as [Hlen%Nat.ltb_ge|Hc%Nat.ltb_ge]; [by left|by right].
  Transparent MAX_HISTORY_CHARS.
Qed.

Definition replayable (transcript : list ChatMessage) : list LlmChatMessage := omap history_message transcript.

(** C40: What a model is shown of a conversation is bounded and is its end. Whatever is stored,
    at most forty messages and at most 65536 characters are replayed; they are the last
    replayable messages in their order, the oldest of which may have been cut, never none when
    there is one; a transcript that fits is replayed whole. *)
Theorem history_is_bounded transcript :
  let history := conversation_history transcript in
  length history <= MAX_HISTORY_MESSAGES /\ history_chars history <= MAX_HISTORY_CHARS /\
  (∃ k, tail history = tail (drop k (replayable transcript)) /\
        (∃ text, head history = set_content text <$> head (drop k (replayable transcript)))) /\
  (history = [] <-> replayable transcript = []) /\
  (length (replayable transcript) <= MAX_HISTORY_MESSAGES -> history_chars (replayable transcript) <= MAX_HISTORY_CHARS ->
   history = replayable transcript).
Proof.
  Opaque MAX_HISTORY_CHARS MAX_HISTORY_MESSAGES.
  intros history. unfold history, conversation_history, replayable. set (all := omap history_message transcript).
  set (recent := if MAX_HISTORY_MESSAGES <? length all then _ else all).
  assert (∃ k, recent = drop k all /\ length recent <= MAX_HISTORY_MESSAGES /\ (length all <= MAX_HISTORY_MESSAGES -> k = 0)
    /\ (all <> [] -> recent <> [])) as (k1 & Hrecent & Hlen & Hk1 & Hne1).
  { unfold recent. destruct (Nat.ltb_spec MAX_HISTORY_MESSAGES (length all)).
    - exists (length all - MAX_HISTORY_MESSAGES). rewrite length_drop. split_and!; [done|lia|lia|].
      intros _ Hnil%(f_equal length). rewrite length_drop in Hnil. simpl in Hnil.
      Transparent MAX_HISTORY_MESSAGES. unfold MAX_HISTORY_MESSAGES in *. Opaque MAX_HISTORY_MESSAGES. lia.
    - exists 0. split_and!; done. }
  destruct (drop_oldest_spec recent) as (k2 & Hdrop & Hne2 & Hfit & Hk2).
  assert (length (drop_oldest recent) <= MAX_HISTORY_MESSAGES) as Hlen2 by (rewrite Hdrop, length_drop; lia).
  replace (drop k2 recent) with (drop (k1 + k2) all) in Hdrop by (rewrite Hrecent; by rewrite drop_drop).
  clearbody recent.
  assert (chars_count TRUNCATED_SUFFIX <= MAX_HISTORY_CHARS) as Hsuffix.
  { apply Nat.leb_le. vm_compute. reflexivity. }
  destruct (drop_oldest recent) as [|m l] eqn:E.
  - assert (all = []) as -> by (destruct all; [done|]; exfalso; by apply Hne2; [apply Hne1|]).
    split_and!; [simpl; lia|simpl; lia| |done|done]. exists 0. split; [done|]. by exists EmptyString.
  - assert (history_chars (m :: l) <= MAX_HISTORY_CHARS -> truncate_chars (lm_content m) MAX_HISTORY_CHARS = lm_content m) as Hsame.
    { simpl. intros Hle. unfold truncate_chars. by rewrite (proj2 (Nat.leb_le _ _)) by (unfold history_chars in Hle; simpl in Hle; lia). }
    split_and!.
    + done.
    + pose proof (truncate_chars_count (lm_content m) MAX_HISTORY_CHARS Hsuffix) as Ht. unfold history_chars in *. simpl in *.
      destruct Hfit as [Hone|Hle]; [destruct l; simpl in *; lia|]. rewrite Hsame by done. lia.
    + exists (k1 + k2). rewrite <- Hdrop. split; [done|]. by eexists.
    + split; [done|]. intros Hnil. rewrite Hnil, drop_nil in Hdrop. done.
    + intros Ha Hb. rewrite (Hk1 Ha) in *. rewrite drop_0 in Hrecent. rewrite Hrecent in Hk2. rewrite (Hk2 Hb) in Hdrop.
      rewrite drop_0 in Hdrop. rewrite <- Hdrop. f_equal. rewrite Hsame; [by destruct m|]. by rewrite Hdrop.
  Transparent MAX_HISTORY_CHARS MAX_HISTORY_MESSAGES.
Qed.

(** ** Standing consent *)

Section standing.
Context {W : Type} `{Libraries, Environment W}.

(** One reading of the clock. *)
Definition clock_read (w w' : W) : Prop := (env_now w).2 = w'.

(** All that a context needs to be shown: the app that wrote it is the installed one, wrote it
    in a run that ended well, and at [now] holds the grant it used, for this thread. *)
Record stands (registry : Registry) (ledger : RunLedger) (broker : PermissionBroker) (resource_id : string)
    (now : DateTime) (a : AuthorizedChatInjectedContext) : Prop := {
  sd_content : sha256_hex (ic_content (au_context a)) = ic_content_digest (au_context a);
  sd_source : ∃ installed, Registry_app registry (ic_source_app_id (au_context a)) = Ok installed /\
    ia_content_hash installed = ic_source_app_content_hash (au_context a) /\
    m_display_name (ia_manifest installed) = au_source_app_name a;
  sd_run : ∃ run scope, run_view ledger (ic_source_run_id (au_context a)) = Ok run /\
    RunView_initiating_app run = ic_source_app_id (au_context a) /\ rv_terminal_state run = Some RunCompleted /\
    RecCompleted inject_capability (au_grant_id a) scope ∈ rv_invocations run /\
    DataScope_covers scope (Resources [resource_id]) = true;
  sd_grant : ∃ grant, grant ∈ btree_values (b_grants broker) /\ g_grant_id grant = au_grant_id a /\
    g_holder grant = ic_source_app_id (au_context a) /\ (au_grant_id a ∉ b_revoked broker) /\
    Grant_is_expired grant now = false /\ GrantScope_covers (g_scope grant) inject_capability = true /\
    DataScope_covers (g_data_scope grant) (Resources [resource_id]) = true;
}.

Lemma injecting_invocation_Some invocations grant_id scope :
  injecting_invocation invocations = Some (grant_id, scope) -> RecCompleted inject_capability grant_id scope ∈ invocations.
Proof.
  induction invocations as [|[capability g d| | |] l IH]; simpl; [done| |intros; right; auto..].
  case_bool_decide; [intros [= -> ->]; subst; left|intros; right; auto].
Qed.

Lemma injection_of_Some registry ledger scope context installed grant_id :
  injection_of registry ledger scope context = Some (installed, grant_id) ->
  Registry_app registry (ic_source_app_id context) = Ok installed /\
  ia_content_hash installed = ic_source_app_content_hash context /\
  ∃ run data_scope, run_view ledger (ic_source_run_id context) = Ok run /\
    RunView_initiating_app run = ic_source_app_id context /\ rv_terminal_state run = Some RunCompleted /\
    RecCompleted inject_capability grant_id data_scope ∈ rv_invocations run /\ DataScope_covers data_scope scope = true.
Proof.
  unfold injection_of. destruct (Registry_app _ _) as [app| |]; [|done..]. destruct (run_view _ _) as [run| |]; [|done..].
  case_bool_decide as Hh; simpl; [|done]. case_bool_decide as Hi; simpl; [|done]. case_bool_decide as Ht; simpl; [|done].
  destruct (injecting_invocation _) as [[g d]|] eqn:E; simpl; [|done]. destruct (DataScope_covers d scope) eqn:Hc; [|done].
  intros [= <- <-]. apply injecting_invocation_Some in E. split_and!; [done|done|]. by exists run, d.
Qed.

Lemma grant_statuses_run broker holder (w : W) :
  grant_statuses_for broker holder w =
  (Ok ((fun grant => {| gsv_grant := grant;
        gsv_status := if is_revoked broker grant then StatusRevoked
                      else if Grant_is_expired grant (env_now w).1 then StatusExpired else StatusActive |})
       <$> List.filter (fun grant => bool_decide (g_holder grant = holder)) (btree_values (b_grants broker))),
   (env_now w).2).
Proof. unfold grant_statuses_for, clock_now, mbind, st_bind. by destruct (env_now w). Qed.

Lemma grant_stands_inv broker holder scope grant_id (w : W) statuses w' :
  grant_statuses_for broker holder w = (Ok statuses, w') -> existsb (grant_stands scope grant_id) statuses = true ->
  ∃ grant, grant ∈ btree_values (b_grants broker) /\ g_grant_id grant = grant_id /\ g_holder grant = holder /\
    (grant_id ∉ b_revoked broker) /\ Grant_is_expired grant (env_now w).1 = false /\
    GrantScope_covers (g_scope grant) inject_capability = true /\ DataScope_covers (g_data_scope grant) scope = true.
Proof.
  rewrite grant_statuses_run. intros [= <- _]. rewrite existsb_exists. intros (status & Hin & Hst).
  rewrite <- list_elem_of_In in Hin. apply list_elem_of_fmap in Hin as (grant & -> & Hin).
  rewrite list_elem_of_In, List.filter_In, <- list_elem_of_In in Hin. destruct Hin as [Hin Hholder%bool_decide_eq_true].
  unfold grant_stands in Hst. simpl in Hst.
  apply andb_true_iff in Hst as [[[Hid%bool_decide_eq_true Hact%bool_decide_eq_true]%andb_true_iff Hc]%andb_true_iff Hd].
  exists grant. unfold is_revoked in Hact. case_bool_decide as Hr; [done|]. rewrite Hid in Hr.
  destruct (Grant_is_expired _ _); [done|]. done.
Qed.

(** C20: Context that apps put into a conversation reaches a model only while the consent to it
    stands. Of the stored contexts, those that are shown, in their order, are intact; each was
    written by the app that is installed now under that name with the very same content, in a
    run of that app that completed, through an invocation that named this conversation; and the
    grant that invocation used is neither revoked nor, by the clock at this moment, expired, and
    still covers injecting into this conversation. *)
Theorem injected_context_needs_standing_consent registry ledger broker resource_id contexts (w w' : W) authorized :
  authorize_injected_contexts registry ledger broker resource_id contexts w = (Ok authorized, w') ->
  (au_context <$> authorized) `sublist_of` contexts /\ rtc clock_read w w' /\
  ∀ a, a ∈ authorized -> ∃ w0, rtc clock_read w w0 /\ rtc clock_read w0 w' /\
    stands registry ledger broker resource_id (env_now w0).1 a.
Proof.
  revert w authorized. induction contexts as [|context contexts IH]; intros w authorized; cbn [authorize_injected_contexts].
  - intros [= <- <-]. split_and!; [constructor|done|]. intros a Ha. inversion Ha.
  - intros ([] & w0 & [Hdigest%reject_Ok <-]%st_lift_inv & Hrun)%st_bind_Ok_inv.
    apply negb_false_iff, bool_decide_eq_true in Hdigest.
    apply st_bind_Ok_inv in Hrun as (kept & w1 & Hkept & (rest & w2 & Hrest & [= <- <-])%st_bind_Ok_inv).
    assert (rtc clock_read w w1 /\ (kept = [] \/ ∃ a, kept = [a] /\ au_context a = context /\
      stands registry ledger broker resource_id (env_now w).1 a)) as [Hw Hcase].
    { destruct (injection_of _ _ _ _) as [[installed grant_id]|] eqn:Ei; [|injection Hkept as <- <-; split; [done|by left]].
      apply injection_of_Some in Ei as (Hreg & Hhash & Hrun). apply st_bind_Ok_inv in Hkept as (statuses & w3 & Hst & [= <- <-]).
      unfold st_map_err in Hst. destruct (grant_statuses_for _ _ w) as [[st|?|?] w4] eqn:Eg; [|done..]. injection Hst as <- <-.
      split; [apply rtc_once; unfold clock_read; rewrite grant_statuses_run in Eg; by injection Eg|].
      destruct (existsb _ st) eqn:Ee; [|by left]. right. eexists. split; [done|]. split; [done|].
      constructor; simpl; [done|by eexists|done|by eapply grant_stands_inv]. }
    destruct (IH w1 rest Hrest) as (Hsub & Hrtc & Hall). split_and!.
    + destruct Hcase as [->|(a & -> & Ha & _)]; simpl; [by constructor|]. rewrite Ha. by constructor.
    + by trans w1.
    + intros a [Ha|Ha]%elem_of_app.
      * destruct Hcase as [->|(b & -> & _ & Hb)]; [inversion Ha|]. apply list_elem_of_singleton in Ha as ->.
        exists w. split_and!; [done|by trans w1|done].
      * destruct (Hall a Ha) as (w0 & H1 & H2 & H3). exists w0. split_and!; [by trans w1|done|done].
Qed.
End standing.

(** ** What a call may change *)

(** Nothing of a thread but the contributions and the context of [app]. *)
Record own_changes (app : string) (t t' : ChatThread) : Prop := {
  oc_id : ct_id t' = ct_id t;
  oc_resource : ct_resource_id t' = ct_resource_id t;
  oc_title : ct_title t' = ct_title t;
  oc_messages : ct_messages t' = ct_messages t;
  oc_receipts : ct_prompt_receipts t' = ct_prompt_receipts t;
  oc_setup : ct_setup t' = ct_setup t;
  oc_contributions : ∀ c, cc_source_app_id c <> app -> c ∈ ct_contributions t' <-> c ∈ ct_contributions t;
  oc_contexts : ∀ c, ic_source_app_id c <> app -> c ∈ ct_injected_contexts t' <-> c ∈ ct_injected_contexts t;
  oc_tombstones : ∀ b, tb_source_app_id b <> app ->
    b ∈ ct_injected_context_tombstones t' <-> b ∈ ct_injected_context_tombstones t;
}.

Lemma replace_first_elem {A} (p : A -> bool) f l l' c :
  replace_first p f l = Some l' -> (∀ y, p y = true -> c <> y /\ c <> f y) -> c ∈ l' <-> c ∈ l.
Proof.
  revert l'. induction l as [|x l IH]; intros l' Hrep Hc; simpl in Hrep; [done|]. destruct (p x) eqn:E.
  - injection Hrep as <-. destruct (Hc x E). rewrite !elem_of_cons. tauto.
  - destruct (replace_first p f l) as [l1|]; [|done]. injection Hrep as <-. rewrite !elem_of_cons, (IH l1); done.
Qed.

Lemma upsert_into_foreign l x c :
  cc_source_app_id c <> cc_source_app_id x -> c ∈ upsert_into l x <-> c ∈ l.
Proof.
  intros Hc. assert (c <> x) by congruence. unfold upsert_into. destruct (replace_first _ _ l) as [l'|] eqn:E; simpl.
  - eapply replace_first_elem; [exact E|]. intros y Hy. split; [|done]. intros ->. unfold ContributionIdentity_matches in Hy.
    apply andb_true_iff in Hy as [[Hy%bool_decide_eq_true _]%andb_true_iff _]. by apply Hc.
  - rewrite elem_of_app, list_elem_of_singleton. tauto.
Qed.

Lemma updated_contributions_own contributions max_per_source max_total app t t' :
  Forall (fun x => cc_source_app_id x = app) contributions ->
  updated_contributions contributions max_per_source max_total t = Ok t' -> own_changes app t t' /\ held_of t' = held_of t.
Proof.
  unfold updated_contributions. intros Hall Hrun. do 2 apply bind_unit_Ok in Hrun as [_ Hrun]. injection Hrun as <-.
  split; [|done]. constructor; try done. simpl. intros c Hc. rewrite elem_of_sort_by.
  assert (∀ l, c ∈ foldl upsert_into l contributions <-> c ∈ l) as Hfold; [|apply Hfold].
  induction Hall as [|x l' Hx Hall IH]; intros l; simpl; [done|]. rewrite IH. apply upsert_into_foreign. congruence.
Qed.

Definition update_source (u : ChatInjectedContextUpdate) : string :=
  match u with ContextUpsert c => ic_source_app_id c | ContextRemove source _ _ => source end.

(** Contexts of other apps are found as before. *)
Lemma apply_updates_foreign app updates held held' id :
  Forall (fun u => update_source u = app) updates -> id.1 <> app -> apply_updates updates held = Ok held' ->
  find_key context_identity id held'.1 = find_key context_identity id held.1 /\
  find_key tombstone_identity id held'.2 = find_key tombstone_identity id held.2.
Proof.
  intros Hall Hid. revert held. induction Hall as [|u l Hu Hall IH]; intros held; simpl; [by intros [= ->]|].
  intros (held1 & Ha & Hrest)%bind_Ok_inv. destruct (IH held1 Hrest) as [-> ->]. destruct u as [c|source item revision]; simpl in *.
  - apply upsert_context_Ok in Ha as (_ & Hf & Ht & _). by rewrite Hf, Ht, !decide_False by (intros ->; by apply Hid).
  - apply remove_context_Ok in Ha as (_ & Hf & _ & Ht & _). rewrite Hf, Ht by (intros ->; simpl in *; congruence).
    by rewrite decide_False by (intros ->; simpl in *; congruence).
Qed.

Lemma elem_of_key {A K} `{EqDecision K} (key : A -> K) l x :
  NoDup (key <$> l) -> x ∈ l <-> find_key key (key x) l = Some x.
Proof. intros Hn. split; [intros Hx; by apply find_key_unique|by intros [? _]%find_key_Some]. Qed.

Lemma updated_contexts_own `{Libraries, Chrono} updates limits app t t' :
  contexts_ok t -> Forall update_ok updates -> Forall (fun u => update_source u = app) updates ->
  updated_contexts updates limits t = Ok t' -> own_changes app t t'.
Proof.
  intros [Hheld _] Hok Hall (held & Ha & -> & _)%updated_contexts_Ok.
  pose proof (proj2 (apply_updates_Ok _ _ _ Ha) Hheld Hok) as Hheld'. constructor; try done; simpl.
  - intros c Hc. rewrite elem_of_sort_by, (elem_of_key context_identity held.1) by apply Hheld'.
    rewrite (elem_of_key context_identity (ct_injected_contexts t)) by apply Hheld.
    by rewrite (proj1 (apply_updates_foreign app _ _ _ (context_identity c) Hall Hc Ha)).
  - intros b Hb. rewrite (elem_of_key tombstone_identity held.2) by apply Hheld'.
    rewrite (elem_of_key tombstone_identity (ct_injected_context_tombstones t)) by apply Hheld.
    by rewrite (proj2 (apply_updates_foreign app _ _ _ (tombstone_identity b) Hall Hb Ha)).
Qed.

Section calls.
Context `{Libraries, Uuids, Chrono, !ChronoLaws, ChatCodec, !ChatCodecLaws}.

(** The caller as the kernel fills it in, and the bounds of the declared input schema. *)
Record caller_ok (ctx : InvocationContext) : Prop := {
  co_app : ic_invoked_by ctx <> EmptyString;
  co_version : ic_invoked_by_version ctx <> EmptyString;
  co_hash : ic_invoked_by_content_hash ctx <> EmptyString;
  co_run : ic_run_id ctx <> EmptyString;
}.

Definition item_ids_ok (input : JsonObject) : Prop :=
  ∀ operations operation object item_id,
    obj_get input "operations" ≫= Value_as_array = Some operations -> operation ∈ operations ->
    Value_as_object operation = Some object -> obj_get object "item_id" ≫= Value_as_str = Some item_id ->
    item_id <> EmptyString /\ chars_count item_id <= 256.

Lemma now_iso_parses s now s' : now_iso s = (Ok now, s') -> rfc3339_ok now = true.
Proof. unfold now_iso. intros [= <- _]. apply now_parses. Qed.

Lemma parse_operation_update now thread ctx seen total operation item_id total' u :
  rfc3339_ok now = true -> contexts_ok thread -> caller_ok ctx ->
  (∀ object id, Value_as_object operation = Some object -> obj_get object "item_id" ≫= Value_as_str = Some id ->
     id <> EmptyString /\ chars_count id <= 256) ->
  parse_operation now thread ctx seen total operation = Ok (item_id, total', u) ->
  update_ok u /\ update_source u = ic_invoked_by ctx.
Proof.
  intros Hnow [Hheld _] [Happ Hver Hhash Hrunid] Hids Hrun. unfold parse_operation, get_str, get_u64 in Hrun.
  apply bind_Ok_inv in Hrun as (object & Hobj & Hrun). destruct (Value_as_object operation) as [o|]; [|done]. injection Hobj as ->.
  apply bind_Ok_inv in Hrun as (kind & _ & Hrun). apply bind_Ok_inv in Hrun as (item & Hitem & Hrun).
  destruct (obj_get object "item_id" ≫= Value_as_str) as [i|] eqn:Ei; [|done]. injection Hitem as ->.
  destruct (Hids object item eq_refl Ei) as [Hne Hlen].
  apply bind_Ok_inv in Hrun as (revision & _ & Hrun). apply bind_unit_Ok in Hrun as [_ Hrun].
  case_bool_decide; [|case_bool_decide; [injection Hrun as <- <- <-; done|done]].
  apply bind_Ok_inv in Hrun as (content & _ & Hrun). apply bind_unit_Ok in Hrun as [Hchars%reject_Ok Hrun].
  apply bind_unit_Ok in Hrun as [_ [= <- <- <-]]. split; [|done]. split.
  - unfold validate_context_identity. simpl. rewrite !(bool_decide_eq_false_2 (_ = EmptyString)) by done. simpl.
    by rewrite (proj2 (Nat.ltb_ge _ _)).
  - unfold validate_context. simpl. rewrite Hchars, bool_decide_eq_true_2 by done. simpl. rewrite Hnow.
    assert (rfc3339_ok (default now (ic_created_at <$> List.find (same_context (ic_invoked_by ctx) item) (ct_injected_contexts thread)))
      = true) as ->; [|done].
    destruct (List.find _ _) as [c|] eqn:Ef; [|done]. apply find_Some_elem in Ef as [Hc _]. simpl.
    destruct (ho_contexts _ Hheld c Hc) as [_ Hv]. unfold validate_context in Hv. do 2 apply bind_unit_Ok in Hv as [_ Hv].
    apply reject_Ok, orb_false_iff in Hv as [Hv%negb_false_iff _]. done.
Qed.

Lemma parse_operations_updates now thread ctx seen total operations updates :
  rfc3339_ok now = true -> contexts_ok thread -> caller_ok ctx ->
  (∀ operation object id, operation ∈ operations -> Value_as_object operation = Some object ->
     obj_get object "item_id" ≫= Value_as_str = Some id -> id <> EmptyString /\ chars_count id <= 256) ->
  parse_operations now thread ctx seen total operations = Ok updates ->
  Forall update_ok updates /\ Forall (fun u => update_source u = ic_invoked_by ctx) updates.
Proof.
  intros Hnow Hth Hctx. revert seen total updates. induction operations as [|o l IH]; intros seen total updates Hids; simpl.
  - by intros [= <-].
  - intros ([[item total'] u] & Hp & (rest & Hrest & [= <-])%bind_Ok_inv)%bind_Ok_inv.
    apply parse_operation_update in Hp as [Hu Hs]; [|done..|intros object id; apply (Hids o); by left].
    destruct (IH (item :: seen) total' rest) as [Ha Hb]; [intros; eapply (Hids operation); eauto; by right|done|].
    by split; constructor.
Qed.

Lemma parse_contributions_source app version seen items s contributions s' :
  parse_contributions app version seen items s = (Ok contributions, s') ->
  Forall (fun x => cc_source_app_id x = app) contributions.
Proof.
  revert seen s contributions s'. induction items as [|item l IH]; intros seen s contributions s'; simpl; [by intros [= <- _]|].
  intros (c & s1 & Hc & (rest & s2 & Hrest & [= <- _])%st_bind_Ok_inv)%st_bind_Ok_inv. constructor; [|exact (IH _ _ _ _ Hrest)].
  unfold parse_contribution in Hc. repeat (apply st_bind_Ok_inv in Hc as (? & ? & _ & Hc)). by injection Hc as <- _.
Qed.

Lemma parse_contributions_ambient app version seen items : ambient (parse_contributions app version seen items).
Proof.
  revert seen. induction items as [|item l IH]; intros seen; simpl; [apply ret_ambient|].
  apply bind_ambient; [|intros c; apply bind_ambient; [apply IH|intros rest; apply ret_ambient]].
  unfold parse_contribution. do 11 (apply bind_ambient; [apply lift_ambient|intros ?]).
  do 2 (apply bind_ambient; [apply now_iso_ambient|intros ?]). apply ret_ambient.
Qed.

(** What a call left of the threads. *)
Definition in_scope (ctx : InvocationContext) (s s' : ChatStore) : Prop :=
  ct_id <$> sd_threads (cs_document s') = ct_id <$> sd_threads (cs_document s) /\
  ∀ t', t' ∈ sd_threads (cs_document s') -> ∃ t, t ∈ sd_threads (cs_document s) /\
    (t' = t \/ scope_names (ic_authorized_data_scope ctx) (ct_resource_id t) = true /\ own_changes (ic_invoked_by ctx) t t').

Lemma same_in_scope ctx s s' : cs_document s' = cs_document s -> in_scope ctx s s'.
Proof. intros E. unfold in_scope. rewrite E. split; [done|]. intros t Ht. exists t. auto. Qed.

Lemma touched_own app now t t' : own_changes app t t' -> own_changes app t (touched now t').
Proof. by intros []. Qed.

(** An edit of one authorized thread. *)
Lemma edit_in_scope ctx thread change s0 s r s' :
  chat_wf s -> cs_document s = cs_document s0 -> thread ∈ sd_threads (cs_document s0) ->
  scope_names (ic_authorized_data_scope ctx) (ct_resource_id thread) = true ->
  (∀ t, ambient (change t)) ->
  (∀ t t' s1 s2, t ∈ sd_threads (cs_document s) -> change t s1 = (Ok t', s2) ->
     own_changes (ic_invoked_by ctx) t t' /\ contexts_ok t') ->
  edit_thread (ct_id thread) change s = (r, s') -> chat_wf s' /\ in_scope ctx s0 s'.
Proof.
  intros Hwf Hdoc Hin Hscope Hamb Hown Hrun.
  destruct (edit_thread_cases (ct_id thread) change s r s' Hwf Hamb) as (Hwf' & _ & Hcase); [|done|].
  { intros t t' s1 s2 Ht Hc. destruct (Hown t t' s1 s2 Ht Hc) as [[? ?] ?]. done. }
  split; [done|]. destruct Hcase as [[Hd _]|(t & changed & now & threads' & s1 & s2 & Hf & Hc & Hrep & Hd & _)];
    [apply same_in_scope; congruence|].
  destruct (cw_document s Hwf) as (_ & _ & Hn & _). rewrite Hdoc in *.
  assert (t = thread) as ->.
  { pose proof (find_key_unique ct_id _ _ thread Hn Hin eq_refl) as Hu. unfold find_key, find_thread in *. congruence. }
  destruct (Hown thread changed s1 s2 Hin Hc) as [Ho _].
  pose proof (replace_key ct_id (ct_id thread) (fun _ => touched now changed) (sd_threads (cs_document s0))
    ltac:(intros; apply Ho)) as Hr.
  unfold find_key, find_thread in *. rewrite Hf, Hrep in Hr. destruct Hr as (l & [= <-] & Hkeys & _ & Hel).
  unfold in_scope. rewrite Hd. simpl. split; [done|]. intros t' [->|Ht]%Hel; [|exists t'; auto].
  exists thread. split; [done|]. right. split; [done|]. by apply touched_own.
Qed.

(** A call that only reads. *)
Lemma ambient_in_scope ctx {A} (m : st ChatStore string A) s r s' :
  ambient m -> chat_wf s -> m s = (r, s') -> chat_wf s' /\ in_scope ctx s s' /\ cs_document s' = cs_document s.
Proof. intros Hm Hwf Hrun. destruct (Hm s r s' Hrun) as (Hd & _ & Hw). split_and!; [auto|by apply same_in_scope|done]. Qed.

(** Running the first part of a call, which only reads. *)
Lemma ambient_prefix ctx {A B} (m : st ChatStore string A) (k : A -> st ChatStore string B) s0 s r s' :
  ambient m -> chat_wf s -> cs_document s = cs_document s0 -> (m ≫= k) s = (r, s') ->
  (∀ a s1, m s = (Ok a, s1) -> chat_wf s1 -> cs_document s1 = cs_document s0 -> k a s1 = (r, s') ->
     chat_wf s' /\ in_scope ctx s0 s') ->
  chat_wf s' /\ in_scope ctx s0 s'.
Proof.
  intros Hm Hwf Hd Hrun Hk. rewrite st_bind_run in Hrun. destruct (m s) as [r1 s1] eqn:E.
  destruct (Hm _ _ _ E) as (Hd1 & _ & Hw1). destruct r1 as [a|e|msg]; [by apply (Hk a s1); auto; congruence|..];
    injection Hrun as _ <-; (split; [auto|apply same_in_scope; congruence]).
Qed.

Lemma edit_then_ret {A} (m : st ChatStore string ChatThread) (f : ChatThread -> A) s r s' :
  (m ≫= fun t => mret (f t)) s = (r, s') -> ∃ r', m s = (r', s').
Proof. rewrite st_bind_run. destruct (m s) as [[t|e|msg] s1]; intros [= _ <-]; eauto. Qed.

Lemma authorized_thread_Ok resource_id document thread :
  authorized_thread resource_id document = Ok thread -> thread ∈ sd_threads document /\ ct_resource_id thread = resource_id.
Proof.
  unfold authorized_thread, find_thread_by_resource_id. destruct (List.find _ _) as [t|] eqn:E; [|done]. intros [= ->].
  by apply find_Some_elem in E as [? ?%bool_decide_eq_true].
Qed.

Lemma get_ambient : ambient (st_get cs_document).
Proof. by apply ambient_same. Qed.

Lemma propose_draft_in_scope input ctx s r s' :
  chat_wf s -> propose_draft input ctx s = (r, s') -> chat_wf s' /\ in_scope ctx s s'.
Proof.
  intros Hwf Hrun. unfold propose_draft in Hrun.
  do 4 (eapply ambient_prefix in Hrun; [exact Hrun|apply lift_ambient|done|done|]; clear Hrun; intros ? ? _ ? ? Hrun).
  eapply ambient_prefix in Hrun; [exact Hrun|apply lift_ambient|done|done|].
  intros [] q1 [Hscope%reject_Ok _]%st_lift_inv Hwf1 Hd1 Hrun1. apply negb_false_iff in Hscope.
  eapply ambient_prefix in Hrun1; [exact Hrun1|apply get_ambient|done|done|]. intros document q2 [= <- <-] _ _ Hrun2.
  eapply ambient_prefix in Hrun2; [exact Hrun2|apply lift_ambient|done|done|].
  intros thread q3 [[Hin Hres]%authorized_thread_Ok <-]%st_lift_inv _ _ Hrun3.
  eapply ambient_prefix in Hrun3; [exact Hrun3|apply parse_contributions_ambient|done|done|].
  intros pending q4 Hpending%parse_contributions_source Hwf4 Hd4 Hrun4. apply edit_then_ret in Hrun4 as [r' Hrun4].
  rewrite Hd1 in Hin. eapply edit_in_scope in Hrun4; [exact Hrun4|done|done|done|by rewrite Hres|intros t; apply lift_ambient|].
  intros t t' sa sb Ht [Hu _]%st_lift_inv. destruct (updated_contributions_own _ _ _ _ _ _ Hpending Hu) as [Ho Hheld].
  split; [done|]. destruct (cw_document q4 Hwf4) as (_ & Hall & _). destruct (Hall t Ht) as (_ & _ & Hok).
  unfold contexts_ok, held_of in *. by injection Hheld as -> ->.
Qed.

Lemma inject_user_context_in_scope input ctx s r s' :
  chat_wf s -> caller_ok ctx -> item_ids_ok input -> inject_user_context input ctx s = (r, s') ->
  chat_wf s' /\ in_scope ctx s s'.
Proof.
  intros Hwf Hctx Hids Hrun. unfold inject_user_context in Hrun.
  eapply ambient_prefix in Hrun; [exact Hrun|apply lift_ambient|done|done|]. clear Hrun. intros resource_id sa _ Hwfa Hda Hrun.
  eapply ambient_prefix in Hrun; [exact Hrun|apply lift_ambient|done|done|]. clear Hrun.
  intros operations sb [Hops _]%st_lift_inv Hwfb Hdb Hrun. unfold get_array in Hops.
  eapply ambient_prefix in Hrun; [exact Hrun|apply lift_ambient|done|done|]. clear Hrun. intros ? sc _ Hwfc Hdc Hrun.
  eapply ambient_prefix in Hrun; [exact Hrun|apply lift_ambient|done|done|].
  intros [] s1 [Hscope%reject_Ok _]%st_lift_inv Hwf1 Hd1 Hrun1. apply negb_false_iff in Hscope.
  eapply ambient_prefix in Hrun1; [exact Hrun1|apply get_ambient|done|done|]. intros document s2 [= <- <-] _ _ Hrun2.
  eapply ambient_prefix in Hrun2; [exact Hrun2|apply lift_ambient|done|done|].
  intros thread s3 [[Hin Hres]%authorized_thread_Ok <-]%st_lift_inv _ _ Hrun3. rewrite Hd1 in Hin.
  eapply ambient_prefix in Hrun3; [exact Hrun3|apply now_iso_ambient|done|done|].
  intros now s4 Hnow%now_iso_parses Hwf4 Hd4 Hrun4.
  eapply ambient_prefix in Hrun4; [exact Hrun4|apply lift_ambient|done|done|].
  intros updates s5 [Hup _]%st_lift_inv Hwf5 Hd5 Hrun5. apply edit_then_ret in Hrun5 as [r' Hrun5].
  destruct (cw_document s Hwf) as (_ & Hall & _). pose proof (Hall thread Hin) as (_ & _ & Hthread).
  apply parse_operations_updates in Hup as [Hok Hsrc]; [|done..|].
  2:{ intros operation object id Ho. apply (Hids operations); [|done]. by destruct (obj_get input "operations" ≫= _); simplify_eq/=. }
  eapply edit_in_scope in Hrun5; [exact Hrun5|done|done|done|by rewrite Hres|intros t; apply lift_ambient|].
  intros t t' sx sy Ht [Hu _]%st_lift_inv. rewrite Hd5 in Ht. destruct (Hall t Ht) as (_ & _ & Hct).
  split; [by eapply updated_contexts_own|].
  destruct (updated_contexts_sound _ _ _ _ Hu (proj1 Hct) Hok) as (? & ? & ? & ? & _). by split_and!.
Qed.

Lemma list_threads_ambient input ctx : ambient (list_threads_handler input ctx).
Proof.
  unfold list_threads_handler. apply bind_ambient; [apply lift_ambient|intros ids].
  apply bind_ambient; [apply get_ambient|intros document]. apply bind_ambient; [apply lift_ambient|intros paged].
  apply ret_ambient.
Qed.

Lemma read_thread_ambient input ctx : ambient (read_thread_handler input ctx).
Proof.
  unfold read_thread_handler. do 2 (apply bind_ambient; [apply lift_ambient|intros ?]).
  apply bind_ambient; [apply get_ambient|intros document]. apply bind_ambient; [apply lift_ambient|intros paged].
  apply ret_ambient.
Qed.

(** C21: A call of another app stays within its conversation and its own material. However a
    capability of Chat ends, no thread appears, disappears or changes place; a thread that
    changed is one the authorized scope of the call names; and of it nothing changed but the
    contributions and the context of the calling app: titles, messages, receipts, settings and
    what other apps put there are as before. The capabilities that read change nothing. And
    what is in memory and on disk afterwards still passes every check of a loaded document. *)
Theorem chat_calls_stay_in_scope name handler input ctx s r s' :
  chat_wf s -> caller_ok ctx -> item_ids_ok input -> (name, handler) ∈ chat_handlers ->
  run_chat_handler handler input ctx s = (r, s') ->
  chat_wf s' /\ in_scope ctx s s' /\
  (name = "chat.list_threads" \/ name = "chat.read_thread" -> cs_document s' = cs_document s).
Proof.
  intros Hwf Hctx Hids Hin Hrun.
  assert (∃ r', handler input ctx s = (r', s')) as [r' Hh].
  { unfold run_chat_handler, st_map_err in Hrun. destruct (handler input ctx s) as [? ?]. injection Hrun as _ <-. eauto. }
  unfold chat_handlers in Hin. rewrite !elem_of_cons in Hin.
  destruct Hin as [Hin|[Hin|[Hin|[Hin|Hin]]]]; [injection Hin as -> ->..|inversion Hin].
  - destruct (propose_draft_in_scope input ctx s r' s' Hwf Hh). split_and!; [done|done|by intros [|]].
  - destruct (inject_user_context_in_scope input ctx s r' s' Hwf Hctx Hids Hh). split_and!; [done|done|by intros [|]].
  - destruct (ambient_in_scope ctx _ _ _ _ (list_threads_ambient input ctx) Hwf Hh) as (? & ? & ?). done.
  - destruct (ambient_in_scope ctx _ _ _ _ (read_thread_ambient input ctx) Hwf Hh) as (? & ? & ?). done.
Qed.
End calls.
