(* ===== verification/ChatWitnesses.v ===== *)
(** * Concrete chats

    The chat document laid out as text, and the theorems on the chat store applied to short
    histories of it. *)

From Stdlib Require Import SpecFloat.
From S2P Require Import Prelude RustStd RustText Json JsonOps Types Errors Grants Manifest Platform Ledger Registry Broker Artifacts Invocation AtomicJson Packages PackageChecks ChatModelProfiles ChatStore ChatStoreFacts ChatSend ChatApp HostDemo ManagedDemo PackageWitnesses.

(** ** Layouts *)

#[export] Instance positive_layout : Layout positive := numbered.

#[export] Instance spec_float_layout : Layout spec_float := embedded
  (fun x => match x with
            | S754_zero s => (s, None, None)
            | S754_infinity s => (s, None, Some 0%Z)
            | S754_nan => (true, None, Some 1%Z)
            | S754_finite s m e => (s, Some m, Some e)
            end)
  (fun '(s, m, e) => match m, e with
            | None, None => Some (S754_zero s)
            | None, Some 0%Z => Some (S754_infinity s)
            | None, Some _ => Some S754_nan
            | Some m, Some e => Some (S754_finite s m e)
            | _, _ => None
            end) ltac:(by intros []).

Ltac all_constructors := intros []; set_solver.

#[export] Instance ChatMessageRole_layout : Layout ChatMessageRole :=
  enumerated [RoleUser; RoleAssistant; RoleSystem; RoleToolStatus] ltac:(all_constructors).
#[export] Instance ChatContributionKind_layout : Layout ChatContributionKind :=
  enumerated [TextSnapshot; ArtifactRef; ResourceRef; DraftProposal] ltac:(all_constructors).
#[export] Instance ChatMessageStatus_layout : Layout ChatMessageStatus :=
  enumerated [MsgPending; MsgCompleted; MsgInterrupted; MsgFailed; MsgCancelled] ltac:(all_constructors).
#[export] Instance Completeness_eq_dec : EqDecision ChatContributionCompleteness.
Proof. solve_decision. Defined.
#[export] Instance Lifecycle_eq_dec : EqDecision ChatContributionLifecycle.
Proof. solve_decision. Defined.
#[export] Instance Completeness_layout : Layout ChatContributionCompleteness :=
  enumerated [ContributionComplete; ContributionTruncated; ContributionUnavailable] ltac:(all_constructors).
#[export] Instance Lifecycle_layout : Layout ChatContributionLifecycle :=
  enumerated [LifecycleDraft; LifecycleAccepted; LifecycleRemoved; LifecycleStale; LifecycleFailed]
    ltac:(all_constructors).

#[export] Instance Prompt_layout : Layout ChatModelProfilePrompt := embedded
  (fun p => (pp_layer_ids p, pp_custom_texts p))
  (fun '(l, t) => Some {| pp_layer_ids := l; pp_custom_texts := t |}) ltac:(record_layout).
#[export] Instance ModelReceipt_layout : Layout ChatModelProfileReceipt := embedded
  (fun r => ((mr_source_app_id r, mr_source_app_version r, mr_profile_id r, mr_profile_digest r, mr_title r,
              mr_connector_id r), (mr_model r, mr_reasoning r, mr_temperature r, mr_max_output_tokens r, mr_tool_refs r,
              mr_prompt r)))
  (fun '((a, b, c, d, e, f), (g, h, i, j, k, l)) => Some
     {| mr_source_app_id := a; mr_source_app_version := b; mr_profile_id := c; mr_profile_digest := d; mr_title := e;
        mr_connector_id := f; mr_model := g; mr_reasoning := h; mr_temperature := i; mr_max_output_tokens := j;
        mr_tool_refs := k; mr_prompt := l |}) ltac:(record_layout).
#[export] Instance Contribution_layout : Layout ChatContribution := embedded
  (fun c => ((cc_source_app_id c, cc_source_app_version c, cc_source_contract c, cc_item_id c, cc_revision c, cc_digest c),
             (cc_completeness c, cc_lifecycle c, cc_kind c, cc_title c, cc_body c, cc_created_at c, cc_updated_at c)))
  (fun '((a, b, c, d, e, f), (g, h, i, j, k, l, m)) => Some
     {| cc_source_app_id := a; cc_source_app_version := b; cc_source_contract := c; cc_item_id := d; cc_revision := e;
        cc_digest := f; cc_completeness := g; cc_lifecycle := h; cc_kind := i; cc_title := j; cc_body := k;
        cc_created_at := l; cc_updated_at := m |}) ltac:(record_layout).
#[export] Instance InjectedContext_layout : Layout ChatInjectedContext := embedded
  (fun c => ((ic_source_app_id c, ic_source_app_version c, ic_source_app_content_hash c, ic_source_run_id c,
              ic_item_id c), (ic_revision c, ic_content_digest c, ic_content c, ic_created_at c, ic_updated_at c)))
  (fun '((a, b, c, d, e), (f, g, h, i, j)) => Some
     {| ic_source_app_id := a; ic_source_app_version := b; ic_source_app_content_hash := c; ic_source_run_id := d;
        ic_item_id := e; ic_revision := f; ic_content_digest := g; ic_content := h; ic_created_at := i;
        ic_updated_at := j |}) ltac:(record_layout).
#[export] Instance Tombstone_layout : Layout ChatInjectedContextTombstone := embedded
  (fun t => (tb_source_app_id t, tb_item_id t, tb_revision t))
  (fun '(a, b, c) => Some {| tb_source_app_id := a; tb_item_id := b; tb_revision := c |}) ltac:(record_layout).
#[export] Instance EntryReceipt_layout : Layout ChatInjectedContextEntryReceipt := embedded
  (fun e => ((er_source_app_id e, er_source_app_name e, er_source_app_version e, er_item_id e),
             (er_revision e, er_source_run_id e, er_grant_id e, er_content_digest e)))
  (fun '((a, b, c, d), (e, f, g, h)) => Some
     {| er_source_app_id := a; er_source_app_name := b; er_source_app_version := c; er_item_id := d; er_revision := e;
        er_source_run_id := f; er_grant_id := g; er_content_digest := h |}) ltac:(record_layout).
#[export] Instance InjectedReceipt_layout : Layout ChatInjectedContextReceipt := embedded
  (fun r => (ir_message_digest r, ir_entries r, ir_exact_message r))
  (fun '(a, b, c) => Some {| ir_message_digest := a; ir_entries := b; ir_exact_message := c |}) ltac:(record_layout).
#[export] Instance Message_layout : Layout ChatMessage := embedded
  (fun m => ((mg_message_id m, mg_role m, mg_text m, mg_reasoning m, mg_run_id m),
             (mg_artifact_ids m, mg_status m, mg_client_request_id m, mg_created_at m, mg_completed_at m)))
  (fun '((a, b, c, d, e), (f, g, h, i, j)) => Some
     {| mg_message_id := a; mg_role := b; mg_text := c; mg_reasoning := d; mg_run_id := e; mg_artifact_ids := f;
        mg_status := g; mg_client_request_id := h; mg_created_at := i; mg_completed_at := j |}) ltac:(record_layout).
#[export] Instance PromptLayer_layout : Layout ChatPromptReceiptLayer := embedded
  (fun l => (pl_id l, pl_kind l, pl_title l, pl_source l, pl_content l))
  (fun '(a, b, c, d, e) => Some {| pl_id := a; pl_kind := b; pl_title := c; pl_source := d; pl_content := e |})
  ltac:(record_layout).
#[export] Instance CompositionReceipt_layout : Layout ChatCompositionReceipt := embedded
  (fun r => ((cr_system_prompt_digest r, cr_assistant_profile_ref r, cr_assistant_profile_digest r,
              cr_enabled_skill_digests r, cr_context_block_digests r, cr_attachment_refs r),
             (cr_available_capability_refs r, cr_provider_profile_ref r, cr_model_profile r, cr_agent_engine_ref r,
              cr_agent_engine_version r, cr_agent_engine_features r),
             (cr_assistant_capability_refs r, cr_created_at r, cr_system_prompt r, cr_layers r, cr_injected_context r)))
  (fun '((a, b, c, d, e, f), (g, h, i, j, k, l), (m, n, o, p, q)) => Some
     {| cr_system_prompt_digest := a; cr_assistant_profile_ref := b; cr_assistant_profile_digest := c;
        cr_enabled_skill_digests := d; cr_context_block_digests := e; cr_attachment_refs := f;
        cr_available_capability_refs := g; cr_provider_profile_ref := h; cr_model_profile := i;
        cr_agent_engine_ref := j; cr_agent_engine_version := k; cr_agent_engine_features := l;
        cr_assistant_capability_refs := m; cr_created_at := n; cr_system_prompt := o; cr_layers := p;
        cr_injected_context := q |}) ltac:(record_layout).
#[export] Instance ProfileReceipt_layout : Layout ChatProfileReceipt := embedded
  (fun r => ((pr_app_id r, pr_profile_name r, pr_version r, pr_digest r),
             (pr_reviewed_skill_digests r, pr_capability_refs r, pr_engine_contract r, pr_status r)))
  (fun '((a, b, c, d), (e, f, g, h)) => Some
     {| pr_app_id := a; pr_profile_name := b; pr_version := c; pr_digest := d; pr_reviewed_skill_digests := e;
        pr_capability_refs := f; pr_engine_contract := g; pr_status := h |}) ltac:(record_layout).
#[export] Instance EngineReceipt_layout : Layout ChatAgentEngineReceipt := embedded
  (fun r => (ae_app_id r, ae_version r, ae_contract r))
  (fun '(a, b, c) => Some {| ae_app_id := a; ae_version := b; ae_contract := c |}) ltac:(record_layout).
#[export] Instance EngineState_layout : Layout ChatAgentEngineState := embedded
  (fun r => (as_status r, as_fallback_reason r))
  (fun '(a, b) => Some {| as_status := a; as_fallback_reason := b |}) ltac:(record_layout).
#[export] Instance Setup_layout : Layout ChatThreadSetup := embedded
  (fun e => ((se_assistant_profile_ref e, se_assistant_profile_receipt e, se_model_profile_ref e),
             (se_model_profile_receipt e, se_chat_agent_engine_ref e, se_chat_agent_engine_receipt e,
              se_chat_agent_engine_state e)))
  (fun '((a, b, c), (d, e, f, g)) => Some
     {| se_assistant_profile_ref := a; se_assistant_profile_receipt := b; se_model_profile_ref := c;
        se_model_profile_receipt := d; se_chat_agent_engine_ref := e; se_chat_agent_engine_receipt := f;
        se_chat_agent_engine_state := g |}) ltac:(record_layout).
#[export] Instance Thread_layout : Layout ChatThread := embedded
  (fun t => ((ct_id t, ct_resource_id t, ct_revision t, ct_title t, ct_created_at t, ct_updated_at t),
             (ct_messages t, ct_prompt_receipts t, ct_contributions t, ct_injected_contexts t,
              ct_injected_context_tombstones t, ct_setup t)))
  (fun '((a, b, c, d, e, f), (g, h, i, j, k, l)) => Some
     {| ct_id := a; ct_resource_id := b; ct_revision := c; ct_title := d; ct_created_at := e; ct_updated_at := f;
        ct_messages := g; ct_prompt_receipts := h; ct_contributions := i; ct_injected_contexts := j;
        ct_injected_context_tombstones := k; ct_setup := l |}) ltac:(record_layout).
#[export] Instance ChatDocument_layout : Layout ChatStoreDocument := embedded
  (fun d => (sd_version d, sd_threads d))
  (fun '(v, t) => Some {| sd_version := v; sd_threads := t |}) ltac:(record_layout).

#[export] Instance demo_chat_codec : ChatCodec := {
  chat_to_vec_pretty := write_document;
  chat_from_str := read_document;
}.
#[export] Instance demo_chat_codec_laws : ChatCodecLaws.
Proof. split. apply document_roundtrip. Qed.

(** A clock that ticks at each reading. *)
#[export] Instance demo_chrono : Chrono := {
  rfc3339_ok := starts_with "t";
  now_at n := "t" +:+ pretty (N.of_nat n);
}.

(** ** A history *)

Definition chats_path : Path := {| p_parent := "/data"; p_file_name := "chats.json" |}.

Definition first_chats : ChatStore :=
  {| cs_path := chats_path; cs_document := fresh_document; cs_fs := no_files; cs_clock := 0 |}.

Definition demo_context (revision : N) (content : string) : ChatInjectedContext :=
  {| ic_source_app_id := "notes"; ic_source_app_version := "1.0.0"; ic_source_app_content_hash := "sha256:n";
     ic_source_run_id := "run-1"; ic_item_id := "item"; ic_revision := revision;
     ic_content_digest := digest_digits 64 content; ic_content := content; ic_created_at := "t0"; ic_updated_at := "t0" |}.

Definition demo_answer : ChatMessage :=
  {| mg_message_id := EmptyString; mg_role := RoleAssistant; mg_text := "Hello."; mg_reasoning := None;
     mg_run_id := Some "run-2"; mg_artifact_ids := []; mg_status := Some MsgCompleted; mg_client_request_id := None;
     mg_created_at := EmptyString; mg_completed_at := None |}.

Definition demo_thread : string := "thread-uuid-0".

Definition demo_commands : list ChatCommand :=
  [CmdCreate None None;
   CmdAsk demo_thread "  Who is there?" "request-1";
   CmdInject demo_thread [ContextUpsert (demo_context 1 "alpha")] stored_context_limits;
   CmdAnswer demo_thread "request-1" [demo_answer] None [];
   CmdInject demo_thread [ContextRemove "notes" "item" 2] stored_context_limits;
   CmdCreate None None].

Definition run_chats (commands : list ChatCommand) (s : ChatStore) : ChatStore :=
  foldl (fun s c => (run_chat_command c s).2) s commands.

Fixpoint allowed_along (commands : list ChatCommand) (s : ChatStore) : Prop :=
  match commands with
  | [] => True
  | c :: commands' => command_allowed c s /\ allowed_along commands' (run_chat_command c s).2
  end.

Lemma run_chats_steps commands s : allowed_along commands s -> rtc chat_step s (run_chats commands s).
Proof.
  revert s. induction commands as [|c commands IH]; intros s; simpl; [constructor|]. intros [Hc Hrest].
  eapply rtc_l; [|by apply IH]. destruct (run_chat_command c s) as [r s'] eqn:E. by exists c, r.
Qed.

Definition two_chats : ChatStore := run_chats demo_commands first_chats.

Lemma demo_context_ok revision : context_ok (demo_context revision "alpha").
Proof. split; vm_compute; reflexivity. Qed.
Lemma next_context_ok : context_ok (demo_context 2 "beta").
Proof. split; vm_compute; reflexivity. Qed.

Definition asked_chats : ChatStore := run_chats (take 5 demo_commands) first_chats.

Lemma demo_allowed : allowed_along demo_commands first_chats.
Proof.
  split; [intros t Ht; inversion Ht|]. split; [done|].
  split; [split; [done|]; apply Forall_singleton, demo_context_ok|]. split; [done|].
  split; [split; [done|]; by apply Forall_singleton|]. split; [|done].
  change (command_allowed (CmdCreate None None) asked_chats). intros t Ht.
  assert ((fun t => (ct_id t, ct_resource_id t)) <$> sd_threads (cs_document asked_chats) = [("thread-uuid-0", "chat-thread-uuid-1")])
    as Hids by (vm_compute; reflexivity).
  assert (fs_uuids (cs_fs asked_chats) = 8) as -> by (vm_compute; reflexivity).
  apply (list_elem_of_fmap_2 (fun t => (ct_id t, ct_resource_id t))) in Ht. rewrite Hids in Ht.
  apply list_elem_of_singleton in Ht. injection Ht as -> ->. split; vm_compute; discriminate.
Qed.

Lemma chat_store_reopens_witness :
  honest no_files /\ with_writer chats_path no_files 0 = Ok first_chats /\ rtc chat_step first_chats two_chats /\
  length (sd_threads (cs_document two_chats)) = 2 /\
  ((∃ reopened, with_writer chats_path (quiet (cs_fs two_chats)) 9 = Ok reopened /\
     cs_document reopened = persisted_part (cs_document two_chats)) /\
   validate_persisted chats_path (quiet (cs_fs two_chats)) = Ok tt /\
   (∀ thread, thread ∈ sd_threads (cs_document two_chats) -> thread ∉ sd_threads (persisted_part (cs_document two_chats)) ->
     ct_revision thread = 0%N /\ ct_messages thread = [] /\ ct_contributions thread = [] /\
     ct_injected_contexts thread = [] /\ ct_injected_context_tombstones thread = [])).
Proof.
  assert (honest no_files) as Hh by (intros fault Hin; inversion Hin).
  assert (with_writer chats_path no_files 0 = Ok first_chats) as Hw by (vm_compute; reflexivity).
  assert (rtc chat_step first_chats two_chats) as Hs by (apply run_chats_steps, demo_allowed).
  split; [exact Hh|]. split; [exact Hw|]. split; [exact Hs|]. split; [vm_compute; reflexivity|].
  exact (chat_store_reopens chats_path no_files 0 9 first_chats two_chats Hh Hw Hs).
Defined.

(** The context is replaced under its next revision. *)
Definition held_chats : ChatStore := run_chats (take 3 demo_commands) first_chats.
Definition next_context : ChatCommand :=
  CmdInject demo_thread [ContextUpsert (demo_context 2 "beta")] stored_context_limits.
Definition moved_chats : ChatStore := (run_chat_command next_context held_chats).2.
Definition first_thread (s : ChatStore) : ChatThread :=
  match sd_threads (cs_document s) with
  | t :: _ => t
  | [] => {| ct_id := ""; ct_resource_id := ""; ct_revision := 0; ct_title := ""; ct_created_at := ""; ct_updated_at := "";
             ct_messages := []; ct_prompt_receipts := ∅; ct_contributions := []; ct_injected_contexts := [];
             ct_injected_context_tombstones := [];
             ct_setup := {| se_assistant_profile_ref := None; se_assistant_profile_receipt := None;
                            se_model_profile_ref := None; se_model_profile_receipt := None;
                            se_chat_agent_engine_ref := None; se_chat_agent_engine_receipt := None;
                            se_chat_agent_engine_state := None |} |}
  end.

Lemma held_chats_wf : chat_wf held_chats.
Proof.
  assert (honest no_files) as Hh by (intros fault Hin; inversion Hin).
  assert (with_writer chats_path no_files 0 = Ok first_chats) as Hw by (vm_compute; reflexivity).
  destruct (with_writer_wf _ _ _ _ Hh Hw) as [Hwf _].
  assert (rtc chat_step first_chats held_chats) as Hs.
  { apply run_chats_steps. destruct demo_allowed as (H1 & H2 & H3 & _). split; [exact H1|]. split; [exact H2|].
    by split; [exact H3|]. }
  by destruct (chat_steps_wf _ _ Hwf Hs).
Qed.

Lemma injected_context_moves_forward_witness :
  chat_wf held_chats /\ command_allowed next_context held_chats /\
  run_chat_command next_context held_chats = (Ok tt, moved_chats) /\
  context_status (held_of (first_thread held_chats)) ("notes", "item") = Live 1 (digest_digits 64 "alpha") /\
  context_status (held_of (first_thread moved_chats)) ("notes", "item") = Live 2 (digest_digits 64 "beta") /\
  (contexts_ok (first_thread moved_chats) /\
   ∀ id, later (context_status (held_of (first_thread held_chats)) id) (context_status (held_of (first_thread moved_chats)) id)).
Proof.
  assert (command_allowed next_context held_chats) as Hc by (split; [done|]; apply Forall_singleton, next_context_ok).
  assert (run_chat_command next_context held_chats = (Ok tt, moved_chats)) as Hr.
  { assert ((run_chat_command next_context held_chats).1 = Ok tt) as H1 by (vm_compute; reflexivity).
    unfold moved_chats. rewrite <- H1. apply surjective_pairing. }
  split; [exact held_chats_wf|]. split; [exact Hc|]. split; [exact Hr|].
  split; [vm_compute; reflexivity|]. split; [vm_compute; reflexivity|].
  apply (injected_context_moves_forward next_context held_chats (Ok tt) moved_chats
           (first_thread held_chats) (first_thread moved_chats) held_chats_wf Hc Hr);
    [vm_compute; left|vm_compute; left|vm_compute; reflexivity].
Defined.

(** Pages of one message. *)
Lemma pages_read_the_transcript_witness :
  find_thread_by_resource_id (cs_document two_chats) "chat-thread-uuid-1" = Some (first_thread two_chats) /\
  (vw_text <$> transcript (first_thread two_chats) = ["Who is there?"; "Hello."]) /\
  (read_transcript (cs_document two_chats) (S (length (ct_messages (first_thread two_chats)))) "chat-thread-uuid-1" None 1 =
     Ok (transcript (first_thread two_chats)) /\
   ∀ cursor page, get_thread_page (cs_document two_chats) "chat-thread-uuid-1" cursor 1 = Ok page ->
     length (pg_messages page) <= 1).
Proof.
  assert (find_thread_by_resource_id (cs_document two_chats) "chat-thread-uuid-1" = Some (first_thread two_chats)) as Hf
    by (vm_compute; reflexivity).
  split; [exact Hf|]. split; [vm_compute; reflexivity|].
  apply (pages_read_the_transcript (cs_document two_chats) "chat-thread-uuid-1" (first_thread two_chats) 1 Hf); [lia|].
  vm_compute. discriminate.
Defined.

(** A message that was recorded, lost its process to a power failure and is sent again. *)
Definition empty_chats : ChatStore := run_chats (take 1 demo_commands) first_chats.

Definition demo_send : ActiveChatSend :=
  {| as_cancelled := false; as_run_ids := []; as_request_id := "request-1"; as_message := "Who is there?" |}.

Definition recorded_chats : ChatStore :=
  (append_user_message demo_thread "Who is there?" "request-1" empty_chats).2.

Definition recovered_chats : ChatStore :=
  {| cs_path := chats_path; cs_document := cs_document recorded_chats; cs_fs := cs_fs recorded_chats; cs_clock := 50 |}.

Definition recovered_host : ChatHost := idle_host recovered_chats [(demo_thread, "request-1")].

Lemma recorded_crash : crash (cs_fs recorded_chats) (cs_fs recorded_chats).
Proof.
  split; [done|]. split; [vm_compute; reflexivity|]. intros name. exists (fs_dir (cs_fs recorded_chats)). split; [by left|].
  by destruct (fs_dir (cs_fs recorded_chats) !! name).
Qed.

Lemma recovered_host_reached : rtc send_step (idle_host first_chats []) recovered_host.
Proof.
  set (h1 := with_store empty_chats (idle_host first_chats [])).
  set (h2 := started demo_thread demo_send h1).
  set (h3 := executing demo_thread "request-1" recorded_chats h2).
  apply rtc_l with h1.
  { eapply (step_command _ (CmdCreate None None) (Ok tt)); [split; [intros t Ht; inversion Ht|intros Hin; inversion Hin]|].
    vm_compute. reflexivity. }
  apply rtc_l with h2.
  { apply (step_begin h1 demo_thread " Who is there?" "request-1"). vm_compute. reflexivity. }
  apply rtc_l with h3.
  { assert ((append_user_message demo_thread "Who is there?" "request-1" empty_chats).1 = Ok (first_thread recorded_chats)) as Hok
      by (vm_compute; reflexivity).
    apply (step_record h2 demo_thread demo_send (first_thread recorded_chats) recorded_chats); [vm_compute; reflexivity..|].
    rewrite <- Hok. apply surjective_pairing. }
  apply rtc_once. apply (step_restart h3 (cs_fs recorded_chats) 50); [right; apply recorded_crash|].
  vm_compute. reflexivity.
Qed.

Lemma no_request_executed_twice_witness :
  settled no_files (p_file_name chats_path) /\ with_writer chats_path no_files 0 = Ok first_chats /\
  rtc send_step (idle_host first_chats []) recovered_host /\
  begin_send (document_of recovered_host) (ch_sends recovered_host) demo_thread "Who is there?" "request-1" =
    Err "this chat request was interrupted; it was not replayed because external effects may already have occurred" /\
  (NoDup (ch_executed recovered_host) /\
   ∀ thread_id request_id message entry, (thread_id, request_id) ∈ ch_executed recovered_host ->
     begin_send (document_of recovered_host) (ch_sends recovered_host) thread_id message request_id = Ok entry ->
     ∃ thread, entry = SendAnswered thread /\ get_thread (document_of recovered_host) thread_id = Ok thread /\
       asked thread request_id).
Proof.
  assert (settled no_files (p_file_name chats_path)) as Hs.
  { split; [intros f Hf; vm_compute in Hf; discriminate|intros d Hd; inversion Hd]. }
  assert (with_writer chats_path no_files 0 = Ok first_chats) as Hw by (vm_compute; reflexivity).
  split; [exact Hs|]. split; [exact Hw|]. split; [exact recovered_host_reached|]. split; [vm_compute; reflexivity|].
  exact (no_request_executed_twice chats_path no_files 0 first_chats recovered_host Hs Hw recovered_host_reached).
Defined.

(** ** Calls of other apps *)

#[export] Instance demo_chrono_laws : ChronoLaws.
Proof. by split. Qed.

Definition demo_caller (resource_ids : list ResourceId) : InvocationContext := {|
  ic_run_id := "run-1"; ic_invoked_by := "notes"; ic_invoked_by_version := "1.0.0";
  ic_invoked_by_content_hash := "sha256:n"; ic_authorized_data_scope := Resources resource_ids;
  ic_secrets := {| res_declared := ∅; res_secrets := ∅ |}; ic_artifacts := {| sn_artifacts := ∅ |};
  ic_cancellation := {| ch_cancelled := 0; ch_deadline := 1 |} |}.

Definition inject_input : JsonObject :=
  json_object [("resource_id", VString "chat-thread-uuid-1");
               ("operations", VArray [json_obj [("kind", VString "upsert"); ("item_id", VString "item");
                                                ("revision", json_number 3); ("content", VString "gamma")]])].

Definition inject_call : outcome HandlerFailure CapabilityOutcome * ChatStore :=
  run_chat_handler inject_user_context inject_input (demo_caller ["chat-thread-uuid-1"]) held_chats.

Lemma inject_input_ok : item_ids_ok inject_input.
Proof.
  intros operations operation object item_id Ho Hin Hobj Hid. vm_compute in Ho. injection Ho as <-.
  apply list_elem_of_singleton in Hin as ->. vm_compute in Hobj. injection Hobj as <-. vm_compute in Hid. injection Hid as <-.
  split; [done|]. vm_compute. lia.
Qed.

Lemma chat_calls_stay_in_scope_witness :
  chat_wf held_chats /\ caller_ok (demo_caller ["chat-thread-uuid-1"]) /\ item_ids_ok inject_input /\
  context_status (held_of (first_thread inject_call.2)) ("notes", "item") = Live 3 (digest_digits 64 "gamma") /\
  (chat_wf inject_call.2 /\ in_scope (demo_caller ["chat-thread-uuid-1"]) held_chats inject_call.2 /\
   (CHAT_INJECT_USER_CONTEXT = "chat.list_threads" \/ CHAT_INJECT_USER_CONTEXT = "chat.read_thread" ->
    cs_document inject_call.2 = cs_document held_chats)).
Proof.
  assert (caller_ok (demo_caller ["chat-thread-uuid-1"])) as Hc by (split; done).
  split; [exact held_chats_wf|]. split; [exact Hc|]. split; [exact inject_input_ok|]. split; [vm_compute; reflexivity|].
  apply (chat_calls_stay_in_scope CHAT_INJECT_USER_CONTEXT inject_user_context inject_input (demo_caller ["chat-thread-uuid-1"])
           held_chats inject_call.1 inject_call.2 held_chats_wf Hc inject_input_ok); [right; left|apply surjective_pairing].
Defined.

(** ** Standing consent *)

#[export] Instance ticking : Environment nat := {
  env_now n := (Z.of_nat n, S n);
  env_instant n := (Z.of_nat n, S n);
  env_uuid n := ("uuid-" +:+ pretty (N.of_nat n), S n);
}.

Definition notes_registry : Registry :=
  {| r_apps := {["notes" := {| ia_manifest := notes_manifest; ia_content_hash := "sha256:n"; ia_installed_at := 0%Z |}]} |}.

Definition this_thread : DataScope := Resources ["chat-thread-uuid-1"].

Definition recorded (sequence : N) (event : LedgerEvent) : LedgerRecord :=
  {| lr_sequence := sequence; lr_recorded_at := 0%Z; lr_event := event |}.

Definition notes_ledger : RunLedger :=
  {| l_records := [recorded 0 (RunStarted "run-1" (InitApp "notes" "sync") "share the note");
                   recorded 1 (CapabilityCompleted "run-1" inject_capability "grant-1" "sha256:r" this_thread);
                   recorded 2 (RunEnded "run-1" RunCompleted)];
     l_runs := ∅ |}.

Definition may_inject : Grant := {|
  g_grant_id := "grant-1"; g_holder := "notes"; g_scope := ExactCapability chat_app_id CHAT_INJECT_USER_CONTEXT;
  g_data_scope := this_thread; g_condition := Silent; g_origin := UserAdded; g_issued_at := 0%Z;
  g_expires_at := Some 100%Z |}.

Definition notes_broker (revoked : gset GrantId) : PermissionBroker :=
  {| b_grants := {["grant-1" := may_inject]}; b_revoked := revoked; b_secrets := ∅ |}.

Definition stored_contexts : list ChatInjectedContext := ct_injected_contexts (first_thread held_chats).

Definition shown (revoked : gset GrantId) : list AuthorizedChatInjectedContext :=
  match (authorize_injected_contexts notes_registry notes_ledger (notes_broker revoked) "chat-thread-uuid-1" stored_contexts 7).1 with
  | Ok authorized => authorized
  | _ => []
  end.

Lemma injected_context_needs_standing_consent_witness :
  authorize_injected_contexts notes_registry notes_ledger (notes_broker ∅) "chat-thread-uuid-1" stored_contexts 7
    = (Ok (shown ∅), 8) /\ length (shown ∅) = 1 /\ shown {["grant-1"]} = [] /\
  ((au_context <$> shown ∅) `sublist_of` stored_contexts /\ rtc clock_read 7 8 /\
   ∀ a, a ∈ shown ∅ -> ∃ w0, rtc clock_read 7 w0 /\ rtc clock_read w0 8 /\
     stands notes_registry notes_ledger (notes_broker ∅) "chat-thread-uuid-1" (env_now w0).1 a).
Proof.
  assert (authorize_injected_contexts notes_registry notes_ledger (notes_broker ∅) "chat-thread-uuid-1" stored_contexts 7
    = (Ok (shown ∅), 8)) as Hr by (vm_compute; reflexivity).
  split; [exact Hr|]. split; [vm_compute; reflexivity|]. split; [vm_compute; reflexivity|].
  exact (injected_context_needs_standing_consent notes_registry notes_ledger (notes_broker ∅) "chat-thread-uuid-1"
           stored_contexts 7 8 (shown ∅) Hr).
Defined.

(** A short transcript is replayed whole. *)
Lemma history_is_bounded_witness :
  let transcript := ct_messages (first_thread two_chats) in
  (lm_content <$> conversation_history transcript = ["Who is there?"; "Hello."]) /\
  length (conversation_history transcript) <= MAX_HISTORY_MESSAGES.
Proof.
  split; [vm_compute; reflexivity|]. apply (history_is_bounded (ct_messages (first_thread two_chats))).
Defined.
